(* ===== verification/_CoqProject ===== *)
-Q . S2P
Prelude.v
Bytes.v
Rle.v
Pzip.v
Params.v
Sleeplock.v
Bio.v
Ide.v
Bootmain.v
Log.v
Crash.v
Reserve.v
Blocks.v
Fs.v
FsInv.v
FsDemo.v
FsInode.v
FsMap.v
FsFile.v
Pipe.v
File.v
FileData.v
KString.v
Mmu.v
Kalloc.v
Vm.v
VmUser.v
Spinlock.v
Proc.v
Syscall.v
Sysfile.v
FsDir.v
FsPath.v
FsCreate.v
FsUnlink.v
Mkfs.v
Boot.v
Xcheck.v
Wish.v
Mp.v
Lapic.v
FdInv.v
Ulib.v
Umalloc.v
Console.v
Kbd.v
Sh.v
Text.v
Utils.v
Mapreduce.v
Lottery.v
ProcInv.v
