(* ===== verification/Prelude.v ===== *)
(** * A verification of the course repository: xv6 and the course projects

    ** The programs

    The repository holds a fork of the xv6 teaching kernel for the x86 with its
    user programs and its tools (src/src/), and the projects of an operating
    systems course that run on Linux: P1a (wcat, wgrep, wzip, wunzip), P2a (the
    shell wish), P3a (pzip), P4a (MapReduce) and P5 (the file system checker
    xcheck). The fork adds to the kernel a lottery scheduler, threads that share
    an address space, page protection and a count of reads.

    The kernel is built in layers. The disk driver serves the buffer cache, on
    which the log makes several writes one; the file system allocates blocks and
    inodes inside transactions of the log; open files, pipes and the system
    calls are on top of it. Beside it are the page allocator, the page tables,
    the process table with the scheduler, locks, the console with keyboard and
    serial port, and the search for the processors of the machine. User
    programs see system calls only.

    ** How code becomes definitions

    The embedding is shallow and every definition can be evaluated. C integers
    are [Z] with the wrap-around of their width written out ([u8] to [u32], [i8]
    to [i32]). Code with state is a function in the monad [M S A] of this file:
    it ends with a value and a state ([Done]), in a panic with its message
    ([Panic]), in an access the C program must not make ([Fault]), or going to
    sleep ([Asleep]). [wp] and [wlp] are the total and the partial weakest
    precondition; theorems that code returns use [wp]. Structures are records,
    enumerations inductive types, arrays lists, memory and disks finite maps.
    Code under a spin lock is one step, except in Spinlock.v, where the steps of
    the lock itself interleave; a sleep ends a step, and the operation goes on
    in another one (Pipe.v, Proc.v, Console.v); fork, clone and exit take the
    lock of the process table more than once and are as many steps. The threads
    of pzip share a heap and interleave at its accesses, those of MapReduce at
    the critical sections of MR_Emit and the calls of get_next and printf. Interfaces between layers are
    type classes with their laws: [DriveOps] (Ide.v) for the registers of the
    disk drives; [BlockOps] and [TxnOps] (Blocks.v), of which the cache with the
    log is an instance and against which fs.c is verified; [PageOps] (File.v)
    for the pages that pipes are kept in; [KOps] (Proc.v) for what proc.c and
    sysproc.c use of the rest of the kernel;
    [UserOps] (Sysfile.v) for stores to user memory and what only exec uses.
    [KOps] and [UserOps] are not instantiated with the definitions of Vm.v:
    theorems on processes hold for every instance.

    ** Files and sources

    - Prelude.v: integers, the monad, tactics, lemmas on lists. Bytes.v: C
      integers in byte lists. Params.v: param.h, fs.h, stat.h, fcntl.h.
    - Rle.v: P1a wzip.c and wunzip.c. Pzip.v: P3a pzip.c with its threads.
    - Sleeplock.v: sleeplock.c. Bio.v: bio.c and one request of ide.c. Ide.v:
      ide.c with its queue, ioapic.c and memide.c. Bootmain.v: bootmain.c. Log.v:
      log.c. Crash.v: crashes as prefixes of the disk's writes. Reserve.v: the
      log under several operations at once.
    - Blocks.v: the interface of blocks and transactions. Fs.v: fs.c. FsInv.v:
      layout, bitmap and block allocation. FsInode.v: inodes. FsMap.v: bmap.
      FsFile.v: readi and writei. FsDir.v: directories. FsPath.v: path names
      and the references of the inode cache. FsCreate.v: ialloc, and create of
      sysfile.c. FsUnlink.v: itrunc, iput, and unlink of sysfile.c. FsDemo.v: a
      small disk on which theorems are evaluated.
    - Pipe.v: pipe.c with sleeping readers and writers. File.v: file.c.
      FileData.v: filewrite. Sysfile.v: sysfile.c and exec.c. FdInv.v: the
      reference counts of open files over processes and system calls.
    - KString.v: string.c. Mmu.v: mmu.h and memlayout.h. Kalloc.v: kalloc.c.
      Vm.v: vm.c. VmUser.v: the pages of a user address space. Spinlock.v:
      spinlock.c.
    - Proc.v: proc.c. ProcInv.v: the invariant of the process table. Lottery.v:
      the scheduler and its generator. Syscall.v: syscall.c, sysproc.c and
      trap.c.
    - Mkfs.v: mkfs.c. Boot.v: forkret of proc.c, on an image of mkfs. Xcheck.v:
      P5 xcheck.c.
    - Console.v: console.c and uart.c. Kbd.v: kbd.c and kbd.h. Mp.v: mp.c.
      Lapic.v: lapic.c.
    - Ulib.v: ulib.c and printf.c. Umalloc.v: the allocator in ulib.c. Sh.v:
      sh.c. Text.v: grep.c, cat.c, wc.c, echo.c, P1a wgrep.c and wcat.c. Utils.v:
      ls.c, mkdir.c, rm.c, ln.c, kill.c, init.c. Wish.v: P2a wish.c.
      Mapreduce.v: P4a mapreduce.c and wordcount.c.

    ** What the theorems show

    - Storage: a commit is atomic under a crash at any write, recovery may itself
      crash and be run again, and the last end_op makes the transaction durable.
      The reservation of begin_op keeps log_write from its panics when the log
      area is larger than LOGSIZE; with the area mkfs makes it does not.
    - The disk: the driver serves the requests in the order of its queue, and
      does for each what bio.c was verified with; a request the drive reports
      an error for transfers nothing and ends with the flags of a success. The
      boot loader has every segment of a kernel in memory when it
      calls it, if the segments are in increasing order with the sectors they
      start in.
    - Files: writei replaces a slice and extends the file, readi returns one,
      ilock reads what iupdate stored, dirlookup finds what dirlink added, and a
      write that is split into transactions is one write, or the leading
      transactions of one that goes beyond the largest file. On a tree of
      directories namex returns what a walk over the tree gives, for paths of
      any length, and adds one reference to it and none besides; create adds one
      name to the tree and keeps all others, unlink removes one, and frees an
      inode with exactly its blocks when it was the last (names of files that
      are open in a process are not covered). Reference counts of open files
      and pipes are right in every sequence of the file system calls,
      fork, clone, exit and wait.
    - Images: of files that fit and have different names mkfs builds an image
      with the invariants fs.c, create and unlink are verified under; the kernel
      starts on it, finds each file by its name in the root and reads it back. Xcheck.v
      characterises the images xcheck passes, as xcheck reads them: its
      decoding of integers and its stop at the first free directory entry
      are part of that predicate, which is not consistency in the sense of fs.c.
    - Processes: the invariant of the table holds in every interleaving of the
      sections under its lock, while process ids do not run out. A runnable
      process with a ticket runs within 134456 draws while the tickets of the
      runnable slots before it add up to the same number, below 134455, and all
      of them to less than 2^31 - 1; over the draws 0 to the number of tickets
      each wins its tickets, the first runnable one more. Spin locks exclude. Pipes
      deliver what was written in order; no wakeup is lost while no process is
      killed, and one is when a writer is.
    - Memory: kalloc hands out no page that is in use, mappages and mprotect
      change the pages of their range and no others (mprotect up to an overflow
      of its length), allocuvm adds zeroed pages and copyuvm copies an address
      space, both without a page lost when memory runs out, argptr and argstr
      accept what lies inside the process, and malloc hands out disjoint blocks
      for requests up to 2^31 - 32 bytes.
    - Devices: the console behaves as a line terminal with editing.
    - Programs: wunzip undoes wzip on files without NUL; pzip writes what wzip
      writes, in every schedule that runs its threads to their ends, for files
      without NUL that have a byte for every thread, fewer than 1,000,000 runs
      for each and less than 2^31 bytes in all; grep's matcher accepts the language of its pattern; sh parses
      commands and wires descriptors (fork is taken to succeed); wish runs every
      line within its arrays' limits as a reference shell does; the word count
      of MapReduce is right for every order of the mappers' critical sections
      and of the reducers' steps, given room in the table and an allocator that
      returns zeroed memory with a byte more than was asked for.

    Code that departs from what it means to do is shown by lemmas in the files
    (an unknown entry of the processor table that is never left, a directory
    size of mkfs that covers a missing block, buffers of wish that
    overflow, and others).

    ** Bounds and fuel

    Loops that are not structural carry fuel, which the callers compute from the
    data or take as an argument. That it is enough is proved for the loops of
    readi, writei, dirlookup, dirlink, namex, ialloc, isdirempty, filewrite,
    freerange, mappages, allocuvm, deallocuvm, copyuvm, copyout, the queue of
    the disk driver, the boot loader, mkfs, the allocator, the parser of sh, the
    line editor of the console, the strings of string.c and ulib.c, the probing of
    MapReduce and the merge of pzip. Threads of pzip and MapReduce run as a
    schedule says; the theorems ask that it gives each the turns it needs. Waiting for the drive ends when the drive gets ready. For
    the processor table and the clock the lemmas say which fuel is enough, and
    under which behaviour of the device. Loops that are not named here have no
    such theorem, in particular loaduvm. The invariant of FdInv.v is about calls
    that return. Sizes are those of the source (NBUF, LOGSIZE, NINODE, FSSIZE).

    ** Not modelled

    - Assembly (boot, trap entry, context switch) and the C that only touches
      devices: picirq.c, main.c, the set-up of segments in vm.c and of the
      serial port. Their effect is registers of the machine.
    - Interrupts between the steps of a kernel operation, and memory ordering:
      spin locks are taken to make their sections atomic, as Spinlock.v shows of
      acquire and release.
    - Drive errors above the driver: bio.c, log.c and fs.c are verified with
      requests that succeed.
    - Test programs (usertests.c, forktest.c, stressfs.c and the like), which
      have no contract.
    - The C library and Linux under the course projects: stdio, threads and
      system calls are parameters or lists of bytes. *)

(** * Prelude

    Machine integers, the monad of stateful code, and generic lemmas. *)

From stdpp Require Import base list numbers strings.
From Stdlib Require Import ZArith Lia.

Local Open Scope Z_scope.

(** ** Machine integers

    A C integer is a [Z] together with the wrap-around of its width. [u8],
    [u16] and [u32] are the conversions to [uchar], [ushort] and [uint]
    (types.h); [i8], [i16] and [i32] are the conversions to the signed types
    of the same width, as gcc defines them on x86. *)

Definition u8 (z : Z) : Z := z mod 2 ^ 8.
Definition u16 (z : Z) : Z := z mod 2 ^ 16.
Definition u32 (z : Z) : Z := z mod 2 ^ 32.
Definition u64 (z : Z) : Z := z mod 2 ^ 64.
Definition i8 (z : Z) : Z := (z + 2 ^ 7) mod 2 ^ 8 - 2 ^ 7.
Definition i16 (z : Z) : Z := (z + 2 ^ 15) mod 2 ^ 16 - 2 ^ 15.
Definition i32 (z : Z) : Z := (z + 2 ^ 31) mod 2 ^ 32 - 2 ^ 31.

Definition is_u8 (z : Z) : Prop := 0 <= z < 2 ^ 8.
Definition is_u16 (z : Z) : Prop := 0 <= z < 2 ^ 16.
Definition is_u32 (z : Z) : Prop := 0 <= z < 2 ^ 32.
Definition is_i32 (z : Z) : Prop := - 2 ^ 31 <= z < 2 ^ 31.

#[global] Instance is_u8_dec z : Decision (is_u8 z) := _.
#[global] Instance is_u16_dec z : Decision (is_u16 z) := _.
#[global] Instance is_u32_dec z : Decision (is_u32 z) := _.
#[global] Instance is_i32_dec z : Decision (is_i32 z) := _.

(** ** Outcomes and the state monad

    A C function either returns ([Done]), calls [panic] ([Panic], with the
    message), does something the C standard gives no meaning to, a read or
    write outside an object or a null dereference ([Fault]), or goes to sleep
    until another process wakes it ([Asleep]). *)

Inductive outcome (A : Type) : Type :=
| Done (a : A)
| Panic (msg : string)
| Fault
| Asleep.

Arguments Done {A} a.
Arguments Panic {A} msg.
Arguments Fault {A}.
Arguments Asleep {A}.

(** [M S A]: a computation over the state [S] with a result in [A]. *)
Definition M (S A : Type) : Type := S -> outcome (A * S).

Definition ret {S A} (a : A) : M S A := fun s => Done (a, s).
Definition panic {S A} (msg : string) : M S A := fun _ => Panic msg.
Definition fault {S A} : M S A := fun _ => Fault.
Definition asleep {S A} : M S A := fun _ => Asleep.
Definition gets {S A} (f : S -> A) : M S A := fun s => Done (f s, s).
Definition modify {S} (f : S -> S) : M S unit := fun s => Done (tt, f s).

Definition bind {S A B} (c : M S A) (k : A -> M S B) : M S B :=
  fun s =>
    match c s with
    | Done (a, s') => k a s'
    | Panic m => Panic m
    | Fault => Fault
    | Asleep => Asleep
    end.

(** [for (i = ...; ...; i++) body], for [n] rounds. *)
Fixpoint for_loop {S} (n : nat) (i : Z) (body : Z -> M S unit) : M S unit :=
  match n with
  | O => ret tt
  | Datatypes.S n => bind (body i) (fun _ => for_loop n (i + 1) body)
  end.

Declare Scope os_scope.
Delimit Scope os_scope with os.

Notation "'let!' x ':=' c 'in' k" := (bind c (fun x => k))
  (at level 10, x name, c at level 100, k at level 200) : os_scope.
Notation "'let!' ' p ':=' c 'in' k" := (bind c (fun x => let p := x in k))
  (at level 10, p pattern, c at level 100, k at level 200) : os_scope.
Notation "c ';;;' k" := (bind c (fun _ => k))
  (at level 199, right associativity) : os_scope.

(** The weakest precondition for total correctness: [c] returns, from [s],
    with a result and a state in [Q]. *)
Definition wp {S A} (c : M S A) (Q : A -> S -> Prop) (s : S) : Prop :=
  match c s with
  | Done (a, s') => Q a s'
  | _ => False
  end.

(** Null pointers: C pointers to table slots are [option]s of indices. *)

(** ** Generic tactics *)

(** Split conjunctions and existentials of the hypotheses. *)
Ltac split_hyps :=
  repeat match goal with
  | H : _ /\ _ |- _ => destruct H
  | H : exists _, _ |- _ => destruct H
  end.

(** Turn every boolean comparison of [Z] in sight into a case split. *)
Ltac zcases :=
  repeat match goal with
  | |- context [Z.eqb ?a ?b] => destruct (Z.eqb_spec a b)
  | |- context [Z.ltb ?a ?b] => destruct (Z.ltb_spec a b)
  | |- context [Z.leb ?a ?b] => destruct (Z.leb_spec a b)
  | H : context [Z.eqb ?a ?b] |- _ => destruct (Z.eqb_spec a b)
  | H : context [Z.ltb ?a ?b] |- _ => destruct (Z.ltb_spec a b)
  | H : context [Z.leb ?a ?b] |- _ => destruct (Z.leb_spec a b)
  end.

(** Decide linear goals about wrapped integers by their defining equations. *)
Ltac wrap_lia :=
  unfold u8, u16, u32, u64, i8, i16, i32, is_u8, is_u16, is_u32, is_i32 in *;
  change (2 ^ 7) with 128 in *; change (2 ^ 8) with 256 in *;
  change (2 ^ 15) with 32768 in *; change (2 ^ 16) with 65536 in *;
  change (2 ^ 31) with 2147483648 in *; change (2 ^ 32) with 4294967296 in *;
  Z.div_mod_to_equations; lia.

(** ** Lemmas on machine integers *)

Create HintDb os.
Create Rewrite HintDb wrap.
Create Rewrite HintDb wp.

Lemma u8_range z : is_u8 (u8 z).
Proof. wrap_lia. Qed.

Lemma u16_range z : is_u16 (u16 z).
Proof. wrap_lia. Qed.

Lemma u32_range z : is_u32 (u32 z).
Proof. wrap_lia. Qed.

Lemma i32_range z : is_i32 (i32 z).
Proof. wrap_lia. Qed.

Lemma u8_small z : is_u8 z -> u8 z = z.
Proof. intros; wrap_lia. Qed.

Lemma u32_small z : is_u32 z -> u32 z = z.
Proof. intros; wrap_lia. Qed.

Lemma i32_small z : is_i32 z -> i32 z = z.
Proof. intros; wrap_lia. Qed.

Lemma u32_u32 z : u32 (u32 z) = u32 z.
Proof. wrap_lia. Qed.

Lemma u32_add_l a b : u32 (u32 a + b) = u32 (a + b).
Proof. unfold u32. by rewrite Zplus_mod_idemp_l. Qed.

Lemma u32_add_r a b : u32 (a + u32 b) = u32 (a + b).
Proof. unfold u32. by rewrite Zplus_mod_idemp_r. Qed.

Lemma u32_sub_l a b : u32 (u32 a - b) = u32 (a - b).
Proof. unfold u32. by rewrite Zminus_mod_idemp_l. Qed.

Lemma u32_sub_r a b : u32 (a - u32 b) = u32 (a - b).
Proof. unfold u32. by rewrite Zminus_mod_idemp_r. Qed.

Lemma u32_i32 z : u32 (i32 z) = u32 z.
Proof. wrap_lia. Qed.

Lemma i32_u32 z : i32 (u32 z) = i32 z.
Proof. wrap_lia. Qed.

#[export] Hint Resolve u8_range u16_range u32_range i32_range : os.
#[export] Hint Rewrite u32_u32 u32_add_l u32_add_r u32_sub_l u32_sub_r
  u32_i32 i32_u32 : wrap.

(** ** Lemmas on lists *)

Lemma filter_all {A} (P : A -> Prop) `{forall x, Decision (P x)} (l : list A) :
  (forall x, x ∈ l -> P x) -> filter P l = l.
Proof.
  induction l as [|x l IH]; intros HP; [done|].
  rewrite filter_cons_True by (apply HP; constructor). f_equal. apply IH.
  intros y Hy. apply HP. by constructor.
Qed.

Lemma filter_none {A} (P : A -> Prop) `{forall x, Decision (P x)} (l : list A) :
  (forall x, x ∈ l -> ~ P x) -> filter P l = [].
Proof.
  induction l as [|x l IH]; intros HP; [done|].
  rewrite filter_cons_False by (apply HP; constructor). apply IH.
  intros y Hy. apply HP. by constructor.
Qed.

(** ** Lemmas on the monad *)

Section monad.
Context {S A B : Type}.
Implicit Types (s : S) (c : M S A).

Lemma wp_ret (a : A) (Q : A -> S -> Prop) s : wp (ret a) Q s <-> Q a s.
Proof. done. Qed.

Lemma wp_gets (f : S -> A) (Q : A -> S -> Prop) s : wp (gets f) Q s <-> Q (f s) s.
Proof. done. Qed.

Lemma wp_modify (f : S -> S) (Q : unit -> S -> Prop) s :
  wp (modify f) Q s <-> Q tt (f s).
Proof. done. Qed.

Lemma wp_bind c (k : A -> M S B) (Q : B -> S -> Prop) s :
  wp (bind c k) Q s <-> wp c (fun a s' => wp (k a) Q s') s.
Proof. unfold wp, bind. by destruct (c s) as [[]| | |]. Qed.

Lemma wp_mono c (Q R : A -> S -> Prop) s :
  wp c Q s -> (forall a s', Q a s' -> R a s') -> wp c R s.
Proof. unfold wp. destruct (c s) as [[]| | |]; auto. Qed.

Lemma wp_returns c (Q : A -> S -> Prop) s :
  wp c Q s -> exists a s', c s = Done (a, s') /\ Q a s'.
Proof. unfold wp. destruct (c s) as [[a s']| | |]; [eauto|done..]. Qed.

Lemma wp_intro c (Q : A -> S -> Prop) s a s' :
  c s = Done (a, s') -> Q a s' -> wp c Q s.
Proof. unfold wp. by intros ->. Qed.

Lemma bind_done c (k : A -> M S B) s a s' :
  c s = Done (a, s') -> bind c k s = k a s'.
Proof. unfold bind. by intros ->. Qed.

Lemma bind_done_inv c (k : A -> M S B) s r :
  bind c k s = Done r -> exists a s', c s = Done (a, s') /\ k a s' = Done r.
Proof. unfold bind. destruct (c s) as [[a s']| | |]; [eauto|done..]. Qed.
End monad.

(** Running a computation of a component on its part of the state. *)
Definition zoom {S T A} (get : T -> S) (put : S -> T -> T) (c : M S A) : M T A := fun t =>
  match c (get t) with
  | Done (a, s) => Done (a, put s t)
  | Panic m => Panic m
  | Fault => Fault
  | Asleep => Asleep
  end.

Lemma wp_zoom {S T A} (get : T -> S) (put : S -> T -> T) (c : M S A) Q t :
  wp (zoom get put c) Q t <-> wp c (fun a s => Q a (put s t)) (get t).
Proof. unfold wp, zoom. by destruct (c (get t)) as [[]| | |]. Qed.

Lemma wp_for {S} (I : Z -> S -> Prop) (body : Z -> M S unit) n i s :
  (forall j s, i <= j < i + Z.of_nat n -> I j s -> wp (body j) (fun _ => I (j + 1)) s) ->
  I i s -> wp (for_loop n i body) (fun _ => I (i + Z.of_nat n)) s.
Proof.
  revert i s. induction n as [|n IH]; intros i s Hb Hi; cbn [for_loop].
  { apply wp_ret. by rewrite Z.add_0_r. }
  apply wp_bind. eapply wp_mono; [apply Hb; [lia|done]|]. intros [] s' Hi'. cbn beta in Hi' |- *.
  replace (i + Z.of_nat (Datatypes.S n)) with (i + 1 + Z.of_nat n) by lia.
  apply IH; [|done]. intros j s2 Hj. apply Hb. lia.
Qed.

#[export] Hint Rewrite @wp_ret @wp_gets @wp_modify @wp_bind @wp_zoom : wp.

(** Run a straight-line computation to its postcondition. *)
Ltac wp_run := autorewrite with wp; cbn beta iota.

(** ** Partial correctness

    The weakest liberal precondition: if [c] returns from [s], its result and
    state are in [Q]; for invariants that hold however a call into another
    component ends. *)
Definition wlp {S A} (c : M S A) (Q : A -> S -> Prop) (s : S) : Prop :=
  match c s with
  | Done (a, s') => Q a s'
  | _ => True
  end.

Section wlp.
Context {S A B : Type}.
Implicit Types (s : S) (c : M S A).

Lemma wlp_ret (a : A) (Q : A -> S -> Prop) s : wlp (ret a) Q s <-> Q a s.
Proof. done. Qed.

Lemma wlp_gets (f : S -> A) (Q : A -> S -> Prop) s : wlp (gets f) Q s <-> Q (f s) s.
Proof. done. Qed.

Lemma wlp_modify (f : S -> S) (Q : unit -> S -> Prop) s : wlp (modify f) Q s <-> Q tt (f s).
Proof. done. Qed.

Lemma wlp_bind c (k : A -> M S B) (Q : B -> S -> Prop) s :
  wlp (bind c k) Q s <-> wlp c (fun a s' => wlp (k a) Q s') s.
Proof. unfold wlp, bind. by destruct (c s) as [[]| | |]. Qed.

Lemma wlp_mono c (Q R : A -> S -> Prop) s :
  wlp c Q s -> (forall a s', Q a s' -> R a s') -> wlp c R s.
Proof. unfold wlp. destruct (c s) as [[]| | |]; auto. Qed.

Lemma wlp_done c (Q : A -> S -> Prop) s a s' : c s = Done (a, s') -> wlp c Q s -> Q a s'.
Proof. unfold wlp. by intros ->. Qed.

Lemma wlp_all c (Q : A -> S -> Prop) s :
  (forall a s', c s = Done (a, s') -> Q a s') -> wlp c Q s.
Proof. unfold wlp. destruct (c s) as [[]| | |]; auto. Qed.
End wlp.

Lemma wlp_zoom {S T A} (get : T -> S) (put : S -> T -> T) (c : M S A) Q t :
  wlp (zoom get put c) Q t <-> wlp c (fun a s => Q a (put s t)) (get t).
Proof. unfold wlp, zoom. by destruct (c (get t)) as [[]| | |]. Qed.

Lemma wlp_for {S} (I : Z -> S -> Prop) (body : Z -> M S unit) n i s :
  (forall j s, i <= j < i + Z.of_nat n -> I j s -> wlp (body j) (fun _ => I (j + 1)) s) ->
  I i s -> wlp (for_loop n i body) (fun _ => I (i + Z.of_nat n)) s.
Proof.
  revert i s. induction n as [|n IH]; intros i s Hb Hi; cbn [for_loop].
  { apply wlp_ret. by rewrite Z.add_0_r. }
  apply wlp_bind. eapply wlp_mono; [apply Hb; [lia|done]|]. intros [] s' Hi'. cbn beta in Hi' |- *.
  replace (i + Z.of_nat (Datatypes.S n)) with (i + 1 + Z.of_nat n) by lia.
  apply IH; [|done]. intros j s2 Hj. apply Hb. lia.
Qed.

Create Rewrite HintDb wlp.
#[export] Hint Rewrite @wlp_ret @wlp_gets @wlp_modify @wlp_bind @wlp_zoom : wlp.
Ltac wlp_run := autorewrite with wlp; cbn beta iota.

Lemma list_alter_alter {A} (f g : A -> A) i (l : list A) :
  alter f i (alter g i l) = alter (fun x => f (g x)) i l.
Proof. revert i. induction l as [|x l IH]; intros [|i]; cbn; [done..|]. f_equal. apply IH. Qed.

Lemma list_alter_insert {A} (f : A -> A) i (l : list A) x :
  l !! i = Some x -> alter f i l = <[i := f x]> l.
Proof.
  revert i. induction l as [|y l IH]; intros [|i] Hi; cbn in *; simplify_eq; [done|].
  f_equal. by apply IH.
Qed.
