(* ===== verification/Bytes.v ===== *)
(** * Bytes

    Little-endian encoding of C integers in byte lists: disk blocks (buf.h),
    on-disk structures (fs.h), and the binary files of the P1a and P3a tools
    are all lists of bytes, a byte being a [Z] of [0, 256). *)

From stdpp Require Import base list numbers strings.
From Stdlib Require Import ZArith Lia.
From S2P Require Import Prelude.

Local Open Scope Z_scope.

(** The [n] low bytes of [z], least significant first. *)
Fixpoint le_split (n : nat) (z : Z) : list Z :=
  match n with
  | O => []
  | S n => u8 z :: le_split n (z / 2 ^ 8)
  end.

(** The bytes of a string literal. *)
Definition str (s : string) : list Z :=
  map (fun a => Z.of_N (Ascii.N_of_ascii a)) (String.list_ascii_of_string s).

(** The unsigned integer a list of bytes encodes. *)
Fixpoint le_combine (bs : list Z) : Z :=
  match bs with
  | [] => 0
  | b :: bs => b + 2 ^ 8 * le_combine bs
  end.

(** Replace the bytes from [off] on by [d] (a memmove into a buffer). *)
Definition splice (l : list Z) (off : nat) (d : list Z) : list Z :=
  list_inserts off d l.

(** Read and write an [n]-byte unsigned integer at a byte offset. *)
Definition get_le (n : nat) (l : list Z) (off : nat) : Z :=
  le_combine (take n (drop off l)).

Definition put_le (n : nat) (l : list Z) (off : nat) (v : Z) : list Z :=
  splice l off (le_split n v).

Definition get16 := get_le 2.
Definition get32 := get_le 4.
Definition put16 := put_le 2.
Definition put32 := put_le 4.

Definition bytes (l : list Z) : Prop := Forall is_u8 l.

(** ** Lemmas *)

Lemma length_le_split n z : length (le_split n z) = n.
Proof. revert z; induction n as [|n IH]; intros z; cbn [le_split length]; auto. Qed.

Lemma le_split_bytes n z : bytes (le_split n z).
Proof.
  revert z; induction n as [|n IH]; intros z; cbn [le_split]; constructor; auto with os.
  apply IH.
Qed.

Lemma pow_S8 n : 2 ^ (8 * Z.of_nat (S n)) = 2 ^ 8 * 2 ^ (8 * Z.of_nat n).
Proof. rewrite <- Z.pow_add_r by lia. f_equal. lia. Qed.

Lemma le_combine_split n z : le_combine (le_split n z) = z mod 2 ^ (8 * Z.of_nat n).
Proof.
  revert z; induction n as [|n IH]; intros z; cbn [le_split le_combine].
  { by rewrite Z.mod_1_r. }
  rewrite IH, pow_S8, Z.rem_mul_r by lia. done.
Qed.

Lemma le_combine_range bs :
  bytes bs -> 0 <= le_combine bs < 2 ^ (8 * Z.of_nat (length bs)).
Proof.
  induction 1 as [|b bs Hb _ IH]; cbn [le_combine length]; [done|].
  rewrite pow_S8. unfold is_u8 in Hb. nia.
Qed.

Lemma le_split_combine bs : bytes bs -> le_split (length bs) (le_combine bs) = bs.
Proof.
  induction 1 as [|b bs Hb _ IH]; cbn [le_combine le_split length]; [done|].
  f_equal; [wrap_lia|].
  replace ((b + 2 ^ 8 * le_combine bs) / 2 ^ 8) with (le_combine bs) by wrap_lia.
  done.
Qed.

Lemma le_combine_app bs1 bs2 :
  le_combine (bs1 ++ bs2)
  = le_combine bs1 + 2 ^ (8 * Z.of_nat (length bs1)) * le_combine bs2.
Proof.
  induction bs1 as [|b bs1 IH]; cbn [le_combine app length].
  { change (2 ^ (8 * Z.of_nat 0)) with 1. lia. }
  rewrite IH, pow_S8. lia.
Qed.

Lemma le_split_mod n z : le_split n (z mod 2 ^ (8 * Z.of_nat n)) = le_split n z.
Proof.
  rewrite <- le_combine_split.
  rewrite <- (length_le_split n z) at 1.
  apply le_split_combine, le_split_bytes.
Qed.

Lemma length_put_le n l off v : length (put_le n l off v) = length l.
Proof. apply length_inserts. Qed.

Lemma length_splice l off d : length (splice l off d) = length l.
Proof. apply length_inserts. Qed.

Lemma splice_app l off d :
  (off + length d <= length l)%nat ->
  splice l off d = take off l ++ d ++ drop (off + length d) l.
Proof.
  intros Hin. apply list_eq; intros i. unfold splice.
  destruct (decide (off <= i < off + length d)%nat) as [Hi|Hi].
  - rewrite list_lookup_inserts by lia.
    rewrite lookup_app_r, lookup_app_l by (rewrite length_take; lia).
    rewrite length_take. f_equal. lia.
  - destruct (decide (i < off)%nat).
    + rewrite list_lookup_inserts_lt by lia.
      rewrite lookup_app_l by (rewrite length_take; lia).
      by rewrite lookup_take_lt by lia.
    + rewrite list_lookup_inserts_ge by lia.
      rewrite !lookup_app_r by (rewrite ?length_take; lia).
      rewrite lookup_drop, length_take. f_equal. lia.
Qed.

Lemma splice_take_drop l off d :
  (off + length d <= length l)%nat -> take (length d) (drop off (splice l off d)) = d.
Proof.
  intros Hin. rewrite splice_app by done.
  rewrite drop_app_length' by (rewrite length_take; lia).
  by rewrite take_app_length.
Qed.

Lemma splice_take_drop_ne l off d off' n :
  (off' + n <= off \/ off + length d <= off')%nat ->
  take n (drop off' (splice l off d)) = take n (drop off' l).
Proof.
  intros Hd. apply list_eq; intros i.
  destruct (decide (i < n)%nat).
  - rewrite !lookup_take_lt, !lookup_drop by lia. unfold splice.
    destruct Hd; [by rewrite list_lookup_inserts_lt by lia
                 |by rewrite list_lookup_inserts_ge by lia].
  - by rewrite !lookup_take_ge by lia.
Qed.

Lemma get_put_le n l off v :
  (off + n <= length l)%nat -> get_le n (put_le n l off v) off = v mod 2 ^ (8 * Z.of_nat n).
Proof.
  intros Hin. unfold get_le, put_le.
  rewrite <- (length_le_split n v) at 1.
  rewrite splice_take_drop by (rewrite length_le_split; lia).
  apply le_combine_split.
Qed.

Lemma get_put_le_ne n l off v n' off' :
  (off' + n' <= off \/ off + n <= off')%nat ->
  get_le n' (put_le n l off v) off' = get_le n' l off'.
Proof.
  intros Hd. unfold get_le, put_le. f_equal.
  apply splice_take_drop_ne. rewrite length_le_split. lia.
Qed.

Lemma bytes_splice l off d : bytes l -> bytes d -> bytes (splice l off d).
Proof.
  intros Hl Hd. apply Forall_lookup; intros i x Hx.
  apply list_lookup_inserts_Some in Hx as [[? Hx]|(?&?&Hx)].
  - by eapply Forall_lookup_1 in Hl.
  - by eapply Forall_lookup_1 in Hd.
Qed.

Lemma bytes_put_le n l off v : bytes l -> bytes (put_le n l off v).
Proof. intros. apply bytes_splice; [done|apply le_split_bytes]. Qed.

Lemma bytes_take_drop n off l : bytes l -> bytes (take n (drop off l)).
Proof. intros. by apply Forall_take, Forall_drop. Qed.

Lemma get_le_range n l off : bytes l -> 0 <= get_le n l off < 2 ^ (8 * Z.of_nat n).
Proof.
  intros Hl. unfold get_le.
  pose proof (le_combine_range _ (bytes_take_drop n off l Hl)) as Hr.
  rewrite length_take in Hr.
  assert (2 ^ (8 * Z.of_nat (n `min` length (drop off l))) <= 2 ^ (8 * Z.of_nat n))
    by (apply Z.pow_le_mono_r; lia).
  lia.
Qed.

#[export] Hint Resolve le_split_bytes bytes_put_le bytes_splice : os.
Create Rewrite HintDb len.
#[export] Hint Rewrite length_le_split length_put_le length_splice : len.
