(* ===== verification/Rle.v ===== *)
(** * Rle: the run-length tools

    [wzip] and [wunzip] (P1a/wzip/wzip.c, P1a/wunzip/wunzip.c), and the
    run-length encoding they compute. A file is a list of bytes; a process is a
    function from the files it can open and its arguments to the bytes it
    writes on stdout and its exit code. *)

From Stdlib Require Import ZArith Lia Ascii String.
From stdpp Require Import base list numbers strings.
From S2P Require Import Prelude Bytes.

Local Open Scope Z_scope.

(** ** The C library calls the tools make *)

Definition NL : Z := 10.

(** The lines [getline] returns on a stream, newlines included; it returns -1
    at the end of the stream. *)
Fixpoint getlines (l : list Z) : list (list Z) :=
  match l with
  | [] => []
  | c :: l =>
      if c =? NL then [c] :: getlines l
      else match getlines l with
           | [] => [[c]]
           | ln :: lns => (c :: ln) :: lns
           end
  end.

(** [strlen] of a line: the bytes before its first NUL. *)
Fixpoint strlen (l : list Z) : nat :=
  match l with
  | [] => O
  | c :: l => if c =? 0 then O else S (strlen l)
  end.

(** What a run of a program leaves: the bytes on stdout, the exit code. *)
Record run := { stdout : list Z; code : Z }.

(** [fopen(name, "r")]: [None] is NULL. *)
Definition files := string -> option (list Z).

(** One record of the compressed format: a 4-byte count, then the byte. *)
Definition record (count curr : Z) : list Z := le_split 4 count ++ [curr].

(** ** wzip.c *)

(** The locals [curr] and [count] of [main], and what it has written. *)
Record wzip_st := { curr : Z; count : Z; out : list Z }.

(** The body of the [for] loop over a line. *)
Definition wzip_char (st : wzip_st) (c : Z) : wzip_st :=
  if negb (curr st =? c)
  then {| curr := c; count := 1; out := out st ++ record (count st) (curr st) |}
  else {| curr := curr st; count := i32 (count st + 1); out := out st |}.

(** The body of the [while] loop: one line, as [getline] left it in the
    buffer, with its terminating NUL. *)
Definition wzip_line (st : wzip_st) (line : list Z) : wzip_st :=
  let buffer := line ++ [0] in
  let len := strlen line in
  let '(st, i) :=
    if count st =? 0
    then ({| curr := default 0 (buffer !! O); count := 1; out := out st |}, 1%nat)
    else (st, O) in
  fold_left wzip_char (drop i (take len buffer)) st.

Fixpoint wzip_files (fopen : files) (argv : list string) (st : wzip_st) : run :=
  match argv with
  | [] => {| stdout := out st ++ record (count st) (curr st); code := 0 |}
  | name :: argv =>
      match fopen name with
      | None => {| stdout := out st ++ str "wgrep: cannot open file" ++ [NL]; code := 1 |}
      | Some f => wzip_files fopen argv (fold_left wzip_line (getlines f) st)
      end
  end.

(** [main]; [curr0] is the indeterminate value of the uninitialised [curr]. *)
Definition wzip (curr0 : Z) (fopen : files) (argv : list string) : run :=
  match argv with
  | [] => {| stdout := str "wzip: file1 [file2 ...]" ++ [NL]; code := 1 |}
  | _ => wzip_files fopen argv {| curr := curr0; count := 0; out := [] |}
  end.

(** ** wunzip.c *)

(** The two [fread]s and the [while] loop: a record needs four bytes for [n]
    and one for [c]; a shorter rest makes one of the [fread]s return 0. *)
Fixpoint wunzip_file (l : list Z) : list Z :=
  match l with
  | b0 :: b1 :: b2 :: b3 :: c :: l =>
      replicate (Z.to_nat (i32 (le_combine [b0; b1; b2; b3]))) c ++ wunzip_file l
  | _ => []
  end.

Fixpoint wunzip_files (fopen : files) (argv : list string) (out : list Z) : run :=
  match argv with
  | [] => {| stdout := out; code := 0 |}
  | name :: argv =>
      match fopen name with
      | None => {| stdout := out ++ str "wgrep: cannot open file" ++ [NL]; code := 1 |}
      | Some f => wunzip_files fopen argv (out ++ wunzip_file f)
      end
  end.

Definition wunzip (fopen : files) (argv : list string) : run :=
  match argv with
  | [] => {| stdout := str "wunzip: file1 [file2 ...]" ++ [NL]; code := 1 |}
  | _ => wunzip_files fopen argv []
  end.

(** ** The run-length encoding the tools are meant to compute *)

(** Put [n] copies of [c] in front of a list of runs. *)
Definition push (n c : Z) (r : list (Z * Z)) : list (Z * Z) :=
  match r with
  | (m, d) :: r' => if c =? d then (n + m, d) :: r' else (n, c) :: r
  | [] => [(n, c)]
  end.

(** The maximal runs of a byte list, and their concatenated records. *)
Definition rle (l : list Z) : list (Z * Z) := foldr (push 1) [] l.
Definition enc (rs : list (Z * Z)) : list Z := concat (map (fun r => record r.1 r.2) rs).
Definition expand (rs : list (Z * Z)) : list Z :=
  concat (map (fun r => replicate (Z.to_nat r.1) r.2) rs).

Definition nul_free (l : list Z) : Prop := Forall (fun c => c <> 0) l.

(** ** Lemmas: runs *)

Lemma push_push_same n m c r : push n c (push m c r) = push (n + m) c r.
Proof.
  destruct r as [|[k d] r]; cbn [push]; [by rewrite Z.eqb_refl|].
  destruct (Z.eqb_spec c d) as [<-|]; cbn [push]; rewrite Z.eqb_refl; [|done].
  by rewrite Z.add_assoc.
Qed.

Lemma push_push_ne n m c d r : c <> d -> push n c (push m d r) = (n, c) :: push m d r.
Proof.
  intros Hne. destruct r as [|[k e] r]; cbn [push].
  - by destruct (Z.eqb_spec c d).
  - destruct (Z.eqb_spec d e) as [<-|]; cbn [push]; by destruct (Z.eqb_spec c d).
Qed.

Lemma enc_cons n c r : enc ((n, c) :: r) = record n c ++ enc r.
Proof. done. Qed.

Lemma pushes_replicate n c r :
  (0 < n)%nat -> foldr (push 1) r (replicate n c) = push (Z.of_nat n) c r.
Proof.
  induction n as [|n IH]; intros; [lia|]. cbn [replicate foldr].
  destruct n as [|n]; [done|].
  rewrite IH, push_push_same by lia. f_equal. lia.
Qed.

Lemma expand_push n c r :
  0 <= n -> Forall (fun x => 0 < x.1) r ->
  expand (push n c r) = replicate (Z.to_nat n) c ++ expand r.
Proof.
  intros Hn Hr. destruct Hr as [|[m d] r Hm Hr]; cbn [push]; [done|].
  destruct (Z.eqb_spec c d) as [->|]; [|done].
  unfold expand; cbn. rewrite Z2Nat.inj_add by (cbn in *; lia).
  by rewrite replicate_add, <- app_assoc.
Qed.

Lemma push_pos n c r :
  0 < n -> Forall (fun x => 0 < x.1) r -> Forall (fun x => 0 < x.1) (push n c r).
Proof.
  intros Hn Hr. destruct Hr as [|[m d] r Hm Hr]; cbn [push]; [by repeat constructor|].
  destruct (c =? d); repeat constructor; cbn in *; auto with lia.
Qed.

Lemma rle_pos l : Forall (fun x => 0 < x.1) (rle l).
Proof. induction l; cbn; [constructor|]. apply push_pos; [lia|done]. Qed.

Lemma expand_rle l : expand (rle l) = l.
Proof.
  induction l as [|c l IH]; [done|].
  change (rle (c :: l)) with (push 1 c (rle l)).
  rewrite expand_push by (lia || apply rle_pos). by rewrite IH.
Qed.

Lemma length_expand_le rs :
  Forall (fun x => 0 < x.1 <= Z.of_nat (length (expand rs))) rs <->
  Forall (fun x => 0 < x.1) rs.
Proof.
  split; intros H; [eapply Forall_impl; [exact H|]; cbn; lia|].
  induction H as [|[n c] rs Hn _ IH]; constructor; unfold expand in *; cbn in *;
    rewrite length_app, length_replicate.
  - lia.
  - eapply Forall_impl; [exact IH|]; cbn; intros [] ?; cbn in *; lia.
Qed.

Lemma length_push_le n c r : (length (push n c r) <= S (length r))%nat.
Proof. destruct r as [|[m d] r]; cbn; [lia|]. destruct (c =? d); cbn; lia. Qed.

Lemma length_rle_le l : (length (rle l) <= length l)%nat.
Proof.
  induction l as [|c l IH]; cbn; [lia|].
  pose proof (length_push_le 1 c (rle l)). unfold rle in *. lia.
Qed.

(** ** Lemmas: wzip *)

(** After reading the NUL-free bytes [p], [wzip] holds the encoding of [p]
    with its last run still open. *)
Definition wz_repr (p : list Z) (st : wzip_st) : Prop :=
  (p = [] /\ count st = 0 /\ out st = [])
  \/ (0 < count st <= Z.of_nat (length p) /\
      forall r, out st ++ enc (push (count st) (curr st) r) = enc (foldr (push 1) r p)).

Lemma wzip_first p st c :
  wz_repr p st -> count st = 0 -> wz_repr [c] {| curr := c; count := 1; out := out st |}.
Proof.
  intros [(-> & _ & Ho)|(? & _)] ?; [|lia].
  right; cbn. split; [lia|]. intros r. by rewrite Ho.
Qed.

Lemma wzip_char_repr p st c :
  wz_repr p st -> 0 < count st -> Z.of_nat (length p) + 1 < 2 ^ 31 ->
  wz_repr (p ++ [c]) (wzip_char st c) /\ 0 < count (wzip_char st c).
Proof.
  intros [(_ & ? & _)|(Hn & Hr)] Hc Hlen; [lia|]. unfold wzip_char.
  destruct (Z.eqb_spec (curr st) c) as [Heq|Hne]; cbn.
  - rewrite i32_small by (unfold is_i32; lia). split; [|lia].
    right; cbn. rewrite length_app; cbn. split; [lia|].
    intros r. rewrite foldr_app, <- Hr; cbn. by rewrite Heq, push_push_same.
  - split; [|lia]. right; cbn. rewrite length_app; cbn. split; [lia|].
    intros r. rewrite foldr_app, <- Hr; cbn.
    by rewrite (push_push_ne _ _ (curr st) c) by done; rewrite enc_cons, <- app_assoc.
Qed.

Lemma wzip_chars_repr l p st :
  wz_repr p st -> 0 < count st -> Z.of_nat (length (p ++ l)) < 2 ^ 31 ->
  wz_repr (p ++ l) (fold_left wzip_char l st).
Proof.
  revert p st. induction l as [|c l IH]; intros p st Hp Hc Hlen; cbn [fold_left].
  { by rewrite app_nil_r. }
  rewrite length_app in Hlen; cbn in Hlen.
  destruct (wzip_char_repr p st c) as [Hp' Hc']; [done|done|lia|].
  rewrite (app_assoc p [c] l : p ++ c :: l = _). apply IH; [done|done|].
  rewrite !length_app in *; cbn in *; lia.
Qed.

Lemma strlen_nul_free l : nul_free l -> strlen l = length l.
Proof.
  induction 1 as [|c l Hc _ IH]; [done|]. cbn. destruct (Z.eqb_spec c 0); [done|]. by rewrite IH.
Qed.

Lemma wzip_line_repr p st line :
  wz_repr p st -> nul_free line -> line <> [] -> Z.of_nat (length (p ++ line)) < 2 ^ 31 ->
  wz_repr (p ++ line) (wzip_line st line).
Proof.
  intros Hp Hnf Hne Hlen. unfold wzip_line.
  rewrite strlen_nul_free, take_app_length by done.
  destruct line as [|c l]; [done|].
  destruct (Z.eqb_spec (count st) 0) as [H0|H0]; cbn.
  - assert (p = []) as -> by (destruct Hp as [(-> & _)|(? & _)]; [done|lia]).
    apply (wzip_chars_repr l [c]); [by eapply wzip_first|done|done].
  - apply (wzip_chars_repr (c :: l) p); [done| |done].
    destruct Hp as [(_ & ? & _)|(? & _)]; lia.
Qed.

Lemma concat_getlines l : concat (getlines l) = l.
Proof.
  induction l as [|c l IH]; [done|]. cbn.
  destruct (c =? NL); cbn; [by rewrite IH|].
  destruct (getlines l) as [|ln lns]; cbn in *; [by rewrite <- IH|]. by rewrite <- IH.
Qed.

Lemma getlines_nonempty l : Forall (fun ln => ln <> []) (getlines l).
Proof.
  induction l as [|c l IH]; cbn; [constructor|].
  destruct (c =? NL); [by repeat constructor|].
  destruct (getlines l) as [|ln lns]; [by repeat constructor|].
  inversion IH; subst. by constructor.
Qed.

Lemma wzip_lines_repr lns p st :
  wz_repr p st -> Forall nul_free lns -> Forall (fun ln => ln <> []) lns ->
  Z.of_nat (length (p ++ concat lns)) < 2 ^ 31 ->
  wz_repr (p ++ concat lns) (fold_left wzip_line lns st).
Proof.
  revert p st. induction lns as [|ln lns IH]; intros p st Hp Hnf Hne Hlen; cbn [fold_left concat].
  { by rewrite app_nil_r. }
  inversion Hnf; inversion Hne; subst. cbn in Hlen. rewrite !length_app in Hlen.
  rewrite app_assoc. apply IH; [|done|done|rewrite !length_app; lia].
  apply wzip_line_repr; [done|done|done|rewrite length_app; lia].
Qed.

Lemma wzip_file_repr p st f :
  wz_repr p st -> nul_free f -> Z.of_nat (length (p ++ f)) < 2 ^ 31 ->
  wz_repr (p ++ f) (fold_left wzip_line (getlines f) st).
Proof.
  intros Hp Hf Hlen.
  assert (Forall nul_free (getlines f)) as Hl
    by (apply Forall_concat; by rewrite concat_getlines).
  pose proof (wzip_lines_repr (getlines f) p st Hp Hl (getlines_nonempty f)) as H.
  rewrite concat_getlines in H. auto.
Qed.

(** What [wzip] writes for the NUL-free bytes [p]: the encoding of [p], or,
    when there are none, a record with count 0 and the uninitialised byte. *)
Definition wzip_output (curr0 : Z) (p : list Z) : list Z :=
  match p with [] => record 0 curr0 | _ => enc (rle p) end.

Lemma wzip_files_repr curr0 fopen argv contents p st :
  Forall2 (fun name f => fopen name = Some f) argv contents ->
  Forall nul_free contents -> Z.of_nat (length (p ++ concat contents)) < 2 ^ 31 ->
  wz_repr p st -> (p = [] -> curr st = curr0) ->
  wzip_files fopen argv st
  = {| stdout := wzip_output curr0 (p ++ concat contents); code := 0 |}.
Proof.
  intros Hopen. revert p st.
  induction Hopen as [|name f argv contents Hf _ IH]; intros p st Hnf Hlen Hp H0; cbn.
  { rewrite app_nil_r. f_equal. destruct Hp as [(-> & -> & ->)|(Hn & Hr)].
    - by rewrite H0.
    - specialize (Hr []). destruct p as [|c p]; [cbn in Hn; lia|].
      unfold wzip_output, rle. rewrite <- Hr. done. }
  rewrite Hf. inversion Hnf; subst. cbn in Hlen. rewrite app_assoc in Hlen |- *.
  assert (Z.of_nat (length (p ++ f)) < 2 ^ 31) by (rewrite !length_app in *; lia).
  apply IH; [done|done|by apply wzip_file_repr|].
  intros [-> ->]%app_eq_nil. by apply H0.
Qed.

Lemma wzip_spec curr0 fopen argv contents :
  argv <> [] -> Forall2 (fun name f => fopen name = Some f) argv contents ->
  Forall nul_free contents -> Z.of_nat (length (concat contents)) < 2 ^ 31 ->
  wzip curr0 fopen argv = {| stdout := wzip_output curr0 (concat contents); code := 0 |}.
Proof.
  intros Hne Hopen Hnf Hlen. unfold wzip. destruct argv as [|a argv]; [done|].
  apply (wzip_files_repr curr0 fopen (a :: argv) contents []); [done|done|done| |done].
  by left.
Qed.

(** ** Lemmas: wunzip *)

Lemma wunzip_record n c l :
  0 <= n < 2 ^ 31 -> wunzip_file (record n c ++ l) = replicate (Z.to_nat n) c ++ wunzip_file l.
Proof.
  intros Hn. pose proof (le_combine_split 4 n) as Hc. unfold record.
  cbn [le_split app wunzip_file] in *. rewrite Hc.
  rewrite Z.mod_small, i32_small by (unfold is_i32; cbn; lia). done.
Qed.

Lemma wunzip_enc rs :
  Forall (fun r => 0 < r.1 < 2 ^ 31) rs -> wunzip_file (enc rs) = expand rs.
Proof.
  induction 1 as [|[n c] rs Hn _ IH]; [done|].
  rewrite enc_cons, wunzip_record by (cbn in *; lia). by rewrite IH.
Qed.

Lemma wunzip_wzip_output curr0 p :
  Z.of_nat (length p) < 2 ^ 31 -> wunzip_file (wzip_output curr0 p) = p.
Proof.
  intros Hlen. destruct p as [|c p]; [done|].
  unfold wzip_output. rewrite wunzip_enc, expand_rle; [done|].
  pose proof (proj2 (length_expand_le _) (rle_pos (c :: p))) as Hr.
  rewrite expand_rle in Hr. eapply Forall_impl; [exact Hr|]. cbn in *; lia.
Qed.

(** ** Properties *)

(** Property C37: decompressing what wzip wrote gives the concatenation of
    the inputs, for every list of readable files without NUL bytes and with
    less than 2^31 bytes in all (the range of the int [count]). *)
Theorem wzip_wunzip_roundtrip curr0 fopen argv contents :
  argv <> [] -> Forall2 (fun name f => fopen name = Some f) argv contents ->
  Forall nul_free contents -> Z.of_nat (length (concat contents)) < 2 ^ 31 ->
  code (wzip curr0 fopen argv) = 0 /\
  forall zipped : string,
    wunzip (fun name => if decide (name = zipped)
                        then Some (stdout (wzip curr0 fopen argv)) else None) [zipped]
    = {| stdout := concat contents; code := 0 |}.
Proof.
  intros Hne Hopen Hnf Hlen. rewrite (wzip_spec curr0 fopen argv contents) by done.
  split; [done|]. intros zipped. unfold wunzip; cbn. rewrite decide_True by done.
  cbn. by rewrite wunzip_wzip_output.
Qed.

(** ** Witnesses *)

Definition two_files (name : string) : option (list Z) :=
  if decide (name = "a"%string) then Some (str "aab" ++ [NL])
  else if decide (name = "b"%string) then Some [NL; 99; 99] else None.

Lemma wzip_wunzip_roundtrip_witness :
  code (wzip 7 two_files ["a"; "b"]%string) = 0 /\
  forall zipped : string,
    wunzip (fun name => if decide (name = zipped)
                        then Some (stdout (wzip 7 two_files ["a"; "b"]%string)) else None) [zipped]
    = {| stdout := str "aab" ++ [NL; NL; 99; 99]; code := 0 |}.
Proof.
  apply (wzip_wunzip_roundtrip 7 two_files ["a"; "b"]%string
           [str "aab" ++ [NL]; [NL; 99; 99]]).
  - done.
  - repeat constructor.
  - repeat (constructor || discriminate).
  - vm_compute; reflexivity.
Defined.
