(* ===== verification/Pzip.v ===== *)
(** * Pzip: the parallel run-length encoder

    [pzip] (P3a/pzip.c): for each file [main] gives every thread two arrays of
    the heap, the threads run [zip] on their parts of the text, one access of
    the shared memory per step in any order, and [main] merges the arrays after
    it has joined the threads. *)

From Stdlib Require Import ZArith Lia Ascii String.
From stdpp Require Import base list numbers gmap strings.
From S2P Require Import Prelude Bytes Rle.

Local Open Scope Z_scope.
Local Open Scope os_scope.

(** ** Memory *)

(** An object [malloc] made: its number of elements, and those written so far.
    A pointer is the number of the object; nothing is freed. *)
Record block := { b_len : Z; b_cells : gmap Z Z }.
Abbreviation heap := (list block).

Definition malloc (n : Z) : M heap nat :=
  fun h => Done (length h, h ++ [{| b_len := n; b_cells := ∅ |}]).
(** [p[k] = x], an error outside the object. *)
Definition store (p : nat) (k x : Z) : M heap unit :=
  fun h =>
    match h !! p with
    | Some b =>
        if (0 <=? k) && (k <? b_len b)
        then Done (tt, <[p := {| b_len := b_len b; b_cells := <[k := x]> (b_cells b) |}]> h)
        else Fault
    | None => Fault
    end.
(** [p[k]], an error where nothing was written. *)
Definition load (p : nat) (k : Z) : M heap Z :=
  fun h => match h !! p ≫= fun b => b_cells b !! k with Some x => Done (x, h) | None => Fault end.
(** [txt[i]] of the mapped file. *)
Definition text_at (txt : list Z) (i : Z) : M heap Z :=
  fun h => if 0 <=? i then match txt !! Z.to_nat i with Some c => Done (c, h) | None => Fault end else Fault.

(** ** zip *)

(** The number of elements of each result array ([malloc(1000000 * ...)]). *)
Definition RES_MAX : Z := 1000000.

Record zargs := { a_start : Z; a_end : Z; a_char : nat; a_count : nat }.

(** Where a thread is in [zip]: before its first read, at the test of the loop,
    before each of the stores, and after the return. *)
Inductive zpc := ZStart | ZLoop | ZChar | ZCount | ZLastChar | ZLastCount | ZEndChar | ZEndCount | ZDone.
Record zthread := { z_pc : zpc; z_i : Z; z_curr : Z; z_count : Z; z_index : Z }.
Definition at_pc (pc : zpc) (t : zthread) : zthread :=
  {| z_pc := pc; z_i := z_i t; z_curr := z_curr t; z_count := z_count t; z_index := z_index t |}.
Definition z_next (t : zthread) : zthread :=
  {| z_pc := z_pc t; z_i := z_i t; z_curr := z_curr t; z_count := z_count t; z_index := i32 (z_index t + 1) |}.

(** One step of [zip]; [i] and [index] are of type int, and [i < args->end]
    compares as size_t. *)
Definition zip_step (txt : list Z) (a : zargs) (t : zthread) : M heap zthread :=
  match z_pc t with
  | ZStart =>
      let i := i32 (a_start a) in
      let! c := text_at txt i in
      ret {| z_pc := ZLoop; z_i := i32 (i + 1); z_curr := c; z_count := 1; z_index := 0 |}
  | ZLoop =>
      if u64 (z_i t) <? a_end a then
        let! c := text_at txt (z_i t) in
        if negb (z_curr t =? c) then ret (at_pc ZChar t)
        else ret {| z_pc := ZLoop; z_i := i32 (z_i t + 1); z_curr := z_curr t; z_count := i32 (z_count t + 1);
                    z_index := z_index t |}
      else ret (at_pc ZLastChar t)
  | ZChar => store (a_char a) (z_index t) (z_curr t);;; ret (at_pc ZCount t)
  | ZCount =>
      store (a_count a) (z_index t) (z_count t);;;
      let! c := text_at txt (z_i t) in
      ret {| z_pc := ZLoop; z_i := i32 (z_i t + 1); z_curr := c; z_count := 1; z_index := i32 (z_index t + 1) |}
  | ZLastChar => store (a_char a) (z_index t) (z_curr t);;; ret (at_pc ZLastCount t)
  | ZLastCount => store (a_count a) (z_index t) (z_count t);;; ret (at_pc ZEndChar (z_next t))
  | ZEndChar => store (a_char a) (z_index t) (z_curr t);;; ret (at_pc ZEndCount t)
  | ZEndCount => store (a_count a) (z_index t) (-1);;; ret (at_pc ZDone t)
  | ZDone => ret t
  end.

Definition is_done (t : zthread) : bool := match z_pc t with ZDone => true | _ => false end.
Definition z_new : zthread := {| z_pc := ZStart; z_i := 0; z_curr := 0; z_count := 0; z_index := 0 |}.

(** ** The threads of one file *)

(** [args[j].start] and [args[j].end] for file length [len] and [n] threads. *)
Definition chunk_start (len n j : nat) : nat := (len / n * j)%nat.
Definition chunk_end (len n j : nat) : nat :=
  (if decide (j = n - 1) then len else len / n * j + len / n)%nat.

(** The loop of [main] that allocates the arrays and fills [args]. *)
Fixpoint make_args (len n : nat) (js : list nat) : M heap (list zargs) :=
  match js with
  | [] => ret []
  | j :: js =>
      let! pc := malloc RES_MAX in
      let! pn := malloc RES_MAX in
      let! rest := make_args len n js in
      ret ({| a_start := Z.of_nat (chunk_start len n j); a_end := Z.of_nat (chunk_end len n j);
              a_char := pc; a_count := pn |} :: rest)
  end.

(** The threads as the scheduler runs them: the list of the threads that take a
    step, in order. *)
Definition pool_step (txt : list Z) (args : list zargs) (ts : list zthread) (j : nat) : M heap (list zthread) :=
  match args !! j, ts !! j with
  | Some a, Some t => let! t := zip_step txt a t in ret (<[j := t]> ts)
  | _, _ => ret ts
  end.
Fixpoint pool_run (txt : list Z) (args : list zargs) (ts : list zthread) (sched : list nat) : M heap (list zthread) :=
  match sched with
  | [] => ret ts
  | j :: sched => let! ts := pool_step txt args ts j in pool_run txt args ts sched
  end.

(** Allocation, [pthread_create] and [pthread_join] of the [n] threads: [main]
    waits while one of them has not returned. *)
Definition run_threads (txt : list Z) (n : nat) (sched : list nat) : M heap (list zargs) :=
  let! args := make_args (length txt) n (seq 0 n) in
  let! ts := pool_run txt args (replicate n z_new) sched in
  if forallb is_done ts then ret args else asleep.

(** ** main *)

(** The merge: the runs of an array up to the sentinel, one by one. *)
Record pzip_st := { old_char : Z; old_count : Z; p_out : list Z }.

Definition merge_run (st : pzip_st) (n c : Z) : pzip_st :=
  if negb (old_char st =? c) then
    {| old_char := c; old_count := n;
       p_out := if negb (old_count st =? 0)
                then p_out st ++ record (old_count st) (old_char st) else p_out st |}
  else {| old_char := old_char st; old_count := i32 (old_count st + n); p_out := p_out st |}.

Fixpoint merge_from (fuel : nat) (a : zargs) (index : Z) (st : pzip_st) : M heap pzip_st :=
  match fuel with
  | O => fault
  | S fuel =>
      let! n := load (a_count a) index in
      if n =? -1 then ret st
      else
        let! c := load (a_char a) index in
        merge_from fuel a (i32 (index + 1)) (merge_run st n c)
  end.
(** Every round reads an element that was written, so that their number, and
    one for the sentinel, is enough. *)
Definition merge_array (a : zargs) (st : pzip_st) : M heap pzip_st :=
  let! h := gets (fun h => h) in
  merge_from (S (match h !! a_count a with Some b => size (b_cells b) | None => O end)) a 0 st.
Fixpoint merge_arrays (args : list zargs) (st : pzip_st) : M heap pzip_st :=
  match args with
  | [] => ret st
  | a :: args => let! st := merge_array a st in merge_arrays args st
  end.

(** [main], with [n] = [get_nprocs_conf()], every [malloc], [mmap],
    [pthread_create] and [pthread_join] successful; the threads of the files are
    scheduled as [scheds] says. *)
Fixpoint pzip_files (n : nat) (fopen : files) (argv : list string) (scheds : list (list nat)) (st : pzip_st) : M heap run :=
  match argv with
  | [] =>
      ret {| stdout := if 0 <? old_count st
                       then p_out st ++ record (old_count st) (old_char st) else p_out st;
             code := 0 |}
  | name :: argv =>
      match fopen name with
      | None => ret {| stdout := p_out st ++ str "wzip: cannot open file" ++ [NL]; code := 1 |}
      | Some txt =>
          let! args := run_threads txt n (default [] (head scheds)) in
          let! st := merge_arrays args st in
          pzip_files n fopen argv (tail scheds) st
      end
  end.
(** ['\357'] is the byte 239. *)
Definition pzip_main (n : nat) (fopen : files) (argv : list string) (scheds : list (list nat)) : M heap run :=
  match argv with
  | [] => ret {| stdout := str "wzip: file1 [file2 ...]" ++ [NL]; code := 1 |}
  | _ => pzip_files n fopen argv scheds {| old_char := 239; old_count := 0; p_out := [] |}
  end.
Definition pzip (n : nat) (fopen : files) (argv : list string) (scheds : list (list nat)) : outcome run :=
  match pzip_main n fopen argv scheds [] with
  | Done (r, _) => Done r
  | Panic m => Panic m
  | Fault => Fault
  | Asleep => Asleep
  end.

(** ** Lemmas: a thread and its two arrays *)

Fixpoint zip_steps (m : nat) (txt : list Z) (a : zargs) (t : zthread) : M heap zthread :=
  match m with
  | O => ret t
  | S m => let! t := zip_step txt a t in zip_steps m txt a t
  end.

(** The thread on a memory of its own. *)
Definition alone (a : zargs) : zargs := {| a_start := a_start a; a_end := a_end a; a_char := 0; a_count := 1 |}.
Definition mem (a : zargs) (h : heap) : heap :=
  match h !! a_char a, h !! a_count a with Some bc, Some bn => [bc; bn] | _, _ => [] end.
Definition put (a : zargs) (m h : heap) : heap :=
  match m with [bc; bn] => <[a_count a := bn]> (<[a_char a := bc]> h) | _ => h end.
Definition in_heap (h : heap) (a : zargs) : Prop :=
  (a_char a < length h)%nat /\ (a_count a < length h)%nat /\ a_char a <> a_count a.

Section local.
Context (h : heap) (a : zargs) (Ha : in_heap h a).

Lemma mem_pair : exists bc bn, h !! a_char a = Some bc /\ h !! a_count a = Some bn /\ mem a h = [bc; bn].
Proof.
  destruct Ha as (H1 & H2 & _). apply lookup_lt_is_Some_2 in H1 as [bc E1], H2 as [bn E2].
  exists bc, bn. split; [done|]. split; [done|]. unfold mem. by rewrite E1, E2.
Qed.
Lemma put_mem : put a (mem a h) h = h.
Proof.
  destruct mem_pair as (bc & bn & E1 & E2 & ->). cbn. rewrite (list_insert_id h) by done. by apply list_insert_id.
Qed.
Lemma mem_put bc bn : mem a (put a [bc; bn] h) = [bc; bn].
Proof.
  destruct Ha as (H1 & H2 & Hne). unfold mem, put. rewrite list_lookup_insert_ne by done.
  rewrite list_lookup_insert_eq by done. by rewrite list_lookup_insert_eq by (by rewrite length_insert).
Qed.

Lemma store_local (c : bool) k x :
  store (if c then a_char a else a_count a) k x h
  = match store (if c then 0%nat else 1%nat) k x (mem a h) with Done (_, m) => Done (tt, put a m h) | _ => Fault end /\
  (forall u m, store (if c then 0%nat else 1%nat) k x (mem a h) = Done (u, m) -> length m = 2%nat).
Proof.
  destruct mem_pair as (bc & bn & E1 & E2 & ->). unfold store.
  destruct c; cbv iota; [rewrite E1|rewrite E2]; cbn [lookup list_lookup]; destruct (_ && _); cbn; (split; [|naive_solver]); try done.
  - f_equal. f_equal. rewrite list_insert_insert_ne by (apply not_eq_sym, Ha). by rewrite (list_insert_id h _ _ E2).
  - by rewrite (list_insert_id h _ _ E1).
Qed.

Lemma text_at_heap txt i h' : text_at txt i h' = match text_at txt i h with Done (c, _) => Done (c, h') | _ => Fault end.
Proof. unfold text_at. destruct (0 <=? i); [|done]. by destruct (txt !! _). Qed.
End local.

(** A step of the thread is a step on its own arrays. *)
Lemma zip_step_local txt a t h :
  in_heap h a ->
  zip_step txt a t h = match zip_step txt (alone a) t (mem a h) with Done (t', m) => Done (t', put a m h) | _ => Fault end /\
  (forall t' m, zip_step txt (alone a) t (mem a h) = Done (t', m) -> length m = 2%nat).
Proof.
  intros Ha. destruct (mem_pair h a Ha) as (bc & bn & _ & _ & Em). assert (length (mem a h) = 2%nat) as El by (by rewrite Em).
  pose proof (store_local h a Ha true) as Sc. pose proof (store_local h a Ha false) as Sn. cbn [a_char a_count alone] in *.
  pose proof (put_mem h a Ha) as Hp.
  unfold zip_step, bind, ret. destruct (z_pc t); cbn [a_start a_end a_char a_count alone].
  1: rewrite (text_at_heap (mem a h) txt _ h); destruct (text_at _ _ (mem a h)) as [[]| | |] eqn:E; try done;
     unfold text_at in E; destruct (0 <=? _); [|done]; destruct (txt !! _); [|done]; injection E as <- <-; rewrite Hp; naive_solver.
  1: destruct (_ <? _); [|rewrite Hp; naive_solver]; rewrite (text_at_heap (mem a h) txt _ h); destruct (text_at _ _ (mem a h)) as [[]| | |] eqn:E; try done;
     unfold text_at in E; destruct (0 <=? _); [|done]; destruct (txt !! _); [|done]; injection E as <- <-; destruct (negb _); rewrite Hp; naive_solver.
  2: { destruct (Sn (z_index t) (z_count t)) as [-> Hl]. destruct (store _ _ _ (mem a h)) as [[u m]| | |]; try done. specialize (Hl u m eq_refl).
       rewrite (text_at_heap m txt _ (put a m h)). destruct (text_at txt (z_i t) m) as [[c m']| | |] eqn:E; try done.
       unfold text_at in E; destruct (0 <=? _); [|done]; destruct (txt !! _); [|done]; injection E as <- <-. naive_solver. }
  6: rewrite Hp; naive_solver.
  1, 2, 4: destruct (Sc (z_index t) (z_curr t)) as [-> Hl].
  4: destruct (Sn (z_index t) (z_count t)) as [-> Hl].
  5: destruct (Sn (z_index t) (-1)) as [-> Hl].
  all: destruct (store _ _ _ (mem _ h)) as [[u m]| | |]; try done; specialize (Hl u m eq_refl); naive_solver.
Qed.

Lemma store_outcome p k x h : (exists h', store p k x h = Done (tt, h')) \/ store p k x h = Fault.
Proof. unfold store. destruct (h !! p); [|by right]. destruct (_ && _); [left|by right]. by eexists. Qed.
Lemma text_outcome txt i h : (exists c, 0 <= i < Z.of_nat (length txt) /\ txt !! Z.to_nat i = Some c /\ text_at txt i h = Done (c, h)) \/ text_at txt i h = Fault.
Proof.
  unfold text_at. destruct (Z.leb_spec 0 i); [|by right]. destruct (txt !! Z.to_nat i) as [c|] eqn:E; [left|by right]. exists c.
  apply lookup_lt_Some in E as Hlt. split_and!; [lia|lia|done|done].
Qed.

Lemma zip_step_outcome txt a t h : (exists t' h', zip_step txt a t h = Done (t', h')) \/ zip_step txt a t h = Fault.
Proof.
  unfold zip_step, bind, ret. destruct (z_pc t).
  1: destruct (text_outcome txt (i32 (a_start a)) h) as [(c & _ & _ & ->)| ->]; eauto.
  1: destruct (_ <? _); [|eauto]; destruct (text_outcome txt (z_i t) h) as [(c & _ & _ & ->)| ->]; [destruct (negb _)|]; eauto.
  2: destruct (store_outcome (a_count a) (z_index t) (z_count t) h) as [[h' ->]| ->]; [|by right]; destruct (text_outcome txt (z_i t) h') as [(c & _ & _ & ->)| ->]; eauto.
  1, 2, 4: destruct (store_outcome (a_char a) (z_index t) (z_curr t) h) as [[h' ->]| ->]; eauto.
  1: destruct (store_outcome (a_count a) (z_index t) (z_count t) h) as [[h' ->]| ->]; eauto.
  1: destruct (store_outcome (a_count a) (z_index t) (-1) h) as [[h' ->]| ->]; eauto.
  eauto.
Qed.

(** ** Lemmas: schedules *)

Definition ptrs (args : list zargs) : list nat := mjoin ((fun a => [a_char a; a_count a]) <$> args).
(** The arrays of the threads are different objects of the heap. *)
Definition apart (args : list zargs) (h : heap) : Prop := NoDup (ptrs args) /\ Forall (in_heap h) args.

Lemma ptrs_lookup args j a : args !! j = Some a -> a_char a ∈ ptrs args /\ a_count a ∈ ptrs args.
Proof.
  intros Hj. unfold ptrs. split; apply list_elem_of_join; exists [a_char a; a_count a]; (split; [set_solver|]);
    apply list_elem_of_fmap; exists a; (split; [done|by eapply list_elem_of_lookup_2]).
Qed.
Lemma ptrs_apart args j k a b p :
  NoDup (ptrs args) -> args !! j = Some a -> args !! k = Some b -> j <> k -> p ∈ [a_char a; a_count a] -> p ∉ [a_char b; a_count b].
Proof.
  revert j k. induction args as [|x args IH]; intros j k Hnd Hj Hk Hne Hp Hq; [done|].
  change (ptrs (x :: args)) with ([a_char x; a_count x] ++ ptrs args) in Hnd. apply NoDup_app in Hnd as (_ & Hx & Hnd).
  destruct j as [|j], k as [|k]; cbn in Hj, Hk; [done|..].
  - injection Hj as ->. apply (Hx p Hp). destruct (ptrs_lookup _ _ _ Hk). set_solver.
  - injection Hk as ->. apply (Hx p Hq). destruct (ptrs_lookup _ _ _ Hj). set_solver.
  - exact (IH j k Hnd Hj Hk ltac:(congruence) Hp Hq).
Qed.

Lemma put_length a m h : length (put a m h) = length h.
Proof. unfold put. destruct m as [|bc [|bn [|]]]; [done..| |done]. by rewrite !length_insert. Qed.
Lemma put_ne a m h p : p ∉ [a_char a; a_count a] -> put a m h !! p = h !! p.
Proof.
  intros Hp. unfold put. destruct m as [|bc [|bn [|]]]; [done..| |done]. rewrite !list_lookup_insert_ne; [done|..]; set_solver.
Qed.
Lemma mem_put_ne a b m h : (forall p, p ∈ [a_char b; a_count b] -> p ∉ [a_char a; a_count a]) -> mem b (put a m h) = mem b h.
Proof. intros Hp. unfold mem. rewrite !put_ne; [done|apply Hp; set_solver..]. Qed.
Lemma in_heap_put a m h b : in_heap h b -> in_heap (put a m h) b.
Proof. unfold in_heap. by rewrite put_length. Qed.

(** In every order, each thread does what it does alone with its arrays. *)
Lemma pool_run_spec txt args sched ts h :
  apart args h -> length ts = length args ->
  match pool_run txt args ts sched h with
  | Done (ts', h') =>
      length ts' = length args /\ length h' = length h /\ (forall p, p ∉ ptrs args -> h' !! p = h !! p) /\
      forall j a t, args !! j = Some a -> ts !! j = Some t ->
        exists t', ts' !! j = Some t' /\ zip_steps (count_occ Nat.eq_dec sched j) txt (alone a) t (mem a h) = Done (t', mem a h')
  | Fault => exists j a t, args !! j = Some a /\ ts !! j = Some t /\
      zip_steps (count_occ Nat.eq_dec sched j) txt (alone a) t (mem a h) = Fault
  | _ => False
  end.
Proof.
  revert ts h. induction sched as [|i sched IH]; intros ts h [Hnd Hin] Hl; cbn [pool_run].
  { unfold ret. split_and!; [done..|]. intros j a t Ha Ht. by exists t. }
  unfold bind, pool_step. destruct (args !! i) as [a|] eqn:Ea.
  2:{ specialize (IH ts h (conj Hnd Hin) Hl). unfold ret. assert (forall j (a : zargs), args !! j = Some a -> i <> j) as Hij by congruence.
    destruct (pool_run txt args ts sched h) as [[ts' h']| | |]; [|done| |done].
    - destruct IH as (? & ? & ? & IH). split_and!; [done..|]. intros j b t Hb Ht. cbn. destruct (Nat.eq_dec i j); [by destruct (Hij j b)|]. by apply IH.
    - destruct IH as (j & b & t & Hb & Ht & E). exists j, b, t. cbn. destruct (Nat.eq_dec i j); [by destruct (Hij j b)|]. done. }
  destruct (lookup_lt_is_Some_2 ts i) as [t Et]; [rewrite Hl; by eapply lookup_lt_Some|]. rewrite Et. unfold bind, ret.
  assert (in_heap h a) as Ha by (by eapply Forall_lookup_1 in Hin). destruct (zip_step_local txt a t h Ha) as [-> Hm].
  destruct (zip_step_outcome txt (alone a) t (mem a h)) as [(t1 & m & E1)|E1]; rewrite E1 in *.
  2:{ exists i, a, t. split_and!; [done..|]. cbn. destruct (Nat.eq_dec i i); [|done]. cbn. unfold bind. by rewrite E1. }
  specialize (Hm t1 m eq_refl). assert (i < length ts)%nat as Hlt by (by eapply lookup_lt_Some).
  destruct m as [|bc [|bn [|]]]; try done. set (h1 := put a [bc; bn] h) in *.
  assert (mem a h1 = [bc; bn]) as Hma by (by apply mem_put).
  assert (forall j b, args !! j = Some b -> j <> i -> mem b h1 = mem b h) as Hmem.
  { intros j b Hb Hne. apply mem_put_ne. intros p. by apply (ptrs_apart args j i b a p). }
  specialize (IH (<[i := t1]> ts) h1). rewrite length_insert in IH.
  specialize (IH (conj Hnd (Forall_impl _ _ _ Hin (fun b => in_heap_put a [bc; bn] h b))) Hl).
  assert (forall j b u u', args !! j = Some b -> ts !! j = Some u -> <[i:=t1]> ts !! j = Some u' ->
    zip_steps (count_occ Nat.eq_dec (i :: sched) j) txt (alone b) u (mem b h) = zip_steps (count_occ Nat.eq_dec sched j) txt (alone b) u' (mem b h1)) as Hz.
  { intros j b u u' Hb Hu Hu'. cbn [count_occ]. destruct (Nat.eq_dec i j) as [<-|Hne].
    - rewrite list_lookup_insert_eq in Hu' by done. rewrite Ea in Hb. rewrite Et in Hu. injection Hb as <-. injection Hu as <-. injection Hu' as <-. cbn [zip_steps]. unfold bind. by rewrite E1, Hma.
    - rewrite list_lookup_insert_ne in Hu' by done. simplify_eq. by rewrite (Hmem j b). }
  assert (forall j u, ts !! j = Some u -> is_Some (<[i:=t1]> ts !! j)) as Hs.
  { intros j u Hu. apply lookup_lt_is_Some. rewrite length_insert. by eapply lookup_lt_Some. }
  destruct (pool_run txt args (<[i := t1]> ts) sched h1) as [[ts' h']| | |]; [|done| |done].
  - destruct IH as (L1 & L2 & Hp & IH). unfold h1 in L2. rewrite put_length in L2. split_and!; [done|done| |].
    + intros p Hpn. rewrite Hp by done. apply put_ne. destruct (ptrs_lookup _ _ _ Ea). set_solver.
    + intros j b u Hb Hu. destruct (Hs j u Hu) as [u' Hu']. rewrite (Hz j b u u') by done. by apply IH.
  - destruct IH as (j & b & u' & Hb & Hu' & E). destruct (lookup_lt_is_Some_2 ts j) as [u Hu]; [rewrite Hl; by eapply lookup_lt_Some|].
    exists j, b, u. split_and!; [done..|]. by rewrite (Hz j b u u').
Qed.

(** ** Lemmas: a thread ends *)

Lemma zip_steps_add txt a m n t h :
  zip_steps (m + n) txt a t h = match zip_steps m txt a t h with Done (t', h') => zip_steps n txt a t' h' | o => o end.
Proof.
  revert t h. induction m as [|m IH]; intros t h; [done|]. cbn [zip_steps Nat.add]. unfold bind. destruct (zip_step txt a t h) as [[t' h']| | |]; [apply IH|done..].
Qed.
Lemma zip_steps_done txt a n t h : is_done t = true -> zip_steps n txt a t h = Done (t, h).
Proof.
  intros Hd. induction n as [|n IH]; [done|]. cbn [zip_steps]. unfold bind, zip_step. unfold is_done in Hd. by destruct (z_pc t).
Qed.

(** The thread has returned, or has failed, after [m] steps. *)
Definition ends (m : nat) (txt : list Z) (a : zargs) (t : zthread) (h : heap) : Prop :=
  match zip_steps m txt a t h with Done (t', _) => is_done t' = true | Fault => True | _ => False end.

Lemma ends_mono m n txt a t h : ends m txt a t h -> (m <= n)%nat -> zip_steps n txt a t h = zip_steps m txt a t h.
Proof.
  intros He Hn. replace n with (m + (n - m))%nat by lia. rewrite zip_steps_add. unfold ends in He.
  destruct (zip_steps m txt a t h) as [[t' h']| | |]; [|done..]. by apply zip_steps_done.
Qed.
Lemma ends_le m n txt a t h : ends m txt a t h -> (m <= n)%nat -> ends n txt a t h.
Proof. intros He Hn. unfold ends. by rewrite (ends_mono m n). Qed.
Lemma ends_step m txt a t h :
  match zip_step txt a t h with Done (t', h') => ends m txt a t' h' | Fault => True | _ => False end -> ends (S m) txt a t h.
Proof. unfold ends. cbn [zip_steps]. unfold bind. by destruct (zip_step txt a t h) as [[t' h']| | |]. Qed.

Ltac end_store := apply ends_step; unfold zip_step; cbn [z_pc at_pc z_next]; unfold bind, ret;
  match goal with |- context [store ?p ?k ?x ?h] => destruct (store_outcome p k x h) as [[? ->]| ->]; [|done] end.

Lemma ends_last txt a t h : z_pc t = ZLastChar -> ends 4 txt a t h.
Proof. intros Hpc. apply ends_step. unfold zip_step. rewrite Hpc. unfold bind, ret. destruct (store_outcome (a_char a) (z_index t) (z_curr t) h) as [[? ->]| ->]; [|done]. do 3 end_store. done. Qed.

Lemma ends_loop txt a k t h :
  z_pc t = ZLoop -> z_i t < 2 ^ 31 -> (0 <= z_i t -> Z.of_nat (length txt) - z_i t <= Z.of_nat k) -> ends (3 * k + 5) txt a t h.
Proof.
  revert t h. induction k as [|k IH]; intros t h Hpc Hlt Hk.
  - apply (ends_le 5); [|lia]. apply ends_step. unfold zip_step. rewrite Hpc. unfold bind, ret. destruct (_ <? _); [|by apply ends_last].
    destruct (text_outcome txt (z_i t) h) as [(c & ? & _)| ->]; [lia|done].
  - replace (3 * S k + 5)%nat with (S (S (S (3 * k + 5)))) by lia. apply ends_step. unfold zip_step. rewrite Hpc. unfold bind, ret. destruct (_ <? _); [|by apply (ends_le 4); [apply ends_last|lia]].
    destruct (text_outcome txt (z_i t) h) as [(c & Hi & Hc & ->)| ->]; [|done].
    assert (i32 (z_i t + 1) < 2 ^ 31) as Hlt' by wrap_lia.
    assert (0 <= i32 (z_i t + 1) -> Z.of_nat (length txt) - i32 (z_i t + 1) <= Z.of_nat k) as Hn.
    { intros Hpos. assert (i32 (z_i t + 1) >= z_i t + 1 \/ i32 (z_i t + 1) < 0) as [?|?]; [|lia|lia]. wrap_lia. }
    destruct (negb _); [|by apply (ends_le (3 * k + 5)); [apply IH|lia]].
    end_store. apply ends_step. unfold zip_step. cbn [z_pc at_pc z_index z_curr z_count z_i]. unfold bind, ret.
    destruct (store_outcome (a_count a) (z_index t) (z_count t) x) as [[h2 ->]| ->]; [|done].
    destruct (text_outcome txt (z_i t) h2) as [(c' & _ & _ & ->)| ->]; [|done]. by apply IH.
Qed.
(** The number of steps within which a thread ends. *)
Definition max_steps (txt : list Z) : nat := 3 * length txt + 6.
Lemma ends_new txt a h : ends (max_steps txt) txt a z_new h.
Proof.
  unfold max_steps. rewrite Nat.add_succ_r. apply ends_step. unfold zip_step, z_new. cbn [z_pc]. unfold bind, ret.
  destruct (text_outcome txt (i32 (a_start a)) h) as [(c & Hi & Hc & ->)| ->]; [|done]. apply ends_loop; cbn [z_pc z_i]; [done|wrap_lia|lia].
Qed.

(** ** Lemmas: the arrays of a file *)

Definition fresh : block := {| b_len := RES_MAX; b_cells := ∅ |}.
Fixpoint args_at (p len n : nat) (js : list nat) : list zargs :=
  match js with
  | [] => []
  | j :: js => {| a_start := Z.of_nat (chunk_start len n j); a_end := Z.of_nat (chunk_end len n j); a_char := p; a_count := S p |} :: args_at (S (S p)) len n js
  end.

Lemma make_args_run len n js h : make_args len n js h = Done (args_at (length h) len n js, h ++ replicate (2 * length js) fresh).
Proof.
  revert h. induction js as [|j js IH]; intros h; cbn [make_args args_at]; [by rewrite app_nil_r|].
  unfold bind at 1 2 3, malloc, ret. rewrite IH, !length_app. cbn [length]. rewrite <- !app_assoc.
  replace (length h + 1 + 1)%nat with (S (S (length h))) by lia. replace (length h + 1)%nat with (S (length h)) by lia.
  replace (2 * S (length js))%nat with (S (S (2 * length js))) by lia. done.
Qed.
Lemma args_at_ptrs p len n js : ptrs (args_at p len n js) = seq p (2 * length js).
Proof.
  revert p. induction js as [|j js IH]; intros p; [done|]. cbn [args_at length]. replace (2 * S (length js))%nat with (S (S (2 * length js))) by lia.
  change (ptrs (?a :: ?l)) with ([a_char a; a_count a] ++ ptrs l). by rewrite IH.
Qed.
Lemma args_at_lookup p len n js k j :
  js !! k = Some j -> args_at p len n js !! k
  = Some {| a_start := Z.of_nat (chunk_start len n j); a_end := Z.of_nat (chunk_end len n j); a_char := p + 2 * k; a_count := S (p + 2 * k) |}.
Proof.
  revert p k. induction js as [|i js IH]; intros p [|k] Hk; [done..| |].
  - injection Hk as ->. by rewrite Nat.mul_0_r, Nat.add_0_r.
  - cbn [args_at lookup list_lookup] in *. rewrite (IH _ _ Hk). by replace (S (S p) + 2 * k)%nat with (p + 2 * S k)%nat by lia.
Qed.
Lemma args_at_length p len n js : length (args_at p len n js) = length js.
Proof. revert p. induction js as [|j js IH]; intros p; [done|]. cbn. by rewrite IH. Qed.
Lemma args_at_apart h len n js : apart (args_at (length h) len n js) (h ++ replicate (2 * length js) fresh).
Proof.
  split; [rewrite args_at_ptrs; apply NoDup_seq|]. apply Forall_lookup. intros k a Ha. pose proof (lookup_lt_Some _ _ _ Ha) as Hlt. rewrite args_at_length in Hlt.
  destruct (lookup_lt_is_Some_2 js k Hlt) as [j Hj]. rewrite (args_at_lookup _ _ _ _ _ _ Hj) in Ha. injection Ha as <-.
  unfold in_heap. cbn [a_char a_count]. rewrite length_app, length_replicate. lia.
Qed.
Lemma args_at_fresh h len n js k a : args_at (length h) len n js !! k = Some a -> mem a (h ++ replicate (2 * length js) fresh) = [fresh; fresh].
Proof.
  intros Ha. pose proof (lookup_lt_Some _ _ _ Ha) as Hlt. rewrite args_at_length in Hlt. destruct (lookup_lt_is_Some_2 js k Hlt) as [j Hj].
  rewrite (args_at_lookup _ _ _ _ _ _ Hj) in Ha. injection Ha as <-. unfold mem. cbn [a_char a_count].
  rewrite !lookup_app_r by lia. by rewrite !lookup_replicate_2 by lia.
Qed.

(** Every thread is given steps enough to end. *)
Definition fair (txt : list Z) (n : nat) (sched : list nat) : Prop :=
  forall j, (j < n)%nat -> (max_steps txt <= count_occ Nat.eq_dec sched j)%nat.

(** What thread [j] leaves when it runs alone with fresh arrays. *)
Definition solo (txt : list Z) (a : zargs) : outcome (zthread * heap) := zip_steps (max_steps txt) txt (alone a) z_new [fresh; fresh].

Lemma pool_fair txt n sched h :
  fair txt n sched ->
  let args := args_at (length h) (length txt) n (seq 0 n) in
  let h0 := h ++ replicate (2 * n) fresh in
  match pool_run txt args (replicate n z_new) sched h0 with
  | Done (ts, h') => length h' = length h0 /\ length ts = n /\ (forall p, p ∉ ptrs args -> h' !! p = h0 !! p) /\ forallb is_done ts = true /\
      forall j a, args !! j = Some a -> exists t, ts !! j = Some t /\ solo txt a = Done (t, mem a h')
  | Fault => exists j a, args !! j = Some a /\ solo txt a = Fault
  | _ => False
  end.
Proof.
  intros Hf args h0. pose proof (args_at_apart h (length txt) n (seq 0 n)) as Hap. rewrite length_seq in Hap. fold args h0 in Hap.
  assert (length args = n) as Hla by (unfold args; rewrite args_at_length; apply length_seq).
  assert (forall j a t, args !! j = Some a -> replicate n z_new !! j = Some t ->
    zip_steps (count_occ Nat.eq_dec sched j) txt (alone a) t (mem a h0) = solo txt a) as Hsolo.
  { intros j a t Ha Ht. apply lookup_replicate in Ht as [-> Hj]. unfold solo, h0. pose proof (args_at_fresh h (length txt) n (seq 0 n) j a Ha) as E. rewrite length_seq in E. rewrite E.
    apply ends_mono; [apply ends_new|by apply Hf]. }
  pose proof (pool_run_spec txt args sched (replicate n z_new) h0 Hap ltac:(rewrite length_replicate; lia)) as Hrun.
  destruct (pool_run _ _ _ _ h0) as [[ts h']| | |]; [|done| |done].
  - destruct Hrun as (L1 & L2 & Hp & Hrun).
    assert (forall j a, args !! j = Some a -> exists t, ts !! j = Some t /\ solo txt a = Done (t, mem a h')) as Hs.
    { intros j a Ha. assert (replicate n z_new !! j = Some z_new) as Hj by (apply lookup_replicate_2; rewrite <- Hla; by eapply lookup_lt_Some).
      destruct (Hrun j a z_new Ha Hj) as (t & Ht & E). exists t. split; [done|]. by rewrite <- (Hsolo j a z_new). }
    split_and!; [done|lia|done| |done]. apply forallb_forall. intros t [j Ht]%list_elem_of_In%list_elem_of_lookup.
    destruct (lookup_lt_is_Some_2 args j) as [a Ha]; [rewrite <- L1; by eapply lookup_lt_Some|]. destruct (Hs j a Ha) as (t' & Ht' & E). simplify_eq.
    pose proof (ends_new txt (alone a) [fresh; fresh]) as He. unfold ends in He. unfold solo in E. by rewrite E in He.
  - destruct Hrun as (j & a & t & Ha & Ht & E). exists j, a. split; [done|]. by rewrite <- (Hsolo j a t).
Qed.

(** The heap after the threads is fixed by what each of them leaves. *)
Lemma heap_ext args (h h1 h2 : heap) :
  length h1 = length h -> length h2 = length h -> (forall p, p ∉ ptrs args -> h1 !! p = h !! p) -> (forall p, p ∉ ptrs args -> h2 !! p = h !! p) ->
  Forall (in_heap h) args -> (forall j a, args !! j = Some a -> mem a h1 = mem a h2) -> h1 = h2.
Proof.
  intros L1 L2 P1 P2 Hin Hm. apply list_eq. intros p. destruct (decide (p ∈ ptrs args)) as [Hp|Hp]; [|by rewrite P1, P2].
  unfold ptrs in Hp. apply list_elem_of_join in Hp as (l & Hpl & (a & -> & [j Ha]%list_elem_of_lookup)%list_elem_of_fmap).
  specialize (Hm j a Ha). eapply Forall_lookup_1 in Hin; [|exact Ha].
  assert (in_heap h1 a /\ in_heap h2 a) as [I1 I2] by (unfold in_heap in *; by rewrite L1, L2).
  destruct (mem_pair h1 a I1) as (c1 & n1 & C1 & N1 & E1), (mem_pair h2 a I2) as (c2 & n2 & C2 & N2 & E2). rewrite E1, E2 in Hm. injection Hm as -> ->.
  apply elem_of_cons in Hpl as [->|Hpl]; [congruence|]. apply list_elem_of_singleton in Hpl as ->. congruence.
Qed.

(** Property C39: the result of the threads of a file does not depend on how
    they are scheduled. For every text and number of threads, two schedules
    that run every thread to its end, one access of memory at a time in any
    order, give the same arrays, the same heap, or both fail; [main] does not
    wait for ever. *)
Theorem pzip_schedule_independent txt n h sched sched' :
  fair txt n sched -> fair txt n sched' ->
  run_threads txt n sched h = run_threads txt n sched' h /\ run_threads txt n sched h <> Asleep.
Proof.
  intros Hf Hf'. unfold run_threads, bind at 1 3 5. rewrite !make_args_run, length_seq. pose proof (pool_fair txt n sched h Hf) as H1. pose proof (pool_fair txt n sched' h Hf') as H2.
  cbv zeta in *. set (args := args_at _ _ _ _) in *. set (h0 := h ++ _) in *. unfold bind, ret.
  destruct (pool_run txt args (replicate n z_new) sched h0) as [[ts h1]| | |], (pool_run txt args (replicate n z_new) sched' h0) as [[ts' h2]| | |]; try done.
  - destruct H1 as (L1 & M1 & P1 & -> & S1), H2 as (L2 & M2 & P2 & -> & S2). split; [|done]. do 2 f_equal.
    apply (heap_ext args h0); try done; [|intros j a Ha; destruct (S1 j a Ha) as (t & _ & E1), (S2 j a Ha) as (t' & _ & E2); congruence].
    pose proof (args_at_apart h (length txt) n (seq 0 n)) as [_ Hin]. by rewrite length_seq in Hin.
  - destruct H2 as (j & a & Ha & E). destruct H1 as (_ & _ & _ & _ & S1). destruct (S1 j a Ha) as (t & _ & E'). congruence.
  - destruct H1 as (j & a & Ha & E). destruct H2 as (_ & _ & _ & _ & S2). destruct (S2 j a Ha) as (t & _ & E'). congruence.
Qed.

(** ** Lemmas: the runs of a part *)

(** An array with the elements [l]. *)
Definition arr (l : list Z) : block := {| b_len := RES_MAX; b_cells := map_seqZ 0 l |}.
(** The two arrays of a thread that has written the runs [rs]. *)
Definition arrs (rs : list (Z * Z)) : heap := [arr (snd <$> rs); arr (fst <$> rs)].

Lemma arr_snoc l x : <[Z.of_nat (length l) := x]> (map_seqZ 0 l : gmap Z Z) = map_seqZ 0 (l ++ [x]).
Proof. by rewrite map_seqZ_snoc, Z.add_0_l. Qed.
Lemma store_char l bn x :
  store 0 (Z.of_nat (length l)) x [arr l; bn] = if Z.of_nat (length l) <? RES_MAX then Done (tt, [arr (l ++ [x]); bn]) else Fault.
Proof. unfold store. cbn [lookup list_lookup b_len b_cells arr]. rewrite (proj2 (Z.leb_le 0 _)) by lia. cbn [andb]. destruct (_ <? _); [|done]. by rewrite arr_snoc. Qed.
Lemma store_count l bc x :
  store 1 (Z.of_nat (length l)) x [bc; arr l] = if Z.of_nat (length l) <? RES_MAX then Done (tt, [bc; arr (l ++ [x])]) else Fault.
Proof. unfold store. cbn [lookup list_lookup b_len b_cells arr]. rewrite (proj2 (Z.leb_le 0 _)) by lia. cbn [andb]. destruct (_ <? _); [|done]. by rewrite arr_snoc. Qed.

(** Both stores of a run, between the steps at [pc] and the next but one. *)
Lemma store_both rs n c :
  Z.of_nat (length rs) < RES_MAX ->
  store 0 (Z.of_nat (length rs)) c (arrs rs) = Done (tt, [arr (snd <$> rs ++ [(n, c)]); arr (fst <$> rs)]) /\
  store 1 (Z.of_nat (length rs)) n [arr (snd <$> rs ++ [(n, c)]); arr (fst <$> rs)] = Done (tt, arrs (rs ++ [(n, c)])).
Proof.
  intros Hlt. pose proof (store_char (snd <$> rs) (arr (fst <$> rs)) c) as E1. pose proof (store_count (fst <$> rs) (arr (snd <$> rs ++ [(n, c)])) n) as E2.
  rewrite length_fmap in E1, E2. rewrite (proj2 (Z.ltb_lt _ _)) in E1, E2 by done. unfold arrs. rewrite E1, E2, !fmap_app. done.
Qed.

(** The end of [zip]: the last run and the sentinel. *)
Lemma zip_last txt a t rs :
  z_pc t = ZLastChar -> z_index t = Z.of_nat (length rs) -> Z.of_nat (length rs) + 2 <= RES_MAX ->
  exists t', zip_steps 4 txt (alone a) t (arrs rs) = Done (t', arrs (rs ++ [(z_count t, z_curr t); (-1, z_curr t)])) /\ is_done t' = true.
Proof.
  intros Hpc Hx Hm. destruct (store_both rs (z_count t) (z_curr t)) as [E1 E2]; [lia|].
  destruct (store_both (rs ++ [(z_count t, z_curr t)]) (-1) (z_curr t)) as [E3 E4]; [rewrite length_app; cbn; lia|].
  assert (i32 (z_index t + 1) = Z.of_nat (length (rs ++ [(z_count t, z_curr t)]))) as Ei.
  { rewrite length_app, Hx. cbn [length]. unfold RES_MAX in Hm. rewrite i32_small by (unfold is_i32; lia). lia. }
  eexists. cbn [zip_steps]. unfold zip_step, bind, ret. rewrite Hpc. cbn [z_pc at_pc z_index z_curr z_count z_next a_char a_count alone]. rewrite Hx, E1.
  cbn [z_pc at_pc z_index z_curr z_count z_next a_char a_count alone]. rewrite Hx, E2. cbn [z_pc at_pc z_index z_curr z_count z_next a_char a_count alone]. rewrite Ei, E3.
  cbn [z_pc at_pc z_index z_curr z_count z_next a_char a_count alone]. rewrite Ei, E4.
  split; [by rewrite <- app_assoc|done].
Qed.

(** The loop of [zip], with the run [count], [curr] open and [k] bytes to go. *)
Lemma zip_loop txt a k t rs :
  z_pc t = ZLoop -> 0 <= z_i t -> a_end a = z_i t + Z.of_nat k -> a_end a <= Z.of_nat (length txt) -> a_end a < 2 ^ 31 ->
  0 < z_count t -> z_count t + Z.of_nat k < 2 ^ 31 -> z_index t = Z.of_nat (length rs) ->
  let runs := push (z_count t) (z_curr t) (rle (take k (drop (Z.to_nat (z_i t)) txt))) in
  Z.of_nat (length rs + length runs) < RES_MAX ->
  exists m t' c', zip_steps m txt (alone a) t (arrs rs) = Done (t', arrs (rs ++ runs ++ [(-1, c')])) /\ is_done t' = true.
Proof.
  revert t rs. induction k as [|k IH]; intros t rs Hpc Hi He Hl H31 Hc Hc31 Hx runs Hm.
  - destruct (zip_last txt a (at_pc ZLastChar t) rs) as (t' & E & Hd); [done|done|change (length runs) with 1%nat in Hm; lia|].
    exists 5%nat, t', (z_curr t). split; [|done]. change 5%nat with (S 4). cbn [zip_steps]. unfold bind at 1, zip_step at 1. rewrite Hpc. cbn [a_end alone].
    unfold u64. rewrite Z.mod_small, (proj2 (Z.ltb_ge _ _)) by lia. unfold ret at 1. exact E.
  - assert (exists c, txt !! Z.to_nat (z_i t) = Some c) as [c Hlk] by (apply lookup_lt_is_Some_2; lia).
    assert (runs = push (z_count t) (z_curr t) (push 1 c (rle (take k (drop (Z.to_nat (z_i t + 1)) txt))))) as Er.
    { unfold runs. rewrite (drop_S txt c) by done. by replace (S (Z.to_nat (z_i t))) with (Z.to_nat (z_i t + 1)) by lia. }
    clearbody runs. assert (i32 (z_i t + 1) = z_i t + 1) as Ei by (apply i32_small; unfold is_i32; lia).
    assert (forall h, text_at txt (z_i t) h = Done (c, h)) as Ht by (intros h; unfold text_at; by rewrite (proj2 (Z.leb_le _ _)), Hlk by lia).
    assert ((u64 (z_i t) <? a_end a) = true) as Hlt by (unfold u64; rewrite Z.mod_small by lia; apply Z.ltb_lt; lia).
    destruct (Z.eqb_spec (z_curr t) c) as [Ec|Ec].
    + set (t1 := {| z_pc := ZLoop; z_i := z_i t + 1; z_curr := z_curr t; z_count := z_count t + 1; z_index := z_index t |}).
      destruct (IH t1 rs) as (m & t' & c' & E & Hd); cbn [z_pc z_i z_count z_index z_curr t1]; try (done || lia).
      { rewrite Ec, push_push_same in Er. rewrite Ec, <- Er. done. }
      exists (S m), t', c'. split; [|done]. cbn [zip_steps]. unfold bind, zip_step. rewrite Hpc. cbn [a_end alone]. rewrite Hlt. unfold bind, ret. rewrite Ht, (proj2 (Z.eqb_eq _ _)) by done.
      cbn [negb]. rewrite Ei, (i32_small (z_count t + 1)) by (unfold is_i32; lia). rewrite Er, Ec, push_push_same, <- Ec. exact E.
    + rewrite push_push_ne in Er by done. rewrite Er in Hm. cbn [length] in Hm. destruct (store_both rs (z_count t) (z_curr t)) as [E1 E2]; [lia|].
      set (t1 := {| z_pc := ZLoop; z_i := z_i t + 1; z_curr := c; z_count := 1; z_index := z_index t + 1 |}).
      destruct (IH t1 (rs ++ [(z_count t, z_curr t)])) as (m & t' & c' & E & Hd); cbn [z_pc z_i z_count z_index z_curr t1]; rewrite ?length_app; cbn [length]; try (done || lia).
      exists (S (S (S m))), t', c'. split; [|done]. cbn [zip_steps]. unfold bind, zip_step. rewrite Hpc. cbn [a_end alone]. rewrite Hlt. unfold bind, ret. rewrite Ht, (proj2 (Z.eqb_neq _ _)) by done.
      cbn [negb z_pc at_pc z_index z_curr z_count z_i a_char a_count alone]. rewrite Hx, E1.
      cbn [z_pc at_pc z_index z_curr z_count z_i a_char a_count alone]. rewrite Hx, E2, Ht, Ei, (i32_small (_ + 1)) by (unfold is_i32, RES_MAX in *; lia).
      rewrite Er, <- Hx. unfold t1 in E. cbn [z_curr z_count z_i] in E. rewrite <- app_assoc in E. exact E.
Qed.

(** A run that ends is the one of the fixed number of steps. *)
Lemma solo_ends txt a m o : zip_steps m txt (alone a) z_new [fresh; fresh] = o -> ends m txt (alone a) z_new [fresh; fresh] -> solo txt a = o.
Proof.
  intros E Hm. unfold solo. pose proof (ends_new txt (alone a) [fresh; fresh]) as He.
  destruct (decide (m <= max_steps txt)%nat); [by rewrite (ends_mono m)|]. rewrite <- E. symmetry. apply ends_mono; [done|lia].
Qed.
Lemma solo_result txt a m t h : zip_steps m txt (alone a) z_new [fresh; fresh] = Done (t, h) -> is_done t = true -> solo txt a = Done (t, h).
Proof. intros E Hd. apply (solo_ends _ _ m); [done|]. unfold ends. by rewrite E. Qed.

Lemma solo_spec txt a s e :
  a_start a = Z.of_nat s -> a_end a = Z.of_nat e -> (s < e <= length txt)%nat -> Z.of_nat (length txt) < 2 ^ 31 ->
  Z.of_nat (length (rle (take (e - s) (drop s txt)))) < RES_MAX ->
  exists t c, solo txt a = Done (t, arrs (rle (take (e - s) (drop s txt)) ++ [(-1, c)])).
Proof.
  intros Es Ee He Hl Hm. destruct (lookup_lt_is_Some_2 txt s) as [c Hlk]; [lia|].
  assert (take (e - s) (drop s txt) = c :: take (e - S s) (drop (S s) txt)) as Et by (rewrite (drop_S txt c) by done; by replace (e - s)%nat with (S (e - S s)) by lia).
  rewrite Et in *. change (rle (c :: ?l)) with (push 1 c (rle l)) in *.
  destruct (zip_loop txt a (e - S s) {| z_pc := ZLoop; z_i := Z.of_nat (S s); z_curr := c; z_count := 1; z_index := 0 |} []) as (m & t & c' & E & Hd);
    cbn [z_pc z_i z_curr z_count z_index length]; rewrite ?Nat2Z.id; try (done || lia).
  exists t, c'. apply (solo_result txt a (S m)); [|done]. cbn [zip_steps]. unfold bind, zip_step, z_new. cbn [z_pc a_start alone]. rewrite Es, i32_small by (unfold is_i32; lia).
  unfold bind, ret, text_at. rewrite (proj2 (Z.leb_le _ _)), Nat2Z.id, Hlk, i32_small by (unfold is_i32; lia). cbn [z_i z_curr z_count] in E. rewrite Nat2Z.id in E.
  replace (Z.of_nat s + 1) with (Z.of_nat (S s)) by lia. exact E.
Qed.

(** ** Lemmas: the merge *)

Definition merge_runs (st : pzip_st) (rs : list (Z * Z)) : pzip_st := foldl (fun st r => merge_run st r.1 r.2) st rs.

Lemma mem_arrs a h rs : mem a h = arrs rs -> h !! a_char a = Some (arr (snd <$> rs)) /\ h !! a_count a = Some (arr (fst <$> rs)).
Proof. unfold mem, arrs. destruct (h !! a_char a), (h !! a_count a); try done. by intros [= -> ->]. Qed.
Lemma load_arr h p l k : h !! p = Some (arr l) -> load p (Z.of_nat k) h = match l !! k with Some x => Done (x, h) | None => Fault end.
Proof.
  intros E. unfold load. rewrite E. cbn [mbind option_bind b_cells arr]. rewrite lookup_map_seqZ, option_guard_True by lia. rewrite Z.sub_0_r, Nat2Z.id. done.
Qed.
Lemma merge_from_spec a h rs c post pre fuel st :
  mem a h = arrs (pre ++ rs ++ (-1, c) :: post) -> Forall (fun r => 0 < r.1) rs -> (length rs < fuel)%nat -> Z.of_nat (length (pre ++ rs)) < RES_MAX ->
  merge_from fuel a (Z.of_nat (length pre)) st h = Done (merge_runs st rs, h).
Proof.
  intros Hm Hp. destruct (mem_arrs _ _ _ Hm) as [Hc Hn]. revert pre fuel st Hm Hc Hn. induction Hp as [|[n x] rs Hx _ IH]; intros pre fuel st Hm Hc Hn Hf Hl;
    (destruct fuel as [|fuel]; [cbn in Hf; lia|]); cbn [merge_from]; unfold bind.
  - rewrite (load_arr _ _ _ _ Hn), list_lookup_fmap, lookup_app_r, Nat.sub_diag by lia. done.
  - rewrite (load_arr _ _ _ _ Hn), list_lookup_fmap, lookup_app_r, Nat.sub_diag by lia. cbn [lookup list_lookup app fmap option_fmap option_map fst snd] in *.
    rewrite (proj2 (Z.eqb_neq _ _)) by lia. rewrite (load_arr _ _ _ _ Hc), list_lookup_fmap, lookup_app_r, Nat.sub_diag by lia. cbn [lookup list_lookup app fmap option_fmap option_map fst snd].
    rewrite length_app in Hl. cbn [length] in Hl. rewrite i32_small by (unfold is_i32, RES_MAX in *; lia).
    replace (Z.of_nat (length pre) + 1) with (Z.of_nat (length (pre ++ [(n, x)]))) by (rewrite length_app; cbn; lia).
    apply IH; rewrite <- ?app_assoc; cbn [app]; try done; [cbn in Hf; lia|rewrite length_app; cbn; lia].
Qed.
Lemma size_map_seqZ (l : list Z) : size (map_seqZ 0 l : gmap Z Z) = length l.
Proof.
  induction l as [|x l IH] using rev_ind; [done|]. rewrite map_seqZ_snoc, map_size_insert_None, IH, length_app by (apply map_seqZ_snoc_disjoint). cbn. lia.
Qed.
Lemma merge_array_spec a h rs c st :
  mem a h = arrs (rs ++ [(-1, c)]) -> Forall (fun r => 0 < r.1) rs -> Z.of_nat (length rs) < RES_MAX -> merge_array a st h = Done (merge_runs st rs, h).
Proof.
  intros Hm Hp Hl. destruct (mem_arrs _ _ _ Hm) as [_ Hn]. unfold merge_array, bind, gets. rewrite Hn.
  apply (merge_from_spec a h rs c [] [] _ st); [done|done| |done]. cbn [b_cells arr]. rewrite size_map_seqZ, length_fmap, length_app. cbn. lia.
Qed.

(** The merge loop has read the bytes [p], the last run still open. *)
Definition pz_repr (p : list Z) (st : pzip_st) : Prop :=
  (p = [] /\ old_count st = 0 /\ p_out st = [])
  \/ (0 < old_count st <= Z.of_nat (length p) /\
      forall r, p_out st ++ enc (push (old_count st) (old_char st) r)
                = enc (foldr (push 1) r p)).

Lemma merge_run_repr p st n c :
  pz_repr p st -> 0 < n -> Z.of_nat (length p) + n < 2 ^ 31 ->
  pz_repr (p ++ replicate (Z.to_nat n) c) (merge_run st n c).
Proof.
  intros Hp Hn Hlen. right. unfold merge_run.
  rewrite length_app, length_replicate.
  assert (forall r, foldr (push 1) r (p ++ replicate (Z.to_nat n) c)
                    = foldr (push 1) (push n c r) p) as Hf.
  { intros r. rewrite foldr_app, pushes_replicate by lia. by rewrite Z2Nat.id by lia. }
  destruct Hp as [(-> & H0 & Ho)|(Hc & Hr)];
    destruct (Z.eqb_spec (old_char st) c) as [Heq|Hne]; cbn [negb old_count p_out old_char].
  - rewrite i32_small by (unfold is_i32; cbn in *; lia). split; [cbn in *; lia|].
    intros r. by rewrite Hf, Ho, H0, Heq, Z.add_0_l.
  - split; [lia|]. intros r. by rewrite Hf, Ho, H0.
  - rewrite i32_small by (unfold is_i32; lia). split; [lia|].
    intros r. by rewrite Hf, <- Hr, Heq, push_push_same.
  - split; [lia|]. intros r. destruct (Z.eqb_spec (old_count st) 0); [lia|]. cbn [negb].
    by rewrite Hf, <- Hr, push_push_ne, enc_cons, <- app_assoc by done.
Qed.
Lemma merge_runs_repr rs p st :
  pz_repr p st -> Forall (fun x => 0 < x.1) rs -> Z.of_nat (length (p ++ expand rs)) < 2 ^ 31 ->
  pz_repr (p ++ expand rs) (merge_runs st rs).
Proof.
  intros Hp Hrs. revert p st Hp. induction Hrs as [|[n c] rs Hn _ IH]; intros p st Hp Hlen; [by rewrite app_nil_r|].
  change (expand ((n, c) :: rs)) with (replicate (Z.to_nat n) c ++ expand rs) in *. rewrite app_assoc in Hlen |- *. apply IH; [|done].
  apply merge_run_repr; [done|done|]. rewrite !length_app, length_replicate in Hlen. cbn [fst] in *. lia.
Qed.

(** ** Lemmas: the parts of a file *)

(** The piece of [txt] thread [j] works on. *)
Definition chunk (txt : list Z) (n j : nat) : list Z :=
  take (chunk_end (length txt) n j - chunk_start (length txt) n j)
    (drop (chunk_start (length txt) n j) txt).

Lemma chunk_bounds len n j :
  (0 < n <= len -> j < n -> chunk_start len n j < chunk_end len n j <= len)%nat.
Proof.
  intros Hn Hj. unfold chunk_start, chunk_end. pose proof (Nat.Div0.mul_div_le len n).
  assert (1 <= len / n)%nat by (apply Nat.div_le_lower_bound; lia). destruct (decide (j = (n - 1)%nat)) as [->|]; nia.
Qed.
Lemma chunks_prefix txt n k :
  (k < n)%nat -> concat (map (chunk txt n) (seq 0 k)) = take (length txt / n * k) txt.
Proof.
  induction k as [|k IH]; intros Hk; [by rewrite Nat.mul_0_r|]. rewrite seq_S, map_app, concat_app, IH by lia; cbn. rewrite app_nil_r.
  unfold chunk, chunk_start, chunk_end. rewrite decide_False by lia. rewrite take_take_drop. f_equal. lia.
Qed.
Lemma chunks_concat txt n : (0 < n)%nat -> concat (map (chunk txt n) (seq 0 n)) = txt.
Proof.
  intros Hn. destruct n as [|n]; [lia|]. rewrite seq_S, map_app, concat_app, chunks_prefix by lia; cbn. rewrite app_nil_r.
  unfold chunk, chunk_start, chunk_end. rewrite decide_True by lia. rewrite take_take_drop. apply take_ge.
  pose proof (Nat.Div0.mul_div_le (length txt) (S n)). nia.
Qed.

(** Where the threads end with arrays [rs] and the sentinel, [run_threads]
    leaves these arrays in the heap. *)
Lemma run_threads_spec txt n sched h (rs : nat -> list (Z * Z)) :
  fair txt n sched ->
  (forall j a, a_start a = Z.of_nat (chunk_start (length txt) n j) -> a_end a = Z.of_nat (chunk_end (length txt) n j) -> (j < n)%nat ->
     exists t c, solo txt a = Done (t, arrs (rs j ++ [(-1, c)]))) ->
  exists args h', run_threads txt n sched h = Done (args, h') /\
    Forall2 (fun a j => exists c, mem a h' = arrs (rs j ++ [(-1, c)])) args (seq 0 n).
Proof.
  intros Hf Hs. unfold run_threads, bind at 1. rewrite make_args_run, length_seq. pose proof (pool_fair txt n sched h Hf) as Hp. cbv zeta in Hp. set (args := args_at _ _ _ _) in *.
  assert (forall j a, args !! j = Some a -> (j < n)%nat /\ exists t c, solo txt a = Done (t, arrs (rs j ++ [(-1, c)]))) as Ha.
  { intros j a Ha. pose proof (lookup_lt_Some _ _ _ Ha) as Hlt. unfold args in Ha, Hlt. rewrite args_at_length, length_seq in Hlt. split; [done|].
    rewrite (args_at_lookup _ _ _ _ _ j) in Ha by (apply lookup_seq; lia). injection Ha as <-. by apply Hs. }
  unfold bind, ret. destruct (pool_run _ _ _ _ _) as [[ts h']| | |]; [|done| |done].
  - destruct Hp as (_ & _ & _ & -> & Hp). exists args, h'. split; [done|]. apply Forall2_same_length_lookup. split; [unfold args; by rewrite args_at_length|].
    intros j a k Hj [-> _]%lookup_seq. destruct (Ha j a Hj) as (_ & t & c & E), (Hp j a Hj) as (t' & _ & E'). exists c. cbn [Nat.add]. congruence.
  - destruct Hp as (j & a & Hj & E). destruct (Ha j a Hj) as (_ & t & c & E'). congruence.
Qed.
Lemma merge_arrays_spec h (rs : nat -> list (Z * Z)) args js st :
  Forall2 (fun a j => exists c, mem a h = arrs (rs j ++ [(-1, c)])) args js -> Forall (fun j => Forall (fun r => 0 < r.1) (rs j) /\ Z.of_nat (length (rs j)) < RES_MAX) js ->
  merge_arrays args st h = Done (merge_runs st (concat (map rs js)), h).
Proof.
  intros HF. revert st. induction HF as [|a j args js [c Hm] _ IH]; intros st Hj; [done|]. inversion Hj as [|? ? [Hp Hl] Hjs]; subst.
  cbn [merge_arrays map concat]. unfold bind. rewrite (merge_array_spec a h (rs j) c) by done. rewrite IH by done. unfold merge_runs. by rewrite foldl_app.
Qed.

(** What [main] asks of a file: a byte for every thread, and fewer runs in each
    part than the arrays have elements. *)
Definition fits (n : nat) (txt : list Z) : Prop :=
  (n <= length txt)%nat /\ forall j, (j < n)%nat -> Z.of_nat (length (rle (chunk txt n j))) < RES_MAX.

Lemma file_spec n txt sched p st h :
  (0 < n)%nat -> fits n txt -> fair txt n sched -> Z.of_nat (length (p ++ txt)) < 2 ^ 31 -> pz_repr p st ->
  exists args h' st', run_threads txt n sched h = Done (args, h') /\ merge_arrays args st h' = Done (st', h') /\ pz_repr (p ++ txt) st'.
Proof.
  intros Hn [Hlt Hr] Hf Hlen Hp. rewrite length_app in Hlen. assert (Forall (fun j => j < n)%nat (seq 0 n)) as Hj by (apply Forall_forall; intros j Hj%elem_of_seq; lia).
  destruct (run_threads_spec txt n sched h (fun j => rle (chunk txt n j)) Hf) as (args & h' & E & HF).
  { intros j a Hs He Hjn. apply solo_spec; [done|done|by apply chunk_bounds|lia|by apply Hr]. }
  exists args, h'. eexists. split; [done|]. rewrite (merge_arrays_spec h' _ args (seq 0 n) st HF).
  - split; [done|]. assert (expand (concat (map (fun j => rle (chunk txt n j)) (seq 0 n))) = txt) as Ee.
    { etransitivity; [|exact (chunks_concat txt n Hn)]. clear. induction (seq 0 n) as [|j js IH]; [done|]. cbn [map concat]. unfold expand in *. rewrite map_app, concat_app, IH. f_equal. apply expand_rle. }
    rewrite <- Ee at 1. apply merge_runs_repr; [done| |rewrite Ee, length_app; lia].
    apply Forall_concat, Forall_forall. intros rs (j & -> & _)%list_elem_of_fmap. apply rle_pos.
  - eapply Forall_impl; [exact Hj|]. intros j Hjn. split; [apply rle_pos|by apply Hr].
Qed.
Lemma pzip_files_spec n fopen argv contents scheds p st h :
  (0 < n)%nat -> Forall2 (fun name f => fopen name = Some f) argv contents ->
  Forall (fits n) contents -> Forall2 (fun f s => fair f n s) contents scheds ->
  Z.of_nat (length (p ++ concat contents)) < 2 ^ 31 -> pz_repr p st ->
  exists h', pzip_files n fopen argv scheds st h = Done ({| stdout := enc (rle (p ++ concat contents)); code := 0 |}, h').
Proof.
  intros Hn Hopen. revert scheds p st h. induction Hopen as [|name f argv contents Hf _ IH]; intros scheds p st h Hsz Hfair Hlen Hp; cbn [pzip_files].
  { exists h. unfold ret. cbn [concat]. rewrite app_nil_r. do 3 f_equal. destruct Hp as [(-> & -> & ->)|(Hc & Hr)]; [done|].
    destruct (Z.ltb_spec 0 (old_count st)); [|lia]. unfold rle. rewrite <- Hr. done. }
  rewrite Hf. inversion Hsz; subst. inversion Hfair as [|? s ? scheds' Hs]; subst. cbn [concat] in Hlen |- *. rewrite app_assoc in Hlen |- *.
  destruct (file_spec n f s p st h) as (args & h' & st' & E1 & E2 & Hp'); [done|done|done|rewrite length_app in Hlen; lia|done|].
  unfold bind. cbn [head default tail from_option id]. rewrite E1, E2. by apply IH.
Qed.

(** ** Lemmas: a file of one byte *)

Lemma solo_one_byte c a :
  a_start a = 0 -> 0 <= a_end a <= 1 -> exists t, solo [c] a = Done (t, arrs [(1, c); (-1, c)]).
Proof.
  intros Es Ee. set (t := {| z_pc := ZLastChar; z_i := 1; z_curr := c; z_count := 1; z_index := 0 |}).
  destruct (zip_last [c] a t []) as (t' & E & Hd); [done|done|unfold RES_MAX; cbn; lia|]. exists t'. apply (solo_result [c] a 6); [|done].
  change 6%nat with (2 + 4)%nat. rewrite zip_steps_add. cbn [zip_steps]. unfold zip_step, z_new, bind, ret. cbn [z_pc a_start alone]. rewrite Es. cbn [z_pc].
  change (text_at [c] (i32 0) [fresh; fresh]) with (Done (c, [fresh; fresh])). cbn [z_pc z_i a_end alone].
  change (u64 (i32 (i32 0 + 1))) with 1. rewrite (proj2 (Z.ltb_ge _ _)) by lia. exact E.
Qed.
Lemma merge_one_byte n c m o :
  0 <= m -> m + Z.of_nat n < 2 ^ 31 -> (m = 0 -> (0 < n)%nat) -> (m = 0 \/ o = c) ->
  merge_runs {| old_char := o; old_count := m; p_out := [] |} (replicate n (1, c)) = {| old_char := c; old_count := m + Z.of_nat n; p_out := [] |}.
Proof.
  revert m o. induction n as [|n IH]; intros m o Hm Hlt H0 Ho.
  { destruct Ho as [->| ->]; [lia|]. cbn. by rewrite Z.add_0_r. }
  cbn [replicate]. unfold merge_runs in *. cbn [foldl fst snd]. unfold merge_run at 2. cbn [old_char old_count p_out].
  destruct (Z.eqb_spec o c) as [->|Hne]; cbn [negb].
  - rewrite i32_small by (unfold is_i32; lia). rewrite IH by lia. f_equal. lia.
  - destruct Ho as [->|]; [|done]. cbn [Z.eqb negb]. rewrite IH by lia. f_equal. lia.
Qed.

(** A one-byte file is compressed wrongly by two or more threads: every thread
    but the last has the empty part [0, 0) and still emits one copy of the
    byte, so pzip writes the count [n]. *)
Theorem pzip_one_byte_file n (name : string) (c : Z) sched :
  0 < Z.of_nat n < 2 ^ 31 -> fair [c] n sched ->
  pzip n (fun _ => Some [c]) [name] [sched] = Done {| stdout := record (Z.of_nat n) c; code := 0 |}.
Proof.
  intros Hn Hf. destruct (run_threads_spec [c] n sched [] (fun _ => [(1, c)]) Hf) as (args & h' & E & HF).
  { intros j a Hs He Hj. destruct (solo_one_byte c a) as [t Et]; [| |by exists t, c]; rewrite ?Hs, ?He; unfold chunk_start, chunk_end; cbn [length];
      (destruct (decide (n = 1%nat)) as [->|]; [replace j with 0%nat by lia; first [reflexivity | split; vm_compute; discriminate]|rewrite Nat.div_small by lia; first [lia | destruct (decide (j = (n - 1)%nat)); lia]]). }
  unfold pzip, pzip_main, pzip_files, bind. cbn [head default from_option id tail]. rewrite E, (merge_arrays_spec h' _ args (seq 0 n) _ HF).
  2:{ apply Forall_true. intros j. split; [by repeat constructor|by vm_compute]. }
  assert (concat (map (fun _ : nat => [(1, c)]) (seq 0 n)) = replicate n (1, c)) as ->.
  { rewrite <- (length_seq n 0) at 2. clear. induction (seq 0 n) as [|j js IH]; [done|]. cbn [map concat length replicate app]. by rewrite IH. }
  rewrite merge_one_byte by lia. cbn [old_count old_char p_out]. unfold ret. by rewrite (proj2 (Z.ltb_lt _ _)) by lia.
Qed.

(** ** Lemmas: arrays that are too small *)

Lemma store_full rs c : RES_MAX <= Z.of_nat (length rs) -> store 0 (Z.of_nat (length rs)) c (arrs rs) = Fault.
Proof.
  intros Hm. unfold store, arrs. cbn [lookup list_lookup b_len arr]. rewrite (proj2 (Z.ltb_ge _ _)) by done. by rewrite andb_false_r.
Qed.
Lemma zip_last_overrun txt a t rs :
  z_pc t = ZLastChar -> z_index t = Z.of_nat (length rs) -> RES_MAX <= Z.of_nat (length rs) + 1 <= RES_MAX + 1 ->
  zip_steps 3 txt (alone a) t (arrs rs) = Fault.
Proof.
  intros Hpc Hx Hm. cbn [zip_steps]. unfold zip_step, bind, ret. rewrite Hpc. cbn [z_pc at_pc z_index z_curr z_count z_next a_char a_count alone]. rewrite Hx.
  destruct (decide (RES_MAX <= Z.of_nat (length rs))) as [Hf|Hf]; [by rewrite (store_full rs)|].
  destruct (store_both rs (z_count t) (z_curr t)) as [E1 E2]; [lia|]. rewrite E1. cbn [z_pc at_pc z_index z_curr z_count z_next a_char a_count alone]. rewrite Hx, E2.
  cbn [z_pc at_pc z_index z_curr z_count z_next a_char a_count alone].
  assert (i32 (z_index t + 1) = Z.of_nat (length (rs ++ [(z_count t, z_curr t)]))) as Ei.
  { rewrite length_app, Hx. cbn [length]. unfold RES_MAX in Hm. rewrite i32_small by (unfold is_i32; lia). lia. }
  rewrite Ei, (store_full (rs ++ [(z_count t, z_curr t)])); [done|]. rewrite length_app. cbn [length]. lia.
Qed.
Lemma zip_loop_overrun txt a k t rs :
  z_pc t = ZLoop -> 0 <= z_i t -> a_end a = z_i t + Z.of_nat k -> a_end a <= Z.of_nat (length txt) -> a_end a < 2 ^ 31 ->
  0 < z_count t -> z_count t + Z.of_nat k < 2 ^ 31 -> z_index t = Z.of_nat (length rs) -> Z.of_nat (length rs) <= RES_MAX ->
  let runs := push (z_count t) (z_curr t) (rle (take k (drop (Z.to_nat (z_i t)) txt))) in
  RES_MAX <= Z.of_nat (length rs + length runs) ->
  exists m, zip_steps m txt (alone a) t (arrs rs) = Fault.
Proof.
  revert t rs. induction k as [|k IH]; intros t rs Hpc Hi He Hl H31 Hc Hc31 Hx Hrs runs Hm.
  - exists 4%nat. change 4%nat with (S 3). cbn [zip_steps]. unfold bind at 1, zip_step at 1. rewrite Hpc. cbn [a_end alone].
    unfold u64. rewrite Z.mod_small, (proj2 (Z.ltb_ge _ _)) by lia. unfold ret at 1. apply (zip_last_overrun txt a (at_pc ZLastChar t) rs); [done|done|change (length runs) with 1%nat in Hm; lia].
  - assert (exists c, txt !! Z.to_nat (z_i t) = Some c) as [c Hlk] by (apply lookup_lt_is_Some_2; lia).
    assert (runs = push (z_count t) (z_curr t) (push 1 c (rle (take k (drop (Z.to_nat (z_i t + 1)) txt))))) as Er.
    { unfold runs. rewrite (drop_S txt c) by done. by replace (S (Z.to_nat (z_i t))) with (Z.to_nat (z_i t + 1)) by lia. }
    clearbody runs. assert (i32 (z_i t + 1) = z_i t + 1) as Ei by (apply i32_small; unfold is_i32; lia).
    assert (forall h, text_at txt (z_i t) h = Done (c, h)) as Ht by (intros h; unfold text_at; by rewrite (proj2 (Z.leb_le _ _)), Hlk by lia).
    assert ((u64 (z_i t) <? a_end a) = true) as Hlt by (unfold u64; rewrite Z.mod_small by lia; apply Z.ltb_lt; lia).
    destruct (Z.eqb_spec (z_curr t) c) as [Ec|Ec].
    + destruct (IH {| z_pc := ZLoop; z_i := z_i t + 1; z_curr := z_curr t; z_count := z_count t + 1; z_index := z_index t |} rs) as (m & E); cbn [z_pc z_i z_count z_index z_curr]; try (done || lia).
      { rewrite Ec, push_push_same in Er. rewrite Ec, <- Er. done. }
      exists (S m). cbn [zip_steps]. unfold bind, zip_step. rewrite Hpc. cbn [a_end alone]. rewrite Hlt. unfold bind, ret. rewrite Ht, (proj2 (Z.eqb_eq _ _)) by done.
      cbn [negb]. rewrite Ei, (i32_small (z_count t + 1)) by (unfold is_i32; lia). exact E.
    + destruct (decide (RES_MAX <= Z.of_nat (length rs))) as [Hf|Hf].
      { exists 2%nat. cbn [zip_steps]. unfold bind, zip_step. rewrite Hpc. cbn [a_end alone]. rewrite Hlt. unfold bind, ret. rewrite Ht, (proj2 (Z.eqb_neq _ _)) by done.
        cbn [negb z_pc at_pc z_index z_curr z_count z_i a_char a_count alone]. by rewrite Hx, (store_full rs). }
      rewrite push_push_ne in Er by done. rewrite Er in Hm. cbn [length] in Hm. destruct (store_both rs (z_count t) (z_curr t)) as [E1 E2]; [lia|].
      destruct (IH {| z_pc := ZLoop; z_i := z_i t + 1; z_curr := c; z_count := 1; z_index := z_index t + 1 |} (rs ++ [(z_count t, z_curr t)])) as (m & E); cbn [z_pc z_i z_count z_index z_curr]; rewrite ?length_app; cbn [length]; try (done || lia).
      exists (S (S (S m))). cbn [zip_steps]. unfold bind, zip_step. rewrite Hpc. cbn [a_end alone]. rewrite Hlt. unfold bind, ret. rewrite Ht, (proj2 (Z.eqb_neq _ _)) by done.
      cbn [negb z_pc at_pc z_index z_curr z_count z_i a_char a_count alone]. rewrite Hx, E1.
      cbn [z_pc at_pc z_index z_curr z_count z_i a_char a_count alone]. rewrite Hx, E2, Ht, Ei, (i32_small (_ + 1)) by (unfold is_i32, RES_MAX in *; lia).
      rewrite <- Hx. exact E.
Qed.
Lemma solo_overrun txt a s e :
  a_start a = Z.of_nat s -> a_end a = Z.of_nat e -> (s < e <= length txt)%nat -> Z.of_nat (length txt) < 2 ^ 31 ->
  RES_MAX <= Z.of_nat (length (rle (take (e - s) (drop s txt)))) -> solo txt a = Fault.
Proof.
  intros Es Ee He Hl Hm. destruct (lookup_lt_is_Some_2 txt s) as [c Hlk]; [lia|].
  assert (take (e - s) (drop s txt) = c :: take (e - S s) (drop (S s) txt)) as Et by (rewrite (drop_S txt c) by done; by replace (e - s)%nat with (S (e - S s)) by lia).
  rewrite Et in Hm. change (rle (c :: ?l)) with (push 1 c (rle l)) in Hm.
  destruct (zip_loop_overrun txt a (e - S s) {| z_pc := ZLoop; z_i := Z.of_nat (S s); z_curr := c; z_count := 1; z_index := 0 |} []) as (m & E);
    cbn [z_pc z_i z_curr z_count z_index length]; rewrite ?Nat2Z.id; try (done || lia).
  assert (zip_steps (S m) txt (alone a) z_new [fresh; fresh] = Fault) as E'; [|apply (solo_ends txt a (S m)); [done|unfold ends; by rewrite E']].
  cbn [zip_steps]. unfold bind, zip_step, z_new. cbn [z_pc a_start alone]. rewrite Es, i32_small by (unfold is_i32; lia).
  unfold bind, ret, text_at. rewrite (proj2 (Z.leb_le _ _)), Nat2Z.id, Hlk, i32_small by (unfold is_i32; lia). replace (Z.of_nat s + 1) with (Z.of_nat (S s)) by lia. exact E.
Qed.

(** The arrays have 1,000,000 elements whatever the file: where a part has as
    many runs, its thread writes behind them, in every schedule. *)
Theorem pzip_overruns txt n j sched h :
  (j < n <= length txt)%nat -> Z.of_nat (length txt) < 2 ^ 31 -> RES_MAX <= Z.of_nat (length (rle (chunk txt n j))) -> fair txt n sched ->
  run_threads txt n sched h = Fault.
Proof.
  intros Hj Hl Hm Hf. unfold run_threads, bind at 1. rewrite make_args_run, length_seq. pose proof (pool_fair txt n sched h Hf) as Hp. cbv zeta in Hp. set (args := args_at _ _ _ _) in *.
  unfold bind, ret. destruct (pool_run _ _ _ _ _) as [[ts h']| | |]; [|done..].
  destruct Hp as (_ & _ & _ & _ & Hp). assert (seq 0 n !! j = Some j) as Hs by (apply lookup_seq; lia).
  destruct (Hp j _ (args_at_lookup (length h) (length txt) n _ _ _ Hs)) as (t & _ & E).
  rewrite (solo_overrun txt _ (chunk_start (length txt) n j) (chunk_end (length txt) n j)) in E; try done. apply chunk_bounds; lia.
Qed.

(** ** Properties *)

(** Property C38: pzip writes byte for byte what the sequential wzip writes, and
    both exit with 0, whatever the order in which the threads run. The files
    are readable and without NUL bytes, have a byte for every thread and less
    than 2^31 bytes in all; the part of each thread has fewer than 1,000,000
    runs, the size of its arrays; every thread runs to its end. *)
Theorem pzip_equals_wzip curr0 n fopen argv contents scheds :
  (0 < n)%nat -> argv <> [] -> Forall2 (fun name f => fopen name = Some f) argv contents ->
  Forall nul_free contents -> Forall (fits n) contents -> Z.of_nat (length (concat contents)) < 2 ^ 31 ->
  Forall2 (fun f s => fair f n s) contents scheds ->
  pzip n fopen argv scheds = Done (wzip curr0 fopen argv).
Proof.
  intros Hn Hne Hopen Hnf Hsz Hlen Hfair. rewrite (wzip_spec curr0 fopen argv contents) by done. unfold pzip, pzip_main. destruct argv as [|a argv]; [done|].
  destruct (pzip_files_spec n fopen (a :: argv) contents scheds [] {| old_char := 239; old_count := 0; p_out := [] |} []) as [h' ->]; [done..|by left|].
  cbn [app]. unfold wzip_output. destruct (concat contents) eqn:He; [|done]. destruct Hopen as [|? f ? contents' Hf]; [done|].
  apply app_eq_nil in He as [-> _]. inversion Hsz as [|? ? [? _]]; cbn in *; lia.
Qed.

(** ** Witnesses *)

(** Two threads in turn, and the second before the first. *)
Definition in_turn : list nat := concat (replicate 20 [0%nat; 1%nat]).
Definition reversed : list nat := replicate 20 1%nat ++ replicate 20 0%nat.

Lemma pzip_schedule_independent_witness :
  run_threads (str "aabb") 2 in_turn [] = run_threads (str "aabb") 2 reversed [] /\ run_threads (str "aabb") 2 in_turn [] <> Asleep.
Proof.
  apply (pzip_schedule_independent (str "aabb") 2 [] in_turn reversed); intros [|[|]] Hj; (lia || by vm_compute; lia).
Defined.

Lemma pzip_equals_wzip_witness :
  pzip 2 two_files ["a"; "b"]%string [in_turn; reversed] = Done (wzip 7 two_files ["a"; "b"]%string).
Proof.
  apply (pzip_equals_wzip 7 2 two_files ["a"; "b"]%string [str "aab" ++ [NL]; [NL; 99; 99]] [in_turn; reversed]).
  - lia.
  - done.
  - repeat constructor.
  - repeat (constructor || discriminate).
  - repeat constructor; try (cbn; lia); intros [|[|]] Hj; (lia || by vm_compute).
  - vm_compute; reflexivity.
  - repeat constructor; intros [|[|]] Hj; (lia || by vm_compute; lia).
Defined.
