(* ===== verification/Sleeplock.v ===== *)
(** * Sleeplock: sleep locks (sleeplock.c)

    A sleep lock is taken and released under its own spin lock, so each of
    the three operations is atomic. [acquiresleep] is one pass of its [while]
    loop: it either takes the lock or goes to sleep on it. *)

From stdpp Require Import base numbers.
From S2P Require Import Prelude.

Local Open Scope Z_scope.

Record sleeplock := { sl_locked : bool; sl_pid : Z }.

Definition initsleeplock : sleeplock := {| sl_locked := false; sl_pid := 0 |}.

(** [me] is [myproc()->pid]. *)
Definition acquiresleep (me : Z) (lk : sleeplock) : outcome sleeplock :=
  if sl_locked lk then Asleep else Done {| sl_locked := true; sl_pid := me |}.

(** [releasesleep] also wakes the processes asleep on the lock. *)
Definition releasesleep (lk : sleeplock) : sleeplock := {| sl_locked := false; sl_pid := 0 |}.

Definition holdingsleep (me : Z) (lk : sleeplock) : bool := sl_locked lk && (sl_pid lk =? me).

Lemma acquiresleep_free me lk :
  sl_locked lk = false -> acquiresleep me lk = Done {| sl_locked := true; sl_pid := me |}.
Proof. unfold acquiresleep. by intros ->. Qed.

Lemma holdingsleep_mine me : holdingsleep me {| sl_locked := true; sl_pid := me |} = true.
Proof. unfold holdingsleep; cbn. apply Z.eqb_refl. Qed.
