(* ===== verification/Bio.v ===== *)
(** * Bio: the buffer cache (bio.c) on the disk driver (ide.c)

    The cache is an array of [NBUF] buffers and the list of their indices from
    the most to the least recently used, the order of the [next] links from
    [bcache.head]. The spin lock [bcache.lock] makes each pass over the list
    atomic; the sleep lock of a buffer is part of it. The disk is a map from
    device and block number to contents, together with the list of the writes
    it has done, oldest first: a crash leaves the effect of a prefix of it. *)

From stdpp Require Import base list numbers gmap strings.
From S2P Require Import Prelude Bytes Params Sleeplock.

Local Open Scope Z_scope.
Local Open Scope os_scope.

Record buf := {
  b_flags : Z; b_dev : Z; b_blockno : Z; b_lock : sleeplock; b_refcnt : Z; b_data : list Z
}.

Definition zero_block : list Z := replicate (Z.to_nat BSIZE) 0.

(** What a disk holds, and what a list of writes makes of it. *)
Abbreviation disk := (gmap (Z * Z) (list Z)).
Definition dread (d : disk) (dev b : Z) : list Z := default zero_block (d !! (dev, b)).
Definition dwrites (ws : list (Z * Z * list Z)) (d : disk) : disk :=
  fold_left (fun d w => <[w.1 := w.2]> d) ws d.

Record bio := {
  bufs : list buf;                    (* bcache.buf *)
  lru : list nat;                     (* bcache.head.next, ... *)
  hdisk : disk;                       (* the drive *)
  hwrites : list (Z * Z * list Z);    (* the writes it has done *)
  havedisk1 : bool;                   (* ide.c *)
  me : Z                              (* myproc()->pid *)
}.

Definition set_bufs (f : list buf -> list buf) (s : bio) : bio :=
  {| bufs := f (bufs s); lru := lru s; hdisk := hdisk s; hwrites := hwrites s;
     havedisk1 := havedisk1 s; me := me s |}.
Definition set_lru (f : list nat -> list nat) (s : bio) : bio :=
  {| bufs := bufs s; lru := f (lru s); hdisk := hdisk s; hwrites := hwrites s;
     havedisk1 := havedisk1 s; me := me s |}.

Definition set_b_flags (z : Z) (b : buf) : buf :=
  {| b_flags := z; b_dev := b_dev b; b_blockno := b_blockno b; b_lock := b_lock b;
     b_refcnt := b_refcnt b; b_data := b_data b |}.
Definition set_b_lock (l : sleeplock) (b : buf) : buf :=
  {| b_flags := b_flags b; b_dev := b_dev b; b_blockno := b_blockno b; b_lock := l;
     b_refcnt := b_refcnt b; b_data := b_data b |}.
Definition set_b_refcnt (z : Z) (b : buf) : buf :=
  {| b_flags := b_flags b; b_dev := b_dev b; b_blockno := b_blockno b; b_lock := b_lock b;
     b_refcnt := z; b_data := b_data b |}.
Definition set_b_data (d : list Z) (b : buf) : buf :=
  {| b_flags := b_flags b; b_dev := b_dev b; b_blockno := b_blockno b; b_lock := b_lock b;
     b_refcnt := b_refcnt b; b_data := d |}.

(** Read or change the buffer a pointer points to. *)
Definition get_buf (i : nat) : M bio buf := fun s =>
  match bufs s !! i with Some b => Done (b, s) | None => Fault end.
Definition upd_buf (i : nat) (f : buf -> buf) : M bio unit := modify (set_bufs (alter f i)).

(** [binit]: every buffer zeroed and pushed at the front of the list. *)
Definition zero_buf : buf :=
  {| b_flags := 0; b_dev := 0; b_blockno := 0; b_lock := initsleeplock; b_refcnt := 0;
     b_data := zero_block |}.

Definition binit (d : disk) (havedisk : bool) (pid : Z) : bio :=
  {| bufs := replicate (Z.to_nat NBUF) zero_buf; lru := rev (seq 0 (Z.to_nat NBUF));
     hdisk := d; hwrites := []; havedisk1 := havedisk; me := pid |}.

(** The first buffer, in the order of the list [l], that satisfies [p]. *)
Fixpoint scan (p : buf -> bool) (bs : list buf) (l : list nat) : option nat :=
  match l with
  | [] => None
  | i :: l => match bs !! i with
              | Some b => if p b then Some i else scan p bs l
              | None => scan p bs l
              end
  end.

Definition lock_buf (i : nat) : M bio unit :=
  let! b := get_buf i in
  fun s => match acquiresleep (me s) (b_lock b) with
           | Done lk => upd_buf i (set_b_lock lk) s
           | _ => Asleep
           end.

Definition bget (dev blockno : Z) : M bio nat := fun s =>
  match scan (fun b => (b_dev b =? dev) && (b_blockno b =? blockno)) (bufs s) (lru s) with
  | Some i =>
      (upd_buf i (fun b => set_b_refcnt (u32 (b_refcnt b + 1)) b);;;
       lock_buf i;;;
       ret i) s
  | None =>
      match scan (fun b => (b_refcnt b =? 0) && (Z.land (b_flags b) B_DIRTY =? 0))
              (bufs s) (rev (lru s)) with
      | Some i =>
          (upd_buf i (fun b => {| b_flags := 0; b_dev := dev; b_blockno := blockno;
                                  b_lock := b_lock b; b_refcnt := 1; b_data := b_data b |});;;
           lock_buf i;;;
           ret i) s
      | None => Panic "bget: no buffers"
      end
  end.

(** [idestart] and [ideintr] for one request: a dirty buffer is written to
    its block and marked clean, another one is filled from it. *)
Definition ide_request (i : nat) : M bio unit :=
  let! b := get_buf i in
  if FSSIZE <=? b_blockno b then panic "incorrect blockno"
  else
    let flags' := Z.land (Z.lor (b_flags b) B_VALID) (Z.lnot B_DIRTY) in
    if negb (Z.land (b_flags b) B_DIRTY =? 0) then
      modify (fun s =>
        {| bufs := alter (set_b_flags flags') i (bufs s); lru := lru s;
           hdisk := <[(b_dev b, b_blockno b) := b_data b]> (hdisk s);
           hwrites := hwrites s ++ [((b_dev b, b_blockno b), b_data b)];
           havedisk1 := havedisk1 s; me := me s |})
    else
      modify (fun s =>
        set_bufs (alter (fun b' => set_b_data (dread (hdisk s) (b_dev b) (b_blockno b))
                                     (set_b_flags flags' b')) i) s).

(** [iderw]: the checks, then the request, which the caller waits for. *)
Definition iderw (i : nat) : M bio unit :=
  let! b := get_buf i in
  let! pid := gets me in
  let! hd := gets havedisk1 in
  if negb (holdingsleep pid (b_lock b)) then panic "iderw: buf not locked"
  else if Z.land (b_flags b) (Z.lor B_VALID B_DIRTY) =? B_VALID
  then panic "iderw: nothing to do"
  else if negb (b_dev b =? 0) && negb hd then panic "iderw: ide disk 1 not present"
  else ide_request i.

Definition bread (dev blockno : Z) : M bio nat :=
  let! i := bget dev blockno in
  let! b := get_buf i in
  if Z.land (b_flags b) B_VALID =? 0
  then iderw i;;; ret i
  else ret i.

Definition bwrite (i : nat) : M bio unit :=
  let! b := get_buf i in
  let! pid := gets me in
  if negb (holdingsleep pid (b_lock b)) then panic "bwrite"
  else
    upd_buf i (fun b => set_b_flags (Z.lor (b_flags b) B_DIRTY) b);;;
    iderw i.

(** Unlink buffer [i] and insert it after the head. *)
Definition to_front (i : nat) (l : list nat) : list nat := i :: filter (.≠ i) l.

Definition brelse (i : nat) : M bio unit :=
  let! b := get_buf i in
  let! pid := gets me in
  if negb (holdingsleep pid (b_lock b)) then panic "brelse"
  else
    upd_buf i (fun b => set_b_lock (releasesleep (b_lock b)) b);;;
    upd_buf i (fun b => set_b_refcnt (u32 (b_refcnt b - 1)) b);;;
    let! b := get_buf i in
    if b_refcnt b =? 0 then modify (set_lru (to_front i)) else ret tt.

(** ** The invariant of the cache

    [held] is the set of the buffers this process has locked; every other
    buffer is free. Device [ROOTDEV] is the only one in use. *)

Definition block (d : list Z) : Prop := length d = Z.to_nat BSIZE.

Definition is_key (blk : Z) (b : buf) : bool :=
  (b_dev b =? ROOTDEV) && (b_blockno b =? blk).

(** A buffer's contribution to block [blk] over the disk [d]. *)
Definition content (d : disk) (blk : Z) (b : buf) : list Z :=
  if Z.land (b_flags b) B_VALID =? 0 then dread d ROOTDEV blk else b_data b.

(** The contents of block [blk] as the file system sees them: the cached copy
    when there is one, else the disk. *)
Definition viewd (bs : list buf) (d : disk) (blk : Z) : list Z :=
  match list_find (fun b => is_key blk b = true) bs with
  | Some (_, b) => content d blk b
  | None => dread d ROOTDEV blk
  end.

Definition view (s : bio) (blk : Z) : list Z := viewd (bufs s) (hdisk s) blk.

(** No two buffers hold the same block. *)
Definition uniq (bs : list buf) : Prop :=
  forall i j b b' blk, bs !! i = Some b -> bs !! j = Some b' ->
    is_key blk b = true -> is_key blk b' = true -> i = j.

Definition buf_ok (pid : Z) (h : bool) (b : buf) : Prop :=
  (b_flags b = 0 \/ b_flags b = B_VALID \/ b_flags b = Z.lor B_VALID B_DIRTY) /\
  block (b_data b) /\
  (if h then b_lock b = {| sl_locked := true; sl_pid := pid |} /\ b_refcnt b = 1
   else sl_locked (b_lock b) = false /\ b_refcnt b = 0).

Record bio_inv (held : gset nat) (s : bio) : Prop := {
  inv_len : length (bufs s) = Z.to_nat NBUF;
  inv_lru : lru s ≡ₚ seq 0 (Z.to_nat NBUF);
  inv_buf : forall i b, bufs s !! i = Some b -> buf_ok (me s) (bool_decide (i ∈ held)) b;
  inv_key : uniq (bufs s);
  inv_coh : forall i b, bufs s !! i = Some b -> i ∉ held -> b_flags b = B_VALID ->
    b_data b = dread (hdisk s) (b_dev b) (b_blockno b);
  inv_blocks : forall k d, hdisk s !! k = Some d -> block d;
  inv_drive : havedisk1 s = true
}.

(** ** Lemmas *)

Lemma block_zero : block zero_block.
Proof. by unfold block, zero_block; rewrite length_replicate. Qed.

Lemma alter_insert {A} (f : A -> A) (l : list A) i x :
  l !! i = Some x -> alter f i l = <[i := f x]> l.
Proof.
  intros Hi. rewrite list_insert_alter. apply list_eq; intros j.
  destruct (decide (i = j)) as [<-|Hne].
  - by rewrite !list_lookup_alter_eq, Hi.
  - by rewrite !list_lookup_alter_ne.
Qed.

Lemma scan_Some p bs l i :
  scan p bs l = Some i -> i ∈ l /\ exists b, bs !! i = Some b /\ p b = true.
Proof.
  induction l as [|j l IH]; cbn; [done|].
  destruct (bs !! j) as [b|] eqn:Hj; [destruct (p b) eqn:Hp|].
  - intros [= ->]. split; [constructor|eauto].
  - intros [? ?]%IH. split; [by constructor|done].
  - intros [? ?]%IH. split; [by constructor|done].
Qed.

Lemma scan_None p bs l i b :
  scan p bs l = None -> i ∈ l -> bs !! i = Some b -> p b = false.
Proof.
  induction l as [|j l IH]; cbn; [by intros _ ?%elem_of_nil|].
  intros Hs Hi Hb. apply elem_of_cons in Hi as [<-|Hi].
  - rewrite Hb in Hs. by destruct (p b).
  - destruct (bs !! j) as [b'|]; [destruct (p b')|]; [done|auto..].
Qed.

Lemma is_key_spec blk b : is_key blk b = true <-> b_dev b = ROOTDEV /\ b_blockno b = blk.
Proof. unfold is_key. rewrite andb_true_iff, !Z.eqb_eq. done. Qed.

Lemma filter_ne_notin (j : nat) (l : list nat) : j ∉ l -> filter (.≠ j) l = l.
Proof.
  induction l as [|k l IH]; intros Hj; [done|].
  apply not_elem_of_cons in Hj as [? ?].
  rewrite filter_cons_True by done. by rewrite IH.
Qed.

Lemma to_front_perm i l n : i ∈ l -> l ≡ₚ seq 0 n -> to_front i l ≡ₚ seq 0 n.
Proof.
  intros Hi Hl. rewrite <- Hl. unfold to_front.
  assert (NoDup l) as Hnd by (rewrite Hl; apply NoDup_seq).
  clear Hl. induction Hnd as [|j l Hj Hnd IH]; [by apply elem_of_nil in Hi|].
  apply elem_of_cons in Hi as [->|Hi].
  - rewrite filter_cons_False by naive_solver.
    by rewrite filter_ne_notin.
  - rewrite filter_cons_True by (intros ->; done). rewrite Permutation_swap. by rewrite IH.
Qed.

Lemma viewd_hit (bs : list buf) d i b blk :
  uniq bs -> bs !! i = Some b -> is_key blk b = true -> viewd bs d blk = content d blk b.
Proof.
  intros Hu Hi Hk. unfold viewd.
  destruct (list_find _ bs) as [[j b']|] eqn:Hf.
  - apply list_find_Some in Hf as (Hj & Hk' & _).
    assert (j = i) as -> by (by eapply Hu). by simplify_eq.
  - apply list_find_None in Hf. eapply Forall_lookup_1 in Hf; [|done]. by cbn in Hf.
Qed.

Lemma viewd_miss (bs : list buf) d blk :
  (forall i b, bs !! i = Some b -> is_key blk b = false) -> viewd bs d blk = dread d ROOTDEV blk.
Proof.
  intros Hm. unfold viewd. destruct (list_find _ bs) as [[j b']|] eqn:Hf; [|done].
  apply list_find_Some in Hf as (Hj & Hk' & _). apply Hm in Hj. congruence.
Qed.

(** Either some buffer is assigned to a block, or none is. *)
Lemma key_cases (bs : list buf) blk :
  (exists i b, bs !! i = Some b /\ is_key blk b = true)
  \/ (forall i b, bs !! i = Some b -> is_key blk b = false).
Proof.
  destruct (list_find (fun b => is_key blk b = true) bs) as [[j b']|] eqn:Hf.
  - apply list_find_Some in Hf as (Hj & Hk & _). eauto.
  - right. intros i b Hi. apply list_find_None in Hf.
    eapply Forall_lookup_1 in Hf; [|done]. by apply not_true_is_false.
Qed.

(** Changing one buffer changes at most the blocks it holds before and after. *)
Lemma viewd_insert (bs : list buf) d i b b' blk :
  uniq bs -> uniq (<[i := b']> bs) -> bs !! i = Some b ->
  viewd (<[i := b']> bs) d blk
  = if is_key blk b' then content d blk b'
    else if is_key blk b then dread d ROOTDEV blk else viewd bs d blk.
Proof.
  intros Hu Hu' Hi. assert (i < length bs)%nat by by eapply lookup_lt_Some.
  destruct (is_key blk b') eqn:Hk'.
  { apply (viewd_hit _ _ i); [done| |done]. by apply list_lookup_insert_eq. }
  destruct (is_key blk b) eqn:Hk.
  { apply viewd_miss. intros j c Hj. destruct (decide (i = j)) as [<-|Hne].
    - rewrite list_lookup_insert_eq in Hj by done. by simplify_eq.
    - rewrite list_lookup_insert_ne in Hj by done. apply not_true_is_false. intros Hc.
      apply Hne. by eapply Hu. }
  destruct (key_cases bs blk) as [(j & c & Hj & Hc)|Hm].
  - rewrite (viewd_hit bs d j c) by done. apply (viewd_hit _ _ j); [done| |done].
    rewrite list_lookup_insert_ne; [done|]. intros <-. congruence.
  - rewrite (viewd_miss bs) by done. apply viewd_miss. intros j c Hj.
    destruct (decide (i = j)) as [<-|Hne].
    + rewrite list_lookup_insert_eq in Hj by done. by simplify_eq.
    + rewrite list_lookup_insert_ne in Hj by done. eauto.
Qed.

(** A buffer keeps its block when it is changed in place. *)
Lemma uniq_insert_same (bs : list buf) i b b' :
  uniq bs -> bs !! i = Some b ->
  (forall blk, is_key blk b' = true -> is_key blk b = true) -> uniq (<[i := b']> bs).
Proof.
  intros Hu Hi Hk j1 j2 c1 c2 blk H1 H2 K1 K2.
  assert (i < length bs)%nat by by eapply lookup_lt_Some.
  assert (forall j c, <[i := b']> bs !! j = Some c -> is_key blk c = true ->
            exists c', bs !! j = Some c' /\ is_key blk c' = true) as Hback.
  { intros j c Hj Hc. destruct (decide (i = j)) as [<-|Hne].
    - rewrite list_lookup_insert_eq in Hj by done. simplify_eq. eauto.
    - rewrite list_lookup_insert_ne in Hj by done. eauto. }
  destruct (Hback j1 c1) as (c1' & ? & ?); [done..|].
  destruct (Hback j2 c2) as (c2' & ? & ?); [done..|]. by eapply Hu.
Qed.

(** A buffer may take over a block that no buffer holds. *)
Lemma uniq_insert_fresh (bs : list buf) i b' blk0 :
  uniq bs -> (forall j c, bs !! j = Some c -> is_key blk0 c = false) ->
  (forall blk, is_key blk b' = true -> blk = blk0) -> uniq (<[i := b']> bs).
Proof.
  intros Hu Hf Hk j1 j2 c1 c2 blk H1 H2 K1 K2.
  apply list_lookup_insert_Some in H1 as [(<- & <- & _)|[Hne1 H1]];
    apply list_lookup_insert_Some in H2 as [(<- & <- & _)|[Hne2 H2]].
  - done.
  - apply Hk in K1 as ->. apply Hf in H2. congruence.
  - apply Hk in K2 as ->. apply Hf in H1. congruence.
  - by eapply Hu.
Qed.

Lemma view_block held s blk : bio_inv held s -> block (view s blk).
Proof.
  intros Hinv.
  assert (block (dread (hdisk s) ROOTDEV blk)).
  { unfold dread. destruct (hdisk s !! (ROOTDEV, blk)) eqn:Hd; cbn;
      [by eapply (inv_blocks held s Hinv)|apply block_zero]. }
  unfold view, viewd, content. destruct (list_find _ (bufs s)) as [[j b']|] eqn:Hf; [|done].
  apply list_find_Some in Hf as (Hj & _). apply (inv_buf held s Hinv) in Hj as (_ & ? & _).
  by destruct (_ =? _).
Qed.

Lemma in_lru held s i b : bio_inv held s -> bufs s !! i = Some b -> i ∈ lru s.
Proof.
  intros Hinv Hi%lookup_lt_Some. rewrite (inv_lru held s Hinv).
  apply elem_of_seq. rewrite <- (inv_len held s Hinv). lia.
Qed.

(** [upd_buf] on a buffer that exists. *)
Lemma upd_buf_run i f b s :
  bufs s !! i = Some b -> upd_buf i f s = Done (tt, set_bufs (insert i (f b)) s).
Proof.
  intros Hi. unfold upd_buf, modify, set_bufs. by rewrite (alter_insert f (bufs s) i b).
Qed.

Lemma get_buf_run i b s : bufs s !! i = Some b -> get_buf i s = Done (b, s).
Proof. unfold get_buf. by intros ->. Qed.

Lemma set_bufs_twice i b1 b2 s :
  set_bufs (insert i b2) (set_bufs (insert i b1) s) = set_bufs (insert i b2) s.
Proof. unfold set_bufs; cbn. by rewrite list_insert_insert_eq. Qed.

Lemma lookup_set_bufs i b b' s :
  bufs s !! i = Some b -> bufs (set_bufs (insert i b') s) !! i = Some b'.
Proof. intros Hi. cbn. apply list_lookup_insert_eq. by eapply lookup_lt_Some. Qed.

Lemma lock_buf_run i b s :
  bufs s !! i = Some b -> sl_locked (b_lock b) = false ->
  lock_buf i s
  = Done (tt, set_bufs (insert i (set_b_lock {| sl_locked := true; sl_pid := me s |} b)) s).
Proof.
  intros Hi Hl. unfold lock_buf. erewrite bind_done by by apply get_buf_run.
  cbn beta. rewrite acquiresleep_free by done. by apply upd_buf_run.
Qed.

(** The invariant after a change to one buffer and to the held set. *)
Lemma bio_inv_insert held held' s i b b' :
  bio_inv held s -> bufs s !! i = Some b ->
  buf_ok (me s) (bool_decide (i ∈ held')) b' -> uniq (<[i := b']> (bufs s)) ->
  (forall j, j <> i -> j ∈ held <-> j ∈ held') ->
  (i ∉ held' -> b_flags b' = B_VALID ->
   b_data b' = dread (hdisk s) (b_dev b') (b_blockno b')) ->
  bio_inv held' (set_bufs (insert i b') s).
Proof.
  intros Hinv Hi Hok Hu Hh Hc. split; cbn; try by apply Hinv.
  - rewrite length_insert. by apply Hinv.
  - intros j c Hj. apply list_lookup_insert_Some in Hj as [(<- & <- & _)|[Hne Hj]]; [done|].
    rewrite (bool_decide_ext (j ∈ held') (j ∈ held)) by (symmetry; auto).
    by apply Hinv.
  - done.
  - intros j c Hj Hnh. apply list_lookup_insert_Some in Hj as [(<- & <- & _)|[Hne Hj]]; [auto|].
    apply (inv_coh held s Hinv j); [done|]. rewrite Hh; auto.
Qed.

(** There is a buffer for block [blk]: it is cached, or some buffer is free
    to be recycled. *)
Definition room (held : gset nat) (s : bio) (blk : Z) : Prop :=
  (exists i b, bufs s !! i = Some b /\ is_key blk b = true)
  \/ exists i b, bufs s !! i = Some b /\ (i ∉ held) /\ b_flags b <> Z.lor B_VALID B_DIRTY.

(** Locked, and as the buffer of block [blk]. *)
Definition locked_for (s : bio) (blk : Z) (b' : buf) : Prop :=
  is_key blk b' = true /\ b_data b' = view s blk /\
  (b_flags b' = B_VALID \/ b_flags b' = Z.lor B_VALID B_DIRTY) /\
  (b_flags b' = B_VALID -> b_data b' = dread (hdisk s) ROOTDEV blk) /\
  b_lock b' = {| sl_locked := true; sl_pid := me s |} /\ b_refcnt b' = 1.

(** [bread] after [bget] has locked a buffer with no valid data. *)
Lemma bread_fill s i b blk :
  bufs s !! i = Some b -> is_key blk b = true -> b_flags b = 0 -> blk < FSSIZE ->
  b_lock b = {| sl_locked := true; sl_pid := me s |} -> havedisk1 s = true ->
  iderw i s = Done (tt, set_bufs (insert i
    (set_b_data (dread (hdisk s) ROOTDEV blk) (set_b_flags B_VALID b))) s).
Proof.
  intros Hi [Hd Hb]%is_key_spec Hf Hlt Hl Hdrv. unfold iderw, ide_request.
  erewrite bind_done by by apply get_buf_run. unfold gets, bind at 1 2. cbn beta iota.
  rewrite Hl, holdingsleep_mine, Hf, Hdrv, andb_false_r. cbn [negb].
  change (Z.land 0 (Z.lor B_VALID B_DIRTY) =? B_VALID) with false. cbn iota.
  erewrite bind_done by by apply get_buf_run.
  destruct (Z.leb_spec FSSIZE (b_blockno b)); [lia|].
  rewrite Hf. change (negb (Z.land 0 B_DIRTY =? 0)) with false. cbn iota.
  unfold modify, set_bufs. erewrite alter_insert by done. by rewrite Hd, Hb.
Qed.

Lemma bget_spec held s blk :
  bio_inv held s ->
  (forall i b, i ∈ held -> bufs s !! i = Some b -> is_key blk b = false) ->
  room held s blk ->
  exists i b b', bget ROOTDEV blk s = Done (i, set_bufs (insert i b') s) /\
    (i ∉ held) /\ bufs s !! i = Some b /\ is_key blk b' = true /\
    b_lock b' = {| sl_locked := true; sl_pid := me s |} /\ b_refcnt b' = 1 /\
    ((is_key blk b = true /\ b_flags b' = b_flags b /\ b_data b' = b_data b)
     \/ ((forall j c, bufs s !! j = Some c -> is_key blk c = false) /\
         b_flags b' = 0 /\ b_flags b <> Z.lor B_VALID B_DIRTY /\ b_data b' = b_data b)).
Proof.
  intros Hinv Hheld Hroom. unfold bget. destruct (scan _ (bufs s) (lru s)) as [i|] eqn:Hs.
  - apply scan_Some in Hs as (_ & b & Hi & Hk). change (is_key blk b = true) in Hk.
    assert (i ∉ held) as Hnh by (intros Hin; apply (Hheld i b) in Hin; [congruence|done]).
    destruct (inv_buf held s Hinv i b Hi) as (_ & _ & Hfree).
    rewrite bool_decide_eq_false_2 in Hfree by done. destruct Hfree as [Hl Hr].
    eexists i, b, _. erewrite bind_done by by apply upd_buf_run.
    erewrite bind_done by (eapply lock_buf_run; [by eapply lookup_set_bufs|done]).
    cbn [me set_bufs]. rewrite set_bufs_twice. split; [reflexivity|]. cbn. rewrite Hr.
    repeat split; try done. by left.
  - destruct (scan _ (bufs s) (rev (lru s))) as [i|] eqn:Hs2.
    + apply scan_Some in Hs2 as (_ & b & Hi & Hp).
      apply andb_true_iff in Hp as [Hr%Z.eqb_eq Hd%Z.eqb_eq].
      destruct (inv_buf held s Hinv i b Hi) as (Hfl & _ & Hfree).
      case_bool_decide; [destruct Hfree; lia|]. destruct Hfree as [Hl _].
      assert (forall j c, bufs s !! j = Some c -> is_key blk c = false) as Hm.
      { intros j c Hj. eapply scan_None; [exact Hs|by eapply in_lru|done]. }
      eexists i, b, _. erewrite bind_done by by apply upd_buf_run.
      erewrite bind_done by (eapply lock_buf_run; [by eapply lookup_set_bufs|done]).
      cbn [me set_bufs]. rewrite set_bufs_twice. split; [reflexivity|]. cbn.
      repeat split; try done; [apply Z.eqb_refl|]. right. repeat split; try done.
      intros Heq. rewrite Heq in Hd. done.
    + exfalso. destruct Hroom as [(i & b & Hi & Hk)|(i & b & Hi & Hnh & Hf)].
      * eapply scan_None in Hs; [|by eapply in_lru|done]. unfold is_key in Hk. congruence.
      * assert (i ∈ rev (lru s)) as Hin.
        { rewrite <- Permutation_rev. by eapply in_lru. }
        eapply scan_None in Hs2; [|exact Hin|done].
        destruct (inv_buf held s Hinv i b Hi) as (Hfl & _ & Hfree).
        rewrite bool_decide_eq_false_2 in Hfree by done. destruct Hfree as [_ Hr]. rewrite Hr in Hs2.
        destruct Hfl as [Hfl|[Hfl|Hfl]]; rewrite Hfl in Hs2; done.
Qed.

(** [bread] runs to the end and returns a buffer that holds the block; the
    buffer held it before, or no buffer did and it was clean. *)
Lemma bread_run held s blk :
  bio_inv held s -> blk < FSSIZE ->
  (forall i b, i ∈ held -> bufs s !! i = Some b -> is_key blk b = false) ->
  room held s blk ->
  exists i b b', bread ROOTDEV blk s = Done (i, set_bufs (insert i b') s) /\
    (i ∉ held) /\ bufs s !! i = Some b /\ locked_for s blk b' /\ block (b_data b') /\
    (b_flags b' = Z.lor B_VALID B_DIRTY <-> b_flags b = Z.lor B_VALID B_DIRTY) /\
    (is_key blk b = true
     \/ (forall j c, bufs s !! j = Some c -> is_key blk c = false) /\
        b_flags b <> Z.lor B_VALID B_DIRTY).
Proof.
  intros Hinv Hlt Hheld Hroom. unfold bread.
  destruct (bget_spec held s blk) as (i & b & b' & Hget & Hnh & Hi & Hk & Hl & Hr & Hcase);
    [done..|].
  erewrite bind_done by exact Hget.
  assert (bufs (set_bufs (insert i b') s) !! i = Some b') as Hi' by by eapply lookup_set_bufs.
  erewrite bind_done by by apply get_buf_run.
  assert (Hold := inv_buf held s Hinv i b Hi). rewrite bool_decide_eq_false_2 in Hold by done.
  destruct Hold as (Hfl & Hdata & _).
  destruct (Z.eqb_spec (Z.land (b_flags b') B_VALID) 0) as [Hv|Hv].
  - assert (b_flags b' = 0) as Hf0.
    { destruct Hcase as [(_ & Hf & _)|(_ & Hf & _)]; [|done]. rewrite Hf in Hv |- *.
      destruct Hfl as [?|[Hf'|Hf']]; [done| |]; rewrite Hf' in Hv; done. }
    assert (view s blk = dread (hdisk s) ROOTDEV blk) as Hview.
    { destruct Hcase as [(Hkb & Hf & _)|(Hm & _)]; unfold view.
      - rewrite (viewd_hit _ _ i b) by (done || apply Hinv). unfold content.
        by rewrite <- Hf, Hf0.
      - by apply viewd_miss. }
    exists i, b, (set_b_data (dread (hdisk s) ROOTDEV blk) (set_b_flags B_VALID b')).
    erewrite bind_done by (eapply bread_fill; [exact Hi'|done..|apply Hinv]).
    rewrite set_bufs_twice. split_and!; [done..| | | |].
    + split_and!; cbn; [done|by rewrite Hview|by left|done|done|done].
    + cbn. rewrite <- Hview. by eapply view_block.
    + cbn. split; [done|]. intros Hf6.
      destruct Hcase as [(_ & Hf & _)|(_ & _ & Hne & _)]; [|done].
      rewrite <- Hf, Hf0 in Hf6. done.
    + destruct Hcase as [(? & _)|(? & _ & ? & _)]; auto.
  - destruct Hcase as [(Hkb & Hf & Hdt)|(_ & Hf & _)]; [|by rewrite Hf in Hv].
    exists i, b, b'. rewrite Hf in Hv.
    assert (view s blk = b_data b) as Hview.
    { unfold view. rewrite (viewd_hit _ _ i b) by (done || apply Hinv). unfold content.
      by destruct (Z.eqb_spec (Z.land (b_flags b) B_VALID) 0). }
    split_and!; [done..| |by rewrite Hdt|by rewrite Hf|by left].
    split_and!; [done|by rewrite Hview, Hdt| | |done|done].
    + rewrite Hf. destruct Hfl as [Hf0|[?|?]]; [by rewrite Hf0 in Hv|auto..].
    + intros Hv2. rewrite Hf in Hv2. rewrite Hdt.
      rewrite (inv_coh held s Hinv i b Hi Hnh Hv2).
      by apply is_key_spec in Hkb as [-> ->].
Qed.

Lemma is_key_inj blk blk' b : is_key blk b = true -> is_key blk' b = true -> blk' = blk.
Proof. intros [_ <-]%is_key_spec [_ <-]%is_key_spec. done. Qed.

(** [bread]: a locked buffer with the contents of the block, and no block
    changes. *)
Lemma bread_spec held s blk :
  bio_inv held s -> blk < FSSIZE ->
  (forall i b, i ∈ held -> bufs s !! i = Some b -> is_key blk b = false) ->
  room held s blk ->
  exists i b b', bread ROOTDEV blk s = Done (i, set_bufs (insert i b') s) /\
    (i ∉ held) /\ bufs s !! i = Some b /\ locked_for s blk b' /\
    (b_flags b' = Z.lor B_VALID B_DIRTY <-> b_flags b = Z.lor B_VALID B_DIRTY) /\
    (b_flags b = Z.lor B_VALID B_DIRTY -> is_key blk b = true) /\
    bio_inv ({[i]} ∪ held) (set_bufs (insert i b') s) /\
    forall blk', view (set_bufs (insert i b') s) blk' = view s blk'.
Proof.
  intros Hinv Hlt Hheld Hroom.
  destruct (bread_run held s blk)
    as (i & b & b' & Hrun & Hnh & Hi & Hlf & Hblk & Hdirty & Hcase); [done..|].
  exists i, b, b'. do 5 (split; [done|]). split; [naive_solver|].
  destruct Hlf as (Hk & Hd & Hf & Hc & Hl & Hr).
  assert (uniq (<[i := b']> (bufs s))) as Hu.
  { destruct Hcase as [Hkb|[Hm _]].
    - apply (uniq_insert_same _ _ b); [apply Hinv|done|].
      intros blk' Hk'. by rewrite (is_key_inj blk blk' b').
    - apply (uniq_insert_fresh _ _ _ blk); [apply Hinv|done|].
      intros blk' Hk'. by apply (is_key_inj blk blk' b'). }
  split.
  - eapply bio_inv_insert; [done|done| |done|set_solver|set_solver].
    rewrite bool_decide_eq_true_2 by set_solver. split_and!; [by right|done..].
  - intros blk'. unfold view; cbn.
    rewrite (viewd_insert _ _ i b) by (done || apply Hinv).
    destruct (is_key blk' b') eqn:Hkk.
    { rewrite (is_key_inj blk blk' b') by done.
      unfold content. rewrite Hd. by destruct Hf as [-> | ->]. }
    destruct (is_key blk' b) eqn:Hkb; [|done].
    rewrite (viewd_hit _ _ i b) by (done || apply Hinv). unfold content.
    destruct Hcase as [Hkb'|[_ Hnd]].
    { rewrite (is_key_inj blk blk' b) in Hkk by done. congruence. }
    assert (Hold := inv_buf held s Hinv i b Hi). destruct Hold as (Hfl & _).
    destruct Hfl as [->|[Hv|]]; [done| |done]. rewrite Hv. cbn.
    rewrite (inv_coh held s Hinv i b Hi Hnh Hv). by apply is_key_spec in Hkb as [-> ->].
Qed.

(** The state after buffer [i], with the contents [b], is written. *)
Definition written (i : nat) (b : buf) (s : bio) : bio :=
  {| bufs := <[i := set_b_flags B_VALID b]> (bufs s); lru := lru s;
     hdisk := <[(b_dev b, b_blockno b) := b_data b]> (hdisk s);
     hwrites := hwrites s ++ [((b_dev b, b_blockno b), b_data b)];
     havedisk1 := havedisk1 s; me := me s |}.

Lemma bwrite_run s i b :
  bufs s !! i = Some b -> (b_flags b = B_VALID \/ b_flags b = Z.lor B_VALID B_DIRTY) ->
  b_lock b = {| sl_locked := true; sl_pid := me s |} -> havedisk1 s = true ->
  b_blockno b < FSSIZE -> bwrite i s = Done (tt, written i b s).
Proof.
  intros Hi Hfl Hl Hdrv Hlt. unfold bwrite, iderw, ide_request.
  erewrite bind_done by by apply get_buf_run. unfold gets, bind at 1. cbn beta iota.
  rewrite Hl, holdingsleep_mine. cbn [negb].
  erewrite bind_done by by apply upd_buf_run. cbn beta.
  replace (Z.lor (b_flags b) B_DIRTY) with (Z.lor B_VALID B_DIRTY)
    by (by destruct Hfl as [-> | ->]).
  set (b2 := set_b_flags (Z.lor B_VALID B_DIRTY) b).
  assert (bufs (set_bufs (insert i b2) s) !! i = Some b2) as Hi' by by eapply lookup_set_bufs.
  erewrite bind_done by (apply get_buf_run; exact Hi'). unfold bind at 1 2. cbn beta iota.
  cbn [b2 b_lock set_b_flags me set_bufs havedisk1 b_flags b_dev].
  rewrite Hl, holdingsleep_mine, Hdrv, andb_false_r. cbn [negb].
  change (Z.land (Z.lor B_VALID B_DIRTY) (Z.lor B_VALID B_DIRTY) =? B_VALID) with false.
  cbn iota. erewrite bind_done by (apply get_buf_run; exact Hi').
  cbn [b_blockno set_b_flags b2]. destruct (Z.leb_spec FSSIZE (b_blockno b)); [lia|].
  change (negb (Z.land (b_flags b2) B_DIRTY =? 0)) with true.
  cbn iota. unfold modify, written. erewrite alter_insert by exact Hi'.
  cbn [bufs set_bufs]. by rewrite list_insert_insert_eq.
Qed.

(** Writing through a held buffer keeps the invariant and changes no block. *)
Lemma bwrite_spec held s i b blk :
  bio_inv held s -> i ∈ held -> bufs s !! i = Some b -> is_key blk b = true ->
  b_flags b <> 0 -> blk < FSSIZE ->
  bwrite i s = Done (tt, written i b s) /\ bio_inv held (written i b s) /\
  forall blk', view (written i b s) blk' = view s blk'.
Proof.
  intros Hinv Hin Hi Hk Hf0 Hlt.
  assert (Hok := inv_buf held s Hinv i b Hi). rewrite bool_decide_eq_true_2 in Hok by done.
  destruct Hok as (Hfl & Hblk & Hl & Hr). destruct Hfl as [?|Hfl]; [done|].
  assert (b_dev b = ROOTDEV /\ b_blockno b = blk) as [Hdev Hb] by by apply is_key_spec.
  assert (uniq (bufs (written i b s))) as Hu.
  { apply (uniq_insert_same _ _ b); [apply Hinv|done..]. }
  split; [|split].
  - apply bwrite_run; [done..|apply Hinv|lia].
  - split; try by apply Hinv.
    + cbn. rewrite length_insert. by apply Hinv.
    + intros j c Hj. apply list_lookup_insert_Some in Hj as [(<- & <- & _)|[Hne Hj]];
        [|by apply Hinv].
      rewrite bool_decide_eq_true_2 by done. split_and!; cbn; auto.
    + done.
    + intros j c Hj Hnh Hv.
      apply list_lookup_insert_Some in Hj as [(<- & <- & _)|[Hne Hj]]; [done|].
      unfold dread. cbn [hdisk written]. rewrite lookup_insert_ne; [by apply (inv_coh held s Hinv j c)|].
      rewrite Hdev, Hb. intros [= Hd' Hb']. apply Hne.
      apply (inv_key held s Hinv i j b c blk); [done..|]. by apply is_key_spec.
    + intros k d. cbn [hdisk written]. rewrite lookup_insert_Some. intros [[_ <-]|[_ ?]]; [done|by eapply (inv_blocks held s Hinv)].
  - intros blk'. unfold view. destruct (decide (blk' = blk)) as [->|Hne].
    + rewrite (viewd_hit (bufs s) _ i b) by (done || apply Hinv).
      rewrite (viewd_hit _ _ i (set_b_flags B_VALID b)); [|done| |done].
      * unfold content. cbn. by destruct Hfl as [-> | ->].
      * cbn. apply list_lookup_insert_eq. by eapply lookup_lt_Some.
    + cbn [bufs written]. rewrite (viewd_insert _ _ i b) by (done || apply Hinv).
      assert (is_key blk' b = false) as Hk'.
      { apply not_true_is_false. intros Hk'. apply Hne. by eapply is_key_inj. }
      replace (is_key blk' (set_b_flags B_VALID b)) with (is_key blk' b) by done. rewrite Hk'.
      unfold viewd, content, written, dread; cbn [hdisk].
      rewrite lookup_insert_ne by congruence. done.
Qed.

(** Changing the data of a held buffer changes its block. *)
Lemma set_data_spec held s i b blk d :
  bio_inv held s -> i ∈ held -> bufs s !! i = Some b -> is_key blk b = true ->
  b_flags b <> 0 -> block d ->
  bio_inv held (set_bufs (insert i (set_b_data d b)) s) /\
  forall blk', view (set_bufs (insert i (set_b_data d b)) s) blk'
               = if bool_decide (blk' = blk) then d else view s blk'.
Proof.
  intros Hinv Hin Hi Hk Hf0 Hd.
  assert (Hok := inv_buf held s Hinv i b Hi). rewrite bool_decide_eq_true_2 in Hok by done.
  destruct Hok as (Hfl & Hblk & Hl & Hr). destruct Hfl as [?|Hfl]; [done|].
  assert (uniq (<[i := set_b_data d b]> (bufs s))) as Hu.
  { apply (uniq_insert_same _ _ b); [apply Hinv|done..]. }
  split.
  - eapply bio_inv_insert; [done|done| |done|done|done].
    rewrite bool_decide_eq_true_2 by done. split_and!; cbn; auto.
  - intros blk'. unfold view; cbn.
    rewrite (viewd_insert _ _ i b) by (done || apply Hinv).
    replace (is_key blk' (set_b_data d b)) with (is_key blk' b) by done.
    case_bool_decide as Heq.
    + subst. rewrite Hk. unfold content. cbn. by destruct Hfl as [-> | ->].
    + replace (is_key blk' b) with false; [done|].
      symmetry. apply not_true_is_false. intros ?. by apply Heq, (is_key_inj _ _ b).
Qed.

(** A held buffer may be given back when the disk agrees with it, or when it
    is dirty and so stays in the cache. *)
Lemma brelse_spec held s i b :
  bio_inv held s -> i ∈ held -> bufs s !! i = Some b ->
  (b_flags b = B_VALID -> b_data b = dread (hdisk s) (b_dev b) (b_blockno b)) ->
  exists s', brelse i s = Done (tt, s') /\ bio_inv (held ∖ {[i]}) s' /\
    (forall blk, view s' blk = view s blk) /\
    hdisk s' = hdisk s /\ hwrites s' = hwrites s /\ me s' = me s /\
    bufs s' = <[i := set_b_refcnt 0 (set_b_lock initsleeplock b)]> (bufs s).
Proof.
  intros Hinv Hin Hi Hc.
  assert (Hok := inv_buf held s Hinv i b Hi). rewrite bool_decide_eq_true_2 in Hok by done.
  destruct Hok as (Hfl & Hblk & Hl & Hr).
  set (b2 := set_b_refcnt 0 (set_b_lock initsleeplock b)).
  exists (set_lru (to_front i) (set_bufs (insert i b2) s)).
  assert (uniq (<[i := b2]> (bufs s))) as Hu.
  { apply (uniq_insert_same _ _ b); [apply Hinv|done..]. }
  assert (bio_inv (held ∖ {[i]}) (set_bufs (insert i b2) s)) as Hinv2.
  { eapply bio_inv_insert; [done|done| |done|set_solver|done].
    rewrite bool_decide_eq_false_2 by set_solver. by split_and!. }
  split_and!; try done.
  - unfold brelse. erewrite bind_done by by apply get_buf_run.
    unfold gets, bind at 1. cbn beta iota. rewrite Hl, holdingsleep_mine. cbn [negb].
    erewrite bind_done by by apply upd_buf_run.
    erewrite bind_done by (apply upd_buf_run; by eapply lookup_set_bufs).
    rewrite set_bufs_twice.
    erewrite bind_done by (apply get_buf_run; by eapply lookup_set_bufs).
    cbn [b_refcnt set_b_refcnt set_b_lock]. rewrite Hr, Hl. done.
  - destruct Hinv2. split; try done. cbn.
    apply to_front_perm; [by eapply in_lru|apply Hinv].
  - intros blk. unfold view; cbn.
    rewrite (viewd_insert _ _ i b) by (done || apply Hinv).
    replace (is_key blk b2) with (is_key blk b) by done.
    destruct (is_key blk b) eqn:Hk; [|done]. rewrite (viewd_hit _ _ i b) by (done || apply Hinv). done.
Qed.

(** ** The cache as a block store

    [cache H D v s]: the buffers in [H] are held, each for its block and with
    a mark that says that its data was changed and not recorded since; the
    blocks in [D] are pinned by a dirty buffer; the blocks have the contents
    [v]. This is what the log and the file system rely on. *)

Definition is_dirty (b : buf) : Prop := b_flags b = Z.lor B_VALID B_DIRTY.
#[global] Instance is_dirty_dec b : Decision (is_dirty b) := ltac:(unfold is_dirty; apply _).

Definition fupd (v : Z -> list Z) (blk : Z) (d : list Z) : Z -> list Z :=
  fun blk' => if bool_decide (blk' = blk) then d else v blk'.

Record cache (H : gmap nat (Z * bool)) (D : gset Z) (v : Z -> list Z) (s : bio) : Prop := {
  c_inv : bio_inv (dom H) s;
  c_held : forall i blk m, H !! i = Some (blk, m) ->
    exists b, bufs s !! i = Some b /\ is_key blk b = true /\ b_flags b <> 0 /\
      (m = false -> b_flags b = B_VALID -> b_data b = dread (hdisk s) ROOTDEV blk);
  c_dirty : forall i b, bufs s !! i = Some b -> is_dirty b ->
    exists blk, blk ∈ D /\ is_key blk b = true;
  c_pinned : forall blk, blk ∈ D ->
    exists i b, bufs s !! i = Some b /\ is_key blk b = true /\ is_dirty b;
  c_view : forall blk, view s blk = v blk
}.

(** What the operations that do not write leave unchanged. *)
Definition same_disk (s s' : bio) : Prop :=
  hdisk s' = hdisk s /\ hwrites s' = hwrites s /\ me s' = me s.

(** The buffer assigned to a block. *)
Definition slot_of (s : bio) (blk : Z) : nat :=
  match list_find (fun b => is_key blk b = true) (bufs s) with
  | Some (i, _) => i
  | None => 0%nat
  end.

Lemma slot_of_key s i b blk :
  uniq (bufs s) -> bufs s !! i = Some b -> is_key blk b = true -> slot_of s blk = i.
Proof.
  intros Hu Hi Hk. unfold slot_of. destruct (list_find _ _) as [[j b']|] eqn:Hf.
  - apply list_find_Some in Hf as (Hj & Hk' & _). by eapply Hu.
  - apply list_find_None in Hf. eapply Forall_lookup_1 in Hf; [|done]. done.
Qed.

(** Fewer held and pinned buffers than buffers: one is free. *)
Lemma cache_room H D v s blk :
  cache H D v s -> blk ∈ D \/ Z.of_nat (size H + size D) < NBUF -> room (dom H) s blk.
Proof.
  intros Hc [Hin|Hlt].
  { left. destruct (c_pinned _ _ _ _ Hc blk Hin) as (i & b & ? & ? & _). eauto. }
  right. set (p i := match bufs s !! i with
    | Some b => bool_decide (i ∉ dom H) && bool_decide (b_flags b <> Z.lor B_VALID B_DIRTY)
    | None => false end).
  destruct (decide (Exists (fun i => p i = true) (seq 0 (Z.to_nat NBUF)))) as [Hex|Hno].
  { apply Exists_exists in Hex as (i & _ & Hi). unfold p in Hi.
    destruct (bufs s !! i) as [b|] eqn:?; [|done].
    apply andb_true_iff in Hi as [?%bool_decide_eq_true ?%bool_decide_eq_true]. eauto. }
  exfalso. assert (seq 0 (Z.to_nat NBUF) ⊆+ elements (dom H) ++ (slot_of s <$> elements D)) as Hsub.
  { apply NoDup_submseteq; [apply NoDup_seq|]. intros i Hi. apply elem_of_app.
    assert (i < length (bufs s))%nat as [b Hb]%lookup_lt_is_Some
      by (rewrite (inv_len _ _ (c_inv _ _ _ _ Hc)); apply elem_of_seq in Hi; lia).
    destruct (decide (i ∈ dom H)) as [?|Hnh]; [left; set_solver|right].
    destruct (decide (is_dirty b)) as [Hd|Hd].
    - destruct (c_dirty _ _ _ _ Hc i b Hb Hd) as (blk' & Hin & Hk).
      apply list_elem_of_fmap. exists blk'. split; [|set_solver].
      symmetry. eapply slot_of_key; [apply Hc|done..].
    - destruct Hno. apply Exists_exists. exists i. split; [done|].
      unfold p. rewrite Hb. by rewrite !bool_decide_eq_true_2. }
  apply submseteq_length in Hsub. rewrite length_app, length_fmap, length_seq in Hsub.
  change (length (elements D)) with (size D) in Hsub.
  change (length (elements (dom H))) with (size (dom H)) in Hsub.
  rewrite size_dom in Hsub. unfold NBUF in *. lia.
Qed.

Section laws.
Context {H : gmap nat (Z * bool)} {D : gset Z} {v : Z -> list Z} {s : bio}.
Context (Hc : cache H D v s).

Lemma bread_law blk :
  blk < FSSIZE -> (forall i m, H !! i <> Some (blk, m)) ->
  blk ∈ D \/ Z.of_nat (size H + size D) < NBUF ->
  wp (bread ROOTDEV blk) (fun i s' =>
    H !! i = None /\ cache (<[i := (blk, false)]> H) D v s' /\ same_disk s s') s.
Proof.
  intros Hlt Hnot Hroom.
  destruct (bread_spec (dom H) s blk)
    as (i & b & b' & Hrun & Hnh & Hi & Hlf & Hdirty & Hdk & Hinv' & Hview).
  { apply Hc. }
  { done. }
  { intros i b [[blk' m] Hi]%elem_of_dom Hb.
    destruct (c_held _ _ _ _ Hc i blk' m Hi) as (b' & Hb' & Hk & _). simplify_eq.
    apply not_true_is_false. intros Hk'. rewrite (is_key_inj blk' blk b) in Hnot by done.
    by eapply Hnot. }
  { by eapply cache_room. }
  eapply wp_intro; [exact Hrun|]. apply not_elem_of_dom in Hnh. split; [done|]. split; [|done].
  destruct Hlf as (Hk & Hd & Hf & Hco & _).
  split.
  - by rewrite dom_insert_L.
  - intros j blk' m Hj. apply lookup_insert_Some in Hj as [[<- [= <- <-]]|[Hne Hj]].
    + exists b'. split_and!; [by eapply lookup_set_bufs|done|by destruct Hf as [-> | ->]|done].
    + destruct (c_held _ _ _ _ Hc j blk' m Hj) as (c & Hc' & ?). exists c.
      cbn. by rewrite list_lookup_insert_ne.
  - intros j c Hj Hdc. apply list_lookup_insert_Some in Hj as [(<- & <- & _)|[Hne Hj]];
      [|by eapply (c_dirty _ _ _ _ Hc)].
    assert (is_dirty b) as Hdb by by apply Hdirty.
    destruct (c_dirty _ _ _ _ Hc i b Hi Hdb) as (blk0 & Hin & Hk0).
    exists blk0. split; [done|]. by rewrite (is_key_inj blk blk0 b) by auto.
  - intros blk0 Hin. destruct (c_pinned _ _ _ _ Hc blk0 Hin) as (j & c & Hj & Hkc & Hdc).
    destruct (decide (i = j)) as [<-|Hne].
    + exists i, b'. simplify_eq. split; [by eapply lookup_set_bufs|].
      rewrite (is_key_inj blk blk0 b) by auto. split; [done|]. by apply Hdirty.
    + exists j, c. cbn. by rewrite list_lookup_insert_ne.
  - intros blk'. rewrite Hview. apply Hc.
Qed.

Context (i : nat) (blk : Z) (m : bool) (Hh : H !! i = Some (blk, m)).

(** Reading through a held buffer. *)
Lemma get_buf_law :
  wp (get_buf i) (fun b s' => s' = s /\ b_data b = v blk /\ b_blockno b = blk /\
    b_dev b = ROOTDEV) s.
Proof.
  destruct (c_held _ _ _ _ Hc i blk m Hh) as (b & Hb & Hk & Hf0 & _).
  eapply wp_intro; [by apply get_buf_run|]. apply is_key_spec in Hk as Hk'.
  split_and!; try tauto. rewrite <- (c_view _ _ _ _ Hc). unfold view.
  rewrite (viewd_hit _ _ i b) by (done || apply Hc). unfold content.
  destruct (inv_buf _ _ (c_inv _ _ _ _ Hc) i b Hb) as ([?|[-> | ->]] & _); done.
Qed.

(** The other buffers, when a held one is changed and stays assigned to its
    block. *)
Lemma held_insert m' b b' d :
  bufs s !! i = Some b -> is_key blk b' = true -> b_flags b' <> 0 ->
  (m' = false -> b_flags b' = B_VALID -> b_data b' = dread d ROOTDEV blk) ->
  (forall blk', blk' <> blk -> dread d ROOTDEV blk' = dread (hdisk s) ROOTDEV blk') ->
  forall j blk' m0, <[i := (blk, m')]> H !! j = Some (blk', m0) ->
  exists c, <[i := b']> (bufs s) !! j = Some c /\ is_key blk' c = true /\ b_flags c <> 0 /\
    (m0 = false -> b_flags c = B_VALID -> b_data c = dread d ROOTDEV blk').
Proof.
  intros Hi Hk Hf Hm Hd j blk' m0 Hj.
  apply lookup_insert_Some in Hj as [[<- [= <- <-]]|[Hne Hj]].
  - exists b'. split_and!; [|done..]. apply list_lookup_insert_eq. by eapply lookup_lt_Some.
  - destruct (c_held _ _ _ _ Hc j blk' m0 Hj) as (c & Hcj & Hkc & Hfc & Hmc). exists c.
    rewrite list_lookup_insert_ne by done. split_and!; [done..|]. intros ??.
    rewrite Hd; [auto|]. intros ->. apply Hne.
    destruct (c_held _ _ _ _ Hc i blk m Hh) as (b0 & Hb0 & Hkb & _).
    by eapply (inv_key _ _ (c_inv _ _ _ _ Hc)).
Qed.

(** The dirty buffers, when a held one is changed and stays as dirty as it
    was. *)
Lemma dirty_insert_same b b' :
  bufs s !! i = Some b -> is_key blk b = true -> is_key blk b' = true ->
  (is_dirty b' <-> is_dirty b) ->
  (forall j c, <[i := b']> (bufs s) !! j = Some c -> is_dirty c ->
     exists blk', blk' ∈ D /\ is_key blk' c = true) /\
  (forall blk', blk' ∈ D ->
     exists j c, <[i := b']> (bufs s) !! j = Some c /\ is_key blk' c = true /\ is_dirty c).
Proof.
  intros Hi Hk Hk' Hd. split.
  - intros j c Hj Hdc. apply list_lookup_insert_Some in Hj as [(<- & <- & _)|[Hne Hj]];
      [|by eapply (c_dirty _ _ _ _ Hc)].
    destruct (c_dirty _ _ _ _ Hc i b) as (blk0 & Hin & Hk0); [done|tauto|].
    exists blk0. split; [done|]. by rewrite (is_key_inj blk blk0 b) by auto.
  - intros blk0 Hin. destruct (c_pinned _ _ _ _ Hc blk0 Hin) as (j & c & Hj & Hkc & Hdc).
    destruct (decide (i = j)) as [<-|Hne].
    + exists i, b'. simplify_eq. split; [apply list_lookup_insert_eq; by eapply lookup_lt_Some|].
      rewrite (is_key_inj blk blk0 b) by auto. tauto.
    + exists j, c. by rewrite list_lookup_insert_ne.
Qed.

Lemma dom_insert_held (x : Z * bool) : dom (<[i := x]> H) = dom H.
Proof. apply dom_insert_lookup_L. by eexists. Qed.

(** Changing the data of a held buffer. *)
Lemma set_data_law d :
  block d ->
  wp (upd_buf i (set_b_data d)) (fun _ s' =>
    cache (<[i := (blk, true)]> H) D (fupd v blk d) s' /\ same_disk s s') s.
Proof.
  intros Hd. destruct (c_held _ _ _ _ Hc i blk m Hh) as (b & Hb & Hk & Hf0 & _).
  eapply wp_intro; [by apply upd_buf_run|]. split; [|done].
  destruct (set_data_spec (dom H) s i b blk d) as [Hinv Hv]; [apply Hc|by apply elem_of_dom|done..|].
  destruct (dirty_insert_same b (set_b_data d b)) as [Hd1 Hd2]; [done..|].
  split; [by rewrite dom_insert_held| |done|done|].
  - by eapply held_insert.
  - intros blk'. rewrite Hv. unfold fupd. by rewrite (c_view _ _ _ _ Hc).
Qed.

(** Giving back a held buffer whose changes have been recorded. *)
Lemma brelse_law :
  m = false ->
  wp (brelse i) (fun _ s' => cache (delete i H) D v s' /\ same_disk s s') s.
Proof.
  intros Hm. destruct (c_held _ _ _ _ Hc i blk m Hh) as (b & Hb & Hk & Hf0 & Hco).
  apply is_key_spec in Hk as Hk'. destruct Hk' as [Hk1 Hk2].
  destruct (brelse_spec (dom H) s i b) as (s' & Hrun & Hinv & Hv & Hdk & Hws & Hme & Hbufs).
  { apply Hc. } { by apply elem_of_dom. } { done. } { rewrite Hk1, Hk2. auto. }
  eapply wp_intro; [exact Hrun|]. split; [|done].
  set (b2 := set_b_refcnt 0 (set_b_lock initsleeplock b)) in *.
  destruct (dirty_insert_same b b2) as [Hd1 Hd2]; [done..|]. rewrite <- Hbufs in Hd1, Hd2.
  split; [by rewrite dom_delete_L| |done|done|].
  - intros j blk' m0 [Hne Hj]%lookup_delete_Some. rewrite Hbufs, Hdk.
    destruct (c_held _ _ _ _ Hc j blk' m0 Hj) as (c & ? & ?). exists c.
    by rewrite list_lookup_insert_ne.
  - intros blk'. rewrite Hv. apply Hc.
Qed.

(** Marking a held buffer dirty pins its block. *)
Lemma mark_dirty_law :
  wp (upd_buf i (fun b => set_b_flags (Z.lor (b_flags b) B_DIRTY) b)) (fun _ s' =>
    cache (<[i := (blk, false)]> H) ({[blk]} ∪ D) v s' /\ same_disk s s') s.
Proof.
  destruct (c_held _ _ _ _ Hc i blk m Hh) as (b & Hb & Hk & Hf0 & _).
  eapply wp_intro; [by apply upd_buf_run|]. split; [|done].
  assert (i ∈ dom H) as Hdom by by apply elem_of_dom.
  destruct (inv_buf _ _ (c_inv _ _ _ _ Hc) i b Hb) as (Hfl & Hblk & Hl).
  rewrite bool_decide_eq_true_2 in Hl by done. destruct Hfl as [?|Hfl]; [done|].
  replace (Z.lor (b_flags b) B_DIRTY) with (Z.lor B_VALID B_DIRTY) by (by destruct Hfl as [-> | ->]).
  set (b2 := set_b_flags _ b).
  assert (uniq (<[i := b2]> (bufs s))) as Hu.
  { apply (uniq_insert_same _ _ b); [apply Hc|done..]. }
  split.
  - rewrite dom_insert_held. eapply bio_inv_insert; [apply Hc|done| |done|done|done].
    rewrite bool_decide_eq_true_2 by done. split_and!; [by do 2 right|done|apply Hl..].
  - by eapply held_insert.
  - intros j c Hj Hdc. apply list_lookup_insert_Some in Hj as [(<- & <- & _)|[Hne Hj]].
    + exists blk. split; [set_solver|done].
    + destruct (c_dirty _ _ _ _ Hc j c Hj Hdc) as (blk0 & ? & ?). exists blk0. set_solver.
  - intros blk0 [->%elem_of_singleton|Hin]%elem_of_union.
    { exists i, b2. split; [by eapply lookup_set_bufs|done]. }
    destruct (c_pinned _ _ _ _ Hc blk0 Hin) as (j & c & Hj & Hkc & Hdc).
    destruct (decide (i = j)) as [<-|Hne].
    + exists i, b2. simplify_eq. by split; [eapply lookup_set_bufs|].
    + exists j, c. cbn. by rewrite list_lookup_insert_ne.
  - intros blk'. rewrite <- (c_view _ _ _ _ Hc). unfold view; cbn.
    rewrite (viewd_insert _ _ i b) by (done || apply Hc).
    replace (is_key blk' b2) with (is_key blk' b) by done.
    destruct (is_key blk' b) eqn:Hkk; [|done].
    rewrite (viewd_hit _ _ i b) by (done || apply Hc).
    unfold content. cbn. by destruct Hfl as [-> | ->].
Qed.

(** Writing a held buffer unpins its block. *)
Lemma bwrite_law :
  blk < FSSIZE ->
  wp (bwrite i) (fun _ s' =>
    cache (<[i := (blk, false)]> H) (D ∖ {[blk]}) v s' /\
    hdisk s' = <[(ROOTDEV, blk) := v blk]> (hdisk s) /\
    hwrites s' = hwrites s ++ [((ROOTDEV, blk), v blk)] /\ me s' = me s) s.
Proof.
  intros Hlt.
  destruct (wp_returns _ _ _ get_buf_law) as (b & s0 & Hget & -> & Hdat & Hbn & Hdv).
  destruct (c_held _ _ _ _ Hc i blk m Hh) as (b' & Hb & Hk & Hf0 & _).
  unfold get_buf in Hget. rewrite Hb in Hget. injection Hget as ->.
  destruct (bwrite_spec (dom H) s i b blk) as (Hrun & Hinv & Hv); [apply Hc|by apply elem_of_dom|done..|].
  eapply wp_intro; [exact Hrun|]. cbn [hdisk hwrites me written].
  rewrite Hdat, Hbn, Hdv. split; [|done].
  assert (forall j c, bufs s !! j = Some c -> j <> i -> is_key blk c = false) as Hother.
  { intros j c Hj Hne. apply not_true_is_false. intros Hkc. apply Hne.
    by eapply (inv_key _ _ (c_inv _ _ _ _ Hc)). }
  split.
  - by rewrite dom_insert_held.
  - cbn [bufs written hdisk]. eapply held_insert; [done..| |].
    + intros _ _. unfold dread. rewrite Hdv, Hbn, lookup_insert_eq. done.
    + intros blk' Hne. unfold dread. rewrite lookup_insert_ne by congruence. done.
  - intros j c Hj Hdc. apply list_lookup_insert_Some in Hj as [(<- & <- & _)|[Hne Hj]]; [done|].
    destruct (c_dirty _ _ _ _ Hc j c Hj Hdc) as (blk0 & Hin & Hk0). exists blk0. split; [|done].
    apply elem_of_difference. split; [done|]. intros ->%elem_of_singleton.
    rewrite (Hother j c) in Hk0; [done..|congruence].
  - intros blk0 [Hin Hne]%elem_of_difference. rewrite elem_of_singleton in Hne.
    destruct (c_pinned _ _ _ _ Hc blk0 Hin) as (j & c & Hj & Hkc & Hdc).
    exists j, c. cbn. rewrite list_lookup_insert_ne; [done|]. intros <-. simplify_eq.
    apply Hne. symmetry. by apply (is_key_inj blk0 (b_blockno b) b).
  - intros blk'. rewrite Hv. apply Hc.
Qed.
End laws.

(** The cache after [binit]: every block is what the disk has. *)
Lemma binit_cache d pid :
  (forall k l, d !! k = Some l -> block l) ->
  cache ∅ ∅ (fun blk => dread d ROOTDEV blk) (binit d true pid).
Proof.
  intros Hd.
  assert (forall i b, bufs (binit d true pid) !! i = Some b -> b = zero_buf) as Hz.
  { intros i b Hi. apply lookup_replicate in Hi. tauto. }
  split.
  - split; cbn [binit bufs lru hdisk havedisk1]; try done.
    + by rewrite <- Permutation_rev.
    + intros i b ->%Hz. split_and!; [by left|apply block_zero|done].
    + intros i j b b' blk ->%Hz ->%Hz Hk. done.
    + intros i b ->%Hz _ Hf. done.
  - intros i blk m Hi. by rewrite lookup_empty in Hi.
  - intros i b ->%Hz Hf. done.
  - set_solver.
  - intros blk. unfold view. apply viewd_miss. by intros i b ->%Hz.
Qed.
