(* ===== verification/Ide.v ===== *)
(** * Ide: the disk driver with its queue (ide.c) and the I/O APIC (ioapic.c)

    Processes queue buffers, the drive works on the first one, and its
    interrupt completes it and starts the next. The queue is linked through
    [qnext]. The lock [idelock] makes each function one step up to a sleep.
    The drive is an interface: the registers of its task file, the
    command it has latched, what the disks hold, and which commands fail. The
    theorems say that the driver serves the requests in order, and that what it
    does for one of them is [ide_request] of Bio.v, on which the buffer cache is
    verified, unless the drive reports an error. *)

From stdpp Require Import base list numbers gmap strings relations.
From S2P Require Import Prelude Bytes Params Sleeplock Bio.

Local Open Scope Z_scope.
Local Open Scope os_scope.

(** ** The I/O APIC: a register is selected, then its data read or written *)

Definition REG_ID : Z := 0x00.
Definition REG_VER : Z := 0x01.
Definition REG_TABLE : Z := 0x10.
Definition INT_DISABLED : Z := 0x00010000.
Definition T_IRQ0 : Z := 32.
Definition IRQ_IDE : Z := 14.

Record ioapic := { io_reg : Z; io_data : gmap Z Z }.
Definition ioapicread (reg : Z) (a : ioapic) : Z * ioapic :=
  (default 0 (io_data a !! reg), {| io_reg := reg; io_data := io_data a |}).
Definition ioapicwrite (reg data : Z) (a : ioapic) : ioapic :=
  {| io_reg := reg; io_data := <[reg := u32 data]> (io_data a) |}.

Fixpoint ioapic_disable (n : nat) (i : Z) (a : ioapic) : ioapic :=
  match n with
  | O => a
  | S n =>
      ioapic_disable n (i + 1)
        (ioapicwrite (REG_TABLE + 2 * i + 1) 0
           (ioapicwrite (REG_TABLE + 2 * i) (Z.lor INT_DISABLED (T_IRQ0 + i)) a))
  end.
(** Returns whether the message about the id is printed. *)
Definition ioapicinit (ioapicid : Z) (a : ioapic) : bool * ioapic :=
  let '(ver, a) := ioapicread REG_VER a in
  let maxintr := Z.land (Z.shiftr ver 16) 0xFF in
  let '(id, a) := ioapicread REG_ID a in
  (negb (Z.shiftr id 24 =? ioapicid), ioapic_disable (S (Z.to_nat maxintr)) 0 a).
Definition ioapicenable (irq cpunum : Z) (a : ioapic) : ioapic :=
  ioapicwrite (REG_TABLE + 2 * irq + 1) (Z.shiftl cpunum 24)
    (ioapicwrite (REG_TABLE + 2 * irq) (T_IRQ0 + irq) a).

(** ** The drive *)

Definition SECTOR_SIZE : Z := 512.
Definition IDE_BSY : Z := 0x80.
Definition IDE_DRDY : Z := 0x40.
Definition IDE_DF : Z := 0x20.
Definition IDE_ERR : Z := 0x01.
Definition IDE_CMD_READ : Z := 0x20.
Definition IDE_CMD_WRITE : Z := 0x30.
Definition IDE_CMD_RDMUL : Z := 0xc4.
Definition IDE_CMD_WRMUL : Z := 0xc5.

(** What can be told of the drives: the contents of the disks, the registers
    of the task file by their ports, the latched command with the drive and
    the sector it is for, and whether an interrupt is raised. *)
Record dview := {
  v_disk : disk; v_file : gmap Z Z; v_cmd : option (Z * (Z * Z)); v_irq : bool
}.
Definition file_reg (v : dview) (port : Z) : Z := default 0 (v_file v !! port).
Definition target (v : dview) : Z * Z :=
  (Z.land (Z.shiftr (file_reg v 0x1f6) 4) 1,
   file_reg v 0x1f3 + 2 ^ 8 * file_reg v 0x1f4 + 2 ^ 16 * file_reg v 0x1f5 + 2 ^ 24 * Z.land (file_reg v 0x1f6) 0x0f).

Class DriveOps (D : Type) := {
  dr_inb : Z -> D -> Z * D;                 (* port *)
  dr_outb : Z -> Z -> D -> D;               (* port, byte *)
  dr_insl : Z -> Z -> D -> list Z * D;      (* port, number of words *)
  dr_outsl : Z -> list Z -> D -> D;         (* port, bytes *)
  dr_ack : D -> D;                          (* the interrupt is delivered *)
  dr_view : D -> dview;
  dr_busy : D -> nat;                       (* reads of the status until it is ready *)
  dr_err : D -> bool                        (* the last command failed *)
}.

Definition ready (r : Z) : bool := Z.land r (Z.lor IDE_BSY IDE_DRDY) =? IDE_DRDY.
Definition failed (r : Z) : bool := negb (Z.land r (Z.lor IDE_DF IDE_ERR) =? 0).

(** A command that fails transfers no data; the error bit of the status stays
    until the next command. *)
Class DriveLaws (D : Type) `{DriveOps D} := {
  inb_view d : dr_view (dr_inb 0x1f7 d).2 = dr_view d;
  inb_ready d : dr_busy d = 0%nat -> ready (dr_inb 0x1f7 d).1 = true /\ failed (dr_inb 0x1f7 d).1 = dr_err d;
  inb_busy d n : dr_busy d = S n -> ready (dr_inb 0x1f7 d).1 = false /\ dr_busy (dr_inb 0x1f7 d).2 = n;
  inb_err d : dr_err (dr_inb 0x1f7 d).2 = dr_err d;
  outb_control d x : dr_view (dr_outb 0x3f6 x d) = dr_view d;
  outb_file d port x : 0x1f2 <= port <= 0x1f6 ->
    dr_view (dr_outb port x d) =
    {| v_disk := v_disk (dr_view d); v_file := <[port := x]> (v_file (dr_view d)); v_cmd := v_cmd (dr_view d);
       v_irq := v_irq (dr_view d) |};
  outb_read d : file_reg (dr_view d) 0x1f2 = 1 ->
    dr_view (dr_outb 0x1f7 IDE_CMD_READ d) =
    {| v_disk := v_disk (dr_view d); v_file := v_file (dr_view d);
       v_cmd := Some (IDE_CMD_READ, target (dr_view d)); v_irq := true |};
  outb_write d : file_reg (dr_view d) 0x1f2 = 1 ->
    dr_view (dr_outb 0x1f7 IDE_CMD_WRITE d) =
    {| v_disk := v_disk (dr_view d); v_file := v_file (dr_view d);
       v_cmd := Some (IDE_CMD_WRITE, target (dr_view d)); v_irq := v_irq (dr_view d) |};
  outsl_view d t data : v_cmd (dr_view d) = Some (IDE_CMD_WRITE, t) -> length data = Z.to_nat SECTOR_SIZE ->
    dr_view (dr_outsl 0x1f0 data d) =
    {| v_disk := if dr_err (dr_outsl 0x1f0 data d) then v_disk (dr_view d) else <[t := data]> (v_disk (dr_view d)); v_file := v_file (dr_view d);
       v_cmd := v_cmd (dr_view d); v_irq := true |};
  insl_data d t : v_cmd (dr_view d) = Some (IDE_CMD_READ, t) -> dr_err d = false ->
    (dr_insl 0x1f0 (SECTOR_SIZE / 4) d).1 = dread (v_disk (dr_view d)) t.1 t.2;
  insl_view d : dr_view (dr_insl 0x1f0 (SECTOR_SIZE / 4) d).2 = dr_view d;
  ack_view d : dr_view (dr_ack d) =
    {| v_disk := v_disk (dr_view d); v_file := v_file (dr_view d); v_cmd := v_cmd (dr_view d); v_irq := false |};
  ack_err d : dr_err (dr_ack d) = dr_err d
}.

(** ** The driver *)

(** [waiting] has the processes inside [iderw], with the buffer and whether
    they have been woken; [ibufs] are the buffers, pointers are indices. *)
Record ide (D : Type) := {
  ibufs : list buf; qnext : gmap nat nat; idequeue : option nat; idisk1 : bool;
  drv : D; waiting : gmap Z (nat * bool); iapic : ioapic
}.
Arguments ibufs {D}.
Arguments qnext {D}.
Arguments idequeue {D}.
Arguments idisk1 {D}.
Arguments drv {D}.
Arguments waiting {D}.
Arguments iapic {D}.

Section ide.
Context {D : Type} `{DriveOps D}.

Definition with_bufs (f : list buf -> list buf) (s : ide D) : ide D :=
  {| ibufs := f (ibufs s); qnext := qnext s; idequeue := idequeue s; idisk1 := idisk1 s; drv := drv s;
     waiting := waiting s; iapic := iapic s |}.
Definition with_links (q : gmap nat nat) (h : option nat) (s : ide D) : ide D :=
  {| ibufs := ibufs s; qnext := q; idequeue := h; idisk1 := idisk1 s; drv := drv s;
     waiting := waiting s; iapic := iapic s |}.
Definition with_drv (f : D -> D) (s : ide D) : ide D :=
  {| ibufs := ibufs s; qnext := qnext s; idequeue := idequeue s; idisk1 := idisk1 s; drv := f (drv s);
     waiting := waiting s; iapic := iapic s |}.
Definition with_waiting (f : gmap Z (nat * bool) -> gmap Z (nat * bool)) (s : ide D) : ide D :=
  {| ibufs := ibufs s; qnext := qnext s; idequeue := idequeue s; idisk1 := idisk1 s; drv := drv s;
     waiting := f (waiting s); iapic := iapic s |}.

Definition inb (port : Z) : M (ide D) Z := fun s =>
  Done ((dr_inb port (drv s)).1, with_drv (fun d => (dr_inb port d).2) s).
Definition outb (port data : Z) : M (ide D) unit := modify (with_drv (dr_outb port (u8 data))).
Definition get_ibuf (i : nat) : M (ide D) buf := fun s =>
  match ibufs s !! i with Some b => Done (b, s) | None => Fault end.
Definition upd_ibuf (i : nat) (f : buf -> buf) : M (ide D) unit := modify (with_bufs (alter f i)).

(** The loop of [idewait], with the fuel that the drive needs to get ready. *)
Fixpoint idewait_from (fuel : nat) : M (ide D) Z :=
  match fuel with
  | O => fault
  | S fuel => let! r := inb 0x1f7 in if ready r then ret r else idewait_from fuel
  end.
Definition idewait (checkerr : bool) : M (ide D) Z := fun s =>
  (let! r := idewait_from (S (dr_busy (drv s))) in
   if checkerr && failed r then ret (-1) else ret 0) s.

Fixpoint probe_disk1 (n : nat) : M (ide D) unit :=
  match n with
  | O => ret tt
  | S n =>
      let! r := inb 0x1f7 in
      if negb (r =? 0) then
        modify (fun s => {| ibufs := ibufs s; qnext := qnext s; idequeue := idequeue s; idisk1 := true;
                            drv := drv s; waiting := waiting s; iapic := iapic s |})
      else probe_disk1 n
  end.
Definition ideinit (ncpu : Z) : M (ide D) unit :=
  modify (fun s => {| ibufs := ibufs s; qnext := qnext s; idequeue := idequeue s; idisk1 := idisk1 s; drv := drv s;
                      waiting := waiting s; iapic := ioapicenable IRQ_IDE (ncpu - 1) (iapic s) |});;;
  idewait false;;;
  outb 0x1f6 (Z.lor 0xe0 (Z.shiftl 1 4));;;
  probe_disk1 1000;;;
  outb 0x1f6 (Z.lor 0xe0 (Z.shiftl 0 4)).

Definition idestart (q : option nat) : M (ide D) unit :=
  match q with
  | None => panic "idestart"
  | Some i =>
      let! b := get_ibuf i in
      if FSSIZE <=? b_blockno b then panic "incorrect blockno"
      else
        let sector_per_block := BSIZE / SECTOR_SIZE in
        let sector := i32 (b_blockno b * sector_per_block) in
        let read_cmd := if sector_per_block =? 1 then IDE_CMD_READ else IDE_CMD_RDMUL in
        let write_cmd := if sector_per_block =? 1 then IDE_CMD_WRITE else IDE_CMD_WRMUL in
        if 7 <? sector_per_block then panic "idestart"
        else
          idewait false;;;
          outb 0x3f6 0;;;
          outb 0x1f2 sector_per_block;;;
          outb 0x1f3 (Z.land sector 0xff);;;
          outb 0x1f4 (Z.land (Z.shiftr sector 8) 0xff);;;
          outb 0x1f5 (Z.land (Z.shiftr sector 16) 0xff);;;
          outb 0x1f6 (Z.lor (Z.lor 0xe0 (Z.shiftl (Z.land (b_dev b) 1) 4)) (Z.land (Z.shiftr sector 24) 0x0f));;;
          if negb (Z.land (b_flags b) B_DIRTY =? 0) then
            outb 0x1f7 write_cmd;;;
            modify (with_drv (dr_outsl 0x1f0 (b_data b)))
          else outb 0x1f7 read_cmd
  end.

(** [wakeup]: the processes that wait for the buffer will look again. *)
Definition ide_wakeup (i : nat) : M (ide D) unit :=
  modify (with_waiting (fmap (fun w => if decide (w.1 = i) then (i, true) else w))).

Definition insl_buf (i : nat) : M (ide D) unit := fun s =>
  let r := dr_insl 0x1f0 (BSIZE / 4) (drv s) in
  Done (tt, with_bufs (alter (set_b_data r.1) i) (with_drv (fun _ => r.2) s)).

Definition ideintr : M (ide D) unit :=
  let! q := gets idequeue in
  match q with
  | None => ret tt
  | Some i =>
      modify (fun s => with_links (qnext s) (qnext s !! i) s);;;
      let! b := get_ibuf i in
      (if Z.land (b_flags b) B_DIRTY =? 0 then
         let! w := idewait true in
         if 0 <=? w then insl_buf i else ret tt
       else ret tt);;;
      upd_ibuf i (fun b => set_b_flags (Z.lor (b_flags b) B_VALID) b);;;
      upd_ibuf i (fun b => set_b_flags (Z.land (b_flags b) (Z.lnot B_DIRTY)) b);;;
      ide_wakeup i;;;
      let! q := gets idequeue in
      match q with None => ret tt | Some _ => idestart q end
  end.

(** The address of a link of the queue: [idequeue] or the [qnext] of a
    buffer. The loop of [iderw] finds the one that is null. *)
Inductive qlink := Head | Next (i : nat).
Definition get_link (s : ide D) (l : qlink) : option nat :=
  match l with Head => idequeue s | Next i => qnext s !! i end.
Definition set_link (l : qlink) (i : nat) (s : ide D) : ide D :=
  match l with Head => with_links (qnext s) (Some i) s | Next j => with_links (<[j := i]> (qnext s)) (idequeue s) s end.
Fixpoint last_link (fuel : nat) (pp : qlink) : M (ide D) qlink := fun s =>
  match get_link s pp with
  | None => Done (pp, s)
  | Some j => match fuel with O => Fault | S fuel => last_link fuel (Next j) s end
  end.

(** One pass of the waiting loop: whether [iderw] returns. *)
Definition ide_loop (pid : Z) (i : nat) : M (ide D) bool :=
  let! b := get_ibuf i in
  if negb (Z.land (b_flags b) (Z.lor B_VALID B_DIRTY) =? B_VALID)
  then modify (with_waiting (insert pid (i, false)));;; ret false
  else modify (with_waiting (delete pid));;; ret true.

Definition iderw (pid : Z) (i : nat) : M (ide D) bool :=
  let! b := get_ibuf i in
  let! hd := gets idisk1 in
  if negb (holdingsleep pid (b_lock b)) then panic "iderw: buf not locked"
  else if Z.land (b_flags b) (Z.lor B_VALID B_DIRTY) =? B_VALID then panic "iderw: nothing to do"
  else if negb (b_dev b =? 0) && negb hd then panic "iderw: ide disk 1 not present"
  else
    modify (fun s => with_links (delete i (qnext s)) (idequeue s) s);;;
    let! n := gets (fun s => length (ibufs s)) in
    let! pp := last_link n Head in
    modify (set_link pp i);;;
    let! q := gets idequeue in
    (if decide (q = Some i) then idestart (Some i) else ret tt);;;
    ide_loop pid i.
End ide.

(** ** Requests and the state they leave *)

Definition dirty (b : buf) : bool := negb (Z.land (b_flags b) B_DIRTY =? 0).
Definition synced (b : buf) : bool := Z.land (b_flags b) (Z.lor B_VALID B_DIRTY) =? B_VALID.
Definition req_ok (b : buf) : Prop :=
  0 <= b_blockno b < FSSIZE /\ 0 <= b_dev b <= 1 /\ length (b_data b) = Z.to_nat BSIZE.
(** The disk once the request for [b] has been started, when the drive reports
    the error [e]. *)
Definition started (e : bool) (d : disk) (b : buf) : disk :=
  if dirty b && negb e then <[(b_dev b, b_blockno b) := b_data b]> d else d.
Definition cmd_of (b : buf) : Z := if dirty b then IDE_CMD_WRITE else IDE_CMD_READ.
Definition finished (b : buf) : buf := set_b_flags (Z.land (Z.lor (b_flags b) B_VALID) (Z.lnot B_DIRTY)) b.

Lemma synced_finished b : synced (finished b) = true.
Proof.
  unfold synced, finished. cbn. apply Z.eqb_eq. apply Z.bits_inj'. intros n Hn.
  rewrite !Z.land_spec, !Z.lor_spec, Z.lnot_spec by done.
  change (Z.testbit B_VALID n) with (Z.testbit (2 ^ 1) n). change (Z.testbit B_DIRTY n) with (Z.testbit (2 ^ 2) n).
  destruct (decide (n = 1)) as [->|H1]; [by destruct (Z.testbit (b_flags b) 1)|].
  destruct (decide (n = 2)) as [->|H2]; [by destruct (Z.testbit (b_flags b) 2)|].
  rewrite (Z.pow2_bits_false 1 n), (Z.pow2_bits_false 2 n) by lia. by rewrite !andb_false_r.
Qed.

(** The registers name the block: the sum of the four parts. *)
Lemma sector_parts n : 0 <= n < FSSIZE ->
  let s := i32 (n * (BSIZE / SECTOR_SIZE)) in
  u8 (Z.land s 0xff) + 2 ^ 8 * u8 (Z.land (Z.shiftr s 8) 0xff) + 2 ^ 16 * u8 (Z.land (Z.shiftr s 16) 0xff) = n /\
  Z.land (Z.shiftr s 24) 0x0f = 0.
Proof.
  intros Hn. change (BSIZE / SECTOR_SIZE) with 1. rewrite Z.mul_1_r. unfold FSSIZE in Hn.
  rewrite i32_small by wrap_lia. cbn zeta. change 0xff with (Z.ones 8). change 0x0f with (Z.ones 4).
  rewrite !Z.land_ones, !Z.shiftr_div_pow2 by lia. unfold u8. rewrite !Zmod_mod.
  change (2 ^ 8) with 256. change (2 ^ 16) with 65536. change (2 ^ 24) with 16777216. change (2 ^ 4) with 16.
  Z.div_mod_to_equations. lia.
Qed.

Section driver.
Context {D : Type} `{DriveLaws D}.
Implicit Types s : ide D.

Lemma idewait_from_run n s :
  dr_busy (drv s) = n ->
  exists d r, idewait_from (S n) s = Done (r, with_drv (fun _ => d) s) /\ dr_view d = dr_view (drv s) /\
    failed r = dr_err (drv s) /\ dr_err d = dr_err (drv s).
Proof.
  revert s. induction n as [|n IH]; intros s Hb; cbn [idewait_from]; unfold bind, inb.
  - destruct (inb_ready _ Hb) as [-> Hf]. do 2 eexists. split; [reflexivity|]. by rewrite inb_view, inb_err.
  - destruct (inb_busy _ _ Hb) as [-> Hn].
    destruct (IH (with_drv (fun d => (dr_inb 0x1f7 d).2) s) Hn) as (d & r & E & E1 & E2 & E3).
    cbn [drv with_drv] in E1, E2, E3. rewrite inb_view in E1. rewrite inb_err in E2, E3.
    exists d, r. by split_and!.
Qed.

Lemma idewait_run chk s :
  exists d, idewait chk s = Done (if chk && dr_err (drv s) then -1 else 0, with_drv (fun _ => d) s) /\
    dr_view d = dr_view (drv s) /\ dr_err d = dr_err (drv s).
Proof.
  destruct (idewait_from_run _ s eq_refl) as (d & r & E & E1 & E2 & E3). exists d.
  unfold idewait. rewrite (bind_done _ _ _ _ _ E), E2. by destruct (chk && dr_err (drv s)).
Qed.

Lemma idestart_run i b s :
  ibufs s !! i = Some b -> req_ok b ->
  exists d, idestart (Some i) s = Done (tt, with_drv (fun _ => d) s) /\
    v_disk (dr_view d) = started (dr_err d) (v_disk (dr_view (drv s))) b /\
    v_cmd (dr_view d) = Some (cmd_of b, (b_dev b, b_blockno b)) /\ v_irq (dr_view d) = true.
Proof.
  intros Hi (Hn & Hd & Hl). destruct (sector_parts _ Hn) as [Hsum Htop]. cbn zeta in Hsum, Htop.
  unfold idestart. rewrite (bind_done _ _ s b s) by (unfold get_ibuf; by rewrite Hi).
  rewrite (proj2 (Z.leb_gt _ _)) by lia. cbn zeta. set (sec := i32 _) in *.
  change (7 <? BSIZE / SECTOR_SIZE) with false. change (BSIZE / SECTOR_SIZE =? 1) with true. cbn iota.
  destruct (idewait_run false s) as (d0 & E0 & V0 & _). rewrite (bind_done _ _ _ _ _ E0).
  set (d1 := dr_outb 0x1f6 (u8 (Z.lor (Z.lor 0xe0 (Z.shiftl (Z.land (b_dev b) 1) 4)) (Z.land (Z.shiftr sec 24) 0x0f)))
    (dr_outb 0x1f5 (u8 (Z.land (Z.shiftr sec 16) 0xff)) (dr_outb 0x1f4 (u8 (Z.land (Z.shiftr sec 8) 0xff))
    (dr_outb 0x1f3 (u8 (Z.land sec 0xff)) (dr_outb 0x1f2 (u8 (BSIZE / SECTOR_SIZE)) (dr_outb 0x3f6 (u8 0) d0)))))).
  assert (v_disk (dr_view d1) = v_disk (dr_view (drv s)) /\ file_reg (dr_view d1) 0x1f2 = 1 /\
          target (dr_view d1) = (b_dev b, b_blockno b)) as (Hd1 & Hc1 & Ht1).
  { unfold d1. rewrite !outb_file by lia. rewrite outb_control, V0. unfold target, file_reg. cbn [v_disk v_file].
    rewrite Htop. split_and!; [done|by simplify_map_eq|]. simplify_map_eq. rewrite <- Hsum.
    assert (b_dev b = 0 \/ b_dev b = 1) as [->| ->] by lia; f_equal; change (Z.land (u8 _) 15) with 0; lia. }
  exists (if dirty b then dr_outsl 0x1f0 (b_data b) (dr_outb 0x1f7 IDE_CMD_WRITE d1) else dr_outb 0x1f7 IDE_CMD_READ d1).
  split; [unfold outb, modify, bind, dirty; by destruct (Z.land (b_flags b) B_DIRTY =? 0)|].
  unfold started, cmd_of. destruct (dirty b).
  - rewrite (outsl_view _ (b_dev b, b_blockno b)), outb_write; [|done|by rewrite outb_write, Ht1|done].
    cbn [v_disk v_cmd v_irq]. rewrite Hd1, Ht1. cbn [andb]. generalize (dr_err (dr_outsl 0x1f0 (b_data b) (dr_outb 0x1f7 IDE_CMD_WRITE d1))). by intros [].
  - rewrite outb_read by done. cbn [v_disk v_cmd v_irq]. by rewrite Hd1, Ht1.
Qed.

(** ** The queue *)

(** The links from [l] on go through [q]. *)
Definition linked s (l : qlink) (q : list nat) : Prop :=
  get_link s l = head q /\ forall k i, q !! k = Some i -> qnext s !! i = q !! S k.
Definition tail_link (l : qlink) (q : list nat) : qlink := match last q with None => l | Some j => Next j end.

Lemma linked_cons s l i q : linked s l (i :: q) -> linked s (Next i) q.
Proof.
  intros [_ Hk]. split; [cbn; rewrite (Hk 0%nat) by done; by destruct q|]. intros k j Hj. by apply (Hk (S k)).
Qed.

Lemma last_link_run fuel s l q :
  linked s l q -> (length q <= fuel)%nat -> last_link fuel l s = Done (tail_link l q, s).
Proof.
  revert fuel l. induction q as [|i q IH]; intros fuel l HL Hf; pose proof (proj1 HL) as Hh; cbn [head] in Hh.
  - destruct fuel; cbn [last_link]; by rewrite Hh.
  - cbn [length] in Hf. destruct fuel as [|fuel]; [lia|]. cbn [last_link]. rewrite Hh.
    rewrite (IH fuel (Next i) (linked_cons _ _ _ _ HL)) by lia. unfold tail_link.
    destruct q as [|x q]; [done|]. rewrite last_cons_cons. by destruct (proj2 (last_is_Some (x :: q)) ltac:(done)) as [y ->].
Qed.

(** Storing [i] in the null link at the end appends it. *)
Lemma linked_append s q i :
  linked s Head q -> NoDup q -> i ∉ q -> qnext s !! i = None ->
  linked (set_link (tail_link Head q) i s) Head (q ++ [i]).
Proof.
  intros [Hh Hk] ND Hi Hz. destruct (decide (q = [])) as [->|Hne].
  { split; [done|]. intros [|k] j Hj; [|done]. by injection Hj as <-. }
  destruct (proj2 (last_is_Some q) Hne) as [j Hj]. unfold tail_link. rewrite Hj. cbn [set_link].
  apply last_Some in Hj as [q0 ->]. split.
  { cbn. cbn in Hh. rewrite Hh. by destruct q0. }
  cbn [qnext with_links]. intros k x Hx.
  apply NoDup_app in ND as (ND0 & Hnin & _).
  destruct (decide (x = j)) as [->|Hxj].
  - rewrite lookup_insert_eq. assert (k = length q0) as ->.
    { rewrite <- app_assoc in Hx. apply lookup_app_Some in Hx as [Hx|[Hle Hx]].
      - apply list_elem_of_lookup_2 in Hx. set_solver.
      - destruct (k - length q0)%nat as [|[|m]] eqn:E; cbn in Hx; [lia| |done]. injection Hx as ->. set_solver. }
    rewrite <- app_assoc. by rewrite lookup_app_r, Nat.sub_succ_l, Nat.sub_diag by lia.
  - rewrite lookup_insert_ne by done. destruct (decide (k < length (q0 ++ [j]))%nat) as [Hlt|Hge].
    + rewrite lookup_app_l in Hx by done. rewrite (Hk k x Hx).
      rewrite length_app in Hlt. cbn in Hlt. destruct (decide (k = length q0)) as [->|Hne'].
      { rewrite lookup_app_r, Nat.sub_diag in Hx by lia. by injection Hx. }
      symmetry. apply lookup_app_l. rewrite length_app. cbn. lia.
    + rewrite lookup_app_r in Hx by lia. destruct (k - length (q0 ++ [j]))%nat as [|m] eqn:E; [|done].
      injection Hx as <-. rewrite Hz. symmetry. apply lookup_ge_None. rewrite !length_app in *. cbn in *. lia.
Qed.
(** ** The driver and the processes that use it *)

(** A step is a call of [iderw] by a process that is not inside it, a process
    that was woken and looks again, an interrupt the drive has raised, or
    any change to a buffer nobody is inside [iderw] with: its holder edits it,
    or its lock changes hands. *)
Inductive istep : ide D -> ide D -> Prop :=
| i_call pid i b r s s' :
    waiting s !! pid = None -> ibufs s !! i = Some b -> req_ok b ->
    iderw pid i s = Done (r, s') -> istep s s'
| i_resume pid i r s s' :
    waiting s !! pid = Some (i, true) -> ide_loop pid i s = Done (r, s') -> istep s s'
| i_intr s s' :
    v_irq (dr_view (drv s)) = true -> ideintr (with_drv dr_ack s) = Done (tt, s') -> istep s s'
| i_local i b s :
    (forall pid w, waiting s !! pid = Some w -> w.1 <> i) -> istep s (with_bufs (insert i b) s).

(** What a request does that the drive reports as failed: nothing is
    transferred, and the buffer gets the flags of a success. *)
Definition ide_failed (i : nat) : M bio unit := upd_buf i finished.

(** What they implement: a queue of buffers, of which the first is served
    by one [ide_request], or fails. *)
Inductive bstep : bio * list nat -> bio * list nat -> Prop :=
| b_enqueue B q i b :
    Bio.bufs B !! i = Some b -> synced b = false -> i ∉ q -> bstep (B, q) (B, q ++ [i])
| b_serve B B' i q : ide_request i B = Done (tt, B') -> bstep (B, i :: q) (B', q)
| b_fail B B' i q : ide_failed i B = Done (tt, B') -> bstep (B, i :: q) (B', q)
| b_local B q i b : i ∉ q -> bstep (B, q) (set_bufs (insert i b) B, q).

(** The state [s] of the driver implements the queue [q] over [B]. *)
Record sim s (q : list nat) (B : bio) : Prop := {
  sim_bufs : Bio.bufs B = ibufs s;
  sim_links : linked s Head q;
  sim_nodup : NoDup q;
  sim_queued (i : nat) : i ∈ q -> exists b (pid : Z), ibufs s !! i = Some b /\ req_ok b /\ synced b = false /\
    waiting s !! pid = Some (i, false);
  sim_waiting (pid : Z) (i : nat) (w : bool) : waiting s !! pid = Some (i, w) -> exists b, ibufs s !! i = Some b /\
    holdingsleep pid (b_lock b) = true /\ (if w then synced b = true /\ i ∉ q else i ∈ q);
  sim_drive : match q with
              | [] => v_irq (dr_view (drv s)) = false /\ v_disk (dr_view (drv s)) = hdisk B
              | i :: _ => exists b, ibufs s !! i = Some b /\ v_irq (dr_view (drv s)) = true /\
                  v_cmd (dr_view (drv s)) = Some (cmd_of b, (b_dev b, b_blockno b)) /\
                  v_disk (dr_view (drv s)) = started (dr_err (drv s)) (hdisk B) b
              end
}.

Lemma holding_same pid pid' lk : holdingsleep pid lk = true -> holdingsleep pid' lk = true -> pid = pid'.
Proof. unfold holdingsleep. intros [_ ?%Z.eqb_eq]%andb_true_iff [_ ?%Z.eqb_eq]%andb_true_iff. congruence. Qed.

Lemma sim_length s q B : sim s q B -> (length q <= length (ibufs s))%nat.
Proof.
  intros HS. rewrite <- (length_seq (length (ibufs s)) 0). apply submseteq_length, NoDup_submseteq; [apply HS|].
  intros i Hi. destruct (sim_queued _ _ _ HS i Hi) as (b & _ & Hb & _). apply lookup_lt_Some in Hb. apply elem_of_seq. lia.
Qed.

(** The caller of [iderw] holds the lock, so its buffer is not queued. *)
Lemma sim_fresh s q B pid i b :
  sim s q B -> waiting s !! pid = None -> ibufs s !! i = Some b -> holdingsleep pid (b_lock b) = true ->
  (i ∉ q) /\ forall pid' w, waiting s !! pid' = Some w -> w.1 <> i.
Proof.
  intros HS Hw Hi Hl.
  assert (forall pid' w, waiting s !! pid' = Some w -> w.1 <> i) as Hn.
  { intros pid' [j w] Hw' E. cbn in E. subst j. destruct (sim_waiting _ _ _ HS _ _ _ Hw') as (b' & Hb' & Hl' & _).
    assert (b' = b) as -> by congruence. rewrite (holding_same _ _ _ Hl Hl') in Hw. congruence. }
  split; [|done]. intros Hq. destruct (sim_queued _ _ _ HS i Hq) as (? & pid' & _ & _ & _ & Hw'). by apply (Hn pid' _ Hw').
Qed.

(** What is the case after [iderw] has queued its buffer, with the drive in
    state [d]. *)
Definition queued_at s (pid : Z) (q : list nat) (i : nat) (d : D) : ide D :=
  with_waiting (insert pid (i, false)) (with_drv (fun _ => d)
    (set_link (tail_link Head q) i (with_links (delete i (qnext s)) (idequeue s) s))).

Lemma linked_forget s q i : linked s Head q -> i ∉ q -> linked (with_links (delete i (qnext s)) (idequeue s) s) Head q.
Proof.
  intros [Hh Hk] Hi. split; [done|]. intros k j Hj. cbn [qnext with_links].
  rewrite lookup_delete_ne; [by apply Hk|]. intros <-. by apply list_elem_of_lookup_2 in Hj.
Qed.

Lemma sim_queued_at s q B pid i b d :
  sim s q B -> waiting s !! pid = None -> ibufs s !! i = Some b -> holdingsleep pid (b_lock b) = true ->
  req_ok b -> synced b = false ->
  (if decide (q = []) then v_disk (dr_view d) = started (dr_err d) (hdisk B) b /\
      v_cmd (dr_view d) = Some (cmd_of b, (b_dev b, b_blockno b)) /\ v_irq (dr_view d) = true
   else d = drv s) ->
  sim (queued_at s pid q i d) (q ++ [i]) B.
Proof.
  intros HS Hw Hi Hl Hr Hs Hd. destruct (sim_fresh _ _ _ _ _ _ HS Hw Hi Hl) as [Hq Hn].
  assert (ibufs (queued_at s pid q i d) = ibufs s) as Eb by (unfold queued_at; by destruct (tail_link Head q)).
  assert (waiting (queued_at s pid q i d) = <[pid := (i, false)]> (waiting s)) as Ew
    by (unfold queued_at; by destruct (tail_link Head q)).
  split.
  - by rewrite Eb, (sim_bufs _ _ _ HS).
  - assert (linked (set_link (tail_link Head q) i (with_links (delete i (qnext s)) (idequeue s) s)) Head (q ++ [i])) as HL.
    { apply linked_append; [apply linked_forget; [apply HS|done]|apply HS|done|]. cbn. by rewrite lookup_delete_eq. }
    exact HL.
  - apply NoDup_app. split_and!; [apply HS| |apply NoDup_singleton]. intros x Hx ->%list_elem_of_singleton. done.
  - intros j Hj. rewrite Eb, Ew. apply elem_of_app in Hj as [Hj| ->%list_elem_of_singleton].
    + destruct (sim_queued _ _ _ HS j Hj) as (b' & pid' & H1 & H2 & H3 & H4). exists b', pid'. split_and!; try done.
      rewrite lookup_insert_ne; [done|]. intros <-. congruence.
    + exists b, pid. split_and!; [done..|by rewrite lookup_insert_eq].
  - intros pid' j w. rewrite Eb, Ew. destruct (decide (pid = pid')) as [<-|Hne].
    + rewrite lookup_insert_eq. intros [= <- <-]. exists b. split_and!; [done..|set_solver].
    + rewrite lookup_insert_ne by done. intros Hj. pose proof (Hn _ _ Hj) as Hji. cbn in Hji.
      destruct (sim_waiting _ _ _ HS _ _ _ Hj) as (b' & H1 & H2 & H3). exists b'. split_and!; [done..|].
      destruct w; [|set_solver]. destruct H3 as [H3 H4]. split; [done|]. set_solver.
  - assert (drv (queued_at s pid q i d) = d) as -> by (unfold queued_at; by destruct (tail_link Head q)). rewrite Eb.
    pose proof (sim_drive _ _ _ HS) as Hdr. destruct q as [|j q]; cbn [app].
    + rewrite decide_True in Hd by done. destruct Hd as (H1 & H2 & H3). by exists b.
    + rewrite decide_False in Hd by done. by subst d.
Qed.

Lemma iderw_run s q B pid i b :
  sim s q B -> waiting s !! pid = None -> ibufs s !! i = Some b -> holdingsleep pid (b_lock b) = true ->
  req_ok b -> synced b = false -> (b_dev b = 0 \/ idisk1 s = true) ->
  exists d, iderw pid i s = Done (false, queued_at s pid q i d) /\ sim (queued_at s pid q i d) (q ++ [i]) B.
Proof.
  intros HS Hw Hi Hl Hr Hs Hdev. destruct (sim_fresh _ _ _ _ _ _ HS Hw Hi Hl) as [Hq Hn].
  set (s1 := set_link (tail_link Head q) i (with_links (delete i (qnext s)) (idequeue s) s)).
  assert (ibufs s1 = ibufs s /\ drv s1 = drv s) as [Eb Ed] by (unfold s1; by destruct (tail_link Head q)).
  assert (idequeue s1 = head (q ++ [i])) as Eq.
  { unfold s1. refine (proj1 (linked_append _ _ _ (linked_forget _ _ _ (sim_links _ _ _ HS) Hq) (sim_nodup _ _ _ HS) Hq _)).
    cbn. by rewrite lookup_delete_eq. }
  assert (exists d, (if decide (idequeue s1 = Some i) then idestart (Some i) else ret tt) s1 =
    Done (tt, with_drv (fun _ => d) s1) /\ sim (queued_at s pid q i d) (q ++ [i]) B) as (d & Estart & Hsim).
  { pose proof (sim_drive _ _ _ HS) as Hdr. destruct q as [|j q].
    - rewrite decide_True by done. destruct (idestart_run i b s1) as (d & E & E1 & E2 & E3); [by rewrite Eb|done|].
      exists d. split; [done|]. eapply sim_queued_at; try done. rewrite decide_True by done.
      rewrite Ed, (proj2 Hdr) in E1. by split_and!.
    - rewrite decide_False by (rewrite Eq; cbn; intros [= ->]; set_solver). exists (drv s). split.
      + unfold ret. do 2 f_equal. rewrite <- Ed. by destruct s1.
      + by eapply sim_queued_at. }
  exists d. split; [|done]. unfold iderw. rewrite (bind_done _ _ s b s) by (unfold get_ibuf; by rewrite Hi).
  unfold bind at 1, gets at 1. rewrite Hl. cbn [negb]. unfold synced in Hs. rewrite Hs.
  replace (negb (b_dev b =? 0) && negb (idisk1 s)) with false
    by (destruct Hdev as [-> | ->]; [done|by rewrite andb_false_r]).
  unfold bind at 1, modify at 1, bind at 1, gets at 1.
  rewrite (bind_done _ _ _ _ _ (last_link_run _ _ _ _ (linked_forget _ _ _ (sim_links _ _ _ HS) Hq) (sim_length _ _ _ HS))).
  unfold bind at 1, modify at 1. fold s1. unfold bind at 1, gets at 1. rewrite (bind_done _ _ _ _ _ Estart).
  unfold ide_loop. rewrite (bind_done _ _ _ b (with_drv (fun _ => d) s1)) by (unfold get_ibuf; cbn [ibufs with_drv]; by rewrite Eb, Hi).
  by rewrite Hs.
Qed.
(** ** The interrupt *)

(** The buffer of a served request: filled from the disk unless it was
    written to it, or the drive reported the error [e]. *)
Definition served (e : bool) (d : disk) (b : buf) : buf :=
  finished (if dirty b || e then b else set_b_data (dread d (b_dev b) (b_blockno b)) b).
Definition wake (i : nat) (w : gmap Z (nat * bool)) : gmap Z (nat * bool) :=
  (fun x => if decide (x.1 = i) then (i, true) else x) <$> w.
Definition after_intr s (i : nat) (b : buf) (h : option nat) (d : D) : ide D :=
  {| ibufs := <[i := b]> (ibufs s); qnext := qnext s; idequeue := h; idisk1 := idisk1 s; drv := d;
     waiting := wake i (waiting s); iapic := iapic s |}.
Definition after_request (e : bool) (B : bio) (i : nat) (b : buf) : bio :=
  {| Bio.bufs := <[i := served e (hdisk B) b]> (Bio.bufs B); lru := lru B; hdisk := started e (hdisk B) b;
     hwrites := if dirty b && negb e then hwrites B ++ [((b_dev b, b_blockno b), b_data b)] else hwrites B;
     havedisk1 := havedisk1 B; me := me B |}.

Lemma ide_request_run (e : bool) B i b :
  Bio.bufs B !! i = Some b -> req_ok b ->
  (if e then ide_failed i B else ide_request i B) = Done (tt, after_request e B i b).
Proof.
  intros Hi (Hn & _). destruct e.
  { unfold ide_failed, upd_buf, modify, after_request, served, started, set_bufs. rewrite (alter_insert _ _ _ _ Hi), andb_false_r, orb_true_r. by destruct B. }
  unfold ide_request. rewrite (bind_done _ _ B b B) by (unfold get_buf; by rewrite Hi).
  rewrite (proj2 (Z.leb_gt _ _)) by lia. unfold after_request, served, started, dirty.
  destruct (Z.land (b_flags b) B_DIRTY =? 0); cbn [negb]; unfold modify, set_bufs; by rewrite (alter_insert _ _ _ _ Hi).
Qed.

Lemma woken_at i w pid : wake i w !! pid = (fun x => if decide (x.1 = i) then (i, true) else x) <$> w !! pid.
Proof. apply lookup_fmap. Qed.

Lemma sim_after_intr s q B i b d e :
  sim s (i :: q) B -> ibufs s !! i = Some b ->
  (match q with
   | [] => v_irq (dr_view d) = false /\ v_disk (dr_view d) = started e (hdisk B) b
   | j :: _ => exists c, ibufs s !! j = Some c /\ v_irq (dr_view d) = true /\
       v_cmd (dr_view d) = Some (cmd_of c, (b_dev c, b_blockno c)) /\ v_disk (dr_view d) = started (dr_err d) (started e (hdisk B) b) c
   end) ->
  sim (after_intr s i (served e (hdisk B) b) (head q) d) q (after_request e B i b).
Proof.
  intros HS Hi Hd. pose proof (sim_nodup _ _ _ HS) as [Hiq ND]%NoDup_cons.
  assert (forall j, j <> i -> <[i := served e (hdisk B) b]> (ibufs s) !! j = ibufs s !! j) as Hother
    by (intros j Hj; by apply list_lookup_insert_ne).
  assert (<[i := served e (hdisk B) b]> (ibufs s) !! i = Some (served e (hdisk B) b)) as Hthis
    by (apply list_lookup_insert_eq; by eapply lookup_lt_Some).
  split; cbn [ibufs waiting drv after_intr].
  - cbn. by rewrite (sim_bufs _ _ _ HS).
  - split; [done|]. apply (linked_cons _ _ _ _ (sim_links _ _ _ HS)).
  - done.
  - intros j Hj. assert (j <> i) as Hne by set_solver.
    destruct (sim_queued _ _ _ HS j ltac:(set_solver)) as (c & pid & H1 & H2 & H3 & H4).
    exists c, pid. rewrite Hother, woken_at, H4 by done. cbn. by rewrite decide_False.
  - intros pid j w. rewrite woken_at. intros ([j0 w0] & Hw & E)%fmap_Some. cbn in E. symmetry in E.
    destruct (sim_waiting _ _ _ HS _ _ _ Hw) as (c & H1 & H2 & H3). case_decide as Hj.
    + injection E as <- <-. subst j0. assert (c = b) as -> by congruence. exists (served e (hdisk B) b).
      split_and!; [done| |apply synced_finished|done]. unfold served. by destruct (dirty b || e).
    + injection E as <- <-. exists c. rewrite Hother by done. split_and!; [done..|].
      destruct w0; [|set_solver]. destruct H3 as [H3 H4]. split; [done|set_solver].
  - destruct q as [|j q]; [done|]. destruct Hd as (c & H1 & H2 & H3 & H4). exists c. rewrite Hother by set_solver. done.
Qed.

Lemma ideintr_run s q B i :
  sim s (i :: q) B -> let e := dr_err (drv s) in
  exists b d, ibufs s !! i = Some b /\ req_ok b /\
    let s' := after_intr s i (served e (hdisk B) b) (head q) d in
    ideintr (with_drv dr_ack s) = Done (tt, s') /\ sim s' q (after_request e B i b).
Proof.
  intros HS e. destruct (sim_queued _ _ _ HS i ltac:(set_solver)) as (b & _ & Hi & Hr & _).
  destruct (sim_drive _ _ _ HS) as (b' & Hi' & Hirq & Hcmd & Hdisk). assert (b' = b) as -> by congruence.
  set (sa := with_links (qnext s) (qnext s !! i) (with_drv dr_ack s)).
  assert (qnext s !! i = head q) as Hh by (rewrite (proj2 (sim_links _ _ _ HS) 0%nat i) by done; by destruct q).
  assert (exists d, (if Z.land (b_flags b) B_DIRTY =? 0 then
      let! w := idewait true in if 0 <=? w then insl_buf i else ret tt else ret tt) sa
    = Done (tt, with_bufs (insert i (if dirty b || e then b else set_b_data (dread (hdisk B) (b_dev b) (b_blockno b)) b))
        (with_drv (fun _ => d) sa)) /\ dr_view d = dr_view (dr_ack (drv s))) as (d & Etr & Vd).
  { unfold started, cmd_of, dirty in Hdisk, Hcmd |- *. destruct (Z.land (b_flags b) B_DIRTY =? 0); cbn [negb andb orb] in *.
    - destruct (idewait_run true sa) as (d & E & V & Ee). cbn [drv with_drv sa with_links] in V, E, Ee. rewrite ack_err in E, Ee. fold e in E, Ee. destruct e.
      { exists d. rewrite (bind_done _ _ _ _ _ E). split; [|done]. unfold ret, with_bufs. cbn. by rewrite (list_insert_id _ _ _ Hi). }
      exists (dr_insl 0x1f0 (BSIZE / 4) d).2. rewrite (bind_done _ _ _ _ _ E). cbn [Z.leb Z.compare]. split; [|by rewrite <- V; apply insl_view].
      unfold insl_buf. cbn [drv with_drv]. change (BSIZE / 4) with (SECTOR_SIZE / 4).
      rewrite (insl_data d (b_dev b, b_blockno b)); [|by rewrite V, ack_view|done]. rewrite V, ack_view. cbn [v_disk]. rewrite Hdisk.
      unfold with_bufs. cbn [ibufs with_drv sa with_links]. by rewrite (alter_insert _ _ _ _ Hi).
    - exists (dr_ack (drv s)). split; [|done]. unfold ret, with_bufs. cbn. by rewrite (list_insert_id _ _ _ Hi). }
  set (b0 := if dirty b || e then b else set_b_data (dread (hdisk B) (b_dev b) (b_blockno b)) b) in *.
  set (st d := after_intr s i (served e (hdisk B) b) (head q) d).
  assert (exists d', (match head q with None => ret tt | Some _ => idestart (head q) end) (st d) = Done (tt, st d') /\
    sim (st d') q (after_request e B i b)) as (d' & Ego & Hsim).
  { assert (v_disk (dr_view d) = started e (hdisk B) b) as Hv by (rewrite Vd, ack_view; exact Hdisk).
    destruct q as [|j q]; cbn [head].
    - exists d. split; [done|]. apply sim_after_intr; [done..|]. split; [by rewrite Vd, ack_view|done].
    - destruct (sim_queued _ _ _ HS j ltac:(set_solver)) as (c & _ & Hj & Hrc & _).
      assert (j <> i) as Hji by (pose proof (sim_nodup _ _ _ HS) as [? _]%NoDup_cons; set_solver).
      destruct (idestart_run j c (st d)) as (d' & E & E1 & E2 & E3); [cbn; by rewrite list_lookup_insert_ne|done|].
      cbn [head] in E. exists d'. split; [done|]. apply sim_after_intr; [done..|]. exists c.
      cbn [drv st after_intr] in E1. rewrite Hv in E1. by split_and!. }
  exists b, d'. split_and!; [done..|]. cbn zeta. split; [|done]. etransitivity; [|exact Ego].
  unfold ideintr. unfold bind at 1, gets at 1. cbn [idequeue with_drv]. pose proof (proj1 (sim_links _ _ _ HS)) as Hq. cbn in Hq. rewrite Hq.
  unfold bind at 1, modify at 1. cbn [qnext with_drv]. fold sa. rewrite (bind_done _ _ sa b sa) by (unfold get_ibuf; cbn; by rewrite Hi).
  rewrite (bind_done _ _ _ _ _ Etr). unfold upd_ibuf, ide_wakeup, bind, modify, gets.
  cbv beta iota. match goal with |- context [with_waiting ?f ?y] => replace (with_waiting f y) with (st d) end; [done|].
  unfold st, after_intr, with_bufs, with_waiting, with_drv, sa, with_links, served, finished. fold b0.
  cbn [ibufs qnext idequeue idisk1 drv waiting iapic]. rewrite Hh, list_alter_alter.
  rewrite (alter_insert _ _ _ b0) by (apply list_lookup_insert_eq; by eapply lookup_lt_Some).
  by rewrite list_insert_insert_eq.
Qed.
(** ** Every step of the driver is a step of the queue, or none *)

Lemma iderw_checks pid i b r s :
  ibufs s !! i = Some b -> iderw pid i s = Done r ->
  holdingsleep pid (b_lock b) = true /\ synced b = false /\ (b_dev b = 0 \/ idisk1 s = true).
Proof.
  intros Hi. unfold iderw. rewrite (bind_done _ _ s b s) by (unfold get_ibuf; by rewrite Hi). unfold bind at 1, gets at 1.
  destruct (holdingsleep pid (b_lock b)); [|done]. unfold synced. cbn [negb].
  destruct (Z.land (b_flags b) (Z.lor B_VALID B_DIRTY) =? B_VALID); [done|].
  destruct (Z.eqb_spec (b_dev b) 0), (idisk1 s); try done; auto.
Qed.

Lemma sim_resume s q B pid i r s' :
  sim s q B -> waiting s !! pid = Some (i, true) -> ide_loop pid i s = Done (r, s') -> r = true /\ sim s' q B.
Proof.
  intros HS Hw. destruct (sim_waiting _ _ _ HS _ _ _ Hw) as (b & Hi & Hl & Hs & Hq). unfold ide_loop.
  rewrite (bind_done _ _ s b s) by (unfold get_ibuf; by rewrite Hi). unfold synced in Hs. rewrite Hs. cbn [negb].
  intros [= <- <-]. split; [done|]. split; try apply HS; cbn [ibufs waiting with_waiting].
  - intros j Hj. destruct (sim_queued _ _ _ HS j Hj) as (c & pid' & H1 & H2 & H3 & H4). exists c, pid'.
    rewrite lookup_delete_ne by congruence. done.
  - intros pid' j w [_ Hj]%lookup_delete_Some. by apply HS.
Qed.

Lemma sim_local s q B i b :
  sim s q B -> (forall pid w, waiting s !! pid = Some w -> w.1 <> i) ->
  (i ∉ q) /\ sim (with_bufs (insert i b) s) q (set_bufs (insert i b) B).
Proof.
  intros HS Hn.
  assert (forall j, j ∈ q -> j <> i) as Hq.
  { intros j Hj. destruct (sim_queued _ _ _ HS j Hj) as (c & pid & _ & _ & _ & Hw). by apply (Hn _ _ Hw). }
  split; [intros Hi; by apply (Hq i)|]. split; try apply HS; cbn [ibufs waiting with_bufs drv].
  - cbn. by rewrite (sim_bufs _ _ _ HS).
  - intros j Hj. rewrite list_lookup_insert_ne by (symmetry; by apply Hq). by apply HS.
  - intros pid j w Hw. rewrite list_lookup_insert_ne by (symmetry; apply (Hn _ _ Hw)). by apply HS.
  - pose proof (sim_drive _ _ _ HS) as Hd. destruct q as [|j q]; [done|]. destruct Hd as (c & Hc & Hd). exists c.
    rewrite list_lookup_insert_ne by (symmetry; apply Hq; set_solver). done.
Qed.

Lemma sim_step s q B s' :
  sim s q B -> istep s s' ->
  exists q' B', rtc bstep (B, q) (B', q') /\ sim s' q' B'.
Proof.
  intros HS Hst. destruct Hst as [pid i b r s s' Hw Hi Hr E|pid i r s s' Hw E|s s' Hirq E|i b s Hn].
  - destruct (iderw_checks _ _ _ _ _ Hi E) as (Hl & Hs & Hd).
    destruct (iderw_run _ _ _ _ _ _ HS Hw Hi Hl Hr Hs Hd) as (d & E' & HS'). rewrite E in E'. injection E' as _ ->.
    exists (q ++ [i]), B. split; [|done]. apply rtc_once, (b_enqueue _ _ _ b); [by rewrite (sim_bufs _ _ _ HS)|done|].
    by eapply sim_fresh.
  - destruct (sim_resume _ _ _ _ _ _ _ HS Hw E) as [_ HS']. by exists q, B.
  - pose proof (sim_drive _ _ _ HS) as Hd. destruct q as [|i q]; [destruct Hd; congruence|].
    destruct (ideintr_run _ _ _ _ HS) as (b & d & Hi & Hr & E' & HS'). rewrite E in E'. injection E' as ->.
    do 2 eexists. split; [|exact HS']. apply rtc_once. rewrite <- (sim_bufs _ _ _ HS) in Hi.
    pose proof (ide_request_run (dr_err (drv s)) B i b Hi Hr) as Hreq. destruct (dr_err (drv s)); [by apply b_fail|by apply b_serve].
  - destruct (sim_local _ _ _ _ b HS Hn) as [Hq HS']. do 2 eexists. split; [|exact HS']. by apply rtc_once, b_local.
Qed.
End driver.

(** Property C7: however calls of [iderw], interrupts and changes to other
    buffers interleave, and whichever commands the drive fails, the driver does
    what a queue does whose first request is served by one [ide_request], or,
    when the drive reports an error for it, ends with no data transferred and
    the flags of a success; no request that passes the checks of [iderw] makes
    it fail, and while requests are queued the drive has raised an interrupt
    whose handler returns and ends the first one, so a process in [iderw] is
    either queued or its buffer is in order. *)
Theorem ide_serves_in_order {D} `{DriveLaws D} (s0 s : ide D) B0 :
  sim s0 [] B0 -> rtc istep s0 s ->
  exists q B, rtc bstep (B0, []) (B, q) /\ sim s q B /\
    (forall pid i b, waiting s !! pid = None -> ibufs s !! i = Some b -> req_ok b -> synced b = false ->
       holdingsleep pid (b_lock b) = true -> (b_dev b = 0 \/ idisk1 s = true) ->
       exists s', iderw pid i s = Done (false, s') /\ sim s' (q ++ [i]) B) /\
    (forall i q', q = i :: q' -> v_irq (dr_view (drv s)) = true /\
       exists s' B', ideintr (with_drv dr_ack s) = Done (tt, s') /\
         (if dr_err (drv s) then ide_failed i B else ide_request i B) = Done (tt, B') /\ sim s' q' B').
Proof.
  intros HS Hst.
  assert (exists q B, rtc bstep (B0, []) (B, q) /\ sim s q B) as (q & B & Hb & HS').
  { revert B0 HS. generalize (@nil nat) as q0. induction Hst as [s|s s1 s2 H1 _ IH]; intros q0 B0 HS; [by exists q0, B0|].
    destruct (sim_step _ _ _ _ HS H1) as (q1 & B1 & Hb1 & HS1). destruct (IH _ _ HS1) as (q2 & B2 & Hb2 & HS2).
    exists q2, B2. split; [by etrans|done]. }
  exists q, B. split_and!; [done..| |].
  - intros pid i b Hw Hi Hr Hs Hl Hd. destruct (iderw_run _ _ _ _ _ _ HS' Hw Hi Hl Hr Hs Hd) as (d & E & HS''). eauto.
  - intros i q' ->. split; [by destruct (sim_drive _ _ _ HS') as (b & _ & ? & _)|].
    destruct (ideintr_run _ _ _ _ HS') as (b & d & Hi & Hr & E & HS''). do 2 eexists. split_and!; [exact E| |exact HS''].
    apply ide_request_run; [by rewrite (sim_bufs _ _ _ HS')|done].
Qed.

(** ** A drive *)

(** A drive that is busy for two reads of its status after each command, and
    fails the commands for the sectors of [bad]. *)
Record ata (bad : Z -> bool) := { at_view : dview; at_polls : nat }.
Arguments at_view {bad}.
Arguments at_polls {bad}.
Definition ata_err {bad} (d : ata bad) : bool := match v_cmd (at_view d) with Some (_, t) => bad t.2 | None => false end.
Definition ata_outb {bad} (port x : Z) (d : ata bad) : ata bad :=
  let v := at_view d in
  if (0x1f2 <=? port) && (port <=? 0x1f6) then
    {| at_view := {| v_disk := v_disk v; v_file := <[port := x]> (v_file v); v_cmd := v_cmd v; v_irq := v_irq v |};
       at_polls := at_polls d |}
  else if port =? 0x1f7 then
    {| at_view := {| v_disk := v_disk v; v_file := v_file v; v_cmd := Some (x, target v);
                     v_irq := (x =? IDE_CMD_READ) || v_irq v |}; at_polls := 2 |}
  else d.
Definition ata_outsl {bad} (data : list Z) (d : ata bad) : ata bad :=
  let v := at_view d in
  match v_cmd v with
  | Some (c, t) =>
      if c =? IDE_CMD_WRITE then
        {| at_view := {| v_disk := if bad t.2 then v_disk v else <[t := data]> (v_disk v); v_file := v_file v;
                         v_cmd := v_cmd v; v_irq := true |};
           at_polls := at_polls d |}
      else d
  | None => d
  end.
#[global] Instance ata_ops bad : DriveOps (ata bad) := {
  dr_inb port d := (if at_polls d is O then (if ata_err d then 0x41 else 0x40) else 0x80,
                    {| at_view := at_view d; at_polls := Nat.pred (at_polls d) |});
  dr_outb := ata_outb;
  dr_insl _ _ d := (match v_cmd (at_view d) with Some (_, t) => dread (v_disk (at_view d)) t.1 t.2 | None => [] end, d);
  dr_outsl _ := ata_outsl;
  dr_ack d := {| at_view := {| v_disk := v_disk (at_view d); v_file := v_file (at_view d); v_cmd := v_cmd (at_view d);
                               v_irq := false |}; at_polls := at_polls d |};
  dr_view := at_view;
  dr_busy := at_polls;
  dr_err := ata_err
}.
#[global] Instance ata_laws bad : DriveLaws (ata bad).
Proof.
  split; try done; cbn.
  - intros d ->. by destruct (ata_err d).
  - intros d n ->. done.
  - intros d port x Hp. unfold ata_outb. by rewrite (proj2 (Z.leb_le _ _)), (proj2 (Z.leb_le _ _)) by lia.
  - intros d t data Hc _. unfold ata_err, ata_outsl. rewrite Hc. done.
  - intros d t Hc _. by rewrite Hc.
Qed.

(** Processes 7 and 8 hold a buffer that is to be written and one to be read,
    for the same block of disk 1, and process 9 one of a block that cannot be
    read. *)
Definition demo_bad (n : Z) : bool := n =? 666.
Definition demo_buf (pid flags n : Z) (data : list Z) : buf :=
  {| b_flags := flags; b_dev := 1; b_blockno := n; b_lock := {| sl_locked := true; sl_pid := pid |}; b_refcnt := 1;
     b_data := data |}.
Definition demo_ide : ide (ata demo_bad) :=
  {| ibufs := [demo_buf 7 B_DIRTY 300 (replicate (Z.to_nat BSIZE) 5); demo_buf 8 0 300 zero_block; demo_buf 9 0 666 zero_block];
     qnext := ∅; idequeue := None;
     idisk1 := true; drv := {| at_view := {| v_disk := ∅; v_file := ∅; v_cmd := None; v_irq := false |}; at_polls := 0 |};
     waiting := ∅; iapic := {| io_reg := 0; io_data := ∅ |} |}.
Definition demo_bio : bio :=
  {| Bio.bufs := ibufs demo_ide; lru := [0; 1; 2]%nat; hdisk := ∅; hwrites := []; havedisk1 := true; me := 7 |}.
Definition run_ide {A} (c : M (ide (ata demo_bad)) A) (s : ide (ata demo_bad)) : ide (ata demo_bad) := match c s with Done (_, s') => s' | _ => s end.
Definition demo_called : ide (ata demo_bad) := run_ide (iderw 9 2) (run_ide (iderw 8 1) (run_ide (iderw 7 0) demo_ide)).
Definition demo_intr (s : ide (ata demo_bad)) : ide (ata demo_bad) := run_ide ideintr (with_drv dr_ack s).

Lemma demo_sim : sim demo_ide [] demo_bio.
Proof. split; try done; [by constructor|intros i Hi; by apply elem_of_nil in Hi]. Qed.

Lemma demo_req pid flags n data : 0 <= n < FSSIZE -> length data = Z.to_nat BSIZE -> req_ok (demo_buf pid flags n data).
Proof. intros. split_and!; try done; apply H. Qed.

(** Three calls and two interrupts; the third request is still queued, and
    fails. *)
Lemma ide_serves_in_order_witness :
  exists q B, rtc bstep (demo_bio, []) (B, q) /\ sim (demo_intr (demo_intr demo_called)) q B /\
    (forall i q', q = i :: q' -> exists B', ide_failed i B = Done (tt, B') /\ sim (demo_intr (demo_intr (demo_intr demo_called))) q' B').
Proof.
  destruct (ide_serves_in_order demo_ide (demo_intr (demo_intr demo_called)) demo_bio) as (q & B & H1 & H2 & _ & H3); [apply demo_sim| |].
  - eapply rtc_l; [|eapply rtc_l; [|eapply rtc_l; [|eapply rtc_l; [|eapply rtc_once]]]].
    + eapply (i_call 7 0); [done|reflexivity|by apply demo_req|vm_compute; reflexivity].
    + eapply (i_call 8 1); [reflexivity|reflexivity|by apply demo_req|vm_compute; reflexivity].
    + eapply (i_call 9 2); [reflexivity|reflexivity|by apply demo_req|vm_compute; reflexivity].
    + eapply i_intr; [reflexivity|vm_compute; reflexivity].
    + eapply i_intr; [reflexivity|vm_compute; reflexivity].
  - exists q, B. split_and!; [done..|]. intros i q' Hq. destruct (H3 i q' Hq) as (_ & s' & B' & E & Ef & Hs). exists B'.
    replace (demo_intr (demo_intr (demo_intr demo_called))) with s'; [by split|]. unfold demo_intr at 1, run_ide. by rewrite E.
Defined.

(** The second process reads what the first one wrote, and the third gets a
    buffer marked valid with what was in it before. *)
Lemma demo_read_after_write :
  let s := demo_intr (demo_intr (demo_intr demo_called)) in
  b_data <$> ibufs s !! 1%nat = Some (replicate (Z.to_nat BSIZE) 5) /\
  b_data <$> ibufs s !! 2%nat = Some zero_block /\ b_flags <$> ibufs s !! 2%nat = Some B_VALID /\
  waiting s = {[ 7 := (0%nat, true); 8 := (1%nat, true); 9 := (2%nat, true) ]} /\
  idequeue s = None.
Proof. split_and!; vm_compute; reflexivity. Qed.

(** A read that the drive reports as failed leaves the buffer as it was, and
    marks it valid all the same. *)
Lemma read_error_marks_valid {D} `{DriveLaws D} (s : ide D) i b :
  idequeue s = Some i -> qnext s !! i = None -> ibufs s !! i = Some b -> dirty b = false -> dr_err (drv s) = true ->
  exists s', ideintr s = Done (tt, s') /\ ibufs s' !! i = Some (finished b) /\ b_data (finished b) = b_data b.
Proof.
  intros Hq Hn Hi Hd He. unfold ideintr. unfold bind at 1, gets at 1. rewrite Hq. unfold bind at 1, modify at 1. rewrite Hn.
  set (s1 := with_links _ _ _). rewrite (bind_done _ _ s1 b s1) by (unfold get_ibuf; cbn; by rewrite Hi).
  unfold dirty in Hd. apply negb_false_iff in Hd. rewrite Hd.
  destruct (idewait_run true s1) as (d & E & _). change (drv s1) with (drv s) in E. rewrite He in E. cbn [andb] in E.
  eexists. split_and!; [|..].
  - unfold bind at 1. rewrite (bind_done _ _ _ _ _ E). reflexivity.
  - cbn. rewrite list_alter_alter, (alter_insert _ _ _ _ Hi), list_lookup_insert_eq by (by eapply lookup_lt_Some). done.
  - done.
Qed.

(** ** The I/O APIC *)

Lemma ioapic_disable_other n k a r :
  (r < REG_TABLE + 2 * k \/ REG_TABLE + 2 * (k + Z.of_nat n) <= r) ->
  io_data (ioapic_disable n k a) !! r = io_data a !! r.
Proof.
  revert k a. induction n as [|n IH]; intros k a Hr; cbn [ioapic_disable]; [done|].
  rewrite IH by lia. cbn. by rewrite !lookup_insert_ne by lia.
Qed.

Lemma ioapic_disable_table n k a j :
  k <= j < k + Z.of_nat n ->
  io_data (ioapic_disable n k a) !! (REG_TABLE + 2 * j) = Some (u32 (Z.lor INT_DISABLED (T_IRQ0 + j))) /\
  io_data (ioapic_disable n k a) !! (REG_TABLE + 2 * j + 1) = Some 0.
Proof.
  revert k a. induction n as [|n IH]; intros k a Hj; cbn [ioapic_disable]; [lia|].
  destruct (decide (j = k)) as [->|Hne]; [|apply IH; lia].
  rewrite !ioapic_disable_other by lia. cbn. rewrite lookup_insert_ne, !lookup_insert_eq by lia. done.
Qed.

(** After [ioapicinit] and the enabling of one interrupt, that one goes to its
    processor and the others of the table are disabled. *)
Lemma ioapic_routes id a irq cpu j :
  let maxintr := Z.land (Z.shiftr (default 0 (io_data a !! REG_VER)) 16) 0xFF in
  0 <= irq <= maxintr -> 0 <= j <= maxintr ->
  let tab := io_data (ioapicenable irq cpu (ioapicinit id a).2) in
  tab !! (REG_TABLE + 2 * j) = Some (u32 (if decide (j = irq) then T_IRQ0 + irq else Z.lor INT_DISABLED (T_IRQ0 + j))) /\
  tab !! (REG_TABLE + 2 * j + 1) = Some (if decide (j = irq) then u32 (Z.shiftl cpu 24) else 0).
Proof.
  intros maxintr Hi Hj tab. unfold tab, ioapicenable, ioapicinit, ioapicread. cbn [io_data ioapicwrite snd]. fold maxintr.
  destruct (decide (j = irq)) as [->|Hne].
  - split; [rewrite lookup_insert_ne by lia|]; by rewrite lookup_insert_eq.
  - rewrite !(lookup_insert_ne _ (REG_TABLE + 2 * irq + 1)), !(lookup_insert_ne _ (REG_TABLE + 2 * irq)) by lia.
    apply ioapic_disable_table. lia.
Qed.

(** ** The disk in memory (memide.c) *)

(** [memdisk] is the image the kernel was linked with, [disksize] its number of
    blocks. *)
Record memide := { m_bufs : list buf; memdisk : list Z; disksize : Z }.
Definition memideinit (bs : list buf) (image : list Z) : memide :=
  {| m_bufs := bs; memdisk := image; disksize := Z.of_nat (length image) / BSIZE |}.
Definition mem_iderw (pid : Z) (i : nat) : M memide unit := fun s =>
  match m_bufs s !! i with
  | None => Fault
  | Some b =>
      if negb (holdingsleep pid (b_lock b)) then Panic "iderw: buf not locked"
      else if Z.land (b_flags b) (Z.lor B_VALID B_DIRTY) =? B_VALID then Panic "iderw: nothing to do"
      else if negb (b_dev b =? 1) then Panic "iderw: request not for disk 1"
      else if u32 (disksize s) <=? b_blockno b then Panic "iderw: block out of range"
      else
        let p := Z.to_nat (b_blockno b * BSIZE) in
        if negb (Z.land (b_flags b) B_DIRTY =? 0) then
          let b := set_b_flags (Z.land (b_flags b) (Z.lnot B_DIRTY)) b in
          Done (tt, {| m_bufs := <[i := set_b_flags (Z.lor (b_flags b) B_VALID) b]> (m_bufs s);
                       memdisk := splice (memdisk s) p (b_data b); disksize := disksize s |})
        else
          let b := set_b_data (take (Z.to_nat BSIZE) (drop p (memdisk s))) b in
          Done (tt, {| m_bufs := <[i := set_b_flags (Z.lor (b_flags b) B_VALID) b]> (m_bufs s);
                       memdisk := memdisk s; disksize := disksize s |})
  end.

(** The image holds the blocks of disk 1. *)
Definition holds_disk (d : disk) (image : list Z) : Prop :=
  forall n, 0 <= n < Z.of_nat (length image) / BSIZE -> take (Z.to_nat BSIZE) (drop (Z.to_nat (n * BSIZE)) image) = dread d 1 n.

Lemma flags_commute f : Z.lor (Z.land f (Z.lnot B_DIRTY)) B_VALID = Z.land (Z.lor f B_VALID) (Z.lnot B_DIRTY).
Proof.
  apply Z.bits_inj'. intros n Hn. rewrite !Z.lor_spec, !Z.land_spec, !Z.lor_spec, Z.lnot_spec by done.
  change (Z.testbit B_VALID n) with (Z.testbit (2 ^ 1) n). change (Z.testbit B_DIRTY n) with (Z.testbit (2 ^ 2) n).
  destruct (decide (n = 1)) as [->|H1]; [by destruct (Z.testbit f 1)|]. rewrite (Z.pow2_bits_false 1 n) by lia.
  by rewrite !orb_false_r.
Qed.

Lemma flags_clean f : Z.land f B_DIRTY = 0 -> Z.lor f B_VALID = Z.land (Z.lor f B_VALID) (Z.lnot B_DIRTY).
Proof.
  intros Hf. rewrite <- flags_commute. f_equal. symmetry. apply Z.bits_inj'. intros n Hn. rewrite Z.land_spec, Z.lnot_spec by done.
  assert (Z.testbit (Z.land f B_DIRTY) n = false) as E by (by rewrite Hf, Z.bits_0). rewrite Z.land_spec in E.
  by destruct (Z.testbit f n), (Z.testbit B_DIRTY n).
Qed.

(** On disk 1, for blocks of the image, the driver of memide.c does what that
    of ide.c does for one request. *)
Lemma memide_is_ide_request (s : memide) B pid i b :
  Bio.bufs B = m_bufs s -> holds_disk (hdisk B) (memdisk s) -> disksize s = Z.of_nat (length (memdisk s)) / BSIZE ->
  is_u32 (disksize s) -> m_bufs s !! i = Some b -> b_dev b = 1 -> 0 <= b_blockno b < Z.min FSSIZE (disksize s) ->
  length (b_data b) = Z.to_nat BSIZE -> holdingsleep pid (b_lock b) = true -> synced b = false ->
  exists s', mem_iderw pid i s = Done (tt, s') /\ Bio.bufs (after_request false B i b) = m_bufs s' /\
    ide_request i B = Done (tt, after_request false B i b) /\ holds_disk (hdisk (after_request false B i b)) (memdisk s').
Proof.
  intros Hbufs Hh Hsz Hu Hi Hdev Hn Hlen Hl Hs. unfold synced in Hs.
  assert (req_ok b) as Hr by (split_and!; lia).
  unfold mem_iderw. rewrite Hi, Hl, Hs, Hdev. cbn [negb Z.eqb Pos.eqb]. rewrite u32_small, (proj2 (Z.leb_gt _ _)) by (done || lia).
  pose proof (ide_request_run false B i b ltac:(by rewrite Hbufs) Hr) as Erq.
  destruct (Z.eqb_spec (Z.land (b_flags b) B_DIRTY) 0) as [Ed|Ed]; cbn [negb andb orb]; eexists; (split; [reflexivity|]);
    (split_and!; [|exact Erq|]); unfold after_request, served, started, dirty; cbn [Bio.bufs hdisk m_bufs memdisk].
  - rewrite (proj2 (Z.eqb_eq _ _) Ed), Hbufs. cbn [negb andb orb]. unfold finished. cbn [b_flags set_b_data].
    by rewrite (Hh (b_blockno b)), Hdev, <- flags_clean by (done || lia).
  - by rewrite (proj2 (Z.eqb_eq _ _) Ed).
  - rewrite (proj2 (Z.eqb_neq _ _) Ed), Hbufs. cbn [negb andb orb]. unfold finished. cbn [b_flags set_b_flags]. by rewrite flags_commute.
  - rewrite (proj2 (Z.eqb_neq _ _) Ed), Hdev. cbn [negb andb orb].
    intros n Hnn. rewrite length_splice in Hnn. cbn [b_data set_b_flags]. unfold dread. destruct (decide (n = b_blockno b)) as [->|Hne].
    + rewrite lookup_insert_eq. cbn [default]. rewrite <- Hlen. apply splice_take_drop.
      unfold id. rewrite Hlen. unfold BSIZE in *. Z.div_mod_to_equations. lia.
    + rewrite lookup_insert_ne by congruence. rewrite splice_take_drop_ne; [by apply Hh|]. rewrite Hlen. unfold BSIZE in *. lia.
Qed.
