(* ===== verification/Bootmain.v ===== *)
(** * Bootmain: the boot loader (bootmain.c)

    The loader reads the kernel from disk 0, sector by sector through the ports
    of the drive, into physical memory: first the page with the headers, then
    each segment, of which a part of the first and of the last sector is not
    asked for. The theorems say what is in memory when it calls the kernel. *)

From stdpp Require Import base list numbers gmap strings.
From S2P Require Import Prelude Bytes Params Sleeplock Bio Ide.

Local Open Scope Z_scope.
Local Open Scope os_scope.

Definition SECTSIZE : Z := 512.
Definition ELF_SCRATCH : Z := 0x10000.
Definition BOOT_MAGIC : Z := 0x464C457F.

(** Physical memory and the drive. *)
Record bootst (D : Type) := { bmem : Z -> Z; bdrv : D }.
Arguments bmem {D}.
Arguments bdrv {D}.

(** Storing bytes, and a word of memory. *)
Definition poke (a : Z) (l : list Z) (mem : Z -> Z) : Z -> Z := fun x =>
  let k := u32 (x - a) in if k <? Z.of_nat (length l) then nth (Z.to_nat k) l 0 else mem x.
Definition peek (a : Z) (n : nat) (mem : Z -> Z) : list Z := (fun k => mem (u32 (a + Z.of_nat k))) <$> seq 0 n.
Definition peek32 (a : Z) (mem : Z -> Z) : Z := get32 (peek a 4 mem) 0.
Definition peek16 (a : Z) (mem : Z -> Z) : Z := get16 (peek a 2 mem) 0.

Section boot.
Context {D : Type} `{DriveOps D}.

Definition with_bdrv (f : D -> D) (s : bootst D) : bootst D := {| bmem := bmem s; bdrv := f (bdrv s) |}.
Definition store (a : Z) (l : list Z) : M (bootst D) unit := modify (fun s => {| bmem := poke a l (bmem s); bdrv := bdrv s |}).
Definition binb (port : Z) : M (bootst D) Z := fun s => Done ((dr_inb port (bdrv s)).1, with_bdrv (fun d => (dr_inb port d).2) s).
Definition boutb (port data : Z) : M (bootst D) unit := modify (with_bdrv (dr_outb port (u8 data))).
(** [insl(0x1F0, dst, SECTSIZE/4)]. *)
Definition binsl (dst : Z) : M (bootst D) unit := fun s =>
  let r := dr_insl 0x1f0 (SECTSIZE / 4) (bdrv s) in
  Done (tt, {| bmem := poke dst r.1 (bmem s); bdrv := r.2 |}).

(** The loop of [waitdisk], with the fuel that the drive needs to get ready. *)
Fixpoint waitdisk_from (fuel : nat) : M (bootst D) unit :=
  match fuel with
  | O => fault
  | S fuel => let! r := binb 0x1f7 in if negb (Z.land r 0xc0 =? 0x40) then waitdisk_from fuel else ret tt
  end.
Definition waitdisk : M (bootst D) unit := fun s => waitdisk_from (S (dr_busy (bdrv s))) s.

Definition readsect (dst offset : Z) : M (bootst D) unit :=
  waitdisk;;;
  boutb 0x1f2 1;;;
  boutb 0x1f3 offset;;;
  boutb 0x1f4 (Z.shiftr offset 8);;;
  boutb 0x1f5 (Z.shiftr offset 16);;;
  boutb 0x1f6 (Z.lor (Z.shiftr offset 24) 0xe0);;;
  boutb 0x1f7 0x20;;;
  waitdisk;;;
  binsl dst.

(** The loop of [readseg]. *)
Fixpoint readseg_from (fuel : nat) (pa epa offset : Z) : M (bootst D) unit :=
  if pa <? epa then
    match fuel with
    | O => fault
    | S fuel => readsect pa offset;;; readseg_from fuel (u32 (pa + SECTSIZE)) epa (u32 (offset + 1))
    end
  else ret tt.
Definition readseg (pa count offset : Z) : M (bootst D) unit :=
  let epa := u32 (pa + count) in
  let pa := u32 (pa - offset mod SECTSIZE) in
  let offset := u32 (offset / SECTSIZE + 1) in
  readseg_from (Z.to_nat ((epa - pa) / SECTSIZE + 1)) pa epa offset.

(** The loop over the program headers from [ph] to [eph]. *)
Fixpoint load_from (fuel : nat) (ph eph : Z) : M (bootst D) unit :=
  if ph <? eph then
    match fuel with
    | O => fault
    | S fuel =>
        let! m := gets bmem in
        let pa := peek32 (u32 (ph + 12)) m in
        readseg pa (peek32 (u32 (ph + 16)) m) (peek32 (u32 (ph + 4)) m);;;
        let! m := gets bmem in
        let filesz := peek32 (u32 (ph + 16)) m in
        let memsz := peek32 (u32 (ph + 20)) m in
        (if filesz <? memsz then store (u32 (pa + filesz)) (replicate (Z.to_nat (memsz - filesz)) 0) else ret tt);;;
        load_from fuel (u32 (ph + 32)) eph
    end
  else ret tt.
(** The entry point that is called, or [None] when the file is not an ELF
    executable. *)
Definition bootmain : M (bootst D) (option Z) :=
  readseg ELF_SCRATCH 4096 0;;;
  let! m := gets bmem in
  if negb (peek32 ELF_SCRATCH m =? BOOT_MAGIC) then ret None
  else
    let ph := u32 (ELF_SCRATCH + peek32 (ELF_SCRATCH + 28) m) in
    let phnum := peek16 (ELF_SCRATCH + 44) m in
    load_from (Z.to_nat phnum) ph (u32 (ph + 32 * phnum));;;
    let! m := gets bmem in
    ret (Some (peek32 (ELF_SCRATCH + 24) m)).
End boot.

(** ** Reading sectors *)

Lemma poke_in a l mem x : 0 <= a -> a <= x < a + Z.of_nat (length l) -> x < 2 ^ 32 -> poke a l mem x = nth (Z.to_nat (x - a)) l 0.
Proof. intros Ha Hx Hm. unfold poke. rewrite u32_small by wrap_lia. by rewrite (proj2 (Z.ltb_lt _ _)) by lia. Qed.
Lemma poke_out a l mem x : 0 <= a -> a + Z.of_nat (length l) <= 2 ^ 32 -> 0 <= x < 2 ^ 32 -> ~ (a <= x < a + Z.of_nat (length l)) -> poke a l mem x = mem x.
Proof.
  intros Ha Hl Hx Hno. unfold poke. destruct (decide (x < a)).
  - assert (u32 (x - a) = x - a + 2 ^ 32) as -> by (unfold u32; rewrite <- (Z_mod_plus_full _ 1), Z.mod_small; lia). by rewrite (proj2 (Z.ltb_ge _ _)) by lia.
  - rewrite u32_small by wrap_lia. by rewrite (proj2 (Z.ltb_ge _ _)) by lia.
Qed.

(** The registers name the sector. *)
Lemma sector_bytes n : 0 <= n < 2 ^ 28 ->
  u8 n + 2 ^ 8 * u8 (Z.shiftr n 8) + 2 ^ 16 * u8 (Z.shiftr n 16) + 2 ^ 24 * Z.land (u8 (Z.lor (Z.shiftr n 24) 0xe0)) 0x0f = n /\
  Z.land (Z.shiftr (u8 (Z.lor (Z.shiftr n 24) 0xe0)) 4) 1 = 0.
Proof.
  intros Hn. rewrite !Z.shiftr_div_pow2 by lia. set (q := n / 2 ^ 24). assert (0 <= q < 16) as Hq by (unfold q; Z.div_mod_to_equations; lia).
  assert (q ∈ seqZ 0 16) as Hin by (apply elem_of_seqZ; lia).
  assert (Forall (fun q => Z.land (u8 (Z.lor q 0xe0)) 0x0f = q /\ Z.land (u8 (Z.lor q 0xe0) / 2 ^ 4) 1 = 0) (seqZ 0 16)) as HF by (by apply (bool_decide_eq_true_1 (Forall _ _))).
  rewrite Forall_forall in HF. destruct (HF q Hin) as [-> ->]. split; [|done]. unfold u8, q. Z.div_mod_to_equations. lia.
Qed.

Section laws.
Context {D : Type} `{DriveLaws D} (Hne : forall d, dr_err (D := D) d = false).
Implicit Types s : bootst D.

Lemma waitdisk_run s : exists d, waitdisk s = Done (tt, with_bdrv (fun _ => d) s) /\ dr_view d = dr_view (bdrv s).
Proof.
  assert (forall n s, dr_busy (bdrv s) = n -> exists d, waitdisk_from (S n) s = Done (tt, with_bdrv (fun _ => d) s) /\ dr_view d = dr_view (bdrv s)) as Hn; [|by apply Hn].
  clear s. intros n. induction n as [|n IH]; intros s Hb; cbn [waitdisk_from]; unfold bind, binb.
  - destruct (inb_ready _ Hb) as [Hr _]. unfold ready in Hr. change (Z.lor IDE_BSY IDE_DRDY) with 0xc0 in Hr. change IDE_DRDY with 0x40 in Hr. rewrite Hr.
    eexists. split; [reflexivity|]. by rewrite inb_view.
  - destruct (inb_busy _ _ Hb) as [Hr Hn]. unfold ready in Hr. change (Z.lor IDE_BSY IDE_DRDY) with 0xc0 in Hr. change IDE_DRDY with 0x40 in Hr. rewrite Hr. cbn [negb].
    destruct (IH (with_bdrv (fun d => (dr_inb 0x1f7 d).2) s) Hn) as (d & E & Ev). cbn [bdrv with_bdrv] in Ev. rewrite inb_view in Ev. by exists d.
Qed.

Lemma readsect_run s dst n :
  0 <= n < 2 ^ 28 -> exists d, readsect dst n s = Done (tt, {| bmem := poke dst (dread (v_disk (dr_view (bdrv s))) 0 n) (bmem s); bdrv := d |}) /\
    v_disk (dr_view d) = v_disk (dr_view (bdrv s)).
Proof.
  intros Hn. destruct (sector_bytes n Hn) as [Hsum Hdev]. unfold readsect. destruct (waitdisk_run s) as (d0 & E0 & V0). rewrite (bind_done _ _ _ _ _ E0).
  set (d1 := dr_outb 0x1f6 (u8 (Z.lor (Z.shiftr n 24) 0xe0)) (dr_outb 0x1f5 (u8 (Z.shiftr n 16)) (dr_outb 0x1f4 (u8 (Z.shiftr n 8))
    (dr_outb 0x1f3 (u8 n) (dr_outb 0x1f2 (u8 1) d0))))).
  assert (v_disk (dr_view d1) = v_disk (dr_view (bdrv s)) /\ file_reg (dr_view d1) 0x1f2 = 1 /\ target (dr_view d1) = (0, n)) as (Hd1 & Hc1 & Ht1).
  { unfold d1. rewrite !outb_file by lia. rewrite V0. unfold target, file_reg. cbn [v_disk v_file]. split_and!; [done|by simplify_map_eq|]. simplify_map_eq. by rewrite Hdev, Hsum. }
  set (d2 := dr_outb 0x1f7 (u8 0x20) d1). pose proof (outb_read d1 Hc1) as V2. change IDE_CMD_READ with (u8 0x20) in V2 at 1. fold d2 in V2. rewrite Hd1, Ht1 in V2.
  destruct (waitdisk_run (with_bdrv (fun _ => d2) s)) as (d3 & E3 & V3). cbn [bdrv with_bdrv] in V3. rewrite V2 in V3.
  exists (dr_insl 0x1f0 (SECTOR_SIZE / 4) d3).2. split; [|by rewrite insl_view, V3].
  unfold boutb, modify. unfold bind at 1 2 3 4 5 6. change (with_bdrv (dr_outb 503 (u8 32)) _) with (with_bdrv (fun _ => d2) s).
  rewrite (bind_done _ _ _ _ _ E3). unfold binsl. do 3 f_equal. cbn [bmem bdrv with_bdrv]. f_equal.
  rewrite (insl_data d3 (0, n)); [by rewrite V3|by rewrite V3|apply Hne].
Qed.

(** ** Segments *)

(** Byte [o] of the kernel, which starts at sector 1, and the end of the
    sectors that are read to fill memory from [pa] to [epa]. *)
Definition kbyte (dk : disk) (o : Z) : Z := nth (Z.to_nat (o mod SECTSIZE)) (dread dk 0 (o / SECTSIZE + 1)) 0.
Definition sectors_end (pa epa : Z) : Z := pa + SECTSIZE * Z.max 0 ((epa - pa + SECTSIZE - 1) / SECTSIZE).
Definition has_disk (dk : disk) s : Prop := v_disk (dr_view (bdrv s)) = dk /\ forall n, length (dread dk 0 n) = Z.to_nat SECTSIZE.

Lemma sectors_end_step pa epa : pa < epa -> sectors_end (pa + SECTSIZE) epa = sectors_end pa epa /\ pa + SECTSIZE <= sectors_end pa epa /\ epa <= sectors_end pa epa.
Proof. intros Hlt. unfold sectors_end. change SECTSIZE with 512. Z.div_mod_to_equations. lia. Qed.
Lemma sectors_end_stop pa epa : epa <= pa -> sectors_end pa epa = pa.
Proof. intros Hle. unfold sectors_end. change SECTSIZE with 512. Z.div_mod_to_equations. lia. Qed.

Lemma readseg_from_run dk fuel s pa epa n :
  has_disk dk s -> 0 <= pa -> epa <= 2 ^ 32 - SECTSIZE -> 1 <= n -> n + (epa - pa) / SECTSIZE + 1 <= 2 ^ 28 -> epa - pa <= SECTSIZE * Z.of_nat fuel ->
  exists s', readseg_from fuel pa epa n s = Done (tt, s') /\ has_disk dk s' /\ forall x, 0 <= x < 2 ^ 32 ->
    bmem s' x = if decide (pa <= x < sectors_end pa epa) then kbyte dk ((n - 1) * SECTSIZE + (x - pa)) else bmem s x.
Proof.
  change SECTSIZE with 512. revert s pa n. induction fuel as [|fuel IH]; intros s pa n [Hdk Hlen] Hpa He Hn Hmax Hf; cbn [readseg_from]; destruct (Z.ltb_spec pa epa) as [Hlt|Hge]; try lia.
  1, 3: exists s; split_and!; [done|done|]; intros x Hx; rewrite decide_False; [done|]; rewrite sectors_end_stop; lia.
  destruct (readsect_run s pa n) as (d & E & Ed); [Z.div_mod_to_equations; lia|]. rewrite (bind_done _ _ _ _ _ E). rewrite Hdk in *. change SECTSIZE with 512.
  rewrite !u32_small by (Z.div_mod_to_equations; wrap_lia). destruct (sectors_end_step pa epa Hlt) as (E1 & E2 & E3). change SECTSIZE with 512 in *.
  destruct (IH {| bmem := poke pa (dread dk 0 n) (bmem s); bdrv := d |} (pa + 512) (n + 1)) as (s' & -> & Hd' & Hm'); [done|lia|done|lia|Z.div_mod_to_equations; lia|lia|].
  exists s'. split_and!; [done|done|]. intros x Hx. rewrite Hm', E1 by done. cbn [bmem]. specialize (Hlen n). change (Z.to_nat SECTSIZE) with 512%nat in Hlen.
  destruct (decide (pa + 512 <= x < sectors_end pa epa)); [rewrite decide_True by lia; f_equal; lia|].
  destruct (decide (pa <= x < pa + 512)).
  - rewrite decide_True by lia. rewrite poke_in by lia. unfold kbyte. change SECTSIZE with 512.
    replace (((n - 1) * 512 + (x - pa)) mod 512) with (x - pa) by (Z.div_mod_to_equations; lia).
    replace (((n - 1) * 512 + (x - pa)) / 512 + 1) with n by (Z.div_mod_to_equations; lia). done.
  - rewrite decide_False by lia. apply poke_out; lia.
Qed.

(** What [readseg] writes: from the address of the start of the first sector to
    the end of the last one. *)
Definition seg_lo (pa off : Z) : Z := pa - off mod SECTSIZE.
Definition seg_fits (pa count off : Z) : Prop :=
  0 <= seg_lo pa off /\ 0 <= count /\ pa + count <= 2 ^ 32 - SECTSIZE /\ 0 <= off /\ off + count <= 2 ^ 32 /\ sectors_end (seg_lo pa off) (pa + count) <= 2 ^ 32.
Lemma readseg_run dk s pa count off :
  has_disk dk s -> seg_fits pa count off ->
  exists s', readseg pa count off s = Done (tt, s') /\ has_disk dk s' /\ forall x, 0 <= x < 2 ^ 32 ->
    bmem s' x = if decide (seg_lo pa off <= x < sectors_end (seg_lo pa off) (pa + count)) then kbyte dk (off + (x - pa)) else bmem s x.
Proof.
  intros Hdk (H1 & H2 & H3 & H4 & H5 & _). unfold readseg. unfold seg_lo in *. change SECTSIZE with 512 in *. pose proof (Z.mod_pos_bound off 512 ltac:(done)) as Hm.
  rewrite !u32_small by (Z.div_mod_to_equations; wrap_lia).
  destruct (readseg_from_run dk (Z.to_nat ((pa + count - (pa - off mod 512)) / 512 + 1)) s (pa - off mod 512) (pa + count) (off / 512 + 1)) as (s' & -> & Hd & Hx); try done.
  - Z.div_mod_to_equations; lia.
  - change SECTSIZE with 512. Z.div_mod_to_equations; lia.
  - change SECTSIZE with 512. Z.div_mod_to_equations; lia.
  - exists s'. split_and!; [done|done|]. intros x Hr. rewrite Hx by done. change SECTSIZE with 512. destruct (decide _); [|done]. f_equal. Z.div_mod_to_equations; lia.
Qed.

(** ** The headers *)

Definition kbytes (dk : disk) (o : Z) (n : nat) : list Z := (fun k => kbyte dk (o + Z.of_nat k)) <$> seq 0 n.
Definition k32 (dk : disk) (o : Z) : Z := get32 (kbytes dk o 4) 0.
Definition k16 (dk : disk) (o : Z) : Z := get16 (kbytes dk o 2) 0.
(** The page of the headers is in memory. *)
Definition hdr (dk : disk) (mem : Z -> Z) : Prop := forall o, 0 <= o < 4096 -> mem (ELF_SCRATCH + o) = kbyte dk o.

Lemma peek_hdr dk mem o n : hdr dk mem -> 0 <= o -> o + Z.of_nat n <= 4096 -> peek (ELF_SCRATCH + o) n mem = kbytes dk o n.
Proof.
  intros Hh Ho Hn. unfold peek, kbytes. apply list_fmap_ext. intros j k Hk%lookup_seq. rewrite u32_small by (unfold ELF_SCRATCH; wrap_lia).
  rewrite <- Z.add_assoc. apply Hh. lia.
Qed.
Lemma peek32_hdr dk mem o : hdr dk mem -> 0 <= o -> o + 4 <= 4096 -> peek32 (ELF_SCRATCH + o) mem = k32 dk o.
Proof. intros Hh Ho Hn. unfold peek32, k32. by rewrite (peek_hdr dk) by (done || lia). Qed.

(** A program header, and the memory of its segment. *)
Record seg := { sg_off : Z; sg_paddr : Z; sg_filesz : Z; sg_memsz : Z }.
Definition phdr (dk : disk) (k : nat) : seg :=
  let o := k32 dk 28 + 32 * Z.of_nat k in
  {| sg_off := k32 dk (o + 4); sg_paddr := k32 dk (o + 12); sg_filesz := k32 dk (o + 16); sg_memsz := k32 dk (o + 20) |}.
Definition phnum (dk : disk) : nat := Z.to_nat (k16 dk 44).
Definition sg_end (g : seg) : Z := sg_paddr g + Z.max (sg_filesz g) (sg_memsz g).
Definition seg_loaded (dk : disk) (g : seg) (mem : Z -> Z) : Prop :=
  (forall x, sg_paddr g <= x < sg_paddr g + sg_filesz g -> mem x = kbyte dk (sg_off g + (x - sg_paddr g))) /\
  (forall x, sg_paddr g + sg_filesz g <= x < sg_paddr g + sg_memsz g -> mem x = 0).

(** A kernel the loader can load: the headers are in the first page, the
    segments lie above it and in increasing order, each with the sector it
    starts in. *)
Record loadable (dk : disk) : Prop := {
  ld_magic : k32 dk 0 = BOOT_MAGIC;
  ld_phoff : 0 <= k32 dk 28;
  ld_phnum : 0 <= k16 dk 44 /\ k32 dk 28 + 32 * k16 dk 44 <= 4096;
  ld_fits k : (k < phnum dk)%nat -> let g := phdr dk k in
    seg_fits (sg_paddr g) (sg_filesz g) (sg_off g) /\ sg_end g <= 2 ^ 32 /\ ELF_SCRATCH + 4096 <= seg_lo (sg_paddr g) (sg_off g);
  ld_order j k : (j < k < phnum dk)%nat -> sg_end (phdr dk j) <= seg_lo (sg_paddr (phdr dk k)) (sg_off (phdr dk k))
}.

(** One segment: what is below it stays. *)
Lemma load_seg_run dk s ph g :
  has_disk dk s -> seg_fits (sg_paddr g) (sg_filesz g) (sg_off g) -> sg_end g <= 2 ^ 32 -> ELF_SCRATCH + 4096 <= seg_lo (sg_paddr g) (sg_off g) ->
  hdr dk (bmem s) -> 0 <= ph -> ph + 24 <= 4096 ->
  g = {| sg_off := k32 dk (ph + 4); sg_paddr := k32 dk (ph + 12); sg_filesz := k32 dk (ph + 16); sg_memsz := k32 dk (ph + 20) |} ->
  exists s', (let! m := gets bmem in
        let pa := peek32 (u32 (ELF_SCRATCH + ph + 12)) m in
        readseg pa (peek32 (u32 (ELF_SCRATCH + ph + 16)) m) (peek32 (u32 (ELF_SCRATCH + ph + 4)) m);;;
        let! m := gets bmem in
        let filesz := peek32 (u32 (ELF_SCRATCH + ph + 16)) m in
        let memsz := peek32 (u32 (ELF_SCRATCH + ph + 20)) m in
        (if filesz <? memsz then store (u32 (pa + filesz)) (replicate (Z.to_nat (memsz - filesz)) 0) else ret tt)) s = Done (tt, s') /\
    has_disk dk s' /\ seg_loaded dk g (bmem s') /\ forall x, 0 <= x < seg_lo (sg_paddr g) (sg_off g) -> bmem s' x = bmem s x.
Proof.
  intros Hd Hfit Hend Hlo Hh Hph Hpl Eg. assert (forall o, u32 (ELF_SCRATCH + ph + o) = u32 (ELF_SCRATCH + (ph + o))) as Ea by (intros o; f_equal; lia).
  assert (forall o, 0 <= o <= 20 -> u32 (ELF_SCRATCH + (ph + o)) = ELF_SCRATCH + (ph + o)) as Eu by (intros o Ho; apply u32_small; unfold ELF_SCRATCH; wrap_lia).
  rewrite (bind_done _ _ s (bmem s) s) by done. cbn zeta. rewrite !Ea, !Eu by lia. rewrite !(peek32_hdr dk (bmem s)) by (done || lia).
  assert (k32 dk (ph + 12) = sg_paddr g /\ k32 dk (ph + 16) = sg_filesz g /\ k32 dk (ph + 4) = sg_off g /\ k32 dk (ph + 20) = sg_memsz g) as (-> & E16 & -> & E20) by (by rewrite Eg).
  rewrite E16. destruct (readseg_run dk s _ _ _ Hd Hfit) as (s1 & E1 & Hd1 & Hm1). rewrite (bind_done _ _ _ _ _ E1). rewrite (bind_done _ _ s1 (bmem s1) s1) by done.
  pose proof Hfit as (F1 & F2 & F3 & F4 & F5 & F6). unfold sg_end in Hend.
  assert (hdr dk (bmem s1)) as Hh1. { intros o Ho. rewrite Hm1 by (unfold ELF_SCRATCH; lia). rewrite decide_False by lia. by apply Hh. }
  cbn zeta. rewrite !(peek32_hdr dk (bmem s1)) by (done || lia). rewrite E16, E20.
  assert (0 <= sg_off g mod SECTSIZE) as Hmod by (apply Z.mod_pos_bound; done). unfold seg_lo in F1, Hlo |- *.
  assert (forall x, sg_paddr g <= x < sg_paddr g + sg_filesz g -> bmem s1 x = kbyte dk (sg_off g + (x - sg_paddr g))) as Hfile.
  { intros x Hx. rewrite Hm1 by (change SECTSIZE with 512 in *; lia). rewrite decide_True; [done|]. unfold seg_lo.
    destruct (sectors_end_step (sg_paddr g - sg_off g mod SECTSIZE) (sg_paddr g + sg_filesz g)) as (_ & _ & He); lia. }
  assert (forall x, 0 <= x < sg_paddr g - sg_off g mod SECTSIZE -> bmem s1 x = bmem s x) as Hlow.
  { intros x Hx. rewrite Hm1 by (change SECTSIZE with 512 in *; lia). rewrite decide_False; [done|]. unfold seg_lo. lia. }
  destruct (Z.ltb_spec (sg_filesz g) (sg_memsz g)) as [Hlt|Hge].
  - rewrite u32_small by (change SECTSIZE with 512 in *; wrap_lia). eexists. split; [reflexivity|]. split; [done|]. cbn [bmem].
    assert (Z.of_nat (length (replicate (Z.to_nat (sg_memsz g - sg_filesz g)) 0)) = sg_memsz g - sg_filesz g) as El by (rewrite length_replicate; lia).
    split; [split|]; intros x Hx.
    + rewrite poke_out; [by apply Hfile|lia|lia|lia|lia].
    + rewrite poke_in by lia. rewrite nth_lookup. destruct (replicate _ 0 !! _) eqn:Er; [|done]. by apply lookup_replicate in Er as [-> _].
    + rewrite poke_out; [by apply Hlow|lia|lia|change SECTSIZE with 512 in *; lia|lia].
  - exists s1. split; [done|]. split; [done|]. split; [split; [done|intros x Hx; lia]|done].
Qed.

Lemma load_from_run dk s n k :
  has_disk dk s -> loadable dk -> hdr dk (bmem s) -> (k + n = phnum dk)%nat -> (forall j, (j < k)%nat -> seg_loaded dk (phdr dk j) (bmem s)) ->
  exists s', load_from n (ELF_SCRATCH + (k32 dk 28 + 32 * Z.of_nat k)) (ELF_SCRATCH + (k32 dk 28 + 32 * Z.of_nat (phnum dk))) s = Done (tt, s') /\
    hdr dk (bmem s') /\ forall j, (j < phnum dk)%nat -> seg_loaded dk (phdr dk j) (bmem s').
Proof.
  intros Hd HL. revert s k Hd. induction n as [|n IH]; intros s k Hd Hh Hk Hj; cbn [load_from].
  { replace k with (phnum dk) in * by lia. rewrite Z.ltb_irrefl. by exists s. }
  rewrite (proj2 (Z.ltb_lt _ _)) by lia. pose proof (ld_phoff dk HL) as Hp. pose proof (ld_phnum dk HL) as [Hn0 Hn].
  assert (Z.of_nat (phnum dk) = k16 dk 44) as En by (unfold phnum; lia). destruct (ld_fits dk HL k ltac:(lia)) as (Hfit & Hend & Hlo). cbn zeta in Hfit, Hend, Hlo.
  destruct (load_seg_run dk s (k32 dk 28 + 32 * Z.of_nat k) (phdr dk k) Hd Hfit Hend Hlo Hh) as (s1 & E1 & Hd1 & Hs1 & Hlow); [lia|lia|done|].
  rewrite !Z.add_assoc in *. set (ph := ELF_SCRATCH + k32 dk 28 + 32 * Z.of_nat k) in *.
  assert (forall (X : M (bootst D) unit), (let! m := gets bmem in let pa := peek32 (u32 (ph + 12)) m in
      readseg pa (peek32 (u32 (ph + 16)) m) (peek32 (u32 (ph + 4)) m);;; let! m := gets bmem in
      let filesz := peek32 (u32 (ph + 16)) m in let memsz := peek32 (u32 (ph + 20)) m in
      (if filesz <? memsz then store (u32 (pa + filesz)) (replicate (Z.to_nat (memsz - filesz)) 0) else ret tt);;; X) s = X s1) as Hrun.
  { intros X. revert E1. unfold bind, gets. destruct (readseg _ _ _ s) as [[[] s0]| | |]; [|done..]. destruct (_ <? _); by intros [= <-]. }
  rewrite Hrun. rewrite (u32_small (ph + 32)) by (unfold ph, ELF_SCRATCH; wrap_lia).
  destruct (IH s1 (S k) Hd1) as (s2 & E2 & Hh2 & Hs2).
  - intros o Ho. rewrite Hlow by (unfold ELF_SCRATCH in *; lia). by apply Hh.
  - lia.
  - intros j Hjk. destruct (decide (j = k)) as [->|]; [done|]. pose proof (ld_order dk HL j k ltac:(lia)) as Hord. destruct (ld_fits dk HL j ltac:(lia)) as ((F1 & Fc & _) & _ & _). cbn zeta in F1, Fc.
    assert (0 <= sg_off (phdr dk j) mod SECTSIZE) by (apply Z.mod_pos_bound; done). unfold sg_end in Hord. unfold seg_lo in F1.
    destruct (Hj j ltac:(lia)) as [S1 S2]. split; intros x Hx; rewrite Hlow by lia; [by apply S1|by apply S2].
  - exists s2. rewrite ?Z.add_assoc in E2. replace (ph + 32) with (ELF_SCRATCH + k32 dk 28 + 32 * Z.of_nat (S k)) by (unfold ph; lia). done.
Qed.

(** The boot loader returns the entry point of a kernel it can load, with each
    segment in memory: its bytes of the file, and zeros up to its size in memory. *)
Theorem bootmain_loads dk s :
  has_disk dk s -> loadable dk ->
  exists s', bootmain s = Done (Some (k32 dk 24), s') /\ forall k, (k < phnum dk)%nat -> seg_loaded dk (phdr dk k) (bmem s').
Proof.
  intros Hd HL. pose proof (ld_phoff dk HL) as Hp. pose proof (ld_phnum dk HL) as [Hn0 Hn].
  destruct (readseg_run dk s ELF_SCRATCH 4096 0 Hd) as (s1 & E1 & Hd1 & Hm1); [by repeat split; vm_compute|]. unfold bootmain. rewrite (bind_done _ _ _ _ _ E1).
  assert (hdr dk (bmem s1)) as Hh.
  { intros o Ho. rewrite Hm1 by (unfold ELF_SCRATCH; lia). change (sectors_end (seg_lo ELF_SCRATCH 0) (ELF_SCRATCH + 4096)) with (ELF_SCRATCH + 4096).
    change (seg_lo ELF_SCRATCH 0) with ELF_SCRATCH. rewrite decide_True by lia. f_equal. lia. }
  rewrite (bind_done _ _ s1 (bmem s1) s1) by done.
  assert (peek32 ELF_SCRATCH (bmem s1) = k32 dk 0 /\ peek32 (ELF_SCRATCH + 28) (bmem s1) = k32 dk 28 /\ peek16 (ELF_SCRATCH + 44) (bmem s1) = k16 dk 44) as (-> & -> & ->).
  { split_and!; [rewrite <- (Z.add_0_r ELF_SCRATCH)|..]; unfold peek32, peek16, k32, k16; by rewrite (peek_hdr dk). }
  rewrite (ld_magic dk HL). cbn [negb]. rewrite Z.eqb_refl. cbn [negb]. cbn zeta. rewrite !u32_small by (unfold ELF_SCRATCH; wrap_lia).
  destruct (load_from_run dk s1 (phnum dk) 0 Hd1 HL Hh eq_refl) as (s2 & E2 & Hh2 & Hs2); [intros j Hj; lia|].
  assert (Z.of_nat (phnum dk) = k16 dk 44) as En by (unfold phnum; lia). rewrite En in E2. cbn [Z.of_nat] in E2. rewrite Z.mul_0_r, Z.add_0_r, Z.add_assoc in E2.
  change (Z.to_nat (k16 dk 44)) with (phnum dk). rewrite (bind_done _ _ _ _ _ E2). rewrite (bind_done _ _ s2 (bmem s2) s2) by done.
  exists s2. split; [|done]. unfold ret. do 3 f_equal. by apply peek32_hdr.
Qed.
End laws.

(** ** A small kernel *)

(** One segment of six bytes at offset 512 of the file, for address 0x100000,
    ten bytes long in memory. *)
Definition demo_header : list Z :=
  splice (splice zero_block 0 (le_split 4 BOOT_MAGIC ++ replicate 20 0 ++ le_split 4 0x10000c ++ le_split 4 52)) 44 (le_split 2 1).
Definition demo_kernel : disk := list_to_map [
  ((0, 1), splice demo_header 52 (mjoin (le_split 4 <$> [1; 512; 0x80100000; 0x100000; 6; 10; 7; 4096])));
  ((0, 2), splice (replicate 512 9) 0 [1; 2; 3; 4; 5; 6])
].
Definition demo_boot : bootst (ata (fun _ => false)) :=
  {| bmem := fun _ => 7; bdrv := {| at_view := {| v_disk := demo_kernel; v_file := ∅; v_cmd := None; v_irq := false |}; at_polls := 1 |} |}.
Lemma demo_disk : has_disk demo_kernel demo_boot.
Proof.
  split; [done|]. intros n. unfold dread. destruct (decide (n = 1)) as [->|]; [done|]. destruct (decide (n = 2)) as [->|]; [done|].
  assert (demo_kernel !! (0, n) = None) as ->; [|done]. unfold demo_kernel. apply not_elem_of_list_to_map_1. cbn. set_solver.
Qed.
Lemma demo_loadable : loadable demo_kernel.
Proof.
  split; [by vm_compute..| |].
  - intros [|k] Hk; [repeat split; by vm_compute|]. exfalso. apply Nat.ltb_lt in Hk. by vm_compute in Hk.
  - intros j k [Hj Hk]. exfalso. apply Nat.ltb_lt in Hk. destruct k as [|[|k]]; [lia|by vm_compute in Hk..].
Qed.
(** The kernel is loaded and called; the byte after it is from its sector. *)
Lemma demo_boots :
  (fun r => match r with Done (e, s') => (e, peek 0xfffff 13 (bmem s')) | _ => (None, []) end) (bootmain demo_boot) =
  (Some 0x10000c, [7; 1; 2; 3; 4; 5; 6; 0; 0; 0; 0; 9; 9]).
Proof. by vm_compute. Qed.
