(* ===== verification/Log.v ===== *)
(** * Log: the redo log (log.c)

    The log on disk is a header block at [start], with a count and the home
    block numbers, and the logged blocks after it. The in-memory log is a
    record beside the buffer cache. [log.lock] makes the critical sections
    atomic; [begin_op] is one pass of its loop. *)

From stdpp Require Import base list numbers gmap strings.
From S2P Require Import Prelude Bytes Params Sleeplock Bio.

Local Open Scope Z_scope.
Local Open Scope os_scope.

(** ** The super block (fs.h, [readsb] of fs.c) *)

Record superblock := {
  sb_size : Z; sb_nblocks : Z; sb_ninodes : Z; sb_nlog : Z; sb_logstart : Z;
  sb_inodestart : Z; sb_bmapstart : Z
}.

Definition sb_of (d : list Z) : superblock :=
  {| sb_size := get32 d 0; sb_nblocks := get32 d 4; sb_ninodes := get32 d 8;
     sb_nlog := get32 d 12; sb_logstart := get32 d 16; sb_inodestart := get32 d 20;
     sb_bmapstart := get32 d 24 |}.

Definition readsb (dev : Z) : M bio superblock :=
  let! bp := bread dev 1 in
  let! b := get_buf bp in
  brelse bp;;;
  ret (sb_of (b_data b)).

(** ** The log *)

Record log := {
  lg_bio : bio;
  l_start : Z; l_size : Z; l_outstanding : Z; l_committing : bool; l_dev : Z;
  lh_n : Z; lh_block : list Z
}.

Definition set_bio (b : bio) (s : log) : log :=
  {| lg_bio := b; l_start := l_start s; l_size := l_size s; l_outstanding := l_outstanding s;
     l_committing := l_committing s; l_dev := l_dev s; lh_n := lh_n s; lh_block := lh_block s |}.
Definition set_outstanding (z : Z) (s : log) : log :=
  {| lg_bio := lg_bio s; l_start := l_start s; l_size := l_size s; l_outstanding := z;
     l_committing := l_committing s; l_dev := l_dev s; lh_n := lh_n s; lh_block := lh_block s |}.
Definition set_committing (c : bool) (s : log) : log :=
  {| lg_bio := lg_bio s; l_start := l_start s; l_size := l_size s; l_outstanding := l_outstanding s;
     l_committing := c; l_dev := l_dev s; lh_n := lh_n s; lh_block := lh_block s |}.
Definition set_lh (n : Z) (bs : list Z) (s : log) : log :=
  {| lg_bio := lg_bio s; l_start := l_start s; l_size := l_size s; l_outstanding := l_outstanding s;
     l_committing := l_committing s; l_dev := l_dev s; lh_n := n; lh_block := bs |}.

Definition onbio {A} (c : M bio A) : M log A := zoom lg_bio set_bio c.

(** [log.lh.block[i]], read and written. *)
Definition get_lh (i : Z) : M log Z := fun s =>
  match lh_block s !! Z.to_nat i with Some b => Done (b, s) | None => Fault end.
Definition put_lh (i b : Z) : M log unit := fun s =>
  if (0 <=? i) && (i <? LOGSIZE) then Done (tt, set_lh (lh_n s) (<[Z.to_nat i := b]> (lh_block s)) s)
  else Fault.

(** [dst->data] gets the contents of [src->data]. *)
Definition copy_data (dst src : nat) : M bio unit :=
  let! b := get_buf src in upd_buf dst (set_b_data (b_data b)).

(** One round of [install_trans] and of [write_log]. *)
Definition install_one (tail : Z) : M log unit :=
  let! st := gets l_start in
  let! dv := gets l_dev in
  let! lbuf := onbio (bread dv (u32 (st + tail + 1))) in
  let! home := get_lh tail in
  let! dbuf := onbio (bread dv (u32 home)) in
  onbio (copy_data dbuf lbuf;;;
         bwrite dbuf;;;
         brelse lbuf;;;
         brelse dbuf).

Definition install_trans : M log unit :=
  let! n := gets lh_n in for_loop (Z.to_nat n) 0 install_one.

(** The fields of the header block. *)
Definition hd_n (d : list Z) : Z := i32 (get32 d 0).
Definition hd_block (d : list Z) (i : Z) : Z := i32 (get32 d (Z.to_nat (4 + 4 * i))).

Definition read_head : M log unit :=
  let! st := gets l_start in
  let! dv := gets l_dev in
  let! bp := onbio (bread dv (u32 st)) in
  let! b := onbio (get_buf bp) in
  modify (fun s => set_lh (hd_n (b_data b)) (lh_block s) s);;;
  for_loop (Z.to_nat (hd_n (b_data b))) 0 (fun i => put_lh i (hd_block (b_data b) i));;;
  onbio (brelse bp).

(** The header block with the count [n] and the block numbers [bs]. *)
Fixpoint hd_fill (d : list Z) (i : nat) (bs : list Z) : list Z :=
  match bs with
  | [] => d
  | b :: bs => hd_fill (put32 d (4 + 4 * i) (u32 b)) (S i) bs
  end.
Definition hd_write (d : list Z) (n : Z) (bs : list Z) : list Z :=
  hd_fill (put32 d 0 (u32 n)) 0 bs.

Definition write_head : M log unit :=
  let! st := gets l_start in
  let! dv := gets l_dev in
  let! bp := onbio (bread dv (u32 st)) in
  let! n := gets lh_n in
  let! blocks := gets lh_block in
  if Z.of_nat (length blocks) <? n then fault
  else
    onbio (upd_buf bp (fun b => set_b_data (hd_write (b_data b) n (take (Z.to_nat n) blocks)) b);;;
           bwrite bp;;;
           brelse bp).

Definition recover_from_log : M log unit :=
  read_head;;;
  install_trans;;;
  modify (fun s => set_lh 0 (lh_block s) s);;;
  write_head.

Definition initlog (dv : Z) : M log unit :=
  if BSIZE <=? 4 + 4 * LOGSIZE then panic "initlog: too big logheader"
  else
    let! sb := onbio (readsb dv) in
    modify (fun s =>
      {| lg_bio := lg_bio s; l_start := i32 (sb_logstart sb); l_size := i32 (sb_nlog sb);
         l_outstanding := l_outstanding s; l_committing := l_committing s; l_dev := dv;
         lh_n := lh_n s; lh_block := lh_block s |});;;
    recover_from_log.

Definition begin_op : M log unit :=
  let! c := gets l_committing in
  let! n := gets lh_n in
  let! o := gets l_outstanding in
  if c then asleep
  else if LOGSIZE <? n + (o + 1) * MAXOPBLOCKS then asleep
  else modify (set_outstanding (o + 1)).

Definition write_log_one (tail : Z) : M log unit :=
  let! st := gets l_start in
  let! dv := gets l_dev in
  let! to := onbio (bread dv (u32 (st + tail + 1))) in
  let! home := get_lh tail in
  let! from := onbio (bread dv (u32 home)) in
  onbio (copy_data to from;;;
         bwrite to;;;
         brelse from;;;
         brelse to).

Definition write_log : M log unit :=
  let! n := gets lh_n in for_loop (Z.to_nat n) 0 write_log_one.

Definition commit : M log unit :=
  let! n := gets lh_n in
  if 0 <? n then
    write_log;;;
    write_head;;;
    install_trans;;;
    modify (fun s => set_lh 0 (lh_block s) s);;;
    write_head
  else ret tt.

Definition end_op : M log unit :=
  let! o := gets l_outstanding in
  modify (set_outstanding (o - 1));;;
  let! c := gets l_committing in
  if c then panic "log.committing"
  else if o - 1 =? 0 then
    modify (set_committing true);;;
    commit;;;
    modify (set_committing false)
  else ret tt.

(** The first of the [n] entries that is block [b], or [n]. *)
Fixpoint log_slot (bs : list Z) (n : nat) (b : Z) : nat :=
  match n, bs with
  | S n, x :: bs => if u32 x =? b then O else S (log_slot bs n b)
  | _, _ => O
  end.

Definition log_write (i : nat) : M log unit :=
  let! n := gets lh_n in
  let! sz := gets l_size in
  let! o := gets l_outstanding in
  if (LOGSIZE <=? n) || (sz - 1 <=? n) then panic "too big a transaction"
  else if o <? 1 then panic "log_write outside of trans"
  else
    let! b := onbio (get_buf i) in
    let! bs := gets lh_block in
    let slot := Z.of_nat (log_slot bs (Z.to_nat n) (b_blockno b)) in
    put_lh slot (i32 (b_blockno b));;;
    (if slot =? n then modify (fun s => set_lh (n + 1) (lh_block s) s) else ret tt);;;
    onbio (upd_buf i (fun b => set_b_flags (Z.lor (b_flags b) B_DIRTY) b)).

(** ** Running the operations *)

Lemma wp_onbio {A} (c : M bio A) Q s :
  wp (onbio c) Q s <-> wp c (fun a b => Q a (set_bio b s)) (lg_bio s).
Proof. apply wp_zoom. Qed.

#[export] Hint Rewrite @wp_onbio : wp.

(** A computation that returns a known result. *)
Lemma wp_get_lh i b s (Q : Z -> log -> Prop) :
  lh_block s !! Z.to_nat i = Some b -> Q b s -> wp (get_lh i) Q s.
Proof. intros Hb HQ. eapply wp_intro; [|exact HQ]. unfold get_lh. by rewrite Hb. Qed.

Lemma set_bio_twice b b' s : set_bio b' (set_bio b s) = set_bio b' s.
Proof. done. Qed.

Lemma lg_bio_set_bio b s : lg_bio (set_bio b s) = b.
Proof. done. Qed.

(** A cached block that no one holds and that is not pinned is what the disk
    has. *)
Lemma clean_view D v s blk :
  cache ∅ D v s -> blk ∉ D -> v blk = dread (hdisk s) ROOTDEV blk.
Proof.
  intros Hc Hnd. rewrite <- (c_view _ _ _ _ Hc). unfold view.
  destruct (key_cases (bufs s) blk) as [(i & b & Hi & Hk)|Hm]; [|by apply viewd_miss].
  rewrite (viewd_hit _ _ i b) by (done || apply Hc). unfold content.
  destruct (inv_buf _ _ (c_inv _ _ _ _ Hc) i b Hi) as ([->|[Hf|Hf]] & _); [done| |].
  - rewrite Hf. cbn. rewrite (inv_coh _ _ (c_inv _ _ _ _ Hc) i b Hi); [|set_solver|done].
    by apply is_key_spec in Hk as [-> ->].
  - destruct (c_dirty _ _ _ _ Hc i b Hi Hf) as (blk' & Hin & Hk').
    destruct Hnd. by rewrite (is_key_inj blk' blk b).
Qed.

Lemma cache_block H D v s blk : cache H D v s -> block (v blk).
Proof. intros Hc. rewrite <- (c_view _ _ _ _ Hc). eapply view_block, Hc. Qed.

(** Copy block [src] over block [dst] and write it, with both buffers read in
    either order: the effect of a round of [write_log] or [install_trans] on
    the cache. *)
Definition copied (D : gset Z) (v : Z -> list Z) (dst src : Z) (s s' : bio) : Prop :=
  cache ∅ (D ∖ {[dst]}) (fupd v dst (v src)) s' /\
  hdisk s' = <[(ROOTDEV, dst) := v src]> (hdisk s) /\
  hwrites s' = hwrites s ++ [((ROOTDEV, dst), v src)] /\ me s' = me s.

(** With the buffers of two blocks held: the copy, the write, the releases. *)
Lemma copy_tail H D v s i j src dst (k1 k2 : nat) :
  cache H D v s -> H = <[j := (dst, false)]> {[i := (src, false)]} -> i <> j ->
  src <> dst -> dst < FSSIZE ->
  (k1 = i /\ k2 = j \/ k1 = j /\ k2 = i) ->
  wp (copy_data j i;;; bwrite j;;; brelse k1;;; brelse k2)
     (fun _ s' => copied D v dst src s s') s.
Proof.
  intros Hc -> Hij Hne Hlt Hk. unfold copy_data. wp_run.
  set (H := <[j := (dst, false)]> {[i := (src, false)]}) in *.
  assert (H !! i = Some (src, false)) as Hi
    by (unfold H; rewrite lookup_insert_ne, lookup_singleton_eq by done; done).
  assert (H !! j = Some (dst, false)) as Hj by (unfold H; by rewrite lookup_insert_eq).
  eapply wp_mono; [by eapply get_buf_law|]. intros b ? (-> & Hb & _). wp_run.
  eapply wp_mono; [eapply set_data_law; [done..|]|]. { rewrite Hb. by eapply cache_block. }
  intros [] s1 [Hc1 (Hd1 & Hw1 & Hm1)]. rewrite Hb in Hc1. wp_run.
  eapply wp_mono; [eapply bwrite_law; [done|by rewrite lookup_insert_eq|done]|].
  intros [] s2 (Hc2 & Hd2 & Hw2 & Hm2). wp_run.
  rewrite insert_insert_eq in Hc2.
  assert (fupd v dst (v src) dst = v src) as Hv by (unfold fupd; by rewrite bool_decide_eq_true_2).
  rewrite Hv in Hd2, Hw2.
  assert (exists b1 b2, <[j := (dst, false)]> H !! k1 = Some (b1, false) /\
    delete k1 (<[j := (dst, false)]> H) !! k2 = Some (b2, false) /\
    delete k2 (delete k1 (<[j := (dst, false)]> H)) = ∅) as (b1 & b2 & H1 & H2 & H3).
  { unfold H. rewrite insert_insert_eq. fold H. destruct Hk as [[-> ->]|[-> ->]].
    - exists src, dst. split; [done|]. split; [by rewrite lookup_delete_ne|].
      unfold H. rewrite delete_insert_ne by done. rewrite delete_singleton_eq.
      by rewrite delete_insert_id.
    - exists dst, src. split; [done|]. split; [by rewrite lookup_delete_ne|].
      unfold H. rewrite delete_insert_id by (by rewrite lookup_singleton_ne).
      by rewrite delete_singleton_eq. }
  eapply wp_mono; [by eapply brelse_law|]. intros [] s3 [Hc3 (Hd3 & Hw3 & Hm3)]. wp_run.
  eapply wp_mono; [by eapply brelse_law|]. intros [] s4 [Hc4 (Hd4 & Hw4 & Hm4)].
  rewrite H3 in Hc4. split_and!; [done|congruence..].
Qed.

(** ** The geometry of the log *)

Record geometry (st nlog : Z) : Prop := {
  geo_start : 1 < st;
  geo_nlog : 1 <= nlog <= LOGSIZE;
  geo_end : st + nlog <= FSSIZE
}.

Definition in_log (st nlog blk : Z) : Prop := st <= blk < st + nlog.

(** The blocks the file system logs: none of the boot block, the super block
    and the log. *)
Definition home_ok (st nlog blk : Z) : Prop := 1 < blk < FSSIZE /\ ~ in_log st nlog blk.

(** The in-memory log holds the transaction [L]. *)
Record log_at (st nlog : Z) (L : list Z) (s : log) : Prop := {
  la_start : l_start s = st;
  la_size : l_size s = nlog;
  la_dev : l_dev s = ROOTDEV;
  la_n : lh_n s = Z.of_nat (length L);
  la_len : length (lh_block s) = Z.to_nat LOGSIZE;
  la_blocks : take (length L) (lh_block s) = L
}.

Lemma insert_singleton_comm {A} (i j : nat) (x y : A) :
  i <> j -> <[j := y]> {[i := x]} = <[i := x]> ({[j := y]} : gmap nat A).
Proof. intros. rewrite <- !insert_empty. by rewrite insert_insert_ne. Qed.

(** From [s] to [s'] the disk did the writes [ws]. *)
Definition wrote (ws : list (Z * Z * list Z)) (s s' : bio) : Prop :=
  hdisk s' = dwrites ws (hdisk s) /\ hwrites s' = hwrites s ++ ws /\ me s' = me s.

Lemma dwrites_app ws ws' d : dwrites (ws ++ ws') d = dwrites ws' (dwrites ws d).
Proof. unfold dwrites. apply fold_left_app. Qed.

Lemma wrote_nil s s' : same_disk s s' -> wrote [] s s'.
Proof. intros (? & ? & ?). split_and!; cbn; [done|by rewrite app_nil_r|done]. Qed.

Lemma wrote_app ws ws' s1 s2 s3 :
  wrote ws s1 s2 -> wrote ws' s2 s3 -> wrote (ws ++ ws') s1 s3.
Proof.
  intros (Hd & Hw & Hm) (Hd' & Hw' & Hm'). split_and!; [|by rewrite app_assoc, <- Hw|congruence].
  by rewrite dwrites_app, <- Hd.
Qed.

Lemma copied_wrote D v dst src s s' :
  copied D v dst src s s' -> wrote [((ROOTDEV, dst), v src)] s s'.
Proof. intros (_ & ? & ? & ?). by split_and!. Qed.

Lemma wrote_take_S ws k w s s1 s2 :
  ws !! k = Some w -> wrote (take k ws) s s1 -> wrote [w] s1 s2 -> wrote (take (S k) ws) s s2.
Proof. intros Hw H1 H2. rewrite (take_S_r _ _ w) by done. by eapply wrote_app. Qed.

Section running.
Context (st nlog : Z) (Hgeo : geometry st nlog).

Lemma log_at_set_bio L s b : log_at st nlog L s -> log_at st nlog L (set_bio b s).
Proof. intros []. by split. Qed.

Lemma log_at_lookup L s j home :
  log_at st nlog L s -> L !! j = Some home -> lh_block s !! j = Some home.
Proof.
  intros [] Hj. rewrite <- la_blocks0 in Hj. apply lookup_take_Some in Hj. tauto.
Qed.

(** The transactions in progress. *)
Definition same_ops (s s' : log) : Prop :=
  l_outstanding s' = l_outstanding s /\ l_committing s' = l_committing s.

(** The two reads at the start of a round. *)
Lemma read_two D v s x y :
  cache ∅ D v s -> x < FSSIZE -> y < FSSIZE -> x <> y ->
  x ∈ D \/ Z.of_nat (size D) < NBUF -> y ∈ D \/ Z.of_nat (size D) + 1 < NBUF ->
  wp (bread ROOTDEV x) (fun i => wp (bread ROOTDEV y) (fun j s' =>
    i <> j /\ cache (<[j := (y, false)]> {[i := (x, false)]}) D v s' /\ same_disk s s')) s.
Proof.
  intros Hc Hx Hy Hne Hrx Hry.
  eapply wp_mono; [eapply bread_law; [done..| |]|].
  { intros i m. by rewrite lookup_empty. } { by rewrite map_size_empty. }
  intros i s1 (_ & Hc1 & Hd1 & Hw1 & Hm1). cbn beta.
  eapply wp_mono; [eapply bread_law; [done..| |]|].
  - intros j m Hj. apply lookup_insert_Some in Hj as [[_ [= -> _]]|[_ Hj]]; [done|].
    by rewrite lookup_empty in Hj.
  - rewrite insert_empty, map_size_singleton. destruct Hry; [by left|right; lia].
  - intros j s2 (Hj & Hc2 & Hd2 & Hw2 & Hm2). split_and!; [|done|split_and!; congruence].
    intros ->. by rewrite lookup_insert_eq in Hj.
Qed.

Lemma log_block_u32 L s j :
  log_at st nlog L s -> Z.of_nat (length L) < nlog -> (j < length L)%nat ->
  u32 (st + Z.of_nat j + 1) = st + 1 + Z.of_nat j.
Proof. intros [] ? ?. destruct Hgeo. unfold FSSIZE in *. wrap_lia. Qed.

Lemma home_u32 home : home_ok st nlog home -> u32 home = home.
Proof. intros [? _]. unfold FSSIZE in *. wrap_lia. Qed.

Lemma log_block_facts j home L :
  Z.of_nat (length L) < nlog -> L !! j = Some home -> home_ok st nlog home ->
  st + 1 + Z.of_nat j <> home /\ home < FSSIZE /\ st + 1 + Z.of_nat j < FSSIZE.
Proof.
  intros Hlen Hj%lookup_lt_Some [? Hnot]. destruct Hgeo. unfold in_log in Hnot. lia.
Qed.

Lemma copied_same D v dst src s0 s s' :
  same_disk s0 s -> copied D v dst src s s' -> copied D v dst src s0 s'.
Proof.
  unfold copied. intros (Hd & Hw & Hm) (? & Hd' & Hw' & Hm').
  rewrite Hd in Hd'. rewrite Hw in Hw'. split_and!; congruence.
Qed.

Lemma write_log_one_wp D v L s j home :
  cache ∅ D v (lg_bio s) -> log_at st nlog L s -> Z.of_nat (length L) < nlog ->
  L !! j = Some home -> home_ok st nlog home -> home ∈ D -> Z.of_nat (size D) < NBUF ->
  wp (write_log_one (Z.of_nat j)) (fun _ s' =>
    exists b, s' = set_bio b s /\ copied D v (st + 1 + Z.of_nat j) home (lg_bio s) b) s.
Proof.
  intros Hc Hl Hlen Hj Hhome Hin Hsz.
  destruct (log_block_facts j home L) as (Hne & Hh1 & Hl1); [done..|].
  unfold write_log_one. wp_run. rewrite (la_start _ _ _ _ Hl), (la_dev _ _ _ _ Hl).
  rewrite (log_block_u32 L s j) by (try done; by eapply lookup_lt_Some).
  eapply wp_mono; [apply (read_two D v _ _ home); auto|]. intros i b Hr. wp_run.
  apply (wp_get_lh _ home). { rewrite Nat2Z.id. by apply (log_at_lookup L s). }
  rewrite home_u32 by done. wp_run.
  eapply wp_mono; [exact Hr|]. clear Hr. intros j' b' (Hij & Hc' & Hsame).
  apply <- @wp_onbio. cbn [lg_bio set_bio].
  eapply wp_mono; [eapply (copy_tail _ D v b' j' i home (st + 1 + Z.of_nat j)); try done|].
  - by apply insert_singleton_comm.
  - by left.
  - intros [] b2 Hcp. exists b2. split; [done|]. by eapply copied_same.
Qed.

Lemma install_one_wp D v L s j home :
  cache ∅ D v (lg_bio s) -> log_at st nlog L s -> Z.of_nat (length L) < nlog ->
  L !! j = Some home -> home_ok st nlog home ->
  Z.of_nat (size D) < NBUF -> home ∈ D \/ Z.of_nat (size D) + 1 < NBUF ->
  wp (install_one (Z.of_nat j)) (fun _ s' =>
    exists b, s' = set_bio b s /\ copied D v home (st + 1 + Z.of_nat j) (lg_bio s) b) s.
Proof.
  intros Hc Hl Hlen Hj Hhome Hsz Hin.
  destruct (log_block_facts j home L) as (Hne & Hh1 & Hl1); [done..|].
  unfold install_one. wp_run. rewrite (la_start _ _ _ _ Hl), (la_dev _ _ _ _ Hl).
  rewrite (log_block_u32 L s j) by (try done; by eapply lookup_lt_Some).
  eapply wp_mono; [apply (read_two D v _ _ home); auto|]. intros i b Hr. wp_run.
  apply (wp_get_lh _ home). { rewrite Nat2Z.id. by apply (log_at_lookup L s). }
  rewrite home_u32 by done. wp_run.
  eapply wp_mono; [exact Hr|]. clear Hr. intros j' b' (Hij & Hc' & Hsame).
  apply <- @wp_onbio. cbn [lg_bio set_bio].
  eapply wp_mono; [eapply (copy_tail _ D v b' i j' (st + 1 + Z.of_nat j) home); try done|].
  - by left.
  - intros [] b2 Hcp. exists b2. split; [done|]. by eapply copied_same.
Qed.

(** The writes of [write_log] and of [install_trans]. *)
Definition log_ws (v : Z -> list Z) (L : list Z) : list (Z * Z * list Z) :=
  imap (fun t home => ((ROOTDEV, st + 1 + Z.of_nat t), v home)) L.
Definition install_ws (v : Z -> list Z) (L : list Z) : list (Z * Z * list Z) :=
  imap (fun t home => ((ROOTDEV, home), v (st + 1 + Z.of_nat t))) L.

(** Outside the blocks of the log after the header. *)
Definition agree_off_log (v v' : Z -> list Z) : Prop :=
  forall x, ~ (st < x < st + nlog) -> v' x = v x.

Lemma size_list_to_set_le (L : list Z) : (size (list_to_set L : gset Z) <= length L)%nat.
Proof.
  apply submseteq_length, NoDup_submseteq; [apply NoDup_elements|]. set_solver.
Qed.

Lemma pinned_fit L :
  Z.of_nat (length L) < nlog -> Z.of_nat (size (list_to_set L : gset Z)) < NBUF.
Proof.
  intros. pose proof (size_list_to_set_le L). destruct Hgeo. unfold NBUF, LOGSIZE in *. lia.
Qed.

Lemma in_log_not_home L x :
  Forall (home_ok st nlog) L -> in_log st nlog x -> x ∉ (list_to_set L : gset Z).
Proof.
  rewrite Forall_forall. intros HL Hx Hin%elem_of_list_to_set. by apply HL in Hin as [_ ?].
Qed.

Lemma write_log_wp v L s :
  cache ∅ (list_to_set L) v (lg_bio s) -> log_at st nlog L s ->
  Z.of_nat (length L) < nlog -> Forall (home_ok st nlog) L ->
  wp write_log (fun _ s' => exists b v', s' = set_bio b s /\
    cache ∅ (list_to_set L) v' b /\ wrote (log_ws v L) (lg_bio s) b /\
    agree_off_log v v' /\
    forall t home, L !! t = Some home -> v' (st + 1 + Z.of_nat t) = v home) s.
Proof.
  intros Hc Hl Hlen Hhomes. unfold write_log. wp_run. rewrite (la_n _ _ _ _ Hl), Nat2Z.id.
  set (D := list_to_set L : gset Z) in *.
  set (I := fun (j : Z) (s' : log) => exists k b v', j = Z.of_nat k /\ s' = set_bio b s /\
    cache ∅ D v' b /\ wrote (take k (log_ws v L)) (lg_bio s) b /\ agree_off_log v v' /\
    forall t home, (t < k)%nat -> L !! t = Some home -> v' (st + 1 + Z.of_nat t) = v home).
  eapply wp_mono; [apply (wp_for I)|].
  - intros ? s1 Hj (k & b & v' & -> & -> & Hc1 & Hw & Hag & Hdone).
    destruct (lookup_lt_is_Some_2 L k) as [home Hk]; [lia|].
    assert (home_ok st nlog home) as Hok by by eapply (Forall_lookup_1 _ _ _ _ Hhomes).
    eapply wp_mono; [apply (write_log_one_wp D v' L _ k home); try done|].
    + by apply log_at_set_bio.
    + apply elem_of_list_to_set. by eapply list_elem_of_lookup_2.
    + by apply pinned_fit.
    + intros [] s2 (b2 & -> & Hcp). exists (S k), b2, (fupd v' (st + 1 + Z.of_nat k) (v' home)).
      assert (v' home = v home) as Hvh.
      { apply Hag. destruct Hok as [_ Hok]. unfold in_log in Hok. lia. }
      split_and!; [lia|done| | | |].
      * destruct Hcp as [Hc2 _]. rewrite difference_disjoint_L in Hc2; [done|].
        enough (st + 1 + Z.of_nat k ∉ D) by set_solver.
        apply in_log_not_home; [done|]. unfold in_log. lia.
      * eapply wrote_take_S; [|exact Hw|].
        -- unfold log_ws. rewrite list_lookup_imap, Hk. done.
        -- rewrite <- Hvh. by eapply copied_wrote.
      * intros x Hx. unfold fupd. rewrite bool_decide_eq_false_2; [by apply Hag|]. lia.
      * intros t home' Ht Hlk. unfold fupd. case_bool_decide as Heq.
        -- replace t with k in Hlk by lia. naive_solver.
        -- apply Hdone; [|done]. destruct (decide (t = k)); [by subst|lia].
  - exists 0%nat, (lg_bio s), v. split_and!; try done; [by destruct s|by apply wrote_nil|lia].
  - intros [] s' (k & b & v' & Hk & -> & Hc1 & Hw & Hag & Hdone).
    exists b, v'. replace k with (length L) in * by lia.
    rewrite take_ge in Hw by (unfold log_ws; by rewrite length_imap).
    split_and!; try done. intros t home Hlk. apply Hdone; [by eapply lookup_lt_Some|done].
Qed.

(** The log holds the contents of the blocks it lists. *)
Definition log_current (v : Z -> list Z) (L : list Z) : Prop :=
  forall t home, L !! t = Some home -> v (st + 1 + Z.of_nat t) = v home.

(** Either the homes are pinned, each once, or nothing is. *)
Definition install_pins (L : list Z) (D : gset Z) : Prop :=
  D = ∅ \/ D = list_to_set L /\ NoDup L.

Lemma install_pins_room L D k home :
  install_pins L D -> L !! k = Some home -> Z.of_nat (length L) < nlog ->
  let D' := D ∖ list_to_set (take k L) in
  Z.of_nat (size D') < NBUF /\ (home ∈ D' \/ Z.of_nat (size D') + 1 < NBUF).
Proof.
  intros [->|[-> Hnd]] Hk Hlen D'.
  - assert (D' = ∅) as -> by set_solver. rewrite size_empty. split; [done|by right].
  - assert (size D' <= size (list_to_set L : gset Z))%nat by (apply subseteq_size; set_solver).
    pose proof (pinned_fit L Hlen). split; [lia|left].
    apply elem_of_difference. split; [by apply elem_of_list_to_set, list_elem_of_lookup_2 with k|].
    rewrite elem_of_list_to_set. intros (j & Hj)%list_elem_of_lookup.
    apply lookup_take_Some in Hj as [Hj Hlt].
    assert (j = k) by by eapply NoDup_lookup. lia.
Qed.

Lemma install_trans_wp v L D s :
  cache ∅ D v (lg_bio s) -> log_at st nlog L s -> install_pins L D ->
  Z.of_nat (length L) < nlog -> Forall (home_ok st nlog) L ->
  wp install_trans (fun _ s' => exists b v', s' = set_bio b s /\
    cache ∅ (D ∖ list_to_set L) v' b /\ wrote (install_ws v L) (lg_bio s) b /\
    (forall x, in_log st nlog x -> v' x = v x) /\
    (log_current v L -> forall x, v' x = v x)) s.
Proof.
  intros Hc Hl Hpin Hlen Hhomes. unfold install_trans. wp_run.
  rewrite (la_n _ _ _ _ Hl), Nat2Z.id.
  set (I := fun (j : Z) (s' : log) => exists k b v', j = Z.of_nat k /\ s' = set_bio b s /\
    cache ∅ (D ∖ list_to_set (take k L)) v' b /\ wrote (take k (install_ws v L)) (lg_bio s) b /\
    (forall x, in_log st nlog x -> v' x = v x) /\
    (log_current v L -> forall x, v' x = v x)).
  eapply wp_mono; [apply (wp_for I)|].
  - intros ? s1 Hj (k & b & v' & -> & -> & Hc1 & Hw & Hag & Hcur).
    destruct (lookup_lt_is_Some_2 L k) as [home Hk]; [lia|].
    assert (home_ok st nlog home) as Hok by by eapply (Forall_lookup_1 _ _ _ _ Hhomes).
    destruct (install_pins_room L D k home) as [Hr1 Hr2]; [done..|].
    eapply wp_mono; [eapply (install_one_wp _ v' L _ k home); try done|].
    + by apply log_at_set_bio.
    + intros [] s2 (b2 & -> & Hcp).
      exists (S k), b2, (fupd v' home (v' (st + 1 + Z.of_nat k))).
      assert (v' (st + 1 + Z.of_nat k) = v (st + 1 + Z.of_nat k)) as Hvl
        by (apply Hag; unfold in_log; lia).
      split_and!; [lia|done| | | |].
      * destruct Hcp as [Hc2 _]. rewrite (take_S_r L _ home) by done.
        replace (D ∖ list_to_set (take k L ++ [home]))
          with ((D ∖ list_to_set (take k L)) ∖ {[home]}) by set_solver. done.
      * eapply wrote_take_S; [|exact Hw|].
        -- unfold install_ws. rewrite list_lookup_imap, Hk. done.
        -- rewrite <- Hvl. by eapply copied_wrote.
      * intros x Hx. unfold fupd. rewrite bool_decide_eq_false_2; [by apply Hag|].
        intros ->. by destruct Hok.
      * intros HL x. unfold fupd. case_bool_decide; [|by apply Hcur].
        subst. rewrite Hvl. by apply HL.
  - exists 0%nat, (lg_bio s), v. split_and!; try done; [by destruct s| |by apply wrote_nil].
    rewrite take_0. replace (D ∖ list_to_set []) with D by set_solver. done.
  - intros [] s' (k & b & v' & Hk & -> & Hc1 & Hw & Hag & Hcur).
    exists b, v'. replace k with (length L) in * by lia. rewrite firstn_all in Hc1.
    rewrite take_ge in Hw by (unfold install_ws; by rewrite length_imap). by split_and!.
Qed.

Lemma length_hd_fill d i bs : length (hd_fill d i bs) = length d.
Proof.
  revert d i. induction bs as [|b bs IH]; intros d i; cbn [hd_fill]; [done|].
  rewrite IH. apply length_put_le.
Qed.

Lemma length_hd_write d n bs : length (hd_write d n bs) = length d.
Proof. unfold hd_write. rewrite length_hd_fill. apply length_put_le. Qed.

(** The header block the disk gets. *)
Lemma write_head_wp v D L s :
  cache ∅ D v (lg_bio s) -> log_at st nlog L s -> Z.of_nat (size D) < NBUF -> st ∉ D ->
  let d := hd_write (v st) (Z.of_nat (length L)) L in
  wp write_head (fun _ s' => exists b, s' = set_bio b s /\
    cache ∅ D (fupd v st d) b /\ wrote [((ROOTDEV, st), d)] (lg_bio s) b) s.
Proof.
  intros Hc Hl Hroom Hst d. unfold write_head. wp_run.
  rewrite (la_start _ _ _ _ Hl), (la_dev _ _ _ _ Hl).
  assert (u32 st = st) as -> by (destruct Hgeo; unfold FSSIZE in *; wrap_lia).
  assert (st < FSSIZE) as Hlt by (destruct Hgeo; lia).
  eapply wp_mono; [eapply bread_law; [done..| |]|].
  { intros i m. by rewrite lookup_empty. } { right. by rewrite map_size_empty. }
  intros i b1 (_ & Hc1 & Hs1). wp_run. cbn [lh_n lh_block set_bio].
  rewrite (la_n _ _ _ _ Hl), (la_len _ _ _ _ Hl), Nat2Z.id, (la_blocks _ _ _ _ Hl).
  destruct (Z.ltb_spec (Z.of_nat (Z.to_nat LOGSIZE)) (Z.of_nat (length L))) as [Hbig|_].
  { exfalso. rewrite <- (la_blocks _ _ _ _ Hl), length_take, (la_len _ _ _ _ Hl) in Hbig. lia. }
  wp_run. cbn [lg_bio set_bio].
  destruct (c_held _ _ _ _ Hc1 i st false) as (b & Hb & _); [by rewrite lookup_insert_eq|].
  destruct (wp_returns _ _ _ (get_buf_law Hc1 i st false ltac:(by rewrite lookup_insert_eq)))
    as (b' & ? & Hget & -> & Hdat & _).
  rewrite (get_buf_run i b) in Hget by done. injection Hget as <-.
  eapply wp_intro; [apply upd_buf_run; exact Hb|].
  cbn beta. rewrite Hdat. fold d.
  assert (block d) as Hblk.
  { unfold block, d. rewrite length_hd_write. by eapply cache_block. }
  destruct (wp_returns _ _ _ (set_data_law Hc1 i st false ltac:(by rewrite lookup_insert_eq) d Hblk))
    as ([] & b2 & Hset & Hc2 & Hs2).
  rewrite (upd_buf_run i _ b) in Hset by done. injection Hset as ->.
  rewrite insert_insert_eq in Hc2. wp_run.
  eapply wp_mono; [eapply bwrite_law; [done|by rewrite lookup_insert_eq|done]|].
  intros [] b3 (Hc3 & Hd3 & Hw3 & Hm3). rewrite insert_insert_eq in Hc3. wp_run.
  eapply wp_mono; [eapply brelse_law; [done|by rewrite lookup_insert_eq|done]|].
  intros [] b4 [Hc4 Hs4]. rewrite delete_insert_id in Hc4 by apply lookup_empty.
  assert (fupd v st d st = d) as Hfd by (unfold fupd; by rewrite bool_decide_eq_true_2).
  rewrite Hfd in Hd3, Hw3. exists b4. split; [done|]. split.
  - by rewrite difference_disjoint_L in Hc4 by set_solver.
  - destruct Hs1 as (? & ? & ?), Hs2 as (? & ? & ?), Hs4 as (? & ? & ?).
    split_and!; cbn; congruence.
Qed.

(** The block numbers of a header block. *)
Definition hd_blocks (d : list Z) : list Z := hd_block d <$> seqZ 0 (hd_n d).

Lemma length_hd_blocks d : length (hd_blocks d) = Z.to_nat (hd_n d).
Proof. unfold hd_blocks. by rewrite length_fmap, length_seqZ. Qed.

(** The loop of [read_head]. *)
Lemma read_blocks_wp d s :
  length (lh_block s) = Z.to_nat LOGSIZE -> hd_n d <= LOGSIZE ->
  wp (for_loop (Z.to_nat (hd_n d)) 0 (fun i => put_lh i (hd_block d i))) (fun _ s' =>
    exists bs, s' = set_lh (lh_n s) bs s /\ length bs = Z.to_nat LOGSIZE /\
      take (length (hd_blocks d)) bs = hd_blocks d) s.
Proof.
  intros Hlen Hn.
  set (I := fun (j : Z) (s' : log) => 0 <= j /\ exists bs, s' = set_lh (lh_n s) bs s /\
    length bs = Z.to_nat LOGSIZE /\ take (Z.to_nat j) bs = hd_block d <$> seqZ 0 j).
  eapply wp_mono; [apply (wp_for I)|].
  - intros j s1 Hj (Hj0 & bs & -> & Hl & Ht). unfold put_lh, wp.
    rewrite (proj2 (Z.leb_le 0 j)), (proj2 (Z.ltb_lt j LOGSIZE)) by lia. cbn [andb].
    split; [lia|]. eexists. split; [reflexivity|]. split; [by rewrite length_insert|].
    replace (Z.to_nat (j + 1)) with (S (Z.to_nat j)) by lia.
    rewrite (take_S_r _ _ (hd_block d j)) by (apply list_lookup_insert_eq; cbn; lia).
    rewrite take_insert_ge by lia. cbn [lh_block set_lh]. rewrite Ht, seqZ_app by lia. rewrite fmap_app. cbn.
    by rewrite Z.add_0_l.
  - split; [done|]. exists (lh_block s). by destruct s.
  - intros [] s' (_ & bs & -> & Hl & Ht). exists bs. split_and!; try done.
    rewrite Z.add_0_l, Nat2Z.id in Ht. rewrite length_hd_blocks, Ht.
    unfold hd_blocks. destruct (Z.le_gt_cases 0 (hd_n d)); [by rewrite Z2Nat.id|].
    by rewrite !seqZ_nil by lia.
Qed.

Lemma read_head_wp v s :
  cache ∅ ∅ v (lg_bio s) -> l_start s = st -> l_size s = nlog -> l_dev s = ROOTDEV ->
  length (lh_block s) = Z.to_nat LOGSIZE -> 0 <= hd_n (v st) <= LOGSIZE ->
  wp read_head (fun _ s' => cache ∅ ∅ v (lg_bio s') /\ same_disk (lg_bio s) (lg_bio s') /\
    log_at st nlog (hd_blocks (v st)) s' /\ same_ops s s') s.
Proof.
  intros Hc Hst Hsz Hdv Hlen Hn. unfold read_head. wp_run. rewrite Hst, Hdv.
  assert (u32 st = st) as -> by (destruct Hgeo; unfold FSSIZE in *; wrap_lia).
  eapply wp_mono; [eapply bread_law; [done|destruct Hgeo; lia| |]|].
  { intros i m. by rewrite lookup_empty. } { by right. }
  intros i b1 (_ & Hc1 & Hs1). wp_run. cbn [lg_bio set_bio].
  eapply wp_mono; [eapply get_buf_law; [done|by rewrite lookup_insert_eq]|].
  intros b ? (-> & Hb & _). wp_run. rewrite Hb.
  eapply wp_mono; [apply read_blocks_wp; [done|lia]|].
  intros [] s2 (bs & -> & Hl2 & Ht). wp_run. cbn [lg_bio set_bio set_lh lh_n lh_block].
  eapply wp_mono; [eapply brelse_law; [done|by rewrite lookup_insert_eq|done]|].
  intros [] b2 [Hc2 Hs2]. rewrite delete_insert_id in Hc2 by apply lookup_empty.
  split_and!; [done| | |].
  - destruct Hs1 as (? & ? & ?), Hs2 as (? & ? & ?). split_and!; cbn; congruence.
  - split; cbn; try done. rewrite length_hd_blocks. lia.
  - done.
Qed.

(** [hd_write] and [hd_n] fit. *)
Lemma get32_hd_fill d i bs off :
  (off + 4 <= 4 + 4 * i)%nat -> get32 (hd_fill d i bs) off = get32 d off.
Proof.
  revert d i. induction bs as [|b bs IH]; intros d i Hoff; cbn [hd_fill]; [done|].
  rewrite IH by lia. apply get_put_le_ne. lia.
Qed.

Lemma hd_n_write d n bs :
  block d -> is_i32 n -> hd_n (hd_write d n bs) = n.
Proof.
  intros Hd Hn. unfold hd_n, hd_write. rewrite get32_hd_fill by lia.
  unfold get32, put32. rewrite get_put_le by (rewrite Hd; unfold BSIZE; lia).
  change (u32 n mod 2 ^ (8 * Z.of_nat 4)) with (u32 (u32 n)).
  rewrite u32_u32, i32_u32. by apply i32_small.
Qed.

Lemma get32_hd_fill_at d i bs k b :
  block d -> bs !! k = Some b -> (4 + 4 * (i + length bs) <= Z.to_nat BSIZE)%nat ->
  get32 (hd_fill d i bs) (4 + 4 * (i + k)) = u32 b.
Proof.
  revert d i k. induction bs as [|c bs IH]; intros d i k Hd Hk Hlen; [done|].
  cbn [hd_fill length] in *. destruct k as [|k]; cbn in Hk.
  - injection Hk as ->. rewrite get32_hd_fill by lia.
    unfold get32, put32. replace (4 + 4 * (i + 0))%nat with (4 + 4 * i)%nat by lia.
    rewrite get_put_le by (rewrite Hd; lia). apply u32_u32.
  - replace (i + S k)%nat with (S i + k)%nat by lia. apply IH; [|done|lia].
    unfold block, put32. by rewrite length_put_le.
Qed.

(** The header block is read back as it was written. *)
Lemma hd_blocks_write d L :
  block d -> Z.of_nat (length L) <= LOGSIZE -> Forall is_i32 L ->
  hd_blocks (hd_write d (Z.of_nat (length L)) L) = L.
Proof.
  intros Hd HL Hi. unfold LOGSIZE, MAXOPBLOCKS in HL.
  apply list_eq. intros k. unfold hd_blocks. rewrite list_lookup_fmap.
  rewrite hd_n_write by (done || wrap_lia).
  destruct (L !! k) as [b|] eqn:Hk.
  - assert (k < length L)%nat by by eapply lookup_lt_Some.
    rewrite lookup_seqZ_lt by lia. cbn. unfold hd_block, hd_write. f_equal.
    replace (Z.to_nat (4 + 4 * (0 + Z.of_nat k))) with (4 + 4 * (0 + k))%nat by lia.
    rewrite (get32_hd_fill_at _ _ _ _ b); [|by unfold block, put32; rewrite length_put_le|done|].
    + rewrite i32_u32. apply i32_small. by eapply Forall_lookup_1 in Hi.
    + unfold BSIZE. lia.
  - apply lookup_ge_None in Hk. rewrite lookup_seqZ_ge by lia. done.
Qed.

(** ** Commit and recovery *)

Definition commit_ws (v : Z -> list Z) (L : list Z) : list (Z * Z * list Z) :=
  let hd1 := hd_write (v st) (Z.of_nat (length L)) L in
  log_ws v L ++ [((ROOTDEV, st), hd1)]
  ++ imap (fun t home => ((ROOTDEV, home), v home)) L
  ++ [((ROOTDEV, st), hd_write hd1 0 [])].

Lemma commit_wp v L s :
  cache ∅ (list_to_set L) v (lg_bio s) -> log_at st nlog L s -> NoDup L ->
  0 < Z.of_nat (length L) < nlog -> Forall (home_ok st nlog) L ->
  wp commit (fun _ s' => exists b v', s' = set_lh 0 (lh_block s) (set_bio b s) /\
    cache ∅ ∅ v' b /\ wrote (commit_ws v L) (lg_bio s) b /\
    forall x, ~ in_log st nlog x -> v' x = v x) s.
Proof.
  intros Hc Hl Hnd Hlen Hhomes. unfold commit. wp_run.
  rewrite (la_n _ _ _ _ Hl), (proj2 (Z.ltb_lt _ _)) by lia.
  assert (st ∉ (list_to_set L : gset Z)) as Hst.
  { apply in_log_not_home; [done|]. destruct Hgeo. unfold in_log. lia. }
  wp_run. eapply wp_mono; [apply (write_log_wp v L); (done || lia)|].
  intros [] s1 (b1 & v1 & -> & Hc1 & Hw1 & Hag1 & Hlog1). wp_run.
  eapply wp_mono; [eapply write_head_wp; [exact Hc1|by apply log_at_set_bio|apply pinned_fit; lia|done]|].
  intros [] s2 (b2 & -> & Hc2 & Hw2). wp_run.
  set (v2 := fupd v1 st (hd_write (v1 st) (Z.of_nat (length L)) L)) in *.
  eapply wp_mono; [eapply (install_trans_wp v2 L); [exact Hc2|by repeat apply log_at_set_bio| |lia|done]|].
  { by right. }
  intros [] s3 (b3 & v3 & -> & Hc3 & Hw3 & Hag3 & Hcur). wp_run.
  eapply wp_mono; [eapply (write_head_wp v3 _ []); [exact Hc3| | |]|].
  { destruct Hl. by split; cbn. }
  { replace (list_to_set L ∖ list_to_set L : gset Z) with (∅ : gset Z) by set_solver.
    by rewrite size_empty. }
  { set_solver. }
  intros [] s4 (b4 & -> & Hc4 & Hw4). cbn [lg_bio set_bio set_lh] in *.
  assert (v1 st = v st) as Hst1 by (apply Hag1; lia).
  assert (forall x, x <> st -> v2 x = v1 x) as Hv2.
  { intros x Hx. unfold v2, fupd. by rewrite bool_decide_eq_false_2. }
  assert (forall t home, L !! t = Some home ->
    v2 (st + 1 + Z.of_nat t) = v home /\ v2 home = v home) as Hlog2.
  { intros t home Ht. rewrite !Hv2; [|set_solver by (by eapply list_elem_of_lookup_2)|lia].
    split; [by apply Hlog1|]. apply Hag1.
    apply (Forall_lookup_1 _ _ _ _ Hhomes) in Ht as [_ Hn]. unfold in_log in Hn. lia. }
  assert (forall x, v3 x = v2 x) as Hv3.
  { apply Hcur. intros t home Ht. by destruct (Hlog2 t home Ht) as [-> ->]. }
  assert (v2 st = hd_write (v st) (Z.of_nat (length L)) L) as Hv2st.
  { unfold v2, fupd. by rewrite bool_decide_eq_true_2, Hst1. }
  exists b4, (fupd v3 st (hd_write (v3 st) 0 [])). split; [done|]. split; [|split].
  - by replace (list_to_set L ∖ list_to_set L : gset Z) with (∅ : gset Z) in Hc4 by set_solver.
  - rewrite Hv3, Hv2st in Hw4. rewrite Hst1 in Hw2.
    eapply wrote_app; [exact Hw1|]. eapply wrote_app; [exact Hw2|].
    eapply wrote_app; [|exact Hw4].
    replace (imap _ L) with (install_ws v2 L); [done|]. apply imap_ext.
    intros t home Ht. by destruct (Hlog2 t home Ht) as [-> _].
  - intros x Hx. unfold fupd. assert (x <> st) by (intros ->; destruct Hgeo; unfold in_log in Hx; lia).
    rewrite bool_decide_eq_false_2, Hv3, Hv2 by done. apply Hag1. unfold in_log in Hx. lia.
Qed.

(** Recovery installs what the header lists, then erases it. *)
Definition recover_ws (v : Z -> list Z) : list (Z * Z * list Z) :=
  install_ws v (hd_blocks (v st)) ++ [((ROOTDEV, st), hd_write (v st) 0 [])].

Lemma recover_wp v s :
  cache ∅ ∅ v (lg_bio s) -> l_start s = st -> l_size s = nlog -> l_dev s = ROOTDEV ->
  length (lh_block s) = Z.to_nat LOGSIZE -> 0 <= hd_n (v st) < nlog ->
  Forall (home_ok st nlog) (hd_blocks (v st)) ->
  wp recover_from_log (fun _ s' => exists v', cache ∅ ∅ v' (lg_bio s') /\
    wrote (recover_ws v) (lg_bio s) (lg_bio s') /\ log_at st nlog [] s' /\ same_ops s s') s.
Proof.
  intros Hc Hst Hsz Hdv Hlen Hn Hhomes. unfold recover_from_log. wp_run.
  eapply wp_mono; [apply (read_head_wp v); (done || (destruct Hgeo; lia))|].
  intros [] s1 (Hc1 & Hs1 & Hl1 & Hops). wp_run.
  eapply wp_mono; [eapply install_trans_wp; [exact Hc1|exact Hl1|by left| |done]|].
  { rewrite length_hd_blocks. lia. }
  intros [] s2 (b2 & v2 & -> & Hc2 & Hw2 & Hag2 & _). wp_run.
  replace (∅ ∖ _ : gset Z) with (∅ : gset Z) in Hc2 by set_solver.
  assert (log_at st nlog [] (set_lh 0 (lh_block (set_bio b2 s1)) (set_bio b2 s1))) as Hl2.
  { destruct Hl1. by split; cbn. }
  eapply wp_mono; [eapply (write_head_wp v2 _ []); [exact Hc2|exact Hl2|done|set_solver]|].
  intros [] s3 (b3 & -> & Hc3 & Hw3). eexists. split; [exact Hc3|]. split; [|split].
  - assert (v2 st = v st) as Hv by (apply Hag2; destruct Hgeo; unfold in_log; lia).
    rewrite Hv in Hw3. eapply wrote_app; [|exact Hw3].
    rewrite <- (app_nil_l (install_ws _ _)). eapply wrote_app; [by apply wrote_nil|done].
  - by apply log_at_set_bio.
  - done.
Qed.
End running.

(** ** Boot *)

(** The log and the cache as the boot code finds them: the log is in bss. *)
Definition boot (d : disk) (pid : Z) : log :=
  {| lg_bio := binit d true pid; l_start := 0; l_size := 0; l_outstanding := 0;
     l_committing := false; l_dev := 0; lh_n := 0;
     lh_block := replicate (Z.to_nat LOGSIZE) 0 |}.

Definition on_disk (d : disk) : Z -> list Z := fun blk => dread d ROOTDEV blk.

(** A disk with a super block and a log that recovery can read. *)
Record log_disk (st nlog : Z) (d : disk) : Prop := {
  ld_blocks : forall k l, d !! k = Some l -> block l;
  ld_start : sb_logstart (sb_of (on_disk d 1)) = st;
  ld_nlog : sb_nlog (sb_of (on_disk d 1)) = nlog;
  ld_n : 0 <= hd_n (on_disk d st) < nlog;
  ld_homes : Forall (home_ok st nlog) (hd_blocks (on_disk d st))
}.

Lemma readsb_wp v s :
  cache ∅ ∅ v s ->
  wp (readsb ROOTDEV) (fun sb s' => sb = sb_of (v 1) /\ cache ∅ ∅ v s' /\ same_disk s s') s.
Proof.
  intros Hc. unfold readsb. wp_run.
  eapply wp_mono; [eapply bread_law; [done|done| |]|].
  { intros i m. by rewrite lookup_empty. } { by right. }
  intros i s1 (_ & Hc1 & Hs1). wp_run.
  eapply wp_mono; [eapply get_buf_law; [done|by rewrite lookup_insert_eq]|].
  intros b ? (-> & Hb & _). wp_run.
  eapply wp_mono; [eapply brelse_law; [done|by rewrite lookup_insert_eq|done]|].
  intros [] s2 [Hc2 Hs2]. wp_run. rewrite delete_insert_id in Hc2 by apply lookup_empty.
  rewrite Hb. split_and!; [done..|].
  destruct Hs1 as (? & ? & ?), Hs2 as (? & ? & ?). split_and!; congruence.
Qed.

Lemma initlog_wp st nlog d pid :
  geometry st nlog -> log_disk st nlog d ->
  wp (initlog ROOTDEV) (fun _ s' => exists v', cache ∅ ∅ v' (lg_bio s') /\
    wrote (recover_ws st (on_disk d)) (binit d true pid) (lg_bio s') /\
    log_at st nlog [] s' /\ l_outstanding s' = 0 /\ l_committing s' = false) (boot d pid).
Proof.
  intros Hgeo Hd. unfold initlog.
  rewrite (proj2 (Z.leb_gt BSIZE (4 + 4 * LOGSIZE))) by done. wp_run.
  eapply wp_mono; [apply (readsb_wp (on_disk d)), binit_cache; apply Hd|].
  intros sb b (-> & Hc & Hs). wp_run.
  rewrite (ld_start _ _ _ Hd), (ld_nlog _ _ _ Hd).
  assert (i32 st = st /\ i32 nlog = nlog) as [-> ->].
  { destruct Hgeo. unfold LOGSIZE, FSSIZE, MAXOPBLOCKS in *. split; wrap_lia. }
  eapply wp_mono; [apply (recover_wp st nlog Hgeo (on_disk d)); try done; apply Hd|].
  intros [] s' (v' & Hc' & Hw & Hl & Ho & Hcm). exists v'. split_and!; try done.
  rewrite <- (app_nil_l (recover_ws _ _)). eapply wrote_app; [by apply wrote_nil|done].
Qed.

(** ** Transactions *)

(** [begin_op], when the log has room for one more operation. *)
Lemma begin_op_wp s :
  l_committing s = false -> lh_n s + (l_outstanding s + 1) * MAXOPBLOCKS <= LOGSIZE ->
  wp begin_op (fun _ s' => s' = set_outstanding (l_outstanding s + 1) s) s.
Proof.
  intros Hc Hr. unfold begin_op. wp_run. rewrite Hc, (proj2 (Z.ltb_ge _ _)) by done. done.
Qed.

(** A transaction in progress: the blocks of the log are the pinned ones. *)
Record txn (st nlog : Z) (H : gmap nat (Z * bool)) (L : list Z) (v : Z -> list Z) (s : log)
  : Prop := {
  tx_cache : cache H (list_to_set L) v (lg_bio s);
  tx_log : log_at st nlog L s;
  tx_nodup : NoDup L;
  tx_homes : Forall (home_ok st nlog) L;
  tx_open : 1 <= l_outstanding s
}.

Lemma log_slot_in st nlog bs n b :
  Forall (home_ok st nlog) (take n bs) -> home_ok st nlog b -> b ∈ take n bs ->
  (log_slot bs n b < n)%nat /\ bs !! log_slot bs n b = Some b.
Proof.
  revert bs. induction n as [|n IH]; intros [|x bs] HL Hb Hin; cbn in *;
    try by apply elem_of_nil in Hin.
  inversion HL as [|? ? Hx HL']; subst.
  assert (u32 x = x) as -> by (destruct Hx as [? _]; unfold FSSIZE in *; wrap_lia).
  destruct (Z.eqb_spec x b) as [->|Hne]; cbn; [split; [lia|done]|].
  apply elem_of_cons in Hin as [?|Hin]; [congruence|].
  destruct (IH bs) as [? ?]; [done..|]. split; [lia|done].
Qed.

Lemma log_slot_notin st nlog bs n b :
  Forall (home_ok st nlog) (take n bs) -> home_ok st nlog b -> b ∉ take n bs ->
  (n <= length bs)%nat -> log_slot bs n b = n.
Proof.
  revert bs. induction n as [|n IH]; intros [|x bs] HL Hb Hin Hlen; cbn in *; try lia.
  inversion HL as [|? ? Hx HL']; subst.
  assert (u32 x = x) as -> by (destruct Hx as [? _]; unfold FSSIZE in *; wrap_lia).
  apply not_elem_of_cons in Hin as [Hne Hin].
  destruct (Z.eqb_spec x b) as [->|_]; [done|]. f_equal. apply IH; (done || lia).
Qed.

(** The log after block [blk] is written: absorbed, or appended. *)
Definition absorb (L : list Z) (blk : Z) : list Z := if decide (blk ∈ L) then L else L ++ [blk].

Lemma absorb_set L blk : (list_to_set (absorb L blk) : gset Z) = {[blk]} ∪ list_to_set L.
Proof. unfold absorb. case_decide; set_solver. Qed.

Lemma absorb_nodup L blk : NoDup L -> NoDup (absorb L blk).
Proof.
  intros. unfold absorb. case_decide; [done|]. apply NoDup_app. split_and!; [done| |].
  - set_solver.
  - apply NoDup_singleton.
Qed.

Lemma absorb_homes (P : Z -> Prop) L blk : Forall P L -> P blk -> Forall P (absorb L blk).
Proof.
  intros. unfold absorb. case_decide; [done|]. apply Forall_app. split; [done|].
  by constructor.
Qed.

(** Where [log_write] records the block, and the header it leaves. *)
Lemma log_slot_record st nlog L bs blk :
  Forall (home_ok st nlog) L -> home_ok st nlog blk -> take (length L) bs = L ->
  (length L < length bs)%nat ->
  let k := log_slot bs (length L) blk in
  (k <= length L)%nat /\
  (if Z.of_nat k =? Z.of_nat (length L) then Z.of_nat (length L) + 1 else Z.of_nat (length L))
    = Z.of_nat (length (absorb L blk)) /\
  take (length (absorb L blk)) (<[k := i32 blk]> bs) = absorb L blk.
Proof.
  intros HL Hb Ht Hlen k.
  assert (i32 blk = blk) as -> by (destruct Hb as [? _]; unfold FSSIZE in *; wrap_lia).
  unfold absorb. case_decide as Hin.
  - destruct (log_slot_in st nlog bs (length L) blk) as [Hk Hlk]; [by rewrite ?Ht..|].
    fold k in Hk, Hlk. split; [lia|]. rewrite (proj2 (Z.eqb_neq _ _)) by lia. split; [done|].
    by rewrite list_insert_id.
  - assert (k = length L) as ->.
    { apply (log_slot_notin st nlog); [by rewrite Ht|done|by rewrite Ht|lia]. }
    split; [lia|]. rewrite Z.eqb_refl, length_app. split; [cbn; lia|].
    rewrite Nat.add_1_r, (take_S_r _ _ blk) by (by apply list_lookup_insert_eq).
    by rewrite take_insert_ge, Ht by lia.
Qed.

Lemma log_write_law st nlog H L v s i blk m :
  geometry st nlog -> txn st nlog H L v s -> H !! i = Some (blk, m) ->
  home_ok st nlog blk -> Z.of_nat (length L) + 1 < nlog ->
  wp (log_write i) (fun _ s' =>
    txn st nlog (<[i := (blk, false)]> H) (absorb L blk) v s' /\
    same_disk (lg_bio s) (lg_bio s') /\ same_ops s s') s.
Proof.
  intros Hgeo [Hc Hl Hnd Hh Ho] Hi Hblk Hlen. unfold log_write. wp_run.
  pose proof (la_n _ _ _ _ Hl) as Hn. pose proof (la_size _ _ _ _ Hl) as Hsz.
  pose proof (la_len _ _ _ _ Hl) as Hll. pose proof (la_blocks _ _ _ _ Hl) as HL.
  assert (length L < length (lh_block s))%nat as Hroom.
  { destruct Hgeo. unfold LOGSIZE, MAXOPBLOCKS in *. lia. }
  rewrite Hn, Hsz.
  rewrite (proj2 (Z.leb_gt LOGSIZE _)), (proj2 (Z.leb_gt (nlog - 1) _)) by (destruct Hgeo; lia).
  cbn [orb]. rewrite (proj2 (Z.ltb_ge _ 1)) by lia. wp_run.
  eapply wp_mono; [by eapply get_buf_law|]. intros b ? (-> & _ & Hbn & _). wp_run.
  rewrite Hbn, Nat2Z.id. cbn [lh_block set_bio].
  destruct (log_slot_record st nlog L (lh_block s) blk) as (Hk & Hn' & Ht'); [done..|].
  set (k := log_slot (lh_block s) (length L) blk) in *.
  set (s1 := set_lh (Z.of_nat (length (absorb L blk))) (<[k := i32 blk]> (lh_block s)) s).
  assert (wp (put_lh (Z.of_nat k) (i32 blk)) (fun _ s' => s' = set_lh (lh_n s) (lh_block s1) s)
    (set_bio (lg_bio s) s)) as Hput.
  { unfold put_lh, wp. rewrite (proj2 (Z.leb_le 0 _)), (proj2 (Z.ltb_lt _ LOGSIZE)) by lia.
    cbn. by rewrite Nat2Z.id. }
  eapply wp_mono; [exact Hput|]. intros [] ? ->. wp_run.
  assert (wp (if Z.of_nat k =? Z.of_nat (length L)
    then modify (fun s0 => set_lh (Z.of_nat (length L) + 1) (lh_block s0) s0) else ret tt)
    (fun _ s' => s' = s1) (set_lh (lh_n s) (lh_block s1) s)) as Hup.
  { destruct (_ =? _); apply wp_modify || apply wp_ret; unfold s1; rewrite <- Hn'; [done|].
    by rewrite Hn. }
  eapply wp_mono; [exact Hup|]. intros [] ? ->. wp_run.
  eapply wp_mono; [by eapply mark_dirty_law|]. intros [] b1 [Hc1 Hs1]. split; [|done].
  split; cbn; [by rewrite absorb_set| |by apply absorb_nodup|by apply absorb_homes|done].
  destruct Hl. split; cbn; try done. by rewrite length_insert.
Qed.


