(* ===== verification/Crash.v ===== *)
(** * Crash: crash safety of the log (log.c)

    A crash loses the memory and keeps the effect of a prefix of the writes
    the disk was given. After it, [initlog] runs on the disk it finds, and may
    crash in turn. The theorems say what the file system finds in the end. *)

From stdpp Require Import base list numbers gmap strings relations.
From S2P Require Import Prelude Bytes Params Sleeplock Bio Log.

Local Open Scope Z_scope.
Local Open Scope os_scope.

(** One boot that crashes after [k] of the writes of its recovery. *)
Definition crash_step (d d' : disk) : Prop :=
  exists pid k s, initlog ROOTDEV (boot d pid) = Done (tt, s) /\
    d' = dwrites (take k (hwrites (lg_bio s))) d.

(** ** Sequences of disk writes *)

Definition keys (ws : list (Z * Z * list Z)) : list (Z * Z) := ws.*1.

Lemma dwrites_notin ws d k : k ∉ keys ws -> dwrites ws d !! k = d !! k.
Proof.
  revert d. induction ws as [|[k' x] ws IH]; intros d Hk; [done|].
  cbn in Hk. apply not_elem_of_cons in Hk as [Hne Hk].
  change (dwrites ((k', x) :: ws) d) with (dwrites ws (<[k' := x]> d)).
  rewrite IH by done. by rewrite lookup_insert_ne.
Qed.

Lemma dwrites_in ws d d' k : k ∈ keys ws -> dwrites ws d !! k = dwrites ws d' !! k.
Proof.
  revert d d'. induction ws as [|[k' x] ws IH]; intros d d' Hk; [by apply elem_of_nil in Hk|].
  change (dwrites ((k', x) :: ws) d) with (dwrites ws (<[k' := x]> d)).
  change (dwrites ((k', x) :: ws) d') with (dwrites ws (<[k' := x]> d')).
  destruct (decide (k ∈ keys ws)) as [Hin|Hnot]; [by apply IH|].
  apply elem_of_cons in Hk as [->|Hk]; [|done]. cbn [fst].
  rewrite !dwrites_notin by done. by rewrite !lookup_insert_eq.
Qed.

Lemma keys_take k ws x : x ∈ keys (take k ws) -> x ∈ keys ws.
Proof.
  intros Hin. rewrite <- (take_drop k ws). unfold keys. rewrite fmap_app.
  apply elem_of_app. by left.
Qed.

Lemma dwrites_same ws d k y :
  k ∈ keys ws -> (forall w, w ∈ ws -> w.1 = k -> w.2 = y) -> dwrites ws d !! k = Some y.
Proof.
  revert d. induction ws as [|[k' x] ws IH]; intros d Hk Hy; [by apply elem_of_nil in Hk|].
  change (dwrites ((k', x) :: ws) d) with (dwrites ws (<[k' := x]> d)).
  destruct (decide (k ∈ keys ws)) as [Hin|Hnot].
  - apply IH; [done|]. intros w Hw. apply Hy. by constructor.
  - apply elem_of_cons in Hk as [->|Hk]; [|done]. cbn [fst].
    rewrite dwrites_notin by done. rewrite lookup_insert_eq.
    f_equal. apply (Hy (k', x)); [constructor|done].
Qed.

(** Writes done again have no further effect. *)
Lemma dwrites_redo ws k d x :
  dwrites ws (dwrites (take k ws) d) !! x = dwrites ws d !! x.
Proof.
  destruct (decide (x ∈ keys ws)) as [Hin|Hnot]; [by apply dwrites_in|].
  rewrite !(dwrites_notin ws) by done. apply dwrites_notin.
  intros Hin. apply Hnot. by eapply keys_take.
Qed.

Lemma dwrites_blocks ws d :
  (forall k l, d !! k = Some l -> block l) -> Forall (fun w => block w.2) ws ->
  forall k l, dwrites ws d !! k = Some l -> block l.
Proof.
  intros Hd Hws. revert d Hd. induction Hws as [|[k' x] ws Hx Hws IH]; intros d Hd; [done|].
  apply (IH (<[k' := x]> d)). intros k l. rewrite lookup_insert_Some.
  intros [[_ <-]|[_ ?]]; [done|by eapply Hd].
Qed.

(** ** The contents a disk stands for *)

Section crash.
Context (st nlog : Z) (Hgeo : geometry st nlog).

(** The writes with which [install_trans] installs what the log of [d] has. *)
Definition installs (d : disk) : list (Z * Z * list Z) :=
  install_ws st (on_disk d) (hd_blocks (on_disk d st)).

(** The disk [d] stands for the contents [f]: those after recovery. *)
Definition stands (d : disk) (f : Z -> list Z) : Prop :=
  log_disk st nlog d /\
  forall x, ~ in_log st nlog x -> on_disk (dwrites (installs d) d) x = f x.

Lemma installs_keys d x :
  log_disk st nlog d -> (ROOTDEV, x) ∈ keys (installs d) -> home_ok st nlog x.
Proof.
  intros Hd (w & Heq & Hw)%list_elem_of_fmap. apply elem_of_lookup_imap in Hw as (t & h & -> & Ht).
  injection Heq as ->. by eapply Forall_lookup_1 in Ht; [|apply Hd].
Qed.

(** Writes to home blocks leave the super block and the log alone. *)
Lemma off_home d ws x :
  (forall y, (ROOTDEV, y) ∈ keys ws -> home_ok st nlog y) ->
  x = 1 \/ in_log st nlog x -> on_disk (dwrites ws d) x = on_disk d x.
Proof.
  intros Hws Hx. unfold on_disk, dread. rewrite dwrites_notin; [done|].
  intros Hin%Hws. destruct Hin as [? Hn]. destruct Hx as [->|]; [lia|done].
Qed.

Lemma home_writes_log_disk d ws :
  log_disk st nlog d -> (forall y, (ROOTDEV, y) ∈ keys ws -> home_ok st nlog y) ->
  Forall (fun w => block w.2) ws -> log_disk st nlog (dwrites ws d).
Proof.
  intros Hd Hws Hb.
  assert (in_log st nlog st) by (destruct Hgeo; unfold in_log; lia).
  assert (on_disk (dwrites ws d) 1 = on_disk d 1) as E1 by (apply off_home; auto).
  assert (on_disk (dwrites ws d) st = on_disk d st) as E2 by (apply off_home; auto).
  destruct Hd. split; rewrite ?E1, ?E2; try done. by apply dwrites_blocks.
Qed.

Lemma home_writes_installs d ws :
  log_disk st nlog d -> (forall y, (ROOTDEV, y) ∈ keys ws -> home_ok st nlog y) ->
  installs (dwrites ws d) = installs d.
Proof.
  intros Hd Hws. unfold installs.
  rewrite (off_home d ws st); [|done|right; destruct Hgeo; unfold in_log; lia].
  apply imap_ext. intros t h Ht%lookup_lt_Some. f_equal. apply off_home; [done|right].
  rewrite length_hd_blocks in Ht. destruct (ld_n _ _ _ Hd). unfold in_log. lia.
Qed.

Lemma on_disk_block d x : log_disk st nlog d -> block (on_disk d x).
Proof.
  intros Hd. unfold on_disk, dread. destruct (d !! (ROOTDEV, x)) eqn:Hx; cbn.
  - by eapply Hd.
  - apply block_zero.
Qed.

Lemma installs_blocks d : log_disk st nlog d -> Forall (fun w => block w.2) (installs d).
Proof.
  intros Hd. apply Forall_forall. intros w (t & h & -> & _)%elem_of_lookup_imap.
  by apply on_disk_block.
Qed.

Lemma on_disk_insert_ne d x y l : x <> y -> on_disk (dwrites [((ROOTDEV, x), l)] d) y = on_disk d y.
Proof.
  intros. unfold on_disk, dread. rewrite dwrites_notin; [done|].
  cbn. intros Hin%list_elem_of_singleton. congruence.
Qed.

Lemma on_disk_insert d x l : on_disk (dwrites [((ROOTDEV, x), l)] d) x = l.
Proof. unfold on_disk, dread. cbn. by rewrite lookup_insert_eq. Qed.

(** An erased header: nothing to install. *)
Lemma empty_log d f :
  log_disk st nlog d -> hd_n (on_disk d st) = 0 ->
  (forall x, ~ in_log st nlog x -> on_disk d x = f x) -> stands d f.
Proof.
  intros Hd Hn Hf. split; [done|]. unfold installs.
  assert (hd_blocks (on_disk d st) = []) as -> by (unfold hd_blocks; by rewrite Hn). done.
Qed.

Lemma erase_stands d f h :
  log_disk st nlog d -> block h -> hd_n h = 0 ->
  (forall x, ~ in_log st nlog x -> on_disk d x = f x) ->
  stands (dwrites [((ROOTDEV, st), h)] d) f.
Proof.
  intros Hd Hh Hn Hf. apply empty_log.
  - assert (hd_blocks h = []) as Hb by (unfold hd_blocks; by rewrite Hn).
    destruct Hgeo, Hd. split; rewrite ?on_disk_insert, ?on_disk_insert_ne by lia; try done.
    + apply dwrites_blocks; [done|]. by constructor.
    + lia.
    + by rewrite Hb.
  - by rewrite on_disk_insert.
  - intros x Hx. rewrite on_disk_insert_ne; [by apply Hf|].
    intros ->. apply Hx. destruct Hgeo. unfold in_log. lia.
Qed.

(** A crash in recovery loses nothing. *)
Lemma stands_recovering d f k :
  stands d f -> stands (dwrites (take k (recover_ws st (on_disk d))) d) f.
Proof.
  intros [Hd Hf]. unfold recover_ws. fold (installs d).
  assert (forall j y, (ROOTDEV, y) ∈ keys (take j (installs d)) -> home_ok st nlog y) as Hk.
  { intros j y Hin%keys_take. by eapply installs_keys. }
  destruct (le_lt_dec k (length (installs d))) as [Hle|Hgt].
  - rewrite take_app_le by done. split.
    + apply home_writes_log_disk; [done|by apply Hk|]. by apply Forall_take, installs_blocks.
    + intros x Hx. rewrite home_writes_installs by (done || by apply Hk).
      rewrite <- Hf by done. unfold on_disk, dread. by rewrite dwrites_redo.
  - rewrite take_ge by (rewrite length_app; cbn; lia). rewrite dwrites_app.
    apply erase_stands; [| | |done].
    + apply home_writes_log_disk; [done| |by apply installs_blocks].
      intros y. by apply installs_keys.
    + unfold block. rewrite length_hd_write. by apply on_disk_block.
    + apply hd_n_write; [by apply on_disk_block|done].
Qed.

(** A full recovery leaves the contents the disk stands for. *)
Lemma stands_recovered d f pid :
  stands d f ->
  exists s, initlog ROOTDEV (boot d pid) = Done (tt, s) /\
    hwrites (lg_bio s) = recover_ws st (on_disk d) /\
    hdisk (lg_bio s) = dwrites (recover_ws st (on_disk d)) d /\
    forall x, ~ in_log st nlog x -> on_disk (hdisk (lg_bio s)) x = f x.
Proof.
  intros Hs. destruct (wp_returns _ _ _ (initlog_wp st nlog d pid Hgeo (proj1 Hs)))
    as ([] & s & Hrun & v' & _ & (Hd & Hw & _) & _).
  exists s. split_and!; [done..|]. intros x Hx. rewrite Hd. cbn [hdisk binit].
  unfold recover_ws. rewrite dwrites_app, on_disk_insert_ne; [by apply Hs|].
  intros ->. apply Hx. destruct Hgeo. unfold in_log. lia.
Qed.

Lemma stands_crashes d d' f : stands d f -> rtc crash_step d d' -> stands d' f.
Proof.
  intros Hs Hr. induction Hr as [|d d1 d2 (pid & k & s & Hrun & ->) _ IH]; [done|].
  apply IH. destruct (stands_recovered d f pid Hs) as (s' & Hrun' & Hw & _).
  rewrite Hrun in Hrun'. injection Hrun' as <-. rewrite Hw. by apply stands_recovering.
Qed.

(** ** Commit *)

Section commit.
Context (v : Z -> list Z) (L : list Z) (d : disk).
Context (Hd : log_disk st nlog d) (Hempty : hd_n (on_disk d st) = 0).
Context (Hhomes : Forall (home_ok st nlog) L) (Hnd : NoDup L).
Context (Hlen : Z.of_nat (length L) < nlog) (Hv : forall x, block (v x)).
Context (Hclean : forall x, ~ in_log st nlog x -> x ∉ L -> v x = on_disk d x).

(** Before the header is written, the old contents stand. *)
Lemma logging_stands k : stands (dwrites (take k (log_ws st v L)) d) (on_disk d).
Proof.
  assert (forall x, ~ (st < x < st + nlog) ->
    on_disk (dwrites (take k (log_ws st v L)) d) x = on_disk d x) as Hsame.
  { intros x Hx. unfold on_disk, dread. rewrite dwrites_notin; [done|].
    intros (w & Heq & Hw)%keys_take%list_elem_of_fmap.
    apply elem_of_lookup_imap in Hw as (t & h & -> & Ht%lookup_lt_Some).
    injection Heq as ->. lia. }
  apply empty_log; rewrite ?Hsame by lia; [|done|].
  - destruct Hgeo, Hd. split; rewrite ?Hsame by lia; try done.
    apply dwrites_blocks; [done|]. apply Forall_take, Forall_forall.
    intros w (t & h & -> & _)%elem_of_lookup_imap. apply Hv.
  - intros x Hx. apply Hsame. unfold in_log in Hx. lia.
Qed.

(** The header of the transaction, and the disk once it is written. *)
Definition commit_hd : list Z := hd_write (v st) (Z.of_nat (length L)) L.
Definition commit_point : disk := dwrites (log_ws st v L ++ [((ROOTDEV, st), commit_hd)]) d.

Lemma commit_hd_blocks : hd_blocks commit_hd = L /\ hd_n commit_hd = Z.of_nat (length L).
Proof.
  unfold commit_hd. destruct Hgeo. unfold LOGSIZE, MAXOPBLOCKS in *. split.
  - apply hd_blocks_write; [by apply Hv|unfold LOGSIZE, MAXOPBLOCKS; lia|].
    eapply Forall_impl; [exact Hhomes|]. intros x [? _]. unfold FSSIZE in *. wrap_lia.
  - apply hd_n_write; [by apply Hv|wrap_lia].
Qed.

Lemma commit_point_hd : on_disk commit_point st = commit_hd.
Proof. unfold commit_point. by rewrite dwrites_app, on_disk_insert. Qed.

Lemma commit_point_log t home :
  L !! t = Some home -> on_disk commit_point (st + 1 + Z.of_nat t) = v home.
Proof.
  intros Ht. unfold commit_point. rewrite dwrites_app, on_disk_insert_ne by lia.
  unfold on_disk, dread. erewrite dwrites_same; [done| |].
  - apply list_elem_of_fmap. exists ((ROOTDEV, st + 1 + Z.of_nat t), v home). split; [done|].
    apply elem_of_lookup_imap. eauto.
  - intros w (t' & h' & -> & Ht')%elem_of_lookup_imap Heq. cbn in *.
    injection Heq as Heq. replace t' with t in Ht' by lia. naive_solver.
Qed.

Lemma commit_point_off x :
  ~ (st <= x < st + nlog) -> on_disk commit_point x = on_disk d x.
Proof.
  intros Hx. unfold commit_point. rewrite dwrites_app.
  rewrite on_disk_insert_ne by (destruct Hgeo; lia).
  unfold on_disk, dread. rewrite dwrites_notin; [done|].
  intros (w & Heq & Hw)%list_elem_of_fmap.
  apply elem_of_lookup_imap in Hw as (t & h & -> & Ht%lookup_lt_Some).
  injection Heq as ->. destruct Hgeo. lia.
Qed.

Lemma commit_point_log_disk : log_disk st nlog commit_point.
Proof.
  destruct commit_hd_blocks as [Hb Hn].
  split; rewrite ?commit_point_hd, ?Hb, ?Hn; try done; try lia.
  - apply dwrites_blocks; [apply Hd|]. apply Forall_app. split.
    + apply Forall_forall. intros w (t & h & -> & _)%elem_of_lookup_imap. apply Hv.
    + constructor; [|done]. unfold block, commit_hd. cbn. rewrite length_hd_write. apply Hv.
  - rewrite commit_point_off by (destruct Hgeo; lia). apply Hd.
  - rewrite commit_point_off by (destruct Hgeo; lia). apply Hd.
Qed.

Lemma commit_point_installs :
  installs commit_point = imap (fun _ home => ((ROOTDEV, home), v home)) L.
Proof.
  unfold installs. rewrite commit_point_hd, (proj1 commit_hd_blocks).
  apply imap_ext. intros t h Ht. by rewrite (commit_point_log t h).
Qed.

(** Once the header is written, the new contents stand. *)
Lemma commit_point_stands : stands commit_point v.
Proof.
  split; [apply commit_point_log_disk|]. intros x Hx. rewrite commit_point_installs.
  destruct (decide (x ∈ L)) as [Hin|Hnot].
  - unfold on_disk, dread. erewrite dwrites_same; [done| |].
    + apply list_elem_of_fmap. exists ((ROOTDEV, x), v x). split; [done|].
      apply list_elem_of_lookup in Hin as [t Ht]. apply elem_of_lookup_imap. eauto.
    + intros w (t & h & -> & _)%elem_of_lookup_imap. cbn. by intros [= ->].
  - rewrite Hclean by done. rewrite <- (commit_point_off x) by done.
    unfold on_disk, dread. rewrite dwrites_notin; [done|].
    intros (w & Heq & Hw)%list_elem_of_fmap.
    apply elem_of_lookup_imap in Hw as (t & h & -> & Ht). injection Heq as ->.
    by apply Hnot, list_elem_of_lookup_2 with t.
Qed.

(** Every prefix of the writes of [commit]. *)
Lemma committing_stands k :
  stands (dwrites (take k (commit_ws st v L)) d)
    (if decide (k <= length L)%nat then on_disk d else v).
Proof.
  assert (length (log_ws st v L) = length L) as Hl by apply length_imap.
  unfold commit_ws. case_decide as Hk.
  - rewrite take_app_le by lia. apply logging_stands.
  - fold commit_hd. rewrite app_assoc, take_app_ge by (rewrite length_app, Hl; cbn; lia).
    rewrite dwrites_app. fold commit_point.
    replace (imap _ L ++ _) with (recover_ws st (on_disk commit_point)).
    + apply stands_recovering, commit_point_stands.
    + unfold recover_ws. fold (installs commit_point).
      by rewrite commit_point_installs, commit_point_hd.
Qed.
End commit.
End crash.

(** Property C1: [commit] is atomic under crashes. It returns, and its writes
    are such that a crash after any number [k] of them, followed by any number
    of boots that crash during recovery and by one that does not, leaves every
    block outside the log with its contents from before the transaction when
    the crash came before the header was written ([k] at most the number of
    logged blocks), and with its contents in the transaction otherwise. *)
Theorem commit_crash_atomic st nlog L v s :
  geometry st nlog -> cache ∅ (list_to_set L) v (lg_bio s) -> log_at st nlog L s ->
  NoDup L -> 0 < Z.of_nat (length L) < nlog -> Forall (home_ok st nlog) L ->
  log_disk st nlog (hdisk (lg_bio s)) -> hd_n (on_disk (hdisk (lg_bio s)) st) = 0 ->
  exists s' ws, commit s = Done (tt, s') /\
    hwrites (lg_bio s') = hwrites (lg_bio s) ++ ws /\
    forall k d pid, rtc crash_step (dwrites (take k ws) (hdisk (lg_bio s))) d ->
    exists s2, initlog ROOTDEV (boot d pid) = Done (tt, s2) /\
      forall x, ~ in_log st nlog x ->
        on_disk (hdisk (lg_bio s2)) x
        = (if decide (k <= length L)%nat then on_disk (hdisk (lg_bio s)) x else v x).
Proof.
  intros Hgeo Hc Hl Hnd Hlen Hhomes Hd Hn.
  destruct (wp_returns _ _ _ (commit_wp st nlog Hgeo v L s Hc Hl Hnd Hlen Hhomes))
    as ([] & s' & Hrun & b & v' & -> & _ & (_ & Hw & _) & _).
  eexists _, (commit_ws st v L). split; [exact Hrun|]. split; [done|].
  intros k d pid Hcr.
  assert (forall x, x ∉ L -> v x = on_disk (hdisk (lg_bio s)) x) as Hclean.
  { intros x Hx. eapply clean_view; [exact Hc|]. by rewrite elem_of_list_to_set. }
  assert (st ∉ L) as Hst.
  { intros Hin. eapply Forall_forall in Hhomes as [_ []]; [|exact Hin].
    destruct Hgeo. unfold in_log. lia. }
  eapply stands_crashes in Hcr; [|done|apply committing_stands; try done; try lia].
  - destruct (stands_recovered st nlog Hgeo d _ pid Hcr) as (s2 & Hrun2 & _ & _ & Hx).
    exists s2. split; [done|]. intros x Hout. rewrite Hx by done. by case_decide.
  - intros x. by eapply cache_block.
  - intros x _. apply Hclean.
Qed.

(** ** A transaction that writes one block *)

Definition demo_sb : list Z := put32 (put32 zero_block 12 30) 16 2.
Definition demo_disk : disk := {[ (ROOTDEV, 1) := demo_sb ]}.
Definition demo_block : list Z := replicate (Z.to_nat BSIZE) 7.

Definition demo_prog : M log unit :=
  initlog ROOTDEV;;;
  begin_op;;;
  let! bp := onbio (bread ROOTDEV 50) in
  onbio (upd_buf bp (set_b_data demo_block));;;
  log_write bp;;;
  onbio (brelse bp).

Lemma demo_geometry : geometry 2 30.
Proof. by split. Qed.

Lemma demo_stands : stands 2 30 demo_disk (on_disk demo_disk).
Proof.
  apply empty_log; [|by vm_compute|done]. split; try by vm_compute.
  - unfold demo_disk. intros k l [_ <-]%lookup_singleton_Some. by vm_compute.
Qed.

Lemma demo_run :
  wp demo_prog (fun _ s => txn 2 30 ∅ [50] (view (lg_bio s)) s /\
    log_disk 2 30 (hdisk (lg_bio s)) /\ hd_n (on_disk (hdisk (lg_bio s)) 2) = 0)
    (boot demo_disk 1).
Proof.
  unfold demo_prog. wp_run.
  eapply wp_mono; [apply (initlog_wp 2 30), demo_stands; apply demo_geometry|].
  intros [] s1 (v & Hc1 & (Hd1 & _) & Hl1 & Ho & Hcm). cbn [hdisk binit] in Hd1. wp_run.
  assert (stands 2 30 (hdisk (lg_bio s1)) (on_disk demo_disk)) as [Hst _].
  { rewrite Hd1. rewrite <- (take_ge (recover_ws _ _) 2) by (by vm_compute; lia).
    apply stands_recovering; [apply demo_geometry|apply demo_stands]. }
  assert (hd_n (on_disk (hdisk (lg_bio s1)) 2) = 0) as Hn0.
  { rewrite Hd1. by vm_compute. }
  eapply wp_mono; [apply begin_op_wp; [done|by rewrite (la_n _ _ _ _ Hl1), Ho]|].
  intros [] ? ->. wp_run. cbn [lg_bio set_outstanding].
  eapply wp_mono; [eapply bread_law; [done|done| |]|].
  { intros i m. by rewrite lookup_empty. } { by right. }
  intros i b2 (_ & Hc2 & Hs2). wp_run. cbn [lg_bio set_bio].
  eapply wp_mono; [eapply set_data_law; [done|by rewrite lookup_insert_eq|done]|].
  intros [] b3 [Hc3 Hs3]. wp_run. rewrite insert_insert_eq in Hc3.
  eapply wp_mono; [eapply (log_write_law 2 30 _ []); [apply demo_geometry| | | |]|].
  { split; [exact Hc3|destruct Hl1; by split|constructor|constructor|cbn; lia]. }
  { by rewrite lookup_insert_eq. } { split; [done|]. unfold in_log. lia. } { done. }
  intros [] s4 (Ht & Hs4 & _). wp_run. rewrite insert_insert_eq in Ht.
  destruct Ht as [Hc4 Hl4 Hnd4 Hh4 Ho4].
  eapply wp_mono; [eapply brelse_law; [done|by rewrite lookup_insert_eq|done]|].
  intros [] b5 [Hc5 Hs5]. rewrite delete_insert_id in Hc5 by apply lookup_empty.
  assert (hdisk b5 = hdisk (lg_bio s1)) as Hd.
  { destruct Hs5 as [-> _], Hs4 as [-> _]. cbn. by destruct Hs3 as [-> _], Hs2 as [-> _]. }
  cbn [lg_bio set_bio]. rewrite Hd. split; [|done].
  split; [|by apply log_at_set_bio|done|done|done].
  destruct Hc5. by split.
Qed.

Definition demo : log :=
  match demo_prog (boot demo_disk 1) with Done (_, s) => s | _ => boot demo_disk 1 end.

Lemma demo_txn :
  txn 2 30 ∅ [50] (view (lg_bio demo)) demo /\
  log_disk 2 30 (hdisk (lg_bio demo)) /\ hd_n (on_disk (hdisk (lg_bio demo)) 2) = 0.
Proof.
  destruct (wp_returns _ _ _ demo_run) as ([] & s & Hrun & Hs).
  unfold demo. by rewrite Hrun.
Qed.

Lemma commit_crash_atomic_witness :
  exists s' ws, commit demo = Done (tt, s') /\
    hwrites (lg_bio s') = hwrites (lg_bio demo) ++ ws /\
    forall k d pid, rtc crash_step (dwrites (take k ws) (hdisk (lg_bio demo))) d ->
    exists s2, initlog ROOTDEV (boot d pid) = Done (tt, s2) /\
      forall x, ~ in_log 2 30 x ->
        on_disk (hdisk (lg_bio s2)) x
        = (if decide (k <= 1)%nat then on_disk (hdisk (lg_bio demo)) x
           else view (lg_bio demo) x).
Proof.
  destruct demo_txn as ([Hc Hl Hnd Hh _] & Hd & Hn).
  exact (commit_crash_atomic 2 30 [50] (view (lg_bio demo)) demo demo_geometry Hc Hl Hnd
    ltac:(cbn; lia) Hh Hd Hn).
Defined.


(** Property C2: recovery is idempotent. From any disk with a readable log,
    however often the machine crashes while it recovers, a boot that recovers
    to the end leaves every block outside the log as a recovery without a
    crash would have. *)
Theorem recovery_idempotent st nlog d d' pid pid' :
  geometry st nlog -> log_disk st nlog d -> rtc crash_step d d' ->
  exists s s', initlog ROOTDEV (boot d pid) = Done (tt, s) /\
    initlog ROOTDEV (boot d' pid') = Done (tt, s') /\
    forall x, ~ in_log st nlog x ->
      on_disk (hdisk (lg_bio s')) x = on_disk (hdisk (lg_bio s)) x.
Proof.
  intros Hgeo Hd Hr.
  assert (stands st nlog d (on_disk (dwrites (installs st d) d))) as Hs by by split.
  destruct (stands_recovered st nlog Hgeo d _ pid Hs) as (s & Hrun & _ & _ & Hx).
  eapply stands_crashes in Hs; [|done|exact Hr].
  destruct (stands_recovered st nlog Hgeo d' _ pid' Hs) as (s' & Hrun' & _ & _ & Hx').
  exists s, s'. split_and!; [done..|]. intros x Hout. by rewrite Hx, Hx'.
Qed.

Lemma recovery_idempotent_witness :
  exists s s', initlog ROOTDEV (boot demo_disk 1) = Done (tt, s) /\
    initlog ROOTDEV (boot demo_disk 2) = Done (tt, s') /\
    forall x, ~ in_log 2 30 x -> on_disk (hdisk (lg_bio s')) x = on_disk (hdisk (lg_bio s)) x.
Proof.
  exact (recovery_idempotent 2 30 demo_disk demo_disk 1 2 demo_geometry
    (proj1 demo_stands) (rtc_refl crash_step demo_disk)).
Defined.

(** Property C3: [end_op] ends a transaction. The last operation to end
    commits: every block outside the log is on the disk with its contents in
    the transaction, nothing is pinned, the log is empty and [begin_op] may
    proceed; an earlier one only gives its reservation back. *)
Theorem end_op_commits st nlog L v s :
  geometry st nlog -> txn st nlog ∅ L v s -> Z.of_nat (length L) < nlog ->
  l_committing s = false ->
  wp end_op (fun _ s' => l_outstanding s' = l_outstanding s - 1 /\ l_committing s' = false /\
    if l_outstanding s =? 1 then
      (exists v', cache ∅ ∅ v' (lg_bio s')) /\ lh_n s' = 0 /\
      forall x, ~ in_log st nlog x -> on_disk (hdisk (lg_bio s')) x = v x
    else lg_bio s' = lg_bio s /\ lh_n s' = lh_n s /\ lh_block s' = lh_block s) s.
Proof.
  intros Hgeo [Hc Hl Hnd Hh Ho] Hlen Hcm. unfold end_op. wp_run.
  cbn [l_committing set_outstanding]. rewrite Hcm.
  destruct (Z.eqb_spec (l_outstanding s) 1) as [H1|H1].
  - rewrite H1, Z.eqb_refl. wp_run. destruct L as [|x L].
    { unfold commit. wp_run. cbn [lh_n set_committing set_outstanding].
      rewrite (la_n _ _ _ _ Hl). cbn. wp_run. split_and!; try done; [by eexists|apply Hl|].
      intros y _. symmetry. by eapply clean_view. }
    eapply wp_mono; [eapply (commit_wp st nlog Hgeo v (x :: L)); try done|].
    { destruct Hl. by split. }
    intros [] s' (b & v' & -> & Hc' & _ & Hv'). wp_run. cbn. split_and!; try done; [by eexists|].
    intros y Hy. rewrite <- Hv' by done. symmetry. by eapply clean_view.
  - rewrite (proj2 (Z.eqb_neq _ _)) by lia. wp_run. done.
Qed.

Lemma end_op_commits_witness :
  wp end_op (fun _ s' => l_outstanding s' = 0 /\ l_committing s' = false /\
    (exists v', cache ∅ ∅ v' (lg_bio s')) /\ lh_n s' = 0 /\
    forall x, ~ in_log 2 30 x -> on_disk (hdisk (lg_bio s')) x = view (lg_bio demo) x) demo.
Proof.
  pose proof (end_op_commits 2 30 [50] (view (lg_bio demo)) demo demo_geometry (proj1 demo_txn)
    ltac:(cbn; lia) ltac:(vm_compute; reflexivity)) as Hend.
  replace (l_outstanding demo) with 1 in Hend by (vm_compute; reflexivity). exact Hend.
Defined.
