(* ===== verification/Reserve.v ===== *)
(** * Reserve: space in the log (log.c)

    Several processes run file system operations at once. Each brackets its
    operation with [begin_op] and [end_op] and calls [log_write] at most
    [MAXOPBLOCKS] times in between. The critical sections under [log.lock] are
    the steps of the transition system below; reads and writes of the buffer
    cache come in between. [commit] runs outside the lock, with
    [log.committing] set, which keeps every other operation out: [end_op] is
    one step. *)

From stdpp Require Import base list numbers gmap strings relations.
From S2P Require Import Prelude Bytes Params Sleeplock Bio Log Crash.

Local Open Scope Z_scope.
Local Open Scope os_scope.

Record world := {
  w_log : log;
  w_active : gmap Z Z    (* the operations in progress, and their log writes *)
}.

Inductive lstep : world -> world -> Prop :=
| step_begin w p s :
    w_active w !! p = None -> begin_op (w_log w) = Done (tt, s) ->
    lstep w {| w_log := s; w_active := <[p := 0]> (w_active w) |}
| step_write w p u i s :
    w_active w !! p = Some u -> u < MAXOPBLOCKS -> log_write i (w_log w) = Done (tt, s) ->
    lstep w {| w_log := s; w_active := <[p := u + 1]> (w_active w) |}
| step_end w p u s :
    w_active w !! p = Some u -> end_op (w_log w) = Done (tt, s) ->
    lstep w {| w_log := s; w_active := delete p (w_active w) |}
| step_cache w b :
    lstep w {| w_log := set_bio b (w_log w); w_active := w_active w |}.

(** After [initlog], with no operation in progress. *)
Definition fresh (w : world) : Prop :=
  l_outstanding (w_log w) = 0 /\ l_committing (w_log w) = false /\ lh_n (w_log w) = 0 /\
  w_active w = ∅.

(** The log writes the operations in progress may still do. *)
Definition reserved (m : gmap Z Z) : Z := map_fold (fun _ u acc => MAXOPBLOCKS - u + acc) 0 m.

(** ** The fields of the log that buffer operations keep *)

Definition same_log (s s' : log) : Prop :=
  l_size s' = l_size s /\ l_outstanding s' = l_outstanding s /\
  l_committing s' = l_committing s /\ lh_n s' = lh_n s.

#[global] Instance same_log_preorder : PreOrder same_log.
Proof. split; [by intros s|]. intros s1 s2 s3 (?&?&?&?) (?&?&?&?). split_and!; congruence. Qed.

Definition keeps {A} (c : M log A) : Prop := forall s a s', c s = Done (a, s') -> same_log s s'.

Create HintDb keeps.

Lemma keeps_bind {A B} (c : M log A) (k : A -> M log B) :
  keeps c -> (forall a, keeps (k a)) -> keeps (bind c k).
Proof.
  intros Hc Hk s b s' (a & s1 & H1 & H2)%bind_done_inv. etrans; [by eapply Hc|by eapply Hk].
Qed.

Lemma keeps_ret {A} (a : A) : keeps (ret a).
Proof. by intros s a' s' [= <- <-]. Qed.

Lemma keeps_gets {A} (f : log -> A) : keeps (gets f).
Proof. by intros s a' s' [= <- <-]. Qed.

Lemma keeps_fault {A} : keeps (@fault log A).
Proof. done. Qed.

Lemma keeps_onbio {A} (c : M bio A) : keeps (onbio c).
Proof.
  intros s a s'. unfold onbio, zoom. destruct (c (lg_bio s)) as [[]| | |]; by intros [= <- <-].
Qed.

Lemma keeps_get_lh i : keeps (get_lh i).
Proof. intros s a s'. unfold get_lh. destruct (_ !! _); by intros [= <- <-]. Qed.

Lemma keeps_put_lh i b : keeps (put_lh i b).
Proof. intros s a s'. unfold put_lh. destruct (_ && _); by intros [= <- <-]. Qed.

Lemma keeps_for n i (body : Z -> M log unit) :
  (forall j, keeps (body j)) -> keeps (for_loop n i body).
Proof.
  intros Hb. revert i. induction n as [|n IH]; intros i; cbn [for_loop]; [apply keeps_ret|].
  by apply keeps_bind.
Qed.

#[export] Hint Resolve keeps_bind keeps_ret keeps_gets keeps_fault keeps_onbio keeps_get_lh
  keeps_put_lh keeps_for : keeps.

Lemma keeps_install_trans : keeps install_trans.
Proof. unfold install_trans, install_one. auto 20 with keeps. Qed.

Lemma keeps_write_log : keeps write_log.
Proof. unfold write_log, write_log_one. auto 20 with keeps. Qed.

Lemma keeps_write_head : keeps write_head.
Proof.
  unfold write_head. repeat (apply keeps_bind; auto with keeps; intros).
  destruct (_ <? _); auto with keeps.
Qed.

Lemma commit_fields s s' :
  commit s = Done (tt, s') ->
  l_size s' = l_size s /\ l_outstanding s' = l_outstanding s /\
  l_committing s' = l_committing s /\ (lh_n s' = 0 \/ lh_n s' = lh_n s /\ lh_n s <= 0).
Proof.
  unfold commit. intros (n & s0 & [= <- <-] & Hrun)%bind_done_inv.
  destruct (Z.ltb_spec 0 (lh_n s)) as [Hn|Hn]; [|injection Hrun as <-; auto 10].
  apply bind_done_inv in Hrun as ([] & s1 & H1%keeps_write_log & Hrun).
  apply bind_done_inv in Hrun as ([] & s2 & H2%keeps_write_head & Hrun).
  apply bind_done_inv in Hrun as ([] & s3 & H3%keeps_install_trans & Hrun).
  apply bind_done_inv in Hrun as ([] & s4 & [= <-] & H4%keeps_write_head).
  destruct H1 as (?&?&?&?), H2 as (?&?&?&?), H3 as (?&?&?&?), H4 as (?&?&?&?).
  cbn in *. split_and!; try congruence. by left.
Qed.

Lemma end_op_fields s s' :
  end_op s = Done (tt, s') ->
  l_size s' = l_size s /\ l_outstanding s' = l_outstanding s - 1 /\ l_committing s' = false /\
  (lh_n s' = lh_n s \/ lh_n s' = 0).
Proof.
  unfold end_op. intros (o & s0 & [= <- <-] & Hrun)%bind_done_inv.
  apply bind_done_inv in Hrun as ([] & s1 & [= <-] & Hrun).
  apply bind_done_inv in Hrun as (c & s2 & [= <- <-] & Hrun). cbn in Hrun.
  destruct (l_committing s) eqn:Hc; [done|]. destruct (_ =? 0).
  - apply bind_done_inv in Hrun as ([] & s3 & [= <-] & Hrun).
    apply bind_done_inv in Hrun as ([] & s4 & Hcm%commit_fields & [= <-]).
    cbn in *. naive_solver.
  - injection Hrun as <-. cbn. auto 10.
Qed.

Lemma begin_op_fields s s' :
  begin_op s = Done (tt, s') ->
  l_committing s = false /\ lh_n s + (l_outstanding s + 1) * MAXOPBLOCKS <= LOGSIZE /\
  s' = set_outstanding (l_outstanding s + 1) s.
Proof.
  unfold begin_op, bind, gets. destruct (l_committing s); [done|].
  destruct (Z.ltb_spec LOGSIZE (lh_n s + (l_outstanding s + 1) * MAXOPBLOCKS)); [done|].
  by intros [= <-].
Qed.

Lemma log_write_fields i s s' :
  log_write i s = Done (tt, s') ->
  l_size s' = l_size s /\ l_outstanding s' = l_outstanding s /\
  l_committing s' = l_committing s /\ lh_n s <= lh_n s' <= lh_n s + 1.
Proof.
  unfold log_write. intros (n & s0 & [= <- <-] & Hrun)%bind_done_inv.
  apply bind_done_inv in Hrun as (sz & ? & [= <- <-] & Hrun).
  apply bind_done_inv in Hrun as (o & ? & [= <- <-] & Hrun).
  destruct (_ || _); [done|]. destruct (_ <? 1); [done|].
  apply bind_done_inv in Hrun as (b & s1 & H1%keeps_onbio & Hrun).
  apply bind_done_inv in Hrun as (bs & s2 & [= <- <-] & Hrun).
  apply bind_done_inv in Hrun as ([] & s3 & H3%keeps_put_lh & Hrun).
  apply bind_done_inv in Hrun as ([] & s4 & H4 & Hrun%keeps_onbio).
  destruct H1 as (?&?&?&?), H3 as (?&?&?&?), Hrun as (?&?&?&?).
  destruct (_ =? lh_n s); injection H4 as <-; cbn in *; split_and!; congruence || lia.
Qed.

(** ** The invariant *)

Record winv (size0 : Z) (w : world) : Prop := {
  wi_size : l_size (w_log w) = size0;
  wi_out : l_outstanding (w_log w) = Z.of_nat (size (w_active w));
  wi_n : 0 <= lh_n (w_log w);
  wi_com : l_committing (w_log w) = false;
  wi_used : map_Forall (fun _ u => 0 <= u <= MAXOPBLOCKS) (w_active w);
  wi_fit : lh_n (w_log w) + reserved (w_active w) <= LOGSIZE
}.

Lemma reserved_insert m p u :
  m !! p = None -> reserved (<[p := u]> m) = MAXOPBLOCKS - u + reserved m.
Proof.
  intros Hp. unfold reserved. rewrite map_fold_insert_L; [done| |done]. intros; lia.
Qed.

Lemma reserved_lookup m p u :
  m !! p = Some u -> reserved m = MAXOPBLOCKS - u + reserved (delete p m).
Proof.
  intros Hp. rewrite <- (insert_delete_id m p u) at 1 by done.
  by rewrite reserved_insert by apply lookup_delete_eq.
Qed.

Lemma reserved_bounds m :
  map_Forall (fun _ u => 0 <= u <= MAXOPBLOCKS) m ->
  0 <= reserved m <= Z.of_nat (size m) * MAXOPBLOCKS.
Proof.
  induction m as [|p u m Hp IH] using map_ind; intros Hm; [done|].
  apply map_Forall_insert in Hm as [Hu Hm]; [|done].
  rewrite reserved_insert, map_size_insert_None by done. specialize (IH Hm). lia.
Qed.

Lemma winv_fresh w : fresh w -> winv (l_size (w_log w)) w.
Proof.
  intros (Ho & Hc & Hn & Ha). split; rewrite ?Ha, ?Hn; done.
Qed.

Lemma winv_step size0 w w' : winv size0 w -> lstep w w' -> winv size0 w'.
Proof.
  intros [Hsz Ho Hn0 Hc Hu Hf] Hst. pose proof (reserved_bounds _ Hu) as Hr.
  destruct Hst as [w p s Hp Hb|w p u i s Hp Hlt Hw|w p u s Hp He|w b]; cbn in *.
  - apply begin_op_fields in Hb as (_ & Hn & ->).
    split; cbn; rewrite ?reserved_insert, ?map_size_insert_None by done; try done; [lia| |lia].
    apply map_Forall_insert_2; [unfold MAXOPBLOCKS; lia|done].
  - apply log_write_fields in Hw as (? & ? & ? & ?).
    assert (0 <= u) by (apply Hu in Hp; lia).
    rewrite (reserved_lookup _ _ _ Hp) in Hf.
    split; cbn; [congruence| |lia|congruence| |].
    + rewrite map_size_insert_Some by (by exists u). congruence.
    + apply map_Forall_insert_2; [lia|done].
    + rewrite <- insert_delete_eq, reserved_insert by apply lookup_delete_eq. lia.
  - apply end_op_fields in He as (? & ? & ? & Hn).
    apply Hu in Hp as Hpu. rewrite (reserved_lookup _ _ _ Hp) in Hf.
    assert (map_Forall (fun _ u => 0 <= u <= MAXOPBLOCKS) (delete p (w_active w))) as Hu'
      by by apply map_Forall_delete.
    pose proof (reserved_bounds _ Hu').
    assert (size (w_active w) <> 0%nat) by (intros Hz%map_size_empty_inv; by rewrite Hz in Hp).
    assert (size (delete p (w_active w)) = (size (w_active w) - 1)%nat) as Hsd
      by (rewrite map_size_delete_Some by (by exists u); lia).
    split; cbn; rewrite ?Hsd; [congruence|lia| |done|done|].
    + destruct Hn as [-> | ->]; lia.
    + destruct Hn as [-> | ->]; lia.
  - by split.
Qed.

Lemma winv_reachable w w' : fresh w -> rtc lstep w w' -> winv (l_size (w_log w)) w'.
Proof.
  intros Hf Hr. pose proof (winv_fresh w Hf) as Hi. revert Hi.
  generalize (l_size (w_log w)). clear Hf. induction Hr; eauto using winv_step.
Qed.

(** Property C5: reservations keep the log from overflowing. In every state
    the operations can reach from one with no operation in progress, an
    operation that has done fewer than [MAXOPBLOCKS] log writes can do another
    one, on any buffer, without [log_write] calling [panic], provided the log
    area has more than [LOGSIZE] blocks. *)
Theorem log_write_no_panic w w' p u i msg :
  fresh w -> LOGSIZE < l_size (w_log w) -> rtc lstep w w' ->
  w_active w' !! p = Some u -> u < MAXOPBLOCKS -> log_write i (w_log w') <> Panic msg.
Proof.
  intros Hf Hsz Hr Hp Hu. destruct (winv_reachable w w' Hf Hr) as [Hs Ho Hn _ Hused Hfit].
  rewrite (reserved_lookup _ _ _ Hp) in Hfit.
  pose proof (reserved_bounds _ (map_Forall_delete _ _ p Hused)).
  assert (size (w_active w') <> 0%nat) by (intros Hz%map_size_empty_inv; by rewrite Hz in Hp).
  unfold log_write, bind at 1 2 3, gets at 1 2 3. cbn beta iota.
  rewrite (proj2 (Z.leb_gt LOGSIZE _)), (proj2 (Z.leb_gt (_ - 1) _)) by lia. cbn [orb].
  rewrite (proj2 (Z.ltb_ge _ 1)) by lia.
  unfold bind, onbio, zoom, gets, get_buf, put_lh, upd_buf, modify.
  destruct (bufs _ !! i); [|done]. destruct (_ && _); [|done]. by destruct (_ =? _).
Qed.

(** ** A log area of [LOGSIZE] blocks *)

(** Runs of the transition system: begin an operation, or read a block, log
    it and release it. *)
Inductive cmd := CBegin (p : Z) | CPut (p blk : Z).

Definition run_cmd (c : cmd) (w : world) : option world :=
  match c with
  | CBegin p =>
      match w_active w !! p, begin_op (w_log w) with
      | None, Done (_, s) => Some {| w_log := s; w_active := <[p := 0]> (w_active w) |}
      | _, _ => None
      end
  | CPut p blk =>
      match w_active w !! p, bread ROOTDEV blk (lg_bio (w_log w)) with
      | Some u, Done (i, b) =>
          if u <? MAXOPBLOCKS then
            match log_write i (set_bio b (w_log w)) with
            | Done (_, s) =>
                match brelse i (lg_bio s) with
                | Done (_, b') =>
                    Some {| w_log := set_bio b' s; w_active := <[p := u + 1]> (w_active w) |}
                | _ => None
                end
            | _ => None
            end
          else None
      | _, _ => None
      end
  end.

Fixpoint run_cmds (cs : list cmd) (w : world) : option world :=
  match cs with
  | [] => Some w
  | c :: cs => match run_cmd c w with Some w' => run_cmds cs w' | None => None end
  end.

Lemma run_cmd_steps c w w' : run_cmd c w = Some w' -> rtc lstep w w'.
Proof.
  unfold run_cmd. destruct c as [p|p blk]; destruct (w_active w !! p) as [u|] eqn:Hp; try done.
  - destruct (begin_op (w_log w)) as [[[] s]| | |] eqn:Hb; try done. intros Heq. injection Heq as <-.
    by apply rtc_once, step_begin.
  - destruct (bread ROOTDEV blk (lg_bio (w_log w))) as [[i b]| | |]; try done.
    destruct (Z.ltb_spec u MAXOPBLOCKS); [|done].
    destruct (log_write i (set_bio b (w_log w))) as [[[] s]| | |] eqn:Hw; try done.
    destruct (brelse i (lg_bio s)) as [[[] b']| | |]; try done. intros Heq. injection Heq as <-.
    eapply rtc_l; [apply (step_cache w b)|].
    eapply rtc_l; [by eapply (step_write _ p u i s)|].
    cbn [w_active w_log]. apply rtc_once.
    exact (step_cache {| w_log := s; w_active := <[p := u + 1]> (w_active w) |} b').
Qed.

Lemma run_cmds_steps cs w w' : run_cmds cs w = Some w' -> rtc lstep w w'.
Proof.
  revert w. induction cs as [|c cs IH]; intros w; cbn [run_cmds]; [by intros [= ->]|].
  destruct (run_cmd c w) as [w1|] eqn:Hc; [|done]. intros Hr.
  etrans; [by eapply run_cmd_steps|by apply IH].
Qed.

Definition demo_world : world :=
  {| w_log := match initlog ROOTDEV (boot demo_disk 1) with
              | Done (_, s) => s | _ => boot demo_disk 1 end;
     w_active := ∅ |}.

(** Three operations of ten, ten and nine log writes. *)
Definition demo_cmds : list cmd :=
  [CBegin 1; CBegin 2; CBegin 3]
  ++ (CPut 1 <$> seqZ 100 10) ++ (CPut 2 <$> seqZ 110 10) ++ (CPut 3 <$> seqZ 120 9).

Definition demo_check (ow : option world) : bool :=
  match ow with
  | Some w => bool_decide (w_active w !! 3 = Some 9) &&
              match log_write 0 (w_log w) with
              | Panic m => String.eqb m "too big a transaction"
              | _ => false
              end
  | None => false
  end.

(** Property C6: a log area of [LOGSIZE] blocks, which is what mkfs makes, is
    one block too small for the reservations: the header takes one. Three
    concurrent operations, each within its [MAXOPBLOCKS] log writes, reach a
    state where the next [log_write] panics. *)
Theorem log_of_logsize_panics :
  exists w w' p u i, fresh w /\ l_size (w_log w) = LOGSIZE /\ rtc lstep w w' /\
    w_active w' !! p = Some u /\ u < MAXOPBLOCKS /\
    log_write i (w_log w') = Panic "too big a transaction".
Proof.
  assert (demo_check (run_cmds demo_cmds demo_world) = true) as Hck by (by vm_compute).
  destruct (run_cmds demo_cmds demo_world) as [w'|] eqn:Hrun; [|done].
  apply run_cmds_steps in Hrun. unfold demo_check in Hck.
  apply andb_true_iff in Hck as [Ha%bool_decide_eq_true Hp].
  destruct (log_write 0 (w_log w')) as [| m | |] eqn:Hw; try done. apply String.eqb_eq in Hp as ->.
  exists demo_world, w', 3, 9, 0%nat.
  split; [split_and!; by vm_compute|]. split; [by vm_compute|]. by split_and!.
Qed.

(** A log area of one block more. *)
Definition roomy_world : world :=
  {| w_log := {| lg_bio := binit ∅ true 1; l_start := 2; l_size := 31; l_outstanding := 0;
                 l_committing := false; l_dev := ROOTDEV; lh_n := 0;
                 lh_block := replicate (Z.to_nat LOGSIZE) 0 |};
     w_active := ∅ |}.

Lemma log_write_no_panic_witness :
  let w' := {| w_log := set_outstanding 1 (w_log roomy_world); w_active := {[ 7 := 0 ]} |} in
  log_write 3 (w_log w') <> Panic "too big a transaction".
Proof.
  intros w'. apply (log_write_no_panic roomy_world w' 7 0 3 "too big a transaction").
  - by split_and!.
  - done.
  - apply rtc_once. by apply (step_begin roomy_world 7).
  - by vm_compute.
  - done.
Defined.
