(* ===== verification/Blocks.v ===== *)
(** * Blocks: what the file system relies on

    The interface between fs.c and the layers below it (bio.c and log.c): the
    operations on blocks that fs.c calls, the laws they obey inside a
    transaction, and the proof that the buffer cache with the log obeys them. *)

From stdpp Require Import base list numbers gmap strings.
From S2P Require Import Prelude Bytes Params Sleeplock Bio Log.

Local Open Scope Z_scope.
Local Open Scope os_scope.

(** The operations: [bread], access to [bp->data], [log_write] and [brelse]. *)
Class BlockOps (B : Type) := {
  b_read : Z -> Z -> M B nat;
  b_get : nat -> M B (list Z);
  b_set : nat -> list Z -> M B unit;
  b_log : nat -> M B unit;
  b_release : nat -> M B unit
}.

(** [blocks H L v s]: the buffers in [H] are held, each for its block and
    marked when it has been changed and not logged; the blocks [L] belong to
    the transaction; the blocks have the contents [v]. A transaction has room
    for [txn_cap] blocks, and a process holds at most three buffers. *)
Class BlockLaws (B : Type) `{BlockOps B} := {
  blocks : gmap nat (Z * bool) -> gset Z -> (Z -> list Z) -> B -> Prop;
  txn_cap : nat;
  home : Z -> Prop;
  home_range : forall b, home b -> 1 < b < FSSIZE;
  blocks_block : forall H L v s b, blocks H L v s -> block (v b);
  blocks_ext : forall H L v v' s, blocks H L v s -> (forall b, v b = v' b) -> blocks H L v' s;
  b_read_law : forall H L v s b,
    blocks H L v s -> b < FSSIZE -> (forall i m, H !! i <> Some (b, m)) ->
    (size H < 3)%nat -> (size L <= txn_cap)%nat ->
    wp (b_read ROOTDEV b) (fun i s' => H !! i = None /\ blocks (<[i := (b, false)]> H) L v s') s;
  b_get_law : forall H L v s i b m,
    blocks H L v s -> H !! i = Some (b, m) -> wp (b_get i) (fun d s' => d = v b /\ s' = s) s;
  b_set_law : forall H L v s i b m d,
    blocks H L v s -> H !! i = Some (b, m) -> block d ->
    wp (b_set i d) (fun _ s' => blocks (<[i := (b, true)]> H) L (fupd v b d) s') s;
  b_log_law : forall H L v s i b m,
    blocks H L v s -> H !! i = Some (b, m) -> home b -> (size ({[b]} ∪ L) <= txn_cap)%nat ->
    wp (b_log i) (fun _ s' => blocks (<[i := (b, false)]> H) ({[b]} ∪ L) v s') s;
  b_release_law : forall H L v s i b,
    blocks H L v s -> H !! i = Some (b, false) ->
    wp (b_release i) (fun _ s' => blocks (delete i H) L v s') s
}.

(** The transactions of log.c, and the process that runs. *)
Class TxnOps (B : Type) := {
  b_begin : M B unit;
  b_end : M B unit;
  b_run : Z -> M B unit
}.

(** [idle v s]: no operation is in progress and the blocks have the contents
    [v]. The end of a transaction keeps the contents of the blocks that can be
    logged. *)
Class TxnLaws (B : Type) `{BlockLaws B} `{TxnOps B} := {
  idle : (Z -> list Z) -> B -> Prop;
  b_begin_law : forall v s, idle v s -> wp b_begin (fun _ s' => blocks ∅ ∅ v s') s;
  b_end_law : forall L v s, blocks ∅ L v s -> (size L <= txn_cap)%nat ->
    wp b_end (fun _ s' => exists v', idle v' s' /\ forall b, home b -> v' b = v b) s
}.

(** ** The buffer cache and the log *)

Definition set_me (pid : Z) (b : bio) : bio :=
  {| bufs := bufs b; lru := lru b; hdisk := hdisk b; hwrites := hwrites b;
     havedisk1 := havedisk1 b; me := pid |}.

#[global] Instance log_ops : BlockOps log := {|
  b_read dev b := onbio (bread dev b);
  b_get i := let! b := onbio (get_buf i) in ret (b_data b);
  b_set i d := onbio (upd_buf i (set_b_data d));
  b_log i := log_write i;
  b_release i := onbio (brelse i)
|}.

Section instance.
(** [nops] operations are in progress. *)
Context (st nlog : Z) (Hgeo : geometry st nlog) (nops : Z).

Definition log_blocks (H : gmap nat (Z * bool)) (L : gset Z) (v : Z -> list Z) (s : log) : Prop :=
  exists l, list_to_set l = L /\ txn st nlog H l v s /\ l_outstanding s = nops /\ l_committing s = false.
Definition log_idle (v : Z -> list Z) (s : log) : Prop :=
  cache ∅ ∅ v (lg_bio s) /\ log_at st nlog [] s /\ l_outstanding s = 0 /\ l_committing s = false.
Definition log_cap : nat := Z.to_nat (Z.min (nlog - 2) (NBUF - 3)).

Lemma txn_set_bio H H' l v v' s b :
  txn st nlog H l v s -> cache H' (list_to_set l) v' b -> txn st nlog H' l v' (set_bio b s).
Proof. intros [Hc Hl Hnd Hh Ho] Hb. split; [done|by apply log_at_set_bio|done..]. Qed.

Lemma size_nodup (l : list Z) : NoDup l -> size (list_to_set l : gset Z) = length l.
Proof. intros. by apply size_list_to_set. Qed.

Lemma log_read_law H L v s b :
  log_blocks H L v s -> b < FSSIZE -> (forall i m, H !! i <> Some (b, m)) ->
  (size H < 3)%nat -> (size L <= log_cap)%nat ->
  wp (b_read ROOTDEV b) (fun i s' => H !! i = None /\ log_blocks (<[i := (b, false)]> H) L v s') s.
Proof.
  intros (l & <- & Ht & Hops & Hcom) Hb Hn Hs Hl. cbn [b_read log_ops]. unfold onbio. apply wp_zoom.
  eapply wp_mono; [eapply bread_law; [apply Ht|done|done|]|].
  - right. unfold log_cap, NBUF in *. unfold MAXOPBLOCKS in *. lia.
  - intros i s' (Hi & Hc & _). split; [done|]. exists l. split_and!; [done|by eapply txn_set_bio|done..].
Qed.

Lemma log_get_law H L v s i b m :
  log_blocks H L v s -> H !! i = Some (b, m) -> wp (b_get i) (fun d s' => d = v b /\ s' = s) s.
Proof.
  intros (l & <- & Ht & Hops & Hcom) Hi. cbn [b_get log_ops]. unfold onbio. wp_run.
  eapply wp_mono; [eapply get_buf_law; [apply Ht|done]|]. intros c s' (-> & Hd & _).
  wp_run. split; [done|]. by destruct s.
Qed.

Lemma log_set_law H L v s i b m d :
  log_blocks H L v s -> H !! i = Some (b, m) -> block d ->
  wp (b_set i d) (fun _ s' => log_blocks (<[i := (b, true)]> H) L (fupd v b d) s') s.
Proof.
  intros (l & <- & Ht & Hops & Hcom) Hi Hd. cbn [b_set log_ops]. unfold onbio. apply wp_zoom.
  eapply wp_mono; [eapply set_data_law; [apply Ht|done|done]|]. intros _ s' (Hc & _).
  exists l. split_and!; [done|by eapply txn_set_bio|done..].
Qed.

Lemma log_log_law H L v s i b m :
  log_blocks H L v s -> H !! i = Some (b, m) -> home_ok st nlog b ->
  (size ({[b]} ∪ L) <= log_cap)%nat ->
  wp (b_log i) (fun _ s' => log_blocks (<[i := (b, false)]> H) ({[b]} ∪ L) v s') s.
Proof.
  intros (l & <- & Ht & Hops & Hcom) Hi Hb Hs. cbn [b_log log_ops].
  assert (length l <= log_cap)%nat as Hlen.
  { rewrite <- (size_nodup l) by apply Ht. etrans; [|exact Hs]. apply subseteq_size. set_solver. }
  eapply wp_mono; [eapply log_write_law; [done|done|done|done|]|].
  - destruct Hgeo. unfold log_cap, NBUF, MAXOPBLOCKS in *.
    assert (nlog <> 1) by (intros ->; assert (absorb l b <> []) by (unfold absorb; case_decide;
      destruct l; set_solver); rewrite <- absorb_set, size_nodup in Hs by (apply absorb_nodup, Ht);
      destruct (absorb l b); cbn in *; [done|lia]).
    lia.
  - intros _ s' (Ht' & _ & Ho & Hm). exists (absorb l b). split_and!; [apply absorb_set|done|congruence..].
Qed.

Lemma log_release_law H L v s i b :
  log_blocks H L v s -> H !! i = Some (b, false) ->
  wp (b_release i) (fun _ s' => log_blocks (delete i H) L v s') s.
Proof.
  intros (l & <- & Ht & Hops & Hcom) Hi. cbn [b_release log_ops]. unfold onbio. apply wp_zoom.
  eapply wp_mono; [eapply brelse_law; [apply Ht|done|done]|]. intros _ s' (Hc & _).
  exists l. split_and!; [done|by eapply txn_set_bio|done..].
Qed.

Lemma cache_ext H D v v' s : cache H D v s -> (forall b, v b = v' b) -> cache H D v' s.
Proof. intros [? ? ? ? Hv] He. split; [done..|]. intros b. by rewrite Hv. Qed.

Lemma log_blocks_ext H L v v' s :
  log_blocks H L v s -> (forall b, v b = v' b) -> log_blocks H L v' s.
Proof.
  intros (l & Hl & [Hc ? ? ? ?] & Ho & Hm) He. exists l. split_and!; [done| |done..]. split; [|done..].
  by eapply cache_ext.
Qed.

Lemma log_blocks_block H L v s b : log_blocks H L v s -> block (v b).
Proof. intros (l & _ & Ht & _). eapply cache_block, Ht. Qed.

(** The cache and the log implement the interface. *)
Definition log_laws : BlockLaws log := {|
  blocks := log_blocks;
  txn_cap := log_cap;
  home := home_ok st nlog;
  home_range := fun b Hb => proj1 Hb;
  blocks_block := log_blocks_block;
  blocks_ext := log_blocks_ext;
  b_read_law := log_read_law;
  b_get_law := log_get_law;
  b_set_law := log_set_law;
  b_log_law := log_log_law;
  b_release_law := log_release_law
|}.

Lemma log_begin_law v s :
  nops = 1 -> log_idle v s -> wp begin_op (fun _ s' => log_blocks ∅ ∅ v s') s.
Proof.
  intros Hn (Hc & Hl & Ho & Hm).
  eapply wp_mono; [apply begin_op_wp; [done|by rewrite (la_n _ _ _ _ Hl), Ho]|].
  intros [] ? ->. exists []. rewrite Ho. split_and!; [done| |done..].
  split; [done|destruct Hl; by split|constructor|constructor|cbn; lia].
Qed.

Lemma log_end_law L v s :
  nops = 1 -> log_blocks ∅ L v s -> (size L <= log_cap)%nat ->
  wp end_op (fun _ s' => exists v', log_idle v' s' /\ forall b, home_ok st nlog b -> v' b = v b) s.
Proof.
  intros Hn (l & <- & [Hc Hl Hnd Hh Ho] & Hop & Hm) Hs. rewrite size_nodup in Hs by done.
  unfold end_op. wp_run. cbn [l_committing set_outstanding]. rewrite Hm, Hop, Hn. change (1 - 1 =? 0) with true. wp_run.
  destruct l as [|x l].
  { unfold commit. wp_run. cbn [lh_n set_committing set_outstanding].
    rewrite (la_n _ _ _ _ Hl). cbn. wp_run. exists v. split; [|done]. split_and!; try done.
    destruct Hl. by split. }
  eapply wp_mono; [eapply (commit_wp st nlog Hgeo v (x :: l)); try done|].
  { destruct Hl. by split. }
  { destruct Hgeo. unfold log_cap in Hs. cbn in Hs |- *. lia. }
  intros [] s' (b & v' & -> & Hc' & _ & Hv'). wp_run. exists v'. split.
  - split_and!; try done. destruct Hl. by split.
  - intros y [_ Hy]. by apply Hv'.
Qed.
End instance.

#[global] Instance log_txn : TxnOps log :=
  {| b_begin := begin_op; b_end := end_op; b_run pid := onbio (modify (set_me pid)) |}.

(** With no other operation in progress the log implements the transactions. *)
Definition log_txn_laws st nlog (Hgeo : geometry st nlog) :
  @TxnLaws log log_ops (log_laws st nlog Hgeo 1) log_txn.
Proof.
  refine (Build_TxnLaws log log_ops (log_laws st nlog Hgeo 1) log_txn (log_idle st nlog) _ _).
  - intros v s. by apply log_begin_law.
  - intros L v s. by apply (log_end_law st nlog Hgeo 1).
Defined.
