(* ===== verification/Fs.v ===== *)
(** * Fs: the file system (fs.c)

    Block allocation, inodes, file contents, directories and path names, over
    the block interface. The state is the block layer, the super block in
    memory and the inode cache; a pointer to a cached inode is its index.
    Functions that fill a buffer of the caller return the bytes. Character
    arrays that hold C strings are lists of bytes, with the terminating NUL
    implied at the end of the list. *)

From stdpp Require Import base list numbers gmap strings.
From S2P Require Import Prelude Bytes Params Sleeplock Bio Log Blocks.

Local Open Scope Z_scope.
Local Open Scope os_scope.

(** The inode in memory (file.h). *)
Record inode := {
  i_dev : Z; i_inum : Z; i_ref : Z; i_lock : sleeplock; i_valid : bool;
  i_type : Z; i_major : Z; i_minor : Z; i_nlink : Z; i_size : Z; i_addrs : list Z
}.

Record fs (B : Type) := {
  f_blk : B; f_sb : superblock; f_icache : list inode; f_me : Z   (* myproc()->pid *)
}.
Arguments f_blk {B}.
Arguments f_sb {B}.
Arguments f_icache {B}.
Arguments f_me {B}.

(** The part of an inode that is on disk (fs.h), at a byte offset of a block. *)
Record dinode := {
  d_type : Z; d_major : Z; d_minor : Z; d_nlink : Z; d_size : Z; d_addrs : list Z
}.
Definition get_dinode (d : list Z) (off : nat) : dinode :=
  {| d_type := i16 (get16 d off); d_major := i16 (get16 d (off + 2));
     d_minor := i16 (get16 d (off + 4)); d_nlink := i16 (get16 d (off + 6));
     d_size := get32 d (off + 8);
     d_addrs := (fun k => get32 d (off + 12 + 4 * k)) <$> seq 0 13 |}.
Definition dinode_bytes (x : dinode) : list Z :=
  le_split 2 (d_type x) ++ le_split 2 (d_major x) ++ le_split 2 (d_minor x) ++
  le_split 2 (d_nlink x) ++ le_split 4 (d_size x) ++ mjoin (le_split 4 <$> d_addrs x).
Definition put_dinode (d : list Z) (off : nat) (x : dinode) : list Z :=
  splice d off (dinode_bytes x).
Definition zero_dinode (type : Z) : dinode :=
  {| d_type := type; d_major := 0; d_minor := 0; d_nlink := 0; d_size := 0;
     d_addrs := replicate 13 0 |}.

(** Field updates. *)
Definition set_i_ref (z : Z) (i : inode) : inode :=
  {| i_dev := i_dev i; i_inum := i_inum i; i_ref := z; i_lock := i_lock i; i_valid := i_valid i;
     i_type := i_type i; i_major := i_major i; i_minor := i_minor i; i_nlink := i_nlink i;
     i_size := i_size i; i_addrs := i_addrs i |}.
Definition set_i_lock (l : sleeplock) (i : inode) : inode :=
  {| i_dev := i_dev i; i_inum := i_inum i; i_ref := i_ref i; i_lock := l; i_valid := i_valid i;
     i_type := i_type i; i_major := i_major i; i_minor := i_minor i; i_nlink := i_nlink i;
     i_size := i_size i; i_addrs := i_addrs i |}.
Definition set_i_valid (b : bool) (i : inode) : inode :=
  {| i_dev := i_dev i; i_inum := i_inum i; i_ref := i_ref i; i_lock := i_lock i; i_valid := b;
     i_type := i_type i; i_major := i_major i; i_minor := i_minor i; i_nlink := i_nlink i;
     i_size := i_size i; i_addrs := i_addrs i |}.
Definition set_i_type (z : Z) (i : inode) : inode :=
  {| i_dev := i_dev i; i_inum := i_inum i; i_ref := i_ref i; i_lock := i_lock i; i_valid := i_valid i;
     i_type := z; i_major := i_major i; i_minor := i_minor i; i_nlink := i_nlink i;
     i_size := i_size i; i_addrs := i_addrs i |}.
Definition set_i_nlink (z : Z) (i : inode) : inode :=
  {| i_dev := i_dev i; i_inum := i_inum i; i_ref := i_ref i; i_lock := i_lock i; i_valid := i_valid i;
     i_type := i_type i; i_major := i_major i; i_minor := i_minor i; i_nlink := z;
     i_size := i_size i; i_addrs := i_addrs i |}.
Definition set_i_dev_nums (ma mi : Z) (i : inode) : inode :=
  {| i_dev := i_dev i; i_inum := i_inum i; i_ref := i_ref i; i_lock := i_lock i; i_valid := i_valid i;
     i_type := i_type i; i_major := ma; i_minor := mi; i_nlink := i_nlink i;
     i_size := i_size i; i_addrs := i_addrs i |}.
Definition set_i_size (z : Z) (i : inode) : inode :=
  {| i_dev := i_dev i; i_inum := i_inum i; i_ref := i_ref i; i_lock := i_lock i; i_valid := i_valid i;
     i_type := i_type i; i_major := i_major i; i_minor := i_minor i; i_nlink := i_nlink i;
     i_size := z; i_addrs := i_addrs i |}.
Definition set_i_addrs (l : list Z) (i : inode) : inode :=
  {| i_dev := i_dev i; i_inum := i_inum i; i_ref := i_ref i; i_lock := i_lock i; i_valid := i_valid i;
     i_type := i_type i; i_major := i_major i; i_minor := i_minor i; i_nlink := i_nlink i;
     i_size := i_size i; i_addrs := l |}.
Definition i_disk (i : inode) : dinode :=
  {| d_type := i_type i; d_major := i_major i; d_minor := i_minor i; d_nlink := i_nlink i;
     d_size := i_size i; d_addrs := i_addrs i |}.
Definition set_i_disk (x : dinode) (i : inode) : inode :=
  {| i_dev := i_dev i; i_inum := i_inum i; i_ref := i_ref i; i_lock := i_lock i; i_valid := i_valid i;
     i_type := d_type x; i_major := d_major x; i_minor := d_minor x; i_nlink := d_nlink x;
     i_size := d_size x; i_addrs := d_addrs x |}.

Section fs.
Context {B : Type} `{BlockOps B}.

Definition set_f_blk (b : B) (s : fs B) : fs B :=
  {| f_blk := b; f_sb := f_sb s; f_icache := f_icache s; f_me := f_me s |}.
Definition set_icache (f : list inode -> list inode) (s : fs B) : fs B :=
  {| f_blk := f_blk s; f_sb := f_sb s; f_icache := f (f_icache s); f_me := f_me s |}.
Definition onb {A} (c : M B A) : M (fs B) A := zoom f_blk set_f_blk c.
Definition geti (ip : nat) : M (fs B) inode := fun s =>
  match f_icache s !! ip with Some i => Done (i, s) | None => Fault end.
Definition updi (ip : nat) (f : inode -> inode) : M (fs B) unit := modify (set_icache (alter f ip)).

(** ** Blocks *)

Definition IBLOCK (i : Z) (sb : superblock) : Z := i / IPB + sb_inodestart sb.
Definition BBLOCK (b : Z) (sb : superblock) : Z := b / BPB + sb_bmapstart sb.

(** Change the data of a block: [bread], a store, [log_write], [brelse]. *)
Definition modify_block (dev b : Z) (f : list Z -> list Z) : M (fs B) unit :=
  onb (let! bp := b_read dev b in
       let! d := b_get bp in
       b_set bp (f d);;;
       b_log bp;;;
       b_release bp).
(** Look at the data of a block: [bread], a load, [brelse]. *)
Definition read_block (dev b : Z) : M (fs B) (list Z) :=
  onb (let! bp := b_read dev b in
       let! d := b_get bp in
       b_release bp;;;
       ret d).

Definition bzero (dev bno : Z) : M (fs B) unit := modify_block dev bno (fun _ => zero_block).

(** Bit [bi] of a bitmap block. *)
Definition bit_get (d : list Z) (bi : Z) : bool :=
  negb (Z.land (nth (Z.to_nat (bi / 8)) d 0) (Z.shiftl 1 (bi mod 8)) =? 0).
Definition bit_set (d : list Z) (bi : Z) : list Z :=
  alter (fun x => Z.lor x (Z.shiftl 1 (bi mod 8))) (Z.to_nat (bi / 8)) d.
Definition bit_clear (d : list Z) (bi : Z) : list Z :=
  alter (fun x => u8 (Z.land x (Z.lnot (Z.shiftl 1 (bi mod 8))))) (Z.to_nat (bi / 8)) d.

(** The inner loop of [balloc]: the first clear bit from [bi] on. *)
Fixpoint free_bit (n : nat) (size b bi : Z) (d : list Z) : option Z :=
  match n with
  | O => None
  | S n =>
      if b + bi <? size then
        if bit_get d bi then free_bit n size b (bi + 1) d else Some bi
      else None
  end.
Fixpoint balloc_from (n : nat) (dev b : Z) : M (fs B) Z :=
  match n with
  | O => panic "balloc: out of blocks"
  | S n =>
      let! sb := gets f_sb in
      if b <? sb_size sb then
        let! bp := onb (b_read dev (BBLOCK b sb)) in
        let! d := onb (b_get bp) in
        match free_bit (Z.to_nat BPB) (sb_size sb) b 0 d with
        | Some bi =>
            onb (b_set bp (bit_set d bi));;;
            onb (b_log bp);;;
            onb (b_release bp);;;
            bzero dev (b + bi);;;
            ret (b + bi)
        | None => onb (b_release bp);;; balloc_from n dev (b + BPB)
        end
      else panic "balloc: out of blocks"
  end.
(** Rounds for every bitmap block of the disk. *)
Definition balloc (dev : Z) : M (fs B) Z :=
  let! sb := gets f_sb in
  balloc_from (Z.to_nat (sb_size sb / BPB + 1)) dev 0.

Definition bfree (dev b : Z) : M (fs B) unit :=
  let! sb := gets f_sb in
  let bi := b mod BPB in
  let! bp := onb (b_read dev (BBLOCK b sb)) in
  let! d := onb (b_get bp) in
  if bit_get d bi then
    onb (b_set bp (bit_clear d bi));;;
    onb (b_log bp);;;
    onb (b_release bp)
  else panic "freeing free block".

(** ** Inodes *)

(** The offset of inode [inum] in its block. *)
Definition inode_off (inum : Z) : nat := Z.to_nat (inum mod IPB * DINODESZ).

Definition iget (dev inum : Z) : M (fs B) nat := fun s =>
  match list_find (fun i => 0 < i_ref i /\ i_dev i = dev /\ i_inum i = inum) (f_icache s) with
  | Some (ip, i) => (updi ip (set_i_ref (i32 (i_ref i + 1)));;; ret ip) s
  | None =>
      match list_find (fun i => i_ref i = 0) (f_icache s) with
      | Some (ip, _) =>
          (updi ip (fun i =>
             {| i_dev := dev; i_inum := inum; i_ref := 1; i_lock := i_lock i; i_valid := false;
                i_type := i_type i; i_major := i_major i; i_minor := i_minor i;
                i_nlink := i_nlink i; i_size := i_size i; i_addrs := i_addrs i |});;;
           ret ip) s
      | None => Panic "iget: no inodes"
      end
  end.

Fixpoint ialloc_from (n : nat) (dev inum type : Z) : M (fs B) nat :=
  match n with
  | O => panic "ialloc: no inodes"
  | S n =>
      let! sb := gets f_sb in
      if inum <? sb_ninodes sb then
        let! bp := onb (b_read dev (IBLOCK inum sb)) in
        let! d := onb (b_get bp) in
        if get16 d (inode_off inum) =? 0 then
          onb (b_set bp (put_dinode d (inode_off inum) (zero_dinode type)));;;
          onb (b_log bp);;;
          onb (b_release bp);;;
          iget dev inum
        else onb (b_release bp);;; ialloc_from n dev (inum + 1) type
      else panic "ialloc: no inodes"
  end.
Definition ialloc (dev type : Z) : M (fs B) nat :=
  let! sb := gets f_sb in
  ialloc_from (Z.to_nat (sb_ninodes sb)) dev 1 type.

Definition iupdate (ip : nat) : M (fs B) unit :=
  let! sb := gets f_sb in
  let! i := geti ip in
  modify_block (i_dev i) (IBLOCK (i_inum i) sb)
    (fun d => put_dinode d (inode_off (i_inum i)) (i_disk i)).

Definition idup (ip : nat) : M (fs B) nat :=
  updi ip (fun i => set_i_ref (i32 (i_ref i + 1)) i);;; ret ip.

Definition acquire_inode (ip : nat) : M (fs B) unit := fun s =>
  match f_icache s !! ip with
  | None => Fault
  | Some i =>
      match acquiresleep (f_me s) (i_lock i) with
      | Done lk => updi ip (set_i_lock lk) s
      | Panic m => Panic m
      | Fault => Fault
      | Asleep => Asleep
      end
  end.

Definition ilock (ip : nat) : M (fs B) unit :=
  let! i := geti ip in
  if i_ref i <? 1 then panic "ilock"
  else
    acquire_inode ip;;;
    let! i := geti ip in
    if i_valid i then ret tt
    else
      let! sb := gets f_sb in
      let! d := read_block (i_dev i) (IBLOCK (i_inum i) sb) in
      let x := get_dinode d (inode_off (i_inum i)) in
      updi ip (fun i => set_i_valid true (set_i_disk x i));;;
      if d_type x =? 0 then panic "ilock: no type" else ret tt.

Definition iunlock (ip : nat) : M (fs B) unit :=
  let! i := geti ip in
  let! me := gets f_me in
  if negb (holdingsleep me (i_lock i)) || (i_ref i <? 1) then panic "iunlock"
  else updi ip (fun i => set_i_lock (releasesleep (i_lock i)) i).

(** ** Contents *)

(** [ip->addrs[k]], allocated when it is not. *)
Definition direct_addr (ip : nat) (k : nat) : M (fs B) Z :=
  let! i := geti ip in
  let addr := nth k (i_addrs i) 0 in
  if addr =? 0 then
    let! addr := balloc (i_dev i) in
    updi ip (fun i => set_i_addrs (<[k := addr]> (i_addrs i)) i);;;
    ret addr
  else ret addr.

Definition bmap (ip : nat) (bn : Z) : M (fs B) Z :=
  if bn <? NDIRECT then direct_addr ip (Z.to_nat bn)
  else
    let bn := bn - NDIRECT in
    if bn <? NINDIRECT then
      let! ind := direct_addr ip (Z.to_nat NDIRECT) in
      let! i := geti ip in
      let! bp := onb (b_read (i_dev i) ind) in
      let! d := onb (b_get bp) in
      let addr := get32 d (Z.to_nat (4 * bn)) in
      if addr =? 0 then
        let! addr := balloc (i_dev i) in
        onb (b_set bp (put32 d (Z.to_nat (4 * bn)) addr));;;
        onb (b_log bp);;;
        onb (b_release bp);;;
        ret addr
      else onb (b_release bp);;; ret addr
    else panic "bmap: out of range".

(** The first loop of [itrunc]. *)
Definition itrunc_direct (ip : nat) (k : Z) : M (fs B) unit :=
  let! i := geti ip in
  let addr := nth (Z.to_nat k) (i_addrs i) 0 in
  if addr =? 0 then ret tt
  else
    bfree (i_dev i) addr;;;
    updi ip (fun i => set_i_addrs (<[Z.to_nat k := 0]> (i_addrs i)) i).
(** The second one, over the entries of the indirect block. *)
Fixpoint itrunc_indirect (dev : Z) (a : list Z) : M (fs B) unit :=
  match a with
  | [] => ret tt
  | x :: a => (if x =? 0 then ret tt else bfree dev x);;; itrunc_indirect dev a
  end.
Definition ind_entries (d : list Z) : list Z :=
  (fun j => get32 d (4 * j)) <$> seq 0 (Z.to_nat NINDIRECT).
Definition itrunc (ip : nat) : M (fs B) unit :=
  for_loop (Z.to_nat NDIRECT) 0 (itrunc_direct ip);;;
  let! i := geti ip in
  let ind := nth (Z.to_nat NDIRECT) (i_addrs i) 0 in
  (if ind =? 0 then ret tt
   else
     let! bp := onb (b_read (i_dev i) ind) in
     let! d := onb (b_get bp) in
     itrunc_indirect (i_dev i) (ind_entries d);;;
     onb (b_release bp);;;
     bfree (i_dev i) ind;;;
     updi ip (fun i => set_i_addrs (<[Z.to_nat NDIRECT := 0]> (i_addrs i)) i));;;
  updi ip (set_i_size 0);;;
  iupdate ip.

Definition iput (ip : nat) : M (fs B) unit :=
  acquire_inode ip;;;
  let! i := geti ip in
  (if i_valid i && (i_nlink i =? 0) && (i_ref i =? 1) then
     itrunc ip;;;
     updi ip (set_i_type 0);;;
     iupdate ip;;;
     updi ip (set_i_valid false)
   else ret tt);;;
  updi ip (fun i => set_i_ref (i32 (i_ref i - 1)) (set_i_lock (releasesleep (i_lock i)) i)).

Definition iunlockput (ip : nat) : M (fs B) unit := iunlock ip;;; iput ip.

Record stat := { st_dev : Z; st_ino : Z; st_type : Z; st_nlink : Z; st_size : Z }.
Definition stati (ip : nat) : M (fs B) stat :=
  let! i := geti ip in
  ret {| st_dev := i_dev i; st_ino := i_inum i; st_type := i_type i; st_nlink := i_nlink i;
         st_size := i_size i |}.

(** [devsw]: the read and write functions of the devices, null when [None]. *)
Context (devread : Z -> option (nat -> Z -> M (fs B) (Z * list Z))).
Context (devwrite : Z -> option (nat -> list Z -> M (fs B) Z)).

(** The loop of [readi]: [tot] of [n] bytes are done. *)
Fixpoint readi_loop (fuel : nat) (ip : nat) (tot off n : Z) : M (fs B) (list Z) :=
  if tot <? n then
    match fuel with
    | O => fault
    | S fuel =>
        let! addr := bmap ip (off / BSIZE) in
        let! i := geti ip in
        let! d := read_block (i_dev i) addr in
        let m := Z.min (n - tot) (BSIZE - off mod BSIZE) in
        let! rest := readi_loop fuel ip (tot + m) (off + m) n in
        ret (take (Z.to_nat m) (drop (Z.to_nat (off mod BSIZE)) d) ++ rest)
    end
  else ret [].

(** Rounds for a transfer of [n] bytes: one per block, and one for each end. *)
Definition block_rounds (n : Z) : nat := Z.to_nat (n / BSIZE + 2).

(** [readi]: the result, and the bytes stored at [dst]. *)
Definition readi (ip : nat) (off n : Z) : M (fs B) (Z * list Z) :=
  let! i := geti ip in
  if i_type i =? T_DEV then
    if (i_major i <? 0) || (NDEV <=? i_major i) then ret (-1, [])
    else match devread (i_major i) with None => ret (-1, []) | Some rd => rd ip n end
  else if (i_size i <? off) || (u32 (off + n) <? off) then ret (-1, [])
  else
    let n := if i_size i <? u32 (off + n) then u32 (i_size i - off) else n in
    let! d := readi_loop (block_rounds n) ip 0 off n in
    ret (n, d).

Fixpoint writei_loop (fuel : nat) (ip : nat) (src : list Z) (tot off n : Z) : M (fs B) Z :=
  if tot <? n then
    match fuel with
    | O => fault
    | S fuel =>
        let! addr := bmap ip (off / BSIZE) in
        let! i := geti ip in
        let m := Z.min (n - tot) (BSIZE - off mod BSIZE) in
        modify_block (i_dev i) addr
          (fun d => splice d (Z.to_nat (off mod BSIZE)) (take (Z.to_nat m) src));;;
        writei_loop fuel ip (drop (Z.to_nat m) src) (tot + m) (off + m) n
    end
  else ret off.

(** [writei] of the [n] bytes [src]. *)
Definition writei (ip : nat) (src : list Z) (off n : Z) : M (fs B) Z :=
  let! i := geti ip in
  if i_type i =? T_DEV then
    if (i_major i <? 0) || (NDEV <=? i_major i) then ret (-1)
    else match devwrite (i_major i) with None => ret (-1) | Some wr => wr ip src end
  else if (i_size i <? off) || (u32 (off + n) <? off) then ret (-1)
  else if MAXFILE * BSIZE <? u32 (off + n) then ret (-1)
  else
    let! off := writei_loop (block_rounds n) ip src 0 off n in
    let! i := geti ip in
    (if (0 <? n) && (i_size i <? off) then updi ip (set_i_size off);;; iupdate ip else ret tt);;;
    ret n.

(** ** Directories *)

(** [strncmp] on character arrays: zero when they agree up to a NUL or [n]. *)
Fixpoint strncmp_chars (n : nat) (p q : list Z) : Z :=
  match n with
  | O => 0
  | S n =>
      let a := nth 0 p 0 in
      let b := nth 0 q 0 in
      if negb (a =? 0) && (a =? b) then strncmp_chars n (tail p) (tail q) else u8 a - u8 b
  end.
Definition namecmp (s t : list Z) : Z := strncmp_chars (Z.to_nat DIRSIZ) s t.

(** A directory entry, from its 16 bytes. *)
Definition de_inum (d : list Z) : Z := get16 d 0.
Definition de_name (d : list Z) : list Z := take (Z.to_nat DIRSIZ) (drop 2 d).
Fixpoint cstr (n : nat) (l : list Z) : list Z :=
  match n, l with
  | S n, c :: l => if c =? 0 then [] else c :: cstr n l
  | _, _ => []
  end.
(** [strncpy(de.name, name, DIRSIZ); de.inum = inum]. *)
Definition mk_dirent (name : list Z) (inum : Z) : list Z :=
  let s := cstr (Z.to_nat DIRSIZ) name in
  le_split 2 inum ++ s ++ replicate (Z.to_nat DIRSIZ - length s) 0.

Fixpoint dirlookup_from (fuel : nat) (dp : nat) (name : list Z) (off : Z)
  : M (fs B) (option (nat * Z)) :=
  let! i := geti dp in
  if off <? i_size i then
    match fuel with
    | O => fault
    | S fuel =>
        let! r := readi dp off DIRENTSZ in
        if negb (r.1 =? DIRENTSZ) then panic "dirlookup read"
        else if de_inum r.2 =? 0 then dirlookup_from fuel dp name (off + DIRENTSZ)
        else if namecmp name (de_name r.2) =? 0 then
          let! ip := iget (i_dev i) (de_inum r.2) in ret (Some (ip, off))
        else dirlookup_from fuel dp name (off + DIRENTSZ)
    end
  else ret None.

(** The inode of the entry and its offset. *)
Definition dirlookup (dp : nat) (name : list Z) : M (fs B) (option (nat * Z)) :=
  let! i := geti dp in
  if i_type i =? T_DIR then
    dirlookup_from (Z.to_nat (i_size i / DIRENTSZ + 1)) dp name 0
  else panic "dirlookup not DIR".

(** The loop of [dirlink]: the offset of the first free entry, or the size. *)
Fixpoint free_dirent (fuel : nat) (dp : nat) (off : Z) : M (fs B) Z :=
  let! i := geti dp in
  if off <? i_size i then
    match fuel with
    | O => fault
    | S fuel =>
        let! r := readi dp off DIRENTSZ in
        if negb (r.1 =? DIRENTSZ) then panic "dirlink read"
        else if de_inum r.2 =? 0 then ret off
        else free_dirent fuel dp (off + DIRENTSZ)
    end
  else ret off.

Definition dirlink (dp : nat) (name : list Z) (inum : Z) : M (fs B) Z :=
  let! found := dirlookup dp name in
  match found with
  | Some (ip, _) => iput ip;;; ret (-1)
  | None =>
      let! i := geti dp in
      let! off := free_dirent (Z.to_nat (i_size i / DIRENTSZ + 1)) dp 0 in
      let! r := writei dp (mk_dirent name inum) off DIRENTSZ in
      if r =? DIRENTSZ then ret 0 else panic "dirlink"
  end.
End fs.

(** ** Paths *)

Definition SLASH : Z := 47.

Fixpoint skip_slashes (path : list Z) : list Z :=
  match path with
  | c :: path' => if c =? SLASH then skip_slashes path' else path
  | [] => []
  end.
(** The element at the front, and what follows it. *)
Fixpoint span_elem (path : list Z) : list Z * list Z :=
  match path with
  | c :: path' =>
      if c =? SLASH then ([], path)
      else let '(e, rest) := span_elem path' in (c :: e, rest)
  | [] => ([], [])
  end.
(** [skipelem]: the rest of the path and the new contents of [name]. *)
Definition skipelem (path name : list Z) : option (list Z * list Z) :=
  let path := skip_slashes path in
  match path with
  | [] => None
  | _ =>
      let '(e, rest) := span_elem path in
      let len := length e in
      let name :=
        if (Z.to_nat DIRSIZ <=? len)%nat then splice name 0 (take (Z.to_nat DIRSIZ) e)
        else <[len := 0]> (splice name 0 e) in
      Some (skip_slashes rest, name)
  end.

Section paths.
Context {B : Type} `{BlockOps B}.
Context (devread : Z -> option (nat -> Z -> M (fs B) (Z * list Z))).

(** The loop of [namex], with the last contents of [name]. *)
Fixpoint namex_loop (fuel : nat) (ip : nat) (parent : bool) (path name : list Z)
  : M (fs B) (option nat * list Z) :=
  match skipelem path name with
  | None => if parent then iput ip;;; ret (None, name) else ret (Some ip, name)
  | Some (path, name) =>
      match fuel with
      | O => fault
      | S fuel =>
          ilock ip;;;
          let! i := geti ip in
          if negb (i_type i =? T_DIR) then iunlockput ip;;; ret (None, name)
          else if parent && bool_decide (path = []) then iunlock ip;;; ret (Some ip, name)
          else
            let! next := dirlookup devread ip name in
            iunlockput ip;;;
            match next with
            | None => ret (None, name)
            | Some (next, _) => namex_loop fuel next parent path name
            end
      end
  end.
(** [cwd] is [myproc()->cwd]. *)
Definition namex (cwd : nat) (path : list Z) (parent : bool) (name : list Z)
  : M (fs B) (option nat * list Z) :=
  let! ip := (if bool_decide (head path = Some SLASH) then iget ROOTDEV ROOTINO else idup cwd) in
  namex_loop (length path) ip parent path name.

Definition namei (cwd : nat) (path : list Z) : M (fs B) (option nat) :=
  let! r := namex cwd path false (replicate (Z.to_nat DIRSIZ) 0) in ret r.1.
Definition nameiparent (cwd : nat) (path : list Z) (name : list Z) : M (fs B) (option nat * list Z) :=
  namex cwd path true name.

(** [iinit], after [readsb]. *)
Definition zero_inode : inode :=
  {| i_dev := 0; i_inum := 0; i_ref := 0; i_lock := initsleeplock; i_valid := false;
     i_type := 0; i_major := 0; i_minor := 0; i_nlink := 0; i_size := 0;
     i_addrs := replicate 13 0 |}.
Definition iinit (me dev : Z) (b : B) : outcome (fs B) :=
  match (let! bp := b_read dev 1 in let! d := b_get bp in b_release bp;;; ret d) b with
  | Done (d, b) =>
      Done {| f_blk := b; f_sb := sb_of d; f_icache := replicate (Z.to_nat NINODE) zero_inode;
              f_me := me |}
  | Panic m => Panic m
  | Fault => Fault
  | Asleep => Asleep
  end.
End paths.
