(* ===== verification/FsInv.v ===== *)
(** * FsInv: blocks and inodes of the file system

    The layout of a file system, its bitmap, and the theorems on block
    allocation and on inodes, against the block interface. *)

From stdpp Require Import base list numbers gmap strings.
From S2P Require Import Prelude Bytes Params Sleeplock Bio Log Blocks Fs.

Local Open Scope Z_scope.
Local Open Scope os_scope.

(** Linear goals about the constants of fs.h. *)
Ltac fs_lia :=
  change MAXFILE with 140 in *; change NINDIRECT with 128 in *; change NDIRECT with 12 in *;
  change BPB with 4096 in *; change BSIZE with 512 in *; change IPB with 8 in *;
  change DINODESZ with 64 in *; change FSSIZE with 1000 in *; change DIRENTSZ with 16 in *; lia.

(** ** Sizes of sets of blocks *)

Lemma size_union_le (X Y : gset Z) : (size (X ∪ Y) <= size X + size Y)%nat.
Proof.
  rewrite size_union_alt. assert (size (Y ∖ X) <= size Y)%nat by (apply subseteq_size; set_solver). lia.
Qed.

Lemma size_cap (L L' : gset Z) n : L ⊆ L' -> (size L' <= n)%nat -> (size L <= n)%nat.
Proof. intros Hsub Hn. etrans; [by apply subseteq_size|done]. Qed.

(** ** Bits of a bitmap block *)

Lemma bit_get_testbit d bi : 0 <= bi ->
  bit_get d bi = Z.testbit (nth (Z.to_nat (bi / 8)) d 0) (bi mod 8).
Proof.
  intros Hbi. unfold bit_get. set (x := nth _ d 0). pose proof (Z.mod_pos_bound bi 8 ltac:(lia)).
  set (k := bi mod 8) in *.
  destruct (Z.testbit x k) eqn:E.
  - apply negb_true_iff, Z.eqb_neq. intros H0.
    apply (f_equal (fun z => Z.testbit z k)) in H0. rewrite Z.land_spec, E, Z.bits_0 in H0.
    rewrite Z.shiftl_spec, Z.sub_diag in H0 by lia. done.
  - apply negb_false_iff, Z.eqb_eq. apply Z.bits_inj'. intros n Hn.
    rewrite Z.land_spec, Z.bits_0, Z.shiftl_spec by lia.
    destruct (decide (n = k)) as [->|Hne]; [by rewrite E|].
    destruct (decide (n < k)); [by rewrite (Z.testbit_neg_r 1) by lia; rewrite andb_false_r|].
    rewrite (Z.bits_above_log2 1) by (cbn; lia). by rewrite andb_false_r.
Qed.

Lemma testbit_one n : Z.testbit 1 n = (n =? 0).
Proof.
  destruct (Z.eqb_spec n 0) as [->|Hne]; [done|].
  destruct (decide (n < 0)); [by apply Z.testbit_neg_r|]. apply Z.bits_above_log2; cbn; lia.
Qed.

Lemma bit_index bi bj :
  0 <= bi -> 0 <= bj -> bi / 8 = bj / 8 -> bi mod 8 = bj mod 8 -> bi = bj.
Proof. intros. Z.div_mod_to_equations. lia. Qed.

Lemma nth_alter (f : Z -> Z) (l : list Z) i j :
  (i < length l)%nat -> nth j (alter f i l) 0 = if decide (i = j) then f (nth i l 0) else nth j l 0.
Proof.
  intros Hi. case_decide as He.
  - subst j. destruct (lookup_lt_is_Some_2 l i Hi) as [x Hx].
    rewrite (nth_lookup_Some _ _ _ (f x)), (nth_lookup_Some _ _ _ x); [done|done|].
    by rewrite list_lookup_alter_eq, Hx.
  - rewrite !nth_lookup. by rewrite list_lookup_alter_ne.
Qed.

Section bits.
Context (d : list Z) (Hd : block d).

Lemma bit_bound bi : 0 <= bi < BPB -> (Z.to_nat (bi / 8) < length d)%nat.
Proof.
  intros Hbi. rewrite Hd. unfold BPB, BSIZE in *.
  assert (bi / 8 < 512) by (apply Z.div_lt_upper_bound; lia).
  assert (0 <= bi / 8) by (apply Z.div_pos; lia). lia.
Qed.

Lemma bit_get_set bi bj :
  0 <= bi < BPB -> 0 <= bj < BPB ->
  bit_get (bit_set d bi) bj = bool_decide (bj = bi) || bit_get d bj.
Proof.
  intros Hi Hj. rewrite !bit_get_testbit by lia. unfold bit_set.
  rewrite nth_alter by (by apply bit_bound).
  pose proof (Z.mod_pos_bound bi 8 ltac:(lia)). pose proof (Z.mod_pos_bound bj 8 ltac:(lia)).
  case_decide as He.
  - rewrite <- He, Z.lor_spec, Z.shiftl_spec, testbit_one, orb_comm by lia. f_equal.
    destruct (Z.eqb_spec (bj mod 8 - bi mod 8) 0) as [H8|H8].
    + rewrite bool_decide_true; [done|]. apply bit_index; [lia|lia| |lia].
      assert (0 <= bi / 8) by (apply Z.div_pos; lia). assert (0 <= bj / 8) by (apply Z.div_pos; lia). lia.
    + rewrite bool_decide_false; [done|]. intros ->. lia.
  - rewrite bool_decide_false; [done|]. by intros ->.
Qed.

Lemma bit_get_clear bi bj :
  0 <= bi < BPB -> 0 <= bj < BPB ->
  bit_get (bit_clear d bi) bj = negb (bool_decide (bj = bi)) && bit_get d bj.
Proof.
  intros Hi Hj. rewrite !bit_get_testbit by lia. unfold bit_clear.
  rewrite nth_alter by (by apply bit_bound).
  pose proof (Z.mod_pos_bound bi 8 ltac:(lia)). pose proof (Z.mod_pos_bound bj 8 ltac:(lia)).
  case_decide as He.
  - rewrite <- He. unfold u8. rewrite Z.mod_pow2_bits_low by lia.
    rewrite Z.land_spec, Z.lnot_spec, Z.shiftl_spec, testbit_one, andb_comm by lia. f_equal. f_equal.
    destruct (Z.eqb_spec (bj mod 8 - bi mod 8) 0) as [H8|H8].
    + rewrite bool_decide_true; [done|]. apply bit_index; [lia|lia| |lia].
      assert (0 <= bi / 8) by (apply Z.div_pos; lia). assert (0 <= bj / 8) by (apply Z.div_pos; lia). lia.
    + rewrite bool_decide_false; [done|]. intros ->. lia.
  - rewrite bool_decide_false; [done|]. by intros ->.
Qed.

Lemma block_bit_set bi : block (bit_set d bi).
Proof. unfold block, bit_set. by rewrite length_alter. Qed.
Lemma block_bit_clear bi : block (bit_clear d bi).
Proof. unfold block, bit_clear. by rewrite length_alter. Qed.
End bits.

(** The first clear bit. *)
Lemma free_bit_spec n size b bi d :
  0 <= bi ->
  match free_bit n size b bi d with
  | Some r => bi <= r < bi + Z.of_nat n /\ b + r < size /\ bit_get d r = false /\
      forall j, bi <= j < r -> bit_get d j = true
  | None => forall j, bi <= j < bi + Z.of_nat n -> b + j < size -> bit_get d j = true
  end.
Proof.
  revert bi. induction n as [|n IH]; intros bi Hbi; cbn [free_bit]; [lia|].
  destruct (Z.ltb_spec (b + bi) size) as [Hlt|Hge]; [|intros j Hj; lia].
  destruct (bit_get d bi) eqn:Eb.
  - specialize (IH (bi + 1) ltac:(lia)). destruct (free_bit n size b (bi + 1) d) as [r|].
    + destruct IH as (Hr & Hs & Hf & Hall). split_and!; [lia..|done|].
      intros j Hj. destruct (decide (j = bi)) as [->|]; [done|]. apply Hall. lia.
    + intros j Hj Hs. destruct (decide (j = bi)) as [->|]; [done|]. apply IH; lia.
  - split_and!; [lia..|done|]. lia.
Qed.

(** ** States of the file system *)

(** Where things are: the inodes and the bitmap lie below the data blocks, and
    all of them are blocks the log can hold. *)
Record layout `{BlockLaws B} (sb : superblock) (dstart : Z) : Prop := {
  lay_size : 0 < sb_size sb <= FSSIZE;
  lay_bm : home (sb_bmapstart sb);
  lay_bm_data : sb_bmapstart sb < dstart <= sb_size sb;
  lay_inode : forall inum, 0 <= inum < sb_ninodes sb -> home (IBLOCK inum sb);
  lay_inode_bm : forall inum, 0 <= inum < sb_ninodes sb -> IBLOCK inum sb < sb_bmapstart sb;
  lay_ninodes : sb_ninodes sb < 2 ^ 16;
  lay_data : forall b, dstart <= b < sb_size sb -> home b
}.

Section states.
Context {B : Type} `{BlockLaws B} (sb : superblock) (me : Z).
Implicit Types (s : fs B) (Hd : gmap nat (Z * bool)) (L : gset Z) (v : Z -> list Z) (ic : list inode).

(** [s] has the inode cache [ic], and its blocks are as [blocks] says. *)
Record fs_at Hd L v ic s : Prop := {
  fa_sb : f_sb s = sb;
  fa_ic : f_icache s = ic;
  fa_me : f_me s = me;
  fa_blocks : blocks Hd L v (f_blk s)
}.

Definition not_held Hd (b : Z) : Prop := forall i m, Hd !! i <> Some (b, m).

Lemma fs_at_set_blk Hd L v ic Hd' L' v' s b :
  fs_at Hd L v ic s -> blocks Hd' L' v' b -> fs_at Hd' L' v' ic (set_f_blk b s).
Proof. intros [? ? ? ?] ?. by split. Qed.

Lemma fs_at_ext Hd L v v' ic s :
  fs_at Hd L v ic s -> (forall b, v b = v' b) -> fs_at Hd L v' ic s.
Proof. intros [? ? ? ?] He. split; [done..|]. by eapply blocks_ext. Qed.

Lemma fs_block Hd L v ic s b : fs_at Hd L v ic s -> block (v b).
Proof. intros [? ? ? Hb]. by eapply blocks_block. Qed.

Lemma set_f_blk_same s : set_f_blk (f_blk s) s = s.
Proof. by destruct s. Qed.

Section rules.
Context {Hd : gmap nat (Z * bool)} {L : gset Z} {v : Z -> list Z} {ic : list inode} {s : fs B}.
Context (Hs : fs_at Hd L v ic s).

Lemma geti_wp ip i (Q : inode -> fs B -> Prop) : ic !! ip = Some i -> Q i s -> wp (geti ip) Q s.
Proof. intros Hi HQ. unfold wp, geti. by rewrite (fa_ic _ _ _ _ _ Hs), Hi. Qed.

Lemma updi_wp ip f : wp (updi ip f) (fun _ s' => fs_at Hd L v (alter f ip ic) s') s.
Proof. destruct Hs as [? <- ? ?]. unfold updi. by apply wp_modify. Qed.

Lemma sb_wp (Q : superblock -> fs B -> Prop) : Q sb s -> wp (gets f_sb) Q s.
Proof. intros HQ. apply wp_gets. by rewrite (fa_sb _ _ _ _ _ Hs). Qed.

Lemma read_wp b :
  b < FSSIZE -> not_held Hd b -> (size Hd < 3)%nat -> (size L <= txn_cap)%nat ->
  wp (onb (b_read ROOTDEV b)) (fun i s' => Hd !! i = None /\ fs_at (<[i := (b, false)]> Hd) L v ic s') s.
Proof.
  intros Hb Hn H3 Hc. unfold onb. apply wp_zoom.
  eapply wp_mono; [eapply b_read_law; [apply Hs|done..]|].
  intros i s' [Hi Hbl]. split; [done|]. by eapply fs_at_set_blk.
Qed.

Lemma get_wp i b m :
  Hd !! i = Some (b, m) -> wp (onb (b_get i)) (fun d s' => d = v b /\ s' = s) s.
Proof.
  intros Hi. unfold onb. apply wp_zoom. eapply wp_mono; [eapply b_get_law; [apply Hs|done]|].
  intros d s' [-> ->]. split; [done|apply set_f_blk_same].
Qed.

Lemma set_wp i b m d :
  Hd !! i = Some (b, m) -> block d ->
  wp (onb (b_set i d)) (fun _ s' => fs_at (<[i := (b, true)]> Hd) L (fupd v b d) ic s') s.
Proof.
  intros Hi Hd'. unfold onb. apply wp_zoom. eapply wp_mono; [eapply b_set_law; [apply Hs|done..]|].
  intros [] s' Hb. by eapply fs_at_set_blk.
Qed.

Lemma log_wp i b m :
  Hd !! i = Some (b, m) -> home b -> (size ({[b]} ∪ L) <= txn_cap)%nat ->
  wp (onb (b_log i)) (fun _ s' => fs_at (<[i := (b, false)]> Hd) ({[b]} ∪ L) v ic s') s.
Proof.
  intros Hi Hh Hc. unfold onb. apply wp_zoom. eapply wp_mono; [eapply b_log_law; [apply Hs|done..]|].
  intros [] s' Hb. by eapply fs_at_set_blk.
Qed.

Lemma release_wp i b :
  Hd !! i = Some (b, false) ->
  wp (onb (b_release i)) (fun _ s' => fs_at (delete i Hd) L v ic s') s.
Proof.
  intros Hi. unfold onb. apply wp_zoom. eapply wp_mono; [eapply b_release_law; [apply Hs|done]|].
  intros [] s' Hb. by eapply fs_at_set_blk.
Qed.
End rules.

(** A whole read and a whole change of a block. *)
Lemma read_block_wp Hd L v ic s b :
  fs_at Hd L v ic s -> b < FSSIZE -> not_held Hd b -> (size Hd < 3)%nat -> (size L <= txn_cap)%nat ->
  wp (read_block ROOTDEV b) (fun d s' => d = v b /\ fs_at Hd L v ic s') s.
Proof.
  intros Hs Hb Hn H3 Hc. unfold read_block, onb. apply wp_zoom, wp_bind.
  eapply wp_mono; [eapply b_read_law; [apply Hs|done..]|]. intros i s1 [Hi Hb1].
  apply wp_bind. eapply wp_mono; [eapply b_get_law; [done|by rewrite lookup_insert_eq]|].
  intros d s2 [-> ->]. apply wp_bind.
  eapply wp_mono; [eapply b_release_law; [done|by rewrite lookup_insert_eq]|]. intros [] s3 Hb3.
  apply wp_ret. split; [done|]. rewrite delete_insert_id in Hb3 by done. by eapply fs_at_set_blk.
Qed.

Lemma modify_block_wp Hd L v ic s b f :
  fs_at Hd L v ic s -> home b -> not_held Hd b -> (size Hd < 3)%nat ->
  (size ({[b]} ∪ L) <= txn_cap)%nat -> (forall d, block d -> block (f d)) ->
  wp (modify_block ROOTDEV b f) (fun _ s' => fs_at Hd ({[b]} ∪ L) (fupd v b (f (v b))) ic s') s.
Proof.
  intros Hs Hb Hn H3 Hc Hf. unfold modify_block, onb. apply wp_zoom, wp_bind.
  pose proof (home_range b Hb). pose proof (fs_block _ _ _ _ _ b Hs) as Hbl.
  eapply wp_mono; [eapply b_read_law; [apply Hs|lia|done|done|eapply size_cap; [|done]; set_solver]|].
  intros i s1 [Hi Hb1]. apply wp_bind.
  eapply wp_mono; [eapply b_get_law; [done|by rewrite lookup_insert_eq]|]. intros d s2 [-> ->].
  apply wp_bind. eapply wp_mono; [eapply b_set_law; [done|by rewrite lookup_insert_eq|by apply Hf]|].
  intros [] s3 Hb3. rewrite insert_insert_eq in Hb3. apply wp_bind.
  eapply wp_mono; [eapply b_log_law; [done|by rewrite lookup_insert_eq|done|done]|].
  intros [] s4 Hb4. rewrite insert_insert_eq in Hb4.
  eapply wp_mono; [eapply b_release_law; [done|by rewrite lookup_insert_eq]|].
  intros [] s5 Hb5. rewrite delete_insert_id in Hb5 by done. by eapply fs_at_set_blk.
Qed.

(** Load a block into a held buffer and look at it. *)
Lemma fetch_wp {A} Hd L v ic s b (k : nat -> list Z -> M (fs B) A) Q :
  fs_at Hd L v ic s -> b < FSSIZE -> not_held Hd b -> (size Hd < 3)%nat -> (size L <= txn_cap)%nat ->
  (forall bp s', Hd !! bp = None -> fs_at (<[bp := (b, false)]> Hd) L v ic s' -> wp (k bp (v b)) Q s') ->
  wp (let! bp := onb (b_read ROOTDEV b) in let! d := onb (b_get bp) in k bp d) Q s.
Proof.
  intros Hs Hb Hn H3 Hc HQ. rewrite wp_bind. eapply wp_mono; [by eapply read_wp|].
  intros bp s1 [Hbp Hs1]. rewrite wp_bind.
  eapply wp_mono; [eapply get_wp; [done|by rewrite lookup_insert_eq]|]. intros d ? [-> ->]. by apply HQ.
Qed.

(** Store into a held buffer, log it and give it back. *)
Lemma store_end_wp Hd L v ic s bp b d :
  fs_at (<[bp := (b, false)]> Hd) L v ic s -> Hd !! bp = None -> home b -> block d ->
  (size ({[b]} ∪ L) <= txn_cap)%nat ->
  wp (onb (b_set bp d);;; onb (b_log bp);;; onb (b_release bp))
    (fun _ s' => fs_at Hd ({[b]} ∪ L) (fupd v b d) ic s') s.
Proof.
  intros Hs Hbp Hb Hd' Hc. rewrite wp_bind.
  eapply wp_mono; [eapply set_wp; [done|by rewrite lookup_insert_eq|done]|].
  intros [] s2 Hs2. rewrite insert_insert_eq in Hs2. rewrite wp_bind.
  eapply wp_mono; [eapply log_wp; [done|by rewrite lookup_insert_eq|done..]|].
  intros [] s3 Hs3. rewrite insert_insert_eq in Hs3.
  eapply wp_mono; [eapply release_wp; [done|by rewrite lookup_insert_eq]|].
  intros [] s4 Hs4. by rewrite delete_insert_id in Hs4.
Qed.

Lemma store_wp {A} Hd L v ic s bp b d (k : M (fs B) A) Q :
  fs_at (<[bp := (b, false)]> Hd) L v ic s -> Hd !! bp = None -> home b -> block d ->
  (size ({[b]} ∪ L) <= txn_cap)%nat ->
  (forall s', fs_at Hd ({[b]} ∪ L) (fupd v b d) ic s' -> wp k Q s') ->
  wp (onb (b_set bp d);;; onb (b_log bp);;; onb (b_release bp);;; k) Q s.
Proof.
  intros Hs Hbp Hb Hd' Hc HQ.
  pose proof (store_end_wp Hd L v ic s bp b d Hs Hbp Hb Hd' Hc) as Hw.
  rewrite !wp_bind in *. eapply wp_mono; [exact Hw|]. intros [] s1 Hw1. rewrite !wp_bind in *.
  eapply wp_mono; [exact Hw1|]. intros [] s2 Hw2. rewrite !wp_bind in *.
  eapply wp_mono; [exact Hw2|]. intros [] s3 Hs3. by apply HQ.
Qed.

(** Give back a held buffer that was only looked at. *)
Lemma drop_wp {A} Hd L v ic s bp b (k : M (fs B) A) Q :
  fs_at (<[bp := (b, false)]> Hd) L v ic s -> Hd !! bp = None ->
  (forall s', fs_at Hd L v ic s' -> wp k Q s') -> wp (onb (b_release bp);;; k) Q s.
Proof.
  intros Hs Hbp HQ. rewrite wp_bind.
  eapply wp_mono; [eapply release_wp; [done|by rewrite lookup_insert_eq]|].
  intros [] s4 Hs4. rewrite delete_insert_id in Hs4 by done. by apply HQ.
Qed.
End states.

(** ** Allocating and freeing blocks *)

Lemma fupd_eq (v : Z -> list Z) b d : fupd v b d b = d.
Proof. unfold fupd. by rewrite bool_decide_true. Qed.
Lemma fupd_ne (v : Z -> list Z) b b' d : b' <> b -> fupd v b d b' = v b'.
Proof. intros. unfold fupd. by rewrite bool_decide_false. Qed.

Section bitmap.
Context {B : Type} `{BlockLaws B} (sb : superblock) (me dstart : Z) (Hlay : layout sb dstart).
Implicit Types (s : fs B) (Hd : gmap nat (Z * bool)) (L : gset Z) (v : Z -> list Z) (ic : list inode).

Definition bm : Z := sb_bmapstart sb.
Definition is_data (b : Z) : Prop := dstart <= b < sb_size sb.
(** Block [b] is in use. *)
Definition used v (b : Z) : bool := bit_get (v bm) b.
(** The blocks below the data are in use. *)
Definition meta_used v : Prop := forall b, 0 <= b < dstart -> used v b = true.
Definition has_free v : Prop := exists b, 0 <= b < sb_size sb /\ used v b = false.

Definition alloc v (b : Z) : Z -> list Z := fupd (fupd v bm (bit_set (v bm) b)) b zero_block.
Definition freed v (b : Z) : Z -> list Z := fupd v bm (bit_clear (v bm) b).

(** Held buffers are of blocks in use, and not of the bitmap. *)
Definition held_ok Hd v : Prop :=
  forall i b m, Hd !! i = Some (b, m) -> b <> bm /\ 0 <= b < BPB /\ used v b = true.

Lemma size_BPB : sb_size sb <= BPB.
Proof. destruct (lay_size _ _ Hlay). unfold FSSIZE, BPB, BSIZE in *. lia. Qed.

Lemma bm_range : 1 < bm < FSSIZE.
Proof. apply home_range, Hlay. Qed.

Lemma dstart_pos : 0 < dstart.
Proof. pose proof bm_range. pose proof (lay_bm_data _ _ Hlay). unfold bm in *. lia. Qed.

Lemma data_ne_bm b : is_data b -> b <> bm.
Proof. intros Hb. pose proof (lay_bm_data _ _ Hlay). unfold is_data, bm in *. lia. Qed.

Lemma data_bit b : is_data b -> 0 <= b < BPB.
Proof. intros Hb. pose proof size_BPB. pose proof dstart_pos. unfold is_data in Hb. lia. Qed.

Lemma BBLOCK_bm b : 0 <= b < BPB -> BBLOCK b sb = bm.
Proof. intros Hb. unfold BBLOCK. by rewrite Z.div_small. Qed.

Lemma used_alloc v b b' :
  block (v bm) -> is_data b -> 0 <= b' < BPB -> used (alloc v b) b' = bool_decide (b' = b) || used v b'.
Proof.
  intros Hv Hb Hb'. unfold used, alloc. pose proof (data_ne_bm b Hb).
  rewrite fupd_ne by done. rewrite fupd_eq. apply bit_get_set; [done| |done]. by apply data_bit.
Qed.

Lemma used_freed v b b' :
  block (v bm) -> is_data b -> 0 <= b' < BPB ->
  used (freed v b) b' = negb (bool_decide (b' = b)) && used v b'.
Proof.
  intros Hv Hb Hb'. unfold used, freed. rewrite fupd_eq. apply bit_get_clear; [done| |done].
  by apply data_bit.
Qed.

Lemma alloc_frame v b b' : b' <> b -> b' <> bm -> alloc v b b' = v b'.
Proof. intros. unfold alloc. by rewrite !fupd_ne. Qed.

Lemma bzero_wp Hd L v ic s b :
  fs_at sb me Hd L v ic s -> home b -> not_held Hd b -> (size Hd < 3)%nat ->
  (size ({[b]} ∪ L) <= txn_cap)%nat ->
  wp (bzero ROOTDEV b) (fun _ s' => fs_at sb me Hd ({[b]} ∪ L) (fupd v b zero_block) ic s') s.
Proof. intros. unfold bzero. by eapply modify_block_wp. Qed.

Lemma balloc_run Hd L v ic s :
  fs_at sb me Hd L v ic s -> meta_used v -> has_free v -> held_ok Hd v -> (size Hd < 3)%nat ->
  (size ({[bm]} ∪ L) < txn_cap)%nat ->
  wp (balloc ROOTDEV) (fun b s' =>
    is_data b /\ used v b = false /\ (forall b', 0 <= b' < b -> used v b' = true) /\
    fs_at sb me Hd ({[b]} ∪ ({[bm]} ∪ L)) (alloc v b) ic s') s.
Proof.
  intros Hs Hmeta (b0 & Hb0 & Hf0) Hheld H3 Hcap. unfold balloc. rewrite wp_bind.
  eapply sb_wp; [done|]. pose proof (lay_size _ _ Hlay) as Hsz. pose proof size_BPB as HB.
  pose proof bm_range as Hbm.
  destruct (Z.to_nat (sb_size sb / BPB + 1)) as [|n] eqn:En.
  { assert (0 <= sb_size sb / BPB) by (apply Z.div_pos; unfold BPB, BSIZE; lia). lia. }
  cbn [balloc_from]. rewrite wp_bind. eapply sb_wp; [done|].
  rewrite (proj2 (Z.ltb_lt 0 _)) by lia. rewrite BBLOCK_bm by (unfold BPB, BSIZE; lia).
  eapply fetch_wp; [done|lia| |done|eapply size_cap; [|apply Nat.lt_le_incl, Hcap]; set_solver|].
  { intros i m Hi. by destruct (Hheld i bm m Hi). }
  intros bp s1 Hbp Hs1.
  pose proof (free_bit_spec (Z.to_nat BPB) (sb_size sb) 0 0 (v bm) ltac:(lia)) as Hfb.
  pose proof (fs_block _ _ _ _ _ _ _ bm Hs) as Hblk.
  destruct (free_bit _ _ 0 0 (v bm)) as [b|].
  2: { unfold used in Hf0. rewrite Hfb in Hf0; [done| |lia]. unfold BPB, BSIZE in *. lia. }
  destruct Hfb as (Hb & Hbs & Hfree & Hleast). rewrite Z.add_0_l in *.
  assert (is_data b) as Hdata.
  { split; [|lia]. apply Z.nlt_ge. intros Hlt. unfold meta_used, used in Hmeta.
    rewrite Hmeta in Hfree; [done|lia]. }
  eapply store_wp; [done|done|apply Hlay|by apply block_bit_set|unfold bm in *; lia|].
  intros s4 Hs4. rewrite wp_bind.
  eapply wp_mono; [eapply bzero_wp; [done|by apply Hlay| |done|]|].
  { intros i m Hi. destruct (Hheld i b m Hi) as (_ & _ & Hu). unfold used in Hu. congruence. }
  { pose proof (size_union_alt ({[b]} : gset Z) ({[bm]} ∪ L)) as Hun. rewrite size_singleton in Hun.
    assert (size (({[bm]} ∪ L) ∖ {[b]} : gset Z) <= size ({[bm]} ∪ L))%nat
      by (apply subseteq_size; set_solver). unfold bm in *. lia. }
  intros [] s5 Hs5. apply wp_ret. split_and!; [done..| |done].
  intros b' Hb'. apply Hleast. lia.
Qed.

Lemma bfree_run Hd L v ic s b :
  fs_at sb me Hd L v ic s -> is_data b -> used v b = true -> not_held Hd bm -> (size Hd < 3)%nat ->
  (size ({[bm]} ∪ L) <= txn_cap)%nat ->
  wp (bfree ROOTDEV b) (fun _ s' => fs_at sb me Hd ({[bm]} ∪ L) (freed v b) ic s') s.
Proof.
  intros Hs Hb Hu Hn H3 Hcap. unfold bfree. rewrite wp_bind. eapply sb_wp; [done|].
  pose proof (data_bit b Hb). rewrite BBLOCK_bm, Z.mod_small by done. pose proof bm_range.
  eapply fetch_wp; [done|lia|done|done|eapply size_cap; [|done]; set_solver|]. intros bp s1 Hbp Hs1.
  unfold used in Hu. rewrite Hu. pose proof (fs_block _ _ _ _ _ _ _ bm Hs) as Hblk.
  eapply store_end_wp; [done|done|apply Hlay|by apply block_bit_clear|done].
Qed.
End bitmap.
