(* ===== verification/FsDemo.v ===== *)
(** * FsDemo: a small file system

    A disk with a root directory and one file, mounted: the state at which the
    theorems on fs.c are evaluated. *)

From stdpp Require Import base list numbers gmap strings.
From S2P Require Import Prelude Bytes Params Sleeplock Bio Log Crash Blocks Fs FsInv.

Local Open Scope Z_scope.
Local Open Scope os_scope.

(** ** Mounting *)

Lemma mounted st nlog d pid :
  geometry st nlog -> log_disk st nlog d ->
  wp (initlog ROOTDEV)
    (fun _ s => log_idle st nlog (on_disk (dwrites (recover_ws st (on_disk d)) d)) s) (boot d pid).
Proof.
  intros Hg Hd. eapply wp_mono; [by apply (initlog_wp st nlog)|].
  intros [] s1 (v & Hc & (Hd1 & _) & Hl & Ho & Hcm). cbn [hdisk binit] in Hd1. split_and!; try done.
  eapply cache_ext; [done|]. intros b. rewrite (clean_view _ _ _ b Hc) by set_solver. by rewrite Hd1.
Qed.

(** ** The disk *)

Definition tiny_sb : superblock :=
  {| sb_size := 1000; sb_nblocks := 941; sb_ninodes := 200; sb_nlog := 30;
     sb_logstart := 2; sb_inodestart := 32; sb_bmapstart := 58 |}.
Definition tiny_sb_block : list Z :=
  splice zero_block 0 (mjoin (le_split 4 <$> [1000; 941; 200; 30; 2; 32; 58])).
Definition tiny_root : dinode :=
  {| d_type := T_DIR; d_major := 0; d_minor := 0; d_nlink := 1; d_size := 48;
     d_addrs := 59 :: replicate 12 0 |}.
Definition tiny_file : dinode :=
  {| d_type := T_FILE; d_major := 0; d_minor := 0; d_nlink := 1; d_size := 5;
     d_addrs := 60 :: replicate 12 0 |}.
Definition tiny_disk : disk := list_to_map [
  ((ROOTDEV, 1), tiny_sb_block);
  ((ROOTDEV, 32), put_dinode (put_dinode zero_block 64 tiny_root) 128 tiny_file);
  ((ROOTDEV, 58), splice zero_block 0 (replicate 7 255 ++ [31]));
  ((ROOTDEV, 59), splice zero_block 0 (mk_dirent [46] 1 ++ mk_dirent [46; 46] 1 ++ mk_dirent [97] 2));
  ((ROOTDEV, 60), splice zero_block 0 [104; 101; 108; 108; 111])
].

(** ** The mounted state *)

(** A process has the file open and locked; the root is in the cache, to be loaded. *)
Definition tiny_inode (inum : Z) (locked : bool) (x : dinode) (valid : bool) : inode :=
  {| i_dev := ROOTDEV; i_inum := inum; i_ref := 1; i_lock := {| sl_locked := locked; sl_pid := 1 |};
     i_valid := valid; i_type := d_type x; i_major := 0; i_minor := 0; i_nlink := d_nlink x;
     i_size := d_size x; i_addrs := d_addrs x |}.
Definition tiny_icache : list inode :=
  tiny_inode 2 true tiny_file true :: tiny_inode 1 false (zero_dinode 0) false ::
  replicate (Z.to_nat (NINODE - 2)) zero_inode.
Definition tiny_v : Z -> list Z := on_disk (dwrites (recover_ws 2 (on_disk tiny_disk)) tiny_disk).
Definition tiny_log : log :=
  match initlog ROOTDEV (boot tiny_disk 1) with Done (_, s) => s | _ => boot tiny_disk 1 end.
Definition tiny_open : log :=
  match begin_op tiny_log with Done (_, s) => s | _ => tiny_log end.
Definition tiny : fs log :=
  {| f_blk := tiny_open; f_sb := tiny_sb; f_icache := tiny_icache; f_me := 1 |}.

Lemma tiny_geometry : geometry 2 30.
Proof. by split. Qed.

#[export] Instance tiny_laws : BlockLaws log := log_laws 2 30 tiny_geometry 1.
#[export] Instance tiny_txn_laws : TxnLaws log := log_txn_laws 2 30 tiny_geometry.

Lemma tiny_disk_ok : log_disk 2 30 tiny_disk.
Proof.
  split; try by vm_compute. intros k l Hk%elem_of_list_to_map_2.
  repeat (apply elem_of_cons in Hk as [[= -> ->]|Hk]; [by vm_compute|]). by apply not_elem_of_nil in Hk.
Qed.

Lemma tiny_idle : idle tiny_v tiny_log.
Proof.
  destruct (wp_returns _ _ _ (mounted 2 30 tiny_disk 1 tiny_geometry tiny_disk_ok))
    as ([] & s & Hrun & Hs). unfold tiny_log. rewrite Hrun. exact Hs.
Qed.

Lemma tiny_at : fs_at tiny_sb 1 ∅ ∅ tiny_v tiny_icache tiny.
Proof.
  split; [done..|]. destruct (wp_returns _ _ _ (b_begin_law _ _ tiny_idle)) as ([] & s & Hrun & Hs).
  cbn [f_blk tiny]. unfold tiny_open. cbn [b_begin log_txn] in Hrun. rewrite Hrun. exact Hs.
Qed.

Lemma tiny_home b : 32 <= b < 1000 -> home b.
Proof. intros Hb. cbn. unfold home_ok, in_log, FSSIZE. lia. Qed.

Lemma tiny_layout : layout tiny_sb 59.
Proof.
  split; cbn [tiny_sb sb_size sb_bmapstart sb_ninodes]; try done.
  - by apply tiny_home.
  - intros inum Hi. apply tiny_home. unfold IBLOCK. change IPB with 8. cbn. Z.div_mod_to_equations. lia.
  - intros inum Hi. unfold IBLOCK. change IPB with 8. cbn. Z.div_mod_to_equations. lia.
  - intros b Hb. apply tiny_home. lia.
Qed.
