(* ===== verification/FsInode.v ===== *)
(** * FsInode: inodes on disk and in memory (fs.c)

    The on-disk format of an inode round trips, and [iupdate] and [ilock] copy
    between the disk and the cache. *)

From stdpp Require Import base list numbers gmap strings.
From S2P Require Import Prelude Bytes Params Sleeplock Bio Log Blocks Fs FsInv FsDemo.

Local Open Scope Z_scope.
Local Open Scope os_scope.

(** ** The format *)

Definition is_i16 (z : Z) : Prop := - 2 ^ 15 <= z < 2 ^ 15.
Record dinode_wf (x : dinode) : Prop := {
  dw_type : is_i16 (d_type x); dw_major : is_i16 (d_major x); dw_minor : is_i16 (d_minor x);
  dw_nlink : is_i16 (d_nlink x); dw_size : is_u32 (d_size x);
  dw_len : length (d_addrs x) = 13%nat; dw_addrs : Forall is_u32 (d_addrs x)
}.

Lemma i16_mod z : is_i16 z -> i16 (z mod 2 ^ 16) = z.
Proof.
  unfold is_i16, i16. change (2 ^ 15) with 32768. change (2 ^ 16) with 65536. intros.
  Z.div_mod_to_equations. lia.
Qed.

Lemma get_le_splice n d off bs k :
  (off + length bs <= length d)%nat -> (k + n <= length bs)%nat ->
  get_le n (splice d off bs) (off + k) = le_combine (take n (drop k bs)).
Proof.
  intros Hl Hk. unfold get_le. rewrite splice_app by done. f_equal.
  rewrite <- drop_drop, drop_app_length' by (rewrite length_take; lia).
  rewrite drop_app_le, take_app_le by (rewrite ?length_drop; lia). done.
Qed.

(** A field between what precedes and what follows it. *)
Lemma take_field n pre z post k :
  length pre = k -> take n (drop k (pre ++ le_split n z ++ post)) = le_split n z.
Proof.
  intros <-. rewrite drop_app_length. rewrite take_app_length'; [done|]. by rewrite length_le_split.
Qed.

Lemma get_field n d off bs pre z post k :
  bs = pre ++ le_split n z ++ post -> length pre = k -> (off + length bs <= length d)%nat ->
  get_le n (splice d off bs) (off + k) = z mod 2 ^ (8 * Z.of_nat n).
Proof.
  intros -> Hk Hl. rewrite get_le_splice.
  - by rewrite take_field, le_combine_split.
  - done.
  - rewrite !length_app, length_le_split. lia.
Qed.

Lemma length_words l : length (mjoin (le_split 4 <$> l)) = (4 * length l)%nat.
Proof.
  induction l as [|z l IH]; [done|].
  change (length (le_split 4 z ++ mjoin (le_split 4 <$> l)) = (4 * S (length l))%nat).
  rewrite length_app, length_le_split, IH. lia.
Qed.

Lemma words_split l k z :
  l !! k = Some z ->
  mjoin (le_split 4 <$> l) =
  mjoin (le_split 4 <$> take k l) ++ le_split 4 z ++ mjoin (le_split 4 <$> drop (S k) l).
Proof.
  intros Hk. rewrite <- (take_drop_middle l k z Hk) at 1. by rewrite fmap_app, join_app.
Qed.

Lemma length_dinode_bytes x : dinode_wf x -> length (dinode_bytes x) = 64%nat.
Proof.
  intros Hx. unfold dinode_bytes. rewrite !length_app, !length_le_split, length_words, (dw_len _ Hx). done.
Qed.

Lemma dinode_ext x y :
  d_type x = d_type y -> d_major x = d_major y -> d_minor x = d_minor y -> d_nlink x = d_nlink y ->
  d_size x = d_size y -> d_addrs x = d_addrs y -> x = y.
Proof. destruct x, y; cbn; intros; by subst. Qed.

Lemma get_put_dinode d off x :
  dinode_wf x -> (off + 64 <= length d)%nat -> get_dinode (put_dinode d off x) off = x.
Proof.
  intros Hx Hl. pose proof (length_dinode_bytes x Hx) as Hlen. unfold put_dinode.
  assert (forall n pre z post k, dinode_bytes x = pre ++ le_split n z ++ post -> length pre = k ->
    get_le n (splice d off (dinode_bytes x)) (off + k) = z mod 2 ^ (8 * Z.of_nat n)) as G
    by (intros; eapply get_field; [done|done|lia]).
  destruct Hx as [H1 H2 H3 H4 H5 H6 H7].
  apply dinode_ext; cbn [get_dinode d_type d_major d_minor d_nlink d_size d_addrs]; unfold get16, get32.
  - rewrite <- (Nat.add_0_r off) at 2. erewrite (G 2%nat [] (d_type x) _ 0%nat); [by apply i16_mod|done|done].
  - erewrite (G 2%nat (le_split 2 (d_type x)) (d_major x) _ 2%nat); [by apply i16_mod|done|done].
  - erewrite (G 2%nat (le_split 2 (d_type x) ++ le_split 2 (d_major x)) (d_minor x) _ 4%nat);
      [by apply i16_mod|by rewrite <- !app_assoc|done].
  - erewrite (G 2%nat (le_split 2 (d_type x) ++ le_split 2 (d_major x) ++ le_split 2 (d_minor x)) (d_nlink x) _ 6%nat);
      [by apply i16_mod|by rewrite <- !app_assoc|done].
  - erewrite (G 4%nat (le_split 2 (d_type x) ++ le_split 2 (d_major x) ++ le_split 2 (d_minor x) ++
      le_split 2 (d_nlink x)) (d_size x) _ 8%nat); [|by rewrite <- !app_assoc|done].
    apply Z.mod_small. exact H5.
  - apply list_eq. intros k. rewrite list_lookup_fmap.
    destruct (decide (k < 13)%nat) as [Hk|Hk].
    + rewrite lookup_seq_lt by done. cbn [fmap option_fmap option_map].
      destruct (lookup_lt_is_Some_2 (d_addrs x) k) as [z Hz]; [lia|]. rewrite Hz. f_equal.
      rewrite <- Nat.add_assoc.
      rewrite (G 4%nat (le_split 2 (d_type x) ++ le_split 2 (d_major x) ++ le_split 2 (d_minor x) ++
        le_split 2 (d_nlink x) ++ le_split 4 (d_size x) ++ mjoin (le_split 4 <$> take k (d_addrs x))) z
        (mjoin (le_split 4 <$> drop (S k) (d_addrs x))) (12 + 4 * (0 + k))%nat).
      * apply Z.mod_small. rewrite Forall_lookup in H7. by apply (H7 k).
      * unfold dinode_bytes. rewrite (words_split (d_addrs x) k z) by done. by rewrite <- !app_assoc.
      * rewrite !length_app, !length_le_split, length_words, length_take. lia.
    + rewrite lookup_seq_ge by lia. symmetry. apply lookup_ge_None. lia.
Qed.

Lemma get_put_dinode_ne d off off' x :
  dinode_wf x -> (off' + 64 <= off \/ off + 64 <= off')%nat ->
  get_dinode (put_dinode d off x) off' = get_dinode d off'.
Proof.
  intros Hx Hne. pose proof (length_dinode_bytes x Hx) as Hlen. unfold put_dinode.
  assert (forall n k, (k + n <= 64)%nat ->
    get_le n (splice d off (dinode_bytes x)) (off' + k) = get_le n d (off' + k)) as G.
  { intros n k Hk. unfold get_le. f_equal. apply splice_take_drop_ne. lia. }
  apply dinode_ext; cbn [get_dinode d_type d_major d_minor d_nlink d_size d_addrs]; unfold get16, get32.
  - rewrite <- (Nat.add_0_r off') at 1 2. by rewrite G by lia.
  - by rewrite G by lia.
  - by rewrite G by lia.
  - by rewrite G by lia.
  - by rewrite G by lia.
  - apply list_fmap_ext. intros j k Hk%lookup_seq. rewrite <- !Nat.add_assoc. by rewrite G by lia.
Qed.

(** ** Copying between disk and cache *)

Section inodes.
Context {B : Type} `{BlockLaws B} (sb : superblock) (me dstart : Z) (Hlay : layout sb dstart).
Implicit Types (s : fs B) (Hd : gmap nat (Z * bool)) (L : gset Z) (v : Z -> list Z)
  (ic : list inode) (i : inode).
#[local] Abbreviation fs_at := (fs_at sb me).

Definition disk_inode v (inum : Z) : dinode := get_dinode (v (IBLOCK inum sb)) (inode_off inum).
Definition inum_ok (inum : Z) : Prop := 0 <= inum < sb_ninodes sb.

(** The contents of the blocks with inode [inum] replaced. *)
Definition put_inode v (inum : Z) (x : dinode) : Z -> list Z :=
  fupd v (IBLOCK inum sb) (put_dinode (v (IBLOCK inum sb)) (inode_off inum) x).

Lemma inode_off_bound inum : (inode_off inum + 64 <= 512)%nat.
Proof. unfold inode_off. pose proof (Z.mod_pos_bound inum IPB ltac:(done)). fs_lia. Qed.

Lemma disk_inode_put v inum x :
  block (v (IBLOCK inum sb)) -> dinode_wf x -> disk_inode (put_inode v inum x) inum = x.
Proof.
  intros Hb Hx. unfold disk_inode, put_inode. rewrite fupd_eq. apply get_put_dinode; [done|].
  pose proof (inode_off_bound inum). unfold block in Hb. fs_lia.
Qed.

Lemma disk_inode_put_ne v inum inum' x :
  0 <= inum -> 0 <= inum' -> inum' <> inum -> dinode_wf x ->
  disk_inode (put_inode v inum x) inum' = disk_inode v inum'.
Proof.
  intros H1' H2' Hne Hx. unfold disk_inode, put_inode.
  destruct (decide (IBLOCK inum' sb = IBLOCK inum sb)) as [He|Hb]; [|by rewrite fupd_ne].
  rewrite He, fupd_eq. apply get_put_dinode_ne; [done|]. unfold IBLOCK, inode_off in *.
  change IPB with 8 in *. change DINODESZ with 64. Z.div_mod_to_equations. lia.
Qed.

Lemma iupdate_run Hd L v ic s ip i :
  fs_at Hd L v ic s -> ic !! ip = Some i -> i_dev i = ROOTDEV -> inum_ok (i_inum i) ->
  not_held Hd (IBLOCK (i_inum i) sb) -> (size Hd < 3)%nat ->
  (size ({[IBLOCK (i_inum i) sb]} ∪ L) <= txn_cap)%nat ->
  wp (iupdate ip) (fun _ s' =>
    fs_at Hd ({[IBLOCK (i_inum i) sb]} ∪ L) (put_inode v (i_inum i) (i_disk i)) ic s') s.
Proof.
  intros Hs Hip Hdev Hin Hn H3 Hc. unfold iupdate. rewrite wp_bind. eapply sb_wp; [done|].
  rewrite wp_bind. eapply geti_wp; [done..|]. rewrite Hdev.
  eapply modify_block_wp; try done; [by apply Hlay|]. intros d. unfold block, put_dinode.
  by rewrite length_splice.
Qed.

(** The lock of the entry is free and someone has a reference to it. *)
Definition lockable i : Prop := 1 <= i_ref i /\ sl_locked (i_lock i) = false.
Definition my_lock : sleeplock := {| sl_locked := true; sl_pid := me |}.

Lemma acquire_inode_wp Hd L v ic s ip i :
  fs_at Hd L v ic s -> ic !! ip = Some i -> sl_locked (i_lock i) = false ->
  wp (acquire_inode ip) (fun _ s' => fs_at Hd L v (<[ip := set_i_lock my_lock i]> ic) s') s.
Proof.
  intros Hs Hip Hl. unfold acquire_inode, wp. rewrite (fa_ic _ _ _ _ _ _ _ Hs), Hip.
  rewrite acquiresleep_free, (fa_me _ _ _ _ _ _ _ Hs) by done.
  rewrite <- (list_alter_insert (set_i_lock my_lock) ip ic i) by done. exact (updi_wp sb me Hs ip _).
Qed.

(** What [ilock] makes of an entry. *)
Definition loaded v i : inode :=
  set_i_lock my_lock (if i_valid i then i else set_i_valid true (set_i_disk (disk_inode v (i_inum i)) i)).

Lemma ilock_run Hd L v ic s ip i :
  fs_at Hd L v ic s -> ic !! ip = Some i -> lockable i -> i_dev i = ROOTDEV -> inum_ok (i_inum i) ->
  not_held Hd (IBLOCK (i_inum i) sb) -> (size Hd < 3)%nat -> (size L <= txn_cap)%nat ->
  (i_valid i = false -> d_type (disk_inode v (i_inum i)) <> 0) ->
  wp (ilock ip) (fun _ s' => fs_at Hd L v (<[ip := loaded v i]> ic) s') s.
Proof.
  intros Hs Hip [Hr Hl] Hdev Hin Hn H3 Hc Hty. unfold ilock. rewrite wp_bind. eapply geti_wp; [done..|].
  rewrite (proj2 (Z.ltb_ge _ _)) by lia. rewrite wp_bind.
  eapply wp_mono; [by eapply acquire_inode_wp|]. intros [] s1 Hs1. rewrite wp_bind.
  assert (<[ip:=set_i_lock my_lock i]> ic !! ip = Some (set_i_lock my_lock i)) as Hip1
    by (by apply list_lookup_insert_eq, (lookup_lt_Some _ _ i)).
  eapply geti_wp; [done..|]. cbn [i_valid set_i_lock i_dev i_inum]. unfold loaded.
  destruct (i_valid i) eqn:Ev; [by apply wp_ret|].
  rewrite wp_bind. eapply sb_wp; [done|]. rewrite Hdev, wp_bind.
  pose proof (home_range _ (lay_inode _ _ Hlay _ Hin)).
  eapply wp_mono; [eapply read_block_wp; (done || lia)|]. intros d s2 [-> Hs2]. cbv zeta.
  rewrite wp_bind. eapply wp_mono; [by eapply updi_wp|]. intros [] s3 Hs3.
  change (get_dinode _ _) with (disk_inode v (i_inum i)) in *.
  rewrite (proj2 (Z.eqb_neq _ _)) by (by apply Hty). apply wp_ret.
  rewrite (list_alter_insert _ _ _ _ Hip1), list_insert_insert_eq in Hs3. exact Hs3.
Qed.

(** [iupdate] stores an inode on disk so that [ilock], in any
    later state with these blocks, reads the same inode into an entry of the
    cache for its number; the inodes beside it on disk are not changed. *)
Theorem iupdate_ilock L v ic s ip i :
  fs_at ∅ L v ic s -> ic !! ip = Some i -> i_dev i = ROOTDEV -> inum_ok (i_inum i) ->
  dinode_wf (i_disk i) -> i_type i <> 0 ->
  (size ({[IBLOCK (i_inum i) sb]} ∪ L) <= txn_cap)%nat ->
  wp (iupdate ip) (fun _ s' => exists L' v', fs_at ∅ L' v' ic s' /\
    (forall inum, inum_ok inum -> inum <> i_inum i -> disk_inode v' inum = disk_inode v inum) /\
    forall L2 ic2 s2 jp j, fs_at ∅ L2 v' ic2 s2 -> ic2 !! jp = Some j -> i_dev j = ROOTDEV ->
      i_inum j = i_inum i -> i_valid j = false -> lockable j -> (size L2 <= txn_cap)%nat ->
      wp (ilock jp) (fun _ s3 => exists j', fs_at ∅ L2 v' (<[jp := j']> ic2) s3 /\
        i_disk j' = i_disk i /\ i_valid j' = true /\ i_lock j' = my_lock) s2) s.
Proof.
  intros Hs Hip Hdev Hin Hwf Hty Hc.
  assert (forall b, not_held (∅ : gmap nat (Z * bool)) b) as Hno by (intros b k m; by rewrite lookup_empty).
  assert (size (∅ : gmap nat (Z * bool)) < 3)%nat as H3 by (rewrite map_size_empty; lia).
  pose proof (fs_block _ _ _ _ _ _ _ (IBLOCK (i_inum i) sb) Hs) as Hb.
  pose proof (disk_inode_put v (i_inum i) (i_disk i) Hb Hwf) as Hput.
  eapply wp_mono; [by eapply iupdate_run|]. intros [] s1 Hs1. eexists _, _. split_and!; [exact Hs1|..].
  - intros inum [? _] Hne. destruct Hin. by apply disk_inode_put_ne.
  - intros L2 ic2 s2 jp j Hs2 Hjp Hjd Hji Hjv Hjl Hc2.
    eapply wp_mono; [eapply (ilock_run _ _ _ _ _ jp j); try done|].
    + by rewrite Hji.
    + intros _. by rewrite Hji, Hput.
    + intros [] s3 Hs3. eexists. split; [exact Hs3|]. unfold loaded. rewrite Hjv, Hji, Hput. by destruct i.
Qed.
End inodes.

Lemma tiny_file_wf : dinode_wf tiny_file.
Proof.
  split; cbn [tiny_file d_type d_major d_minor d_nlink d_size d_addrs replicate];
    unfold is_i16, T_FILE; [lia..|unfold is_u32; lia|done|].
  apply Forall_forall. intros x. rewrite !elem_of_cons, elem_of_nil. unfold is_u32. lia.
Qed.

Lemma tiny_room b : (size ({[b]} ∪ (∅ : gset Z)) <= txn_cap)%nat.
Proof. rewrite union_empty_r_L, size_singleton. vm_compute. lia. Qed.

Lemma iupdate_ilock_witness :
  wp (iupdate 0) (fun _ s' => exists L' v', fs_at tiny_sb 1 ∅ L' v' tiny_icache s' /\
    disk_inode tiny_sb v' 1 = tiny_root) tiny.
Proof.
  eapply wp_mono.
  - apply (iupdate_ilock tiny_sb 1 59 tiny_layout ∅ tiny_v tiny_icache tiny 0 (tiny_inode 2 true tiny_file true));
      [apply tiny_at|done|done|by split|apply tiny_file_wf|done|apply tiny_room].
  - intros [] s' (L' & v' & Hs' & Hd & _). exists L', v'. split; [done|]. rewrite Hd; [by vm_compute|by split|done].
Defined.
