(* ===== verification/FsMap.v ===== *)
(** * FsMap: the blocks of a file (bmap of fs.c)

    Where the bytes of a file are, when its block map is in order, and how
    [bmap] extends it. *)

From stdpp Require Import base list numbers gmap strings.
From S2P Require Import Prelude Bytes Params Sleeplock Bio Log Blocks Fs FsInv.

Local Open Scope Z_scope.
Local Open Scope os_scope.

(** ** Counting the free blocks *)

Section file.
Context {B : Type} `{BlockLaws B} (sb : superblock) (me dstart : Z) (Hlay : layout sb dstart).
Implicit Types (s : fs B) (Hd : gmap nat (Z * bool)) (L : gset Z) (v : Z -> list Z)
  (ic : list inode) (i : inode).
#[local] Abbreviation bm := (bm sb).
#[local] Abbreviation used := (used sb).
#[local] Abbreviation is_data := (is_data sb dstart).
#[local] Abbreviation alloc := (alloc sb).
#[local] Abbreviation fs_at := (fs_at sb me).

Definition nfree v : nat := length (filter (fun b => used v b = false) (seqZ 0 (sb_size sb))).

Lemma nfree_has v : (0 < nfree v)%nat -> has_free sb v.
Proof.
  unfold nfree. intros Hn. destruct (filter _ _) as [|b l] eqn:E; [cbn in Hn; lia|].
  assert (b ∈ filter (fun b => used v b = false) (seqZ 0 (sb_size sb))) as Hb
    by (rewrite E; constructor).
  apply list_elem_of_filter in Hb as [Hu Hb%elem_of_seqZ]. exists b. split; [lia|done].
Qed.

Lemma nfree_use v v' b :
  0 <= b < sb_size sb -> used v b = false ->
  (forall c, 0 <= c < sb_size sb -> used v' c = bool_decide (c = b) || used v c) ->
  nfree v = S (nfree v').
Proof.
  intros Hb Hu Hv'. unfold nfree.
  assert (filter (fun c => used v c = false) (seqZ 0 (sb_size sb)) ≡ₚ
    b :: filter (fun c => used v' c = false) (seqZ 0 (sb_size sb))) as Hp; [|by rewrite Hp].
  apply NoDup_Permutation.
  - apply NoDup_filter, NoDup_seqZ.
  - constructor; [|apply NoDup_filter, NoDup_seqZ]. intros [Hx _]%list_elem_of_filter.
    rewrite Hv', bool_decide_true in Hx by done. done.
  - intros x. rewrite elem_of_cons, !list_elem_of_filter, !elem_of_seqZ.
    destruct (decide (x = b)) as [->|Hne]; [split; [by left|]; intros _; split; [done|lia]|].
    split.
    + intros [Hx Hr]. right. split; [|done]. rewrite Hv', bool_decide_false by (done || lia). done.
    + intros [?|[Hx Hr]]; [done|]. split; [|done].
      rewrite Hv', bool_decide_false in Hx by (done || lia). done.
Qed.

Lemma nfree_bm v v' : v' bm = v bm -> nfree v' = nfree v.
Proof. intros Hv. unfold nfree, FsInv.used. by rewrite Hv. Qed.

(** ** A file as bytes *)

Definition ind_addr i : Z := nth (Z.to_nat NDIRECT) (i_addrs i) 0.
(** The address of block [bn] of the file, 0 when there is none. *)
Definition addr_at v i (bn : Z) : Z :=
  if bn <? NDIRECT then nth (Z.to_nat bn) (i_addrs i) 0
  else if ind_addr i =? 0 then 0
  else get32 (v (ind_addr i)) (Z.to_nat (4 * (bn - NDIRECT))).
Definition byte_at v i (o : Z) : Z :=
  nth (Z.to_nat (o mod BSIZE)) (v (addr_at v i (o / BSIZE))) 0.
Definition content v i : list Z := byte_at v i <$> seqZ 0 (i_size i).

(** A data block in use, or no block. *)
Definition ref_ok v (a : Z) : Prop := a = 0 \/ (is_data a /\ used v a = true).

Record file_ok v i : Prop := {
  fo_dev : i_dev i = ROOTDEV;
  fo_inum : 0 <= i_inum i < sb_ninodes sb;
  fo_len : length (i_addrs i) = 13%nat;
  fo_size : 0 <= i_size i <= MAXFILE * BSIZE;
  fo_ind : ref_ok v (ind_addr i);
  fo_data : forall bn, 0 <= bn < MAXFILE -> ref_ok v (addr_at v i bn);
  fo_inj : forall bn bn', 0 <= bn < MAXFILE -> 0 <= bn' < MAXFILE ->
    addr_at v i bn <> 0 -> addr_at v i bn = addr_at v i bn' -> bn = bn';
  fo_ind_ne : forall bn, 0 <= bn < MAXFILE -> addr_at v i bn <> 0 -> addr_at v i bn <> ind_addr i
}.

(** Every block below the size is there. *)
Definition no_holes v i (n : Z) : Prop := forall bn, 0 <= bn -> bn * BSIZE < n -> addr_at v i bn <> 0.

(** The blocks of the file. *)
Definition own v i (b : Z) : Prop :=
  b <> 0 /\ (b = ind_addr i \/ exists bn, 0 <= bn < MAXFILE /\ b = addr_at v i bn).

(** Block [bn] of the file, which had none, is the fresh block [a]; the
    indirect block may be fresh as well. *)
Record grow v i v' i' (bn a : Z) : Prop := {
  gr_inode : i' = set_i_addrs (i_addrs i') i;
  gr_len : length (i_addrs i') = 13%nat;
  gr_addr : forall bn', 0 <= bn' < MAXFILE ->
    addr_at v' i' bn' = if decide (bn' = bn) then a else addr_at v i bn';
  gr_fresh : is_data a /\ used v a = false;
  gr_ind : ind_addr i' = ind_addr i \/
    (ind_addr i = 0 /\ is_data (ind_addr i') /\ used v (ind_addr i') = false /\ ind_addr i' <> a);
  gr_used : forall b, 0 <= b < BPB ->
    used v' b = bool_decide (b = a) || (bool_decide (b = ind_addr i' /\ ind_addr i = 0 /\ b <> 0) || used v b);
  gr_frame : forall b, b <> bm -> b <> ind_addr i' -> b <> a -> v' b = v b
}.

Lemma grow_file_ok v i v' i' bn a :
  grow v i v' i' bn a -> 0 <= bn < MAXFILE -> addr_at v i bn = 0 -> file_ok v i -> file_ok v' i'.
Proof.
  intros [Gi Gl Ga [Gd Gu] Gind Gus Gf] Hbn Hz [Fd Fi Fl Fs Find Fdata Finj Fne].
  assert (i_dev i' = i_dev i /\ i_inum i' = i_inum i /\ i_size i' = i_size i) as (Ed & En & Es)
    by (by rewrite Gi).
  assert (forall b, is_data b -> used v b = true -> used v' b = true) as Hus.
  { intros b Hb Hu. rewrite Gus, Hu by (by eapply data_bit). by rewrite !orb_true_r. }
  assert (0 < dstart) as Hds by (by eapply dstart_pos).
  split.
  - congruence.
  - rewrite En. done.
  - done.
  - rewrite Es. done.
  - destruct Gind as [He|(I1 & I2 & I3 & I4)].
    + rewrite He. destruct Find as [?|[? ?]]; [by left|right]. by split; [|apply Hus].
    + right. split; [done|]. rewrite Gus by (by eapply data_bit).
      rewrite (bool_decide_true (_ /\ _)); [by rewrite orb_true_r|].
      split_and!; [done|done|]. unfold FsInv.is_data in I2. lia.
  - intros bn' Hbn'. rewrite Ga by done. destruct (decide (bn' = bn)).
    + right. split; [done|]. rewrite Gus, bool_decide_true by (done || by eapply data_bit). done.
    + destruct (Fdata bn' Hbn') as [?|[? ?]]; [by left|right]. by split; [|apply Hus].
  - intros b1 b2 Hb1 Hb2. rewrite !Ga by done.
    assert (forall b, 0 <= b < MAXFILE -> addr_at v i b <> a) as Hna.
    { intros b Hb He. destruct (Fdata b Hb) as [?|[? ?]]; [|congruence].
      unfold FsInv.is_data in Gd. lia. }
    destruct (decide (b1 = bn)), (decide (b2 = bn)); subst; intros Hne He; try done.
    + symmetry in He. by apply Hna in He.
    + by apply Hna in He.
    + by apply Finj.
  - intros b Hb. rewrite Ga by done. destruct (decide (b = bn)) as [Hbb|Hbb].
    + intros _ He. destruct Gind as [Hi|(_ & _ & _ & Hi)]; [|done].
      destruct Find as [?|[_ ?]]; [|congruence]. unfold FsInv.is_data in Gd. lia.
    + intros Hne. destruct Gind as [->|(I1 & I2 & I3 & I4)]; [by apply Fne|].
      destruct (Fdata b Hb) as [?|[_ ?]]; [done|congruence].
Qed.

(** ** bmap *)

(** The blocks a change of the file logs: the bitmap, the indirect block, and
    some [X]. *)
Definition ind_set i : gset Z := if decide (ind_addr i = 0) then ∅ else {[ind_addr i]}.
Definition logged L i (X : gset Z) : Prop := L ⊆ {[bm]} ∪ (ind_set i ∪ X).

Lemma size_ind_set i : (size (ind_set i) <= 1)%nat.
Proof. unfold ind_set. case_decide; [rewrite size_empty|rewrite size_singleton]; lia. Qed.

Lemma logged_size L i X : logged L i X -> (size L <= 2 + size X)%nat.
Proof.
  intros Hl. etrans; [by apply subseteq_size|].
  pose proof (size_union_le {[bm]} (ind_set i ∪ X)) as H1. rewrite size_singleton in H1.
  pose proof (size_union_le (ind_set i) X). pose proof (size_ind_set i). lia.
Qed.

Lemma logged_bm L i X : logged L i X -> logged ({[bm]} ∪ L) i X.
Proof. unfold logged. set_solver. Qed.

Lemma logged_add L i X a : logged L i X -> logged ({[a]} ∪ L) i ({[a]} ∪ X).
Proof. unfold logged. set_solver. Qed.

Lemma logged_weaken L i X Y : X ⊆ Y -> logged L i X -> logged L i Y.
Proof. unfold logged. set_solver. Qed.

Definition with_addr (k : nat) (a : Z) i : inode := set_i_addrs (<[k := a]> (i_addrs i)) i.

Lemma nth_insert (l : list Z) k j a :
  (k < length l)%nat -> nth j (<[k := a]> l) 0 = if decide (j = k) then a else nth j l 0.
Proof.
  intros Hk. destruct (decide (j = k)) as [->|Hne].
  - by rewrite (nth_lookup_Some _ _ _ a) by (by apply list_lookup_insert_eq).
  - rewrite !nth_lookup. by rewrite list_lookup_insert_ne.
Qed.

Lemma ind_with_addr k a i :
  length (i_addrs i) = 13%nat -> (k < 13)%nat ->
  ind_addr (with_addr k a i) = if decide (k = 12%nat) then a else ind_addr i.
Proof.
  intros Hl Hk. unfold ind_addr, with_addr; cbn [i_addrs set_i_addrs].
  rewrite nth_insert by lia. change (Z.to_nat NDIRECT) with 12%nat.
  repeat case_decide; (done || congruence).
Qed.

Lemma ind_with_direct k a i :
  length (i_addrs i) = 13%nat -> (k < 12)%nat -> ind_addr (with_addr k a i) = ind_addr i.
Proof. intros Hl Hk. rewrite ind_with_addr by lia. case_decide; [lia|done]. Qed.

Section grow.
Context {v : Z -> list Z} {i : inode} (Hf : file_ok v i) (Hv : forall b, block (v b)).

Lemma ref_ne_fresh a b : ref_ok v b -> is_data a -> used v a = false -> b <> a.
Proof.
  intros [->|[_ Hu]] Ha Hua; [|congruence]. pose proof (dstart_pos sb dstart Hlay).
  unfold FsInv.is_data in Ha. lia.
Qed.

Lemma ref_ne_bm b : ref_ok v b -> b <> bm.
Proof.
  intros [->|[Hd _]]; [|by eapply data_ne_bm]. pose proof (bm_range sb dstart Hlay). lia.
Qed.

(** A fresh direct block. *)
Lemma grow_direct k a :
  (k < 12)%nat -> is_data a -> used v a = false ->
  grow v i (alloc v a) (with_addr k a i) (Z.of_nat k) a.
Proof.
  intros Hk Ha Hu. pose proof (fo_len _ _ Hf) as Hl.
  pose proof (ind_with_direct k a i Hl Hk) as Hind.
  split.
  - done.
  - cbn. by rewrite length_insert.
  - intros bn Hbn. unfold addr_at. rewrite Hind. cbn [i_addrs with_addr set_i_addrs].
    destruct (Z.ltb_spec bn NDIRECT) as [Hlt|Hge].
    + rewrite nth_insert by lia. destruct (decide (bn = Z.of_nat k)) as [->|Hne].
      * rewrite decide_True by lia. done.
      * rewrite decide_False by lia. done.
    + rewrite decide_False by (unfold NDIRECT in *; lia).
      destruct (Z.eqb_spec (ind_addr i) 0); [done|]. rewrite alloc_frame; [done| |].
      * apply ref_ne_fresh; [apply Hf|done..].
      * apply ref_ne_bm, Hf.
  - done.
  - by left.
  - intros b Hb. rewrite (used_alloc sb dstart) by done. f_equal.
    destruct (bool_decide (b = _ /\ _)) eqn:E; [|done]. apply bool_decide_eq_true in E as (E1 & E2 & E3).
    rewrite Hind in E1. congruence.
  - intros b Hb1 _ Hb3. by apply alloc_frame.
Qed.

Lemma get32_zero off : get32 zero_block off = 0.
Proof.
  unfold get32, get_le, zero_block. rewrite drop_replicate, take_replicate.
  induction (_ `min` _)%nat as [|n IH]; [done|]. cbn [replicate le_combine]. rewrite IH. done.
Qed.

(** A fresh indirect block has no entries. *)
Lemma addr_at_new_ind a bn :
  is_data a -> used v a = false -> ind_addr i = 0 -> 0 <= bn ->
  addr_at (alloc v a) (with_addr 12 a i) bn = addr_at v i bn.
Proof.
  intros Ha Hu H0' Hbn. pose proof (fo_len _ _ Hf) as Hl. unfold addr_at.
  rewrite ind_with_addr, decide_True, H0' by (done || lia). cbn [i_addrs with_addr set_i_addrs].
  destruct (Z.ltb_spec bn NDIRECT) as [Hlt|Hge].
  - rewrite nth_insert by lia. rewrite decide_False by (unfold NDIRECT in *; lia). done.
  - destruct (Z.eqb_spec a 0) as [->|Hne]; [done|]. unfold FsInv.alloc. rewrite fupd_eq. apply get32_zero.
Qed.

Definition entry_off (bn : Z) : nat := Z.to_nat (4 * (bn - NDIRECT)).
Definition set_entry (v : Z -> list Z) (ind bn a : Z) : Z -> list Z :=
  fupd (alloc v a) ind (put32 (v ind) (entry_off bn) a).

(** A fresh block in the indirect block. *)
Lemma grow_indirect bn a :
  NDIRECT <= bn < MAXFILE -> ind_addr i <> 0 -> is_data a -> used v a = false ->
  grow v i (set_entry v (ind_addr i) bn a) i bn a.
Proof.
  intros Hbn Hind Ha Hu. pose proof (fo_ind _ _ Hf) as Hri.
  assert (ind_addr i <> a) by (by apply ref_ne_fresh).
  assert (ind_addr i <> bm) by (by apply ref_ne_bm).
  split.
  - by destruct i.
  - apply Hf.
  - intros bn' Hbn'. unfold addr_at. destruct (Z.ltb_spec bn' NDIRECT) as [Hlt|Hge].
    { rewrite decide_False by lia. done. }
    rewrite (proj2 (Z.eqb_neq _ _)) by done. unfold set_entry. rewrite fupd_eq. unfold entry_off.
    pose proof (Hv (ind_addr i)) as Hb. unfold block in Hb.
    destruct (decide (bn' = bn)) as [->|Hne].
    + unfold get32, put32. rewrite get_put_le by fs_lia. apply Z.mod_small.
      pose proof (data_bit sb dstart Hlay a Ha). cbn. fs_lia.
    + unfold get32, put32. apply get_put_le_ne. fs_lia.
  - done.
  - by left.
  - intros b Hb. unfold FsInv.used, set_entry. rewrite fupd_ne by done.
    change (bit_get (alloc v a bm) b) with (used (alloc v a) b).
    rewrite (used_alloc sb dstart) by done. f_equal.
    destruct (bool_decide (b = _ /\ _)) eqn:E; [|done]. by apply bool_decide_eq_true in E as (_ & E2 & _).
  - intros b Hb1 Hb2 Hb3. unfold set_entry. rewrite fupd_ne by done. by apply alloc_frame.
Qed.
End grow.

Lemma compose_grow v i v' i' bn a b :
  file_ok v i -> (forall x, block (v x)) -> ind_addr i = 0 -> is_data b -> used v b = false ->
  grow (alloc v b) (with_addr 12 b i) v' i' bn a -> grow v i v' i' bn a.
Proof.
  intros Hf Hv Hind Hb Hub [Gi Gl Ga [Gd Gu] Gind Gus Gf].
  pose proof (dstart_pos sb dstart Hlay).
  assert (b <> 0) by (unfold FsInv.is_data in Hb; lia).
  rewrite (ind_with_addr 12 b i), decide_True in * by (apply Hf || lia).
  assert (ind_addr i' = b) as Hib by (destruct Gind as [?|[? _]]; done). rewrite Hib in *.
  assert (a <> b /\ used v a = false) as [Hab Hua].
  { rewrite (used_alloc sb dstart) in Gu by (done || by eapply data_bit).
    apply orb_false_iff in Gu as [Gu1%bool_decide_eq_false Gu2]. done. }
  split.
  - rewrite Gi. done.
  - done.
  - intros bn' Hbn'. rewrite Ga by done. destruct (decide (bn' = bn)); [done|].
    apply addr_at_new_ind; (done || lia).
  - done.
  - right. rewrite Hib. done.
  - intros x Hx. rewrite Gus by done. rewrite (used_alloc sb dstart) by done. rewrite Hib, Hind.
    rewrite (bool_decide_false (x = b /\ b = 0 /\ _)) by naive_solver.
    rewrite (bool_decide_ext (x = b /\ 0 = 0 /\ x <> 0) (x = b)) by naive_solver. done.
  - intros x Hx1 Hx2 Hx3. rewrite Hib in Hx2. rewrite Gf by done. by apply alloc_frame.
Qed.

(** What an operation on the file may rely on. *)
Record file_env Hd v ic (ip : nat) i : Prop := {
  fe_ip : ic !! ip = Some i;
  fe_file : file_ok v i;
  fe_meta : meta_used sb dstart v;
  fe_held : held_ok sb Hd v
}.

Definition need_ind i : nat := if decide (ind_addr i = 0) then 1%nat else 0%nat.

(** [direct_addr], when the slot is empty. *)
Lemma direct_alloc Hd L v ic s ip i k :
  fs_at Hd L v ic s -> file_env Hd v ic ip i -> (size Hd < 3)%nat -> nth k (i_addrs i) 0 = 0 ->
  (0 < nfree v)%nat -> (size ({[bm]} ∪ L) < txn_cap)%nat ->
  wp (direct_addr ip k) (fun a s' =>
    is_data a /\ used v a = false /\
    fs_at Hd ({[a]} ∪ ({[bm]} ∪ L)) (alloc v a) (<[ip := with_addr k a i]> ic) s') s.
Proof.
  intros Hs [Hip Hf Hm Hh] H3 Hk Hn Hc. unfold direct_addr. rewrite wp_bind.
  eapply geti_wp; [done..|]. rewrite Hk. cbn [Z.eqb]. rewrite (fo_dev _ _ Hf), wp_bind.
  eapply wp_mono; [eapply balloc_run; try done; by apply nfree_has|].
  intros a s1 (Ha & Hu & _ & Hs1). rewrite wp_bind. eapply wp_mono; [by eapply updi_wp|].
  intros [] s2 Hs2. apply wp_ret. split_and!; [done..|]. by rewrite (list_alter_insert _ _ _ i) in Hs2.
Qed.

Lemma direct_present Hd L v ic s ip i k :
  fs_at Hd L v ic s -> ic !! ip = Some i -> nth k (i_addrs i) 0 <> 0 ->
  direct_addr ip k s = Done (nth k (i_addrs i) 0, s).
Proof.
  intros Hs Hip Hk. unfold direct_addr.
  rewrite (bind_done _ _ _ i s) by (unfold geti; by rewrite (fa_ic _ _ _ _ _ _ _ Hs), Hip).
  by rewrite (proj2 (Z.eqb_neq _ _)).
Qed.

(** After [alloc], what held before about blocks in use still does. *)
Lemma used_alloc_mono v a b :
  block (v bm) -> is_data a -> 0 <= b < BPB -> used v b = true -> used (alloc v a) b = true.
Proof. intros ? ? ? Hu. rewrite (used_alloc sb dstart) by done. rewrite Hu. apply orb_true_r. Qed.

Lemma meta_alloc v a :
  block (v bm) -> is_data a -> meta_used sb dstart v -> meta_used sb dstart (alloc v a).
Proof.
  intros Hb Ha Hm b Hr. apply used_alloc_mono; [done|done| |by apply Hm].
  pose proof (size_BPB sb dstart Hlay). unfold FsInv.is_data in Ha. lia.
Qed.

(** What [bmap] returns: the block, there before or fresh. *)
Definition bmap_post Hd L v ic ip i bn X (a : Z) s' : Prop :=
  a <> 0 /\ exists L' v' i', fs_at Hd L' v' (<[ip := i']> ic) s' /\ addr_at v' i' bn = a /\
    logged L' i' ({[a]} ∪ X) /\
    ((v' = v /\ i' = i /\ L' = L /\ addr_at v i bn <> 0) \/ (addr_at v i bn = 0 /\ grow v i v' i' bn a)).

Lemma bmap_direct Hd L v ic s ip i bn X :
  fs_at Hd L v ic s -> file_env Hd v ic ip i -> (size Hd < 2)%nat -> 0 <= bn < NDIRECT ->
  (addr_at v i bn = 0 -> (1 <= nfree v)%nat) -> logged L i X -> (size X + 3 <= txn_cap)%nat ->
  wp (direct_addr ip (Z.to_nat bn)) (bmap_post Hd L v ic ip i bn X) s.
Proof.
  intros Hs He H2 Hbn Hn Hl Hc. pose proof He as [Hip Hf Hm Hh].
  assert (addr_at v i bn = nth (Z.to_nat bn) (i_addrs i) 0) as Ha
    by (unfold addr_at; by rewrite (proj2 (Z.ltb_lt _ _)) by lia).
  destruct (decide (addr_at v i bn = 0)) as [H0'|H0'].
  - pose proof (logged_size _ _ _ (logged_bm _ _ _ Hl)).
    eapply wp_mono; [eapply direct_alloc; (done || lia || congruence || by apply Hn)|].
    intros a s1 (Hda & Hu & Hs1).
    assert (grow v i (alloc v a) (with_addr (Z.to_nat bn) a i) bn a) as Hg.
    { rewrite <- (Z2Nat.id bn) at 2 by lia. apply grow_direct; [done|by intros b; eapply fs_block|fs_lia|done..]. }
    split. { pose proof (dstart_pos sb dstart Hlay). unfold FsInv.is_data in Hda. lia. }
    eexists _, _, _. split_and!; [exact Hs1| | |by right].
    + rewrite (gr_addr _ _ _ _ _ _ Hg) by fs_lia. by rewrite decide_True.
    + unfold logged, ind_set in *. rewrite ind_with_direct by (apply Hf || fs_lia). clear -Hl. set_solver.
  - eapply wp_intro; [eapply direct_present; [done..|congruence]|]. rewrite <- Ha.
    split; [done|]. exists L, v, i. rewrite list_insert_id by done.
    split_and!; [done..| |by left]. eapply logged_weaken; [|done]. set_solver.
Qed.

(** The entry of a present indirect block. *)
Definition bmap_entry (ip : nat) (bn ind : Z) : M (fs B) Z :=
  let! i := geti ip in
  let! bp := onb (b_read (i_dev i) ind) in
  let! d := onb (b_get bp) in
  let addr := get32 d (entry_off bn) in
  if addr =? 0 then
    let! addr := balloc (i_dev i) in
    onb (b_set bp (put32 d (entry_off bn) addr));;;
    onb (b_log bp);;;
    onb (b_release bp);;;
    ret addr
  else onb (b_release bp);;; ret addr.

Lemma bmap_entry_wp Hd L v ic s ip i bn X :
  fs_at Hd L v ic s -> file_env Hd v ic ip i -> (size Hd < 2)%nat -> NDIRECT <= bn < MAXFILE ->
  ind_addr i <> 0 -> not_held Hd (ind_addr i) ->
  (addr_at v i bn = 0 -> (1 <= nfree v)%nat) -> logged L i X -> (size X + 3 <= txn_cap)%nat ->
  wp (bmap_entry ip bn (ind_addr i)) (bmap_post Hd L v ic ip i bn X) s.
Proof.
  intros Hs He H2 Hbn Hi0 Hnh Hn Hl Hc. pose proof He as [Hip Hf Hm Hh].
  destruct (fo_ind _ _ Hf) as [?|[Hidata Hiu]]; [done|].
  pose proof (logged_size _ _ _ (logged_bm _ _ _ Hl)) as Hbs. pose proof (logged_size _ _ _ Hl) as Hls.
  assert (home (ind_addr i)) as Hih by (by apply Hlay).
  pose proof (home_range _ Hih) as Hir.
  unfold bmap_entry. rewrite wp_bind. eapply geti_wp; [done..|]. rewrite (fo_dev _ _ Hf).
  eapply fetch_wp; [done|lia|done|lia|lia|]. intros bp s1 Hbp Hs1.
  assert (addr_at v i bn = get32 (v (ind_addr i)) (entry_off bn)) as Ha.
  { unfold addr_at. rewrite (proj2 (Z.ltb_ge _ _)), (proj2 (Z.eqb_neq _ _)) by (done || lia). done. }
  rewrite <- Ha. destruct (Z.eqb_spec (addr_at v i bn) 0) as [H0'|H0'].
  - rewrite wp_bind. eapply wp_mono; [eapply balloc_run; try done|].
    + by apply nfree_has, Hn.
    + intros j b m [[<- [= <- <-]]|[_ Hj]]%lookup_insert_Some; [|by eapply Hh].
      split_and!; [by eapply data_ne_bm|by eapply data_bit..|done].
    + rewrite map_size_insert_None by done. lia.
    + lia.
    + intros a s2 (Hda & Hu & _ & Hs2).
      assert (alloc v a (ind_addr i) = v (ind_addr i)) as Hai.
      { apply alloc_frame; [apply (ref_ne_fresh (v := v)); [by right|done..]|by eapply data_ne_bm]. }
      pose proof (grow_indirect Hf (fun b => fs_block _ _ _ _ _ _ _ b Hs) bn a Hbn Hi0 Hda Hu) as Hg.
      eapply store_wp; [exact Hs2|done|done| | |].
      * unfold block. unfold put32. rewrite length_put_le. apply (fs_block _ _ _ _ _ _ _ (ind_addr i) Hs).
      * assert (logged ({[ind_addr i]} ∪ ({[a]} ∪ ({[bm]} ∪ L))) i ({[a]} ∪ X)) as Hl'.
        { unfold logged, ind_set in *. case_decide; [done|]. clear -Hl. set_solver. }
        apply logged_size in Hl'. pose proof (size_union_le {[a]} X) as Hux. rewrite size_singleton in Hux. lia.
      * intros s3 Hs3. apply wp_ret.
        split. { pose proof (dstart_pos sb dstart Hlay). unfold FsInv.is_data in Hda. lia. }
        eexists _, _, i. rewrite list_insert_id by done. split_and!; [exact Hs3| | |].
        -- change (addr_at (set_entry v (ind_addr i) bn a) i bn = a).
           rewrite (gr_addr _ _ _ _ _ _ Hg) by fs_lia. by rewrite decide_True.
        -- unfold logged, ind_set in *. case_decide; [done|]. clear -Hl. set_solver.
        -- right. done.
  - eapply drop_wp; [done|done|]. intros s2 Hs2. apply wp_ret. split; [done|].
    exists L, v, i. rewrite list_insert_id by done. split_and!; [done..| |by left].
    eapply logged_weaken; [|done]. set_solver.
Qed.

(** The file after its indirect block was allocated. *)
Lemma new_ind_file_ok v i b :
  file_ok v i -> (forall x, block (v x)) -> ind_addr i = 0 -> is_data b -> used v b = false ->
  file_ok (alloc v b) (with_addr 12 b i).
Proof.
  intros Hf Hv Hi0 Hb Hu. pose proof Hf as [Fd Fi Fl Fs Find Fdata Finj Fne].
  assert (forall bn, 0 <= bn < MAXFILE -> addr_at (alloc v b) (with_addr 12 b i) bn = addr_at v i bn) as Ea
    by (intros; apply addr_at_new_ind; (done || lia)).
  assert (ind_addr (with_addr 12 b i) = b) as Hib by (by rewrite ind_with_addr by lia).
  assert (forall a, ref_ok v a -> ref_ok (alloc v b) a) as Hr.
  { intros a [?|[Ha Hua]]; [by left|right]. split; [done|].
    apply used_alloc_mono; [done..|by eapply data_bit|done]. }
  split; [done..| | | | | |].
  - cbn. by rewrite length_insert.
  - done.
  - rewrite Hib. right. split; [done|]. rewrite (used_alloc sb dstart), bool_decide_true by (done || by eapply data_bit).
    done.
  - intros bn Hbn. rewrite Ea by done. by apply Hr, Fdata.
  - intros b1 b2 Hb1 Hb2. rewrite !Ea by done. by apply Finj.
  - intros bn Hbn. rewrite Ea, Hib by done. intros _. apply (ref_ne_fresh (v := v)); [by apply Fdata|done..].
Qed.

Lemma bmap_run Hd L v ic s ip i bn X :
  fs_at Hd L v ic s -> file_env Hd v ic ip i -> (size Hd < 2)%nat -> 0 <= bn < MAXFILE ->
  not_held Hd (ind_addr i) ->
  (addr_at v i bn = 0 -> (1 + need_ind i <= nfree v)%nat) -> logged L i X ->
  (size X + 3 <= txn_cap)%nat ->
  wp (bmap ip bn) (bmap_post Hd L v ic ip i bn X) s.
Proof.
  intros Hs He H2 Hbn Hnh Hn Hl Hc. pose proof He as [Hip Hf Hm Hh]. unfold bmap.
  destruct (Z.ltb_spec bn NDIRECT) as [Hlt|Hge].
  { eapply bmap_direct; (done || lia || (intros Ha; specialize (Hn Ha); lia)). }
  cbv zeta. rewrite (proj2 (Z.ltb_lt (bn - NDIRECT) NINDIRECT)) by fs_lia.
  rewrite wp_bind. change (Z.to_nat NDIRECT) with 12%nat.
  change (wp (direct_addr ip 12) (fun ind s' => wp (bmap_entry ip bn ind) (bmap_post Hd L v ic ip i bn X) s') s).
  unfold need_ind in Hn. destruct (decide (ind_addr i = 0)) as [Hi0|Hi0].
  - assert (addr_at v i bn = 0) as Ha.
    { unfold addr_at. rewrite (proj2 (Z.ltb_ge _ _)), Hi0 by lia. done. }
    specialize (Hn Ha). pose proof (logged_size _ _ _ (logged_bm _ _ _ Hl)).
    assert (forall b, block (v b)) as Hv by (intros b; by eapply fs_block).
    eapply wp_mono; [eapply direct_alloc; (done || lia)|]. intros b s1 (Hb & Hu & Hs1).
    pose proof (new_ind_file_ok v i b Hf Hv Hi0 Hb Hu) as Hf1.
    assert (ind_addr (with_addr 12 b i) = b) as Hib by (by rewrite ind_with_addr by (apply Hf || lia)).
    pose proof (dstart_pos sb dstart Hlay) as Hds.
    assert (b <> 0) as Hb0 by (unfold FsInv.is_data in Hb; lia).
    assert (nfree v = S (nfree (alloc v b))) as Hnf.
    { apply (nfree_use _ _ b); [unfold FsInv.is_data in Hb; lia|done|].
      intros c Hcr. apply (used_alloc sb dstart); [done..|]. pose proof (size_BPB sb dstart Hlay). lia. }
    rewrite <- Hib. eapply wp_mono.
    + eapply (bmap_entry_wp _ _ (alloc v b) _ _ ip (with_addr 12 b i) bn X); [exact Hs1| |done|lia| | | | |done].
      * split; [by apply list_lookup_insert_eq, (lookup_lt_Some _ _ i)|done|by apply meta_alloc|].
        intros j c m Hj. destruct (Hh j c m Hj) as [? Hcu]. split; [done|].
        destruct Hcu as [? ?]. split; [done|]. by apply used_alloc_mono.
      * by rewrite Hib.
      * rewrite Hib. intros j m Hj. destruct (Hh j b m Hj) as (_ & _ & ?). congruence.
      * intros _. lia.
      * unfold logged, ind_set in *. rewrite Hib. rewrite decide_False by done.
        rewrite decide_True in Hl by done. clear -Hl. set_solver.
    + intros a s2 (Ha0 & L' & v' & i' & Hs2 & Haa & Hlg & Hor). split; [done|].
      exists L', v', i'. rewrite list_insert_insert_eq in Hs2. split_and!; [done..|].
      right. split; [done|]. rewrite addr_at_new_ind in Hor by (done || lia).
      destruct Hor as [(_ & _ & _ & ?)|[_ Hg]]; [done|]. by eapply compose_grow.
  - eapply wp_intro; [eapply direct_present; [done..|exact Hi0]|].
    change (nth 12 (i_addrs i) 0) with (ind_addr i).
    eapply bmap_entry_wp; (done || lia || (intros Ha; specialize (Hn Ha); lia)).
Qed.
End file.
