(* ===== verification/FsFile.v ===== *)
(** * FsFile: reading and writing files (readi and writei of fs.c)

    [readi] returns a slice of the bytes of the file, [writei] replaces or
    appends one, and neither touches another file. *)

From stdpp Require Import base list numbers gmap strings.
From S2P Require Import Prelude Bytes Params Sleeplock Bio Log Blocks Fs FsInv FsDemo FsInode FsMap.

Local Open Scope Z_scope.
Local Open Scope os_scope.

(** ** Slices of blocks *)

Lemma block_slice (d : list Z) (o m : Z) :
  block d -> 0 <= o -> 0 <= m -> o + m <= BSIZE ->
  take (Z.to_nat m) (drop (Z.to_nat o) d) = (fun k => nth (Z.to_nat (o + k)) d 0) <$> seqZ 0 m.
Proof.
  intros Hb Ho Hm Hle. unfold block in Hb. apply list_eq. intros k.
  rewrite list_lookup_fmap. destruct (decide (k < Z.to_nat m)%nat) as [Hk|Hk].
  - rewrite lookup_take_lt, lookup_drop by done. rewrite lookup_seqZ_lt by lia. cbn.
    destruct (lookup_lt_is_Some_2 d (Z.to_nat o + k)) as [x Hx]; [lia|]. rewrite Hx. f_equal.
    replace (Z.to_nat (o + (0 + Z.of_nat k))) with (Z.to_nat o + k)%nat by lia.
    symmetry. by apply nth_lookup_Some.
  - rewrite lookup_take_ge by lia. by rewrite lookup_seqZ_ge by lia.
Qed.

Lemma off_block (off k : Z) :
  0 <= off -> 0 <= k -> off mod BSIZE + k < BSIZE ->
  (off + k) / BSIZE = off / BSIZE /\ (off + k) mod BSIZE = off mod BSIZE + k.
Proof. intros. change BSIZE with 512 in *. Z.div_mod_to_equations. lia. Qed.

(** The blocks a transfer touches. *)
Definition nblk (off n : Z) : Z :=
  if 0 <? n then (off + n + BSIZE - 1) / BSIZE - off / BSIZE else 0.

Lemma nblk_next off n :
  0 <= off -> 0 < n -> let m := Z.min n (BSIZE - off mod BSIZE) in
  0 < m <= BSIZE - off mod BSIZE /\ 1 <= nblk off n /\ nblk (off + m) (n - m) = nblk off n - 1.
Proof.
  intros Ho Hn. cbv zeta. unfold nblk. rewrite (proj2 (Z.ltb_lt 0 n)) by done.
  change BSIZE with 512 in *. destruct (Z.ltb_spec 0 (n - Z.min n (512 - off mod 512)));
    Z.div_mod_to_equations; split_and!; lia.
Qed.

Lemma nblk_rounds off n : 0 <= off -> 0 <= n -> nblk off n <= Z.of_nat (block_rounds n).
Proof.
  intros Ho Hn. unfold nblk, block_rounds. change BSIZE with 512.
  rewrite Z2Nat.id by (Z.div_mod_to_equations; lia).
  destruct (Z.ltb_spec 0 n); Z.div_mod_to_equations; lia.
Qed.

Lemma nblk_nonneg off n : 0 <= off -> 0 <= nblk off n.
Proof.
  intros. unfold nblk. change BSIZE with 512.
  destruct (Z.ltb_spec 0 n); Z.div_mod_to_equations; lia.
Qed.

Lemma bn_range off n : 0 <= off -> off < n -> n <= MAXFILE * BSIZE -> 0 <= off / BSIZE < MAXFILE.
Proof. intros. change BSIZE with 512 in *. change MAXFILE with 140 in *. Z.div_mod_to_equations. lia. Qed.

Lemma nth_splice (d data : list Z) (o k : Z) :
  0 <= o -> 0 <= k < Z.of_nat (length d) -> o + Z.of_nat (length data) <= Z.of_nat (length d) ->
  nth (Z.to_nat k) (splice d (Z.to_nat o) data) 0 =
  if decide (o <= k < o + Z.of_nat (length data)) then nth (Z.to_nat (k - o)) data 0
  else nth (Z.to_nat k) d 0.
Proof.
  intros Ho Hk Hle. rewrite !nth_lookup. unfold splice. case_decide as Hr.
  - rewrite list_lookup_inserts by lia. do 2 f_equal. lia.
  - destruct (decide (k < o)); [by rewrite list_lookup_inserts_lt by lia|].
    by rewrite list_lookup_inserts_ge by lia.
Qed.

Section file.
Context {B : Type} `{BlockLaws B} (sb : superblock) (me dstart : Z) (Hlay : layout sb dstart).
Implicit Types (s : fs B) (Hd : gmap nat (Z * bool)) (L : gset Z) (v : Z -> list Z)
  (ic : list inode) (i : inode).
#[local] Abbreviation bm := (bm sb).
#[local] Abbreviation used := (used sb).
#[local] Abbreviation is_data := (is_data sb dstart).
#[local] Abbreviation alloc := (alloc sb).
#[local] Abbreviation fs_at := (fs_at sb me).
#[local] Abbreviation file_env := (file_env sb dstart).
#[local] Abbreviation file_ok := (file_ok sb dstart).
#[local] Abbreviation logged := (logged sb).
#[local] Abbreviation nfree := (nfree sb).
#[local] Abbreviation grow := (grow sb dstart).

Lemma file_slice v i (off m : Z) :
  block (v (addr_at v i (off / BSIZE))) -> 0 <= off -> 0 <= m -> off mod BSIZE + m <= BSIZE ->
  take (Z.to_nat m) (drop (Z.to_nat (off mod BSIZE)) (v (addr_at v i (off / BSIZE)))) =
  byte_at v i <$> seqZ off m.
Proof.
  intros Hb Ho Hm Hle. pose proof (Z.mod_pos_bound off BSIZE ltac:(done)).
  rewrite block_slice by (done || lia).
  replace (seqZ off m) with ((Z.add off) <$> seqZ 0 m) by (rewrite fmap_add_seqZ; f_equal; lia).
  rewrite <- list_fmap_compose. apply list_fmap_ext. intros j k Hk%lookup_seqZ. cbn. unfold byte_at.
  destruct (off_block off k) as [-> ->]; (done || lia).
Qed.

Lemma seqZ_split off m n : 0 <= m -> m <= n -> seqZ off n = seqZ off m ++ seqZ (off + m) (n - m).
Proof. intros. rewrite <- seqZ_app by lia. f_equal. lia. Qed.

(** ** readi *)


Lemma not_held_empty b : not_held ∅ b.
Proof. intros i m. by rewrite lookup_empty. Qed.

Lemma held_ok_empty v : held_ok sb ∅ v.
Proof. intros i b m. by rewrite lookup_empty. Qed.

Lemma data_FSSIZE v b : ref_ok sb dstart v b -> b < FSSIZE.
Proof.
  intros [->|[Hb _]]; [done|]. pose proof (lay_size _ _ Hlay). unfold FsInv.is_data in Hb. lia.
Qed.

Lemma no_holes_at v i off n : no_holes v i n -> 0 <= off < n -> addr_at v i (off / BSIZE) <> 0.
Proof. intros Hh Hn. apply Hh; change BSIZE with 512 in *; Z.div_mod_to_equations; lia. Qed.

(** A block of the file that is there. *)
Lemma bmap_present L v ic s ip i bn :
  fs_at ∅ L v ic s -> file_env ∅ v ic ip i -> 0 <= bn < MAXFILE -> addr_at v i bn <> 0 ->
  (size L + 3 <= txn_cap)%nat ->
  wp (bmap ip bn) (fun a s' => a = addr_at v i bn /\ fs_at ∅ L v ic s') s.
Proof.
  intros Hs He Hbn Ha Hc. pose proof He as [Hip _ _ _].
  eapply wp_mono; [eapply (bmap_run sb me dstart Hlay _ L _ _ _ _ _ _ L); try done|].
  - rewrite map_size_empty. lia.
  - unfold FsMap.logged. set_solver.
  - intros a s' (_ & L' & v' & i' & Hs' & He' & _ & [(-> & -> & -> & _)|[? _]]); [|done].
    rewrite list_insert_id in Hs' by done. done.
Qed.

Lemma readi_loop_wp fuel L v ic s ip i tot off n :
  fs_at ∅ L v ic s -> file_env ∅ v ic ip i -> (size L + 3 <= txn_cap)%nat ->
  no_holes v i (i_size i) -> 0 <= off -> off + (n - tot) <= i_size i ->
  (tot < n -> nblk off (n - tot) <= Z.of_nat fuel) ->
  wp (readi_loop fuel ip tot off n) (fun d s' =>
    d = byte_at v i <$> seqZ off (n - tot) /\ fs_at ∅ L v ic s') s.
Proof.
  revert s tot off. induction fuel as [|fuel IH]; intros s tot off Hs He Hc Hh Ho Hle Hf;
    cbn [readi_loop]; destruct (Z.ltb_spec tot n) as [Hlt|Hge];
    try (apply wp_ret; split; [by rewrite seqZ_nil by lia|done]).
  { destruct (nblk_next off (n - tot)) as (_ & ? & _); [lia..|]. specialize (Hf Hlt). lia. }
  pose proof He as [Hip Hfo _ _]. destruct (nblk_next off (n - tot)) as (Hm & _ & Hnext); [lia..|].
  set (m := Z.min (n - tot) (BSIZE - off mod BSIZE)) in *.
  pose proof (Z.mod_pos_bound off BSIZE ltac:(done)) as Hmod.
  pose proof (fo_size _ _ _ _ Hfo) as Hsz.
  assert (0 <= off / BSIZE < MAXFILE) as Hbn by (apply (bn_range off (i_size i)); lia).
  assert (addr_at v i (off / BSIZE) <> 0) as Ha by (eapply no_holes_at; [done|lia]).
  rewrite wp_bind. eapply wp_mono; [by eapply bmap_present|]. intros a s1 [-> Hs1].
  rewrite wp_bind. eapply geti_wp; [done..|]. rewrite (fo_dev _ _ _ _ Hfo), wp_bind.
  eapply wp_mono; [eapply read_block_wp; [done| | | |lia]|].
  { eapply data_FSSIZE, Hfo. done. } { apply not_held_empty. } { rewrite map_size_empty. lia. }
  intros d s2 [-> Hs2]. cbv zeta. rewrite wp_bind.
  eapply wp_mono; [apply (IH s2 (tot + m) (off + m)); try done; try lia|].
  { intros Hlt'. replace (n - (tot + m)) with (n - tot - m) by lia. rewrite Hnext.
    specialize (Hf Hlt). lia. }
  intros d s3 [-> Hs3]. apply wp_ret. split; [|done].
  rewrite file_slice by (lia || by eapply fs_block).
  rewrite (seqZ_split off m (n - tot)), fmap_app by lia.
  by replace (n - tot - m) with (n - (tot + m)) by lia.
Qed.

Lemma content_slice v i off k :
  0 <= off -> 0 <= k -> off + k <= i_size i ->
  take (Z.to_nat k) (drop (Z.to_nat off) (content v i)) = byte_at v i <$> seqZ off k.
Proof.
  intros Ho Hk Hle. unfold content. rewrite <- fmap_drop, <- fmap_take. f_equal.
  rewrite (seqZ_split 0 off (i_size i)) by lia.
  rewrite drop_app_length' by (rewrite length_seqZ; lia).
  rewrite (seqZ_split (0 + off) k (i_size i - off)) by lia.
  by rewrite take_app_length' by (rewrite length_seqZ; lia).
Qed.

Lemma readi_run devread L v ic s ip i off n :
  fs_at ∅ L v ic s -> file_env ∅ v ic ip i -> i_type i <> T_DEV -> no_holes v i (i_size i) ->
  is_u32 off -> is_u32 n -> (size L + 3 <= txn_cap)%nat ->
  wp (readi devread ip off n) (fun r s' => fs_at ∅ L v ic s' /\
    r = if bool_decide (off <= i_size i /\ off + n < 2 ^ 32) then
          let k := Z.min n (i_size i - off) in
          (k, take (Z.to_nat k) (drop (Z.to_nat off) (content v i)))
        else (-1, [])) s.
Proof.
  intros Hs He Hty Hh Ho Hn Hc. pose proof He as [Hip Hfo _ _]. pose proof (fo_size _ _ _ _ Hfo) as Hsz.
  unfold readi. rewrite wp_bind. eapply geti_wp; [done..|].
  rewrite (proj2 (Z.eqb_neq _ _)) by done.
  destruct (Z.ltb_spec (i_size i) off) as [Hlt|Hge]; cbn [orb].
  { apply wp_ret. by rewrite bool_decide_false by lia. }
  destruct (decide (off + n < 2 ^ 32)) as [Hno|Hov].
  2: { rewrite (proj2 (Z.ltb_lt _ _)) by wrap_lia. apply wp_ret. by rewrite bool_decide_false by lia. }
  assert (u32 (off + n) = off + n) as -> by (apply u32_small; unfold is_u32 in *; lia).
  rewrite (proj2 (Z.ltb_ge _ _)) by (unfold is_u32 in *; lia). rewrite bool_decide_true by lia.
  unfold is_u32 in *. cbv zeta. set (k := if i_size i <? off + n then u32 (i_size i - off) else n).
  assert (k = Z.min n (i_size i - off)) as Hk.
  { unfold k. destruct (Z.ltb_spec (i_size i) (off + n)); [|lia].
    rewrite u32_small; [lia|]. unfold is_u32. fs_lia. }
  clearbody k. subst k. set (k := Z.min n (i_size i - off)). rewrite wp_bind.
  eapply wp_mono; [apply (readi_loop_wp _ L v ic s ip i); try done; try lia|].
  - intros _. rewrite Z.sub_0_r. apply nblk_rounds; lia.
  - intros d s' [-> Hs']. apply wp_ret. split; [done|]. rewrite Z.sub_0_r.
    rewrite content_slice by lia. done.
Qed.

(** ** Writing one block *)

(** How the map of the file looks after [bmap]. *)
Record mapped v i v' i' (bn a : Z) : Prop := {
  mp_inode : i' = set_i_addrs (i_addrs i') i;
  mp_file : file_ok v' i';
  mp_addr : addr_at v' i' bn = a;
  mp_keep : forall bn', 0 <= bn' < MAXFILE -> bn' <> bn -> addr_at v' i' bn' = addr_at v i bn';
  mp_used : forall b, 0 <= b < BPB -> used v b = true -> used v' b = true;
  mp_frame : forall b, used v b = true -> b <> bm -> b <> ind_addr i -> v' b = v b;
  mp_own : forall b, own v' i' b -> own v i b \/ used v b = false;
  mp_same : addr_at v i bn <> 0 -> v' = v /\ i' = i;
  mp_free : (nfree v + need_ind i' <= nfree v' + 1 + need_ind i)%nat
}.

Lemma grow_nfree v i v' i' bn a :
  (forall b, block (v b)) -> grow v i v' i' bn a ->
  (nfree v + need_ind i' <= nfree v' + 1 + need_ind i)%nat.
Proof.
  intros Hv [_ _ _ [Gd Gu] Gind Gus _]. pose proof (size_BPB sb dstart Hlay) as HB.
  pose proof (dstart_pos sb dstart Hlay) as Hds. unfold FsInv.is_data in *. unfold need_ind.
  destruct Gind as [He|(Hi0 & Hid & Hiu & Hia)].
  - rewrite He. rewrite (nfree_use sb v v' a); [destruct (decide (ind_addr i = 0)); lia|lia|done|]. intros c Hc. rewrite Gus by lia.
    f_equal. destruct (bool_decide (c = _ /\ _ /\ _)) eqn:E; [|done].
    apply bool_decide_eq_true in E as (E1 & E2 & E3). congruence.
  - destruct (decide (ind_addr i = 0)); [|done]. destruct (decide (ind_addr i' = 0)); [lia|].
    set (v1 := alloc v (ind_addr i')).
    assert (forall c, 0 <= c < sb_size sb -> used v1 c = bool_decide (c = ind_addr i') || used v c) as H1'
      by (intros c Hc; apply (used_alloc sb dstart); [done..|lia]).
    rewrite (nfree_use sb v v1 (ind_addr i')) by (done || lia).
    rewrite (nfree_use sb v1 v' a); [lia|lia| |].
    + rewrite H1', Gu, bool_decide_false by (done || lia). done.
    + intros c Hc. rewrite Gus, H1' by lia. f_equal. f_equal.
      apply bool_decide_ext. split; [naive_solver|]. intros ->. split_and!; [done|done|lia].
Qed.

Lemma grow_mapped v i v' i' bn a :
  (forall b, block (v b)) -> file_ok v i -> 0 <= bn < MAXFILE -> addr_at v i bn = 0 ->
  grow v i v' i' bn a -> mapped v i v' i' bn a.
Proof.
  intros Hv Hf Hbn Hz Hg. pose proof Hg as [Gi Gl Ga [Gd Gu] Gind Gus Gf].
  assert (forall b, 0 <= b < BPB -> used v b = true -> used v' b = true) as Hus.
  { intros b Hb Hu. rewrite Gus, Hu by done. by rewrite !orb_true_r. }
  split.
  - done.
  - by eapply grow_file_ok.
  - rewrite Ga by done. by rewrite decide_True.
  - intros bn' Hbn' Hne. rewrite Ga by done. by rewrite decide_False.
  - done.
  - intros b Hu Hb1 Hb2. apply Gf; [done| |congruence].
    destruct Gind as [->|(_ & _ & ? & _)]; [done|congruence].
  - intros b [Hb0 [->|(bn' & Hbn' & ->)]].
    + destruct Gind as [He|(_ & _ & ? & _)]; [|by right]. left. split; [done|]. by left.
    + rewrite Ga in * by done. destruct (decide (bn' = bn)); [by right|]. left. split; [done|]. right. eauto.
  - done.
  - by eapply grow_nfree.
Qed.

Lemma mapped_refl v i bn : file_ok v i -> addr_at v i bn <> 0 -> mapped v i v i bn (addr_at v i bn).
Proof.
  intros Hf Ha. split; try done.
  - by destruct i.
  - intros b Hb. by left.
  - lia.
Qed.

(** The bytes [lo, hi) of the file are now [src]; the rest of the file and all
    other blocks in use are as before. *)
Record wstep v i v' i' (lo hi : Z) (src : list Z) : Prop := {
  ws_inode : i' = set_i_addrs (i_addrs i') i;
  ws_file : file_ok v' i';
  ws_byte : forall o, 0 <= o < MAXFILE * BSIZE ->
    (lo <= o < hi -> byte_at v' i' o = nth (Z.to_nat (o - lo)) src 0) /\
    (~ (lo <= o < hi) -> addr_at v i (o / BSIZE) <> 0 -> byte_at v' i' o = byte_at v i o);
  ws_addr : forall bn, 0 <= bn < MAXFILE -> addr_at v i bn <> 0 -> addr_at v' i' bn = addr_at v i bn;
  ws_new : forall o, lo <= o < hi -> addr_at v' i' (o / BSIZE) <> 0;
  ws_used : forall b, 0 <= b < BPB -> used v b = true -> used v' b = true;
  ws_frame : forall b, 0 < b < BPB -> used v b = true -> ~ own v i b -> b <> bm -> v' b = v b;
  ws_own : forall b, own v' i' b -> own v i b \/ used v b = false;
  ws_same : (forall o, lo <= o < hi -> addr_at v i (o / BSIZE) <> 0) -> i' = i
}.

Lemma wstep_nil v i lo : file_ok v i -> wstep v i v i lo lo [].
Proof.
  intros Hf. split; try done.
  - by destruct i.
  - intros o Ho. split; [lia|done].
  - lia.
  - intros b Hb. by left.
Qed.

Lemma own_range v i b : file_ok v i -> own v i b -> 0 <= b < BPB /\ used v b = true.
Proof.
  intros Hf [Hb0 Hb].
  assert (ref_ok sb dstart v b) as [?|[Hd Hu]]; [|done|].
  - destruct Hb as [->|(bn & Hbn & ->)]; [apply Hf|by apply Hf].
  - split; [by eapply data_bit|done].
Qed.

(** One write after another. *)
Lemma wstep_app v i v1 i1 v2 i2 lo mid hi d1 d2 :
  wstep v i v1 i1 lo mid d1 -> wstep v1 i1 v2 i2 mid hi d2 -> lo <= mid <= hi ->
  Z.of_nat (length d1) = mid - lo -> 0 <= lo -> hi <= MAXFILE * BSIZE -> file_ok v i -> wstep v i v2 i2 lo hi (d1 ++ d2).
Proof.
  intros A C Hm Hl Hlo Hhi Hf. split.
  - rewrite (ws_inode _ _ _ _ _ _ _ C), (ws_inode _ _ _ _ _ _ _ A). done.
  - apply C.
  - intros o Ho. destruct (ws_byte _ _ _ _ _ _ _ A o Ho) as [A1 A2].
    destruct (ws_byte _ _ _ _ _ _ _ C o Ho) as [C1 C2].
    assert (0 <= o / BSIZE < MAXFILE) as Hbn by (apply (bn_range o (MAXFILE * BSIZE)); lia).
    split.
    + intros Hr. destruct (decide (o < mid)) as [Hlt|Hge].
      * rewrite C2 by (lia || (apply (ws_new _ _ _ _ _ _ _ A); lia)). rewrite A1 by lia.
        rewrite app_nth1 by lia. done.
      * rewrite C1 by lia. rewrite app_nth2 by lia. f_equal. lia.
    + intros Hr Ha. rewrite C2, A2 by (done || lia || (rewrite (ws_addr _ _ _ _ _ _ _ A) by done; done)).
      done.
  - intros bn Hbn Ha. pose proof (ws_addr _ _ _ _ _ _ _ A bn Hbn Ha) as E.
    rewrite (ws_addr _ _ _ _ _ _ _ C) by (done || congruence). done.
  - intros o Ho. destruct (decide (o < mid)); [|apply C; lia].
    assert (0 <= o / BSIZE < MAXFILE) as Hbn by (apply (bn_range o (MAXFILE * BSIZE)); lia).
    pose proof (ws_new _ _ _ _ _ _ _ A o ltac:(lia)). by rewrite (ws_addr _ _ _ _ _ _ _ C).
  - intros b Hb Hu. by apply (ws_used _ _ _ _ _ _ _ C), (ws_used _ _ _ _ _ _ _ A).
  - intros b Hb Hu Hno Hbm. rewrite (ws_frame _ _ _ _ _ _ _ C).
    + by apply (ws_frame _ _ _ _ _ _ _ A).
    + done.
    + apply (ws_used _ _ _ _ _ _ _ A); [lia|done].
    + intros Ho. destruct (ws_own _ _ _ _ _ _ _ A b Ho); [done|congruence].
    + done.
  - intros b Ho. destruct (ws_own _ _ _ _ _ _ _ C b Ho) as [Ho1|Hu1].
    + by apply (ws_own _ _ _ _ _ _ _ A).
    + right. apply not_true_is_false. intros Hu.
      rewrite (ws_used _ _ _ _ _ _ _ A) in Hu1; [done| |done].
      by apply (own_range v2 i2); [apply C|].
  - intros Ha. rewrite (ws_same _ _ _ _ _ _ _ C); [apply A; intros o Ho; apply Ha; lia|]. intros o Ho.
    assert (0 <= o / BSIZE < MAXFILE) as Hbn by (apply (bn_range o (MAXFILE * BSIZE)); lia).
    rewrite (ws_addr _ _ _ _ _ _ _ A); [apply Ha; lia|done|apply Ha; lia].
Qed.

Lemma file_ok_ext v v' i :
  (forall bn, 0 <= bn < MAXFILE -> addr_at v' i bn = addr_at v i bn) -> v' bm = v bm ->
  file_ok v i -> file_ok v' i.
Proof.
  intros Ha Hb [Fd Fi Fl Fs Find Fdata Finj Fne].
  assert (forall b, used v' b = used v b) as Hu by (intros b; unfold FsInv.used; by rewrite Hb).
  assert (forall b, ref_ok sb dstart v b -> ref_ok sb dstart v' b) as Hr
    by (intros b; unfold ref_ok; by rewrite Hu).
  split; try done.
  - by apply Hr.
  - intros bn Hbn. rewrite Ha by done. by apply Hr, Fdata.
  - intros b1 b2 H1' H2'. rewrite !Ha by done. by apply Finj.
  - intros bn Hbn. rewrite Ha by done. by apply Fne.
Qed.

Lemma same_block off o :
  0 <= off -> o / BSIZE = off / BSIZE -> o - off = o mod BSIZE - off mod BSIZE.
Proof. intros Ho He. change BSIZE with 512 in *. Z.div_mod_to_equations. lia. Qed.

Section one_block.
Context {v : Z -> list Z} {i : inode} {v1 : Z -> list Z} {i1 : inode} (off : Z) (data : list Z).
#[local] Abbreviation bn := (off / BSIZE).
#[local] Abbreviation m := (Z.of_nat (length data)).
Context {a : Z} (Hm : mapped v i v1 i1 bn a) (Hf : file_ok v i) (Hv1 : forall b, block (v1 b)).
Context (Ha : a <> 0) (Ho : 0 <= off) (Hin : off mod BSIZE + m <= BSIZE) (Hend : off + m <= MAXFILE * BSIZE).
Context (Hbn : 0 <= bn < MAXFILE).
Definition stored : Z -> list Z := fupd v1 a (splice (v1 a) (Z.to_nat (off mod BSIZE)) data).

Lemma a_data : is_data a /\ used v1 a = true /\ a <> ind_addr i1 /\ a <> bm.
Proof.
  pose proof (mp_file _ _ _ _ _ _ Hm) as Hf1. pose proof (mp_addr _ _ _ _ _ _ Hm) as He.
  destruct (fo_data _ _ _ _ Hf1 bn Hbn) as [?|[Hd Hu]]; [congruence|]. rewrite He in Hd, Hu.
  split_and!; [done..| |by eapply data_ne_bm]. rewrite <- He. apply Hf1; [done|congruence].
Qed.

Lemma stored_addr bn' : addr_at stored i1 bn' = addr_at v1 i1 bn'.
Proof.
  destruct a_data as (_ & _ & Hai & _). unfold addr_at, stored.
  destruct (bn' <? NDIRECT); [done|]. destruct (ind_addr i1 =? 0); [done|]. by rewrite fupd_ne.
Qed.

Lemma stored_byte_in o : off <= o < off + m -> byte_at stored i1 o = nth (Z.to_nat (o - off)) data 0.
Proof.
  intros Hr. unfold byte_at. rewrite stored_addr.
  pose proof (Z.mod_pos_bound off BSIZE ltac:(done)). 
  destruct (off_block off (o - off)) as [E1 E2]; [lia..|].
  replace (off + (o - off)) with o in * by lia.
  rewrite E1, (mp_addr _ _ _ _ _ _ Hm). unfold stored. rewrite fupd_eq.
  pose proof (Hv1 a) as Hb. unfold block in Hb. rewrite nth_splice by fs_lia.
  rewrite decide_True by lia. f_equal. lia.
Qed.

Lemma stored_byte_out o :
  0 <= o < MAXFILE * BSIZE -> ~ (off <= o < off + m) -> addr_at v i (o / BSIZE) <> 0 ->
  byte_at stored i1 o = byte_at v i o.
Proof.
  intros Hor Hr Hav. unfold byte_at. rewrite stored_addr.
  assert (0 <= o / BSIZE < MAXFILE) as Hob by (apply (bn_range o (MAXFILE * BSIZE)); lia).
  pose proof (Z.mod_pos_bound o BSIZE ltac:(done)). pose proof (Z.mod_pos_bound off BSIZE ltac:(done)).
  destruct (decide (o / BSIZE = bn)) as [He|Hne].
  - rewrite He in *. destruct (mp_same _ _ _ _ _ _ Hm Hav) as [Ev Ei].
    rewrite (mp_addr _ _ _ _ _ _ Hm). pose proof (mp_addr _ _ _ _ _ _ Hm) as Ea. rewrite Ev, Ei in Ea.
    rewrite Ea. unfold stored. rewrite fupd_eq. pose proof (Hv1 a) as Hb. unfold block in Hb.
    rewrite nth_splice by fs_lia. rewrite decide_False; [by rewrite Ev|].
    pose proof (same_block off o Ho He). lia.
  - rewrite (mp_keep _ _ _ _ _ _ Hm) by done. f_equal. unfold stored.
    pose proof (mp_file _ _ _ _ _ _ Hm) as Hf1.
    rewrite fupd_ne.
    + destruct (fo_data _ _ _ _ Hf (o / BSIZE) Hob) as [?|[Hd Hu]]; [done|].
      apply Hm; [done|by eapply data_ne_bm|]. by apply Hf.
    + rewrite <- (mp_keep _ _ _ _ _ _ Hm) by done. rewrite <- (mp_addr _ _ _ _ _ _ Hm).
      intros He. apply Hne. apply (fo_inj _ _ _ _ Hf1); [done|done| |done].
      by rewrite (mp_keep _ _ _ _ _ _ Hm).
Qed.

Lemma wstep_block : 0 < m -> wstep v i stored i1 off (off + m) data.
Proof.
  intros Hpos. destruct a_data as (Had & Hau & Hai & Hab). pose proof (mp_file _ _ _ _ _ _ Hm) as Hf1.
  assert (stored bm = v1 bm) as Ebm by (unfold stored; by rewrite fupd_ne).
  split.
  - apply Hm.
  - by apply (file_ok_ext v1); [intros; apply stored_addr| |].
  - intros o Hor. split; [apply stored_byte_in|by apply stored_byte_out].
  - intros b Hb Hne. rewrite stored_addr. destruct (decide (b = bn)) as [->|]; [|by rewrite (mp_keep _ _ _ _ _ _ Hm)].
    destruct (mp_same _ _ _ _ _ _ Hm Hne) as [-> ->]. done.
  - intros o Hr. rewrite stored_addr. pose proof (Z.mod_pos_bound off BSIZE ltac:(done)).
    destruct (off_block off (o - off)) as [E1 _]; [lia..|].
    replace (off + (o - off)) with o in E1 by lia. rewrite E1. by rewrite (mp_addr _ _ _ _ _ _ Hm).
  - intros b Hb Hu. unfold FsInv.used. rewrite Ebm. by apply Hm.
  - intros b Hb Hu Hno Hbm. assert (b <> a) as Hba.
    { intros ->. destruct (mp_own _ _ _ _ _ _ Hm a) as [?|?]; [|done|congruence].
      split; [done|]. right. exists bn. split; [done|]. by rewrite (mp_addr _ _ _ _ _ _ Hm). }
    unfold stored. rewrite fupd_ne by done. apply Hm; [done|done|].
    intros ->. apply Hno. split; [lia|by left].
  - intros b [Hb0 Hb]. apply Hm. split; [done|]. destruct Hb as [?|(bn' & Hbn' & E)]; [by left|].
    right. exists bn'. by rewrite <- stored_addr.
  - intros Hall. apply (mp_same _ _ _ _ _ _ Hm), Hall. lia.
Qed.
End one_block.

(** ** writei *)

(** The block for the next bytes. *)
Lemma bmap_mapped L v ic s ip i bn X :
  fs_at ∅ L v ic s -> file_env ∅ v ic ip i -> 0 <= bn < MAXFILE ->
  (1 + need_ind i <= nfree v)%nat -> logged L i X -> (size X + 3 <= txn_cap)%nat ->
  wp (bmap ip bn) (fun a s' => a <> 0 /\ exists L' v' i', fs_at ∅ L' v' (<[ip := i']> ic) s' /\
    mapped v i v' i' bn a /\ logged L' i' ({[a]} ∪ X)) s.
Proof.
  intros Hs He Hbn Hn Hl Hc. pose proof He as [Hip Hf Hme _].
  eapply wp_mono; [eapply (bmap_run sb me dstart Hlay); try done|].
  - rewrite map_size_empty. lia.
  - intros a s' (Ha & L' & v' & i' & Hs' & Haa & Hlg & Hor). split; [done|].
    exists L', v', i'. split_and!; [done| |done]. subst a. destruct Hor as [(-> & -> & _ & _)|[Hz Hg]].
    + by apply mapped_refl.
    + apply grow_mapped; try done. intros b. by eapply fs_block.
Qed.

Lemma meta_used_mono v v' :
  (forall b, 0 <= b < BPB -> used v b = true -> used v' b = true) ->
  meta_used sb dstart v -> meta_used sb dstart v' .
Proof.
  intros Hu Hme b Hb. pose proof (size_BPB sb dstart Hlay). pose proof (lay_bm_data _ _ Hlay).
  apply Hu; [lia|by apply Hme].
Qed.

(** The blocks that became used: at most [k] and the indirect block. *)
Definition room v i v' i' (k : Z) : Prop :=
  Z.of_nat (nfree v) + Z.of_nat (need_ind i') <= Z.of_nat (nfree v') + Z.of_nat (need_ind i) + k.

Definition wrote_post v ic ip i off n (src : list Z) (X : gset Z) s' : Prop :=
  exists L' v' i' X', fs_at ∅ L' v' (<[ip := i']> ic) s' /\
    wstep v i v' i' off (off + n) (take (Z.to_nat n) src) /\
    logged L' i' X' /\ Z.of_nat (size X') <= Z.of_nat (size X) + nblk off n /\
    room v i v' i' (nblk off n).

Lemma wrote_post_nil L v ic s ip i off src X :
  fs_at ∅ L v ic s -> file_env ∅ v ic ip i -> 0 <= off -> logged L i X ->
  wrote_post v ic ip i off 0 src X s.
Proof.
  intros Hs [Hip Hf _ _] Ho Hl. exists L, v, i, X. rewrite list_insert_id, Z.add_0_r by done.
  pose proof (nblk_nonneg off 0 Ho). split_and!; [done|by apply wstep_nil|done|lia|unfold room; lia].
Qed.

Lemma writei_loop_wp fuel L v ic s ip i src tot off n X :
  fs_at ∅ L v ic s -> file_env ∅ v ic ip i -> 0 <= off -> 0 <= n - tot ->
  off + (n - tot) <= MAXFILE * BSIZE -> n - tot <= Z.of_nat (length src) ->
  (tot < n -> nblk off (n - tot) <= Z.of_nat fuel) -> logged L i X ->
  Z.of_nat (size X) + nblk off (n - tot) + 3 <= Z.of_nat txn_cap ->
  (tot < n -> nblk off (n - tot) + Z.of_nat (need_ind i) <= Z.of_nat (nfree v)) ->
  wp (writei_loop fuel ip src tot off n) (fun r s' =>
    r = off + (n - tot) /\ wrote_post v ic ip i off (n - tot) src X s') s.
Proof.
  revert L v ic s i src tot off X.
  induction fuel as [|fuel IH]; intros L v ic s i src tot off X Hs He Ho Hn0 Hend Hlen Hfu Hl Hc Hfr;
    pose proof He as [Hip Hf Hme _]; cbn [writei_loop];
    (destruct (Z.ltb_spec tot n) as [Hlt|Hge];
     [|apply wp_ret; assert (n - tot = 0) as -> by lia; split; [lia|by eapply wrote_post_nil]]).
  { destruct (nblk_next off (n - tot)) as (_ & ? & _); [lia..|]. specialize (Hfu Hlt). lia. }
  destruct (nblk_next off (n - tot)) as (Hm & H1' & Hnext); [lia..|].
  set (m := Z.min (n - tot) (BSIZE - off mod BSIZE)) in *.
  pose proof (Z.mod_pos_bound off BSIZE ltac:(done)) as Hmod.
  assert (0 <= off / BSIZE < MAXFILE) as Hbn by (apply (bn_range off (off + (n - tot))); lia).
  specialize (Hfr Hlt). specialize (Hfu Hlt).
  rewrite wp_bind. eapply wp_mono; [eapply bmap_mapped; try done; lia|].
  intros a s1 (Ha & L1 & v1 & i1 & Hs1 & Hmp & Hl1).
  assert (file_ok v1 i1) as Hf1 by apply Hmp.
  assert (forall b, block (v1 b)) as Hv1 by (intros b; by eapply fs_block).
  assert (Z.of_nat (length (take (Z.to_nat m) src)) = m) as Hdl by (rewrite length_take; lia).
  destruct (a_data off Hmp Ha Hbn) as (Had & Hau & Hai & Hab).
  pose proof (wstep_block off (take (Z.to_nat m) src) Hmp Hf Hv1 Ha Ho) as Hws. rewrite Hdl in Hws.
  specialize (Hws ltac:(lia) Hbn ltac:(lia)).
  assert (<[ip:=i1]> ic !! ip = Some i1) as Hip1 by (by apply list_lookup_insert_eq, (lookup_lt_Some _ _ i)).
  rewrite wp_bind. eapply geti_wp; [done..|]. rewrite (fo_dev _ _ _ _ Hf1), wp_bind.
  pose proof (size_union_le {[a]} X) as Hsx. rewrite size_singleton in Hsx.
  assert (logged ({[a]} ∪ L1) i1 ({[a]} ∪ X)) as Hl2 by (unfold FsMap.logged in *; clear -Hl1; set_solver).
  pose proof (logged_size _ _ _ _ Hl2) as Hls.
  eapply wp_mono; [eapply modify_block_wp; [done|by apply Hlay|apply not_held_empty|by rewrite map_size_empty; lia|lia|]|].
  { intros d. unfold block. by rewrite length_splice. }
  intros [] s2 Hs2. change (fupd v1 a _) with (stored (v1 := v1) off (take (Z.to_nat m) src) (a := a)) in Hs2.
  set (v2 := stored (v1 := v1) off (take (Z.to_nat m) src)) in *.
  assert (nfree v2 = nfree v1) as Hnf2.
  { apply nfree_bm. unfold v2, stored. by rewrite fupd_ne. }
  pose proof (mp_free _ _ _ _ _ _ Hmp) as Hmf.
  assert (file_env ∅ v2 (<[ip:=i1]> ic) ip i1) as He2.
  { split; [done|apply Hws| |apply held_ok_empty]. eapply meta_used_mono; [apply Hws|done]. }
  assert (nblk (off + m) (n - (tot + m)) = nblk off (n - tot) - 1) as Hrem.
  { rewrite <- Hnext. f_equal. lia. }
  eapply wp_mono.
  { apply (IH _ v2 _ s2 i1 (drop (Z.to_nat m) src) (tot + m) (off + m) ({[a]} ∪ X) Hs2 He2);
      try done; try lia.
    rewrite length_drop. lia. }
  intros r s3 (-> & L3 & v3 & i3 & X3 & Hs3 & Hw3 & Hl3 & Hx3 & Hr3). split; [lia|].
  exists L3, v3, i3, X3. rewrite list_insert_insert_eq in Hs3. rewrite Hrem in Hx3, Hr3.
  split_and!; [done| |done|lia|unfold room in *; lia].
  replace (off + (n - tot)) with (off + m + (n - (tot + m))) by lia.
  replace (take (Z.to_nat (n - tot)) src) with (take (Z.to_nat m) src ++
    take (Z.to_nat (n - (tot + m))) (drop (Z.to_nat m) src)); [eapply wstep_app; try done; lia|].
  rewrite <- (take_drop (Z.to_nat m) src) at 3. rewrite take_app_ge by lia.
  do 2 f_equal. lia.
Qed.

(** A block that is not of the file does not matter to it. *)
Lemma addr_at_fupd v i b d bn : b <> ind_addr i -> addr_at (fupd v b d) i bn = addr_at v i bn.
Proof.
  intros Hb. unfold addr_at. destruct (bn <? NDIRECT); [done|]. destruct (ind_addr i =? 0); [done|].
  by rewrite fupd_ne.
Qed.

Lemma meta_not_own v i b : file_ok v i -> 0 < b < dstart -> own v i b -> False.
Proof.
  intros Hf Hb [Hb0 Ho]. assert (ref_ok sb dstart v b) as [?|[Hd _]]; [|lia|].
  - destruct Ho as [->|(bn & Hbn & ->)]; by apply Hf.
  - unfold FsInv.is_data in Hd. lia.
Qed.

Lemma ref_meta_ne v a b : ref_ok sb dstart v a -> 0 < b < dstart -> a <> b.
Proof. intros [->|[Hd _]] Hb; [lia|]. unfold FsInv.is_data in Hd. lia. Qed.

Lemma byte_at_fupd_meta v i b d o :
  file_ok v i -> 0 < b < dstart -> 0 <= o < MAXFILE * BSIZE -> byte_at (fupd v b d) i o = byte_at v i o.
Proof.
  intros Hf Hb Ho. unfold byte_at. rewrite addr_at_fupd.
  - rewrite fupd_ne; [done|]. eapply ref_meta_ne; [|done]. apply Hf.
    apply (bn_range o (MAXFILE * BSIZE)); lia.
  - apply not_eq_sym. eapply ref_meta_ne; [apply Hf|done].
Qed.

Lemma file_ok_fupd_meta v i b d : file_ok v i -> 0 < b < dstart -> b <> bm -> file_ok (fupd v b d) i.
Proof.
  intros Hf Hb Hbm. apply (file_ok_ext v); [| |done].
  - intros bn _. apply addr_at_fupd. apply not_eq_sym. eapply ref_meta_ne; [apply Hf|done].
  - by rewrite fupd_ne.
Qed.

(** The addresses of an inode are 32 bits wide. *)
Lemma addrs_u32 v i : file_ok v i -> Forall is_u32 (i_addrs i).
Proof.
  intros Hf. apply Forall_lookup. intros k a Hk. pose proof (lookup_lt_Some _ _ _ Hk) as Hlt.
  rewrite (fo_len _ _ _ _ Hf) in Hlt.
  assert (ref_ok sb dstart v a) as Hr.
  { pose proof (nth_lookup_Some _ _ 0 _ Hk) as Hn. destruct (decide (k = 12%nat)) as [->|Hne].
    - rewrite <- Hn. apply Hf.
    - rewrite <- Hn. replace (nth k (i_addrs i) 0) with (addr_at v i (Z.of_nat k)).
      + apply Hf. fs_lia.
      + unfold addr_at. rewrite (proj2 (Z.ltb_lt _ _)) by fs_lia. by rewrite Nat2Z.id. }
  apply data_FSSIZE in Hr as Hr2. destruct Hr as [->|[Hd _]]; [done|].
  pose proof (dstart_pos sb dstart Hlay). unfold FsInv.is_data in Hd. unfold is_u32. fs_lia.
Qed.

(** The inode after a write that ends at [e]. *)
Definition grown (e : Z) i : inode := if i_size i <? e then set_i_size e i else i.

Lemma grown_size e i : i_size (grown e i) = Z.max (i_size i) e.
Proof. unfold grown. destruct (Z.ltb_spec (i_size i) e); cbn; lia. Qed.

Lemma grown_file v e i : file_ok v i -> e <= MAXFILE * BSIZE -> file_ok v (grown e i).
Proof.
  intros Hf He. unfold grown. destruct (Z.ltb_spec (i_size i) e); [|done].
  destruct Hf as [? ? ? ? ? ? ? ?]. split; try done. cbn. lia.
Qed.

Lemma grown_wf v e i :
  file_ok v i -> dinode_wf (i_disk i) -> 0 <= e <= MAXFILE * BSIZE -> dinode_wf (i_disk (grown e i)).
Proof.
  intros Hf [? ? ? ? ? ? ?] He. unfold grown. destruct (Z.ltb_spec (i_size i) e); [|by split].
  split; try done. cbn. unfold is_u32. fs_lia.
Qed.

(** What [writei] of [src] at [off] makes of the file. *)
Record written v i v' i' (off : Z) (src : list Z) : Prop := {
  wr_content : content v' i' =
    take (Z.to_nat off) (content v i) ++ src ++ drop (Z.to_nat off + length src) (content v i);
  wr_inode : i' = set_i_size (i_size i') (set_i_addrs (i_addrs i') i);
  wr_file : file_ok v' i';
  wr_full : no_holes v' i' (i_size i');
  wr_used : forall b, 0 <= b < BPB -> used v b = true -> used v' b = true;
  wr_frame : forall b, home b -> used v b = true -> ~ own v i b -> b <> bm ->
    b <> IBLOCK (i_inum i) sb -> v' b = v b;
  wr_own : forall b, own v' i' b -> own v i b \/ used v b = false;
  wr_disk : forall inum, inum_ok sb inum -> disk_inode sb v' inum =
    if decide (inum = i_inum i /\ i_size i < off + Z.of_nat (length src)) then i_disk i'
    else disk_inode sb v inum;
  wr_same : off + Z.of_nat (length src) <= i_size i -> i' = i
}.

Lemma content_splice v i v' i' off (src : list Z) :
  0 <= off <= i_size i -> i_size i' = Z.max (i_size i) (off + Z.of_nat (length src)) ->
  (forall o, off <= o < off + Z.of_nat (length src) -> byte_at v' i' o = nth (Z.to_nat (o - off)) src 0) ->
  (forall o, 0 <= o < i_size i -> ~ (off <= o < off + Z.of_nat (length src)) -> byte_at v' i' o = byte_at v i o) ->
  content v' i' =
    take (Z.to_nat off) (content v i) ++ src ++ drop (Z.to_nat off + length src) (content v i).
Proof.
  intros Ho Hsz Hin Hout. set (n := Z.of_nat (length src)) in *.
  assert (take (Z.to_nat off) (content v i) = byte_at v i <$> seqZ 0 off) as ->.
  { pose proof (content_slice v i 0 off ltac:(lia) ltac:(lia) ltac:(lia)) as Hc. by rewrite drop_0 in Hc. }
  assert (drop (Z.to_nat off + length src) (content v i) =
    byte_at v i <$> seqZ (off + n) (i_size i' - (off + n))) as ->.
  { unfold content. rewrite <- fmap_drop. f_equal. destruct (Z.le_gt_cases (i_size i) (off + n)).
    - rewrite drop_ge by (rewrite length_seqZ; lia). rewrite Hsz, Z.max_r, Z.sub_diag by lia. done.
    - rewrite (seqZ_split 0 (off + n) (i_size i)) by lia. rewrite drop_app_ge; rewrite length_seqZ; [|lia].
      replace (_ + _ - _)%nat with 0%nat by lia. rewrite drop_0. f_equal; lia. }
  unfold content. rewrite (seqZ_split 0 off (i_size i')), (seqZ_split (0 + off) n (i_size i' - off)) by lia.
  rewrite !fmap_app. f_equal; [|f_equal].
  - apply list_fmap_ext. intros k o Hk%lookup_seqZ. apply Hout; lia.
  - apply (list_eq_same_length _ _ (length src)); [done|rewrite length_fmap, length_seqZ; lia|].
    intros k a b Hk Ha Hb. rewrite list_lookup_fmap, lookup_seqZ_lt in Ha by lia. cbn in Ha.
    injection Ha as <-. rewrite Hin by lia. apply nth_lookup_Some. rewrite <- Hb. f_equal. lia.
  - replace (0 + off + n) with (off + n) by lia. replace (i_size i' - off - n) with (i_size i' - (off + n)) by lia.
    apply list_fmap_ext. intros k o Hk%lookup_seqZ. apply Hout; lia.
Qed.

(** The blocks after a write that ends at [e]. *)
Definition synced (e : Z) v i i' : Z -> list Z :=
  if i_size i <? e then put_inode sb v (i_inum i) (i_disk i') else v.

Lemma iblock_meta inum : inum_ok sb inum -> 0 < IBLOCK inum sb < dstart /\ IBLOCK inum sb <> bm.
Proof.
  intros Hi. pose proof (home_range _ (lay_inode _ _ Hlay _ Hi)). pose proof (lay_inode_bm _ _ Hlay _ Hi).
  pose proof (lay_bm_data _ _ Hlay). unfold FsInv.bm. lia.
Qed.

Lemma synced_ne e v i i' b : b <> IBLOCK (i_inum i) sb -> synced e v i i' b = v b.
Proof. intros Hb. unfold synced. destruct (_ <? _); [|done]. by apply fupd_ne. Qed.

Lemma synced_addr e v i i' j bn :
  file_ok v j -> inum_ok sb (i_inum i) -> addr_at (synced e v i i') j bn = addr_at v j bn.
Proof.
  intros Hf Hi. unfold synced. destruct (_ <? _); [|done]. apply addr_at_fupd, not_eq_sym.
  eapply ref_meta_ne; [apply Hf|]. by apply iblock_meta.
Qed.

Lemma synced_byte e v i i' j o :
  file_ok v j -> inum_ok sb (i_inum i) -> 0 <= o < MAXFILE * BSIZE ->
  byte_at (synced e v i i') j o = byte_at v j o.
Proof.
  intros Hf Hi Ho. unfold synced. destruct (_ <? _); [|done].
  apply byte_at_fupd_meta; [done| |done]. by apply iblock_meta.
Qed.

Lemma synced_file e v i i' j : file_ok v j -> inum_ok sb (i_inum i) -> file_ok (synced e v i i') j.
Proof.
  intros Hf Hi. unfold synced. destruct (_ <? _); [|done]. destruct (iblock_meta _ Hi).
  by apply file_ok_fupd_meta.
Qed.

Lemma synced_disk e v i i' inum :
  inum_ok sb (i_inum i) -> inum_ok sb inum -> block (v (IBLOCK (i_inum i) sb)) -> dinode_wf (i_disk i') ->
  disk_inode sb (synced e v i i') inum =
  if decide (inum = i_inum i /\ i_size i < e) then i_disk i' else disk_inode sb v inum.
Proof.
  intros Hi Hi' Hb Hwf. unfold synced. destruct (Z.ltb_spec (i_size i) e) as [Hlt|Hge].
  - destruct (decide (_ /\ _)) as [[-> _]|Hne]; [by apply disk_inode_put|].
    destruct Hi, Hi'. apply disk_inode_put_ne; try done. naive_solver.
  - destruct (decide (_ /\ _)) as [[_ ?]|]; [lia|done].
Qed.

Lemma wstep_written v i v2 i2 off src :
  0 <= off <= i_size i -> off + Z.of_nat (length src) <= MAXFILE * BSIZE ->
  file_ok v i -> no_holes v i (i_size i) -> meta_used sb dstart v -> dinode_wf (i_disk i) ->
  (forall b, block (v2 b)) ->
  wstep v i v2 i2 off (off + Z.of_nat (length src)) src ->
  let e := off + Z.of_nat (length src) in
  let i' := grown e i2 in
  written v i (synced e v2 i2 i') i' off src.
Proof.
  intros Ho Hend Hf Hh Hme Hwf Hbl [Wi Wf Wb Wa Wn Wu Wfr Wo Wsame] e i'.
  assert (i_size i2 = i_size i) as Es by (by rewrite Wi).
  assert (i_inum i2 = i_inum i) as En by (by rewrite Wi).
  assert (inum_ok sb (i_inum i2)) as Hin by apply Wf.
  pose proof (fo_size _ _ _ _ Hf) as Hsz.
  assert (i_size i' = Z.max (i_size i) e) as Es' by (unfold i'; rewrite grown_size; lia).
  assert (forall w o, byte_at w i' o = byte_at w i2 o) as Eb by (intros; unfold i', grown; by destruct (_ <? _)).
  assert (forall w o, addr_at w i' o = addr_at w i2 o) as Ea by (intros; unfold i', grown; by destruct (_ <? _)).
  split.
  - apply content_splice; [done|done|..]; intros o Hr.
    + rewrite Eb, synced_byte by (done || lia). apply Wb; lia.
    + intros Hno. rewrite Eb, synced_byte by (done || lia). apply Wb; [lia|done|].
      by apply (no_holes_at _ _ _ (i_size i)).
  - unfold i', grown. destruct (_ <? _); rewrite Wi; by destruct i.
  - apply synced_file; [|done]. apply grown_file; [done|lia].
  - intros bn Hb Hlt. rewrite Ea, synced_addr by done.
    assert (bn < MAXFILE) by (change BSIZE with 512 in *; change MAXFILE with 140 in *; lia).
    destruct (Z.lt_ge_cases (bn * BSIZE) (i_size i)) as [Hin'|Hout].
    { rewrite Wa by (lia || by apply Hh). by apply Hh. }
    assert (exists o, off <= o < e /\ o / BSIZE = bn) as (o & Hoe & <-); [|by apply Wn].
    exists (bn * BSIZE). change BSIZE with 512 in *. rewrite Z.div_mul by lia. lia.
  - intros b Hb Hu. unfold FsInv.used. rewrite synced_ne; [by apply Wu|].
    apply not_eq_sym, iblock_meta, Hin.
  - intros b Hb%home_range Hu Hno Hbm Hib. rewrite synced_ne by congruence. apply Wfr; try done. fs_lia.
  - intros b [Hb0 Hb]. apply Wo. split; [done|]. destruct Hb as [->|(bn & Hbn & ->)].
    + left. unfold i', grown. by destruct (_ <? _).
    + right. exists bn. split; [done|]. by rewrite Ea, synced_addr.
  - intros inum Hi'. rewrite synced_disk; [|done|done|done|].
    2:{ unfold i'. eapply grown_wf; [done| |unfold e; lia]. rewrite Wi.
        destruct Hwf as [? ? ? ? ? ? ?]. split; try done; [apply Wf|].
        cbn. by eapply addrs_u32. }
    rewrite En, Es. destruct (decide (_ /\ _)); [done|]. unfold disk_inode.
    rewrite Wfr; [done|..].
    + destruct (iblock_meta _ Hi'). pose proof (lay_bm_data _ _ Hlay). pose proof (lay_size _ _ Hlay). fs_lia.
    + apply Hme. destruct (iblock_meta _ Hi'). lia.
    + intros Hown. destruct (iblock_meta _ Hi'). exact (meta_not_own v i _ Hf ltac:(done) Hown).
    + by apply iblock_meta.
  - intros Hle. unfold i', grown. rewrite (proj2 (Z.ltb_ge _ _)) by lia. apply Wsame. intros o Ho'.
    apply (no_holes_at _ _ _ (i_size i)); [done|lia].
Qed.

(** The blocks a write of [n] bytes at [off] needs: those of the file that it
    lacks, and an indirect block. *)
Definition write_room v i (off n : Z) : Prop :=
  nblk off n + Z.of_nat (need_ind i) <= Z.of_nat (nfree v).

Lemma logged_iblock L i X b n :
  logged L i X -> Z.of_nat (size X) <= n -> Z.of_nat (size ({[b]} ∪ L)) <= n + 3.
Proof.
  intros Hl%logged_size Hx. pose proof (size_union_le {[b]} L) as Hu. rewrite size_singleton in Hu. lia.
Qed.

Lemma writei_run devwrite L v ic s ip i buf off n X :
  fs_at ∅ L v ic s -> file_env ∅ v ic ip i -> i_type i <> T_DEV -> no_holes v i (i_size i) ->
  dinode_wf (i_disk i) -> is_u32 off -> is_u32 n -> n <= Z.of_nat (length buf) -> logged L i X ->
  Z.of_nat (size X) + nblk off n + 3 <= Z.of_nat txn_cap -> write_room v i off n ->
  wp (writei devwrite ip buf off n) (fun r s' =>
    if decide (off <= i_size i /\ off + n <= MAXFILE * BSIZE) then
      r = n /\ exists L' v' i', fs_at ∅ L' v' (<[ip := i']> ic) s' /\
        Z.of_nat (size L') <= Z.of_nat (size X) + nblk off n + 3 /\ room v i v' i' (nblk off n) /\
        written v i v' i' off (take (Z.to_nat n) buf)
    else r = -1 /\ s' = s) s.
Proof.
  intros Hs He Hty Hh Hwf Ho Hn Hlb Hl Hc Hr. pose proof He as [Hip Hf Hme _].
  set (src := take (Z.to_nat n) buf).
  pose proof (fo_size _ _ _ _ Hf) as Hsz.
  unfold writei. rewrite wp_bind. eapply geti_wp; [done..|]. rewrite (proj2 (Z.eqb_neq _ _)) by done.
  destruct (decide (_ /\ _)) as [[Hoff Hend]|Hbad].
  2: { unfold is_u32 in *. destruct (Z.ltb_spec (i_size i) off); cbn [orb]; [by apply wp_ret|].
    destruct (Z.ltb_spec (u32 (off + n)) off) as [|Hno]; [by apply wp_ret|].
    rewrite (proj2 (Z.ltb_lt _ _)); [by apply wp_ret|]. change (MAXFILE * BSIZE) with 71680 in *. wrap_lia. }
  assert (u32 (off + n) = off + n) as ->.
  { apply u32_small. change (MAXFILE * BSIZE) with 71680 in *. unfold is_u32 in *. lia. }
  assert (0 <= n /\ 0 <= off) as [Hn0 Ho0] by (unfold is_u32 in *; lia).
  assert (Z.of_nat (length src) = n) as En by (unfold src; rewrite length_take; lia).
  rewrite (proj2 (Z.ltb_ge (i_size i) off)), (proj2 (Z.ltb_ge (off + n) off)),
    (proj2 (Z.ltb_ge (MAXFILE * BSIZE) _)) by lia. cbn [orb]. rewrite wp_bind.
  eapply wp_mono; [eapply (writei_loop_wp _ L v ic s ip i buf 0 off n X); rewrite ?Z.sub_0_r; try done|].
  { intros _. by apply nblk_rounds. }
  intros r s1 [-> (L1 & v1 & i1 & X1 & Hs1 & Hw & Hl1 & Hx1 & Hr1)]. rewrite Z.sub_0_r in *.
  fold src in Hw.
  pose proof (ws_file _ _ _ _ _ _ _ Hw) as Hf1. pose proof (wstep_written v i v1 i1 off src) as Hwr.
  cbv zeta in Hwr. rewrite En in Hwr. specialize (Hwr ltac:(unfold is_u32 in *; lia) Hend Hf Hh Hme Hwf
    (fun b => fs_block _ _ _ _ _ _ _ b Hs1) Hw).
  assert (<[ip:=i1]> ic !! ip = Some i1) as Hip1 by (by apply list_lookup_insert_eq, (lookup_lt_Some _ _ i)).
  rewrite wp_bind. eapply geti_wp; [done..|]. unfold synced, grown in Hwr.
  assert ((0 <? n) && (i_size i1 <? off + n) = (i_size i1 <? off + n)) as ->.
  { assert (i_size i1 = i_size i) as -> by (by rewrite (ws_inode _ _ _ _ _ _ _ Hw)).
    destruct (Z.ltb_spec 0 n), (Z.ltb_spec (i_size i) (off + n)); cbn; lia. }
  rewrite wp_bind. destruct (i_size i1 <? off + n).
  - rewrite wp_bind. eapply wp_mono; [by eapply updi_wp|]. intros [] s2 Hs2.
    rewrite (list_alter_insert _ _ _ _ Hip1), list_insert_insert_eq in Hs2.
    eapply wp_mono; [eapply iupdate_run; try done|].
    + by apply list_lookup_insert_eq, (lookup_lt_Some _ _ i).
    + apply Hf1.
    + apply Hf1.
    + rewrite map_size_empty. lia.
    + pose proof (logged_iblock L1 i1 X1 (IBLOCK (i_inum i1) sb) _ Hl1 Hx1). cbn [i_inum set_i_size]. lia.
    + intros [] s3 Hs3. apply wp_ret. split; [done|]. eexists _, _, _. split_and!; [done|by eapply logged_iblock| |done].
      unfold room in *. rewrite (nfree_bm sb v1 (put_inode _ _ _ _)); [done|].
      unfold put_inode. rewrite fupd_ne; [done|]. apply not_eq_sym, iblock_meta, Hf1.
  - apply wp_ret. apply wp_ret. split; [done|]. eexists _, _, _. split_and!; [done| |done|done].
    pose proof (logged_size _ _ _ _ Hl1). lia.
Qed.


(** Property C18: [readi] of a file whose blocks are all there returns the
    slice of its contents at [off], cut at the end of the file, and changes
    nothing; it returns -1 when [off] is past the end or [off + n] overflows. *)
Theorem readi_slice devread L v ic s ip i off n :
  fs_at ∅ L v ic s -> file_env ∅ v ic ip i -> i_type i <> T_DEV -> no_holes v i (i_size i) ->
  is_u32 off -> is_u32 n -> (size L + 3 <= txn_cap)%nat ->
  wp (readi devread ip off n) (fun r s' => fs_at ∅ L v ic s' /\
    r = if bool_decide (off <= i_size i /\ off + n < 2 ^ 32) then
          let k := Z.min n (i_size i - off) in
          (k, take (Z.to_nat k) (drop (Z.to_nat off) (content v i)))
        else (-1, [])) s.
Proof. apply readi_run. Qed.
End file.

(** ** The file of the small file system *)

Definition tiny_i : inode := tiny_inode 2 true tiny_file true.

Lemma tiny_addr bn : 0 <= bn -> addr_at tiny_v tiny_i bn = if decide (bn = 0) then 60 else 0.
Proof.
  intros Hbn. unfold addr_at. change (ind_addr tiny_i =? 0) with true. cbn match. change NDIRECT with 12.
  destruct (Z.ltb_spec bn 12) as [Hlt|]; [|by rewrite decide_False by lia].
  assert (bn ∈ seqZ 0 12) as Hin by (apply elem_of_seqZ; lia). clear Hbn Hlt. revert bn Hin.
  apply Forall_forall. vm_compute. repeat constructor.
Qed.

Lemma tiny_file_env : file_env tiny_sb 59 ∅ tiny_v tiny_icache 0 tiny_i.
Proof.
  constructor; [done|constructor; [done|done|done|done|by left|..]|..].
  - intros bn Hbn. rewrite tiny_addr by lia. case_decide; [right|by left]. split; [done|by vm_compute].
  - intros bn bn' Hbn Hbn'. rewrite !tiny_addr by lia. do 2 case_decide; subst; done.
  - intros bn Hbn. rewrite tiny_addr by lia. by case_decide.
  - assert (forallb (used tiny_sb tiny_v) (seqZ 0 59) = true) as Hall by (by vm_compute).
    intros b Hb. rewrite forallb_forall in Hall. apply Hall, list_elem_of_In, elem_of_seqZ. lia.
  - intros k b m Hk. by rewrite lookup_empty in Hk.
Qed.

Lemma tiny_no_holes : no_holes tiny_v tiny_i (i_size tiny_i).
Proof.
  intros bn Hbn Hlt. rewrite tiny_addr by done. case_decide; [done|].
  change (i_size tiny_i) with 5 in Hlt. fs_lia.
Qed.

Lemma tiny_room_4 n : 0 <= n -> nblk 3 n <= 4 -> Z.of_nat (size (∅ : gset Z)) + nblk 3 n + 3 <= Z.of_nat txn_cap.
Proof. intros. rewrite size_empty. vm_compute (Z.of_nat txn_cap). lia. Qed.


Lemma readi_slice_witness :
  wp (readi (fun _ => None) 0 1 10) (fun r s' => r = (4, [101; 108; 108; 111])) tiny.
Proof.
  eapply wp_mono.
  - apply (readi_slice tiny_sb 1 59 tiny_layout (fun _ => None) ∅ tiny_v tiny_icache tiny 0 tiny_i 1 10
      tiny_at tiny_file_env); [done|apply tiny_no_holes|done|done|].
    rewrite size_empty. by vm_compute; lia.
  - intros r s' [_ ->]. by vm_compute.
Defined.
