(* ===== verification/Pipe.v ===== *)
(** * Pipe: the ring buffer of pipe.c

    A pipe is a 512-byte ring with two free-running 32-bit counters. The
    spin lock makes a stretch of [piperead] or [pipewrite] between two
    acquisitions of it atomic: one [piperead] or [pipewrite_from] below is
    such a stretch, from the entry or a wakeup to the return or the next
    sleep. *)

From stdpp Require Import base list numbers gmap relations.
From S2P Require Import Prelude.

Local Open Scope Z_scope.

Definition PIPESIZE : Z := 512.

Record pipe := {
  p_data : list Z; nread : Z; nwrite : Z; readopen : bool; writeopen : bool
}.

(** The fields [pipealloc] sets; [kalloc] leaves the bytes as they are. *)
Definition pipe_new (page : list Z) : pipe :=
  {| p_data := page; nread := 0; nwrite := 0; readopen := true; writeopen := true |}.

(** How a stretch ends: with a return value, or asleep with this much left. *)
Inductive wres := WRet (r : Z) | WAsleep (rest : list Z).
Inductive rres := RRet (r : Z) (got : list Z) | RAsleep.

Definition put_byte (b : Z) (p : pipe) : pipe :=
  {| p_data := <[Z.to_nat (nwrite p mod PIPESIZE) := b]> (p_data p);
     nread := nread p; nwrite := u32 (nwrite p + 1);
     readopen := readopen p; writeopen := writeopen p |}.

Definition is_full (p : pipe) : bool := nwrite p =? u32 (nread p + PIPESIZE).

(** The loop of [pipewrite] with [rest] of its [n] bytes left. *)
Fixpoint pipewrite_from (killed : bool) (n : Z) (rest : list Z) (p : pipe) : pipe * wres :=
  match rest with
  | [] => (p, WRet n)
  | b :: rest' =>
      if is_full p then
        if negb (readopen p) || killed then (p, WRet (-1)) else (p, WAsleep rest)
      else pipewrite_from killed n rest' (put_byte b p)
  end.

Definition pipewrite (killed : bool) (addr : list Z) (p : pipe) : pipe * wres :=
  pipewrite_from killed (Z.of_nat (length addr)) addr p.

Definition get_byte (p : pipe) : Z :=
  nth (Z.to_nat (nread p mod PIPESIZE)) (p_data p) 0.
Definition drop_byte (p : pipe) : pipe :=
  {| p_data := p_data p; nread := u32 (nread p + 1); nwrite := nwrite p;
     readopen := readopen p; writeopen := writeopen p |}.

(** The copy loop of [piperead]: the bytes, at most [n]. *)
Fixpoint read_loop (n : nat) (p : pipe) : pipe * list Z :=
  match n with
  | O => (p, [])
  | S n =>
      if nread p =? nwrite p then (p, [])
      else let '(p', got) := read_loop n (drop_byte p) in (p', get_byte p :: got)
  end.

Definition piperead (killed : bool) (n : Z) (p : pipe) : pipe * rres :=
  if (nread p =? nwrite p) && writeopen p then
    if killed then (p, RRet (-1) []) else (p, RAsleep)
  else
    let '(p', got) := read_loop (Z.to_nat n) p in (p', RRet (Z.of_nat (length got)) got).

(** [pipeclose], without the [kfree] when both ends are closed. *)
Definition pipeclose (writable : bool) (p : pipe) : pipe :=
  if writable
  then {| p_data := p_data p; nread := nread p; nwrite := nwrite p;
          readopen := readopen p; writeopen := false |}
  else {| p_data := p_data p; nread := nread p; nwrite := nwrite p;
          readopen := false; writeopen := writeopen p |}.
Definition pipe_freed (p : pipe) : bool := negb (readopen p) && negb (writeopen p).

(** ** The queue a pipe stands for *)

Definition used (p : pipe) : nat := Z.to_nat (u32 (nwrite p - nread p)).
Definition queue (p : pipe) : list Z :=
  (fun k => nth (Z.to_nat ((nread p + Z.of_nat k) mod PIPESIZE)) (p_data p) 0) <$> seq 0 (used p).

Record pipe_ok (p : pipe) : Prop := {
  ok_len : length (p_data p) = Z.to_nat PIPESIZE;
  ok_r : is_u32 (nread p);
  ok_w : is_u32 (nwrite p);
  ok_used : Z.of_nat (used p) <= PIPESIZE
}.

Lemma pipe_new_ok page : length page = Z.to_nat PIPESIZE -> pipe_ok (pipe_new page).
Proof. by split. Qed.

Lemma is_full_spec p : pipe_ok p -> is_full p = bool_decide (used p = Z.to_nat PIPESIZE).
Proof.
  intros [_ Hr Hw Hu]. unfold is_full, used, PIPESIZE in *.
  destruct (Z.eqb_spec (nwrite p) (u32 (nread p + 512))) as [He|He]; symmetry.
  - apply bool_decide_eq_true. wrap_lia.
  - apply bool_decide_eq_false. intros Heq. apply He. wrap_lia.
Qed.

Lemma is_empty_spec p : pipe_ok p -> (nread p =? nwrite p) = bool_decide (used p = 0%nat).
Proof.
  intros [_ Hr Hw Hu]. unfold used, PIPESIZE in *.
  destruct (Z.eqb_spec (nread p) (nwrite p)) as [He|He]; symmetry.
  - apply bool_decide_eq_true. wrap_lia.
  - apply bool_decide_eq_false. intros Heq. apply He. wrap_lia.
Qed.

Lemma put_byte_ok b p :
  pipe_ok p -> is_full p = false -> pipe_ok (put_byte b p) /\ used (put_byte b p) = S (used p).
Proof.
  intros Hok Hf. rewrite is_full_spec in Hf by done. apply bool_decide_eq_false in Hf.
  destruct Hok as [Hl Hr Hw Hu]. unfold used, PIPESIZE in *.
  assert (Z.to_nat (u32 (u32 (nwrite p + 1) - nread p)) = S (Z.to_nat (u32 (nwrite p - nread p))))
    as Hs by wrap_lia.
  split; [split|]; unfold used; cbn; rewrite ?length_insert; auto with os.
  rewrite Hs. unfold PIPESIZE. lia.
Qed.

Lemma ring_index p k :
  is_u32 (nread p) -> (nread p + Z.of_nat k) mod PIPESIZE = u32 (nread p + Z.of_nat k) mod PIPESIZE.
Proof. intros. unfold PIPESIZE. wrap_lia. Qed.

Lemma queue_put b p :
  pipe_ok p -> is_full p = false -> queue (put_byte b p) = queue p ++ [b].
Proof.
  intros Hok Hf. destruct (put_byte_ok b p Hok Hf) as [_ Hs]. unfold queue.
  rewrite Hs, seq_S, fmap_app. destruct Hok as [Hl Hr Hw Hu].
  rewrite is_full_spec in Hf by done. apply bool_decide_eq_false in Hf.
  assert (forall k, (k < used p)%nat ->
    (nread p + Z.of_nat k) mod PIPESIZE <> nwrite p mod PIPESIZE) as Hne.
  { intros k Hk. unfold used, PIPESIZE in *. wrap_lia. }
  f_equal.
  - apply list_fmap_ext. intros i k Hk%lookup_seq. destruct Hk as [-> Hk]. cbn.
    rewrite !nth_lookup, list_lookup_insert_ne; [done|].
    specialize (Hne i Hk). unfold PIPESIZE in *. intros Heq. apply Hne. wrap_lia.
  - cbn. f_equal.
    replace ((nread p + Z.of_nat (used p)) mod PIPESIZE) with (nwrite p mod PIPESIZE)
      by (unfold used, PIPESIZE in *; wrap_lia).
    rewrite nth_lookup, list_lookup_insert_eq; [done|].
    rewrite Hl. unfold PIPESIZE. wrap_lia.
Qed.

Lemma queue_drop p :
  pipe_ok p -> used p <> 0%nat ->
  queue p = get_byte p :: queue (drop_byte p) /\ pipe_ok (drop_byte p).
Proof.
  intros [Hl Hr Hw Hu] Hne.
  assert (used p = S (used (drop_byte p))) as Hs by (unfold used, PIPESIZE in *; cbn; wrap_lia).
  split.
  - unfold queue, get_byte. rewrite Hs. cbn [seq fmap list_fmap]. f_equal; [by rewrite Z.add_0_r|].
    rewrite <- fmap_S_seq, <- list_fmap_compose. apply list_fmap_ext. intros i k _. cbn.
    do 2 f_equal. unfold PIPESIZE. wrap_lia.
  - split; cbn; auto with os. lia.
Qed.

Lemma length_queue p : length (queue p) = used p.
Proof. unfold queue. by rewrite length_fmap, length_seq. Qed.

Definition same_ends (p p' : pipe) : Prop :=
  readopen p' = readopen p /\ writeopen p' = writeopen p.

(** A stretch of [pipewrite] appends to the queue the longest
    prefix of its remaining bytes that fits in [PIPESIZE], keeps the ring
    well-formed across the wrap-around of the 32-bit counters, and then
    returns the whole count, fails (reader gone or killed) or goes to sleep
    with exactly the bytes that did not fit. *)
Lemma pipewrite_from_spec killed n rest p :
  pipe_ok p ->
  let room := (Z.to_nat PIPESIZE - length (queue p))%nat in
  let '(p', r) := pipewrite_from killed n rest p in
  pipe_ok p' /\ same_ends p p' /\ queue p' = queue p ++ take room rest /\
  r = if decide (length rest <= room)%nat then WRet n
      else if negb (readopen p) || killed then WRet (-1) else WAsleep (drop room rest).
Proof.
  revert p. induction rest as [|b rest IH]; intros p Hok; cbn [pipewrite_from].
  { rewrite take_nil, app_nil_r. by rewrite decide_True by (cbn; lia). }
  pose proof (ok_used p Hok) as Hu. rewrite length_queue. destruct (is_full p) eqn:Hf.
  - rewrite is_full_spec in Hf by done. apply bool_decide_eq_true in Hf.
    replace (Z.to_nat PIPESIZE - used p)%nat with 0%nat by lia.
    rewrite decide_False by (cbn; lia). rewrite take_0, drop_0, app_nil_r.
    by destruct (negb (readopen p) || killed).
  - destruct (put_byte_ok b p Hok Hf) as [Hok' Hs]. specialize (IH _ Hok').
    rewrite length_queue, Hs in IH.
    rewrite is_full_spec in Hf by done. apply bool_decide_eq_false in Hf as Hf'.
    replace (Z.to_nat PIPESIZE - used p)%nat with (S (Z.to_nat PIPESIZE - S (used p)))%nat by lia.
    destruct (pipewrite_from killed n rest (put_byte b p)) as [p' r].
    destruct IH as (H1 & H2 & H3 & H4). split_and!; [done..| |].
    + rewrite H3, queue_put by (done || by rewrite is_full_spec, bool_decide_eq_false_2).
      by rewrite <- app_assoc.
    + rewrite H4. change (length (b :: rest)) with (S (length rest)).
      destruct (decide (length rest <= _)%nat), (decide (S (length rest) <= _)%nat);
        (reflexivity || lia).
Qed.

Lemma read_loop_spec n p :
  pipe_ok p ->
  let '(p', got) := read_loop n p in
  pipe_ok p' /\ same_ends p p' /\ got = take n (queue p) /\ queue p' = drop n (queue p).
Proof.
  revert p. induction n as [|n IH]; intros p Hok; cbn [read_loop]; [done|].
  rewrite is_empty_spec by done. case_bool_decide as He.
  - assert (queue p = []) as -> by (apply length_zero_iff_nil; by rewrite length_queue). done.
  - destruct (queue_drop p Hok He) as [Hq Hok']. specialize (IH _ Hok').
    destruct (read_loop n (drop_byte p)) as [p' got]. rewrite Hq.
    destruct IH as (? & ? & -> & ->). done.
Qed.

(** A stretch of [piperead] on an empty pipe with a writer sleeps
    (or fails when killed) and changes nothing; otherwise it removes the first
    [n] bytes of the queue, or all of them when there are fewer, in order, and
    returns their number; at end of file that is 0. *)
Lemma piperead_spec killed n p :
  pipe_ok p ->
  let '(p', r) := piperead killed n p in
  pipe_ok p' /\ same_ends p p' /\
  if decide (queue p = [] /\ writeopen p = true)
  then p' = p /\ r = (if killed then RRet (-1) [] else RAsleep)
  else queue p' = drop (Z.to_nat n) (queue p) /\
       r = RRet (Z.of_nat (length (take (Z.to_nat n) (queue p)))) (take (Z.to_nat n) (queue p)).
Proof.
  intros Hok. unfold piperead. rewrite is_empty_spec by done.
  assert (used p = 0%nat <-> queue p = []) as Hq.
  { rewrite <- length_queue. apply length_zero_iff_nil. }
  destruct (bool_decide (used p = 0%nat) && writeopen p) eqn:Hb.
  - apply andb_true_iff in Hb as [Hb%bool_decide_eq_true Hw].
    destruct killed; by rewrite decide_True by tauto.
  - pose proof (read_loop_spec (Z.to_nat n) p Hok) as Hr.
    destruct (read_loop _ p) as [p' got]. destruct Hr as (? & ? & -> & ->).
    rewrite decide_False; [done|]. intros [Hq0 Hw]. apply Hq in Hq0. by rewrite Hq0, Hw in Hb.
Qed.

(** A pipe whose counters are about to wrap around, with two bytes in it. *)
Definition wrap_pipe : pipe :=
  {| p_data := replicate 510 0 ++ [7; 8]; nread := 2 ^ 32 - 2; nwrite := 0;
     readopen := true; writeopen := true |}.

Lemma wrap_pipe_ok : pipe_ok wrap_pipe.
Proof. by split. Qed.

(** [pipewrite] on a pipe with room for all its bytes appends them
    to the queue and returns their number; without room it has appended the
    bytes that fit, and fails when no reader is left or the caller is killed,
    or sleeps with exactly the others left. A [piperead] after it that asks for
    everything gets the old contents followed by the new bytes. The ring stays
    well-formed when the 32-bit counters wrap around. *)
Theorem pipewrite_then_read killed addr p n :
  pipe_ok p -> PIPESIZE <= n -> addr <> [] ->
  let room := (Z.to_nat PIPESIZE - length (queue p))%nat in
  let '(p', r) := pipewrite killed addr p in
  pipe_ok p' /\
  r = (if decide (length addr <= room)%nat then WRet (Z.of_nat (length addr))
       else if negb (readopen p) || killed then WRet (-1) else WAsleep (drop room addr)) /\
  let got := queue p ++ take room addr in
  exists p'', piperead false n p' = (p'', RRet (Z.of_nat (length got)) got) /\ queue p'' = [].
Proof.
  intros Hok Hn Haddr. cbv zeta. unfold pipewrite.
  pose proof (pipewrite_from_spec killed (Z.of_nat (length addr)) addr p Hok) as Hw.
  cbv zeta in Hw. set (room := (Z.to_nat PIPESIZE - length (queue p))%nat) in *.
  destruct (pipewrite_from _ _ addr p) as [p' r]. destruct Hw as (Hok' & _ & Hq & Hr).
  split_and!; [done..|]. pose proof (piperead_spec false n p' Hok') as Hrd.
  assert (length (queue p') <= Z.to_nat n)%nat as Hlen.
  { rewrite length_queue. pose proof (ok_used p' Hok'). lia. }
  destruct (piperead false n p') as [p'' r'']. rewrite decide_False in Hrd.
  - destruct Hrd as (_ & _ & Hq'' & ->). rewrite take_ge, Hq by done. exists p''.
    split; [done|]. rewrite Hq''. by apply drop_ge.
  - intros [H0 _]. rewrite Hq in H0. apply app_nil in H0 as [H0 H1].
    apply Haddr. destruct addr; [done|]. unfold room in H1. by rewrite H0 in H1.
Qed.

Lemma pipewrite_then_read_witness :
  let '(p', r) := pipewrite false [1; 2; 3] wrap_pipe in
  pipe_ok p' /\ r = WRet 3 /\
  exists p'', piperead false 600 p' = (p'', RRet 5 [7; 8; 1; 2; 3]) /\ queue p'' = [].
Proof.
  pose proof (pipewrite_then_read false [1; 2; 3] wrap_pipe 600 wrap_pipe_ok
    ltac:(by vm_compute) ltac:(done)) as H. exact H.
Defined.

(** ** Processes around a pipe

    Readers and writers run their stretches in any order, go to sleep and are
    woken by the [wakeup] calls of the code. A process that is using an end
    holds a reference to its file, so the end is not closed meanwhile. The
    fields [s_in] and [s_out] record the bytes put into the pipe and the bytes
    [piperead] has returned. *)

Inductive pst :=
| PRead (n : Z) (asleep : bool)
| PWrite (n : Z) (rest : list Z) (asleep : bool).

Record psys := {
  s_pipe : pipe; s_procs : gmap Z pst; s_killed : gset Z; s_in : list Z; s_out : list Z
}.

Definition wake_reader (t : pst) : pst :=
  match t with PRead n _ => PRead n false | PWrite _ _ _ => t end.
Definition wake_writer (t : pst) : pst :=
  match t with PRead _ _ => t | PWrite n rest _ => PWrite n rest false end.
Definition is_reader (t : pst) : bool := match t with PRead _ _ => true | PWrite _ _ _ => false end.

(** The state after process [pid] ran a stretch of [piperead]. The [wakeup]
    of the writers is on every path but the one of a killed process. *)
Definition after_read (pid n : Z) (y : psys) : psys :=
  let '(p', r) := piperead (bool_decide (pid ∈ s_killed y)) n (s_pipe y) in
  match r with
  | RAsleep => {| s_pipe := p'; s_procs := <[pid := PRead n true]> (s_procs y);
                  s_killed := s_killed y; s_in := s_in y; s_out := s_out y |}
  | RRet r got =>
      {| s_pipe := p';
         s_procs := (if r =? -1 then delete pid (s_procs y)
                     else wake_writer <$> delete pid (s_procs y));
         s_killed := s_killed y; s_in := s_in y; s_out := s_out y ++ got |}
  end.

(** The state after process [pid] ran a stretch of [pipewrite]. The readers
    are woken before it sleeps and when it returns its count. *)
Definition after_write (pid n : Z) (rest : list Z) (y : psys) : psys :=
  let '(p', r) := pipewrite_from (bool_decide (pid ∈ s_killed y)) n rest (s_pipe y) in
  let put := take (Z.to_nat (u32 (nwrite p' - nwrite (s_pipe y)))) rest in
  {| s_pipe := p';
     s_procs := match r with
                | WAsleep rest' => <[pid := PWrite n rest' true]> (wake_reader <$> s_procs y)
                | WRet r => if r =? -1 then delete pid (s_procs y)
                            else wake_reader <$> delete pid (s_procs y)
                end;
     s_killed := s_killed y; s_in := s_in y ++ put; s_out := s_out y |}.

Definition set_procs (m : gmap Z pst) (y : psys) : psys :=
  {| s_pipe := s_pipe y; s_procs := m; s_killed := s_killed y; s_in := s_in y; s_out := s_out y |}.
Definition set_pipe (p : pipe) (y : psys) : psys :=
  {| s_pipe := p; s_procs := s_procs y; s_killed := s_killed y; s_in := s_in y; s_out := s_out y |}.

Inductive pstep : psys -> psys -> Prop :=
| pstep_read y pid n :
    s_procs y !! pid = None -> readopen (s_pipe y) = true -> 0 <= n ->
    pstep y (set_procs (<[pid := PRead n false]> (s_procs y)) y)
| pstep_write y pid bs :
    s_procs y !! pid = None -> writeopen (s_pipe y) = true ->
    pstep y (set_procs (<[pid := PWrite (Z.of_nat (length bs)) bs false]> (s_procs y)) y)
| pstep_run_read y pid n :
    s_procs y !! pid = Some (PRead n false) -> pstep y (after_read pid n y)
| pstep_run_write y pid n rest :
    s_procs y !! pid = Some (PWrite n rest false) -> pstep y (after_write pid n rest y)
| pstep_close_write y :
    map_Forall (fun _ t => is_reader t = true) (s_procs y) ->
    pstep y (set_procs (wake_reader <$> s_procs y) (set_pipe (pipeclose true (s_pipe y)) y))
| pstep_close_read y :
    map_Forall (fun _ t => is_reader t = false) (s_procs y) ->
    pstep y (set_procs (wake_writer <$> s_procs y) (set_pipe (pipeclose false (s_pipe y)) y))
| pstep_kill y pid :
    pstep y {| s_pipe := s_pipe y;
               s_procs := alter (fun t => wake_reader (wake_writer t)) pid (s_procs y);
               s_killed := {[pid]} ∪ s_killed y; s_in := s_in y; s_out := s_out y |}.

Definition psys_new (page : list Z) : psys :=
  {| s_pipe := pipe_new page; s_procs := ∅; s_killed := ∅; s_in := []; s_out := [] |}.

Lemma pipewrite_nread killed n rest p p' r :
  pipewrite_from killed n rest p = (p', r) -> nread p' = nread p.
Proof.
  revert p. induction rest as [|b rest IH]; intros p; cbn [pipewrite_from]; [by intros [= <- _]|].
  destruct (is_full p); [destruct (_ || _); by intros [= <- _]|]. intros ->%IH. done.
Qed.

(** What a stretch of [pipewrite] puts in, in terms of the counter. *)
Lemma pipewrite_put killed n rest p p' r :
  pipe_ok p -> pipewrite_from killed n rest p = (p', r) ->
  queue p' = queue p ++ take (Z.to_nat (u32 (nwrite p' - nwrite p))) rest.
Proof.
  intros Hok Hrun. pose proof (pipewrite_from_spec killed n rest p Hok) as Hspec.
  cbv zeta in Hspec. rewrite Hrun in Hspec. destruct Hspec as (Hok' & _ & Hq & _).
  rewrite Hq. f_equal. set (room := (_ - _)%nat) in *.
  assert (length (queue p') = length (queue p) + length (take room rest))%nat as Hlen
    by (by rewrite Hq, length_app).
  rewrite !length_queue in Hlen. unfold used in Hlen.
  rewrite (pipewrite_nread _ _ _ _ _ _ Hrun) in Hlen.
  destruct Hok as [_ Hr Hw Hu], Hok' as [_ _ Hw' Hu']. unfold used in Hu, Hu'.
  rewrite (pipewrite_nread _ _ _ _ _ _ Hrun) in Hu'.
  assert (Z.to_nat (u32 (nwrite p' - nwrite p)) = length (take room rest)) as ->
    by (unfold PIPESIZE in *; wrap_lia).
  rewrite length_take. destruct (Nat.le_ge_cases room (length rest)).
  - by rewrite Nat.min_l.
  - rewrite Nat.min_r by done. by rewrite !take_ge.
Qed.

Definition stream (y : psys) : Prop :=
  pipe_ok (s_pipe y) /\ s_out y ++ queue (s_pipe y) = s_in y.

Lemma stream_step y y' : stream y -> pstep y y' -> stream y'.
Proof.
  intros [Hok Hs] Hst. destruct Hst as [| |y pid n _|y pid n rest _| | |]; try done.
  - unfold after_read. pose proof (piperead_spec (bool_decide (pid ∈ s_killed y)) n _ Hok) as Hr.
    destruct (piperead _ n (s_pipe y)) as [p' r]. destruct Hr as (Hok' & _ & Hr).
    split; [by destruct r|]. case_decide as Hd.
    + destruct Hr as [-> ->]. case_bool_decide; cbn; [by rewrite app_nil_r|done].
    + destruct Hr as [Hq ->]. cbn. rewrite Hq, <- app_assoc, take_drop. done.
  - unfold after_write. destruct (pipewrite_from _ n rest (s_pipe y)) as [p' r] eqn:Hrun.
    split; cbn.
    + pose proof (pipewrite_from_spec (bool_decide (pid ∈ s_killed y)) n rest _ Hok) as Hw.
      cbv zeta in Hw. rewrite Hrun in Hw. apply Hw.
    + rewrite (pipewrite_put _ _ _ _ _ _ Hok Hrun), app_assoc. by rewrite Hs.
  - by destruct Hok.
  - by destruct Hok.
Qed.

(** Property C16: a pipe is a reliable stream. However readers, writers, closes
    and kills interleave, the bytes [piperead] has returned followed by the
    bytes in the ring are exactly the bytes [pipewrite] has put in, in order. *)
Theorem pipe_stream page y :
  length page = Z.to_nat PIPESIZE -> rtc pstep (psys_new page) y ->
  pipe_ok (s_pipe y) /\ s_out y ++ queue (s_pipe y) = s_in y.
Proof.
  intros Hp Hr. assert (stream (psys_new page)) as Hs by (split; [by apply pipe_new_ok|done]).
  change (stream y). induction Hr; eauto using stream_step.
Qed.

(** ** Wakeups *)

(** A sleeping reader has nothing to read, a sleeping writer nowhere to write,
    and the other end is open. *)
Definition asleep_ok (p : pipe) (t : pst) : Prop :=
  match t with
  | PRead _ true => queue p = [] /\ writeopen p = true
  | PWrite _ rest true => length (queue p) = Z.to_nat PIPESIZE /\ readopen p = true
  | _ => True
  end.

(** A process uses an end that is open. *)
Definition end_ok (p : pipe) (t : pst) : Prop :=
  match t with PRead n _ => readopen p = true /\ 0 <= n | PWrite n _ _ => writeopen p = true /\ 0 <= n end.

Definition wakeup_inv (y : psys) : Prop :=
  stream y /\ s_killed y = ∅ /\
  map_Forall (fun _ t => asleep_ok (s_pipe y) t /\ end_ok (s_pipe y) t) (s_procs y).

Definition wakeup_step (y y' : psys) : Prop := pstep y y' /\ s_killed y' = ∅.

Lemma after_read_wakeup y pid n :
  wakeup_inv y -> s_procs y !! pid = Some (PRead n false) -> wakeup_inv (after_read pid n y).
Proof.
  intros (Hs & Hk & Hall) Hpid. pose proof Hs as [Hok _].
  split; [by eapply stream_step, pstep_run_read|].
  unfold after_read. rewrite Hk, bool_decide_eq_false_2 by set_solver.
  pose proof (piperead_spec false n _ Hok) as Hr.
  destruct (piperead false n (s_pipe y)) as [p' r]. destruct Hr as (_ & [Hro Hwo] & Hr).
  case_decide as Hd.
  - destruct Hr as [-> ->]. cbn. split; [done|]. apply map_Forall_insert_2; [|done].
    split; [done|]. by apply Hall in Hpid as [_ ?].
  - destruct Hr as [Hq ->]. cbn. split; [done|].
    rewrite (proj2 (Z.eqb_neq _ _)) by lia. apply map_Forall_fmap. intros k t Ht.
    apply lookup_delete_Some in Ht as [_ Ht]. apply Hall in Ht as [Ha He].
    destruct t as [m []|m rest b]; cbn in *; rewrite ?Hro, ?Hwo; auto.
    destruct Ha as [Hq0 ?]. rewrite Hq, Hq0, drop_nil. auto.
Qed.

Lemma after_write_wakeup y pid n rest :
  wakeup_inv y -> s_procs y !! pid = Some (PWrite n rest false) -> 
  wakeup_inv (after_write pid n rest y).
Proof.
  intros (Hs & Hk & Hall) Hpid. pose proof Hs as [Hok _].
  split; [by eapply stream_step, pstep_run_write|].
  unfold after_write. rewrite Hk, bool_decide_eq_false_2 by set_solver.
  pose proof (pipewrite_from_spec false n rest _ Hok) as Hw. cbv zeta in Hw.
  destruct (pipewrite_from false n rest (s_pipe y)) as [p' r].
  destruct Hw as (_ & [Hro Hwo] & Hq & Hr). rewrite orb_false_r in Hr.
  set (room := (Z.to_nat PIPESIZE - length (queue (s_pipe y)))%nat) in *.
  assert (0 <= n) as Hn by by apply Hall in Hpid as [_ [_ ?]].
  cbn. split; [done|]. case_decide as Hfit; [|destruct (readopen (s_pipe y)) eqn:Hopen]; subst r.
  - rewrite (proj2 (Z.eqb_neq _ _)) by lia. apply map_Forall_fmap. intros k t Ht.
    apply lookup_delete_Some in Ht as [_ Ht]. apply Hall in Ht as [Ha He].
    destruct t as [m b|m rest' []]; cbn in *; rewrite ?Hro, ?Hwo; auto.
    destruct Ha as [Hfull ?]. split; [|done]. split; [|done]. rewrite Hq.
    replace room with 0%nat by lia. by rewrite take_0, app_nil_r.
  - assert (length (queue p') = Z.to_nat PIPESIZE) as Hfull.
    { rewrite Hq, length_app, length_take. pose proof (ok_used _ Hok).
      rewrite <- length_queue in *. lia. }
    apply map_Forall_insert_2.
    + apply Hall in Hpid as [_ [? _]]. cbn. rewrite Hro, Hwo. auto.
    + apply map_Forall_fmap. intros k t Ht. apply Hall in Ht as [Ha He].
      destruct t as [m b|m rest' []]; cbn in *; rewrite ?Hro, ?Hwo; naive_solver.
  - intros k t Ht. apply lookup_delete_Some in Ht as [_ Ht]. apply Hall in Ht as [Ha He].
    destruct t as [m b|m rest' []]; cbn in *; rewrite ?Hro, ?Hwo; try done.
    + destruct He. congruence.
    + destruct Ha. congruence.
Qed.

Lemma wakeup_inv_step y y' : wakeup_inv y -> wakeup_step y y' -> wakeup_inv y'.
Proof.
  intros Hi [Hst Hk']. pose proof Hi as (Hs & Hk & Hall).
  destruct Hst as [y pid n Hp Ho Hn|y pid bs Hp Ho|y pid n Hp|y pid n rest Hp|y Hnw|y Hnr|y pid].
  - split_and!; [done..|]. apply map_Forall_insert_2; [by split|done].
  - split_and!; [done..|]. apply map_Forall_insert_2; [|done].
    split; [done|]. split; [done|lia].
  - by apply after_read_wakeup.
  - by apply after_write_wakeup.
  - split_and!; [by eapply stream_step, pstep_close_write|done|]. cbn.
    apply map_Forall_fmap. intros k t Ht. pose proof (Hnw k t Ht). apply Hall in Ht as [Ha He].
    by destruct t.
  - split_and!; [by eapply stream_step, pstep_close_read|done|]. cbn.
    apply map_Forall_fmap. intros k t Ht. pose proof (Hnr k t Ht). apply Hall in Ht as [Ha He].
    by destruct t.
  - cbn in Hk'. exfalso. set_solver.
Qed.

(** Property C30: no wakeup is lost. As long as no process is killed, in every
    reachable state a sleeping reader sleeps on an empty pipe with a writer
    and a sleeping writer on a full pipe with a reader. *)
Theorem pipe_no_lost_wakeup page y pid t :
  length page = Z.to_nat PIPESIZE -> rtc wakeup_step (psys_new page) y ->
  s_procs y !! pid = Some t -> asleep_ok (s_pipe y) t.
Proof.
  intros Hp Hr Ht.
  assert (wakeup_inv (psys_new page)) as Hi.
  { split_and!; [split; [by apply pipe_new_ok|done]|done|done]. }
  assert (wakeup_inv y) as (_ & _ & Hall) by (induction Hr; eauto using wakeup_inv_step).
  by apply Hall in Ht as [? _].
Qed.

Definition blank : list Z := replicate (Z.to_nat PIPESIZE) 0.

(** Process 1 reads from an empty pipe and sleeps. *)
Definition reading : psys :=
  {| s_pipe := pipe_new blank; s_procs := {[ 1 := PRead 10 true ]}; s_killed := ∅;
     s_in := []; s_out := [] |}.

Lemma reading_reachable : rtc wakeup_step (psys_new blank) reading.
Proof.
  eapply rtc_l; [split; [by apply (pstep_read _ 1 10)|done]|].
  apply rtc_once. split; [|done].
  exact (pstep_run_read (set_procs {[ 1 := PRead 10 false ]} (psys_new blank)) 1 10 eq_refl).
Qed.

Lemma pipe_stream_witness :
  pipe_ok (s_pipe reading) /\ s_out reading ++ queue (s_pipe reading) = s_in reading.
Proof.
  apply (pipe_stream blank reading); [done|].
  eapply rtc_l; [by apply (pstep_read _ 1 10)|]. apply rtc_once.
  exact (pstep_run_read (set_procs {[ 1 := PRead 10 false ]} (psys_new blank)) 1 10 eq_refl).
Defined.

Lemma pipe_no_lost_wakeup_witness : asleep_ok (s_pipe reading) (PRead 10 true).
Proof.
  exact (pipe_no_lost_wakeup blank reading 1 (PRead 10 true) eq_refl reading_reachable eq_refl).
Defined.

(** Property C31: a killed writer loses a wakeup. With a reader asleep on the
    empty pipe, a writer that has been killed fills the ring and returns -1
    without waking the reader: the reader sleeps on while [PIPESIZE] bytes
    wait for it and the write end is open. *)
Theorem pipe_killed_writer_lost_wakeup :
  exists page y, length page = Z.to_nat PIPESIZE /\ rtc pstep (psys_new page) y /\
    s_procs y = {[ 1 := PRead 10 true ]} /\ length (queue (s_pipe y)) = Z.to_nat PIPESIZE /\
    writeopen (s_pipe y) = true.
Proof.
  set (y1 := set_procs {[ 1 := PRead 10 true; 2 := PWrite 600 (replicate 600 5) false ]} reading).
  set (y2 := {| s_pipe := s_pipe y1; s_procs := s_procs y1; s_killed := {[2]}; s_in := []; s_out := [] |}).
  exists blank, (after_write 2 600 (replicate 600 5) y2).
  split; [done|]. split; [|by vm_compute].
  assert (rtc pstep (psys_new blank) reading) as Hr.
  { eapply rtc_subrel; [|apply reading_reachable]. by intros ? ? []. }
  etrans; [exact Hr|].
  eapply rtc_l; [by apply (pstep_write reading 2 (replicate 600 5))|].
  eapply rtc_l; [apply (pstep_kill _ 2)|].
  apply rtc_once. exact (pstep_run_write y2 2 600 (replicate 600 5) eq_refl).
Qed.
