(* ===== verification/File.v ===== *)
(** * File: open files (file.c and pipealloc of pipe.c)

    The table of open files over the file system and the pipes. A pointer to
    an open file is an index of the table, a pointer to a pipe the address of
    its page. A call that goes to sleep in a pipe says so in its
    result, with the changes it has made. *)

From stdpp Require Import base list numbers gmap strings.
From S2P Require Import Prelude Bytes Params Sleeplock Bio Log Blocks Fs Pipe.

Local Open Scope Z_scope.
Local Open Scope os_scope.

(** The pages of kalloc.c: a null address when there is none left, and the
    bytes at the start of a page. *)
Class PageOps (P : Type) := {
  pg_alloc : M P Z;
  pg_free : Z -> M P unit;
  pg_bytes : Z -> P -> list Z
}.

Inductive filetype := FD_NONE | FD_PIPE | FD_INODE.
#[global] Instance filetype_eq_dec : EqDecision filetype.
Proof. solve_decision. Defined.

Record file := {
  fl_type : filetype; fl_ref : Z; fl_readable : bool; fl_writable : bool;
  fl_pipe : option Z; fl_ip : option nat; fl_off : Z
}.
Definition zero_file : file :=
  {| fl_type := FD_NONE; fl_ref := 0; fl_readable := false; fl_writable := false;
     fl_pipe := None; fl_ip := None; fl_off := 0 |}.

(** Field updates. *)
Definition set_fl_ref (z : Z) (f : file) : file :=
  {| fl_type := fl_type f; fl_ref := z; fl_readable := fl_readable f; fl_writable := fl_writable f;
     fl_pipe := fl_pipe f; fl_ip := fl_ip f; fl_off := fl_off f |}.
Definition set_fl_type (t : filetype) (f : file) : file :=
  {| fl_type := t; fl_ref := fl_ref f; fl_readable := fl_readable f; fl_writable := fl_writable f;
     fl_pipe := fl_pipe f; fl_ip := fl_ip f; fl_off := fl_off f |}.
Definition set_fl_off (z : Z) (f : file) : file :=
  {| fl_type := fl_type f; fl_ref := fl_ref f; fl_readable := fl_readable f; fl_writable := fl_writable f;
     fl_pipe := fl_pipe f; fl_ip := fl_ip f; fl_off := z |}.
(** The fields of a pipe end, and those of an inode just opened. *)
Definition set_fl_pipe (readable writable : bool) (p : Z) (f : file) : file :=
  {| fl_type := FD_PIPE; fl_ref := fl_ref f; fl_readable := readable; fl_writable := writable;
     fl_pipe := Some p; fl_ip := fl_ip f; fl_off := fl_off f |}.
Definition set_fl_inode (readable writable : bool) (ip : nat) (f : file) : file :=
  {| fl_type := FD_INODE; fl_ref := fl_ref f; fl_readable := readable; fl_writable := writable;
     fl_pipe := fl_pipe f; fl_ip := Some ip; fl_off := 0 |}.

Record files (B P : Type) := { ftable : list file; pipes : gmap Z pipe; ffs : fs B; fpages : P }.
Arguments ftable {B P}.
Arguments pipes {B P}.
Arguments ffs {B P}.
Arguments fpages {B P}.

Section file.
Context {B P : Type} `{BlockOps B} `{TxnOps B} `{PageOps P}.
Context (devread : Z -> option (nat -> Z -> M (fs B) (Z * list Z))).
Context (devwrite : Z -> option (nat -> list Z -> M (fs B) Z)).

Definition set_ftable (g : list file -> list file) (s : files B P) : files B P :=
  {| ftable := g (ftable s); pipes := pipes s; ffs := ffs s; fpages := fpages s |}.
Definition set_pipes (g : gmap Z pipe -> gmap Z pipe) (s : files B P) : files B P :=
  {| ftable := ftable s; pipes := g (pipes s); ffs := ffs s; fpages := fpages s |}.
Definition set_ffs (x : fs B) (s : files B P) : files B P :=
  {| ftable := ftable s; pipes := pipes s; ffs := x; fpages := fpages s |}.
Definition set_fpages (x : P) (s : files B P) : files B P :=
  {| ftable := ftable s; pipes := pipes s; ffs := ffs s; fpages := x |}.
Definition onpages {A} (c : M P A) : M (files B P) A := zoom fpages set_fpages c.
Definition onfs {A} (c : M (fs B) A) : M (files B P) A := zoom ffs set_ffs c.
Definition getf (f : nat) : M (files B P) file := fun s =>
  match ftable s !! f with Some x => Done (x, s) | None => Fault end.
Definition updf (f : nat) (g : file -> file) : M (files B P) unit := modify (set_ftable (alter g f)).
Definition getpipe (p : option Z) : M (files B P) (Z * pipe) := fun s =>
  match p with
  | Some k => match pipes s !! k with Some x => Done ((k, x), s) | None => Fault end
  | None => Fault
  end.
Definition putpipe (k : Z) (x : pipe) : M (files B P) unit := modify (set_pipes <[k := x]>).
(** The inode of a file; a null pointer cannot be used. *)
Definition inode_of (x : file) : M (files B P) nat :=
  match fl_ip x with Some ip => ret ip | None => fault end.

Definition fileinit (x : fs B) (p : P) : files B P :=
  {| ftable := replicate (Z.to_nat NFILE) zero_file; pipes := ∅; ffs := x; fpages := p |}.

Definition filealloc : M (files B P) (option nat) := fun s =>
  match list_find (fun x => fl_ref x = 0) (ftable s) with
  | Some (f, _) => (updf f (set_fl_ref 1);;; ret (Some f)) s
  | None => Done (None, s)
  end.

Definition filedup (f : nat) : M (files B P) nat :=
  let! x := getf f in
  if fl_ref x <? 1 then panic "filedup"
  else updf f (set_fl_ref (i32 (fl_ref x + 1)));;; ret f.

(** [pipeclose]: a pipe with both ends closed goes back to [kalloc]. *)
Definition close_pipe (p : option Z) (writable : bool) : M (files B P) unit :=
  let! kx := getpipe p in
  let x := pipeclose writable kx.2 in
  if pipe_freed x then modify (set_pipes (delete kx.1));;; onpages (pg_free kx.1)
  else putpipe kx.1 x.

Definition fileclose (f : nat) : M (files B P) unit :=
  let! x := getf f in
  if fl_ref x <? 1 then panic "fileclose"
  else
    let r := fl_ref x - 1 in
    if 0 <? r then updf f (set_fl_ref r)
    else
      updf f (fun x => set_fl_type FD_NONE (set_fl_ref 0 x));;;
      match fl_type x with
      | FD_PIPE => close_pipe (fl_pipe x) (fl_writable x)
      | FD_INODE =>
          onfs (onb b_begin);;;
          let! ip := inode_of x in
          onfs (iput ip);;;
          onfs (onb b_end)
      | FD_NONE => ret tt
      end.

(** [None] is the result -1. *)
Definition filestat (f : nat) : M (files B P) (option stat) :=
  let! x := getf f in
  match fl_type x with
  | FD_INODE =>
      let! ip := inode_of x in
      onfs (ilock ip);;;
      let! st := onfs (stati ip) in
      onfs (iunlock ip);;;
      ret (Some st)
  | _ => ret None
  end.

(** [killed] is [myproc()->killed]. *)
Definition fileread (killed : bool) (f : nat) (n : Z) : M (files B P) rres :=
  let! x := getf f in
  if negb (fl_readable x) then ret (RRet (-1) [])
  else
    match fl_type x with
    | FD_PIPE =>
        let! kx := getpipe (fl_pipe x) in
        let '(p, r) := piperead killed n kx.2 in
        putpipe kx.1 p;;;
        ret r
    | FD_INODE =>
        let! ip := inode_of x in
        onfs (ilock ip);;;
        let! x := getf f in
        let! r := onfs (readi devread ip (fl_off x) (u32 n)) in
        (if 0 <? r.1 then updf f (set_fl_off (u32 (fl_off x + r.1))) else ret tt);;;
        onfs (iunlock ip);;;
        ret (RRet r.1 r.2)
    | FD_NONE => panic "fileread"
    end.

(** The bytes of one transaction: three blocks. *)
Definition max_write : Z := (MAXOPBLOCKS - 1 - 1 - 2) / 2 * 512.

(** One round of the loop of [filewrite]: [n1] bytes in one transaction. *)
Definition write_chunk (f : nat) (ip : nat) (src : list Z) (n1 : Z) : M (files B P) Z :=
  onfs (onb b_begin);;;
  onfs (ilock ip);;;
  let! x := getf f in
  let! r := onfs (writei devwrite ip src (fl_off x) n1) in
  (if 0 <? r then updf f (set_fl_off (u32 (fl_off x + r))) else ret tt);;;
  onfs (iunlock ip);;;
  onfs (onb b_end);;;
  ret r.
Fixpoint write_loop (fuel : nat) (f ip : nat) (addr : list Z) (i n : Z) : M (files B P) Z :=
  if i <? n then
    match fuel with
    | O => fault
    | S fuel =>
        let n1 := if max_write <? n - i then max_write else n - i in
        let! r := write_chunk f ip (drop (Z.to_nat i) addr) n1 in
        if r <? 0 then ret i
        else if negb (r =? n1) then panic "short filewrite"
        else write_loop fuel f ip addr (i + r) n
    end
  else ret i.

(** [addr] are the [n] bytes at the address; the only caller, [sys_write], has
    checked that [n] is not negative. *)
Definition filewrite (killed : bool) (f : nat) (addr : list Z) : M (files B P) wres :=
  let n := Z.of_nat (length addr) in
  let! x := getf f in
  if negb (fl_writable x) then ret (WRet (-1))
  else
    match fl_type x with
    | FD_PIPE =>
        let! kx := getpipe (fl_pipe x) in
        let '(p, r) := pipewrite killed addr kx.2 in
        putpipe kx.1 p;;;
        ret r
    | FD_INODE =>
        let! ip := inode_of x in
        let! i := write_loop (Z.to_nat (n / max_write + 1)) f ip addr 0 n in
        ret (WRet (if i =? n then n else -1))
    | FD_NONE => panic "filewrite"
    end.

(** The process [pid] runs. *)
Definition run_as (pid : Z) : M (files B P) unit :=
  onfs (onb (b_run pid));;;
  onfs (modify (fun x => {| f_blk := f_blk x; f_sb := f_sb x; f_icache := f_icache x; f_me := pid |})).

(** The exit [bad] of [pipealloc]. *)
Definition pipe_bad (f0 f1 : option nat) : M (files B P) (option (nat * nat)) :=
  (match f0 with Some f => fileclose f | None => ret tt end);;;
  (match f1 with Some f => fileclose f | None => ret tt end);;;
  ret None.
Definition pipealloc : M (files B P) (option (nat * nat)) :=
  let! o0 := filealloc in
  match o0 with
  | None => pipe_bad None None
  | Some f0 =>
      let! o1 := filealloc in
      match o1 with
      | None => pipe_bad (Some f0) None
      | Some f1 =>
          let! p := onpages pg_alloc in
          if p =? 0 then pipe_bad (Some f0) (Some f1)
          else
            let! page := gets (fun s => pg_bytes p (fpages s)) in
            putpipe p (pipe_new page);;;
            updf f0 (set_fl_pipe true false p);;;
            updf f1 (set_fl_pipe false true p);;;
            ret (Some (f0, f1))
      end
  end.
End file.
