(* ===== verification/FileData.v ===== *)
(** * FileData: writing to an open file

    [filewrite] splits a write into transactions; the file is what one write
    of all the bytes would make of it. *)

From stdpp Require Import base list numbers gmap strings.
From S2P Require Import Prelude Bytes Params Sleeplock Bio Log Blocks Fs FsInv FsDemo FsInode FsMap FsFile File.

Local Open Scope Z_scope.
Local Open Scope os_scope.

Section data.
Context {B P : Type} `{BlockLaws B} `{TxnOps B} `{!TxnLaws B} `{PageOps P}.
Context (sb : superblock) (me dstart : Z) (Hlay : layout sb dstart).
Implicit Types (x : fs B) (L : gset Z) (v : Z -> list Z) (ic : list inode) (i : inode).
#[local] Abbreviation bm := (bm sb).
#[local] Abbreviation used := (used sb).
#[local] Abbreviation fs_at := (fs_at sb me).
#[local] Abbreviation file_ok := (file_ok sb dstart).
#[local] Abbreviation written := (written sb dstart).
#[local] Abbreviation nfree := (nfree sb).

(** ** Contents that agree on the blocks of the file system *)

Definition same_home v v' : Prop := forall b, home b -> v' b = v b.

Lemma ref_home v a : ref_ok sb dstart v a -> a <> 0 -> home a.
Proof. intros [?|[Hd _]] Ha; [done|]. by apply Hlay. Qed.

Lemma used_home v v' b : same_home v v' -> used v' b = used v b.
Proof. intros Hv. unfold FsInv.used. rewrite Hv; [done|]. apply Hlay. Qed.

Lemma addr_home v v' i bn : same_home v v' -> file_ok v i -> addr_at v' i bn = addr_at v i bn.
Proof.
  intros Hv Hf. unfold addr_at. destruct (bn <? NDIRECT); [done|].
  destruct (Z.eqb_spec (ind_addr i) 0); [done|]. rewrite Hv; [done|]. eapply ref_home; [apply Hf|done].
Qed.

Lemma file_home v v' i : same_home v v' -> file_ok v i -> file_ok v' i.
Proof.
  intros Hv Hf. apply (file_ok_ext sb dstart v); [|apply Hv, Hlay|done]. intros bn _. by apply addr_home.
Qed.

Lemma full_home v v' i n : same_home v v' -> file_ok v i -> no_holes v i n -> no_holes v' i n.
Proof. intros Hv Hf Hh bn Hb Hn. rewrite (addr_home v) by done. by apply Hh. Qed.

Lemma content_home v v' i :
  same_home v v' -> file_ok v i -> no_holes v i (i_size i) -> content v' i = content v i.
Proof.
  intros Hv Hf Hh. apply list_fmap_ext. intros k o Ho%lookup_seqZ. unfold byte_at.
  rewrite (addr_home v) by done. rewrite Hv; [done|].
  assert (addr_at v i (o / BSIZE) <> 0) as Hn by (by apply (no_holes_at _ _ _ (i_size i)); [|lia]).
  eapply ref_home; [|done]. apply Hf. pose proof (fo_size _ _ _ _ Hf). apply (bn_range o (i_size i)); lia.
Qed.

Lemma own_home v v' i b : same_home v v' -> file_ok v i -> own v' i b -> own v i b.
Proof.
  intros Hv Hf [Hb0 [->|(bn & Hbn & ->)]]; (split; [done|]); [by left|]. right. exists bn.
  by rewrite (addr_home v).
Qed.

Lemma inode_home v v' inum :
  same_home v v' -> inum_ok sb inum -> disk_inode sb v' inum = disk_inode sb v inum.
Proof. intros Hv Hi. unfold disk_inode. rewrite Hv; [done|]. by apply Hlay. Qed.

Lemma nfree_home v v' : same_home v v' -> nfree v' = nfree v.
Proof. intros Hv. apply nfree_bm, Hv, Hlay. Qed.

Lemma meta_home v v' : same_home v v' -> meta_used sb dstart v -> meta_used sb dstart v'.
Proof. intros Hv Hm b Hb. rewrite (used_home v) by done. by apply Hm. Qed.

(** ** One write after another *)

Lemma written_size v i v' i' off src :
  written v i v' i' off src -> 0 <= i_size i -> 0 <= off <= i_size i ->
  i_size i' = Z.max (i_size i) (off + Z.of_nat (length src)).
Proof.
  intros Hw Hs Ho. pose proof (f_equal length (wr_content _ _ _ _ _ _ _ _ Hw)) as Hl.
  pose proof (fo_size _ _ _ _ (wr_file _ _ _ _ _ _ _ _ Hw)).
  unfold content in Hl. rewrite !length_app, length_take, length_drop, !length_fmap, !length_seqZ in Hl. lia.
Qed.

Lemma splice_splice (c s1 s2 : list Z) (off : nat) :
  (off <= length c)%nat ->
  let c1 := take off c ++ s1 ++ drop (off + length s1) c in
  take (off + length s1) c1 ++ s2 ++ drop (off + length s1 + length s2) c1 =
  take off c ++ (s1 ++ s2) ++ drop (off + length (s1 ++ s2)) c.
Proof.
  intros Ho c1. unfold c1. rewrite (app_assoc (take off c) s1).
  rewrite take_app_length' by (rewrite length_app, length_take; lia).
  rewrite drop_app_ge by (rewrite length_app, length_take; lia).
  rewrite <- !app_assoc. do 3 f_equal. rewrite drop_drop. f_equal.
  rewrite !length_app, length_take. lia.
Qed.

Lemma written_app v i v1 i1 w1 v2 i2 off s1 s2 :
  file_ok v i -> 0 <= off <= i_size i -> s2 <> [] ->
  written v i v1 i1 off s1 -> same_home v1 w1 ->
  written w1 i1 v2 i2 (off + Z.of_nat (length s1)) s2 -> written v i v2 i2 off (s1 ++ s2).
Proof.
  intros Hf Ho Hs2 A Hh C. pose proof (wr_file _ _ _ _ _ _ _ _ A) as Hf1.
  pose proof (fo_size _ _ _ _ Hf) as Hsz.
  pose proof (written_size _ _ _ _ _ _ A ltac:(lia) Ho) as E1.
  assert (i_inum i1 = i_inum i) as En by (by rewrite (wr_inode _ _ _ _ _ _ _ _ A)).
  assert (Z.of_nat (length s2) > 0) by (destruct s2; [done|cbn; lia]).
  split.
  - rewrite (wr_content _ _ _ _ _ _ _ _ C).
    rewrite (content_home v1) by (done || apply A). rewrite (wr_content _ _ _ _ _ _ _ _ A).
    rewrite Z2Nat.inj_add, Nat2Z.id by lia. apply splice_splice.
    unfold content. rewrite length_fmap, length_seqZ. lia.
  - rewrite (wr_inode _ _ _ _ _ _ _ _ C), (wr_inode _ _ _ _ _ _ _ _ A). done.
  - apply C.
  - apply C.
  - intros b Hb Hu. apply (wr_used _ _ _ _ _ _ _ _ C); [done|]. rewrite (used_home v1) by done.
    by apply (wr_used _ _ _ _ _ _ _ _ A).
  - intros b Hb Hu Hno Hbm Hi. pose proof (home_range _ Hb).
    assert (used v1 b = true) as Hu1 by (apply (wr_used _ _ _ _ _ _ _ _ A); [fs_lia|done]).
    rewrite (wr_frame _ _ _ _ _ _ _ _ C); [|done|by rewrite (used_home v1)| |done|by rewrite En].
    + rewrite Hh by done. by apply A.
    + intros Hown%(own_home v1); [|done|done]. destruct (wr_own _ _ _ _ _ _ _ _ A b Hown); [done|congruence].
  - intros b Hb. pose proof (own_range sb dstart Hlay _ _ _ (wr_file _ _ _ _ _ _ _ _ C) Hb) as [Hr _].
    apply (wr_own _ _ _ _ _ _ _ _ C) in Hb as [Hown|Hu].
    + apply (wr_own _ _ _ _ _ _ _ _ A). by apply (own_home v1 w1).
    + rewrite (used_home v1) in Hu by done. right. destruct (used v b) eqn:E; [|done].
      by rewrite (wr_used _ _ _ _ _ _ _ _ A) in Hu.
  - intros inum Hi. rewrite (wr_disk _ _ _ _ _ _ _ _ C) by done. rewrite (inode_home v1) by done.
    rewrite (wr_disk _ _ _ _ _ _ _ _ A) by done. rewrite length_app, En.
    destruct (decide (inum = i_inum i)) as [->|Hne].
    + destruct (decide (_ /\ i_size i1 < _)) as [[_ ?]|Hn1];
      destruct (decide (_ /\ i_size i < off + Z.of_nat (_ + _))) as [[_ ?]|Hn2]; try done; try lia.
      destruct (decide (_ /\ _)) as [[_ ?]|]; [|done]. lia.
    + do 3 (destruct (decide (_ /\ _)) as [[? _]|]; [done|]). done.
  - rewrite length_app. intros Hle. rewrite (wr_same _ _ _ _ _ _ _ _ C) by lia. apply A. lia.
Qed.

(** ** Transactions and locks *)

(** No operation is in progress. *)
Record fs_idle v ic x : Prop := {
  fi_sb : f_sb x = sb;
  fi_ic : f_icache x = ic;
  fi_me : f_me x = me;
  fi_idle : idle v (f_blk x)
}.

Lemma begin_wp v ic x : fs_idle v ic x -> wp (onb b_begin) (fun _ x' => fs_at ∅ ∅ v ic x') x.
Proof.
  intros [? ? ? Hi]. unfold onb. apply wp_zoom. eapply wp_mono; [by apply b_begin_law|].
  intros [] b Hb. by split.
Qed.

Lemma end_wp L v ic x :
  fs_at ∅ L v ic x -> (size L <= txn_cap)%nat ->
  wp (onb b_end) (fun _ x' => exists v', fs_idle v' ic x' /\ same_home v v') x.
Proof.
  intros [? ? ? Hb] Hs. unfold onb. apply wp_zoom. eapply wp_mono; [by eapply b_end_law|].
  intros [] b (v' & Hi & Hv). exists v'. split; [by split|done].
Qed.

Lemma iunlock_run L v ic x ip i :
  fs_at ∅ L v ic x -> ic !! ip = Some i -> i_lock i = my_lock me -> 1 <= i_ref i ->
  wp (iunlock ip) (fun _ x' => fs_at ∅ L v (<[ip := set_i_lock initsleeplock i]> ic) x') x.
Proof.
  intros Hx Hip Hl Hr. unfold iunlock. rewrite wp_bind. eapply geti_wp; [done..|]. rewrite wp_bind.
  apply wp_gets. rewrite (fa_me _ _ _ _ _ _ _ Hx), Hl. unfold my_lock. rewrite holdingsleep_mine. cbn [negb orb].
  rewrite (proj2 (Z.ltb_ge _ _)) by lia. rewrite <- (list_alter_insert (fun i => set_i_lock initsleeplock i) ip ic i) by done.
  eapply updi_wp, Hx.
Qed.

Lemma file_ok_lock v l i : file_ok v i -> file_ok v (set_i_lock l i).
Proof. intros [? ? ? ? ? ? ? ?]. by split. Qed.

Lemma written_lock v i v' i' off src l l' :
  written v (set_i_lock l i) v' i' off src -> i_lock i = l' -> written v i v' (set_i_lock l' i') off src.
Proof.
  intros [Wc Wi Wf Wh Wu Wfr Wo Wd Ws] Hl. split; try done.
  - rewrite Wi. destruct i. cbn in *. by rewrite Hl.
  - by apply file_ok_lock.
  - intros Hle. rewrite (Ws Hle). destruct i. cbn in *. by rewrite Hl.
Qed.

(** An inode that a process has open and nobody has locked. *)
Record open_file_ok v i : Prop := {
  of_valid : i_valid i = true;
  of_lock : i_lock i = initsleeplock;
  of_ref : 1 <= i_ref i;
  of_type : i_type i <> T_DEV;
  of_file : file_ok v i;
  of_full : no_holes v i (i_size i);
  of_wf : dinode_wf (i_disk i)
}.

Lemma written_nil v i off : file_ok v i -> no_holes v i (i_size i) -> 0 <= off <= i_size i -> written v i v i off [].
Proof.
  intros Hf Hh Ho. split; try done.
  - cbn [length app]. by rewrite Nat.add_0_r, take_drop.
  - by destruct i.
  - intros b Hb. by left.
  - intros inum Hi. destruct (decide (_ /\ _)) as [[_ ?]|]; [cbn in *; lia|done].
Qed.

Lemma written_open v i v' i' off src :
  open_file_ok v i -> written v i v' i' off src -> open_file_ok v' i'.
Proof.
  intros [Hv Hl Hr Ht Hf Hh [? ? ? ? ? ? ?]] Hw. pose proof (wr_file _ _ _ _ _ _ _ _ Hw) as Hf'.
  pose proof (wr_inode _ _ _ _ _ _ _ _ Hw) as E. pose proof (fo_size _ _ _ _ Hf').
  split; [by rewrite E..|done|apply Hw|]. split; try (by rewrite E).
  - cbn. unfold is_u32. fs_lia.
  - apply Hf'.
  - by eapply addrs_u32.
Qed.

Lemma open_file_home v v' i : same_home v v' -> open_file_ok v i -> open_file_ok v' i.
Proof. intros Hv [? ? ? ? ? ? ?]. split; try done; [by eapply file_home|by eapply full_home]. Qed.

Lemma nblk_max off n : 0 <= off -> 0 <= n <= max_write -> nblk off n <= 4.
Proof.
  intros Ho Hn. change max_write with 1536 in Hn. unfold nblk. destruct (0 <? n); [|lia].
  change BSIZE with 512. Z.div_mod_to_equations. lia.
Qed.

(** What a write has done to the files and the file system. *)
Definition write_post v ic ip i f y (off : Z) (src : list Z) (s s' : files B P) : Prop :=
  exists v1 w i', written v i v1 i' off src /\ same_home v1 w /\
    fs_idle w (<[ip := i']> ic) (ffs s') /\ pipes s' = pipes s /\
    ftable s' = <[f := set_fl_off (off + Z.of_nat (length src)) y]> (ftable s).

(** ** filewrite *)

Section write.
Context (devwrite : Z -> option (nat -> list Z -> M (fs B) Z)).
(** A transaction has room for what [begin_op] reserves. *)
Hypothesis Hcap : MAXOPBLOCKS <= Z.of_nat txn_cap.

Lemma write_chunk_wp (s : files B P) v ic f y ip i buf n1 :
  fs_idle v ic (ffs s) -> ftable s !! f = Some y -> ic !! ip = Some i -> open_file_ok v i ->
  meta_used sb dstart v -> 0 <= fl_off y <= i_size i -> 0 < n1 <= max_write -> n1 <= Z.of_nat (length buf) ->
  4 + Z.of_nat (need_ind i) <= Z.of_nat (nfree v) ->
  wp (write_chunk devwrite f ip buf n1) (fun r s' =>
    if decide (fl_off y + n1 <= MAXFILE * BSIZE) then
      r = n1 /\ exists v1 w i', written v i v1 i' (fl_off y) (take (Z.to_nat n1) buf) /\ same_home v1 w /\
        Z.of_nat (nfree v) + Z.of_nat (need_ind i') <= Z.of_nat (nfree w) + Z.of_nat (need_ind i) + 4 /\
        fs_idle w (<[ip := i']> ic) (ffs s') /\ pipes s' = pipes s /\
        ftable s' = <[f := set_fl_off (fl_off y + n1) y]> (ftable s)
    else r = -1 /\ exists w, same_home v w /\ fs_idle w ic (ffs s') /\ pipes s' = pipes s /\ ftable s' = ftable s) s.
Proof.
  intros Hx Hy Hip Ho Hme Hoff Hn1 Hlen Hfree. pose proof (fo_size _ _ _ _ (of_file _ _ Ho)) as Hsz0. unfold write_chunk.
  pose proof Ho as [Hval Hlk Href Hty Hf Hh Hwf]. change MAXOPBLOCKS with 10 in Hcap.
  pose proof (nblk_max (fl_off y) n1 ltac:(lia) ltac:(lia)) as Hnb.
  set (il := set_i_lock (my_lock me) i).
  assert (forall j, <[ip:=j]> ic !! ip = Some j) as Hins
    by (intros; by apply list_lookup_insert_eq, (lookup_lt_Some _ _ i)).
  rewrite wp_bind. apply wp_zoom. eapply wp_mono; [by apply begin_wp|]. intros [] x1 Hx1.
  rewrite wp_bind. apply wp_zoom. cbn [ffs set_ffs].
  eapply wp_mono; [eapply (ilock_run sb me dstart Hlay _ _ _ _ _ ip i); [exact Hx1|done| |apply Hf|apply Hf|
    apply not_held_empty|rewrite map_size_empty; lia|rewrite size_empty; lia|congruence]|].
  { split; [done|by rewrite Hlk]. }
  intros [] x2 Hx2. unfold loaded in Hx2. rewrite Hval in Hx2. fold il in Hx2.
  rewrite wp_bind. unfold getf, wp at 1. cbn [ftable set_ffs]. rewrite Hy.
  rewrite wp_bind. apply wp_zoom. cbn [ffs set_ffs].
  assert (file_ok v il) as Hfl by (by apply file_ok_lock).
  eapply wp_mono; [eapply (writei_run sb me dstart Hlay devwrite ∅ v _ x2 ip il buf (fl_off y) n1 ∅ Hx2)|].
  { split; [apply Hins|done|done|apply held_ok_empty]. }
  { done. } { done. } { done. } { change (MAXFILE * BSIZE) with 71680 in *. unfold is_u32. lia. }
  { change max_write with 1536 in *. unfold is_u32. lia. } { done. } { set_solver. }
  { rewrite size_empty. lia. } { unfold write_room. change (need_ind il) with (need_ind i). lia. }
  intros r x3. destruct (decide (fl_off y <= i_size il /\ _)) as [[_ Hend]|Hn].
  2:{ destruct (decide (fl_off y + n1 <= MAXFILE * BSIZE)); [destruct Hn; split; [apply Hoff|done]|]. intros [-> ->]. cbn [Z.ltb Z.compare]. rewrite wp_bind. apply wp_ret.
    rewrite wp_bind. apply wp_zoom. cbn [ffs set_ffs]. eapply wp_mono; [eapply (iunlock_run _ _ _ _ ip il); [exact Hx2|apply Hins|done|done]|].
    intros [] x4 Hx4. rewrite list_insert_insert_eq, list_insert_id in Hx4 by (rewrite Hip; f_equal; unfold il; destruct i; cbn in *; by rewrite Hlk).
    rewrite wp_bind. apply wp_zoom. cbn [ffs set_ffs]. eapply wp_mono; [eapply end_wp; [exact Hx4|rewrite size_empty; lia]|]. intros [] x5 (w & Hx5 & Hhome).
    apply wp_ret. split; [done|]. by exists w. }
  destruct (decide (fl_off y + n1 <= MAXFILE * BSIZE)); [|done]. intros (-> & L3 & v3 & i3 & Hx3 & HL3 & Hrm & Hw).
  rewrite size_empty in HL3. rewrite list_insert_insert_eq in Hx3.
  rewrite (proj2 (Z.ltb_lt 0 n1)) by lia. rewrite wp_bind. unfold updf. apply wp_modify.
  rewrite wp_bind. apply wp_zoom. cbn [ffs set_ffs set_ftable].
  pose proof (wr_inode _ _ _ _ _ _ _ _ Hw) as Ei3.
  eapply wp_mono; [eapply (iunlock_run _ _ _ _ ip i3); [exact Hx3|apply Hins|by rewrite Ei3|by rewrite Ei3]|].
  intros [] x4 Hx4. rewrite list_insert_insert_eq in Hx4.
  rewrite wp_bind. apply wp_zoom. cbn [ffs set_ffs].
  eapply wp_mono; [eapply end_wp; [exact Hx4|lia]|]. intros [] x5 (w & Hx5 & Hhome).
  apply wp_ret. split; [done|]. exists v3, w, (set_i_lock initsleeplock i3).
  split_and!; [exact (written_lock v i v3 i3 _ _ (my_lock me) _ Hw Hlk)|done| |done|done|].
  - rewrite (nfree_home v3 w) by done. unfold room in Hrm. change (need_ind il) with (need_ind i) in Hrm.
    change (need_ind (set_i_lock initsleeplock i3)) with (need_ind i3). lia.
  - cbn [ftable set_ftable set_ffs]. rewrite (list_alter_insert _ _ _ _ Hy).
    rewrite u32_small; [done|]. change (MAXFILE * BSIZE) with 71680 in *. unfold is_u32. lia.
Qed.

(** The blocks that [n] bytes may need, four for each transaction. *)
Definition chunk_room v i (n : Z) : Prop :=
  4 * (n / max_write + 1) + Z.of_nat (need_ind i) <= Z.of_nat (nfree v).

(** How many of [n] bytes are written at [off]: all of them, or, when they go
    beyond the largest file, those of the transactions that do not. *)
Definition fitting (off n : Z) : Z :=
  if off + n <=? MAXFILE * BSIZE then n else max_write * ((MAXFILE * BSIZE - off) / max_write).

Lemma fitting_more off n : max_write < n -> off + max_write <= MAXFILE * BSIZE -> fitting off n = max_write + fitting (off + max_write) (n - max_write).
Proof.
  intros Hn Ho. unfold fitting. replace (off + max_write + (n - max_write)) with (off + n) by lia.
  destruct (Z.leb_spec (off + n) (MAXFILE * BSIZE)); [lia|]. change (MAXFILE * BSIZE) with 71680 in *. change max_write with 1536 in *.
  replace (71680 - off) with (71680 - (off + 1536) + 1 * 1536) by lia. rewrite Z.div_add by lia. lia.
Qed.
Lemma fitting_none off n n1 : 0 <= off <= MAXFILE * BSIZE -> n1 <= n -> n1 <= max_write -> MAXFILE * BSIZE < off + n1 -> fitting off n = 0.
Proof.
  intros Ho Hn Hn1 Hlt. unfold fitting. rewrite (proj2 (Z.leb_gt _ _)) by lia. rewrite Z.div_small; [lia|]. lia.
Qed.
Lemma fitting_range off n : 0 <= off <= MAXFILE * BSIZE -> 0 <= n -> 0 <= fitting off n <= n.
Proof.
  intros Ho Hn. unfold fitting. destruct (Z.leb_spec (off + n) (MAXFILE * BSIZE)); [lia|]. change (MAXFILE * BSIZE) with 71680 in *. change max_write with 1536.
  Z.div_mod_to_equations. lia.
Qed.

(** [write_post] for a write in several transactions; none changes nothing. *)
Definition loop_post v ic ip i f y (src : list Z) (s s' : files B P) : Prop :=
  exists v1 w i', written v i v1 i' (fl_off y) src /\ (src = [] -> v1 = v /\ i' = i) /\ same_home v1 w /\
    fs_idle w (<[ip := i']> ic) (ffs s') /\ pipes s' = pipes s /\
    ftable s' = <[f := set_fl_off (fl_off y + Z.of_nat (length src)) y]> (ftable s).

Lemma loop_post_more (s s1 s2 : files B P) v ic f y ip i src1 src2 v1 w i1 :
  ftable s !! f = Some y -> open_file_ok v i -> 0 <= fl_off y <= i_size i -> src1 <> [] ->
  written v i v1 i1 (fl_off y) src1 -> same_home v1 w -> pipes s1 = pipes s ->
  ftable s1 = <[f := set_fl_off (fl_off y + Z.of_nat (length src1)) y]> (ftable s) ->
  loop_post w (<[ip := i1]> ic) ip i1 f (set_fl_off (fl_off y + Z.of_nat (length src1)) y) src2 s1 s2 ->
  loop_post v ic ip i f y (src1 ++ src2) s s2.
Proof.
  intros Hy Ho Hoff Hne Hw Hh Hp1 Hft1 (v2 & w2 & i2 & Hw2 & He2 & Hh2 & Hx2 & Hp2 & Hft2).
  rewrite list_insert_insert_eq in Hx2. rewrite Hft1, list_insert_insert_eq in Hft2. cbn [fl_off set_fl_off] in *.
  assert (ftable s2 = <[f := set_fl_off (fl_off y + Z.of_nat (length (src1 ++ src2))) y]> (ftable s)) as Hft.
  { rewrite Hft2. f_equal. unfold set_fl_off. cbn. f_equal. rewrite length_app. lia. }
  assert (src1 ++ src2 = [] -> False) as Hn by (intros [? _]%app_eq_nil; done).
  destruct (decide (src2 = [])) as [->|Hs2].
  - destruct (He2 eq_refl) as [-> ->]. exists v1, w2, i1. rewrite app_nil_r in *. split_and!; [done|done| |done|congruence|done].
    intros b Hb. rewrite Hh2, Hh by done. done.
  - exists v2, w2, i2. split_and!; [|done|done|done|congruence|done]. by eapply written_app; [apply Ho| | |exact Hw|exact Hh|].
Qed.

Lemma write_loop_wp fuel (s : files B P) v ic f y ip i buf k n :
  fs_idle v ic (ffs s) -> ftable s !! f = Some y -> ic !! ip = Some i -> open_file_ok v i ->
  meta_used sb dstart v -> 0 <= fl_off y <= i_size i -> 0 <= k < n -> n = Z.of_nat (length buf) ->
  chunk_room v i (n - k) -> (n - k) / max_write < Z.of_nat fuel ->
  wp (write_loop devwrite fuel f ip buf k n) (fun r s' => r = k + fitting (fl_off y) (n - k) /\
    loop_post v ic ip i f y (take (Z.to_nat (fitting (fl_off y) (n - k))) (drop (Z.to_nat k) buf)) s s') s.
Proof.
  revert s v ic y i k.
  induction fuel as [|fuel IH]; intros s v ic y i k Hx Hy Hip Ho Hme Hoff Hk Hn Hroom Hfu;
    pose proof (Z.div_pos (n - k) max_write ltac:(lia) ltac:(done)) as Hdiv; [lia|].
  cbn [write_loop]. rewrite (proj2 (Z.ltb_lt k n)) by lia. cbv zeta.
  pose proof (fo_size _ _ _ _ (of_file _ _ Ho)) as Hsz0.
  set (n1 := if max_write <? n - k then max_write else n - k).
  assert (0 < n1 <= max_write /\ n1 <= n - k /\ (n1 = max_write /\ max_write < n - k \/ n1 = n - k)) as (Hn1 & Hn1k & Hor).
  { unfold n1. change max_write with 1536. destruct (Z.ltb_spec 1536 (n - k)); lia. }
  rewrite wp_bind. eapply wp_mono.
  { apply (write_chunk_wp s v ic f y ip i); try done; [rewrite length_drop; lia|unfold chunk_room in Hroom; lia]. }
  intros r s1. destruct (decide _) as [Hend|Hbig].
  2:{ intros (-> & w & Hh & Hx1 & Hp1 & Hft1). cbn [Z.ltb Z.compare]. apply wp_ret. rewrite (fitting_none _ _ n1) by lia. split; [lia|].
    exists v, w, i. rewrite take_0. cbn [length]. rewrite list_insert_id by done. rewrite Z.add_0_r, (list_insert_id (ftable s)) by (rewrite Hy; by destruct y).
    split_and!; [apply written_nil; [apply Ho..|done]|done..]. }
  intros (-> & v1 & w & i1 & Hw & Hh & Hfr & Hx1 & Hp1 & Hft1).
  set (src1 := take (Z.to_nat n1) (drop (Z.to_nat k) buf)) in *.
  assert (Z.of_nat (length src1) = n1) as Hl1 by (unfold src1; rewrite length_take, length_drop; lia).
  assert (src1 <> []) as Hne by (intros E; rewrite E in Hl1; cbn in Hl1; lia).
  rewrite (proj2 (Z.ltb_ge n1 0)), Z.eqb_refl by lia. cbn [negb].
  destruct Hor as [[En1 Hlt]|En1].
  2:{ assert (fitting (fl_off y) (n - k) = n1) as -> by (unfold fitting; rewrite (proj2 (Z.leb_le _ _)) by lia; lia).
    destruct fuel; cbn [write_loop]; rewrite (proj2 (Z.ltb_ge _ _)) by lia; apply wp_ret; (split; [done|]); fold src1; exists v1, w, i1; rewrite Hl1; by split_and!. }
  pose proof (written_size _ _ _ _ _ _ Hw) as Hsz1. rewrite Hl1 in Hsz1. specialize (Hsz1 ltac:(lia) Hoff).
  assert (open_file_ok w i1) as Ho1 by (eapply open_file_home; [done|]; by eapply written_open).
  assert ((n - k) / max_write = (n - (k + n1)) / max_write + 1) as Hstep.
  { rewrite En1. rewrite <- Z.div_add by done. f_equal. lia. }
  pose proof (fitting_range (fl_off y + n1) (n - (k + n1)) ltac:(lia) ltac:(lia)) as Hfit.
  assert (fitting (fl_off y) (n - k) = n1 + fitting (fl_off y + n1) (n - (k + n1))) as Ef.
  { replace (n - (k + n1)) with (n - k - n1) by lia. rewrite En1. apply fitting_more; lia. }
  eapply wp_mono.
  { apply (IH s1 w (<[ip:=i1]> ic) (set_fl_off (fl_off y + n1) y) i1 (k + n1)); try done.
    - rewrite Hft1. apply list_lookup_insert_eq. by eapply lookup_lt_Some.
    - apply list_lookup_insert_eq. by eapply lookup_lt_Some.
    - eapply meta_home; [done|]. eapply meta_used_mono; [done|apply Hw|done].
    - cbn. lia.
    - lia.
    - unfold chunk_room in *. lia.
    - lia. }
  cbn [fl_off set_fl_off]. intros r s2 (-> & Hpost). split; [lia|]. rewrite Ef, Z2Nat.inj_add by lia.
  assert (forall a b (l : list Z), take (a + b) l = take a l ++ take b (drop a l)) as Htd by (intros a b l; by rewrite take_take_drop).
  rewrite Htd, drop_drop. fold src1. replace (Z.to_nat k + Z.to_nat n1)%nat with (Z.to_nat (k + n1)) by lia.
  eapply (loop_post_more s s1 s2 v ic f y ip i src1); [done..|exact Hw|done|done|by rewrite Hl1|]. rewrite Hl1. exact Hpost.
Qed.

(** Property C14: [filewrite] of any number of bytes to an open file, in as many
    transactions as it takes, has the effect of a single write: the bytes
    replace or extend the contents at the offset of the file, the offset
    advances by their number, which is the result, and no other file, inode,
    open file or pipe changes. Bytes that go beyond the largest file (71680
    bytes) make it return -1, with the effect of writing the leading
    transactions of 1536 bytes that fit. The offset is not beyond the end of
    the file, and the disk has the blocks that the transactions may need: four
    for each, and one for the indirect block. *)
Theorem filewrite_splices killed (s : files B P) v ic f y ip i src :
  fs_idle v ic (ffs s) -> ftable s !! f = Some y -> fl_type y = FD_INODE -> fl_writable y = true ->
  fl_ip y = Some ip -> ic !! ip = Some i -> open_file_ok v i -> meta_used sb dstart v ->
  0 <= fl_off y <= i_size i -> chunk_room v i (Z.of_nat (length src)) ->
  let n := Z.of_nat (length src) in
  let all := fl_off y + n <=? MAXFILE * BSIZE in
  wp (filewrite devwrite killed f src) (fun r s' => r = Pipe.WRet (if all then n else -1) /\
    write_post v ic ip i f y (fl_off y)
      (if all then src else take (Z.to_nat (max_write * ((MAXFILE * BSIZE - fl_off y) / max_write))) src) s s') s.
Proof.
  intros Hx Hy Hty Hwr Hyip Hip Ho Hme Hoff Hroom n all. unfold filewrite. fold n. fold n in Hroom.
  rewrite wp_bind. unfold getf, wp at 1. rewrite Hy, Hwr, Hty. cbn [negb].
  rewrite wp_bind. unfold inode_of. rewrite Hyip. apply wp_ret. rewrite wp_bind. pose proof (fo_size _ _ _ _ (of_file _ _ Ho)) as Hsz.
  assert (Z.of_nat (Z.to_nat (n / max_write + 1)) = n / max_write + 1) as Hfuel.
  { apply Z2Nat.id. pose proof (Z.div_pos n max_write ltac:(lia) ltac:(done)). lia. }
  destruct (decide (n = 0)) as [H0'|Hpos].
  - assert (all = true) as -> by (unfold all; rewrite H0'; apply Z.leb_le; lia).
    destruct (Z.to_nat (n / max_write + 1)); cbn [write_loop]; rewrite (proj2 (Z.ltb_ge 0 n)) by lia;
      apply wp_ret, wp_ret; (split; [rewrite H0'; by case_match|]); exists v, v, i.
    all: assert (src = []) as -> by (destruct src; [done|cbn in n; lia]).
    all: rewrite list_insert_id by done; rewrite Z.add_0_r, list_insert_id by (by destruct y).
    all: split_and!; [apply written_nil; [apply Ho..|done]|done..].
  - eapply wp_mono; [apply (write_loop_wp _ s v ic f y ip i src 0 n); rewrite ?Z.sub_0_r; try done; lia|].
    intros r s' [-> (v1 & w & i' & Hw & _ & Hp)]. rewrite Z.sub_0_r, drop_0, Z.add_0_l in *. apply wp_ret.
    pose proof (fitting_range (fl_off y) n ltac:(lia) ltac:(lia)) as Hfit. unfold fitting in *. fold all in Hw, Hp, Hfit |- *. destruct all eqn:Eall.
    + rewrite take_ge in Hw, Hp by lia. split; [by rewrite Z.eqb_refl|]. by exists v1, w, i'.
    + split; [|by exists v1, w, i']. apply Z.leb_gt in Eall. rewrite (proj2 (Z.eqb_neq _ _)); [done|].
      change (MAXFILE * BSIZE) with 71680 in *. change max_write with 1536 in *. Z.div_mod_to_equations. lia.
Qed.
End write.
End data.

(** ** The file of the small file system, written in two transactions *)

#[export] Instance no_pages : PageOps unit :=
  {| pg_alloc := ret 0; pg_free _ := ret tt; pg_bytes _ _ := [] |}.

Definition tiny_closed : inode := set_i_lock initsleeplock tiny_i.
Definition tiny_opened : file :=
  {| fl_type := FD_INODE; fl_ref := 1; fl_readable := true; fl_writable := true; fl_pipe := None;
     fl_ip := Some O; fl_off := 5 |}.
Definition tiny_files : files log unit :=
  {| ftable := [tiny_opened]; pipes := ∅; fpages := tt;
     ffs := {| f_blk := tiny_log; f_sb := tiny_sb; f_icache := [tiny_closed]; f_me := 1 |} |}.

Lemma filewrite_splices_witness :
  wp (filewrite (fun _ => None) false 0 (replicate 1600 7)) (fun r s' => r = Pipe.WRet 1600 /\
    exists v1 w i', fs_idle tiny_sb 1 w [i'] (ffs s') /\ same_home v1 w /\
      content v1 i' = [104; 101; 108; 108; 111] ++ replicate 1600 7) tiny_files.
Proof.
  eapply wp_mono.
  - apply (filewrite_splices tiny_sb 1 59 tiny_layout (fun _ => None) ltac:(by vm_compute) false tiny_files
      tiny_v [tiny_closed] 0 tiny_opened 0 tiny_closed (replicate 1600 7)); [split; [done..|apply tiny_idle]|done..| | |done|].
    + pose proof tiny_file_env as [_ Hf _ _].
      split; [done|done|done|done|by apply file_ok_lock|apply tiny_no_holes|apply tiny_file_wf].
    + by destruct tiny_file_env.
    + unfold chunk_room. rewrite length_replicate. by vm_compute.
  - cbv zeta. rewrite length_replicate. cbn [fl_off tiny_opened]. rewrite (proj2 (Z.leb_le _ _)) by (by vm_compute).
    intros r s' [-> (v1 & w & i' & Hw & Hh & Hx & _)]. split; [done|].
    exists v1, w, i'. split_and!; [done|done|]. rewrite (wr_content _ _ _ _ _ _ _ _ Hw). by vm_compute.
Defined.
