(* ===== verification/KString.v ===== *)
(** * KString: memory and the C string routines of the kernel (string.c)

    Memory is a finite map from addresses to bytes; an address that was never
    written reads as 0. A pointer is its address. Loops over a count recurse
    on the count; [strlen] runs on fuel. *)

From stdpp Require Import base list numbers gmap.
From S2P Require Import Prelude Bytes.

Local Open Scope Z_scope.

Abbreviation mem := (gmap Z Z).

Definition ld (m : mem) (a : Z) : Z := default 0 (m !! a).
Definition st (m : mem) (a v : Z) : mem := <[a := v]> m.

(** [n] bytes at [a], and a list of bytes stored at [a]. *)
Definition lds (m : mem) (a : Z) (n : nat) : list Z := (fun k => ld m (a + Z.of_nat k)) <$> seq 0 n.
Fixpoint sts (m : mem) (a : Z) (bs : list Z) : mem :=
  match bs with
  | [] => m
  | b :: bs => sts (st m a b) (a + 1) bs
  end.

Definition ld32 (m : mem) (a : Z) : Z := le_combine (lds m a 4).
Definition st32 (m : mem) (a v : Z) : mem := sts m a (le_split 4 v).

(** ** The routines *)

(** [rep stosb] and [rep stosl] (x86.h). *)
Fixpoint stosb (m : mem) (a data : Z) (cnt : nat) : mem :=
  match cnt with
  | O => m
  | S cnt => stosb (st m a (u8 data)) (a + 1) data cnt
  end.
Fixpoint stosl (m : mem) (a data : Z) (cnt : nat) : mem :=
  match cnt with
  | O => m
  | S cnt => stosl (st32 m a (u32 data)) (a + 4) data cnt
  end.

Definition memset (m : mem) (dst c n : Z) : mem :=
  if (Z.rem (i32 dst) 4 =? 0) && (n mod 4 =? 0) then
    let c := Z.land c 0xFF in
    stosl m dst (Z.lor (Z.lor (Z.lor (Z.shiftl c 24) (Z.shiftl c 16)) (Z.shiftl c 8)) c)
      (Z.to_nat (n / 4))
  else stosb m dst c (Z.to_nat n).

Fixpoint memcmp (m : mem) (s1 s2 : Z) (n : nat) : Z :=
  match n with
  | O => 0
  | S n => if ld m s1 =? ld m s2 then memcmp m (s1 + 1) (s2 + 1) n else ld m s1 - ld m s2
  end.

(** The two copy loops of [memmove]; [copy_down] starts past the end. *)
Fixpoint copy_up (m : mem) (d s : Z) (n : nat) : mem :=
  match n with
  | O => m
  | S n => copy_up (st m d (ld m s)) (d + 1) (s + 1) n
  end.
Fixpoint copy_down (m : mem) (d s : Z) (n : nat) : mem :=
  match n with
  | O => m
  | S n => copy_down (st m (d - 1) (ld m (s - 1))) (d - 1) (s - 1) n
  end.

Definition memmove (m : mem) (dst src n : Z) : mem :=
  if (src <? dst) && (dst <? src + n)
  then copy_down m (dst + n) (src + n) (Z.to_nat n)
  else copy_up m dst src (Z.to_nat n).

Definition memcpy (m : mem) (dst src n : Z) : mem := memmove m dst src n.

Fixpoint strncmp (m : mem) (p q : Z) (n : nat) : Z :=
  match n with
  | O => 0
  | S n' =>
      if negb (ld m p =? 0) && (ld m p =? ld m q) then strncmp m (p + 1) (q + 1) n'
      else ld m p - ld m q
  end.

(** The two loops of [strncpy]: copy, then pad. *)
Fixpoint str_pad (m : mem) (s : Z) (n : nat) : mem :=
  match n with
  | O => m
  | S n => str_pad (st m s 0) (s + 1) n
  end.
Fixpoint strncpy (m : mem) (s t : Z) (n : nat) : mem :=
  match n with
  | O => m
  | S n =>
      let m' := st m s (ld m t) in
      if ld m t =? 0 then str_pad m' (s + 1) n else strncpy m' (s + 1) (t + 1) n
  end.

Fixpoint safestrcpy_loop (m : mem) (s t : Z) (n : nat) : mem :=
  match n with
  | O => st m s 0
  | S n =>
      let m' := st m s (ld m t) in
      if ld m t =? 0 then st m' (s + 1) 0 else safestrcpy_loop m' (s + 1) (t + 1) n
  end.
Definition safestrcpy (m : mem) (s t n : Z) : mem :=
  if n <=? 0 then m else safestrcpy_loop m s t (Z.to_nat (n - 1)).

Fixpoint strlen_from (m : mem) (s : Z) (n : Z) (fuel : nat) : option Z :=
  match fuel with
  | O => None
  | S fuel => if ld m (s + n) =? 0 then Some n else strlen_from m s (n + 1) fuel
  end.
Definition strlen (m : mem) (s : Z) (fuel : nat) : option Z := strlen_from m s 0 fuel.

(** ** Loads after stores *)

Lemma ld_st_eq m a v : ld (st m a v) a = v.
Proof. unfold ld, st. by rewrite lookup_insert_eq. Qed.

Lemma ld_st_ne m a b v : a <> b -> ld (st m a v) b = ld m b.
Proof. intros. unfold ld, st. by rewrite lookup_insert_ne. Qed.

Lemma ld_sts m a bs b :
  ld (sts m a bs) b
  = if decide (a <= b < a + Z.of_nat (length bs)) then nth (Z.to_nat (b - a)) bs 0 else ld m b.
Proof.
  revert m a. induction bs as [|x bs IH]; intros m a; cbn [sts length].
  { rewrite decide_False by (cbn; lia). done. }
  rewrite IH. destruct (decide (a = b)) as [<-|Hne].
  - rewrite decide_False, decide_True by lia. rewrite Z.sub_diag. apply ld_st_eq.
  - rewrite ld_st_ne by done. case_decide; case_decide; try lia.
    replace (Z.to_nat (b - a)) with (S (Z.to_nat (b - (a + 1)))) by lia. done.
Qed.

Lemma lds_sts m a bs : lds (sts m a bs) a (length bs) = bs.
Proof.
  apply list_eq. intros i. unfold lds. rewrite list_lookup_fmap.
  destruct (decide (i < length bs)%nat) as [Hi|Hi].
  - rewrite lookup_seq_lt by done. cbn. rewrite ld_sts, decide_True by lia.
    replace (Z.to_nat (a + Z.of_nat i - a)) with i by lia.
    rewrite nth_lookup. by destruct (lookup_lt_is_Some_2 bs i Hi) as [x ->].
  - rewrite lookup_seq_ge by lia. symmetry. apply lookup_ge_None. lia.
Qed.

Lemma lds_ext m m' a n :
  (forall b, a <= b < a + Z.of_nat n -> ld m b = ld m' b) -> lds m a n = lds m' a n.
Proof.
  intros He. apply list_fmap_ext. intros i k [-> Hk]%lookup_seq. apply He. lia.
Qed.

Lemma ld32_st32 m a v : ld32 (st32 m a v) a = u32 v.
Proof.
  unfold ld32, st32. change 4%nat with (length (le_split 4 v)) at 2.
  rewrite lds_sts, le_combine_split. done.
Qed.

Lemma ld_st32 m a v b : ~ (a <= b < a + 4) -> ld (st32 m a v) b = ld m b.
Proof. intros. unfold st32. by rewrite ld_sts, decide_False. Qed.

Lemma ld32_ext m m' a :
  (forall b, a <= b < a + 4 -> ld m b = ld m' b) -> ld32 m a = ld32 m' a.
Proof. intros He. unfold ld32. f_equal. by apply lds_ext. Qed.

(** ** [memset] *)

Lemma ld_stosb m a c n b :
  ld (stosb m a c n) b = if decide (a <= b < a + Z.of_nat n) then u8 c else ld m b.
Proof.
  revert m a. induction n as [|n IH]; intros m a; cbn [stosb].
  { rewrite decide_False by lia. done. }
  rewrite IH. destruct (decide (a = b)) as [<-|Hne].
  - rewrite decide_False, decide_True by lia. apply ld_st_eq.
  - rewrite ld_st_ne by done. case_decide; case_decide; (done || lia).
Qed.

(** The doubleword [memset] stores has the byte in all four places. *)
Lemma memset_word_byte c :
  is_u8 c ->
  le_split 4 (u32 (Z.lor (Z.lor (Z.lor (Z.shiftl c 24) (Z.shiftl c 16)) (Z.shiftl c 8)) c))
  = replicate 4 c.
Proof.
  intros Hc.
  assert (Forall (fun c => le_split 4 (u32 (Z.lor (Z.lor (Z.lor (Z.shiftl c 24) (Z.shiftl c 16))
    (Z.shiftl c 8)) c)) = replicate 4 c) (seqZ 0 256)) as Hall.
  { apply (bool_decide_unpack _). by vm_compute. }
  eapply Forall_forall in Hall; [exact Hall|]. apply elem_of_seqZ. wrap_lia.
Qed.

Lemma land_ff c : Z.land c 0xFF = u8 c.
Proof. change 0xFF with (Z.ones 8). by rewrite Z.land_ones. Qed.

Lemma ld_stosl m a data c n b :
  le_split 4 (u32 data) = replicate 4 c ->
  ld (stosl m a data n) b = if decide (a <= b < a + 4 * Z.of_nat n) then c else ld m b.
Proof.
  intros Hc. revert m a. induction n as [|n IH]; intros m a; cbn [stosl].
  { rewrite decide_False by lia. done. }
  rewrite IH. unfold st32. rewrite ld_sts, Hc. change (length (replicate 4 c)) with 4%nat.
  repeat case_decide; try lia.
  rewrite nth_lookup, lookup_replicate_2 by lia. done.
Qed.

(** [memset] sets exactly the [n] bytes at [dst] to the low byte
    of [c], by doublewords when the address and the count are multiples of 4
    and by bytes otherwise. *)
Theorem memset_correct m dst c n a :
  0 <= n ->
  ld (memset m dst c n) a = if decide (dst <= a < dst + n) then u8 c else ld m a.
Proof.
  intros Hn. unfold memset. destruct (_ && _) eqn:Hal.
  - apply andb_true_iff in Hal as [_ Hal%Z.eqb_eq]. rewrite land_ff.
    assert (le_split 4 (u32 (Z.lor (Z.lor (Z.lor (Z.shiftl (u8 c) 24) (Z.shiftl (u8 c) 16))
      (Z.shiftl (u8 c) 8)) (u8 c))) = replicate 4 (u8 c)) as Hw
      by (apply memset_word_byte, u8_range).
    rewrite (ld_stosl _ _ _ (u8 c)) by done.
    replace (4 * Z.of_nat (Z.to_nat (n / 4))) with n; [done|].
    Z.div_mod_to_equations. lia.
  - rewrite ld_stosb. by rewrite Z2Nat.id.
Qed.

(** ** [memmove] *)

Lemma ld_copy_up m d s n b :
  d <= s \/ s + Z.of_nat n <= d ->
  ld (copy_up m d s n) b
  = if decide (d <= b < d + Z.of_nat n) then ld m (s + (b - d)) else ld m b.
Proof.
  revert m d s. induction n as [|n IH]; intros m d s Hov; cbn [copy_up].
  { rewrite decide_False by lia. done. }
  rewrite IH by lia. destruct (decide (d = b)) as [<-|Hne].
  - rewrite decide_False, decide_True by lia. rewrite ld_st_eq. f_equal. lia.
  - repeat case_decide; try lia; rewrite ld_st_ne by lia; [|done]. f_equal. lia.
Qed.

Lemma ld_copy_down m d s n b :
  s <= d ->
  ld (copy_down m d s n) b
  = if decide (d - Z.of_nat n <= b < d) then ld m (s + (b - d)) else ld m b.
Proof.
  revert m d s. induction n as [|n IH]; intros m d s Hov; cbn [copy_down].
  { rewrite decide_False by lia. done. }
  rewrite IH by lia. destruct (decide (d - 1 = b)) as [<-|Hne].
  - rewrite decide_False, decide_True by lia. rewrite ld_st_eq. f_equal. lia.
  - repeat case_decide; try lia; rewrite ld_st_ne by lia; [|done]. f_equal. lia.
Qed.

(** [memmove] gives the [n] bytes at [dst] the values the [n]
    bytes at [src] had before, however the two ranges overlap, and changes
    nothing else. *)
Theorem memmove_correct m dst src n a :
  0 <= n ->
  ld (memmove m dst src n) a
  = if decide (dst <= a < dst + n) then ld m (src + (a - dst)) else ld m a.
Proof.
  intros Hn. unfold memmove. destruct ((src <? dst) && (dst <? src + n)) eqn:Ho.
  - apply andb_true_iff in Ho as [H1%Z.ltb_lt H2%Z.ltb_lt].
    rewrite ld_copy_down by lia. repeat case_decide; try lia. f_equal. lia.
  - rewrite ld_copy_up, Z2Nat.id by
      (apply andb_false_iff in Ho as [H1%Z.ltb_ge|H2%Z.ltb_ge]; lia). done.
Qed.

(** ** Strings *)

(** The NUL-terminated string [l] is at [s]. *)
Definition str_at (m : mem) (s : Z) (l : list Z) : Prop :=
  lds m s (S (length l)) = l ++ [0] /\ Forall (fun b => b <> 0) l.

Lemma lds_S m s n : lds m s (S n) = ld m s :: lds m (s + 1) n.
Proof.
  unfold lds. cbn [seq fmap list_fmap]. f_equal; [f_equal; lia|].
  rewrite <- fmap_S_seq, <- list_fmap_compose. apply list_fmap_ext. intros i k _. cbn.
  f_equal. lia.
Qed.

Lemma str_at_nil m s : str_at m s [] <-> ld m s = 0.
Proof.
  unfold str_at. cbn [length app]. rewrite lds_S. split.
  - intros [Heq _]. by injection Heq as ?.
  - intros ->. by split.
Qed.

Lemma str_at_cons m s b l : str_at m s (b :: l) <-> ld m s = b /\ b <> 0 /\ str_at m (s + 1) l.
Proof.
  unfold str_at. cbn [length app]. rewrite lds_S, Forall_cons. split.
  - intros [Heq [? ?]]. injection Heq as ? ?. done.
  - intros (-> & ? & -> & ?). done.
Qed.

Lemma str_at_ext m m' s l :
  (forall a, s <= a <= s + Z.of_nat (length l) -> ld m a = ld m' a) ->
  str_at m s l -> str_at m' s l.
Proof.
  intros He [H1 H2]. split; [|done]. rewrite <- H1. symmetry. apply lds_ext.
  intros b Hb. apply He. lia.
Qed.

Lemma strlen_from_str m s n l fuel :
  str_at m (s + n) l -> (length l < fuel)%nat ->
  strlen_from m s n fuel = Some (n + Z.of_nat (length l)).
Proof.
  revert n fuel. induction l as [|b l IH]; intros n [|fuel] Hs Hf; cbn [length] in *; try lia;
    cbn [strlen_from].
  - apply str_at_nil in Hs. rewrite Hs. cbn. f_equal. lia.
  - apply str_at_cons in Hs as (Hb & Hb0 & Hs). rewrite Hb, (proj2 (Z.eqb_neq _ _)) by done.
    rewrite IH by (by rewrite ?Z.add_assoc || lia). f_equal. lia.
Qed.

Lemma strncmp_str m p q n l1 l2 :
  str_at m p l1 -> str_at m q l2 ->
  strncmp m p q n = 0 <-> take n l1 = take n l2.
Proof.
  revert p q l1 l2. induction n as [|n IH]; intros p q l1 l2 H1 H2; [done|]. cbn [strncmp].
  destruct l1 as [|b1 l1]; [apply str_at_nil in H1|apply str_at_cons in H1 as (Hb1 & Hn1 & H1)];
    (destruct l2 as [|b2 l2]; [apply str_at_nil in H2|apply str_at_cons in H2 as (Hb2 & Hn2 & H2)]).
  - rewrite H1, H2. done.
  - rewrite H1, Hb2. cbn. split; [lia|done].
  - rewrite Hb1, H2, (proj2 (Z.eqb_neq b1 0)) by done. cbn. split; [lia|done].
  - rewrite Hb1, Hb2, (proj2 (Z.eqb_neq b1 0)) by done. cbn.
    destruct (Z.eqb_spec b1 b2) as [->|Hne].
    + rewrite (IH _ _ l1 l2) by done. split; [by intros ->|by intros [= ->]].
    + split; [lia|congruence].
Qed.

Lemma ld_str_pad m s n b :
  ld (str_pad m s n) b = if decide (s <= b < s + Z.of_nat n) then 0 else ld m b.
Proof.
  revert m s. induction n as [|n IH]; intros m s; cbn [str_pad].
  { rewrite decide_False by lia. done. }
  rewrite IH. destruct (decide (s = b)) as [<-|Hne].
  - rewrite decide_False, decide_True by lia. apply ld_st_eq.
  - rewrite ld_st_ne by done. repeat case_decide; (done || lia).
Qed.

(** The source string is not overwritten. *)
Definition apart (s : Z) (n : nat) (t : Z) (l : list Z) : Prop :=
  s + Z.of_nat n <= t \/ t + Z.of_nat (length l) < s.

Lemma strncpy_str m s t n l b :
  str_at m t l -> apart s n t l ->
  ld (strncpy m s t n) b
  = if decide (s <= b < s + Z.of_nat n) then nth (Z.to_nat (b - s)) l 0 else ld m b.
Proof.
  revert m s t l. induction n as [|n IH]; intros m s t l Hl Hap; cbn [strncpy].
  { rewrite decide_False by lia. done. }
  destruct l as [|x l]; [apply str_at_nil in Hl|apply str_at_cons in Hl as (Hx & Hx0 & Hl)].
  - rewrite Hl, Z.eqb_refl, ld_str_pad. destruct (decide (s = b)) as [<-|Hne].
    + rewrite decide_False, decide_True by lia. rewrite ld_st_eq. by destruct (Z.to_nat _).
    + rewrite ld_st_ne by done. repeat case_decide; try lia. by destruct (Z.to_nat _).
  - rewrite Hx, (proj2 (Z.eqb_neq _ _)) by done. unfold apart in Hap. cbn [length] in Hap.
    rewrite (IH _ _ _ l).
    + destruct (decide (s = b)) as [<-|Hne].
      * rewrite decide_False, decide_True by lia. rewrite ld_st_eq, Z.sub_diag. done.
      * rewrite ld_st_ne by done. repeat case_decide; try lia.
        replace (Z.to_nat (b - s)) with (S (Z.to_nat (b - (s + 1)))) by lia. done.
    + eapply str_at_ext; [|exact Hl]. intros a Ha. symmetry. apply ld_st_ne. lia.
    + unfold apart. lia.
Qed.

Lemma safestrcpy_loop_str m s t n l :
  str_at m t l -> apart s (S n) t l ->
  str_at (safestrcpy_loop m s t n) s (take n l) /\
  forall b, ~ (s <= b < s + Z.of_nat (S n)) -> ld (safestrcpy_loop m s t n) b = ld m b.
Proof.
  revert m s t l. induction n as [|n IH]; intros m s t l Hl Hap; cbn [safestrcpy_loop].
  { split; [apply str_at_nil, ld_st_eq|]. intros b Hb. apply ld_st_ne. lia. }
  destruct l as [|x l]; [apply str_at_nil in Hl|apply str_at_cons in Hl as (Hx & Hx0 & Hl)].
  - rewrite Hl, Z.eqb_refl. split.
    + apply str_at_nil. rewrite ld_st_ne by lia. apply ld_st_eq.
    + intros b Hb. rewrite !ld_st_ne by lia. done.
  - rewrite Hx, (proj2 (Z.eqb_neq _ _)) by done. unfold apart in Hap. cbn [length] in Hap.
    destruct (IH (st m s x) (s + 1) (t + 1) l) as [H1 H2].
    + eapply str_at_ext; [|exact Hl]. intros a Ha. symmetry. apply ld_st_ne. lia.
    + unfold apart. lia.
    + split.
      * cbn [take]. apply str_at_cons. split_and!; [|done|done]. rewrite H2 by lia. apply ld_st_eq.
      * intros b Hb. rewrite H2 by lia. apply ld_st_ne. lia.
Qed.

(** The string routines on NUL-terminated strings. [strlen]
    returns the length, [strncmp] is 0 exactly when the first [n] characters
    agree, [strncpy] writes the string and pads with NULs up to [n] bytes
    (without a NUL when the string is longer), and [safestrcpy] always leaves
    a NUL-terminated string of at most [n - 1] characters; none of them writes
    outside the [n] bytes. *)
Theorem string_routines_correct m p q l1 l2 n s a fuel :
  str_at m p l1 -> str_at m q l2 -> 0 < n -> apart s (Z.to_nat n) p l1 ->
  (length l1 < fuel)%nat ->
  strlen m p fuel = Some (Z.of_nat (length l1)) /\
  (strncmp m p q (Z.to_nat n) = 0 <-> take (Z.to_nat n) l1 = take (Z.to_nat n) l2) /\
  ld (strncpy m s p (Z.to_nat n)) a
    = (if decide (s <= a < s + n) then nth (Z.to_nat (a - s)) l1 0 else ld m a) /\
  str_at (safestrcpy m s p n) s (take (Z.to_nat (n - 1)) l1) /\
  (~ (s <= a < s + n) -> ld (safestrcpy m s p n) a = ld m a).
Proof.
  intros H1 H2 Hn Hap Hf. split_and!.
  - unfold strlen. rewrite (strlen_from_str m p 0 l1) by (by rewrite ?Z.add_0_r). done.
  - by apply strncmp_str.
  - rewrite (strncpy_str _ _ _ _ l1) by done. by rewrite Z2Nat.id by lia.
  - unfold safestrcpy. rewrite (proj2 (Z.leb_gt _ _)) by done.
    apply safestrcpy_loop_str; [done|]. by replace (S (Z.to_nat (n - 1))) with (Z.to_nat n) by lia.
  - intros Ha. unfold safestrcpy. rewrite (proj2 (Z.leb_gt _ _)) by done.
    eapply safestrcpy_loop_str; [done| |lia].
    by replace (S (Z.to_nat (n - 1))) with (Z.to_nat n) by lia.
Qed.

Lemma memset_correct_witness : ld (memset ∅ 101 257 7) 107 = 1.
Proof. exact (memset_correct ∅ 101 257 7 107 ltac:(lia)). Defined.

Lemma memmove_correct_witness : ld (memmove (sts ∅ 100 [1; 2; 3; 4]) 102 100 3) 104 = 3.
Proof. exact (memmove_correct (sts ∅ 100 [1; 2; 3; 4]) 102 100 3 104 ltac:(lia)). Defined.

Lemma string_routines_correct_witness :
  let m := sts ∅ 100 [104; 105; 0; 104; 111; 0] in
  strlen m 100 5 = Some 2 /\
  (strncmp m 100 103 2 = 0 <-> [104; 105] = [104; 111]) /\
  ld (strncpy m 200 100 2) 201 = 105 /\
  str_at (safestrcpy m 200 100 2) 200 [104] /\
  (~ (200 <= 201 < 202) -> ld (safestrcpy m 200 100 2) 201 = ld m 201).
Proof.
  apply (string_routines_correct (sts ∅ 100 [104; 105; 0; 104; 111; 0]) 100 103
    [104; 105] [104; 111] 2 200 201 5);
    [by split; [vm_compute|repeat constructor]..|lia|right; cbn; lia|cbn; lia].
Defined.

Lemma memcmp_eq m s1 s2 n : memcmp m s1 s2 n = 0 <-> lds m s1 n = lds m s2 n.
Proof.
  revert s1 s2. induction n as [|n IH]; intros s1 s2; [done|]. cbn [memcmp]. rewrite !lds_S.
  destruct (Z.eqb_spec (ld m s1) (ld m s2)) as [->|Hne].
  - rewrite IH. split; [by intros ->|by intros [= ->]].
  - split; [lia|congruence].
Qed.
