(* ===== verification/Mmu.v ===== *)
(** * Mmu: page and address arithmetic (mmu.h, memlayout.h)

    The macros of mmu.h and memlayout.h on 32-bit values. *)

From stdpp Require Import base list numbers.
From S2P Require Import Prelude Params.

Local Open Scope Z_scope.

Definition PGROUNDUP (sz : Z) : Z := u32 (Z.land (u32 (sz + PGSIZE - 1)) (Z.lnot (PGSIZE - 1))).
Definition PGROUNDDOWN (a : Z) : Z := Z.land (u32 a) (Z.lnot (PGSIZE - 1)).
Definition PDX (va : Z) : Z := Z.land (Z.shiftr (u32 va) PDXSHIFT) 0x3FF.
Definition PTX (va : Z) : Z := Z.land (Z.shiftr (u32 va) PTXSHIFT) 0x3FF.
Definition PGADDR (d t o : Z) : Z :=
  u32 (Z.lor (Z.lor (Z.shiftl d PDXSHIFT) (Z.shiftl t PTXSHIFT)) o).
Definition PTE_ADDR (pte : Z) : Z := Z.land (u32 pte) (Z.lnot 0xFFF).
Definition PTE_FLAGS (pte : Z) : Z := Z.land (u32 pte) 0xFFF.

Definition V2P (a : Z) : Z := u32 (a - KERNBASE).
Definition P2V (a : Z) : Z := u32 (a + KERNBASE).

(** Clearing the low 12 bits. *)
Lemma land_lnot_page a : Z.land a (Z.lnot (PGSIZE - 1)) = a - a mod PGSIZE.
Proof.
  change (PGSIZE - 1) with (Z.ones 12). rewrite <- Z.ldiff_land.
  rewrite Z.ldiff_ones_r by done. rewrite Z.shiftl_mul_pow2, Z.shiftr_div_pow2 by done.
  change PGSIZE with (2 ^ 12). pose proof (Z.div_mod a (2 ^ 12)). lia.
Qed.

Lemma PGROUNDDOWN_spec a : is_u32 a -> PGROUNDDOWN a = a - a mod PGSIZE.
Proof. intros Ha. unfold PGROUNDDOWN. rewrite u32_small by done. apply land_lnot_page. Qed.

Lemma PGROUNDUP_spec a :
  is_u32 a -> a + PGSIZE - 1 < 2 ^ 32 ->
  PGROUNDUP a mod PGSIZE = 0 /\ a <= PGROUNDUP a < a + PGSIZE.
Proof.
  intros Ha Hlt. unfold PGROUNDUP. rewrite land_lnot_page. unfold PGSIZE in *. wrap_lia.
Qed.

Lemma PGROUNDUP_aligned a : is_u32 a -> a mod PGSIZE = 0 -> PGROUNDUP a = a.
Proof. intros Ha Hm. unfold PGROUNDUP. rewrite land_lnot_page. unfold PGSIZE in *. wrap_lia. Qed.

Lemma PDX_spec va : PDX va = u32 va / 2 ^ 22.
Proof.
  unfold PDX, PDXSHIFT. change 0x3FF with (Z.ones 10).
  rewrite Z.land_ones, Z.shiftr_div_pow2 by done. apply Z.mod_small.
  change (2 ^ 10) with 1024. change (2 ^ 22) with 4194304. wrap_lia.
Qed.

Lemma PTX_spec va : PTX va = (u32 va / 2 ^ 12) mod 2 ^ 10.
Proof.
  unfold PTX, PTXSHIFT. change 0x3FF with (Z.ones 10).
  by rewrite Z.land_ones, Z.shiftr_div_pow2 by done.
Qed.

Lemma PTE_FLAGS_spec pte : PTE_FLAGS pte = u32 pte mod 2 ^ 12.
Proof. unfold PTE_FLAGS. change 0xFFF with (Z.ones 12). by rewrite Z.land_ones. Qed.

Lemma PTE_ADDR_spec pte : PTE_ADDR pte = u32 pte - u32 pte mod PGSIZE.
Proof. unfold PTE_ADDR. change 0xFFF with (PGSIZE - 1). apply land_lnot_page. Qed.

(** Two addresses in the same page have the same indexes, and only they. *)
Lemma PDX_PTX_inj va va' :
  is_u32 va -> is_u32 va' -> va mod PGSIZE = 0 -> va' mod PGSIZE = 0 ->
  PDX va = PDX va' -> PTX va = PTX va' -> va = va'.
Proof.
  rewrite !PDX_spec, !PTX_spec. unfold PGSIZE.
  change (2 ^ 22) with 4194304. change (2 ^ 12) with 4096. change (2 ^ 10) with 1024.
  intros. wrap_lia.
Qed.

(** A page-aligned address with flag bits splits back into both. *)
Lemma PTE_split pa fl :
  is_u32 pa -> pa mod PGSIZE = 0 -> 0 <= fl < PGSIZE ->
  Z.lor pa fl = pa + fl /\ PTE_ADDR (Z.lor pa fl) = pa /\ PTE_FLAGS (Z.lor pa fl) = fl.
Proof.
  intros Hp Hal Hfl.
  assert (Z.lor pa fl = pa + fl) as Hor.
  { assert (Z.land pa fl = 0) as Hland.
    { apply Z.bits_inj'. intros i Hi. rewrite Z.land_spec, Z.bits_0.
      destruct (Z.lt_ge_cases i 12).
      - replace pa with (pa / 2 ^ 12 * 2 ^ 12)
          by (unfold PGSIZE in *; change (2 ^ 12) with 4096; Z.div_mod_to_equations; lia).
        by rewrite Z.mul_pow2_bits_low.
      - rewrite (Z.bits_above_log2 fl i), andb_false_r; [done|lia|].
        destruct (Z.eq_dec fl 0) as [->|]; [cbn; lia|].
        apply Z.log2_lt_pow2; [lia|]. unfold PGSIZE in Hfl.
        apply Z.lt_le_trans with (2 ^ 12); [change (2 ^ 12) with 4096; lia|].
        apply Z.pow_le_mono_r; lia. }
    pose proof (Z.add_lor_land pa fl). lia. }
  split; [done|]. rewrite Hor, PTE_ADDR_spec, PTE_FLAGS_spec.
  unfold PGSIZE in *. change (2 ^ 12) with 4096. split; wrap_lia.
Qed.
