(* ===== verification/Kalloc.v ===== *)
(** * Kalloc: the physical page allocator (kalloc.c)

    The free list is threaded through the free pages: the first word of a
    free page is the address of the next one. [kmem.lock] makes each operation
    atomic. The linker symbol [end] is a parameter. *)

From stdpp Require Import base list numbers gmap strings relations.
From S2P Require Import Prelude Bytes Params KString Mmu.

Local Open Scope Z_scope.
Local Open Scope os_scope.

Record kmem := { k_mem : mem; freelist : Z; use_lock : bool }.

Definition set_free (m : mem) (f : Z) (s : kmem) : kmem :=
  {| k_mem := m; freelist := f; use_lock := use_lock s |}.

Section kalloc.
Variable end_ : Z.

Definition kfree (v : Z) : M kmem unit :=
  if negb (v mod PGSIZE =? 0) || (v <? end_) || (PHYSTOP <=? V2P v) then panic "kfree"
  else modify (fun s => set_free (st32 (memset (k_mem s) v 1 PGSIZE) v (freelist s)) v s).

Definition kalloc : M kmem Z := fun s =>
  let r := freelist s in
  if r =? 0 then Done (r, s) else Done (r, set_free (k_mem s) (ld32 (k_mem s) r) s).

(** The loop of [freerange], on fuel. *)
Fixpoint freerange_from (fuel : nat) (p vend : Z) : M kmem unit :=
  match fuel with
  | O => fault
  | S fuel =>
      if p + PGSIZE <=? vend then kfree p;;; freerange_from fuel (p + PGSIZE) vend
      else ret tt
  end.

Definition freerange (vstart vend : Z) : M kmem unit :=
  let p := PGROUNDUP vstart in
  freerange_from (S (Z.to_nat ((vend - p) / PGSIZE + 1))) p vend.

Definition kinit1 (vstart vend : Z) : M kmem unit :=
  modify (fun s => {| k_mem := k_mem s; freelist := freelist s; use_lock := false |});;;
  freerange vstart vend.

Definition kinit2 (vstart vend : Z) : M kmem unit :=
  freerange vstart vend;;;
  modify (fun s => {| k_mem := k_mem s; freelist := freelist s; use_lock := true |}).

(** ** The free list *)

Definition page_ok (p : Z) : Prop :=
  p mod PGSIZE = 0 /\ end_ <= p /\ KERNBASE <= p < KERNBASE + PHYSTOP.

Fixpoint chain (m : mem) (h : Z) (l : list Z) : Prop :=
  match l with
  | [] => h = 0
  | p :: l => h = p /\ chain m (ld32 m p) l
  end.

(** The pages on the list, each once. *)
Record free_list (l : list Z) (s : kmem) : Prop := {
  fl_chain : chain (k_mem s) (freelist s) l;
  fl_nodup : NoDup l;
  fl_pages : Forall page_ok l
}.

Lemma page_ok_kfree v :
  is_u32 v -> (negb (v mod PGSIZE =? 0) || (v <? end_) || (PHYSTOP <=? V2P v) = false <-> page_ok v).
Proof.
  intros Hv. rewrite !orb_false_iff, negb_false_iff, Z.eqb_eq, Z.ltb_ge, Z.leb_gt.
  unfold page_ok, V2P, KERNBASE, PHYSTOP, PGSIZE. split; intros; split_hyps; split_and!; wrap_lia.
Qed.

(** The address [a] lies in the page [p]. *)
Definition in_page (p a : Z) : Prop := p <= a < p + PGSIZE.

Lemma pages_apart p q a b :
  p mod PGSIZE = 0 -> q mod PGSIZE = 0 -> p <> q -> in_page p a -> in_page q b -> a <> b.
Proof. unfold in_page, PGSIZE. intros. Z.div_mod_to_equations. lia. Qed.

Lemma chain_ext m m' h l :
  (forall p a, p ∈ l -> in_page p a -> ld m a = ld m' a) -> chain m h l -> chain m' h l.
Proof.
  revert h. induction l as [|p l IH]; intros h He; [done|]. cbn [chain]. intros [-> Hc]. split; [done|].
  replace (ld32 m' p) with (ld32 m p).
  - apply IH; [|done]. intros q a Hq. apply He. by right.
  - apply ld32_ext. intros b Hb. apply (He p); [constructor|]. unfold in_page, PGSIZE. lia.
Qed.

Lemma ld_memset_page m v a : ~ in_page v a -> ld (memset m v 1 PGSIZE) a = ld m a.
Proof.
  intros Ha. unfold memset. replace (PGSIZE mod 4 =? 0) with true by done. rewrite andb_true_r.
  destruct (Z.rem _ _ =? 0).
  - erewrite ld_stosl; [|apply memset_word_byte; by vm_compute].
    rewrite decide_False; [done|]. unfold in_page in Ha. change (Z.of_nat _) with 1024.
    unfold PGSIZE in Ha. lia.
  - rewrite ld_stosb, decide_False; [done|]. unfold in_page, PGSIZE in *. lia.
Qed.

(** What [kfree] does to a page that is not on the list. *)
Lemma kfree_run l s v :
  free_list l s -> page_ok v -> v ∉ l ->
  exists s', kfree v s = Done (tt, s') /\ free_list (v :: l) s' /\
    forall a, ~ in_page v a -> ld (k_mem s') a = ld (k_mem s) a.
Proof.
  intros [Hc Hnd Hp] Hv Hn. unfold kfree.
  assert (is_u32 v) as Hu by (destruct Hv as (? & ? & ?); unfold KERNBASE, PHYSTOP in *; wrap_lia).
  rewrite (proj2 (page_ok_kfree v Hu)) by done. eexists. split; [reflexivity|].
  assert (forall a, ~ in_page v a -> ld (st32 (memset (k_mem s) v 1 PGSIZE) v (freelist s)) a
    = ld (k_mem s) a) as Hout.
  { intros a Ha. rewrite ld_st32 by (unfold in_page, PGSIZE in Ha; lia). by apply ld_memset_page. }
  assert (is_u32 (freelist s)) as Hf.
  { destruct l as [|q l]; cbn [chain] in Hc; [rewrite Hc; done|]. destruct Hc as [-> _].
    inversion Hp as [|? ? Hq]; subst. destruct Hq as (? & ? & ?).
    unfold KERNBASE, PHYSTOP in *. wrap_lia. }
  split; [|done]. split; cbn [k_mem freelist set_free chain]; [split; [done|]|by constructor|by constructor].
  rewrite ld32_st32, u32_small by done. eapply chain_ext; [|exact Hc].
  intros p a Hin Ha. symmetry. apply Hout. intros Hva.
  eapply Forall_forall in Hp as (Hal & _); [|exact Hin].
  eapply (pages_apart p v a a); [done|apply Hv|by intros ->|done..].
Qed.

Lemma kalloc_run l s :
  free_list l s ->
  exists s', kalloc s = Done (hd 0 l, s') /\ free_list (tl l) s' /\ k_mem s' = k_mem s.
Proof.
  intros [Hc Hnd Hp]. unfold kalloc. destruct l as [|p l]; cbn [chain] in Hc.
  - rewrite Hc. exists s. split; [done|]. by split; [split; cbn; try constructor|].
  - destruct Hc as [Hf Hc]. rewrite Hf.
    inversion Hnd; inversion Hp as [|? ? Hpp]; subst.
    rewrite (proj2 (Z.eqb_neq _ _))
      by (destruct Hpp as (? & ? & ?); unfold KERNBASE in *; lia).
    eexists. split; [reflexivity|]. split; [by split|done].
Qed.

(** ** [freerange] *)

(** The pages from [p] on, [k] of them. *)
Definition page_list (p : Z) (k : nat) : list Z := (fun i => p + PGSIZE * Z.of_nat i) <$> seq 0 k.

Lemma page_list_S p k : page_list p (S k) = p :: page_list (p + PGSIZE) k.
Proof.
  unfold page_list. cbn [seq fmap list_fmap]. f_equal; [lia|].
  rewrite <- fmap_S_seq, <- list_fmap_compose. apply list_fmap_ext. intros i j _. cbn. lia.
Qed.

Lemma elem_of_page_list p k q :
  q ∈ page_list p k <-> exists i, (i < k)%nat /\ q = p + PGSIZE * Z.of_nat i.
Proof.
  unfold page_list. rewrite list_elem_of_fmap. split.
  - intros (i & -> & Hi%elem_of_seq). exists i. split; [lia|done].
  - intros (i & Hi & ->). exists i. split; [done|]. apply elem_of_seq. lia.
Qed.

Lemma freerange_from_run k fuel p vend l s :
  free_list l s -> (k < fuel)%nat ->
  p + PGSIZE * Z.of_nat k <= vend -> (vend < p + PGSIZE * Z.of_nat k + PGSIZE) ->
  (forall q, q ∈ page_list p k -> page_ok q /\ q ∉ l) ->
  exists s', freerange_from fuel p vend s = Done (tt, s') /\
    free_list (rev (page_list p k) ++ l) s'.
Proof.
  revert fuel p l s. induction k as [|k IH]; intros [|fuel] p l s Hl Hf H1 H2 Hq; try lia;
    cbn [freerange_from].
  - rewrite (proj2 (Z.leb_gt _ _)) by lia. by exists s.
  - rewrite (proj2 (Z.leb_le _ _)) by (unfold PGSIZE in *; lia). rewrite page_list_S in *.
    destruct (Hq p) as [Hp Hpl]; [constructor|].
    destruct (kfree_run l s p Hl Hp Hpl) as (s1 & Hrun & Hl1 & _).
    erewrite bind_done by exact Hrun.
    destruct (IH fuel (p + PGSIZE) (p :: l) s1) as (s2 & Hrun2 & Hl2);
      [done|lia|unfold PGSIZE in *; lia|unfold PGSIZE in *; lia| |].
    + intros q Hin. destruct (Hq q) as [Hqo Hql]; [by constructor|]. split; [done|].
      apply not_elem_of_cons. split; [|done].
      apply elem_of_page_list in Hin as (i & _ & ->). unfold PGSIZE. lia.
    + exists s2. split; [done|]. cbn [rev]. by rewrite <- app_assoc.
Qed.

(** After [kinit1] on an empty list, the free list holds exactly
    the whole pages of the range, each once: [freerange] rounds the start up,
    frees every page that fits, and terminates without a panic. *)
Theorem kinit1_frees_range vstart vend s :
  freelist s = 0 -> end_ <= vstart -> KERNBASE <= vstart -> vend <= KERNBASE + PHYSTOP ->
  vstart <= vend ->
  exists s' l, kinit1 vstart vend s = Done (tt, s') /\ free_list l s' /\
    forall p, p ∈ l <-> p mod PGSIZE = 0 /\ vstart <= p /\ p + PGSIZE <= vend.
Proof.
  intros Hf He Hk Hv Hle. unfold kinit1. erewrite bind_done by reflexivity. cbn beta.
  set (s0 := {| k_mem := k_mem s; freelist := freelist s; use_lock := false |}).
  assert (free_list [] s0) as H0 by (split; [done|constructor|constructor]).
  destruct (PGROUNDUP_spec vstart) as [Hal Hup].
  { unfold KERNBASE, PHYSTOP in *. wrap_lia. }
  { unfold KERNBASE, PHYSTOP, PGSIZE in *. lia. }
  unfold freerange. set (p0 := PGROUNDUP vstart) in *.
  set (k := Z.to_nat ((vend - p0) / PGSIZE)).
  assert (forall q, q ∈ page_list p0 k <-> q mod PGSIZE = 0 /\ vstart <= q /\ q + PGSIZE <= vend)
    as Hin.
  { intros q. rewrite elem_of_page_list. unfold k, PGSIZE in *. split.
    - intros (i & Hi & ->). Z.div_mod_to_equations. lia.
    - intros (Hq & Hq1 & Hq2). exists (Z.to_nat ((q - p0) / 4096)).
      Z.div_mod_to_equations. lia. }
  destruct (Z.le_gt_cases p0 vend) as [Hpv|Hpv].
  - destruct (freerange_from_run k (S (Z.to_nat ((vend - p0) / PGSIZE + 1))) p0 vend [] s0)
      as (s' & Hrun & Hl); [done| | | | |].
    + unfold k, PGSIZE. Z.div_mod_to_equations. lia.
    + unfold k, PGSIZE in *. Z.div_mod_to_equations. lia.
    + unfold k, PGSIZE in *. Z.div_mod_to_equations. lia.
    + intros q Hq%Hin. split; [|apply not_elem_of_nil].
      unfold page_ok, PGSIZE in *. split_and!; lia.
    + exists s', (rev (page_list p0 k) ++ []). split_and!; [done..|].
      intros p. rewrite app_nil_r, <- Permutation_rev. apply Hin.
  - exists s0, []. split_and!; [|done|].
    + cbn [freerange_from]. rewrite (proj2 (Z.leb_gt _ _)); [done|]. unfold PGSIZE. lia.
    + intros p. rewrite <- Hin. unfold k.
      replace (Z.to_nat ((vend - p0) / PGSIZE)) with 0%nat; [done|].
      unfold PGSIZE. Z.div_mod_to_equations. lia.
Qed.

(** ** Clients

    The pages handed out belong to their owners, who may write anything into
    them, until they are freed. *)

Inductive kstep : kmem * gset Z -> kmem * gset Z -> Prop :=
| kstep_alloc s r s' O :
    kalloc s = Done (r, s') -> r <> 0 -> kstep (s, O) (s', {[r]} ∪ O)
| kstep_free s p s' O :
    p ∈ O -> kfree p s = Done (tt, s') -> kstep (s, O) (s', O ∖ {[p]})
| kstep_store s p a v O :
    p ∈ O -> in_page p a -> kstep (s, O) (set_free (st (k_mem s) a v) (freelist s) s, O).

(** The free pages [l] and the owned pages [O] make up [all], disjointly. *)
Definition kinv (all : gset Z) (x : kmem * gset Z) : Prop :=
  exists l, free_list l x.1 /\ all = list_to_set l ∪ x.2 /\ list_to_set l ## x.2 /\
    set_Forall page_ok x.2.

Lemma kinv_step all x x' : kinv all x -> kstep x x' -> kinv all x'.
Proof.
  intros (l & Hl & Hall & Hd & Ho) Hst.
  destruct Hst as [s r s' O Hrun Hr|s p s' O Hp Hrun|s p a v O Hp Ha]; cbn in *.
  - destruct (kalloc_run l s Hl) as (s1 & Hrun' & Hl1 & _). rewrite Hrun in Hrun'.
    injection Hrun' as -> ->. destruct l as [|p l]; [done|]. cbn in *.
    exists l. split_and!; [done|set_solver| |].
    + cbn. destruct Hl as [_ Hnd _]. apply NoDup_cons in Hnd as [Hn _]. set_solver.
    + apply set_Forall_union; [|done]. apply set_Forall_singleton.
      destruct Hl as [_ _ Hpg]. by inversion Hpg.
  - assert (p ∉ l) as Hn by set_solver.
    destruct (kfree_run l s p Hl (Ho p Hp) Hn) as (s1 & Hrun' & Hl1 & _).
    rewrite Hrun in Hrun'. injection Hrun' as ->. exists (p :: l). cbn.
    split_and!; [done| |set_solver|].
    + rewrite Hall. apply set_eq. intros q. destruct (decide (q = p)); set_solver.
    + intros q Hq. apply Ho. set_solver.
  - exists l. split_and!; try done. destruct Hl as [Hc Hnd Hpg]. split; [|done|done]. cbn.
    eapply chain_ext; [|exact Hc]. intros q b Hq Hb. symmetry. apply ld_st_ne.
    eapply Forall_forall in Hpg as (Hal & _); [|exact Hq].
    destruct (Ho p Hp) as [Hal' _]. eapply (pages_apart p q); [done|done| |done|done].
    intros ->. set_solver.
Qed.

(** Property C32: the allocator never hands out a page that is in use. From a
    list of free pages, after any sequence of allocations, frees of owned
    pages and arbitrary stores into owned pages, the next [kalloc] returns 0
    exactly when every page is in use, and otherwise a page of the pool that no
    one owns. *)
Theorem kalloc_fresh l s0 s O r s' :
  free_list l s0 -> rtc kstep (s0, ∅) (s, O) -> kalloc s = Done (r, s') ->
  if decide (list_to_set l = O) then r = 0
  else r ∈ (list_to_set l : gset Z) /\ (r ∉ O) /\ page_ok r.
Proof.
  intros Hl Hr Hrun.
  assert (kinv (list_to_set l) (s0, ∅)) as Hi.
  { exists l. split_and!; [done|set_solver|set_solver|done]. }
  assert (kinv (list_to_set l) (s, O)) as (l' & Hl' & Hall & Hd & Ho)
    by (induction Hr; eauto using kinv_step).
  cbn in *. destruct (kalloc_run l' s Hl') as (s1 & Hrun' & _). rewrite Hrun in Hrun'.
  injection Hrun' as -> _. rewrite Hall. destruct l' as [|p l']; cbn.
  - rewrite decide_True by set_solver. done.
  - rewrite decide_False by set_solver. split_and!; [set_solver..|].
    destruct Hl' as [_ _ Hpg]. by inversion Hpg.
Qed.
End kalloc.

Lemma kinit1_frees_range_witness :
  exists s' l, kinit1 0x80100000 0x80100010 0x80103000
      {| k_mem := ∅; freelist := 0; use_lock := false |} = Done (tt, s') /\
    free_list 0x80100000 l s' /\
    forall p, p ∈ l <-> p mod PGSIZE = 0 /\ 0x80100010 <= p /\ p + PGSIZE <= 0x80103000.
Proof.
  apply (kinit1_frees_range 0x80100000 0x80100010 0x80103000
    {| k_mem := ∅; freelist := 0; use_lock := false |}); by vm_compute.
Defined.

(** One free page. *)
Definition one_page : kmem := {| k_mem := ∅; freelist := 0x80101000; use_lock := true |}.

Lemma kalloc_fresh_witness :
  if decide (list_to_set [0x80101000] = (∅ : gset Z)) then 0x80101000 = 0
  else 0x80101000 ∈ (list_to_set [0x80101000] : gset Z) /\ (0x80101000 ∉ (∅ : gset Z)) /\
       page_ok 0x80100000 0x80101000.
Proof.
  apply (kalloc_fresh 0x80100000 [0x80101000] one_page one_page ∅ 0x80101000
    (set_free ∅ 0 one_page)).
  - split; [by vm_compute|apply NoDup_singleton|by repeat constructor].
  - apply rtc_refl.
  - by vm_compute.
Defined.
