(* ===== verification/Vm.v ===== *)
(** * Vm: page tables (vm.c)

    The kernel reaches physical memory at [P2V] of its address, so page
    directories, page tables and user pages live in the memory of the page
    allocator. A null pointer is 0, and dereferencing it is a fault. The linker
    symbols [end] and [data] are parameters; so is [readi] for [loaduvm]. *)

From stdpp Require Import base list numbers gmap strings.
From S2P Require Import Prelude Bytes Params KString Mmu Kalloc.

Local Open Scope Z_scope.
Local Open Scope os_scope.

(** Memory operations through a pointer. *)
Definition ldw (a : Z) : M kmem Z :=
  if a =? 0 then fault else gets (fun s => ld32 (k_mem s) a).
Definition on_mem (f : mem -> mem) : M kmem unit :=
  modify (fun s => set_free (f (k_mem s)) (freelist s) s).
Definition stw (a v : Z) : M kmem unit :=
  if a =? 0 then fault else on_mem (fun m => st32 m a v).
Definition bit (v mask : Z) : bool := negb (Z.land v mask =? 0).

Section vm.
Variables end_ data_ : Z.

Definition walkpgdir (pgdir va : Z) (alloc : bool) : M kmem Z :=
  let pde := pgdir + 4 * PDX va in
  let! e := ldw pde in
  if bit e PTE_P then ret (P2V (PTE_ADDR e) + 4 * PTX va)
  else if negb alloc then ret 0
  else
    let! pgtab := kalloc in
    if pgtab =? 0 then ret 0
    else
      on_mem (fun m => memset m pgtab 0 PGSIZE);;;
      stw pde (Z.lor (Z.lor (Z.lor (V2P pgtab) PTE_P) PTE_W) PTE_U);;;
      ret (pgtab + 4 * PTX va).

(** The loop of [mappages], from page [a] to page [last], on fuel. *)
Fixpoint mappages_from (fuel : nat) (pgdir a last pa perm : Z) : M kmem Z :=
  match fuel with
  | O => fault
  | S fuel =>
      let! pte := walkpgdir pgdir a true in
      if pte =? 0 then ret (-1)
      else
        let! e := ldw pte in
        if bit e PTE_P then panic "remap"
        else
          stw pte (Z.lor (Z.lor pa perm) PTE_P);;;
          if a =? last then ret 0
          else mappages_from fuel pgdir (u32 (a + PGSIZE)) last (u32 (pa + PGSIZE)) perm
  end.

Definition mappages (pgdir va size pa perm : Z) : M kmem Z :=
  let a := PGROUNDDOWN va in
  let last := PGROUNDDOWN (u32 (va + size - 1)) in
  mappages_from (S (Z.to_nat (u32 (last - a) / PGSIZE))) pgdir a last pa perm.

(** The loop of [deallocuvm], on fuel. *)
Fixpoint deallocuvm_from (fuel : nat) (pgdir a oldsz : Z) : M kmem unit :=
  match fuel with
  | O => fault
  | S fuel =>
      if a <? oldsz then
        let! pte := walkpgdir pgdir a false in
        if pte =? 0 then
          deallocuvm_from fuel pgdir (u32 (u32 (PGADDR (PDX a + 1) 0 0 - PGSIZE) + PGSIZE)) oldsz
        else
          let! e := ldw pte in
          (if bit e PTE_P then
             let pa := PTE_ADDR e in
             if pa =? 0 then panic "kfree"
             else kfree end_ (P2V pa);;; stw pte 0
           else ret tt);;;
          deallocuvm_from fuel pgdir (u32 (a + PGSIZE)) oldsz
      else ret tt
  end.

Definition deallocuvm (pgdir oldsz newsz : Z) : M kmem Z :=
  if oldsz <=? newsz then ret oldsz
  else
    let a := PGROUNDUP newsz in
    deallocuvm_from (S (Z.to_nat ((oldsz - a) / PGSIZE + 1))) pgdir a oldsz;;;
    ret newsz.

Definition freevm (pgdir : Z) : M kmem unit :=
  if pgdir =? 0 then panic "freevm: no pgdir"
  else
    deallocuvm pgdir KERNBASE 0;;;
    for_loop (Z.to_nat NPDENTRIES) 0 (fun i =>
      let! e := ldw (pgdir + 4 * i) in
      if bit e PTE_P then kfree end_ (P2V (PTE_ADDR e)) else ret tt);;;
    kfree end_ pgdir.

(** [kmap]: virtual address, physical start and end, permissions. *)
Definition kmap : list (Z * Z * Z * Z) :=
  [(KERNBASE, 0, EXTMEM, PTE_W);
   (KERNLINK, V2P KERNLINK, V2P data_, 0);
   (data_, V2P data_, PHYSTOP, PTE_W);
   (DEVSPACE, DEVSPACE, 0, PTE_W)].

Fixpoint setupkvm_map (pgdir : Z) (ks : list (Z * Z * Z * Z)) : M kmem Z :=
  match ks with
  | [] => ret pgdir
  | (virt, phys_start, phys_end, perm) :: ks =>
      let! r := mappages pgdir virt (u32 (phys_end - phys_start)) phys_start perm in
      if r <? 0 then freevm pgdir;;; ret 0 else setupkvm_map pgdir ks
  end.

Definition setupkvm : M kmem Z :=
  let! pgdir := kalloc in
  if pgdir =? 0 then ret 0
  else
    on_mem (fun m => memset m pgdir 0 PGSIZE);;;
    if DEVSPACE <? P2V PHYSTOP then panic "PHYSTOP too high"
    else setupkvm_map pgdir kmap.

Definition inituvm (pgdir init sz : Z) : M kmem unit :=
  if PGSIZE <=? sz then panic "inituvm: more than a page"
  else
    let! mem := kalloc in
    if mem =? 0 then fault else
    on_mem (fun m => memset m mem 0 PGSIZE);;;
    mappages pgdir 0 PGSIZE (V2P mem) (Z.lor PTE_W PTE_U);;;
    on_mem (fun m => memmove m mem init sz).

(** The loop of [loaduvm]; [readi dst off n] is [readi] on the file. *)
Fixpoint loaduvm_from (readi : Z -> Z -> Z -> M kmem Z) (fuel : nat)
    (pgdir addr offset sz i : Z) : M kmem Z :=
  match fuel with
  | O => fault
  | S fuel =>
      if i <? sz then
        let! pte := walkpgdir pgdir (u32 (addr + i)) false in
        if pte =? 0 then panic "loaduvm: address should exist"
        else
          let! e := ldw pte in
          let n := if sz - i <? PGSIZE then sz - i else PGSIZE in
          let! r := readi (P2V (PTE_ADDR e)) (u32 (offset + i)) n in
          if r =? n then loaduvm_from readi fuel pgdir addr offset sz (u32 (i + PGSIZE)) else ret (-1)
      else ret 0
  end.
Definition loaduvm (readi : Z -> Z -> Z -> M kmem Z) (pgdir addr offset sz : Z) : M kmem Z :=
  if negb (addr mod PGSIZE =? 0) then panic "loaduvm: addr must be page aligned"
  else loaduvm_from readi (S (Z.to_nat (sz / PGSIZE + 1))) pgdir addr offset sz 0.

(** The loop of [allocuvm]. *)
Fixpoint allocuvm_from (fuel : nat) (pgdir oldsz newsz a : Z) : M kmem Z :=
  match fuel with
  | O => fault
  | S fuel =>
      if a <? newsz then
        let! mem := kalloc in
        if mem =? 0 then deallocuvm pgdir newsz oldsz;;; ret 0
        else
          on_mem (fun m => memset m mem 0 PGSIZE);;;
          let! r := mappages pgdir a PGSIZE (V2P mem) (Z.lor PTE_W PTE_U) in
          if r <? 0 then deallocuvm pgdir newsz oldsz;;; kfree end_ mem;;; ret 0
          else allocuvm_from fuel pgdir oldsz newsz (u32 (a + PGSIZE))
      else ret newsz
  end.
Definition allocuvm (pgdir oldsz newsz : Z) : M kmem Z :=
  if KERNBASE <=? newsz then ret 0
  else if newsz <? oldsz then ret oldsz
  else
    let a := PGROUNDUP oldsz in
    allocuvm_from (S (Z.to_nat ((newsz - a) / PGSIZE + 1))) pgdir oldsz newsz a.

Definition clearpteu (pgdir uva : Z) : M kmem unit :=
  let! pte := walkpgdir pgdir uva false in
  if pte =? 0 then panic "clearpteu"
  else
    let! e := ldw pte in
    stw pte (Z.land e (Z.lnot PTE_U)).

(** The loop of [copyuvm]. *)
Fixpoint copyuvm_from (fuel : nat) (pgdir d sz i : Z) : M kmem Z :=
  match fuel with
  | O => fault
  | S fuel =>
      if i <? sz then
        let! pte := walkpgdir pgdir i false in
        if pte =? 0 then panic "copyuvm: pte should exist"
        else
          let! e := ldw pte in
          if negb (bit e PTE_P) then panic "copyuvm: page not present"
          else
            let pa := PTE_ADDR e in
            let flags := PTE_FLAGS e in
            let! mem := kalloc in
            if mem =? 0 then freevm d;;; ret 0
            else
              on_mem (fun m => memmove m mem (P2V pa) PGSIZE);;;
              let! r := mappages d i PGSIZE (V2P mem) flags in
              if r <? 0 then kfree end_ mem;;; freevm d;;; ret 0
              else copyuvm_from fuel pgdir d sz (u32 (i + PGSIZE))
      else ret d
  end.
Definition copyuvm (pgdir sz : Z) : M kmem Z :=
  let! d := setupkvm in
  if d =? 0 then ret 0
  else copyuvm_from (S (Z.to_nat (sz / PGSIZE + 1))) pgdir d sz 0.

Definition uva2ka (pgdir uva : Z) : M kmem Z :=
  let! pte := walkpgdir pgdir uva false in
  let! e := ldw pte in
  if negb (bit e PTE_P) then ret 0
  else if negb (bit e PTE_U) then ret 0
  else ret (P2V (PTE_ADDR e)).

(** The loop of [copyout]. *)
Fixpoint copyout_from (fuel : nat) (pgdir va buf len : Z) : M kmem Z :=
  match fuel with
  | O => fault
  | S fuel =>
      if 0 <? len then
        let va0 := PGROUNDDOWN va in
        let! pa0 := uva2ka pgdir va0 in
        if pa0 =? 0 then ret (-1)
        else
          let n := PGSIZE - (va - va0) in
          let n := if len <? n then len else n in
          on_mem (fun m => memmove m (pa0 + (va - va0)) buf n);;;
          copyout_from fuel pgdir (u32 (va0 + PGSIZE)) (buf + n) (len - n)
      else ret 0
  end.
Definition copyout (pgdir va p len : Z) : M kmem Z :=
  copyout_from (S (Z.to_nat (len / PGSIZE + 2))) pgdir va p len.

(** [mprotect] and [munprotect]: [sz] and [pgdir] are those of [myproc()].
    The loops step by bytes; the products and sums are 32-bit. *)
Definition protect_one (f : Z -> Z) (pgdir : Z) (i : Z) : M kmem unit :=
  let! page := walkpgdir pgdir (u32 i) false in
  let! e := ldw page in
  stw page (f e).

Definition mprotect (sz pgdir addr len : Z) : M kmem Z :=
  if (len <=? 0) || (sz <? u32 (addr + i32 (len * PGSIZE))) then ret (-1)
  else if negb (addr mod PGSIZE =? 0) then ret (-1)
  else
    let limit := i32 (i32 (len * PGSIZE) + i32 addr) in
    for_loop (Z.to_nat (limit - i32 addr)) (i32 addr)
      (protect_one (fun e => Z.land e (Z.lnot PTE_W)) pgdir);;;
    ret 0.

Definition munprotect (sz pgdir addr len : Z) : M kmem Z :=
  if (len <=? 0) || (sz <? u32 (i32 (i32 addr + i32 (len * PGSIZE)))) then ret (-1)
  else if negb (addr mod PGSIZE =? 0) then ret (-1)
  else
    let limit := i32 (i32 (len * PGSIZE) + i32 addr) in
    for_loop (Z.to_nat (limit - i32 addr)) (i32 addr)
      (protect_one (fun e => Z.lor e PTE_W) pgdir);;;
    ret 0.
End vm.

(** ** The shape of a page table *)

(** A page the kernel can reach. *)
Definition kpage (p : Z) : Prop := p mod PGSIZE = 0 /\ KERNBASE <= p < KERNBASE + PHYSTOP.

Definition pde_of (pt : Z) : Z := Z.lor (Z.lor (Z.lor (V2P pt) PTE_P) PTE_W) PTE_U.

(** The directory at [pgdir] has the page tables [T], by directory index. *)
Record pgt (m : mem) (pgdir : Z) (T : gmap Z Z) : Prop := {
  pgt_dir : kpage pgdir;
  pgt_pde : forall i, 0 <= i < NPDENTRIES ->
    match T !! i with
    | Some pt => ld32 m (pgdir + 4 * i) = pde_of pt
    | None => bit (ld32 m (pgdir + 4 * i)) PTE_P = false
    end;
  pgt_tab : forall i pt, T !! i = Some pt -> 0 <= i < NPDENTRIES /\ kpage pt /\ pt <> pgdir;
  pgt_inj : forall i j pt, T !! i = Some pt -> T !! j = Some pt -> i = j
}.

(** The address of the entry for [va], 0 when there is no table for it; and
    the entry. *)
Definition slot (T : gmap Z Z) (va : Z) : Z :=
  match T !! PDX va with Some pt => pt + 4 * PTX va | None => 0 end.
Definition pte (m : mem) (T : gmap Z Z) (va : Z) : option Z :=
  match T !! PDX va with Some pt => Some (ld32 m (pt + 4 * PTX va)) | None => None end.

Lemma PDX_range va : 0 <= PDX va < NPDENTRIES.
Proof. rewrite PDX_spec. unfold NPDENTRIES. change (2 ^ 22) with 4194304. wrap_lia. Qed.

Lemma PTX_range va : 0 <= PTX va < NPTENTRIES.
Proof. rewrite PTX_spec. unfold NPTENTRIES. change (2 ^ 10) with 1024. wrap_lia. Qed.

Lemma kpage_u32 p : kpage p -> is_u32 p /\ V2P p = p - KERNBASE /\ P2V (V2P p) = p.
Proof.
  intros [Hal Hr]. unfold P2V, V2P, KERNBASE, PHYSTOP, PGSIZE in *. split_and!; wrap_lia.
Qed.

Lemma pde_of_spec pt :
  kpage pt -> bit (pde_of pt) PTE_P = true /\ PTE_ADDR (pde_of pt) = V2P pt.
Proof.
  intros Hp. destruct (kpage_u32 pt Hp) as (Hu & Hv & _). destruct Hp as [Hal Hr].
  unfold pde_of. rewrite <- !Z.lor_assoc. change (Z.lor PTE_P (Z.lor PTE_W PTE_U)) with 7.
  destruct (PTE_split (V2P pt) 7) as (Hor & Ha & Hf).
  - rewrite Hv. unfold KERNBASE, PHYSTOP in *. wrap_lia.
  - rewrite Hv. unfold KERNBASE, PHYSTOP, PGSIZE in *. Z.div_mod_to_equations. lia.
  - by vm_compute.
  - split; [|done]. unfold bit.
    replace (Z.land (Z.lor (V2P pt) 7) PTE_P) with 1; [done|].
    rewrite Z.land_lor_distr_l. change (Z.land 7 PTE_P) with 1.
    assert (Z.land (V2P pt) PTE_P = 0) as ->; [|done].
    change PTE_P with (Z.ones 1). rewrite Z.land_ones by done. change (2 ^ 1) with 2.
    rewrite Hv. unfold KERNBASE, PHYSTOP, PGSIZE in *. Z.div_mod_to_equations. lia.
Qed.

Lemma ldw_run a s : a <> 0 -> ldw a s = Done (ld32 (k_mem s) a, s).
Proof. intros. unfold ldw. by rewrite (proj2 (Z.eqb_neq _ _)). Qed.

Definition with_mem (m : mem) (s : kmem) : kmem := set_free m (freelist s) s.

Lemma stw_run a v s : a <> 0 -> stw a v s = Done (tt, with_mem (st32 (k_mem s) a v) s).
Proof. intros. unfold stw. by rewrite (proj2 (Z.eqb_neq _ _)). Qed.

Section tables.
Context (m : mem) (pgdir : Z) (T : gmap Z Z) (Ht : pgt m pgdir T).

Lemma walk_run va s :
  k_mem s = m -> walkpgdir pgdir va false s = Done (slot T va, s).
Proof.
  intros Hm. unfold walkpgdir, slot. pose proof (PDX_range va) as Hd.
  assert (pgdir + 4 * PDX va <> 0).
  { destruct (pgt_dir _ _ _ Ht) as [_ ?]. unfold KERNBASE in *. lia. }
  erewrite bind_done by (by apply ldw_run). rewrite Hm.
  pose proof (pgt_pde _ _ _ Ht _ Hd) as He. destruct (T !! PDX va) as [pt|] eqn:Hpt.
  - destruct (pgt_tab _ _ _ Ht _ _ Hpt) as (_ & Hk & _).
    destruct (pde_of_spec pt Hk) as [Hb Ha]. rewrite He, Hb, Ha.
    destruct (kpage_u32 pt Hk) as (_ & _ & ->). done.
  - by rewrite He.
Qed.

Lemma slot_nonzero va : pte m T va <> None -> slot T va <> 0.
Proof.
  unfold pte, slot. destruct (T !! PDX va) as [pt|] eqn:Hpt; [|done]. intros _.
  destruct (pgt_tab _ _ _ Ht _ _ Hpt) as (_ & [_ ?] & _). pose proof (PTX_range va).
  unfold KERNBASE in *. lia.
Qed.

Lemma slot_in_table va pt : T !! PDX va = Some pt -> pt <= slot T va <= pt + PGSIZE - 4.
Proof.
  intros Hpt. unfold slot. rewrite Hpt. pose proof (PTX_range va). unfold PGSIZE, NPTENTRIES in *. lia.
Qed.

(** Entries of different pages are different words. *)
Lemma slot_apart va va' :
  is_u32 va -> is_u32 va' -> pte m T va <> None -> pte m T va' <> None ->
  PGROUNDDOWN va <> PGROUNDDOWN va' -> slot T va + 4 <= slot T va' \/ slot T va' + 4 <= slot T va.
Proof.
  intros Hu Hu' H1 H2 Hne. unfold pte, slot in *.
  destruct (T !! PDX va) as [pt|] eqn:Hpt; [|done].
  destruct (T !! PDX va') as [pt'|] eqn:Hpt'; [|done].
  destruct (pgt_tab _ _ _ Ht _ _ Hpt) as (_ & [Ha _] & _).
  destruct (pgt_tab _ _ _ Ht _ _ Hpt') as (_ & [Ha' _] & _).
  pose proof (PTX_range va). pose proof (PTX_range va'). unfold NPTENTRIES, PGSIZE in *.
  destruct (Z.eq_dec pt pt') as [<-|Hpne].
  - assert (PDX va = PDX va') as Hd by (by eapply pgt_inj).
    assert (PTX va <> PTX va'); [|lia]. intros Htx. apply Hne.
    rewrite !PGROUNDDOWN_spec by done. rewrite !PDX_spec in Hd. rewrite !PTX_spec in Htx.
    unfold PGSIZE. change (2 ^ 22) with 4194304 in *. change (2 ^ 12) with 4096 in *.
    change (2 ^ 10) with 1024 in *. wrap_lia.
  - Z.div_mod_to_equations. lia.
Qed.

(** Writing an entry keeps the directory. *)
Lemma pgt_store va v : pte m T va <> None -> pgt (st32 m (slot T va) v) pgdir T.
Proof.
  intros Hp. destruct Ht as [Hdir Hpde Htab Hinj]. split; [done| |done|done].
  intros i Hi. replace (ld32 (st32 m (slot T va) v) (pgdir + 4 * i)) with (ld32 m (pgdir + 4 * i));
    [by apply Hpde|].
  unfold pte in Hp. destruct (T !! PDX va) as [pt|] eqn:Hpt; [|done].
  pose proof (slot_in_table va pt Hpt). destruct (Htab _ _ Hpt) as (_ & [Ha Hr] & Hne).
  apply ld32_ext. intros b Hb. symmetry. apply ld_st32. destruct Hdir as [Hda Hdr].
  unfold PGSIZE, NPDENTRIES in *. Z.div_mod_to_equations. lia.
Qed.
End tables.

Lemma pgt_ext m m' pgdir T :
  (forall a, in_page pgdir a -> ld m' a = ld m a) -> pgt m pgdir T -> pgt m' pgdir T.
Proof.
  intros He [Hdir Hpde Htab Hinj]. split; [done| |done|done]. intros i Hi.
  replace (ld32 m' (pgdir + 4 * i)) with (ld32 m (pgdir + 4 * i)); [by apply Hpde|].
  apply ld32_ext. intros b Hb. symmetry. apply He. unfold in_page, PGSIZE, NPDENTRIES in *. lia.
Qed.

Lemma slot_same va va' :
  is_u32 va -> is_u32 va' -> PGROUNDDOWN va = PGROUNDDOWN va' ->
  PDX va = PDX va' /\ PTX va = PTX va'.
Proof.
  intros Hu Hu'. rewrite !PGROUNDDOWN_spec by done. rewrite !PDX_spec, !PTX_spec. unfold PGSIZE.
  change (2 ^ 22) with 4194304 in *. change (2 ^ 12) with 4096 in *.
  change (2 ^ 10) with 1024 in *. intros. split; wrap_lia.
Qed.

(** Writing the entry of [va] changes the entry of its page only. *)
Lemma pte_store m pgdir T va va' v :
  pgt m pgdir T -> is_u32 va -> is_u32 va' -> pte m T va <> None ->
  pte (st32 m (slot T va) v) T va'
  = if decide (PGROUNDDOWN va' = PGROUNDDOWN va) then Some (u32 v) else pte m T va'.
Proof.
  intros Ht Hu Hu' Hp. case_decide as Heq.
  - destruct (slot_same va' va) as [Hd Hx]; [done..|]. unfold pte, slot in *.
    rewrite Hd, Hx. destruct (T !! PDX va); [|done]. by rewrite ld32_st32.
  - destruct (pte m T va') as [e|] eqn:Hpv.
    + assert (pte m T va' <> None) as Hp' by congruence.
      pose proof (slot_apart m pgdir T Ht va va' Hu Hu' Hp Hp' ltac:(congruence)) as Hap.
      rewrite <- Hpv. unfold pte, slot in *. destruct (T !! PDX va'); [|done]. f_equal.
      apply ld32_ext. intros b Hb. apply ld_st32. lia.
    + unfold pte in *. by destruct (T !! PDX va').
Qed.

(** An update of an entry that is idempotent on words. *)
Definition idem32 (f : Z -> Z) : Prop := forall e, u32 (f (u32 (f e))) = u32 (f e).

(** The pages whose entry the loop has changed when it is at address [j]. *)
Definition changed (f : Z -> Z) (m m' : mem) (T : gmap Z Z) (addr j : Z) : Prop :=
  (forall va, is_u32 va ->
     pte m' T va = if decide (addr <= PGROUNDDOWN va < j)
                   then (fun e => u32 (f e)) <$> pte m T va else pte m T va) /\
  (forall a, (forall va, addr <= va < j -> ~ (slot T va <= a < slot T va + 4)) ->
     ld m' a = ld m a).

Section protect.
Context (f : Z -> Z) (Hf : idem32 f) (m : mem) (pgdir : Z) (T : gmap Z Z).
Context (addr n : Z) (Hal : addr mod PGSIZE = 0) (Hlo : 0 <= addr) (Hhi : addr + n <= 2 ^ 31).
Context (Hmap : forall va, addr <= va < addr + n -> pte m T va <> None).

Lemma pte_some_iff m' va : pte m' T va <> None <-> pte m T va <> None.
Proof. unfold pte. by destruct (T !! PDX va). Qed.

Lemma protect_one_wp j s :
  addr <= j < addr + n -> pgt (k_mem s) pgdir T -> changed f m (k_mem s) T addr j ->
  wp (protect_one f pgdir j) (fun _ s' => s' = with_mem (k_mem s') s /\
    pgt (k_mem s') pgdir T /\ changed f m (k_mem s') T addr (j + 1)) s.
Proof.
  intros Hj Ht [Hpte Hout]. unfold protect_one.
  assert (is_u32 j) as Hu by wrap_lia. rewrite u32_small by done.
  assert (pte (k_mem s) T j <> None) as Hsome by (apply pte_some_iff; auto).
  pose proof (slot_nonzero _ _ _ Ht j Hsome) as Hnz.
  wp_run. eapply wp_intro; [by apply (walk_run _ _ _ Ht)|].
  wp_run. eapply wp_intro; [by apply ldw_run|].
  eapply wp_intro; [by apply stw_run|]. split; [done|].
  split; [by apply pgt_store|]. split.
  - intros va Hva. cbn [k_mem with_mem set_free]. rewrite (pte_store _ pgdir) by done.
    rewrite !PGROUNDDOWN_spec by done. pose proof (Hpte j Hu) as Hj0.
    rewrite PGROUNDDOWN_spec in Hj0 by done. pose proof (Hpte va Hva) as Hv0.
    rewrite PGROUNDDOWN_spec in Hv0 by done.
    destruct (decide (va - va mod PGSIZE = j - j mod PGSIZE)) as [Heq|Heq].
    + rewrite decide_True by (unfold PGSIZE in *; Z.div_mod_to_equations; lia).
      destruct (slot_same va j) as [Hd Hx]; [done..|by rewrite !PGROUNDDOWN_spec|].
      unfold pte, slot in *. rewrite Hd, Hx in *. destruct (T !! PDX j) as [pt|]; [|done].
      destruct (decide (addr <= j - _ < j)); cbn [fmap option_fmap option_map] in *;
        injection Hj0 as ->; [|done].
      by rewrite Hf.
    + rewrite Hv0. unfold PGSIZE in *.
      repeat case_decide; try done; exfalso; Z.div_mod_to_equations; lia.
  - intros a Ha. cbn [k_mem with_mem set_free]. rewrite ld_st32 by (apply Ha; lia).
    apply Hout. intros va Hva. apply Ha. lia.
Qed.

Lemma protect_loop_wp s :
  0 <= n -> pgt m pgdir T -> k_mem s = m ->
  wp (for_loop (Z.to_nat n) addr (protect_one f pgdir)) (fun _ s' =>
    s' = with_mem (k_mem s') s /\ pgt (k_mem s') pgdir T /\
    changed f m (k_mem s') T addr (addr + n)) s.
Proof.
  intros Hn Ht Hm.
  set (I := fun (j : Z) (s' : kmem) => s' = with_mem (k_mem s') s /\
    pgt (k_mem s') pgdir T /\ changed f m (k_mem s') T addr j).
  eapply wp_mono; [apply (wp_for I)|].
  - intros j s1 Hj (Hs1 & Ht1 & Hc1). eapply wp_mono; [apply protect_one_wp; [lia|done..]|].
    intros [] s2 (Hs2 & Ht2 & Hc2). split_and!; [|done..]. rewrite Hs2, Hs1. done.
  - unfold I. rewrite Hm. split_and!; [by destruct s; cbn in *; subst|done|]. split; [|done].
    intros va Hva. by rewrite decide_False by lia.
  - intros [] s'. by rewrite Z2Nat.id.
Qed.
End protect.

Lemma idem32_clear_w : idem32 (fun e => Z.land e (Z.lnot PTE_W)).
Proof.
  intros e. unfold u32. rewrite <- !Z.land_ones by done.
  apply Z.bits_inj'. intros i Hi. rewrite !Z.land_spec.
  by destruct (Z.testbit e i), (Z.testbit (Z.lnot PTE_W) i), (Z.testbit (Z.ones 32) i).
Qed.

Lemma idem32_set_w : idem32 (fun e => Z.lor e PTE_W).
Proof.
  intros e. unfold u32. rewrite <- !Z.land_ones by done.
  apply Z.bits_inj'. intros i Hi. rewrite ?Z.land_spec, ?Z.lor_spec, ?Z.land_spec, ?Z.lor_spec.
  by destruct (Z.testbit e i), (Z.testbit PTE_W i), (Z.testbit (Z.ones 32) i).
Qed.

Lemma clear_set_w e :
  is_u32 e -> u32 (Z.lor (u32 (Z.land e (Z.lnot PTE_W))) PTE_W) = Z.lor e PTE_W.
Proof.
  intros He. unfold u32. rewrite <- !Z.land_ones by done.
  apply Z.bits_inj'. intros i Hi. rewrite !Z.land_spec, !Z.lor_spec, !Z.land_spec, Z.lnot_spec by done.
  rewrite !Z.testbit_ones_nonneg by lia. destruct (Z.ltb_spec i 32) as [Hlt|Hge].
  - by destruct (Z.testbit e i), (Z.testbit PTE_W i).
  - rewrite andb_false_r. rewrite (Z.bits_above_log2 PTE_W i)
      by (first [done | change (Z.log2 PTE_W) with 1; lia]).
    destruct (Z.eq_dec e 0) as [->|Hne]; [by rewrite Z.bits_0|].
    rewrite (Z.bits_above_log2 e i); [done|wrap_lia|].
    apply Z.lt_le_trans with 32; [|done]. apply Z.log2_lt_pow2; wrap_lia.
Qed.

(** Property C35: [mprotect] on a page-aligned range of mapped pages inside the
    process returns 0, clears the write bit in the entry of exactly the [len]
    pages of the range, leaves the entry of every other page as it is, and
    writes no memory but those entries. *)
Theorem mprotect_exact m pgdir T sz addr len s :
  pgt m pgdir T -> k_mem s = m -> sz < KERNBASE -> 0 <= addr -> addr mod PGSIZE = 0 ->
  0 < len -> addr + len * PGSIZE <= sz ->
  (forall va, addr <= va < addr + len * PGSIZE -> pte m T va <> None) ->
  exists s', mprotect sz pgdir addr len s = Done (0, s') /\ pgt (k_mem s') pgdir T /\
    freelist s' = freelist s /\
    (forall va, is_u32 va ->
       pte (k_mem s') T va
       = if decide (addr <= PGROUNDDOWN va < addr + len * PGSIZE)
         then (fun e => u32 (Z.land e (Z.lnot PTE_W))) <$> pte m T va else pte m T va) /\
    (forall a, (forall va, addr <= va < addr + len * PGSIZE -> ~ (slot T va <= a < slot T va + 4)) ->
       ld (k_mem s') a = ld m a).
Proof.
  intros Ht Hm Hsz Hlo Hal Hlen Hin Hmap.
  assert (addr + len * PGSIZE <= 2 ^ 31) as Hhi by (unfold KERNBASE in *; lia).
  assert (i32 (len * PGSIZE) = len * PGSIZE /\ i32 addr = addr /\
    u32 (addr + len * PGSIZE) = addr + len * PGSIZE /\
    i32 (len * PGSIZE + addr) = len * PGSIZE + addr) as (E1 & E2 & E3 & E4)
    by (unfold PGSIZE, KERNBASE in *; split_and!; wrap_lia).
  unfold mprotect. rewrite E1, E2, E3, E4.
  rewrite (proj2 (Z.leb_gt len 0)), (proj2 (Z.ltb_ge sz _)), Hal by lia. cbn [orb Z.eqb negb].
  replace (len * PGSIZE + addr - addr) with (len * PGSIZE) by lia.
  destruct (wp_returns _ _ _ (protect_loop_wp _ idem32_clear_w m pgdir T addr (len * PGSIZE)
    Hal Hlo Hhi Hmap s ltac:(unfold PGSIZE; lia) Ht Hm)) as ([] & s' & Hrun & Hs' & Ht' & Hc & Hout).
  erewrite bind_done by exact Hrun. exists s'. split_and!; [done..|by rewrite Hs'|done|done].
Qed.

(** [munprotect] undoes [mprotect]. On a range of mapped pages the
    two calls return 0, and then the write bit is set in the entries of exactly
    the pages of the range: a page that was writable before is as it was. *)
Theorem munprotect_mprotect m pgdir T sz addr len s :
  pgt m pgdir T -> k_mem s = m -> sz < KERNBASE -> 0 <= addr -> addr mod PGSIZE = 0 ->
  0 < len -> addr + len * PGSIZE <= sz ->
  (forall va, addr <= va < addr + len * PGSIZE -> pte m T va <> None) ->
  exists s', (mprotect sz pgdir addr len;;; munprotect sz pgdir addr len) s = Done (0, s') /\
    pgt (k_mem s') pgdir T /\
    forall va e, is_u32 va -> pte m T va = Some e -> is_u32 e ->
      pte (k_mem s') T va
      = if decide (addr <= PGROUNDDOWN va < addr + len * PGSIZE)
        then Some (Z.lor e PTE_W) else Some e.
Proof.
  intros Ht Hm Hsz Hlo Hal Hlen Hin Hmap.
  assert (addr + len * PGSIZE <= 2 ^ 31) as Hhi by (unfold KERNBASE in *; lia).
  assert (i32 (len * PGSIZE) = len * PGSIZE /\ i32 addr = addr /\
    u32 (addr + len * PGSIZE) = addr + len * PGSIZE /\
    i32 (len * PGSIZE + addr) = len * PGSIZE + addr /\
    u32 (i32 (addr + len * PGSIZE)) = addr + len * PGSIZE) as (E1 & E2 & E3 & E4 & E5)
    by (unfold PGSIZE, KERNBASE in *; split_and!; wrap_lia).
  unfold mprotect, munprotect. rewrite E1, E2, E3, E4, E5.
  rewrite (proj2 (Z.leb_gt len 0)), (proj2 (Z.ltb_ge sz _)), Hal by lia. cbn [orb Z.eqb negb].
  replace (len * PGSIZE + addr - addr) with (len * PGSIZE) by lia.
  destruct (wp_returns _ _ _ (protect_loop_wp _ idem32_clear_w m pgdir T addr (len * PGSIZE)
    Hal Hlo Hhi Hmap s ltac:(unfold PGSIZE; lia) Ht Hm)) as ([] & s1 & Hrun & Hs1 & Ht1 & Hc1 & _).
  assert (forall va, addr <= va < addr + len * PGSIZE -> pte (k_mem s1) T va <> None) as Hmap1.
  { intros va Hva. by eapply pte_some_iff, Hmap. }
  destruct (wp_returns _ _ _ (protect_loop_wp _ idem32_set_w (k_mem s1) pgdir T addr (len * PGSIZE)
    Hal Hlo Hhi Hmap1 s1 ltac:(unfold PGSIZE; lia) Ht1 eq_refl))
    as ([] & s2 & Hrun2 & Hs2 & Ht2 & Hc2 & _).
  exists s2. split; [|split; [done|]].
  { unfold bind. rewrite Hrun. cbn. by rewrite Hrun2. }
  intros va e Hva He Hue. rewrite Hc2, Hc1, He by done.
  case_decide; [|done]. cbn. f_equal. by apply clear_set_w.
Qed.

(** Property C40: the bounds check of [mprotect] overflows. With [len] equal to
    2^20 the product [len * PGSIZE] is 0 in 32 bits: the call passes the check
    and reports success whatever the size of the process, and protects
    nothing. *)
Theorem mprotect_overflow sz pgdir addr s :
  0 <= addr <= sz -> addr mod PGSIZE = 0 -> addr < 2 ^ 31 ->
  mprotect sz pgdir addr (2 ^ 20) s = Done (0, s).
Proof.
  intros Ha Hal Hlt. unfold mprotect.
  change (i32 (2 ^ 20 * PGSIZE)) with 0. change (2 ^ 20 <=? 0) with false.
  rewrite Z.add_0_r, Z.add_0_l, u32_small by wrap_lia.
  rewrite (proj2 (Z.ltb_ge sz addr)), Hal by lia. cbn [orb Z.eqb negb].
  assert (i32 (i32 addr) - i32 addr = 0) as -> by wrap_lia. done.
Qed.

(** ** [mappages] *)

(** The entry of a present page. *)
Definition mapped (m : mem) (T : gmap Z Z) (va : Z) : option Z :=
  match pte m T va with
  | Some e => if bit e PTE_P then Some e else None
  | None => None
  end.

Section mappages.
Context (end_ pgdir : Z).

(** The page tables are in memory that is not free. *)
Record vm_ok (l : list Z) (T : gmap Z Z) (s : kmem) : Prop := {
  vm_free : free_list end_ l s;
  vm_pgt : pgt (k_mem s) pgdir T;
  vm_dir : pgdir ∉ l;
  vm_tab : forall i pt, T !! i = Some pt -> pt ∉ l
}.

(** The pages that are free or hold a page table. *)
Definition pool (l : list Z) (T : gmap Z Z) : gset Z := list_to_set l ∪ map_img T.

Lemma pool_insert l T i p : T !! i = None -> pool l (<[i := p]> T) = pool (p :: l) T.
Proof. intros Hi. unfold pool. rewrite map_img_insert_notin_L by done. cbn [list_to_set]. apply set_eq. intros x. rewrite !elem_of_union. tauto. Qed.

(** Memory outside the directory and the page tables [T]. *)
Definition data_same (T : gmap Z Z) (m m' : mem) : Prop :=
  forall a, ~ in_page pgdir a -> (forall i pt, T !! i = Some pt -> ~ in_page pt a) ->
    ld m' a = ld m a.

Lemma ld32_zero m p n a :
  0 <= n -> p <= a -> a + 4 <= p + n -> ld32 (memset m p 0 n) a = 0.
Proof.
  intros Hn H1 H2.
  assert (forall b, p <= b < p + n -> ld (memset m p 0 n) b = 0) as Hz.
  { intros b Hb. unfold memset. destruct (_ && _) eqn:Hal.
    - apply andb_true_iff in Hal as [_ Hal%Z.eqb_eq].
      change (Z.land 0 0xFF) with 0. rewrite (ld_stosl _ _ _ 0) by done.
      rewrite decide_True; [done|]. rewrite Z2Nat.id by (Z.div_mod_to_equations; lia).
      Z.div_mod_to_equations. lia.
    - rewrite ld_stosb, Z2Nat.id, decide_True by lia. done. }
  unfold ld32, lds. cbn. rewrite !Hz by lia. done.
Qed.

(** The fresh table [p] for [va]: memory after it is cleared and entered. *)
Definition add_table (m : mem) (p va : Z) : mem :=
  st32 (memset m p 0 PGSIZE) (pgdir + 4 * PDX va) (pde_of p).

Lemma ld_add_table m p va a :
  ~ in_page p a -> ~ (pgdir + 4 * PDX va <= a < pgdir + 4 * PDX va + 4) ->
  ld (add_table m p va) a = ld m a.
Proof.
  intros Hp Hd. unfold add_table. rewrite ld_st32 by done.
  unfold memset. change (PGSIZE mod 4 =? 0) with true. rewrite andb_true_r.
  destruct (Z.rem _ _ =? 0).
  - rewrite (ld_stosl _ _ _ 0) by done. rewrite decide_False; [done|].
    unfold in_page, PGSIZE in *. change (Z.of_nat (Z.to_nat (4096 / 4))) with 1024. lia.
  - rewrite ld_stosb, decide_False; [done|]. unfold in_page, PGSIZE in *. lia.
Qed.

Lemma pgt_add_table m T p va :
  pgt m pgdir T -> T !! PDX va = None -> kpage p -> p <> pgdir ->
  (forall i pt, T !! i = Some pt -> pt <> p) -> pgt (add_table m p va) pgdir (<[PDX va := p]> T).
Proof.
  intros [Hdir Hpde Htab Hinj] Hnone Hp Hne Hfresh.
  pose proof (PDX_range va) as Hdx.
  split; [done| | |].
  - intros i Hi. destruct (decide (i = PDX va)) as [->|Hi'].
    + rewrite lookup_insert_eq. unfold add_table. rewrite ld32_st32. apply u32_small.
      unfold pde_of. rewrite <- !Z.lor_assoc. change (Z.lor PTE_P (Z.lor PTE_W PTE_U)) with 7.
      destruct (kpage_u32 p Hp) as (_ & Hv & _). destruct Hp as [Hal Hr].
      destruct (PTE_split (V2P p) 7) as (-> & _); rewrite ?Hv;
        unfold KERNBASE, PHYSTOP, PGSIZE in *; wrap_lia.
    + rewrite lookup_insert_ne by done.
      replace (ld32 (add_table m p va) (pgdir + 4 * i)) with (ld32 m (pgdir + 4 * i));
        [by apply Hpde|].
      apply ld32_ext. intros b Hb. symmetry. apply ld_add_table; [|lia].
      intros Hb'. destruct Hdir as [Hd1 _], Hp as [Hp1 _].
      apply (pages_apart p pgdir b b); try done.
      unfold in_page, PGSIZE, NPDENTRIES in *. lia.
  - intros i pt [[<- <-]|[_ Hi]]%lookup_insert_Some; [done|]. by apply Htab.
  - intros i j pt [[<- <-]|[Hi1 Hi]]%lookup_insert_Some [[<- ?]|[Hj1 Hj]]%lookup_insert_Some;
      try done.
    + by apply Hfresh in Hj.
    + subst. by apply Hfresh in Hi.
    + by eapply Hinj.
Qed.

Lemma pte_add_table m T p va va' :
  pgt m pgdir T -> T !! PDX va = None -> kpage p -> p <> pgdir ->
  (forall i pt, T !! i = Some pt -> pt <> p) ->
  mapped (add_table m p va) (<[PDX va := p]> T) va' = mapped m T va'.
Proof.
  intros Ht Hnone Hp Hne Hfresh. destruct (pgt_dir _ _ _ Ht) as [Hd1 Hd2].
  pose proof (PDX_range va) as Hdx. pose proof (PTX_range va') as Htx.
  unfold mapped, pte. destruct (decide (PDX va' = PDX va)) as [Heq|Hx].
  - rewrite Heq, lookup_insert_eq, Hnone.
    replace (ld32 (add_table m p va) (p + 4 * PTX va')) with 0; [done|].
    rewrite <- (ld32_zero m p PGSIZE (p + 4 * PTX va')); [|done|lia|unfold PGSIZE, NPTENTRIES in *; lia].
    apply ld32_ext. intros b Hb. symmetry. apply ld_st32. intros Hb'.
    destruct Hp as [Hp1 _]. apply (pages_apart p pgdir b b); try done;
      unfold in_page, PGSIZE, NPDENTRIES, NPTENTRIES in *; lia.
  - rewrite lookup_insert_ne by done. destruct (T !! PDX va') as [pt|] eqn:Hpt; [|done].
    replace (ld32 (add_table m p va) (pt + 4 * PTX va')) with (ld32 m (pt + 4 * PTX va')); [done|].
    destruct (pgt_tab _ _ _ Ht _ _ Hpt) as (_ & [Hpt1 _] & Hpt2).
    apply ld32_ext. intros b Hb. symmetry.
    assert (in_page pt b) by (unfold in_page, PGSIZE, NPTENTRIES in *; lia).
    apply ld_add_table.
    + intros Hb'. destruct Hp as [Hp1 _].
      apply (pages_apart p pt b b); try done. intros ->. by eapply Hfresh.
    + intros Hb'. apply (pages_apart pt pgdir b b); try done.
      unfold in_page, PGSIZE, NPDENTRIES in *. lia.
Qed.

Lemma data_same_trans T1 T2 m1 m2 m3 :
  data_same T1 m1 m2 -> T1 ⊆ T2 -> data_same T2 m2 m3 -> data_same T2 m1 m3.
Proof.
  intros H1 Hsub H2 a Ha Hb. rewrite H2, H1; [done|done| |done|done].
  intros i pt Hi. eapply Hb, lookup_weaken; done.
Qed.

(** What a walk that may allocate leaves: every mapping as it was, and a table
    for [va]; or memory is out. *)
Lemma walk_alloc_wp l T va s :
  vm_ok l T s ->
  wp (walkpgdir pgdir va true) (fun r s' => (r = 0 /\ s' = s /\ l = []) \/
    exists l' T', vm_ok l' T' s' /\ r = slot T' va /\ pte (k_mem s') T' va <> None /\ T ⊆ T' /\ pool l' T' = pool l T /\
      (forall va', mapped (k_mem s') T' va' = mapped (k_mem s) T va') /\
      data_same T' (k_mem s) (k_mem s')) s.
Proof.
  intros [Hf Ht Hdl Htl]. pose proof (PDX_range va) as Hd.
  destruct (T !! PDX va) as [pt|] eqn:Hpt.
  - assert (walkpgdir pgdir va true s = walkpgdir pgdir va false s) as Hsame.
    { unfold walkpgdir. assert (pgdir + 4 * PDX va <> 0).
      { destruct (pgt_dir _ _ _ Ht) as [_ ?]. unfold KERNBASE in *. lia. }
      rewrite !(bind_done (ldw _) _ s _ s (ldw_run _ s ltac:(done))).
      pose proof (pgt_pde _ _ _ Ht _ Hd) as He. rewrite Hpt in He. rewrite He.
      destruct (pgt_tab _ _ _ Ht _ _ Hpt) as (_ & Hk & _).
      by destruct (pde_of_spec pt Hk) as [-> _]. }
    eapply wp_intro; [rewrite Hsame; by apply (walk_run _ _ _ Ht)|]. right. exists l, T.
    split_and!; [done|done| |done|done|done|done]. unfold pte. by rewrite Hpt.
  - unfold walkpgdir. assert (pgdir + 4 * PDX va <> 0) as Hnz.
    { destruct (pgt_dir _ _ _ Ht) as [_ ?]. unfold KERNBASE in *. lia. }
    wp_run. eapply wp_intro; [by apply ldw_run|].
    pose proof (pgt_pde _ _ _ Ht _ Hd) as He. rewrite Hpt in He. rewrite He. cbn [negb]. wp_run.
    destruct (kalloc_run end_ l s Hf) as (s1 & Hrun & Hf1 & Hm1).
    eapply wp_intro; [exact Hrun|]. destruct l as [|p l]; cbn [hd tl] in *.
    { rewrite Z.eqb_refl. wp_run. left. split_and!; try done.
      destruct Hf as [Hch _ _]. cbn in Hch. unfold kalloc in Hrun. rewrite Hch in Hrun.
      by injection Hrun. }
    assert (kpage p) as Hp.
    { destruct Hf as [_ _ Hpg]. inversion Hpg as [|? ? Hp]; subst.
      destruct Hp as (? & ? & ?). by split. }
    rewrite (proj2 (Z.eqb_neq p 0)) by (destruct Hp; unfold KERNBASE in *; lia).
    unfold on_mem. wp_run. eapply wp_intro; [by apply stw_run|]. wp_run. right.
    exists l, (<[PDX va := p]> T).
    assert (p <> pgdir) as Hpd by (intros ->; apply Hdl; constructor).
    assert (forall i pt, T !! i = Some pt -> pt <> p) as Hfresh.
    { intros i pt Hi ->. apply (Htl _ _ Hi). constructor. }
    destruct Hf as [_ Hnd Hpg]. apply NoDup_cons in Hnd as [Hpl Hnd].
    cbn [k_mem with_mem set_free]. rewrite Hm1. fold (pde_of p). fold (add_table (k_mem s) p va).
    split_and!.
    + split.
      * destruct Hf1 as [Hch _ Hpg1]. split; [|done|done]. cbn [k_mem freelist with_mem set_free].
        eapply chain_ext; [|exact Hch]. rewrite Hm1. intros q a Hq Ha. symmetry.
        eapply Forall_forall in Hpg1 as (Hqa & _); [|exact Hq].
        destruct Hp as [Hpa _]. apply ld_add_table.
        -- intros Ha'. apply (pages_apart q p a a); try done. by intros ->.
        -- intros Ha'. destruct (pgt_dir _ _ _ Ht) as [Hda _].
           apply (pages_apart q pgdir a a); try done.
           ++ intros ->. apply Hdl. by constructor.
           ++ unfold in_page, PGSIZE, NPDENTRIES in *. lia.
      * by apply pgt_add_table.
      * intros Hin. apply Hdl. by constructor.
      * intros i pt [[<- <-]|[_ Hi]]%lookup_insert_Some; [done|].
        intros Hin. apply (Htl _ _ Hi). by constructor.
    + unfold slot. by rewrite lookup_insert_eq.
    + unfold pte. by rewrite lookup_insert_eq.
    + by apply insert_subseteq.
    + by apply pool_insert.
    + intros va'. by apply pte_add_table.
    + intros a Ha Hb. apply ld_add_table.
      * apply (Hb (PDX va)). by rewrite lookup_insert_eq.
      * intros Ha'. apply Ha. unfold in_page, PGSIZE, NPDENTRIES in *. lia.
Qed.

(** Filling the entry of a page of which the table exists. *)
Lemma vm_ok_store l T va v s :
  vm_ok l T s -> is_u32 va -> pte (k_mem s) T va <> None ->
  vm_ok l T (with_mem (st32 (k_mem s) (slot T va) v) s) /\
  data_same T (k_mem s) (st32 (k_mem s) (slot T va) v).
Proof.
  intros [Hf Ht Hdl Htl] Hu Hp.
  destruct (T !! PDX va) as [pt|] eqn:Hpt; [|unfold pte in Hp; by rewrite Hpt in Hp].
  pose proof (slot_in_table T va pt Hpt) as Hsl.
  destruct (pgt_tab _ _ _ Ht _ _ Hpt) as (_ & [Hpta _] & _).
  split.
  - split; [|by apply pgt_store|done|done].
    destruct Hf as [Hch Hnd Hpg]. split; [|done|done]. cbn [k_mem freelist with_mem set_free].
    eapply chain_ext; [|exact Hch]. intros q a Hq Ha. symmetry. apply ld_st32. intros Ha'.
    eapply Forall_forall in Hpg as (Hqa & _); [|exact Hq].
    apply (pages_apart q pt a a); try done.
    + intros ->. by apply (Htl _ _ Hpt).
    + unfold in_page, PGSIZE in *. lia.
  - intros a Ha Hb. apply ld_st32. intros Ha'. apply (Hb _ _ Hpt).
    unfold in_page, PGSIZE in *. lia.
Qed.

(** The [k + 1] pages from [a] on, mapped to the frames from [pa] on. *)
Definition maps_to (m : mem) (T : gmap Z Z) (m' : mem) (T' : gmap Z Z) (a : Z) (k : nat)
    (pa perm : Z) : Prop :=
  forall va, is_u32 va -> va mod PGSIZE = 0 ->
    mapped m' T' va
    = if decide (a <= va <= a + Z.of_nat k * PGSIZE)
      then Some (u32 (Z.lor (Z.lor (u32 (pa + (va - a))) perm) PTE_P)) else mapped m T va.

(** The same for the first [j] pages only, as a failure leaves it. *)
Definition maps_first (m : mem) (T : gmap Z Z) (m' : mem) (T' : gmap Z Z) (a : Z) (j : nat)
    (pa perm : Z) : Prop :=
  forall va, is_u32 va -> va mod PGSIZE = 0 ->
    mapped m' T' va
    = if decide (a <= va < a + Z.of_nat j * PGSIZE)
      then Some (u32 (Z.lor (Z.lor (u32 (pa + (va - a))) perm) PTE_P)) else mapped m T va.

Lemma bit_present x : bit (u32 (Z.lor x PTE_P)) PTE_P = true.
Proof.
  unfold bit, u32. rewrite <- Z.land_ones by done.
  destruct (Z.eqb_spec (Z.land (Z.land (Z.lor x PTE_P) (Z.ones 32)) PTE_P) 0) as [He|]; [|done].
  exfalso. apply (f_equal (fun z => Z.testbit z 0)) in He.
  rewrite !Z.land_spec, Z.lor_spec in He. change (Z.testbit PTE_P 0) with true in He.
  rewrite orb_true_r in He. done.
Qed.

(** One round of the loop, with the rest of the loop as [K]. *)
Lemma map_one_wp l T s a pa perm (K : M kmem Z) Q :
  vm_ok l T s -> is_u32 a -> a mod PGSIZE = 0 -> mapped (k_mem s) T a = None -> is_u32 pa ->
  (l = [] -> Q (-1) s) ->
  (forall l' T' s', vm_ok l' T' s' -> T ⊆ T' -> pool l' T' = pool l T -> data_same T' (k_mem s) (k_mem s') ->
     maps_to (k_mem s) T (k_mem s') T' a 0 pa perm -> wp K Q s') ->
  wp (let! pte := walkpgdir pgdir a true in
      if pte =? 0 then ret (-1)
      else
        let! e := ldw pte in
        if bit e PTE_P then panic "remap"
        else stw pte (Z.lor (Z.lor pa perm) PTE_P);;; K) Q s.
Proof.
  intros Hvm Hu Hal Hnone Hpa Hfail HK. wp_run. eapply wp_mono; [by eapply walk_alloc_wp|].
  intros r s1 [(-> & -> & ->)|(l1 & T1 & Hvm1 & -> & Hp1 & Hsub1 & Hpool1 & Hmap1 & Hds1)].
  { rewrite Z.eqb_refl. by apply Hfail. }
  pose proof (slot_nonzero _ _ _ (vm_pgt _ _ _ Hvm1) a Hp1) as Hnz.
  rewrite (proj2 (Z.eqb_neq _ _)) by done. wp_run. eapply wp_intro; [by apply ldw_run|].
  assert (bit (ld32 (k_mem s1) (slot T1 a)) PTE_P = false) as ->.
  { rewrite <- Hmap1 in Hnone. unfold mapped, pte, slot in *.
    destruct (T1 !! PDX a); [|done]. by destruct (bit _ _). }
  wp_run. eapply wp_intro; [by apply stw_run|].
  destruct (vm_ok_store l1 T1 a (Z.lor (Z.lor pa perm) PTE_P) s1) as [Hvm2 Hds2]; [done..|].
  eapply HK; [exact Hvm2|done|done|by eapply data_same_trans|].
  intros va Hva Hvaal. cbn [k_mem with_mem set_free]. unfold mapped at 1.
  rewrite (pte_store _ pgdir) by (done || apply Hvm1).
  rewrite !PGROUNDDOWN_spec, Hal, Hvaal, !Z.sub_0_r by done.
  destruct (decide (va = a)) as [->|Hne].
  - rewrite decide_True, Z.sub_diag, Z.add_0_r, (u32_small pa) by (lia || done).
    by rewrite bit_present.
  - rewrite decide_False by lia. apply Hmap1.
Qed.

Lemma maps_to_app m T m1 T1 m2 T2 a k pa perm :
  a mod PGSIZE = 0 -> maps_to m T m1 T1 a 0 pa perm ->
  maps_to m1 T1 m2 T2 (a + PGSIZE) k (u32 (pa + PGSIZE)) perm ->
  maps_to m T m2 T2 a (S k) pa perm.
Proof.
  intros Ha H1 H2 va Hu Hal. rewrite H2, H1 by done. unfold PGSIZE in *.
  destruct (decide (a + 4096 <= va <= _)).
  - rewrite decide_True by lia. autorewrite with wrap. do 4 f_equal. wrap_lia.
  - destruct (decide (a <= va <= a + Z.of_nat 0 * 4096)).
    + rewrite decide_True by lia. done.
    + rewrite decide_False; [done|]. Z.div_mod_to_equations. lia.
Qed.

Lemma maps_first_0 m T a pa perm : maps_first m T m T a 0 pa perm.
Proof. intros va _ _. rewrite decide_False by lia. done. Qed.

Lemma maps_first_S m T m1 T1 m2 T2 a j pa perm :
  a mod PGSIZE = 0 -> maps_to m T m1 T1 a 0 pa perm ->
  maps_first m1 T1 m2 T2 (a + PGSIZE) j (u32 (pa + PGSIZE)) perm ->
  maps_first m T m2 T2 a (S j) pa perm.
Proof.
  intros Ha H1 H2 va Hu Hal. rewrite H2, H1 by done. unfold PGSIZE in *.
  destruct (decide (a + 4096 <= va < _)).
  - rewrite decide_True by lia. autorewrite with wrap. do 4 f_equal. wrap_lia.
  - destruct (decide (a <= va <= a + Z.of_nat 0 * 4096)).
    + rewrite decide_True by lia. done.
    + rewrite decide_False; [done|]. Z.div_mod_to_equations. lia.
Qed.

Lemma mappages_from_wp k fuel l T s a pa perm :
  vm_ok l T s -> is_u32 a -> a mod PGSIZE = 0 -> a + Z.of_nat k * PGSIZE < 2 ^ 32 ->
  is_u32 pa -> (k < fuel)%nat ->
  (forall va, is_u32 va -> va mod PGSIZE = 0 -> a <= va <= a + Z.of_nat k * PGSIZE ->
     mapped (k_mem s) T va = None) ->
  wp (mappages_from fuel pgdir a (a + Z.of_nat k * PGSIZE) pa perm) (fun r s' =>
    exists l' T', vm_ok l' T' s' /\ T ⊆ T' /\ pool l' T' = pool l T /\ data_same T' (k_mem s) (k_mem s') /\
      (r = -1 /\ l' = [] /\ (exists j, (j <= k)%nat /\ maps_first (k_mem s) T (k_mem s') T' a j pa perm) \/
       r = 0 /\ maps_to (k_mem s) T (k_mem s') T' a k pa perm)) s.
Proof.
  revert fuel l T s a pa. induction k as [|k IH];
    intros [|fuel] l T s a pa Hvm Hu Hal Hend Hpa Hf Hfree; try lia; cbn [mappages_from].
  - eapply map_one_wp; try done.
    + apply Hfree; [done..|lia].
    + intros ->. exists [], T. split_and!; [done|done|done|by intros ??|left]. split_and!; [done..|].
      exists 0%nat. split; [lia|apply maps_first_0].
    + intros l' T' s' Hvm' Hsub Hpool Hds Hmap. rewrite Z.mul_0_l, Z.add_0_r, Z.eqb_refl. wp_run.
      exists l', T'. split_and!; [done..|by right].
  - eapply map_one_wp; try done.
    + apply Hfree; [done..|unfold PGSIZE in *; lia].
    + intros ->. exists [], T. split_and!; [done|done|done|by intros ??|left]. split_and!; [done..|].
      exists 0%nat. split; [lia|apply maps_first_0].
    + intros l1 T1 s1 Hvm1 Hsub1 Hpool1 Hds1 Hmap1.
      rewrite (proj2 (Z.eqb_neq _ _)) by (unfold PGSIZE in *; lia).
      rewrite (u32_small (a + PGSIZE)) by (unfold PGSIZE in *; wrap_lia).
      replace (a + Z.of_nat (S k) * PGSIZE) with ((a + PGSIZE) + Z.of_nat k * PGSIZE) by lia.
      eapply wp_mono; [eapply (IH fuel l1 T1 s1)|].
      * done.
      * unfold PGSIZE in *. wrap_lia.
      * unfold PGSIZE in *. Z.div_mod_to_equations. lia.
      * lia.
      * auto with os.
      * lia.
      * intros va Hva Hvaal Hr. rewrite Hmap1 by done.
        rewrite decide_False by (unfold PGSIZE in *; lia). apply Hfree; [done..|].
        unfold PGSIZE in *. lia.
      * intros r s2 (l2 & T2 & Hvm2 & Hsub2 & Hpool2 & Hds2 & Hres). exists l2, T2.
        split_and!; [done|by etrans|by etrans|by eapply data_same_trans|].
        destruct Hres as [(-> & -> & j & Hj & Hmap2)|[-> Hmap2]]; [left|right; split; [done|by eapply maps_to_app]].
        split_and!; [done..|]. exists (S j). split; [lia|by eapply maps_first_S].
Qed.
End mappages.

(** [mappages] on [k + 1] pages. *)
Lemma mappages_run end_ pgdir l T s va k pa perm :
  vm_ok end_ pgdir l T s -> is_u32 va -> va mod PGSIZE = 0 -> 0 <= k ->
  va + k * PGSIZE < 2 ^ 32 -> is_u32 pa ->
  (forall va', is_u32 va' -> va' mod PGSIZE = 0 -> va <= va' <= va + k * PGSIZE ->
     mapped (k_mem s) T va' = None) ->
  exists r s' l' T', mappages pgdir va ((k + 1) * PGSIZE) pa perm s = Done (r, s') /\
    vm_ok end_ pgdir l' T' s' /\ T ⊆ T' /\ pool l' T' = pool l T /\ data_same pgdir T' (k_mem s) (k_mem s') /\
    (r = -1 /\ l' = [] /\
       (exists j, (j <= Z.to_nat k)%nat /\ maps_first (k_mem s) T (k_mem s') T' va j pa perm) \/
     r = 0 /\ maps_to (k_mem s) T (k_mem s') T' va (Z.to_nat k) pa perm).
Proof.
  intros Hvm Hu Hal Hk Hend Hpa Hfree. unfold mappages.
  destruct (Z_of_nat_complete k Hk) as [n ->]. rewrite Nat2Z.id.
  assert (PGROUNDDOWN va = va) as -> by (rewrite PGROUNDDOWN_spec by done; lia).
  assert (PGROUNDDOWN (u32 (va + (Z.of_nat n + 1) * PGSIZE - 1)) = va + Z.of_nat n * PGSIZE) as ->.
  { rewrite PGROUNDDOWN_spec by auto with os. unfold PGSIZE in *. wrap_lia. }
  destruct (wp_returns _ _ _ (mappages_from_wp end_ pgdir n
    (S (Z.to_nat (u32 (va + Z.of_nat n * PGSIZE - va) / PGSIZE))) l T s va pa perm
    Hvm Hu Hal Hend Hpa ltac:(unfold PGSIZE in *; wrap_lia) Hfree))
    as (r & s' & Hrun & l' & T' & H1 & H2 & H3 & H4 & H5).
  exists r, s', l', T'. by split_and!.
Qed.

(** [mappages] on a page-aligned range of pages that are not yet
    mapped returns; when it returns 0, exactly the pages of the range have new
    entries, each with its own frame and permissions and the present bit, every
    other mapping is unchanged, and no memory outside the directory and the page
    tables is written. It returns -1 only when the allocator runs out, and the
    allocator and the tables are consistent in both cases. *)
Theorem mappages_correct end_ pgdir l T s va k pa perm :
  vm_ok end_ pgdir l T s -> is_u32 va -> va mod PGSIZE = 0 -> 0 <= k ->
  va + k * PGSIZE < 2 ^ 32 -> is_u32 pa ->
  (forall va', is_u32 va' -> va' mod PGSIZE = 0 -> va <= va' <= va + k * PGSIZE ->
     mapped (k_mem s) T va' = None) ->
  exists r s' l' T', mappages pgdir va ((k + 1) * PGSIZE) pa perm s = Done (r, s') /\
    vm_ok end_ pgdir l' T' s' /\ data_same pgdir T' (k_mem s) (k_mem s') /\
    (r = -1 /\ l' = [] \/ r = 0 /\ maps_to (k_mem s) T (k_mem s') T' va (Z.to_nat k) pa perm).
Proof.
  intros Hvm Hu Hal Hk Hend Hpa Hfree.
  destruct (mappages_run end_ pgdir l T s va k pa perm) as (r & s' & l' & T' & H1 & H2 & _ & _ & H3 & H4); [done..|].
  exists r, s', l', T'. split_and!; [done..|]. by destruct H4 as [(-> & -> & _)|?]; [left|right].
Qed.

(** ** Instances *)

Definition demo_dir : Z := 0x80101000.
Definition demo_tab : Z := 0x80102000.

Lemma ld32_empty a : ld32 ∅ a = 0.
Proof. unfold ld32, lds, ld. cbn. by rewrite !lookup_empty. Qed.

Lemma demo_pgt_empty : pgt ∅ demo_dir ∅.
Proof. split; [done| |done|done]. intros i _. by rewrite lookup_empty, ld32_empty. Qed.

(** One page table, for the first four megabytes. *)
Definition demo_mem : mem := add_table demo_dir ∅ demo_tab 0.

Lemma demo_pgt : pgt demo_mem demo_dir {[ 0 := demo_tab ]}.
Proof.
  apply (pgt_add_table demo_dir ∅ ∅ demo_tab 0); [apply demo_pgt_empty|done|done|done|].
  intros i pt Hi. by rewrite lookup_empty in Hi.
Qed.

Lemma demo_pte_some va : 0 <= va < 8192 -> pte demo_mem {[ 0 := demo_tab ]} va <> None.
Proof.
  intros Hva. unfold pte.
  assert (PDX va = 0) as ->; [|done]. rewrite PDX_spec. change (2 ^ 22) with 4194304. wrap_lia.
Qed.

Definition demo_vm : kmem := {| k_mem := demo_mem; freelist := 0; use_lock := true |}.

Lemma mprotect_exact_witness :
  exists s', mprotect 8192 demo_dir 4096 1 demo_vm = Done (0, s') /\
    pgt (k_mem s') demo_dir {[ 0 := demo_tab ]} /\ freelist s' = 0 /\
    (forall va, is_u32 va ->
       pte (k_mem s') {[ 0 := demo_tab ]} va
       = if decide (4096 <= PGROUNDDOWN va < 4096 + 1 * PGSIZE)
         then (fun e => u32 (Z.land e (Z.lnot PTE_W))) <$> pte demo_mem {[ 0 := demo_tab ]} va
         else pte demo_mem {[ 0 := demo_tab ]} va) /\
    (forall a, (forall va, 4096 <= va < 4096 + 1 * PGSIZE ->
                  ~ (slot {[ 0 := demo_tab ]} va <= a < slot {[ 0 := demo_tab ]} va + 4)) ->
       ld (k_mem s') a = ld demo_mem a).
Proof.
  apply (mprotect_exact demo_mem demo_dir {[ 0 := demo_tab ]} 8192 4096 1 demo_vm); try done.
  - apply demo_pgt.
  - intros va Hva. apply demo_pte_some. unfold PGSIZE in *. lia.
Defined.

Lemma munprotect_mprotect_witness :
  exists s', (mprotect 8192 demo_dir 4096 1;;; munprotect 8192 demo_dir 4096 1) demo_vm
      = Done (0, s') /\
    pgt (k_mem s') demo_dir {[ 0 := demo_tab ]} /\
    forall va e, is_u32 va -> pte demo_mem {[ 0 := demo_tab ]} va = Some e -> is_u32 e ->
      pte (k_mem s') {[ 0 := demo_tab ]} va
      = if decide (4096 <= PGROUNDDOWN va < 4096 + 1 * PGSIZE)
        then Some (Z.lor e PTE_W) else Some e.
Proof.
  apply (munprotect_mprotect demo_mem demo_dir {[ 0 := demo_tab ]} 8192 4096 1 demo_vm); try done.
  - apply demo_pgt.
  - intros va Hva. apply demo_pte_some. unfold PGSIZE in *. lia.
Defined.

Lemma mprotect_overflow_witness : mprotect 8192 demo_dir 4096 (2 ^ 20) demo_vm = Done (0, demo_vm).
Proof. by apply (mprotect_overflow 8192 demo_dir 4096 demo_vm). Defined.

(** No page table yet, and one free page. *)
Definition demo_vm0 : kmem := {| k_mem := ∅; freelist := demo_tab; use_lock := true |}.

Lemma mappages_correct_witness :
  exists r s' l' T', mappages demo_dir 4096 PGSIZE 0x3000 PTE_U demo_vm0 = Done (r, s') /\
    vm_ok 0x80100000 demo_dir l' T' s' /\ data_same demo_dir T' ∅ (k_mem s') /\
    (r = -1 /\ l' = [] \/ r = 0 /\ maps_to ∅ ∅ (k_mem s') T' 4096 0 0x3000 PTE_U).
Proof.
  apply (mappages_correct 0x80100000 demo_dir [demo_tab] ∅ demo_vm0 4096 0 0x3000 PTE_U); try done.
  split.
  - split; [split; [done|apply ld32_empty]|apply NoDup_singleton|by repeat constructor].
  - apply demo_pgt_empty.
  - intros Hin%list_elem_of_singleton. done.
  - intros i pt Hi. by rewrite lookup_empty in Hi.
Defined.
