(* ===== verification/VmUser.v ===== *)
(** * VmUser: user memory (allocuvm, deallocuvm, freevm, setupkvm, copyuvm and
    copyout of vm.c)

    The user part of an address space is a map from page addresses to frames
    with their flags. The operations change it as they say, take every page
    from the allocator and give it back, and write no page that is not
    theirs: what they own and what is free has the same pages before and
    after, so that nothing leaks when memory runs out. *)

From stdpp Require Import base list numbers gmap strings.
From S2P Require Import Prelude Bytes Params KString Mmu Kalloc Vm.

Local Open Scope Z_scope.
Local Open Scope os_scope.

(** ** Pages *)

(** Only memory in the pages [X] differs. *)
Definition changes_in (X : gset Z) (m m' : mem) : Prop :=
  forall a, (forall q, q ∈ X -> ~ in_page q a) -> ld m' a = ld m a.

Lemma changes_in_trans X m1 m2 m3 : changes_in X m1 m2 -> changes_in X m2 m3 -> changes_in X m1 m3.
Proof. intros H1 H2 a Ha. rewrite H2, H1; done. Qed.

Lemma changes_in_mono X Y m m' : X ⊆ Y -> changes_in X m m' -> changes_in Y m m'.
Proof. intros HX H1 a Ha. apply H1. intros q Hq. apply Ha. by apply HX. Qed.

Lemma changes_in_refl X m : changes_in X m m.
Proof. done. Qed.

(** A page that is not among them keeps its bytes. *)
Lemma changes_in_page X m m' p a :
  changes_in X m m' -> p ∉ X -> (forall q, q ∈ X -> q mod PGSIZE = 0) -> p mod PGSIZE = 0 -> in_page p a ->
  ld m' a = ld m a.
Proof.
  intros HX Hp Hal Hpa Ha. apply HX. intros q Hq Hqa. apply (pages_apart p q a a); try done; [by apply Hal|]. by intros ->.
Qed.

Lemma mapped_ext m m' T va :
  (forall i pt a, T !! i = Some pt -> in_page pt a -> ld m' a = ld m a) -> mapped m' T va = mapped m T va.
Proof.
  intros He. unfold mapped, pte. destruct (T !! PDX va) as [pt|] eqn:Hpt; [|done].
  replace (ld32 m' (pt + 4 * PTX va)) with (ld32 m (pt + 4 * PTX va)); [done|].
  apply ld32_ext. intros b Hb. symmetry. apply (He _ _ _ Hpt). pose proof (PTX_range va).
  unfold in_page, PGSIZE, NPTENTRIES in *. lia.
Qed.

(** ** The user part of an address space *)

Definition uentry (x : Z * Z) : Z := Z.lor (V2P x.1) x.2.
Definition frames (U : gmap Z (Z * Z)) : gset Z := map_img (fst <$> U).

Lemma elem_of_frames U q : q ∈ frames U <-> exists va fl, U !! va = Some (q, fl).
Proof.
  unfold frames. rewrite elem_of_map_img. split.
  - intros (va & Hq). rewrite lookup_fmap in Hq. apply fmap_Some in Hq as ([p fl] & Hva & ->). by exists va, fl.
  - intros (va & fl & Hva). exists va. by rewrite lookup_fmap, Hva.
Qed.

Section space.
Context (end_ : Z) (Hend : KERNBASE < end_).

Record uspace (pgdir : Z) (l : list Z) (T : gmap Z Z) (U : gmap Z (Z * Z)) (s : kmem) : Prop := {
  us_vm : vm_ok end_ pgdir l T s;
  us_map (va : Z) : 0 <= va < KERNBASE -> va mod PGSIZE = 0 -> mapped (k_mem s) T va = uentry <$> U !! va;
  us_dom (va : Z) x : U !! va = Some x -> 0 <= va < KERNBASE /\ va mod PGSIZE = 0;
  us_flags (va : Z) x : U !! va = Some x -> 0 <= x.2 < PGSIZE /\ bit x.2 PTE_P = true;
  us_frame (p : Z) : p ∈ frames U -> page_ok end_ p /\ p <> pgdir /\ p ∉ pool l T;
  us_inj (va va' p fl fl' : Z) : U !! va = Some (p, fl) -> U !! va' = Some (p, fl') -> va = va';
  us_dir : page_ok end_ pgdir;
  us_tabs (pt : Z) : pt ∈ (map_img T : gset Z) -> page_ok end_ pt
}.

(** All pages of the space and of the allocator. *)
Definition owned (l : list Z) (T : gmap Z Z) (U : gmap Z (Z * Z)) : gset Z := pool l T ∪ frames U.

Lemma page_ok_kpage p : page_ok end_ p -> kpage p.
Proof. intros (? & ? & ?). by split. Qed.

Lemma elem_of_pool l T q : q ∈ pool l T <-> q ∈ l \/ exists i, T !! i = Some q.
Proof. unfold pool. by rewrite elem_of_union, elem_of_list_to_set, elem_of_map_img. Qed.

Lemma uspace_pages pgdir l T U s q : uspace pgdir l T U s -> q ∈ {[pgdir]} ∪ owned l T U -> page_ok end_ q.
Proof.
  intros HU. unfold owned, pool. rewrite !elem_of_union, elem_of_singleton, elem_of_list_to_set. intros [->|[[Hq|Hq]|Hq]].
  - apply (us_dir _ _ _ _ _ HU).
  - destruct (us_vm _ _ _ _ _ HU) as [[_ _ Hpg] _ _ _]. by apply (proj1 (Forall_forall _ _) Hpg).
  - by apply (us_tabs _ _ _ _ _ HU).
  - by apply (us_frame _ _ _ _ _ HU).
Qed.

(** The space does not see changes in other pages. *)
Lemma uspace_frame pgdir l T U s l' s' X :
  uspace pgdir l T U s -> changes_in X (k_mem s) (k_mem s') -> (forall q, q ∈ X -> q mod PGSIZE = 0) ->
  pgdir ∉ X -> (forall q, q ∈ (map_img T : gset Z) -> q ∉ X) -> free_list end_ l' s' ->
  pgdir ∉ l' -> (forall q, q ∈ (map_img T : gset Z) ∪ frames U -> q ∉ l') ->
  uspace pgdir l' T U s'.
Proof.
  intros HU HX Hal Hd Ht Hf Hd' Ht'. destruct (us_vm _ _ _ _ _ HU) as [Hfl Hpgt Hdl Htl].
  assert (forall i pt a, T !! i = Some pt -> in_page pt a -> ld (k_mem s') a = ld (k_mem s) a) as Htabs.
  { intros i pt a Hi Ha. assert (pt ∈ (map_img T : gset Z)) as Hin by (apply elem_of_map_img; eauto).
    eapply changes_in_page; [done|by apply Ht|done| |done]. by apply (us_tabs _ _ _ _ _ HU). }
  destruct HU as [Hvm Hmap Hdom Hflg Hfr Hinj Hdir Htb]. split; [| |exact Hdom|exact Hflg| |exact Hinj|exact Hdir|exact Htb].
  - split; [done| |done|].
    + eapply pgt_ext; [|done]. intros a Ha. eapply changes_in_page; [done..| |done]. apply Hdir.
    + intros i pt Hi. apply Ht', elem_of_union_l, elem_of_map_img. eauto.
  - intros va Hva Hva'. rewrite <- Hmap by done. by apply mapped_ext.
  - intros p Hp. destruct (Hfr p Hp) as (H1 & H2 & H3). split_and!; [done..|].
    rewrite elem_of_pool in *. intros [Hl|Hi]; [|tauto]. apply (Ht' p); [set_solver|done].
Qed.

Lemma uentry_split p fl : page_ok end_ p -> 0 <= fl < PGSIZE ->
  PTE_ADDR (uentry (p, fl)) = V2P p /\ PTE_FLAGS (uentry (p, fl)) = fl /\ P2V (V2P p) = p /\ V2P p <> 0.
Proof.
  intros Hp Hfl. destruct (kpage_u32 p (page_ok_kpage p Hp)) as (_ & Hv & Hpv). destruct Hp as (Hal & He & Hr).
  assert (V2P p mod PGSIZE = 0) by (rewrite Hv; unfold KERNBASE, PGSIZE in *; Z.div_mod_to_equations; lia).
  destruct (PTE_split (V2P p) fl) as (_ & H1 & H2); [unfold V2P; auto with os|done..|].
  split_and!; [done..|]. rewrite Hv. unfold KERNBASE in *. lia.
Qed.

Lemma bit_uentry p fl : bit fl PTE_P = true -> bit (uentry (p, fl)) PTE_P = true.
Proof.
  unfold bit, uentry. cbn [fst snd]. rewrite Z.land_lor_distr_l. destruct (Z.eqb_spec (Z.land fl PTE_P) 0) as [|Hne]; [done|]. intros _.
  apply negb_true_iff, Z.eqb_neq. intros [_ ?]%Z.lor_eq_0_iff. done.
Qed.
(** ** [deallocuvm] *)

Lemma frames_delete U a p fl : U !! a = Some (p, fl) -> frames U = {[p]} ∪ frames (delete a U).
Proof.
  intros Ha. apply set_eq. intros q. rewrite elem_of_union, elem_of_singleton, !elem_of_frames. split.
  - intros (va & fl' & Hva). destruct (decide (va = a)) as [->|Hne]; [left; congruence|]. right. exists va, fl'. by rewrite lookup_delete_ne.
  - intros [->|(va & fl' & [_ Hva]%lookup_delete_Some)]; eauto.
Qed.

Lemma owned_free l T U a p fl : U !! a = Some (p, fl) -> owned (p :: l) T (delete a U) = owned l T U.
Proof.
  intros Ha. unfold owned, pool. rewrite (frames_delete _ _ _ _ Ha). cbn [list_to_set]. apply set_eq. intros q.
  rewrite !elem_of_union. tauto.
Qed.

Lemma vm_ok_kfree pgdir l T s p s1 :
  vm_ok end_ pgdir l T s -> page_ok end_ p -> p <> pgdir -> p ∉ pool l T -> page_ok end_ pgdir ->
  (forall pt, pt ∈ (map_img T : gset Z) -> page_ok end_ pt) ->
  free_list end_ (p :: l) s1 -> (forall a, ~ in_page p a -> ld (k_mem s1) a = ld (k_mem s) a) ->
  vm_ok end_ pgdir (p :: l) T s1 /\ forall va, mapped (k_mem s1) T va = mapped (k_mem s) T va.
Proof.
  intros [Hf Ht Hdl Htl] [Hp _] Hpd Hpp [Hd _] Htp Hf1 Hm. rewrite elem_of_pool in Hpp.
  assert (forall i pt a, T !! i = Some pt -> in_page pt a -> ld (k_mem s1) a = ld (k_mem s) a) as Htab.
  { intros i pt a Hi Ha. apply Hm. intros Hpa. destruct (Htp pt) as [Hpt _]; [apply elem_of_map_img; eauto|].
    apply (pages_apart p pt a a); try done. intros ->. apply Hpp. eauto. }
  split; [split; [done| | |]|].
  - eapply pgt_ext; [|done]. intros a Ha. apply Hm. intros Hpa. by apply (pages_apart p pgdir a a).
  - apply not_elem_of_cons. done.
  - intros i pt Hi. apply not_elem_of_cons. split; [|by eapply Htl]. intros ->. apply Hpp. eauto.
  - intros va. by apply mapped_ext.
Qed.

(** Freeing the frame of a page and clearing its entry. *)
Lemma free_page pgdir l T U s a p fl :
  uspace pgdir l T U s -> U !! a = Some (p, fl) ->
  exists s', (kfree end_ p;;; stw (slot T a) 0) s = Done (tt, s') /\ uspace pgdir (p :: l) T (delete a U) s' /\
    changes_in ({[p]} ∪ map_img T) (k_mem s) (k_mem s').
Proof.
  intros HU Ha. destruct HU as [Hvm Hmap Hdom Hflg Hfr Hinj Hdir Htb].
  destruct (Hdom _ _ Ha) as [Har Hal]. assert (is_u32 a) as Hau by (unfold KERNBASE in *; wrap_lia).
  destruct (Hfr p) as (Hp & Hpd & Hpp); [apply elem_of_frames; eauto|].
  destruct (kfree_run end_ l s p) as (s1 & Hk & Hf1 & Hm1); [apply Hvm|done|rewrite elem_of_pool in Hpp; tauto|].
  destruct (vm_ok_kfree pgdir l T s p s1) as [Hvm1 Hmap1]; [done..|].
  assert (pte (k_mem s1) T a <> None) as Hpte.
  { specialize (Hmap a Har Hal). rewrite Ha in Hmap. unfold mapped, pte in *. by destruct (T !! PDX a). }
  destruct (vm_ok_store end_ pgdir (p :: l) T a 0 s1 Hvm1 Hau Hpte) as [Hvm2 _].
  exists (with_mem (st32 (k_mem s1) (slot T a) 0) s1). split_and!.
  - erewrite bind_done by exact Hk. apply stw_run. eapply slot_nonzero; [apply Hvm1|done].
  - split; [done| | | | |by intros va va' q f f' [_ H1]%lookup_delete_Some [_ H2]%lookup_delete_Some; eapply Hinj|done|done].
    + intros va Hva Hvaal. cbn [k_mem with_mem set_free]. unfold mapped at 1.
      rewrite (pte_store _ pgdir) by (done || apply Hvm1 || (unfold KERNBASE in *; wrap_lia)).
      rewrite !PGROUNDDOWN_spec, Hal, Hvaal, !Z.sub_0_r by (done || (unfold KERNBASE in *; wrap_lia)).
      destruct (decide (va = a)) as [->|Hne]; [by rewrite lookup_delete_eq|].
      rewrite lookup_delete_ne by done. rewrite <- Hmap by done. apply Hmap1.
    + intros va x [_ Hx]%lookup_delete_Some. by apply (Hdom va x).
    + intros va x [_ Hx]%lookup_delete_Some. by apply (Hflg va).
    + intros q (va & f & [Hne Hq]%lookup_delete_Some)%elem_of_frames.
      destruct (Hfr q) as (H1 & H2 & H3); [apply elem_of_frames; eauto|]. split_and!; [done..|].
      rewrite elem_of_pool in *. rewrite elem_of_cons. intros [[->|?]|?]; [|tauto..]. by apply Hne, (Hinj a va p fl f).
  - intros b Hb. cbn [k_mem with_mem set_free].
    destruct (T !! PDX a) as [pt|] eqn:Hpt; [|unfold pte in Hpte; by rewrite Hpt in Hpte].
    pose proof (slot_in_table T a pt Hpt) as Hsl. rewrite ld_st32.
    + apply Hm1. apply Hb. by apply elem_of_union_l, elem_of_singleton.
    + intros Hb'. apply (Hb pt); [apply elem_of_union_r, elem_of_map_img; eauto|]. unfold in_page, PGSIZE in *. lia.
Qed.
(** The page after the last one of the directory entry of [a]. *)
Lemma next_pde a : 0 <= a < KERNBASE ->
  u32 (u32 (PGADDR (PDX a + 1) 0 0 - PGSIZE) + PGSIZE) = (a / 2 ^ 22 + 1) * 2 ^ 22.
Proof.
  intros Ha. unfold PGADDR, PDXSHIFT, PTXSHIFT. rewrite Z.shiftl_0_l, !Z.lor_0_r, Z.shiftl_mul_pow2, PDX_spec by done.
  unfold KERNBASE, PGSIZE in *. change (2 ^ 22) with 4194304. wrap_lia.
Qed.

(** Pages of a directory entry without table are not in the space. *)
Lemma no_table pgdir l T U s a va :
  uspace pgdir l T U s -> T !! PDX a = None -> 0 <= a < KERNBASE -> a <= va < (a / 2 ^ 22 + 1) * 2 ^ 22 -> U !! va = None.
Proof.
  intros HU HT Ha Hva. destruct (U !! va) as [x|] eqn:Hx; [|done]. exfalso.
  destruct (us_dom _ _ _ _ _ HU _ _ Hx) as [Hr Hal]. pose proof (us_map _ _ _ _ _ HU va Hr Hal) as Hm. rewrite Hx in Hm.
  unfold mapped, pte in Hm. replace (PDX va) with (PDX a) in Hm; [by rewrite HT in Hm|].
  rewrite !PDX_spec. unfold KERNBASE in *. change (2 ^ 22) with 4194304 in *. wrap_lia.
Qed.

(** [U'] is [U] without the pages from [a] to [b]. *)
Definition without (a b : Z) (U U' : gmap Z (Z * Z)) : Prop :=
  forall va, U' !! va = if decide (a <= va < b) then None else U !! va.

Lemma deallocuvm_from_run fuel pgdir l T U s a oldsz X :
  uspace pgdir l T U s -> 0 <= a -> a mod PGSIZE = 0 -> oldsz <= KERNBASE -> oldsz - a <= Z.of_nat fuel * PGSIZE ->
  map_img T ⊆ X -> (forall va p fl, a <= va < oldsz -> U !! va = Some (p, fl) -> p ∈ X) ->
  exists l' U' s', deallocuvm_from end_ (S fuel) pgdir a oldsz s = Done (tt, s') /\ uspace pgdir l' T U' s' /\
    without a oldsz U U' /\ owned l' T U' = owned l T U /\ changes_in X (k_mem s) (k_mem s').
Proof.
  revert l U s a. induction fuel as [|fuel IH]; intros l U s a HU Ha Hal Hold Hfu HT HX.
  { cbn [deallocuvm_from]. rewrite (proj2 (Z.ltb_ge _ _)) by (unfold PGSIZE in *; lia). exists l, U, s. split_and!; try done.
    intros va. rewrite decide_False by (unfold PGSIZE in *; lia). done. }
  rewrite Nat2Z.inj_succ in Hfu. remember (S fuel) as f eqn:Ef. cbn [deallocuvm_from]. subst f.
  destruct (Z.ltb_spec a oldsz) as [Hlt|Hge].
  2:{ exists l, U, s. split_and!; try done. intros va. rewrite decide_False by lia. done. }
  erewrite bind_done by (eapply walk_run; [apply (us_vm _ _ _ _ _ HU)|done]).
  assert (forall a' l1 U1 s1, uspace pgdir l1 T U1 s1 -> a + PGSIZE <= a' -> a' mod PGSIZE = 0 -> without a a' U U1 ->
    (forall va, oldsz <= va < a' -> U !! va = None) ->
    owned l1 T U1 = owned l T U -> changes_in X (k_mem s) (k_mem s1) ->
    exists l' U' s', deallocuvm_from end_ (S fuel) pgdir a' oldsz s1 = Done (tt, s') /\ uspace pgdir l' T U' s' /\
      without a oldsz U U' /\ owned l' T U' = owned l T U /\ changes_in X (k_mem s) (k_mem s')) as Hnext.
  { intros a' l1 U1 s1 HU1 Ha' Hal' Hw Hgap Ho Hc.
    destruct (IH l1 U1 s1 a') as (l2 & U2 & s2 & E & HU2 & Hw2 & Ho2 & Hc2); [done|unfold PGSIZE in *; lia|done|done|lia|done| |].
    { intros va p fl Hva HUv. rewrite Hw in HUv. case_decide; [done|]. apply (HX va p fl); [unfold PGSIZE in *; lia|done]. }
    exists l2, U2, s2. split_and!; [done|done| |congruence|by eapply changes_in_trans].
    intros va. rewrite Hw2, Hw. unfold PGSIZE in *. repeat case_decide; try done; try lia. symmetry. apply Hgap. lia. }
  assert (0 <= a < KERNBASE) as Har by lia. destruct (T !! PDX a) as [pt|] eqn:Hpt.
  2:{ unfold slot. rewrite Hpt. cbn [Z.eqb]. rewrite next_pde by done.
      assert (forall va, a <= va < (a / 2 ^ 22 + 1) * 2 ^ 22 -> U !! va = None) as Hno by (intros va Hva; by eapply no_table).
      apply Hnext with (l1 := l) (U1 := U); try done.
      - unfold PGSIZE in *. change (2 ^ 22) with 4194304. Z.div_mod_to_equations. lia.
      - unfold PGSIZE. change (2 ^ 22) with (1024 * 4096). rewrite Z.mul_assoc. by apply Z.mod_mul.
      - intros va. case_decide; [|done]. by apply (Hno va).
      - intros va Hva. apply (Hno va). lia. }
  assert (pte (k_mem s) T a <> None) as Hpte by (unfold pte; by rewrite Hpt).
  pose proof (slot_nonzero _ _ _ (vm_pgt _ _ _ _ _ (us_vm _ _ _ _ _ HU)) a Hpte) as Hnz.
  rewrite (proj2 (Z.eqb_neq _ _) Hnz). erewrite bind_done by (by apply ldw_run).
  assert (u32 (a + PGSIZE) = a + PGSIZE) as Eu by (apply u32_small; unfold KERNBASE, PGSIZE in *; wrap_lia). rewrite Eu.
  assert (forall va, a < va < a + PGSIZE -> U !! va = None) as Hbetween.
  { intros va Hva. destruct (U !! va) as [x|] eqn:Hx; [|done]. destruct (us_dom _ _ _ _ _ HU _ _ Hx) as [_ ?].
    unfold PGSIZE in *. Z.div_mod_to_equations. lia. }
  pose proof (us_map _ _ _ _ _ HU a Har Hal) as Hm. unfold mapped, pte in Hm. rewrite Hpt in Hm.
  assert (slot T a = pt + 4 * PTX a) as Hsl by (unfold slot; by rewrite Hpt). rewrite Hsl in *.
  destruct (U !! a) as [[p fl]|] eqn:HUa.
  - destruct (us_flags _ _ _ _ _ HU _ _ HUa) as [Hfl HP]. cbn [snd] in Hfl, HP.
    destruct (us_frame _ _ _ _ _ HU p) as (Hp & _ & _); [apply elem_of_frames; eauto|].
    destruct (uentry_split p fl Hp Hfl) as (H1 & _ & H3 & H4).
    destruct (bit (ld32 (k_mem s) (pt + 4 * PTX a)) PTE_P); [|done]. injection Hm as ->.
    rewrite H1, H3, (proj2 (Z.eqb_neq _ _) H4). destruct (free_page _ _ _ _ _ _ _ _ HU HUa) as (s1 & E & HU1 & Hc).
    rewrite Hsl in E. erewrite bind_done by exact E.
    apply (Hnext (a + PGSIZE) (p :: l) (delete a U) s1 HU1); [lia|unfold PGSIZE in *; Z.div_mod_to_equations; lia| | |by eapply owned_free|].
    + intros va. destruct (decide (va = a)) as [->|Hne]; [rewrite lookup_delete_eq, decide_True by (unfold PGSIZE; lia); done|].
      rewrite lookup_delete_ne by done. case_decide; [|done]. apply Hbetween. lia.
    + intros va Hva. apply Hbetween. lia.
    + eapply changes_in_mono; [|exact Hc]. apply union_subseteq. split; [|done]. apply singleton_subseteq_l. by apply (HX a p fl); [lia|].
  - change (uentry <$> None) with (@None Z) in Hm. destruct (bit (ld32 (k_mem s) (pt + 4 * PTX a)) PTE_P) eqn:Hb; [done|]. unfold bind at 1, ret at 1.
    apply (Hnext (a + PGSIZE) l U s HU); [lia|unfold PGSIZE in *; Z.div_mod_to_equations; lia| | |done|done].
    + intros va. case_decide; [|done]. destruct (decide (va = a)) as [->|Hne]; [done|]. apply Hbetween. lia.
    + intros va Hva. apply Hbetween. lia.
Qed.

Lemma deallocuvm_run pgdir l T U s oldsz newsz X :
  uspace pgdir l T U s -> 0 <= newsz -> 0 <= oldsz <= KERNBASE ->
  map_img T ⊆ X -> (forall va p fl, PGROUNDUP newsz <= va < oldsz -> U !! va = Some (p, fl) -> p ∈ X) ->
  exists l' U' s', deallocuvm end_ pgdir oldsz newsz s = Done (Z.min oldsz newsz, s') /\ uspace pgdir l' T U' s' /\
    (if oldsz <=? newsz then U' = U else without (PGROUNDUP newsz) oldsz U U') /\
    owned l' T U' = owned l T U /\ changes_in X (k_mem s) (k_mem s').
Proof.
  intros HU Hn Ho HT HX. unfold deallocuvm. destruct (Z.leb_spec oldsz newsz) as [Hle|Hgt].
  { exists l, U, s. rewrite Z.min_l by done. by split_and!. }
  destruct (PGROUNDUP_spec newsz) as [Hal Hup]; [unfold KERNBASE in *; wrap_lia|unfold KERNBASE, PGSIZE in *; lia|].
  destruct (deallocuvm_from_run (Z.to_nat ((oldsz - PGROUNDUP newsz) / PGSIZE + 1)) pgdir l T U s (PGROUNDUP newsz) oldsz X)
    as (l' & U' & s' & E & H1 & H2 & H3 & H4); [done|lia|done|lia| |done|done|].
  { unfold PGSIZE in *. Z.div_mod_to_equations. lia. }
  exists l', U', s'. split_and!; try done. erewrite bind_done by exact E. by rewrite Z.min_r by lia.
Qed.
(** ** [freevm] *)

(** The loop over the directory has freed the tables below [i]. *)
Definition tables_freed (pgdir : Z) (l : list Z) (T : gmap Z Z) (m : mem) (i : Z) (s : kmem) : Prop :=
  exists l', free_list end_ l' s /\ (forall q, q ∈ l' <-> q ∈ l \/ exists j, j < i /\ T !! j = Some q) /\
    changes_in (map_img T) m (k_mem s).

Lemma free_tables pgdir l T s :
  vm_ok end_ pgdir l T s -> page_ok end_ pgdir -> (forall pt, pt ∈ (map_img T : gset Z) -> page_ok end_ pt) ->
  wp (for_loop (Z.to_nat NPDENTRIES) 0 (fun i =>
      let! e := ldw (pgdir + 4 * i) in
      if bit e PTE_P then kfree end_ (P2V (PTE_ADDR e)) else ret tt))
    (fun _ => tables_freed pgdir l T (k_mem s) NPDENTRIES) s.
Proof.
  intros [Hf Ht Hdl Htl] Hd Htb. apply (wp_for (tables_freed pgdir l T (k_mem s))).
  2:{ exists l. split_and!; [done| |done]. intros q. split; [by left|]. intros [?|(j & Hj & Hq)]; [done|].
      apply (pgt_tab _ _ _ Ht) in Hq as [? _]. lia. }
  intros i s1 Hi (l1 & Hf1 & Hl1 & Hc1). change (Z.of_nat (Z.to_nat NPDENTRIES)) with NPDENTRIES in Hi.
  assert (forall q, q ∈ (map_img T : gset Z) -> q mod PGSIZE = 0) as Hal by (intros q Hq; apply (Htb q Hq)).
  assert (pgdir ∉ (map_img T : gset Z)) as Hdt.
  { intros (j & Hj)%elem_of_map_img. by apply (pgt_tab _ _ _ Ht) in Hj as (_ & _ & ?). }
  wp_run. eapply wp_intro; [apply ldw_run; destruct Hd as (_ & _ & ?); unfold KERNBASE in *; lia|].
  replace (ld32 (k_mem s1) (pgdir + 4 * i)) with (ld32 (k_mem s) (pgdir + 4 * i)).
  2:{ apply ld32_ext. intros b Hb. symmetry. eapply changes_in_page; [done..|apply Hd|]. unfold in_page, PGSIZE, NPDENTRIES in *. lia. }
  pose proof (pgt_pde _ _ _ Ht i ltac:(lia)) as Hpde. destruct (T !! i) as [pt|] eqn:Hpt.
  - assert (pt ∈ (map_img T : gset Z)) as Hin by (apply elem_of_map_img; eauto).
    destruct (pde_of_spec pt (page_ok_kpage pt (Htb pt Hin))) as [Hb Ha]. rewrite Hpde, Hb, Ha.
    destruct (kpage_u32 pt (page_ok_kpage pt (Htb pt Hin))) as (_ & _ & ->).
    destruct (kfree_run end_ l1 s1 pt Hf1 (Htb pt Hin)) as (s2 & E & Hf2 & Hm2).
    { rewrite Hl1. intros [?|(j & Hj & Hjp)]; [by eapply Htl|]. assert (j = i) by (by eapply (pgt_inj _ _ _ Ht)). lia. }
    eapply wp_intro; [exact E|]. exists (pt :: l1). split_and!; [done| |].
    + intros q. rewrite elem_of_cons, Hl1. split.
      * intros [->|[?|(j & Hj & Hq)]]; [right; exists i; split; [lia|done]|by left|right; exists j; split; [lia|done]].
      * intros [?|(j & Hj & Hq)]; [by right; left|]. destruct (decide (j = i)) as [->|]; [left; congruence|].
        right. right. exists j. split; [lia|done].
    + eapply changes_in_trans; [exact Hc1|]. intros a Ha'. apply Hm2, Ha'. done.
  - rewrite Hpde. apply wp_ret. exists l1. split_and!; [done| |done]. intros q. rewrite Hl1. split.
    + intros [?|(j & Hj & Hq)]; [by left|right; exists j; split; [lia|done]].
    + intros [?|(j & Hj & Hq)]; [by left|]. destruct (decide (j = i)) as [->|]; [congruence|]. right. exists j. split; [lia|done].
Qed.

Lemma freevm_run pgdir l T U s :
  uspace pgdir l T U s ->
  exists l' s', freevm end_ pgdir s = Done (tt, s') /\ free_list end_ l' s' /\
    list_to_set l' = {[pgdir]} ∪ owned l T U /\
    changes_in ({[pgdir]} ∪ (map_img T ∪ frames U)) (k_mem s) (k_mem s').
Proof.
  intros HU. unfold freevm. rewrite (proj2 (Z.eqb_neq _ _)) by (destruct (us_dir _ _ _ _ _ HU) as (_ & _ & ?); unfold KERNBASE in *; lia).
  destruct (deallocuvm_run pgdir l T U s KERNBASE 0 (map_img T ∪ frames U)) as (l1 & U1 & s1 & E1 & HU1 & Hw & Ho1 & Hc1);
    [done|lia|unfold KERNBASE; lia|apply union_subseteq_l| |].
  { intros va p fl _ HUv. apply elem_of_union_r, elem_of_frames. eauto. }
  change (KERNBASE <=? 0) with false in Hw. cbn iota in Hw. change (PGROUNDUP 0) with 0 in Hw.
  assert (frames U1 = ∅) as HF.
  { apply elem_of_equiv_empty_L. intros q (va & fl & Hva)%elem_of_frames. pose proof (us_dom _ _ _ _ _ HU1 _ _ Hva) as [Hr _].
    rewrite Hw, decide_True in Hva by lia. done. }
  erewrite bind_done by exact E1. destruct HU1 as [Hvm1 _ _ _ _ _ Hdir Htb].
  destruct (wp_returns _ _ _ (free_tables pgdir l1 T s1 Hvm1 Hdir Htb)) as ([] & s2 & E2 & l2 & Hf2 & Hl2 & Hc2).
  erewrite bind_done by exact E2.
  destruct (kfree_run end_ l2 s2 pgdir Hf2 Hdir) as (s3 & E3 & Hf3 & Hm3).
  { rewrite Hl2. intros [?|(j & _ & Hj)]; [by apply (vm_dir _ _ _ _ _ Hvm1)|]. apply (pgt_tab _ _ _ (vm_pgt _ _ _ _ _ Hvm1)) in Hj. tauto. }
  exists (pgdir :: l2), s3. split_and!; [exact E3|done| |].
  - rewrite <- Ho1. unfold owned, pool. rewrite HF, union_empty_r_L. cbn [list_to_set]. f_equal. apply set_eq. intros q.
    rewrite elem_of_list_to_set, Hl2, elem_of_union, elem_of_list_to_set, elem_of_map_img. split; [intros [?|(j & _ & Hj)]; [by left|right; by exists j]|].
    intros [?|(j & Hj)]; [by left|right]. exists j. split; [|done]. apply (pgt_tab _ _ _ (vm_pgt _ _ _ _ _ Hvm1)) in Hj. lia.
  - eapply changes_in_trans; [eapply changes_in_mono; [|exact Hc1]; apply union_subseteq_r|].
    eapply changes_in_trans; [eapply changes_in_mono; [|exact Hc2]; etrans; [apply union_subseteq_l|apply union_subseteq_r]|].
    intros a Ha. apply Hm3, Ha. by apply elem_of_union_l, elem_of_singleton.
Qed.
(** ** Mapping pages *)

Lemma flags_present perm : 0 <= perm < PGSIZE -> 0 <= Z.lor perm PTE_P < PGSIZE /\ bit (Z.lor perm PTE_P) PTE_P = true.
Proof.
  intros Hp. split.
  - assert (Z.lor perm PTE_P = Z.lor perm PTE_P mod 2 ^ 12) as ->; [|apply Z.mod_pos_bound; done].
    rewrite <- Z.land_ones by done. rewrite Z.land_lor_distr_l, Z.land_ones by done. rewrite Z.mod_small by exact Hp. done.
  - unfold bit. apply negb_true_iff, Z.eqb_neq. rewrite Z.land_lor_distr_l. intros [_ ?]%Z.lor_eq_0_iff. done.
Qed.

Lemma entry_of_map p perm : page_ok end_ p -> 0 <= perm < PGSIZE ->
  u32 (Z.lor (Z.lor (u32 (V2P p + 0)) perm) PTE_P) = uentry (p, Z.lor perm PTE_P).
Proof.
  intros Hp Hperm. destruct (flags_present perm Hperm) as [Hfl _]. destruct (kpage_u32 p (page_ok_kpage p Hp)) as (_ & Hv & _).
  destruct Hp as (Hal & _ & Hr). unfold uentry. cbn [fst snd]. rewrite Z.add_0_r, (u32_small (V2P p)) by (unfold V2P; auto with os).
  rewrite <- Z.lor_assoc. apply u32_small. destruct (PTE_split (V2P p) (Z.lor perm PTE_P)) as (-> & _).
  - unfold V2P; auto with os.
  - rewrite Hv. unfold KERNBASE, PGSIZE in *. Z.div_mod_to_equations. lia.
  - done.
  - rewrite Hv. unfold KERNBASE, PHYSTOP, PGSIZE in *. wrap_lia.
Qed.

(** What new page tables leave of a space, with the map [U'] of its user part. *)
Lemma uspace_grown pgdir l T U s l' T' U' s' :
  uspace pgdir l T U s -> vm_ok end_ pgdir l' T' s' -> pool l' T' = pool l T ->
  (forall va, 0 <= va < KERNBASE -> va mod PGSIZE = 0 -> mapped (k_mem s') T' va = uentry <$> U' !! va) ->
  (U' = U \/ exists a p fl, U' = <[a := (p, fl)]> U /\ U !! a = None /\ 0 <= a < KERNBASE /\ a mod PGSIZE = 0 /\
     0 <= fl < PGSIZE /\ bit fl PTE_P = true /\ page_ok end_ p /\ p <> pgdir /\ p ∉ owned l T U) ->
  uspace pgdir l' T' U' s'.
Proof.
  intros HU Hvm Hpool Hmap HU'.
  assert (forall pt, pt ∈ (map_img T' : gset Z) -> page_ok end_ pt) as Htb'.
  { intros pt Hpt. eapply uspace_pages; [exact HU|]. unfold owned. rewrite <- Hpool. unfold pool.
    by apply elem_of_union_r, elem_of_union_l, elem_of_union_r. }
  destruct HU as [Hvm0 Hmap0 Hdom Hflg Hfr Hinj Hdir Htb]. rewrite <- Hpool in Hfr.
  destruct HU' as [->|(a & p & fl & -> & Ha & Har & Hal & Hfl & HP & Hp & Hpd & Hpo)]; [by split|].
  unfold owned in Hpo. rewrite <- Hpool, not_elem_of_union in Hpo. destruct Hpo as [Hpp Hpf].
  assert (forall va q f, <[a:=(p, fl)]> U !! va = Some (q, f) -> (va = a /\ q = p) \/ (va <> a /\ U !! va = Some (q, f) /\ q <> p)) as Hins.
  { intros va q f [[<- [= <- <-]]|[Hne Hq]]%lookup_insert_Some; [by left|]. right. split_and!; [done..|].
    intros ->. apply Hpf, elem_of_frames. eauto. }
  split; [done|done| | | | |done|done].
  - intros va x [[<- _]|[_ Hx]]%lookup_insert_Some; [done|]. by apply (Hdom _ x).
  - intros va x [[<- <-]|[_ Hx]]%lookup_insert_Some; [done|]. by apply (Hflg va).
  - intros q (va & f & Hq)%elem_of_frames. destruct (Hins _ _ _ Hq) as [[-> ->]|(_ & Hq' & _)]; [done|]. apply Hfr, elem_of_frames. eauto.
  - intros va va' q f f' H1 H2. destruct (Hins _ _ _ H1) as [[-> ->]|(_ & H1' & Hn1)], (Hins _ _ _ H2) as [[-> ?]|(_ & H2' & Hn2)]; try done.
    by eapply Hinj.
Qed.

(** What [mappages] writes is in the directory and in the pool. *)
Lemma data_same_changes pgdir l T l' T' m m' :
  pool l' T' = pool l T -> data_same pgdir T' m m' -> changes_in ({[pgdir]} ∪ pool l T) m m'.
Proof.
  intros Hpool Hd a Ha. apply Hd; [apply Ha; by apply elem_of_union_l, elem_of_singleton|].
  intros i pt Hi. apply Ha, elem_of_union_r. rewrite <- Hpool. apply elem_of_pool. eauto.
Qed.

Lemma map_user pgdir l T U s a p perm :
  uspace pgdir l T U s -> 0 <= a < KERNBASE -> a mod PGSIZE = 0 -> U !! a = None -> page_ok end_ p -> p <> pgdir ->
  p ∉ owned l T U -> 0 <= perm < PGSIZE ->
  exists r s' l' T', mappages pgdir a PGSIZE (V2P p) perm s = Done (r, s') /\ pool l' T' = pool l T /\
    changes_in ({[pgdir]} ∪ pool l T) (k_mem s) (k_mem s') /\
    (r = -1 /\ uspace pgdir l' T' U s' \/ r = 0 /\ uspace pgdir l' T' (<[a := (p, Z.lor perm PTE_P)]> U) s').
Proof.
  intros HU Har Hal HUa Hp Hpd Hpo Hperm.
  assert (forall va, 0 <= va < KERNBASE -> is_u32 va) as Hu by (unfold KERNBASE; intros; wrap_lia).
  destruct (mappages_run end_ pgdir l T s a 0 (V2P p) perm) as (r & s' & l' & T' & E & Hvm & _ & Hpool & Hds & Hres);
    [apply HU|by apply Hu|done|done|unfold KERNBASE in *; lia|unfold V2P; auto with os| |].
  { intros va Hva Hval Hr. replace va with a by lia. by rewrite (us_map _ _ _ _ _ HU), HUa. }
  change ((0 + 1) * PGSIZE) with PGSIZE in E. exists r, s', l', T'. split_and!; [done..|by eapply data_same_changes|].
  destruct Hres as [(-> & _ & j & Hj & Hm)|[-> Hm]]; [left|right]; (split; [done|]).
  - assert (j = 0%nat) as -> by lia. eapply uspace_grown; [done..| |by left]. intros va Hva Hval.
    rewrite Hm, decide_False by (lia || auto). by apply HU.
  - destruct (flags_present perm Hperm) as [Hfl HP]. eapply uspace_grown; [done..| |right; exists a, p, (Z.lor perm PTE_P); split_and!; done || lia].
    intros va Hva Hval. rewrite Hm by auto. destruct (decide (va = a)) as [->|Hne].
    + rewrite decide_True, Z.sub_diag, lookup_insert_eq by lia. cbn. f_equal. by apply entry_of_map.
    + rewrite decide_False, lookup_insert_ne by lia. by apply HU.
Qed.

(** A range of the kernel: the user part stays. *)
Lemma map_kernel pgdir l T U s va k pa perm :
  uspace pgdir l T U s -> KERNBASE <= va -> va mod PGSIZE = 0 -> 0 <= k -> va + k * PGSIZE < 2 ^ 32 -> is_u32 pa ->
  (forall va', is_u32 va' -> va' mod PGSIZE = 0 -> va <= va' <= va + k * PGSIZE -> mapped (k_mem s) T va' = None) ->
  exists r s' l' T', mappages pgdir va ((k + 1) * PGSIZE) pa perm s = Done (r, s') /\ pool l' T' = pool l T /\
    changes_in ({[pgdir]} ∪ pool l T) (k_mem s) (k_mem s') /\ uspace pgdir l' T' U s' /\
    (r = -1 \/ r = 0 /\ maps_to (k_mem s) T (k_mem s') T' va (Z.to_nat k) pa perm).
Proof.
  intros HU Hva Hal Hk Hlim Hpa Hfree.
  assert (forall va, 0 <= va < KERNBASE -> is_u32 va) as Hu by (unfold KERNBASE; intros; wrap_lia).
  destruct (mappages_run end_ pgdir l T s va k pa perm) as (r & s' & l' & T' & E & Hvm & _ & Hpool & Hds & Hres);
    [apply HU|unfold KERNBASE, PGSIZE in *; wrap_lia|done..|].
  exists r, s', l', T'. split_and!; [done..|by eapply data_same_changes| |by destruct Hres as [(-> & _)|?]; [left|right]].
  eapply uspace_grown; [done..| |by left]. intros va' Hva' Hval.
  destruct Hres as [(_ & _ & j & _ & Hm)|[_ Hm]]; rewrite Hm, decide_False by (lia || auto); by apply HU.
Qed.
(** ** [allocuvm] *)

Lemma free_list_ext l s s' X :
  free_list end_ l s -> freelist s' = freelist s -> changes_in X (k_mem s) (k_mem s') ->
  (forall q, q ∈ X -> q mod PGSIZE = 0) -> (forall q, q ∈ l -> q ∉ X) -> free_list end_ l s'.
Proof.
  intros [Hch Hnd Hpg] Hf Hc Hal Hl. split; [|done|done]. rewrite Hf. eapply chain_ext; [|exact Hch].
  intros p a Hp Ha. symmetry. eapply changes_in_page; [done|by apply Hl|done| |done].
  by apply (proj1 (Forall_forall _ _) Hpg p Hp).
Qed.

(** A page taken from the allocator, with anything written to it. *)
Lemma take_page pgdir p l T U s :
  uspace pgdir (p :: l) T U s ->
  exists s1, kalloc s = Done (p, s1) /\ k_mem s1 = k_mem s /\ page_ok end_ p /\ p <> pgdir /\ p <> 0 /\ (p ∉ owned l T U) /\
    owned (p :: l) T U = {[p]} ∪ owned l T U /\
    forall m', changes_in {[p]} (k_mem s1) m' -> uspace pgdir l T U (with_mem m' s1).
Proof.
  intros HU. assert (page_ok end_ p) as Hp.
  { eapply uspace_pages; [exact HU|]. apply elem_of_union_r, elem_of_union_l, elem_of_pool. left. constructor. }
  destruct (us_vm _ _ _ _ _ HU) as [Hf Ht Hdl Htl]. destruct (kalloc_run end_ _ _ Hf) as (s1 & E & Hf1 & Hm1). cbn [hd tl] in *.
  apply not_elem_of_cons in Hdl as [Hd Hdl]. destruct Hf as [_ [Hpl _]%NoDup_cons _].
  assert (p ∉ owned l T U) as Hpo.
  { unfold owned. rewrite elem_of_union, elem_of_pool. intros [[?|(i & Hi)]|Hfr]; [done|apply (Htl _ _ Hi); constructor|].
    destruct (us_frame _ _ _ _ _ HU p Hfr) as (_ & _ & Hn). apply Hn, elem_of_pool. left. constructor. }
  assert (forall q, q ∈ ({[p]} : gset Z) -> q mod PGSIZE = 0) as Hal by (intros q ->%elem_of_singleton; apply Hp).
  exists s1. split_and!; [done..|by intros ->|destruct Hp as (_ & _ & ?); unfold KERNBASE in *; lia|done| |].
  { unfold owned, pool. cbn [list_to_set]. by rewrite !assoc_L by apply _. }
  intros m' Hc. eapply (uspace_frame pgdir (p :: l) T U s l (with_mem m' s1) {[p]}); [done|by rewrite <- Hm1|done|..].
  - rewrite elem_of_singleton. done.
  - intros q Hq ->%elem_of_singleton. apply Hpo. unfold owned, pool. by apply elem_of_union_l, elem_of_union_r.
  - eapply (free_list_ext l s1); [done|done|done|done|]. intros q Hq ->%elem_of_singleton. done.
  - done.
  - intros q [(i & Hi)%elem_of_map_img|Hq]%elem_of_union Hl; [apply (Htl _ _ Hi); by constructor|].
    destruct (us_frame _ _ _ _ _ HU q Hq) as (_ & _ & Hn). apply Hn, elem_of_pool. left. by constructor.
Qed.

(** A page that is given back. *)
Lemma give_page pgdir p l T U s :
  uspace pgdir l T U s -> page_ok end_ p -> p <> pgdir -> p ∉ owned l T U ->
  exists s', kfree end_ p s = Done (tt, s') /\ uspace pgdir (p :: l) T U s' /\ changes_in {[p]} (k_mem s) (k_mem s').
Proof.
  intros HU Hp Hpd Hpo. unfold owned in Hpo. rewrite elem_of_union, elem_of_pool in Hpo. destruct (us_vm _ _ _ _ _ HU) as [Hf Ht Hdl Htl].
  destruct (kfree_run end_ l s p Hf Hp) as (s1 & E & Hf1 & Hm1); [tauto|].
  assert (changes_in {[p]} (k_mem s) (k_mem s1)) as Hc by (intros a Ha; apply Hm1, Ha; by apply elem_of_singleton).
  exists s1. split_and!; [done| |done]. eapply (uspace_frame pgdir l T U s (p :: l) s1 {[p]}); [done|done|..].
  - intros q ->%elem_of_singleton. apply Hp.
  - rewrite elem_of_singleton. done.
  - intros q (i & Hi)%elem_of_map_img ->%elem_of_singleton. apply Hpo. eauto.
  - done.
  - apply not_elem_of_cons. done.
  - intros q [(i & Hi)%elem_of_map_img|Hq]%elem_of_union; rewrite elem_of_cons; intros [->|Hl].
    + apply Hpo. eauto.
    + by apply (Htl _ _ Hi).
    + apply Hpo. by right.
    + destruct (us_frame _ _ _ _ _ HU q Hq) as (_ & _ & Hn). apply Hn, elem_of_pool. by left.
Qed.

Lemma memset_page m p c : changes_in {[p]} m (memset m p c PGSIZE) /\ forall a, in_page p a -> ld (memset m p c PGSIZE) a = u8 c.
Proof.
  split; intros a Ha; rewrite memset_correct by done.
  - rewrite decide_False; [done|]. apply (Ha p). by apply elem_of_singleton.
  - by rewrite decide_True.
Qed.
Lemma tabs_pool l T : map_img T ⊆ pool l T.
Proof. intros q (i & Hi)%elem_of_map_img. apply elem_of_pool. eauto. Qed.

Lemma frames_insert U a p fl : U !! a = None -> frames (<[a := (p, fl)]> U) = {[p]} ∪ frames U.
Proof. intros Ha. rewrite (frames_delete _ a p fl) by apply lookup_insert_eq. by rewrite delete_insert_id. Qed.

Definition same_page (m m' : mem) (p : Z) : Prop := forall a, in_page p a -> ld m' a = ld m a.
Definition zero_page (m : mem) (p : Z) : Prop := forall a, in_page p a -> ld m a = 0.

(** Frames of the space are not in what [mappages] writes. *)
Lemma frame_same pgdir l T U s m m' p :
  uspace pgdir l T U s -> p ∈ frames U -> changes_in ({[pgdir]} ∪ pool l T) m m' -> same_page m m' p.
Proof.
  intros HU Hp Hc a Ha. destruct (us_frame _ _ _ _ _ HU p Hp) as ([Hal _] & Hd & Hpp).
  eapply changes_in_page; [done| | |done|done].
  - rewrite elem_of_union, elem_of_singleton. tauto.
  - intros q Hq. eapply uspace_pages; [exact HU|]. unfold owned. apply elem_of_union in Hq as [?|?]; apply elem_of_union; [by left|right].
    by apply elem_of_union_l.
Qed.

(** Mapping a page that was taken and written keeps the frames and that page. *)
Lemma new_page_same pgdir l T U s m m' p :
  uspace pgdir l T U s -> page_ok end_ p -> p <> pgdir -> p ∉ owned l T U ->
  changes_in ({[pgdir]} ∪ pool l T) m m' -> same_page m m' p.
Proof.
  intros HU Hp Hpd Hpo Hc a Ha. unfold owned in Hpo. rewrite elem_of_union in Hpo. eapply changes_in_page; [exact Hc| | |apply Hp|done].
  - rewrite elem_of_union, elem_of_singleton. tauto.
  - intros q Hq. eapply uspace_pages; [exact HU|]. unfold owned. apply elem_of_union in Hq as [?|?]; apply elem_of_union; [by left|right].
    by apply elem_of_union_l.
Qed.

Lemma kept_frames pgdir l T U s1 m2 m3 p q :
  uspace pgdir l T U (with_mem m2 s1) -> page_ok end_ p -> p ∉ owned l T U -> changes_in {[p]} (k_mem s1) m2 ->
  changes_in ({[pgdir]} ∪ pool l T) m2 m3 -> q ∈ frames U -> same_page (k_mem s1) m3 q.
Proof.
  intros HU Hp Hpo Hc2 Hc3 Hq a Ha. rewrite (frame_same pgdir l T U _ m2 m3 q HU Hq Hc3 a Ha).
  assert (q <> p) as Hqp by (intros ->; apply Hpo; by apply elem_of_union_r).
  eapply changes_in_page; [exact Hc2|by rewrite elem_of_singleton|by intros ? ->%elem_of_singleton; apply Hp| |done].
  by apply (us_frame _ _ _ _ _ HU q Hq).
Qed.

(** What a call that returns [r] leaves of [U]: with the new pages, zeroed, or
    as it was. *)
Definition alloc_post (r newsz b a : Z) (U U' : gmap Z (Z * Z)) (m m' : mem) : Prop :=
  r = newsz /\ (forall va, ~ (a <= va < newsz) -> U' !! va = U !! va) /\
    (forall va, a <= va < newsz -> va mod PGSIZE = 0 -> exists p, U' !! va = Some (p, 7) /\ zero_page m' p) /\
    (forall p, p ∈ frames U -> same_page m m' p)
  \/ r = 0 /\ without b newsz U U'.

Lemma alloc_post_step r newsz b a U U' m m3 m' p :
  b <= a < newsz -> a mod PGSIZE = 0 -> U !! a = None ->
  (forall va, a < va < a + PGSIZE -> va mod PGSIZE = 0 -> False) -> (forall q, q ∈ frames U -> same_page m m3 q) -> zero_page m3 p ->
  alloc_post r newsz b (a + PGSIZE) (<[a := (p, 7)]> U) U' m3 m' -> alloc_post r newsz b a U U' m m'.
Proof.
  intros Hb Hal HUa Hgap Hsame Hz. pose proof (frames_insert U a p 7 HUa) as HF. unfold PGSIZE in *.
  intros [(-> & Hout & Hin & Hkeep)|[-> Hw]]; [left|right].
  - rewrite HF in Hkeep. split_and!; [done|..].
    + intros va Hva. rewrite Hout, lookup_insert_ne by lia. done.
    + intros va Hva Hval. destruct (decide (va = a)) as [->|Hne].
      * exists p. rewrite Hout, lookup_insert_eq by lia. split; [done|]. intros x Hx.
        rewrite (Hkeep p) by (done || by apply elem_of_union_l, elem_of_singleton). by apply Hz.
      * apply Hin; [|done]. destruct (decide (va < a + 4096)); [|lia]. exfalso. apply (Hgap va); [lia|done].
    + intros q Hq x Hx. rewrite (Hkeep q) by (done || by apply elem_of_union_r). by apply (Hsame q Hq).
  - split; [done|]. intros va. rewrite Hw. case_decide; [done|]. rewrite lookup_insert_ne by lia. done.
Qed.

Lemma alloc_fail pgdir l T U s oldsz newsz a X :
  uspace pgdir l T U s -> 0 <= oldsz -> PGROUNDUP oldsz <= a -> a < newsz -> newsz <= KERNBASE -> oldsz < newsz ->
  pool l T ⊆ X -> (forall va p fl, PGROUNDUP oldsz <= va < a -> U !! va = Some (p, fl) -> p ∈ X) ->
  (forall va, a <= va < newsz -> U !! va = None) ->
  exists l' U' s', deallocuvm end_ pgdir newsz oldsz s = Done (oldsz, s') /\ uspace pgdir l' T U' s' /\
    without (PGROUNDUP oldsz) newsz U U' /\ owned l' T U' = owned l T U /\ changes_in X (k_mem s) (k_mem s').
Proof.
  intros HU Ho Hb Ha Hk Hlt HX Hfr Hno.
  destruct (deallocuvm_run pgdir l T U s newsz oldsz X) as (l' & U' & s' & E & H1 & H2 & H3 & H4); [done|done|lia| | |].
  { etrans; [apply tabs_pool|exact HX]. }
  { intros va p fl Hva HUv. destruct (decide (va < a)); [by apply (Hfr va p fl); [lia|]|]. by rewrite Hno in HUv by lia. }
  rewrite Z.min_r in E by lia. rewrite (proj2 (Z.leb_gt _ _)) in H2 by lia. exists l', U', s'. by split_and!.
Qed.

Lemma allocuvm_from_run fuel pgdir l T U s oldsz newsz a X :
  uspace pgdir l T U s -> 0 <= oldsz < newsz -> newsz <= KERNBASE -> PGROUNDUP oldsz <= a -> 0 <= a -> a mod PGSIZE = 0 ->
  newsz - a <= Z.of_nat fuel * PGSIZE -> {[pgdir]} ∪ pool l T ⊆ X ->
  (forall va p fl, PGROUNDUP oldsz <= va < a -> U !! va = Some (p, fl) -> p ∈ X) ->
  (forall va, a <= va < newsz -> U !! va = None) ->
  exists r l' T' U' s', allocuvm_from end_ (S fuel) pgdir oldsz newsz a s = Done (r, s') /\ uspace pgdir l' T' U' s' /\
    owned l' T' U' = owned l T U /\ changes_in X (k_mem s) (k_mem s') /\
    alloc_post r newsz (PGROUNDUP oldsz) a U U' (k_mem s) (k_mem s').
Proof.
  revert l T U s a. induction fuel as [|fuel IH]; intros l T U s a HU Hsz Hk Hb Ha Hal Hfu HX Hfr Hno.
  { cbn [allocuvm_from]. rewrite (proj2 (Z.ltb_ge _ _)) by lia. exists newsz, l, T, U, s. split_and!; try done. left.
    split_and!; try done. intros va Hva. lia. }
  rewrite Nat2Z.inj_succ in Hfu. remember (S fuel) as f eqn:Ef. cbn [allocuvm_from]. subst f.
  destruct (Z.ltb_spec a newsz) as [Hlt|Hge].
  2:{ exists newsz, l, T, U, s. split_and!; try done. left. split_and!; try done. intros va Hva. lia. }
  destruct l as [|p l].
  { destruct (kalloc_run end_ [] s) as (s1 & E & Hf1 & Hm1); [apply HU|]. cbn [hd tl] in *.
    assert (s1 = s) as -> by (pose proof (us_vm _ _ _ _ _ HU) as [[Hch _ _] _ _ _]; cbn in Hch; unfold kalloc in E; rewrite Hch in E; by injection E).
    erewrite bind_done by exact E. cbn [Z.eqb].
    destruct (alloc_fail pgdir [] T U s oldsz newsz a X) as (l' & U' & s' & E' & H1 & H2 & H3 & H4); [done|lia|done..|lia| |done|done|].
    { etrans; [|exact HX]. apply union_subseteq_r. }
    erewrite bind_done by exact E'. exists 0, l', T, U', s'. split_and!; try done. by right. }
  destruct (take_page _ _ _ _ _ _ HU) as (s1 & E & Hm1 & Hp & Hpd & Hp0 & Hpo & Hown & Hput).
  erewrite bind_done by exact E. rewrite (proj2 (Z.eqb_neq _ _) Hp0).
  destruct (memset_page (k_mem s1) p 0) as [Hc2 Hz2]. set (s2 := with_mem (memset (k_mem s1) p 0 PGSIZE) s1).
  pose proof (Hput _ Hc2) as HU2. fold s2 in HU2. erewrite bind_done by reflexivity. fold s2.
  assert (p ∈ X /\ {[pgdir]} ∪ pool l T ⊆ X) as [HpX HX2].
  { split; [apply HX, elem_of_union_r, elem_of_pool; left; constructor|]. etrans; [|exact HX]. apply union_mono_l.
    intros q. rewrite !elem_of_pool, elem_of_cons. tauto. }
  assert (changes_in X (k_mem s) (k_mem s2)) as Hcs2 by (rewrite <- Hm1; eapply changes_in_mono; [|exact Hc2]; by apply singleton_subseteq_l).
  destruct (map_user pgdir l T U s2 a p (Z.lor PTE_W PTE_U)) as (r & s3 & l3 & T3 & E3 & Hpool & Hc3 & Hres);
    [done|lia|done|apply Hno; lia|done..|].
  assert (owned (p :: l) T U = {[p]} ∪ owned l3 T3 U) as Hown3 by (rewrite Hown; unfold owned; by rewrite Hpool).
  erewrite bind_done by exact E3. destruct Hres as [[-> HU3]|[-> HU3]]; cbn [Z.ltb Z.compare].
  - destruct (alloc_fail pgdir l3 T3 U s3 oldsz newsz a X) as (l4 & U4 & s4 & E4 & HU4 & Hw4 & Ho4 & Hc4); [done|lia|done..|lia| |done|done|].
    { rewrite Hpool. etrans; [|exact HX2]. apply union_subseteq_r. }
    erewrite bind_done by exact E4.
    destruct (give_page pgdir p l4 T3 U4 s4) as (s5 & E5 & HU5 & Hc5); [done..| |].
    { rewrite Ho4. unfold owned. by rewrite Hpool. }
    erewrite bind_done by exact E5. exists 0, (p :: l4), T3, U4, s5. split_and!; [done..| | |by right].
    + rewrite Hown3, <- Ho4. unfold owned, pool. cbn [list_to_set]. by rewrite !assoc_L by apply _.
    + eapply changes_in_trans; [exact Hcs2|]. eapply changes_in_trans; [eapply changes_in_mono; [exact HX2|exact Hc3]|].
      eapply changes_in_trans; [exact Hc4|]. eapply changes_in_mono; [|exact Hc5]. by apply singleton_subseteq_l.
  - change (Z.lor (Z.lor PTE_W PTE_U) PTE_P) with 7 in HU3. assert (U !! a = None) as HUa by (apply Hno; lia).
    assert (u32 (a + PGSIZE) = a + PGSIZE) as -> by (apply u32_small; unfold KERNBASE, PGSIZE in *; wrap_lia).
    assert (forall va, a < va < a + PGSIZE -> va mod PGSIZE = 0 -> False) as Hgap by (unfold PGSIZE in *; intros; Z.div_mod_to_equations; lia).
    destruct (IH l3 T3 (<[a := (p, 7)]> U) s3 (a + PGSIZE)) as (r & l4 & T4 & U4 & s4 & E4 & HU4 & Ho4 & Hc4 & Hpost);
      [done|done|done|unfold PGSIZE; lia|unfold PGSIZE; lia|unfold PGSIZE in *; Z.div_mod_to_equations; lia|lia|by rewrite Hpool| | |].
    { intros va q fl Hva [[<- [= <- <-]]|[Hne HUv]]%lookup_insert_Some; [done|]. apply (Hfr va q fl); [|done].
      destruct (us_dom _ _ _ _ _ HU _ _ HUv) as [_ Hval]. destruct (decide (va < a)); [lia|]. exfalso. apply (Hgap va); [lia|done]. }
    { intros va Hva. rewrite lookup_insert_ne by (unfold PGSIZE in *; lia). apply Hno. unfold PGSIZE in *. lia. }
    exists r, l4, T4, U4, s4. split_and!; [done|done| | |].
    + rewrite Ho4, Hown3. unfold owned. rewrite (frames_insert _ _ _ _ HUa). apply set_eq. intros q. rewrite !elem_of_union. tauto.
    + eapply changes_in_trans; [exact Hcs2|]. eapply changes_in_trans; [eapply changes_in_mono; [exact HX2|exact Hc3]|exact Hc4].
    + eapply alloc_post_step; [lia|done|done|exact Hgap| | |exact Hpost].
      * intros q Hq. rewrite <- Hm1. by eapply (kept_frames pgdir l T U s1).
      * intros b Hb'. rewrite (new_page_same pgdir l T U s2 _ _ p HU2 Hp Hpd Hpo Hc3 b Hb'). by apply Hz2.
Qed.

Lemma allocuvm_run pgdir l T U s oldsz newsz :
  uspace pgdir l T U s -> 0 <= oldsz <= newsz -> newsz < KERNBASE ->
  (forall va, PGROUNDUP oldsz <= va < newsz -> U !! va = None) ->
  exists r l' T' U' s', allocuvm end_ pgdir oldsz newsz s = Done (r, s') /\ uspace pgdir l' T' U' s' /\
    owned l' T' U' = owned l T U /\ changes_in ({[pgdir]} ∪ pool l T) (k_mem s) (k_mem s') /\
    alloc_post r newsz (PGROUNDUP oldsz) (PGROUNDUP oldsz) U U' (k_mem s) (k_mem s').
Proof.
  intros HU Ho Hk Hno. unfold allocuvm. rewrite (proj2 (Z.leb_gt _ _)), (proj2 (Z.ltb_ge _ _)) by lia.
  destruct (PGROUNDUP_spec oldsz) as [Hal Hup]; [unfold KERNBASE in *; wrap_lia|unfold KERNBASE, PGSIZE in *; lia|].
  destruct (decide (oldsz = newsz)) as [<-|Hne].
  { cbn [allocuvm_from]. rewrite (proj2 (Z.ltb_ge _ _)) by lia. exists oldsz, l, T, U, s. split_and!; try done. left.
    split_and!; try done. intros va Hva. lia. }
  apply allocuvm_from_run; try done; try lia. unfold PGSIZE in *. Z.div_mod_to_equations. lia.
Qed.
(** ** [setupkvm] *)

(** No page is mapped from [lim] on. *)
Definition unmapped_from (lim : Z) (m : mem) (T : gmap Z Z) : Prop :=
  forall va, is_u32 va -> va mod PGSIZE = 0 -> lim <= va -> mapped m T va = None.

(** The ranges of [kmap] are whole pages above [lim], in order. *)
Fixpoint ranges_ok (lim : Z) (ks : list (Z * Z * Z * Z)) : Prop :=
  match ks with
  | [] => True
  | (virt, phys_start, phys_end, perm) :: ks =>
      lim <= virt /\ virt mod PGSIZE = 0 /\ is_u32 phys_start /\
      exists k, 0 <= k /\ u32 (phys_end - phys_start) = (k + 1) * PGSIZE /\ virt + k * PGSIZE < 2 ^ 32 /\
        ranges_ok (virt + (k + 1) * PGSIZE) ks
  end.

Lemma kmap_ranges data_ :
  data_ mod PGSIZE = 0 -> KERNLINK < data_ < KERNBASE + PHYSTOP -> ranges_ok KERNBASE (kmap data_).
Proof.
  intros Hal Hr. unfold kmap. cbn [ranges_ok]. unfold KERNLINK, KERNBASE, EXTMEM, PHYSTOP, DEVSPACE, PGSIZE, V2P in *. unfold KERNBASE.
  refine (conj _ (conj _ (conj _ _))); [lia|done|done|]. exists 255. refine (conj _ (conj _ (conj _ _))); [lia|done|done|].
  refine (conj _ (conj _ (conj _ _))); [lia|done|done|]. exists ((data_ - 0x80100000) / 4096 - 1). refine (conj _ (conj _ (conj _ _))); [wrap_lia..|].
  refine (conj _ (conj _ (conj _ _))); [wrap_lia|done|auto with os|]. exists ((0x80000000 + 0xE000000 - data_) / 4096 - 1).
  refine (conj _ (conj _ (conj _ _))); [wrap_lia..|]. refine (conj _ (conj _ (conj _ _))); [wrap_lia|done|done|]. exists 8191. refine (conj _ (conj _ (conj _ _))); [lia|done|done|done].
Qed.

(** What remains when a call fails: every page is free again. *)
Definition all_free (Q : gset Z) (s : kmem) : Prop := exists l, free_list end_ l s /\ list_to_set l = Q.

Lemma setupkvm_map_run ks pgdir lim l T s Q :
  uspace pgdir l T ∅ s -> {[pgdir]} ∪ owned l T ∅ = Q -> KERNBASE <= lim -> unmapped_from lim (k_mem s) T -> ranges_ok lim ks ->
  exists r s', setupkvm_map end_ pgdir ks s = Done (r, s') /\ changes_in Q (k_mem s) (k_mem s') /\
    (r = 0 /\ all_free Q s' \/
     r = pgdir /\ exists l' T', uspace pgdir l' T' ∅ s' /\ {[pgdir]} ∪ owned l' T' ∅ = Q).
Proof.
  revert lim l T s. induction ks as [|[[[virt ps] pe] perm] ks IH]; intros lim l T s HU HQ Hlim Hun Hks; cbn [setupkvm_map].
  { exists pgdir, s. split_and!; [done..|]. right. split; [done|]. by exists l, T. }
  destruct Hks as (Hv & Hval & Hps & k & Hk & Hsz & Hend' & Hks). rewrite Hsz.
  destruct (map_kernel pgdir l T ∅ s virt k ps perm) as (r & s1 & l1 & T1 & E1 & Hpool & Hc1 & HU1 & Hres); [done|lia|done..| |].
  { intros va Hva Hval' Hr. apply Hun; [done..|lia]. }
  erewrite bind_done by exact E1. assert ({[pgdir]} ∪ owned l1 T1 ∅ = Q) as HQ1 by (rewrite <- HQ; unfold owned; by rewrite Hpool).
  assert (changes_in Q (k_mem s) (k_mem s1)) as HcQ.
  { eapply changes_in_mono; [|exact Hc1]. rewrite <- HQ. apply union_mono_l. apply union_subseteq_l. }
  destruct Hres as [-> |[-> Hm]]; cbn [Z.ltb Z.compare].
  - destruct (freevm_run pgdir l1 T1 ∅ s1 HU1) as (l2 & s2 & E2 & Hf2 & Hl2 & Hc2). erewrite bind_done by exact E2.
    exists 0, s2. split_and!; [done| |left; split; [done|]; exists l2; by rewrite Hl2].
    eapply changes_in_trans; [exact HcQ|]. eapply changes_in_mono; [|exact Hc2]. rewrite <- HQ1. apply union_mono_l.
    apply union_mono_r, tabs_pool.
  - destruct (IH (virt + (k + 1) * PGSIZE) l1 T1 s1) as (r & s2 & E2 & Hc2 & Hres); [done|done|unfold PGSIZE in *; lia| |done|].
    { intros va Hva Hval' Hr. rewrite Hm by done. rewrite decide_False by (unfold PGSIZE in *; lia). apply Hun; [done..|unfold PGSIZE in *; lia]. }
    exists r, s2. split_and!; [done|by eapply changes_in_trans|done].
Qed.

(** An empty space in a page that was just cleared. *)
Lemma uspace_empty d l s :
  free_list end_ l s -> page_ok end_ d -> d ∉ l -> zero_page (k_mem s) d -> uspace d l ∅ ∅ s.
Proof.
  intros Hf Hd Hdl Hz. split; try done.
  - split; [done| |done|done]. split; [by apply page_ok_kpage| |done|done]. intros i Hi. rewrite lookup_empty.
    replace (ld32 (k_mem s) (d + 4 * i)) with 0; [done|]. unfold ld32, lds. cbn.
    rewrite !Hz by (unfold in_page, PGSIZE, NPDENTRIES in *; lia). done.
Qed.

Lemma setupkvm_run data_ l s :
  free_list end_ l s -> data_ mod PGSIZE = 0 -> KERNLINK < data_ < KERNBASE + PHYSTOP ->
  exists r s', setupkvm end_ data_ s = Done (r, s') /\ changes_in (list_to_set l) (k_mem s) (k_mem s') /\
    (r = 0 /\ all_free (list_to_set l) s' \/
     r <> 0 /\ exists l' T', uspace r l' T' ∅ s' /\ {[r]} ∪ owned l' T' ∅ = list_to_set l).
Proof.
  intros Hf Hd1 Hd2. unfold setupkvm. destruct (kalloc_run end_ l s Hf) as (s1 & E1 & Hf1 & Hm1). erewrite bind_done by exact E1.
  destruct l as [|d l]; cbn [hd tl] in *.
  { cbn [Z.eqb]. exists 0, s1. split_and!; [done|by rewrite Hm1|]. left. split; [done|]. by exists []. }
  destruct Hf as [_ [Hdl Hnd]%NoDup_cons [Hd _]%Forall_cons].
  rewrite (proj2 (Z.eqb_neq _ _)) by (destruct Hd as (_ & _ & ?); unfold KERNBASE in *; lia).
  destruct (memset_page (k_mem s1) d 0) as [Hc Hz]. erewrite bind_done by reflexivity.
  set (s2 := set_free _ _ _). change (DEVSPACE <? P2V PHYSTOP) with false. cbn iota.
  assert (changes_in {[d]} (k_mem s) (k_mem s2)) as Hc2 by (rewrite <- Hm1; exact Hc).
  assert (uspace d l ∅ ∅ s2) as HU.
  { apply uspace_empty; [|done|done|exact Hz]. eapply (free_list_ext l s1); [done|done|exact Hc| |].
    - intros q ->%elem_of_singleton. apply Hd.
    - intros q Hq ->%elem_of_singleton. done. }
  destruct (setupkvm_map_run (kmap data_) d KERNBASE l ∅ s2 (list_to_set (d :: l))) as (r & s3 & E3 & Hc3 & Hres);
    [done| |done|done|by apply kmap_ranges|].
  { unfold owned, pool, frames. rewrite fmap_empty, !map_img_empty_L, !union_empty_r_L. done. }
  exists r, s3. split_and!; [done| |].
  - eapply changes_in_trans; [|exact Hc3]. eapply changes_in_mono; [|exact Hc2]. apply union_subseteq_l.
  - destruct Hres as [?|(-> & l' & T' & H1 & H2)]; [by left|right]. split; [|by exists l', T'].
    destruct Hd as (_ & _ & ?). unfold KERNBASE in *. lia.
Qed.
(** ** [copyuvm] *)

Definition copy_page (m : mem) (p : Z) (m' : mem) (q : Z) : Prop :=
  forall k, 0 <= k < PGSIZE -> ld m' (q + k) = ld m (p + k).

Lemma memmove_page m q p : changes_in {[q]} m (memmove m q p PGSIZE) /\ copy_page m p (memmove m q p PGSIZE) q.
Proof.
  split.
  - intros a Ha. rewrite memmove_correct by done. rewrite decide_False; [done|]. apply (Ha q). by apply elem_of_singleton.
  - intros k Hk. rewrite memmove_correct by done. rewrite decide_True by lia. f_equal. lia.
Qed.

(** The pages of one space, apart from the allocator's. *)
Definition held (pgdir : Z) (T : gmap Z Z) (U : gmap Z (Z * Z)) : gset Z := {[pgdir]} ∪ (map_img T ∪ frames U).

(** A space stays as it is while others work in the pages [Q]. *)
Lemma uspace_apart pgdir l T U s Q l' s' :
  uspace pgdir l T U s -> held pgdir T U ## Q -> changes_in Q (k_mem s) (k_mem s') -> (forall q, q ∈ Q -> page_ok end_ q) ->
  free_list end_ l' s' -> list_to_set l' ⊆ Q ->
  uspace pgdir l' T U s' /\ forall p, p ∈ frames U -> same_page (k_mem s) (k_mem s') p.
Proof.
  intros HU Hd Hc HQ Hf Hl. unfold held in Hd.
  assert ((pgdir ∉ Q) /\ forall q, q ∈ (map_img T : gset Z) ∪ frames U -> q ∉ Q) as [Hdq Htq].
  { split; [intros Hx; apply (Hd pgdir); [by apply elem_of_union_l, elem_of_singleton|done]|].
    intros q Hq Hx. apply (Hd q); [by apply elem_of_union_r|done]. }
  split.
  - eapply (uspace_frame pgdir l T U s l' s' Q); [done|done|intros q Hq; by apply HQ|done| |done| |].
    + intros q Hq. apply Htq. by apply elem_of_union_l.
    + intros Hin. apply Hdq, Hl. by apply elem_of_list_to_set.
    + intros q Hq Hin. apply (Htq q Hq), Hl. by apply elem_of_list_to_set.
  - intros p Hp a Ha. eapply changes_in_page; [done| | |apply (us_frame _ _ _ _ _ HU p Hp)|done].
    + apply Htq. by apply elem_of_union_r.
    + intros q Hq. by apply HQ.
Qed.

Lemma uspace_disjoint pgdir l T U s : uspace pgdir l T U s -> held pgdir T U ## list_to_set l.
Proof.
  intros HU q Hq Hl%elem_of_list_to_set. destruct (us_vm _ _ _ _ _ HU) as [_ _ Hd Ht]. unfold held in Hq.
  rewrite !elem_of_union, elem_of_singleton, elem_of_map_img in Hq. destruct Hq as [->|[(i & Hi)|Hq]]; [done|by apply (Ht _ _ Hi)|].
  destruct (us_frame _ _ _ _ _ HU q Hq) as (_ & _ & Hn). apply Hn, elem_of_pool. by left.
Qed.

Lemma flags_kept fl : bit fl PTE_P = true -> Z.lor fl PTE_P = fl.
Proof.
  unfold bit. intros Hb%negb_true_iff%Z.eqb_neq. apply Z.bits_inj'. intros n Hn. rewrite Z.lor_spec.
  change PTE_P with (2 ^ 0) in *. destruct (decide (n = 0)) as [->|Hne].
  - rewrite Z.pow2_bits_true by lia. rewrite orb_true_r. destruct (Z.testbit fl 0) eqn:E; [done|]. exfalso. apply Hb.
    apply Z.bits_inj'. intros j Hj. rewrite Z.land_spec, Z.bits_0. destruct (decide (j = 0)) as [->|]; [by rewrite E|].
    rewrite Z.pow2_bits_false by lia. apply andb_false_r.
  - rewrite Z.pow2_bits_false by lia. apply orb_false_r.
Qed.

(** The child [Ud] has a copy of each page of [U] below [i], and nothing else. *)
Definition copied (U Ud : gmap Z (Z * Z)) (i : Z) (m m' : mem) : Prop :=
  forall va, match Ud !! va with
             | Some (q, fl) => va < i /\ exists p, U !! va = Some (p, fl) /\ copy_page m p m' q
             | None => va < i -> U !! va = None
             end.

Section copy.
Context (pgdir : Z) (T : gmap Z Z) (U : gmap Z (Z * Z)) (Q : gset Z).
Context (Happ : held pgdir T U ## Q) (HQ : forall q, q ∈ Q -> page_ok end_ q).

(** One round: a page of the child, with the copy, or a failure. *)
Lemma copy_one d l Td Ud s va p fl m0 :
  uspace pgdir l T U s -> uspace d l Td Ud s -> {[d]} ∪ owned l Td Ud = Q -> U !! va = Some (p, fl) -> Ud !! va = None ->
  copied U Ud va m0 (k_mem s) -> (forall q, q ∈ frames U -> same_page m0 (k_mem s) q) ->
  match l with
  | [] => True
  | q :: l1 => exists s1 r s3 l3 T3, kalloc s = Done (q, s1) /\ q <> 0 /\
      mappages d va PGSIZE (V2P q) fl (with_mem (memmove (k_mem s1) q p PGSIZE) s1) = Done (r, s3) /\
      changes_in Q (k_mem s) (k_mem s3) /\
      ((r = -1 /\ uspace d l3 T3 Ud s3 /\ {[d]} ∪ owned l3 T3 Ud ∪ {[q]} = Q /\ page_ok end_ q /\ q <> d /\ q ∉ owned l3 T3 Ud) \/
       (r = 0 /\ uspace d l3 T3 (<[va := (q, fl)]> Ud) s3 /\ {[d]} ∪ owned l3 T3 (<[va := (q, fl)]> Ud) = Q /\
        uspace pgdir l3 T U s3 /\ copied U (<[va := (q, fl)]> Ud) (va + PGSIZE) m0 (k_mem s3) /\
        (forall q, q ∈ frames U -> same_page m0 (k_mem s3) q)))
  end.
Proof.
  intros HP HC HQo HUva HUd Hcop Hsame. destruct l as [|q l1]; [done|].
  destruct (us_dom _ _ _ _ _ HP _ _ HUva) as [Hvr Hval]. destruct (us_flags _ _ _ _ _ HP _ _ HUva) as [Hfl HPb]. cbn [snd] in Hfl, HPb.
  destruct (take_page _ _ _ _ _ _ HC) as (s1 & E1 & Hm1 & Hq & Hqd & Hq0 & Hqo & Hown & Hput).
  destruct (memmove_page (k_mem s1) q p) as [Hc2 Hcp2]. set (s2 := with_mem (memmove (k_mem s1) q p PGSIZE) s1) in *.
  pose proof (Hput _ Hc2) as HC2. fold s2 in HC2.
  destruct (map_user d l1 Td Ud s2 va q fl) as (r & s3 & l3 & T3 & E3 & Hpool & Hc3 & Hres); [done..|].
  rewrite (flags_kept fl HPb) in Hres.
  assert ({[d]} ∪ pool l1 Td ⊆ Q /\ q ∈ Q) as [HpQ HqQ].
  { rewrite <- HQo, Hown. split; [|by apply elem_of_union_r, elem_of_union_l, elem_of_singleton].
    apply union_mono_l. unfold owned. etrans; [|apply union_subseteq_r]. apply union_subseteq_l. }
  assert (changes_in Q (k_mem s) (k_mem s2)) as HcQ2 by (rewrite <- Hm1; eapply changes_in_mono; [|exact Hc2]; by apply singleton_subseteq_l).
  assert (changes_in Q (k_mem s) (k_mem s3)) as HcQ3 by (eapply changes_in_trans; [exact HcQ2|by eapply changes_in_mono]).
  exists s1, r, s3, l3, T3. split_and!; [done..|]. destruct Hres as [[-> HC3]|[-> HC3]]; [left|right].
  - split_and!; [done..| |done|done|by unfold owned; rewrite Hpool]. rewrite <- HQo, Hown. unfold owned. rewrite Hpool.
    apply set_eq. intros x. rewrite !elem_of_union. tauto.
  - assert ({[d]} ∪ owned l3 T3 (<[va:=(q, fl)]> Ud) = Q) as HQ3.
    { rewrite <- HQo, Hown. unfold owned. rewrite Hpool, (frames_insert _ _ _ _ HUd). apply set_eq. intros x. rewrite !elem_of_union. tauto. }
    destruct (uspace_apart pgdir _ T U s Q l3 s3 HP Happ HcQ3 HQ) as [HP3 Hs3]; [apply HC3| |].
    { rewrite <- HQ3. intros x Hx. unfold owned, pool. by apply elem_of_union_r, elem_of_union_l, elem_of_union_l. }
    split_and!; [done..| |intros x Hx a Ha; rewrite (Hs3 x Hx a Ha); by apply (Hsame x Hx)].
    intros va'. destruct (decide (va' = va)) as [->|Hne].
    + rewrite lookup_insert_eq. split; [unfold PGSIZE; lia|]. exists p. split; [done|]. intros k Hk.
      rewrite (new_page_same d l1 Td Ud s2 _ _ q HC2 Hq Hqd Hqo Hc3 (q + k)) by (unfold in_page; lia).
      change (ld (memmove (k_mem s1) q p PGSIZE) (q + k) = ld m0 (p + k)). rewrite (Hcp2 k Hk), Hm1. apply (Hsame p); [apply elem_of_frames; eauto|unfold in_page; lia].
    + rewrite lookup_insert_ne by done. specialize (Hcop va'). destruct (Ud !! va') as [[q' fl']|] eqn:Eq.
      * destruct Hcop as (Hlt & p' & Hp' & Hcp). split; [unfold PGSIZE; lia|]. exists p'. split; [done|]. intros k Hk.
        rewrite <- (Hcp k Hk), <- Hm1. eapply (kept_frames d l1 Td Ud s1); [done..|apply elem_of_frames; eauto|unfold in_page; lia].
      * intros Hlt. destruct (decide (va' < va)); [by apply Hcop|]. destruct (U !! va') as [x|] eqn:Hx; [|done].
        destruct (us_dom _ _ _ _ _ HP _ _ Hx) as [_ ?]. unfold PGSIZE in *. Z.div_mod_to_equations. lia.
Qed.
(** The child's pages are all given back. *)
Lemma copy_bad d l Td Ud s :
  uspace d l Td Ud s -> {[d]} ∪ owned l Td Ud = Q ->
  exists s', (freevm end_ d;;; ret 0) s = Done (0, s') /\ changes_in Q (k_mem s) (k_mem s') /\ all_free Q s'.
Proof.
  intros HC HQo. destruct (freevm_run d l Td Ud s HC) as (l2 & s2 & E2 & Hf2 & Hl2 & Hc2). exists s2.
  erewrite bind_done by exact E2. split_and!; [done| |exists l2; by rewrite Hl2].
  eapply changes_in_mono; [|exact Hc2]. rewrite <- HQo. apply union_mono_l, union_mono_r, tabs_pool.
Qed.

Lemma copyuvm_from_run fuel d l Td Ud s i sz m0 :
  uspace pgdir l T U s -> uspace d l Td Ud s -> {[d]} ∪ owned l Td Ud = Q ->
  0 <= i < sz + PGSIZE -> i mod PGSIZE = 0 -> sz <= KERNBASE -> sz - i <= Z.of_nat fuel * PGSIZE ->
  (forall va, 0 <= va < sz -> va mod PGSIZE = 0 -> U !! va <> None) ->
  copied U Ud i m0 (k_mem s) -> (forall q, q ∈ frames U -> same_page m0 (k_mem s) q) ->
  exists r s', copyuvm_from end_ (S fuel) pgdir d sz i s = Done (r, s') /\ changes_in Q (k_mem s) (k_mem s') /\
    (r = 0 /\ all_free Q s' \/
     r = d /\ exists l' Td' Ud', uspace d l' Td' Ud' s' /\ {[d]} ∪ owned l' Td' Ud' = Q /\ copied U Ud' sz m0 (k_mem s')).
Proof.
  revert l Td Ud s i. induction fuel as [|fuel IH]; intros l Td Ud s i HP HC HQo Hi Hal Hsz Hfu Hall Hcop Hsame;
    [|remember (S fuel) as f eqn:Ef]; cbn [copyuvm_from]; [|subst f]; destruct (Z.ltb_spec i sz) as [Hlt|Hge]; try lia.
  1,3: exists d, s; split_and!; [done..|right; split; [done|]]; exists l, Td, Ud; split_and!; [done..|];
    intros va; specialize (Hcop va); destruct (Ud !! va) as [[q fl]|] eqn:Eq; [|intros; apply Hcop; lia];
    destruct Hcop as [Hva ?]; split; [|done]; destruct (us_dom _ _ _ _ _ HC _ _ Eq) as [_ ?];
    unfold PGSIZE in *; Z.div_mod_to_equations; lia.
  destruct (U !! i) as [[p fl]|] eqn:HUi; [|exfalso; apply (Hall i); [lia|done|done]].
  destruct (us_dom _ _ _ _ _ HP _ _ HUi) as [Hir _]. destruct (us_flags _ _ _ _ _ HP _ _ HUi) as [Hfl HPb]. cbn [snd] in Hfl, HPb.
  destruct (us_frame _ _ _ _ _ HP p) as (Hp & _ & _); [apply elem_of_frames; eauto|].
  destruct (uentry_split p fl Hp Hfl) as (H1 & H2 & H3 & _).
  erewrite bind_done by (eapply walk_run; [apply (us_vm _ _ _ _ _ HP)|done]).
  pose proof (us_map _ _ _ _ _ HP i Hir Hal) as Hm. rewrite HUi in Hm.
  assert (pte (k_mem s) T i = Some (uentry (p, fl))) as Hpte.
  { unfold mapped in Hm. destruct (pte (k_mem s) T i) as [e|]; [|done]. by destruct (bit e PTE_P). }
  assert (pte (k_mem s) T i <> None) as Hpn by congruence.
  pose proof (slot_nonzero _ _ _ (vm_pgt _ _ _ _ _ (us_vm _ _ _ _ _ HP)) i Hpn) as Hnz.
  rewrite (proj2 (Z.eqb_neq _ _) Hnz). erewrite bind_done by (by apply ldw_run).
  assert (ld32 (k_mem s) (slot T i) = uentry (p, fl)) as -> by (unfold pte, slot in *; destruct (T !! PDX i); [by injection Hpte|done]).
  rewrite bit_uentry by done. cbn [negb]. rewrite H1, H2, H3.
  assert (Ud !! i = None) as HUd.
  { specialize (Hcop i). destruct (Ud !! i) as [[q f]|]; [lia|done]. }
  pose proof (copy_one d l Td Ud s i p fl m0 HP HC HQo HUi HUd Hcop Hsame) as Hone. destruct l as [|q l].
  { destruct (kalloc_run end_ [] s) as (s1 & E & Hf1 & Hm1); [apply HP|]. cbn [hd tl] in *.
    assert (s1 = s) as -> by (pose proof (us_vm _ _ _ _ _ HP) as [[Hch _ _] _ _ _]; cbn in Hch; unfold kalloc in E; rewrite Hch in E; by injection E).
    erewrite bind_done by exact E. cbn [Z.eqb]. destruct (copy_bad d [] Td Ud s HC HQo) as (s' & E' & Hc' & Hfree).
    exists 0, s'. split_and!; [done..|by left]. }
  destruct Hone as (s1 & r & s3 & l3 & T3 & E1 & Hq0 & E3 & Hc3 & Hres). erewrite bind_done by exact E1.
  rewrite (proj2 (Z.eqb_neq _ _) Hq0). erewrite bind_done by reflexivity. erewrite bind_done by exact E3.
  destruct Hres as [(-> & HC3 & HQ3 & Hq & Hqd & Hqo)|(-> & HC3 & HQ3 & HP3 & Hcop3 & Hsame3)]; cbn [Z.ltb Z.compare].
  - destruct (give_page d q l3 T3 Ud s3) as (s4 & E4 & HC4 & Hc4); [done..|]. erewrite bind_done by exact E4.
    destruct (copy_bad d (q :: l3) T3 Ud s4 HC4) as (s' & E' & Hc' & Hfree).
    { rewrite <- HQ3. unfold owned, pool. cbn [list_to_set]. apply set_eq. intros x. rewrite !elem_of_union. tauto. }
    exists 0, s'. split_and!; [done| |by left]. eapply changes_in_trans; [exact Hc3|]. eapply changes_in_trans; [|exact Hc'].
    eapply changes_in_mono; [|exact Hc4]. rewrite <- HQ3. apply union_subseteq_r.
  - assert (u32 (i + PGSIZE) = i + PGSIZE) as -> by (apply u32_small; unfold KERNBASE, PGSIZE in *; wrap_lia).
    destruct (IH l3 T3 (<[i := (q, fl)]> Ud) s3 (i + PGSIZE)) as (r & s4 & E4 & Hc4 & Hr);
      [done|done|done|unfold PGSIZE in *; lia|unfold PGSIZE in *; Z.div_mod_to_equations; lia|done|lia|done..|].
    exists r, s4. split_and!; [done|by eapply changes_in_trans|done].
Qed.
End copy.
(** ** [copyout] *)

(** The byte at a user address. *)
Definition user_byte (U : gmap Z (Z * Z)) (m : mem) (a : Z) : option Z :=
  match U !! (a - a mod PGSIZE) with Some (p, _) => Some (ld m (p + a mod PGSIZE)) | None => None end.

Lemma bit_flags p fl b : page_ok end_ p -> 0 <= fl < PGSIZE -> Z.land b 0xFFF = b -> bit (uentry (p, fl)) b = bit fl b.
Proof.
  intros Hp Hfl Hb. destruct (uentry_split p fl Hp Hfl) as (_ & HF & _). unfold bit. do 2 f_equal. rewrite <- HF at 2. unfold PTE_FLAGS.
  rewrite <- Z.land_assoc, (Z.land_comm 0xFFF b), Hb. unfold u32. rewrite <- Z.land_ones, <- Z.land_assoc by done. f_equal.
  rewrite <- Hb, (Z.land_comm b), Z.land_assoc. f_equal.
Qed.

Lemma uva2ka_run pgdir l T U s va p fl :
  uspace pgdir l T U s -> U !! va = Some (p, fl) -> bit fl PTE_U = true -> uva2ka pgdir va s = Done (p, s).
Proof.
  intros HU HUv Hu. destruct (us_dom _ _ _ _ _ HU _ _ HUv) as [Hr Hal]. destruct (us_flags _ _ _ _ _ HU _ _ HUv) as [Hfl HP]. cbn [snd] in *.
  destruct (us_frame _ _ _ _ _ HU p) as (Hp & _ & _); [apply elem_of_frames; eauto|]. destruct (uentry_split p fl Hp Hfl) as (H1 & _ & H3 & _).
  pose proof (us_map _ _ _ _ _ HU va Hr Hal) as Hm. rewrite HUv in Hm.
  assert (pte (k_mem s) T va = Some (uentry (p, fl))) as Hpte.
  { unfold mapped in Hm. destruct (pte (k_mem s) T va) as [e|]; [|done]. by destruct (bit e PTE_P). }
  assert (pte (k_mem s) T va <> None) as Hpn by congruence.
  pose proof (slot_nonzero _ _ _ (vm_pgt _ _ _ _ _ (us_vm _ _ _ _ _ HU)) va Hpn) as Hnz.
  unfold uva2ka. erewrite bind_done by (eapply walk_run; [apply (us_vm _ _ _ _ _ HU)|done]). erewrite bind_done by (by apply ldw_run).
  assert (ld32 (k_mem s) (slot T va) = uentry (p, fl)) as -> by (unfold pte, slot in *; destruct (T !! PDX va); [by injection Hpte|done]).
  rewrite !bit_flags, HP, Hu by done. cbn [negb]. by rewrite H1, H3.
Qed.

(** Without a page table the entry is read through a null pointer. *)
Lemma uva2ka_no_table pgdir l T U s va : uspace pgdir l T U s -> T !! PDX va = None -> uva2ka pgdir va s = Fault.
Proof.
  intros HU HT. unfold uva2ka. erewrite bind_done by (eapply walk_run; [apply (us_vm _ _ _ _ _ HU)|done]).
  unfold slot. by rewrite HT.
Qed.

(** Bytes stored in one frame of the space. *)
Lemma uspace_poke pgdir l T U s m' p :
  uspace pgdir l T U s -> p ∈ frames U -> changes_in {[p]} (k_mem s) m' -> uspace pgdir l T U (with_mem m' s).
Proof.
  intros HU Hp Hc. destruct (us_frame _ _ _ _ _ HU p Hp) as (Hpo & Hpd & Hpp). rewrite elem_of_pool in Hpp.
  assert (forall q, q ∈ ({[p]} : gset Z) -> q mod PGSIZE = 0) as Hal by (intros q ->%elem_of_singleton; apply Hpo).
  destruct (us_vm _ _ _ _ _ HU) as [Hf _ Hd Ht].
  eapply (uspace_frame pgdir l T U s l (with_mem m' s) {[p]}); [done|done|done| | | |done|].
  - rewrite elem_of_singleton. done.
  - intros q (i & Hi)%elem_of_map_img ->%elem_of_singleton. apply Hpp. eauto.
  - eapply free_list_ext; [exact Hf|done|exact Hc|done|]. intros q Hq ->%elem_of_singleton. tauto.
  - intros q [(i & Hi)%elem_of_map_img|Hq]%elem_of_union; [by apply (Ht _ _ Hi)|].
    destruct (us_frame _ _ _ _ _ HU q Hq) as (_ & _ & Hn). rewrite elem_of_pool in Hn. tauto.
Qed.

(** [n] bytes moved into the page of [va]. *)
Lemma poke_bytes pgdir l T U s va p fl buf n :
  uspace pgdir l T U s -> 0 <= n <= PGSIZE - va mod PGSIZE -> U !! (va - va mod PGSIZE) = Some (p, fl) ->
  let m' := memmove (k_mem s) (p + va mod PGSIZE) buf n in
  changes_in {[p]} (k_mem s) m' /\
  forall a, user_byte U m' a = if decide (va <= a < va + n /\ a - a mod PGSIZE = va - va mod PGSIZE) then Some (ld (k_mem s) (buf + (a - va)))
                               else user_byte U (k_mem s) a.
Proof.
  intros HU Hn HUv m'. assert (0 <= va mod PGSIZE < PGSIZE) as Hmod by (unfold PGSIZE; apply Z.mod_pos_bound; lia).
  assert (changes_in {[p]} (k_mem s) m') as Hc.
  { intros a Ha. unfold m'. rewrite memmove_correct by lia. rewrite decide_False; [done|]. specialize (Ha p ltac:(by apply elem_of_singleton)).
    unfold in_page in Ha. lia. }
  split; [done|]. intros a. assert (0 <= a mod PGSIZE < PGSIZE) as Hmoda by (unfold PGSIZE; apply Z.mod_pos_bound; lia).
  unfold user_byte. destruct (decide (a - a mod PGSIZE = va - va mod PGSIZE)) as [Eq|Hne].
  - rewrite Eq, HUv. unfold m'. rewrite memmove_correct by lia. case_decide as C1; case_decide as C2; try lia; [|done]. do 2 f_equal. lia.
  - rewrite decide_False by tauto. destruct (U !! (a - a mod PGSIZE)) as [[q f]|] eqn:Eq; [|done]. f_equal.
    destruct (us_frame _ _ _ _ _ HU q) as ([Hqa _] & _); [apply elem_of_frames; eauto|].
    destruct (us_frame _ _ _ _ _ HU p) as ([Hpa _] & _); [apply elem_of_frames; eauto|].
    eapply changes_in_page; [exact Hc| | |exact Hqa|unfold in_page; lia].
    + rewrite elem_of_singleton. intros ->. apply Hne. by eapply (us_inj _ _ _ _ _ HU).
    + by intros x ->%elem_of_singleton.
Qed.

Lemma copyout_from_run fuel pgdir l T U s va buf len :
  uspace pgdir l T U s -> 0 <= va -> va + len <= KERNBASE -> 0 <= len -> va mod PGSIZE + len <= Z.of_nat fuel * PGSIZE ->
  (forall a, va <= a < va + len -> exists p fl, U !! (a - a mod PGSIZE) = Some (p, fl) /\ bit fl PTE_U = true) ->
  (forall p k, p ∈ frames U -> 0 <= k < len -> ~ in_page p (buf + k)) ->
  exists s', copyout_from (S fuel) pgdir va buf len s = Done (0, s') /\ uspace pgdir l T U s' /\
    changes_in (frames U) (k_mem s) (k_mem s') /\
    forall a, user_byte U (k_mem s') a = if decide (va <= a < va + len) then Some (ld (k_mem s) (buf + (a - va))) else user_byte U (k_mem s) a.
Proof.
  revert s va buf len. induction fuel as [|fuel IH]; intros s va buf len HU Hva Hend' Hlen Hfu Hpg Hbuf;
    assert (0 <= va mod PGSIZE < PGSIZE) as Hmod by (unfold PGSIZE; apply Z.mod_pos_bound; lia);
    [|remember (S fuel) as f eqn:Ef]; cbn [copyout_from]; [|subst f]; destruct (Z.ltb_spec 0 len) as [Hlt|Hge]; try lia.
  1,3: exists s; split_and!; [done..|]; intros a; rewrite decide_False by lia; done.
  destruct (Hpg va ltac:(lia)) as (p & fl & HUv & Hu).
  assert (is_u32 va) as Hvu by (unfold KERNBASE in *; wrap_lia). rewrite PGROUNDDOWN_spec by done.
  erewrite bind_done by (by eapply uva2ka_run). assert (p ∈ frames U) as Hpf by (apply elem_of_frames; eauto).
  destruct (us_frame _ _ _ _ _ HU p Hpf) as ((Hpa & _ & Hpr) & _ & _).
  rewrite (proj2 (Z.eqb_neq _ _)) by (unfold KERNBASE in *; lia).
  replace (va - (va - va mod PGSIZE)) with (va mod PGSIZE) by lia. cbn zeta.
  set (n := if len <? PGSIZE - va mod PGSIZE then len else PGSIZE - va mod PGSIZE).
  assert (0 < n <= len /\ n <= PGSIZE - va mod PGSIZE /\ (n = len \/ n = PGSIZE - va mod PGSIZE)) as (Hn1 & Hn2 & Hn3)
    by (unfold n; destruct (Z.ltb_spec len (PGSIZE - va mod PGSIZE)); lia).
  destruct (poke_bytes pgdir l T U s va p fl buf n) as [Hc1 Hb1]; [done|lia|done|].
  erewrite bind_done by reflexivity. set (s1 := set_free _ _ _).
  assert (uspace pgdir l T U s1) as HU1 by (by eapply uspace_poke).
  assert (forall k, 0 <= k < len - n -> ld (k_mem s1) (buf + n + k) = ld (k_mem s) (buf + n + k)) as Hsrc.
  { intros k Hk. apply Hc1. intros q ->%elem_of_singleton. rewrite <- Z.add_assoc. apply Hbuf; [done|lia]. }
  assert (u32 (va - va mod PGSIZE + PGSIZE) = va - va mod PGSIZE + PGSIZE) as -> by (apply u32_small; unfold KERNBASE, PGSIZE in *; wrap_lia).
  destruct (decide (n = len)) as [En|En].
  - rewrite En, Z.sub_diag. exists s1. split_and!.
    + destruct fuel; reflexivity.
    + done.
    + eapply changes_in_mono; [|exact Hc1]. by apply singleton_subseteq_l.
    + intros a. change (k_mem s1) with (memmove (k_mem s) (p + va mod PGSIZE) buf n). rewrite Hb1.
      repeat case_decide; try done; try lia. exfalso. unfold PGSIZE in *. Z.div_mod_to_equations. lia.
  - assert (n = PGSIZE - va mod PGSIZE) as Hn by lia. replace (va - va mod PGSIZE + PGSIZE) with (va + n) by lia.
    assert ((va + n) mod PGSIZE = 0) as Hal by (rewrite Hn; unfold PGSIZE in *; Z.div_mod_to_equations; lia).
    destruct (IH s1 (va + n) (buf + n) (len - n)) as (s2 & E2 & HU2 & Hc2 & Hb2); [done|lia|lia|lia|rewrite Hal; lia| | |].
    { intros a Ha. apply Hpg. lia. }
    { intros q k Hq Hk. rewrite <- Z.add_assoc. apply Hbuf; [done|lia]. }
    exists s2. split_and!; [done|done| |].
    + eapply changes_in_trans; [|exact Hc2]. eapply changes_in_mono; [|exact Hc1]. by apply singleton_subseteq_l.
    + intros a. rewrite Hb2. change (k_mem s1) with (memmove (k_mem s) (p + va mod PGSIZE) buf n) at 2. rewrite Hb1.
      destruct (decide (va + n <= a < va + n + (len - n))) as [C1|C1].
      * rewrite decide_True by lia. f_equal. replace (buf + (a - va)) with (buf + n + (a - (va + n))) by lia. apply Hsrc. lia.
      * repeat case_decide; try done; try lia. exfalso. unfold PGSIZE in *. Z.div_mod_to_equations. lia.
Qed.

(** [copyout] into pages the user may access stores the bytes at their
    addresses and nothing else. *)
Lemma copyout_stores pgdir l T U s va p len :
  uspace pgdir l T U s -> 0 <= va -> va + len <= KERNBASE -> 0 <= len ->
  (forall a, va <= a < va + len -> exists q fl, U !! (a - a mod PGSIZE) = Some (q, fl) /\ bit fl PTE_U = true) ->
  (forall q k, q ∈ frames U -> 0 <= k < len -> ~ in_page q (p + k)) ->
  exists s', copyout pgdir va p len s = Done (0, s') /\ uspace pgdir l T U s' /\ changes_in (frames U) (k_mem s) (k_mem s') /\
    forall a, user_byte U (k_mem s') a = if decide (va <= a < va + len) then Some (ld (k_mem s) (p + (a - va))) else user_byte U (k_mem s) a.
Proof.
  intros HU Hva Hend' Hlen Hpg Hbuf. unfold copyout. apply copyout_from_run; try done.
  unfold PGSIZE. Z.div_mod_to_equations. lia.
Qed.
End space.

(** ** What the kernel relies on *)

(** Property C33: [copyuvm] of a space all of whose pages below [sz] are present
    returns; either it is out of memory, returns 0 and every page it took is
    free again, or it returns the directory of a new space with exactly the
    pages below [sz], each with the flags and the bytes of the original in
    a frame of its own. No page is lost, and the original keeps its map and its
    bytes. *)
Theorem copyuvm_copies end_ data_ pgdir l T U s sz :
  KERNBASE < end_ -> data_ mod PGSIZE = 0 -> KERNLINK < data_ < KERNBASE + PHYSTOP ->
  uspace end_ pgdir l T U s -> 0 <= sz <= KERNBASE ->
  (forall va, 0 <= va < sz -> va mod PGSIZE = 0 -> U !! va <> None) ->
  exists r s' l', copyuvm end_ data_ pgdir sz s = Done (r, s') /\ uspace end_ pgdir l' T U s' /\
    (forall p, p ∈ frames U -> same_page (k_mem s) (k_mem s') p) /\
    (r = 0 /\ list_to_set l' =@{gset Z} list_to_set l \/
     r <> 0 /\ exists Td Ud, uspace end_ r l' Td Ud s' /\ {[r]} ∪ owned l' Td Ud = list_to_set l /\
       copied U Ud sz (k_mem s) (k_mem s')).
Proof.
  intros Hend Hd1 Hd2 HU Hsz Hall. set (Q := list_to_set l : gset Z).
  assert (forall q, q ∈ Q -> page_ok end_ q) as HQ.
  { intros q Hq. eapply uspace_pages; [exact HU|]. apply elem_of_union_r. unfold owned, pool. by apply elem_of_union_l, elem_of_union_l. }
  assert (held pgdir T U ## Q) as Happ by (by eapply uspace_disjoint).
  destruct (setupkvm_run end_ Hend data_ l s) as (d & s1 & E1 & Hc1 & Hres); [apply HU|done..|]. fold Q in Hc1, Hres.
  unfold copyuvm. erewrite bind_done by exact E1. destruct Hres as [(-> & l1 & Hf1 & Hl1)|(Hd0 & l1 & T1 & HC1 & HQ1)].
  { cbn [Z.eqb]. destruct (uspace_apart end_ Hend pgdir l T U s Q l1 s1) as [HU1 Hs1]; [done..|by rewrite Hl1|].
    exists 0, s1, l1. split_and!; [done..|]. by left. }
  rewrite (proj2 (Z.eqb_neq _ _) Hd0).
  assert (forall l' Td Ud, {[d]} ∪ owned l' Td Ud = Q -> list_to_set l' ⊆ Q) as Hsub.
  { intros l' Td Ud <- x Hx. unfold owned, pool. by apply elem_of_union_r, elem_of_union_l, elem_of_union_l. }
  destruct (uspace_apart end_ Hend pgdir l T U s Q l1 s1) as [HU1 Hs1]; [done..|apply HC1|by eapply Hsub|].
  destruct (copyuvm_from_run end_ Hend pgdir T U Q Happ HQ (Z.to_nat (sz / PGSIZE + 1)) d l1 T1 ∅ s1 0 sz (k_mem s))
    as (r & s2 & E2 & Hc2 & Hr); [done|done|done|unfold PGSIZE; lia|done|lia| |done| |done|].
  { unfold PGSIZE. Z.div_mod_to_equations. lia. }
  { intros va. rewrite lookup_empty. intros Hva. destruct (U !! va) as [x|] eqn:Hx; [|done]. apply (us_dom _ _ _ _ _ _ HU) in Hx. lia. }
  assert (changes_in Q (k_mem s) (k_mem s2)) as HcQ by (by eapply changes_in_trans).
  destruct Hr as [(-> & l2 & Hf2 & Hl2)|(-> & l2 & T2 & U2 & HC2 & HQ2 & Hcop)].
  - destruct (uspace_apart end_ Hend pgdir l T U s Q l2 s2) as [HU2 Hs2]; [done..|by rewrite Hl2|].
    exists 0, s2, l2. split_and!; [done..|]. by left.
  - destruct (uspace_apart end_ Hend pgdir l T U s Q l2 s2) as [HU2 Hs2]; [done..|apply HC2|by eapply Hsub|].
    exists d, s2, l2. split_and!; [done..|]. right. split; [done|]. by exists T2, U2.
Qed.

(** Property C34: [allocuvm] from [oldsz] to [newsz], on a space with no page in
    between, returns [newsz] with a zeroed page of its own for every page
    address in between, or 0 with the space as it was; no page is lost in
    either case, and the pages the space had keep their bytes. *)
Theorem allocuvm_grows end_ pgdir l T U s oldsz newsz :
  KERNBASE < end_ -> uspace end_ pgdir l T U s -> 0 <= oldsz <= newsz -> newsz < KERNBASE ->
  (forall va, PGROUNDUP oldsz <= va < newsz -> U !! va = None) ->
  exists r l' T' U' s', allocuvm end_ pgdir oldsz newsz s = Done (r, s') /\ uspace end_ pgdir l' T' U' s' /\
    owned l' T' U' = owned l T U /\ (forall p, p ∈ frames U -> same_page (k_mem s) (k_mem s') p) /\
    (r = newsz /\ (forall va, ~ (PGROUNDUP oldsz <= va < newsz) -> U' !! va = U !! va) /\
       (forall va, PGROUNDUP oldsz <= va < newsz -> va mod PGSIZE = 0 -> exists p, U' !! va = Some (p, 7) /\ zero_page (k_mem s') p) \/
     r = 0 /\ U' = U).
Proof.
  intros Hend HU Hsz Hk Hno.
  destruct (allocuvm_run end_ Hend pgdir l T U s oldsz newsz) as (r & l' & T' & U' & s' & E & HU' & Ho & Hc & Hpost); [done..|].
  exists r, l', T', U', s'. split_and!; [done..|intros p Hp; eapply frame_same; [exact HU|exact Hp|exact Hc]|].
  destruct Hpost as [(-> & H1 & H2 & _)|[-> Hw]]; [left; by split_and!|right]. split; [done|].
  apply map_eq. intros va. rewrite Hw. case_decide; [|done]. symmetry. by apply Hno.
Qed.

(** ** A space with one page *)

Definition one_frame : Z := 0x80103000.
Definition one_mem : mem := st32 demo_mem (slot {[ 0 := demo_tab ]} 0) (uentry (one_frame, 7)).
Definition one_vm : kmem := {| k_mem := one_mem; freelist := 0; use_lock := true |}.

Lemma one_uspace : uspace 0x80101000 demo_dir [] {[ 0 := demo_tab ]} {[ 0 := (one_frame, 7) ]} one_vm.
Proof.
  assert (pte demo_mem {[ 0 := demo_tab ]} 0 <> None) as Hp by (apply demo_pte_some; lia).
  assert (forall i pt : Z, ({[ 0 := demo_tab ]} : gmap Z Z) !! i = Some pt -> pt = demo_tab) as HT
    by (intros i pt [_ <-]%lookup_singleton_Some; done).
  assert (forall q, q ∈ frames {[ 0 := (one_frame, 7) ]} -> q = one_frame) as HF
    by (intros q (va & fl & [_ [= <- _]]%lookup_singleton_Some)%elem_of_frames; done).
  split.
  - split; [split; [done|constructor|constructor]|by apply (pgt_store _ _ _ demo_pgt)|apply not_elem_of_nil|intros; apply not_elem_of_nil].
  - intros va Hva Hal. unfold one_vm, one_mem, mapped. cbn [k_mem].
    rewrite (pte_store _ demo_dir) by (apply demo_pgt || done || (unfold KERNBASE in *; wrap_lia)).
    rewrite !PGROUNDDOWN_spec, Hal, !Z.sub_0_r by (done || (unfold KERNBASE in *; wrap_lia)). change (0 - 0 mod PGSIZE) with 0.
    destruct (decide (va = 0)) as [->|Hne]; [done|]. rewrite lookup_singleton_ne by done.
    change (mapped demo_mem {[ 0 := demo_tab ]} va = None). unfold demo_mem.
    change ({[ 0 := demo_tab ]} : gmap Z Z) with (<[PDX 0 := demo_tab]> (∅ : gmap Z Z)).
    rewrite pte_add_table; [|apply demo_pgt_empty|done|by split|done|done]. done.
  - intros va x [<- _]%lookup_singleton_Some. done.
  - intros va x [_ <-]%lookup_singleton_Some. done.
  - intros p ->%HF. split_and!; [by split_and!|done|]. rewrite elem_of_pool. intros [?%not_elem_of_nil|(i & Hi%HT)]; done.
  - intros va va' p fl fl' [<- _]%lookup_singleton_Some [<- _]%lookup_singleton_Some. done.
  - by split_and!.
  - intros pt (i & ->%HT)%elem_of_map_img. by split_and!.
Qed.

Lemma one_present va : 0 <= va < 4096 -> va mod PGSIZE = 0 -> ({[ 0 := (one_frame, 7) ]} : gmap Z (Z * Z)) !! va <> None.
Proof. intros Hva Hal. assert (va = 0) as -> by (unfold PGSIZE in *; Z.div_mod_to_equations; lia). done. Qed.

Lemma copyuvm_copies_witness :
  exists r s' l', copyuvm 0x80101000 0x80101000 demo_dir 4096 one_vm = Done (r, s') /\
    uspace 0x80101000 demo_dir l' {[ 0 := demo_tab ]} {[ 0 := (one_frame, 7) ]} s'.
Proof.
  destruct (copyuvm_copies 0x80101000 0x80101000 demo_dir [] {[ 0 := demo_tab ]} {[ 0 := (one_frame, 7) ]} one_vm 4096)
    as (r & s' & l' & E & HU & _); [done|done|done|apply one_uspace|done|apply one_present|].
  exists r, s', l'. split; [exact E|exact HU].
Defined.

Lemma allocuvm_grows_witness :
  exists r l' T' U' s', allocuvm 0x80101000 demo_dir 4096 8192 one_vm = Done (r, s') /\ uspace 0x80101000 demo_dir l' T' U' s'.
Proof.
  destruct (allocuvm_grows 0x80101000 demo_dir [] {[ 0 := demo_tab ]} {[ 0 := (one_frame, 7) ]} one_vm 4096 8192)
    as (r & l' & T' & U' & s' & E & HU & _); [unfold KERNBASE; lia|apply one_uspace|lia|unfold KERNBASE; lia| |exists r, l', T', U', s'; split; [exact E|exact HU]].
  intros va Hva. change (PGROUNDUP 4096) with 4096 in Hva. apply lookup_singleton_ne. lia.
Defined.
