(* ===== verification/Spinlock.v ===== *)
(** * Spinlock: spin locks (spinlock.c)

    A processor in [acquire] or [release] is a state machine whose steps are
    the accesses to the lock; the processors interleave in any order. The
    memory barriers of the code make this order the one the processors see. *)

From stdpp Require Import base list numbers gmap strings relations.
From S2P Require Import Prelude Bytes Params KString Mmu.

Local Open Scope Z_scope.

(** ** Interrupts *)

(** The fields of [struct cpu] that count [pushcli], and the interrupt flag of
    the processor. *)
Record cpu := { ncli : Z; intena : bool; if_flag : bool }.

Definition pushcli (c : cpu) : cpu :=
  {| ncli := ncli c + 1; intena := if ncli c =? 0 then if_flag c else intena c; if_flag := false |}.
Definition popcli (c : cpu) : outcome cpu :=
  if if_flag c then Panic "popcli - interruptible"
  else if ncli c - 1 <? 0 then Panic "popcli"
  else Done {| ncli := ncli c - 1; intena := intena c;
               if_flag := if (ncli c - 1 =? 0) && intena c then true else false |}.

(** ** The lock *)

Record spinlock := { locked : bool; lk_cpu : option nat }.
Definition initlock : spinlock := {| locked := false; lk_cpu := None |}.

(** Where a processor is; [h] says whether it held the lock when it made the
    call, and [l] is the value of [locked] that [holding] has read. *)
Inductive pc :=
| Outside | Inside                       (* between the calls *)
| Acq_locked (h : bool)                  (* acquire: pushcli is done *)
| Acq_cpu (h l : bool)
| Acq_spin                               (* while(xchg(&lk->locked, 1) != 0) *)
| Acq_set                                (* lk->cpu = mycpu() *)
| Rel_locked (h : bool)                  (* release *)
| Rel_cpu (h l : bool)
| Rel_clear                              (* lk->cpu = 0 *)
| Rel_store                              (* movl $0, lk->locked *)
| Rel_pop
| Dead (h : bool) (m : string).          (* in panic *)

Record smp := { lk : spinlock; cpus : list (cpu * pc) }.

Definition put (i : nat) (c : cpu) (p : pc) (s : smp) : smp := {| lk := lk s; cpus := <[i := (c, p)]> (cpus s) |}.
Definition put_lk (l : spinlock) (s : smp) : smp := {| lk := l; cpus := cpus s |}.
(** Goes on at [p], after [popcli]. *)
Definition pop_to (i : nat) (h : bool) (c : cpu) (p : pc) (s : smp) : smp :=
  match popcli c with
  | Done c => put i c p s
  | Panic m => put i c (Dead h m) s
  | _ => s
  end.

(** The next step of processor [i]; outside the functions it calls [acquire]
    or, if [rel], [release]. *)
Definition lk_step (i : nat) (rel : bool) (s : smp) : option smp :=
  match cpus s !! i with
  | None => None
  | Some (c, p) =>
      match p with
      | Outside => Some (if rel then put i c (Rel_locked false) s else put i (pushcli c) (Acq_locked false) s)
      | Inside => Some (if rel then put i c (Rel_locked true) s else put i (pushcli c) (Acq_locked true) s)
      | Acq_locked h => Some (put i (pushcli c) (Acq_cpu h (locked (lk s))) s)
      | Acq_cpu h l =>
          let r := l && bool_decide (lk_cpu (lk s) = Some i) in
          Some (pop_to i h c (if r then Dead h "acquire" else Acq_spin) s)
      | Acq_spin =>
          Some (if locked (lk s) then s
                else put i c Acq_set (put_lk {| locked := true; lk_cpu := lk_cpu (lk s) |} s))
      | Acq_set => Some (put i c Inside (put_lk {| locked := locked (lk s); lk_cpu := Some i |} s))
      | Rel_locked h => Some (put i (pushcli c) (Rel_cpu h (locked (lk s))) s)
      | Rel_cpu h l =>
          let r := l && bool_decide (lk_cpu (lk s) = Some i) in
          Some (pop_to i h c (if r then Rel_clear else Dead h "release") s)
      | Rel_clear => Some (put i c Rel_store (put_lk {| locked := locked (lk s); lk_cpu := None |} s))
      | Rel_store => Some (put i c Rel_pop (put_lk {| locked := false; lk_cpu := lk_cpu (lk s) |} s))
      | Rel_pop => Some (pop_to i false c Outside s)
      | Dead _ _ => None
      end
  end.
Definition lk_steps (s s' : smp) : Prop := exists i rel, lk_step i rel s = Some s'.

(** [getcallerpcs]: the chain of saved frame pointers from [v]. *)
Fixpoint caller_pcs (m : mem) (ebp : Z) (n : nat) : list Z :=
  match n with
  | O => []
  | S n' =>
      if (ebp =? 0) || (ebp <? KERNBASE) || (ebp =? 0xffffffff) then replicate n 0
      else ld32 m (u32 (ebp + 4)) :: caller_pcs m (ld32 m ebp) n'
  end.
Definition getcallerpcs (m : mem) (v : Z) : list Z := caller_pcs m (u32 (v - 8)) 10.

(** ** Mutual exclusion *)

(** The processor has the lock: it has stored 1 in [locked] and not yet 0. *)
Definition holds (p : pc) : bool :=
  match p with
  | Inside | Acq_set | Rel_clear | Rel_store => true
  | Acq_locked h | Acq_cpu h _ | Rel_locked h | Rel_cpu h _ | Dead h _ => h
  | _ => false
  end.
(** [lk->cpu] is the processor. *)
Definition named (p : pc) : bool := match p with Acq_set | Rel_store => false | p => holds p end.
(** How many [pushcli] it has made. *)
Definition depth (p : pc) : Z :=
  let held (h : bool) := if h then 1 else 0 in
  match p with
  | Outside => 0
  | Inside | Acq_spin | Acq_set | Rel_clear | Rel_store | Rel_pop => 1
  | Acq_locked h => held h + 1
  | Acq_cpu h _ => held h + 2
  | Rel_locked h => held h
  | Rel_cpu h _ => held h + 1
  | Dead _ _ => 0
  end.

(** The processor that entered with [c0]. *)
Definition cpu_inv (c0 c : cpu) (p : pc) : Prop :=
  0 <= ncli c0 /\ (0 < ncli c0 -> if_flag c0 = false) /\
  match p with
  | Dead h m => (m = "acquire" /\ h = true) \/ (m = "release" /\ h = false)
  | p => ncli c = ncli c0 + depth p /\
      (if depth p =? 0 then if_flag c = if_flag c0 else if_flag c = false /\ (ncli c0 = 0 -> intena c = if_flag c0))
  end /\
  match p with Acq_cpu true l | Rel_cpu true l => l = true | _ => True end.

Record lk_inv (s0 s : smp) : Prop := {
  li_cpus : Forall2 (fun x0 x => cpu_inv x0.1 x.1 x.2) (cpus s0) (cpus s);
  li_locked : forall i x, cpus s !! i = Some x -> holds x.2 = true -> locked (lk s) = true;
  li_one : forall i j x y, cpus s !! i = Some x -> cpus s !! j = Some y ->
    holds x.2 = true -> holds y.2 = true -> i = j;
  li_cpu : forall i x, cpus s !! i = Some x -> named x.2 = true <-> lk_cpu (lk s) = Some i
}.

(** [popcli] undoes [pushcli]. *)
Lemma pop_cpu c0 c p q :
  cpu_inv c0 c p -> 0 < depth p -> depth q = depth p - 1 ->
  match q with Dead _ _ | Acq_cpu _ _ | Rel_cpu _ _ => False | _ => True end ->
  exists c', popcli c = Done c' /\ cpu_inv c0 c' q.
Proof.
  intros (H0 & H1 & H2 & H3) Hd Hq Hk.
  assert (match p with Dead _ _ => False | _ => True end) as Hp by (by destruct p).
  assert (ncli c = ncli c0 + depth p /\ (if depth p =? 0 then if_flag c = if_flag c0 else
    if_flag c = false /\ (ncli c0 = 0 -> intena c = if_flag c0))) as [Hn Hi] by (by destruct p).
  rewrite (proj2 (Z.eqb_neq _ _)) in Hi by lia. destruct Hi as [Hif Hen].
  unfold popcli. rewrite Hif, (proj2 (Z.ltb_ge _ _)) by lia. eexists. split; [done|]. split_and!; [done|done| |by destruct q].
  assert (ncli c - 1 = ncli c0 + depth q /\ (if depth q =? 0
    then (if (ncli c - 1 =? 0) && intena c then true else false) = if_flag c0
    else (if (ncli c - 1 =? 0) && intena c then true else false) = false /\ (ncli c0 = 0 -> intena c = if_flag c0))) as Hg;
    [|by destruct q].
  split; [lia|]. destruct (Z.eqb_spec (depth q) 0) as [E|N].
  - destruct (Z.eqb_spec (ncli c - 1) 0) as [E'|N']; cbn [andb].
    + rewrite Hen by lia. by destruct (if_flag c0).
    + symmetry. apply H1. lia.
  - split; [|done]. destruct (Z.eqb_spec (ncli c - 1) 0); [|done]. assert (0 <= depth q) by (destruct q; cbn; try destruct h; lia). lia.
Qed.
Lemma push_cpu c0 c p q :
  cpu_inv c0 c p -> depth q = depth p + 1 -> match p with Dead _ _ => False | _ => True end ->
  match q with Dead _ _ => False | Acq_cpu true l | Rel_cpu true l => l = true | _ => True end ->
  cpu_inv c0 (pushcli c) q.
Proof.
  intros (H0 & H1 & H2 & H3) Hq Hp Hl. assert (0 <= depth p) as Hd by (destruct p; cbn; try destruct h; lia).
  assert (ncli c = ncli c0 + depth p /\ (if depth p =? 0 then if_flag c = if_flag c0 else
    if_flag c = false /\ (ncli c0 = 0 -> intena c = if_flag c0))) as [Hn Hi] by (by destruct p).
  split_and!; [done|done| |by destruct q].
  assert (ncli (pushcli c) = ncli c0 + depth q /\ (if depth q =? 0 then if_flag (pushcli c) = if_flag c0 else
    if_flag (pushcli c) = false /\ (ncli c0 = 0 -> intena (pushcli c) = if_flag c0))) as Hg; [|by destruct q].
  rewrite (proj2 (Z.eqb_neq (depth q) 0)) by lia. split_and!; [cbn; lia|done|]. intros E0. cbn.
  destruct (Z.eqb_spec (depth p) 0) as [E|N], (Z.eqb_spec (ncli c) 0) as [E'|N']; try lia; [done|]. by apply Hi.
Qed.

Section step.
Context {s0 s : smp} {i : nat} {c0 c : cpu} {p p0 : pc} (I : lk_inv s0 s).
Context (H0 : cpus s0 !! i = Some (c0, p0)) (Hi : cpus s !! i = Some (c, p)).

Lemma inv_put l c' p' :
  cpu_inv c0 c' p' ->
  (forall j x, j <> i -> cpus s !! j = Some x -> (holds x.2 = true -> locked l = true /\ holds p' = false) /\
    (named x.2 = true <-> lk_cpu l = Some j)) ->
  (holds p' = true -> locked l = true) -> (named p' = true <-> lk_cpu l = Some i) ->
  lk_inv s0 (put i c' p' (put_lk l s)).
Proof.
  destruct I as [Ic Il Io In]. intros Hc Ho Hl Hn. split; cbn [put put_lk lk cpus].
  - rewrite <- (list_insert_id (cpus s0) i (c0, p0)) by done. by apply Forall2_insert.
  - intros j x [(-> & <- & _)|[Hne Hx]]%list_lookup_insert_Some Hh; [by apply Hl|]. by apply (Ho j x).
  - intros j k x y [(-> & <- & _)|[Hne Hx]]%list_lookup_insert_Some [(-> & <- & _)|[Hne' Hy]]%list_lookup_insert_Some Hh Hh';
      [done| | |by eapply Io]; exfalso.
    + destruct (Ho k y (not_eq_sym Hne') Hy) as [Hz _]. destruct (Hz Hh'). cbn in Hh. congruence.
    + destruct (Ho j x (not_eq_sym Hne) Hx) as [Hz _]. destruct (Hz Hh). cbn in Hh'. congruence.
  - intros j x [(-> & <- & _)|[Hne Hx]]%list_lookup_insert_Some; [done|]. by apply Ho.
Qed.

(** A step that neither takes nor gives up the lock. *)
Lemma inv_keep c' p' :
  cpu_inv c0 c' p' -> holds p' = holds p -> named p' = named p -> lk_inv s0 (put i c' p' s).
Proof.
  intros Hc Hh Hn. replace s with (put_lk (lk s) s) by (by destruct s). destruct I as [Ic Il Io In]. apply inv_put; [done|..].
  - intros j x Hne Hx. split; [|by apply In]. intros Hx'. split; [by eapply Il|]. rewrite Hh.
    apply not_true_is_false. intros Hp. apply Hne. by apply (Io j i x (c, p)).
  - rewrite Hh. by apply (Il i (c, p)).
  - rewrite Hn. by apply (In i (c, p)).
Qed.

Lemma pop_keep p' h :
  cpu_inv c0 c p -> 0 < depth p -> depth p' = depth p - 1 ->
  match p' with Dead _ _ | Acq_cpu _ _ | Rel_cpu _ _ => False | _ => True end ->
  holds p' = holds p -> named p' = named p -> lk_inv s0 (pop_to i h c p' s).
Proof.
  intros Hc Hd Hd' Hk Hh Hn. unfold pop_to. destruct (pop_cpu c0 c p p' Hc Hd Hd' Hk) as (c' & -> & Hc'). by apply inv_keep.
Qed.
Lemma pop_dead h m :
  cpu_inv c0 c p -> 0 < depth p -> match p with Dead _ _ => False | _ => True end ->
  (m = "acquire" /\ h = true) \/ (m = "release" /\ h = false) -> holds p = h -> named p = h ->
  lk_inv s0 (pop_to i h c (Dead h m) s).
Proof.
  intros Hc Hd Hp Hm Hh Hn. unfold pop_to.
  assert (exists c', popcli c = Done c') as [c' ->].
  { destruct Hc as (H1 & _ & H2 & _).
    assert (ncli c = ncli c0 + depth p /\ (if depth p =? 0 then if_flag c = if_flag c0 else
      if_flag c = false /\ (ncli c0 = 0 -> intena c = if_flag c0))) as [En Ei] by (by destruct p).
    rewrite (proj2 (Z.eqb_neq _ _)) in Ei by lia. destruct Ei as [Ei _]. unfold popcli.
    rewrite Ei, (proj2 (Z.ltb_ge _ _)) by lia. by eexists. }
  destruct Hc as (? & ? & _). apply inv_keep; [by split_and!|done|done].
Qed.
End step.

Lemma lk_inv_step s0 s s' : lk_inv s0 s -> lk_steps s s' -> lk_inv s0 s'.
Proof.
  intros I (i & rel & Hs). unfold lk_step in Hs. destruct (cpus s !! i) as [[c p]|] eqn:Hi; [|done].
  destruct (Forall2_lookup_r _ _ _ _ _ (li_cpus _ _ I) Hi) as ([c0 p0] & H0 & Hc). cbn [fst snd] in Hc.
  pose proof (li_locked _ _ I i _ Hi) as Hl. pose proof (li_cpu _ _ I i _ Hi) as Hn. cbn [snd] in Hl, Hn.
  destruct p as [| |h|h l| | |h|h l| | | |h m]; [..|done]; injection Hs as <-.
  - destruct rel; eapply inv_keep; try done; by eapply push_cpu.
  - destruct rel; eapply inv_keep; try done; by eapply push_cpu.
  - eapply inv_keep; try done. eapply push_cpu; [done|by destruct h|done|]. destruct h; [by apply Hl|done].
  - destruct h.
    + assert (l = true) as -> by apply Hc. rewrite (bool_decide_eq_true_2 (_ = _)) by (by apply Hn). eapply pop_dead; try done; auto.
    + rewrite (bool_decide_eq_false_2 (_ = _)), andb_false_r by (intros E; by apply Hn in E). by eapply pop_keep.
  - destruct (locked (lk s)) eqn:El; [done|]. eapply inv_put; try done.
    intros j x Hne Hx. split; [|by apply (li_cpu _ _ I)]. intros Hh.
    pose proof (li_locked _ _ I j x Hx Hh). congruence.
  - eapply inv_put; try done.
    intros j x Hne Hx. split; [intros Hh; by destruct (Hne (li_one _ _ I j i x _ Hx Hi Hh eq_refl))|]. cbn. split.
      * intros Hh. destruct Hne. apply (li_one _ _ I j i x _ Hx Hi); [|done]. by destruct x as [? []].
      * by intros [= ->].
  - eapply inv_keep; try done. eapply push_cpu; [done|by destruct h|done|]. destruct h; [by apply Hl|done].
  - destruct h.
    + assert (l = true) as -> by apply Hc. rewrite (bool_decide_eq_true_2 (_ = _)) by (by apply Hn). by eapply pop_keep.
    + rewrite (bool_decide_eq_false_2 (_ = _)), andb_false_r by (intros E; by apply Hn in E). eapply pop_dead; try done; auto.
  - eapply inv_put; try done.
    intros j x Hne Hx. split; [intros Hh; by destruct (Hne (li_one _ _ I j i x _ Hx Hi Hh eq_refl))|]. cbn. split; [|done].
      intros Hh. apply (li_cpu _ _ I j x Hx) in Hh. rewrite (proj1 Hn eq_refl) in Hh. by injection Hh.
  - eapply inv_put; try done.
    intros j x Hne Hx. split; [intros Hh; by destruct (Hne (li_one _ _ I j i x _ Hx Hi Hh eq_refl))|]. by apply (li_cpu _ _ I).
  - by eapply pop_keep.
Qed.

(** The lock is free and every processor is outside, with interrupts off if it
    holds other locks. *)
Definition lk_start (s : smp) : Prop :=
  lk s = initlock /\
  Forall (fun x => x.2 = Outside /\ 0 <= ncli x.1 /\ (0 < ncli x.1 -> if_flag x.1 = false)) (cpus s).

Lemma lk_start_inv s : lk_start s -> lk_inv s s.
Proof.
  intros [El Hall]. rewrite Forall_lookup in Hall. assert (forall i x, cpus s !! i = Some x -> holds x.2 = false) as Hno.
  { intros i x Hx. destruct (Hall i x Hx) as (-> & _). done. }
  split.
  - apply Forall2_same_length_lookup. split; [done|]. intros i x y Hx Hy. rewrite Hx in Hy. injection Hy as <-.
    destruct (Hall i x Hx) as (E & H1 & H2). destruct x as [c p]. cbn in *. subst. split_and!; try done; cbn; lia.
  - intros i x Hx Hh. rewrite (Hno i x Hx) in Hh. done.
  - intros i j x y Hx _ Hh. rewrite (Hno i x Hx) in Hh. done.
  - intros i x Hx. rewrite El. cbn. destruct (Hall i x Hx) as (-> & _). done.
Qed.

(** Property C8: in every interleaving of processors that call [acquire] and
    [release], at most one of them holds the lock, and it runs with interrupts
    off; [acquire] panics only in a processor that already holds the lock and
    [release] only in one that does not; and a processor that has released the
    lock has the interrupt state it had before it acquired it. *)
Theorem spinlock_mutual_exclusion s0 s :
  lk_start s0 -> rtc lk_steps s0 s ->
  (forall i j ci p cj q, cpus s !! i = Some (ci, p) -> cpus s !! j = Some (cj, q) ->
    holds p = true -> holds q = true -> i = j) /\
  (forall i c p, cpus s !! i = Some (c, p) -> holds p = true ->
    match p with Dead _ _ => True | _ => if_flag c = false end) /\
  (forall i c h m, cpus s !! i = Some (c, Dead h m) -> (m = "acquire" /\ h = true) \/ (m = "release" /\ h = false)) /\
  (forall i c, cpus s !! i = Some (c, Outside) -> exists c0 p0, cpus s0 !! i = Some (c0, p0) /\
    ncli c = ncli c0 /\ if_flag c = if_flag c0).
Proof.
  intros Hst%lk_start_inv Hr. assert (lk_inv s0 s) as I.
  { revert Hst. generalize s0 at 1 3. intros z. induction Hr; [done|]. eauto using lk_inv_step. }
  assert (forall i c p, cpus s !! i = Some (c, p) -> exists c0 p0, cpus s0 !! i = Some (c0, p0) /\ cpu_inv c0 c p) as Hc.
  { intros i c p Hi. destruct (Forall2_lookup_r _ _ _ _ _ (li_cpus _ _ I) Hi) as ([c0 p0] & ? & ?). eauto. }
  split_and!.
  - intros i j ci p cj q Hi Hj Hp Hq. by apply (li_one _ _ I i j (ci, p) (cj, q)).
  - intros i c p Hi Hp. destruct (Hc i c p Hi) as (c0 & p0 & _ & _ & _ & H2 & _).
    destruct p as [| |[] |[] l| | |[] |[] l| | | |h m]; try done; apply H2.
  - intros i c h m Hi. by destruct (Hc i c _ Hi) as (c0 & p0 & _ & _ & _ & H2 & _).
  - intros i c Hi. destruct (Hc i c _ Hi) as (c0 & p0 & H0 & _ & _ & [Hn Hf] & _). exists c0, p0. cbn in Hn. split_and!; [done|lia|done].
Qed.

(** Two processors, interrupts on: the first takes the lock, the second spins. *)
Definition two_cpus : smp :=
  let c := {| ncli := 0; intena := false; if_flag := true |} in
  {| lk := initlock; cpus := [(c, Outside); (c, Outside)] |}.
Definition run_cpus (order : list nat) (s : smp) : smp :=
  fold_left (fun s i => default s (lk_step i false s)) order s.
Lemma run_cpus_steps order s : rtc lk_steps s (run_cpus order s).
Proof.
  revert s. induction order as [|i order IH]; intros s; [done|]. cbn. destruct (lk_step i false s) as [s'|] eqn:E; [|apply IH].
  eapply rtc_l; [by exists i, false|]. apply IH.
Qed.

Lemma spinlock_mutual_exclusion_witness :
  match cpus (run_cpus [0; 0; 0; 0; 0; 1; 1; 1; 1]%nat two_cpus) !! 0%nat with
  | Some (c, Inside) => if_flag c = false
  | _ => False
  end.
Proof.
  assert (lk_start two_cpus) as Hst by (split; [done|by repeat constructor]).
  exact (proj1 (proj2 (spinlock_mutual_exclusion two_cpus _ Hst (run_cpus_steps [0; 0; 0; 0; 0; 1; 1; 1; 1]%nat two_cpus)))
    0%nat _ Inside eq_refl eq_refl).
Defined.
