(* ===== verification/Proc.v ===== *)
(** * Proc: the process table (proc.c)

    The table is a list of [NPROC] slots; a pointer to a process is its index,
    and a null pointer is [None]. [ptable.lock] makes the passes over the table
    atomic. A function that may call [sleep] is one stretch up to the sleep;
    [sched] is where it ends. What the table needs from the memory allocator,
    the page tables and the file system is the interface [KOps]. *)

From stdpp Require Import base list numbers strings.
From S2P Require Import Prelude Params.

Local Open Scope Z_scope.
Local Open Scope os_scope.

Inductive procstate := UNUSED | EMBRYO | SLEEPING | RUNNABLE | RUNNING | ZOMBIE.
#[global] Instance procstate_eq_dec : EqDecision procstate.
Proof. solve_decision. Defined.

(** A trap frame (x86.h); [tf_other] holds the registers that the process code
    only copies: edi, esi, oesp, ebx, edx, ecx, gs, fs, trapno, err. *)
Record trapframe := {
  tf_other : list Z;
  tf_ebp : Z; tf_eax : Z; tf_es : Z; tf_ds : Z; tf_eip : Z; tf_cs : Z; tf_eflags : Z;
  tf_esp : Z; tf_ss : Z
}.
Definition zero_tf : trapframe :=
  {| tf_other := replicate 10 0; tf_ebp := 0; tf_eax := 0; tf_es := 0; tf_ds := 0; tf_eip := 0; tf_cs := 0;
     tf_eflags := 0; tf_esp := 0; tf_ss := 0 |}.

(** A wait channel: the address of a process slot, or another address. *)
Inductive channel := ChanProc (i : nat) | ChanAddr (a : Z).
#[global] Instance channel_eq_dec : EqDecision channel.
Proof. solve_decision. Defined.

Record proc := {
  p_sz : Z; p_pgdir : Z; p_kstack : Z; p_state : procstate; p_pid : Z; p_parent : option nat;
  p_tf : trapframe; p_chan : option channel; p_killed : bool; p_ofile : list (option nat);
  p_cwd : option nat; p_name : string; p_inuse : Z; p_tickets : Z; p_ticks : Z
}.

Definition zero_proc : proc :=
  {| p_sz := 0; p_pgdir := 0; p_kstack := 0; p_state := UNUSED; p_pid := 0; p_parent := None;
     p_tf := zero_tf; p_chan := None; p_killed := false;
     p_ofile := replicate (Z.to_nat NOFILE) None; p_cwd := None; p_name := EmptyString;
     p_inuse := 0; p_tickets := 0; p_ticks := 0 |}.

(** What proc.c and sysproc.c use of kalloc.c, vm.c, trap.c, file.c, fs.c and
    log.c, and of user memory, over the state
    [K] of those components. *)
Class KOps (K : Type) := {
  k_kalloc : M K Z;
  k_kfree : Z -> M K unit;
  k_setupkvm : M K Z;
  k_inituvm : Z -> M K unit;
  k_copyuvm : Z -> Z -> M K Z;
  k_allocuvm : Z -> Z -> Z -> M K Z;
  k_deallocuvm : Z -> Z -> Z -> M K Z;
  k_freevm : Z -> M K unit;
  k_store_user : Z -> Z -> Z -> M K unit;    (* page directory, address, word *)
  k_load_user : Z -> Z -> M K Z;             (* page directory, address *)
  k_load_byte : Z -> Z -> M K Z;
  k_mprotect : Z -> Z -> Z -> Z -> M K Z;    (* size, page directory, address, length *)
  k_munprotect : Z -> Z -> Z -> Z -> M K Z;
  k_ticks : M K Z;                           (* the clock of trap.c *)
  k_tick : M K unit;
  k_filedup : nat -> M K unit;
  k_fileclose : nat -> M K unit;
  k_idup : nat -> M K unit;
  k_iput_op : nat -> M K unit;               (* begin_op, iput, end_op *)
  k_namei_root : M K (option nat)
}.

Record ptable (K : Type) := {
  procs : list proc; nextpid : Z; initproc : option nat; seed : Z; kst : K
}.
Arguments procs {K}.
Arguments nextpid {K}.
Arguments initproc {K}.
Arguments seed {K}.
Arguments kst {K}.

Section proc.
Context {K : Type} `{KOps K}.

Definition set_procs (f : list proc -> list proc) (s : ptable K) : ptable K :=
  {| procs := f (procs s); nextpid := nextpid s; initproc := initproc s; seed := seed s;
     kst := kst s |}.
Definition set_kst (k : K) (s : ptable K) : ptable K :=
  {| procs := procs s; nextpid := nextpid s; initproc := initproc s; seed := seed s; kst := k |}.

Definition onk {A} (c : M K A) : M (ptable K) A := zoom kst set_kst c.

Definition getp (i : nat) : M (ptable K) proc := fun s =>
  match procs s !! i with Some p => Done (p, s) | None => Fault end.
Definition updp (i : nat) (f : proc -> proc) : M (ptable K) unit := modify (set_procs (alter f i)).
End proc.

(** Field updates. *)
Definition set_state (x : procstate) (p : proc) : proc :=
  {| p_sz := p_sz p; p_pgdir := p_pgdir p; p_kstack := p_kstack p; p_state := x; p_pid := p_pid p;
     p_parent := p_parent p; p_tf := p_tf p; p_chan := p_chan p; p_killed := p_killed p;
     p_ofile := p_ofile p; p_cwd := p_cwd p; p_name := p_name p; p_inuse := p_inuse p;
     p_tickets := p_tickets p; p_ticks := p_ticks p |}.
Definition set_kstack (x : Z) (p : proc) : proc :=
  {| p_sz := p_sz p; p_pgdir := p_pgdir p; p_kstack := x; p_state := p_state p; p_pid := p_pid p;
     p_parent := p_parent p; p_tf := p_tf p; p_chan := p_chan p; p_killed := p_killed p;
     p_ofile := p_ofile p; p_cwd := p_cwd p; p_name := p_name p; p_inuse := p_inuse p;
     p_tickets := p_tickets p; p_ticks := p_ticks p |}.
Definition set_pgdir (x : Z) (p : proc) : proc :=
  {| p_sz := p_sz p; p_pgdir := x; p_kstack := p_kstack p; p_state := p_state p; p_pid := p_pid p;
     p_parent := p_parent p; p_tf := p_tf p; p_chan := p_chan p; p_killed := p_killed p;
     p_ofile := p_ofile p; p_cwd := p_cwd p; p_name := p_name p; p_inuse := p_inuse p;
     p_tickets := p_tickets p; p_ticks := p_ticks p |}.
Definition set_sz (x : Z) (p : proc) : proc :=
  {| p_sz := x; p_pgdir := p_pgdir p; p_kstack := p_kstack p; p_state := p_state p; p_pid := p_pid p;
     p_parent := p_parent p; p_tf := p_tf p; p_chan := p_chan p; p_killed := p_killed p;
     p_ofile := p_ofile p; p_cwd := p_cwd p; p_name := p_name p; p_inuse := p_inuse p;
     p_tickets := p_tickets p; p_ticks := p_ticks p |}.
Definition set_parent (x : option nat) (p : proc) : proc :=
  {| p_sz := p_sz p; p_pgdir := p_pgdir p; p_kstack := p_kstack p; p_state := p_state p;
     p_pid := p_pid p; p_parent := x; p_tf := p_tf p; p_chan := p_chan p; p_killed := p_killed p;
     p_ofile := p_ofile p; p_cwd := p_cwd p; p_name := p_name p; p_inuse := p_inuse p;
     p_tickets := p_tickets p; p_ticks := p_ticks p |}.
Definition set_tf (x : trapframe) (p : proc) : proc :=
  {| p_sz := p_sz p; p_pgdir := p_pgdir p; p_kstack := p_kstack p; p_state := p_state p;
     p_pid := p_pid p; p_parent := p_parent p; p_tf := x; p_chan := p_chan p; p_killed := p_killed p;
     p_ofile := p_ofile p; p_cwd := p_cwd p; p_name := p_name p; p_inuse := p_inuse p;
     p_tickets := p_tickets p; p_ticks := p_ticks p |}.
Definition set_chan (x : option channel) (p : proc) : proc :=
  {| p_sz := p_sz p; p_pgdir := p_pgdir p; p_kstack := p_kstack p; p_state := p_state p;
     p_pid := p_pid p; p_parent := p_parent p; p_tf := p_tf p; p_chan := x; p_killed := p_killed p;
     p_ofile := p_ofile p; p_cwd := p_cwd p; p_name := p_name p; p_inuse := p_inuse p;
     p_tickets := p_tickets p; p_ticks := p_ticks p |}.
Definition set_killed (x : bool) (p : proc) : proc :=
  {| p_sz := p_sz p; p_pgdir := p_pgdir p; p_kstack := p_kstack p; p_state := p_state p;
     p_pid := p_pid p; p_parent := p_parent p; p_tf := p_tf p; p_chan := p_chan p; p_killed := x;
     p_ofile := p_ofile p; p_cwd := p_cwd p; p_name := p_name p; p_inuse := p_inuse p;
     p_tickets := p_tickets p; p_ticks := p_ticks p |}.
Definition set_ofile (x : list (option nat)) (p : proc) : proc :=
  {| p_sz := p_sz p; p_pgdir := p_pgdir p; p_kstack := p_kstack p; p_state := p_state p;
     p_pid := p_pid p; p_parent := p_parent p; p_tf := p_tf p; p_chan := p_chan p;
     p_killed := p_killed p; p_ofile := x; p_cwd := p_cwd p; p_name := p_name p;
     p_inuse := p_inuse p; p_tickets := p_tickets p; p_ticks := p_ticks p |}.
Definition set_cwd (x : option nat) (p : proc) : proc :=
  {| p_sz := p_sz p; p_pgdir := p_pgdir p; p_kstack := p_kstack p; p_state := p_state p;
     p_pid := p_pid p; p_parent := p_parent p; p_tf := p_tf p; p_chan := p_chan p;
     p_killed := p_killed p; p_ofile := p_ofile p; p_cwd := x; p_name := p_name p;
     p_inuse := p_inuse p; p_tickets := p_tickets p; p_ticks := p_ticks p |}.
Definition set_name (x : string) (p : proc) : proc :=
  {| p_sz := p_sz p; p_pgdir := p_pgdir p; p_kstack := p_kstack p; p_state := p_state p;
     p_pid := p_pid p; p_parent := p_parent p; p_tf := p_tf p; p_chan := p_chan p;
     p_killed := p_killed p; p_ofile := p_ofile p; p_cwd := p_cwd p; p_name := x;
     p_inuse := p_inuse p; p_tickets := p_tickets p; p_ticks := p_ticks p |}.
Definition set_tickets (x : Z) (p : proc) : proc :=
  {| p_sz := p_sz p; p_pgdir := p_pgdir p; p_kstack := p_kstack p; p_state := p_state p;
     p_pid := p_pid p; p_parent := p_parent p; p_tf := p_tf p; p_chan := p_chan p;
     p_killed := p_killed p; p_ofile := p_ofile p; p_cwd := p_cwd p; p_name := p_name p;
     p_inuse := p_inuse p; p_tickets := x; p_ticks := p_ticks p |}.
Definition set_ticks (x : Z) (p : proc) : proc :=
  {| p_sz := p_sz p; p_pgdir := p_pgdir p; p_kstack := p_kstack p; p_state := p_state p;
     p_pid := p_pid p; p_parent := p_parent p; p_tf := p_tf p; p_chan := p_chan p;
     p_killed := p_killed p; p_ofile := p_ofile p; p_cwd := p_cwd p; p_name := p_name p;
     p_inuse := p_inuse p; p_tickets := p_tickets p; p_ticks := x |}.
Definition set_pid_inuse (pid inuse : Z) (p : proc) : proc :=
  {| p_sz := p_sz p; p_pgdir := p_pgdir p; p_kstack := p_kstack p; p_state := p_state p;
     p_pid := pid; p_parent := p_parent p; p_tf := p_tf p; p_chan := p_chan p;
     p_killed := p_killed p; p_ofile := p_ofile p; p_cwd := p_cwd p; p_name := p_name p;
     p_inuse := inuse; p_tickets := p_tickets p; p_ticks := p_ticks p |}.

Section ops.
Context {K : Type} `{KOps K}.

Definition allocproc : M (ptable K) (option nat) := fun s =>
  match list_find (fun p => p_state p = UNUSED) (procs s) with
  | None => Done (None, s)
  | Some (i, _) =>
      (modify (fun s =>
         {| procs := alter (fun p => set_tickets 1 (set_pid_inuse (nextpid s) 1 (set_state EMBRYO p)))
                       i (procs s);
            nextpid := i32 (nextpid s + 1); initproc := initproc s; seed := seed s; kst := kst s |});;;
       let! ks := onk k_kalloc in
       updp i (set_kstack ks);;;
       if ks =? 0 then updp i (set_state UNUSED);;; ret None else ret (Some i)) s
  end.

Definition userinit : M (ptable K) unit :=
  let! op := allocproc in
  match op with
  | None => fault
  | Some i =>
      modify (fun s => {| procs := procs s; nextpid := nextpid s; initproc := Some i;
                          seed := seed s; kst := kst s |});;;
      let! pg := onk k_setupkvm in
      updp i (set_pgdir pg);;;
      if pg =? 0 then panic "userinit: out of memory?"
      else
        onk (k_inituvm pg);;;
        let ds := Z.lor (Z.shiftl SEG_UDATA 3) DPL_USER in
        updp i (fun p => set_tf
          {| tf_other := replicate 10 0; tf_ebp := 0; tf_eax := 0; tf_es := ds; tf_ds := ds; tf_eip := 0;
             tf_cs := Z.lor (Z.shiftl SEG_UCODE 3) DPL_USER; tf_eflags := FL_IF;
             tf_esp := PGSIZE; tf_ss := ds |} (set_sz PGSIZE p));;;
        let! root := onk k_namei_root in
        updp i (fun p => set_state RUNNABLE (set_cwd root (set_name "initcode" p)))
  end.

(** [switchuvm] only loads processor registers. *)
Definition growproc (me : nat) (n : Z) : M (ptable K) Z :=
  let! cur := getp me in
  if 0 <? n then
    let! sz := onk (k_allocuvm (p_pgdir cur) (p_sz cur) (u32 (p_sz cur + n))) in
    if sz =? 0 then ret (-1) else updp me (set_sz sz);;; ret 0
  else if n <? 0 then
    let! sz := onk (k_deallocuvm (p_pgdir cur) (p_sz cur) (u32 (p_sz cur + n))) in
    if sz =? 0 then ret (-1) else updp me (set_sz sz);;; ret 0
  else updp me (set_sz (p_sz cur));;; ret 0.

(** The loop over the open files in [fork] and [clone]. *)
Fixpoint dup_files (fs : list (option nat)) : M K unit :=
  match fs with
  | [] => ret tt
  | Some f :: fs => k_filedup f;;; dup_files fs
  | None :: fs => dup_files fs
  end.
Definition copy_files (cur np : list (option nat)) : list (option nat) :=
  zip_with (fun c o => match c with Some f => Some f | None => o end) cur np.

(** The part of [fork] and [clone] after the address space and the registers:
    files, working directory, name, and making the child runnable. *)
Definition fork_tail (cur : proc) (np : nat) : M (ptable K) Z :=
  onk (dup_files (p_ofile cur));;;
  updp np (fun p => set_ofile (copy_files (p_ofile cur) (p_ofile p)) p);;;
  (match p_cwd cur with Some ip => onk (k_idup ip) | None => fault end);;;
  updp np (fun p => set_name (p_name cur) (set_cwd (p_cwd cur) p));;;
  let! n := getp np in
  updp np (fun p => set_tickets (p_tickets cur) (set_state RUNNABLE p));;;
  ret (p_pid n).

(** [fork] after [allocproc] has released the lock of the table. *)
Definition fork_child (me np : nat) : M (ptable K) Z :=
  let! cur := getp me in
  let! pg := onk (k_copyuvm (p_pgdir cur) (p_sz cur)) in
  updp np (set_pgdir pg);;;
  if pg =? 0 then
    let! n := getp np in
    onk (k_kfree (p_kstack n));;;
    updp np (fun p => set_state UNUSED (set_kstack 0 p));;;
    ret (-1)
  else
    let tf := p_tf cur in
    updp np (fun p => set_tf
      {| tf_other := tf_other tf; tf_ebp := tf_ebp tf; tf_eax := 0; tf_es := tf_es tf; tf_ds := tf_ds tf;
         tf_eip := tf_eip tf; tf_cs := tf_cs tf; tf_eflags := tf_eflags tf;
         tf_esp := tf_esp tf; tf_ss := tf_ss tf |}
      (set_parent (Some me) (set_sz (p_sz cur) p)));;;
    fork_tail cur np.
Definition fork (me : nat) : M (ptable K) Z :=
  let! onp := allocproc in
  match onp with None => ret (-1) | Some np => fork_child me np end.

(** Wake up all processes sleeping on [chan]. *)
Definition wake (chan : option channel) (p : proc) : proc :=
  if decide (p_state p = SLEEPING /\ p_chan p = chan) then set_state RUNNABLE p else p.
Definition wakeup1 (chan : option channel) : M (ptable K) unit :=
  modify (set_procs (fmap (wake chan))).
Definition wakeup := wakeup1.

(** The loop over the open files in [exit]. *)
Fixpoint close_files (fs : list (option nat)) : M K unit :=
  match fs with
  | [] => ret tt
  | Some f :: fs => k_fileclose f;;; close_files fs
  | None :: fs => close_files fs
  end.

(** One round of the loop that passes abandoned children to init. *)
Definition abandon (me : nat) (i : Z) : M (ptable K) unit :=
  let! init := gets initproc in
  let! p := getp (Z.to_nat i) in
  if decide (p_parent p = Some me) then
    updp (Z.to_nat i) (set_parent init);;;
    if decide (p_state p = ZOMBIE) then wakeup1 (ChanProc <$> init) else ret tt
  else ret tt.

(** [exit] under the lock of the table, up to the call of [sched], which does
    not return. *)
Definition exit_locked (me : nat) : M (ptable K) unit :=
  let! cur := getp me in
  wakeup1 (ChanProc <$> p_parent cur);;;
  for_loop (Z.to_nat NPROC) 0 (abandon me);;;
  updp me (set_state ZOMBIE).
Definition exit (me : nat) : M (ptable K) unit :=
  let! init := gets initproc in
  if decide (init = Some me) then panic "init exiting"
  else
    let! cur := getp me in
    onk (close_files (p_ofile cur));;;
    updp me (fun p => set_ofile (replicate (length (p_ofile cur)) None) p);;;
    (match p_cwd cur with Some ip => onk (k_iput_op ip) | None => fault end);;;
    updp me (set_cwd None);;;
    exit_locked me.

(** Go to sleep on [chan], up to the call of [sched]. *)
Definition sleep (me : nat) (chan : channel) : M (ptable K) unit :=
  updp me (fun p => set_state SLEEPING (set_chan (Some chan) p)).

(** How a pass of the loop of [wait] (or [join]) ends. *)
Inductive wait_res := WaitRet (r : Z) | WaitAsleep.

Definition reap (i : nat) : M (ptable K) Z :=
  let! p := getp i in
  onk (k_kfree (p_kstack p));;;
  updp i (set_kstack 0);;;
  onk (k_freevm (p_pgdir p));;;
  updp i (fun p => set_ticks 0 (set_tickets 0 (set_state UNUSED (set_killed false
    (set_name EmptyString (set_parent None (set_pid_inuse 0 0 p)))))));;;
  ret (p_pid p).

Definition wait (me : nat) : M (ptable K) wait_res :=
  let! ps := gets procs in
  match list_find (fun p => p_parent p = Some me /\ p_state p = ZOMBIE) ps with
  | Some (i, _) => let! pid := reap i in ret (WaitRet pid)
  | None =>
      let havekids := existsb (fun p => bool_decide (p_parent p = Some me)) ps in
      let! cur := getp me in
      if negb havekids || p_killed cur then ret (WaitRet (-1))
      else sleep me (ChanProc me);;; ret WaitAsleep
  end.

Definition kill (pid : Z) : M (ptable K) Z :=
  let! ps := gets procs in
  match list_find (fun p => p_pid p = pid) ps with
  | Some (i, _) =>
      updp i (fun p =>
        let p := set_killed true p in
        if decide (p_state p = SLEEPING) then set_state RUNNABLE p else p);;;
      ret 0
  | None => ret (-1)
  end.

(** [yield], up to the call of [sched]. *)
Definition yield (me : nat) : M (ptable K) unit := updp me (set_state RUNNABLE).
End ops.

(** ** The lottery (scheduler) *)

Definition lcg (seed : Z) : Z := Z.rem (i32 (i32 (8121 * seed) + 28411)) 134456.

Fixpoint count_tickets (count : Z) (ps : list proc) : Z :=
  match ps with
  | [] => count
  | p :: ps =>
      count_tickets (if decide (p_state p = RUNNABLE) then i32 (count + p_tickets p) else count) ps
  end.

(** The index of the first runnable process at which the running count reaches
    [r]. *)
Fixpoint pick (r count : Z) (ps : list proc) : option nat :=
  match ps with
  | [] => None
  | p :: ps =>
      if decide (p_state p = RUNNABLE) then
        let count := i32 (count + p_tickets p) in
        if r <=? count then Some O else S <$> pick r count ps
      else S <$> pick r count ps
  end.

(** [r]: a division by zero is a fault. *)
Definition draw (seed count : Z) : outcome Z :=
  if count =? 0 then Done 0
  else if i32 (count + 1) =? 0 then Fault else Done (Z.rem seed (i32 (count + 1))).

(** One round of [scheduler]: the new table, and the process to run. *)
Definition scheduler {K} : M (ptable K) (option nat) := fun s =>
  let count := count_tickets 0 (procs s) in
  let sd := lcg (seed s) in
  match draw sd count with
  | Done r =>
      let w := pick r 0 (procs s) in
      Done (w, {| procs := match w with
                           | Some i => alter (fun p => set_ticks (i32 (p_ticks p + 1))
                                                         (set_state RUNNING p)) i (procs s)
                           | None => procs s
                           end;
                  nextpid := nextpid s; initproc := initproc s; seed := sd; kst := kst s |})
  | Panic m => Panic m
  | Fault => Fault
  | Asleep => Asleep
  end.

(** ** Statistics, threads *)

Section threads.
Context {K : Type} `{KOps K}.

(** [getpstat]: four arrays of [NPROC] words at the user address [ps]; the
    entries of free slots are left as they are. *)
Fixpoint pstat_entries (pgdir ps i : Z) (l : list proc) : M K unit :=
  match l with
  | [] => ret tt
  | p :: l =>
      (if decide (p_state p = UNUSED) then ret tt
       else
         k_store_user pgdir (u32 (ps + 4 * i)) 1;;;
         k_store_user pgdir (u32 (ps + 4 * (2 * NPROC + i))) (p_pid p);;;
         k_store_user pgdir (u32 (ps + 4 * (3 * NPROC + i))) (p_ticks p);;;
         k_store_user pgdir (u32 (ps + 4 * (NPROC + i))) (p_tickets p));;;
      pstat_entries pgdir ps (i + 1) l
  end.
Definition getpstat (me : nat) (ps : Z) : M (ptable K) unit :=
  let! cur := getp me in
  let! l := gets procs in
  onk (pstat_entries (p_pgdir cur) ps 0 l).

(** [clone] after [allocproc]. *)
Definition clone_child (me : nat) (fcn arg1 arg2 stack : Z) (np : nat) : M (ptable K) Z :=
  let! cur := getp me in
  updp np (fun p => set_parent (Some me) (set_sz (p_sz cur) (set_pgdir (p_pgdir cur) p)));;;
  onk (k_store_user (p_pgdir cur) (u32 (stack + PGSIZE - 3 * 4)) 0xFFFFFFFF);;;
  onk (k_store_user (p_pgdir cur) (u32 (stack + PGSIZE - 2 * 4)) arg1);;;
  onk (k_store_user (p_pgdir cur) (u32 (stack + PGSIZE - 4)) arg2);;;
  let tf := p_tf cur in
  let sp := u32 (stack + PGSIZE - 3 * 4) in
  updp np (set_tf
    {| tf_other := tf_other tf; tf_ebp := sp; tf_eax := 0; tf_es := tf_es tf; tf_ds := tf_ds tf;
       tf_eip := fcn; tf_cs := tf_cs tf; tf_eflags := tf_eflags tf;
       tf_esp := sp; tf_ss := tf_ss tf |});;;
  fork_tail cur np.
Definition clone (me : nat) (fcn arg1 arg2 stack : Z) : M (ptable K) Z :=
  let! onp := allocproc in
  match onp with None => ret (-1) | Some np => clone_child me fcn arg1 arg2 stack np end.

(** The scan of [join] from slot [i] on: a slot whose parent is another
    process has its parent's page directory read; without a parent the field is
    read through a null pointer, at offset 4, which is user memory of the
    calling process. *)
Fixpoint join_scan (me : nat) (n : nat) (i : nat) : M (ptable K) (option nat) :=
  match n with
  | O => ret None
  | S n =>
      let! p := getp i in
      let! skip :=
        (if decide (p_parent p = Some me) then ret false
         else match p_parent p with
              | None =>
                  let! cur := getp me in
                  let! w := onk (k_load_user (p_pgdir cur) 4) in
                  ret (negb (w =? p_pgdir p))
              | Some q => let! pp := getp q in ret (negb (p_pgdir pp =? p_pgdir p))
              end) in
      if skip then join_scan me n (S i)
      else if decide (p_state p = ZOMBIE) then ret (Some i) else join_scan me n (S i)
  end.

(** A pass of the loop of [join]; its argument is not used. *)
Definition join (me : nat) : M (ptable K) wait_res :=
  let! oi := join_scan me (Z.to_nat NPROC) 0 in
  match oi with
  | Some i =>
      let! p := getp i in
      updp i (set_state UNUSED);;;
      onk (k_kfree (p_kstack p));;;
      ret (WaitRet (p_pid p))
  | None => sleep me (ChanProc me);;; ret WaitAsleep
  end.
End threads.
