(* ===== verification/Syscall.v ===== *)
(** * Syscall: system calls and traps (syscall.c, sysproc.c, trap.c)

    How a system call fetches its arguments from user memory, the process
    system calls, and the dispatch of system calls, interrupts and faults. The
    file system calls and the device interrupt handlers are arguments. *)

From stdpp Require Import base list numbers gmap strings.
From S2P Require Import Prelude Params Proc.

Local Open Scope Z_scope.
Local Open Scope os_scope.

(** ** Arguments (syscall.c) *)

Section args.
Context {K : Type} `{KOps K}.

(** [None] is the result -1. *)
Definition fetchint (me : nat) (addr : Z) : M (ptable K) (option Z) :=
  let! cur := getp me in
  if (p_sz cur <=? addr) || (p_sz cur <? u32 (addr + 4)) then ret None
  else let! w := onk (k_load_user (p_pgdir cur) addr) in ret (Some (i32 w)).

Fixpoint fetchstr_from (pgdir s : Z) (n : nat) (len : Z) : M K (option Z) :=
  match n with
  | O => ret None
  | S n =>
      let! c := k_load_byte pgdir s in
      if c =? 0 then ret (Some len) else fetchstr_from pgdir (s + 1) n (len + 1)
  end.
Definition fetchstr (me : nat) (addr : Z) : M (ptable K) (option Z) :=
  let! cur := getp me in
  if p_sz cur <=? addr then ret None
  else onk (fetchstr_from (p_pgdir cur) addr (Z.to_nat (p_sz cur - addr)) 0).

Definition argint (me : nat) (n : Z) : M (ptable K) (option Z) :=
  let! cur := getp me in
  fetchint me (u32 (tf_esp (p_tf cur) + 4 + 4 * n)).

Definition argptr (me : nat) (n size : Z) : M (ptable K) (option Z) :=
  let! oi := argint me n in
  match oi with
  | None => ret None
  | Some i =>
      let! cur := getp me in
      if (size <? 0) || (p_sz cur <=? u32 i) || (p_sz cur <? u32 (u32 i + size)) then ret None
      else ret (Some (u32 i))
  end.

(** The address and the length of the string. *)
Definition argstr (me : nat) (n : Z) : M (ptable K) (option (Z * Z)) :=
  let! oaddr := argint me n in
  match oaddr with
  | None => ret None
  | Some addr =>
      let! on := fetchstr me (u32 addr) in
      ret (len ← on; Some (u32 addr, len))
  end.

(** ** The process system calls (sysproc.c) *)

(** Fetch argument [n], or return -1. *)
Definition with_arg (me : nat) (n : Z) (k : Z -> M (ptable K) wait_res) : M (ptable K) wait_res :=
  let! oi := argint me n in
  match oi with
  | None => ret (WaitRet (-1))
  | Some i => k i
  end.
Definition returning (c : M (ptable K) Z) : M (ptable K) wait_res :=
  let! r := c in ret (WaitRet r).

Definition sys_fork (me : nat) : M (ptable K) wait_res := returning (fork me).
(** [exit] does not return: the process never runs again. *)
Definition sys_exit (me : nat) : M (ptable K) wait_res := exit me;;; ret WaitAsleep.
Definition sys_wait (me : nat) : M (ptable K) wait_res := wait me.
Definition sys_kill (me : nat) : M (ptable K) wait_res :=
  with_arg me 0 (fun pid => returning (kill pid)).
Definition sys_getpid (me : nat) : M (ptable K) wait_res :=
  let! cur := getp me in ret (WaitRet (p_pid cur)).
Definition sys_sbrk (me : nat) : M (ptable K) wait_res :=
  with_arg me 0 (fun n =>
    let! cur := getp me in
    let addr := i32 (p_sz cur) in
    let! r := growproc me n in
    ret (WaitRet (if r <? 0 then -1 else addr))).

(** [&ticks], the channel of [sys_sleep]. *)
Context (ticks_chan : Z).
(** The loop of [sys_sleep], entered again after every wakeup; the difference
    of clocks is compared with [n] as unsigned numbers. *)
Definition sys_sleep_loop (me : nat) (ticks0 n : Z) : M (ptable K) wait_res :=
  let! t := onk k_ticks in
  if u32 (t - ticks0) <? u32 n then
    let! cur := getp me in
    if p_killed cur then ret (WaitRet (-1))
    else sleep me (ChanAddr ticks_chan);;; ret WaitAsleep
  else ret (WaitRet 0).
Definition sys_sleep (me : nat) : M (ptable K) wait_res :=
  with_arg me 0 (fun n => let! ticks0 := onk k_ticks in sys_sleep_loop me ticks0 n).
Definition sys_uptime (me : nat) : M (ptable K) wait_res :=
  let! t := onk k_ticks in ret (WaitRet (i32 t)).
Definition sys_settickets (me : nat) : M (ptable K) wait_res :=
  with_arg me 0 (fun n =>
    if n <? 0 then ret (WaitRet (-1)) else updp me (set_tickets n);;; ret (WaitRet 0)).
Definition sys_getpinfo (me : nat) : M (ptable K) wait_res :=
  with_arg me 0 (fun ps => getpstat me (u32 ps);;; ret (WaitRet 0)).
Definition sys_mprotect (me : nat) : M (ptable K) wait_res :=
  with_arg me 0 (fun addr => with_arg me 1 (fun len =>
    let! cur := getp me in
    returning (onk (k_mprotect (p_sz cur) (p_pgdir cur) (u32 addr) len)))).
Definition sys_munprotect (me : nat) : M (ptable K) wait_res :=
  with_arg me 0 (fun addr => with_arg me 1 (fun len =>
    let! cur := getp me in
    returning (onk (k_munprotect (p_sz cur) (p_pgdir cur) (u32 addr) len)))).
Definition sys_clone (me : nat) : M (ptable K) wait_res :=
  with_arg me 0 (fun fcn => with_arg me 1 (fun arg1 => with_arg me 2 (fun arg2 =>
    with_arg me 3 (fun stack => returning (clone me (u32 fcn) (u32 arg1) (u32 arg2) (u32 stack)))))).
Definition sys_join (me : nat) : M (ptable K) wait_res := with_arg me 0 (fun _ => join me).

(** ** Dispatch (syscall of syscall.c) *)

Context (sys_file : Z -> option (nat -> M (ptable K) wait_res)).

(** The array [syscalls], from [SYS_fork] = 1 to [SYS_join] = 28. *)
Definition syscalls : list (option (nat -> M (ptable K) wait_res)) :=
  [None; Some sys_fork; Some sys_exit; Some sys_wait; sys_file 4 (* pipe *); sys_file 5 (* read *);
   Some sys_kill; sys_file 7 (* exec *); sys_file 8 (* fstat *); sys_file 9 (* chdir *);
   sys_file 10 (* dup *); Some sys_getpid; Some sys_sbrk; Some sys_sleep; Some sys_uptime;
   sys_file 15 (* open *); sys_file 16 (* write *); sys_file 17 (* mknod *);
   sys_file 18 (* unlink *); sys_file 19 (* link *); sys_file 20 (* mkdir *);
   sys_file 21 (* close *); sys_file 22 (* getreadcount *); Some sys_settickets;
   Some sys_getpinfo; Some sys_mprotect; Some sys_munprotect; Some sys_clone; Some sys_join].

Definition set_eax (v : Z) (p : proc) : proc :=
  let tf := p_tf p in
  set_tf {| tf_other := tf_other tf; tf_ebp := tf_ebp tf; tf_eax := u32 v; tf_es := tf_es tf; tf_ds := tf_ds tf;
            tf_eip := tf_eip tf; tf_cs := tf_cs tf; tf_eflags := tf_eflags tf;
            tf_esp := tf_esp tf; tf_ss := tf_ss tf |} p.

Definition syscall (me : nat) : M (ptable K) wait_res :=
  let! cur := getp me in
  let num := i32 (tf_eax (p_tf cur)) in
  match (if 0 <? num then mjoin (syscalls !! Z.to_nat num) else None) with
  | Some f =>
      let! r := f me in
      match r with
      | WaitRet v => updp me (set_eax v);;; ret (WaitRet v)
      | WaitAsleep => ret WaitAsleep
      end
  | None => updp me (set_eax (-1));;; ret (WaitRet (-1))
  end.

(** ** Traps (trap of trap.c) *)

Inductive trapno := TSyscall | TTimer | TIde | TIde1 | TKbd | TCom1 | TSpurious | TOther.

Context (ideintr kbdintr uartintr : M (ptable K) unit).

(** Whether the process dies here ([exit] does not return). *)
Definition die_if_killed (me : nat) : M (ptable K) bool :=
  let! p := getp me in
  if p_killed p then exit me;;; ret true else ret false.

(** A system call, up to its return, to [exit], or to the first sleep. *)
Definition trap_syscall (me : nat) : M (ptable K) unit :=
  let! dead := die_if_killed me in
  if dead then ret tt
  else
    let! r := syscall me in
    match r with
    | WaitRet _ => let! _ := die_if_killed me in ret tt
    | WaitAsleep => ret tt
    end.

(** An interrupt or a fault taken on processor [cpu] while [me] runs (if any),
    in user mode or in the kernel, up to the [sched] of [yield] or [exit]. *)
Definition trap_handler (cpu : Z) (me : option nat) (user : bool) (n : trapno) : M (ptable K) unit :=
  match n with
  | TSyscall => ret tt
  | TTimer => if cpu =? 0 then onk k_tick;;; wakeup (Some (ChanAddr ticks_chan)) else ret tt
  | TIde => ideintr
  | TIde1 => ret tt
  | TKbd => kbdintr
  | TCom1 => uartintr
  | TSpurious => ret tt
  | TOther =>
      match me with
      | Some i => if user then updp i (set_killed true) else panic "trap"
      | None => panic "trap"
      end
  end.
(** The end of [trap], which a process that yielded reaches when it runs again. *)
Definition trap_end (user : bool) (i : nat) : M (ptable K) unit :=
  let! _ := (if user then die_if_killed i else ret false) in ret tt.
Definition trap (cpu : Z) (me : option nat) (user : bool) (n : trapno) : M (ptable K) unit :=
  match n, me with
  | TSyscall, Some i => trap_syscall i
  | TSyscall, None => fault
  | _, _ =>
      trap_handler cpu me user n;;;
      match me with
      | None => ret tt
      | Some i =>
          let! dead := (if user then die_if_killed i else ret false) in
          if dead then ret tt
          else
            let! p := getp i in
            match n, p_state p with
            | TTimer, RUNNING => yield i
            | _, _ => trap_end user i
            end
      end
  end.
End args.

(** ** Fetching arguments touches only the process's memory *)

Section user_memory.
Context {K : Type} `{KOps K} (word byte : Z -> Z) (pgdir sz : Z).
Implicit Types s : ptable K.
(** User memory is mapped below the size of the process. Nothing is known of
    the loads elsewhere. *)
Hypothesis load_word : forall k a, 0 <= a -> a + 4 <= sz -> k_load_user pgdir a k = Done (word a, k).
Hypothesis load_byte : forall k a, 0 <= a < sz -> k_load_byte pgdir a k = Done (byte a, k).

Definition runs_in me s : Prop :=
  exists cur, procs s !! me = Some cur /\ p_pgdir cur = pgdir /\ p_sz cur = sz /\
    is_u32 (tf_esp (p_tf cur)).
Definition esp_of me s : Z := from_option (fun p => tf_esp (p_tf p)) 0 (procs s !! me).

Hypothesis Hsz : 0 <= sz <= 0x80000000.

(** The value of the int at [addr], if there is one. *)
Definition user_int (addr : Z) : option Z :=
  if bool_decide (addr + 4 <= sz) then Some (i32 (word addr)) else None.

Lemma set_kst_same s : set_kst (kst s) s = s.
Proof. by destruct s. Qed.

Lemma onk_load {A} (c : M K A) a s : c (kst s) = Done (a, kst s) -> onk c s = Done (a, s).
Proof. intros Hc. unfold onk, zoom. rewrite Hc. by rewrite set_kst_same. Qed.

Lemma fetchint_run me addr s :
  runs_in me s -> is_u32 addr -> fetchint me addr s = Done (user_int addr, s).
Proof.
  intros (cur & Hme & Hpg & Hz & _) Ha. unfold fetchint, user_int.
  erewrite bind_done by (unfold getp; by rewrite Hme). rewrite Hz, Hpg.
  destruct (Z.leb_spec sz addr) as [Hle|Hlt]; cbn [orb].
  { rewrite bool_decide_false by lia. done. }
  assert (u32 (addr + 4) = addr + 4) as -> by (apply u32_small; wrap_lia).
  destruct (Z.ltb_spec sz (addr + 4)); [by rewrite bool_decide_false by lia|].
  rewrite bool_decide_true by lia.
  erewrite bind_done; [done|]. apply onk_load, load_word; wrap_lia.
Qed.

Definition user_arg me n s : option Z := user_int (u32 (esp_of me s + 4 + 4 * n)).

Lemma argint_run me n s : runs_in me s -> argint me n s = Done (user_arg me n s, s).
Proof.
  intros Hr. pose proof Hr as (cur & Hme & _). unfold argint.
  erewrite bind_done by (unfold getp; by rewrite Hme).
  rewrite fetchint_run by (done || apply u32_range). unfold user_arg, esp_of. by rewrite Hme.
Qed.

Lemma fetchstr_from_run k a n len :
  0 <= a -> a + Z.of_nat n <= sz ->
  exists r, fetchstr_from pgdir a n len k = Done (r, k) /\
    match r with
    | Some l => exists j, l = len + j /\ 0 <= j < Z.of_nat n /\ byte (a + j) = 0 /\
                  forall i, 0 <= i < j -> byte (a + i) <> 0
    | None => forall i, 0 <= i < Z.of_nat n -> byte (a + i) <> 0
    end.
Proof.
  revert a len. induction n as [|n IH]; intros a len Ha Hle; cbn [fetchstr_from].
  { exists None. split; [done|]. lia. }
  erewrite bind_done by (apply load_byte; lia).
  destruct (Z.eqb_spec (byte a) 0) as [H0|H0].
  { exists (Some len). split; [done|]. exists 0. rewrite !Z.add_0_r. split_and!; [done|lia|lia|done|lia]. }
  destruct (IH (a + 1) (len + 1)) as (r & Hr & Hp); [lia..|]. exists r. split; [done|].
  assert (forall i, 0 < i -> byte (a + 1 + (i - 1)) <> 0 -> byte (a + i) <> 0) as Hs.
  { intros i _ Hi. by replace (a + i) with (a + 1 + (i - 1)) by lia. }
  destruct r as [l|].
  - destruct Hp as (j & -> & Hj & Hz & Hnz). exists (j + 1).
    split_and!; [lia|lia|lia|by replace (a + (j + 1)) with (a + 1 + j) by lia|].
    intros i Hi. destruct (decide (i = 0)) as [->|]; [by rewrite Z.add_0_r|]. apply Hs; [lia|]. apply Hnz. lia.
  - intros i Hi. destruct (decide (i = 0)) as [->|]; [by rewrite Z.add_0_r|]. apply Hs; [lia|]. apply Hp. lia.
Qed.

(** The string at [a] has length [len] and ends inside the process. *)
Definition user_str (a len : Z) : Prop :=
  0 <= a /\ 0 <= len /\ a + len < sz /\ byte (a + len) = 0 /\
  forall i, 0 <= i < len -> byte (a + i) <> 0.

Lemma user_str_fun a l1 l2 : user_str a l1 -> user_str a l2 -> l1 = l2.
Proof.
  intros (_ & ? & _ & H1 & N1) (_ & ? & _ & H2 & N2).
  destruct (Z.lt_trichotomy l1 l2) as [Hl|[Hl|Hl]]; [|done|].
  - by destruct (N2 l1).
  - by destruct (N1 l2).
Qed.

Lemma fetchstr_run me a s :
  runs_in me s -> 0 <= a ->
  exists r, fetchstr me a s = Done (r, s) /\ forall len, r = Some len <-> user_str a len.
Proof.
  intros (cur & Hme & Hpg & Hz & _) Ha. unfold fetchstr.
  erewrite bind_done by (unfold getp; by rewrite Hme). rewrite Hz, Hpg.
  destruct (Z.leb_spec sz a) as [Hle|Hlt].
  { exists None. split; [done|]. intros len. split; [done|]. unfold user_str. lia. }
  destruct (fetchstr_from_run (kst s) a (Z.to_nat (sz - a)) 0) as (r & Hr & Hp); [lia..|].
  exists r. split; [by apply onk_load|]. destruct r as [l|].
  - destruct Hp as (j & -> & Hj & H0 & Hnz).
    assert (user_str a (0 + j)) as Hj'.
    { rewrite Z.add_0_l. split_and!; (done || lia). }
    intros len. split; [by intros [= <-]|]. intros Hs. f_equal. by apply (user_str_fun a).
  - intros len. split; [done|]. intros (_ & ? & ? & H0 & _). exfalso. apply (Hp len); [lia|done].
Qed.

Lemma argptr_run me n size s :
  runs_in me s -> is_i32 size ->
  exists r, argptr me n size s = Done (r, s) /\
    (forall a, r = Some a <-> 0 <= a < sz /\ 0 <= size /\ a + size <= sz /\
                              u32 <$> user_arg me n s = Some a).
Proof.
  intros Hr Hsize. pose proof Hr as (cur & Hme & Hpg & Hz & _).
  unfold argptr. erewrite bind_done by (by apply argint_run).
  destruct (user_arg me n s) as [i|] eqn:Ea; [|exists None; split; [done|naive_solver]].
  erewrite bind_done by (unfold getp; by rewrite Hme). rewrite Hz. cbn [fmap option_fmap option_map].
  pose proof (u32_range i) as Hi.
  destruct (Z.ltb_spec size 0), (Z.leb_spec sz (u32 i)); cbn [orb];
    try (exists None; split; [done|]; intros a; split; [done|naive_solver lia]).
  assert (u32 (u32 i + size) = u32 i + size) as -> by (apply u32_small; unfold is_u32, is_i32 in *; lia).
  destruct (Z.ltb_spec sz (u32 i + size)).
  - exists None. split; [done|]. intros a. split; [done|naive_solver lia].
  - exists (Some (u32 i)). split; [done|]. intros a. split; [|naive_solver].
    intros [= <-]. unfold is_u32 in Hi. split_and!; (done || lia).
Qed.

Lemma argstr_run me n s :
  runs_in me s ->
  exists r, argstr me n s = Done (r, s) /\
    (forall a len, r = Some (a, len) <-> u32 <$> user_arg me n s = Some a /\ user_str a len).
Proof.
  intros Hr. unfold argstr. erewrite bind_done by (by apply argint_run).
  destruct (user_arg me n s) as [i|] eqn:Ea; [|exists None; split; [done|naive_solver]].
  pose proof (u32_range i) as Hi. cbn [fmap option_fmap option_map].
  destruct (fetchstr_run me (u32 i) s Hr) as (r & Hf & Hs); [unfold is_u32 in Hi; lia|].
  erewrite bind_done by exact Hf. eexists. split; [done|]. intros a len.
  destruct r as [l|]; cbn; [|split; [done|]; intros [[= <-] Hu%Hs]; done].
  split; [intros [= <- <-]; by rewrite <- Hs|]. intros [[= <-] Hu%Hs]. congruence.
Qed.

(** Property C36: whatever the stack pointer and the arguments of a system call,
    fetching them never touches memory outside the process: [argint] reads a
    word below the size of the process, [argptr] returns a block that lies
    below it and [argstr] a string that ends below it, or else they fail. *)
Theorem arg_fetch_in_bounds me n size s :
  runs_in me s -> is_i32 size ->
  argint me n s = Done (user_arg me n s, s) /\
  (exists r, argptr me n size s = Done (r, s) /\
    (forall a, r = Some a <-> 0 <= a < sz /\ 0 <= size /\ a + size <= sz /\
                              u32 <$> user_arg me n s = Some a)) /\
  (exists r, argstr me n s = Done (r, s) /\
    (forall a len, r = Some (a, len) <-> u32 <$> user_arg me n s = Some a /\ user_str a len)).
Proof.
  intros Hr Hsize. split_and!; [by apply argint_run|by apply argptr_run|by apply argstr_run].
Qed.
End user_memory.

(** ** An instance: all of memory zero, allocation always succeeding *)

Definition flat_ops : KOps unit :=
  {| k_kalloc := ret 4096; k_kfree _ := ret tt; k_setupkvm := ret 8192; k_inituvm _ := ret tt;
     k_copyuvm _ _ := ret 8192; k_allocuvm _ _ n := ret n; k_deallocuvm _ _ n := ret n;
     k_freevm _ := ret tt; k_store_user _ _ _ := ret tt; k_load_user _ _ := ret 0;
     k_load_byte _ _ := ret 0; k_mprotect _ _ _ _ := ret 0; k_munprotect _ _ _ _ := ret 0;
     k_ticks := ret 0; k_tick := ret tt; k_filedup _ := ret tt; k_fileclose _ := ret tt;
     k_idup _ := ret tt; k_iput_op _ := ret tt; k_namei_root := ret (Some O) |}.

Definition flat_table : ptable unit :=
  {| procs := set_sz 8192 (set_pgdir 8192 (set_state RUNNING zero_proc)) ::
              replicate 63 zero_proc;
     nextpid := 2; initproc := Some O; seed := 1234; kst := tt |}.

Lemma arg_fetch_in_bounds_witness :
  @argint _ flat_ops 0 1 flat_table = Done (Some 0, flat_table).
Proof.
  assert (0 <= 8192 <= 0x80000000) as Hz by lia.
  refine (proj1 (@arg_fetch_in_bounds _ flat_ops (fun _ => 0) (fun _ => 0) 8192 8192
    (fun _ _ _ _ => eq_refl) (fun _ _ _ => eq_refl) Hz 0%nat 1 16 flat_table _ _)).
  - eexists. split_and!; [reflexivity..|]. unfold is_u32. cbn. lia.
  - unfold is_i32. lia.
Defined.
