(* ===== verification/Sysfile.v ===== *)
(** * Sysfile: the file system calls and exec (sysfile.c, exec.c)

    The calls run in the process table, whose interface to the rest of the
    kernel is [KOps]; the open files, the pipes and the file system are a
    component of that rest. The bytes of a path or a buffer are read from user
    memory before the call uses them, and the bytes of a read are stored when
    it has them all. *)

From stdpp Require Import base list numbers gmap strings.
From S2P Require Import Prelude Bytes Params Sleeplock Bio Log Blocks Fs Pipe File Mmu Proc Syscall.

Local Open Scope Z_scope.
Local Open Scope os_scope.

(** What the calls need besides [KOps]: stores to user memory, and the
    functions of vm.c that only [exec] uses. *)
Class UserOps (K : Type) := {
  k_store_byte : Z -> Z -> Z -> M K unit;          (* page directory, address, byte *)
  k_clearpteu : Z -> Z -> M K unit;
  k_copyout : Z -> Z -> list Z -> M K Z;            (* page directory, address, bytes *)
  k_loaduvm : Z -> Z -> nat -> Z -> Z -> M K Z      (* page directory, address, inode, offset, size *)
}.

(** The static data of sysfile.c, and the files. *)
Record sysf (B P : Type) := { readcount : Z; sfiles : files B P }.
Arguments readcount {B P}.
Arguments sfiles {B P}.

(** ** Operations on the file system *)

Section fsops.
Context {B : Type} `{BlockOps B} `{TxnOps B}.
Context (devread : Z -> option (nat -> Z -> M (fs B) (Z * list Z))).
Context (devwrite : Z -> option (nat -> list Z -> M (fs B) Z)).
(** [name], an array on the stack that is not initialised, and [myproc()->cwd]. *)
Context (junk : list Z) (cwd : nat).

Definition DOT : list Z := [46].
Definition DOTDOT : list Z := [46; 46].

(** [iunlockput(ip); end_op(); return -1]. *)
Definition give_up_inode (ip : nat) : M (fs B) Z := iunlockput ip;;; onb b_end;;; ret (-1).

(** The exit [bad] of [sys_link]. *)
Definition link_bad (ip : nat) : M (fs B) Z :=
  ilock ip;;;
  updi ip (fun i => set_i_nlink (i16 (i_nlink i - 1)) i);;;
  iupdate ip;;;
  give_up_inode ip.

(** [sys_link], once it has its arguments. *)
Definition link (old new : list Z) : M (fs B) Z :=
  onb b_begin;;;
  let! oip := namei devread cwd old in
  match oip with
  | None => onb b_end;;; ret (-1)
  | Some ip =>
      ilock ip;;;
      let! i := geti ip in
      if i_type i =? T_DIR then give_up_inode ip
      else
        updi ip (fun i => set_i_nlink (i16 (i_nlink i + 1)) i);;;
        iupdate ip;;;
        iunlock ip;;;
        let! r := nameiparent devread cwd new junk in
        match r.1 with
        | None => link_bad ip
        | Some dp =>
            ilock dp;;;
            let! d := geti dp in
            let! i := geti ip in
            let! l := (if negb (i_dev d =? i_dev i) then ret (-1)
                       else dirlink devread devwrite dp r.2 (i_inum i)) in
            if l <? 0 then iunlockput dp;;; link_bad ip
            else iunlockput dp;;; iput ip;;; onb b_end;;; ret 0
        end
  end.

Fixpoint isdirempty_from (fuel : nat) (dp : nat) (off : Z) : M (fs B) bool :=
  let! i := geti dp in
  if off <? i_size i then
    match fuel with
    | O => fault
    | S fuel =>
        let! r := readi devread dp off DIRENTSZ in
        if negb (r.1 =? DIRENTSZ) then panic "isdirempty: readi"
        else if de_inum r.2 =? 0 then isdirempty_from fuel dp (off + DIRENTSZ) else ret false
    end
  else ret true.
Definition isdirempty (dp : nat) : M (fs B) bool :=
  let! i := geti dp in
  isdirempty_from (Z.to_nat (i_size i / DIRENTSZ + 1)) dp (2 * DIRENTSZ).

(** The part of [sys_unlink] that removes the entry of [ip] at [off]. *)
Definition unlink_entry (dp ip : nat) (off : Z) : M (fs B) Z :=
  let! w := writei devwrite dp (replicate (Z.to_nat DIRENTSZ) 0) off DIRENTSZ in
  if negb (w =? DIRENTSZ) then panic "unlink: writei"
  else
    let! i := geti ip in
    (if i_type i =? T_DIR then
       updi dp (fun d => set_i_nlink (i16 (i_nlink d - 1)) d);;; iupdate dp
     else ret tt);;;
    iunlockput dp;;;
    updi ip (fun i => set_i_nlink (i16 (i_nlink i - 1)) i);;;
    iupdate ip;;;
    iunlockput ip;;;
    onb b_end;;;
    ret 0.

(** [sys_unlink], once it has its argument. *)
Definition unlink (path : list Z) : M (fs B) Z :=
  onb b_begin;;;
  let! r := nameiparent devread cwd path junk in
  match r.1 with
  | None => onb b_end;;; ret (-1)
  | Some dp =>
      let name := r.2 in
      ilock dp;;;
      if (namecmp name DOT =? 0) || (namecmp name DOTDOT =? 0) then give_up_inode dp
      else
        let! found := dirlookup devread dp name in
        match found with
        | None => give_up_inode dp
        | Some (ip, off) =>
            ilock ip;;;
            let! i := geti ip in
            if i_nlink i <? 1 then panic "unlink: nlink < 1"
            else
              let! empty := (if i_type i =? T_DIR then isdirempty ip else ret true) in
              if empty then unlink_entry dp ip off
              else iunlockput ip;;; give_up_inode dp
        end
  end.

(** The part of [create] that makes the inode and links it as [name] in [dp]. *)
Definition create_new (dp : nat) (name : list Z) (type major minor : Z) : M (fs B) (option nat) :=
  let! d := geti dp in
  let! ip := ialloc (i_dev d) type in
  ilock ip;;;
  updi ip (fun i => set_i_nlink 1 (set_i_dev_nums major minor i));;;
  iupdate ip;;;
  (if type =? T_DIR then
     updi dp (fun d => set_i_nlink (i16 (i_nlink d + 1)) d);;;
     iupdate dp;;;
     let! i := geti ip in
     let! a := dirlink devread devwrite ip DOT (i_inum i) in
     let! b := (if a <? 0 then ret (-1)
                else let! d := geti dp in dirlink devread devwrite ip DOTDOT (i_inum d)) in
     if b <? 0 then panic "create dots" else ret tt
   else ret tt);;;
  let! i := geti ip in
  let! l := dirlink devread devwrite dp name (i_inum i) in
  if l <? 0 then panic "create: dirlink"
  else iunlockput dp;;; ret (Some ip).

Definition create (path : list Z) (type major minor : Z) : M (fs B) (option nat) :=
  let! r := nameiparent devread cwd path junk in
  match r.1 with
  | None => ret None
  | Some dp =>
      ilock dp;;;
      let! found := dirlookup devread dp r.2 in
      match found with
      | Some (ip, _) =>
          iunlockput dp;;;
          ilock ip;;;
          let! i := geti ip in
          if (type =? T_FILE) && (i_type i =? T_FILE) then ret (Some ip)
          else iunlockput ip;;; ret None
      | None => create_new dp r.2 type major minor
      end
  end.

(** [create], then [iunlockput] and [end_op]: [sys_mkdir] and [sys_mknod]. *)
Definition make_node (path : list Z) (type major minor : Z) : M (fs B) Z :=
  let! oip := create path type major minor in
  match oip with
  | None => onb b_end;;; ret (-1)
  | Some ip => iunlockput ip;;; onb b_end;;; ret 0
  end.

(** The first part of [sys_open]: the inode, locked, in a transaction. *)
Definition open_inode (path : list Z) (omode : Z) : M (fs B) (option nat) :=
  onb b_begin;;;
  if negb (Z.land omode O_CREATE =? 0) then
    let! oip := create path T_FILE 0 0 in
    match oip with
    | None => onb b_end;;; ret None
    | Some ip => ret (Some ip)
    end
  else
    let! oip := namei devread cwd path in
    match oip with
    | None => onb b_end;;; ret None
    | Some ip =>
        ilock ip;;;
        let! i := geti ip in
        if (i_type i =? T_DIR) && negb (omode =? O_RDONLY) then give_up_inode ip;;; ret None
        else ret (Some ip)
    end.

(** [sys_chdir]: the new directory. *)
Definition chdir (path : list Z) : M (fs B) (option nat) :=
  let! oip := namei devread cwd path in
  match oip with
  | None => onb b_end;;; ret None
  | Some ip =>
      ilock ip;;;
      let! i := geti ip in
      if negb (i_type i =? T_DIR) then give_up_inode ip;;; ret None
      else iunlock ip;;; iput cwd;;; onb b_end;;; ret (Some ip)
  end.
End fsops.

(** ** The system calls *)

Section syscalls.
Context {K B P : Type} `{KOps K} `{UserOps K} `{BlockOps B} `{TxnOps B} `{PageOps P}.
Context (get_sysf : K -> sysf B P) (set_sysf : sysf B P -> K -> K).
Context (devread : Z -> option (nat -> Z -> M (fs B) (Z * list Z))).
Context (devwrite : Z -> option (nat -> list Z -> M (fs B) Z)).
Context (junk : list Z).

Definition set_sfiles (x : files B P) (s : sysf B P) : sysf B P :=
  {| readcount := readcount s; sfiles := x |}.
Definition onsys {A} (c : M (sysf B P) A) : M (ptable K) A := onk (zoom get_sysf set_sysf c).
(** An operation on files, or on the file system, of process [me]. *)
Definition onfiles {A} (me : nat) (c : M (files B P) A) : M (ptable K) A :=
  let! cur := getp me in
  onsys (zoom sfiles set_sfiles (run_as (p_pid cur);;; c)).
Definition oninodes {A} (me : nat) (c : M (fs B) A) : M (ptable K) A := onfiles me (onfs c).

(** [myproc()->cwd]; a null pointer cannot be used. *)
Definition cwd_of (me : nat) : M (ptable K) nat :=
  let! cur := getp me in
  match p_cwd cur with Some ip => ret ip | None => fault end.

(** [len] bytes of user memory. *)
Fixpoint user_bytes (pgdir a : Z) (len : nat) : M K (list Z) :=
  match len with
  | O => ret []
  | S len =>
      let! c := k_load_byte pgdir a in
      let! l := user_bytes pgdir (a + 1) len in
      ret (c :: l)
  end.
Fixpoint store_bytes (pgdir a : Z) (l : list Z) : M K unit :=
  match l with
  | [] => ret tt
  | c :: l => k_store_byte pgdir a c;;; store_bytes pgdir (a + 1) l
  end.
Definition read_user (me : nat) (a len : Z) : M (ptable K) (list Z) :=
  let! cur := getp me in onk (user_bytes (p_pgdir cur) a (Z.to_nat len)).
Definition write_user (me : nat) (a : Z) (l : list Z) : M (ptable K) unit :=
  let! cur := getp me in onk (store_bytes (p_pgdir cur) a l).
(** [argstr], with the characters of the string. *)
Definition argpath (me : nat) (n : Z) : M (ptable K) (option (list Z)) :=
  let! r := argstr me n in
  match r with
  | None => ret None
  | Some (a, len) => let! l := read_user me a len in ret (Some l)
  end.

(** The descriptor and the file. *)
Definition argfd (me : nat) (n : Z) : M (ptable K) (option (Z * nat)) :=
  let! ofd := argint me n in
  match ofd with
  | None => ret None
  | Some fd =>
      if (fd <? 0) || (NOFILE <=? fd) then ret None
      else
        let! cur := getp me in
        match p_ofile cur !! Z.to_nat fd with
        | Some (Some f) => ret (Some (fd, f))
        | _ => ret None
        end
  end.

Definition set_fd (fd : Z) (o : option nat) (p : proc) : proc :=
  set_ofile (<[Z.to_nat fd := o]> (p_ofile p)) p.
Definition fdalloc (me f : nat) : M (ptable K) (option Z) :=
  let! cur := getp me in
  match list_find (fun o => o = None) (take (Z.to_nat NOFILE) (p_ofile cur)) with
  | Some (fd, _) => updp me (set_fd (Z.of_nat fd) (Some f));;; ret (Some (Z.of_nat fd))
  | None => ret None
  end.

Definition sys_dup (me : nat) : M (ptable K) wait_res :=
  let! a := argfd me 0 in
  match a with
  | None => ret (WaitRet (-1))
  | Some (_, f) =>
      let! ofd := fdalloc me f in
      match ofd with
      | None => ret (WaitRet (-1))
      | Some fd => onfiles me (filedup f);;; ret (WaitRet fd)
      end
  end.

(** [argfd(0), argint(2), argptr(1, ..., n)]: the file, the address and [n]. *)
Definition arg_buffer (me : nat) : M (ptable K) (option (nat * Z * Z)) :=
  let! a := argfd me 0 in
  match a with
  | None => ret None
  | Some (_, f) =>
      let! on := argint me 2 in
      match on with
      | None => ret None
      | Some n =>
          let! op := argptr me 1 n in
          match op with
          | None => ret None
          | Some p => ret (Some (f, p, n))
          end
      end
  end.

Definition sys_read (me : nat) : M (ptable K) wait_res :=
  onsys (modify (fun s => {| readcount := i32 (readcount s + 1); sfiles := sfiles s |}));;;
  let! a := arg_buffer me in
  match a with
  | None => ret (WaitRet (-1))
  | Some (f, p, n) =>
      let! cur := getp me in
      let! r := onfiles me (fileread devread (p_killed cur) f n) in
      match r with
      | RRet v got => write_user me p got;;; ret (WaitRet v)
      | RAsleep => ret WaitAsleep
      end
  end.
Definition sys_getreadcount (me : nat) : M (ptable K) wait_res :=
  let! n := onsys (gets readcount) in ret (WaitRet n).

Definition sys_write (me : nat) : M (ptable K) wait_res :=
  let! a := arg_buffer me in
  match a with
  | None => ret (WaitRet (-1))
  | Some (f, p, n) =>
      let! cur := getp me in
      let! l := read_user me p n in
      let! r := onfiles me (filewrite devwrite (p_killed cur) f l) in
      match r with
      | WRet v => ret (WaitRet v)
      | WAsleep _ => ret WaitAsleep
      end
  end.

Definition sys_close (me : nat) : M (ptable K) wait_res :=
  let! a := argfd me 0 in
  match a with
  | None => ret (WaitRet (-1))
  | Some (fd, f) =>
      updp me (set_fd fd None);;;
      onfiles me (fileclose f);;;
      ret (WaitRet 0)
  end.

(** [struct stat] as gcc lays it out: type, dev, ino, nlink, size, with the
    padding after the two shorts, which is not stored. *)
Definition STATSZ : Z := 20.
Definition store_stat (me : nat) (a : Z) (st : stat) : M (ptable K) unit :=
  write_user me a (le_split 2 (st_type st));;;
  write_user me (a + 4) (le_split 4 (st_dev st) ++ le_split 4 (st_ino st) ++ le_split 2 (st_nlink st));;;
  write_user me (a + 16) (le_split 4 (st_size st)).
Definition sys_fstat (me : nat) : M (ptable K) wait_res :=
  let! a := argfd me 0 in
  match a with
  | None => ret (WaitRet (-1))
  | Some (_, f) =>
      let! op := argptr me 1 STATSZ in
      match op with
      | None => ret (WaitRet (-1))
      | Some p =>
          let! r := onfiles me (filestat f) in
          match r with
          | None => ret (WaitRet (-1))
          | Some st => store_stat me p st;;; ret (WaitRet 0)
          end
      end
  end.

Definition sys_link (me : nat) : M (ptable K) wait_res :=
  let! a := argpath me 0 in
  match a with
  | None => ret (WaitRet (-1))
  | Some old =>
      let! b := argpath me 1 in
      match b with
      | None => ret (WaitRet (-1))
      | Some new =>
          let! cwd := cwd_of me in
          returning (oninodes me (link devread devwrite junk cwd old new))
      end
  end.

Definition sys_unlink (me : nat) : M (ptable K) wait_res :=
  let! a := argpath me 0 in
  match a with
  | None => ret (WaitRet (-1))
  | Some path =>
      let! cwd := cwd_of me in
      returning (oninodes me (unlink devread devwrite junk cwd path))
  end.

(** The mode of a file opened with [omode]. *)
Definition open_readable (omode : Z) : bool := Z.land omode O_WRONLY =? 0.
Definition open_writable (omode : Z) : bool :=
  negb (Z.land omode O_WRONLY =? 0) || negb (Z.land omode O_RDWR =? 0).

(** The second part of [sys_open]: a file and a descriptor for the inode. *)
Definition open_file (me ip : nat) (omode : Z) : M (ptable K) wait_res :=
  let! o := onfiles me filealloc in
  match o with
  | None => returning (oninodes me (give_up_inode ip))
  | Some f =>
      let! ofd := fdalloc me f in
      match ofd with
      | None => onfiles me (fileclose f);;; returning (oninodes me (give_up_inode ip))
      | Some fd =>
          oninodes me (iunlock ip);;;
          oninodes me (onb b_end);;;
          onfiles me (updf f (set_fl_inode (open_readable omode) (open_writable omode) ip));;;
          ret (WaitRet fd)
      end
  end.
Definition sys_open (me : nat) : M (ptable K) wait_res :=
  let! a := argpath me 0 in
  match a with
  | None => ret (WaitRet (-1))
  | Some path =>
      with_arg me 1 (fun omode =>
        let! cwd := cwd_of me in
        let! oip := oninodes me (open_inode devread devwrite junk cwd path omode) in
        match oip with
        | None => ret (WaitRet (-1))
        | Some ip => open_file me ip omode
        end)
  end.

Definition sys_mkdir (me : nat) : M (ptable K) wait_res :=
  oninodes me (onb b_begin);;;
  let! a := argpath me 0 in
  match a with
  | None => oninodes me (onb b_end);;; ret (WaitRet (-1))
  | Some path =>
      let! cwd := cwd_of me in
      returning (oninodes me (make_node devread devwrite junk cwd path T_DIR 0 0))
  end.

Definition sys_mknod (me : nat) : M (ptable K) wait_res :=
  oninodes me (onb b_begin);;;
  let! a := argpath me 0 in
  let! ma := (match a with Some _ => argint me 1 | None => ret None end) in
  let! mi := (match ma with Some _ => argint me 2 | None => ret None end) in
  match a, ma, mi with
  | Some path, Some major, Some minor =>
      let! cwd := cwd_of me in
      returning (oninodes me (make_node devread devwrite junk cwd path T_DEV (i16 major) (i16 minor)))
  | _, _, _ => oninodes me (onb b_end);;; ret (WaitRet (-1))
  end.

Definition sys_chdir (me : nat) : M (ptable K) wait_res :=
  oninodes me (onb b_begin);;;
  let! a := argpath me 0 in
  match a with
  | None => oninodes me (onb b_end);;; ret (WaitRet (-1))
  | Some path =>
      let! cwd := cwd_of me in
      let! oip := oninodes me (chdir devread cwd path) in
      match oip with
      | None => ret (WaitRet (-1))
      | Some ip => updp me (set_cwd (Some ip));;; ret (WaitRet 0)
      end
  end.

Definition sys_pipe (me : nat) : M (ptable K) wait_res :=
  let! op := argptr me 0 8 in
  match op with
  | None => ret (WaitRet (-1))
  | Some p =>
      let! r := onfiles me pipealloc in
      match r with
      | None => ret (WaitRet (-1))
      | Some (rf, wf) =>
          let! o0 := fdalloc me rf in
          let! o1 := (match o0 with Some _ => fdalloc me wf | None => ret None end) in
          match o0, o1 with
          | Some fd0, Some fd1 =>
              write_user me p (le_split 4 fd0 ++ le_split 4 fd1);;;
              ret (WaitRet 0)
          | _, _ =>
              (match o0 with Some fd0 => updp me (set_fd fd0 None) | None => ret tt end);;;
              onfiles me (fileclose rf);;;
              onfiles me (fileclose wf);;;
              ret (WaitRet (-1))
          end
      end
  end.

(** ** exec (exec.c) *)

Definition ELF_MAGIC : Z := 0x464C457F.
Definition ELF_PROG_LOAD : Z := 1.
Definition ELFHDRSZ : Z := 52.
Definition PROGHDRSZ : Z := 32.
Record elfhdr := { elf_magic : Z; elf_entry : Z; elf_phoff : Z; elf_phnum : Z }.
Definition get_elfhdr (d : list Z) : elfhdr :=
  {| elf_magic := get32 d 0; elf_entry := get32 d 24; elf_phoff := get32 d 28; elf_phnum := get16 d 44 |}.
Record proghdr := { ph_type : Z; ph_off : Z; ph_vaddr : Z; ph_filesz : Z; ph_memsz : Z }.
Definition get_proghdr (d : list Z) : proghdr :=
  {| ph_type := get32 d 0; ph_off := get32 d 4; ph_vaddr := get32 d 8; ph_filesz := get32 d 16;
     ph_memsz := get32 d 20 |}.

(** The loop that loads the program: the new size, or [None] for [bad]. *)
Fixpoint exec_load (me ip : nat) (pgdir : Z) (n : nat) (off sz : Z) : M (ptable K) (option Z) :=
  match n with
  | O => ret (Some sz)
  | S n =>
      let! r := oninodes me (readi devread ip off PROGHDRSZ) in
      if negb (r.1 =? PROGHDRSZ) then ret None
      else
        let ph := get_proghdr r.2 in
        if negb (ph_type ph =? ELF_PROG_LOAD) then exec_load me ip pgdir n (u32 (off + PROGHDRSZ)) sz
        else if ph_memsz ph <? ph_filesz ph then ret None
        else if u32 (ph_vaddr ph + ph_memsz ph) <? ph_vaddr ph then ret None
        else
          let! sz := onk (k_allocuvm pgdir sz (u32 (ph_vaddr ph + ph_memsz ph))) in
          if sz =? 0 then ret None
          else if negb (ph_vaddr ph mod PGSIZE =? 0) then ret None
          else
            let! l := onk (k_loaduvm pgdir (ph_vaddr ph) ip (ph_off ph) (ph_filesz ph)) in
            if l <? 0 then ret None else exec_load me ip pgdir n (u32 (off + PROGHDRSZ)) sz
  end.

(** The loop that pushes the argument strings: the stack pointer and the
    addresses of the strings. *)
Fixpoint push_args (pgdir : Z) (argc : Z) (args : list (list Z)) (sp : Z)
  : M K (option (Z * list Z)) :=
  match args with
  | [] => ret (Some (sp, []))
  | a :: args =>
      if MAXARG <=? argc then ret None
      else
        let sp := Z.land (u32 (sp - (Z.of_nat (length a) + 1))) (Z.lnot 3) in
        let! c := k_copyout pgdir sp (a ++ [0]) in
        if c <? 0 then ret None
        else
          let! r := push_args pgdir (argc + 1) args sp in
          match r with
          | None => ret None
          | Some (sp', ps) => ret (Some (sp', sp :: ps))
          end
  end.
(** [ustack]. *)
Definition ustack (sp : Z) (ps : list Z) : list Z :=
  let argc := Z.of_nat (length ps) in
  [0xffffffff; argc; u32 (sp - (argc + 1) * 4)] ++ ps ++ [0].

(** The part of [path] after the last slash. *)
Fixpoint last_elem (last s : list Z) : list Z :=
  match s with
  | [] => last
  | c :: s => last_elem (if c =? SLASH then s else last) s
  end.
(** [safestrcpy] to [name[16]]. *)
Definition proc_name (l : list Z) : string :=
  fold_right (fun c s => String (Ascii.ascii_of_N (Z.to_N c)) s) EmptyString (cstr 15 l).

(** The user stack and the commit, once the program is loaded. *)
Definition exec_stack (me : nat) (path : list Z) (args : list (list Z)) (entry pgdir sz : Z)
  : M (ptable K) Z :=
  let bad := onk (k_freevm pgdir);;; ret (-1) in
  let sz := PGROUNDUP sz in
  let! sz := onk (k_allocuvm pgdir sz (u32 (sz + 2 * PGSIZE))) in
  if sz =? 0 then bad
  else
    onk (k_clearpteu pgdir (u32 (sz - 2 * PGSIZE)));;;
    let! r := onk (push_args pgdir 0 args sz) in
    match r with
    | None => bad
    | Some (sp, ps) =>
        let us := ustack sp ps in
        let sp := u32 (sp - 4 * Z.of_nat (length us)) in
        let! c := onk (k_copyout pgdir sp (mjoin (le_split 4 <$> us))) in
        if c <? 0 then bad
        else
          let! cur := getp me in
          let tf := p_tf cur in
          updp me (fun p => set_tf
            {| tf_other := tf_other tf; tf_ebp := tf_ebp tf; tf_eax := tf_eax tf; tf_es := tf_es tf;
               tf_ds := tf_ds tf; tf_eip := entry; tf_cs := tf_cs tf; tf_eflags := tf_eflags tf;
               tf_esp := sp; tf_ss := tf_ss tf |}
            (set_sz sz (set_pgdir pgdir (set_name (proc_name (last_elem path path)) p))));;;
          onk (k_freevm (p_pgdir cur));;;
          ret 0
    end.

(** The exit [bad] while the inode is locked. *)
Definition exec_bad (me ip : nat) (pgdir : Z) : M (ptable K) Z :=
  (if pgdir =? 0 then ret tt else onk (k_freevm pgdir));;;
  oninodes me (give_up_inode ip).

Definition exec (me : nat) (path : list Z) (args : list (list Z)) : M (ptable K) Z :=
  oninodes me (onb b_begin);;;
  let! cwd := cwd_of me in
  let! oip := oninodes me (namei devread cwd path) in
  match oip with
  | None => oninodes me (onb b_end);;; ret (-1)
  | Some ip =>
      oninodes me (ilock ip);;;
      let! r := oninodes me (readi devread ip 0 ELFHDRSZ) in
      let elf := get_elfhdr r.2 in
      if negb (r.1 =? ELFHDRSZ) then exec_bad me ip 0
      else if negb (elf_magic elf =? ELF_MAGIC) then exec_bad me ip 0
      else
        let! pgdir := onk k_setupkvm in
        if pgdir =? 0 then exec_bad me ip 0
        else
          let! osz := exec_load me ip pgdir (Z.to_nat (elf_phnum elf)) (elf_phoff elf) 0 in
          match osz with
          | None => exec_bad me ip pgdir
          | Some sz =>
              oninodes me (iunlockput ip);;;
              oninodes me (onb b_end);;;
              exec_stack me path args (elf_entry elf) pgdir sz
          end
  end.

(** The loop of [sys_exec]: the argument strings. *)
Fixpoint fetch_argv (me : nat) (n : nat) (uargv i : Z) : M (ptable K) (option (list (list Z))) :=
  match n with
  | O => ret None
  | S n =>
      let! ou := fetchint me (u32 (uargv + 4 * i)) in
      match ou with
      | None => ret None
      | Some uarg =>
          if uarg =? 0 then ret (Some [])
          else
            let! ol := fetchstr me (u32 uarg) in
            match ol with
            | None => ret None
            | Some len =>
                let! a := read_user me (u32 uarg) len in
                let! r := fetch_argv me n uargv (i + 1) in
                ret (match r with Some l => Some (a :: l) | None => None end)
            end
      end
  end.
Definition sys_exec (me : nat) : M (ptable K) wait_res :=
  let! a := argpath me 0 in
  match a with
  | None => ret (WaitRet (-1))
  | Some path =>
      with_arg me 1 (fun uargv =>
        let! r := fetch_argv me (Z.to_nat MAXARG) (u32 uargv) 0 in
        match r with
        | None => ret (WaitRet (-1))
        | Some args => returning (exec me path args)
        end)
  end.

(** The file system calls of the table [syscalls]. *)
Definition sys_file (n : Z) : option (nat -> M (ptable K) wait_res) :=
  if n =? 4 then Some sys_pipe else if n =? 5 then Some sys_read
  else if n =? 7 then Some sys_exec else if n =? 8 then Some sys_fstat
  else if n =? 9 then Some sys_chdir else if n =? 10 then Some sys_dup
  else if n =? 15 then Some sys_open else if n =? 16 then Some sys_write
  else if n =? 17 then Some sys_mknod else if n =? 18 then Some sys_unlink
  else if n =? 19 then Some sys_link else if n =? 20 then Some sys_mkdir
  else if n =? 21 then Some sys_close else if n =? 22 then Some sys_getreadcount
  else None.
End syscalls.
