(* ===== verification/FsDir.v ===== *)
(** * FsDir: directories (fs.c)

    A directory is a file of 16-byte entries. [dirlookup] finds the first entry
    in use with the name, [dirlink] adds one in the first free slot; names are
    compared and stored up to 14 characters. *)

From stdpp Require Import base list numbers gmap strings.
From S2P Require Import Prelude Bytes Params Sleeplock Bio Log Blocks Fs FsInv FsDemo FsInode FsMap FsFile Sysfile.

Local Open Scope Z_scope.
Local Open Scope os_scope.

(** ** Names *)

Abbreviation NAMELEN := (Z.to_nat DIRSIZ).
Definition same_name (s t : list Z) : Prop := cstr NAMELEN s = cstr NAMELEN t.
#[global] Instance same_name_dec s t : Decision (same_name s t).
Proof. unfold same_name. apply _. Defined.

Lemma strncmp_chars_eq n p q :
  bytes p -> bytes q -> strncmp_chars n p q = 0 <-> cstr n p = cstr n q.
Proof.
  revert p q. induction n as [|n IH]; intros p q Hp Hq; [done|]. cbn [strncmp_chars].
  assert (forall l, bytes l -> is_u8 (nth 0 l 0)) as Hu.
  { intros [|c l] Hl; [done|]. by inversion Hl. }
  assert (forall l, bytes l -> bytes (tail l)) as Ht.
  { intros [|c l] Hl; [done|]. by inversion Hl. }
  pose proof (u8_small _ (Hu p Hp)) as Ep. pose proof (u8_small _ (Hu q Hq)) as Eq. rewrite Ep, Eq.
  assert (forall l, cstr (S n) l = if nth 0 l 0 =? 0 then [] else nth 0 l 0 :: cstr n (tail l)) as Ec
    by (by intros [|c l]).
  rewrite !Ec. destruct (Z.eqb_spec (nth 0 p 0) 0) as [E0|N0]; cbn [negb andb].
  - destruct (Z.eqb_spec (nth 0 q 0) 0); [|split; [lia|done]]. split; [done|lia].
  - destruct (Z.eqb_spec (nth 0 p 0) (nth 0 q 0)) as [Epq|Npq].
    + rewrite <- Epq, (proj2 (Z.eqb_neq _ _)) by done. rewrite IH by auto. split; [congruence|by intros [=]].
    + split; [lia|]. destruct (Z.eqb_spec (nth 0 q 0) 0); [done|]. by intros [=].
Qed.

Lemma cstr_cstr n l z : cstr n (cstr n l ++ replicate z 0) = cstr n l.
Proof.
  revert l z. induction n as [|n IH]; intros l z; [done|].
  assert (cstr (S n) ([] ++ replicate z 0) = []) as E0 by (by destruct z).
  destruct l as [|c l]; [done|]. cbn [cstr]. destruct (c =? 0) eqn:E; [done|]. cbn. by rewrite E, IH.
Qed.
Lemma length_cstr n l : (length (cstr n l) <= n)%nat.
Proof.
  revert l. induction n as [|n IH]; intros [|c l]; cbn; try lia. destruct (_ =? _); cbn; [lia|].
  specialize (IH l). lia.
Qed.
Lemma cstr_bytes n l : bytes l -> bytes (cstr n l).
Proof.
  revert l. induction n as [|n IH]; intros l Hl; [constructor|]. destruct Hl as [|c l Hc Hl]; [constructor|].
  cbn. destruct (_ =? _); constructor; [done|]. by apply IH.
Qed.

(** ** Entries *)

Definition ENTLEN : nat := 16.
Lemma length_mk_dirent name inum : length (mk_dirent name inum) = ENTLEN.
Proof.
  unfold mk_dirent. rewrite !length_app, length_le_split, length_replicate.
  pose proof (length_cstr NAMELEN name). change NAMELEN with 14%nat in *. unfold ENTLEN. lia.
Qed.
Lemma mk_dirent_inum name inum : 0 <= inum < 2 ^ 16 -> de_inum (mk_dirent name inum) = inum.
Proof.
  intros Hi. unfold de_inum, get16, get_le, mk_dirent. rewrite drop_0, take_app_length' by (by rewrite length_le_split).
  rewrite le_combine_split. by rewrite Z.mod_small.
Qed.
Lemma mk_dirent_name name inum : same_name (de_name (mk_dirent name inum)) name.
Proof.
  unfold same_name, de_name, mk_dirent. rewrite drop_app_length' by (by rewrite length_le_split).
  rewrite take_ge; [apply cstr_cstr|]. rewrite length_app, length_replicate.
  pose proof (length_cstr NAMELEN name). lia.
Qed.
Lemma mk_dirent_bytes name inum : bytes name -> bytes (mk_dirent name inum).
Proof.
  intros Hn. unfold mk_dirent, bytes. rewrite !Forall_app. split_and!; [apply le_split_bytes|by apply cstr_bytes|].
  by apply Forall_replicate.
Qed.

Definition entry (c : list Z) (k : nat) : list Z := take ENTLEN (drop (ENTLEN * k) c).
Definition entries (c : list Z) : list (list Z) := entry c <$> seq 0 (length c / ENTLEN).

(** An entry in use with this name. *)
Definition names (name d : list Z) : Prop := de_inum d <> 0 /\ same_name name (de_name d).
#[global] Instance names_dec name d : Decision (names name d).
Proof. unfold names. apply _. Defined.
(** The offset and the inode number of the entry of [name]. *)
Definition lookup_name (c name : list Z) : option (Z * Z) :=
  (fun '(k, d) => (DIRENTSZ * Z.of_nat k, de_inum d)) <$> list_find (names name) (entries c).
(** The first free entry, past the end if there is none. *)
Definition free_slot (c : list Z) : nat :=
  match list_find (fun d => de_inum d = 0) (entries c) with
  | Some (k, _) => k
  | None => length (entries c)
  end.

(** ** The contents of a directory *)

Lemma length_entries c : length (entries c) = (length c / ENTLEN)%nat.
Proof. unfold entries. by rewrite length_fmap, length_seq. Qed.
Lemma entries_lookup c k : (k < length c / ENTLEN)%nat -> entries c !! k = Some (entry c k).
Proof. intros Hk. unfold entries. by rewrite list_lookup_fmap, lookup_seq_lt. Qed.

Lemma entries_cons e c : length e = ENTLEN -> entries (e ++ c) = e :: entries c.
Proof.
  intros He. unfold entries. rewrite length_app, He.
  replace (ENTLEN + length c)%nat with (length c + 1 * ENTLEN)%nat by lia.
  rewrite Nat.div_add by done. rewrite Nat.add_comm. cbn [seq fmap list_fmap Nat.add]. f_equal.
  - unfold entry. by rewrite Nat.mul_0_r, drop_0, <- He, take_app_length.
  - rewrite <- fmap_S_seq, <- list_fmap_compose. apply list_fmap_ext. intros _ k _. change (entry (e ++ c) (S k) = entry c k).
    unfold entry. f_equal. replace (ENTLEN * S k)%nat with (length e + ENTLEN * k)%nat by lia.
    by rewrite drop_app_add.
Qed.
Lemma entries_nil : entries [] = [].
Proof. done. Qed.

(** A directory of [n] entries, entry [k] of which is written. *)
Lemma entries_splice c e k n :
  length c = (ENTLEN * n)%nat -> length e = ENTLEN -> (k <= n)%nat ->
  entries (take (ENTLEN * k) c ++ e ++ drop (ENTLEN * k + ENTLEN) c) =
  take k (entries c) ++ e :: drop (S k) (entries c).
Proof.
  revert c n. induction k as [|k IH]; intros c n Hc He Hk.
  - rewrite Nat.mul_0_r, !take_0, !app_nil_l, Nat.add_0_l, entries_cons by done. f_equal.
    destruct n as [|n].
    { destruct c; [by rewrite !drop_nil|]. cbn in Hc. lia. }
    rewrite <- (take_drop ENTLEN c) at 2. rewrite entries_cons by (rewrite length_take; lia). done.
  - destruct n as [|n]; [lia|]. rewrite <- (take_drop ENTLEN c). set (a := take ENTLEN c). set (b := drop ENTLEN c).
    assert (length a = ENTLEN) as Ha by (unfold a; rewrite length_take; lia).
    assert (length b = (ENTLEN * n)%nat) as Hb by (unfold b; rewrite length_drop; lia).
    replace (ENTLEN * S k)%nat with (length a + ENTLEN * k)%nat by lia.
    rewrite <- Nat.add_assoc, take_app_add, drop_app_add. rewrite <- app_assoc.
    rewrite !(entries_cons a) by done. rewrite firstn_cons, skipn_cons. cbn [app]. by rewrite (IH b n) by (done || lia).
Qed.

Lemma entry_bytes c k : bytes c -> bytes (entry c k).
Proof. intros Hc. by apply Forall_take, Forall_drop. Qed.

(** Replacing an entry not in use. *)
Lemma find_replace P `{!forall d, Decision (P d)} (l : list (list Z)) k e :
  (k <= length l)%nat -> (forall d, l !! k = Some d -> ~ P d) ->
  list_find P (take k l ++ e :: drop (S k) l) =
  if decide (P e) then
    match list_find P (take k l) with Some x => Some x | None => Some (k, e) end
  else list_find P l.
Proof.
  revert k. induction l as [|d l IH]; intros k Hk Hd.
  - assert (k = 0)%nat as -> by (cbn in Hk; lia). cbn. by destruct (decide (P e)).
  - destruct k as [|k].
    + cbn. specialize (Hd d eq_refl). rewrite (decide_False (P := P d)) by done. by destruct (decide (P e)).
    + cbn. cbn in Hk. destruct (decide (P d)) as [Hp|Hn].
      * by destruct (decide (P e)).
      * rewrite IH by (lia || done). destruct (decide (P e)); [|done]. by destruct (list_find P (take k l)) as [[??]|].
Qed.

(** The directory after a new entry is written to a free slot. *)
Lemma lookup_name_link c name inum n name' :
  length c = (ENTLEN * n)%nat -> 0 < inum < 2 ^ 16 -> lookup_name c name = None ->
  let k := free_slot c in
  let c' := take (ENTLEN * k) c ++ mk_dirent name inum ++ drop (ENTLEN * k + ENTLEN) c in
  lookup_name c' name' =
  if decide (same_name name' name) then Some (DIRENTSZ * Z.of_nat k, inum) else lookup_name c name'.
Proof.
  intros Hc Hi Hno k c'.
  assert (length (entries c) = n) as Hn by (rewrite length_entries, Hc, Nat.mul_comm; by apply Nat.div_mul).
  assert ((k <= n)%nat /\ forall d, entries c !! k = Some d -> de_inum d = 0) as [Hk Hd].
  { unfold k, free_slot. destruct (list_find _ _) as [[j d]|] eqn:E.
    - apply list_find_Some in E as (Hj & Hz & _). split; [apply lookup_lt_Some in Hj; lia|]. intros d'. rewrite Hj.
      by intros [= <-].
    - split; [lia|]. intros d Hl. apply lookup_lt_Some in Hl. lia. }
  unfold c', lookup_name.
  rewrite (entries_splice c _ k n) by (done || apply length_mk_dirent).
  rewrite find_replace; [|lia|].
  2: { intros d Hl [Hz _]. by apply Hz, Hd. }
  pose proof (mk_dirent_name name inum) as Hs. unfold same_name in *.
  assert (names name' (mk_dirent name inum) <-> same_name name' name) as Hiff.
  { unfold names, same_name. rewrite mk_dirent_inum, Hs by lia. split; [by intros [_ ?]|]. split; [lia|done]. }
  destruct (decide (names name' _)) as [Hy%Hiff|Hx].
  - rewrite decide_True by done. unfold lookup_name in Hno. apply fmap_None in Hno.
    rewrite (list_find_ext (names name') (names name)) by (intros; unfold names, same_name in *; by rewrite Hy).
    rewrite list_find_None, Forall_lookup in Hno.
    destruct (list_find (names name) (take k _)) as [[j d]|] eqn:E.
    { apply list_find_Some in E as (Hj & Hp & _). apply lookup_take_Some in Hj as [Hj _]. by destruct (Hno j d Hj). }
    change (Some (DIRENTSZ * Z.of_nat k, de_inum (mk_dirent name inum)) = Some (DIRENTSZ * Z.of_nat k, inum)).
    by rewrite mk_dirent_inum by lia.
  - rewrite decide_False; [done|]. by rewrite <- Hiff.
Qed.

(** ** The operations *)

Section dirs.
Context {B : Type} `{BlockLaws B} (sb : superblock) (me dstart : Z) (Hlay : layout sb dstart).
Context (devread : Z -> option (nat -> Z -> M (fs B) (Z * list Z))).
Context (devwrite : Z -> option (nat -> list Z -> M (fs B) Z)).
Implicit Types (s : fs B) (L : gset Z) (v : Z -> list Z) (ic : list inode) (i : inode).
#[local] Abbreviation fs_at := (fs_at sb me).
#[local] Abbreviation file_env := (file_env sb dstart).
#[local] Abbreviation logged := (logged sb).

(** A cached directory whose entries can be read. *)
Record dir_ok v ic (dp : nat) i : Prop := {
  do_env : file_env ∅ v ic dp i;
  do_type : i_type i = T_DIR;
  do_size : exists n, i_size i = DIRENTSZ * n;
  do_full : no_holes v i (i_size i);
  do_bytes : bytes (content v i)
}.

(** The cache has inode [inum], or a slot for it. *)
Definition cached (dev inum : Z) i : Prop := 0 < i_ref i /\ i_dev i = dev /\ i_inum i = inum.
Definition iget_room ic (dev inum : Z) : Prop :=
  Exists (fun i => cached dev inum i \/ i_ref i = 0) ic /\ Forall (fun i => 0 <= i_ref i < 2 ^ 31 - 1) ic.
(** [ip] is a reference to inode [inum] that was not in [ic]. *)
Record got ic (dev inum : Z) (ip : nat) ic' : Prop := {
  got_at : exists j, ic' !! ip = Some j /\ cached dev inum j;
  got_ref : exists i j, ic !! ip = Some i /\ ic' = <[ip := j]> ic /\ i_ref j = i_ref i + 1 /\
    (0 < i_ref i -> j = set_i_ref (i_ref i + 1) i) /\ (i_ref i = 0 -> i_valid j = false /\ Forall (fun x => ~ cached dev inum x) ic) /\
    i_lock j = i_lock i
}.

Lemma iget_wp Hd L v ic s dev inum :
  fs_at Hd L v ic s -> iget_room ic dev inum ->
  wp (iget dev inum) (fun ip s' => exists ic', got ic dev inum ip ic' /\ fs_at Hd L v ic' s') s.
Proof.
  intros Hs [Hex Hall]. unfold wp, iget. rewrite (fa_ic _ _ _ _ _ _ _ Hs). rewrite Forall_lookup in Hall.
  assert (forall ip i (f : inode -> inode), ic !! ip = Some i ->
    wp (updi ip f;;; ret ip) (fun a s' => a = ip /\ fs_at Hd L v (<[ip := f i]> ic) s') s) as Hup.
  { intros ip i f Hi. rewrite wp_bind. eapply wp_mono; [by eapply updi_wp|]. intros [] s' Hs'.
    rewrite (list_alter_insert _ _ _ _ Hi) in Hs'. by apply wp_ret. }
  destruct (list_find (fun i => 0 < _ /\ _) ic) as [[ip i]|] eqn:E.
  - apply list_find_Some in E as (Hi & (Hr & Hdev & Hin) & _). specialize (Hall ip i Hi) as Href.
    eapply wp_mono; [by apply Hup|]. cbn beta. rewrite i32_small by wrap_lia. intros a s' [-> Hs'].
    eexists. split; [|done]. split.
    + eexists. split; [by apply list_lookup_insert_eq, (lookup_lt_Some _ _ i)|]. split_and!; [cbn; lia|done|done].
    + eexists _, _. split_and!; [done|done|done|done|lia|done].
  - rewrite list_find_None, Forall_lookup in E.
    destruct (list_find (fun i => i_ref i = 0) ic) as [[ip i]|] eqn:E2.
    + apply list_find_Some in E2 as (Hi & Hz & _). eapply wp_mono; [by apply Hup|]. intros a s' [-> Hs'].
      eexists. split; [|done]. split.
      * eexists. split; [by apply list_lookup_insert_eq, (lookup_lt_Some _ _ i)|]. by split_and!.
      * eexists _, _. split_and!; [done|done|cbn; lia|lia| |done]. intros _. split; [done|]. by rewrite Forall_lookup.
    + rewrite list_find_None, Forall_lookup in E2. apply Exists_exists in Hex as (i & [ip Hi]%list_elem_of_lookup & [Hc|Hz]).
      * by destruct (E ip i Hi).
      * by destruct (E2 ip i Hi).
Qed.

Section lookup.
Context {v : Z -> list Z} {ic : list inode} {dp : nat} {i : inode} (Hdir : dir_ok v ic dp i).
#[local] Abbreviation c := (content v i).

Lemma length_content : Z.of_nat (length c) = i_size i.
Proof.
  unfold content. rewrite length_fmap, length_seqZ. destruct Hdir as [[_ Hf _ _] _ _ _ _].
  pose proof (fo_size _ _ _ _ Hf). lia.
Qed.
Lemma length_dir : length c = (ENTLEN * length (entries c))%nat.
Proof.
  rewrite length_entries. destruct (do_size _ _ _ _ Hdir) as [n Hn]. pose proof length_content as Hl.
  change DIRENTSZ with 16 in Hn. change ENTLEN with 16%nat.
  assert (length c = (Z.to_nat n * 16)%nat) as -> by lia. rewrite Nat.div_mul; lia.
Qed.

Lemma namecmp_eq name d : bytes name -> bytes d -> (namecmp name (de_name d) =? 0) = bool_decide (same_name name (de_name d)).
Proof.
  intros Hn Hd. unfold namecmp. rewrite bool_decide_decide. destruct (decide _) as [He|Hne].
  - apply Z.eqb_eq, strncmp_chars_eq; [done|by apply Forall_take, Forall_drop|done].
  - apply Z.eqb_neq. rewrite strncmp_chars_eq; [done..|by apply Forall_take, Forall_drop].
Qed.

Lemma entry_lt k : (DIRENTSZ * Z.of_nat k <? i_size i) = (k <? length (entries c))%nat.
Proof.
  pose proof length_dir as Hl. pose proof length_content as Hc. change DIRENTSZ with 16. change ENTLEN with 16%nat in Hl.
  destruct (Nat.ltb_spec k (length (entries c))); [apply Z.ltb_lt|apply Z.ltb_ge]; lia.
Qed.
Lemma entry_next k : DIRENTSZ * Z.of_nat k + DIRENTSZ = DIRENTSZ * Z.of_nat (S k).
Proof. lia. Qed.
Lemma drop_entries k : (k < length (entries c))%nat -> drop k (entries c) = entry c k :: drop (S k) (entries c).
Proof. intros Hk. apply drop_S. rewrite length_entries in Hk. by apply entries_lookup. Qed.

Lemma dir_fuel : (length (entries c) <= Z.to_nat (i_size i / DIRENTSZ + 1))%nat.
Proof.
  pose proof length_dir as Hl. pose proof length_content as Hc. change DIRENTSZ with 16. change ENTLEN with 16%nat in Hl.
  replace (i_size i) with (Z.of_nat (length (entries c)) * 16) by lia. rewrite Z.div_mul; lia.
Qed.

Context {L : gset Z} (Hcap : (size L + 3 <= txn_cap)%nat).

(** Reading entry [k]. *)
Lemma read_entry s k :
  fs_at ∅ L v ic s -> (k < length (entries c))%nat ->
  wp (readi devread dp (DIRENTSZ * Z.of_nat k) DIRENTSZ) (fun r s' =>
    fs_at ∅ L v ic s' /\ r = (DIRENTSZ, entry c k)) s.
Proof.
  intros Hs Hk. pose proof length_dir as Hl. pose proof length_content as Hc.
  destruct Hdir as [He Ht _ Hf _]. pose proof (fo_size _ _ _ _ (fe_file _ _ _ _ _ _ _ He)) as Hsz.
  change (MAXFILE * BSIZE) with 71680 in Hsz. change DIRENTSZ with 16 in *. change ENTLEN with 16%nat in *.
  eapply wp_mono; [eapply readi_run; try done|].
  - by rewrite Ht.
  - unfold is_u32. lia.
  - intros r s' [Hs' ->]. split; [done|]. rewrite bool_decide_eq_true_2 by lia.
    rewrite Z.min_l by lia. cbv zeta. f_equal. unfold entry. change ENTLEN with 16%nat. change (Z.to_nat 16) with 16%nat.
    do 2 f_equal. lia.
Qed.

(** The loops: [k] entries have been passed over. *)
Definition found ic (k : nat) (o : option (nat * list Z)) (r : option (nat * Z)) s' : Prop :=
  match o with
  | None => r = None /\ fs_at ∅ L v ic s'
  | Some (j, d) => exists ip ic', r = Some (ip, DIRENTSZ * Z.of_nat (k + j)) /\
      got ic (i_dev i) (de_inum d) ip ic' /\ fs_at ∅ L v ic' s'
  end.

Lemma found_S k o r s' : found ic (S k) o r s' -> found ic k (prod_map S id <$> o) r s'.
Proof.
  destruct o as [[j d]|]; [|done]. intros (ip & ic' & -> & Hg & Hs'). exists ip, ic'.
  split_and!; [|done|done]. do 3 f_equal. cbn. lia.
Qed.

Lemma dirlookup_from_wp fuel s k name :
  fs_at ∅ L v ic s -> bytes name -> (k <= length (entries c) <= k + fuel)%nat ->
  (forall j d, list_find (names name) (drop k (entries c)) = Some (j, d) -> iget_room ic (i_dev i) (de_inum d)) ->
  wp (dirlookup_from devread fuel dp name (DIRENTSZ * Z.of_nat k))
    (found ic k (list_find (names name) (drop k (entries c)))) s.
Proof.
  intros Hs Hn. revert k s Hs. induction fuel as [|fuel IH]; intros k s Hs Hk Hroom; cbn [dirlookup_from];
    rewrite wp_bind; (eapply geti_wp; [done|apply Hdir|]); rewrite entry_lt; destruct (Nat.ltb_spec k (length (entries c)));
    try lia.
  1, 3: rewrite drop_ge by lia; by apply wp_ret.
  rewrite wp_bind. eapply wp_mono; [by apply read_entry|]. cbv beta. intros r s1 [Hs1 ->]. cbn [fst snd].
  rewrite Z.eqb_refl. cbn [negb]. rewrite drop_entries in * by done. rewrite entry_next. cbn [list_find] in *.
  assert (~ names name (entry c k) -> wp (dirlookup_from devread fuel dp name (DIRENTSZ * Z.of_nat (S k)))
    (found ic k (prod_map S id <$> list_find (names name) (drop (S k) (entries c)))) s1) as Hnext.
  { intros Hno. rewrite decide_False in Hroom by done. eapply wp_mono; [apply IH; [done|lia|]|intros r s'; apply found_S].
    intros j d Hj. apply (Hroom (S j) d). by rewrite Hj. }
  rewrite namecmp_eq by (done || apply entry_bytes, Hdir).
  destruct (Z.eqb_spec (de_inum (entry c k)) 0) as [Hz|Hz].
  { assert (~ names name (entry c k)) as Hno by (by intros [? _]). rewrite decide_False by done. by apply Hnext. }
  rewrite bool_decide_decide. destruct (decide (same_name _ _)) as [Hy|Hy].
  - rewrite decide_True in * by done. rewrite wp_bind. eapply wp_mono; [apply iget_wp; [done|by eapply Hroom]|].
    intros ip s2 (ic' & Hg & Hs2). apply wp_ret. exists ip, ic'. by rewrite Nat.add_0_r.
  - assert (~ names name (entry c k)) as Hno by (by intros [_ ?]). rewrite decide_False by done. by apply Hnext.
Qed.

(** [dirlookup] returns a reference to the inode of the entry, and its offset. *)
Lemma dirlookup_run s name :
  fs_at ∅ L v ic s -> bytes name ->
  (forall off inum, lookup_name c name = Some (off, inum) -> iget_room ic (i_dev i) inum) ->
  wp (dirlookup devread dp name) (fun r s' => match lookup_name c name with
    | None => r = None /\ fs_at ∅ L v ic s'
    | Some (off, inum) => exists ip ic', r = Some (ip, off) /\ got ic (i_dev i) inum ip ic' /\ fs_at ∅ L v ic' s'
    end) s.
Proof.
  intros Hs Hn Hroom. unfold dirlookup. rewrite wp_bind. eapply geti_wp; [done|apply Hdir|].
  rewrite (do_type _ _ _ _ Hdir), Z.eqb_refl. unfold lookup_name in *.
  eapply wp_mono; [apply (dirlookup_from_wp _ _ 0); [done|done|pose proof dir_fuel; lia|]|].
  - intros j d Hj. rewrite drop_0 in Hj. by eapply (Hroom _ (de_inum d)); rewrite Hj.
  - intros r s'. rewrite drop_0. by destruct (list_find _ _) as [[j d]|].
Qed.

Lemma free_dirent_wp fuel s k :
  fs_at ∅ L v ic s -> (k <= length (entries c) <= k + fuel)%nat ->
  wp (free_dirent devread fuel dp (DIRENTSZ * Z.of_nat k)) (fun off s' => fs_at ∅ L v ic s' /\
    off = DIRENTSZ * Z.of_nat match list_find (fun d => de_inum d = 0) (drop k (entries c)) with
      | Some (j, _) => (k + j)%nat
      | None => length (entries c)
      end) s.
Proof.
  revert k s. induction fuel as [|fuel IH]; intros k s Hs Hk; cbn [free_dirent];
    rewrite wp_bind; (eapply geti_wp; [done|apply Hdir|]); rewrite entry_lt; destruct (Nat.ltb_spec k (length (entries c)));
    try lia.
  1, 3: rewrite drop_ge by lia; apply wp_ret; split; [done|]; do 2 f_equal; cbn [list_find]; lia.
  rewrite wp_bind. eapply wp_mono; [by apply read_entry|]. cbv beta. intros r s1 [Hs1 ->]. cbn [fst snd].
  rewrite Z.eqb_refl. cbn [negb]. rewrite drop_entries by done. rewrite entry_next. cbn [list_find].
  destruct (Z.eqb_spec (de_inum (entry c k)) 0) as [Hz|Hz].
  - rewrite decide_True by done. apply wp_ret. split; [done|]. by rewrite Nat.add_0_r.
  - rewrite decide_False by done. eapply wp_mono; [apply IH; [done|lia]|]. intros off s' [Hs' ->]. split; [done|].
    destruct (list_find _ _) as [[j d]|]; cbn [fmap option_fmap option_map prod_map]; [|done]. do 2 f_equal. cbn. lia.
Qed.
End lookup.

(** An entry lies within one block. *)
Lemma nblk_entry k : nblk (DIRENTSZ * Z.of_nat k) DIRENTSZ = 1.
Proof.
  unfold nblk. change DIRENTSZ with 16. change BSIZE with 512. cbn [Z.ltb Z.compare].
  pose proof (Z.div_mod (16 * Z.of_nat k) 512 ltac:(done)). pose proof (Z.mod_pos_bound (16 * Z.of_nat k) 512 ltac:(done)).
  Z.to_euclidean_division_equations; lia.
Qed.

Lemma free_slot_le c : (free_slot c <= length (entries c))%nat.
Proof.
  unfold free_slot. destruct (list_find _ _) as [[k d]|] eqn:E; [|done].
  apply list_find_Some in E as (Hk & _). apply lookup_lt_Some in Hk. lia.
Qed.

(** A new entry keeps the directory in order. *)
Lemma written_dir v ic dp i v' i' k name inum :
  dir_ok v ic dp i -> bytes name -> (k <= length (entries (content v i)))%nat ->
  written sb dstart v i v' i' (DIRENTSZ * Z.of_nat k) (mk_dirent name inum) ->
  dir_ok v' (<[dp := i']> ic) dp i' /\
  content v' i' = take (ENTLEN * k) (content v i) ++ mk_dirent name inum ++ drop (ENTLEN * k + ENTLEN) (content v i).
Proof.
  intros Hdir Hn Hk [Wc Wi Wf Wfu Wu _ _ _]. pose proof (length_dir Hdir) as Hl.
  assert (Z.to_nat (DIRENTSZ * Z.of_nat k) = (ENTLEN * k)%nat) as Ek by (unfold ENTLEN; change DIRENTSZ with 16; lia).
  rewrite Ek, length_mk_dirent in Wc. split; [|done]. destruct Hdir as [[Hip Hf Hme _] Ht _ _ Hb]. split; try done.
  - split; [|done| |apply held_ok_empty].
    + by apply list_lookup_insert_eq, (lookup_lt_Some _ _ i).
    + by eapply meta_used_mono.
  - rewrite Wi. done.
  - assert (Z.of_nat (length (content v' i')) = i_size i') as Hs.
    { unfold content. rewrite length_fmap, length_seqZ. pose proof (fo_size _ _ _ _ Wf). lia. }
    rewrite <- Hs, Wc, !length_app, length_take, length_drop, length_mk_dirent, Hl. change ENTLEN with 16%nat.
    change DIRENTSZ with 16. exists (Z.max (Z.of_nat (length (entries (content v i)))) (Z.of_nat k + 1)). lia.
  - rewrite Wc. apply Forall_app. split; [by apply Forall_take|]. apply Forall_app. split; [by apply mk_dirent_bytes|].
    by apply Forall_drop.
Qed.

Lemma dirlink_run L v ic s dp i X name inum :
  fs_at ∅ L v ic s -> dir_ok v ic dp i -> dinode_wf (i_disk i) -> bytes name -> 0 < inum < 2 ^ 16 ->
  lookup_name (content v i) name = None ->
  let k := free_slot (content v i) in
  DIRENTSZ * (Z.of_nat k + 1) <= MAXFILE * BSIZE ->
  logged L i X -> (size X + 4 <= txn_cap)%nat -> (size L + 3 <= txn_cap)%nat -> (1 + need_ind i <= nfree sb v)%nat ->
  wp (dirlink devread devwrite dp name inum) (fun r s' => r = 0 /\
    exists L' v' i', fs_at ∅ L' v' (<[dp := i']> ic) s' /\ (size L' <= size X + 4)%nat /\ room sb v i v' i' 1 /\
      written sb dstart v i v' i' (DIRENTSZ * Z.of_nat k) (mk_dirent name inum)) s.
Proof.
  intros Hs Hdir Hwf Hn Hi Hno k Hk Hl HX HL Hfree. unfold dirlink. rewrite wp_bind.
  eapply wp_mono; [apply (dirlookup_run Hdir HL s name Hs Hn); by rewrite Hno|]. rewrite Hno.
  intros r s1 [-> Hs1]. rewrite wp_bind. eapply geti_wp; [done|apply Hdir|]. rewrite wp_bind.
  eapply wp_mono; [apply (free_dirent_wp Hdir HL _ _ 0 Hs1); pose proof (dir_fuel Hdir); lia|].
  cbv beta. intros off s2 [Hs2 ->]. rewrite drop_0.
  assert (match list_find (fun d => de_inum d = 0) (entries (content v i)) with
    | Some (j, _) => (0 + j)%nat | None => length (entries (content v i)) end = k) as -> by done.
  rewrite wp_bind. pose proof (free_slot_le (content v i)) as Hle. fold k in Hle.
  pose proof (length_dir Hdir) as Hld. pose proof (length_content Hdir) as Hlc.
  pose proof Hdir as [He Ht _ Hfu _]. change (MAXFILE * BSIZE) with 71680 in *.
  eapply wp_mono; [eapply (writei_run sb me dstart Hlay devwrite L v ic s2 dp i (mk_dirent name inum) _ DIRENTSZ X); try done|].
  - by rewrite Ht.
  - unfold is_u32. change DIRENTSZ with 16 in *. lia.
  - by rewrite length_mk_dirent.
  - rewrite nblk_entry. lia.
  - unfold write_room. rewrite nblk_entry. lia.
  - cbv beta. intros r s3. change (MAXFILE * BSIZE) with 71680. change DIRENTSZ with 16 in *. change ENTLEN with 16%nat in Hld.
    rewrite decide_True by lia. intros (-> & L' & v' & i' & Hs3 & HL' & Hrm & Hw). rewrite Z.eqb_refl. apply wp_ret.
    pose proof (nblk_entry k) as E1. change DIRENTSZ with 16 in E1. rewrite E1 in HL', Hrm.
    split; [done|]. exists L', v', i'. split; [done|]. split; [lia|]. split; [done|].
    rewrite firstn_all2 in Hw; [done|]. by rewrite length_mk_dirent.
Qed.

(** The entry of [name] is the directory itself, which the caller has locked:
    [iput] of the reference that [dirlookup] returned waits for that lock. *)
Lemma dirlink_self_sleeps L v ic s dp i name off inum :
  fs_at ∅ L v ic s -> dir_ok v ic dp i -> bytes name -> (size L + 3 <= txn_cap)%nat ->
  lookup_name (content v i) name = Some (off, i_inum i) ->
  iget_room ic (i_dev i) (i_inum i) -> cached (i_dev i) (i_inum i) i ->
  (forall k j, ic !! k = Some j -> cached (i_dev i) (i_inum i) j -> k = dp) ->
  sl_locked (i_lock i) = true ->
  dirlink devread devwrite dp name inum s = Asleep.
Proof.
  intros Hs Hdir Hn HL Hlook Hroom Hc Huniq Hlk.
  assert (wp (dirlookup devread dp name) (fun r s' => exists j, r = Some (dp, off) /\
    f_icache s' !! dp = Some j /\ sl_locked (i_lock j) = true) s) as Hw.
  { eapply wp_mono; [apply (dirlookup_run Hdir HL s name Hs Hn); rewrite Hlook; by intros ? ? [= <- <-]|].
    rewrite Hlook. intros r s' (ip & ic' & -> & [(j' & Hj' & Hc') (i0 & j & Hi0 & -> & Hr & Hold & Hnew)] & Hs').
    assert (ic !! dp = Some i) as Hdp by apply Hdir.
    assert (i_ref i0 <> 0) as Hne.
    { intros [_ Hall]%Hnew. rewrite Forall_lookup in Hall. by apply (Hall dp i). }
    destruct Hroom as [_ Hall]. rewrite Forall_lookup in Hall. specialize (Hall ip i0 Hi0).
    assert (j = set_i_ref (i_ref i0 + 1) i0) as -> by (apply Hold; lia).
    assert (ip = dp) as ->.
    { rewrite list_lookup_insert_eq in Hj' by (by eapply lookup_lt_Some). simplify_eq.
      apply (Huniq ip i0 Hi0). destruct Hc' as (_ & ? & ?). split_and!; [lia|done|done]. }
    rewrite Hi0 in Hdp. injection Hdp as ->. exists (set_i_ref (i_ref i + 1) i). split_and!; [done| |done].
    rewrite (fa_ic _ _ _ _ _ _ _ Hs'). by apply list_lookup_insert_eq, (lookup_lt_Some _ _ i). }
  apply wp_returns in Hw as (r & s' & Hrun & j & -> & Hj & Hlj).
  unfold dirlink, bind. rewrite Hrun. unfold iput, bind, acquire_inode. unfold acquiresleep.
  by rewrite Hj, Hlj.
Qed.

(** [dirlink] of a new name adds the entry, in the first free slot
    of the directory, and [dirlookup] then finds it there: it returns a
    reference to the inode and the offset. Every other name is found, or not
    found, as before, and no other file changes. Names are the same when they agree in the first 14
    characters. *)
Theorem dirlink_dirlookup L v ic s dp i X name inum :
  fs_at ∅ L v ic s -> dir_ok v ic dp i -> dinode_wf (i_disk i) -> bytes name -> 0 < inum < 2 ^ 16 ->
  lookup_name (content v i) name = None ->
  DIRENTSZ * (Z.of_nat (free_slot (content v i)) + 1) <= MAXFILE * BSIZE ->
  logged L i X -> (size X + 4 <= txn_cap)%nat -> (size L + 3 <= txn_cap)%nat -> (1 + need_ind i <= nfree sb v)%nat ->
  wp (dirlink devread devwrite dp name inum) (fun r s' => r = 0 /\
    exists L' v' i', fs_at ∅ L' v' (<[dp := i']> ic) s' /\ (size L' <= size X + 4)%nat /\
    written sb dstart v i v' i' (DIRENTSZ * Z.of_nat (free_slot (content v i))) (mk_dirent name inum) /\
    dir_ok v' (<[dp := i']> ic) dp i' /\
    forall name' L2 ic2 s2, bytes name' -> fs_at ∅ L2 v' ic2 s2 -> dir_ok v' ic2 dp i' ->
      (size L2 + 3 <= txn_cap)%nat -> (forall n, iget_room ic2 (i_dev i) n) ->
      wp (dirlookup devread dp name') (fun r s3 =>
        match (if decide (same_name name' name) then
                 Some (DIRENTSZ * Z.of_nat (free_slot (content v i)), inum)
               else lookup_name (content v i) name') with
        | None => r = None /\ fs_at ∅ L2 v' ic2 s3
        | Some (off, n) => exists ip ic3, r = Some (ip, off) /\ got ic2 (i_dev i) n ip ic3 /\ fs_at ∅ L2 v' ic3 s3
        end) s2) s.
Proof.
  intros Hs Hdir Hwf Hn Hi Hno Hk Hl HX HL Hfree. eapply wp_mono; [by eapply dirlink_run|].
  intros r s' [-> (L' & v' & i' & Hs' & HL' & _ & Hw)]. split; [done|]. exists L', v', i'.
  destruct (written_dir _ _ _ _ _ _ _ _ _ Hdir Hn (free_slot_le _) Hw) as [Hdir' Hc]. split_and!; [done..|].
  intros name' L2 ic2 s2 Hn' Hs2 Hdir2 HL2 Hroom.
  assert (i_dev i' = i_dev i) as Ed by (by rewrite (wr_inode _ _ _ _ _ _ _ _ Hw)).
  eapply wp_mono; [eapply (dirlookup_run Hdir2 HL2 s2 name' Hs2 Hn'); intros; rewrite Ed; apply Hroom|].
  intros r s3. rewrite Ed, Hc.
  rewrite (lookup_name_link (content v i) name inum (length (entries (content v i))) name'); [done|by apply length_dir in Hdir|done..].
Qed.
End dirs.

(** ** The root directory of the small file system *)

Definition root_i : inode := tiny_inode 1 true tiny_root true.
Definition root_icache : list inode :=
  tiny_inode 2 true tiny_file true :: root_i :: replicate (Z.to_nat (NINODE - 2)) zero_inode.
Definition root_locked : fs log :=
  {| f_blk := tiny_open; f_sb := tiny_sb; f_icache := root_icache; f_me := 1 |}.

Lemma root_at : fs_at tiny_sb 1 ∅ ∅ tiny_v root_icache root_locked.
Proof. destruct tiny_at as [_ _ _ Hb]. by split. Qed.

Lemma root_addr bn : 0 <= bn -> addr_at tiny_v root_i bn = if decide (bn = 0) then 59 else 0.
Proof.
  intros Hbn. unfold addr_at. change (ind_addr root_i =? 0) with true. cbn match. change NDIRECT with 12.
  destruct (Z.ltb_spec bn 12) as [Hlt|]; [|by rewrite decide_False by lia].
  assert (bn ∈ seqZ 0 12) as Hin by (apply elem_of_seqZ; lia). clear Hbn Hlt. revert bn Hin.
  apply Forall_forall. vm_compute. repeat constructor.
Qed.

Lemma root_dir_ok : dir_ok tiny_sb 59 tiny_v root_icache 1 root_i.
Proof.
  pose proof tiny_file_env as [_ _ Hme Hhe].
  constructor; [constructor; [done| |done|done]|done|by exists 3|..].
  - constructor; [done|done|done|done|by left|..].
    + intros bn Hbn. rewrite root_addr by lia. case_decide; [right|by left]. split; [done|by vm_compute].
    + intros bn bn' Hbn Hbn'. rewrite !root_addr by lia. do 2 case_decide; subst; done.
    + intros bn Hbn. rewrite root_addr by lia. by case_decide.
  - intros bn Hbn Hlt. rewrite root_addr by done. case_decide; [done|].
    change (i_size root_i) with 48 in Hlt. fs_lia.
  - assert (content tiny_v root_i = mk_dirent [46] 1 ++ mk_dirent [46; 46] 1 ++ mk_dirent [97] 2) as ->
      by (by vm_compute).
    unfold bytes. rewrite !Forall_app. split_and!; apply mk_dirent_bytes; by apply (bool_decide_eq_true_1 (Forall is_u8 _)).
Qed.

Lemma root_wf : dinode_wf (i_disk root_i).
Proof. split; try done. by apply (bool_decide_eq_true_1 (Forall is_u32 _)). Qed.

Lemma dirlink_dirlookup_witness :
  wp (dirlink (fun _ => None) (fun _ => None) 1 [98] 2) (fun r s' => r = 0 /\
    wp (dirlookup (fun _ => None) 1 [98]) (fun r s3 => exists ip, r = Some (ip, 48)) s') root_locked.
Proof.
  eapply wp_mono.
  - apply (dirlink_dirlookup tiny_sb 1 59 tiny_layout (fun _ => None) (fun _ => None) ∅ tiny_v root_icache root_locked 1
      root_i ∅ [98] 2 root_at root_dir_ok root_wf).
    + by apply (bool_decide_eq_true_1 (Forall is_u8 _)).
    + done.
    + by vm_compute.
    + by vm_compute.
    + done.
    + rewrite size_empty. by vm_compute; lia.
    + rewrite size_empty. by vm_compute; lia.
    + apply Nat.leb_le. by vm_compute.
  - intros r s' [-> (L' & v' & i' & Hs' & HL' & Hw & Hd' & Hlook)]. split; [done|]. rewrite size_empty in HL'.
    eapply wp_mono; [eapply (Hlook [98]); [by apply (bool_decide_eq_true_1 (Forall is_u8 _))|exact Hs'|exact Hd'| |]|].
    + change txn_cap with 27%nat. lia.
    + intros n. split.
      * apply Exists_exists. exists zero_inode. split; [|by right].
        apply (list_elem_of_lookup_2 _ 2%nat). by rewrite list_lookup_insert_ne.
      * apply Forall_insert; [by apply (bool_decide_eq_true_1 (Forall _ _))|].
        by rewrite (wr_inode _ _ _ _ _ _ _ _ Hw).
    + intros r s3. cbv beta. rewrite decide_True by done. intros (ip & ic3 & -> & _). by exists ip.
Defined.

(** [link("a", ".")] in the root directory: the call waits for itself. *)
Definition root_cwd : fs log :=
  {| f_blk := tiny_log; f_sb := tiny_sb;
     f_icache := tiny_inode 1 false tiny_root true :: replicate (Z.to_nat (NINODE - 1)) zero_inode;
     f_me := 1 |}.
Lemma link_dot_sleeps :
  link (fun _ => None) (fun _ => None) (replicate NAMELEN 0) 0 [97] DOT root_cwd = Asleep.
Proof. by vm_compute. Qed.
