(* ===== verification/FsPath.v ===== *)
(** * FsPath: path names (fs.c)

    A path is a list of elements separated by slashes. [namex] resolves it from
    the root or from the current directory, one element after the other, with
    the directory it is in locked. The reference is a walk over the directories
    as they are on disk; the references of the inode cache are a table of
    counts, to which [namex] adds the inode it returns and nothing else. *)

From stdpp Require Import base list numbers gmap strings.
From S2P Require Import Prelude Bytes Params Sleeplock Bio Log Blocks Fs FsInv FsDemo FsInode FsMap FsFile File FileData Sysfile FsDir.

Local Open Scope Z_scope.
Local Open Scope os_scope.

(** ** The elements of a path *)

(** The pieces between the slashes, some of them empty. *)
Fixpoint pieces (path : list Z) : list (list Z) :=
  match path with
  | [] => [[]]
  | c :: path =>
      if c =? SLASH then [] :: pieces path
      else match pieces path with e :: es => (c :: e) :: es | [] => [[c]] end
  end.
Definition elems (path : list Z) : list (list Z) := filter (fun e => e <> []) (pieces path).

Lemma pieces_cons path : exists e es, pieces path = e :: es.
Proof. destruct path as [|c path]; [by eexists _, _|]. cbn. destruct (c =? SLASH); [by eexists _, _|]. destruct (pieces path); by eexists _, _. Qed.
Lemma elems_slash path : elems (SLASH :: path) = elems path.
Proof. unfold elems. cbn [pieces]. rewrite Z.eqb_refl. by rewrite filter_cons_False by tauto. Qed.
Lemma elems_skip_slashes path : elems (skip_slashes path) = elems path.
Proof.
  induction path as [|c path IH]; [done|]. cbn [skip_slashes]. destruct (Z.eqb_spec c SLASH) as [->|]; [|done].
  by rewrite IH, elems_slash.
Qed.
Lemma skip_slashes_head path c rest : skip_slashes path = c :: rest -> c <> SLASH.
Proof. induction path as [|a path IH]; [done|]. cbn. destruct (Z.eqb_spec a SLASH); [done|]. by intros [= <- _]. Qed.
Lemma skip_slashes_suffix path : exists k, skip_slashes path = drop k path.
Proof.
  induction path as [|a path [k IH]]; [by exists 0%nat|]. cbn. destruct (a =? SLASH); [by exists (S k)|by exists 0%nat].
Qed.
Lemma elems_skipped path : elems (skip_slashes path) = [] <-> skip_slashes path = [].
Proof.
  split; [|by intros ->]. destruct (skip_slashes path) as [|c rest] eqn:E; [done|]. apply skip_slashes_head in E.
  unfold elems. cbn [pieces]. rewrite (proj2 (Z.eqb_neq _ _)) by done. destruct (pieces_cons rest) as (e & es & ->).
  by rewrite filter_cons_True.
Qed.
Lemma span_elem_app path e rest : span_elem path = (e, rest) -> path = e ++ rest.
Proof.
  revert e rest. induction path as [|c path IH]; intros e rest; cbn; [by intros [= <- <-]|].
  destruct (c =? SLASH); [by intros [= <- <-]|]. destruct (span_elem path) as [e' r']. intros [= <- <-]. cbn. f_equal. by apply IH.
Qed.
Lemma span_elem_pieces path e rest : span_elem path = (e, rest) -> pieces path = e :: tail (pieces rest) /\ (rest = [] \/ head rest = Some SLASH).
Proof.
  revert e rest. induction path as [|c path IH]; intros e rest; cbn; [intros [= <- <-]; by split; [|left]|].
  destruct (Z.eqb_spec c SLASH) as [->|].
  { intros [= <- <-]. split; [by cbn|by right]. }
  destruct (span_elem path) as [e' r']. intros [= <- <-]. destruct (IH e' r' eq_refl) as [-> ?]. done.
Qed.
Lemma elems_span path e rest : e <> [] -> span_elem path = (e, rest) -> elems path = e :: elems rest.
Proof.
  intros He Hs. destruct (span_elem_pieces _ _ _ Hs) as [Hp Hr]. unfold elems. rewrite Hp, filter_cons_True by done.
  f_equal. destruct rest as [|c rest]; [done|]. destruct Hr as [?|[= ->]]; [done|]. cbn [pieces]. rewrite Z.eqb_refl.
  cbn [tail]. by rewrite filter_cons_False by tauto.
Qed.

(** ** One element *)

Lemma cstr_take n l : 0 ∉ l -> cstr n l = take n l.
Proof. revert n. induction l as [|c l IH]; intros [|n] H0; [done..|]. cbn. rewrite (proj2 (Z.eqb_neq c 0)) by set_solver. by rewrite IH by set_solver. Qed.
Lemma cstr_app0 n l r : (length l <= n)%nat -> 0 ∉ l -> cstr n (l ++ 0 :: r) = l.
Proof.
  revert n. induction l as [|c l IH]; intros [|n] Hn H0; cbn in Hn; [done|done|lia|]. cbn [app cstr].
  rewrite (proj2 (Z.eqb_neq c 0)) by set_solver. rewrite IH; [done|lia|set_solver].
Qed.
Lemma splice_front (l d : list Z) : (length d <= length l)%nat -> splice l 0 d = d ++ drop (length d) l.
Proof.
  intros H. apply list_eq. intros j. unfold splice. destruct (decide (j < length d)%nat).
  - rewrite list_lookup_inserts by lia. rewrite Nat.sub_0_r. by rewrite lookup_app_l.
  - rewrite list_lookup_inserts_ge by lia. rewrite lookup_app_r, lookup_drop by lia. f_equal. lia.
Qed.

Lemma not_in_drop (x : Z) k l : x ∉ l -> x ∉ drop k l.
Proof. intros Hx [j Hj]%list_elem_of_lookup. rewrite lookup_drop in Hj. by apply list_elem_of_lookup_2 in Hj. Qed.

(** What [skipelem] stores in [name]. *)
Lemma stored_elem (name e : list Z) :
  length name = NAMELEN -> bytes name -> bytes e -> 0 ∉ e ->
  let nm := if (NAMELEN <=? length e)%nat then splice name 0 (take NAMELEN e) else <[length e := 0]> (splice name 0 e) in
  same_name nm e /\ length nm = NAMELEN /\ bytes nm.
Proof.
  intros Hl Hb He H0. cbv zeta. unfold same_name, bytes in *. rewrite (cstr_take NAMELEN e) by done. destruct (Nat.leb_spec NAMELEN (length e)).
  - rewrite splice_front by (rewrite length_take; lia). rewrite length_take, drop_ge, app_nil_r by lia. split_and!.
    + rewrite cstr_take, take_take; [by rewrite Nat.min_id|]. intros (j & Hj & _)%elem_of_take. by apply list_elem_of_lookup_2, H0 in Hj.
    + rewrite length_take. lia.
    + by apply Forall_take.
  - rewrite splice_front by lia. destruct (drop (length e) name) as [|x r] eqn:E.
    { apply (f_equal length) in E. rewrite length_drop in E. cbn in E. lia. }
    rewrite insert_app_r_alt by done. rewrite Nat.sub_diag. cbn [insert list_insert]. split_and!.
    + rewrite cstr_app0 by (done || lia). by rewrite take_ge by lia.
    + apply (f_equal length) in E. rewrite length_drop in E. rewrite length_app. cbn [length] in *. lia.
    + apply Forall_app. split; [done|]. constructor; [done|]. assert (Forall (fun z => 0 <= z < 2 ^ 8) (drop (length e) name)) as HF by by apply Forall_drop.
      rewrite E in HF. by inversion HF.
Qed.

(** [skipelem] takes the first element off the path. *)
Lemma skipelem_spec path name :
  length name = NAMELEN -> bytes name -> bytes path -> 0 ∉ path ->
  match skipelem path name with
  | None => elems path = []
  | Some (rest, nm) => exists e, elems path = e :: elems rest /\ (rest = [] <-> elems rest = []) /\
      same_name nm e /\ length nm = NAMELEN /\ bytes nm /\ bytes rest /\ (0 ∉ rest) /\ (length rest < length path)%nat
  end.
Proof.
  intros Hl Hb Hp H0. unfold skipelem. rewrite <- (elems_skip_slashes path). destruct (skip_slashes_suffix path) as [k Hk].
  assert (bytes (skip_slashes path) /\ (0 ∉ skip_slashes path) /\ (length (skip_slashes path) <= length path)%nat) as (Hp' & H0' & Hle).
  { rewrite Hk. split_and!; [by apply Forall_drop| |rewrite length_drop; lia]. by apply not_in_drop. }
  pose proof (skip_slashes_head path) as Hh. destruct (skip_slashes path) as [|c p] eqn:Ep; [done|].
  specialize (Hh c p eq_refl). destruct (span_elem (c :: p)) as [e rest] eqn:Es. pose proof (span_elem_app _ _ _ Es) as Ea.
  assert (e <> []) as Hne by (intros ->; cbn in Es; rewrite (proj2 (Z.eqb_neq _ _)) in Es by done; by destruct (span_elem p)).
  rewrite Ea in Hp', H0'. apply Forall_app in Hp' as [Hpe Hpr]. apply not_elem_of_app in H0' as [H0e H0r].
  destruct (stored_elem name e) as (N1 & N2 & N3); [done..|]. exists e. rewrite (elems_skip_slashes rest).
  destruct (skip_slashes_suffix rest) as [k' Hk']. split_and!; try done.
  - by apply elems_span.
  - rewrite <- (elems_skip_slashes rest). symmetry. apply elems_skipped.
  - rewrite Hk'. by apply Forall_drop.
  - rewrite Hk'. by apply not_in_drop.
  - rewrite Ea, length_app in Hle. rewrite Hk', length_drop. destruct e; [done|]. cbn in Hle. lia.
Qed.

(** ** The references to the inode cache *)

(** For each entry in use, its inode and the number of references to it. *)
Definition ref_of (i : inode) : option (Z * Z) := if 0 <? i_ref i then Some (i_inum i, i_ref i) else None.
Definition table_of (ic : list inode) : list (option (Z * Z)) := ref_of <$> ic.

Definition ref_up (inum : Z) (o : option (Z * Z)) : option (Z * Z) :=
  match o with Some (n, r) => Some (n, r + 1) | None => Some (inum, 1) end.
Definition ref_down (o : option (Z * Z)) : option (Z * Z) :=
  match o with Some (n, r) => if r =? 1 then None else Some (n, r - 1) | None => None end.
(** One more reference to [inum], at entry [ip], and one less at [ip]. *)
Definition open_ref (ip : nat) (inum : Z) (T : list (option (Z * Z))) := alter (ref_up inum) ip T.
Definition close_ref (ip : nat) (T : list (option (Z * Z))) := alter ref_down ip T.
(** Entry [ip] has this inode, or it is free and no entry has it. *)
Definition slot_for (T : list (option (Z * Z))) (ip : nat) (inum : Z) : Prop :=
  (T !! ip = Some None /\ forall k r, T !! k <> Some (Some (inum, r))) \/ exists r, 1 <= r /\ T !! ip = Some (Some (inum, r)).
Definition refs_below (m : Z) (T : list (option (Z * Z))) : Prop := forall k n r, T !! k = Some (Some (n, r)) -> r < m.
Definition two_free (T : list (option (Z * Z))) : Prop := exists j k, j <> k /\ T !! j = Some None /\ T !! k = Some None.
Definition one_free (T : list (option (Z * Z))) : Prop := exists k, T !! k = Some None.

Lemma ref_down_up inum o : (forall n r, o = Some (n, r) -> 1 <= r) -> ref_down (ref_up inum o) = o.
Proof.
  intros Ho. destruct o as [[n r]|]; cbn; [|done]. specialize (Ho n r eq_refl). destruct (Z.eqb_spec (r + 1) 1); [lia|].
  do 2 f_equal. lia.
Qed.
Lemma close_open T ip inum : slot_for T ip inum -> close_ref ip (open_ref ip inum T) = T.
Proof.
  intros Hs. apply list_eq. intros k. unfold close_ref, open_ref. destruct (decide (k = ip)) as [->|].
  - rewrite !list_lookup_alter_eq. destruct Hs as [[-> _]|(r & Hr & ->)]; cbn [fmap option_fmap option_map]; rewrite ref_down_up; (done || naive_solver).
  - by rewrite !list_lookup_alter_ne by done.
Qed.
Lemma open_lookup T ip inum : slot_for T ip inum -> exists r, 1 <= r /\ open_ref ip inum T !! ip = Some (Some (inum, r)).
Proof.
  intros Hs. unfold open_ref. rewrite list_lookup_alter_eq. destruct Hs as [[-> _]|(r & Hr & ->)]; cbn; [by exists 1|exists (r + 1)]. split; [lia|done].
Qed.
Lemma slot_open T ip inum nx j : slot_for T ip inum -> slot_for (open_ref ip inum T) nx j -> slot_for T nx j.
Proof.
  intros Hs. destruct (decide (nx = ip)) as [->|Hne].
  - destruct (open_lookup T ip inum Hs) as (r & Hr & Ho). intros [[E _]|(r' & Hr' & E)]; rewrite Ho in E; [done|]. by injection E as -> _.
  - unfold slot_for, open_ref. rewrite list_lookup_alter_ne by done. intros [[E Hno]|Hyes]; [left|by right]. split; [done|].
    intros k r E'. destruct (decide (k = ip)) as [->|]; [|by apply (Hno k r); rewrite list_lookup_alter_ne].
    apply (Hno ip (r + 1)). by rewrite list_lookup_alter_eq, E'.
Qed.
(** The reference to the directory is dropped after the next was taken. *)
Lemma close_open_open T ip inum nx j :
  slot_for T ip inum -> slot_for (open_ref ip inum T) nx j -> close_ref ip (open_ref nx j (open_ref ip inum T)) = open_ref nx j T.
Proof.
  intros Hs Hn. destruct (decide (nx = ip)) as [->|Hne].
  - destruct (open_lookup T ip inum Hs) as (r & Hr & Ho).
    assert (j = inum) as -> by (destruct Hn as [[E _]|(r' & _ & E)]; rewrite Ho in E; [done|]; by injection E as ->).
    apply close_open. right. by exists r.
  - rewrite <- (close_open T ip inum Hs) at 2. apply list_eq. intros k. unfold close_ref, open_ref.
    destruct (decide (k = ip)) as [->|]; [|destruct (decide (k = nx)) as [->|]];
      repeat (rewrite list_lookup_alter_eq || rewrite list_lookup_alter_ne by done); done.
Qed.
Lemma refs_below_open m T ip inum : 1 <= m -> refs_below m T -> refs_below (m + 1) (open_ref ip inum T).
Proof.
  intros Hm HT k n r. unfold open_ref. destruct (decide (k = ip)) as [->|].
  - rewrite list_lookup_alter_eq. destruct (T !! ip) as [[[n' r']|]|] eqn:E; cbn; [|intros [= <- <-]; lia|done].
    intros [= <- <-]. specialize (HT _ _ _ E). lia.
  - rewrite list_lookup_alter_ne by done. intros E. specialize (HT _ _ _ E). lia.
Qed.
Lemma opened_below T ip inum : refs_below (2 ^ 31 - 2) T -> refs_below (2 ^ 31 - 1) (open_ref ip inum T).
Proof. intros HT. replace (2 ^ 31 - 1) with (2 ^ 31 - 2 + 1) by lia. by apply refs_below_open. Qed.
Lemma two_free_open T ip inum : two_free T -> one_free (open_ref ip inum T).
Proof.
  intros (j & k & Hne & Hj & Hk). unfold one_free, open_ref. destruct (decide (j = ip)) as [->|].
  - exists k. by rewrite list_lookup_alter_ne.
  - exists j. by rewrite list_lookup_alter_ne.
Qed.
(** No inode has two entries. *)
Definition uniq_refs (T : list (option (Z * Z))) : Prop :=
  forall j k n r r', T !! j = Some (Some (n, r)) -> T !! k = Some (Some (n, r')) -> j = k.
Lemma uniq_open T ip inum : uniq_refs T -> slot_for T ip inum -> uniq_refs (open_ref ip inum T).
Proof.
  intros HU Hs. destruct (open_lookup T ip inum Hs) as (r0 & _ & Ho).
  assert (forall k n r, k <> ip -> open_ref ip inum T !! k = Some (Some (n, r)) -> n <> inum) as Hne.
  { intros k n r Hk E ->. unfold open_ref in E. rewrite list_lookup_alter_ne in E by done.
    destruct Hs as [[_ Hno]|(r1 & _ & E1)]; [by apply (Hno k r)|]. by apply Hk, (HU k ip inum r r1). }
  intros j k n r r' Hj Hk. destruct (decide (j = ip)) as [->|], (decide (k = ip)) as [->|]; [done|..].
  - rewrite Ho in Hj. injection Hj as <- _. by apply Hne in Hk.
  - rewrite Ho in Hk. injection Hk as <- _. by apply Hne in Hj.
  - unfold open_ref in *. rewrite list_lookup_alter_ne in Hj, Hk by done. by eapply HU.
Qed.
Lemma table_insert ic ip i x f : ic !! ip = Some i -> ref_of x = f (ref_of i) -> table_of (<[ip := x]> ic) = alter f ip (table_of ic).
Proof.
  intros Hi Hx. unfold table_of. rewrite list_fmap_insert, Hx. symmetry. apply list_alter_insert. by rewrite list_lookup_fmap, Hi.
Qed.
Lemma table_same ic ip i x : ic !! ip = Some i -> ref_of x = ref_of i -> table_of (<[ip := x]> ic) = table_of ic.
Proof. intros Hi Hx. unfold table_of. rewrite list_fmap_insert, Hx. apply list_insert_id. by rewrite list_lookup_fmap, Hi. Qed.
Lemma ref_of_Some i n r : ref_of i = Some (n, r) <-> 0 < i_ref i /\ i_inum i = n /\ i_ref i = r.
Proof. unfold ref_of. destruct (Z.ltb_spec 0 (i_ref i)); split; naive_solver lia. Qed.
Lemma ref_of_None i : ref_of i = None <-> i_ref i <= 0.
Proof. unfold ref_of. destruct (Z.ltb_spec 0 (i_ref i)); split; (done || lia). Qed.
Lemma table_lookup ic k o : table_of ic !! k = Some o -> exists i, ic !! k = Some i /\ ref_of i = o.
Proof. unfold table_of. rewrite list_lookup_fmap. destruct (ic !! k) as [i|]; [|done]. intros [= <-]. by exists i. Qed.
Lemma table_at ic k i : ic !! k = Some i -> 0 < i_ref i -> table_of ic !! k = Some (Some (i_inum i, i_ref i)).
Proof. intros Hk Hr. unfold table_of. rewrite list_lookup_fmap, Hk. cbn. f_equal. by apply ref_of_Some. Qed.

(** ** The tree on disk *)

Lemma file_ok_eq sb dstart v i j :
  i_dev j = i_dev i -> i_inum j = i_inum i -> i_size j = i_size i -> i_addrs j = i_addrs i -> file_ok sb dstart v i -> file_ok sb dstart v j.
Proof. destruct i, j; cbn. intros -> -> -> -> [H1 H2 H3 H4 H5 H6 H7 H8]. by split. Qed.
Lemma content_eq v i j : i_size j = i_size i -> i_addrs j = i_addrs i -> content v j = content v i /\ forall n, no_holes v i n -> no_holes v j n.
Proof. destruct i, j; cbn. by intros -> ->. Qed.

Section paths.
Context {B : Type} `{BlockLaws B} (sb : superblock) (me dstart : Z) (Hlay : layout sb dstart).
Context (devread : Z -> option (nat -> Z -> M (fs B) (Z * list Z))).
Implicit Types (s : fs B) (L : gset Z) (v : Z -> list Z) (ic : list inode) (i : inode).
#[local] Abbreviation fs_at := (fs_at sb me).
#[local] Abbreviation disk_inode := (disk_inode sb).
#[local] Abbreviation no_dev := (fun _ : Z => @None (nat -> list Z -> M (fs B) Z)).

(** An inode as it is on disk, and the inodes that are allocated. *)
Definition node v (inum : Z) : inode :=
  set_i_disk (disk_inode v inum)
    {| i_dev := ROOTDEV; i_inum := inum; i_ref := 0; i_lock := initsleeplock; i_valid := true; i_type := 0; i_major := 0;
       i_minor := 0; i_nlink := 0; i_size := 0; i_addrs := [] |}.
Definition in_use v (inum : Z) : Prop := inum_ok sb inum /\ d_type (disk_inode v inum) <> 0.
Definition is_dir v (inum : Z) : bool := d_type (disk_inode v inum) =? T_DIR.

(** Every allocated inode has a link and a file; every directory is whole, and
    its entries name allocated inodes. *)
Record tree_ok v : Prop := {
  tr_meta : meta_used sb dstart v;
  tr_root : in_use v ROOTINO;
  tr_link inum : in_use v inum -> d_nlink (disk_inode v inum) <> 0;
  tr_file inum : in_use v inum -> file_ok sb dstart v (node v inum);
  tr_dir inum : in_use v inum -> is_dir v inum = true ->
    (exists n, i_size (node v inum) = DIRENTSZ * n) /\ no_holes v (node v inum) (i_size (node v inum)) /\ bytes (content v (node v inum));
  tr_entry inum name off j : in_use v inum -> is_dir v inum = true ->
    lookup_name (content v (node v inum)) name = Some (off, j) -> in_use v j
}.

(** Where the elements lead from inode [inum]. *)
Fixpoint walk v (inum : Z) (es : list (list Z)) : option Z :=
  match es with
  | [] => Some inum
  | e :: es =>
      if is_dir v inum then
        match lookup_name (content v (node v inum)) e with Some (_, j) => walk v j es | None => None end
      else None
  end.
(** The directory the last element is in. *)
Definition walk_parent v (inum : Z) (es : list (list Z)) : option Z :=
  match es with
  | [] => None
  | _ => match walk v inum (removelast es) with Some d => if is_dir v d then Some d else None | None => None end
  end.

(** An entry of the cache: what is in it is what is on disk. *)
Definition entry_ok v (locked : bool) i : Prop :=
  0 <= i_ref i /\
  (if locked then i_lock i = my_lock me /\ i_valid i = true /\ 0 < i_ref i else sl_locked (i_lock i) = false) /\
  (0 < i_ref i -> i_dev i = ROOTDEV /\ in_use v (i_inum i) /\ (i_valid i = true -> i_disk i = disk_inode v (i_inum i))).
(** The cache, with the entries [lk] locked. *)
Definition cache_ok v (lk : list nat) ic : Prop := forall k i, ic !! k = Some i -> entry_ok v (bool_decide (k ∈ lk)) i.

Lemma cache_insert v lk lk' ic ip x :
  cache_ok v lk ic -> entry_ok v (bool_decide (ip ∈ lk')) x -> (forall k, k <> ip -> k ∈ lk <-> k ∈ lk') ->
  cache_ok v lk' (<[ip := x]> ic).
Proof.
  intros Hc Hx Hlk k i Hk. destruct (decide (k = ip)) as [->|Hne].
  - pose proof (lookup_lt_Some _ _ _ Hk) as Hlt. rewrite length_insert in Hlt. rewrite list_lookup_insert_eq in Hk by done. by injection Hk as <-.
  - rewrite list_lookup_insert_ne in Hk by done. rewrite <- (bool_decide_ext _ _ (Hlk k Hne)). by apply Hc.
Qed.
Lemma opened ic T ip inum :
  table_of ic = open_ref ip inum T -> slot_for T ip inum -> exists i, ic !! ip = Some i /\ i_inum i = inum /\ 0 < i_ref i.
Proof.
  intros Ht Hs. destruct (open_lookup T ip inum Hs) as (r & Hr & Ho). rewrite <- Ht in Ho. apply table_lookup in Ho as (i & Hi & E).
  apply ref_of_Some in E as (? & ? & ?). by exists i.
Qed.
Lemma table_below m ic k i : refs_below m (table_of ic) -> ic !! k = Some i -> 1 <= m -> i_ref i < m.
Proof. intros Hm Hk H1. destruct (decide (0 < i_ref i)); [|lia]. by eapply Hm, table_at. Qed.

(** ** The operations on the cache *)

Section ops.
Context {v : Z -> list Z} (Hv : tree_ok v).
Context {L : gset Z} (Hcap : (size L + 3 <= txn_cap)%nat).

Lemma ilock_cache lk ic s ip i :
  fs_at ∅ L v ic s -> cache_ok v lk ic -> ip ∉ lk -> ic !! ip = Some i -> 0 < i_ref i ->
  wp (ilock ip) (fun _ s' => exists ic' i', fs_at ∅ L v ic' s' /\ cache_ok v (ip :: lk) ic' /\ table_of ic' = table_of ic /\
    ic' !! ip = Some i' /\ i_inum i' = i_inum i /\ i_disk i' = disk_inode v (i_inum i)) s.
Proof.
  intros Hs Hc Hlk Hip Hr. destruct (Hc ip i Hip) as (_ & Hl & Hu). rewrite bool_decide_eq_false_2 in Hl by done.
  destruct (Hu Hr) as (Hdev & [Hin Hty] & Hd). pose proof (lookup_lt_Some _ _ _ Hip) as Hlt.
  eapply wp_mono; [eapply (ilock_run sb me dstart Hlay ∅ L v ic s ip i); try done|].
  - split; [lia|done].
  - rewrite map_size_empty. lia.
  - lia.
  - intros [] s1 Hs1. set (x := loaded sb me v i) in *.
    assert (i_dev x = i_dev i /\ i_inum x = i_inum i /\ i_ref x = i_ref i /\ i_lock x = my_lock me /\ i_valid x = true /\ i_disk x = disk_inode v (i_inum i))
      as (X1 & X2 & X3 & X4 & X5 & X6).
    { unfold x, loaded. destruct (i_valid i) eqn:E; [specialize (Hd eq_refl); by destruct i|]. by destruct i, (disk_inode v _). }
    eexists _, x. split; [exact Hs1|]. split_and!; try done.
    + eapply cache_insert; [exact Hc| |set_solver]. rewrite bool_decide_eq_true_2 by set_solver. unfold entry_ok. rewrite X1, X2, X3, X4, X5, X6. split_and!; try done; lia.
    + eapply table_same; [done|]. unfold ref_of. by rewrite X2, X3.
    + by apply list_lookup_insert_eq.
Qed.

Lemma iunlock_cache lk ic s ip :
  fs_at ∅ L v ic s -> cache_ok v (ip :: lk) ic -> ip ∉ lk -> (ip < length ic)%nat ->
  wp (iunlock ip) (fun _ s' => exists ic', fs_at ∅ L v ic' s' /\ cache_ok v lk ic' /\ table_of ic' = table_of ic) s.
Proof.
  intros Hs Hc Hlk [i Hip]%lookup_lt_is_Some_2. destruct (Hc ip i Hip) as (? & Hl & Hu). rewrite bool_decide_eq_true_2 in Hl by set_solver.
  destruct Hl as (Hl & Hval & Hr). eapply wp_mono; [eapply (iunlock_run sb me L v ic s ip i); try done; lia|]. intros [] s1 Hs1.
  eexists. split; [exact Hs1|]. split.
  - eapply cache_insert; [exact Hc| |set_solver]. rewrite bool_decide_eq_false_2 by set_solver. split_and!; [done|done|]. exact Hu.
  - by eapply table_same.
Qed.

(** Dropping a reference: the inode has a link, so that nothing is freed. *)
Lemma iput_cache lk ic s ip i :
  fs_at ∅ L v ic s -> cache_ok v lk ic -> ip ∉ lk -> ic !! ip = Some i -> 0 < i_ref i < 2 ^ 31 ->
  wp (iput ip) (fun _ s' => exists ic', fs_at ∅ L v ic' s' /\ cache_ok v lk ic' /\ table_of ic' = close_ref ip (table_of ic)) s.
Proof.
  intros Hs Hc Hlk Hip Hr. destruct (Hc ip i Hip) as (_ & Hl & Hu). rewrite bool_decide_eq_false_2 in Hl by done.
  destruct (Hu ltac:(lia)) as (Hdev & Hin & Hd). pose proof (lookup_lt_Some _ _ _ Hip) as Hlt.
  unfold iput. rewrite wp_bind. eapply wp_mono; [by eapply acquire_inode_wp|]. intros [] s1 Hs1.
  rewrite wp_bind. eapply geti_wp; [exact Hs1|by apply list_lookup_insert_eq|]. cbn [i_nlink set_i_lock i_valid i_ref].
  assert (i_valid i && (i_nlink i =? 0) = false) as ->.
  { destruct (i_valid i); [|done]. cbn. apply Z.eqb_neq. change (i_nlink i) with (d_nlink (i_disk i)). rewrite Hd by done. by apply (tr_link v Hv). }
  cbn [andb]. rewrite wp_bind. apply wp_ret. eapply wp_mono; [by eapply updi_wp|]. intros [] s2 Hs2.
  erewrite list_alter_insert, list_insert_insert_eq in Hs2 by (by apply list_lookup_insert_eq). cbn [i_ref set_i_lock] in Hs2. rewrite i32_small in Hs2 by wrap_lia.
  eexists. split; [exact Hs2|]. split.
  - eapply cache_insert; [exact Hc| |set_solver]. rewrite bool_decide_eq_false_2 by done. split_and!; [cbn; lia|done|]. intros _. done.
  - eapply table_insert; [done|]. unfold ref_of, ref_down. cbn [i_ref i_inum set_i_ref set_i_lock]. rewrite (proj2 (Z.ltb_lt 0 (i_ref i))) by lia.
    destruct (Z.eqb_spec (i_ref i) 1) as [->|]; [done|]. by rewrite (proj2 (Z.ltb_lt _ _)) by lia.
Qed.

(** One more reference. *)
Lemma entry_up lk i : entry_ok v lk i -> 0 < i_ref i -> entry_ok v lk (set_i_ref (i_ref i + 1) i).
Proof. intros (? & Hl & Hu) Hr. unfold entry_ok. cbn [i_ref set_i_ref i_lock i_valid]. split_and!; [lia| |intros _; by apply Hu]. destruct lk; [|done]. destruct Hl as (? & ? & ?). split_and!; (done || lia). Qed.

(** There is room for one more inode. *)
Lemma refs_room lk ic inum :
  cache_ok v lk ic -> refs_below (2 ^ 31 - 1) (table_of ic) -> one_free (table_of ic) -> iget_room ic ROOTDEV inum.
Proof.
  intros Hc Hb [k Hk]. apply table_lookup in Hk as (i & Hi & Hz%ref_of_None). split.
  - apply Exists_exists. exists i. split; [by eapply list_elem_of_lookup_2|right]. destruct (Hc k i Hi). lia.
  - apply Forall_lookup_2. intros k' i' Hi'. destruct (Hc k' i' Hi') as [? _]. split; [done|]. by eapply table_below.
Qed.
Lemma got_cache lk ic inum ip ic' :
  cache_ok v lk ic -> in_use v inum -> got ic ROOTDEV inum ip ic' ->
  cache_ok v lk ic' /\ slot_for (table_of ic) ip inum /\ table_of ic' = open_ref ip inum (table_of ic).
Proof.
  intros Hc Hin [(j & Hj & Hr & Hdev & Hi) (i & j' & Hip & -> & Href & Hpos & Hz & Hl)].
  pose proof (lookup_lt_Some _ _ _ Hip) as Hlt. rewrite list_lookup_insert_eq in Hj by done. injection Hj as ->.
  pose proof (Hc ip i Hip) as He. destruct (decide (0 < i_ref i)) as [Hp|Hp].
  - rewrite (Hpos Hp) in *. cbn [i_dev i_inum set_i_ref i_ref] in *. split_and!.
    + eapply cache_insert; [exact Hc|by apply entry_up|done].
    + right. exists (i_ref i). split; [lia|]. rewrite table_at with (i := i) by done. by rewrite Hi.
    + eapply table_insert; [done|]. unfold ref_of. cbn [i_ref set_i_ref i_inum]. rewrite !(proj2 (Z.ltb_lt _ _)) by lia. done.
  - destruct He as (Hge & Hlk & _). assert (i_ref i = 0) as E0 by lia. destruct (Hz E0) as [Hval Hno]. split_and!.
    + eapply cache_insert; [exact Hc| |done]. unfold entry_ok. rewrite Hl, Hdev, Hi, Hval. destruct (bool_decide (ip ∈ lk)); [lia|].
      split_and!; [lia|done|]. by intros _.
    + left. split; [unfold table_of; rewrite list_lookup_fmap, Hip; cbn; f_equal; apply ref_of_None; lia|].
      intros k r (x & Hx & (Hx1 & Hx2 & _)%ref_of_Some)%table_lookup. rewrite Forall_lookup in Hno. apply (Hno k x Hx).
      split_and!; [done| |done]. destruct (Hc k x Hx) as (_ & _ & Hu). by apply Hu.
    + eapply table_insert; [done|]. rewrite (proj2 (ref_of_None i)) by lia. apply ref_of_Some. split_and!; (done || lia).
Qed.

Lemma idup_cache ic s ip i :
  fs_at ∅ L v ic s -> cache_ok v [] ic -> ic !! ip = Some i -> 0 < i_ref i < 2 ^ 31 - 1 ->
  wp (idup ip) (fun a s' => a = ip /\ exists ic', fs_at ∅ L v ic' s' /\ cache_ok v [] ic' /\ slot_for (table_of ic) ip (i_inum i) /\
    table_of ic' = open_ref ip (i_inum i) (table_of ic)) s.
Proof.
  intros Hs Hc Hip Hr. unfold idup. rewrite wp_bind. eapply wp_mono; [by eapply updi_wp|]. intros [] s1 Hs1. apply wp_ret. split; [done|].
  rewrite (list_alter_insert _ _ _ _ Hip), i32_small in Hs1 by wrap_lia. eexists. split; [exact Hs1|]. split_and!.
  - eapply cache_insert; [exact Hc|apply entry_up; [by apply Hc|lia]|done].
  - right. exists (i_ref i). split; [lia|]. apply table_at; [done|lia].
  - eapply table_insert; [done|]. unfold ref_of. cbn [i_ref set_i_ref i_inum]. rewrite !(proj2 (Z.ltb_lt _ _)) by lia. done.
Qed.

Lemma iunlockput_cache lk ic s ip :
  fs_at ∅ L v ic s -> cache_ok v (ip :: lk) ic -> ip ∉ lk -> (ip < length ic)%nat -> refs_below (2 ^ 31) (table_of ic) ->
  wp (iunlockput ip) (fun _ s' => exists ic', fs_at ∅ L v ic' s' /\ cache_ok v lk ic' /\ table_of ic' = close_ref ip (table_of ic)) s.
Proof.
  intros Hs Hc Hlk Hlt Hb. unfold iunlockput. rewrite wp_bind. eapply wp_mono; [by eapply iunlock_cache|].
  intros [] s1 (ic1 & Hs1 & Hc1 & E1). apply lookup_lt_is_Some_2 in Hlt as [i Hip]. destruct (Hc ip i Hip) as (_ & Hl & _).
  rewrite bool_decide_eq_true_2 in Hl by set_solver. destruct Hl as (_ & _ & Hr). pose proof (table_below _ _ _ _ Hb Hip ltac:(lia)) as Hm.
  assert (table_of ic1 !! ip = Some (Some (i_inum i, i_ref i))) as (i1 & Hi1 & (? & _ & ?)%ref_of_Some)%table_lookup.
  { rewrite E1. by apply table_at. }
  eapply wp_mono; [eapply (iput_cache lk ic1 s1 ip i1); [done|done|done|done|lia]|]. intros [] s2 (ic2 & Hs2 & Hc2 & E2).
  exists ic2. by rewrite <- E1.
Qed.

(** The locked directory is what [dirlookup] relies on. *)
Lemma cache_dir lk ic dp i :
  cache_ok v lk ic -> dp ∈ lk -> ic !! dp = Some i -> i_disk i = disk_inode v (i_inum i) -> is_dir v (i_inum i) = true ->
  dir_ok sb dstart v ic dp i /\ content v i = content v (node v (i_inum i)) /\ i_dev i = ROOTDEV.
Proof.
  intros Hc Hlk Hdp Hd Hdir. destruct (Hc dp i Hdp) as (_ & Hl & Hu). rewrite bool_decide_eq_true_2 in Hl by done.
  destruct Hl as (_ & _ & Hr). destruct (Hu Hr) as (Hdev & Hin & _). destruct (tr_dir v Hv _ Hin Hdir) as (Hsz & Hh & Hby).
  assert (i_size i = i_size (node v (i_inum i)) /\ i_addrs i = i_addrs (node v (i_inum i)) /\ i_type i = T_DIR) as (Es & Ea & Et).
  { apply Z.eqb_eq in Hdir. unfold node. rewrite <- Hd in *. by destruct i. }
  destruct (content_eq v (node v (i_inum i)) i Es Ea) as [Ec Eh]. split_and!; [split|done|done].
  - split; [done| |apply Hv|apply held_ok_empty]. apply (file_ok_eq sb dstart v (node v (i_inum i))); [done..|]. by apply (tr_file v Hv).
  - done.
  - by rewrite Es.
  - rewrite Es. by apply Eh.
  - by rewrite Ec.
Qed.
Lemma lookup_name_same c n e : same_name n e -> lookup_name c n = lookup_name c e.
Proof. intros Hn. unfold lookup_name. f_equal. apply list_find_ext. intros d. unfold names, same_name in *. by rewrite Hn. Qed.
(** A name is looked up in a locked directory. *)
Lemma dirlookup_cache lk ic s dp i nm e :
  fs_at ∅ L v ic s -> cache_ok v lk ic -> dp ∈ lk -> ic !! dp = Some i -> i_disk i = disk_inode v (i_inum i) -> is_dir v (i_inum i) = true ->
  refs_below (2 ^ 31 - 1) (table_of ic) -> one_free (table_of ic) -> bytes nm -> same_name nm e ->
  wp (dirlookup devread dp nm) (fun r s' => match lookup_name (content v (node v (i_inum i))) e with
    | None => r = None /\ fs_at ∅ L v ic s'
    | Some (off, j) => exists nx ic', r = Some (nx, off) /\ fs_at ∅ L v ic' s' /\ cache_ok v lk ic' /\ length ic' = length ic /\
        slot_for (table_of ic) nx j /\ table_of ic' = open_ref nx j (table_of ic)
    end) s.
Proof.
  intros Hs Hc Hlk Hip Hd Hdir Hbel Hone Hb Hsame. destruct (cache_dir lk ic dp i Hc Hlk Hip Hd Hdir) as (Hok & Ec & Hdev).
  destruct (Hc dp i Hip) as (_ & Hl & Hu). rewrite bool_decide_eq_true_2 in Hl by done. destruct (Hu ltac:(apply Hl)) as (_ & Hin & _).
  eapply wp_mono; [eapply (dirlookup_run sb me dstart Hlay devread no_dev Hok Hcap s nm Hs Hb)|].
  { intros off j Hj. rewrite Hdev. by eapply refs_room. }
  intros r s1. rewrite Ec, (lookup_name_same _ _ _ Hsame), Hdev. destruct (lookup_name _ e) as [[off j]|] eqn:El; [|done].
  intros (nx & ic1 & -> & Hgot & Hs1). exists nx, ic1. split; [done|]. split; [done|].
  destruct (got_cache _ _ _ _ _ Hc (tr_entry v Hv _ _ _ _ Hin Hdir El) Hgot) as (? & ? & ?). split_and!; try done.
  destruct Hgot as [_ (? & ? & _ & -> & _)]. by rewrite length_insert.
Qed.

(** ** Resolving a path *)

(** What [namex_loop] looks for, one element at a time. *)
Fixpoint target (parent : bool) (inum : Z) (es : list (list Z)) : option Z :=
  match es with
  | [] => if parent then None else Some inum
  | e :: es =>
      if is_dir v inum then
        if parent && bool_decide (es = []) then Some inum
        else match lookup_name (content v (node v inum)) e with Some (_, j) => target parent j es | None => None end
      else None
  end.
Lemma target_walk parent inum es : target parent inum es = if parent then walk_parent v inum es else walk v inum es.
Proof.
  revert inum. induction es as [|e es IH]; intros inum; [by destruct parent|]. cbn [target walk]. destruct parent; cbn [andb].
  - unfold walk_parent. destruct es as [|e' es].
    + rewrite bool_decide_eq_true_2 by done. done.
    + rewrite bool_decide_eq_false_2 by done. change (removelast (e :: e' :: es)) with (e :: removelast (e' :: es)). cbn [walk].
      destruct (is_dir v inum); [|done]. destruct (lookup_name _ e) as [[off j]|]; [|done]. by rewrite IH.
  - destruct (is_dir v inum); [|done]. destruct (lookup_name _ e) as [[off j]|]; [|done]. by rewrite IH.
Qed.

(** The result of looking for inode [o], with the references [T] before. *)
Definition resolved (T : list (option (Z * Z))) (o : option Z) (r : option nat) ic' : Prop :=
  match o with
  | Some j => exists ip, r = Some ip /\ slot_for T ip j /\ table_of ic' = open_ref ip j T
  | None => r = None /\ table_of ic' = T
  end.
(** The name the caller is left with is the last element. *)
Definition left_name (parent : bool) (es : list (list Z)) (r : option nat * list Z) : Prop :=
  parent = true -> r.1 <> None -> exists e, last es = Some e /\ same_name r.2 e /\ bytes r.2.

Section loop.
Context (T : list (option (Z * Z))) (HT : refs_below (2 ^ 31 - 2) T) (Hfree : two_free T) (parent : bool).
#[local] Abbreviation post o es := (fun r s' => exists ic', fs_at ∅ L v ic' s' /\ cache_ok v [] ic' /\ resolved T o r.1 ic' /\ left_name parent es r).

(** Giving up in the directory. *)
Lemma namex_fails ic s ip inum es nm :
  fs_at ∅ L v ic s -> cache_ok v [ip] ic -> slot_for T ip inum -> table_of ic = open_ref ip inum T ->
  wp (iunlockput ip;;; ret (None, nm)) (post None es) s.
Proof.
  intros Hs Hc Hslot Ht. destruct (opened ic T ip inum Ht Hslot) as (i & Hip & _). rewrite wp_bind.
  eapply wp_mono; [eapply iunlockput_cache; [done|done|by apply not_elem_of_nil|by eapply lookup_lt_Some|]|].
  - rewrite Ht. replace (2 ^ 31) with (2 ^ 31 - 1 + 1) by lia. apply refs_below_open; [lia|]. intros k n r E. specialize (HT k n r E). lia.
  - intros [] s1 (ic1 & Hs1 & Hc1 & E1). apply wp_ret. exists ic1. split_and!; [done|done| |by intros _]. split; [done|]. by rewrite E1, Ht, close_open.
Qed.

Lemma below_open ip inum : refs_below (2 ^ 31 - 1) (open_ref ip inum T).
Proof. by apply opened_below. Qed.
(** No element is left. *)
Lemma namex_ends ic s ip inum nm :
  fs_at ∅ L v ic s -> cache_ok v [] ic -> slot_for T ip inum -> table_of ic = open_ref ip inum T ->
  wp (if parent then iput ip;;; ret (None, nm) else ret (Some ip, nm)) (post (target parent inum []) []) s.
Proof.
  intros Hs Hc Hslot Ht. destruct (opened ic T ip inum Ht Hslot) as (i & Hip & Ei & Hr). unfold left_name. destruct parent; cbn [target].
  - assert (i_ref i < 2 ^ 31 - 1) by (eapply table_below; [rewrite Ht; apply below_open|done|lia]).
    rewrite wp_bind. eapply wp_mono; [by eapply (iput_cache [] ic s ip i); [| |apply not_elem_of_nil| |lia]|]. intros [] s1 (ic1 & Hs1 & Hc1 & E1). apply wp_ret.
    exists ic1. split_and!; [done|done| |by intros _]. split; [done|]. by rewrite E1, Ht, close_open.
  - apply wp_ret. exists ic. split_and!; [done|done| |by intros ?]. by exists ip.
Qed.

(** The name of the element is looked up in the locked directory. *)
Lemma namex_next ic s ip inum i nm e :
  fs_at ∅ L v ic s -> cache_ok v [ip] ic -> slot_for T ip inum -> table_of ic = open_ref ip inum T ->
  ic !! ip = Some i -> i_inum i = inum -> i_disk i = disk_inode v inum -> is_dir v inum = true -> bytes nm -> same_name nm e ->
  wp (let! next := dirlookup devread ip nm in iunlockput ip;;; ret next) (fun r s' => exists ic', fs_at ∅ L v ic' s' /\ cache_ok v [] ic' /\
    match lookup_name (content v (node v inum)) e with
    | None => r = None /\ table_of ic' = T
    | Some (off, j) => exists nx, r = Some (nx, off) /\ slot_for T nx j /\ table_of ic' = open_ref nx j T
    end) s.
Proof.
  intros Hs Hc Hslot Ht Hip <- Hd Hdir Hb Hsame. pose proof (below_open ip (i_inum i)) as Hbel. pose proof (two_free_open T ip (i_inum i) Hfree) as Hone.
  rewrite <- Ht in Hbel, Hone. rewrite wp_bind. eapply wp_mono; [by eapply dirlookup_cache; [| |by left|..]|].
  intros r s1. pose proof (lookup_lt_Some _ _ _ Hip) as Hlt. destruct (lookup_name _ e) as [[off j]|].
  - intros (nx & ic1 & -> & Hs1 & Hc1 & Hlen & Hsl1 & Ht1). rewrite Ht in Hsl1, Ht1. rewrite wp_bind.
    eapply wp_mono; [eapply iunlockput_cache; [done|done|by apply not_elem_of_nil|lia|]|].
    + rewrite Ht1. replace (2 ^ 31) with (2 ^ 31 - 1 + 1) by lia. apply refs_below_open; [lia|]. apply below_open.
    + intros [] s2 (ic2 & Hs2 & Hc2 & E2). apply wp_ret. exists ic2. split_and!; [done|done|]. exists nx. split_and!; [done|by eapply slot_open|].
      rewrite E2, Ht1. by apply close_open_open.
  - intros [-> Hs1]. rewrite wp_bind. eapply wp_mono; [eapply iunlockput_cache; [done|done|by apply not_elem_of_nil|done|]|].
    + intros k n r E. specialize (Hbel k n r E). lia.
    + intros [] s2 (ic2 & Hs2 & Hc2 & E2). apply wp_ret. exists ic2. split_and!; [done|done|done|]. by rewrite E2, Ht, close_open.
Qed.
Lemma wp_regroup {A C D} (c : M (fs B) A) (d : M (fs B) C) (k : A -> M (fs B) D) Q s :
  wp (let! a := (let! a := c in d;;; ret a) in k a) Q s -> wp (let! a := c in d;;; k a) Q s.
Proof.
  rewrite !wp_bind. intros Hw. eapply wp_mono; [exact Hw|]. intros a s'. cbn beta. rewrite !wp_bind. intros Hw'.
  eapply wp_mono; [exact Hw'|]. intros x s''. by rewrite wp_ret.
Qed.

Lemma namex_loop_run fuel ic s ip inum path name :
  fs_at ∅ L v ic s -> cache_ok v [] ic -> slot_for T ip inum -> table_of ic = open_ref ip inum T ->
  length name = NAMELEN -> bytes name -> bytes path -> 0 ∉ path -> (length path <= fuel)%nat ->
  wp (namex_loop devread fuel ip parent path name) (post (target parent inum (elems path)) (elems path)) s.
Proof.
  revert ic s ip inum path name. induction fuel as [|fuel IH]; intros ic s ip inum path name Hs Hc Hslot Ht Hn Hb Hp Hz Hfuel;
    pose proof (skipelem_spec path name Hn Hb Hp Hz) as Hsk; cbn [namex_loop]; destruct (skipelem path name) as [[rest nm]|];
    try (rewrite Hsk; by eapply namex_ends); destruct Hsk as (e & -> & Hrest & Hsame & Hnm & Hbn & Hbr & Hzr & Hlen); [lia|].
  destruct (opened ic T ip inum Ht Hslot) as (i & Hip & Ei & Hr).
  rewrite wp_bind. eapply wp_mono; [by eapply ilock_cache; [| |apply not_elem_of_nil|..]|]. intros [] s1 (ic1 & i1 & Hs1 & Hc1 & Ht1 & Hip1 & Ei1 & Hd1). rewrite Ei in Ei1, Hd1. rewrite Ht in Ht1.
  rewrite wp_bind. eapply geti_wp; [exact Hs1|exact Hip1|]. change (i_type i1) with (d_type (i_disk i1)). rewrite Hd1. fold (is_dir v inum). cbn [target].
  destruct (is_dir v inum) eqn:Hdir; cbn [negb]; [|by eapply namex_fails].
  rewrite (bool_decide_ext _ _ Hrest). destruct (parent && bool_decide (elems rest = [])) eqn:Ep.
  - rewrite wp_bind. eapply wp_mono; [eapply iunlock_cache; [done|done|apply not_elem_of_nil|by eapply lookup_lt_Some]|]. intros [] s2 (ic2 & Hs2 & Hc2 & E2). apply wp_ret.
    exists ic2. split_and!; [done|done| |].
    + exists ip. split_and!; [done|done|]. by rewrite E2.
    + intros _ _. apply andb_true_iff in Ep as [_ Ee%bool_decide_eq_true]. exists e. by rewrite Ee.
  - apply wp_regroup. rewrite wp_bind. eapply wp_mono; [by eapply namex_next|]. intros r s2 (ic2 & Hs2 & Hc2 & Hr2).
    destruct (lookup_name _ e) as [[off j]|].
    + destruct Hr2 as (nx & -> & Hsl2 & Ht2). eapply wp_mono; [eapply (IH ic2); try done; lia|]. intros r s3 (ic3 & Hs3 & Hc3 & Hres & Hleft).
      exists ic3. split_and!; [done|done|done|]. intros HP HR. specialize (Hleft HP HR) as (e' & He' & Hs'). exists e'. split; [|done].
      destruct (elems rest); [done|]. done.
    + destruct Hr2 as [-> Ht2]. apply wp_ret. exists ic2. split_and!; [done|done|done|by intros _ []].
Qed.
End loop.
End ops.

(** Where the path starts: at the root, or at the current directory. *)
Definition starts ic (cwd : nat) (path : list Z) (inum : Z) : Prop :=
  if bool_decide (head path = Some SLASH) then inum = ROOTINO
  else exists c, ic !! cwd = Some c /\ cached ROOTDEV inum c.

Lemma namex_run L v ic s cwd path parent name inum :
  tree_ok v -> (size L + 3 <= txn_cap)%nat -> fs_at ∅ L v ic s -> cache_ok v [] ic ->
  refs_below (2 ^ 31 - 2) (table_of ic) -> two_free (table_of ic) -> starts ic cwd path inum ->
  length name = NAMELEN -> bytes name -> bytes path -> 0 ∉ path ->
  wp (namex devread cwd path parent name) (fun r s' => exists ic', fs_at ∅ L v ic' s' /\ cache_ok v [] ic' /\
    resolved (table_of ic) (target (v := v) parent inum (elems path)) r.1 ic' /\
    left_name parent (elems path) r) s.
Proof.
  intros Hv Hcap Hs Hc Hb Hfree Hst Hn Hbn Hp Hz. unfold namex. rewrite wp_bind. unfold starts in Hst.
  destruct (bool_decide (head path = Some SLASH)).
  - subst inum. eapply wp_mono; [apply (iget_wp sb me devread no_dev); [exact Hs|eapply (refs_room Hcap); [exact Hc| |]]|].
    + intros k n r E. specialize (Hb k n r E). lia.
    + destruct Hfree as (j & _ & _ & Hj & _). by exists j.
    + intros ip s1 (ic1 & Hgot & Hs1). destruct (got_cache Hcap _ _ _ _ _ Hc (tr_root v Hv) Hgot) as (Hc1 & Hsl & Ht).
      by eapply namex_loop_run.
  - destruct Hst as (c & Hcw & Hr & _ & <-). pose proof (table_below _ _ _ _ Hb Hcw ltac:(lia)).
    eapply wp_mono; [by eapply (idup_cache Hcap ic s cwd c); [| | |lia]|]. intros ip s1 (-> & ic1 & Hs1 & Hc1 & Hsl & Ht).
    by eapply namex_loop_run.
Qed.

(** Property C19: on a tree of directories, with two entries of the inode cache
    free, [namex] ends and returns the inode the elements of the path lead to
    from the root or the current directory, or for [nameiparent] the directory
    of the last element and its name; it returns null when an element is not
    there or is looked up in a file. The table of references is as before with
    one more to the inode returned, and no inode is left locked. *)
Theorem namex_resolves L v ic s cwd path parent name inum :
  tree_ok v -> (size L + 3 <= txn_cap)%nat -> fs_at ∅ L v ic s -> cache_ok v [] ic ->
  refs_below (2 ^ 31 - 2) (table_of ic) -> two_free (table_of ic) -> starts ic cwd path inum ->
  length name = NAMELEN -> bytes name -> bytes path -> 0 ∉ path ->
  wp (namex devread cwd path parent name) (fun r s' => exists ic', fs_at ∅ L v ic' s' /\ cache_ok v [] ic' /\
    resolved (table_of ic) (if parent then walk_parent v inum (elems path) else walk v inum (elems path)) r.1 ic' /\
    left_name parent (elems path) r) s.
Proof. intros. rewrite <- target_walk. by apply namex_run. Qed.
End paths.

Lemma lookup_name_entry c name off j : lookup_name c name = Some (off, j) -> j <> 0 /\ j ∈ de_inum <$> entries c.
Proof.
  unfold lookup_name. destruct (list_find _ _) as [[k d]|] eqn:E; [|done]. apply list_find_Some in E as (Hk & [Hnz _] & _).
  intros [= _ <-]. split; [done|]. apply list_elem_of_fmap. exists d. split; [done|]. by eapply list_elem_of_lookup_2.
Qed.

(** ** Paths in the small file system *)

Lemma tiny_used inum : in_use tiny_sb tiny_v inum -> inum = 1 \/ inum = 2.
Proof.
  intros [[H0 H1] Hty]. change (sb_ninodes tiny_sb) with 200 in H1. assert (inum ∈ seqZ 0 200) as Hin by (apply elem_of_seqZ; lia).
  assert (Forall (fun n => d_type (disk_inode tiny_sb tiny_v n) = 0 \/ n = 1 \/ n = 2) (seqZ 0 200)) as HF
    by (by apply (bool_decide_eq_true_1 (Forall _ _)); vm_compute).
  rewrite Forall_forall in HF. destruct (HF inum Hin) as [?|?]; done.
Qed.
Lemma tiny_tree : tree_ok tiny_sb 59 tiny_v.
Proof.
  pose proof tiny_file_env as [_ Hf2 Hme _]. pose proof root_dir_ok as [[_ Hf1 _ _] _ _ Hh Hby].
  split; [done|by vm_compute| | | |].
  - intros inum [-> | ->]%tiny_used; by vm_compute.
  - intros inum [-> | ->]%tiny_used; [eapply (file_ok_eq _ _ _ root_i)|eapply (file_ok_eq _ _ _ (tiny_inode 2 true tiny_file true))]; done || by vm_compute.
  - intros inum [-> | ->]%tiny_used Hdir; [|by vm_compute in Hdir].
    destruct (content_eq tiny_v root_i (node tiny_sb tiny_v 1)) as [-> Hh']; [by vm_compute..|].
    assert (i_size (node tiny_sb tiny_v 1) = 48) as -> by by vm_compute. split_and!; [by exists 3|by apply Hh'|done].
  - intros inum name off j [-> | ->]%tiny_used Hdir; [|exfalso; vm_compute in Hdir; discriminate Hdir]. intros [Hnz Hin]%lookup_name_entry.
    assert (de_inum <$> entries (content tiny_v (node tiny_sb tiny_v 1)) = [1; 1; 2]) as E by by vm_compute.
    rewrite E, !elem_of_cons in Hin. destruct Hin as [-> | [-> | [-> | Hin]]].
    all: (clear -Hin || clear).
    4: by apply not_elem_of_nil in Hin.
    all: by vm_compute.
Qed.

Definition tree_icache : list inode := replicate (Z.to_nat NINODE) zero_inode.
Definition tree_fs : fs log := {| f_blk := tiny_open; f_sb := tiny_sb; f_icache := tree_icache; f_me := 1 |}.

(** [namei("/.//../a")] and [nameiparent("/../a")] on it. *)
Lemma namex_resolves_witness :
  wp (namex (fun _ => None) 0 [47; 46; 47; 47; 46; 46; 47; 97] false (replicate NAMELEN 7)) (fun r s' => exists ip, r.1 = Some ip /\
    table_of (f_icache s') = open_ref ip 2 (table_of tree_icache)) tree_fs.
Proof.
  eapply wp_mono.
  - apply (namex_resolves tiny_sb 1 59 tiny_layout (fun _ => None) ∅ tiny_v tree_icache tree_fs 0 [47; 46; 47; 47; 46; 46; 47; 97] false
      (replicate NAMELEN 7) 1 tiny_tree).
    + rewrite size_empty. apply Nat.leb_le. by vm_compute.
    + destruct tiny_at as [_ _ _ Hb]. split; [reflexivity..|exact Hb].
    + intros k i [-> _]%lookup_replicate. by split_and!.
    + intros k n r E. apply table_lookup in E as (i & [-> _]%lookup_replicate & E). done.
    + by exists 0%nat, 1%nat.
    + done.
    + done.
    + by apply (bool_decide_eq_true_1 (Forall is_u8 _)).
    + by apply (bool_decide_eq_true_1 (Forall is_u8 _)).
    + apply (bool_decide_eq_true_1 (0 ∉ _)). by vm_compute.
  - intros r s' (ic' & Hs' & _ & Hres & _).
    assert (walk tiny_sb tiny_v 1 (elems [47; 46; 47; 47; 46; 46; 47; 97]) = Some 2) as E by by vm_compute. cbn beta iota in Hres. rewrite E in Hres.
    destruct Hres as (ip & -> & _ & Ht). exists ip. split; [done|]. by rewrite (fa_ic _ _ _ _ _ _ _ Hs').
Defined.
