(* ===== verification/FsCreate.v ===== *)
(** * FsCreate: making a file (create of sysfile.c, ialloc of fs.c)

    [create] adds a file, a device or a directory to a tree of directories: the
    path leads to a fresh inode afterwards, every path that led to an inode still
    does, the other files are as before and the tree is again in order. *)

From stdpp Require Import base list numbers gmap strings.
From S2P Require Import Prelude Bytes Params Sleeplock Bio Log Blocks Fs FsInv FsDemo FsInode FsMap FsFile File FileData Sysfile FsDir FsPath.

Local Open Scope Z_scope.
Local Open Scope os_scope.

Section create.
Context {B : Type} `{BlockLaws B} `{TxnOps B} (sb : superblock) (me dstart : Z) (Hlay : layout sb dstart).
Context (devread : Z -> option (nat -> Z -> M (fs B) (Z * list Z))).
Context (devwrite : Z -> option (nat -> list Z -> M (fs B) Z)).
Implicit Types (s : fs B) (L : gset Z) (v : Z -> list Z) (ic : list inode) (i : inode).
#[local] Abbreviation fs_at := (fs_at sb me).
#[local] Abbreviation disk_inode := (disk_inode sb).
#[local] Abbreviation node := (node sb).
#[local] Abbreviation in_use := (in_use sb).
#[local] Abbreviation is_dir := (is_dir sb).
#[local] Abbreviation used := (used sb).
#[local] Abbreviation file_ok := (file_ok sb dstart).
#[local] Abbreviation bm := (bm sb).

(** ** Files whose blocks do not change *)

Section frame.
Context {v v' : Z -> list Z} {i : inode} (Hf : file_ok v i) (Hown : forall b, own v i b -> v' b = v b)
  (Hused : forall b, own v i b -> used v' b = true).

Lemma frame_addr bn : addr_at v' i bn = addr_at v i bn.
Proof.
  unfold addr_at. destruct (bn <? NDIRECT); [done|]. destruct (Z.eqb_spec (ind_addr i) 0); [done|].
  rewrite Hown; [done|]. split; [done|by left].
Qed.
Lemma frame_file : file_ok v' i.
Proof.
  assert (forall a, ref_ok sb dstart v a -> (a <> 0 -> own v i a) -> ref_ok sb dstart v' a) as Hr.
  { intros a [?|[Hd Hu]] Ho; [by left|]. destruct (decide (a = 0)); [by left|right]. split; [done|]. by apply Hused, Ho. }
  destruct Hf as [? ? ? ? Hi Hd Hj Hn]. split; try done.
  - apply Hr; [done|]. intros Ha. split; [done|by left].
  - intros bn Hbn. rewrite frame_addr. apply Hr; [by apply Hd|]. intros Ha. split; [done|]. right. by exists bn.
  - intros b1 b2. rewrite !frame_addr. apply Hj.
  - intros bn. rewrite frame_addr. apply Hn.
Qed.
Lemma frame_own b : own v' i b <-> own v i b.
Proof.
  unfold own. split; intros [Hb [?|(bn & Hbn & E)]]; (split; [done|]); [by left| |by left|]; right; exists bn; (split; [done|]).
  - by rewrite <- frame_addr.
  - by rewrite frame_addr.
Qed.
Lemma frame_full : no_holes v i (i_size i) -> no_holes v' i (i_size i) /\ content v' i = content v i.
Proof.
  intros Hh. pose proof (fo_size _ _ _ _ Hf) as Hsz. split.
  - intros bn Hb1 Hb2. rewrite frame_addr. by apply Hh.
  - unfold content. apply list_fmap_ext. intros k o Hk%lookup_seqZ. unfold byte_at. rewrite frame_addr.
    assert (addr_at v i (o / BSIZE) <> 0) as Ha by (apply (no_holes_at _ _ _ (i_size i)); [done|lia]).
    rewrite Hown; [done|]. split; [done|]. right. exists (o / BSIZE). split; [|done]. apply (bn_range o (i_size i)); lia.
Qed.
End frame.

(** ** The file system *)

(** The tree, and files that do not share blocks; inode 0 is not used. *)
Record fs_ok v : Prop := {
  fk_tree : tree_ok sb dstart v;
  fk_zero : ~ in_use v 0;
  fk_full inum : in_use v inum -> no_holes v (node v inum) (i_size (node v inum));
  fk_apart m n b : in_use v m -> in_use v n -> m <> n -> own v (node v m) b -> ~ own v (node v n) b
}.
(** What is read from the disk fits its fields. *)
Lemma i16_fits z : is_i16 (i16 z).
Proof. unfold is_i16, i16. change (2 ^ 15) with 32768. change (2 ^ 16) with 65536. pose proof (Z.mod_pos_bound (z + 32768) 65536). lia. Qed.
Lemma fs_wf v n : fs_ok v -> in_use v n -> dinode_wf (disk_inode v n).
Proof.
  intros Hv Hn. pose proof (tr_file _ _ _ (fk_tree v Hv) n Hn) as Hf. split; try apply i16_fits.
  - pose proof (fo_size _ _ _ _ Hf) as Hs. change (i_size (node v n)) with (d_size (disk_inode v n)) in Hs. change (MAXFILE * BSIZE) with 71680 in Hs. unfold is_u32. lia.
  - done.
  - exact (addrs_u32 sb dstart Hlay v (node v n) Hf).
Qed.
(** Inode [n] and its file are the same. *)
Definition kept v v' (n : Z) : Prop := disk_inode v' n = disk_inode v n /\ content v' (node v' n) = content v (node v n).
(** The inode a name stands for in directory [n]. *)
Definition child v (n : Z) (name : list Z) : option Z := snd <$> lookup_name (content v (node v n)) name.

Lemma use_pos v n : fs_ok v -> in_use v n -> 0 < n.
Proof. intros Hv Hn. destruct (decide (n = 0)) as [->|]; [by apply (fk_zero v Hv) in Hn|]. destruct Hn as [[? _] _]. lia. Qed.
Lemma node_eq v v' n : disk_inode v' n = disk_inode v n -> node v' n = node v n.
Proof. intros E. unfold FsPath.node. by rewrite E. Qed.

(** The inodes but [m] are framed, [m] is in order: the file system is. *)
Section change.
Context {v v' : Z -> list Z} (Hv : fs_ok v) (m : Z).
Context (Hdisk : forall n, in_use v n -> n <> m -> disk_inode v' n = disk_inode v n)
  (Huse : forall n, in_use v' n -> in_use v n \/ n = m) (Hm : in_use v' m)
  (Hframe : forall n b, in_use v n -> n <> m -> own v (node v n) b -> v' b = v b)
  (Hused : forall b, 0 <= b < BPB -> used v b = true -> used v' b = true).

Lemma change_use n : in_use v n -> in_use v' n.
Proof. intros [Hn Ht]. destruct (decide (n = m)) as [->|]; [done|]. split; [done|]. by rewrite Hdisk. Qed.
Lemma change_cases n : in_use v' n -> n = m \/ n <> m /\ in_use v n.
Proof. intros Hn. destruct (decide (n = m)); [by left|right]. by destruct (Huse n Hn). Qed.
Lemma change_kept n : in_use v n -> n <> m -> kept v v' n.
Proof.
  intros Hn Hne. pose proof (Hdisk n Hn Hne) as E. split; [done|]. rewrite (node_eq v v' n E).
  apply (frame_full (tr_file _ _ _ (fk_tree v Hv) n Hn)); [intros b; by apply (Hframe n)|]. by apply (fk_full v Hv).
Qed.
Lemma change_fs :
  m <> 0 -> d_nlink (disk_inode v' m) <> 0 -> file_ok v' (node v' m) -> no_holes v' (node v' m) (i_size (node v' m)) ->
  (is_dir v' m = true -> (exists k, i_size (node v' m) = DIRENTSZ * k) /\ bytes (content v' (node v' m)) /\
    forall name off j, lookup_name (content v' (node v' m)) name = Some (off, j) -> in_use v' j) ->
  (forall b, own v' (node v' m) b -> in_use v m /\ own v (node v m) b \/ used v b = false) ->
  fs_ok v'.
Proof.
  intros Hm0 Hl Hf Hh Hd Ho. pose proof (fk_tree v Hv) as HT.
  assert (forall n, in_use v n -> n <> m -> node v' n = node v n) as En by (intros n Hn Hne; by apply node_eq, Hdisk).
  assert (forall n b, in_use v n -> n <> m -> own v' (node v' n) b <-> own v (node v n) b) as Eo.
  { intros n b Hn Hne. rewrite En by done. apply frame_own. intros b'. by apply (Hframe n). }
  assert (forall n b, in_use v n -> n <> m -> own v' (node v' m) b -> ~ own v (node v n) b) as Hap.
  { intros n b Hn Hne Hb Hb'. destruct (Ho b Hb) as [[Hin Hbm]|Hu]; [by apply (fk_apart v Hv m n b)|].
    destruct (own_range sb dstart Hlay _ _ _ (tr_file _ _ _ HT n Hn) Hb'). congruence. }
  split; [split|..].
  - eapply (meta_used_mono sb dstart Hlay v v'); [done|apply HT].
  - apply change_use, HT.
  - intros n [->|[Hne Hn]]%change_cases; [done|]. rewrite Hdisk by done. by apply HT.
  - intros n [->|[Hne Hn]]%change_cases; [done|]. rewrite En by done. apply (frame_file (tr_file _ _ _ HT n Hn)); [intros b; by apply (Hframe n)|].
    intros b Hb. apply Hused; by apply (own_range sb dstart Hlay _ _ _ (tr_file _ _ _ HT n Hn)).
  - intros n [->|[Hne Hn]]%change_cases Hdir; [by destruct (Hd Hdir) as (? & ? & _)|]. destruct (change_kept n Hn Hne) as [E Ec].
    unfold FsPath.is_dir in Hdir. rewrite E in Hdir. destruct (tr_dir _ _ _ HT n Hn Hdir) as (? & ? & ?). rewrite Ec, En by done. split_and!; [done| |done].
    apply (frame_full (tr_file _ _ _ HT n Hn)); [|done]. intros b. by apply (Hframe n).
  - intros n name off j [->|[Hne Hn]]%change_cases Hdir; [by apply Hd|]. destruct (change_kept n Hn Hne) as [E Ec].
    unfold FsPath.is_dir in Hdir. rewrite E in Hdir. rewrite Ec. intros Hj. apply change_use. by eapply (tr_entry _ _ _ HT n).
  - intros [E|Hz]%Huse; [by apply (fk_zero v Hv)|done].
  - intros n [->|[Hne Hn]]%change_cases; [done|]. rewrite En by done. apply (frame_full (tr_file _ _ _ HT n Hn)); [|by apply (fk_full v Hv)]. intros b. by apply (Hframe n).
  - intros m1 n1 b [->|[Hne1 Hn1]]%change_cases [->|[Hne2 Hn2]]%change_cases Hne; [done|..]; intros Hb1 Hb2.
    + rewrite Eo in Hb2 by done. by apply (Hap n1 b).
    + rewrite Eo in Hb1 by done. by apply (Hap m1 b).
    + rewrite Eo in Hb1, Hb2 by done. by apply (fk_apart v Hv m1 n1 b).
Qed.
End change.

(** An empty file in a free inode. *)
Definition empty_file (x : dinode) : Prop :=
  dinode_wf x /\ d_type x <> 0 /\ d_nlink x <> 0 /\ d_size x = 0 /\ d_addrs x = replicate 13 0.

Lemma empty_addr v n x bn : empty_file x -> disk_inode v n = x -> addr_at v (node v n) bn = 0 /\ ind_addr (node v n) = 0.
Proof.
  intros (_ & _ & _ & _ & Ha) E. assert (i_addrs (node v n) = replicate 13 0) as E' by (change (i_addrs (node v n)) with (d_addrs (disk_inode v n)); by rewrite E).
  assert (ind_addr (node v n) = 0) as Ei by (unfold ind_addr; by rewrite E'). split; [|done]. unfold addr_at. rewrite Ei, E'.
  destruct (bn <? NDIRECT); [|done]. rewrite nth_lookup. destruct (replicate 13 0 !! _) eqn:El; [|done]. by apply lookup_replicate in El as [-> _].
Qed.
Lemma put_inode_ne v n x b : b <> IBLOCK n sb -> put_inode sb v n x b = v b.
Proof. intros Hb. unfold put_inode. by rewrite fupd_ne. Qed.
Lemma put_inode_used v n x b : inum_ok sb n -> used (put_inode sb v n x) b = used v b.
Proof. intros Hn. unfold FsInv.used. rewrite put_inode_ne; [done|]. apply not_eq_sym. by apply (iblock_meta sb dstart Hlay). Qed.

Lemma new_inode v n x :
  fs_ok v -> inum_ok sb n -> n <> 0 -> ~ in_use v n -> empty_file x -> block (v (IBLOCK n sb)) ->
  let v' := put_inode sb v n x in
  fs_ok v' /\ disk_inode v' n = x /\ content v' (node v' n) = [] /\ (forall m, in_use v m -> kept v v' m) /\ (forall m, in_use v' m <-> in_use v m \/ m = n).
Proof.
  intros Hv Hn Hn0 Hno Hx Hb v'. pose proof Hx as (Hwf & Ht & Hl & Hsz & Ha).
  assert (disk_inode v' n = x) as En by (by apply disk_inode_put).
  assert (forall m, inum_ok sb m -> m <> n -> disk_inode v' m = disk_inode v m) as Ed.
  { intros m Hm Hne. destruct Hn, Hm. by apply disk_inode_put_ne. }
  assert (in_use v' n) as Hin by (split; [done|by rewrite En]).
  assert (forall m, in_use v m -> m <> n) as Hne by (intros m Hm ->; done).
  assert (forall m, in_use v m -> m <> n -> disk_inode v' m = disk_inode v m) as Hd by (intros m [Hm _]; by apply Ed).
  assert (forall m, in_use v' m -> in_use v m \/ m = n) as Hu.
  { intros m [Hm Hmt]. destruct (decide (m = n)); [by right|left]. split; [done|]. by rewrite <- Ed. }
  assert (forall m b, in_use v m -> m <> n -> own v (node v m) b -> v' b = v b) as Hf.
  { intros m b Hm _ Hown. apply put_inode_ne. intros ->. eapply (meta_not_own sb dstart); [by apply (tr_file _ _ _ (fk_tree v Hv) m)| |done].
    by apply (iblock_meta sb dstart Hlay). }
  assert (forall b, 0 <= b < BPB -> used v b = true -> used v' b = true) as Hus by (intros b _; unfold v'; by rewrite put_inode_used).
  assert (forall bn, addr_at v' (node v' n) bn = 0) as Hadr by (intros bn; by eapply empty_addr).
  assert (ind_addr (node v' n) = 0) as Hind by (by eapply (empty_addr _ _ x 0)).
  assert (i_size (node v' n) = 0) as Es by (change (i_size (node v' n)) with (d_size (disk_inode v' n)); by rewrite En).
  assert (content v' (node v' n) = []) as Ec by (unfold content; by rewrite Es).
  split_and!; [|done|done| |].
  - eapply (change_fs Hv n); try done.
    + by rewrite En.
    + split.
      * done.
      * exact Hn.
      * change (i_addrs (node v' n)) with (d_addrs (disk_inode v' n)). rewrite En, Ha. done.
      * rewrite Es. done.
      * rewrite Hind. by left.
      * intros bn _. rewrite Hadr. by left.
      * intros b1 b2 _ _. by rewrite Hadr.
      * intros b1 _. by rewrite Hadr.
    + intros bn Hb1 Hb2. rewrite Es in Hb2. change BSIZE with 512 in *. lia.
    + intros _. rewrite Es, Ec. split_and!; [by exists 0|by apply Forall_nil|done].
    + intros b [Hb0 [E|(bn & _ & E)]]; [by rewrite Hind in E|by rewrite Hadr in E].
  - intros m Hm. eapply (change_kept Hv n); try done. by apply Hne.
  - intros m. split; [apply Hu|]. intros [Hm| ->]; [|done]. split; [apply Hm|]. rewrite Hd; [apply Hm|done|by apply Hne].
Qed.

Lemma own_eq v i j b : i_addrs j = i_addrs i -> own v j b <-> own v i b.
Proof. destruct i, j; cbn. by intros ->. Qed.

(** The count of links of an inode. *)
Lemma relink v n x :
  fs_ok v -> in_use v n -> dinode_wf x -> d_nlink x <> 0 -> d_type x = d_type (disk_inode v n) -> d_size x = d_size (disk_inode v n) ->
  d_addrs x = d_addrs (disk_inode v n) -> block (v (IBLOCK n sb)) ->
  let v' := put_inode sb v n x in
  fs_ok v' /\ disk_inode v' n = x /\ content v' (node v' n) = content v (node v n) /\ (forall m, in_use v m -> m <> n -> kept v v' m) /\
  (forall m, in_use v' m <-> in_use v m).
Proof.
  intros Hv [Hn Hnt] Hwf Hl Et Es Ea Hb v'. pose proof (fk_tree v Hv) as HT. assert (in_use v n) as Hin by done.
  assert (disk_inode v' n = x) as En by (by apply disk_inode_put).
  assert (forall m, inum_ok sb m -> m <> n -> disk_inode v' m = disk_inode v m) as Ed by (intros m Hm Hne; destruct Hn, Hm; by apply disk_inode_put_ne).
  assert (forall m, in_use v' m <-> in_use v m) as Hu.
  { intros m. unfold FsPath.in_use. destruct (decide (m = n)) as [->|Hne]; [by rewrite En, Et|]. split; intros [Hm Hmt]; (split; [done|]); [by rewrite <- Ed|by rewrite Ed]. }
  assert (forall m b, in_use v m -> own v (node v m) b -> v' b = v b) as Hf.
  { intros m b Hm Hown. apply put_inode_ne. intros ->. eapply (meta_not_own sb dstart); [by apply (tr_file _ _ _ HT m)| |done]. by apply (iblock_meta sb dstart Hlay). }
  assert (forall b, 0 <= b < BPB -> used v b = true -> used v' b = true) as Hus by (intros b _; unfold v'; by rewrite put_inode_used).
  assert (i_size (node v' n) = i_size (node v n) /\ i_addrs (node v' n) = i_addrs (node v n)) as [Es' Ea'].
  { change (d_size (disk_inode v' n) = d_size (disk_inode v n) /\ d_addrs (disk_inode v' n) = d_addrs (disk_inode v n)). by rewrite En. }
  destruct (frame_full (v' := v') (tr_file _ _ _ HT n Hin) ltac:(intros b; by apply Hf) ltac:(by apply (fk_full v Hv))) as [Hh Hc].
  destruct (content_eq v' (node v n) (node v' n) Es' Ea') as [Ec' Eh'].
  assert (forall m, in_use v m -> m <> n -> disk_inode v' m = disk_inode v m) as Hd by (intros m [Hm _]; by apply Ed).
  assert (forall m, in_use v' m -> in_use v m \/ m = n) as Hu1 by (intros m Hm; left; by apply Hu).
  assert (forall m b, in_use v m -> m <> n -> own v (node v m) b -> v' b = v b) as Hf1 by (intros m b Hm _; by apply Hf).
  split_and!; [|done|by rewrite Ec'|intros m Hm Hne; by eapply (change_kept Hv n)|done].
  pose proof (use_pos v n Hv Hin). assert (n <> 0) as Hn0 by lia. eapply (change_fs Hv n); try done; rewrite ?En, ?Es', ?Ec', ?Hc; try done.
  - by apply Hu.
  - eapply (file_ok_eq sb dstart v' (node v n)); try done. apply (frame_file (tr_file _ _ _ HT n Hin)); [intros b; by apply Hf|].
    intros b Hob. apply Hus; by apply (own_range sb dstart Hlay _ _ _ (tr_file _ _ _ HT n Hin)).
  - by apply Eh'.
  - unfold FsPath.is_dir. rewrite En, Et. fold (is_dir v n). intros Hdir. destruct (tr_dir _ _ _ HT n Hin Hdir) as (? & _ & ?). split_and!; [done|done|].
    intros name off j Hj. apply Hu. by eapply (tr_entry _ _ _ HT n).
  - intros b Hob. left. split; [done|]. rewrite (own_eq v' (node v n)) in Hob by done. apply (frame_own (v := v) (v' := v')) in Hob; [done|]. intros b'. by apply Hf.
Qed.

(** A new entry in a directory. *)
Lemma disk_fields i v n : i_disk i = disk_inode v n -> i_size i = i_size (node v n) /\ i_addrs i = i_addrs (node v n) /\ i_type i = i_type (node v n).
Proof. unfold FsPath.node. intros <-. by destruct i. Qed.

(** A write to a file leaves the blocks of the others alone. *)
Lemma written_frame v d v' d' off src m b :
  fs_ok v -> in_use v (i_inum d) -> i_disk d = disk_inode v (i_inum d) -> written sb dstart v d v' d' off src ->
  in_use v m -> m <> i_inum d -> own v (node v m) b -> v' b = v b.
Proof.
  intros Hv Hdp Hdd Hw Hm Hne Hown. pose proof (tr_file _ _ _ (fk_tree v Hv) m Hm) as Hf.
  destruct (own_range sb dstart Hlay _ _ _ Hf Hown) as [_ Hu].
  assert (is_data sb dstart b) as Hd.
  { destruct Hown as [Hb0 Ho]. assert (ref_ok sb dstart v b) as [?|[? _]] by (destruct Ho as [->|(bn & Hbn & ->)]; by apply Hf); done. }
  apply (wr_frame _ _ _ _ _ _ _ _ Hw).
  - by apply Hlay.
  - done.
  - intros Hd'. rewrite (own_eq v (node v (i_inum d)) d) in Hd' by (by apply disk_fields). by apply (fk_apart v Hv m (i_inum d) b).
  - by eapply data_ne_bm.
  - intros ->. destruct (iblock_meta sb dstart Hlay (i_inum d)) as [? _]; [apply Hdp|]. unfold is_data in Hd. lia.
Qed.

Section link.
Context {v v' : Z -> list Z} {ic : list inode} {dp : nat} {d d' : inode} {nm : list Z} {n : Z}.
Context (Hv : fs_ok v) (Hdp : in_use v (i_inum d)) (Hdir : is_dir v (i_inum d) = true) (Hdd : i_disk d = disk_inode v (i_inum d))
  (Hok : dir_ok sb dstart v ic dp d) (Hnm : bytes nm) (Hn : in_use v n) (Hn0 : 0 < n) (Hnone : lookup_name (content v d) nm = None)
  (Hw : written sb dstart v d v' d' (DIRENTSZ * Z.of_nat (free_slot (content v d))) (mk_dirent nm n)).

Lemma linked_disk m : inum_ok sb m -> disk_inode v' m = if decide (m = i_inum d) then i_disk d' else disk_inode v m.
Proof.
  intros Hm. rewrite (wr_disk _ _ _ _ _ _ _ _ Hw) by done. destruct (decide (m = i_inum d)) as [->|Hne].
  - destruct (decide (_ /\ _)) as [_|Hno]; [done|]. rewrite (wr_same _ _ _ _ _ _ _ _ Hw); [done|]. lia.
  - destruct (decide (_ /\ _)) as [[? _]|]; done.
Qed.
Lemma linked_use m : in_use v' m <-> in_use v m.
Proof.
  assert (i_type d' = i_type d) as Et by (by rewrite (wr_inode _ _ _ _ _ _ _ _ Hw)).
  unfold FsPath.in_use. split; intros [Hm Ht]; (split; [done|]); rewrite linked_disk in * by done; destruct (decide (m = i_inum d)) as [->|]; try done.
  - by apply Hdp.
  - change (d_type (i_disk d')) with (i_type d'). rewrite Et. change (i_type d) with (d_type (i_disk d)). by rewrite Hdd.
Qed.
(** The directory holds the new name besides the old ones. *)
Lemma linked_child name : child v' (i_inum d) name = if decide (same_name name nm) then Some n else child v (i_inum d) name.
Proof.
  destruct (disk_fields d v (i_inum d) Hdd) as (Es & Ea & _). destruct (content_eq v _ _ Es Ea) as [Ec _].
  assert (i_disk d' = disk_inode v' (i_inum d)) as Ed by (rewrite linked_disk by apply Hdp; by rewrite decide_True).
  destruct (disk_fields d' v' (i_inum d) Ed) as (Es' & Ea' & _). destruct (content_eq v' _ _ Es' Ea') as [Ec' _].
  unfold child. rewrite <- Ec, <- Ec'. destruct (written_dir sb dstart Hlay v ic dp d v' d' _ nm n Hok Hnm (free_slot_le _) Hw) as [_ ->].
  rewrite (lookup_name_link (content v d) nm n (length (entries (content v d)))); [| |split; [done|]|done].
  - by destruct (decide (same_name name nm)).
  - by eapply length_dir.
  - destruct Hn as [[_ ?] _]. pose proof (lay_ninodes _ _ Hlay). lia.
Qed.

Lemma linked_size : i_size d' <= i_size d + DIRENTSZ.
Proof.
  pose proof (length_dir sb dstart Hok) as Hl. pose proof (length_content sb dstart Hok) as Hlc. pose proof (free_slot_le (content v d)) as Hle.
  change DIRENTSZ with 16. change ENTLEN with 16%nat in Hl. pose proof (fo_size _ _ _ _ (fe_file _ _ _ _ _ _ _ (do_env _ _ _ _ _ _ Hok))) as Hsz.
  rewrite (written_size sb dstart v d v' d' _ _ Hw) by (change DIRENTSZ with 16; lia). rewrite length_mk_dirent. change DIRENTSZ with 16. change (Z.of_nat ENTLEN) with 16. lia.
Qed.
Lemma linked : fs_ok v' /\ forall m, in_use v m -> m <> i_inum d -> kept v v' m.
Proof.
  assert (in_use v' (i_inum d)) as Hin by (by apply linked_use).
  assert (forall m, in_use v m -> m <> i_inum d -> disk_inode v' m = disk_inode v m) as Hd by (intros m [Hm _] Hne; rewrite linked_disk by done; by rewrite decide_False).
  assert (disk_inode v' (i_inum d) = i_disk d') as Ed by (rewrite linked_disk by apply Hdp; by rewrite decide_True).
  destruct (disk_fields d' v' (i_inum d) (eq_sym Ed)) as (Es' & Ea' & _). destruct (content_eq v' d' _ (eq_sym Es') (eq_sym Ea')) as [Ec' Eh'].
  destruct (written_dir sb dstart Hlay v ic dp d v' d' _ nm n Hok Hnm (free_slot_le _) Hw) as [Hok' _].
  assert (i_dev d' = i_dev d /\ i_inum d' = i_inum d /\ i_nlink d' = i_nlink d /\ i_major d' = i_major d /\ i_minor d' = i_minor d /\ i_type d' = i_type d) as (W1 & W2 & W3 & W4 & W5 & W6)
    by (by rewrite (wr_inode _ _ _ _ _ _ _ _ Hw)).
  pose proof (wr_used _ _ _ _ _ _ _ _ Hw) as Hus.
  assert (forall m, in_use v' m -> in_use v m \/ m = i_inum d) as Hu by (intros m Hm; left; by apply linked_use).
  pose proof (fo_size _ _ _ _ (fe_file _ _ _ _ _ _ _ (do_env _ _ _ _ _ _ Hok'))) as Hsz.
  split; [|intros m Hm Hne; eapply (change_kept Hv (i_inum d)); try done; intros; by eapply written_frame].
  pose proof (use_pos v (i_inum d) Hv Hdp) as Hpos. assert (i_inum d <> 0) as Hdn0 by lia.
  eapply (change_fs Hv (i_inum d)); try done.
  - intros m b. by eapply written_frame.
  - rewrite Ed. change (d_nlink (i_disk d')) with (i_nlink d'). rewrite W3. change (i_nlink d) with (d_nlink (i_disk d)). rewrite Hdd. by apply (fk_tree v Hv).
  - eapply (file_ok_eq sb dstart v' d'); [|by rewrite W2|done|done|apply Hok']. rewrite W1. apply eq_sym, Hok.
  - rewrite <- Es'. apply Eh', Hok'.
  - intros _. rewrite <- Es', Ec'. split_and!; [apply Hok'|apply Hok'|]. intros name off j Hj. rewrite <- Ec' in Hj. apply linked_use.
    pose proof (linked_child name) as Hc. unfold child in Hc. rewrite Hj in Hc. change (snd <$> Some (off, j)) with (Some j) in Hc. destruct (decide (same_name name nm)); [by injection Hc as ->|].
    destruct (lookup_name (content v (node v (i_inum d))) name) as [[off' j']|] eqn:El; [|done]. injection Hc as ->. exact (tr_entry _ _ _ (fk_tree v Hv) _ name off' j' Hdp Hdir El).
  - intros b Hb. rewrite (own_eq v' d') in Hb by done. destruct (wr_own _ _ _ _ _ _ _ _ Hw b Hb) as [Ho|Ho]; [left|by right]. split; [done|].
    rewrite (own_eq v d); [done|]. symmetry. by apply disk_fields.
Qed.
End link.

(** Paths still lead where they led. *)
Lemma walk_mono v v' n es j :
  tree_ok sb dstart v -> in_use v n ->
  (forall m, in_use v m -> is_dir v m = true -> is_dir v' m = true /\ forall name k, child v m name = Some k -> child v' m name = Some k) ->
  walk sb v n es = Some j -> walk sb v' n es = Some j.
Proof.
  intros Ht Hn Hm. revert n Hn. induction es as [|e es IH]; intros n Hn; [done|]. cbn [walk].
  destruct (is_dir v n) eqn:Hd; [|done]. destruct (Hm n Hn Hd) as [-> Hch]. specialize (Hch e). unfold child in Hch.
  destruct (lookup_name (content v (node v n)) e) as [[off k]|] eqn:El; [|done]. specialize (Hch k eq_refl).
  destruct (lookup_name (content v' (node v' n)) e) as [[off' k']|]; [|done]. injection Hch as ->. apply IH. by eapply (tr_entry _ _ _ Ht n).
Qed.
Lemma walk_snoc v n es e : walk sb v n (es ++ [e]) = match walk sb v n es with
  | Some d => if is_dir v d then child v d e else None
  | None => None
  end.
Proof.
  revert n. induction es as [|x es IH]; intros n; cbn [walk app].
  - unfold child. destruct (is_dir v n); [|done]. by destruct (lookup_name _ e) as [[off k]|].
  - destruct (is_dir v n); [|done]. destruct (lookup_name _ x) as [[off k]|]; [|done]. apply IH.
Qed.

(** ** Allocating an inode *)

Definition free_inode v (n : Z) : Prop := 1 <= n < sb_ninodes sb /\ get16 (v (IBLOCK n sb)) (inode_off n) = 0.
Lemma free_not_used v n : free_inode v n -> inum_ok sb n /\ ~ in_use v n.
Proof.
  intros [Hn E]. split; [split; lia|]. intros [_ Ht]. apply Ht. unfold FsInode.disk_inode, get_dinode. cbn [d_type]. by rewrite E.
Qed.

Lemma ialloc_from_run fuel L v ic s n type :
  fs_at ∅ L v ic s -> 1 <= n -> (exists m, n <= m /\ free_inode v m) -> sb_ninodes sb - n <= Z.of_nat fuel ->
  (size L + 1 <= txn_cap)%nat -> (forall m, iget_room ic ROOTDEV m) ->
  wp (ialloc_from fuel ROOTDEV n type) (fun ip s' => exists m ic', free_inode v m /\ got ic ROOTDEV m ip ic' /\
    fs_at ∅ ({[IBLOCK m sb]} ∪ L) (put_inode sb v m (zero_dinode type)) ic' s') s.
Proof.
  revert s n. induction fuel as [|fuel IH]; intros s n Hs Hn (m & Hm & Hf) Hfuel Hcap Hroom; [destruct Hf as [? _]; lia|].
  pose proof Hf as [Hmr _]. assert (inum_ok sb n) as Hin by (split; lia). pose proof (home_range _ (lay_inode _ _ Hlay _ Hin)) as Hr.
  cbn [ialloc_from]. rewrite wp_bind. eapply sb_wp; [done|]. rewrite (proj2 (Z.ltb_lt _ _)) by lia. rewrite wp_bind.
  eapply wp_mono; [eapply (read_wp sb me Hs (IBLOCK n sb)); [lia|by apply not_held_empty|rewrite map_size_empty; lia|lia]|]. intros bp s1 [_ Hs1].
  assert (<[bp := (IBLOCK n sb, false)]> (∅ : gmap nat (Z * bool)) !! bp = Some (IBLOCK n sb, false)) as Hbp by (by rewrite lookup_insert_eq).
  rewrite wp_bind. eapply wp_mono; [by eapply (get_wp sb me Hs1)|]. intros dd s2 [-> ->]. destruct (Z.eqb_spec (get16 (v (IBLOCK n sb)) (inode_off n)) 0) as [Hz|Hz].
  - rewrite wp_bind. eapply wp_mono; [eapply (set_wp sb me Hs1); [done|]|].
    { unfold block, put_dinode. rewrite length_splice. by apply (fs_block _ _ _ _ _ _ _ (IBLOCK n sb) Hs). }
    intros [] s3 Hs3. rewrite insert_insert_eq in Hs3. rewrite wp_bind. pose proof (size_union_le {[IBLOCK n sb]} L) as Hsz. rewrite size_singleton in Hsz.
    eapply wp_mono; [eapply (log_wp sb me Hs3); [by rewrite lookup_insert_eq|by apply Hlay|lia]|].
    intros [] s4 Hs4. rewrite insert_insert_eq in Hs4. rewrite wp_bind. eapply wp_mono; [eapply (release_wp sb me Hs4); by rewrite lookup_insert_eq|].
    intros [] s5 Hs5. rewrite delete_insert_id in Hs5 by (by rewrite lookup_empty).
    eapply wp_mono; [apply (iget_wp sb me devread devwrite); [exact Hs5|apply Hroom]|]. intros ip s6 (ic' & Hg & Hs6). exists n, ic'. split_and!; [|done|done]. split; [lia|done].
  - rewrite wp_bind. eapply wp_mono; [eapply (release_wp sb me Hs1); by rewrite lookup_insert_eq|]. intros [] s3 Hs3. rewrite delete_insert_id in Hs3 by (by rewrite lookup_empty).
    apply IH; [done|lia| |lia|done|done]. exists m. split; [|done]. destruct (decide (m = n)) as [->|]; [|lia]. by destruct Hf.
Qed.
Lemma ialloc_run L v ic s type :
  fs_at ∅ L v ic s -> (exists m, free_inode v m) -> (size L + 1 <= txn_cap)%nat -> (forall m, iget_room ic ROOTDEV m) ->
  wp (ialloc ROOTDEV type) (fun ip s' => exists m ic', free_inode v m /\ got ic ROOTDEV m ip ic' /\
    fs_at ∅ ({[IBLOCK m sb]} ∪ L) (put_inode sb v m (zero_dinode type)) ic' s') s.
Proof.
  intros Hs [m Hm] Hcap Hroom. unfold ialloc. rewrite wp_bind. eapply sb_wp; [done|]. apply ialloc_from_run; try done.
  - exists m. split; [apply Hm|done].
  - destruct Hm as [? _]. lia.
Qed.

(** ** The new inode *)

Lemma splice_same (l a b : list Z) k : length a = length b -> splice (splice l k a) k b = splice l k b.
Proof.
  intros Hab. apply list_eq. intros j. unfold splice. destruct (decide (k <= j < k + length b)%nat) as [Hj|Hj].
  - destruct (decide (j < length l)%nat).
    + rewrite !list_lookup_inserts by (rewrite ?length_inserts; lia). done.
    + rewrite !lookup_ge_None_2; [done|rewrite length_inserts; lia|rewrite !length_inserts; lia].
  - destruct (decide (j < k)%nat).
    + by rewrite !list_lookup_inserts_lt by lia.
    + by rewrite !list_lookup_inserts_ge by lia.
Qed.
Lemma put_inode_twice v n x y b : dinode_wf x -> dinode_wf y -> put_inode sb (put_inode sb v n x) n y b = put_inode sb v n y b.
Proof.
  intros Hx Hy. unfold put_inode. destruct (decide (b = IBLOCK n sb)) as [->|]; [|by rewrite !fupd_ne]. rewrite !fupd_eq.
  unfold put_dinode. apply splice_same. by rewrite !length_dinode_bytes.
Qed.

Lemma cache_mono v v' lk ic :
  cache_ok sb me v lk ic ->
  (forall k i, ic !! k = Some i -> 0 < i_ref i -> in_use v (i_inum i) -> in_use v' (i_inum i) /\ disk_inode v' (i_inum i) = disk_inode v (i_inum i)) ->
  cache_ok sb me v' lk ic.
Proof.
  intros Hc Hm k i Hk. destruct (Hc k i Hk) as (H1' & H2' & H3'). split_and!; [done|done|]. intros Hr. destruct (H3' Hr) as (Hd & Hu & Hv).
  destruct (Hm k i Hk Hr Hu) as [? ->]. done.
Qed.

(** What [ialloc] and [iget] return is an entry that was free. *)
Lemma got_fresh v lk ic m ip ic' :
  cache_ok sb me v lk ic -> ~ in_use v m -> got ic ROOTDEV m ip ic' ->
  exists i j, ic !! ip = Some i /\ ic' = <[ip := j]> ic /\ i_ref i = 0 /\ (ip ∉ lk) /\ i_dev j = ROOTDEV /\ i_inum j = m /\ i_ref j = 1 /\
    i_valid j = false /\ sl_locked (i_lock j) = false /\ slot_for (table_of ic) ip m.
Proof.
  intros Hc Hm [(j & Hj & Hr & Hdev & Hi) (i & j' & Hip & -> & Href & Hpos & Hz & Hl)].
  pose proof (lookup_lt_Some _ _ _ Hip) as Hlt. rewrite list_lookup_insert_eq in Hj by done. injection Hj as ->.
  destruct (Hc ip i Hip) as (Hge & Hlk & Hu).
  assert (i_ref i = 0) as E0.
  { destruct (decide (0 < i_ref i)) as [Hp|]; [|lia]. destruct Hm. rewrite (Hpos Hp) in Hi. cbn in Hi. subst m. by apply Hu. }
  destruct (Hz E0) as [Hval Hno]. assert (ip ∉ lk) as Hnl. { intros Hin. rewrite bool_decide_eq_true_2 in Hlk by done. lia. }
  rewrite bool_decide_eq_false_2 in Hlk by done. exists i, j. split_and!; try done; [lia|by rewrite Hl|]. left. split.
  - unfold table_of. rewrite list_lookup_fmap, Hip. cbn. f_equal. apply ref_of_None. lia.
  - intros k r (x & Hx & (Hx1 & Hx2 & _)%ref_of_Some)%table_lookup. rewrite Forall_lookup in Hno. apply (Hno k x Hx).
    split_and!; [done| |done]. destruct (Hc k x Hx) as (_ & _ & Hu'). by apply Hu'.
Qed.

Definition new_dinode (type major minor : Z) : dinode :=
  {| d_type := type; d_major := major; d_minor := minor; d_nlink := 1; d_size := 0; d_addrs := replicate 13 0 |}.
Lemma zero_dinode_wf type : is_i16 type -> dinode_wf (zero_dinode type).
Proof. intros Ht. split; try done. by apply (bool_decide_eq_true_1 (Forall is_u32 _)). Qed.
Lemma new_dinode_wf type major minor : is_i16 type -> is_i16 major -> is_i16 minor -> dinode_wf (new_dinode type major minor).
Proof. intros ? ? ?. split; try done. by apply (bool_decide_eq_true_1 (Forall is_u32 _)). Qed.

(** The part of [create_new] up to the entry in the directory. *)
Lemma new_inode_run {A} (k : nat -> M (fs B) A) Q L v lk ic s type major minor :
  fs_at ∅ L v ic s -> fs_ok v -> cache_ok sb me v lk ic -> refs_below (2 ^ 31 - 1) (table_of ic) -> one_free (table_of ic) ->
  (exists m, free_inode v m) -> (size L + 3 <= txn_cap)%nat -> is_i16 type -> is_i16 major -> is_i16 minor -> type <> 0 ->
  (forall ip m ic' v' s', let L' := {[IBLOCK m sb]} ∪ L in
    fs_at ∅ L' v' ic' s' -> fs_ok v' -> ip ∉ lk -> cache_ok sb me v' (ip :: lk) ic' -> free_inode v m -> slot_for (table_of ic) ip m ->
    table_of ic' = open_ref ip m (table_of ic) -> (forall n, n <> ip -> ic' !! n = ic !! n) -> (exists i, ic' !! ip = Some i /\ i_inum i = m /\ i_disk i = new_dinode type major minor) ->
    disk_inode v' m = new_dinode type major minor -> content v' (node v' m) = [] -> (forall n, in_use v n -> kept v v' n) -> (forall n, in_use v' n <-> in_use v n \/ n = m) ->
    v' bm = v bm -> wp (k ip) Q s') ->
  wp (let! ip := ialloc ROOTDEV type in ilock ip;;; updi ip (fun i => set_i_nlink 1 (set_i_dev_nums major minor i));;; iupdate ip;;; k ip) Q s.
Proof.
  intros Hs Hv Hc Hbel Hone Hfree Hcap Ht Hma Hmi Ht0 Hk. rewrite wp_bind.
  eapply wp_mono; [apply ialloc_run; [exact Hs|done|lia|]|]. { intros m. by eapply (refs_room sb me Hcap). }
  intros ip s1 (m & ic1 & Hfm & Hgot & Hs1). destruct (free_not_used v m Hfm) as [Hmok Hmno].
  destruct (got_fresh _ _ _ _ _ _ Hc Hmno Hgot) as (i & j & Hi & -> & Hi0 & Hlk & J1 & J2 & J3 & J4 & J5 & Hslot). pose proof (lookup_lt_Some _ _ _ Hi) as Hlt.
  pose proof (fs_block _ _ _ _ _ _ _ (IBLOCK m sb) Hs) as Hblk. pose proof (zero_dinode_wf type Ht) as Hzw. pose proof (new_dinode_wf type major minor Ht Hma Hmi) as Hnw.
  set (v1 := put_inode sb v m (zero_dinode type)) in *. assert (disk_inode v1 m = zero_dinode type) as E1 by (by apply disk_inode_put).
  assert (size ({[IBLOCK m sb]} ∪ L) <= size L + 1)%nat as HL. { pose proof (size_union_le {[IBLOCK m sb]} L) as Hsz. rewrite size_singleton in Hsz. lia. }
  rewrite wp_bind. eapply wp_mono; [eapply (ilock_run sb me dstart Hlay ∅ _ v1 _ s1 ip j); try done|].
  { by apply list_lookup_insert_eq. } { split; [lia|done]. } { by rewrite J2. } { rewrite map_size_empty. lia. } { lia. } { intros _. by rewrite J2, E1. }
  intros [] s2 Hs2. rewrite list_insert_insert_eq in Hs2. rewrite wp_bind. eapply wp_mono; [by eapply updi_wp|]. intros [] s3 Hs3.
  erewrite list_alter_insert, list_insert_insert_eq in Hs3 by (by apply list_lookup_insert_eq).
  set (j2 := set_i_nlink 1 (set_i_dev_nums major minor (loaded sb me v1 j))) in *.
  assert (i_dev j2 = ROOTDEV /\ i_inum j2 = m /\ i_ref j2 = 1 /\ i_valid j2 = true /\ i_lock j2 = my_lock me /\ i_disk j2 = new_dinode type major minor) as (K1 & K2 & K3 & K4 & K5 & K6).
  { unfold j2, loaded. rewrite J4, J2, E1. destruct j. cbn in *. subst. by split_and!. }
  rewrite wp_bind. eapply wp_mono; [eapply (iupdate_run sb me dstart Hlay ∅ _ v1 _ s3 ip j2); try done|].
  { by apply list_lookup_insert_eq. } { by rewrite K2. } { rewrite map_size_empty. lia. }
  { rewrite K2, (union_assoc_L {[_]}), union_idemp_L. lia. }
  intros [] s4 Hs4. rewrite K2, K6, (union_assoc_L {[_]}), union_idemp_L in Hs4.
  eapply fs_at_ext in Hs4; [|intros b; unfold v1; by rewrite put_inode_twice].
  destruct (new_inode v m (new_dinode type major minor) Hv Hmok ltac:(destruct Hfm; lia) Hmno) as (Hv' & En & Ec & Hkept & Huse); [by split_and!|done|].
  eapply (Hk ip m _ _ s4 Hs4 Hv'); try done.
  - eapply (cache_insert sb me _ lk).
    + eapply cache_mono; [exact Hc|]. intros n x Hn Hr Hu. split; [apply Huse; by left|by apply Hkept].
    + rewrite bool_decide_eq_true_2 by (by left). unfold entry_ok. rewrite K1, K2, K3, K4, K5, K6. split_and!; try done. intros _. split_and!; [done|apply Huse; by right|done].
    + intros n Hne. rewrite elem_of_cons. naive_solver.
  - eapply table_insert; [done|]. rewrite (proj2 (ref_of_None i)) by lia. apply ref_of_Some. rewrite K2, K3. done.
  - intros n Hne. by rewrite list_lookup_insert_ne.
  - exists j2. split; [by apply list_lookup_insert_eq|done].
  - apply put_inode_ne, not_eq_sym. by apply (iblock_meta sb dstart Hlay).
Qed.

(** ** The entry in the directory *)

Lemma child_same v d n e : same_name n e -> child v d n = child v d e.
Proof. intros Hn. unfold child. by rewrite (lookup_name_same _ n e). Qed.
Lemma child_None v d e : child v d e = None <-> lookup_name (content v (node v d)) e = None.
Proof. unfold child. destruct (lookup_name _ e) as [[off j]|]; done. Qed.

(** The cache after inode [i_inum d], in entry [dp], has changed to [d']. *)
Lemma cache_upd v v' lk ic dp d d' :
  cache_ok sb me v lk ic -> uniq_refs (table_of ic) -> ic !! dp = Some d -> dp ∈ lk ->
  i_dev d' = i_dev d /\ i_inum d' = i_inum d /\ i_ref d' = i_ref d /\ i_lock d' = i_lock d /\ i_valid d' = i_valid d ->
  (forall n, in_use v' n <-> in_use v n) -> (forall n, in_use v n -> n <> i_inum d -> kept v v' n) -> i_disk d' = disk_inode v' (i_inum d) ->
  cache_ok sb me v' lk (<[dp := d']> ic) /\ table_of (<[dp := d']> ic) = table_of ic.
Proof.
  intros Hc Hun Hdp Hlk (W1 & W2 & W3 & W4 & W5) Hu Hk Ed. pose proof (Hc dp d Hdp) as (Hd1 & Hd2 & Hd3). rewrite bool_decide_eq_true_2 in Hd2 by done. destruct Hd2 as (D1 & D2 & D3).
  split; [|eapply table_same; [done|]; unfold ref_of; by rewrite W2, W3].
  intros k i Hki. destruct (decide (k = dp)) as [->|Hne].
  - rewrite list_lookup_insert_eq in Hki by (by eapply lookup_lt_Some). injection Hki as <-. rewrite bool_decide_eq_true_2 by done. unfold entry_ok.
    rewrite W1, W2, W3, W4, W5. split; [done|]. split; [done|]. intros Hr. destruct (Hd3 Hr) as (? & ? & _). split_and!; [done|by apply Hu|done].
  - rewrite list_lookup_insert_ne in Hki by done. destruct (Hc k i Hki) as (I1 & I2 & I3). split; [done|]. split; [done|]. intros Hr. destruct (I3 Hr) as (? & Hin & Hval).
    split_and!; [done|by apply Hu|]. intros E. rewrite Hval by done. destruct (Hk (i_inum i) Hin) as [-> _]; [|done].
    intros Ei. apply Hne. eapply (Hun k dp); [by apply table_at|]. rewrite Ei. by apply table_at.
Qed.

(** A locked directory of the cache, as it is on disk. *)
Record dir_at v (lk : list nat) ic (dp : nat) (d : inode) : Prop := {
  da_at : ic !! dp = Some d;
  da_lk : dp ∈ lk;
  da_disk : i_disk d = disk_inode v (i_inum d);
  da_dir : is_dir v (i_inum d) = true;
  da_use : in_use v (i_inum d)
}.
(** What one more name in directory [d] makes of the file system. *)
Record named v v' (d : Z) (nm : list Z) (n : Z) : Prop := {
  nd_use m : in_use v' m <-> in_use v m;
  nd_kept m : in_use v m -> m <> d -> kept v v' m;
  nd_child name : child v' d name = if decide (same_name name nm) then Some n else child v d name;
  nd_type : d_type (disk_inode v' d) = d_type (disk_inode v d);
  nd_nlink : d_nlink (disk_inode v' d) = d_nlink (disk_inode v d);
  nd_size : i_size (node v' d) <= i_size (node v d) + DIRENTSZ;
  nd_free : (nfree sb v <= nfree sb v' + 2)%nat
}.

Lemma dirlink_step L v lk ic s dp d nm n :
  fs_at ∅ L v ic s -> fs_ok v -> cache_ok sb me v lk ic -> uniq_refs (table_of ic) -> dir_at v lk ic dp d ->
  bytes nm -> in_use v n -> child v (i_inum d) nm = None ->
  DIRENTSZ * (Z.of_nat (free_slot (content v (node v (i_inum d)))) + 1) <= MAXFILE * BSIZE -> (2 <= nfree sb v)%nat -> (size L + 4 <= txn_cap)%nat ->
  wp (dirlink devread devwrite dp nm n) (fun r s' => r = 0 /\ exists L' v' d', let ic' := <[dp := d']> ic in
    fs_at ∅ L' v' ic' s' /\ (size L' <= size L + 4)%nat /\ fs_ok v' /\ cache_ok sb me v' lk ic' /\ table_of ic' = table_of ic /\
    i_inum d' = i_inum d /\ dir_at v' lk ic' dp d' /\ named v v' (i_inum d) nm n) s.
Proof.
  intros Hs Hv Hc Hun [Hdp Hlk Hd Hdir Hin] Hb Hn Hno Hsl Hnf Hcap. pose proof (use_pos v n Hv Hn) as Hn0.
  destruct (cache_dir sb me dstart (fk_tree v Hv) lk ic dp d Hc Hlk Hdp Hd Hdir) as (Hok & Ec & _).
  assert (lookup_name (content v d) nm = None) as Hnone by (rewrite Ec; by apply child_None).
  eapply wp_mono; [eapply (dirlink_run sb me dstart Hlay devread devwrite L v ic s dp d L nm n); try done|].
  { rewrite Hd. by apply fs_wf. } { destruct Hn as [[_ ?] _]. pose proof (lay_ninodes _ _ Hlay). lia. } { by rewrite Ec. } { unfold logged. clear. set_solver. } { lia. }
  { unfold need_ind. destruct (decide _); lia. }
  intros r s2 [-> (L2 & v2 & d' & Hs2 & HL2 & Hrm & Hw)]. split; [done|]. exists L2, v2, d'. cbn zeta.
  assert (forall m, in_use v2 m <-> in_use v m) as Hu2 by (intros m; by eapply linked_use).
  destruct (linked Hv Hin Hdir Hd Hok Hb Hn Hn0 Hnone Hw) as [Hv2 Hk2].
  assert (disk_inode v2 (i_inum d) = i_disk d') as Ed by (erewrite linked_disk by (done || apply Hin); by rewrite decide_True).
  assert (i_dev d' = i_dev d /\ i_inum d' = i_inum d /\ i_ref d' = i_ref d /\ i_lock d' = i_lock d /\ i_valid d' = i_valid d) as W by (by rewrite (wr_inode _ _ _ _ _ _ _ _ Hw)).
  assert (i_type d' = i_type d /\ i_nlink d' = i_nlink d) as [W6 W7] by (by rewrite (wr_inode _ _ _ _ _ _ _ _ Hw)).
  destruct (cache_upd _ _ _ _ _ _ _ Hc Hun Hdp Hlk W Hu2 Hk2 (eq_sym Ed)) as [Hc2 Ht2]. pose proof W as (_ & W2 & _).
  assert (d_type (disk_inode v2 (i_inum d)) = d_type (disk_inode v (i_inum d))) as Et by (rewrite Ed, <- Hd; exact W6).
  split_and!; try done.
  - split; [by apply list_lookup_insert_eq, (lookup_lt_Some _ _ d)|done|by rewrite W2|rewrite W2; unfold FsPath.is_dir; by rewrite Et|rewrite W2; by apply Hu2].
  - split; [done|done| |done| | |].
    + intros name. by eapply linked_child.
    + rewrite Ed, <- Hd. exact W7.
    + change (d_size (disk_inode v2 (i_inum d)) <= d_size (disk_inode v (i_inum d)) + DIRENTSZ). rewrite Ed, <- Hd. by eapply linked_size.
    + unfold room, need_ind in Hrm. do 2 destruct (decide _); lia.
Qed.

(** ** The entries of a new directory *)

(** The file system before the new inode [m] gets its name in [d]: for a
    directory, [d] has one more link and [m] its dots. *)
Record prepared v v' (d m type : Z) : Prop := {
  pr_use n : in_use v' n <-> in_use v n;
  pr_kept n : in_use v n -> n <> d -> n <> m -> kept v v' n;
  pr_content : content v' (node v' d) = content v (node v d);
  pr_type : d_type (disk_inode v' d) = d_type (disk_inode v d);
  pr_nlink : d_nlink (disk_inode v' d) = if type =? T_DIR then d_nlink (disk_inode v d) + 1 else d_nlink (disk_inode v d);
  pr_file : type <> T_DIR -> kept v v' m;
  pr_sub : type = T_DIR -> is_dir v' m = true /\ d_nlink (disk_inode v' m) = 1 /\
    forall name, child v' m name = if decide (same_name name DOTDOT) then Some d else if decide (same_name name DOT) then Some m else None;
  pr_free : (nfree sb v <= nfree sb v' + (if (type =? T_DIR)%Z then 4 else 0))%nat
}.

Lemma free_slot_bound v n k : fs_ok v -> in_use v n -> is_dir v n = true -> i_size (node v n) <= DIRENTSZ * k -> Z.of_nat (free_slot (content v (node v n))) <= k.
Proof.
  intros Hv Hn Hd Hk. pose proof (free_slot_le (content v (node v n))) as Hle. rewrite length_entries in Hle. unfold content at 2 in Hle.
  rewrite length_fmap, length_seqZ in Hle. pose proof (fo_size _ _ _ _ (tr_file _ _ _ (fk_tree v Hv) n Hn)) as Hsz.
  change ENTLEN with 16%nat in Hle. change DIRENTSZ with 16 in Hk. pose proof (Nat.div_mod_eq (Z.to_nat (i_size (node v n))) 16). lia.
Qed.

(** The count of links of a locked inode is set. *)
Lemma nlink_run (g : Z -> Z) L v lk ic s dp d :
  fs_at ∅ L v ic s -> fs_ok v -> cache_ok sb me v lk ic -> uniq_refs (table_of ic) -> ic !! dp = Some d -> dp ∈ lk ->
  i_disk d = disk_inode v (i_inum d) -> is_i16 (g (i_nlink d)) -> g (i_nlink d) <> 0 -> (size L + 1 <= txn_cap)%nat ->
  wp (updi dp (fun d => set_i_nlink (g (i_nlink d)) d);;; iupdate dp) (fun _ s' => exists L' v' d', let ic' := <[dp := d']> ic in
    fs_at ∅ L' v' ic' s' /\ (size L' <= size L + 1)%nat /\ fs_ok v' /\ cache_ok sb me v' lk ic' /\ table_of ic' = table_of ic /\
    i_inum d' = i_inum d /\ i_disk d' = disk_inode v' (i_inum d) /\
    (forall n, in_use v' n <-> in_use v n) /\ (forall n, in_use v n -> n <> i_inum d -> kept v v' n) /\
    content v' (node v' (i_inum d)) = content v (node v (i_inum d)) /\ d_type (disk_inode v' (i_inum d)) = d_type (disk_inode v (i_inum d)) /\
    d_addrs (disk_inode v' (i_inum d)) = d_addrs (disk_inode v (i_inum d)) /\
    d_nlink (disk_inode v' (i_inum d)) = g (i_nlink d) /\ forall b, b <> IBLOCK (i_inum d) sb -> v' b = v b) s.
Proof.
  intros Hs Hv Hc Hun Hdp Hlk Hd Hg Hg0 Hcap. destruct (Hc dp d Hdp) as (_ & Hl & Hu). rewrite bool_decide_eq_true_2 in Hl by done. destruct Hl as (_ & _ & Hr).
  destruct (Hu Hr) as (Hdev & Hin & _). pose proof (lookup_lt_Some _ _ _ Hdp) as Hlt. pose proof (fs_wf v _ Hv Hin) as Hwf. rewrite <- Hd in Hwf.
  rewrite wp_bind. eapply wp_mono; [by eapply updi_wp|]. intros [] s1 Hs1. rewrite (list_alter_insert _ _ _ _ Hdp) in Hs1.
  set (d' := set_i_nlink (g (i_nlink d)) d) in *.
  assert (dinode_wf (i_disk d')) as Hwf' by (destruct Hwf; by split).
  pose proof (size_union_le {[IBLOCK (i_inum d) sb]} L) as Hsz. rewrite size_singleton in Hsz.
  eapply wp_mono; [eapply (iupdate_run sb me dstart Hlay ∅ L v _ s1 dp d'); try done|].
  { by apply list_lookup_insert_eq. } { apply Hin. } { rewrite map_size_empty. lia. } { cbn [i_inum d' set_i_nlink]. lia. }
  intros [] s2 Hs2. change (i_inum d') with (i_inum d) in Hs2. destruct (relink v (i_inum d) (i_disk d') Hv Hin Hwf') as (Hv' & En & Ec & Hk & Huse).
  { done. } { rewrite <- Hd. done. } { rewrite <- Hd. done. } { rewrite <- Hd. done. } { by eapply fs_block. }
  exists ({[IBLOCK (i_inum d) sb]} ∪ L), (put_inode sb v (i_inum d) (i_disk d')), d'. cbn zeta.
  destruct (cache_upd v _ lk ic dp d d' Hc Hun Hdp Hlk ltac:(done) Huse Hk (eq_sym En)) as [Hc' Ht']. split_and!; try done; [lia| | | |].
  - by rewrite En, <- Hd.
  - by rewrite En, <- Hd.
  - by rewrite En.
  - intros b. apply put_inode_ne.
Qed.
Lemma i16_small z : is_i16 z -> i16 z = z.
Proof. unfold is_i16, i16. change (2 ^ 15) with 32768. change (2 ^ 16) with 65536. intros Hz. rewrite Z.mod_small; lia. Qed.

(** [d] gets one more link. *)
Lemma dir_nlink L v lk ic s dp d :
  fs_at ∅ L v ic s -> fs_ok v -> cache_ok sb me v lk ic -> uniq_refs (table_of ic) -> dir_at v lk ic dp d ->
  0 < d_nlink (disk_inode v (i_inum d)) < 2 ^ 15 - 1 -> (size L + 1 <= txn_cap)%nat ->
  wp (updi dp (fun d => set_i_nlink (i16 (i_nlink d + 1)) d);;; iupdate dp) (fun _ s' => exists L' v' d', let ic' := <[dp := d']> ic in
    fs_at ∅ L' v' ic' s' /\ (size L' <= size L + 1)%nat /\ fs_ok v' /\ cache_ok sb me v' lk ic' /\ table_of ic' = table_of ic /\ i_inum d' = i_inum d /\
    dir_at v' lk ic' dp d' /\ (forall n, in_use v' n <-> in_use v n) /\ (forall n, in_use v n -> n <> i_inum d -> kept v v' n) /\
    content v' (node v' (i_inum d)) = content v (node v (i_inum d)) /\ d_nlink (disk_inode v' (i_inum d)) = d_nlink (disk_inode v (i_inum d)) + 1 /\ v' bm = v bm) s.
Proof.
  intros Hs Hv Hc Hun [Hdp Hlk Hd Hdir Hin] Hnl Hcap. rewrite <- Hd in Hnl. cbn [d_nlink i_disk] in Hnl.
  assert (is_i16 (i_nlink d + 1)) as Hf by (unfold is_i16; lia). pose proof (i16_small _ Hf) as Ei.
  eapply wp_mono; [eapply (nlink_run (fun n => i16 (n + 1)) L v lk ic s dp d); rewrite ?Ei; (done || lia)|]. cbn beta. rewrite Ei.
  intros [] s2 (L' & v' & d' & Hs' & HL & Hv' & Hc' & Ht & Ed & Edi & Hu & Hk & Ec & Ety & _ & En & Hne). exists L', v', d'. split_and!; try done.
  - split; [by apply list_lookup_insert_eq, (lookup_lt_Some _ _ d)|done|by rewrite Ed|rewrite Ed; unfold FsPath.is_dir; by rewrite Ety|rewrite Ed; by apply Hu].
  - by rewrite En, <- Hd.
  - apply Hne, not_eq_sym. apply (iblock_meta sb dstart Hlay), Hin.
Qed.

Lemma wp_seq {A} (a b : M (fs B) unit) (k : M (fs B) A) Q s : wp (a;;; b) (fun _ s' => wp k Q s') s -> wp (a;;; b;;; k) Q s.
Proof. rewrite !wp_bind. intros Hw. eapply wp_mono; [exact Hw|]. intros [] s'. cbn beta. by rewrite wp_bind. Qed.

Lemma dir_at_insert v lk ic dp d ip i : dir_at v lk ic dp d -> ip <> dp -> dir_at v lk (<[ip := i]> ic) dp d.
Proof. intros [? ? ? ? ?] Hne. split; try done. by rewrite list_lookup_insert_ne. Qed.
Lemma dir_at_kept v v' lk ic dp d :
  dir_at v lk ic dp d -> in_use v' (i_inum d) -> kept v v' (i_inum d) -> dir_at v' lk ic dp d.
Proof. intros [? ? Hd Hdir ?] Hu [E _]. split; try done; [by rewrite E|]. unfold FsPath.is_dir. by rewrite E. Qed.
Lemma child_empty v n name : content v (node v n) = [] -> child v n name = None.
Proof. intros E. unfold child. by rewrite E. Qed.
Lemma kept_child v v' n name : kept v v' n -> child v' n name = child v n name.
Proof. intros [_ E]. unfold child. by rewrite E. Qed.
Lemma dots_differ : ~ same_name DOTDOT DOT.
Proof. done. Qed.

(** The three changes together. *)
Lemma prepared_dots v v1 v2 v3 d m :
  (forall n, in_use v1 n <-> in_use v n) -> (forall n, in_use v n -> n <> d -> kept v v1 n) -> content v1 (node v1 d) = content v (node v d) ->
  d_nlink (disk_inode v1 d) = d_nlink (disk_inode v d) + 1 -> is_dir v1 d = true -> is_dir v d = true -> is_dir v3 m = true -> (nfree sb v <= nfree sb v3 + 4)%nat ->
  kept v v1 m -> content v1 (node v1 m) = [] -> d_nlink (disk_inode v m) = 1 -> named v1 v2 m DOT m -> named v2 v3 m DOTDOT d ->
  kept v1 v2 d -> kept v2 v3 d -> prepared v v3 d m T_DIR.
Proof.
  intros Hu1 Hk1 Hco1 Hn1 X1 X X3 Hf Hkm Hcont Hnl Hnd2 Hnd3 [E2 F2] [E3 F3]. split.
  - intros n. by rewrite (nd_use _ _ _ _ _ Hnd3), (nd_use _ _ _ _ _ Hnd2), Hu1.
  - intros n Hn Hnd Hnm. destruct (Hk1 n Hn Hnd) as [G1 G1'], (nd_kept _ _ _ _ _ Hnd2 n) as [G2 G2']; [by apply Hu1|done|].
    destruct (nd_kept _ _ _ _ _ Hnd3 n) as [G3 G3']; [by apply (nd_use _ _ _ _ _ Hnd2), Hu1|done|]. split; congruence.
  - congruence.
  - rewrite E3, E2. apply Z.eqb_eq in X, X1. congruence.
  - by rewrite E3, E2, Hn1.
  - done.
  - intros _. split_and!; [done| |].
    + rewrite (nd_nlink _ _ _ _ _ Hnd3), (nd_nlink _ _ _ _ _ Hnd2). destruct Hkm as [-> _]. done.
    + intros name. rewrite (nd_child _ _ _ _ _ Hnd3), (nd_child _ _ _ _ _ Hnd2), (child_empty v1) by done. done.
  - done.
Qed.

(** The names of a new directory and the link to its parent. *)
Lemma subdir_run L v lk ic s dp d ip i type :
  fs_at ∅ L v ic s -> fs_ok v -> cache_ok sb me v lk ic -> uniq_refs (table_of ic) -> dir_at v lk ic dp d -> ip <> dp -> ip ∈ lk -> ic !! ip = Some i ->
  i_inum i <> i_inum d -> i_disk i = disk_inode v (i_inum i) -> in_use v (i_inum i) -> d_type (disk_inode v (i_inum i)) = type -> content v (node v (i_inum i)) = [] ->
  d_nlink (disk_inode v (i_inum i)) = 1 -> (type = T_DIR -> 0 < d_nlink (disk_inode v (i_inum d)) < 2 ^ 15 - 1 /\ (4 <= nfree sb v)%nat) -> (size L + 9 <= txn_cap)%nat ->
  wp (if type =? T_DIR then
        updi dp (fun d => set_i_nlink (i16 (i_nlink d + 1)) d);;; iupdate dp;;;
        let! i := geti ip in
        let! a := dirlink devread devwrite ip DOT (i_inum i) in
        let! b := (if a <? 0 then ret (-1) else let! d := geti dp in dirlink devread devwrite ip DOTDOT (i_inum d)) in
        if b <? 0 then panic "create dots" else ret tt
      else ret tt) (fun _ s' => exists L' v' ic' d' i', fs_at ∅ L' v' ic' s' /\ (size L' <= size L + 9)%nat /\ fs_ok v' /\ cache_ok sb me v' lk ic' /\
    table_of ic' = table_of ic /\ i_inum d' = i_inum d /\ dir_at v' lk ic' dp d' /\ ic' !! ip = Some i' /\ i_inum i' = i_inum i /\ prepared v v' (i_inum d) (i_inum i) type) s.
Proof.
  intros Hs Hv Hc Hun Hda Hne Hlk Hip Hmd Hid Hm Hty Hcont Hnl Hroom Hcap. destruct (Z.eqb_spec type T_DIR) as [Etd|Htd].
  2:{ apply wp_ret. exists L, v, ic, d, i. split_and!; try done; [lia|]. split; try done; rewrite (proj2 (Z.eqb_neq _ _)) by done; [done|lia]. }
  destruct (Hroom Etd) as [Hdn Hnf]. rewrite Etd in *. clear Etd. apply wp_seq. eapply wp_mono; [eapply (dir_nlink L v lk ic s dp d); try done; lia|].
  intros [] s1 (L1 & v1 & d1 & Hs1 & HL1 & Hv1 & Hc1 & Ht1 & Ed1 & Hda1 & Hu1 & Hk1 & Hco1 & Hn1 & Hbm1). cbn zeta in *.
  assert (<[dp := d1]> ic !! ip = Some i) as Hip1 by (by rewrite list_lookup_insert_ne).
  assert (dir_at v lk ic ip i) as Hia by (split; try done; unfold FsPath.is_dir; by rewrite Hty).
  pose proof (Hk1 _ Hm Hmd) as Hkm. assert (in_use v1 (i_inum i)) as Hm1 by (by apply Hu1).
  assert (dir_at v1 lk (<[dp := d1]> ic) ip i) as Hia1 by (apply dir_at_insert; [by eapply dir_at_kept|done]).
  assert (content v1 (node v1 (i_inum i)) = []) as Hcont1 by (destruct Hkm as [_ ->]; done).
  assert (nfree sb v1 = nfree sb v) as Hf1 by (by apply nfree_bm).
  rewrite wp_bind. eapply geti_wp; [exact Hs1|done|]. rewrite wp_bind.
  eapply wp_mono; [eapply (dirlink_step L1 v1 lk _ s1 ip i DOT (i_inum i)); try done; [by rewrite Ht1|by apply (bool_decide_eq_true_1 (Forall is_u8 _))|by apply child_empty|by rewrite Hcont1|lia|lia]|].
  intros a s2 [-> (L2 & v2 & i2 & Hs2 & HL2 & Hv2 & Hc2 & Ht2 & Ei2 & Hia2 & Hnd2)]. cbn zeta in *. cbn [Z.ltb Z.compare].
  assert (<[ip := i2]> (<[dp := d1]> ic) !! dp = Some d1) as Hdp2 by (rewrite list_lookup_insert_ne by done; apply Hda1).
  rewrite !wp_bind. eapply geti_wp; [exact Hs2|done|]. rewrite Ed1.
  assert (in_use v2 (i_inum d)) as Hd2 by (apply (nd_use _ _ _ _ _ Hnd2), Hu1, Hda).
  assert (child v2 (i_inum i) DOTDOT = None) as Hdd by (rewrite (nd_child _ _ _ _ _ Hnd2), decide_False by apply dots_differ; by apply child_empty).
  assert (i_size (node v1 (i_inum i)) = 0) as Hs0.
  { pose proof (f_equal length Hcont1) as E. unfold content in E. rewrite length_fmap, length_seqZ in E. change (length []) with 0%nat in E.
    pose proof (fo_size _ _ _ _ (tr_file _ _ _ (fk_tree v1 Hv1) _ Hm1)). lia. }
  pose proof (nd_size _ _ _ _ _ Hnd2) as Hsz2. pose proof (nd_free _ _ _ _ _ Hnd2) as Hf2.
  eapply wp_mono; [eapply (dirlink_step L2 v2 lk _ s2 ip i2 DOTDOT (i_inum d)); try done; [by rewrite Ht2, Ht1|by apply (bool_decide_eq_true_1 (Forall is_u8 _))|by rewrite Ei2| |lia|lia]|].
  { pose proof (free_slot_bound v2 (i_inum i2) 1 Hv2) as Hfs. rewrite Ei2 in *. specialize (Hfs ltac:(by apply (nd_use _ _ _ _ _ Hnd2)) ltac:(rewrite <- Ei2; apply Hia2) ltac:(lia)).
    change DIRENTSZ with 16. change (MAXFILE * BSIZE) with 71680. lia. }
  intros b s3 [-> (L3 & v3 & i3 & Hs3 & HL3 & Hv3 & Hc3 & Ht3 & Ei3 & Hia3 & Hnd3)]. cbn zeta in *. cbn [Z.ltb Z.compare]. apply wp_ret. rewrite Ei2 in *.
  exists L3, v3, (<[ip := i3]> (<[ip := i2]> (<[dp := d1]> ic))), d1, i3.
  assert (kept v1 v2 (i_inum d)) as Kd2 by (apply (nd_kept _ _ _ _ _ Hnd2); [by apply Hu1, Hda|done]).
  assert (kept v2 v3 (i_inum d)) as Kd3 by (apply (nd_kept _ _ _ _ _ Hnd3); done).
  split_and!; try done; [lia|by rewrite Ht3, Ht2, Ht1| |apply Hia3|].
  - apply dir_at_insert; [|done]. rewrite <- Ed1 in Kd2, Kd3, Hd2. eapply dir_at_kept; [|by apply (nd_use _ _ _ _ _ Hnd3)|done].
    apply dir_at_insert; [|done]. by eapply dir_at_kept.
  - eapply (prepared_dots v v1 v2 v3); try done; [by rewrite <- Ed1; apply Hda1|apply Hda|by rewrite <- Ei3; apply Hia3|pose proof (nd_free _ _ _ _ _ Hnd3); lia].
Qed.

(** ** The new file under its name *)

(** [create] has what it needs: an inode, room in the directory, blocks, and
    a count of links that can grow. *)
Definition create_room v (d type : Z) : Prop :=
  (exists m, free_inode v m) /\ DIRENTSZ * (Z.of_nat (free_slot (content v (node v d))) + 1) <= MAXFILE * BSIZE /\ (2 <= nfree sb v)%nat /\
  (type = T_DIR -> 0 < d_nlink (disk_inode v d) < 2 ^ 15 - 1 /\ (6 <= nfree sb v)%nat).
(** The file system with the new inode [m] under the name [e] in directory [d]. *)
Record adds v v' (d : Z) (e : list Z) (m type major minor : Z) : Prop := {
  ad_fresh : ~ in_use v m;
  ad_use n : in_use v' n <-> in_use v n \/ n = m;
  ad_kept n : in_use v n -> n <> d -> kept v v' n;
  ad_dir : is_dir v' d = true;
  ad_child name : child v' d name = if decide (same_name name e) then Some m else child v d name;
  ad_nlink : d_nlink (disk_inode v' d) = if type =? T_DIR then d_nlink (disk_inode v d) + 1 else d_nlink (disk_inode v d);
  ad_file : type <> T_DIR -> disk_inode v' m = new_dinode type major minor;
  ad_sub : type = T_DIR -> is_dir v' m = true /\ d_nlink (disk_inode v' m) = 1 /\
    forall name, child v' m name = if decide (same_name name DOTDOT) then Some d else if decide (same_name name DOT) then Some m else None
}.

(** The new inode, what comes before the name, and the name. *)
Lemma adds_named v v1 v2 v3 d e nm m type major minor :
  same_name nm e -> in_use v d -> is_dir v d = true -> ~ in_use v m -> disk_inode v1 m = new_dinode type major minor -> (forall n, in_use v n -> kept v v1 n) ->
  (forall n, in_use v1 n <-> in_use v n \/ n = m) -> prepared v1 v2 d m type -> named v2 v3 d nm m -> adds v v3 d e m type major minor.
Proof.
  intros He Hd Hdir Hm Ex Hk1 Hu1 Hpr Hnd. assert (m <> d) as Hne by (by intros ->). destruct (Hk1 d Hd) as [Ed Fd].
  assert (in_use v2 m) as Hm2 by (apply (pr_use _ _ _ _ _ Hpr), Hu1; by right). destruct (nd_kept _ _ _ _ _ Hnd m Hm2 Hne) as [Em Fm].
  split; [done|..].
  - intros n. by rewrite (nd_use _ _ _ _ _ Hnd), (pr_use _ _ _ _ _ Hpr), Hu1.
  - intros n Hn Hnd'. assert (n <> m) as Hnm by (by intros ->). assert (in_use v1 n) as Hn1 by (apply Hu1; by left).
    destruct (Hk1 n Hn) as [E1 F1], (pr_kept _ _ _ _ _ Hpr n Hn1 Hnd' Hnm) as [E2 F2], (nd_kept _ _ _ _ _ Hnd n) as [E3 F3]; [by apply (pr_use _ _ _ _ _ Hpr)|done|]. split; congruence.
  - unfold FsPath.is_dir in *. by rewrite (nd_type _ _ _ _ _ Hnd), (pr_type _ _ _ _ _ Hpr), Ed.
  - intros name. rewrite (nd_child _ _ _ _ _ Hnd). unfold child. rewrite (pr_content _ _ _ _ _ Hpr), Fd.
    assert (same_name name nm <-> same_name name e) as Hiff by (unfold same_name in *; by rewrite He).
    destruct (decide (same_name name nm)), (decide (same_name name e)); (done || naive_solver).
  - by rewrite (nd_nlink _ _ _ _ _ Hnd), (pr_nlink _ _ _ _ _ Hpr), Ed.
  - intros Htd. destruct (pr_file _ _ _ _ _ Hpr Htd) as [E _]. congruence.
  - intros Htd. destruct (pr_sub _ _ _ _ _ Hpr Htd) as (S1 & S2 & S3). unfold FsPath.is_dir in *. rewrite Em. split_and!; [done|done|].
    intros name. rewrite (kept_child v2 v3) by done. apply S3.
Qed.

Lemma create_new_run T L v ic s dp d nm e type major minor :
  fs_at ∅ L v ic s -> fs_ok v -> cache_ok sb me v [dp] ic -> slot_for T dp (i_inum d) -> table_of ic = open_ref dp (i_inum d) T ->
  uniq_refs T -> refs_below (2 ^ 31 - 2) T -> two_free T -> ic !! dp = Some d -> i_disk d = disk_inode v (i_inum d) -> is_dir v (i_inum d) = true ->
  bytes nm -> same_name nm e -> child v (i_inum d) e = None -> create_room v (i_inum d) type -> (size L + 17 <= txn_cap)%nat ->
  is_i16 type -> is_i16 major -> is_i16 minor -> type <> 0 ->
  wp (create_new devread devwrite dp nm type major minor) (fun r s' => exists ip m L' v' ic', r = Some ip /\ fs_at ∅ L' v' ic' s' /\ (size L' <= size L + 14)%nat /\
    fs_ok v' /\ cache_ok sb me v' [ip] ic' /\ slot_for T ip m /\ table_of ic' = open_ref ip m T /\ adds v v' (i_inum d) e m type major minor) s.
Proof.
  intros Hs Hv Hc Hslot Ht Hun Hbel Hfree Hdp Hd Hdir Hb Hsame Hno (Hfi & Hsl & Hnf & Hsub) Hcap Hty Hma Hmi Ht0.
  assert (refs_below (2 ^ 31 - 1) (table_of ic)) as Hb1 by (rewrite Ht; by apply opened_below).
  assert (one_free (table_of ic)) as Hone by (rewrite Ht; by apply two_free_open).
  destruct (Hc dp d Hdp) as (_ & Hl & Hu). rewrite bool_decide_eq_true_2 in Hl by (by left). destruct Hl as (_ & _ & Hr). destruct (Hu Hr) as (Hdev & Hin & _).
  unfold create_new. rewrite wp_bind. eapply geti_wp; [exact Hs|done|]. rewrite Hdev.
  eapply (new_inode_run _ _ L v [dp] ic s); try done; [lia|]. intros ip m ic1 v1 s1 L1 Hs1 Hv1 Hlk Hc1 Hfm Hsl1 Ht1 Hic1 (i1 & Hi1 & Em & Edi) Ex Hcont Hk1 Hu1 Ebm.
  destruct (free_not_used v m Hfm) as [_ Hmno]. assert (ip <> dp) as Hne by (intros ->; apply Hlk; by left). assert (m <> i_inum d) as Hmd by (by intros ->).
  assert (size L1 <= size L + 1)%nat as HL1. { unfold L1. pose proof (size_union_le {[IBLOCK m sb]} L) as Hsz. rewrite size_singleton in Hsz. lia. }
  assert (dir_at v1 (ip :: [dp]) ic1 dp d) as Hda.
  { destruct (Hk1 _ Hin) as [E1 _]. split; [by rewrite Hic1|right; by left|by rewrite E1|unfold FsPath.is_dir; by rewrite E1|apply Hu1; by left]. }
  assert (uniq_refs (table_of ic1)) as Hun1 by (rewrite Ht1, Ht; apply uniq_open; [by apply uniq_open|by rewrite <- Ht]).
  assert (nfree sb v1 = nfree sb v) as Hf1 by (by apply nfree_bm). destruct (Hk1 _ Hin) as [Ed1 Ec1].
  rewrite wp_bind. eapply wp_mono; [eapply (subdir_run L1 v1 (ip :: [dp]) ic1 s1 dp d ip i1 type); rewrite ?Em, ?Ex, ?Ed1, ?Hf1; try done|].
  { by left. } { apply Hu1. by right. } { intros Htd. destruct (Hsub Htd). split; [done|lia]. } { lia. }
  rewrite Em. intros [] s2 (L2 & v2 & ic2 & d2 & i2 & Hs2 & HL2 & Hv2 & Hc2 & Ht2 & Ed2 & Hda2 & Hi2 & Ei2 & Hpr).
  rewrite wp_bind. eapply geti_wp; [exact Hs2|done|]. rewrite Ei2. rewrite wp_bind.
  pose proof (pr_free _ _ _ _ _ Hpr) as Hf2. pose proof (pr_content _ _ _ _ _ Hpr) as Ec2. rewrite Ec1 in Ec2.
  eapply wp_mono; [eapply (dirlink_step L2 v2 (ip :: [dp]) ic2 s2 dp d2 nm m); rewrite ?Ed2, ?Ec2; try done|].
  { by rewrite Ht2. } { apply (pr_use _ _ _ _ _ Hpr), Hu1. by right. } { rewrite (child_same _ _ nm e) by done. unfold child. by rewrite Ec2. }
  { destruct (Z.eqb_spec type T_DIR) as [Etd|]; [destruct (Hsub Etd)|]; lia. } { lia. }
  rewrite Ed2. intros r s3 [-> (L3 & v3 & d3 & Hs3 & HL3 & Hv3 & Hc3 & Ht3 & Ed3 & Hda3 & Hnd)]. cbn zeta in *. cbn [Z.ltb Z.compare].
  rewrite wp_bind. eapply wp_mono; [eapply (iunlockput_cache sb me dstart Hlay devread (fk_tree v3 Hv3) (L := L3) ltac:(lia) [ip] _ s3 dp)|].
  { exact Hs3. } { intros k i Hk. specialize (Hc3 k i Hk). rewrite (bool_decide_ext (k ∈ [dp; ip]) (k ∈ [ip; dp])); [done|]. clear. set_solver. }
  { intros E%list_elem_of_singleton. by apply Hne. } { rewrite length_insert. destruct Hda2 as [X _ _ _ _]. by eapply lookup_lt_Some. }
  { rewrite Ht3, Ht2, Ht1, Ht. replace (2 ^ 31) with (2 ^ 31 - 1 + 1) by lia. apply refs_below_open; [lia|]. by apply opened_below. }
  intros [] s4 (ic4 & Hs4 & Hc4 & Ht4). apply wp_ret. exists ip, m, L3, v3, ic4. rewrite Ht in Hsl1. split_and!; try done; [lia|by eapply slot_open| |].
  - rewrite Ht4, Ht3, Ht2, Ht1, Ht. by apply close_open_open.
  - by eapply (adds_named v v1 v2 v3).
Qed.

(** ** create *)

Section call.
Context {v : Z -> list Z} (Hv : fs_ok v) {L : gset Z} (Hcap : (size L + 17 <= txn_cap)%nat).
Context (T : list (option (Z * Z))) (Hun : uniq_refs T) (HT : refs_below (2 ^ 31 - 2) T) (Hfree : two_free T).
Context (type major minor : Z) (Hty : is_i16 type) (Hma : is_i16 major) (Hmi : is_i16 minor) (Ht0 : type <> 0).

Lemma cap3 : (size L + 3 <= txn_cap)%nat.
Proof. lia. Qed.

(** The name is there already. *)
Definition existing (n : Z) (r : option nat) s' : Prop :=
  exists ic', fs_at ∅ L v ic' s' /\
    if (type =? T_FILE) && (d_type (disk_inode v n) =? T_FILE) then
      exists ip, r = Some ip /\ cache_ok sb me v [ip] ic' /\ slot_for T ip n /\ table_of ic' = open_ref ip n T
    else r = None /\ cache_ok sb me v [] ic' /\ table_of ic' = T.
(** The file is made. *)
Definition created (d : Z) (e : list Z) (r : option nat) s' : Prop :=
  exists ip m L' v' ic', r = Some ip /\ fs_at ∅ L' v' ic' s' /\ (size L' <= size L + 14)%nat /\ fs_ok v' /\ cache_ok sb me v' [ip] ic' /\
    slot_for T ip m /\ table_of ic' = open_ref ip m T /\ adds v v' d e m type major minor.

Lemma existing_run ic s ip n :
  fs_at ∅ L v ic s -> cache_ok sb me v [] ic -> slot_for T ip n -> table_of ic = open_ref ip n T ->
  wp (ilock ip;;; let! i := geti ip in if (type =? T_FILE) && (i_type i =? T_FILE) then ret (Some ip) else iunlockput ip;;; ret None) (existing n) s.
Proof.
  intros Hs Hc Hslot Ht. destruct (opened ic T ip n Ht Hslot) as (i & Hip & Ei & Hr). rewrite wp_bind.
  eapply wp_mono; [eapply (ilock_cache sb me dstart Hlay devread (fk_tree v Hv) cap3 [] ic s ip i); [done|done|apply not_elem_of_nil|done|done]|].
  intros [] s1 (ic1 & i1 & Hs1 & Hc1 & Ht1 & Hip1 & Ei1 & Hd1). rewrite wp_bind. eapply geti_wp; [exact Hs1|done|]. rewrite Ei in *.
  change (i_type i1) with (d_type (i_disk i1)). rewrite Hd1. unfold existing. destruct ((type =? T_FILE) && _).
  - apply wp_ret. exists ic1. split; [done|]. exists ip. by rewrite Ht1.
  - rewrite wp_bind. eapply wp_mono; [eapply (iunlockput_cache sb me dstart Hlay devread (fk_tree v Hv) cap3 [] ic1 s1 ip)|].
    { done. } { done. } { apply not_elem_of_nil. } { by eapply lookup_lt_Some. }
    { rewrite Ht1, Ht. pose proof (opened_below T ip n HT) as Hb. intros k m r E. specialize (Hb k m r E). lia. }
    intros [] s2 (ic2 & Hs2 & Hc2 & Ht2). apply wp_ret. exists ic2. split_and!; [done|done|done|]. by rewrite Ht2, Ht1, Ht, close_open.
Qed.

Lemma create_found ic s dp d nm e :
  fs_at ∅ L v ic s -> cache_ok sb me v [] ic -> slot_for T dp d -> table_of ic = open_ref dp d T -> is_dir v d = true -> bytes nm -> same_name nm e ->
  (child v d e = None -> create_room v d type) ->
  wp (ilock dp;;; let! found := dirlookup devread dp nm in
      match found with
      | Some (ip, _) => iunlockput dp;;; ilock ip;;; let! i := geti ip in if (type =? T_FILE) && (i_type i =? T_FILE) then ret (Some ip) else iunlockput ip;;; ret None
      | None => create_new devread devwrite dp nm type major minor
      end) (fun r s' => match child v d e with Some n => existing n r s' | None => created d e r s' end) s.
Proof.
  intros Hs Hc Hslot Ht Hdir Hb Hsame Hroom. destruct (opened ic T dp d Ht Hslot) as (i & Hip & <- & Hr). rewrite wp_bind.
  eapply wp_mono; [eapply (ilock_cache sb me dstart Hlay devread (fk_tree v Hv) cap3 [] ic s dp i); [done|done|apply not_elem_of_nil|done|done]|].
  intros [] s1 (ic1 & d1 & Hs1 & Hc1 & Ht1 & Hd1 & Ei & Edisk). rewrite Ht in Ht1. rewrite <- Ei in *.
  pose proof (opened_below T dp (i_inum d1) HT) as Hbel. pose proof (two_free_open T dp (i_inum d1) Hfree) as Hone. rewrite <- Ht1 in Hbel, Hone.
  rewrite wp_bind. eapply wp_mono; [eapply (dirlookup_cache sb me dstart Hlay devread (fk_tree v Hv) cap3 [dp] ic1 s1 dp d1 nm e); try done; by left|].
  intros r s2. unfold child. destruct (lookup_name _ e) as [[off j]|] eqn:El; cbn [fmap option_fmap option_map snd].
  - intros (nx & ic2 & -> & Hs2 & Hc2 & Hlen & Hsl2 & Ht2). rewrite Ht1 in Hsl2, Ht2. rewrite wp_bind.
    eapply wp_mono; [eapply (iunlockput_cache sb me dstart Hlay devread (fk_tree v Hv) cap3 [] ic2 s2 dp)|].
    { done. } { done. } { apply not_elem_of_nil. } { rewrite Hlen. by eapply lookup_lt_Some. }
    { rewrite Ht2. replace (2 ^ 31) with (2 ^ 31 - 1 + 1) by lia. apply refs_below_open; [lia|]. by rewrite <- Ht1. }
    intros [] s3 (ic3 & Hs3 & Hc3 & Ht3). eapply existing_run; [done|done|by eapply slot_open|]. rewrite Ht3, Ht2. by apply close_open_open.
  - intros [-> Hs2]. assert (child v (i_inum d1) e = None) as Hno by (by apply child_None).
    eapply wp_mono; [by eapply (create_new_run T L v ic1 s2 dp d1 nm e); try done; apply Hroom|]. done.
Qed.
End call.

Lemma adds_paths v v' d e m type major minor n es j :
  tree_ok sb dstart v -> adds v v' d e m type major minor -> child v d e = None -> in_use v n -> walk sb v n es = Some j -> walk sb v' n es = Some j.
Proof.
  intros Ht Hadd Hno Hn. apply walk_mono; [done|done|]. intros k Hkin Hkd. destruct (decide (k = d)) as [->|Hne].
  - split; [apply Hadd|]. intros name c Hc. rewrite (ad_child _ _ _ _ _ _ _ _ Hadd). destruct (decide (same_name name e)) as [Hs|]; [|done]. by rewrite (child_same _ _ _ _ Hs), Hno in Hc.
  - destruct (ad_kept _ _ _ _ _ _ _ _ Hadd k Hkin Hne) as [E1 E2]. unfold FsPath.is_dir, child in *. rewrite E1, E2. done.
Qed.

Lemma walk_parent_dir v n es d e :
  walk_parent sb v n es = Some d -> last es = Some e -> is_dir v d = true /\ exists es', es = es' ++ [e] /\ walk sb v n es' = Some d.
Proof.
  intros Hw He. destruct es as [|x es]; [done|]. apply last_Some in He as [es' E]. rewrite E in *. unfold walk_parent in Hw.
  destruct (es' ++ [e]) as [|y l] eqn:E'; [by destruct es'|]. rewrite <- E', removelast_last in Hw.
  destruct (walk sb v n es') as [d'|] eqn:Ew; [|done]. destruct (is_dir v d') eqn:Hd; [|done]. injection Hw as <-. split; [done|]. by exists es'.
Qed.

(** Property C13: [create] on a file system in order, when there is room. If the
    path does not lead to a directory it returns null; if its last element is
    there already, it returns that inode locked when both are files, else null;
    the disk is not changed. Otherwise it makes an inode that was free, with one
    link, and returns it locked: a file or a device as asked for, or a directory
    with its two dots and one more link to its parent. The path leads to it,
    every path that led to an inode leads to the same one, every other file is
    as it was and the file system is again in order. The inode cache has one
    more reference, to the inode returned, if any. *)
Theorem create_adds_file L v ic s junk cwd path type major minor n :
  fs_ok v -> (size L + 17 <= txn_cap)%nat -> fs_at ∅ L v ic s -> cache_ok sb me v [] ic ->
  uniq_refs (table_of ic) -> refs_below (2 ^ 31 - 2) (table_of ic) -> two_free (table_of ic) -> starts ic cwd path n ->
  length junk = NAMELEN -> bytes junk -> bytes path -> 0 ∉ path ->
  is_i16 type -> is_i16 major -> is_i16 minor -> type <> 0 ->
  (forall d e, walk_parent sb v n (elems path) = Some d -> last (elems path) = Some e -> child v d e = None -> create_room v d type) ->
  wp (create devread devwrite junk cwd path type major minor) (fun r s' =>
    match walk_parent sb v n (elems path), last (elems path) with
    | Some d, Some e =>
        match child v d e with
        | Some m => existing (v := v) (L := L) (table_of ic) type m r s'
        | None => exists ip m L' v' ic', r = Some ip /\ fs_at ∅ L' v' ic' s' /\ (size L' <= size L + 14)%nat /\ fs_ok v' /\ cache_ok sb me v' [ip] ic' /\
            slot_for (table_of ic) ip m /\ table_of ic' = open_ref ip m (table_of ic) /\ adds v v' d e m type major minor /\
            walk sb v' n (elems path) = Some m /\ forall k es j, in_use v k -> walk sb v k es = Some j -> walk sb v' k es = Some j
        end
    | _, _ => exists ic', r = None /\ fs_at ∅ L v ic' s' /\ cache_ok sb me v [] ic' /\ table_of ic' = table_of ic
    end) s.
Proof.
  intros Hv Hcap Hs Hc Hun HT Hfree Hst Hj Hbj Hp Hz Hty Hma Hmi Ht0 Hroom.
  assert (in_use v n) as Hn.
  { unfold starts in Hst. destruct (bool_decide _); [subst n; apply (fk_tree v Hv)|]. destruct Hst as (c & Hcw & Hr & _ & <-). by destruct (Hc cwd c Hcw) as (_ & _ & Hu); apply Hu. }
  unfold create. rewrite wp_bind. unfold nameiparent.
  eapply wp_mono; [by eapply (namex_run sb me dstart Hlay devread L v ic s cwd path true junk n (fk_tree v Hv)); try done; lia|].
  intros [r nm] s1 (ic1 & Hs1 & Hc1 & Hres & Hleft). rewrite target_walk in Hres. cbn [fst snd] in *. unfold left_name in Hleft. cbn [fst snd] in Hleft.
  destruct (walk_parent sb v n (elems path)) as [d|] eqn:Ew; cbn [resolved] in Hres.
  2:{ destruct Hres as [-> Ht1]. apply wp_ret. by exists ic1. }
  destruct Hres as (dp & -> & Hslot & Ht1). destruct (Hleft eq_refl ltac:(done)) as (e & He & Hsame & Hbn). rewrite He.
  destruct (walk_parent_dir v n (elems path) d e Ew He) as (Hdir & es & Ees & Ews).
  eapply wp_mono; [by eapply (create_found Hv Hcap (table_of ic) Hun HT Hfree type major minor Hty Hma Hmi Ht0 ic1 s1 dp d nm e); try done; apply Hroom|].
  intros r s2. destruct (child v d e) as [m|] eqn:Ech; [done|].
  intros (ip & m & L' & v' & ic' & -> & Hs2 & HL & Hv' & Hc2 & Hsl & Ht2 & Hadd). exists ip, m, L', v', ic'. split_and!; try done.
  - rewrite Ees, walk_snoc. pose proof (adds_paths v v' d e m _ _ _ n es d (fk_tree v Hv) Hadd Ech Hn Ews) as ->.
    rewrite (ad_dir _ _ _ _ _ _ _ _ Hadd), (ad_child _ _ _ _ _ _ _ _ Hadd). by rewrite decide_True.
  - intros k es' j Hk. by eapply adds_paths; [apply Hv|..].
Qed.
End create.

(** ** A new file in the small file system *)

Lemma tiny_owns n b : in_use tiny_sb tiny_v n -> own tiny_v (node tiny_sb tiny_v n) b -> b = n + 58.
Proof.
  intros [-> | ->]%tiny_used.
  - rewrite (own_eq tiny_v root_i) by (by vm_compute). intros [Hb [E|(bn & Hbn & E)]]; [done|]. rewrite root_addr in E by lia. case_decide; done.
  - rewrite (own_eq tiny_v tiny_i) by (by vm_compute). intros [Hb [E|(bn & Hbn & E)]]; [done|]. rewrite tiny_addr in E by lia. case_decide; done.
Qed.
Lemma tiny_fs_ok : fs_ok tiny_sb 59 tiny_v.
Proof.
  split; [exact tiny_tree|by intros [?|?]%tiny_used|..].
  - assert (i_size (node tiny_sb tiny_v 1) = 48 /\ i_size (node tiny_sb tiny_v 2) = 5) as [E1 E2] by (split; by vm_compute).
    intros n [-> | ->]%tiny_used bn Hb1 Hb2; [rewrite E1 in Hb2|rewrite E2 in Hb2]; (assert (bn = 0) as -> by (change BSIZE with 512 in *; lia)); by vm_compute.
  - intros m n b Hm Hn Hne H1%(tiny_owns _ _ Hm) H2%(tiny_owns _ _ Hn). lia.
Qed.

Lemma create_demo : walk_parent tiny_sb tiny_v 1 (elems [47; 98]) = Some 1 /\ last (elems [47; 98]) = Some [98] /\ child tiny_sb tiny_v 1 [98] = None.
Proof. split_and!; by vm_compute. Qed.

(** [create("/b", T_DIR, 0, 0)]. *)
Lemma create_adds_file_witness :
  wp (create (fun _ => None) (fun _ => None) (replicate NAMELEN 7) 0 [47; 98] T_DIR 0 0) (fun r s' => exists ip m v', r = Some ip /\
    walk tiny_sb v' 1 [[98]] = Some m /\ walk tiny_sb v' 1 [[97]] = Some 2 /\ walk tiny_sb v' m [DOTDOT] = Some 1) tree_fs.
Proof.
  eapply wp_mono.
  - apply (create_adds_file tiny_sb 1 59 tiny_layout (fun _ => None) (fun _ => None) ∅ tiny_v tree_icache tree_fs (replicate NAMELEN 7) 0 [47; 98] T_DIR 0 0 1 tiny_fs_ok).
    + rewrite size_empty. apply Nat.leb_le. by vm_compute.
    + destruct tiny_at as [_ _ _ Hb]. split; [reflexivity..|exact Hb].
    + intros k i [-> _]%lookup_replicate. rewrite bool_decide_eq_false_2 by (apply not_elem_of_nil). by split_and!.
    + intros j k n r r' E. apply table_lookup in E as (i & [-> _]%lookup_replicate & E). done.
    + intros k n r E. apply table_lookup in E as (i & [-> _]%lookup_replicate & E). done.
    + exists 0%nat, 1%nat. split_and!; [discriminate|reflexivity|reflexivity].
    + reflexivity.
    + reflexivity.
    + by apply (bool_decide_eq_true_1 (Forall is_u8 _)).
    + by apply (bool_decide_eq_true_1 (Forall is_u8 _)).
    + apply (bool_decide_eq_true_1 (0 ∉ _)). by vm_compute.
    + by unfold is_i16.
    + by unfold is_i16.
    + by unfold is_i16.
    + discriminate.
    + intros d e. rewrite (proj1 create_demo). intros [= <-] _ _. split; [exists 3; split; [done|by vm_compute]|]. split; [by vm_compute|].
      split; [apply Nat.leb_le; by vm_compute|]. intros _. split; [split; by vm_compute|apply Nat.leb_le; by vm_compute].
  - intros r s'. destruct create_demo as (E1 & E2 & E3). rewrite E1, E2, E3. clear E1 E2 E3.
    intros (ip & m & L' & v' & ic' & -> & _ & _ & _ & _ & _ & _ & Hadd & Hw & Hkeep). exists ip, m, v'.
    split_and!; [done|exact Hw|apply Hkeep; [apply tiny_tree|by vm_compute]|]. destruct (ad_sub _ _ _ _ _ _ _ _ _ Hadd eq_refl) as (Hd & _ & Hch).
    cbn [walk]. rewrite Hd. specialize (Hch DOTDOT). rewrite decide_True in Hch by done. unfold child in Hch. by destruct (lookup_name _ DOTDOT) as [[off k]|].
Defined.
