(* ===== verification/FsUnlink.v ===== *)
(** * FsUnlink: removing a name (itrunc and iput of fs.c, sys_unlink of sysfile.c)

    [itrunc] frees exactly the blocks of a file, the last [iput] of an inode
    without links frees the inode, and [unlink] takes one name out of a tree of
    directories: the other names, files and paths stay. *)

From stdpp Require Import base list numbers gmap strings.
From S2P Require Import Prelude Bytes Params Sleeplock Bio Log Blocks Fs FsInv FsDemo FsInode FsMap FsFile File FileData Sysfile FsDir FsPath FsCreate.

Local Open Scope Z_scope.
Local Open Scope os_scope.

(** ** Lists of addresses *)

Definition nonzero (l : list Z) : list Z := filter (fun a => a <> 0) l.
Lemma elem_of_nonzero a l : a ∈ nonzero l <-> a <> 0 /\ a ∈ l.
Proof. unfold nonzero. by rewrite list_elem_of_filter. Qed.
Lemma nonzero_app l k : nonzero (l ++ k) = nonzero l ++ nonzero k.
Proof. apply filter_app. Qed.
Lemma nonzero_nil l : (forall a, a ∈ l -> a = 0) -> nonzero l = [].
Proof.
  unfold nonzero. induction l as [|a l IH]; intros Hl; [done|]. rewrite filter_cons, decide_False.
  - apply IH. intros b Hb. apply Hl. by right.
  - intros Ha. apply Ha, Hl. by left.
Qed.
Lemma nodup_nonzero (f : Z -> Z) l :
  NoDup l -> (forall a b, a ∈ l -> b ∈ l -> f a <> 0 -> f a = f b -> a = b) -> NoDup (nonzero (f <$> l)).
Proof.
  unfold nonzero. induction 1 as [|a l Ha Hl IH]; intros Hf; [constructor|]. rewrite fmap_cons, filter_cons.
  assert (NoDup (nonzero (f <$> l))) as Hn by (apply IH; intros x y Hx Hy; apply Hf; by right).
  destruct (decide (f a <> 0)) as [H0|]; [|done]. constructor; [|done].
  intros [_ (b & E & Hb)%list_elem_of_fmap]%list_elem_of_filter. apply Ha. rewrite (Hf a b); [done|by left|by right|done|done].
Qed.

(** ** A directory without an entry *)

Definition no_entry : list Z := replicate (Z.to_nat DIRENTSZ) 0.
(** At most one entry has this name. *)
Definition once (c name : list Z) : Prop :=
  forall j k d d', entries c !! j = Some d -> entries c !! k = Some d' -> names name d -> names name d' -> j = k.

Lemma lookup_name_at c name off n :
  lookup_name c name = Some (off, n) -> exists k d, entries c !! k = Some d /\ names name d /\ off = DIRENTSZ * Z.of_nat k /\ n = de_inum d.
Proof.
  unfold lookup_name. destruct (list_find _ _) as [[k d]|] eqn:E; [|done]. intros [= <- <-]. apply list_find_Some in E as (Hk & Hp & _). by exists k, d.
Qed.
Lemma no_entry_not name : ~ names name no_entry.
Proof. by intros [Hz _]. Qed.
Lemma lookup_name_unlink c name n k d name' :
  length c = (ENTLEN * n)%nat -> entries c !! k = Some d -> names name d -> once c name ->
  lookup_name (take (ENTLEN * k) c ++ no_entry ++ drop (ENTLEN * k + ENTLEN) c) name' =
  if decide (same_name name' name) then None else lookup_name c name'.
Proof.
  intros Hc Hk Hd Ho. assert (length (entries c) = n) as Hn by (rewrite length_entries, Hc, Nat.mul_comm; by apply Nat.div_mul).
  pose proof (lookup_lt_Some _ _ _ Hk) as Hlt. unfold lookup_name. rewrite (entries_splice c _ k n) by (done || lia).
  destruct (decide (same_name name' name)) as [Hs|Hs].
  - rewrite (proj2 (list_find_None _ _)); [done|].
    assert (forall x, names name' x -> names name x) as Hsub by (unfold names, same_name in *; intros x [? ?]; split; [done|congruence]).
    apply Forall_app. split; [|apply Forall_cons; split; [apply no_entry_not|]]; apply Forall_lookup; intros j x Hj Hx%Hsub.
    + apply lookup_take_Some in Hj as [Hj Hjk]. pose proof (Ho j k x d Hj Hk Hx Hd). lia.
    + rewrite lookup_drop in Hj. pose proof (Ho _ k x d Hj Hk Hx Hd). lia.
  - rewrite find_replace; [|lia|].
    + by rewrite (decide_False (P := names name' no_entry)) by apply no_entry_not.
    + intros x. rewrite Hk. intros [= <-] [_ Hx]. apply Hs. destruct Hd as [_ Hd]. unfold same_name in *. congruence.
Qed.

Section free.
Context {B : Type} `{BlockLaws B} (sb : superblock) (me dstart : Z) (Hlay : layout sb dstart).
Implicit Types (s : fs B) (Hd : gmap nat (Z * bool)) (L : gset Z) (v : Z -> list Z) (ic : list inode) (i : inode).
#[local] Abbreviation fs_at := (fs_at sb me).
#[local] Abbreviation disk_inode := (disk_inode sb).
#[local] Abbreviation used := (used sb).
#[local] Abbreviation file_ok := (file_ok sb dstart).
#[local] Abbreviation is_data := (is_data sb dstart).
#[local] Abbreviation bm := (bm sb).

(** ** Freeing blocks *)

(** The blocks [l] are freed one after the other. *)
Definition frees v (l : list Z) : Z -> list Z := foldl (freed sb) v l.

Lemma frees_ne v l b : b <> bm -> frees v l b = v b.
Proof. intros Hb. unfold frees. revert v. induction l as [|a l IH]; intros v; [done|]. cbn. rewrite IH. unfold freed. by rewrite fupd_ne. Qed.
Lemma frees_bm v v' l : v' bm = v bm -> frees v' l bm = frees v l bm.
Proof. unfold frees. revert v v'. induction l as [|a l IH]; intros v v' E; [done|]. cbn. apply IH. unfold freed. by rewrite !fupd_eq, E. Qed.
Lemma frees_block v l b : (forall c, block (v c)) -> block (frees v l b).
Proof.
  unfold frees. revert v. induction l as [|a l IH]; intros v Hv; [done|]. cbn. apply IH. intros c. unfold freed.
  destruct (decide (c = bm)) as [->|]; [rewrite fupd_eq; by apply block_bit_clear|by rewrite fupd_ne].
Qed.
Lemma frees_used v l b :
  (forall c, block (v c)) -> Forall is_data l -> 0 <= b < BPB -> used (frees v l) b = negb (bool_decide (b ∈ l)) && used v b.
Proof.
  unfold frees. intros Hv Hl Hb. revert v Hv. induction Hl as [|a l Ha Hl IH]; intros v Hv; [done|]. cbn.
  rewrite IH by (intros c; by apply (frees_block v [a])). rewrite (used_freed sb dstart) by done.
  destruct (decide (b = a)) as [->|Hne].
  - rewrite (bool_decide_true (a = a)), (bool_decide_true (a ∈ a :: l)) by (done || by left). by rewrite andb_false_r.
  - rewrite (bool_decide_false (b = a)) by done. rewrite (bool_decide_ext (b ∈ a :: l) (b ∈ l)) by (rewrite elem_of_cons; naive_solver). done.
Qed.
Lemma frees_snoc v l a : freed sb (frees v l) a = frees v (l ++ [a]).
Proof. unfold frees. by rewrite foldl_app. Qed.

(** The blocks in [l] can be freed. *)
Definition freeable v (l : list Z) : Prop := NoDup l /\ Forall (fun a => is_data a /\ used v a = true) l.

Lemma freeable_data v l : freeable v l -> Forall is_data l.
Proof. intros [_ Hl]. eapply Forall_impl; [exact Hl|]. by intros a []. Qed.
Lemma freeable_next v l a k : (forall c, block (v c)) -> freeable v (l ++ a :: k) -> is_data a /\ used (frees v l) a = true.
Proof.
  intros Hv [Hnd Hl]. apply Forall_app in Hl as [H1' [[Ha Hu] _]%Forall_cons]. apply NoDup_app in Hnd as (_ & Hno & _). split; [done|].
  rewrite frees_used; [|done|eapply Forall_impl; [exact H1'|by intros c []]|by eapply data_bit].
  rewrite bool_decide_false; [done|]. intros Hin. apply (Hno a Hin). by left.
Qed.

(** What a run of frees logs. *)
Definition bm_logged L L' : Prop := L ⊆ L' /\ L' ⊆ {[bm]} ∪ L.
Lemma bm_logged_refl L : bm_logged L L.
Proof. split; set_solver. Qed.
Lemma bm_logged_step L L' : bm_logged L L' -> bm_logged L ({[bm]} ∪ L').
Proof. unfold bm_logged. set_solver. Qed.
Lemma bm_logged_size L L' : bm_logged L L' -> (size L' <= size L + 1)%nat.
Proof. intros [_ Hs]. apply subseteq_size in Hs. pose proof (size_union_le {[bm]} L) as Hu. rewrite size_singleton in Hu. lia. Qed.

(** One more block, if there is one. *)
Lemma free_next Hd L L' v ic s pre a post :
  fs_at Hd L' (frees v (nonzero pre)) ic s -> (forall c, block (v c)) -> freeable v (nonzero (pre ++ a :: post)) ->
  not_held Hd bm -> (size Hd < 3)%nat -> bm_logged L L' -> (size L + 1 <= txn_cap)%nat ->
  wp (if a =? 0 then ret tt else bfree ROOTDEV a)
    (fun _ s' => exists L'', fs_at Hd L'' (frees v (nonzero (pre ++ [a]))) ic s' /\ bm_logged L L'') s.
Proof.
  intros Hs Hv Hl Hn H3 HL Hc. rewrite !nonzero_app in *. unfold nonzero at 2 in Hl. unfold nonzero at 2. rewrite filter_cons in *.
  destruct (Z.eqb_spec a 0) as [->|Ha].
  - apply wp_ret. exists L'. split; [|done]. cbn. by rewrite app_nil_r.
  - rewrite decide_True in * by done. destruct (freeable_next _ _ _ _ Hv Hl) as [Hda Hu].
    pose proof (bm_logged_size _ _ (bm_logged_step _ _ HL)). rewrite filter_nil.
    eapply wp_mono; [eapply (bfree_run sb me dstart Hlay); try done; lia|]. intros [] s' Hs'. eexists. split; [by rewrite <- frees_snoc|]. by apply bm_logged_step.
Qed.

(** The second loop of [itrunc]. *)
Lemma itrunc_indirect_run Hd L L' v ic s pre a :
  fs_at Hd L' (frees v (nonzero pre)) ic s -> (forall c, block (v c)) -> freeable v (nonzero (pre ++ a)) ->
  not_held Hd bm -> (size Hd < 3)%nat -> bm_logged L L' -> (size L + 1 <= txn_cap)%nat ->
  wp (itrunc_indirect ROOTDEV a) (fun _ s' => exists L'', fs_at Hd L'' (frees v (nonzero (pre ++ a))) ic s' /\ bm_logged L L'') s.
Proof.
  revert pre L' s. induction a as [|x a IH]; intros pre L' s Hs Hv Hl Hn H3 HL Hc; cbn [itrunc_indirect].
  - apply wp_ret. exists L'. by rewrite app_nil_r.
  - rewrite wp_bind. eapply wp_mono; [by eapply free_next|]. intros [] s1 (L1 & Hs1 & HL1).
    rewrite (cons_middle x pre a), app_assoc in Hl |- *. by eapply IH.
Qed.

(** ** The blocks of a file *)

Definition blocks_of v i : list Z := nonzero ((addr_at v i <$> seqZ 0 MAXFILE) ++ [ind_addr i]).

Lemma blocks_of_own v i b : b ∈ blocks_of v i <-> own v i b.
Proof.
  unfold blocks_of, own. rewrite elem_of_nonzero, elem_of_app, list_elem_of_singleton, list_elem_of_fmap. split.
  - intros [Hb [(bn & -> & Hbn%elem_of_seqZ)|Hi]]; (split; [done|]); [right|by left]. exists bn. split; [lia|done].
  - intros [Hb [Hi|(bn & Hbn & E)]]; (split; [done|]); [by right|left]. exists bn. split; [done|]. apply elem_of_seqZ. lia.
Qed.
Lemma blocks_of_freeable v i : file_ok v i -> freeable v (blocks_of v i).
Proof.
  intros Hf. split.
  - unfold blocks_of. rewrite nonzero_app. apply NoDup_app. split_and!.
    + apply nodup_nonzero; [apply NoDup_seqZ|]. intros a b Ha%elem_of_seqZ Hb%elem_of_seqZ. apply Hf; lia.
    + intros b [Hb (bn & -> & Hbn%elem_of_seqZ)%list_elem_of_fmap]%elem_of_nonzero [_ E%list_elem_of_singleton]%elem_of_nonzero.
      by apply (fo_ind_ne _ _ _ _ Hf bn) in E; [|lia|].
    + unfold nonzero. rewrite filter_cons. destruct (decide _); [apply NoDup_singleton|constructor].
  - apply Forall_forall. intros b [Hb Ho]%blocks_of_own.
    assert (ref_ok sb dstart v b) as [?|?] by (destruct Ho as [->|(bn & Hbn & ->)]; by apply Hf); done.
Qed.

(** The addresses as [itrunc] finds them. *)
Lemma direct_addrs v i k :
  length (i_addrs i) = 13%nat -> (k <= 12)%nat -> take k (i_addrs i) = addr_at v i <$> seqZ 0 (Z.of_nat k).
Proof.
  intros Hl Hk. apply (list_eq_same_length _ _ k); [rewrite length_fmap, length_seqZ; lia|rewrite length_take; lia|].
  intros j a b Hj Ha Hb. rewrite lookup_take in Ha. rewrite decide_True in Ha by done.
  rewrite list_lookup_fmap, lookup_seqZ_lt in Hb by lia. cbn in Hb. injection Hb as <-. unfold addr_at.
  rewrite (proj2 (Z.ltb_lt _ _)) by (change NDIRECT with 12; lia). rewrite Z.add_0_l, Nat2Z.id. symmetry. by apply nth_lookup_Some.
Qed.
Lemma indirect_addrs v i : ind_addr i <> 0 -> ind_entries (v (ind_addr i)) = addr_at v i <$> seqZ NDIRECT NINDIRECT.
Proof.
  intros Hi. apply (list_eq_same_length _ _ (Z.to_nat NINDIRECT)); [by rewrite length_fmap, length_seqZ|unfold ind_entries; by rewrite length_fmap, length_seq|].
  intros j a b Hj Ha Hb. unfold ind_entries in Ha. rewrite list_lookup_fmap, lookup_seq_lt in Ha by done. cbn [fmap option_fmap option_map] in Ha. injection Ha as <-.
  rewrite list_lookup_fmap, lookup_seqZ_lt in Hb by lia. cbn in Hb. injection Hb as <-. unfold addr_at.
  rewrite (proj2 (Z.ltb_ge _ _)) by lia. rewrite (proj2 (Z.eqb_neq _ _)) by done. f_equal. change NDIRECT with 12. lia.
Qed.
Lemma blocks_of_split v i :
  length (i_addrs i) = 13%nat ->
  blocks_of v i = nonzero (take 12 (i_addrs i) ++ (if decide (ind_addr i = 0) then [] else ind_entries (v (ind_addr i)) ++ [ind_addr i])).
Proof.
  intros Hl. unfold blocks_of. rewrite (seqZ_split 0 12 MAXFILE) by done. rewrite fmap_app, <- app_assoc, !nonzero_app.
  rewrite (direct_addrs v i 12) by lia. change (Z.of_nat 12) with 12. f_equal. destruct (decide (ind_addr i = 0)) as [E|Hne].
  - rewrite E. cbn [nonzero filter list_filter]. rewrite app_nil_r. apply nonzero_nil.
    intros x (bn & -> & Hbn%elem_of_seqZ)%list_elem_of_fmap. unfold addr_at. rewrite (proj2 (Z.ltb_ge _ _)) by (change NDIRECT with 12; lia).
    by rewrite E.
  - rewrite indirect_addrs by done. by rewrite nonzero_app.
Qed.

(** ** itrunc *)

(** The inode without blocks. *)
Definition emptied i : inode := set_i_size 0 (set_i_addrs (replicate 13 0) i).

Definition cleared (k : nat) i : inode := set_i_addrs (replicate k 0 ++ drop k (i_addrs i)) i.
Lemma cleared_addr k i : (k < length (i_addrs i))%nat -> nth k (i_addrs (cleared k i)) 0 = nth k (i_addrs i) 0.
Proof. intros Hk. cbn. rewrite app_nth2 by (rewrite length_replicate; lia). rewrite length_replicate, Nat.sub_diag, !nth_lookup, lookup_drop. by rewrite Nat.add_0_r. Qed.
Lemma cleared_next k i : (k < length (i_addrs i))%nat -> set_i_addrs (<[k := 0]> (i_addrs (cleared k i))) (cleared k i) = cleared (S k) i.
Proof.
  intros Hk. destruct (lookup_lt_is_Some_2 _ _ Hk) as [a Ha]. unfold cleared. cbn [i_addrs set_i_addrs]. rewrite (drop_S _ a k) by done.
  rewrite insert_app_r_alt by (rewrite length_replicate; lia). rewrite length_replicate, Nat.sub_diag. cbn [insert list_insert].
  rewrite replicate_S_end, <- app_assoc. done.
Qed.
Lemma cleared_same k i : (k < length (i_addrs i))%nat -> nth k (i_addrs i) 0 = 0 -> cleared k i = cleared (S k) i.
Proof.
  intros Hk Hz. destruct (lookup_lt_is_Some_2 _ _ Hk) as [a Ha]. unfold cleared. rewrite (drop_S _ a k), replicate_S_end, <- app_assoc by done.
  rewrite (nth_lookup_Some _ _ _ _ Ha) in Hz. by rewrite Hz.
Qed.

(** The first loop. *)
Lemma itrunc_direct_run L v ic s ip i :
  fs_at ∅ L v ic s -> ic !! ip = Some i -> file_ok v i -> (size L + 1 <= txn_cap)%nat ->
  wp (for_loop (Z.to_nat NDIRECT) 0 (itrunc_direct ip))
    (fun _ s' => exists L', fs_at ∅ L' (frees v (nonzero (take 12 (i_addrs i)))) (<[ip := cleared 12 i]> ic) s' /\ bm_logged L L') s.
Proof.
  intros Hs Hip Hf Hc. pose proof (fo_len _ _ _ _ Hf) as Hlen. pose proof (lookup_lt_Some _ _ _ Hip) as Hlt.
  pose proof (blocks_of_freeable v i Hf) as Hfree. rewrite blocks_of_split in Hfree by done.
  eapply wp_mono; [apply (wp_for (fun k s => exists L', fs_at ∅ L' (frees v (nonzero (take (Z.to_nat k) (i_addrs i)))) (<[ip := cleared (Z.to_nat k) i]> ic) s /\ bm_logged L L'))|].
  - change (Z.of_nat (Z.to_nat NDIRECT)) with 12. intros k s1 Hk (L1 & Hs1 & HL1). unfold itrunc_direct. rewrite wp_bind.
    eapply geti_wp; [exact Hs1|by apply list_lookup_insert_eq|]. cbv zeta. rewrite cleared_addr by lia. change (i_dev (cleared (Z.to_nat k) i)) with (i_dev i). rewrite (fo_dev _ _ _ _ Hf).
    replace (Z.to_nat (k + 1)) with (S (Z.to_nat k)) by lia. set (n := Z.to_nat k) in *.
    destruct (lookup_lt_is_Some_2 (i_addrs i) n) as [a Ha]; [lia|]. rewrite (nth_lookup_Some _ _ _ _ Ha), (take_S_r _ _ a) by done.
    assert (freeable v (nonzero (take n (i_addrs i) ++ a :: (take (11 - n) (drop (S n) (i_addrs i)) ++
      (if decide (ind_addr i = 0) then [] else ind_entries (v (ind_addr i)) ++ [ind_addr i]))))) as Hfr.
    { rewrite app_comm_cons, app_assoc. rewrite <- (take_drop n (take 12 (i_addrs i))), take_take, skipn_firstn_comm, (drop_S _ a n) in Hfree by done.
      replace (n `min` 12)%nat with n in Hfree by lia. replace (12 - n)%nat with (S (11 - n)) in Hfree by lia. exact Hfree. }
    pose proof (free_next ∅ L L1 v _ s1 _ _ _ Hs1 (fun c => fs_block _ _ _ _ _ _ _ c Hs) Hfr (not_held_empty _) ltac:(rewrite map_size_empty; lia) HL1 Hc) as Hn.
    destruct (Z.eqb_spec a 0) as [E|Hne].
    + eapply wp_mono; [exact Hn|]. intros [] s2 (L2 & Hs2 & HL2). exists L2. split; [|done]. rewrite <- cleared_same; [done|lia|by rewrite (nth_lookup_Some _ _ _ _ Ha)].
    + rewrite wp_bind. eapply wp_mono; [exact Hn|]. intros [] s2 (L2 & Hs2 & HL2). eapply wp_mono; [by eapply updi_wp|]. intros [] s3 Hs3. exists L2. split; [|done].
      erewrite list_alter_insert, list_insert_insert_eq in Hs3 by (by apply list_lookup_insert_eq). by rewrite cleared_next in Hs3 by lia.
  - exists L. split; [|apply bm_logged_refl]. cbn. rewrite list_insert_id; [done|]. rewrite Hip. by destruct i.
  - done.
Qed.

(** The indirect block and its entries. *)
Lemma itrunc_ind_run L L1 v ic s ip i :
  fs_at ∅ L1 (frees v (nonzero (take 12 (i_addrs i)))) ic s -> (forall c, block (v c)) -> ic !! ip = Some (cleared 12 i) -> file_ok v i ->
  bm_logged L L1 -> (size L + 1 <= txn_cap)%nat ->
  wp (let! j := geti ip in
      let ind := nth (Z.to_nat NDIRECT) (i_addrs j) 0 in
      if ind =? 0 then ret tt
      else
        let! bp := onb (b_read (i_dev j) ind) in
        let! d := onb (b_get bp) in
        itrunc_indirect (i_dev j) (ind_entries d);;;
        onb (b_release bp);;;
        bfree (i_dev j) ind;;;
        updi ip (fun i => set_i_addrs (<[Z.to_nat NDIRECT := 0]> (i_addrs i)) i))
    (fun _ s' => exists L', fs_at ∅ L' (frees v (blocks_of v i)) (<[ip := cleared 13 i]> ic) s' /\ bm_logged L L') s.
Proof.
  intros Hs Hv Hip Hf HL Hc. pose proof (fo_len _ _ _ _ Hf) as Hlen. pose proof (blocks_of_freeable v i Hf) as Hfree.
  rewrite blocks_of_split in * by done. rewrite wp_bind. eapply geti_wp; [exact Hs|done|]. cbv zeta. change (Z.to_nat NDIRECT) with 12%nat.
  rewrite cleared_addr by lia. change (nth 12 (i_addrs i) 0) with (ind_addr i). change (i_dev (cleared 12 i)) with (i_dev i). rewrite (fo_dev _ _ _ _ Hf).
  destruct (Z.eqb_spec (ind_addr i) 0) as [E|Hne].
  - rewrite decide_True, app_nil_r by done. apply wp_ret. exists L1. split; [|done]. rewrite list_insert_id; [done|]. rewrite Hip. f_equal. apply cleared_same; [lia|exact E].
  - rewrite decide_False in * by done. destruct (fo_ind _ _ _ _ Hf) as [?|[Hda Hu]]; [done|]. pose proof (data_ne_bm sb dstart Hlay _ Hda) as Hbm.
    pose proof (bm_logged_size _ _ HL). pose proof (home_range _ (lay_data _ _ Hlay _ Hda)).
    eapply fetch_wp; [exact Hs|lia|apply not_held_empty|rewrite map_size_empty; lia|lia|]. intros bp s1 Hbp Hs1. rewrite frees_ne by done.
    rewrite app_assoc in Hfree |- *. rewrite wp_bind.
    eapply wp_mono; [eapply (itrunc_indirect_run _ L L1 v _ s1); [exact Hs1|done| |intros k m; by rewrite insert_empty, lookup_singleton_Some; intros [_ [= ? _]]| |done|done]|].
    { destruct Hfree as [Hnd Hall]. rewrite nonzero_app in Hnd, Hall. split; [by apply NoDup_app in Hnd as [? _]|by apply Forall_app in Hall as [? _]]. }
    { rewrite insert_empty, map_size_singleton. lia. }
    intros [] s2 (L2 & Hs2 & HL2). eapply drop_wp; [exact Hs2|done|]. intros s3 Hs3. rewrite wp_bind.
    pose proof (free_next ∅ L L2 v _ s3 _ _ [] Hs3 Hv Hfree (not_held_empty _) ltac:(rewrite map_size_empty; lia) HL2 Hc) as Hn. rewrite (proj2 (Z.eqb_neq _ _)) in Hn by done.
    eapply wp_mono; [exact Hn|]. intros [] s4 (L4 & Hs4 & HL4). eapply wp_mono; [by eapply updi_wp|]. intros [] s5 Hs5. exists L4. split; [|done].
    erewrite list_alter_insert in Hs5 by done. by rewrite cleared_next in Hs5 by lia.
Qed.

(** [itrunc] frees the blocks of the file and writes the empty inode. *)
Lemma itrunc_run L v ic s ip i :
  fs_at ∅ L v ic s -> ic !! ip = Some i -> file_ok v i -> (size L + 2 <= txn_cap)%nat ->
  wp (itrunc ip) (fun _ s' => exists L', fs_at ∅ L' (put_inode sb (frees v (blocks_of v i)) (i_inum i) (i_disk (emptied i))) (<[ip := emptied i]> ic) s' /\
    L' ⊆ {[IBLOCK (i_inum i) sb; bm]} ∪ L) s.
Proof.
  intros Hs Hip Hf Hc. pose proof (fo_len _ _ _ _ Hf) as Hlen. pose proof (lookup_lt_Some _ _ _ Hip) as Hlt.
  assert (forall c, block (v c)) as Hv by (intros c; by eapply fs_block).
  unfold itrunc. rewrite wp_bind. eapply wp_mono; [eapply (itrunc_direct_run L v ic s ip i); (done || lia)|]. intros [] s1 (L1 & Hs1 & HL1).
  pose proof (itrunc_ind_run L L1 v _ s1 ip i Hs1 Hv ltac:(by apply list_lookup_insert_eq) Hf HL1 ltac:(lia)) as Hi.
  rewrite wp_bind in Hi |- *. eapply wp_mono; [exact Hi|]. intros j s2. cbn beta zeta. intros Hw. rewrite wp_bind. eapply wp_mono; [exact Hw|].
  intros [] s3 (L3 & Hs3 & HL3). rewrite wp_bind. eapply wp_mono; [by eapply updi_wp|]. intros [] s4 Hs4.
  erewrite list_alter_insert in Hs4 by (apply list_lookup_insert_eq; by rewrite length_insert).
  rewrite !list_insert_insert_eq in Hs4. assert (set_i_size 0 (cleared 13 i) = emptied i) as Ee.
  { unfold cleared, emptied. by rewrite drop_ge, app_nil_r by lia. }
  rewrite Ee in Hs4. pose proof (bm_logged_size _ _ HL3). pose proof (size_union_le {[IBLOCK (i_inum i) sb]} L3) as Hsz. rewrite size_singleton in Hsz.
  eapply wp_mono; [eapply (iupdate_run sb me dstart Hlay ∅ L3 _ _ s4 ip (emptied i)); [exact Hs4|by apply list_lookup_insert_eq|apply Hf|apply Hf|apply not_held_empty|rewrite map_size_empty; lia|]|].
  { change (i_inum (emptied i)) with (i_inum i). lia. }
  intros [] s5 Hs5. eexists. split; [exact Hs5|]. destruct HL3 as [_ HL3]. change (i_inum (emptied i)) with (i_inum i). clear -HL3. set_solver.
Qed.

(** ** The last reference to an inode without links *)

Definition gone i : dinode := i_disk (set_i_type 0 (emptied i)).
Lemma gone_wf i : dinode_wf (i_disk i) -> dinode_wf (gone i) /\ dinode_wf (i_disk (emptied i)).
Proof.
  intros [? ? ? ? ? ? ?]. assert (Forall is_u32 (replicate 13 0)) by (apply Forall_replicate; by unfold is_u32). split; split; try done; by unfold is_i16, is_u32.
Qed.
(** The file system without inode [i] and its blocks. *)
Definition erased v i : Z -> list Z := put_inode sb (frees v (blocks_of v i)) (i_inum i) (gone i).

Lemma iput_last_run L v ic s ip i :
  fs_at ∅ L v ic s -> ic !! ip = Some i -> sl_locked (i_lock i) = false -> i_valid i = true -> i_nlink i = 0 -> i_ref i = 1 ->
  file_ok v i -> dinode_wf (i_disk i) -> (size L + 2 <= txn_cap)%nat ->
  wp (iput ip) (fun _ s' => exists L' x, fs_at ∅ L' (erased v i) (<[ip := x]> ic) s' /\ L' ⊆ {[IBLOCK (i_inum i) sb; bm]} ∪ L /\
    i_ref x = 0 /\ sl_locked (i_lock x) = false) s.
Proof.
  intros Hs Hip Hl Hval Hnl Hr Hf Hwf Hc. pose proof (lookup_lt_Some _ _ _ Hip) as Hlt.
  unfold iput. rewrite wp_bind. eapply wp_mono; [by eapply acquire_inode_wp|]. intros [] s1 Hs1. set (i1 := set_i_lock (my_lock me) i) in *.
  rewrite wp_bind. eapply geti_wp; [exact Hs1|by apply list_lookup_insert_eq|]. cbn [i_nlink set_i_lock i_valid i_ref i1]. rewrite Hval, Hnl, Hr. change (true && (0 =? 0) && (1 =? 1)) with true. cbv iota.
  rewrite wp_bind, wp_bind. eapply wp_mono; [eapply (itrunc_run L v _ s1 ip i1); [done|by apply list_lookup_insert_eq|by apply file_ok_lock|lia]|].
  intros [] s2 (L2 & Hs2 & HL2). change (i_inum i1) with (i_inum i) in *. change (blocks_of v i1) with (blocks_of v i) in Hs2. rewrite list_insert_insert_eq in Hs2.
  rewrite wp_bind. eapply wp_mono; [by eapply updi_wp|]. intros [] s3 Hs3.
  erewrite list_alter_insert, list_insert_insert_eq in Hs3 by (by apply list_lookup_insert_eq).
  assert ({[IBLOCK (i_inum i) sb]} ∪ L2 ⊆ {[IBLOCK (i_inum i) sb; bm]} ∪ L) as HL3 by (clear -HL2; set_solver).
  assert (size ({[IBLOCK (i_inum i) sb]} ∪ L2) <= txn_cap)%nat as Hsz.
  { eapply size_cap; [exact HL3|]. pose proof (size_union_le {[IBLOCK (i_inum i) sb; bm]} L). pose proof (size_union_le {[IBLOCK (i_inum i) sb]} {[bm]}) as E. rewrite !size_singleton in E. lia. }
  rewrite wp_bind. eapply wp_mono; [eapply (iupdate_run sb me dstart Hlay ∅ L2 _ _ s3 ip); [exact Hs3|by apply list_lookup_insert_eq|apply Hf|apply Hf|apply not_held_empty|rewrite map_size_empty; lia|exact Hsz]|].
  intros [] s4 Hs4. change (i_inum (set_i_type 0 (emptied i1))) with (i_inum i) in Hs4.
  change (i_disk (set_i_type 0 (emptied i1))) with (gone i) in Hs4. change (i_disk (emptied i1)) with (i_disk (emptied i)) in Hs4.
  destruct (gone_wf i Hwf) as [G1 G2]. eapply fs_at_ext in Hs4; [|intros b; exact (put_inode_twice sb _ (i_inum i) _ _ b G2 G1)].
  eapply wp_mono; [by eapply updi_wp|]. intros [] s5 Hs5. eapply wp_mono; [by eapply updi_wp|]. intros [] s6 Hs6.
  erewrite (list_alter_insert _ ip (<[ip:=set_i_type 0 (emptied i1)]> ic)), list_insert_insert_eq in Hs6 by (by apply list_lookup_insert_eq).
  erewrite list_alter_insert, list_insert_insert_eq in Hs6 by (by apply list_lookup_insert_eq).
  eexists _, _. split; [exact Hs6|]. split; [done|]. cbn [i_ref set_i_ref set_i_valid set_i_type emptied set_i_size set_i_addrs set_i_lock i1 i_lock]. by rewrite Hr.
Qed.
End free.

(** ** The file system without a file *)

Section unlink.
Context {B : Type} `{BlockLaws B} `{TxnOps B} (sb : superblock) (me dstart : Z) (Hlay : layout sb dstart).
Context (devread : Z -> option (nat -> Z -> M (fs B) (Z * list Z))).
Context (devwrite : Z -> option (nat -> list Z -> M (fs B) Z)).
Implicit Types (s : fs B) (L : gset Z) (v : Z -> list Z) (ic : list inode) (i : inode).
#[local] Abbreviation fs_at := (fs_at sb me).
#[local] Abbreviation disk_inode := (disk_inode sb).
#[local] Abbreviation node := (node sb).
#[local] Abbreviation in_use := (in_use sb).
#[local] Abbreviation is_dir := (is_dir sb).
#[local] Abbreviation used := (used sb).
#[local] Abbreviation file_ok := (file_ok sb dstart).
#[local] Abbreviation fs_ok := (fs_ok sb dstart).
#[local] Abbreviation kept := (kept sb).
#[local] Abbreviation child := (child sb).
#[local] Abbreviation bm := (bm sb).

(** What taking inode [n] away leaves. *)
Record without v v' (n : Z) : Prop := {
  wo_use m : in_use v' m <-> in_use v m /\ m <> n;
  wo_kept m : in_use v m -> m <> n -> kept v v' m;
  wo_used b : 0 <= b < BPB -> used v' b = true <-> used v b = true /\ ~ own v (node v n) b
}.

Section erase.
Context {v : Z -> list Z} {i : inode} (Hv : fs_ok v) (Hblk : forall b, block (v b)) (Hn : in_use v (i_inum i))
  (Ha : i_addrs i = i_addrs (node v (i_inum i))) (Hwf : dinode_wf (i_disk i)).
#[local] Abbreviation v' := (erased sb v i).
#[local] Abbreviation n := (i_inum i).

Lemma erased_own b : b ∈ blocks_of v i <-> own v (node v n) b.
Proof. rewrite blocks_of_own. by apply own_eq. Qed.
Lemma erased_data : Forall (is_data sb dstart) (blocks_of v i).
Proof.
  apply Forall_forall. intros b [Hb Ho]%erased_own. pose proof (tr_file _ _ _ (fk_tree _ _ v Hv) n Hn) as Hf.
  assert (ref_ok sb dstart v b) as [?|[? _]] by (destruct Ho as [->|(bn & Hbn & ->)]; by apply Hf); done.
Qed.
Lemma erased_ne b : b <> bm -> b <> IBLOCK n sb -> v' b = v b.
Proof. intros Hb Hi. unfold erased. rewrite put_inode_ne by done. by apply frees_ne. Qed.
Lemma erased_bit b : 0 <= b < BPB -> used v' b = negb (bool_decide (b ∈ blocks_of v i)) && used v b.
Proof. intros Hb. unfold erased. rewrite (put_inode_used sb dstart Hlay) by apply Hn. apply (frees_used sb dstart Hlay); [done|apply erased_data|done]. Qed.
Lemma erased_disk m : inum_ok sb m -> disk_inode v' m = if decide (m = n) then gone i else disk_inode v m.
Proof.
  intros Hm. unfold erased. pose proof (iblock_meta sb dstart Hlay m Hm) as [_ Hne]. destruct (decide (m = n)) as [->|Hmn].
  - apply disk_inode_put; [by apply frees_block|exact (proj1 (gone_wf i Hwf))].
  - destruct Hm, Hn as [[? ?] _]. rewrite disk_inode_put_ne; [unfold FsInode.disk_inode; by rewrite frees_ne|done|done|done|exact (proj1 (gone_wf i Hwf))].
Qed.
Lemma erased_frame m b : in_use v m -> m <> n -> own v (node v m) b -> v' b = v b /\ used v' b = true.
Proof.
  intros Hm Hne Hown. pose proof (tr_file _ _ _ (fk_tree _ _ v Hv) m Hm) as Hf. destruct (own_range sb dstart Hlay _ _ _ Hf Hown) as [Hr Hu]. split.
  - pose proof (bm_range sb dstart Hlay). destruct (iblock_meta sb dstart Hlay n) as [? _]; [apply Hn|]. pose proof (lay_bm_data _ _ Hlay).
    apply erased_ne; intros ->; eapply (meta_not_own sb dstart); [exact Hf| |exact Hown|exact Hf| |exact Hown]; unfold FsInv.bm in *; lia.
  - rewrite erased_bit by done. rewrite Hu, bool_decide_false; [done|]. intros Ho%erased_own. by apply (fk_apart _ _ v Hv m n b).
Qed.
Lemma erased_use m : in_use v' m <-> in_use v m /\ m <> n.
Proof.
  unfold FsPath.in_use. split.
  - intros [Hm Ht]. rewrite erased_disk in Ht by done. by destruct (decide (m = n)).
  - intros [[Hm Ht] Hne]. split; [done|]. rewrite erased_disk by done. by rewrite decide_False.
Qed.
Lemma erased_kept m : in_use v m -> m <> n -> kept v v' m.
Proof.
  intros Hm Hne. assert (disk_inode v' m = disk_inode v m) as E by (rewrite erased_disk by apply Hm; by rewrite decide_False).
  split; [done|]. rewrite (node_eq sb v v' m E). apply (frame_full sb dstart (tr_file _ _ _ (fk_tree _ _ v Hv) m Hm)); [intros b; by apply erased_frame|]. by apply (fk_full _ _ v Hv).
Qed.
Lemma erased_without : without v v' n.
Proof.
  split; [apply erased_use|apply erased_kept|]. intros b Hb. rewrite erased_bit by done. rewrite <- erased_own. destruct (bool_decide_reflect (b ∈ blocks_of v i)); cbn; naive_solver.
Qed.

(** Nothing but the inode itself names it: the file system is in order. *)
Lemma erased_fs :
  n <> ROOTINO -> (forall m name, in_use v m -> m <> n -> is_dir v m = true -> child v m name <> Some n) -> fs_ok v'.
Proof.
  intros Hroot Hrefs. pose proof (fk_tree _ _ v Hv) as HT.
  assert (forall m, in_use v m -> m <> n -> node v' m = node v m) as En by (intros m Hm Hne; by apply node_eq, erased_kept).
  assert (forall m, in_use v m -> m <> n -> is_dir v' m = is_dir v m) as Ed by (intros m Hm Hne; unfold FsPath.is_dir; by destruct (erased_kept m Hm Hne) as [-> _]).
  assert (forall m b, in_use v m -> m <> n -> own v' (node v' m) b <-> own v (node v m) b) as Eo.
  { intros m b Hm Hne. rewrite En by done. apply frame_own. intros b'. by apply (erased_frame m). }
  split; [split|..].
  - intros b Hb. pose proof (dstart_pos sb dstart Hlay). pose proof (lay_bm_data _ _ Hlay). pose proof (size_BPB sb dstart Hlay).
    rewrite erased_bit by lia. rewrite (tr_meta _ _ _ HT b Hb), bool_decide_false; [done|]. intros Hin. pose proof erased_data as Hd. rewrite Forall_forall in Hd. specialize (Hd b Hin). unfold is_data in Hd. lia.
  - apply erased_use. split; [apply HT|done].
  - intros m [Hm Hne]%erased_use. destruct (erased_kept m Hm Hne) as [-> _]. by apply HT.
  - intros m [Hm Hne]%erased_use. rewrite En by done. apply (frame_file sb dstart (tr_file _ _ _ HT m Hm)); intros b; by apply erased_frame.
  - intros m [Hm Hne]%erased_use. rewrite Ed by done. intros Hdir. destruct (erased_kept m Hm Hne) as [_ ->]. destruct (tr_dir _ _ _ HT m Hm Hdir) as (? & ? & ?).
    rewrite En by done. split_and!; [done| |done]. apply (frame_full sb dstart (tr_file _ _ _ HT m Hm)); [intros b; by apply erased_frame|done].
  - intros m name off j [Hm Hne]%erased_use. rewrite Ed by done. destruct (erased_kept m Hm Hne) as [_ ->]. intros Hdir El. apply erased_use. split; [by eapply (tr_entry _ _ _ HT m)|].
    intros ->. apply (Hrefs m name Hm Hne Hdir). unfold FsCreate.child. by rewrite El.
  - intros [Hz _]%erased_use. by apply (fk_zero _ _ v Hv).
  - intros m [Hm Hne]%erased_use. rewrite En by done. apply (frame_full sb dstart (tr_file _ _ _ HT m Hm)); [intros b; by apply erased_frame|by apply (fk_full _ _ v Hv)].
  - intros m1 m2 b [Hm1 Hne1]%erased_use [Hm2 Hne2]%erased_use Hne. rewrite !Eo by done. by apply (fk_apart _ _ v Hv).
Qed.
End erase.

(** ** The entry is cleared *)

Lemma entry_in_block k : (DIRENTSZ * Z.of_nat k) mod BSIZE + DIRENTSZ <= BSIZE.
Proof. change DIRENTSZ with 16. change BSIZE with 512. Z.to_euclidean_division_equations; lia. Qed.

Lemma clear_entry_run L v ic s dp d k :
  fs_at ∅ L v ic s -> dir_ok sb dstart v ic dp d -> dinode_wf (i_disk d) -> (k < length (entries (content v d)))%nat -> (size L + 3 <= txn_cap)%nat ->
  wp (writei devwrite dp no_entry (DIRENTSZ * Z.of_nat k) DIRENTSZ) (fun r s' => r = DIRENTSZ /\ exists b v', fs_at ∅ ({[b]} ∪ L) v' ic s' /\
    v' bm = v bm /\ written sb dstart v d v' d (DIRENTSZ * Z.of_nat k) no_entry) s.
Proof.
  intros Hs Hok Hwf Hk Hc. pose proof (entry_lt sb dstart Hok k) as Hlt. rewrite (proj2 (Nat.ltb_lt _ _)) in Hlt by done. apply Z.ltb_lt in Hlt.
  pose proof (length_dir sb dstart Hok) as Hl. pose proof (length_content sb dstart Hok) as Hlc.
  pose proof Hok as [He Ht _ Hfu _]. pose proof He as [Hip Hf Hme _]. pose proof (fo_size _ _ _ _ Hf) as Hsz. change (MAXFILE * BSIZE) with 71680 in *.
  set (off := DIRENTSZ * Z.of_nat k) in *. assert (0 <= off /\ off + 16 <= i_size d) as [Ho Hend].
  { unfold off. change DIRENTSZ with 16 in *. change ENTLEN with 16%nat in Hl. lia. }
  pose proof (entry_in_block k) as Hin. fold off in Hin. pose proof (Z.mod_pos_bound off BSIZE ltac:(done)) as Hmod.
  assert (0 <= off / BSIZE < MAXFILE) as Hbn by (apply (bn_range off (i_size d)); change (MAXFILE * BSIZE) with 71680; lia).
  assert (addr_at v d (off / BSIZE) <> 0) as Ha by (apply (no_holes_at _ _ _ (i_size d)); [done|lia]).
  unfold writei. rewrite wp_bind. eapply geti_wp; [done|done|]. rewrite Ht. change (T_DIR =? T_DEV) with false. cbv iota.
  change DIRENTSZ with 16 in *. rewrite u32_small by (unfold is_u32; lia). change (MAXFILE * BSIZE) with 71680.
  rewrite (proj2 (Z.ltb_ge (i_size d) off)), (proj2 (Z.ltb_ge (off + 16) off)), (proj2 (Z.ltb_ge 71680 _)) by lia. cbn [orb].
  change (block_rounds 16) with 2%nat. cbn [writei_loop]. change (0 <? 16) with true. cbv iota. rewrite !wp_bind.
  eapply wp_mono; [eapply (bmap_present sb me dstart Hlay L v ic s dp d (off / BSIZE)); done|]. intros a s1 [-> Hs1].
  rewrite wp_bind. eapply geti_wp; [exact Hs1|done|]. rewrite (fo_dev _ _ _ _ Hf). cbv zeta. change BSIZE with 512 in *. replace (Z.min (16 - 0) (512 - off mod 512)) with 16 by lia.
  change (take (Z.to_nat 16) no_entry) with no_entry. rewrite wp_bind. set (a := addr_at v d (off / 512)) in *.
  assert (is_data sb dstart a) as Hda by (by destruct (fo_data _ _ _ _ Hf (off / 512) Hbn) as [?|[? _]]).
  pose proof (size_union_le {[a]} L) as Hu. rewrite size_singleton in Hu.
  eapply wp_mono; [eapply modify_block_wp; [exact Hs1|by apply Hlay|apply not_held_empty|rewrite map_size_empty; lia|lia|]|].
  { intros x. unfold block. by rewrite length_splice. }
  intros [] s2 Hs2. change (0 + 16 <? 16) with false. cbv iota. apply wp_ret. rewrite wp_bind. eapply geti_wp; [exact Hs2|done|].
  rewrite (proj2 (Z.ltb_ge (i_size d) _)), andb_false_r by lia. cbv iota. rewrite wp_bind. apply wp_ret. apply wp_ret. split; [done|].
  set (v' := fupd v a _) in *. exists a, v'. split; [exact Hs2|]. split; [unfold v'; apply fupd_ne, not_eq_sym; by apply (data_ne_bm sb dstart)|].
  assert (forall b, block (v b)) as Hv by (intros b; by eapply fs_block).
  pose proof (wstep_block sb dstart Hlay off no_entry (mapped_refl sb dstart v d _ Hf Ha) Hf Hv Ha Ho Hin) as Hws.
  specialize (Hws Hbn ltac:(done)). pose proof (wstep_written sb dstart Hlay v d v' d off no_entry) as Hw.
  cbv zeta in Hw. unfold synced, grown in Hw. change (Z.of_nat (length no_entry)) with 16 in Hw. rewrite (proj2 (Z.ltb_ge (i_size d) (off + 16))) in Hw by lia.
  apply Hw; try done; [lia|change (MAXFILE * BSIZE) with 71680; lia|]. intros b. by eapply fs_block.
Qed.

(** The file system after that. *)
Record removed v v' (d : Z) (nm : list Z) : Prop := {
  rd_disk m : inum_ok sb m -> disk_inode v' m = disk_inode v m;
  rd_kept m : in_use v m -> m <> d -> kept v v' m;
  rd_child name : child v' d name = if decide (same_name name nm) then None else child v d name;
  rd_own m b : in_use v m -> m <> d -> own v' (node v' m) b <-> own v (node v m) b;
  rd_bits : v' bm = v bm
}.
Lemma removed_use v v' d nm m : removed v v' d nm -> in_use v' m <-> in_use v m.
Proof. intros Hr. unfold FsPath.in_use. split; intros [Hm Ht]; (split; [done|]); [rewrite <- (rd_disk _ _ _ _ Hr)|rewrite (rd_disk _ _ _ _ Hr)]; done. Qed.

Section clear.
Context {v v' : Z -> list Z} {ic : list inode} {dp : nat} {d : inode} {nm : list Z} {k : nat} {x : list Z}.
Context (Hv : fs_ok v) (Hdp : in_use v (i_inum d)) (Hdir : is_dir v (i_inum d) = true) (Hdd : i_disk d = disk_inode v (i_inum d))
  (Hok : dir_ok sb dstart v ic dp d) (Hk : entries (content v d) !! k = Some x) (Hx : names nm x) (Ho : once (content v d) nm)
  (Hbm : v' bm = v bm) (Hw : written sb dstart v d v' d (DIRENTSZ * Z.of_nat k) no_entry).

Lemma clear_content : content v' d = take (ENTLEN * k) (content v d) ++ no_entry ++ drop (ENTLEN * k + ENTLEN) (content v d).
Proof. rewrite (wr_content _ _ _ _ _ _ _ _ Hw). change (length no_entry) with ENTLEN. replace (Z.to_nat (DIRENTSZ * Z.of_nat k)) with (ENTLEN * k)%nat; [done|]. unfold ENTLEN. change DIRENTSZ with 16. lia. Qed.
Lemma clear_disk m : inum_ok sb m -> disk_inode v' m = disk_inode v m.
Proof.
  intros Hm. rewrite (wr_disk _ _ _ _ _ _ _ _ Hw) by done. destruct (decide (_ /\ _)) as [[-> _]|_]; [|done]. by rewrite Hdd.
Qed.
Lemma clear_node m : inum_ok sb m -> node v' m = node v m.
Proof. intros Hm. by apply node_eq, clear_disk. Qed.
Lemma clear_use m : in_use v' m <-> in_use v m.
Proof. unfold FsPath.in_use. split; intros [Hm Ht]; (split; [done|]); [rewrite <- clear_disk|rewrite clear_disk]; done. Qed.
(** The inode in the cache and the one on disk have the same contents. *)
Lemma clear_same w : i_size (node v (i_inum d)) = i_size d /\ i_addrs (node v (i_inum d)) = i_addrs d /\ content w (node v (i_inum d)) = content w d.
Proof.
  destruct (disk_fields sb d v (i_inum d) Hdd) as (Es & Ea & _). destruct (content_eq w _ _ Es Ea) as [Ec _]. done.
Qed.
Lemma clear_child name : child v' (i_inum d) name = if decide (same_name name nm) then None else child v (i_inum d) name.
Proof.
  unfold FsCreate.child. rewrite clear_node by apply Hdp. destruct (clear_same v) as (_ & _ & ->), (clear_same v') as (_ & _ & ->). rewrite clear_content.
  rewrite (lookup_name_unlink (content v d) nm (length (entries (content v d))) k x); [by destruct (decide _)|by eapply length_dir|done..].
Qed.

Lemma clear_fs : fs_ok v' /\ removed v v' (i_inum d) nm.
Proof.
  assert (forall m b, in_use v m -> m <> i_inum d -> own v (node v m) b -> v' b = v b) as Hfr by (intros; by eapply written_frame).
  pose proof (wr_used _ _ _ _ _ _ _ _ Hw) as Hus. assert (in_use v' (i_inum d)) as Hin by (by apply clear_use).
  assert (forall m, in_use v m -> m <> i_inum d -> disk_inode v' m = disk_inode v m) as Hd by (intros m [Hm _] _; by apply clear_disk).
  assert (forall m, in_use v' m -> in_use v m \/ m = i_inum d) as Hu by (intros m Hm; left; by apply clear_use).
  destruct (clear_same v) as (Es & Ea & _). destruct (clear_same v') as (_ & _ & Ec).
  pose proof (use_pos sb dstart v (i_inum d) Hv Hdp). assert (i_inum d <> 0) as Hd0 by lia.
  split; [|split; [apply clear_disk|intros m Hm Hne; by eapply (change_kept sb dstart Hv (i_inum d))|apply clear_child| |done]].
  2:{ intros m b Hm Hne. rewrite clear_node by apply Hm. apply frame_own. intros b'. by apply Hfr. }
  destruct (content_eq v' d (node v (i_inum d)) Es Ea) as [_ Eh].
  eapply (change_fs sb dstart Hlay Hv (i_inum d)); rewrite ?clear_node by apply Hdp; rewrite ?clear_disk by apply Hdp; try done.
  - by apply (fk_tree _ _ v Hv).
  - eapply (file_ok_eq sb dstart v' d); [|done..|apply Hw]. by rewrite (fo_dev _ _ _ _ (wr_file _ _ _ _ _ _ _ _ Hw)).
  - rewrite Es. apply Eh, Hw.
  - intros _. rewrite Es, Ec. split_and!; [apply Hok| |].
    + rewrite clear_content. repeat (apply Forall_app; split); [by apply Forall_take, Hok|by apply (bool_decide_eq_true_1 (Forall is_u8 _))|by apply Forall_drop, Hok].
    + intros name off j Hj. apply clear_use. pose proof (clear_child name) as Hc. unfold FsCreate.child in Hc. rewrite clear_node, Ec, Hj in Hc by apply Hdp.
      destruct (decide (same_name name nm)); [done|]. destruct (lookup_name (content v (node v (i_inum d))) name) as [[off' j']|] eqn:El; [|done].
      injection Hc as ->. by eapply (tr_entry _ _ _ (fk_tree _ _ v Hv)).
  - intros b Hb. left. split; [done|]. rewrite (own_eq v' d) in Hb by done. destruct (wr_own _ _ _ _ _ _ _ _ Hw b Hb) as [Hb'|Hb'].
    + by rewrite (own_eq v d).
    + exfalso. destruct (own_range sb dstart Hlay _ _ _ (wr_file _ _ _ _ _ _ _ _ Hw) Hb) as [_ E]. unfold FsInv.used in *. rewrite Hbm in E. congruence.
Qed.
End clear.

(** ** The last link *)

Lemma put_inode_ext v w n x b : (forall c, v c = w c) -> put_inode sb v n x b = put_inode sb w n x b.
Proof. intros E. unfold put_inode. destruct (decide (b = IBLOCK n sb)) as [->|]; [by rewrite !fupd_eq, E|by rewrite !fupd_ne]. Qed.
(** What the inode was on disk does not matter once it is erased. *)
Lemma erased_put v x i b :
  file_ok v i -> dinode_wf x -> dinode_wf (i_disk i) -> erased sb (put_inode sb v (i_inum i) x) i b = erased sb v i b.
Proof.
  intros Hf Hx Hi. destruct (iblock_meta sb dstart Hlay (i_inum i)) as [Hr Hbm]; [apply Hf|].
  assert (blocks_of (put_inode sb v (i_inum i) x) i = blocks_of v i) as E.
  { unfold blocks_of. do 2 f_equal. apply list_fmap_ext. intros k bn _. apply addr_at_fupd, not_eq_sym.
    eapply (ref_meta_ne sb dstart); [apply Hf|done]. }
  unfold erased. rewrite E, <- (put_inode_twice sb (frees sb v (blocks_of v i)) (i_inum i) x (gone i) b Hx (proj1 (gone_wf i Hi))).
  assert (forall c, frees sb (put_inode sb v (i_inum i) x) (blocks_of v i) c = put_inode sb (frees sb v (blocks_of v i)) (i_inum i) x c) as Ef.
  { intros c. destruct (decide (c = bm)) as [->|Hc].
    - rewrite put_inode_ne by congruence. apply frees_bm, put_inode_ne. congruence.
    - rewrite frees_ne by done. unfold put_inode. destruct (decide (c = IBLOCK (i_inum i) sb)) as [->|]; [rewrite !fupd_eq; by rewrite frees_ne|by rewrite !fupd_ne, frees_ne]. }
  by apply put_inode_ext.
Qed.

Lemma final_link_run L v ic s ip i :
  fs_at ∅ L v ic s -> fs_ok v -> cache_ok sb me v [ip] ic -> uniq_refs (table_of ic) -> ic !! ip = Some i -> i_disk i = disk_inode v (i_inum i) ->
  i_ref i = 1 -> i_nlink i = 1 -> i_inum i <> ROOTINO -> (size L + 3 <= txn_cap)%nat ->
  (forall m name, in_use v m -> m <> i_inum i -> is_dir v m = true -> child v m name <> Some (i_inum i)) ->
  wp (updi ip (fun i => set_i_nlink (i16 (i_nlink i - 1)) i);;; iupdate ip;;; iunlockput ip) (fun _ s' => exists L' v' ic', fs_at ∅ L' v' ic' s' /\
    (size L' <= size L + 2)%nat /\ fs_ok v' /\ cache_ok sb me v' [] ic' /\ table_of ic' = close_ref ip (table_of ic) /\ without v v' (i_inum i)) s.
Proof.
  intros Hs Hv Hc Hun Hip Hd Hr Hnl Hroot Hcap Hrefs. destruct (Hc ip i Hip) as (_ & Hl & Hu). rewrite bool_decide_eq_true_2 in Hl by (by left). destruct Hl as (Hl & Hval & _).
  destruct (Hu ltac:(lia)) as (Hdev & Hin & _). pose proof (lookup_lt_Some _ _ _ Hip) as Hlt. pose proof (fs_wf sb dstart Hlay v _ Hv Hin) as Hwf. rewrite <- Hd in Hwf.
  destruct (disk_fields sb i v (i_inum i) Hd) as (Es & Ea & _).
  assert (file_ok v i) as Hf by (apply (file_ok_eq sb dstart v (node v (i_inum i))); [done..|]; by apply (tr_file _ _ _ (fk_tree _ _ v Hv))).
  destruct (iblock_meta sb dstart Hlay (i_inum i)) as [Hib Hibm]; [apply Hin|].
  rewrite wp_bind. eapply wp_mono; [by eapply updi_wp|]. intros [] s1 Hs1. rewrite (list_alter_insert _ _ _ _ Hip) in Hs1. rewrite Hnl in Hs1. change (i16 (1 - 1)) with 0 in Hs1.
  set (i1 := set_i_nlink 0 i) in *. assert (dinode_wf (i_disk i1)) as Hwf1 by (destruct Hwf; by split).
  pose proof (size_union_le {[IBLOCK (i_inum i) sb]} L) as Hsz. rewrite size_singleton in Hsz. set (L1 := {[IBLOCK (i_inum i) sb]} ∪ L) in *.
  rewrite wp_bind. eapply wp_mono; [eapply (iupdate_run sb me dstart Hlay ∅ L v _ s1 ip i1); [done|by apply list_lookup_insert_eq|done|apply Hin|apply not_held_empty|rewrite map_size_empty; lia|change (i_inum i1) with (i_inum i); fold L1; lia]|].
  intros [] s2 Hs2. change (i_inum i1) with (i_inum i) in Hs2. fold L1 in Hs2. unfold iunlockput. rewrite wp_bind.
  eapply wp_mono; [eapply (iunlock_run sb me _ _ _ s2 ip i1); [exact Hs2|by apply list_lookup_insert_eq|done|cbn; lia]|].
  intros [] s3 Hs3. rewrite list_insert_insert_eq in Hs3. set (i2 := set_i_lock initsleeplock i1) in *.
  assert (file_ok v i2) as Hf2 by (by apply (file_ok_eq sb dstart v i)). assert (dinode_wf (i_disk i2)) as Hwf2 by exact Hwf1.
  assert (L1 ⊆ {[IBLOCK (i_inum i) sb; bm]} ∪ L) as HL1 by (clear; set_solver).
  assert (size ({[IBLOCK (i_inum i) sb; bm]} ∪ L) <= size L + 2)%nat as HL2.
  { pose proof (size_union_le {[IBLOCK (i_inum i) sb; bm]} L). pose proof (size_union_le {[IBLOCK (i_inum i) sb]} {[bm]}) as E. rewrite !size_singleton in E. lia. }
  eapply wp_mono; [eapply (iput_last_run sb me dstart Hlay L1 _ _ s3 ip i2); [exact Hs3|by apply list_lookup_insert_eq|done|done|done|done|by apply (file_ok_fupd_meta sb dstart)|done|]|].
  { lia. }
  intros [] s4 (L4 & x & Hs4 & HL4 & Hx1 & Hx2). change (i_inum i2) with (i_inum i) in HL4. rewrite list_insert_insert_eq in Hs4.
  eapply fs_at_ext in Hs4; [|intros b; by apply (erased_put v (i_disk i1) i2 b)].
  assert (forall b, block (v b)) as Hblk by (intros b; by eapply fs_block).
  exists L4, (erased sb v i2), (<[ip := x]> ic). split; [exact Hs4|]. split.
  { etrans; [apply subseteq_size, (transitivity HL4)|exact HL2]. clear -HL1. set_solver. }
  split; [by apply (erased_fs Hv Hblk (i := i2))|]. split_and!; [| |by apply (erased_without Hv Hblk (i := i2))].
  - intros k y Hk. rewrite bool_decide_eq_false_2 by apply not_elem_of_nil. destruct (decide (k = ip)) as [->|Hne].
    { rewrite list_lookup_insert_eq in Hk by done. injection Hk as <-. split; [lia|]. split; [done|]. lia. }
    rewrite list_lookup_insert_ne in Hk by done. destruct (Hc k y Hk) as (Y1 & Y2 & Y3). rewrite bool_decide_eq_false_2 in Y2 by (by rewrite list_elem_of_singleton).
    split; [done|]. split; [done|]. intros Hy. destruct (Y3 Hy) as (Yd & Yin & Yv).
    assert (i_inum y <> i_inum i2) as Hyn. { intros E. apply Hne. eapply (Hun k ip); [by apply table_at|]. rewrite E. exact (table_at ic ip i Hip ltac:(lia)). }
    split; [done|]. split; [by apply (erased_use Hblk (i := i2) Hin Hwf2)|]. intros Hyv. rewrite (Yv Hyv).
    by destruct (erased_kept Hv Hblk (i := i2) Hin Ea Hwf2 (i_inum y) Yin Hyn) as [-> _].
  - eapply table_insert; [done|]. unfold ref_of, ref_down. rewrite Hx1, Hr. done.
Qed.

(** ** One link less *)

Record lessened v v' (n k : Z) : Prop := {
  ls_use m : in_use v' m <-> in_use v m;
  ls_kept m : in_use v m -> m <> n -> kept v v' m;
  ls_content : content v' (node v' n) = content v (node v n);
  ls_type : d_type (disk_inode v' n) = d_type (disk_inode v n);
  ls_nlink : d_nlink (disk_inode v' n) = d_nlink (disk_inode v n) - k;
  ls_own m b : in_use v m -> own v' (node v' m) b <-> own v (node v m) b;
  ls_bits : v' bm = v bm
}.
Lemma lessened_refl v n : lessened v v n 0.
Proof. split; try done. lia. Qed.
Lemma lessened_child v v' n k m name : lessened v v' n k -> in_use v m -> child v' m name = child v m name.
Proof.
  intros Hl Hm. destruct (decide (m = n)) as [->|Hne]; [unfold FsCreate.child; by rewrite (ls_content _ _ _ _ Hl)|]. apply kept_child. by apply (ls_kept _ _ _ _ Hl).
Qed.
Lemma lessened_dir v v' n k m : lessened v v' n k -> in_use v m -> is_dir v' m = is_dir v m.
Proof.
  intros Hl Hm. unfold FsPath.is_dir. destruct (decide (m = n)) as [->|Hne]; [by rewrite (ls_type _ _ _ _ Hl)|]. by destruct (ls_kept _ _ _ _ Hl m Hm Hne) as [-> _].
Qed.

Lemma nlink_down (c : bool) L v lk ic s dp d :
  fs_at ∅ L v ic s -> fs_ok v -> cache_ok sb me v lk ic -> uniq_refs (table_of ic) -> ic !! dp = Some d -> dp ∈ lk ->
  i_disk d = disk_inode v (i_inum d) -> (c = true -> 2 <= i_nlink d) -> (size L + 1 <= txn_cap)%nat ->
  wp (if c then updi dp (fun d => set_i_nlink (i16 (i_nlink d - 1)) d);;; iupdate dp else ret tt) (fun _ s' => exists L' v' d', let ic' := <[dp := d']> ic in
    fs_at ∅ L' v' ic' s' /\ (size L' <= size L + 1)%nat /\ fs_ok v' /\ cache_ok sb me v' lk ic' /\ table_of ic' = table_of ic /\
    lessened v v' (i_inum d) (if c then 1 else 0)) s.
Proof.
  intros Hs Hv Hc Hun Hdp Hlk Hd Hnl Hcap. destruct c.
  2:{ apply wp_ret. exists L, v, d. rewrite list_insert_id by done. split_and!; try done; [lia|apply lessened_refl]. }
  specialize (Hnl eq_refl). destruct (Hc dp d Hdp) as (_ & Hl & Hu). rewrite bool_decide_eq_true_2 in Hl by done. destruct (Hu ltac:(apply Hl)) as (_ & Hin & _).
  pose proof (fs_wf sb dstart Hlay v _ Hv Hin) as Hwf. rewrite <- Hd in Hwf. destruct Hwf as [_ _ _ Hf _ _ _]. cbn [d_nlink i_disk] in Hf.
  assert (is_i16 (i_nlink d - 1)) as Hf' by (unfold is_i16 in *; lia). pose proof (i16_small _ Hf') as Ei.
  eapply wp_mono; [eapply (nlink_run sb me dstart Hlay (fun n => i16 (n - 1)) L v lk ic s dp d); rewrite ?Ei; (done || lia)|]. cbn beta. rewrite Ei.
  intros [] s2 (L' & v' & d' & Hs' & HL & Hv' & Hc' & Ht & Ed & Edi & Hu' & Hk & Ec & Ety & Ead & En & Hne). exists L', v', d'. split_and!; try done.
  destruct (iblock_meta sb dstart Hlay (i_inum d)) as [Hib Hibm]; [apply Hin|]. split; try done; [by rewrite En, <- Hd| |by apply Hne, not_eq_sym].
  intros m b Hm. assert (i_addrs (node v' m) = i_addrs (node v m)) as Ea.
  { change (d_addrs (disk_inode v' m) = d_addrs (disk_inode v m)). destruct (decide (m = i_inum d)) as [->|Hmd]; [done|]. by destruct (Hk m Hm Hmd) as [-> _]. }
  rewrite (own_eq v' (node v m)) by done. apply frame_own. intros b' Hb'. apply Hne. intros ->.
  eapply (meta_not_own sb dstart); [by apply (tr_file _ _ _ (fk_tree _ _ v Hv) m)|done|done].
Qed.

(** [ip] loses a link and the reference of the caller. *)
Definition dropped v v' (n : Z) : Prop :=
  if decide (d_nlink (disk_inode v n) = 1) then without v v' n else lessened v v' n 1.

Lemma drop_link_run L v ic s ip i :
  fs_at ∅ L v ic s -> fs_ok v -> cache_ok sb me v [ip] ic -> uniq_refs (table_of ic) -> refs_below (2 ^ 31) (table_of ic) -> ic !! ip = Some i ->
  i_disk i = disk_inode v (i_inum i) -> 1 <= i_nlink i ->
  (i_nlink i = 1 -> i_ref i = 1 /\ i_inum i <> ROOTINO /\ forall m name, in_use v m -> m <> i_inum i -> is_dir v m = true -> child v m name <> Some (i_inum i)) ->
  (size L + 4 <= txn_cap)%nat ->
  wp (updi ip (fun i => set_i_nlink (i16 (i_nlink i - 1)) i);;; iupdate ip;;; iunlockput ip) (fun _ s' => exists L' v' ic', fs_at ∅ L' v' ic' s' /\
    (size L' <= size L + 2)%nat /\ fs_ok v' /\ cache_ok sb me v' [] ic' /\ table_of ic' = close_ref ip (table_of ic) /\ dropped v v' (i_inum i)) s.
Proof.
  intros Hs Hv Hc Hun Hbel Hip Hd Hnl Hlast Hcap. unfold dropped. rewrite <- Hd. change (d_nlink (i_disk i)) with (i_nlink i).
  destruct (decide (i_nlink i = 1)) as [E|Hne].
  - destruct (Hlast E) as (Hr & Hroot & Hrefs). eapply final_link_run; try done. lia.
  - apply wp_seq. eapply wp_mono; [eapply (nlink_down true L v [ip] ic s ip i); try done; [by left|lia|lia]|].
    intros [] s1 (L1 & v1 & i1 & Hs1 & HL1 & Hv1 & Hc1 & Ht1 & Hls). cbn zeta in *.
    eapply wp_mono; [eapply (iunlockput_cache sb me dstart Hlay devread (fk_tree _ _ v1 Hv1) (L := L1) ltac:(lia) [] _ s1 ip); [done|done|apply not_elem_of_nil| |by rewrite Ht1]|].
    { rewrite length_insert. by eapply lookup_lt_Some. }
    intros [] s2 (ic2 & Hs2 & Hc2 & Ht2). exists L1, v1, ic2. rewrite Ht1 in Ht2. split_and!; try done. lia.
Qed.

(** ** The name is removed *)

(** Name [e] of inode [n] in directory [d] can be removed: link counts are
    right, the name is there once, and an inode that loses its last link is not
    open and has no other name. *)
Record removable v (T : list (option (Z * Z))) (d : Z) (e : list Z) (n : Z) : Prop := {
  rb_self : n <> d;
  rb_root : n <> ROOTINO;
  rb_nlink : 1 <= d_nlink (disk_inode v n);
  rb_once : once (content v (node v d)) e;
  rb_parent : is_dir v n = true -> 2 <= d_nlink (disk_inode v d);
  rb_last : d_nlink (disk_inode v n) = 1 -> (forall k r, T !! k <> Some (Some (n, r))) /\
    forall m name, in_use v m -> m <> n -> is_dir v m = true -> child v m name = Some n -> m = d /\ same_name name e
}.
(** The file system without it. *)
Record removes v v' (d : Z) (e : list Z) (n : Z) : Prop := {
  rv_use m : in_use v' m <-> in_use v m /\ (m = n -> d_nlink (disk_inode v n) <> 1);
  rv_kept m : in_use v m -> m <> d -> m <> n -> kept v v' m;
  rv_dir : is_dir v' d = true;
  rv_child name : child v' d name = if decide (same_name name e) then None else child v d name;
  rv_parent : d_nlink (disk_inode v' d) = if is_dir v n then d_nlink (disk_inode v d) - 1 else d_nlink (disk_inode v d);
  rv_file : d_nlink (disk_inode v n) <> 1 -> d_nlink (disk_inode v' n) = d_nlink (disk_inode v n) - 1 /\
    d_type (disk_inode v' n) = d_type (disk_inode v n) /\ content v' (node v' n) = content v (node v n);
  rv_blocks b : 0 <= b < BPB -> used v' b = true <-> used v b = true /\ (d_nlink (disk_inode v n) = 1 -> ~ own v (node v n) b)
}.

Section names.
Context {v v1 v2 v3 : Z -> list Z} {T : list (option (Z * Z))} {d n : Z} {e : list Z}.
Context (Hd : in_use v d) (Hdir : is_dir v d = true) (Hn : in_use v n) (Hrb : removable v T d e n).
Context (R1 : removed v v1 d e) (R2 : lessened v1 v2 d (if is_dir v n then 1 else 0)).

Lemma step_disk m : in_use v m -> m <> d -> disk_inode v2 m = disk_inode v m.
Proof. intros Hm Hne. destruct (ls_kept _ _ _ _ R2 m) as [-> _]; [by apply (removed_use _ _ _ _ _ R1)|done|]. apply (rd_disk _ _ _ _ R1), Hm. Qed.
Lemma step_use m : in_use v2 m <-> in_use v m.
Proof. rewrite (ls_use _ _ _ _ R2). by apply (removed_use _ _ _ _ _ R1). Qed.
Lemma step_kept m : in_use v m -> m <> d -> kept v v2 m.
Proof.
  intros Hm Hne. destruct (ls_kept _ _ _ _ R2 m) as [E1 E2]; [by apply (removed_use _ _ _ _ _ R1)|done|]. destruct (rd_kept _ _ _ _ R1 m Hm Hne) as [E3 E4]. split; congruence.
Qed.
Lemma step_dir m : in_use v m -> is_dir v2 m = is_dir v m.
Proof. intros Hm. rewrite (lessened_dir _ _ _ _ _ R2) by (by apply (removed_use _ _ _ _ _ R1)). unfold FsPath.is_dir. rewrite (rd_disk _ _ _ _ R1); [done|apply Hm]. Qed.
Lemma step_child name : child v2 d name = if decide (same_name name e) then None else child v d name.
Proof. rewrite (lessened_child _ _ _ _ _ _ R2) by (by apply (removed_use _ _ _ _ _ R1)). apply (rd_child _ _ _ _ R1). Qed.
(** Nothing names the inode any more, if it had one link. *)
Lemma step_refs m name :
  d_nlink (disk_inode v n) = 1 -> in_use v2 m -> m <> n -> is_dir v2 m = true -> child v2 m name <> Some n.
Proof.
  intros Hl Hm%step_use Hmn Hmd Hc. rewrite step_dir in Hmd by done. destruct (rb_last _ _ _ _ _ Hrb Hl) as [_ Hrefs]. destruct (decide (m = d)) as [->|Hne].
  - rewrite step_child in Hc. destruct (decide (same_name name e)) as [|Hno]; [done|]. by destruct (Hrefs d name Hd Hmn Hmd Hc).
  - rewrite (kept_child sb v v2) in Hc by (by apply step_kept). by destruct (Hrefs m name Hm Hmn Hmd Hc).
Qed.
Lemma step_nlink : d_nlink (disk_inode v2 d) = if is_dir v n then d_nlink (disk_inode v d) - 1 else d_nlink (disk_inode v d).
Proof. rewrite (ls_nlink _ _ _ _ R2), (rd_disk _ _ _ _ R1) by apply Hd. destruct (is_dir v n); lia. Qed.
Lemma step_bits b : used v2 b = used v b.
Proof. unfold FsInv.used. by rewrite (ls_bits _ _ _ _ R2), (rd_bits _ _ _ _ R1). Qed.

Lemma steps_remove : dropped v2 v3 n -> removes v v3 d e n.
Proof.
  pose proof (rb_self _ _ _ _ _ Hrb) as Hnd. assert (in_use v2 d) as Hd2 by (by apply step_use). assert (in_use v2 n) as Hn2 by (by apply step_use).
  destruct (step_kept n Hn Hnd) as [En Fn]. unfold dropped. rewrite En. destruct (decide (d_nlink (disk_inode v n) = 1)) as [E|E]; intros R3.
  - destruct (wo_kept _ _ _ R3 d Hd2 (not_eq_sym Hnd)) as [Ed Fd]. split.
    + intros m. rewrite (wo_use _ _ _ R3), step_use. naive_solver.
    + intros m Hm H1' H2'. destruct (wo_kept _ _ _ R3 m) as [X1 X2]; [by apply step_use|done|]. destruct (step_kept m Hm H1') as [Y1 Y2]. split; congruence.
    + unfold FsPath.is_dir. rewrite Ed. fold (is_dir v2 d). by rewrite step_dir.
    + intros name. rewrite (kept_child sb v2 v3) by done. apply step_child.
    + rewrite Ed. apply step_nlink.
    + done.
    + intros b Hb. rewrite (wo_used _ _ _ R3) by done. rewrite step_bits. assert (own v2 (node v2 n) b <-> own v (node v n) b) as ->; [|naive_solver].
      rewrite (ls_own _ _ _ _ R2) by (by apply (removed_use _ _ _ _ _ R1)). by apply (rd_own _ _ _ _ R1).
  - destruct (ls_kept _ _ _ _ R3 d Hd2 (not_eq_sym Hnd)) as [Ed Fd]. split.
    + intros m. rewrite (ls_use _ _ _ _ R3), step_use. naive_solver.
    + intros m Hm H1' H2'. destruct (ls_kept _ _ _ _ R3 m) as [X1 X2]; [by apply step_use|done|]. destruct (step_kept m Hm H1') as [Y1 Y2]. split; congruence.
    + unfold FsPath.is_dir. rewrite Ed. fold (is_dir v2 d). by rewrite step_dir.
    + intros name. rewrite (kept_child sb v2 v3) by done. apply step_child.
    + rewrite Ed. apply step_nlink.
    + intros _. rewrite (ls_nlink _ _ _ _ R3), (ls_type _ _ _ _ R3), (ls_content _ _ _ _ R3), En, Fn. done.
    + intros b Hb. unfold FsInv.used. rewrite (ls_bits _ _ _ _ R3). fold (used v2 b) (used v b). rewrite step_bits. naive_solver.
Qed.
End names.

(** ** unlink_entry *)

Context `{!TxnLaws B}.
#[local] Abbreviation fs_idle := (fs_idle sb me).

Lemma cache_swap v j k ic : cache_ok sb me v [j; k] ic -> cache_ok sb me v [k; j] ic.
Proof. intros Hc l i Hl. rewrite (bool_decide_ext (l ∈ [k; j]) (l ∈ [j; k])); [by apply Hc|]. clear. set_solver. Qed.
Lemma apart_slot T dp d ip n : slot_for T dp d -> slot_for (open_ref dp d T) ip n -> n <> d -> ip <> dp.
Proof. intros Hs H2' Hne ->. destruct (open_lookup T dp d Hs) as (r & _ & E). destruct H2' as [[E' _]|(r' & _ & E')]; rewrite E in E'; [done|]. by injection E' as ->. Qed.

Lemma wp_seq3 {A} (a b c : M (fs B) unit) (k : M (fs B) A) Q s : wp (a;;; b;;; c) (fun _ s' => wp k Q s') s -> wp (a;;; b;;; c;;; k) Q s.
Proof.
  rewrite !wp_bind. intros Hw. eapply wp_mono; [exact Hw|]. intros [] s1. cbn beta. rewrite !wp_bind. intros Hw1. eapply wp_mono; [exact Hw1|].
  intros [] s2. cbn beta. by rewrite wp_bind.
Qed.

Lemma unlink_entry_run T L v ic s dp d ip i e off :
  fs_at ∅ L v ic s -> fs_ok v -> cache_ok sb me v [ip; dp] ic -> uniq_refs T -> refs_below (2 ^ 31 - 2) T ->
  slot_for T dp (i_inum d) -> slot_for (open_ref dp (i_inum d) T) ip (i_inum i) -> table_of ic = open_ref ip (i_inum i) (open_ref dp (i_inum d) T) ->
  dir_at sb v [ip; dp] ic dp d -> ic !! ip = Some i -> i_disk i = disk_inode v (i_inum i) -> in_use v (i_inum i) ->
  lookup_name (content v (node v (i_inum d))) e = Some (off, i_inum i) -> removable v T (i_inum d) e (i_inum i) -> (size L + 8 <= txn_cap)%nat ->
  wp (unlink_entry devwrite dp ip off) (fun r s' => r = 0 /\ exists w v' ic', fs_idle w ic' s' /\ same_home v' w /\ fs_ok v' /\ cache_ok sb me v' [] ic' /\
    table_of ic' = T /\ removes v v' (i_inum d) e (i_inum i)) s.
Proof.
  intros Hs Hv Hc Hun HT Hsd Hsi Ht [Hdp Hlk Hd Hdir Hin] Hip Hid Hii Hlook Hrb Hcap. pose proof (rb_self _ _ _ _ _ Hrb) as Hself.
  pose proof (apart_slot _ _ _ _ _ Hsd Hsi Hself) as Hne.
  destruct (cache_dir sb me dstart (fk_tree _ _ v Hv) [ip; dp] ic dp d Hc Hlk Hdp Hd Hdir) as (Hok & Ec & _). rewrite <- Ec in Hlook.
  destruct (lookup_name_at _ _ _ _ Hlook) as (k & x & Hk & Hx & -> & Exn). pose proof (fs_wf sb dstart Hlay v _ Hv Hin) as Hwf. rewrite <- Hd in Hwf.
  unfold unlink_entry. rewrite wp_bind. change (replicate (Z.to_nat DIRENTSZ) 0) with no_entry.
  eapply wp_mono; [eapply (clear_entry_run L v ic s dp d k); [done|done|done|by eapply lookup_lt_Some|lia]|].
  intros r s1 [-> (b & v1 & Hs1 & Hbm & Hw)]. rewrite Z.eqb_refl. cbn [negb]. pose proof (rb_once _ _ _ _ _ Hrb) as Ho. rewrite <- Ec in Ho.
  destruct (clear_fs Hv Hin Hdir Hd Hok Hk Hx Ho Hbm Hw) as [Hv1 R1].
  assert (forall m, in_use v1 m <-> in_use v m) as Hu1 by (intros m; by eapply removed_use).
  assert (cache_ok sb me v1 [ip; dp] ic) as Hc1.
  { eapply (cache_mono sb me v); [done|]. intros j y _ _ Hy. split; [by apply Hu1|]. apply (rd_disk _ _ _ _ R1), Hy. }
  pose proof (size_union_le {[b]} L) as HL1. rewrite size_singleton in HL1.
  assert (uniq_refs (table_of ic)) as Hun0 by (rewrite Ht; apply uniq_open; [by apply uniq_open|done]).
  rewrite wp_bind. eapply geti_wp; [exact Hs1|done|].
  assert ((i_type i =? T_DIR) = is_dir v (i_inum i)) as -> by (unfold FsPath.is_dir; by rewrite <- Hid).
  rewrite wp_bind. eapply wp_mono; [eapply (nlink_down (is_dir v (i_inum i)) _ v1 [ip; dp] ic s1 dp d); try done|].
  { rewrite Hd. symmetry. apply (rd_disk _ _ _ _ R1), Hin. }
  { intros Hsub. pose proof (rb_parent _ _ _ _ _ Hrb Hsub) as Hp. by rewrite <- Hd in Hp. } { lia. }
  intros [] s2 (L2 & v2 & d2 & Hs2 & HL2 & Hv2 & Hc2 & Ht2 & R2). cbn zeta in *.
  rewrite wp_bind. eapply wp_mono; [eapply (iunlockput_cache sb me dstart Hlay devread (fk_tree _ _ v2 Hv2) (L := L2) ltac:(lia) [ip] _ s2 dp)|].
  { exact Hs2. } { by apply cache_swap. } { intros E%list_elem_of_singleton. by apply Hne. } { rewrite length_insert. by eapply lookup_lt_Some. }
  { rewrite Ht2, Ht. replace (2 ^ 31) with (2 ^ 31 - 1 + 1) by lia. apply refs_below_open; [lia|]. by apply opened_below. }
  intros [] s3 (ic3 & Hs3 & Hc3 & Ht3). rewrite Ht2, Ht, close_open_open in Ht3 by done. pose proof (slot_open _ _ _ _ _ Hsd Hsi) as Hsi'.
  destruct (opened ic3 T ip (i_inum i) Ht3 Hsi') as (i3 & Hip3 & Ei3 & Hr3). destruct (Hc3 ip i3 Hip3) as (_ & Hl3 & Hu3). rewrite bool_decide_eq_true_2 in Hl3 by (by left).
  destruct Hl3 as (_ & Hval3 & _). destruct (Hu3 Hr3) as (_ & Hin3 & Hd3). specialize (Hd3 Hval3).
  assert (disk_inode v2 (i_inum i) = disk_inode v (i_inum i)) as En by (by eapply step_disk).
  assert (i_nlink i3 = d_nlink (disk_inode v (i_inum i))) as Enl by (rewrite <- En, <- Ei3, <- Hd3; done).
  apply wp_seq3. eapply wp_mono; [eapply (drop_link_run L2 v2 ic3 s3 ip i3); try done|].
  { rewrite Ht3. by apply uniq_open. } { rewrite Ht3. intros j y z Hj. pose proof (opened_below T ip (i_inum i) HT j y z Hj). lia. } { rewrite Enl. apply Hrb. }
  { rewrite Enl. intros Hl1. rewrite Ei3. split_and!; [|apply Hrb|]. 
    - destruct (rb_last _ _ _ _ _ Hrb Hl1) as [Hno _]. destruct Hsi' as [[E _]|(z & _ & E)]; [|by apply Hno in E].
      pose proof (table_at ic3 ip i3 Hip3 Hr3) as E3. rewrite Ht3 in E3. unfold open_ref in E3. rewrite list_lookup_alter_eq, E in E3. by injection E3 as _ <-.
    - intros m name. exact (step_refs Hin Hrb R1 R2 m name Hl1). }
  { lia. }
  rewrite Ei3. intros [] s4 (L4 & v4 & ic4 & Hs4 & HL4 & Hv4 & Hc4 & Ht4 & R4). rewrite wp_bind.
  eapply wp_mono; [eapply (end_wp sb me L4 v4 ic4 s4); [done|lia]|]. intros [] s5 (w & Hidle & Hhome). apply wp_ret. split; [done|].
  exists w, v4, ic4. rewrite Ht3, close_open in Ht4 by done. split_and!; try done. exact (steps_remove Hin Hdir Hii Hrb R1 R2 R4).
Qed.

(** ** isdirempty *)

(** Nothing but its two dots is in the directory. *)
Definition only_dots (c : list Z) : Prop := Forall (fun x => de_inum x = 0) (drop 2 (entries c)).

Lemma isdirempty_from_run L v ic s dp d fuel k :
  fs_at ∅ L v ic s -> dir_ok sb dstart v ic dp d -> (size L + 3 <= txn_cap)%nat -> (length (entries (content v d)) <= k + fuel)%nat ->
  wp (isdirempty_from devread fuel dp (DIRENTSZ * Z.of_nat k)) (fun r s' => fs_at ∅ L v ic s' /\
    r = bool_decide (Forall (fun x => de_inum x = 0) (drop k (entries (content v d))))) s.
Proof.
  intros Hs Hok Hcap. revert k s Hs. induction fuel as [|fuel IH]; intros k s Hs Hk; cbn [isdirempty_from];
    rewrite wp_bind; (eapply geti_wp; [done|apply Hok|]); rewrite (entry_lt sb dstart Hok); destruct (Nat.ltb_spec k (length (entries (content v d)))); try lia.
  1, 3: rewrite drop_ge by lia; apply wp_ret; split; [done|]; by rewrite bool_decide_true by constructor.
  rewrite wp_bind. eapply wp_mono; [by eapply (read_entry sb me dstart Hlay devread Hok Hcap)|]. intros r s1 [Hs1 ->]. cbn [fst snd].
  rewrite Z.eqb_refl. cbn [negb]. rewrite (drop_entries k) by done. rewrite entry_next. destruct (Z.eqb_spec (de_inum (entry (content v d) k)) 0) as [Hz|Hz].
  - eapply wp_mono; [apply IH; [done|lia]|]. intros r s' [Hs' ->]. split; [done|]. apply bool_decide_ext. rewrite Forall_cons. naive_solver.
  - apply wp_ret. split; [done|]. rewrite bool_decide_false; [done|]. by intros [? _]%Forall_cons.
Qed.
Lemma isdirempty_run L v ic s dp d :
  fs_at ∅ L v ic s -> dir_ok sb dstart v ic dp d -> (size L + 3 <= txn_cap)%nat ->
  wp (isdirempty devread dp) (fun r s' => fs_at ∅ L v ic s' /\ r = bool_decide (only_dots (content v d))) s.
Proof.
  intros Hs Hok Hcap. unfold isdirempty. rewrite wp_bind. eapply geti_wp; [done|apply Hok|]. change (2 * DIRENTSZ) with (DIRENTSZ * Z.of_nat 2).
  apply isdirempty_from_run; [done|done|done|]. pose proof (dir_fuel sb dstart Hok). lia.
Qed.

(** ** After the transaction *)

Section home.
Context {v w : Z -> list Z} (Hh : same_home v w) (Hv : fs_ok v).

Lemma home_disk m : inum_ok sb m -> disk_inode w m = disk_inode v m.
Proof. by apply (inode_home sb dstart Hlay). Qed.
Lemma home_use m : in_use w m <-> in_use v m.
Proof. unfold FsPath.in_use. split; intros [Hm Ht]; (split; [done|]); [rewrite <- home_disk|rewrite home_disk]; done. Qed.
Lemma home_kept m : in_use v m -> kept v w m.
Proof.
  intros Hm. assert (disk_inode w m = disk_inode v m) as E by apply home_disk, Hm. split; [done|]. rewrite (node_eq sb v w m E).
  apply (content_home sb dstart Hlay); [done|by apply (tr_file _ _ _ (fk_tree _ _ v Hv))|by apply (fk_full _ _ v Hv)].
Qed.
Lemma home_own m b : in_use v m -> own w (node w m) b -> own v (node v m) b.
Proof.
  intros Hm. rewrite (node_eq sb v w m) by apply home_disk, Hm. apply (own_home sb dstart Hlay); [done|]. by apply (tr_file _ _ _ (fk_tree _ _ v Hv)).
Qed.
Lemma home_dir m : in_use v m -> is_dir w m = is_dir v m.
Proof. intros [Hm _]. unfold FsPath.is_dir. by rewrite home_disk. Qed.
Lemma home_fs : fs_ok w.
Proof.
  pose proof (fk_tree _ _ v Hv) as HT. assert (forall m, in_use v m -> node w m = node v m) as En by (intros m [Hm _]; by apply node_eq, home_disk).
  assert (forall m, in_use v m -> content w (node v m) = content v (node v m)) as Ec by (intros m Hm; rewrite <- (En m Hm) at 1; by apply home_kept).
  split; [split|..].
  - eapply (meta_home sb dstart Hlay); [done|apply HT].
  - apply home_use, HT.
  - intros m Hm%home_use. rewrite home_disk by apply Hm. by apply HT.
  - intros m Hm%home_use. rewrite En by done. apply (file_home sb dstart Hlay v); [done|by apply HT].
  - intros m Hm%home_use. rewrite home_dir, En, Ec by done. intros Hdir. destruct (tr_dir _ _ _ HT m Hm Hdir) as (? & ? & ?). split_and!; [done| |done].
    by apply (full_home sb dstart Hlay v); [|apply HT|].
  - intros m name off j Hm%home_use. rewrite home_dir, En, Ec by done. intros Hdir Hl. apply home_use. by eapply (tr_entry _ _ _ HT m).
  - rewrite home_use. apply Hv.
  - intros m Hm%home_use. rewrite En by done. apply (full_home sb dstart Hlay v); [done|by apply HT|by apply (fk_full _ _ v Hv)].
  - intros m n b Hm%home_use Hn%home_use Hne Ho1%home_own Ho2%home_own; [|done..]. by apply (fk_apart _ _ v Hv m n b).
Qed.
Lemma home_cache lk ic : cache_ok sb me v lk ic -> cache_ok sb me w lk ic.
Proof. intros Hc. eapply cache_mono; [exact Hc|]. intros k i _ _ Hi. split; [by apply home_use|apply home_disk, Hi]. Qed.
Lemma home_removes u d e n : removes u v d e n -> in_use u d -> in_use u n -> n <> d -> removes u w d e n.
Proof.
  intros [R1 R2 R3 R4 R5 R6 R7] Hd Hn Hne. assert (in_use v d) as Hd' by (apply R1; naive_solver). split.
  - intros m. by rewrite home_use.
  - intros m Hm H1' H2'. destruct (R2 m Hm H1' H2') as [E1 E2], (home_kept m) as [E3 E4]; [apply R1; naive_solver|]. split; congruence.
  - by rewrite home_dir.
  - intros name. rewrite (kept_child sb v w) by (by apply home_kept). apply R4.
  - rewrite home_disk; [done|apply Hd'].
  - intros Hnl. destruct (R6 Hnl) as (E1 & E2 & E3). destruct (home_kept n) as [E4 E5]; [by apply R1|]. by rewrite E4, E5.
  - intros b Hb. rewrite (used_home sb dstart Hlay v) by done. by apply R7.
Qed.
End home.

(** ** unlink *)

(** The call fails and changes nothing. *)
Definition failed v (T : list (option (Z * Z))) (r : Z) s' : Prop :=
  r = -1 /\ exists w ic', fs_idle w ic' s' /\ same_home v w /\ fs_ok w /\ cache_ok sb me w [] ic' /\ table_of ic' = T.
(** The name is gone. *)
Definition unlinked v (T : list (option (Z * Z))) (d : Z) (e : list Z) (n r : Z) s' : Prop :=
  r = 0 /\ exists w ic', fs_idle w ic' s' /\ fs_ok w /\ cache_ok sb me w [] ic' /\ table_of ic' = T /\ removes v w d e n.
(** [n] is not a directory with entries. *)
Definition deletable v (n : Z) : bool := negb (is_dir v n) || bool_decide (only_dots (content v (node v n))).
Definition is_dots (e : list Z) : bool := bool_decide (same_name e DOT \/ same_name e DOTDOT).

Lemma dots_cmp nm e : bytes nm -> same_name nm e -> (namecmp nm DOT =? 0) || (namecmp nm DOTDOT =? 0) = is_dots e.
Proof.
  intros Hb Hs. assert (forall q, bytes q -> (namecmp nm q =? 0) = bool_decide (same_name e q)) as Hq.
  { intros q Hq. unfold namecmp. destruct (bool_decide_reflect (same_name e q)) as [Hy|Hn]; unfold same_name in *.
    - apply Z.eqb_eq. rewrite strncmp_chars_eq by done. congruence.
    - apply Z.eqb_neq. rewrite strncmp_chars_eq by done. congruence. }
  rewrite !Hq by (by apply (bool_decide_eq_true_1 (Forall is_u8 _))). unfold is_dots. by rewrite bool_decide_or.
Qed.

Section call.
Context {v : Z -> list Z} (Hv : fs_ok v) {L : gset Z} (Hcap : (size L + 8 <= txn_cap)%nat).
Context (T : list (option (Z * Z))) (Hun : uniq_refs T) (HT : refs_below (2 ^ 31 - 2) T) (Hfree : two_free T).

Lemma cap_read : (size L + 3 <= txn_cap)%nat.
Proof. lia. Qed.

Lemma fail_run ic s : fs_at ∅ L v ic s -> cache_ok sb me v [] ic -> table_of ic = T -> wp (onb b_end;;; ret (-1)) (failed v T) s.
Proof.
  intros Hs Hc Ht. rewrite wp_bind. eapply wp_mono; [eapply (end_wp sb me L v ic s); [done|lia]|]. intros [] s1 (w & Hi & Hh). apply wp_ret. split; [done|].
  exists w, ic. split_and!; try done; [by eapply home_fs|by eapply home_cache].
Qed.
Lemma give_up_run ic s ip n :
  fs_at ∅ L v ic s -> cache_ok sb me v [ip] ic -> slot_for T ip n -> table_of ic = open_ref ip n T -> wp (give_up_inode ip) (failed v T) s.
Proof.
  intros Hs Hc Hsl Ht. destruct (opened ic T ip n Ht Hsl) as (i & Hip & _). unfold give_up_inode. rewrite wp_bind.
  eapply wp_mono; [eapply (iunlockput_cache sb me dstart Hlay devread (fk_tree _ _ v Hv) cap_read [] ic s ip); [done|done|apply not_elem_of_nil|by eapply lookup_lt_Some|]|].
  { rewrite Ht. intros j y z Hj. pose proof (opened_below T ip n HT j y z Hj). lia. }
  intros [] s1 (ic1 & Hs1 & Hc1 & Ht1). eapply fail_run; [done|done|]. by rewrite Ht1, Ht, close_open.
Qed.

(** The inode of the name is locked. *)
Lemma unlink_inode_run ic s dp d ip n e off :
  fs_at ∅ L v ic s -> cache_ok sb me v [dp] ic -> ic !! dp = Some d -> i_disk d = disk_inode v (i_inum d) -> is_dir v (i_inum d) = true -> in_use v (i_inum d) ->
  slot_for T dp (i_inum d) -> slot_for (open_ref dp (i_inum d) T) ip n -> table_of ic = open_ref ip n (open_ref dp (i_inum d) T) ->
  lookup_name (content v (node v (i_inum d))) e = Some (off, n) -> n <> i_inum d -> 1 <= d_nlink (disk_inode v n) -> (deletable v n = true -> removable v T (i_inum d) e n) ->
  wp (ilock ip;;;
      let! i := geti ip in
      if i_nlink i <? 1 then panic "unlink: nlink < 1"
      else
        let! empty := (if i_type i =? T_DIR then isdirempty devread ip else ret true) in
        if empty then unlink_entry devwrite dp ip off
        else iunlockput ip;;; give_up_inode dp)
    (fun r s' => if deletable v n then unlinked v T (i_inum d) e n r s' else failed v T r s') s.
Proof.
  intros Hs Hc Hdp Hd Hdir Hin Hsd Hsi Ht Hlook Hself Hnl Hrb. pose proof (apart_slot _ _ _ _ _ Hsd Hsi Hself) as Hne.
  pose proof (fun m => proj1 (list_elem_of_singleton m dp)) as Hsing.
  assert (in_use v n) as Hn by (by eapply (tr_entry _ _ _ (fk_tree _ _ v Hv))).
  assert (exists i, ic !! ip = Some i /\ i_inum i = n /\ 0 < i_ref i) as (i & Hip & Ei & Hr) by (by eapply opened).
  rewrite wp_bind. eapply wp_mono; [eapply (ilock_cache sb me dstart Hlay devread (fk_tree _ _ v Hv) cap_read [dp] ic s ip i); [done|done|by intros E%Hsing|done|done]|].
  intros [] s1 (ic1 & i1 & Hs1 & Hc1 & Ht1 & Hip1 & Ei1 & Hd1). rewrite Ei in *. rewrite wp_bind. eapply geti_wp; [exact Hs1|done|].
  assert (exists d1, ic1 !! dp = Some d1 /\ i_inum d1 = i_inum d /\ 0 < i_ref d1) as (d1 & Hdp1 & Ed1 & Hrd).
  { destruct (open_lookup T dp (i_inum d) Hsd) as (r & _ & E). assert (table_of ic1 !! dp = Some (Some (i_inum d, r))) as (d1 & Hd1' & (? & ? & _)%ref_of_Some)%table_lookup.
    { rewrite Ht1, Ht. unfold open_ref at 1. by rewrite list_lookup_alter_ne. } by exists d1. }
  destruct (Hc1 dp d1 Hdp1) as (_ & Hl1 & Hu1). rewrite bool_decide_eq_true_2 in Hl1 by (right; by left). destruct (Hu1 Hrd) as (_ & _ & Edd). specialize (Edd (proj1 (proj2 Hl1))).
  change (i_nlink i1) with (d_nlink (i_disk i1)). change (i_type i1) with (d_type (i_disk i1)). rewrite Hd1. rewrite (proj2 (Z.ltb_ge _ _)) by lia. fold (is_dir v n).
  assert (wp (if is_dir v n then isdirempty devread ip else ret true) (fun r s' => fs_at ∅ L v ic1 s' /\ r = deletable v n) s1) as Hempty.
  { unfold deletable. destruct (is_dir v n) eqn:En; [|by apply wp_ret].
    destruct (cache_dir sb me dstart (fk_tree _ _ v Hv) [ip; dp] ic1 ip i1 Hc1 ltac:(by left) Hip1) as (Hok & Ec & _); [by rewrite Ei1|by rewrite Ei1|].
    rewrite Ei1 in Ec. rewrite <- Ec. eapply isdirempty_run; [done|done|apply cap_read]. }
  rewrite wp_bind. eapply wp_mono; [exact Hempty|]. intros r s2 [Hs2 ->]. destruct (deletable v n) eqn:Ede.
  - rewrite <- Ed1 in *. rewrite <- Ei1 in *.
    eapply wp_mono; [eapply (unlink_entry_run T L v ic1 s2 dp d1 ip i1 e off); try done; [by rewrite Ht1|split; (done || by right; left)|by apply Hrb]|].
    intros r s3 [-> (w & v' & ic' & Hidle & Hh & Hv' & Hc' & Ht' & R)]. split; [done|]. exists w, ic'.
    split_and!; try done; [by eapply home_fs|by eapply home_cache|by eapply home_removes].
  - rewrite wp_bind. eapply wp_mono; [eapply (iunlockput_cache sb me dstart Hlay devread (fk_tree _ _ v Hv) cap_read [dp] ic1 s2 ip); [done|done|by intros E%Hsing|by eapply lookup_lt_Some|]|].
    { rewrite Ht1, Ht. replace (2 ^ 31) with (2 ^ 31 - 1 + 1) by lia. apply refs_below_open; [lia|]. by apply opened_below. }
    intros [] s3 (ic3 & Hs3 & Hc3 & Ht3). eapply give_up_run; [done|done|done|]. by rewrite Ht3, Ht1, Ht, close_open.
Qed.

(** The directory is found. *)
Lemma unlink_found_run ic s dp d nm e :
  fs_at ∅ L v ic s -> cache_ok sb me v [] ic -> slot_for T dp d -> table_of ic = open_ref dp d T -> is_dir v d = true -> bytes nm -> same_name nm e ->
  (forall n, is_dots e = false -> child v d e = Some n -> n <> d /\ 1 <= d_nlink (disk_inode v n) /\ (deletable v n = true -> removable v T d e n)) ->
  wp (ilock dp;;;
      if (namecmp nm DOT =? 0) || (namecmp nm DOTDOT =? 0) then give_up_inode dp
      else
        let! found := dirlookup devread dp nm in
        match found with
        | None => give_up_inode dp
        | Some (ip, off) =>
            ilock ip;;;
            let! i := geti ip in
            if i_nlink i <? 1 then panic "unlink: nlink < 1"
            else
              let! empty := (if i_type i =? T_DIR then isdirempty devread ip else ret true) in
              if empty then unlink_entry devwrite dp ip off
              else iunlockput ip;;; give_up_inode dp
        end)
    (fun r s' => match (if is_dots e then None else child v d e) with
     | Some n => if deletable v n then unlinked v T d e n r s' else failed v T r s'
     | None => failed v T r s'
     end) s.
Proof.
  intros Hs Hc Hslot Ht Hdir Hb Hsame Hrb. destruct (opened ic T dp d Ht Hslot) as (i & Hip & <- & Hr). rewrite wp_bind.
  eapply wp_mono; [eapply (ilock_cache sb me dstart Hlay devread (fk_tree _ _ v Hv) cap_read [] ic s dp i); [done|done|apply not_elem_of_nil|done|done]|].
  intros [] s1 (ic1 & d1 & Hs1 & Hc1 & Ht1 & Hd1 & Ei & Edisk). rewrite Ht in Ht1. rewrite <- Ei in *. rewrite (dots_cmp nm e) by done.
  destruct (is_dots e); [by eapply give_up_run|].
  pose proof (opened_below T dp (i_inum d1) HT) as Hbel. pose proof (two_free_open T dp (i_inum d1) Hfree) as Hone. rewrite <- Ht1 in Hbel, Hone.
  destruct (Hc1 dp d1 Hd1) as (_ & Hl1 & Hu1). rewrite bool_decide_eq_true_2 in Hl1 by (by left). destruct (Hu1 ltac:(apply Hl1)) as (_ & Hin & _).
  rewrite wp_bind. eapply wp_mono; [eapply (dirlookup_cache sb me dstart Hlay devread (fk_tree _ _ v Hv) cap_read [dp] ic1 s1 dp d1 nm e); try done; by left|].
  intros r s2. unfold FsCreate.child in *. destruct (lookup_name _ e) as [[off j]|] eqn:El; cbn [fmap option_fmap option_map snd] in *.
  - intros (nx & ic2 & -> & Hs2 & Hc2 & Hlen & Hsl2 & Ht2). rewrite Ht1 in Hsl2, Ht2. destruct (Hrb j eq_refl eq_refl) as (Hj1 & Hj2 & Hj3).
    assert (exists d2, ic2 !! dp = Some d2 /\ i_inum d2 = i_inum d1 /\ 0 < i_ref d2) as (d2 & Hdp2 & Ed2 & Hrd).
    { pose proof (apart_slot _ _ _ _ _ Hslot Hsl2 Hj1) as Hne. destruct (open_lookup T dp (i_inum d1) Hslot) as (z & _ & E).
      assert (table_of ic2 !! dp = Some (Some (i_inum d1, z))) as (d2 & Hd2 & (? & ? & _)%ref_of_Some)%table_lookup.
      { rewrite Ht2. unfold open_ref at 1. by rewrite list_lookup_alter_ne. } by exists d2. }
    destruct (Hc2 dp d2 Hdp2) as (_ & Hl2 & Hu2). rewrite bool_decide_eq_true_2 in Hl2 by (by left). destruct (Hu2 Hrd) as (_ & _ & Edd). specialize (Edd (proj1 (proj2 Hl2))).
    rewrite <- Ed2 in *. by eapply unlink_inode_run.
  - intros [-> Hs2]. by eapply give_up_run.
Qed.
End call.

(** ** Paths *)

Lemma walk_use v k es j : tree_ok sb dstart v -> in_use v k -> walk sb v k es = Some j -> in_use v j.
Proof.
  intros Ht. revert k. induction es as [|x es IH]; intros k Hk; [by intros [= <-]|]. cbn [walk]. destruct (is_dir v k) eqn:Hkd; [|done].
  destruct (lookup_name _ x) as [[off c]|] eqn:El; [|done]. apply IH. by eapply (tr_entry _ _ _ Ht k).
Qed.

Section paths.
Context {v v' : Z -> list Z} {d n : Z} {e : list Z}.
Context (Hv : fs_ok v) (Hv' : fs_ok v') (Hd : in_use v d) (Hdir : is_dir v d = true) (Hn : in_use v n) (Hne : n <> d) (R : removes v v' d e n).

Lemma removes_dir m : in_use v' m -> is_dir v' m = is_dir v m.
Proof.
  intros [Hm Hnl]%(rv_use _ _ _ _ _ R). destruct (decide (m = d)) as [->|Hmd]; [rewrite Hdir; apply (rv_dir _ _ _ _ _ R)|]. unfold FsPath.is_dir. destruct (decide (m = n)) as [->|Hmn].
  - by destruct (rv_file _ _ _ _ _ R (Hnl eq_refl)) as (_ & -> & _).
  - by destruct (rv_kept _ _ _ _ _ R m Hm Hmd Hmn) as [-> _].
Qed.
Lemma removes_child m name : in_use v' m -> child v' m name = if decide (m = d /\ same_name name e) then None else child v m name.
Proof.
  intros [Hm Hnl]%(rv_use _ _ _ _ _ R). destruct (decide (m = d)) as [->|Hmd].
  { rewrite (rv_child _ _ _ _ _ R). destruct (decide (same_name name e)), (decide (d = d /\ _)); naive_solver. }
  rewrite decide_False by naive_solver. destruct (decide (m = n)) as [->|Hmn]; [|apply kept_child; by apply (rv_kept _ _ _ _ _ R)].
  unfold FsCreate.child. by destruct (rv_file _ _ _ _ _ R (Hnl eq_refl)) as (_ & _ & ->).
Qed.
(** A path leads where it led before. *)
Lemma removes_paths k es j : in_use v' k -> walk sb v' k es = Some j -> walk sb v k es = Some j.
Proof.
  intros Hk. apply (walk_mono sb dstart); [apply Hv'|done|]. intros m Hm Hmd. rewrite <- removes_dir by done. split; [done|].
  intros name c. rewrite removes_child by done. by destruct (decide _).
Qed.
(** A path that led somewhere still does, but for those through the name. *)
Lemma removes_walk k es j :
  in_use v' k -> walk sb v k es = Some j -> walk sb v' k es = Some j \/ exists es1 e' es2, es = es1 ++ e' :: es2 /\ same_name e' e /\ walk sb v k es1 = Some d.
Proof.
  revert k. induction es as [|x es IH]; intros k Hk; [by left|]. cbn [walk]. rewrite removes_dir by done. destruct (is_dir v k) eqn:Hkd; [|done].
  pose proof (removes_child k x Hk) as Hc. unfold FsCreate.child in Hc. destruct (lookup_name (content v (node v k)) x) as [[off c]|] eqn:El; [|done]. intros Hw.
  destruct (decide (k = d /\ same_name x e)) as [[-> Hx]|Hno]; [right; by exists [], x, es|].
  destruct (lookup_name (content v' (node v' k)) x) as [[off' c']|] eqn:El'; [|done]. injection Hc as ->.
  assert (in_use v' c) as Hcu by (eapply (tr_entry _ _ _ (fk_tree _ _ v' Hv') k); [done| |exact El']; by rewrite removes_dir).
  destruct (IH c Hcu Hw) as [?|(es1 & e' & es2 & -> & Hs & Hw1)]; [by left|right]. exists (x :: es1), e', es2. split_and!; [done|done|]. cbn [walk]. by rewrite Hkd, El.
Qed.
Lemma removes_gone k es : in_use v' k -> walk sb v k es = Some d -> walk sb v' k (es ++ [e]) = None.
Proof.
  intros Hk Hw. rewrite walk_snoc. destruct (walk sb v' k es) as [d'|] eqn:E; [|done]. apply removes_paths in E; [|done]. rewrite Hw in E. injection E as <-.
  rewrite (rv_dir _ _ _ _ _ R), (rv_child _ _ _ _ _ R). by rewrite decide_True.
Qed.
End paths.

(** Property C15: [unlink] on a file system in order, between transactions. It
    returns -1 and leaves all as it was when the path does not lead to a
    directory, its last element is a dot or dots or is not there, or is a
    directory with entries. Otherwise it returns 0: the last element is not in
    the directory any more, and the path leads nowhere; every path that leads to
    an inode led there before, and every path that led to an inode and did not go
    through the name still does. An inode with more links has one less; one that
    lost its last link is freed with exactly its blocks. Every other file is as
    it was, the file system is again in order and the inode cache has the
    references it had. Conditions on the name that is removed: it is not the
    directory's own, it is in the directory once, its inode is not the root and
    has a link count of at least 1, a directory that loses a subdirectory has a
    count of at least 2, and an inode with one link has no other name and is not
    open in any process (an inode that is unlinked while it is open stays with
    no links until it is closed, which is not covered). Two slots of the inode
    cache are free and the references are below 2^31 - 2. *)
Theorem unlink_removes v ic s junk cwd path n :
  fs_ok v -> (8 <= txn_cap)%nat -> fs_idle v ic s -> cache_ok sb me v [] ic ->
  uniq_refs (table_of ic) -> refs_below (2 ^ 31 - 2) (table_of ic) -> two_free (table_of ic) -> starts ic cwd path n ->
  length junk = NAMELEN -> bytes junk -> bytes path -> 0 ∉ path ->
  (forall d e m, walk_parent sb v n (elems path) = Some d -> last (elems path) = Some e -> is_dots e = false -> child v d e = Some m ->
    m <> d /\ 1 <= d_nlink (disk_inode v m) /\ (deletable v m = true -> removable v (table_of ic) d e m)) ->
  wp (unlink devread devwrite junk cwd path) (fun r s' =>
    match walk_parent sb v n (elems path), last (elems path) with
    | Some d, Some e =>
        match (if is_dots e then None else child v d e) with
        | Some m =>
            if deletable v m then
              r = 0 /\ exists w ic', fs_idle w ic' s' /\ fs_ok w /\ cache_ok sb me w [] ic' /\ table_of ic' = table_of ic /\ removes v w d e m /\
                walk sb w n (elems path) = None /\
                (forall k es j, in_use w k -> walk sb w k es = Some j -> walk sb v k es = Some j) /\
                (forall k es j, in_use w k -> walk sb v k es = Some j ->
                  walk sb w k es = Some j \/ exists es1 e' es2, es = es1 ++ e' :: es2 /\ same_name e' e /\ walk sb v k es1 = Some d)
            else failed v (table_of ic) r s'
        | None => failed v (table_of ic) r s'
        end
    | _, _ => failed v (table_of ic) r s'
    end) s.
Proof.
  intros Hv Hcap Hidle Hc Hun HT Hfree Hst Hj Hbj Hp Hz Hrb.
  assert (size (∅ : gset Z) + 8 <= txn_cap)%nat as Hcap0 by (by rewrite size_empty).
  assert (in_use v n /\ (n = ROOTINO \/ exists k r, table_of ic !! k = Some (Some (n, r)))) as [Hn Href].
  { unfold starts in Hst. destruct (bool_decide _); [subst n; split; [apply (fk_tree _ _ v Hv)|by left]|]. destruct Hst as (c & Hcw & Hr & _ & <-).
    split; [by destruct (Hc cwd c Hcw) as (_ & _ & Hu); apply Hu|]. right. exists cwd, (i_ref c). by apply table_at. }
  unfold unlink. rewrite wp_bind. eapply wp_mono; [by eapply begin_wp|]. intros [] s0 Hs0. rewrite wp_bind. unfold nameiparent.
  eapply wp_mono; [by eapply (namex_run sb me dstart Hlay devread ∅ v ic s0 cwd path true junk n (fk_tree _ _ v Hv)); try done; lia|].
  intros [r nm] s1 (ic1 & Hs1 & Hc1 & Hres & Hleft). rewrite target_walk in Hres. cbn [fst snd] in *. unfold left_name in Hleft. cbn [fst snd] in Hleft.
  destruct (walk_parent sb v n (elems path)) as [d|] eqn:Ew; cbn [resolved] in Hres.
  2:{ destruct Hres as [-> Ht1]. by eapply fail_run. }
  destruct Hres as (dp & -> & Hslot & Ht1). destruct (Hleft eq_refl ltac:(done)) as (e & He & Hsame & Hbn). rewrite He.
  destruct (walk_parent_dir sb v n (elems path) d e Ew He) as (Hdir & es & Ees & Ews).
  eapply wp_mono; [eapply (unlink_found_run Hv Hcap0 (table_of ic) Hun HT Hfree ic1 s1 dp d nm e); try done; intros m; by apply Hrb|].
  intros r s2. destruct (is_dots e) eqn:Edo; [done|]. destruct (child v d e) as [m|] eqn:Ech; [|done]. destruct (deletable v m) eqn:Ede; [|done].
  intros (-> & w & ic' & Hi & Hw & Hcw & Htw & R). split; [done|]. exists w, ic'. destruct (Hrb d e m eq_refl He Edo Ech) as (Hmd & _ & Hr). specialize (Hr Ede).
  assert (in_use v d) as Hd by (by eapply walk_use; [apply Hv|exact Hn|exact Ews]).
  assert (in_use v m) as Hm. { unfold FsCreate.child in Ech. destruct (lookup_name _ e) as [[off j]|] eqn:El; [|done]. injection Ech as ->. by eapply (tr_entry _ _ _ (fk_tree _ _ v Hv) d). }
  assert (in_use w n) as Hnw.
  { apply (rv_use _ _ _ _ _ R). split; [done|]. intros -> Hl1. destruct Href as [E|(k & z & E)]; [by apply (rb_root _ _ _ _ _ Hr)|]. by apply (proj1 (rb_last _ _ _ _ _ Hr Hl1)) in E. }
  split_and!; try done.
  - rewrite Ees. by eapply removes_gone.
  - intros k es' j Hk. by eapply removes_paths.
  - intros k es' j Hk. by eapply removes_walk.
Qed.
End unlink.

(** ** The file of the small file system is removed *)

Definition idle_fs : fs log := {| f_blk := tiny_log; f_sb := tiny_sb; f_icache := tree_icache; f_me := 1 |}.

Lemma tiny_entries :
  (fun x => (de_inum x, cstr NAMELEN (de_name x))) <$> entries (content tiny_v (node tiny_sb tiny_v 1)) = [(1, [46]); (1, [46; 46]); (2, [97])].
Proof. by vm_compute. Qed.
Lemma tiny_entry k d :
  entries (content tiny_v (node tiny_sb tiny_v 1)) !! k = Some d ->
  [(1, [46]); (1, [46; 46]); (2, [97])] !! k = Some (de_inum d, cstr NAMELEN (de_name d)).
Proof. intros Hk. rewrite <- tiny_entries, list_lookup_fmap, Hk. done. Qed.

Lemma tiny_removable : removable tiny_sb tiny_v (table_of tree_icache) 1 [97] 2.
Proof.
  split; [discriminate|discriminate|by vm_compute| |by vm_compute|].
  - intros j k d d' Hj%tiny_entry Hk%tiny_entry [_ Hd] [_ Hd']. unfold same_name in Hd, Hd'. rewrite <- Hd in Hj. rewrite <- Hd' in Hk. clear Hd Hd'. vm_compute in Hj, Hk.
    destruct j as [|[|[|j]]]; try discriminate Hj. destruct k as [|[|[|k]]]; try discriminate Hk. done.
  - intros _. split.
    + intros k r E. apply table_lookup in E as (i & [-> _]%lookup_replicate & E). discriminate E.
    + intros m name [-> | ->]%tiny_used Hm _; [|done]. unfold child. destruct (lookup_name _ name) as [[off j]|] eqn:El; [|done]. intros [= ->].
      apply lookup_name_at in El as (k & d & Hk%tiny_entry & [_ Hd] & _ & Ej). unfold same_name in *. rewrite <- Ej, <- Hd in Hk. split; [done|].
      destruct k as [|[|[|k]]]; [discriminate Hk|discriminate Hk| |discriminate Hk]. apply (inj Some), pair_equal_spec in Hk as [_ Hk]. rewrite <- Hk. reflexivity.
Qed.
Lemma unlink_demo :
  walk_parent tiny_sb tiny_v 1 (elems [47; 97]) = Some 1 /\ last (elems [47; 97]) = Some [97] /\ child tiny_sb tiny_v 1 [97] = Some 2 /\
  is_dots [97] = false /\ deletable tiny_sb tiny_v 2 = true.
Proof. split_and!; by vm_compute. Qed.
Lemma tiny_file_owns : own tiny_v (node tiny_sb tiny_v 2) 60.
Proof. split; [done|]. right. exists 0. split; [done|by vm_compute]. Qed.

(** [unlink("/a")]. *)
Lemma unlink_removes_witness :
  wp (unlink (fun _ => None) (fun _ => None) (replicate NAMELEN 7) 0 [47; 97]) (fun r s' => r = 0 /\ exists w ic', fs_idle tiny_sb 1 w ic' s' /\
    walk tiny_sb w 1 [[97]] = None /\ walk tiny_sb w 1 [DOT] = Some 1 /\ ~ in_use tiny_sb w 2 /\ used tiny_sb w 60 = false) idle_fs.
Proof.
  destruct unlink_demo as (E1 & E2 & E3 & E4 & E5). eapply wp_mono.
  - apply (unlink_removes tiny_sb 1 59 tiny_layout (fun _ => None) (fun _ => None) tiny_v tree_icache idle_fs (replicate NAMELEN 7) 0 [47; 97] 1 tiny_fs_ok).
    + apply Nat.leb_le. by vm_compute.
    + split; [reflexivity..|exact tiny_idle].
    + intros k i [-> _]%lookup_replicate. rewrite bool_decide_eq_false_2 by (apply not_elem_of_nil). by split_and!.
    + intros j k n r r' E. apply table_lookup in E as (i & [-> _]%lookup_replicate & E). discriminate E.
    + intros k n r E. apply table_lookup in E as (i & [-> _]%lookup_replicate & E). discriminate E.
    + exists 0%nat, 1%nat. split_and!; [discriminate|reflexivity|reflexivity].
    + reflexivity.
    + reflexivity.
    + by apply (bool_decide_eq_true_1 (Forall is_u8 _)).
    + by apply (bool_decide_eq_true_1 (Forall is_u8 _)).
    + apply (bool_decide_eq_true_1 (0 ∉ _)). by vm_compute.
    + intros d e m. rewrite E1, E2. intros [= <-] [= <-] _. rewrite E3. intros [= <-]. split; [discriminate|]. split; [by vm_compute|]. intros _. exact tiny_removable.
  - intros r s'. rewrite E1, E2, E4, E3, E5. clear E1 E2 E3 E4 E5. intros (-> & w & ic' & Hi & Hw & _ & _ & R & Hgone & _ & Hkeep). split; [reflexivity|]. exists w, ic'.
    assert (in_use tiny_sb w 1) as Hroot by (apply (fk_tree _ _ _ Hw)). split; [exact Hi|]. split; [exact Hgone|]. split_and!.
    + destruct (Hkeep 1 [DOT] 1 Hroot) as [E|(es1 & e' & es2 & E & Hs & _)]; [by vm_compute|exact E|]. exfalso. destruct es1 as [|x es1]; [|by destruct es1].
      injection E as <- _. discriminate Hs.
    + intros [_ Hn]%(rv_use _ _ _ _ _ _ R). apply (Hn eq_refl). by vm_compute.
    + apply not_true_is_false. intros [_ Hn]%(rv_blocks _ _ _ _ _ _ R); [|done]. apply Hn; [by vm_compute|exact tiny_file_owns].
Defined.
