(* ===== verification/Mkfs.v ===== *)
(** * Mkfs: building a file system image (mkfs.c)

    The image file is a map from sector numbers to sectors; a sector that was
    never written lies behind its end. Files of the host are given by their
    contents. The machine is little-endian, so [xshort] and [xint] leave what
    they are given. *)

From stdpp Require Import base list numbers gmap strings.
From S2P Require Import Prelude Bytes Params Sleeplock Bio Log Blocks Fs FsInv FsDemo FsInode FsMap FsDir.

Local Open Scope Z_scope.
Local Open Scope os_scope.

Definition NINODES : Z := 200.
Definition nbitmap : Z := FSSIZE / (BSIZE * 8) + 1.
Definition ninodeblocks : Z := NINODES / IPB + 1.
Definition nlog : Z := LOGSIZE.
Definition nmeta : Z := 2 + nlog + ninodeblocks + nbitmap.
Definition nblocks : Z := FSSIZE - nmeta.

Record mk := { img : gmap Z (list Z); freeinode : Z; freeblock : Z }.
Definition set_img (m : gmap Z (list Z)) (s : mk) : mk := {| img := m; freeinode := freeinode s; freeblock := freeblock s |}.

(** To the byte order of the x86. *)
Definition xshort (x : Z) : Z := le_combine (le_split 2 x).
Definition xint (x : Z) : Z := le_combine (le_split 4 x).

Definition sb : superblock :=
  {| sb_size := xint FSSIZE; sb_nblocks := xint nblocks; sb_ninodes := xint NINODES; sb_nlog := xint nlog;
     sb_logstart := xint 2; sb_inodestart := xint (2 + nlog); sb_bmapstart := xint (2 + nlog + ninodeblocks) |}.
Definition sb_bytes (x : superblock) : list Z :=
  le_split 4 (sb_size x) ++ le_split 4 (sb_nblocks x) ++ le_split 4 (sb_ninodes x) ++ le_split 4 (sb_nlog x) ++
  le_split 4 (sb_logstart x) ++ le_split 4 (sb_inodestart x) ++ le_split 4 (sb_bmapstart x).

Definition wsect (sec : Z) (buf : list Z) : M mk unit := modify (fun s => set_img (<[sec := buf]> (img s)) s).
Definition rsect (sec : Z) : M mk (list Z) := fun s =>
  match img s !! sec with Some d => Done (d, s) | None => Panic "read" end.

Definition winode (inum : Z) (ip : dinode) : M mk unit :=
  let bn := IBLOCK inum sb in
  let! buf := rsect bn in
  wsect bn (put_dinode buf (inode_off inum) ip).
Definition rinode (inum : Z) : M mk dinode :=
  let bn := IBLOCK inum sb in
  let! buf := rsect bn in
  ret (get_dinode buf (inode_off inum)).

Definition mk_ialloc (type : Z) : M mk Z :=
  let! inum := gets freeinode in
  modify (fun s => {| img := img s; freeinode := u32 (freeinode s + 1); freeblock := freeblock s |});;;
  winode inum {| d_type := xshort type; d_major := 0; d_minor := 0; d_nlink := xshort 1; d_size := xint 0; d_addrs := replicate 13 0 |};;;
  ret inum.

(** [freeblock++]. *)
Definition next_block : M mk Z :=
  let! b := gets freeblock in
  modify (fun s => {| img := img s; freeinode := freeinode s; freeblock := u32 (freeblock s + 1) |});;;
  ret b.

Definition set_size (n : Z) (x : dinode) : dinode :=
  {| d_type := d_type x; d_major := d_major x; d_minor := d_minor x; d_nlink := d_nlink x; d_size := n; d_addrs := d_addrs x |}.
Definition set_addr (k : nat) (a : Z) (x : dinode) : dinode :=
  {| d_type := d_type x; d_major := d_major x; d_minor := d_minor x; d_nlink := d_nlink x; d_size := d_size x;
     d_addrs := <[k := a]> (d_addrs x) |}.
Definition get_addr (k : nat) (x : dinode) : Z := nth k (d_addrs x) 0.

(** The block of the file with number [fbn], which is allocated if need be. *)
Definition file_block (din : dinode) (fbn : Z) : M mk (dinode * Z) :=
  if fbn <? NDIRECT then
    let k := Z.to_nat fbn in
    let! din := (if xint (get_addr k din) =? 0 then let! b := next_block in ret (set_addr k (xint b) din) else ret din) in
    ret (din, xint (get_addr k din))
  else
    let! din :=
      (if xint (get_addr 12 din) =? 0 then let! b := next_block in ret (set_addr 12 (xint b) din) else ret din) in
    let! indirect := rsect (xint (get_addr 12 din)) in
    let off := Z.to_nat (4 * (fbn - NDIRECT)) in
    let! indirect :=
      (if get32 indirect off =? 0 then
         let! b := next_block in
         let indirect := put32 indirect off (xint b) in
         wsect (xint (get_addr 12 din)) indirect;;;
         ret indirect
       else ret indirect) in
    ret (din, xint (get32 indirect off)).

(** The loop of [iappend] with the bytes [p] left. *)
Fixpoint iappend_loop (fuel : nat) (din : dinode) (off : Z) (p : list Z) : M mk (dinode * Z) :=
  match fuel with
  | O => fault
  | S fuel =>
      if 0 <? Z.of_nat (length p) then
        let fbn := off / BSIZE in
        if negb (fbn <? MAXFILE) then panic "fbn < MAXFILE"
        else
          let! ' (din, x) := file_block din fbn in
          let n1 := Z.min (Z.of_nat (length p)) ((fbn + 1) * BSIZE - off) in
          let! buf := rsect x in
          wsect x (splice buf (Z.to_nat (off - fbn * BSIZE)) (take (Z.to_nat n1) p));;;
          iappend_loop fuel din (off + n1) (drop (Z.to_nat n1) p)
      else ret (din, off)
  end.
Definition iappend (inum : Z) (p : list Z) : M mk unit :=
  let! din := rinode inum in
  let! ' (din, off) := iappend_loop (S (length p)) din (xint (d_size din)) p in
  winode inum (set_size (xint off) din).

(** The bitmap, with the first [used] blocks in use. *)
Fixpoint set_bits (n : nat) (i : Z) (buf : list Z) : list Z :=
  match n with O => buf | S n => set_bits n (i + 1) (bit_set buf i) end.
Definition mk_balloc (used : Z) : M mk unit :=
  if negb (used <? BSIZE * 8) then panic "used < BSIZE*8"
  else wsect (sb_bmapstart sb) (set_bits (Z.to_nat used) 0 zero_block).

(** The chunks [read] gives of a file. *)
Fixpoint chunks (fuel : nat) (l : list Z) : list (list Z) :=
  match fuel, l with
  | S fuel, _ :: _ => take (Z.to_nat BSIZE) l :: chunks fuel (drop (Z.to_nat BSIZE) l)
  | _, _ => []
  end.
Fixpoint append_all (inum : Z) (l : list (list Z)) : M mk unit :=
  match l with [] => ret tt | c :: l => iappend inum c;;; append_all inum l end.

Definition skip_underscore (name : list Z) : list Z :=
  match name with c :: name' => if c =? 95 then name' else name | [] => name end.
(** One round of the loop over [argv]. *)
Definition add_file (rootino : Z) (name : list Z) (content : option (list Z)) : M mk unit :=
  if bool_decide (SLASH ∈ name) then panic "index(argv[i], '/') == 0"
  else
    match content with
    | None => panic "perror"
    | Some data =>
        let! inum := mk_ialloc T_FILE in
        iappend rootino (mk_dirent (skip_underscore name) (xshort inum));;;
        append_all inum (chunks (length data) data)
    end.
Fixpoint add_files (rootino : Z) (files : list (list Z * option (list Z))) : M mk unit :=
  match files with [] => ret tt | (name, c) :: files => add_file rootino name c;;; add_files rootino files end.

(** [wsect(i, zeroes)] for all sectors. *)
Fixpoint clear_image (n : nat) (i : Z) : M mk unit :=
  match n with O => ret tt | S n => wsect i zero_block;;; clear_image n (i + 1) end.

Definition mkfs_main (files : list (list Z * option (list Z))) : M mk unit :=
  modify (fun s => {| img := img s; freeinode := freeinode s; freeblock := nmeta |});;;
  clear_image (Z.to_nat FSSIZE) 0;;;
  wsect 1 (splice zero_block 0 (sb_bytes sb));;;
  let! rootino := mk_ialloc T_DIR in
  if negb (rootino =? ROOTINO) then panic "rootino == ROOTINO"
  else
    iappend rootino (mk_dirent [46] (xshort rootino));;;
    iappend rootino (mk_dirent [46; 46] (xshort rootino));;;
    add_files rootino files;;;
    let! din := rinode rootino in
    let off := (xint (d_size din) / BSIZE + 1) * BSIZE in
    winode rootino (set_size (xint off) din);;;
    let! used := gets freeblock in
    mk_balloc used.
Definition mk_start : mk := {| img := ∅; freeinode := 1; freeblock := 0 |}.

(** ** One file of the image *)

Lemma sb_eq : sb = {| sb_size := 1000; sb_nblocks := 941; sb_ninodes := 200; sb_nlog := 30;
  sb_logstart := 2; sb_inodestart := 32; sb_bmapstart := 58 |}.
Proof. reflexivity. Qed.
Lemma xint_small z : is_u32 z -> xint z = z.
Proof. intros Hz. unfold xint. rewrite le_combine_split. by apply Z.mod_small. Qed.
Lemma xshort_small z : 0 <= z < 2 ^ 16 -> xshort z = z.
Proof. intros Hz. unfold xshort. rewrite le_combine_split. by apply Z.mod_small. Qed.

Definition vof (m : gmap Z (list Z)) (b : Z) : list Z := default zero_block (m !! b).
Lemma vof_insert m b d c : vof (<[b := d]> m) c = if decide (c = b) then d else vof m c.
Proof. unfold vof. destruct (decide (c = b)) as [->|]; [by rewrite lookup_insert_eq|by rewrite lookup_insert_ne]. Qed.

(** The inode the kernel makes of [x]. *)
Definition ino (inum : Z) (x : dinode) : inode :=
  {| i_dev := ROOTDEV; i_inum := inum; i_ref := 1; i_lock := initsleeplock; i_valid := true; i_type := d_type x;
     i_major := d_major x; i_minor := d_minor x; i_nlink := d_nlink x; i_size := d_size x; i_addrs := d_addrs x |}.
Definition adr (v : Z -> list Z) (x : dinode) (bn : Z) : Z := addr_at v (ino 0 x) bn.
Definition ind (x : dinode) : Z := get_addr 12 x.

(** The first [nb] blocks of the file are there, at addresses from [nmeta] to
    [fb]. *)
Record mapped_to (v : Z -> list Z) (fb : Z) (x : dinode) (nb : Z) : Prop := {
  mt_len : length (d_addrs x) = 13%nat;
  mt_nb : 0 <= nb <= MAXFILE;
  mt_in bn : 0 <= bn < nb -> nmeta <= adr v x bn < fb;
  mt_out bn : nb <= bn < MAXFILE -> adr v x bn = 0;
  mt_ind : NDIRECT < nb -> nmeta <= ind x < fb;
  mt_noind : nb <= NDIRECT -> ind x = 0;
  mt_inj bn bn' : 0 <= bn < nb -> 0 <= bn' < nb -> adr v x bn = adr v x bn' -> bn = bn';
  mt_ne bn : 0 <= bn < nb -> adr v x bn <> ind x
}.

(** Sectors below [FSSIZE] are there, and those from [freeblock] on are
    empty. *)
Record img_ok (s : mk) : Prop := {
  im_there b : 0 <= b < FSSIZE -> is_Some (img s !! b);
  im_block b : block (vof (img s) b);
  im_zero b : freeblock s <= b -> vof (img s) b = zero_block;
  im_free : nmeta <= freeblock s <= FSSIZE
}.

Lemma rsect_run b s : img_ok s -> 0 <= b < FSSIZE -> rsect b s = Done (vof (img s) b, s).
Proof. intros Hs Hb. destruct (im_there _ Hs b Hb) as [d E]. unfold rsect, vof. by rewrite E. Qed.

Lemma adr_direct v x bn : bn < NDIRECT -> adr v x bn = get_addr (Z.to_nat bn) x.
Proof. intros H. unfold adr, addr_at, get_addr. by rewrite (proj2 (Z.ltb_lt _ _)) by done. Qed.
Lemma adr_indirect v x bn : NDIRECT <= bn ->
  adr v x bn = if ind x =? 0 then 0 else get32 (v (ind x)) (Z.to_nat (4 * (bn - NDIRECT))).
Proof. intros H. unfold adr, addr_at. by rewrite (proj2 (Z.ltb_ge _ _)) by done. Qed.
Lemma adr_ext v v' x x' bn :
  (bn < NDIRECT -> get_addr (Z.to_nat bn) x' = get_addr (Z.to_nat bn) x) ->
  (NDIRECT <= bn -> ind x' = ind x /\ (ind x <> 0 -> v' (ind x) = v (ind x))) -> adr v' x' bn = adr v x bn.
Proof.
  intros H1 H2. destruct (decide (bn < NDIRECT)); [rewrite !adr_direct by done; auto|].
  rewrite !adr_indirect by lia. destruct H2 as [-> H2]; [lia|]. destruct (Z.eqb_spec (ind x) 0); [done|]. by rewrite H2.
Qed.

Lemma get_set_addr k j a x : (k < length (d_addrs x))%nat -> get_addr j (set_addr k a x) = if decide (j = k) then a else get_addr j x.
Proof. intros Hk. unfold get_addr, set_addr. cbn. by apply nth_insert. Qed.

(** A file with its bytes, [data] and then zeros up to the end of the block. *)
Definition nblk_of (n : Z) : Z := (n + BSIZE - 1) / BSIZE.
Definition has_data (v : Z -> list Z) (x : dinode) (nb : Z) (data : list Z) : Prop :=
  forall o, 0 <= o < nb * BSIZE -> byte_at v (ino 0 x) o = nth (Z.to_nat o) data 0.
Definition owns (v : Z -> list Z) (x : dinode) (nb b : Z) : Prop :=
  (NDIRECT < nb /\ b = ind x) \/ exists bn, 0 <= bn < nb /\ b = adr v x bn.
(** The blocks a file of [nb] blocks takes. *)
Definition need (nb : Z) : Z := nb + (if NDIRECT <? nb then 1 else 0).

(** *** A block more *)
Lemma mapped_grow v fb x nb v' fb' x' a :
  mapped_to v fb x nb -> nb < MAXFILE -> nmeta <= fb -> fb <= fb' -> length (d_addrs x') = 13%nat ->
  (forall bn, 0 <= bn < MAXFILE -> adr v' x' bn = if decide (bn = nb) then a else adr v x bn) ->
  fb <= a < fb' -> (nb < NDIRECT -> ind x' = 0) -> (NDIRECT <= nb -> nmeta <= ind x' < fb' /\ ind x' <> a) ->
  (ind x' = ind x \/ fb <= ind x') -> mapped_to v' fb' x' (nb + 1).
Proof.
  intros [Hlen Hnb Hin Hout Hind Hno Hinj Hne] Hlt Hfb Hfb' Hlen' Hadr Ha Hd Hi Hk.
  assert (0 < nmeta) as Hpos by done.
  split; [done|lia|..].
  - intros bn Hbn. rewrite Hadr by lia. destruct (decide (bn = nb)); [lia|]. specialize (Hin bn ltac:(lia)). lia.
  - intros bn Hbn. rewrite Hadr by lia. rewrite decide_False by lia. apply Hout. lia.
  - intros H. apply Hi. lia.
  - intros H. apply Hd. lia.
  - intros b1 b2 Hb1 Hb2. rewrite !Hadr by lia. destruct (decide (b1 = nb)), (decide (b2 = nb)); subst; [done| | |].
    + specialize (Hin b2 ltac:(lia)). lia.
    + specialize (Hin b1 ltac:(lia)). lia.
    + apply Hinj; lia.
  - intros bn Hbn. rewrite Hadr by lia. destruct (decide (bn = nb)).
    + destruct (decide (nb < NDIRECT)) as [H|H]; [rewrite (Hd H); lia|]. destruct (Hi ltac:(lia)). congruence.
    + specialize (Hin bn ltac:(lia)). specialize (Hne bn ltac:(lia)). destruct Hk as [->|Hk]; lia.
Qed.

Lemma get32_zero_block off : get32 zero_block off = 0.
Proof.
  unfold get32, get_le, zero_block. rewrite drop_replicate, take_replicate.
  generalize (4 `min` (Z.to_nat BSIZE - off))%nat as n. intros n. induction n as [|n IH]; [done|]. cbn [replicate le_combine]. rewrite IH. done.
Qed.
Lemma get16_zero off : get16 zero_block off = 0.
Proof.
  unfold get16, get_le, zero_block. rewrite drop_replicate, take_replicate.
  generalize (2 `min` (Z.to_nat BSIZE - off))%nat as n. intros n. induction n as [|n IH]; [done|]. cbn [replicate le_combine]. rewrite IH. done.
Qed.
Lemma get_dinode_zero off : get_dinode zero_block off = zero_dinode 0.
Proof. unfold get_dinode. rewrite !get16_zero, get32_zero_block. change (seq 0 13) with [0; 1; 2; 3; 4; 5; 6; 7; 8; 9; 10; 11; 12]%nat. cbn [fmap list_fmap]. rewrite !get32_zero_block. done. Qed.
Lemma put32_other d off off' z : (off + 4 <= off' \/ off' + 4 <= off)%nat -> get32 (put32 d off z) off' = get32 d off'.
Proof. intros H. unfold get32, put32. apply get_put_le_ne. lia. Qed.
Lemma put32_same d off z : (off + 4 <= length d)%nat -> is_u32 z -> get32 (put32 d off z) off = z.
Proof. intros Hl Hz. unfold get32, put32. rewrite get_put_le by done. by apply Z.mod_small. Qed.

(** The entries of the indirect block after one is set. *)
Lemma adr_set_entry v v' x bn nb a :
  block (v (ind x)) -> v' (ind x) = put32 (v (ind x)) (Z.to_nat (4 * (nb - NDIRECT))) a -> ind x <> 0 -> is_u32 a ->
  NDIRECT <= nb < MAXFILE -> 0 <= bn < MAXFILE -> adr v' x bn = if decide (bn = nb) then a else adr v x bn.
Proof.
  intros Hb Hv Hi Ha Hnb Hbn. destruct (decide (bn < NDIRECT)).
  - rewrite decide_False by lia. by rewrite !adr_direct.
  - rewrite !adr_indirect by lia. rewrite (proj2 (Z.eqb_neq _ _)) by done. rewrite Hv. destruct (decide (bn = nb)) as [->|].
    + apply put32_same; [|done]. unfold block in Hb. fs_lia.
    + apply put32_other. fs_lia.
Qed.

Definition bump (s : mk) : mk := {| img := img s; freeinode := freeinode s; freeblock := freeblock s + 1 |}.
Lemma next_block_run s : img_ok s -> next_block s = Done (freeblock s, bump s) /\ is_u32 (freeblock s) /\ 0 < freeblock s.
Proof.
  intros HI. pose proof (im_free _ HI) as Hf. assert (0 < nmeta) by done. assert (is_u32 (freeblock s) /\ is_u32 (freeblock s + 1)) as [? ?] by (unfold is_u32; fs_lia).
  split; [|split; [done|lia]]. unfold next_block, bind, gets, modify, ret, bump. by rewrite u32_small.
Qed.

(** What [file_block] gives for a block that is not there. *)
Record grown s x nb s' x' a : Prop := {
  gw_map : mapped_to (vof (img s')) (freeblock s') x' (nb + 1);
  gw_img : img_ok s';
  gw_addr : adr (vof (img s')) x' nb = a;
  gw_keep bn : 0 <= bn < nb -> adr (vof (img s')) x' bn = adr (vof (img s)) x bn;
  gw_zero : vof (img s') a = zero_block;
  gw_frame b : b < freeblock s -> ~ owns (vof (img s)) x nb b -> vof (img s') b = vof (img s) b;
  gw_same bn : 0 <= bn < nb -> vof (img s') (adr (vof (img s)) x bn) = vof (img s) (adr (vof (img s)) x bn);
  gw_own b : owns (vof (img s')) x' (nb + 1) b -> owns (vof (img s)) x nb b \/ freeblock s <= b < freeblock s';
  gw_inode : x' = {| d_type := d_type x; d_major := d_major x; d_minor := d_minor x; d_nlink := d_nlink x; d_size := d_size x; d_addrs := d_addrs x' |};
  gw_u32 : Forall is_u32 (d_addrs x) -> Forall is_u32 (d_addrs x');
  gw_fi : freeinode s' = freeinode s;
  gw_fb : freeblock s' = freeblock s + need (nb + 1) - need nb
}.

Lemma mk_grow_direct s x nb :
  mapped_to (vof (img s)) (freeblock s) x nb -> img_ok s -> nb < NDIRECT -> freeblock s < FSSIZE ->
  exists s' x' a, file_block x nb s = Done ((x', a), s') /\ grown s x nb s' x' a.
Proof.
  intros HM HI Hnb Hroom. pose proof (im_free _ HI) as Hfree. pose proof (mt_nb _ _ _ _ HM) as Hn.
  assert (get_addr (Z.to_nat nb) x = 0) as E0. { rewrite <-(adr_direct (vof (img s))) by done. apply (mt_out _ _ _ _ HM). fs_lia. }
  destruct (next_block_run s HI) as (Enext & Hu & Hpos). set (fb := freeblock s) in *.
  set (x' := set_addr (Z.to_nat nb) fb x). pose proof (mt_len _ _ _ _ HM) as Hlen.
  assert (forall bn, 0 <= bn < MAXFILE -> adr (vof (img s)) x' bn = if decide (bn = nb) then fb else adr (vof (img s)) x bn) as Hadr.
  { intros bn Hbn. destruct (decide (bn = nb)) as [->|Hne].
    - rewrite adr_direct by done. unfold x'. rewrite get_set_addr by fs_lia. by rewrite decide_True.
    - apply adr_ext; unfold ind, x'; intros H; rewrite get_set_addr by fs_lia; rewrite decide_False by fs_lia; done. }
  assert (ind x' = ind x) as Eind. { unfold ind, x'. rewrite get_set_addr by fs_lia. by rewrite decide_False by fs_lia. }
  assert (forall v bn, bn <> nb -> 0 <= bn < MAXFILE -> v = vof (img s) -> adr v x' bn = adr (vof (img s)) x bn) as Hk.
  { intros v bn ? ? ->. by rewrite Hadr, decide_False. }
  exists (bump s), x', fb. split.
  - unfold file_block. rewrite (proj2 (Z.ltb_lt _ _)) by done. rewrite E0. change (xint 0 =? 0) with true.
    unfold bind at 1. unfold bind at 1. rewrite Enext. unfold ret at 1. cbn iota. rewrite (xint_small fb) by done. fold x'.
    unfold ret. do 3 f_equal. unfold x'. rewrite get_set_addr, decide_True by (done || fs_lia). by apply xint_small.
  - split; cbn [img freeblock freeinode bump]; fold fb.
    + apply (mapped_grow (vof (img s)) fb x nb _ _ _ fb); [exact HM|fs_lia|lia|lia| |exact Hadr|lia| |intros; lia|by left].
      * unfold x', set_addr. cbn. by rewrite length_insert.
      * intros _. rewrite Eind. apply (mt_noind _ _ _ _ HM). fs_lia.
    + destruct HI as [H1 H2 H3 H4]. split; cbn [img freeblock bump]; [done|done| |fold fb; fs_lia]. intros b Hb. apply H3. fold fb. lia.
    + rewrite Hadr by fs_lia. by rewrite decide_True.
    + intros bn Hbn. apply Hk; [lia|fs_lia|done].
    + apply (im_zero _ HI). done.
    + done.
    + done.
    + intros b [[? ?]|(bn & Hbn & ->)]; [fs_lia|]. destruct (decide (bn = nb)) as [->|].
      * right. rewrite Hadr by fs_lia. rewrite decide_True by done. lia.
      * left. right. exists bn. split; [lia|]. apply Hk; [lia|fs_lia|done].
    + by unfold x'.
    + intros HF. unfold x', set_addr. cbn. by apply Forall_insert.
    + done.
    + unfold need. zcases; fs_lia.
Qed.

Lemma bump_ok s : img_ok s -> freeblock s < FSSIZE -> img_ok (bump s).
Proof. intros [H1 H2 H3 H4] Hr. split; cbn; [done|done| |lia]. intros b Hb. apply H3. lia. Qed.

(** The second half of [file_block]: an entry of the indirect block. *)
Definition entry_set s (i off : Z) : mk :=
  {| img := <[i := put32 (vof (img s) i) (Z.to_nat off) (freeblock s)]> (img s); freeinode := freeinode s; freeblock := freeblock s + 1 |}.
Definition block_entry (din : dinode) (fbn : Z) : M mk (dinode * Z) :=
  let! indirect := rsect (xint (get_addr 12 din)) in
  let off := Z.to_nat (4 * (fbn - NDIRECT)) in
  let! indirect :=
    (if get32 indirect off =? 0 then
       let! b := next_block in
       let indirect := put32 indirect off (xint b) in
       wsect (xint (get_addr 12 din)) indirect;;;
       ret indirect
     else ret indirect) in
  ret (din, xint (get32 indirect off)).

Lemma block_entry_run s x nb :
  img_ok s -> NDIRECT <= nb < MAXFILE -> nmeta <= ind x < freeblock s ->
  get32 (vof (img s) (ind x)) (Z.to_nat (4 * (nb - NDIRECT))) = 0 ->
  block_entry x nb s = Done ((x, freeblock s), entry_set s (ind x) (4 * (nb - NDIRECT))).
Proof.
  intros HI Hnb Hi E0. destruct (next_block_run s HI) as (En & Hu & Hp). pose proof (im_free _ HI) as Hf.
  unfold block_entry. fold (ind x). assert (is_u32 (ind x)) as Hiu by (assert (0 < nmeta) by done; unfold is_u32; fs_lia).
  rewrite xint_small by done. unfold bind at 1. rewrite rsect_run by (done || (assert (0 < nmeta) by done; fs_lia)). rewrite E0, Z.eqb_refl.
  unfold bind at 1. unfold bind at 1. rewrite En. cbn iota. rewrite (xint_small (freeblock s)) by done.
  unfold bind, wsect, modify, ret. rewrite put32_same by (done || (pose proof (im_block _ HI (ind x)) as Hb; unfold block in Hb; fs_lia)).
  rewrite xint_small by done. done.
Qed.

Lemma entry_set_ok s i off : img_ok s -> nmeta <= i < freeblock s -> freeblock s < FSSIZE -> img_ok (entry_set s i off).
Proof.
  intros [H1 H2 H3 H4] Hi Hr. split; cbn [img freeblock entry_set].
  - intros b Hb. destruct (decide (b = i)) as [->|]; [rewrite lookup_insert_eq; eauto|rewrite lookup_insert_ne by done; by apply H1].
  - intros b. rewrite vof_insert. destruct (decide (b = i)); [|by apply H2]. unfold block, put32. rewrite length_put_le. apply H2.
  - intros b Hb. rewrite vof_insert, decide_False by lia. apply H3. lia.
  - lia.
Qed.

Lemma mk_grow_indirect s x nb :
  mapped_to (vof (img s)) (freeblock s) x nb -> img_ok s -> NDIRECT < nb < MAXFILE -> freeblock s < FSSIZE ->
  exists s' x' a, file_block x nb s = Done ((x', a), s') /\ grown s x nb s' x' a.
Proof.
  intros HM HI Hnb Hroom. pose proof (im_free _ HI) as Hfree. pose proof (mt_ind _ _ _ _ HM ltac:(lia)) as Hind.
  assert (0 < nmeta) as Hpos by done. assert (ind x <> 0) as Hi0 by lia.
  assert (get32 (vof (img s) (ind x)) (Z.to_nat (4 * (nb - NDIRECT))) = 0) as E0.
  { pose proof (mt_out _ _ _ _ HM nb ltac:(lia)) as E. rewrite adr_indirect in E by lia. by rewrite (proj2 (Z.eqb_neq _ _)) in E by done. }
  destruct (next_block_run s HI) as (_ & Hu & _).
  pose proof (block_entry_run s x nb HI ltac:(lia) ltac:(lia) E0) as Erun. set (s' := entry_set _ _ _) in *.
  assert (forall b, vof (img s') b = if decide (b = ind x) then put32 (vof (img s) (ind x)) (Z.to_nat (4 * (nb - NDIRECT))) (freeblock s) else vof (img s) b) as Hv
    by (intros b; apply vof_insert).
  assert (forall bn, 0 <= bn < MAXFILE -> adr (vof (img s')) x bn = if decide (bn = nb) then freeblock s else adr (vof (img s)) x bn) as Hadr.
  { intros bn Hbn. eapply adr_set_entry; [apply (im_block _ HI)| |done|done|lia|done]. by rewrite Hv, decide_True. }
  exists s', x, (freeblock s). split.
  - unfold file_block. rewrite (proj2 (Z.ltb_ge _ _)) by lia. fold (ind x).
    rewrite (xint_small (ind x)), (proj2 (Z.eqb_neq _ _)) by (done || (unfold is_u32; fs_lia)). exact Erun.
  - split.
    + apply (mapped_grow (vof (img s)) (freeblock s) x nb _ _ _ (freeblock s)); cbn [freeblock s' entry_set]; [exact HM|lia|lia|lia|apply (mt_len _ _ _ _ HM)|exact Hadr|lia|lia|lia|by left].
    + apply entry_set_ok; (done || lia).
    + rewrite Hadr by fs_lia. by rewrite decide_True.
    + intros bn Hbn. rewrite Hadr by fs_lia. by rewrite decide_False by lia.
    + rewrite Hv, decide_False by lia. by apply (im_zero _ HI).
    + intros b Hb Ho. rewrite Hv, decide_False; [done|]. intros ->. apply Ho. left. split; [lia|done].
    + intros bn Hbn. rewrite Hv, decide_False; [done|]. by apply (mt_ne _ _ _ _ HM).
    + intros b [[? ->]|(bn & Hbn & ->)]; [by left; left; split; [lia|]|]. rewrite Hadr by fs_lia. destruct (decide (bn = nb)).
      * right. unfold s'. cbn [freeblock entry_set]. lia.
      * left. right. exists bn. split; [lia|done].
    + by destruct x.
    + done.
    + done.
    + unfold s', need. cbn [freeblock entry_set]. zcases; lia.
Qed.

Lemma mk_grow_first s x :
  mapped_to (vof (img s)) (freeblock s) x NDIRECT -> img_ok s -> freeblock s + 1 < FSSIZE ->
  exists s' x' a, file_block x NDIRECT s = Done ((x', a), s') /\ grown s x NDIRECT s' x' a.
Proof.
  intros HM HI Hroom. pose proof (im_free _ HI) as Hfree. pose proof (mt_noind _ _ _ _ HM ltac:(lia)) as Hind.
  assert (0 < nmeta) as Hpos by done. destruct (next_block_run s HI) as (En & Hu & Hp). pose proof (mt_len _ _ _ _ HM) as Hlen.
  set (fb := freeblock s) in *. set (x' := set_addr 12 fb x).
  assert (ind x' = fb) as Eind by (unfold ind, x'; rewrite get_set_addr by lia; by rewrite decide_True).
  pose proof (bump_ok s HI ltac:(lia)) as HI1. assert (vof (img (bump s)) fb = zero_block) as Ez by (by apply (im_zero _ HI)).
  assert (block_entry x' NDIRECT (bump s) = Done ((x', fb + 1), entry_set (bump s) fb (4 * (NDIRECT - NDIRECT)))) as Erun.
  { pose proof (block_entry_run (bump s) x' NDIRECT HI1) as E. rewrite Eind, Ez in E.
    apply E; [fs_lia|cbn [freeblock bump]; fold fb; lia|apply get32_zero_block]. }
  set (s' := entry_set _ _ _) in *.
  assert (forall b, vof (img s') b = if decide (b = fb) then put32 zero_block (Z.to_nat (4 * (NDIRECT - NDIRECT))) (fb + 1) else vof (img s) b) as Hv.
  { intros b. unfold s'. cbn [img entry_set]. rewrite vof_insert, Ez. done. }
  assert (forall bn, 0 <= bn < MAXFILE -> adr (vof (img s')) x' bn = if decide (bn = NDIRECT) then fb + 1 else adr (vof (img s)) x bn) as Hadr.
  { intros bn Hbn. rewrite (adr_set_entry (vof (img (bump s))) _ x' bn NDIRECT (fb + 1)); [| | | | |fs_lia|done].
    - destruct (decide (bn = NDIRECT)); [done|]. destruct (decide (bn < NDIRECT)).
      + rewrite !adr_direct by done. unfold x'. rewrite get_set_addr by lia. by rewrite decide_False by fs_lia.
      + rewrite !adr_indirect by lia. rewrite Hind, Eind, Ez, get32_zero_block. by destruct (fb =? 0).
    - apply (im_block _ HI1).
    - by rewrite Eind, Hv, decide_True, Ez.
    - rewrite Eind. lia.
    - unfold is_u32 in *. fs_lia. }
  exists s', x', (fb + 1). split.
  - unfold file_block. change (NDIRECT <? NDIRECT) with false. fold (ind x). rewrite Hind. change (xint 0 =? 0) with true.
    unfold bind at 1. unfold bind at 1. rewrite En. unfold ret at 1. cbn iota. rewrite (xint_small fb) by done. exact Erun.
  - split.
    + apply (mapped_grow (vof (img s)) fb x NDIRECT _ _ _ (fb + 1)); unfold s'; cbn [freeblock entry_set bump]; fold fb;
        [exact HM|fs_lia|lia|lia| |exact Hadr|lia|lia|rewrite Eind; lia|right; lia].
      unfold x', set_addr. cbn. by rewrite length_insert.
    + apply entry_set_ok; [done| |]; cbn [freeblock bump]; fold fb; lia.
    + rewrite Hadr by fs_lia. by rewrite decide_True.
    + intros bn Hbn. rewrite Hadr by fs_lia. by rewrite decide_False by lia.
    + rewrite Hv, decide_False by lia. apply (im_zero _ HI). fold fb. lia.
    + intros b Hb Ho. by rewrite Hv, decide_False by lia.
    + intros bn Hbn. rewrite Hv, decide_False; [done|]. pose proof (mt_in _ _ _ _ HM bn Hbn). lia.
    + assert (freeblock s' = fb + 2) as Efb by (unfold s'; cbn [freeblock entry_set bump]; fold fb; lia).
      intros b [[? ->]|(bn & Hbn & ->)]; [right; lia|]. rewrite Hadr by fs_lia. destruct (decide (bn = NDIRECT)).
      * right. lia.
      * left. right. exists bn. split; [lia|done].
    + done.
    + intros HF. unfold x', set_addr. cbn. by apply Forall_insert.
    + done.
    + unfold s', need. cbn [freeblock entry_set bump]. zcases; fs_lia.
Qed.

Lemma file_block_grows s x nb :
  mapped_to (vof (img s)) (freeblock s) x nb -> img_ok s -> nb < MAXFILE -> freeblock s + need (nb + 1) - need nb <= FSSIZE ->
  exists s' x' a, file_block x nb s = Done ((x', a), s') /\ grown s x nb s' x' a.
Proof.
  intros HM HI Hnb Hroom. pose proof (mt_nb _ _ _ _ HM). unfold need in Hroom.
  destruct (Ztrichotomy_inf nb NDIRECT) as [[Hlt|Heq]|Hgt].
  - apply mk_grow_direct; [done|done|done|]. revert Hroom. zcases; lia.
  - rewrite Heq in *. apply mk_grow_first; [done|done|]. revert Hroom. zcases; lia.
  - apply mk_grow_indirect; [done|done|lia|]. revert Hroom. zcases; lia.
Qed.

(** A block that is there is found. *)
Lemma file_block_there s x nb bn :
  mapped_to (vof (img s)) (freeblock s) x nb -> img_ok s -> 0 <= bn < nb ->
  file_block x bn s = Done ((x, adr (vof (img s)) x bn), s).
Proof.
  intros HM HI Hbn. pose proof (mt_in _ _ _ _ HM bn Hbn) as Ha. pose proof (im_free _ HI) as Hf. assert (0 < nmeta) as Hpos by done.
  pose proof (mt_nb _ _ _ _ HM) as Hnb.
  unfold file_block. destruct (Z.ltb_spec bn NDIRECT).
  - rewrite adr_direct in * by done. rewrite !xint_small by (unfold is_u32; fs_lia). rewrite (proj2 (Z.eqb_neq _ _)) by lia.
    unfold bind, ret. by rewrite xint_small by (unfold is_u32; fs_lia).
  - pose proof (mt_ind _ _ _ _ HM ltac:(lia)) as Hi. rewrite adr_indirect in * by lia. fold (ind x).
    rewrite (proj2 (Z.eqb_neq (ind x) 0)) in * by lia. rewrite xint_small, (proj2 (Z.eqb_neq (ind x) 0)) by (done || lia || (unfold is_u32; fs_lia)).
    unfold bind at 1. unfold ret at 1. cbn iota. fold (ind x). rewrite xint_small by (unfold is_u32; fs_lia).
    unfold bind at 1. rewrite rsect_run by (done || fs_lia). rewrite (proj2 (Z.eqb_neq (get32 _ _) 0)) by lia.
    unfold bind, ret. by rewrite xint_small by (unfold is_u32; fs_lia).
Qed.

(** *** Bytes of a block *)

Lemma store_data s x nb a data chunk bn :
  mapped_to (vof (img s)) (freeblock s) x nb -> img_ok s -> has_data (vof (img s)) x nb data ->
  0 <= bn < nb -> a = adr (vof (img s)) x bn -> bn * BSIZE <= Z.of_nat (length data) ->
  Z.of_nat (length data) + Z.of_nat (length chunk) <= (bn + 1) * BSIZE -> nb = bn + 1 ->
  let s' := set_img (<[a := splice (vof (img s) a) (Z.to_nat (Z.of_nat (length data) - bn * BSIZE)) chunk]> (img s)) s in
  mapped_to (vof (img s')) (freeblock s') x nb /\ img_ok s' /\ has_data (vof (img s')) x nb (data ++ chunk) /\
  (forall bn, adr (vof (img s')) x bn = adr (vof (img s)) x bn).
Proof.
  intros HM HI HD Hbn Ha Hlo Hhi Hnb s'. pose proof (mt_in _ _ _ _ HM bn Hbn) as Hr. rewrite <-Ha in Hr.
  pose proof (mt_ne _ _ _ _ HM bn Hbn) as Hne. rewrite <-Ha in Hne. pose proof (im_free _ HI) as Hf. assert (0 < nmeta) as Hpos by done.
  set (k := Z.to_nat (Z.of_nat (length data) - bn * BSIZE)) in *.
  assert (forall b, vof (img s') b = if decide (b = a) then splice (vof (img s) a) k chunk else vof (img s) b) as Hv by (intros; apply vof_insert).
  assert (forall bn, adr (vof (img s')) x bn = adr (vof (img s)) x bn) as Hadr.
  { intros bn'. apply adr_ext; [done|]. intros _. split; [done|]. intros _. by rewrite Hv, decide_False by done. }
  split_and!; [| | |done].
  - destruct HM as [M1 M2 M3 M4 M5 M6 M7 M8]. split; try done; intros *; rewrite ?Hadr; auto.
  - destruct HI as [I1 I2 I3 I4]. split.
    + intros b Hb. unfold s'. cbn. destruct (decide (b = a)) as [->|]; [rewrite lookup_insert_eq; eauto|rewrite lookup_insert_ne by done; by apply I1].
    + intros b. rewrite Hv. destruct (decide (b = a)); [|by apply I2]. unfold block. rewrite length_splice. apply I2.
    + intros b Hb. rewrite Hv, decide_False by (cbn in Hb; lia). by apply I3.
    + done.
  - intros o Ho. unfold byte_at. fold (adr (vof (img s')) x (o / BSIZE)). rewrite Hadr, Hv.
    specialize (HD o Ho). unfold byte_at in HD. fold (adr (vof (img s)) x (o / BSIZE)) in HD.
    assert (0 <= o / BSIZE < nb) as Hq by (split; [apply Z.div_pos; fs_lia|apply Z.div_lt_upper_bound; fs_lia]).
    assert (o = BSIZE * (o / BSIZE) + o mod BSIZE) as Eo by (by apply Z.div_mod).
    pose proof (Z.mod_pos_bound o BSIZE ltac:(done)) as Hm.
    destruct (decide (adr (vof (img s)) x (o / BSIZE) = a)) as [E|E].
    + assert (o / BSIZE = bn) as Eb by (apply (mt_inj _ _ _ _ HM); [done|done|congruence]).
      rewrite E in HD. pose proof (im_block _ HI a) as Hblk. unfold block in Hblk.
      assert (k + length chunk <= length (vof (img s) a))%nat as Hin by (unfold k; fs_lia).
      rewrite splice_app by done. rewrite !nth_lookup. destruct (decide (o < Z.of_nat (length data))) as [H1|H1].
      * rewrite lookup_app_l by (rewrite length_take; unfold k; fs_lia). rewrite lookup_take_lt by (unfold k; fs_lia).
        rewrite lookup_app_l by lia. by rewrite !nth_lookup in HD.
      * rewrite lookup_app_r by (rewrite length_take; unfold k; fs_lia). rewrite (lookup_app_r data) by lia.
        replace (Z.to_nat (o mod BSIZE) - length (take k (vof (img s) a)))%nat with (Z.to_nat o - length data)%nat by (rewrite length_take; unfold k; fs_lia).
        destruct (decide (Z.to_nat o - length data < length chunk)%nat).
        -- by rewrite lookup_app_l by lia.
        -- rewrite lookup_app_r by lia. rewrite (lookup_ge_None_2 chunk) by lia. rewrite lookup_drop.
           rewrite !nth_lookup in HD. rewrite (lookup_ge_None_2 data) in HD by lia.
           replace (k + length chunk + (Z.to_nat o - length data - length chunk))%nat with (Z.to_nat (o mod BSIZE)) by (unfold k; fs_lia). done.
    + rewrite HD. rewrite app_nth1; [done|]. assert (o / BSIZE <> bn) by (intros Eb; apply E; by rewrite Eb).
      assert (o / BSIZE < bn) by lia. fs_lia.
Qed.

(** *** Appending *)
Definition blocks_of (data : list Z) : Z := nblk_of (Z.of_nat (length data)).
Record afile s x data : Prop := {
  af_map : mapped_to (vof (img s)) (freeblock s) x (blocks_of data);
  af_data : has_data (vof (img s)) x (blocks_of data) data;
  af_u32 : Forall is_u32 (d_addrs x)
}.
(** The file [x] with [data] has become [x'] with [data']; nothing else has
    changed but fresh blocks. *)
Record astep s x data s' x' data' : Prop := {
  as_file : afile s' x' data';
  as_img : img_ok s';
  as_frame b : b < freeblock s -> ~ owns (vof (img s)) x (blocks_of data) b -> vof (img s') b = vof (img s) b;
  as_own b : owns (vof (img s')) x' (blocks_of data') b -> owns (vof (img s)) x (blocks_of data) b \/ freeblock s <= b < freeblock s';
  as_inode : x' = {| d_type := d_type x; d_major := d_major x; d_minor := d_minor x; d_nlink := d_nlink x; d_size := d_size x; d_addrs := d_addrs x' |};
  as_fi : freeinode s' = freeinode s;
  as_le : freeblock s <= freeblock s';
  as_fb : freeblock s' = freeblock s + need (blocks_of data') - need (blocks_of data)
}.

Lemma astep_refl s x data : afile s x data -> img_ok s -> astep s x data s x data.
Proof. intros HA HI. split; try done; [by left|by destruct x|lia]. Qed.
Lemma astep_trans s x d s1 x1 d1 s2 x2 d2 : astep s x d s1 x1 d1 -> astep s1 x1 d1 s2 x2 d2 -> astep s x d s2 x2 d2.
Proof.
  intros [A1 I1 F1 O1 N1 Fi1 L1 B1] [A2 I2 F2 O2 N2 Fi2 L2 B2]. split; [done|done| | | |congruence|lia|lia].
  - intros b Hb Ho. rewrite F2; [by apply F1|lia|]. intros [Ho'|?]%O1; [done|lia].
  - intros b Ho. destruct (O2 b Ho) as [Ho'|?]; [|right; lia]. destruct (O1 b Ho') as [?|?]; [by left|right; lia].
  - rewrite N2. rewrite N1. done.
Qed.

Lemma nblk_of_range n : 0 <= n -> (nblk_of n - 1) * BSIZE < n <= nblk_of n * BSIZE /\ 0 <= nblk_of n.
Proof. intros Hn. unfold nblk_of. change BSIZE with 512. Z.div_mod_to_equations. lia. Qed.
Lemma nblk_of_uniq n nb : (nb - 1) * BSIZE < n <= nb * BSIZE -> nblk_of n = nb.
Proof. unfold nblk_of. change BSIZE with 512. intros. Z.div_mod_to_equations. lia. Qed.
Lemma need_mono n m : n <= m -> need n <= need m.
Proof. unfold need. zcases; lia. Qed.

Lemma div_block o : o / BSIZE * BSIZE <= o < (o / BSIZE + 1) * BSIZE.
Proof. change BSIZE with 512. Z.div_mod_to_equations. lia. Qed.
Lemma nth_zero_block k : nth k zero_block 0 = 0.
Proof. unfold zero_block. rewrite nth_lookup. destruct (replicate _ _ !! _) eqn:Er; [|done]. by apply lookup_replicate in Er as [-> _]. Qed.

(** The block for the next byte, old or fresh. *)
Lemma next_byte_block s x data :
  let fbn := Z.of_nat (length data) / BSIZE in
  afile s x data -> img_ok s -> fbn < MAXFILE -> freeblock s + need (fbn + 1) - need (blocks_of data) <= FSSIZE ->
  exists s' x' a, file_block x fbn s = Done ((x', a), s') /\ a = adr (vof (img s')) x' fbn /\
    mapped_to (vof (img s')) (freeblock s') x' (fbn + 1) /\ has_data (vof (img s')) x' (fbn + 1) data /\ img_ok s' /\
    Forall is_u32 (d_addrs x') /\
    (forall b, b < freeblock s -> ~ owns (vof (img s)) x (blocks_of data) b -> vof (img s') b = vof (img s) b) /\
    (forall b, owns (vof (img s')) x' (fbn + 1) b -> owns (vof (img s)) x (blocks_of data) b \/ freeblock s <= b < freeblock s') /\
    x' = {| d_type := d_type x; d_major := d_major x; d_minor := d_minor x; d_nlink := d_nlink x; d_size := d_size x; d_addrs := d_addrs x' |} /\
    freeinode s' = freeinode s /\ freeblock s <= freeblock s' /\
    freeblock s' = freeblock s + need (fbn + 1) - need (blocks_of data).
Proof.
  intros fbn [HM HD Hu] HI Hlt Hroom. pose proof (nblk_of_range (Z.of_nat (length data)) ltac:(lia)) as [Hn Hn0].
  fold (blocks_of data) in *. assert (0 <= fbn /\ fbn * BSIZE <= Z.of_nat (length data) < (fbn + 1) * BSIZE) as Hf.
  { unfold fbn. change BSIZE with 512. Z.div_mod_to_equations. lia. }
  destruct (decide (fbn < blocks_of data)) as [Hold|Hnew].
  - assert (blocks_of data = fbn + 1) as Enb by fs_lia. rewrite Enb in *.
    exists s, x, (adr (vof (img s)) x fbn). rewrite (file_block_there s x (fbn + 1)) by (done || lia).
    split_and!; try done; [by left|by destruct x|lia].
  - assert (blocks_of data = fbn) as Enb by fs_lia. rewrite Enb in *.
    destruct (file_block_grows s x fbn HM HI Hlt ltac:(lia)) as (s' & x' & a & E & [G1 G2 G3 G4 G5 G6 G7 G8 G9 G10 G11 G12]).
    exists s', x', a. split_and!; try done; [|auto|pose proof (need_mono fbn (fbn + 1)); lia].
    intros o Ho. unfold byte_at. fold (adr (vof (img s')) x' (o / BSIZE)).
    assert (0 <= o / BSIZE < fbn + 1) as Hq by (split; [apply Z.div_pos; fs_lia|apply Z.div_lt_upper_bound; fs_lia]).
    destruct (decide (o / BSIZE = fbn)) as [Eq|Hne].
    + rewrite Eq, G3, G5, nth_zero_block, nth_overflow; [done|]. pose proof (div_block o). fs_lia.
    + rewrite G4, G7 by lia. rewrite <-HD; [done|]. pose proof (div_block o). fs_lia.
Qed.

Definition room s (data data' : list Z) : Prop :=
  Z.of_nat (length data') <= MAXFILE * BSIZE /\ freeblock s + need (blocks_of data') - need (blocks_of data) <= FSSIZE.

Lemma blocks_of_mono d d' : (length d <= length d')%nat -> blocks_of d <= blocks_of d'.
Proof. intros H. unfold blocks_of, nblk_of. apply Z.div_le_mono; [done|]. fs_lia. Qed.

(** One round of the loop: the bytes that fit the block. *)
Definition round_len (off n : Z) : Z := Z.min n ((off / BSIZE + 1) * BSIZE - off).
Lemma iappend_round s x data p :
  let off := Z.of_nat (length data) in
  let n1 := round_len off (Z.of_nat (length p)) in
  afile s x data -> img_ok s -> p <> [] -> room s data (data ++ p) ->
  1 <= n1 <= Z.of_nat (length p) /\ off / BSIZE < MAXFILE /\
  exists s1 x1 a s2, file_block x (off / BSIZE) s = Done ((x1, a), s1) /\ rsect a s1 = Done (vof (img s1) a, s1) /\
    wsect a (splice (vof (img s1) a) (Z.to_nat (off - off / BSIZE * BSIZE)) (take (Z.to_nat n1) p)) s1 = Done (tt, s2) /\
    astep s x data s2 x1 (data ++ take (Z.to_nat n1) p).
Proof.
  intros off n1 HA HI Hp [Hmax Hroom]. rewrite length_app in Hmax. assert (0 < Z.of_nat (length p)) as Hp0 by (destruct p; [done|cbn; lia]).
  pose proof (div_block off) as Hdb. set (fbn := off / BSIZE) in *. assert (0 <= fbn) as Hf0 by (apply Z.div_pos; [unfold off; lia|done]).
  assert (1 <= n1 <= Z.of_nat (length p) /\ off + n1 <= (fbn + 1) * BSIZE) as [Hn1 Hend] by (unfold n1, round_len; fold fbn; lia).
  assert (fbn < MAXFILE) as Hfm by (unfold off in *; fs_lia). split_and!; [lia|lia|done|].
  assert (length (take (Z.to_nat n1) p) = Z.to_nat n1) as Lt by (rewrite length_take; lia).
  assert (blocks_of (data ++ take (Z.to_nat n1) p) = fbn + 1) as Eb.
  { apply nblk_of_uniq. rewrite length_app, Lt. unfold off in *. lia. }
  assert (need (fbn + 1) <= need (blocks_of (data ++ p))) as Hneed.
  { rewrite <-Eb. apply need_mono, blocks_of_mono. rewrite !length_app, Lt. lia. }
  destruct (next_byte_block s x data HA HI Hfm ltac:(fold off; fold fbn; lia)) as (s1 & x1 & a & E & Ha & HM & HD & HI1 & Hu & Hfr & Hown & Hino & Hfi & Hle & Hfb).
  fold off in E, Ha, HM, HD, Hown, Hfb. fold fbn in E, Ha, HM, HD, Hown, Hfb.
  pose proof (mt_in _ _ _ _ HM fbn ltac:(lia)) as Hr. rewrite <-Ha in Hr. pose proof (im_free _ HI1) as Hf1. assert (0 < nmeta) by done.
  destruct (store_data s1 x1 (fbn + 1) a data (take (Z.to_nat n1) p) fbn HM HI1 HD) as (HM2 & HI2 & HD2 & Hadr); [lia|done|fold off; lia|fold off; rewrite Lt; lia|done|].
  fold off in HM2, HI2, HD2, Hadr. set (s2 := set_img _ s1) in *.
  exists s1, x1, a, s2. split_and!; [done|apply rsect_run; [done|lia]|done|].
  split; rewrite ?Eb.
  - by split; rewrite ?Eb.
  - done.
  - intros b Hb Ho. unfold s2. cbn [img set_img]. rewrite vof_insert, decide_False; [by apply Hfr|]. intros ->.
    destruct (Hown a) as [?|?]; [right; exists fbn; split; [lia|done]|done|lia].
  - intros b Ho. apply Hown. destruct Ho as [?|(bn & Hbn & ->)]; [by left|right; exists bn]. by rewrite Hadr.
  - done.
  - done.
  - done.
  - exact Hfb.
Qed.

Lemma iappend_loop_run fuel s x data p :
  afile s x data -> img_ok s -> room s data (data ++ p) -> (length p < fuel)%nat ->
  exists s' x', iappend_loop fuel x (Z.of_nat (length data)) p s = Done ((x', Z.of_nat (length (data ++ p))), s') /\
    astep s x data s' x' (data ++ p).
Proof.
  revert s x data p. induction fuel as [|fuel IH]; intros s x data p HA HI HR Hf; [lia|]. cbn [iappend_loop].
  destruct (decide (p = [])) as [->|Hp].
  { exists s, x. rewrite app_nil_r. split; [done|]. by apply astep_refl. }
  destruct (iappend_round s x data p HA HI Hp HR) as (Hn1 & Hfm & s1 & x1 & a & s2 & E1 & E2 & E3 & HS).
  set (n1 := round_len _ _) in *. rewrite (proj2 (Z.ltb_lt 0 _)) by lia. rewrite (proj2 (Z.ltb_lt _ MAXFILE)) by done. cbn [negb].
  unfold bind at 1. rewrite E1. unfold bind at 1. rewrite E2. unfold bind at 1. fold (round_len (Z.of_nat (length data)) (Z.of_nat (length p))). fold n1. rewrite E3.
  assert (length (take (Z.to_nat n1) p) = Z.to_nat n1) as Lt by (rewrite length_take; lia).
  destruct (IH s2 x1 (data ++ take (Z.to_nat n1) p) (drop (Z.to_nat n1) p)) as (s' & x' & E & HS').
  - apply (as_file _ _ _ _ _ _ HS).
  - apply (as_img _ _ _ _ _ _ HS).
  - rewrite <-app_assoc, take_drop. destruct HR as [? ?]. split; [done|]. rewrite (as_fb _ _ _ _ _ _ HS). lia.
  - rewrite length_drop. lia.
  - rewrite <-app_assoc, take_drop in E, HS'. exists s', x'. split; [|by eapply astep_trans].
    rewrite <-E. rewrite length_app, Lt, Nat2Z.inj_add. by rewrite Z2Nat.id by lia.
Qed.

(** ** All files of the image *)

Lemma owns_range s x d b : afile s x d -> owns (vof (img s)) x (blocks_of d) b -> nmeta <= b < freeblock s.
Proof. intros [HM _ _] [[? ->]|(bn & Hbn & ->)]; [by apply (mt_ind _ _ _ _ HM)|by apply (mt_in _ _ _ _ HM)]. Qed.

(** A file whose blocks are left alone stays as it is. *)
Lemma afile_adr s x d v' :
  afile s x d -> (forall b, owns (vof (img s)) x (blocks_of d) b -> v' b = vof (img s) b) -> forall bn, adr v' x bn = adr (vof (img s)) x bn.
Proof.
  intros [HM _ _] Hf bn. apply adr_ext; [done|]. intros _. split; [done|]. intros Hi. apply Hf. left. split; [|done].
  destruct (decide (NDIRECT < blocks_of d)); [done|]. destruct Hi. apply (mt_noind _ _ _ _ HM). lia.
Qed.
Lemma owns_frame s x d v' :
  afile s x d -> (forall b, owns (vof (img s)) x (blocks_of d) b -> v' b = vof (img s) b) ->
  forall b, owns v' x (blocks_of d) b <-> owns (vof (img s)) x (blocks_of d) b.
Proof.
  intros HA Hf b. unfold owns. split; (intros [?|(bn & Hbn & ->)]; [by left|right; exists bn; by rewrite (afile_adr _ _ _ _ HA Hf)]).
Qed.
Lemma afile_frame s s' x d :
  afile s x d -> freeblock s <= freeblock s' -> (forall b, owns (vof (img s)) x (blocks_of d) b -> vof (img s') b = vof (img s) b) ->
  afile s' x d.
Proof.
  intros HA Hle Hf. pose proof (afile_adr _ _ _ _ HA Hf) as Hadr. destruct HA as [[M1 M2 M3 M4 M5 M6 M7 M8] HD Hu]. split; [split|..]; try done.
  - intros bn Hbn. rewrite Hadr. specialize (M3 bn Hbn). lia.
  - intros bn Hbn. rewrite Hadr. by apply M4.
  - intros H. specialize (M5 H). lia.
  - intros b1 b2 H1 H2. rewrite !Hadr. by apply M7.
  - intros bn Hbn. rewrite Hadr. by apply M8.
  - intros o Ho. rewrite <-HD by done. unfold byte_at. fold (adr (vof (img s')) x (o / BSIZE)) (adr (vof (img s)) x (o / BSIZE)).
    rewrite Hadr. rewrite Hf; [done|]. right. exists (o / BSIZE). split; [|done]. split; [apply Z.div_pos; fs_lia|apply Z.div_lt_upper_bound; fs_lia].
Qed.

(** [F]: the files in the order of their inode numbers, with their data. *)
Definition total_need (F : list (dinode * list Z)) : Z := foldr (fun y n => need (blocks_of y.2) + n) 0 F.
Record world (s : mk) (F : list (dinode * list Z)) : Prop := {
  wo_img : img_ok s;
  wo_fi : freeinode s = Z.of_nat (length F) + 1;
  wo_count : Z.of_nat (length F) < NINODES;
  wo_inode k x d : F !! k = Some (x, d) -> disk_inode sb (vof (img s)) (Z.of_nat k + 1) = x /\ dinode_wf x /\ afile s x d /\
    d_size x = Z.of_nat (length d) /\ Z.of_nat (length d) <= MAXFILE * BSIZE;
  wo_disj k l x d y e b : F !! k = Some (x, d) -> F !! l = Some (y, e) ->
    owns (vof (img s)) x (blocks_of d) b -> owns (vof (img s)) y (blocks_of e) b -> k = l;
  wo_sb : vof (img s) 1 = splice zero_block 0 (sb_bytes sb);
  wo_used : freeblock s = nmeta + total_need F;
  wo_log b : 2 <= b < 32 -> vof (img s) b = zero_block;
  wo_rest inum : inum = 0 \/ Z.of_nat (length F) < inum -> 0 <= inum < NINODES -> disk_inode sb (vof (img s)) inum = zero_dinode 0
}.

Lemma iblock_range inum : 0 <= inum < NINODES -> 32 <= IBLOCK inum sb < 58.
Proof. unfold IBLOCK, NINODES. rewrite sb_eq. cbn [sb_inodestart]. change IPB with 8. intros. Z.div_mod_to_equations. lia. Qed.

(** Writing an inode. *)
Definition inode_set (s : mk) (inum : Z) (x : dinode) : mk :=
  set_img (<[IBLOCK inum sb := put_dinode (vof (img s) (IBLOCK inum sb)) (inode_off inum) x]> (img s)) s.
Lemma winode_run s inum x : img_ok s -> 0 <= inum < NINODES -> winode inum x s = Done (tt, inode_set s inum x).
Proof.
  intros HI Hi. pose proof (iblock_range _ Hi). unfold winode, bind. by rewrite rsect_run by (done || fs_lia).
Qed.
Lemma inode_set_frame s inum x b : 0 <= inum < NINODES -> b <= 31 \/ 58 <= b -> vof (img (inode_set s inum x)) b = vof (img s) b.
Proof. intros Hi Hb. pose proof (iblock_range _ Hi). unfold inode_set. cbn [img set_img]. by rewrite vof_insert, decide_False by lia. Qed.
Lemma inode_set_ok s inum x : img_ok s -> 0 <= inum < NINODES -> img_ok (inode_set s inum x).
Proof.
  intros HI Hi. pose proof (iblock_range _ Hi) as Hr. destruct HI as [I1 I2 I3 I4]. assert (58 < nmeta) by done. split; cbn [img set_img inode_set freeblock].
  - intros b Hb. destruct (decide (b = IBLOCK inum sb)) as [->|]; [rewrite lookup_insert_eq; eauto|rewrite lookup_insert_ne by done; by apply I1].
  - intros b. rewrite vof_insert. destruct (decide _); [|done]. unfold block, put_dinode. rewrite length_splice. apply I2.
  - intros b Hb. rewrite vof_insert, decide_False by lia. by apply I3.
  - done.
Qed.
Lemma inode_set_disk s inum x : img_ok s -> dinode_wf x -> disk_inode sb (vof (img (inode_set s inum x))) inum = x.
Proof.
  intros HI Hx. unfold disk_inode, inode_set. cbn [img set_img]. rewrite vof_insert, decide_True by done.
  apply get_put_dinode; [done|]. pose proof (im_block _ HI (IBLOCK inum sb)) as Hb. pose proof (inode_off_bound inum). unfold block in Hb. fs_lia.
Qed.
Lemma inode_set_disk_ne s inum inum' x : 0 <= inum -> 0 <= inum' -> inum' <> inum -> dinode_wf x ->
  disk_inode sb (vof (img (inode_set s inum x))) inum' = disk_inode sb (vof (img s)) inum'.
Proof.
  intros H1 H2 Hne Hx. rewrite <-(disk_inode_put_ne sb (vof (img s)) inum inum' x) by done. unfold disk_inode, put_inode. f_equal.
  unfold inode_set. cbn [img set_img]. rewrite vof_insert. unfold fupd.
  destruct (decide (IBLOCK inum' sb = IBLOCK inum sb)); [by rewrite bool_decide_eq_true_2|by rewrite bool_decide_eq_false_2].
Qed.

Lemma total_need_insert F k x d x' d' :
  F !! k = Some (x, d) -> total_need (<[k := (x', d')]> F) = total_need F + need (blocks_of d') - need (blocks_of d).
Proof.
  revert k. induction F as [|y F IH]; intros [|k] E; [done|done| |].
  - injection E as ->. cbn. unfold total_need. lia.
  - change (need (blocks_of y.2) + total_need (<[k := (x', d')]> F) = need (blocks_of y.2) + total_need F + need (blocks_of d') - need (blocks_of d)).
    rewrite (IH k E). lia.
Qed.

Lemma afile_set_size s x d n : afile s x d -> afile s (set_size n x) d.
Proof. intros [[M1 M2 M3 M4 M5 M6 M7 M8] HD Hu]. by split; [split|..]. Qed.

(** A file of the world is exchanged for another one, which may own fresh
    blocks, and its inode is written. *)
Lemma world_update s F k x d s1 x' d' :
  world s F -> F !! k = Some (x, d) -> astep s x d s1 x' d' ->
  let y := set_size (Z.of_nat (length d')) x' in
  dinode_wf y -> Z.of_nat (length d') <= MAXFILE * BSIZE -> world (inode_set s1 (Z.of_nat k + 1) y) (<[k := (y, d')]> F).
Proof.
  intros [WI Wfi Wc Win Wd Wsb Wu Wlog Wrest] Hk HS y Hwf Hmax. destruct (Win k x d Hk) as (Hx & Hxwf & HA & Hsz & _).
  pose proof (lookup_lt_Some _ _ _ Hk) as Hkl. assert (0 <= Z.of_nat k + 1 < NINODES) as Hi by lia.
  pose proof (as_img _ _ _ _ _ _ HS) as HI1. pose proof (as_le _ _ _ _ _ _ HS) as Hle. set (s2 := inode_set s1 (Z.of_nat k + 1) y).
  assert (58 < nmeta) as H58 by done. pose proof (im_free _ WI) as Hfree.
  assert (forall b, b < nmeta -> vof (img s1) b = vof (img s) b) as Hmeta.
  { intros b Hb. apply (as_frame _ _ _ _ _ _ HS); [lia|]. intros Ho. pose proof (owns_range _ _ _ _ HA Ho). lia. }
  assert (forall b, nmeta <= b -> vof (img s2) b = vof (img s1) b) as Hdata by (intros b Hb; apply inode_set_frame; [done|lia]).
  assert (forall l z e, l <> k -> F !! l = Some (z, e) -> forall b, owns (vof (img s)) z (blocks_of e) b -> vof (img s2) b = vof (img s) b) as Hoth.
  { intros l z e Hlk Hl b Ho. destruct (Win l z e Hl) as (_ & _ & HAl & _). pose proof (owns_range _ _ _ _ HAl Ho).
    rewrite Hdata by lia. apply (as_frame _ _ _ _ _ _ HS); [lia|]. intros Ho'. destruct Hlk. by eapply Wd. }
  assert (afile s2 y d') as HA'.
  { apply (afile_frame s1); [apply afile_set_size, (as_file _ _ _ _ _ _ HS)|done|]. intros b Ho. apply Hdata.
    by apply (owns_range s1 x' d'); [apply (as_file _ _ _ _ _ _ HS)|]. }
  assert (forall b, owns (vof (img s2)) y (blocks_of d') b -> owns (vof (img s)) x (blocks_of d) b \/ freeblock s <= b) as Hown.
  { intros b Ho. assert (owns (vof (img s1)) x' (blocks_of d') b) as Ho1.
    { apply (owns_frame s1 x' d' (vof (img s2))); [apply (as_file _ _ _ _ _ _ HS)| |done]. intros c Hc. apply Hdata.
      by apply (owns_range s1 x' d'); [apply (as_file _ _ _ _ _ _ HS)|]. }
    destruct (as_own _ _ _ _ _ _ HS b Ho1) as [?|?]; [by left|right; lia]. }
  assert (forall l z e b, l <> k -> F !! l = Some (z, e) -> owns (vof (img s2)) z (blocks_of e) b -> owns (vof (img s)) z (blocks_of e) b) as Hback.
  { intros l z e b Hlk Hl Ho. destruct (Win l z e Hl) as (_ & _ & HAl & _). by apply (owns_frame s z e (vof (img s2)) HAl (Hoth l z e Hlk Hl)). }
  assert (forall l z e b, l <> k -> F !! l = Some (z, e) -> owns (vof (img s2)) z (blocks_of e) b -> ~ owns (vof (img s2)) y (blocks_of d') b) as Hapart.
  { intros l z e b Hlk Hl Ho%(Hback l z e b Hlk Hl) [Ho'|?]%Hown; [destruct Hlk; by eapply Wd|].
    destruct (Win l z e Hl) as (_ & _ & HAl & _). pose proof (owns_range _ _ _ _ HAl Ho). lia. }
  split.
  - by apply inode_set_ok.
  - rewrite length_insert. rewrite <-Wfi. apply (as_fi _ _ _ _ _ _ HS).
  - by rewrite length_insert.
  - intros l z e Hl. destruct (decide (l = k)) as [->|Hlk].
    + rewrite list_lookup_insert_eq in Hl by done. injection Hl as <- <-. split_and!; [by apply inode_set_disk|done|done|done|done].
    + rewrite list_lookup_insert_ne in Hl by done. destruct (Win l z e Hl) as (Hz & Hzwf & HAl & Hzs & ?). split_and!; [|done| |done|done].
      * unfold s2. rewrite inode_set_disk_ne by (done || lia). rewrite <-Hz. unfold disk_inode. f_equal. apply Hmeta.
        pose proof (lookup_lt_Some _ _ _ Hl). pose proof (iblock_range (Z.of_nat l + 1) ltac:(lia)). lia.
      * apply (afile_frame s); [done|done|by apply (Hoth l)].
  - intros l m z e z' e' b Hl Hm Ho Ho'. destruct (decide (l = k)) as [->|Hlk], (decide (m = k)) as [->|Hmk]; [done| | |].
    + rewrite list_lookup_insert_eq in Hl by done. injection Hl as <- <-. rewrite list_lookup_insert_ne in Hm by done. by destruct (Hapart m z' e' b).
    + rewrite list_lookup_insert_eq in Hm by done. injection Hm as <- <-. rewrite list_lookup_insert_ne in Hl by done. by destruct (Hapart l z e b).
    + rewrite list_lookup_insert_ne in Hl, Hm by done. by apply (Wd l m z e z' e' b); [| |apply (Hback l)|apply (Hback m)].
  - unfold s2. rewrite inode_set_frame by (done || lia). rewrite Hmeta by lia. done.
  - unfold s2. cbn [freeblock inode_set set_img]. rewrite (as_fb _ _ _ _ _ _ HS), Wu, (total_need_insert _ _ _ _ _ _ Hk). lia.
  - intros b Hb. unfold s2. rewrite inode_set_frame by (done || lia). rewrite Hmeta by lia. by apply Wlog.
  - intros inum Hin Hr. rewrite length_insert in Hin. unfold s2. rewrite inode_set_disk_ne by (done || lia). rewrite <-(Wrest inum) by done.
    unfold disk_inode. f_equal. apply Hmeta. pose proof (iblock_range inum Hr). lia.
Qed.

Lemma rinode_run s F k x d : world s F -> F !! k = Some (x, d) -> rinode (Z.of_nat k + 1) s = Done (x, s).
Proof.
  intros W Hk. destruct (wo_inode _ _ W k x d Hk) as (Hx & _). pose proof (lookup_lt_Some _ _ _ Hk). pose proof (wo_count _ _ W).
  pose proof (iblock_range (Z.of_nat k + 1) ltac:(lia)). unfold rinode, bind. rewrite rsect_run by (apply (wo_img _ _ W) || fs_lia).
  unfold ret. do 2 f_equal. exact Hx.
Qed.

Lemma appended_wf x x' d n :
  dinode_wf x -> afile d x' n ->
  x' = {| d_type := d_type x; d_major := d_major x; d_minor := d_minor x; d_nlink := d_nlink x; d_size := d_size x; d_addrs := d_addrs x' |} ->
  forall z, is_u32 z -> dinode_wf (set_size z x').
Proof. intros [W1 W2 W3 W4 W5 W6 W7] [HM _ Hu] -> z Hz. split; cbn; try done. apply (mt_len _ _ _ _ HM). Qed.

(** [iappend] on a file of the image. *)
Lemma iappend_run s F k x d p :
  world s F -> F !! k = Some (x, d) -> room s d (d ++ p) ->
  exists s' x', iappend (Z.of_nat k + 1) p s = Done (tt, s') /\ world s' (<[k := (x', d ++ p)]> F) /\
    d_type x' = d_type x /\ d_nlink x' = d_nlink x.
Proof.
  intros W Hk HR. destruct (wo_inode _ _ W k x d Hk) as (_ & Hwf & HA & Hsz & _).
  pose proof (lookup_lt_Some _ _ _ Hk). pose proof (wo_count _ _ W). assert (0 <= Z.of_nat k + 1 < NINODES) as Hi by lia.
  destruct (iappend_loop_run (S (length p)) s x d p HA (wo_img _ _ W) HR ltac:(lia)) as (s1 & x1 & E & HS). destruct HR as [Hmax _].
  assert (is_u32 (Z.of_nat (length (d ++ p)))) as Hu by (unfold is_u32; fs_lia).
  set (y := set_size (Z.of_nat (length (d ++ p))) x1).
  exists (inode_set s1 (Z.of_nat k + 1) y), y. split_and!.
  - unfold iappend. unfold bind at 1. rewrite (rinode_run s F k x d W Hk). unfold bind at 1. rewrite Hsz.
    rewrite xint_small by (rewrite <-Hsz; apply (dw_size _ Hwf)). rewrite E. rewrite xint_small by done.
    apply winode_run; [apply (as_img _ _ _ _ _ _ HS)|done].
  - apply (world_update s F k x d s1 x1 (d ++ p) W Hk HS); [|done].
    eapply appended_wf; [exact Hwf|apply (as_file _ _ _ _ _ _ HS)|apply (as_inode _ _ _ _ _ _ HS)|done].
  - unfold y. rewrite (as_inode _ _ _ _ _ _ HS). done.
  - unfold y. rewrite (as_inode _ _ _ _ _ _ HS). done.
Qed.

(** A new inode. *)
Definition new_inode (type : Z) : dinode :=
  {| d_type := type; d_major := 0; d_minor := 0; d_nlink := 1; d_size := 0; d_addrs := replicate 13 0 |}.
Lemma new_afile s type : img_ok s -> afile s (new_inode type) [].
Proof.
  intros HI. assert (forall bn, adr (vof (img s)) (new_inode type) bn = 0) as Hadr.
  { intros bn. destruct (decide (bn < NDIRECT)); [rewrite adr_direct by done|rewrite adr_indirect by lia; done].
    unfold get_addr. rewrite nth_lookup. cbn [new_inode d_addrs]. destruct (replicate _ _ !! _) eqn:E; [|done]. by apply lookup_replicate in E as [-> _]. }
  split; [split|..]; change (blocks_of []) with 0.
  - done.
  - done.
  - intros; lia.
  - intros; apply Hadr.
  - intros; fs_lia.
  - done.
  - intros; lia.
  - intros; lia.
  - intros o Ho. lia.
  - repeat constructor; done.
Qed.
Lemma new_wf type : is_i16 type -> dinode_wf (new_inode type).
Proof. intros Ht. split; cbn; try done. repeat constructor; done. Qed.

Lemma world_more s F x :
  world s F -> Z.of_nat (length F) + 1 < NINODES -> afile s x [] -> dinode_wf x -> d_size x = 0 ->
  world {| img := img (inode_set s (Z.of_nat (length F) + 1) x); freeinode := Z.of_nat (length F) + 2; freeblock := freeblock s |} (F ++ [(x, [])]).
Proof.
  intros [WI Wfi Wc Win Wd Wsb Wu Wlog Wrest] Hc HA Hwf Hsz. set (inum := Z.of_nat (length F) + 1) in *. assert (0 <= inum < NINODES) as Hi by lia.
  set (s2 := {| img := _; freeinode := _; freeblock := _ |}). assert (58 < nmeta) as H58 by done.
  assert (forall b, nmeta <= b -> vof (img s2) b = vof (img s) b) as Hdata by (intros b Hb; apply inode_set_frame; [done|lia]).
  assert (forall z e b, afile s z e -> owns (vof (img s)) z (blocks_of e) b -> vof (img s2) b = vof (img s) b) as Hf.
  { intros z e b HAz Ho. apply Hdata. by apply (owns_range s z e). }
  assert (forall z e, afile s z e -> afile s2 z e) as Hkeep by (intros z e HAz; apply (afile_frame s); [done|done|intros b; by apply Hf]).
  assert (forall b, ~ owns (vof (img s2)) x (blocks_of []) b) as Hno.
  { intros b [[? _]|(bn & Hbn & _)]; change (blocks_of []) with 0 in *; fs_lia. }
  assert (forall k z e b, F !! k = Some (z, e) -> owns (vof (img s2)) z (blocks_of e) b -> owns (vof (img s)) z (blocks_of e) b) as Hback.
  { intros k z e b Hk. destruct (Win k z e Hk) as (_ & _ & HAk & _). apply (owns_frame s z e (vof (img s2)) HAk). intros c; by apply Hf. }
  assert (forall k z e, (F ++ [(x, [])]) !! k = Some (z, e) -> F !! k = Some (z, e) \/ k = length F /\ z = x /\ e = []) as Hsnoc.
  { intros k z e [?|[? E]]%lookup_app_Some; [by left|]. apply list_lookup_singleton_Some in E as [? [= <- <-]]. right. split; [lia|done]. }
  split.
  - destruct (inode_set_ok s inum x WI Hi) as [I1 I2 I3 I4]. by split.
  - rewrite length_app. cbn. lia.
  - rewrite length_app. cbn. lia.
  - intros k z e [Hk|(-> & -> & ->)]%Hsnoc.
    + destruct (Win k z e Hk) as (Hz & ? & HAk & ? & ?). pose proof (lookup_lt_Some _ _ _ Hk). split_and!; [|done|by apply Hkeep|done|done].
      rewrite <-Hz. apply (inode_set_disk_ne s inum); (done || lia).
    + split_and!; [by apply (inode_set_disk s inum)|done|by apply Hkeep|done|done].
  - intros k l z e z' e' b [Hk|(-> & -> & ->)]%Hsnoc [Hl|(-> & -> & ->)]%Hsnoc Ho Ho'; [|by destruct (Hno b)|by destruct (Hno b)|done].
    by apply (Wd k l z e z' e' b); [| |apply (Hback k)|apply (Hback l)].
  - change (vof (img (inode_set s inum x)) 1 = splice zero_block 0 (sb_bytes sb)). by rewrite inode_set_frame by (done || lia).
  - cbn [freeblock s2]. rewrite Wu. unfold total_need. rewrite foldr_app. cbn. change (need (blocks_of [])) with 0. done.
  - intros b Hb. change (vof (img (inode_set s inum x)) b = zero_block). rewrite inode_set_frame by (done || lia). by apply Wlog.
  - intros j Hj Hr. rewrite length_app in Hj. cbn [length] in Hj. change (disk_inode sb (vof (img (inode_set s inum x))) j = zero_dinode 0).
    rewrite inode_set_disk_ne by (done || lia). apply Wrest; [lia|done].
Qed.

Lemma mk_ialloc_run s F type :
  world s F -> Z.of_nat (length F) + 1 < NINODES -> 0 <= type < 2 ^ 15 ->
  exists s', mk_ialloc type s = Done (Z.of_nat (length F) + 1, s') /\ world s' (F ++ [(new_inode type, [])]) /\ freeblock s' = freeblock s.
Proof.
  intros W Hc Ht. pose proof (wo_img _ _ W) as HI.
  exists {| img := img (inode_set s (Z.of_nat (length F) + 1) (new_inode type)); freeinode := Z.of_nat (length F) + 2; freeblock := freeblock s |}.
  split_and!; [|apply world_more; [done|done|by apply new_afile|apply new_wf; unfold is_i16; lia|done]|done].
  unfold mk_ialloc. unfold bind at 1, gets. rewrite (wo_fi _ _ W). unfold bind at 1, modify. rewrite (wo_fi _ _ W).
  rewrite u32_small by (unfold is_u32, NINODES in *; lia). rewrite xshort_small by lia. change (xshort 1) with 1. change (xint 0) with 0.
  replace (Z.of_nat (length F) + 1 + 1) with (Z.of_nat (length F) + 2) by lia.
  set (s1 := {| img := img s; freeinode := _; freeblock := _ |}).
  assert (img_ok s1) as HI1 by (destruct HI as [? ? ? ?]; by split).
  unfold bind. fold (new_inode type). rewrite (winode_run s1) by (done || lia). done.
Qed.

(** *** The files of the command line *)
Lemma append_all_run s F k x d ls :
  world s F -> F !! k = Some (x, d) -> room s d (d ++ concat ls) ->
  exists s' x', append_all (Z.of_nat k + 1) ls s = Done (tt, s') /\ world s' (<[k := (x', d ++ concat ls)]> F) /\
    d_type x' = d_type x /\ d_nlink x' = d_nlink x.
Proof.
  revert s F x d. induction ls as [|c ls IH]; intros s F x d W Hk HR; cbn [append_all concat] in *.
  { exists s, x. rewrite app_nil_r, list_insert_id by done. by split_and!. }
  pose proof (wo_used _ _ W) as Hu. destruct HR as [Hmax Hroom].
  assert (blocks_of (d ++ c) <= blocks_of (d ++ c ++ concat ls)) as Hb by (apply blocks_of_mono; rewrite !length_app; lia).
  pose proof (need_mono _ _ Hb) as Hnm.
  destruct (iappend_run s F k x d c W Hk) as (s1 & x1 & E1 & W1 & T1 & N1).
  { split; [rewrite !length_app in *; lia|lia]. }
  destruct (IH s1 (<[k := (x1, d ++ c)]> F) x1 (d ++ c) W1) as (s2 & x2 & E2 & W2 & T2 & N2).
  { apply list_lookup_insert_eq. by eapply lookup_lt_Some. }
  { rewrite <-app_assoc. split; [done|]. rewrite (wo_used _ _ W1), (total_need_insert _ _ _ _ _ _ Hk). lia. }
  exists s2, x2. unfold bind. rewrite E1. rewrite list_insert_insert_eq, <-app_assoc in W2. split_and!; [done|done|congruence|congruence].
Qed.

Lemma concat_chunks fuel l : (length l <= fuel)%nat -> concat (chunks fuel l) = l.
Proof.
  revert l. induction fuel as [|fuel IH]; intros [|c l] Hf; [done|cbn in Hf; lia|done|]. cbn [chunks concat].
  rewrite IH; [apply take_drop|]. rewrite length_drop. cbn [length] in *. change (Z.to_nat BSIZE) with 512%nat. lia.
Qed.

(** The entries of the root for files from inode number [n] on. *)
Fixpoint entries (n : Z) (names : list (list Z)) : list Z :=
  match names with [] => [] | name :: names => mk_dirent (skip_underscore name) n ++ entries (n + 1) names end.
Lemma length_dir_entries n names : length (entries n names) = (16 * length names)%nat.
Proof. revert n. induction names as [|a names IH]; intros n; [done|]. cbn [entries length]. rewrite length_app, length_mk_dirent, IH. unfold ENTLEN. lia. Qed.

Definition host_files (files : list (list Z * list Z)) : list (list Z * option (list Z)) := map (fun f => (f.1, Some f.2)) files.
Definition data_need (files : list (list Z * list Z)) : Z := foldr (fun f n => need (blocks_of f.2) + n) 0 files.
Definition file_arg (f : list Z * list Z) : Prop := (SLASH ∉ f.1) /\ Z.of_nat (length f.2) <= MAXFILE * BSIZE.
Definition plain_file (x : dinode) : Prop := d_type x = T_FILE /\ d_nlink x = 1.

Lemma total_need_app F1 F2 : total_need (F1 ++ F2) = total_need F1 + total_need F2.
Proof. induction F1 as [|y F1 IH]; [done|]. change (need (blocks_of y.2) + total_need (F1 ++ F2) = need (blocks_of y.2) + total_need F1 + total_need F2). lia. Qed.
Lemma total_need_cons x d F : total_need ((x, d) :: F) = need (blocks_of d) + total_need F.
Proof. done. Qed.
Lemma data_need_cons f files : data_need (f :: files) = need (blocks_of f.2) + data_need files.
Proof. done. Qed.
Lemma need_pos d : 0 <= need (blocks_of d).
Proof. pose proof (nblk_of_range (Z.of_nat (length d)) ltac:(lia)). unfold need, blocks_of. zcases; lia. Qed.
Lemma data_need_pos files : 0 <= data_need files.
Proof. induction files as [|f files IH]; [done|]. rewrite data_need_cons. pose proof (need_pos f.2). lia. Qed.

Lemma add_file_run s xr rd G name data :
  let ent := mk_dirent (skip_underscore name) (Z.of_nat (length G) + 2) in
  world s ((xr, rd) :: G) -> file_arg (name, data) -> Z.of_nat (length G) + 2 < NINODES ->
  Z.of_nat (length (rd ++ ent)) <= MAXFILE * BSIZE ->
  nmeta + need (blocks_of (rd ++ ent)) + total_need G + need (blocks_of data) <= FSSIZE ->
  exists s' xr' x', add_file ROOTINO name (Some data) s = Done (tt, s') /\
    world s' ((xr', rd ++ ent) :: G ++ [(x', data)]) /\ plain_file x' /\ d_type xr' = d_type xr /\ d_nlink xr' = d_nlink xr.
Proof.
  intros ent W [Hslash Hdata] Hcount Hmax Hcap. cbn [fst snd] in *. pose proof (need_pos data) as Hpos.
  destruct (mk_ialloc_run s _ T_FILE W) as (s1 & E1 & W1 & B1); [cbn [length]; lia|done|]. cbn [length] in E1.
  replace (Z.of_nat (S (length G)) + 1) with (Z.of_nat (length G) + 2) in E1 by lia.
  pose proof (wo_used _ _ W) as Hu. rewrite total_need_cons in Hu.
  destruct (iappend_run s1 _ 0 xr rd ent W1 eq_refl) as (s2 & xr2 & E2 & W2 & T2 & N2); [split; [done|lia]|].
  change (<[0%nat := _]> _) with ((xr2, rd ++ ent) :: G ++ [(new_inode T_FILE, [])]) in W2. change (Z.of_nat 0 + 1) with ROOTINO in E2.
  destruct (append_all_run s2 _ (S (length G)) (new_inode T_FILE) [] (chunks (length data) data) W2) as (s3 & x3 & E3 & W3 & T3 & N3).
  { change ((G ++ [(new_inode T_FILE, @nil Z)]) !! length G = Some (new_inode T_FILE, [])). by rewrite lookup_app_r, Nat.sub_diag by lia. }
  { rewrite concat_chunks by lia. split; [done|]. rewrite (wo_used _ _ W2), total_need_cons, total_need_app, total_need_cons.
    change (need (blocks_of [])) with 0. change (total_need []) with 0. cbn [app]. lia. }
  rewrite concat_chunks in W3 by lia.
  replace (<[S (length G) := (x3, [] ++ data)]> ((xr2, rd ++ ent) :: G ++ [(new_inode T_FILE, [])])) with ((xr2, rd ++ ent) :: G ++ [(x3, data)]) in W3.
  2:{ change ((xr2, rd ++ ent) :: G ++ [(x3, data)] = (xr2, rd ++ ent) :: <[length G := (x3, data)]> (G ++ [(new_inode T_FILE, [])])).
      f_equal. by rewrite insert_app_r_alt, Nat.sub_diag by lia. }
  exists s3, xr2, x3. split_and!; [|done|by split|done|done].
  unfold add_file. rewrite bool_decide_eq_false_2 by done. unfold bind at 1. rewrite E1.
  rewrite xshort_small by (unfold NINODES in *; lia). fold ent. unfold bind. rewrite E2.
  replace (Z.of_nat (length G) + 2) with (Z.of_nat (S (length G)) + 1) by lia. exact E3.
Qed.

Lemma add_files_run files s xr rd G :
  let rd' := rd ++ entries (Z.of_nat (length G) + 2) files.*1 in
  world s ((xr, rd) :: G) -> Forall file_arg files -> Z.of_nat (length G) + 1 + Z.of_nat (length files) < NINODES ->
  Z.of_nat (length rd') <= MAXFILE * BSIZE ->
  nmeta + need (blocks_of rd') + total_need G + data_need files <= FSSIZE ->
  exists s' xr' G', add_files ROOTINO (host_files files) s = Done (tt, s') /\ world s' ((xr', rd') :: G ++ G') /\
    G'.*2 = files.*2 /\ Forall plain_file G'.*1 /\ d_type xr' = d_type xr /\ d_nlink xr' = d_nlink xr.
Proof.
  revert s xr rd G. induction files as [|[name data] files IH]; intros s xr rd G rd' W Hargs Hcount Hmax Hcap.
  { exists s, xr, []. unfold rd'. cbn [fmap list_fmap entries]. rewrite !app_nil_r. by split_and!. }
  apply Forall_cons in Hargs as [Harg Hargs]. cbn [length] in Hcount. rewrite data_need_cons in Hcap. cbn [snd] in Hcap.
  set (inum := Z.of_nat (length G) + 2) in *. set (ent := mk_dirent (skip_underscore name) inum).
  assert (rd' = (rd ++ ent) ++ entries (inum + 1) files.*1) as Erd by (unfold rd'; cbn [fmap list_fmap entries fst]; by rewrite app_assoc).
  assert (need (blocks_of (rd ++ ent)) <= need (blocks_of rd')) as Hroot by (apply need_mono, blocks_of_mono; rewrite Erd, (length_app (rd ++ ent)); lia).
  pose proof (data_need_pos files) as Hdn.
  destruct (add_file_run s xr rd G name data W Harg) as (s1 & xr1 & x1 & E1 & W1 & P1 & T1 & N1).
  { lia. }
  { fold inum. fold ent. rewrite Erd, length_app in Hmax. lia. }
  { fold inum. fold ent. lia. }
  fold inum in W1. fold ent in W1.
  assert (Z.of_nat (length (G ++ [(x1, data)])) + 2 = inum + 1) as Ein by (rewrite length_app; cbn [length]; unfold inum; lia).
  destruct (IH s1 xr1 (rd ++ ent) (G ++ [(x1, data)]) W1 Hargs) as (s2 & xr2 & G' & E2 & W2 & D2 & P2 & T2 & N2).
  { lia. }
  { by rewrite Ein, <-Erd. }
  { rewrite Ein, <-Erd, total_need_app, total_need_cons. change (total_need []) with 0. lia. }
  rewrite Ein in W2.
  rewrite <-Erd, <-app_assoc in W2. exists s2, xr2, ((x1, data) :: G'). cbn [host_files map add_files fst snd]. unfold bind. rewrite E1.
  split_and!; [done|done| | |congruence|congruence].
  - cbn. by rewrite D2.
  - by constructor.
Qed.

(** ** The whole image *)

Lemma clear_image_run n i s :
  exists s', clear_image n i s = Done (tt, s') /\ freeinode s' = freeinode s /\ freeblock s' = freeblock s /\
    forall b, img s' !! b = if decide (i <= b < i + Z.of_nat n) then Some zero_block else img s !! b.
Proof.
  revert i s. induction n as [|n IH]; intros i s; cbn [clear_image].
  { exists s. split_and!; try done. intros b. by rewrite decide_False by lia. }
  destruct (IH (i + 1) (set_img (<[i := zero_block]> (img s)) s)) as (s' & E & F1 & F2 & Hb). exists s'. split_and!; [done|done|done|].
  intros b. rewrite Hb. cbn [img set_img]. destruct (decide (b = i)) as [->|].
  - rewrite decide_False, lookup_insert_eq, decide_True by lia. done.
  - rewrite lookup_insert_ne by done. destruct (decide (i + 1 <= b < i + 1 + Z.of_nat n)), (decide (i <= b < i + Z.of_nat (S n))); (done || lia).
Qed.

Definition start_image : M mk unit :=
  modify (fun s => {| img := img s; freeinode := freeinode s; freeblock := nmeta |});;;
  clear_image (Z.to_nat FSSIZE) 0;;;
  wsect 1 (splice zero_block 0 (sb_bytes sb)).
Lemma start_image_run : exists s, start_image mk_start = Done (tt, s) /\ world s [].
Proof.
  unfold start_image, bind, modify. set (s0 := {| img := _; freeinode := _; freeblock := _ |}).
  destruct (clear_image_run (Z.to_nat FSSIZE) 0 s0) as (s1 & E & F1 & F2 & Hb). rewrite E. eexists. split; [done|].
  change (0 + Z.of_nat (Z.to_nat FSSIZE)) with FSSIZE in Hb.
  assert (forall b, vof (img s1) b = zero_block) as Hv.
  { intros b. unfold vof. rewrite Hb. destruct (decide _); [done|]. cbn. by rewrite lookup_empty. }
  split; cbn [img set_img freeinode freeblock length total_need foldr].
  - split; cbn [img set_img freeblock].
    + intros b Hr. destruct (decide (b = 1)) as [->|]; [rewrite lookup_insert_eq; eauto|].
      rewrite lookup_insert_ne, Hb, decide_True by done. eauto.
    + intros b. rewrite vof_insert. destruct (decide _); [unfold block; by rewrite length_splice|]. rewrite Hv. apply block_zero.
    + intros b Hr. rewrite vof_insert, decide_False, Hv; [done|]. rewrite F2 in Hr. change (freeblock s0) with 59 in Hr. lia.
    + rewrite F2. done.
  - by rewrite F1.
  - done.
  - intros k x d H. by rewrite lookup_nil in H.
  - intros k l x d y e b H. by rewrite lookup_nil in H.
  - by rewrite vof_insert, decide_True.
  - by rewrite F2.
  - intros b Hbr. rewrite vof_insert, decide_False by lia. apply Hv.
  - intros inum _ Hr. unfold disk_inode. pose proof (iblock_range inum Hr). rewrite vof_insert, decide_False by lia. rewrite Hv. apply get_dinode_zero.
Qed.

(** The root is filled up to the end of its last block. *)
Definition pad (d : list Z) : list Z := d ++ replicate (Z.to_nat (blocks_of d * BSIZE - Z.of_nat (length d))) 0.
Lemma length_pad d : Z.of_nat (length (pad d)) = blocks_of d * BSIZE.
Proof. unfold pad. rewrite length_app, length_replicate. pose proof (nblk_of_range (Z.of_nat (length d)) ltac:(lia)). unfold blocks_of. lia. Qed.
Lemma blocks_of_pad d : blocks_of (pad d) = blocks_of d.
Proof. unfold blocks_of at 1. rewrite length_pad. apply nblk_of_uniq. fs_lia. Qed.
Lemma pad_step s x d : afile s x d -> img_ok s -> astep s x d s x (pad d).
Proof.
  intros [HM HD Hu] HI. split; rewrite ?blocks_of_pad; try done; [|by left|by destruct x|lia].
  split; rewrite ?blocks_of_pad; [done| |done]. intros o Ho. rewrite HD by done. unfold pad. rewrite !nth_lookup.
  destruct (decide (o < Z.of_nat (length d))); [by rewrite lookup_app_l by lia|].
  rewrite lookup_app_r, (lookup_ge_None_2 d) by lia. destruct (replicate _ _ !! _) eqn:E; [|done]. by apply lookup_replicate in E as [-> _].
Qed.

(** The bitmap. *)
Lemma set_bits_get n i d b :
  block d -> 0 <= i -> i + Z.of_nat n <= BPB -> 0 <= b < BPB ->
  bit_get (set_bits n i d) b = bool_decide (i <= b < i + Z.of_nat n) || bit_get d b.
Proof.
  revert i d. induction n as [|n IH]; intros i d Hd Hi Hn Hb; cbn [set_bits].
  { rewrite bool_decide_eq_false_2 by lia. done. }
  rewrite IH; [|by apply block_bit_set|lia|lia|done]. rewrite bit_get_set by (done || lia). rewrite orb_assoc. f_equal.
  destruct (decide (b = i)) as [->|].
  - rewrite (bool_decide_eq_true_2 (i = i)), orb_true_r, bool_decide_eq_true_2 by lia. done.
  - rewrite (bool_decide_eq_false_2 (b = i)), orb_false_r by done. apply bool_decide_ext. lia.
Qed.
Lemma block_set_bits n i d : block d -> block (set_bits n i d).
Proof. revert i d. induction n as [|n IH]; intros i d Hd; [done|]. cbn. by apply IH, block_bit_set. Qed.
Definition with_bitmap (s : mk) : mk := set_img (<[sb_bmapstart sb := set_bits (Z.to_nat (freeblock s)) 0 zero_block]> (img s)) s.
Lemma with_bitmap_ne s b : b <> 58 -> vof (img (with_bitmap s)) b = vof (img s) b.
Proof. intros Hb. unfold with_bitmap. cbn [img set_img]. by rewrite vof_insert, decide_False. Qed.
Lemma mk_balloc_run s : img_ok s -> mk_balloc (freeblock s) s = Done (tt, with_bitmap s).
Proof. intros HI. pose proof (im_free _ HI). unfold mk_balloc. rewrite (proj2 (Z.ltb_lt _ _)) by fs_lia. done. Qed.
Lemma with_bitmap_world s F : world s F -> world (with_bitmap s) F.
Proof.
  intros [[I1 I2 I3 I4] Wfi Wc Win Wd Wsb Wu Wlog Wrest]. pose proof (with_bitmap_ne s) as Hv. assert (58 < nmeta) by done.
  assert (forall k x d b, F !! k = Some (x, d) -> owns (vof (img s)) x (blocks_of d) b -> vof (img (with_bitmap s)) b = vof (img s) b) as Hf.
  { intros k x d b Hk Ho. destruct (Win k x d Hk) as (_ & _ & HA & _). pose proof (owns_range _ _ _ _ HA Ho). apply Hv. lia. }
  split; [|done|done| | | |done| |].
  - split; [| |intros b Hb; rewrite Hv; [by apply I3|change (freeblock s <= b) in Hb; lia]|done].
    + intros b Hb. unfold with_bitmap. cbn [img set_img]. destruct (decide (b = sb_bmapstart sb)) as [->|]; [rewrite lookup_insert_eq; eauto|].
      rewrite lookup_insert_ne by done. by apply I1.
    + intros b. unfold with_bitmap. cbn [img set_img]. rewrite vof_insert. destruct (decide _); [apply block_set_bits, block_zero|apply I2].
  - intros k x d Hk. destruct (Win k x d Hk) as (Hx & Hwf & HA & ? & ?). split_and!; [|done| |done|done].
    + rewrite <-Hx. unfold disk_inode. f_equal. apply Hv. pose proof (lookup_lt_Some _ _ _ Hk). pose proof (iblock_range (Z.of_nat k + 1) ltac:(lia)). lia.
    + apply (afile_frame s); [done|done|]. intros b. by apply (Hf k).
  - intros k l x d y e b Hk Hl Ho Ho'. destruct (Win k x d Hk) as (_ & _ & HA & _). destruct (Win l y e Hl) as (_ & _ & HA' & _).
    apply (Wd k l x d y e b Hk Hl); [by apply (owns_frame s x d _ HA (fun c => Hf k x d c Hk))|by apply (owns_frame s y e _ HA' (fun c => Hf l y e c Hl))].
  - rewrite Hv by done. done.
  - intros b Hb. rewrite Hv by lia. by apply Wlog.
  - intros inum Hin Hr. rewrite <-(Wrest inum Hin Hr). unfold disk_inode. f_equal. apply Hv. pose proof (iblock_range inum Hr). lia.
Qed.
Lemma bit_get_zero b : bit_get zero_block b = false.
Proof. unfold bit_get. by rewrite nth_zero_block. Qed.
Lemma with_bitmap_used s b : img_ok s -> 0 <= b < FSSIZE -> used sb (vof (img (with_bitmap s))) b = bool_decide (b < freeblock s).
Proof.
  intros HI Hb. pose proof (im_free _ HI). assert (0 < nmeta) by done.
  unfold used, with_bitmap. cbn [img set_img]. rewrite vof_insert, decide_True by done. rewrite set_bits_get by (apply block_zero || fs_lia).
  rewrite bit_get_zero, orb_false_r. apply bool_decide_ext. lia.
Qed.

(** A file of the image as the kernel sees it. *)
Definition on_image (v : Z -> list Z) (inum : Z) : inode := ino inum (disk_inode sb v inum).
Definition file_is (v : Z -> list Z) (inum type : Z) (data : list Z) : Prop :=
  let i := on_image v inum in
  file_ok sb nmeta v i /\ no_holes v i (i_size i) /\ i_type i = type /\ i_nlink i = 1 /\ content v i = data.
Lemma adr_ino v inum x bn : addr_at v (ino inum x) bn = adr v x bn.
Proof. done. Qed.
Lemma own_owns s x d inum b : afile s x d -> own (vof (img s)) (ino inum x) b -> owns (vof (img s)) x (blocks_of d) b.
Proof.
  intros [HM _ _] [Hb [Ho|(bn & Hbn & Ho)]].
  - left. split; [|done]. destruct (decide (NDIRECT < blocks_of d)); [done|]. destruct Hb. rewrite Ho. apply (mt_noind _ _ _ _ HM). lia.
  - right. exists bn. split; [|done]. destruct (decide (bn < blocks_of d)); [lia|]. destruct Hb. rewrite Ho. apply (mt_out _ _ _ _ HM). lia.
Qed.
Lemma image_file s F k x d :
  world s F -> F !! k = Some (x, d) -> (forall b, 0 <= b < FSSIZE -> used sb (vof (img s)) b = bool_decide (b < freeblock s)) ->
  d_nlink x = 1 -> file_is (vof (img s)) (Z.of_nat k + 1) (d_type x) d.
Proof.
  intros W Hk Hus Hn. destruct (wo_inode _ _ W k x d Hk) as (Hx & Hwf & HA & Hsz & Hmax). unfold file_is, on_image. rewrite Hx.
  destruct HA as [[M1 M2 M3 M4 M5 M6 M7 M8] HD Hu]. pose proof (lookup_lt_Some _ _ _ Hk). pose proof (wo_count _ _ W). pose proof (im_free _ (wo_img _ _ W)) as Hfree.
  assert (0 < nmeta) as Hpos by done. pose proof (nblk_of_range (Z.of_nat (length d)) ltac:(lia)) as Hnb. fold (blocks_of d) in Hnb.
  assert (forall a, nmeta <= a < freeblock s -> ref_ok sb nmeta (vof (img s)) a) as Href.
  { intros a Ha. right. split; [split; [lia|change (sb_size sb) with FSSIZE; lia]|]. rewrite Hus by lia. apply bool_decide_eq_true_2. lia. }
  split_and!; [split| | | |]; cbn [i_dev i_inum i_size i_addrs ino i_type i_nlink]; try done.
  - change (sb_ninodes sb) with NINODES. lia.
  - lia.
  - destruct (decide (NDIRECT < blocks_of d)) as [Hd|Hd]; [apply Href; by apply M5|left; apply M6; lia].
  - intros bn Hbn. rewrite adr_ino. destruct (decide (bn < blocks_of d)); [apply Href, M3; lia|left; apply M4; lia].
  - intros b1 b2 H1 H2. rewrite !adr_ino. intros Hne Heq. apply M7; [| |done].
    + destruct (decide (b1 < blocks_of d)); [lia|]. destruct Hne. apply M4. lia.
    + destruct (decide (b2 < blocks_of d)); [lia|]. destruct Hne. rewrite Heq. apply M4. lia.
  - intros b1 H1. rewrite adr_ino. intros Hne. apply M8. destruct (decide (b1 < blocks_of d)); [lia|]. destruct Hne. apply M4. lia.
  - intros bn H1 H2. rewrite adr_ino. rewrite Hsz in H2. assert (bn < blocks_of d) by fs_lia. specialize (M3 bn ltac:(lia)). lia.
  - unfold content. cbn [i_size ino]. rewrite Hsz. apply list_eq. intros j. rewrite list_lookup_fmap.
    destruct (decide (j < length d)%nat) as [Hj|Hj].
    + rewrite lookup_seqZ_lt by lia. cbn [fmap option_fmap option_map]. change (byte_at (vof (img s)) (ino (Z.of_nat k + 1) x)) with (byte_at (vof (img s)) (ino 0 x)).
      rewrite HD by lia. replace (Z.to_nat (0 + Z.of_nat j)) with j by lia. destruct (lookup_lt_is_Some_2 d j Hj) as [z Ez]. by rewrite (nth_lookup_Some _ _ _ _ Ez).
    + rewrite lookup_seqZ_ge by lia. symmetry. apply lookup_ge_None_2. lia.
Qed.

(** The directory [mkfs] makes, before it is filled up. *)
Definition root_data (names : list (list Z)) : list Z := (mk_dirent [46] ROOTINO ++ mk_dirent [46; 46] ROOTINO) ++ entries 2 names.
Definition root_fits (files : list (list Z * list Z)) : Prop :=
  Z.of_nat (length files) + 1 < NINODES /\ Z.of_nat (length (root_data files.*1)) mod BSIZE <> 0 /\
  nmeta + need (blocks_of (root_data files.*1)) + data_need files <= FSSIZE.
(** The file system of the files, as the kernel finds it. *)
Record image_of (files : list (list Z * list Z)) (m : gmap Z (list Z)) : Prop := {
  io_sectors b : 0 <= b < FSSIZE -> exists d, m !! b = Some d /\ block d;
  io_sb : sb_of (vof m 1) = sb;
  io_log b : 2 <= b < 32 -> vof m b = zero_block;
  io_rest inum : inum = 0 \/ Z.of_nat (length files) + 1 < inum -> 0 <= inum < NINODES -> disk_inode sb (vof m) inum = zero_dinode 0;
  io_used b : 0 <= b < FSSIZE ->
    used sb (vof m) b = bool_decide (b < nmeta + need (blocks_of (root_data files.*1)) + data_need files);
  io_root : file_is (vof m) ROOTINO T_DIR (pad (root_data files.*1));
  io_file k name data : files !! k = Some (name, data) -> file_is (vof m) (Z.of_nat k + 2) T_FILE data;
  io_apart i j b : 1 <= i <= Z.of_nat (length files) + 1 -> 1 <= j <= Z.of_nat (length files) + 1 -> i <> j ->
    own (vof m) (on_image (vof m) i) b -> ~ own (vof m) (on_image (vof m) j) b
}.

Lemma length_root_data names : length (root_data names) = (32 + 16 * length names)%nat.
Proof. unfold root_data. rewrite !length_app, !length_mk_dirent, length_dir_entries. done. Qed.

(** [main] up to the files of the command line: a root with its dots. *)
Definition mk_root (rootino : Z) : M mk unit :=
  iappend rootino (mk_dirent [46] (xshort rootino));;; iappend rootino (mk_dirent [46; 46] (xshort rootino)).
Lemma mk_root_run s : world s [] ->
  exists s1 s2 x, mk_ialloc T_DIR s = Done (ROOTINO, s1) /\ mk_root ROOTINO s1 = Done (tt, s2) /\
    world s2 [(x, mk_dirent [46] ROOTINO ++ mk_dirent [46; 46] ROOTINO)] /\ d_type x = T_DIR /\ d_nlink x = 1.
Proof.
  intros W. destruct (mk_ialloc_run s [] T_DIR W ltac:(done) ltac:(done)) as (s1 & E1 & W1 & _). cbn [app] in W1.
  destruct (iappend_run s1 _ 0 _ _ (mk_dirent [46] ROOTINO) W1 eq_refl) as (s2 & x2 & E2 & W2 & T2 & N2).
  { split; [done|]. rewrite (wo_used _ _ W1). done. }
  cbn [app] in W2. change (<[0%nat := _]> _) with [(x2, mk_dirent [46] ROOTINO)] in W2.
  destruct (iappend_run s2 _ 0 _ _ (mk_dirent [46; 46] ROOTINO) W2 eq_refl) as (s3 & x3 & E3 & W3 & T3 & N3).
  { split; [done|]. rewrite (wo_used _ _ W2). done. }
  exists s1, s3, x3. split_and!; [done| |done|by rewrite T3, T2|by rewrite N3, N2].
  unfold mk_root, bind. change (xshort ROOTINO) with ROOTINO. change ROOTINO with (Z.of_nat 0 + 1) at 1 3. rewrite E2. exact E3.
Qed.

(** The end of [main]: the size of the root, and the bitmap. *)
Definition mk_finish (rootino : Z) : M mk unit :=
  let! din := rinode rootino in
  winode rootino (set_size (xint ((xint (d_size din) / BSIZE + 1) * BSIZE)) din);;;
  let! used := gets freeblock in
  mk_balloc used.
Lemma round_up n : 0 <= n -> n mod BSIZE <> 0 -> (n / BSIZE + 1) * BSIZE = nblk_of n * BSIZE.
Proof. intros Hn Hm. f_equal. symmetry. apply nblk_of_uniq. pose proof (Z.div_mod n BSIZE ltac:(done)). pose proof (Z.mod_pos_bound n BSIZE ltac:(done)). fs_lia. Qed.
Lemma mk_finish_run s x rd G :
  world s ((x, rd) :: G) -> Z.of_nat (length rd) mod BSIZE <> 0 -> Z.of_nat (length (pad rd)) <= MAXFILE * BSIZE ->
  exists s' x', mk_finish ROOTINO s = Done (tt, with_bitmap s') /\ world s' ((x', pad rd) :: G) /\ d_type x' = d_type x /\ d_nlink x' = d_nlink x.
Proof.
  intros W Hmod Hmax. destruct (wo_inode _ _ W 0 x rd eq_refl) as (_ & Hwf & HA & Hsz & _).
  pose proof (pad_step s x rd HA (wo_img _ _ W)) as HS.
  set (y := set_size (Z.of_nat (length (pad rd))) x).
  assert (dinode_wf y) as Hy.
  { eapply appended_wf; [exact Hwf|apply (as_file _ _ _ _ _ _ HS)|by destruct x|]. unfold is_u32. fs_lia. }
  pose proof (world_update s _ 0 x rd s x (pad rd) W eq_refl HS Hy Hmax) as W'.
  exists (inode_set s ROOTINO y), y. split_and!; [|exact W'|done|done].
  unfold mk_finish. unfold bind at 1. rewrite (rinode_run s _ 0 x rd W eq_refl : rinode ROOTINO s = _).
  rewrite (xint_small (d_size x)) by apply (dw_size _ Hwf). rewrite Hsz, round_up by (done || lia). fold (blocks_of rd). rewrite <-length_pad.
  rewrite xint_small by (unfold is_u32; fs_lia). unfold bind at 1. rewrite winode_run by (apply (wo_img _ _ W) || done).
  unfold bind, gets. apply mk_balloc_run, (wo_img _ _ W').
Qed.

Lemma mkfs_main_parts files s1 s2 s3 s4 s5 :
  start_image mk_start = Done (tt, s1) -> mk_ialloc T_DIR s1 = Done (ROOTINO, s2) -> mk_root ROOTINO s2 = Done (tt, s3) ->
  add_files ROOTINO files s3 = Done (tt, s4) -> mk_finish ROOTINO s4 = Done (tt, s5) -> mkfs_main files mk_start = Done (tt, s5).
Proof.
  unfold mkfs_main, start_image, mk_root, bind, modify. intros E1 E2 E3 E4 E5.
  destruct (clear_image _ _ _) as [[[] s1']| | |]; try discriminate E1. cbn [fst snd] in *. rewrite E1, E2. change (negb (ROOTINO =? ROOTINO)) with false. cbv beta iota.
  destruct (iappend ROOTINO (mk_dirent [46] (xshort ROOTINO)) s2) as [[[] s2']| | |]; try discriminate E3. rewrite E3, E4. exact E5.
Qed.

Lemma total_data_need (G : list (dinode * list Z)) (files : list (list Z * list Z)) : G.*2 = files.*2 -> total_need G = data_need files.
Proof.
  revert files. induction G as [|[x d] G IH]; intros [|[n e] files] H; try done. cbn in H. injection H as -> H.
  rewrite total_need_cons, data_need_cons. cbn [snd]. by rewrite (IH files H).
Qed.
Lemma image_of_world files s x G :
  world s ((x, pad (root_data files.*1)) :: G) -> G.*2 = files.*2 -> Forall plain_file G.*1 -> d_type x = T_DIR -> d_nlink x = 1 ->
  image_of files (img (with_bitmap s)).
Proof.
  intros W0 HD HP HT HN. pose proof (with_bitmap_world _ _ W0) as W. pose proof (wo_img _ _ W) as HI.
  assert (length G = length files) as Hlen by (rewrite <-(length_fmap snd G), HD; apply length_fmap).
  assert (forall b, 0 <= b < FSSIZE -> used sb (vof (img (with_bitmap s))) b = bool_decide (b < freeblock (with_bitmap s))) as Hu
    by (intros b Hb; exact (with_bitmap_used s b (wo_img _ _ W0) Hb)).
  split.
  - intros b Hb. destruct (im_there _ HI b Hb) as [d Hd]. exists d. split; [done|]. pose proof (im_block _ HI b) as Hbl. unfold vof in Hbl. by rewrite Hd in Hbl.
  - rewrite (wo_sb _ _ W). vm_compute. reflexivity.
  - apply (wo_log _ _ W).
  - intros inum Hin Hr. apply (wo_rest _ _ W); [cbn [length]; lia|done].
  - intros b Hb. rewrite Hu by done. apply bool_decide_ext. change (freeblock (with_bitmap s)) with (freeblock s).
    rewrite (wo_used _ _ W0), total_need_cons, blocks_of_pad, (total_data_need _ _ HD). lia.
  - rewrite <-HT. exact (image_file _ _ 0 _ _ W eq_refl Hu HN).
  - intros k name data Hk. assert (G.*2 !! k = Some data) as HG by (rewrite HD, list_lookup_fmap, Hk; done).
    rewrite list_lookup_fmap in HG. destruct (G !! k) as [[y e]|] eqn:Ey; [|done]. cbn in HG. injection HG as ->.
    destruct (Forall_lookup_1 _ _ k y HP) as [HyT HyN]; [by rewrite list_lookup_fmap, Ey|].
    pose proof (image_file _ _ (S k) y data W Ey Hu HyN) as Hf. rewrite HyT in Hf. replace (Z.of_nat k + 2) with (Z.of_nat (S k) + 1) by lia. exact Hf.
  - assert (forall i b, 1 <= i <= Z.of_nat (length files) + 1 -> own (vof (img (with_bitmap s))) (on_image (vof (img (with_bitmap s))) i) b ->
      exists y e, ((x, pad (root_data files.*1)) :: G) !! Z.to_nat (i - 1) = Some (y, e) /\ owns (vof (img (with_bitmap s))) y (blocks_of e) b) as Hin.
    { intros i b Hi Ho. destruct (lookup_lt_is_Some_2 ((x, pad (root_data files.*1)) :: G) (Z.to_nat (i - 1))) as [[y e] Ey]; [cbn [length]; lia|].
      exists y, e. split; [done|]. destruct (wo_inode _ _ W _ y e Ey) as (Hy & _ & HA & _). rewrite Z2Nat.id in Hy by lia. replace (i - 1 + 1) with i in Hy by lia.
      unfold on_image in Ho. rewrite Hy in Ho. by eapply own_owns. }
    intros i j b Hi Hj Hij Ho Ho'. destruct (Hin i b Hi Ho) as (y & e & Ey & Oy). destruct (Hin j b Hj Ho') as (y' & e' & Ey' & Oy').
    pose proof (wo_disj _ _ W _ _ _ _ _ _ _ Ey Ey' Oy Oy'). lia.
Qed.

Lemma mkfs_runs files :
  Forall file_arg files -> root_fits files ->
  exists s, mkfs_main (host_files files) mk_start = Done (tt, s) /\ image_of files (img s) /\
    forall b d, img s !! b = Some d -> block d.
Proof.
  intros Hargs (Hn & Hmod & Hcap). destruct start_image_run as (s1 & E1 & W1).
  destruct (mk_root_run s1 W1) as (s2 & s3 & x3 & E2 & E3 & W3 & T3 & N3).
  assert (length files.*1 = length files) as Hlen by apply length_fmap. pose proof (length_root_data files.*1) as Hrl. rewrite Hlen in Hrl.
  destruct (add_files_run files s3 x3 _ [] W3 Hargs) as (s4 & x4 & G & E4 & W4 & D4 & P4 & T4 & N4); [cbn [length]; lia| | |].
  { change (Z.of_nat (length (root_data files.*1)) <= MAXFILE * BSIZE). unfold NINODES in Hn. fs_lia. }
  { change (total_need []) with 0. rewrite Z.add_0_r. exact Hcap. }
  change (world s4 ((x4, root_data files.*1) :: G)) in W4.
  destruct (mk_finish_run s4 x4 _ G W4 Hmod) as (s5 & x5 & E5 & W5 & T5 & N5).
  { rewrite length_pad. set (rd := root_data _) in *. pose proof (nblk_of_range (Z.of_nat (length rd)) ltac:(lia)) as Hr. fold (blocks_of rd) in Hr.
    unfold NINODES in Hn. fs_lia. }
  exists (with_bitmap s5). split; [by eapply mkfs_main_parts|]. split; [apply (image_of_world files s5 x5 G W5); congruence|].
  intros b d Hb. pose proof (im_block _ (wo_img _ _ (with_bitmap_world _ _ W5)) b) as Hbl. unfold vof in Hbl. by rewrite Hb in Hbl.
Qed.

(** Property C21: [mkfs] with files whose names have no slash and which fit into
    the image (fewer than [NINODES] - 1 of them, none larger than [MAXFILE]
    blocks, and blocks enough for all), and a root whose entries do not end at
    the end of a block, runs to the end and makes a file system in the sense of the
    kernel: all sectors are there, the superblock is the one [readsb] reads, the bitmap has
    the bits of the blocks in use and no others, inode 1 is a directory with
    ".", ".." and the entries of the files, inode [k] + 2 is a file with the
    data of file [k], all satisfy the invariant of the kernel's files and
    have no holes, no two of them share a block, the log is empty and all
    other inodes are free. *)
Theorem mkfs_image files :
  Forall file_arg files -> root_fits files ->
  exists s, mkfs_main (host_files files) mk_start = Done (tt, s) /\ image_of files (img s).
Proof. intros Hargs Hfit. destruct (mkfs_runs files Hargs Hfit) as (s & E & H & _). exists s. split; [exact E|exact H]. Qed.

(** A small image: a file of two letters with an underscore and an empty one. *)
Definition two_files : list (list Z * list Z) := [([95; 97], [104; 105]); ([98], [])].
Lemma mkfs_image_witness :
  exists s, mkfs_main (host_files two_files) mk_start = Done (tt, s) /\ image_of two_files (img s).
Proof.
  apply mkfs_image.
  - repeat constructor; try done; cbn; set_solver.
  - split_and!; vm_compute; done.
Defined.

(** With 30 files the entries of the root end at the end of a block, and the
    size the root gets covers a block it does not have. *)
Definition empty_files (n : nat) : list (list Z * option (list Z)) := replicate n ([97], Some []).
Definition final (files : list (list Z * option (list Z))) : Z -> list Z :=
  match mkfs_main files mk_start with Done (_, s) => vof (img s) | _ => fun _ => [] end.
Lemma root_with_hole :
  let v := final (empty_files 30) in
  i_size (on_image v ROOTINO) = 1024 /\ addr_at v (on_image v ROOTINO) 0 = 59 /\ addr_at v (on_image v ROOTINO) 1 = 0.
Proof. vm_compute. done. Qed.

(** [ialloc] of [mkfs] does not look at [NINODES]: it gives out inode 208,
    whose place on the disk is the bitmap, which overwrites it. *)
Lemma inode_past_table :
  IBLOCK 208 sb = sb_bmapstart sb /\ sb_ninodes sb < 208 /\
  let v := final (empty_files 207) in
  take 2 (drop 256 (v (addr_at v (on_image v ROOTINO) 6))) = [208; 0] /\ d_type (disk_inode sb v 208) <> T_FILE.
Proof. split; [done|]. split; [done|]. vm_compute. done. Qed.
