(* ===== verification/Boot.v ===== *)
(** * Boot: from the builder of the image to reading a file

    The kernel starts on an image that mkfs made, as the first process does in
    [forkret] (proc.c), looks a file up by its path and reads it: the theorems
    on mkfs.c, bio.c, log.c and fs.c, one after the other. *)

From stdpp Require Import base list numbers gmap strings.
From S2P Require Import Prelude Bytes Params Sleeplock Bio Log Blocks Fs FsInv FsDemo FsInode FsMap FsFile File FileData Sysfile FsDir FsPath FsCreate Mkfs.

Local Open Scope Z_scope.
Local Open Scope os_scope.

(** [iinit(ROOTDEV); initlog(ROOTDEV);] *)
Definition start_fs (me : Z) (s : log) : outcome (fs log) :=
  match iinit me ROOTDEV s with
  | Done x => match onb (initlog ROOTDEV) x with Done (_, x) => Done x | Panic m => Panic m | Fault => Fault | Asleep => Asleep end
  | Panic m => Panic m
  | Fault => Fault
  | Asleep => Asleep
  end.
(** A client: look a file up, lock it and read from it, in one transaction. *)
Definition open_read (devread : Z -> option (nat -> Z -> M (fs log) (Z * list Z))) (path : list Z) (off n : Z)
  : M (fs log) (option (Z * list Z)) :=
  onb b_begin;;;
  let! ip := namei devread 0 path in
  match ip with
  | None => ret None
  | Some ip => ilock ip;;; let! r := readi devread ip off n in ret (Some r)
  end.

(** ** The disk of an image *)
Definition disk_of (m : gmap Z (list Z)) : disk := kmap (pair ROOTDEV) m.
Lemma on_disk_of m b : on_disk (disk_of m) b = vof m b.
Proof. unfold on_disk, dread, disk_of, vof. f_equal. apply (lookup_kmap _). Qed.

Section mount.
Context (m : gmap Z (list Z)) (files : list (list Z * list Z)) (Him : image_of files m)
  (Hblocks : forall b d, m !! b = Some d -> block d).
#[local] Abbreviation v := (vof m).

Lemma image_disk : log_disk 2 30 (disk_of m).
Proof.
  assert (on_disk (disk_of m) 2 = zero_block) as E2 by (rewrite on_disk_of; by apply (io_log _ _ Him)).
  split.
  - intros k l Hk. apply lookup_kmap_Some in Hk as (b & -> & Hb); [|apply _]. by apply (Hblocks b).
  - rewrite on_disk_of, (io_sb _ _ Him). done.
  - rewrite on_disk_of, (io_sb _ _ Him). done.
  - rewrite E2. done.
  - rewrite E2. change (hd_blocks zero_block) with (@nil Z). constructor.
Qed.

Lemma super_wp s :
  cache ∅ ∅ v (lg_bio s) ->
  wp (let! bp := b_read ROOTDEV 1 in let! d := b_get bp in b_release bp;;; ret d)
    (fun d s' => d = v 1 /\ exists b, s' = set_bio b s /\ cache ∅ ∅ v b /\ same_disk (lg_bio s) b) s.
Proof.
  intros Hc. cbn [b_read b_get b_release log_ops]. unfold onbio. wp_run.
  eapply wp_mono; [eapply bread_law; [done|done| |]|].
  { intros i k. by rewrite lookup_empty. } { by right. }
  intros i s1 (_ & Hc1 & Hs1). wp_run.
  eapply wp_mono; [eapply get_buf_law; [done|by rewrite lookup_insert_eq]|].
  intros b ? (-> & Hb & _). wp_run.
  eapply wp_mono; [eapply brelse_law; [done|by rewrite lookup_insert_eq|done]|].
  intros [] s2 [Hc2 Hs2]. wp_run. rewrite delete_insert_id in Hc2 by apply lookup_empty.
  rewrite Hb. split; [done|]. exists s2. split_and!; [done|done|].
  destruct Hs1 as (? & ? & ?), Hs2 as (? & ? & ?). split_and!; cbn in *; congruence.
Qed.

(** The log of the image is empty, so recovery writes its header as it is. *)
Lemma recover_same b : on_disk (dwrites (recover_ws 2 v) (disk_of m)) b = v b.
Proof.
  unfold recover_ws. rewrite (io_log _ _ Him) by done. change (hd_blocks zero_block) with (@nil Z). cbn [install_ws imap app dwrites fold_left fst snd].
  rewrite <-on_disk_of. unfold on_disk, dread. destruct (decide (b = 2)) as [->|].
  - rewrite lookup_insert_eq. pose proof (on_disk_of m 2) as E. unfold on_disk, dread in E. rewrite E, (io_log _ _ Him) by done. by vm_compute.
  - by rewrite lookup_insert_ne by congruence.
Qed.

Lemma start_fs_run me pid :
  exists x, start_fs me (boot (disk_of m) pid) = Done x /\ f_sb x = sb /\ f_me x = me /\
    f_icache x = replicate (Z.to_nat NINODE) zero_inode /\ log_idle 2 30 v (f_blk x).
Proof.
  pose proof image_disk as Hd.
  assert (cache ∅ ∅ v (lg_bio (boot (disk_of m) pid))) as Hc0.
  { eapply cache_ext; [apply binit_cache, Hd|]. intros b. apply on_disk_of. }
  destruct (wp_returns _ _ _ (super_wp _ Hc0)) as (d & s1 & E1 & -> & b1 & -> & Hc1 & Hs1).
  unfold start_fs, iinit. rewrite E1, (io_sb _ _ Him). set (x1 := {| f_blk := _; f_sb := _; f_icache := _; f_me := _ |}).
  assert (wp (initlog ROOTDEV) (fun _ s' => log_idle 2 30 v s') (f_blk x1)) as Hi.
  { unfold initlog. rewrite (proj2 (Z.leb_gt BSIZE (4 + 4 * LOGSIZE))) by done. unfold onbio. wp_run.
    eapply wp_mono; [by apply (readsb_wp v)|]. intros sb' b2 (-> & Hc2 & Hs2). wp_run. rewrite (io_sb _ _ Him).
    eapply wp_mono; [apply (recover_wp 2 30 tiny_geometry v); try done|].
    - by rewrite (io_log _ _ Him).
    - rewrite (io_log _ _ Him) by done. change (hd_blocks zero_block) with (@nil Z). constructor.
    - intros [] s' (v' & Hc' & (Hw & _) & Hl & Ho & Hcm). split_and!; [|done|done|done]. eapply cache_ext; [exact Hc'|]. intros b.
      rewrite (clean_view _ _ _ b Hc') by set_solver. rewrite Hw. rewrite <-recover_same. unfold on_disk. do 2 f_equal.
      destruct Hs1 as (Hd1 & _), Hs2 as (Hd2 & _). cbn in *. congruence. }
  destruct (wp_returns _ _ _ Hi) as ([] & s2 & E2 & Hidle). unfold onb, zoom. rewrite E2. eexists. split_and!; [done|done|done|done|exact Hidle].
Qed.
End mount.

(** ** The entries of the root *)
Definition dirents (names : list (list Z)) : list (list Z) :=
  mk_dirent [46] ROOTINO :: mk_dirent [46; 46] ROOTINO :: imap (fun k n => mk_dirent (skip_underscore n) (Z.of_nat k + 2)) names.
Lemma entries_imap names i :
  entries i names = mjoin (imap (fun k n => mk_dirent (skip_underscore n) (Z.of_nat k + i)) names).
Proof.
  revert i. induction names as [|n names IH]; intros i; [done|]. cbn [entries]. rewrite imap_cons. cbn [mjoin list_join]. rewrite IH. f_equal. f_equal. apply imap_ext.
  intros k x _. unfold compose. f_equal. lia.
Qed.
Lemma root_data_dirents names : root_data names = mjoin (dirents names).
Proof. unfold root_data, dirents. rewrite entries_imap. cbn [mjoin list_join]. by rewrite <-app_assoc. Qed.
Lemma dirents_lookup names k n : names !! k = Some n -> dirents names !! S (S k) = Some (mk_dirent (skip_underscore n) (Z.of_nat k + 2)).
Proof. intros H. change (imap (fun k n => mk_dirent (skip_underscore n) (Z.of_nat k + 2)) names !! k = Some (mk_dirent (skip_underscore n) (Z.of_nat k + 2))). by rewrite list_lookup_imap, H. Qed.
Lemma dirents_length names : Forall (fun d => length d = ENTLEN) (dirents names).
Proof.
  unfold dirents. repeat (apply Forall_cons; split; [apply length_mk_dirent|]). apply Forall_lookup_2. intros k d.
  rewrite list_lookup_imap. destruct (names !! k); [|done]. intros [= <-]. apply length_mk_dirent.
Qed.
Lemma entries_join ds rest : Forall (fun d => length d = ENTLEN) ds -> FsDir.entries (mjoin ds ++ rest) = ds ++ FsDir.entries rest.
Proof.
  induction ds as [|d ds IH]; intros HF; [done|]. apply Forall_cons in HF as [Hd HF]. change (mjoin (d :: ds)) with (d ++ mjoin ds). rewrite <-app_assoc, entries_cons by done.
  by rewrite (IH HF).
Qed.

(** The names under which the files are found: different in their first 14
    characters, and not those of the dots. *)
Definition stored (n : list Z) : list Z := cstr NAMELEN (skip_underscore n).
Definition names_ok (names : list (list Z)) : Prop :=
  NoDup (stored <$> names) /\ Forall (fun n => bytes n /\ (0 ∉ n) /\ stored n ∉ [[]; [46]; [46; 46]]) names.

Lemma same_name_refl n : same_name n n.
Proof. done. Qed.
Lemma names_dirent name nm inum : 0 < inum < 2 ^ 16 -> names name (mk_dirent nm inum) <-> same_name name nm.
Proof.
  intros Hi. unfold names. rewrite mk_dirent_inum by lia. pose proof (mk_dirent_name nm inum) as H. unfold same_name in *. rewrite H. split; [by intros [_ ?]|]. split; [lia|done].
Qed.
Lemma lookup_root names k n name :
  names_ok names -> Z.of_nat (length names) + 2 < 2 ^ 16 -> names !! k = Some n -> same_name name (skip_underscore n) ->
  lookup_name (pad (root_data names)) name = Some (DIRENTSZ * Z.of_nat (S (S k)), Z.of_nat k + 2).
Proof.
  intros [HND HF] Hlen Hk Hn. rewrite Forall_lookup in HF. destruct (HF k n Hk) as (_ & _ & Hst). pose proof (lookup_lt_Some _ _ _ Hk) as Hlt.
  unfold lookup_name, pad. rewrite root_data_dirents at 1. rewrite entries_join by apply dirents_length.
  assert (list_find (FsDir.names name) (dirents names ++ FsDir.entries (replicate (Z.to_nat (blocks_of (root_data names) * BSIZE - Z.of_nat (length (root_data names)))) 0))
    = Some (S (S k), mk_dirent (skip_underscore n) (Z.of_nat k + 2))) as ->.
  { apply list_find_Some. split; [by apply lookup_app_l_Some, dirents_lookup|]. split; [by apply names_dirent; [lia|]|].
    assert (cstr NAMELEN name = stored n) as En by exact Hn.
    intros [|[|j]] d Hd Hj.
    - injection Hd as <-. rewrite names_dirent by done. unfold same_name. rewrite En. change (cstr NAMELEN [46]) with [46]. set_solver.
    - injection Hd as <-. rewrite names_dirent by done. unfold same_name. rewrite En. change (cstr NAMELEN [46; 46]) with [46; 46]. set_solver.
    - destruct (lookup_lt_is_Some_2 names j ltac:(lia)) as [n' Hn']. pose proof (dirents_lookup _ _ _ Hn') as Hd'.
      rewrite lookup_app_l in Hd by (by eapply lookup_lt_Some). rewrite Hd' in Hd. injection Hd as <-. rewrite names_dirent by lia. unfold same_name. rewrite En.
      intros E. assert (k = j); [|lia]. apply (NoDup_lookup _ _ _ (stored n) HND); rewrite list_lookup_fmap; [by rewrite Hk|rewrite Hn'; cbn; f_equal; by symmetry]. }
  change (Some (DIRENTSZ * Z.of_nat (S (S k)), de_inum (mk_dirent (skip_underscore n) (Z.of_nat k + 2))) = Some (DIRENTSZ * Z.of_nat (S (S k)), Z.of_nat k + 2)).
  by rewrite mk_dirent_inum by lia.
Qed.

(** ** Paths *)
Lemma elems_one name : name <> [] -> SLASH ∉ name -> elems (SLASH :: name) = [name].
Proof.
  intros Hne Hs. rewrite elems_slash. unfold elems. assert (pieces name = [name]) as ->; [|by rewrite filter_cons_True].
  clear Hne. induction name as [|c name IH]; [done|]. cbn [pieces]. rewrite (proj2 (Z.eqb_neq c SLASH)) by set_solver. by rewrite IH by set_solver.
Qed.
(** The entries behind the names are free. *)
Lemma entries_zeros n : Forall (fun d => de_inum d = 0) (FsDir.entries (replicate n 0)).
Proof.
  apply Forall_lookup_2. intros k d Hd. pose proof (lookup_lt_Some _ _ _ Hd) as Hk. rewrite length_entries in Hk. rewrite entries_lookup in Hd by done.
  injection Hd as <-. rewrite length_replicate in Hk. unfold entry. rewrite drop_replicate, take_replicate.
  assert (ENTLEN `min` (n - ENTLEN * k) = 16)%nat as ->; [|done]. change ENTLEN with 16%nat in *. pose proof (Nat.div_mod_eq n 16). nia.
Qed.
Lemma root_entry names name off j :
  Z.of_nat (length names) + 2 < 2 ^ 16 -> lookup_name (pad (root_data names)) name = Some (off, j) -> 1 <= j <= Z.of_nat (length names) + 1.
Proof.
  intros Hlen [Hnz Hin]%lookup_name_entry. unfold pad in Hin. rewrite root_data_dirents in Hin at 1. rewrite entries_join in Hin by apply dirents_length.
  rewrite fmap_app, elem_of_app in Hin. destruct Hin as [Hin|Hin].
  - apply list_elem_of_fmap in Hin as (d & -> & [k Hk]%list_elem_of_lookup). unfold dirents in Hk.
    destruct k as [|[|k]]; [injection Hk as <-; rewrite mk_dirent_inum; unfold ROOTINO; lia..|].
    change (imap (fun k n => mk_dirent (skip_underscore n) (Z.of_nat k + 2)) names !! k = Some d) in Hk. rewrite list_lookup_imap in Hk.
    destruct (names !! k) as [nk|] eqn:Ek; [|done]. apply lookup_lt_Some in Ek. injection Hk as <-. rewrite mk_dirent_inum; lia.
  - apply list_elem_of_fmap in Hin as (d & -> & Hd). pose proof (proj1 (Forall_forall _ _) (entries_zeros _) d Hd). done.
Qed.

(** ** The kernel on the image *)
Lemma image_layout : layout sb nmeta.
Proof. exact tiny_layout. Qed.

(** The entry of an inode that has been looked up: what is in it, if it is
    valid, is what is on disk. *)
Definition taken (v : Z -> list Z) (inum : Z) (j : inode) : Prop :=
  i_dev j = ROOTDEV /\ i_inum j = inum /\ i_ref j = 1 /\ (i_valid j = true -> i_disk j = disk_inode sb v inum) /\ sl_locked (i_lock j) = false.

Section read.
Context (m : gmap Z (list Z)) (files : list (list Z * list Z)) (Him : image_of files m).
Context (Hnames : names_ok files.*1) (Hargs : Forall file_arg files) (Hcount : Z.of_nat (length files) + 1 < NINODES).
Context (me : Z) (devread : Z -> option (nat -> Z -> M (fs log) (Z * list Z))).
#[local] Abbreviation v := (vof m).
#[local] Abbreviation ic0 := (replicate (Z.to_nat NINODE) zero_inode).
#[local] Abbreviation no_dev := (fun _ : Z => @None (nat -> list Z -> M (fs log) Z)).

Lemma image_meta : meta_used sb nmeta v.
Proof.
  intros b Hb. change nmeta with 59 in Hb. rewrite (io_used _ _ Him) by fs_lia. apply bool_decide_eq_true_2.
  pose proof (need_pos (root_data files.*1)). pose proof (data_need_pos files). change nmeta with 59. lia.
Qed.
Lemma loaded_file inum type data j ic ip :
  0 <= inum < NINODES -> file_is v inum type data -> taken v inum j ->
  let l := loaded sb me v j in
  (ip < length ic)%nat -> file_env sb nmeta ∅ v (<[ip := l]> ic) ip l /\ i_type l = type /\ no_holes v l (i_size l) /\ content v l = data /\
    i_lock l = my_lock me /\ i_ref l = 1 /\ i_nlink l = 1 /\ i_dev l = ROOTDEV /\ i_inum l = inum /\ i_valid l = true.
Proof.
  intros Hi (Hf & Hh & Ht & Hn & Hc) (J1 & J2 & J3 & J4 & J5) l Hip. set (i := on_image v inum) in *.
  assert (i_dev l = i_dev i /\ i_inum l = i_inum i /\ i_size l = i_size i /\ i_addrs l = i_addrs i /\ i_type l = i_type i /\ i_nlink l = i_nlink i /\ i_ref l = i_ref j /\ i_lock l = my_lock me /\ i_valid l = true)
    as (L1 & L2 & L3 & L4 & L5 & L6 & L7 & L8 & L9).
  { unfold l, loaded. destruct (i_valid j) eqn:E; [|rewrite J2; by split_and!]. specialize (J4 eq_refl). unfold i, on_image. rewrite <-J4. by destruct j. }
  assert (i_dev i = ROOTDEV /\ i_inum i = inum) as [I1 I2] by done.
  destruct (content_eq v i l L3 L4) as [Ec Eh]. split_and!; try congruence.
  - split; [by apply list_lookup_insert_eq|by apply (file_ok_eq sb nmeta v i)|exact image_meta|by apply held_ok_empty].
  - rewrite L3. by apply Eh.
Qed.

Lemma empty_cap : (size (∅ : gset Z) + 3 <= txn_cap)%nat /\ (size (∅ : gset Z) <= txn_cap)%nat /\ (size (∅ : gmap nat (Z * bool)) < 3)%nat.
Proof. rewrite size_empty, map_size_empty. vm_compute. lia. Qed.
Lemma ic0_zero k i : ic0 !! k = Some i -> i = zero_inode.
Proof. by intros [-> _]%lookup_replicate. Qed.

Lemma root_bytes : bytes (pad (root_data files.*1)).
Proof.
  destruct Hnames as [_ Hall]. rewrite Forall_lookup in Hall. unfold pad. apply Forall_app. split; [|apply Forall_replicate; done]. rewrite root_data_dirents.
  apply Forall_join, Forall_lookup_2. intros j d Hd. unfold dirents in Hd.
  destruct j as [|[|j]]; [injection Hd as <-; apply mk_dirent_bytes; by repeat constructor..|].
  change (imap (fun k n => mk_dirent (skip_underscore n) (Z.of_nat k + 2)) files.*1 !! j = Some d) in Hd. rewrite list_lookup_imap in Hd.
  destruct (files.*1 !! j) as [nj|] eqn:Ej; [|done]. injection Hd as <-. apply mk_dirent_bytes. destruct (Hall j nj Ej) as (Hbj & _).
  unfold skip_underscore. destruct nj as [|a nj]; [done|]. destruct (a =? 95); [by apply Forall_cons in Hbj as [_ ?]|done].
Qed.

(** The inodes of the image: the root and the files. *)
Lemma image_inode inum :
  in_use sb v inum -> inum = ROOTINO /\ file_is v inum T_DIR (pad (root_data files.*1)) \/ inum <> ROOTINO /\ exists data, file_is v inum T_FILE data.
Proof.
  intros [[Hge Hlt] Hty]. change (sb_ninodes sb) with NINODES in Hlt. destruct (decide (inum = ROOTINO)) as [->|Hne]; [left; split; [done|apply Him]|right].
  split; [done|]. destruct (decide (inum = 0 \/ Z.of_nat (length files) + 1 < inum)) as [Hout|Hin].
  { by rewrite (io_rest _ _ Him inum Hout) in Hty by done. }
  unfold ROOTINO in Hne. destruct (lookup_lt_is_Some_2 files (Z.to_nat (inum - 2)) ltac:(lia)) as [[n d] Hk]. exists d.
  replace inum with (Z.of_nat (Z.to_nat (inum - 2)) + 2) by lia. by eapply io_file.
Qed.
(** The image is a tree of directories, as path names need it. *)
Lemma image_tree : tree_ok sb nmeta v.
Proof.
  assert (forall inum type data, file_is v inum type data -> file_ok sb nmeta v (node sb v inum) /\ no_holes v (node sb v inum) (i_size (node sb v inum)) /\
    d_type (disk_inode sb v inum) = type /\ d_nlink (disk_inode sb v inum) = 1 /\ content v (node sb v inum) = data) as Hn.
  { intros inum type data (H1 & H2 & H3 & H4 & H5). destruct (content_eq v (on_image v inum) (node sb v inum) eq_refl eq_refl) as [Ec Eh].
    split_and!; [by apply (file_ok_eq sb nmeta v (on_image v inum))|by apply Eh|done|done|by rewrite Ec]. }
  assert (forall n, 0 <= n < NINODES -> inum_ok sb n) as Hok by done.
  destruct (Hn _ _ _ (io_root _ _ Him)) as (_ & Rh & Rt & _ & Rc). split.
  - exact image_meta.
  - split; [by apply Hok|]. by rewrite Rt.
  - intros inum [[-> HF]|[_ [data HF]]]%image_inode; destruct (Hn _ _ _ HF) as (_ & _ & _ & -> & _); done.
  - intros inum [[-> HF]|[_ [data HF]]]%image_inode; by apply (Hn _ _ _ HF).
  - intros inum [[-> HF]|[_ [data HF]]]%image_inode Hdir; [|unfold is_dir in Hdir; destruct (Hn _ _ _ HF) as (_ & _ & Ht & _); by rewrite Ht in Hdir].
    split_and!; [|done|rewrite Rc; apply root_bytes]. exists (32 * blocks_of (root_data files.*1)). pose proof (fo_size _ _ _ _ (proj1 (Hn _ _ _ HF))).
    assert (i_size (node sb v ROOTINO) = Z.of_nat (length (content v (node sb v ROOTINO)))) as -> by (unfold content; rewrite length_fmap, length_seqZ; lia).
    rewrite Rc, length_pad. change DIRENTSZ with 16. fs_lia.
  - intros inum name off j [[-> HF]|[_ [data HF]]]%image_inode Hdir; [|unfold is_dir in Hdir; destruct (Hn _ _ _ HF) as (_ & _ & Ht & _); by rewrite Ht in Hdir].
    rewrite Rc. intros Hj%root_entry; rewrite length_fmap in *; [|unfold NINODES in Hcount; lia]. split; [apply Hok; lia|].
    destruct (decide (j = ROOTINO)) as [->|Hne]; [by rewrite Rt|]. unfold ROOTINO in Hne.
    destruct (lookup_lt_is_Some_2 files (Z.to_nat (j - 2)) ltac:(lia)) as [[n d] Hk]. pose proof (io_file _ _ Him _ _ _ Hk) as Hf.
    replace (Z.of_nat (Z.to_nat (j - 2)) + 2) with j in Hf by lia. destruct (Hn _ _ _ Hf) as (_ & _ & -> & _). done.
Qed.

(** It is what [create] relies on. *)
Lemma image_fs : fs_ok sb nmeta v.
Proof.
  assert (forall n, in_use sb v n -> exists type data, file_is v n type data /\ 1 <= n <= Z.of_nat (length files) + 1) as Hin.
  { intros n Hn. assert (1 <= n <= Z.of_nat (length files) + 1) as Hr.
    { destruct Hn as [[Hge Hlt] Hty]. destruct (decide (n = 0 \/ Z.of_nat (length files) + 1 < n)) as [Hout|]; [|lia].
      by rewrite (io_rest _ _ Him n Hout) in Hty by done. }
    destruct (image_inode n Hn) as [[-> HF]|[_ [data HF]]]; by do 2 eexists. }
  split; [exact image_tree|..].
  - intros (type & data & _ & ?)%Hin. lia.
  - intros n (type & data & HF & _)%Hin. destruct (content_eq v (on_image v n) (node sb v n) eq_refl eq_refl) as [_ Eh]. apply Eh, HF.
  - intros i j b (_ & _ & _ & Hi)%Hin (_ & _ & _ & Hj)%Hin Hne Hb Hb'. rewrite (own_eq v (on_image v i)) in Hb by done. rewrite (own_eq v (on_image v j)) in Hb' by done.
    by apply (io_apart _ _ Him i j b Hi Hj Hne Hb).
Qed.

(** [namei] of a name in the root. *)
Lemma namei_run s k fname data :
  files !! k = Some (fname, data) -> fs_at sb me ∅ ∅ v ic0 s ->
  wp (namei devread 0 (SLASH :: skip_underscore fname)) (fun r s' => exists ip ic j, r = Some ip /\
    fs_at sb me ∅ ∅ v ic s' /\ ic !! ip = Some j /\ taken v (Z.of_nat k + 2) j) s.
Proof.
  intros Hk Hs. destruct empty_cap as (Hc3 & _ & _). assert (files.*1 !! k = Some fname) as Hk1 by (rewrite list_lookup_fmap, Hk; done).
  destruct Hnames as [_ Hall]. rewrite Forall_lookup in Hall. destruct (Hall k fname Hk1) as (Hby & H0 & Hst).
  destruct (Forall_lookup_1 _ _ _ _ Hargs Hk) as [Hsl _]. cbn [fst] in Hsl.
  assert (forall c, c ∈ skip_underscore fname -> c ∈ fname) as Hsub.
  { intros c. unfold skip_underscore. destruct fname as [|a l]; [done|]. destruct (a =? 95); set_solver. }
  assert (elems (SLASH :: skip_underscore fname) = [skip_underscore fname]) as Eel.
  { apply elems_one; [|by intros Hin; apply Hsl, Hsub]. intros E. destruct Hst. unfold stored. rewrite E. set_solver. }
  assert (target (v := v) sb false ROOTINO (elems (SLASH :: skip_underscore fname)) = Some (Z.of_nat k + 2)) as Etar.
  { rewrite Eel. cbn [target andb]. destruct (io_root _ _ Him) as (_ & _ & Ht & _ & Hc). unfold is_dir.
    change (d_type (disk_inode sb v ROOTINO)) with (i_type (on_image v ROOTINO)). rewrite Ht. cbn [Z.eqb]. change (T_DIR =? T_DIR) with true. cbn iota.
    destruct (content_eq v (on_image v ROOTINO) (node sb v ROOTINO) eq_refl eq_refl) as [-> _]. rewrite Hc.
    by rewrite (lookup_root files.*1 k fname _ Hnames ltac:(rewrite length_fmap; unfold NINODES in Hcount; lia) Hk1 (same_name_refl _)). }
  unfold namei. rewrite wp_bind. eapply wp_mono; [eapply (namex_run sb me nmeta image_layout devread ∅ v ic0 s 0 _ false _ ROOTINO image_tree Hc3 Hs)|].
  - intros j i ->%ic0_zero. by split_and!.
  - intros j n r E. apply table_lookup in E as (i & ->%ic0_zero & E). done.
  - by exists 0%nat, 1%nat.
  - done.
  - by rewrite length_replicate.
  - by apply Forall_replicate.
  - apply Forall_cons. split; [done|]. apply Forall_forall. intros c Hc'. by apply (proj1 (Forall_forall _ _) Hby), Hsub.
  - intros [?|Hin]%elem_of_cons; [done|]. by apply H0, Hsub.
  - intros r s' (ic & Hs' & Hc & Hres & _). apply wp_ret. rewrite Etar in Hres. destruct Hres as (ip & -> & Hslot & Ht).
    destruct (opened _ _ _ _ Ht Hslot) as (j & Hj & Ej & Hpos). exists ip, ic, j. split_and!; [done|done|done|].
    destruct (Hc ip j Hj) as (_ & Hl & Hu). destruct (Hu Hpos) as (Hdev & _ & Hd). rewrite Ej in Hd. split_and!; try done.
    assert (table_of ic !! ip = Some (Some (Z.of_nat k + 2, 1))) as (j' & Hj' & (_ & _ & E)%ref_of_Some)%table_lookup; [|by rewrite Hj in Hj'; injection Hj' as <-].
    rewrite Ht. unfold open_ref. rewrite list_lookup_alter_eq. destruct Hslot as [[-> _]|(r' & _ & E)]; [done|].
    apply table_lookup in E as (i & ->%ic0_zero & E). done.
Qed.

Definition slice (data : list Z) (off n : Z) : Z * list Z :=
  if bool_decide (off <= Z.of_nat (length data) /\ off + n < 2 ^ 32) then
    let k := Z.min n (Z.of_nat (length data) - off) in (k, take (Z.to_nat k) (drop (Z.to_nat off) data))
  else (-1, []).
Lemma open_read_run x k fname data off n :
  files !! k = Some (fname, data) -> is_u32 off -> is_u32 n ->
  f_sb x = sb -> f_me x = me -> f_icache x = ic0 -> log_idle 2 30 v (f_blk x) ->
  wp (open_read devread (SLASH :: skip_underscore fname) off n) (fun r _ => r = Some (slice data off n)) x.
Proof.
  intros Hk Ho Hn Hsb Hme Hic Hidle. destruct empty_cap as (Hc3 & Hc & Hh). pose proof (lookup_lt_Some _ _ _ Hk) as Hklt.
  unfold open_read. rewrite wp_bind. unfold onb. apply wp_zoom.
  eapply wp_mono; [apply (log_begin_law 2 30 1 v (f_blk x) eq_refl Hidle)|]. intros [] b1 Hb1.
  rewrite wp_bind. eapply wp_mono; [eapply namei_run; [exact Hk|]|].
  { split; [exact Hsb|exact Hic|exact Hme|exact Hb1]. }
  intros r s1 (ip & ic & j & -> & Hs1 & Hj & HT). pose proof HT as (T1 & T2 & T3 & T4 & T5). pose proof (io_file _ _ Him k fname data Hk) as Hfile.
  rewrite wp_bind. eapply wp_mono; [eapply (ilock_run sb me nmeta image_layout ∅ ∅ v ic s1 ip j); try done|].
  { split; [lia|done]. } { rewrite T2. split; [lia|]. change (sb_ninodes sb) with NINODES. lia. }
  { intros _. rewrite T2. destruct Hfile as (_ & _ & Ht & _). change (d_type (disk_inode sb v (Z.of_nat k + 2)) = T_FILE) in Ht. by rewrite Ht. }
  intros [] s2 Hs2. destruct (loaded_file (Z.of_nat k + 2) T_FILE data j ic ip ltac:(lia) Hfile HT (lookup_lt_Some _ _ _ Hj)) as (Henv & Lt & Lh & Lc & _).
  set (l := loaded sb me v j) in *. rewrite wp_bind. eapply wp_mono; [eapply (readi_run sb me nmeta image_layout devread ∅ v _ s2 ip l); try done; by rewrite Lt|].
  intros r s3 [_ ->]. apply wp_ret. pose proof (fo_size _ _ _ _ (fe_file _ _ _ _ _ _ _ Henv)) as Hsz.
  assert (i_size l = Z.of_nat (length data)) as El by (rewrite <-Lc; unfold content; rewrite length_fmap, length_seqZ; lia).
  unfold slice. by rewrite El, Lc.
Qed.
End read.

(** Property C4: an image that mkfs makes of files that fit, whose names differ in
    their first 14 characters, is one the kernel starts on, and a file that
    was given to mkfs is found under its name in the root and read as it was:
    [iinit] and [initlog] succeed, and [namei], [ilock] and [readi] of "/" and the
    name return the slice of the data asked for, cut at its end, or -1 when the
    offset lies behind the end or overflows. *)
Theorem mkfs_boot_read files k fname data off n pid devread :
  Forall file_arg files -> root_fits files -> names_ok files.*1 -> files !! k = Some (fname, data) -> is_u32 off -> is_u32 n ->
  exists s x x', mkfs_main (host_files files) mk_start = Done (tt, s) /\ start_fs pid (boot (disk_of (img s)) pid) = Done x /\
    open_read devread (SLASH :: skip_underscore fname) off n x = Done (Some (slice data off n), x').
Proof.
  intros Hargs Hfit Hnames Hk Ho Hn. destruct (mkfs_runs files Hargs Hfit) as (s & E & Him & Hb).
  destruct (start_fs_run (img s) files Him Hb pid pid) as (x & Ex & H1 & H2 & H3 & H4).
  destruct (wp_returns _ _ _ (open_read_run (img s) files Him Hnames Hargs (proj1 Hfit) pid devread x k fname data off n Hk Ho Hn H1 H2 H3 H4)) as (r & x' & Er & ->).
  exists s, x, x'. split; [exact E|]. split; [exact Ex|exact Er].
Qed.
Lemma mkfs_boot_read_witness :
  exists s x x', mkfs_main (host_files two_files) mk_start = Done (tt, s) /\ start_fs 1 (boot (disk_of (img s)) 1) = Done x /\
    open_read (fun _ => None) [SLASH; 97] 1 10 x = Done (Some (1, [105]), x').
Proof.
  apply (mkfs_boot_read two_files 0 [95; 97] [104; 105] 1 10 1 (fun _ => None)).
  - repeat constructor; try done; cbn; set_solver.
  - split_and!; vm_compute; done.
  - split; [refine (bool_decide_unpack _ _); vm_compute; exact I|].
    repeat (apply Forall_cons; split); try apply Forall_nil_2; (split_and!; [by repeat constructor|set_solver|refine (bool_decide_unpack _ _); vm_compute; exact I]).
  - done.
  - done.
  - done.
Defined.
