(* ===== verification/Xcheck.v ===== *)
(** * Xcheck: the file system checker (P5/xcheck.c)

    The mapped image is a partial function from offsets to bytes; a read
    behind its end is a fault, and so is an access of an array behind its
    end. What [malloc] leaves in the two arrays of counters is a parameter.
    The counters stay far below the bounds of an [int] (a directory has at
    most 384 entries), so they are not wrapped. *)

From stdpp Require Import base list numbers gmap strings.
From S2P Require Import Prelude Bytes Params Log Fs Mkfs.

Local Open Scope Z_scope.
Local Open Scope os_scope.

(** The globals of the program. *)
Record xc := { x_sb : superblock; x_inodes : list dinode; inuse_inode : list Z; inuse_block : list Z }.
Definition set_inuse_inode (l : list Z) (s : xc) : xc :=
  {| x_sb := x_sb s; x_inodes := x_inodes s; inuse_inode := l; inuse_block := inuse_block s |}.
Definition set_inuse_block (l : list Z) (s : xc) : xc :=
  {| x_sb := x_sb s; x_inodes := x_inodes s; inuse_inode := inuse_inode s; inuse_block := l |}.

Section xcheck.
Variable image : Z -> option Z.
Variable malloc : Z -> list Z.

(** Reads of the image. *)
Definition get_int_from_mem (ptr : Z) : option Z :=
  b0 ← image ptr; b1 ← image (ptr + 1); b2 ← image (ptr + 2); b3 ← image (ptr + 3);
  Some (Z.lor (Z.lor (Z.lor (Z.land b0 255) (Z.shiftl (Z.land b1 255) 8)) (Z.shiftl (Z.land b2 255) 8))
    (Z.shiftl (Z.land b3 255) 8)).
Definition get_short_from_mem (ptr : Z) : option Z :=
  b0 ← image ptr; b1 ← image (ptr + 1);
  Some (i16 (Z.lor (Z.land b0 255) (Z.shiftl (Z.land b1 255) 8))).
(** [strncpy(name, ptr, n)]: up to the first 0, and 0 from there on. *)
Fixpoint read_name (n : nat) (ptr : Z) : option (list Z) :=
  match n with
  | O => Some []
  | S n => b ← image ptr; if b =? 0 then Some (replicate (S n) 0) else l ← read_name n (ptr + 1); Some (b :: l)
  end.
Definition need_read {A} (o : option A) : M xc A := fun s => match o with Some a => Done (a, s) | None => Fault end.

Definition read_super_block (ptr : Z) : option superblock :=
  a ← get_int_from_mem ptr; b ← get_int_from_mem (ptr + 4); c ← get_int_from_mem (ptr + 8);
  d ← get_int_from_mem (ptr + 20); e ← get_int_from_mem (ptr + 24);
  Some {| sb_size := a; sb_nblocks := b; sb_ninodes := c; sb_nlog := 0; sb_logstart := 0; sb_inodestart := d; sb_bmapstart := e |}.
Definition construct_super_block (ptr : Z) : M xc unit :=
  let! sb := need_read (read_super_block ptr) in
  modify (fun s => {| x_sb := sb; x_inodes := x_inodes s; inuse_inode := inuse_inode s; inuse_block := inuse_block s |}).

Definition read_inode (p : Z) : option dinode :=
  t ← get_short_from_mem p; mj ← get_short_from_mem (p + 2); mi ← get_short_from_mem (p + 4);
  nl ← get_short_from_mem (p + 6); sz ← get_int_from_mem (p + 8);
  addrs ← mapM (fun j => get_int_from_mem (p + 12 + j * 4)) (seqZ 0 13);
  Some {| d_type := t; d_major := mj; d_minor := mi; d_nlink := nl; d_size := sz; d_addrs := addrs |}.
Definition T_UNLOCATED : Z := 0.
Definition initial_use (l : list Z) (inodes : list dinode) : list Z :=
  zip_with (fun junk x => if d_type x =? T_UNLOCATED then junk else 1) l inodes.
Definition construct_inodes : M xc unit :=
  let! sb := gets x_sb in
  let! inodes := need_read (mapM (fun i => read_inode (sb_inodestart sb * 512 + i * 64)) (seqZ 0 (sb_ninodes sb))) in
  modify (fun s => {| x_sb := x_sb s; x_inodes := inodes; inuse_inode := initial_use (malloc (sb_ninodes sb)) inodes;
                      inuse_block := inuse_block s |}).

Definition known_type (t : Z) : bool := (t =? T_DEV) || (t =? T_FILE) || (t =? T_DIR) || (t =? T_UNLOCATED).
Definition check_inode_type (inode : dinode) : M xc unit :=
  if known_type (d_type inode) then ret tt else panic "ERROR: bad inode.".
Definition check_inode_data_blocks (inode : dinode) : M xc unit :=
  let! sb := gets x_sb in
  if existsb (fun a => sb_size sb <? a) (take 12 (d_addrs inode)) then panic "ERROR: bad direct address in inode"
  else if sb_size sb <? nth 12 (d_addrs inode) 0 then panic "ERROR: bad indirect address in inode"
  else ret tt.

(** [inuse_inode[k] += d] and [inuse_block[k] += d]. *)
Definition in_range {A} (k : Z) (l : list A) : bool := (0 <=? k) && (k <? Z.of_nat (length l)).
Definition add_inode (k d : Z) : M xc unit :=
  let! l := gets inuse_inode in
  if in_range k l then modify (set_inuse_inode (alter (fun x => x + d) (Z.to_nat k) l)) else fault.
Definition add_block (k d : Z) : M xc unit :=
  let! l := gets inuse_block in
  if in_range k l then modify (set_inuse_block (alter (fun x => x + d) (Z.to_nat k) l)) else fault.

(** [strcmp] with "." and "..". *)
Definition is_dot (name : list Z) : bool := bool_decide (take 2 name = [46; 0]).
Definition is_dotdot (name : list Z) : bool := bool_decide (take 3 name = [46; 46; 0]).

(** One entry of directory [node_num]. *)
Definition check_entry (node_num inum : Z) (name : list Z) : M xc unit :=
  add_inode inum 1;;;
  if is_dot name then
    if negb (node_num =? inum) then panic "ERROR: directory not properly formatted." else add_inode inum (-1)
  else if is_dotdot name then
    if (node_num =? 1) && negb (node_num =? inum) then panic "ERROR: root directory does not exist." else add_inode inum (-1)
  else ret tt.
(** The inner loop of [check_dir] with [n] entries left in the block; [true]
    when an entry without inode ends the directory. *)
Fixpoint check_entries (n : nat) (node_num dir_ptr : Z) : M xc bool :=
  match n with
  | O => ret false
  | S n =>
      let! inum := need_read (get_short_from_mem dir_ptr) in
      let! name := need_read (read_name 14 (dir_ptr + 2)) in
      if inum =? 0 then ret true
      else check_entry node_num inum name;;; check_entries n node_num (dir_ptr + 16)
  end.
Fixpoint check_dir_blocks (addrs : list Z) (node_num : Z) : M xc unit :=
  match addrs with
  | [] => ret tt
  | a :: addrs =>
      if a =? 0 then ret tt
      else
        let! stop := check_entries 32 node_num (a * 512) in
        if (stop : bool) then ret tt else check_dir_blocks addrs node_num
  end.
Definition check_dir (inode : dinode) (node_num : Z) : M xc unit :=
  (if negb (node_num =? 1) then add_inode node_num (-1) else ret tt);;;
  check_dir_blocks (take 12 (d_addrs inode)) node_num.

(** The two loops of [check_inodes] from inode [i] on. *)
Fixpoint check_each (l : list dinode) (i : Z) : M xc unit :=
  match l with
  | [] => ret tt
  | inode :: l =>
      check_inode_type inode;;;
      check_inode_data_blocks inode;;;
      (if d_type inode =? T_UNLOCATED then ret tt
       else if d_type inode =? T_DIR then check_dir inode i
       else add_inode i (-1));;;
      check_each l (i + 1)
  end.
Fixpoint check_counts (l : list (dinode * Z)) : M xc unit :=
  match l with
  | [] => ret tt
  | (inode, n) :: l =>
      (if d_type inode =? T_UNLOCATED then
         if 0 <? n then panic "ERROR: inode referred to in directory but marked free." else ret tt
       else if d_type inode =? T_DIR then
         if negb (n =? 1) then panic "ERROR: directory appears more than once in file system." else ret tt
       else if d_type inode =? T_FILE then
         if negb (n =? 1) then panic "ERROR: bad reference count for file." else ret tt
       else if negb (n =? 1) then panic "ERROR: inode marked use but not found in a directory." else ret tt);;;
      check_counts l
  end.
Definition check_inodes : M xc unit :=
  let! inodes := gets x_inodes in
  check_each inodes 0;;;
  let! l := gets inuse_inode in
  check_counts (zip inodes l).

Definition mark_eserved_blocks : M xc unit :=
  let! sb := gets x_sb in
  let! l := gets inuse_block in
  if sb_bmapstart sb <? Z.of_nat (length l) then
    modify (set_inuse_block (replicate (Z.to_nat (sb_bmapstart sb + 1)) 1 ++ drop (Z.to_nat (sb_bmapstart sb + 1)) l))
  else fault.
(** [inuse_block[x] += 1], which must not have been in use. *)
Definition mark_block (msg : string) (x : Z) : M xc unit :=
  add_block x 1;;;
  let! l := gets inuse_block in
  if 1 <? nth (Z.to_nat x) l 0 then panic msg else ret tt.
Fixpoint mark_indirect_from (ks : list Z) (ptr : Z) : M xc unit :=
  match ks with
  | [] => ret tt
  | k :: ks =>
      let! x := need_read (get_int_from_mem (ptr + k * 4)) in
      (if negb (x =? 0) then mark_block "ERROR: indirect address used more than once." x else ret tt);;;
      mark_indirect_from ks ptr
  end.
Definition mark_indirect_add (x : Z) : M xc unit := mark_indirect_from (seqZ 0 128) (512 * x).
Fixpoint mark_addrs (j : Z) (addrs : list Z) : M xc unit :=
  match addrs with
  | [] => ret tt
  | x :: addrs =>
      (if negb (x =? 0) then
         mark_block "ERROR: direct address used more than once." x;;;
         if j =? 12 then mark_indirect_add x else ret tt
       else ret tt);;;
      mark_addrs (j + 1) addrs
  end.
Fixpoint mark_add (inodes : list dinode) : M xc unit :=
  match inodes with [] => ret tt | x :: l => mark_addrs 0 (d_addrs x);;; mark_add l end.
Definition mark_used_blocks : M xc unit :=
  modify (fun s => set_inuse_block (malloc (sb_size (x_sb s))) s);;;
  mark_eserved_blocks;;;
  let! inodes := gets x_inodes in
  mark_add inodes.

(** Bit [j] of [val] against the counter of block [b]; [val] is a [char] and
    [mask] an [int]. *)
Definition check_bit (val b j : Z) : M xc unit :=
  let! l := gets inuse_block in
  let mask := Z.land (i8 val) (Z.shiftl 1 j) in
  if negb (in_range b l) then fault
  else if (mask =? 0) && (nth (Z.to_nat b) l 0 =? 1) then panic "ERROR: address used by inode but marked free in bitmap."
  else if (0 <? mask) && (nth (Z.to_nat b) l 0 =? 0) then panic "ERROR: bitmap marks block in use but it is not in use."
  else ret tt.
Fixpoint check_bits (js : list Z) (val i : Z) : M xc unit :=
  match js with [] => ret tt | j :: js => check_bit val (i + j) j;;; check_bits js val i end.
Fixpoint check_bytes (n : nat) (i ptr : Z) : M xc unit :=
  match n with
  | O => ret tt
  | S n =>
      let! val := need_read (image ptr) in
      check_bits (seqZ 0 8) val i;;;
      check_bytes n (i + 8) (ptr + 1)
  end.
Definition check_bitmap : M xc unit :=
  mark_used_blocks;;;
  let! sb := gets x_sb in
  check_bytes 125 0 (sb_bmapstart sb * 512).

Definition check : M xc Z :=
  construct_super_block 512;;;
  construct_inodes;;;
  check_inodes;;;
  check_bitmap;;;
  ret 0.
End xcheck.

(** The image [mkfs] leaves, and memory that holds zeros. *)
Definition mapped (m : gmap Z (list Z)) (p : Z) : option Z :=
  if p <? 0 then None else m !! (p / 512) ≫= fun d => d !! Z.to_nat (p mod 512).
Definition zeroed (n : Z) : list Z := replicate (Z.to_nat n) 0.
Definition xc_start : xc :=
  {| x_sb := {| sb_size := 0; sb_nblocks := 0; sb_ninodes := 0; sb_nlog := 0; sb_logstart := 0; sb_inodestart := 0; sb_bmapstart := 0 |};
     x_inodes := []; inuse_inode := []; inuse_block := [] |}.

(** ** What the checker accepts *)

Section accept.
Variable image : Z -> option Z.

(** The entries of a directory that the checker sees: those before the first
    one without inode. *)
Fixpoint block_entries (n : nat) (ptr : Z) : option (list (Z * list Z) * bool) :=
  match n with
  | O => Some ([], false)
  | S n =>
      inum ← get_short_from_mem image ptr; name ← read_name image 14 (ptr + 2);
      if inum =? 0 then Some ([], true)
      else '(l, stop) ← block_entries n (ptr + 16); Some ((inum, name) :: l, stop)
  end.
Fixpoint dir_entries (addrs : list Z) : option (list (Z * list Z)) :=
  match addrs with
  | [] => Some []
  | a :: addrs =>
      if a =? 0 then Some []
      else
        '(l, stop) ← block_entries 32 (a * 512);
        if (stop : bool) then Some l else l' ← dir_entries addrs; Some (l ++ l')
  end.
Definition dots (name : list Z) : bool := is_dot name || is_dotdot name.
Definition entry_ok (i n : Z) (e : Z * list Z) : Prop :=
  0 <= e.1 < n /\ (is_dot e.2 = true -> e.1 = i) /\ (is_dotdot e.2 = true -> i = 1 -> e.1 = i).
Definition entries_of (x : dinode) : option (list (Z * list Z)) :=
  if d_type x =? T_DIR then dir_entries (take 12 (d_addrs x)) else Some [].

(** How often inode [k] is found in a list of entries, and in the
    directories. *)
Definition found (k : Z) (es : list (Z * list Z)) : Z :=
  Z.of_nat (length (filter (fun e => e.1 = k /\ dots e.2 = false) es)).
Definition refs (inodes : list dinode) (k : Z) : Z :=
  found k (mjoin ((fun x => default [] (entries_of x)) <$> inodes)).
Definition wanted (i : Z) (x : dinode) : Z :=
  if (d_type x =? T_UNLOCATED) || ((d_type x =? T_DIR) && (i =? 1)) then 0 else 1.

(** The blocks that inodes refer to. *)
Definition ind_refs (x : Z) : option (list Z) :=
  l ← mapM (fun k => get_int_from_mem image (512 * x + k * 4)) (seqZ 0 128); Some (filter (fun y => y <> 0) l).
Fixpoint addr_refs (j : Z) (addrs : list Z) : option (list Z) :=
  match addrs with
  | [] => Some []
  | x :: addrs =>
      l ← (if x =? 0 then Some [] else r ← (if j =? 12 then ind_refs x else Some []); Some (x :: r));
      l' ← addr_refs (j + 1) addrs; Some (l ++ l')
  end.
Fixpoint all_refs (inodes : list dinode) : option (list Z) :=
  match inodes with [] => Some [] | x :: inodes => l ← addr_refs 0 (d_addrs x); l' ← all_refs inodes; Some (l ++ l') end.

Record accepts (sb : superblock) (inodes : list dinode) (bs : list Z) : Prop := {
  ac_sb : read_super_block image 512 = Some sb;
  ac_inodes : mapM (fun i => read_inode image (sb_inodestart sb * 512 + i * 64)) (seqZ 0 (sb_ninodes sb)) = Some inodes;
  ac_type : Forall (fun x => known_type (d_type x) = true) inodes;
  ac_addrs : Forall (fun x => Forall (fun a => a <= sb_size sb) (d_addrs x)) inodes;
  ac_dirs (i : nat) x : inodes !! i = Some x ->
    exists es, entries_of x = Some es /\ Forall (entry_ok (Z.of_nat i) (sb_ninodes sb)) es;
  ac_refs (i : nat) x : inodes !! i = Some x -> refs inodes (Z.of_nat i) = wanted (Z.of_nat i) x;
  ac_blocks : all_refs inodes = Some bs;
  ac_once : NoDup bs;
  ac_data b : b ∈ bs -> sb_bmapstart sb < b < sb_size sb;
  ac_size : sb_bmapstart sb < sb_size sb /\ 1000 <= sb_size sb;
  ac_bitmap b : 0 <= b < 1000 -> exists v, image (sb_bmapstart sb * 512 + b / 8) = Some v /\
    Z.testbit v (b mod 8) = bool_decide (b <= sb_bmapstart sb \/ b ∈ bs)
}.
End accept.

Lemma bind_iff {S A B} (c : M S A) (k : A -> M S B) s r :
  bind c k s = Done r <-> exists a s', c s = Done (a, s') /\ k a s' = Done r.
Proof.
  unfold bind. destruct (c s) as [[a s']| | |]; split; try done.
  - eauto.
  - by intros (a' & s'' & [= <- <-] & ?).
  - by intros (? & ? & ? & ?).
  - by intros (? & ? & ? & ?).
  - by intros (? & ? & ? & ?).
Qed.
Lemma need_read_iff {A} (o : option A) s a s' : need_read o s = Done (a, s') <-> o = Some a /\ s' = s.
Proof. unfold need_read. destruct o; split; [by intros [= -> ->]|by intros [[= ->] ->]|done|by intros [? ?]]. Qed.
Lemma in_range_iff {A} k (l : list A) : in_range k l = true <-> 0 <= k < Z.of_nat (length l).
Proof. unfold in_range. rewrite andb_true_iff, Z.leb_le, Z.ltb_lt. done. Qed.
Lemma add_inode_iff k d s r :
  add_inode k d s = Done r <-> 0 <= k < Z.of_nat (length (inuse_inode s)) /\
    r = (tt, set_inuse_inode (alter (fun x => x + d) (Z.to_nat k) (inuse_inode s)) s).
Proof.
  unfold add_inode, bind, gets. rewrite <-in_range_iff. destruct (in_range _ _); unfold modify, fault; split; [by intros [= <-]|by intros [_ ->]|done|by intros [? _]].
Qed.

Definition visit (l : list Z) (e : Z * list Z) : list Z :=
  if dots e.2 then l else alter (fun x => x + 1) (Z.to_nat e.1) l.
Lemma length_visits es l : length (foldl visit l es) = length l.
Proof. revert l. induction es as [|e es IH]; intros l; [done|]. cbn. rewrite IH. unfold visit. destruct (dots _); [done|apply length_alter]. Qed.
Lemma set_inuse_inode_set l l' s : set_inuse_inode l (set_inuse_inode l' s) = set_inuse_inode l s.
Proof. done. Qed.
Lemma set_inuse_inode_id s : set_inuse_inode (inuse_inode s) s = s.
Proof. by destruct s. Qed.
Lemma alter_undo k (l : list Z) : alter (fun x => x + -1) k (alter (fun x => x + 1) k l) = l.
Proof.
  rewrite list_alter_alter. apply list_eq. intros j. destruct (decide (j = k)) as [->|].
  - rewrite list_lookup_alter_eq. destruct (l !! k); [|done]. cbn. f_equal. lia.
  - by rewrite list_lookup_alter_ne.
Qed.

Lemma is_dot_not_dotdot name : is_dot name = true -> is_dotdot name = false.
Proof.
  unfold is_dot, is_dotdot. rewrite bool_decide_eq_true, bool_decide_eq_false. intros H1 H2.
  destruct name as [|a [|b [|c name]]]; try done. cbn in *. congruence.
Qed.
Lemma check_entry_iff i inum name s r :
  check_entry i inum name s = Done r <->
  entry_ok i (Z.of_nat (length (inuse_inode s))) (inum, name) /\ r = (tt, set_inuse_inode (visit (inuse_inode s) (inum, name)) s).
Proof.
  unfold check_entry, entry_ok. rewrite bind_iff. unfold visit, dots. cbn [fst snd].
  pose proof (is_dot_not_dotdot name) as Hex. destruct (is_dot name) eqn:Hd; [rewrite (Hex eq_refl); cbn [orb]|cbn [orb]; destruct (is_dotdot name) eqn:Hdd].
  - destruct (Z.eqb_spec i inum) as [->|Hne]; cbn [negb].
    + split.
      * intros (a & s' & [Hr [= -> ->]]%add_inode_iff & [Hr' ->]%add_inode_iff). cbn [inuse_inode set_inuse_inode].
        rewrite alter_undo, set_inuse_inode_set. split_and!; (done || lia).
      * intros [(Hr & _) ->]. eexists _, _. split; [by apply add_inode_iff|]. apply add_inode_iff. cbn [inuse_inode set_inuse_inode].
        by rewrite length_alter, alter_undo, set_inuse_inode_set.
    + split; [by intros (? & ? & _ & ?)|intros [(_ & H & _) _]]. destruct Hne. symmetry. by apply H.
  - destruct (Z.eqb_spec i 1) as [Hi|Hi], (Z.eqb_spec i inum) as [He|Hne]; cbn [negb andb];
      try (split; [by intros (? & ? & _ & ?)|intros [(_ & _ & H) _]; destruct Hne; symmetry; by apply H]);
      (split;
      [ intros (a & s' & [Hr [= -> ->]]%add_inode_iff & [Hr' ->]%add_inode_iff); cbn [inuse_inode set_inuse_inode];
        rewrite alter_undo, set_inuse_inode_set; split_and!; (done || lia)
      | intros [(Hr & _) ->]; eexists _, _; (split; [by apply add_inode_iff|]); apply add_inode_iff; cbn [inuse_inode set_inuse_inode];
        by rewrite length_alter, alter_undo, set_inuse_inode_set ]).
  - split.
    + intros (a & s' & [Hr [= -> ->]]%add_inode_iff & [= <-]). split_and!; (done || lia).
    + intros [(Hr & _) ->]. eexists _, _. split; [by apply add_inode_iff|done].
Qed.

Section accept_iff.
Variable image : Z -> option Z.

Lemma check_entries_iff n i ptr s r :
  check_entries image n i ptr s = Done r <->
  exists es, block_entries image n ptr = Some (es, r.1) /\ Forall (entry_ok i (Z.of_nat (length (inuse_inode s)))) es /\
    r.2 = set_inuse_inode (foldl visit (inuse_inode s) es) s.
Proof.
  destruct r as [rb rs]. cbn [fst snd]. revert ptr s. induction n as [|n IH]; intros ptr s; cbn [check_entries block_entries].
  { split.
    - intros [= <- <-]. exists []. split_and!; [done|by apply Forall_nil_2|cbn; by rewrite set_inuse_inode_id].
    - intros (es & [= <- <-] & _ & ->). cbn. by rewrite set_inuse_inode_id. }
  unfold bind at 1, need_read at 1. destruct (get_short_from_mem image ptr) as [inum|]; cbn [mbind option_bind]; [|by split; [|intros (? & ? & _)]].
  unfold bind at 1, need_read. destruct (read_name image 14 (ptr + 2)) as [name|]; cbn [mbind option_bind]; [|by split; [|intros (? & ? & _)]].
  destruct (inum =? 0).
  { split.
    - intros [= <- <-]. exists []. split_and!; [done|by apply Forall_nil_2|cbn; by rewrite set_inuse_inode_id].
    - intros (es & [= <- <-] & _ & ->). cbn. by rewrite set_inuse_inode_id. }
  rewrite bind_iff. split.
  - intros (a & s1 & [Hok [= -> ->]]%check_entry_iff & (es & Hes & HF & Hr)%IH). rewrite Hes. cbn [mbind option_bind].
    exists ((inum, name) :: es). cbn [inuse_inode set_inuse_inode foldl] in *. split_and!; [done| |by rewrite Hr].
    constructor; [done|]. pose proof (length_visits [(inum, name)] (inuse_inode s)) as Hl. cbn in Hl. by rewrite Hl in HF.
  - destruct (block_entries image n (ptr + 16)) as [[es b]|] eqn:Hes; cbn [mbind option_bind]; [|by intros (? & ? & _)].
    intros (es' & [= <- <-] & [Hok HF]%Forall_cons_1 & Hr). exists tt. eexists. split; [by apply check_entry_iff|]. apply IH. exists es.
    pose proof (length_visits [(inum, name)] (inuse_inode s)) as Hl. cbn in Hl. cbn [inuse_inode set_inuse_inode]. rewrite Hl. by split_and!.
Qed.

Lemma check_dir_blocks_iff addrs i s r :
  check_dir_blocks image addrs i s = Done r <->
  exists es, dir_entries image addrs = Some es /\ Forall (entry_ok i (Z.of_nat (length (inuse_inode s)))) es /\
    r = (tt, set_inuse_inode (foldl visit (inuse_inode s) es) s).
Proof.
  revert s. induction addrs as [|a addrs IH]; intros s; cbn [check_dir_blocks dir_entries].
  { split.
    - intros [= <-]. exists []. cbn. rewrite set_inuse_inode_id. by split_and!.
    - intros (es & [= <-] & _ & ->). cbn. by rewrite set_inuse_inode_id. }
  destruct (a =? 0).
  { split.
    - intros [= <-]. exists []. cbn. rewrite set_inuse_inode_id. by split_and!.
    - intros (es & [= <-] & _ & ->). cbn. by rewrite set_inuse_inode_id. }
  rewrite bind_iff. split.
  - intros (b & s1 & (es & Hes & HF & Hs)%check_entries_iff & Hk). cbn [fst snd] in *. subst s1. rewrite Hes. cbn [mbind option_bind].
    destruct b; [injection Hk as <-; by exists es|]. apply IH in Hk as (es' & Hes' & HF' & ->). rewrite Hes'. cbn [mbind option_bind].
    exists (es ++ es'). cbn [inuse_inode set_inuse_inode] in *. rewrite length_visits in HF'. rewrite foldl_app, set_inuse_inode_set.
    split_and!; [done|by apply Forall_app|done].
  - destruct (block_entries image 32 (a * 512)) as [[es b]|] eqn:Hes; cbn [mbind option_bind]; [|by intros (? & ? & _)].
    destruct b.
    + intros (es' & [= <-] & HF & ->). eexists true, _. split; [apply check_entries_iff; by exists es|done].
    + destruct (dir_entries image addrs) as [es'|] eqn:Hes'; cbn [mbind option_bind]; [|by intros (? & ? & _)].
      intros (es2 & [= <-] & [HF HF']%Forall_app & ->). eexists false, _. split; [apply check_entries_iff; by exists es|].
      apply IH. exists es'. cbn [snd inuse_inode set_inuse_inode]. rewrite length_visits, foldl_app, set_inuse_inode_set. by split_and!.
Qed.

Lemma check_inode_type_iff x s r : check_inode_type x s = Done r <-> known_type (d_type x) = true /\ r = (tt, s).
Proof. unfold check_inode_type. destruct (known_type _); split; [by intros [= <-]|by intros [_ ->]|done|by intros [? _]]. Qed.
Lemma check_inode_data_blocks_iff x s r :
  length (d_addrs x) = 13%nat ->
  check_inode_data_blocks x s = Done r <-> Forall (fun a => a <= sb_size (x_sb s)) (d_addrs x) /\ r = (tt, s).
Proof.
  intros Hl. unfold check_inode_data_blocks, bind, gets. set (n := sb_size _).
  assert (d_addrs x = take 12 (d_addrs x) ++ [nth 12 (d_addrs x) 0]) as E.
  { rewrite <-(take_drop 12 (d_addrs x)) at 1. f_equal. destruct (d_addrs x) as [|? [|? [|? [|? [|? [|? [|? [|? [|? [|? [|? [|? [|? [|? ?]]]]]]]]]]]]]]; done. }
  rewrite E at 3. rewrite Forall_app, Forall_singleton.
  assert (existsb (fun a => n <? a) (take 12 (d_addrs x)) = false <-> Forall (fun a => a <= n) (take 12 (d_addrs x))) as Hex.
  { generalize (take 12 (d_addrs x)). intros l. induction l as [|a l IH]; [by split; [intros; apply Forall_nil_2|]|]. cbn [existsb].
    rewrite orb_false_iff, Z.ltb_ge, IH. by rewrite Forall_cons_iff. }
  destruct (existsb _ _).
  - split; [done|]. intros [[H _] _]. by apply Hex in H.
  - destruct (Z.ltb_spec n (nth 12 (d_addrs x) 0)); split; [done| |intros [= <-]; split; [split; [by apply Hex|done]|done]|by intros [_ ->]].
    intros [[_ H'] _]. lia.
Qed.

(** Inode [i] in the first loop. *)
Definition check_node (i : Z) (inode : dinode) : M xc unit :=
  if d_type inode =? T_UNLOCATED then ret tt else if d_type inode =? T_DIR then check_dir image inode i else add_inode i (-1).
Definition node_use (i : Z) (x : dinode) (l : list Z) : list Z :=
  foldl visit (if wanted i x =? 0 then l else alter (fun y => y + -1) (Z.to_nat i) l) (default [] (entries_of image x)).
Lemma length_node_use i x l : length (node_use i x l) = length l.
Proof. unfold node_use. rewrite length_visits. destruct (_ =? _); [done|apply length_alter]. Qed.
Definition node_ok (i n : Z) (x : dinode) : Prop := exists es, entries_of image x = Some es /\ Forall (entry_ok i n) es.

Lemma check_node_iff i x s r :
  0 <= i < Z.of_nat (length (inuse_inode s)) ->
  check_node i x s = Done r <->
  node_ok i (Z.of_nat (length (inuse_inode s))) x /\ r = (tt, set_inuse_inode (node_use i x (inuse_inode s)) s).
Proof.
  intros Hi. unfold check_node, node_ok, node_use, wanted, entries_of. destruct (Z.eqb_spec (d_type x) T_UNLOCATED) as [Ht|Ht].
  { rewrite (proj2 (Z.eqb_neq (d_type x) T_DIR)) by (rewrite Ht; done). cbn [orb Z.eqb default from_option foldl id]. rewrite set_inuse_inode_id. split.
    - intros [= <-]. split; [|done]. exists []. by split; [|apply Forall_nil_2].
    - by intros [_ ->]. }
  destruct (Z.eqb_spec (d_type x) T_DIR) as [Hd|Hd]; cbn [orb andb].
  - unfold check_dir. rewrite bind_iff. set (l0 := if negb (i =? 1) then alter (fun y => y + -1) (Z.to_nat i) (inuse_inode s) else inuse_inode s).
    assert (length l0 = length (inuse_inode s)) as Hl0 by (unfold l0; destruct (negb _); [apply length_alter|done]).
    assert (forall q, (if negb (i =? 1) then add_inode i (-1) else ret tt) s = Done q <-> q = (tt, set_inuse_inode l0 s)) as H0.
    { intros q. unfold l0. destruct (negb _); [rewrite add_inode_iff; split; [by intros [_ ->]|by intros ->]|].
      rewrite set_inuse_inode_id. split; [by intros [= <-]|by intros ->]. }
    replace (if (if i =? 1 then 0 else 1) =? 0 then inuse_inode s else alter (fun y => y + -1) (Z.to_nat i) (inuse_inode s)) with l0
      by (unfold l0; by destruct (i =? 1)).
    split.
    + intros (a & s1 & [= -> ->]%H0 & (es & Hes & HF & ->)%check_dir_blocks_iff). cbn [inuse_inode set_inuse_inode] in *. rewrite Hl0 in HF. rewrite Hes.
      split; [by exists es|done].
    + intros [(es & Hes & HF) ->]. exists tt, (set_inuse_inode l0 s). split; [by apply H0|]. apply check_dir_blocks_iff. exists es.
      cbn [inuse_inode set_inuse_inode]. rewrite Hl0, Hes. by split_and!.
  - rewrite add_inode_iff. cbn [Z.eqb default from_option foldl id]. split; [intros [_ ->]|intros [_ ->]; by split]. split; [|done]. exists []. by split; [|apply Forall_nil_2].
Qed.

Fixpoint each_use (i : Z) (l : list dinode) (u : list Z) : list Z :=
  match l with [] => u | x :: l => each_use (i + 1) l (node_use i x u) end.
Lemma length_each_use i l u : length (each_use i l u) = length u.
Proof. revert i u. induction l as [|x l IH]; intros i u; [done|]. cbn. by rewrite IH, length_node_use. Qed.
Definition inode_ok (size i n : Z) (x : dinode) : Prop :=
  known_type (d_type x) = true /\ Forall (fun a => a <= size) (d_addrs x) /\ node_ok i n x.

Lemma check_each_iff l i s r :
  Forall (fun x => length (d_addrs x) = 13%nat) l -> 0 <= i -> i + Z.of_nat (length l) <= Z.of_nat (length (inuse_inode s)) ->
  check_each image l i s = Done r <->
  (forall k x, l !! k = Some x -> inode_ok (sb_size (x_sb s)) (i + Z.of_nat k) (Z.of_nat (length (inuse_inode s))) x) /\
    r = (tt, set_inuse_inode (each_use i l (inuse_inode s)) s).
Proof.
  revert i s. induction l as [|x l IH]; intros i s HL Hi Hn; cbn [check_each each_use].
  { rewrite set_inuse_inode_id. split; [intros [= <-]; by split|by intros [_ ->]]. }
  apply Forall_cons_1 in HL as [Hx HL]. cbn [length] in Hn. fold (check_node i x).
  set (s1 := set_inuse_inode (node_use i x (inuse_inode s)) s).
  assert (check_each image l (i + 1) s1 = Done r <-> (forall k y, l !! k = Some y ->
      inode_ok (sb_size (x_sb s)) (i + Z.of_nat (S k)) (Z.of_nat (length (inuse_inode s))) y) /\
      r = (tt, set_inuse_inode (each_use (i + 1) l (node_use i x (inuse_inode s))) s)) as IHs.
  { rewrite (IH (i + 1) s1) by (done || lia || (cbn [s1 inuse_inode set_inuse_inode]; rewrite length_node_use; lia)).
    change (x_sb s1) with (x_sb s). change (inuse_inode s1) with (node_use i x (inuse_inode s)). rewrite length_node_use.
    split; intros [H ->]; (split; [|done]); intros k y Hk; specialize (H k y Hk); by replace (i + Z.of_nat (S k)) with (i + 1 + Z.of_nat k) in * by lia. }
  rewrite bind_iff. split.
  - intros (a & s2 & [Ht [= -> ->]]%check_inode_type_iff & (b & s3 & [Hb [= -> ->]]%check_inode_data_blocks_iff & H)%bind_iff); [|done].
    apply bind_iff in H as (c & s4 & [Hc [= -> ->]]%check_node_iff & [H ->]%IHs); [|lia]. split; [|done].
    intros [|k] y Hy; [|by apply H]. injection Hy as <-. replace (i + Z.of_nat 0) with i by lia. by split_and!.
  - intros [H ->]. destruct (H 0%nat x eq_refl) as (Ht & Hb & Hc). replace (i + Z.of_nat 0) with i in Hc by lia.
    exists tt, s. split; [by apply check_inode_type_iff|]. apply bind_iff. exists tt, s. split; [by apply check_inode_data_blocks_iff|].
    apply bind_iff. exists tt, s1. split; [apply check_node_iff; [lia|by split]|]. apply IHs. split; [|done]. intros k y Hk. by apply (H (S k)).
Qed.

(** The counters after the first loop. *)
Lemma nth_count_alter (f : Z -> Z) j k (u : list Z) :
  (k < length u)%nat -> nth k (alter f j u) 0 = if decide (j = k) then f (nth k u 0) else nth k u 0.
Proof.
  intros Hk. rewrite !nth_lookup. destruct (decide (j = k)) as [->|]; [|by rewrite list_lookup_alter_ne].
  rewrite list_lookup_alter_eq. destruct (lookup_lt_is_Some_2 u k Hk) as [z ->]. done.
Qed.
Lemma found_app k es es' : found k (es ++ es') = found k es + found k es'.
Proof. unfold found. rewrite filter_app, length_app. lia. Qed.
Lemma found_one k e : found k [e] = if decide (e.1 = k /\ dots e.2 = false) then 1 else 0.
Proof. unfold found. rewrite filter_cons, filter_nil. by destruct (decide _). Qed.
Lemma inode_refs_cons x l k : refs image (x :: l) k = found k (default [] (entries_of image x)) + refs image l k.
Proof. unfold refs. cbn [fmap list_fmap mjoin list_join]. apply found_app. Qed.
Lemma refs_pos l k : 0 <= refs image l k.
Proof. unfold refs, found. lia. Qed.

Lemma visits_nth es u k :
  Forall (fun e => 0 <= e.1) es -> (k < length u)%nat -> nth k (foldl visit u es) 0 = nth k u 0 + found (Z.of_nat k) es.
Proof.
  revert u. induction es as [|e es IH]; intros u HF Hk; [unfold found; cbn; lia|]. apply Forall_cons_1 in HF as [He HF].
  change (e :: es) with ([e] ++ es). rewrite found_app, found_one, foldl_app. cbn [foldl].
  rewrite IH by (done || (rewrite (length_visits [e] u : length (visit u e) = _); done)). unfold visit.
  destruct (dots e.2).
  - rewrite decide_False by (by intros [_ ?]). lia.
  - rewrite nth_count_alter by done. destruct (decide (Z.to_nat e.1 = k)) as [<-|Hne]; [rewrite decide_True by (split; [lia|done])|rewrite decide_False by (intros [? _]; lia)]; lia.
Qed.
Lemma node_use_nth i x u n (k : nat) :
  0 <= i -> node_ok i n x -> (k < length u)%nat ->
  nth k (node_use i x u) 0 = nth k u 0 + found (Z.of_nat k) (default [] (entries_of image x)) - (if i =? Z.of_nat k then wanted i x else 0).
Proof.
  intros Hi (es & Hes & HF) Hk. unfold node_use. rewrite Hes. cbn [default from_option]. rewrite visits_nth.
  2:{ eapply Forall_impl; [exact HF|]. intros e [? _]. lia. }
  2:{ destruct (_ =? _); [done|by rewrite length_alter]. }
  assert (wanted i x = 0 \/ wanted i x = 1) as [Hw|Hw] by (unfold wanted; destruct (_ || _); auto); rewrite Hw; cbn [Z.eqb].
  - destruct (i =? Z.of_nat k); unfold id; lia.
  - rewrite nth_count_alter by done. unfold id. destruct (Z.eqb_spec i (Z.of_nat k)), (decide (Z.to_nat i = k)); lia.
Qed.
Fixpoint own_use (i : Z) (l : list dinode) (k : Z) : Z :=
  match l with [] => 0 | x :: l => (if i =? k then wanted i x else 0) + own_use (i + 1) l k end.
Lemma own_use_none i l k : k < i -> own_use i l k = 0.
Proof. revert i. induction l as [|x l IH]; intros i H; [done|]. cbn. rewrite (proj2 (Z.eqb_neq _ _)), IH by lia. lia. Qed.
Lemma own_use_lookup i l j x : l !! j = Some x -> own_use i l (i + Z.of_nat j) = wanted (i + Z.of_nat j) x.
Proof.
  revert i j. induction l as [|y l IH]; intros i [|j] H; [done|done| |]; cbn [own_use].
  - injection H as ->. replace (i + Z.of_nat 0) with i by lia. rewrite Z.eqb_refl, own_use_none by lia. lia.
  - rewrite (proj2 (Z.eqb_neq _ _)) by lia. replace (i + Z.of_nat (S j)) with (i + 1 + Z.of_nat j) by lia. rewrite (IH _ _ H). lia.
Qed.
Lemma each_use_nth l i u n (k : nat) :
  0 <= i -> (forall j x, l !! j = Some x -> node_ok (i + Z.of_nat j) n x) -> (k < length u)%nat ->
  nth k (each_use i l u) 0 = nth k u 0 + refs image l (Z.of_nat k) - own_use i l (Z.of_nat k).
Proof.
  revert i u. induction l as [|x l IH]; intros i u Hi H Hk; [change (refs image [] (Z.of_nat k)) with 0; cbn; lia|]. cbn [each_use own_use]. rewrite inode_refs_cons.
  rewrite IH by (lia || (rewrite length_node_use; done) || (intros j y Hy; replace (i + 1 + Z.of_nat j) with (i + Z.of_nat (S j)) by lia; by apply H)).
  rewrite (node_use_nth i x u n) by (done || (specialize (H 0%nat x eq_refl); by replace (i + Z.of_nat 0) with i in H by lia)). lia.
Qed.

Lemma check_counts_iff (l : list (dinode * Z)) s r :
  check_counts l s = Done r <-> Forall (fun p => if d_type p.1 =? T_UNLOCATED then p.2 <= 0 else p.2 = 1) l /\ r = (tt, s).
Proof.
  induction l as [|[x n] l IH]; cbn [check_counts].
  { split; [intros [= <-]; by split; [apply Forall_nil_2|]|by intros [_ ->]]. }
  rewrite Forall_cons_iff, bind_iff. cbn [fst snd]. set (c := if d_type x =? T_UNLOCATED then _ else _).
  assert (forall q, c s = Done q <-> (if d_type x =? T_UNLOCATED then n <= 0 else n = 1) /\ q = (tt, s)) as Hc.
  { intros q. unfold c. destruct (d_type x =? T_UNLOCATED), (Z.ltb_spec 0 n), (Z.eqb_spec n 1); destruct (d_type x =? T_DIR), (d_type x =? T_FILE); cbn [negb];
      (split; [first [discriminate|intros [= <-]; (split; [lia|done])]|intros [? ->]; first [done|lia]]). }
  split.
  - intros (a & s' & [H1 [= -> ->]]%Hc & [H2 ->]%IH). by split_and!.
  - intros [[H1 H2] ->]. exists tt, s. split; [by apply Hc|by apply IH].
Qed.

(** *** The blocks *)
Fixpoint marks (bs : list Z) (l : list Z) : option (list Z) :=
  match bs with
  | [] => Some l
  | x :: bs => if in_range x l && (nth (Z.to_nat x) l 0 <=? 0) then marks bs (alter (fun y => y + 1) (Z.to_nat x) l) else None
  end.
(** [c] marks the blocks of [o], if it can read them. *)
Definition marking (c : M xc unit) (o : option (list Z)) : Prop :=
  forall s r, c s = Done r <-> exists bs l, o = Some bs /\ marks bs (inuse_block s) = Some l /\ r = (tt, set_inuse_block l s).

Lemma marks_app bs bs' l : marks (bs ++ bs') l = marks bs l ≫= marks bs'.
Proof. revert l. induction bs as [|x bs IH]; intros l; [done|]. cbn. destruct (_ && _); [apply IH|done]. Qed.
Lemma marking_ret : marking (ret tt) (Some []).
Proof.
  intros s r. split.
  - intros [= <-]. exists [], (inuse_block s). split_and!; [done|done|by destruct s].
  - intros (bs & l & [= <-] & [= <-] & ->). by destruct s.
Qed.
Lemma marking_bind c c' o o' :
  marking c o -> marking c' o' -> marking (c;;; c') (l ← o; l' ← o'; Some (l ++ l')).
Proof.
  intros H H' s r. rewrite bind_iff. split.
  - intros (a & s1 & (bs & l & -> & Hm & [= -> ->])%H & (bs' & l' & -> & Hm' & ->)%H'). exists (bs ++ bs'), l'.
    split_and!; [done|by rewrite marks_app, Hm|done].
  - intros (bs & l & E & Hm & ->). destruct o as [b1|]; [|done]. cbn in E. destruct o' as [b2|]; [|done]. injection E as <-. rewrite marks_app in Hm.
    destruct (marks b1 (inuse_block s)) as [l1|] eqn:H1; [|done]. exists tt, (set_inuse_block l1 s). split; [apply H; by exists b1, l1|].
    apply H'. by exists b2, l.
Qed.
Lemma marking_read {A} (o : option A) k f : (forall a, marking (k a) (f a)) -> marking (bind (need_read o) k) (o ≫= f).
Proof.
  intros H s r. unfold bind, need_read. destruct o as [a|]; [apply H|]. split; [done|by intros (? & ? & ? & _)].
Qed.
Lemma marking_block msg x : marking (mark_block msg x) (Some [x]).
Proof.
  intros s r. unfold mark_block, add_block, bind, gets, modify. destruct (in_range x (inuse_block s)) eqn:Hr.
  2:{ split; [done|]. intros (bs & l & [= <-] & Hm & _). cbn in Hm. by rewrite Hr in Hm. }
  pose proof (proj1 (in_range_iff _ _) Hr) as Hx. cbn [inuse_block set_inuse_block]. rewrite nth_count_alter, decide_True by (done || lia).
  split.
  - destruct (Z.ltb_spec 1 (nth (Z.to_nat x) (inuse_block s) 0 + 1)); [done|]. intros [= <-]. eexists _, _. split_and!; [done| |done].
    cbn. by rewrite Hr, (proj2 (Z.leb_le _ _)) by lia.
  - intros (bs & l & [= <-] & Hm & ->). cbn in Hm. rewrite Hr in Hm. cbn [andb] in Hm.
    destruct (Z.leb_spec (nth (Z.to_nat x) (inuse_block s) 0) 0); [|done]. injection Hm as <-. by rewrite (proj2 (Z.ltb_ge _ _)) by lia.
Qed.
Lemma marking_eq c o o' : marking c o -> o = o' -> marking c o'.
Proof. by intros ? <-. Qed.

Lemma marking_indirect x : marking (mark_indirect_add image x) (ind_refs image x).
Proof.
  unfold mark_indirect_add, ind_refs. generalize (512 * x) as ptr, (seqZ 0 128) as ks. intros ptr ks.
  induction ks as [|k ks IH]; [exact marking_ret|]. cbn [mark_indirect_from mapM].
  eapply marking_eq.
  { apply (marking_read _ _ (fun a => l ← (if a =? 0 then Some [] else Some [a]);
      l' ← (u ← mapM (fun k => get_int_from_mem image (ptr + k * 4)) ks; Some (filter (fun y => y <> 0) u)); Some (l ++ l'))).
    intros a. apply marking_bind; [|exact IH]. destruct (a =? 0); cbn [negb]; [apply marking_ret|apply marking_block]. }
  cbn [mapM]. destruct (get_int_from_mem image (ptr + k * 4)) as [a|]; [|done]. cbn [mbind option_bind].
  destruct (mapM _ ks) as [l|]; cbn [mbind option_bind mret option_ret]; [|by destruct (a =? 0)].
  rewrite filter_cons. destruct (Z.eqb_spec a 0), (decide (a <> 0)); (done || lia).
Qed.
Lemma marking_addrs j addrs : marking (mark_addrs image j addrs) (addr_refs image j addrs).
Proof.
  revert j. induction addrs as [|x addrs IH]; intros j; [exact marking_ret|]. cbn [mark_addrs addr_refs].
  apply marking_bind; [|apply IH]. destruct (x =? 0); cbn [negb]; [apply marking_ret|].
  eapply marking_eq.
  { apply (marking_bind _ _ (Some [x]) (if j =? 12 then ind_refs image x else Some [])); [apply marking_block|].
    destruct (j =? 12); [apply marking_indirect|apply marking_ret]. }
  cbn [mbind option_bind]. by destruct (if j =? 12 then _ else _).
Qed.
Lemma marking_add inodes : marking (mark_add image inodes) (all_refs image inodes).
Proof. induction inodes as [|x inodes IH]; [exact marking_ret|]. apply marking_bind; [apply marking_addrs|apply IH]. Qed.

(** Blocks are marked once each. *)
Lemma marks_iff bs l l' :
  Forall (fun n => 0 <= n) l ->
  marks bs l = Some l' <->
  NoDup bs /\ (forall b, b ∈ bs -> 0 <= b < Z.of_nat (length l) /\ nth (Z.to_nat b) l 0 = 0) /\
    l' = foldl (fun u x => alter (fun y => y + 1) (Z.to_nat x) u) l bs.
Proof.
  revert l. induction bs as [|x bs IH]; intros l HF; cbn [marks foldl].
  { split; [intros [= <-]; split_and!; [constructor|set_solver|done]|by intros (_ & _ & ->)]. }
  assert (forall b, (b < length l)%nat -> 0 <= nth b l 0) as Hpos.
  { intros b Hb. rewrite nth_lookup. destruct (lookup_lt_is_Some_2 l b Hb) as [z Ez]. rewrite Ez. by apply (Forall_lookup_1 _ _ _ _ HF Ez). }
  rewrite NoDup_cons. destruct (in_range x l) eqn:Hr; cbn [andb].
  2:{ split; [done|]. intros (_ & H & _). destruct (H x ltac:(set_solver)) as [Hx _]. apply in_range_iff in Hx. congruence. }
  apply in_range_iff in Hr. destruct (Z.leb_spec (nth (Z.to_nat x) l 0) 0) as [Hz|Hz].
  2:{ split; [done|]. intros (_ & H & _). destruct (H x ltac:(set_solver)) as [_ Hx]. lia. }
  rewrite IH by (apply Forall_alter; [done|intros; lia]). rewrite length_alter.
  assert (forall b, 0 <= b < Z.of_nat (length l) -> nth (Z.to_nat b) (alter (fun y => y + 1) (Z.to_nat x) l) 0 = 0 <-> b <> x /\ nth (Z.to_nat b) l 0 = 0) as Hn.
  { intros b Hb. rewrite nth_count_alter by lia. specialize (Hpos (Z.to_nat b) ltac:(lia)). destruct (decide (Z.to_nat x = Z.to_nat b)); lia. }
  specialize (Hpos (Z.to_nat x) ltac:(lia)). split.
  - intros (ND & H & ->). split_and!; [intros Hin; destruct (H x Hin) as [_ Hx]; apply Hn in Hx; [naive_solver|done]|done| |done].
    intros b [->|Hb]%elem_of_cons; [split; [done|lia]|]. destruct (H b Hb) as [Hb1 Hb2]. apply Hn in Hb2; [naive_solver|done].
  - intros ([Hx ND] & H & ->). split_and!; [done| |done]. intros b Hb. destruct (H b ltac:(set_solver)) as [Hb1 Hb2]. split; [done|].
    apply Hn; [done|]. split; [by intros ->|done].
Qed.
Lemma marked_nth bs l b :
  NoDup bs -> (forall b, b ∈ bs -> 0 <= b) -> (b < length l)%nat ->
  nth b (foldl (fun u x => alter (fun y => y + 1) (Z.to_nat x) u) l bs) 0 = nth b l 0 + (if decide (Z.of_nat b ∈ bs) then 1 else 0).
Proof.
  revert l. induction bs as [|x bs IH]; intros l ND Hp Hb; cbn [foldl].
  { rewrite decide_False by set_solver. lia. }
  apply NoDup_cons in ND as [Hx ND]. rewrite IH by (done || set_solver || by rewrite length_alter). rewrite nth_count_alter by done.
  specialize (Hp x ltac:(set_solver)). destruct (decide (Z.to_nat x = b)) as [<-|Hne].
  - rewrite Z2Nat.id by done. rewrite decide_False, decide_True by set_solver. lia.
  - destruct (decide (Z.of_nat b ∈ bs)); [rewrite decide_True by set_solver; lia|]. rewrite decide_False; [lia|].
    rewrite elem_of_cons. intros [?|?]; [lia|done].
Qed.

(** *** The bitmap *)
Lemma land_bit x j : 0 <= j -> Z.land x (Z.shiftl 1 j) = if Z.testbit x j then 2 ^ j else 0.
Proof.
  intros Hj. rewrite Z.shiftl_1_l. apply Z.bits_inj'. intros m Hm. rewrite Z.land_spec, Z.pow2_bits_eqb by done.
  destruct (Z.testbit x j) eqn:E; rewrite ?Z.pow2_bits_eqb, ?Z.bits_0 by done; destruct (Z.eqb_spec j m) as [->|]; rewrite ?andb_false_r, ?andb_true_r; done.
Qed.
Lemma testbit_i8 v j : 0 <= j < 8 -> Z.testbit (i8 v) j = Z.testbit v j.
Proof.
  intros Hj. rewrite <-(Z.mod_pow2_bits_low (i8 v) 8 j), <-(Z.mod_pow2_bits_low v 8 j) by lia. f_equal. unfold i8.
  Z.div_mod_to_equations. lia.
Qed.
Definition bits_agree (l : list Z) (v i j : Z) : Prop :=
  0 <= i + j < Z.of_nat (length l) /\ Z.testbit v j = (nth (Z.to_nat (i + j)) l 0 =? 1).
Lemma check_bit_iff v i j s r :
  Forall (fun n => n = 0 \/ n = 1) (inuse_block s) -> 0 <= j < 8 ->
  check_bit v (i + j) j s = Done r <-> bits_agree (inuse_block s) v i j /\ r = (tt, s).
Proof.
  intros HF Hj. unfold check_bit, bind, gets, bits_agree. rewrite <-in_range_iff. destruct (in_range _ _) eqn:Hr; cbn [negb]; [|by split; [|intros [[? _] _]]].
  apply in_range_iff in Hr. rewrite land_bit, testbit_i8 by lia. pose proof (Z.pow_pos_nonneg 2 j ltac:(lia) ltac:(lia)) as Hp.
  assert (nth (Z.to_nat (i + j)) (inuse_block s) 0 = 0 \/ nth (Z.to_nat (i + j)) (inuse_block s) 0 = 1) as Hn.
  { rewrite nth_lookup. destruct (lookup_lt_is_Some_2 (inuse_block s) (Z.to_nat (i + j)) ltac:(lia)) as [z Ez]. rewrite Ez. by apply (Forall_lookup_1 _ _ _ _ HF Ez). }
  destruct (Z.testbit v j), Hn as [-> | ->]; cbn [Z.eqb Z.ltb Z.compare andb negb]; rewrite ?(proj2 (Z.eqb_neq (2 ^ j) 0)), ?(proj2 (Z.ltb_lt 0 (2 ^ j))) by lia;
    cbn [andb]; (split; [first [discriminate|by intros [= <-]]|intros [[_ ?] ->]; done]).
Qed.
Lemma check_bits_iff js v i s r :
  Forall (fun n => n = 0 \/ n = 1) (inuse_block s) -> Forall (fun j => 0 <= j < 8) js ->
  check_bits js v i s = Done r <-> Forall (bits_agree (inuse_block s) v i) js /\ r = (tt, s).
Proof.
  intros HF. induction js as [|j js IH]; intros Hj; cbn [check_bits].
  { split; [intros [= <-]; by split; [apply Forall_nil_2|]|by intros [_ ->]]. }
  apply Forall_cons_1 in Hj as [Hj Hjs]. rewrite bind_iff, Forall_cons_iff. split.
  - intros (a & s1 & [H [= -> ->]]%check_bit_iff & [H' ->]%IH); try done.
  - intros [[H H'] ->]. exists tt, s. split; [by apply check_bit_iff|by apply IH].
Qed.
Definition byte_agrees (l : list Z) (ptr i : Z) : Prop := exists v, image ptr = Some v /\ Forall (bits_agree l v i) (seqZ 0 8).
Lemma check_bytes_iff n i ptr s r :
  Forall (fun n => n = 0 \/ n = 1) (inuse_block s) ->
  check_bytes image n i ptr s = Done r <->
  (forall m : nat, (m < n)%nat -> byte_agrees (inuse_block s) (ptr + Z.of_nat m) (i + 8 * Z.of_nat m)) /\ r = (tt, s).
Proof.
  intros HF. revert i ptr. induction n as [|n IH]; intros i ptr; cbn [check_bytes].
  { split; [intros [= <-]; split; [lia|done]|by intros [_ ->]]. }
  rewrite bind_iff. split.
  - intros (v & s1 & [Hv ->]%need_read_iff & (a & s2 & [H [= -> ->]]%check_bits_iff & [H' ->]%IH)%bind_iff); [|done|repeat constructor; lia].
    split; [|done]. intros [|m] Hm; [exists v; by rewrite !Z.add_0_r|]. specialize (H' m ltac:(lia)).
    replace (ptr + Z.of_nat (S m)) with (ptr + 1 + Z.of_nat m) by lia. by replace (i + 8 * Z.of_nat (S m)) with (i + 8 + 8 * Z.of_nat m) by lia.
  - intros [H ->]. destruct (H 0%nat ltac:(lia)) as (v & Hv & Hb). rewrite !Z.add_0_r in *. exists v, s. split; [by apply need_read_iff|].
    apply bind_iff. exists tt, s. split; [apply check_bits_iff; [done|repeat constructor; lia|done]|]. apply IH. split; [|done].
    intros m Hm. specialize (H (S m) ltac:(lia)). replace (ptr + Z.of_nat (S m)) with (ptr + 1 + Z.of_nat m) in H by lia.
    by replace (i + 8 * Z.of_nat (S m)) with (i + 8 + 8 * Z.of_nat m) in H by lia.
Qed.
(** All bits of the first 1000 blocks. *)
Lemma bytes_agree_iff l ptr :
  (forall m : nat, (m < 125)%nat -> byte_agrees l (ptr + Z.of_nat m) (0 + 8 * Z.of_nat m)) <->
  1000 <= Z.of_nat (length l) /\
  forall b, 0 <= b < 1000 -> exists v, image (ptr + b / 8) = Some v /\ Z.testbit v (b mod 8) = (nth (Z.to_nat b) l 0 =? 1).
Proof.
  split.
  - intros H. split.
    + destruct (H 124%nat ltac:(lia)) as (v & _ & Hb). rewrite Forall_forall in Hb. destruct (Hb 7) as [? _]; [apply elem_of_seqZ; lia|lia].
    + intros b Hb. destruct (H (Z.to_nat (b / 8))) as (v & Hv & HF); [Z.div_mod_to_equations; lia|]. rewrite Z2Nat.id in * by (Z.div_mod_to_equations; lia).
      exists v. split; [done|]. rewrite Forall_forall in HF. destruct (HF (b mod 8)) as [_ ->]; [apply elem_of_seqZ; Z.div_mod_to_equations; lia|].
      by replace (0 + 8 * (b / 8) + b mod 8) with b by (Z.div_mod_to_equations; lia).
  - intros [Hl H] m Hm. destruct (H (8 * Z.of_nat m) ltac:(lia)) as (v & Hv & _).
    replace (8 * Z.of_nat m / 8) with (Z.of_nat m) in Hv by (Z.div_mod_to_equations; lia). exists v. split; [done|]. apply Forall_forall. intros j Hj%elem_of_seqZ.
    split; [lia|]. destruct (H (8 * Z.of_nat m + j) ltac:(lia)) as (v' & Hv' & Ht).
    replace ((8 * Z.of_nat m + j) / 8) with (Z.of_nat m) in Hv' by (Z.div_mod_to_equations; lia).
    replace ((8 * Z.of_nat m + j) mod 8) with j in Ht by (Z.div_mod_to_equations; lia). rewrite Hv in Hv'. injection Hv' as <-. done.
Qed.

(** The blocks in front of the data are in use from the start. *)
Definition reserved (bm n : Z) : list Z := replicate (Z.to_nat (bm + 1)) 1 ++ drop (Z.to_nat (bm + 1)) (zeroed n).
Lemma length_reserved bm n : 0 <= bm < n -> Z.of_nat (length (reserved bm n)) = n.
Proof. intros H. unfold reserved, zeroed. rewrite length_app, length_drop, !length_replicate. lia. Qed.
Lemma reserved_nth bm n b : 0 <= bm < n -> 0 <= b < n -> nth (Z.to_nat b) (reserved bm n) 0 = if decide (b <= bm) then 1 else 0.
Proof.
  intros H Hb. unfold reserved, zeroed. rewrite nth_lookup, drop_replicate. destruct (decide (b <= bm)).
  - rewrite lookup_app_l by (rewrite length_replicate; lia). by rewrite lookup_replicate_2 by lia.
  - rewrite lookup_app_r by (rewrite length_replicate; lia). rewrite length_replicate. by rewrite lookup_replicate_2 by lia.
Qed.
Lemma reserved_bits bm n : Forall (fun z => z = 0 \/ z = 1) (reserved bm n).
Proof. unfold reserved, zeroed. rewrite drop_replicate. apply Forall_app. split; apply Forall_replicate; auto. Qed.

Lemma marked_bits bs l :
  Forall (fun z => z = 0 \/ z = 1) l -> NoDup bs -> (forall b, b ∈ bs -> 0 <= b < Z.of_nat (length l) /\ nth (Z.to_nat b) l 0 = 0) ->
  Forall (fun z => z = 0 \/ z = 1) (foldl (fun u x => alter (fun y => y + 1) (Z.to_nat x) u) l bs).
Proof.
  revert l. induction bs as [|x bs IH]; intros l HF ND H; [done|]. apply NoDup_cons in ND as [Hx ND]. cbn [foldl].
  destruct (H x ltac:(set_solver)) as [Hr Hz]. apply IH; [|done|].
  - apply Forall_lookup_2. intros k z Hk. destruct (decide (k = Z.to_nat x)) as [->|].
    + rewrite list_lookup_alter_eq in Hk. rewrite nth_lookup in Hz. destruct (l !! Z.to_nat x) as [y|]; [|done]. cbn in *. injection Hk as <-. right. lia.
    + rewrite list_lookup_alter_ne in Hk by done. by apply (Forall_lookup_1 _ _ _ _ HF Hk).
  - intros b Hb. rewrite length_alter. destruct (H b ltac:(set_solver)) as [Hbr Hbz]. split; [done|]. rewrite nth_count_alter, decide_False by (lia || intros E; destruct Hx; by replace x with b by lia). done.
Qed.

Definition blocks_ok (sb : superblock) (inodes : list dinode) (bs : list Z) : Prop :=
  all_refs image inodes = Some bs /\ NoDup bs /\ (forall b, b ∈ bs -> sb_bmapstart sb < b < sb_size sb) /\
  (sb_bmapstart sb < sb_size sb /\ 1000 <= sb_size sb) /\
  (forall b, 0 <= b < 1000 -> exists v, image (sb_bmapstart sb * 512 + b / 8) = Some v /\
    Z.testbit v (b mod 8) = bool_decide (b <= sb_bmapstart sb \/ b ∈ bs)).

(** The marks of all blocks, and the comparison with the bitmap. *)
Lemma marks_reserved_iff bm n bs l :
  0 <= bm < n -> marks bs (reserved bm n) = Some l <->
  NoDup bs /\ (forall b, b ∈ bs -> bm < b < n) /\ l = foldl (fun u x => alter (fun y => y + 1) (Z.to_nat x) u) (reserved bm n) bs.
Proof.
  intros Hn. rewrite marks_iff, length_reserved by (done || (eapply Forall_impl; [apply reserved_bits|]; cbn; lia)).
  split; intros (ND & H & ->); (split_and!; [done| |done]); intros b Hb; specialize (H b Hb).
  - destruct H as [H1 H2]. rewrite reserved_nth in H2 by done. destruct (decide (b <= bm)); [done|lia].
  - rewrite reserved_nth, decide_False by lia. lia.
Qed.
Lemma marked_reserved bm n bs b :
  0 <= bm < n -> NoDup bs -> (forall b, b ∈ bs -> bm < b < n) -> 0 <= b < n ->
  (nth (Z.to_nat b) (foldl (fun u x => alter (fun y => y + 1) (Z.to_nat x) u) (reserved bm n) bs) 0 =? 1) = bool_decide (b <= bm \/ b ∈ bs).
Proof.
  intros Hn ND H Hb. pose proof (length_reserved bm n Hn). rewrite marked_nth by (done || lia || (intros c Hc; specialize (H c Hc); lia)).
  rewrite reserved_nth, Z2Nat.id by lia. destruct (decide (b <= bm)), (decide (b ∈ bs)) as [Hin|Hin].
  - specialize (H b Hin). lia.
  - by rewrite bool_decide_eq_true_2 by auto.
  - by rewrite bool_decide_eq_true_2 by auto.
  - by rewrite bool_decide_eq_false_2 by naive_solver.
Qed.
Lemma length_marked bs l : length (foldl (fun (u : list Z) x => alter (fun y => y + 1) (Z.to_nat x) u) l bs) = length l.
Proof. revert l. induction bs as [|x bs IH]; intros l; [done|]. cbn. by rewrite IH, length_alter. Qed.

Variable malloc : Z -> list Z.
Hypothesis malloc_zero : forall n, malloc n = zeroed n.

Lemma check_bitmap_iff s :
  0 <= sb_bmapstart (x_sb s) ->
  (exists r, check_bitmap image malloc s = Done r) <-> exists bs, blocks_ok (x_sb s) (x_inodes s) bs.
Proof.
  intros Hbm. set (bm := sb_bmapstart (x_sb s)) in *. set (n := sb_size (x_sb s)).
  assert (check_bitmap image malloc s = if bm <? Z.of_nat (length (zeroed n)) then
    bind (mark_add image (x_inodes s)) (fun _ => let! sb := gets x_sb in check_bytes image 125 0 (sb_bmapstart sb * 512)) (set_inuse_block (reserved bm n) s) else Fault) as ->.
  { unfold check_bitmap, mark_used_blocks, mark_eserved_blocks, bind, modify, gets. rewrite malloc_zero. cbn [x_sb inuse_block set_inuse_block x_inodes].
    fold n bm. destruct (bm <? _); [|done]. cbn [x_inodes set_inuse_block]. done. }
  assert (Z.of_nat (length (zeroed n)) = Z.max 0 n) as -> by (unfold zeroed; rewrite length_replicate; lia).
  destruct (Z.ltb_spec bm (Z.max 0 n)) as [Hlt|Hlt]; [|split; [by intros [r ?]|]; intros (bs & _ & _ & _ & [? _] & _); unfold bm, n in *; lia].
  assert (0 <= bm < n) as Hn by lia. split.
  - intros [r (a & s1 & (bs & l & Hall & Hm & [= -> ->])%marking_add & Hb)%bind_iff]. cbn [inuse_block set_inuse_block] in Hm.
    apply marks_reserved_iff in Hm as (ND & Hin & ->); [|done]. unfold bind, gets in Hb. cbn [x_sb set_inuse_block] in Hb. fold bm in Hb.
    apply check_bytes_iff in Hb as [Hb _].
    2:{ cbn [inuse_block set_inuse_block]. apply marked_bits; [apply reserved_bits|done|]. intros b Hb'. specialize (Hin b Hb').
        rewrite length_reserved, reserved_nth, decide_False by lia. lia. }
    cbn [inuse_block set_inuse_block] in Hb. apply bytes_agree_iff in Hb as [Hsz Hb]. rewrite length_marked, length_reserved in Hsz by done.
    exists bs. split_and!; [done|done|done|unfold bm, n in *; lia|unfold bm, n in *; lia|]. intros b Hbr. destruct (Hb b Hbr) as (v & Hv & Ht). exists v. split; [done|]. rewrite Ht. apply marked_reserved; (done || lia).
  - intros (bs & Hall & ND & Hin & [_ Hsz] & Hb). fold bm in Hin, Hsz, Hb. fold n in Hin, Hsz, Hb. set (l := foldl (fun u x => alter (fun y => y + 1) (Z.to_nat x) u) (reserved bm n) bs).
    exists (tt, set_inuse_block l s). apply bind_iff. exists tt, (set_inuse_block l s). split.
    { apply marking_add. exists bs, l. split_and!; [done| |done]. by apply marks_reserved_iff. }
    unfold bind, gets. cbn [x_sb set_inuse_block]. fold bm. apply check_bytes_iff.
    { apply marked_bits; [apply reserved_bits|done|]. intros b Hb'. specialize (Hin b Hb'). rewrite length_reserved, reserved_nth, decide_False by lia. lia. }
    split; [|done]. change (inuse_block (set_inuse_block l s)) with l. apply bytes_agree_iff. unfold l. rewrite length_marked, length_reserved by done. split; [done|].
    intros b Hbr. destruct (Hb b Hbr) as (v & Hv & Ht). exists v. split; [done|]. rewrite Ht. symmetry. apply marked_reserved; (done || lia).
Qed.

Lemma get_int_pos p z : get_int_from_mem image p = Some z -> 0 <= z.
Proof.
  unfold get_int_from_mem. destruct (image p) as [b0|], (image (p + 1)) as [b1|], (image (p + 2)) as [b2|], (image (p + 3)) as [b3|]; try done.
  cbn. intros [= <-]. assert (forall b, 0 <= Z.land b 255) as H by (intros b; apply Z.land_nonneg; lia).
  rewrite !Z.lor_nonneg, !Z.shiftl_nonneg. auto.
Qed.
Lemma read_super_block_pos sb : read_super_block image 512 = Some sb -> 0 <= sb_bmapstart sb /\ 0 <= sb_ninodes sb.
Proof.
  unfold read_super_block. destruct (get_int_from_mem image 512) as [a|], (get_int_from_mem image (512 + 4)) as [b|],
    (get_int_from_mem image (512 + 8)) as [c|] eqn:Ec, (get_int_from_mem image (512 + 20)) as [d|], (get_int_from_mem image (512 + 24)) as [e|] eqn:Ee; try done.
  cbn. intros [= <-]. cbn. split; by eapply get_int_pos.
Qed.
Lemma read_inode_addrs p x : read_inode image p = Some x -> length (d_addrs x) = 13%nat.
Proof.
  unfold read_inode. destruct (get_short_from_mem image p), (get_short_from_mem image (p + 2)), (get_short_from_mem image (p + 4)),
    (get_short_from_mem image (p + 6)), (get_int_from_mem image (p + 8)); try done. cbn [mbind option_bind].
  destruct (mapM _ (seqZ 0 13)) as [l|] eqn:E; [|done]. intros [= <-]. cbn [d_addrs]. apply length_mapM in E. done.
Qed.

(** The first two checks. *)
Lemma initial_use_nth inodes n k x :
  inodes !! k = Some x -> (k < n)%nat ->
  nth k (initial_use (replicate n 0) inodes) 0 = if d_type x =? T_UNLOCATED then 0 else 1.
Proof. intros Hx Hk. unfold initial_use. rewrite nth_lookup, lookup_zip_with, lookup_replicate_2, Hx by done. done. Qed.
Lemma check_inodes_iff s :
  Forall (fun x => length (d_addrs x) = 13%nat) (x_inodes s) ->
  inuse_inode s = initial_use (replicate (length (x_inodes s)) 0) (x_inodes s) ->
  let n := Z.of_nat (length (x_inodes s)) in
  forall r, check_inodes image s = Done r <->
    (forall k x, x_inodes s !! k = Some x -> inode_ok (sb_size (x_sb s)) (Z.of_nat k) n x /\ refs image (x_inodes s) (Z.of_nat k) = wanted (Z.of_nat k) x) /\
    r = (tt, set_inuse_inode (each_use 0 (x_inodes s) (inuse_inode s)) s).
Proof.
  intros HL Hu n r. assert (length (inuse_inode s) = length (x_inodes s)) as Hlen.
  { rewrite Hu. unfold initial_use. rewrite length_zip_with, length_replicate. lia. }
  unfold check_inodes. unfold bind at 1, gets at 1. rewrite bind_iff. setoid_rewrite (check_each_iff (x_inodes s) 0 s _ HL); [|lia|lia].
  set (u := each_use 0 (x_inodes s) (inuse_inode s)). unfold bind, gets. rewrite Hlen. fold n.
  assert ((forall k x, x_inodes s !! k = Some x -> inode_ok (sb_size (x_sb s)) (Z.of_nat k) n x) ->
    Forall (fun p => if d_type p.1 =? T_UNLOCATED then p.2 <= 0 else p.2 = 1) (zip (x_inodes s) u) <->
    forall k x, x_inodes s !! k = Some x -> refs image (x_inodes s) (Z.of_nat k) = wanted (Z.of_nat k) x) as Hcount.
  { intros Hok. rewrite Forall_lookup.
    assert (forall k x, x_inodes s !! k = Some x -> u !! k = Some ((if d_type x =? T_UNLOCATED then 0 else 1) + refs image (x_inodes s) (Z.of_nat k) - wanted (Z.of_nat k) x)) as Hk.
    { intros k x Hk. pose proof (lookup_lt_Some _ _ _ Hk) as Hlt.
      destruct (lookup_lt_is_Some_2 u k) as [z Ez]; [unfold u; rewrite length_each_use; lia|]. rewrite Ez. f_equal.
      assert (nth k u 0 = z) as <- by (rewrite nth_lookup, Ez; done). unfold u.
      rewrite (each_use_nth _ _ _ n) by (lia || (intros j y Hj; by apply (Hok j y Hj))).
      rewrite Hu, (initial_use_nth _ _ _ x) by done. pose proof (own_use_lookup 0 _ _ _ Hk) as Ho. rewrite Z.add_0_l in Ho. by rewrite Ho. }
    split.
    - intros H k x Hx. pose proof (Hk k x Hx) as Hz. set (z := _ - wanted _ _) in Hz. specialize (H k (x, z)). rewrite lookup_zip_with, Hx, Hz in H.
      specialize (H eq_refl). cbn [fst snd] in H. unfold z in H.
      pose proof (refs_pos (x_inodes s) (Z.of_nat k)). unfold wanted in *. destruct (d_type x =? T_UNLOCATED); cbn [orb] in *; lia.
    - intros H k [x z] Hz. apply lookup_zip_with_Some in Hz as (x' & z' & [= -> ->] & Hx & Hz). rewrite (Hk k _ Hx) in Hz. injection Hz as <-. cbn [fst snd].
      rewrite (H k x' Hx). destruct (d_type x' =? T_UNLOCATED); lia. }
  split.
  - intros (a & s1 & [Hok [= -> ->]] & [HF ->]%check_counts_iff). split; [|done]. intros k x Hx. split; [by apply (Hok k)|]. revert k x Hx. by apply Hcount.
  - intros [H ->]. exists tt, (set_inuse_inode u s). split; [split; [intros k x Hx; by apply H|done]|]. apply check_counts_iff. split; [|done].
    apply Hcount; intros k x Hx; by apply H.
Qed.

Lemma Forall_mapM_inodes base ks inodes : mapM (fun i => read_inode image (base + i * 64)) ks = Some inodes -> Forall (fun x => length (d_addrs x) = 13%nat) inodes.
Proof.
  intros H. apply Forall_lookup_2. intros k x Hk. apply mapM_Some in H. destruct (Forall2_lookup_r _ _ _ _ _ H Hk) as (i & _ & Hx). by eapply read_inode_addrs.
Qed.
Lemma accepts_parts sb inodes bs :
  accepts image sb inodes bs <->
  read_super_block image 512 = Some sb /\
  mapM (fun i => read_inode image (sb_inodestart sb * 512 + i * 64)) (seqZ 0 (sb_ninodes sb)) = Some inodes /\
  (forall k x, inodes !! k = Some x -> inode_ok (sb_size sb) (Z.of_nat k) (sb_ninodes sb) x /\ refs image inodes (Z.of_nat k) = wanted (Z.of_nat k) x) /\
  blocks_ok sb inodes bs.
Proof.
  split.
  - intros [H1 H2 H3 H4 H5 H6 H7 H8 H9 [H10 H10'] H11]. split_and!; [done|done| |unfold blocks_ok; by split_and!]. intros k x Hk. rewrite Forall_lookup in H3, H4.
    split; [split_and!; [by apply (H3 k)|by apply (H4 k)|by apply (H5 k)]|by apply H6].
  - intros (H1 & H2 & H3 & H4 & H5 & H6 & H7 & H8). split; try done; try (apply Forall_lookup_2); intros k x Hk; by apply (H3 k x Hk).
Qed.
End accept_iff.

(** Property C22: with memory that [malloc] returns zeroed, the checker returns
    0 exactly for the images that satisfy [accepts]. In it integers are decoded
    and directories read (up to the first entry without inode) as the checker
    does, which is not always what fs.c finds. Types are known, no
    address lies behind the end, the entries of directories name inodes of the
    table and their dots are right, an inode in use is named once (the root not
    at all) and a free one not at all, no block is referred to twice or lies
    among the blocks in front of the data, and the bitmap has the bits
    of the blocks in use and no others. *)
Theorem xcheck_accepts image malloc :
  (forall n, malloc n = zeroed n) ->
  (exists s, check image malloc xc_start = Done (0, s)) <-> exists sb inodes bs, accepts image sb inodes bs.
Proof.
  intros Hz. setoid_rewrite accepts_parts. unfold check. unfold construct_super_block. unfold bind at 1 2, need_read at 1.
  destruct (read_super_block image 512) as [sb|] eqn:Esb; [|split; [by intros [s ?]|by intros (? & ? & ? & ? & _)]].
  destruct (read_super_block_pos _ _ Esb) as [Hbm Hni].
  unfold modify at 1, construct_inodes, bind at 1 2 3, gets at 1, need_read at 1. cbn [x_sb].
  destruct (mapM _ (seqZ 0 (sb_ninodes sb))) as [inodes|] eqn:Ein.
  2:{ split; [by intros [s ?]|]. intros (sb' & inodes' & bs & [= <-] & H & _). congruence. }
  pose proof (length_mapM _ _ _ Ein) as Hlen. rewrite length_seqZ in Hlen. unfold modify at 1.
  set (s1 := {| x_sb := _; x_inodes := inodes; inuse_inode := _; inuse_block := _ |}).
  pose proof (check_inodes_iff image s1) as Hci. cbn zeta in Hci. change (x_inodes s1) with inodes in Hci. change (x_sb s1) with sb in Hci.
  replace (Z.of_nat (length inodes)) with (sb_ninodes sb) in Hci by lia.
  specialize (Hci ltac:(apply (Forall_mapM_inodes _ _ _ _ Ein))).
  specialize (Hci ltac:(unfold s1; cbn [inuse_inode]; rewrite Hz; unfold zeroed; by rewrite Hlen)).
  assert (forall s, x_sb s = sb -> x_inodes s = inodes ->
    (exists s', bind (check_bitmap image malloc) (fun _ => ret 0) s = Done (0, s')) <-> exists bs, blocks_ok image sb inodes bs) as Hcb.
  { intros s <- <-. rewrite <-(check_bitmap_iff image malloc Hz) by done. split; [intros (s' & (a & s2 & H & _)%bind_iff); by exists (a, s2)|].
    intros [[a s'] H]. exists s'. apply bind_iff. by exists a, s'. }
  split.
  - intros (s & (a & s2 & H & Hb)%bind_iff). apply Hci in H as [Hok [= -> ->]]. destruct (proj1 (Hcb (set_inuse_inode _ s1) eq_refl eq_refl) (ex_intro _ _ Hb)) as [bs Hbs].
    by exists sb, inodes, bs.
  - intros (sb' & inodes' & bs & [= <-] & Hin & Hok & Hbs). rewrite Ein in Hin. injection Hin as <-.
    destruct (proj2 (Hcb (set_inuse_inode (each_use image 0 inodes (inuse_inode s1)) s1) eq_refl eq_refl) (ex_intro _ _ Hbs)) as [s' Hs'].
    exists s'. apply bind_iff. exists tt. eexists. split; [|exact Hs']. by apply Hci.
Qed.

(** The image of two files that [mkfs] makes. *)
Definition two_image : gmap Z (list Z) := match mkfs_main (host_files two_files) mk_start with Done (_, s) => img s | _ => ∅ end.
Lemma xcheck_accepts_witness : exists sb inodes bs, accepts (mapped two_image) sb inodes bs.
Proof. apply (xcheck_accepts (mapped two_image) zeroed); [reflexivity|]. eexists. vm_compute. reflexivity. Defined.

Definition verdict (o : outcome (Z * xc)) : outcome Z := match o with Done (z, _) => Done z | Panic m => Panic m | Fault => Fault | Asleep => Asleep end.
Definition xcheck (m : gmap Z (list Z)) : outcome Z := verdict (check (mapped m) zeroed xc_start).
Definition poke (m : gmap Z (list Z)) (b : Z) (off : nat) (bytes : list Z) : gmap Z (list Z) := alter (fun d => splice d off bytes) b m.

(** An error of each kind, made in the image of two files. Inode 2 is at
    offset 128 of block 32, the root's entries are in block 59. *)
Lemma xcheck_errors :
  xcheck two_image = Done 0 /\
  xcheck (poke two_image 32 128 [7]) = Panic "ERROR: bad inode." /\
  xcheck (poke two_image 32 140 [233; 3]) = Panic "ERROR: bad direct address in inode" /\
  xcheck (poke two_image 32 188 [233; 3]) = Panic "ERROR: bad indirect address in inode" /\
  xcheck (poke two_image 59 16 [2]) = Panic "ERROR: root directory does not exist." /\
  xcheck (poke two_image 59 0 [2]) = Panic "ERROR: directory not properly formatted." /\
  xcheck (poke two_image 32 128 [0]) = Panic "ERROR: inode referred to in directory but marked free." /\
  xcheck (poke two_image 59 32 [3]) = Panic "ERROR: bad reference count for file." /\
  xcheck (poke two_image 32 140 [59]) = Panic "ERROR: direct address used more than once." /\
  xcheck (poke two_image 58 7 [3]) = Panic "ERROR: address used by inode but marked free in bitmap." /\
  xcheck (poke two_image 58 8 [255]) = Panic "ERROR: bitmap marks block in use but it is not in use.".
Proof. vm_compute. done. Qed.

(** An address that is the size of the image passes the check of addresses and
    is used as index behind the end of the counters. *)
Lemma address_of_size_passes : xcheck (poke two_image 32 140 [232; 3]) = Fault.
Proof. vm_compute. done. Qed.
(** Numbers from 65536 on are read wrong. *)
Lemma big_int_wrong : get_int_from_mem (fun p => nth_error (le_split 4 65536) (Z.to_nat p)) 0 = Some 256.
Proof. reflexivity. Qed.
(** When the first file of the directory has been removed, as the kernel's
    [unlink] does it, the files behind it are not seen. *)
Lemma removed_entry_hides_rest :
  xcheck (poke (poke (poke two_image 59 32 (replicate 16 0)) 32 128 (replicate 64 0)) 58 7 [15]) = Panic "ERROR: bad reference count for file.".
Proof. vm_compute. done. Qed.
(** Memory that is not zeroed makes it refuse a good image. *)
Lemma junk_refuses : verdict (check (mapped two_image) (fun n => replicate (Z.to_nat n) 1) xc_start) = Panic "ERROR: inode referred to in directory but marked free.".
Proof. vm_compute. done. Qed.
