(* ===== verification/Wish.v ===== *)
(** * Wish: the course's shell (P2a/wish.c)

    Strings are lists of bytes without 0. The state has the globals of the
    program, the place where [strtok] will go on, and what the program has
    done so far; the system's answers ([fork], [access], [execvp], [chdir])
    are parameters that may depend on that. A write behind the end of an
    array of the shell is a fault. *)

From stdpp Require Import base list numbers strings sets.
From S2P Require Import Prelude.

Local Open Scope Z_scope.
Local Open Scope os_scope.

Abbreviation str := (list Z) (only parsing).
Definition chars (s : string) : str := (fun a => Z.of_nat (Ascii.nat_of_ascii a)) <$> String.list_ascii_of_string s.

(** What becomes of a child: no program is found, [program_path] overflows,
    [execvp] fails, or the program runs, with its output in a file or not. *)
Inductive child := NotFound | Overflow | ExecFailed | Runs (path : str) (args : list str) (out : option (option str)).
Inductive event := Out (s : str) | ErrorMessage | Child (pid : Z) (c : child) | Wait (pid : Z) | Chdir (dir : str).

Record ws := { w_path : list str; redirect : bool; redirect_file : option str; w_saved : str; w_trace : list event }.
Definition set_redirect (b : bool) (s : ws) : ws :=
  {| w_path := w_path s; redirect := b; redirect_file := redirect_file s; w_saved := w_saved s; w_trace := w_trace s |}.
Definition set_redirect_file (f : option str) (s : ws) : ws :=
  {| w_path := w_path s; redirect := true; redirect_file := f; w_saved := w_saved s; w_trace := w_trace s |}.
Definition set_saved (r : str) (s : ws) : ws :=
  {| w_path := w_path s; redirect := redirect s; redirect_file := redirect_file s; w_saved := r; w_trace := w_trace s |}.
Definition set_path (p : list str) (s : ws) : ws :=
  {| w_path := p; redirect := redirect s; redirect_file := redirect_file s; w_saved := w_saved s; w_trace := w_trace s |}.
Definition emit (e : event) : M ws unit := modify (fun s =>
  {| w_path := w_path s; redirect := redirect s; redirect_file := redirect_file s; w_saved := w_saved s; w_trace := w_trace s ++ [e] |}).

(** ** [strtok] *)
Fixpoint skip_delims (ds : list Z) (s : str) : str :=
  match s with c :: s' => if bool_decide (c ∈ ds) then skip_delims ds s' else s | [] => [] end.
(** The token, and the string behind the delimiter that ends it. *)
Fixpoint cut_token (ds : list Z) (s : str) : str * str :=
  match s with
  | [] => ([], [])
  | c :: s => if bool_decide (c ∈ ds) then ([], s) else let '(t, r) := cut_token ds s in (c :: t, r)
  end.
Definition strtok (s : option str) (ds : list Z) : M ws (option str) :=
  let! saved := gets w_saved in
  match skip_delims ds (default saved s) with
  | [] => modify (set_saved []);;; ret None
  | s => let '(t, r) := cut_token ds s in modify (set_saved r);;; ret (Some t)
  end.

(** The tokens of a string, in an array of 10 that ends with [NULL]. *)
Fixpoint more_tokens (fuel : nat) (i : Z) (ds : list Z) : M ws (list str) :=
  match fuel with
  | O => fault
  | S fuel =>
      let! token := strtok None ds in
      if 10 <=? i then fault
      else match token with None => ret [] | Some t => let! l := more_tokens fuel (i + 1) ds in ret (t :: l) end
  end.
Definition tokens (s : option str) (ds : list Z) : M ws (list str) :=
  let! token := strtok s ds in
  match token with None => ret [] | Some t => let! l := more_tokens 10 1 ds in ret (t :: l) end.

(** ** Commands *)
Definition isspace (c : Z) : bool := (c =? 32) || ((9 <=? c) && (c <=? 13)).
Fixpoint skip_space (s : str) : str := match s with c :: s' => if isspace c then skip_space s' else s | [] => [] end.
Definition strtrim (s : str) : str := rev (skip_space (rev (skip_space s))).

Definition AMP : Z := 38.
Definition GT : Z := 62.
Definition NL : Z := 10.
Definition BLANK : Z := 32.

(** What [strtok(buffer, ">")] leaves in [buffer]: the delimiters in front of
    the token, and the token. *)
Fixpoint leading (d : Z) (s : str) : str := match s with c :: s' => if c =? d then c :: leading d s' else [] | [] => [] end.
(** Returns the contents of the buffer afterwards. *)
Definition check_redirect (buffer : str) : M ws str :=
  let! token := strtok (Some buffer) [GT] in
  let buffer := leading GT buffer ++ default [] token in
  let! token := strtok None [] in
  match token with
  | None => modify (set_redirect false)
  | Some token =>
      let! token := strtok (Some token) [NL] in
      match token with
      | None => modify (set_redirect_file None)
      | Some token => modify (set_redirect_file (Some (strtrim token)))
      end
  end;;;
  ret buffer.
Definition parse_command (buffer : str) : M ws (list str) :=
  let! buffer := strtok (Some buffer) [NL] in
  tokens buffer [BLANK].

Definition show_error : M ws unit := emit ErrorMessage.

Section wish.
(** The system: the result of [fork], which names can be executed, where
    [execvp] and [chdir] succeed; and what memory holds behind the block of
    a directory of the path, and behind the prompt. *)
Variable fork : list event -> Z.
Variable access execvp chdir : list event -> str -> bool.
Variable behind : str -> str.
Variable behind_prompt : str.

(** [None]: the shell exits. *)
Definition run_exit (program : list str) : M ws (option unit) :=
  match program with _ :: _ :: _ => show_error;;; ret (Some tt) | _ => ret None end.
Definition run_cd (program : list str) : M ws unit :=
  match program with
  | [_; dir] =>
      let! tr := gets w_trace in
      if chdir tr dir then emit (Chdir dir) else show_error
  | _ => show_error
  end.
(** The names are copied without their 0, so what is behind them belongs to
    them. At most 8 are given, which fit. *)
Definition run_path (program : list str) : M ws unit := modify (set_path ((fun d => d ++ behind d) <$> tail program)).
Definition run_built_in_command (program : list str) : M ws (option unit) :=
  let name := hd [] program in
  if bool_decide (name = chars "exit") then run_exit program
  else if bool_decide (name = chars "cd") then run_cd program;;; ret (Some tt)
  else if bool_decide (name = chars "path") then run_path program;;; ret (Some tt)
  else ret (Some tt).

(** The child of [run_program]. *)
Fixpoint search (tr : list event) (path : list str) (name : str) : option (option str) :=
  match path with
  | [] => Some None
  | d :: path =>
      let program_path := d ++ chars "/" ++ name in
      if 50 <=? Z.of_nat (length program_path) then None
      else if access tr program_path then Some (Some program_path) else search tr path name
  end.
Definition child_of (s : ws) (program : list str) : child :=
  match search (w_trace s) (w_path s) (hd [] program) with
  | None => Overflow
  | Some None => NotFound
  | Some (Some p) => if execvp (w_trace s) p then Runs p program (if redirect s then Some (redirect_file s) else None) else ExecFailed
  end.
Definition run_program (program : list str) : M ws Z :=
  let! tr := gets w_trace in
  let pid := fork tr in
  if pid <? 0 then show_error;;; ret (-1)
  else
    let! c := gets (fun s => child_of s program) in
    emit (Child pid c);;;
    ret pid.

Definition bad_redirect (s : ws) : bool :=
  redirect s && match redirect_file s with None => true | Some f => bool_decide (BLANK ∈ f) end.
Definition built_in (name : str) : bool :=
  bool_decide (name = chars "exit") || bool_decide (name = chars "cd") || bool_decide (name = chars "path").
(** [None]: the shell has exited. *)
Definition run_words (program : list str) : M ws (option Z) :=
  let! bad := gets bad_redirect in
  if (bad : bool) then show_error;;; ret (Some (-1))
  else
    match program with
    | [] => ret (Some (-1))
    | name :: _ =>
        if built_in name then
          let! r := run_built_in_command program in
          ret (match r with None => None | Some _ => Some (-1) end)
        else let! pid := run_program program in ret (Some pid)
    end.
Definition handle_command (buffer : str) : M ws (option Z) :=
  let! buffer := check_redirect buffer in
  let! program := parse_command buffer in
  run_words program.

(** The second and the third loop of [handle_parallel_command]. *)
Fixpoint run_all (commands : list str) : M ws (option (list Z)) :=
  match commands with
  | [] => ret (Some [])
  | c :: commands =>
      if 50 <=? Z.of_nat (length c) + 1 then fault
      else
        let! pid := handle_command (c ++ [NL]) in
        match pid with
        | None => ret None
        | Some pid => let! pids := run_all commands in ret (match pids with None => None | Some pids => Some (pid :: pids) end)
        end
  end.
Fixpoint wait_all (pids : list Z) : M ws unit :=
  match pids with [] => ret tt | pid :: pids => (if negb (pid =? -1) then emit (Wait pid) else ret tt);;; wait_all pids end.
Definition handle_parallel_command (buffer : str) : M ws (option unit) :=
  let! commands := tokens (Some buffer) [AMP] in
  let! pids := run_all commands in
  match pids with None => ret None | Some pids => wait_all pids;;; ret (Some tt) end.

(** ** The two modes; the input is given by its lines. *)
Definition prompt : M ws unit := emit (Out (chars "wish> " ++ behind_prompt)).
Fixpoint interactive_loop (lines : list str) : M ws Z :=
  match lines with
  | [] => ret 0
  | buffer :: lines =>
      let! r := handle_parallel_command buffer in
      match r with None => ret 0 | Some _ => prompt;;; interactive_loop lines end
  end.
Definition run_interactive_mode (lines : list str) : M ws Z := prompt;;; interactive_loop lines.
Fixpoint batch_loop (lines : list str) : M ws Z :=
  match lines with
  | [] => ret 0
  | buffer :: lines =>
      let! r := handle_parallel_command buffer in
      match r with None => ret 0 | Some _ => batch_loop lines end
  end.
Definition run_batch_mode (file : option (list str)) : M ws Z :=
  match file with None => show_error;;; ret 1 | Some lines => batch_loop lines end.
(** [main] with the arguments behind its name: the exit status. *)
Definition wish_main (args : list (option (list str))) (stdin : list str) : M ws Z :=
  modify (set_path [chars "/bin"]);;;
  match args with
  | [] => run_interactive_mode stdin
  | [file] => run_batch_mode file
  | _ => show_error;;; ret 1
  end.
End wish.
Definition wish_start : ws := {| w_path := []; redirect := false; redirect_file := None; w_saved := []; w_trace := [] |}.

(** ** Fields *)

(** The fields of a string: its longest parts without delimiters. *)
Fixpoint split (ds : list Z) (s : str) : str * list str :=
  match s with
  | [] => ([], [])
  | c :: s => let '(t, l) := split ds s in if bool_decide (c ∈ ds) then ([], t :: l) else (c :: t, l)
  end.
Definition fields (ds : list Z) (s : str) : list str := filter (fun t => t <> []) ((split ds s).1 :: (split ds s).2).

Lemma fields_delim ds c s : c ∈ ds -> fields ds (c :: s) = fields ds s.
Proof. intros Hc. unfold fields. cbn [split]. destruct (split ds s) as [t l]. rewrite bool_decide_eq_true_2 by done. cbn [fst snd]. by rewrite filter_cons_False by naive_solver. Qed.
Lemma fields_skip ds s : fields ds (skip_delims ds s) = fields ds s.
Proof. induction s as [|c s IH]; [done|]. cbn [skip_delims]. case_bool_decide as Hc; [|done]. by rewrite IH, fields_delim. Qed.
Lemma split_cut ds s : (split ds s).1 = (cut_token ds s).1 /\
  filter (fun t => t <> []) (split ds s).2 = fields ds (cut_token ds s).2.
Proof.
  induction s as [|c s IH]; [done|]. cbn [split cut_token]. destruct (split ds s) as [t l] eqn:E, (cut_token ds s) as [t' r] eqn:E'. cbn [fst snd] in *.
  case_bool_decide as Hc; cbn [fst snd]; [unfold fields; by rewrite E|]. destruct IH as [-> IH]. done.
Qed.
Lemma fields_cut ds c s : c ∉ ds -> fields ds (c :: s) = (cut_token ds (c :: s)).1 :: fields ds (cut_token ds (c :: s)).2.
Proof.
  intros Hc. destruct (split_cut ds (c :: s)) as [H1 H2]. unfold fields at 1. rewrite filter_cons_True, H1, H2; [done|].
  cbn [split]. destruct (split ds s). by rewrite bool_decide_eq_false_2.
Qed.
Lemma fields_app ds s s' : fields ds (s ++ s') = match s' with c :: s2 => if bool_decide (c ∈ ds) then fields ds s ++ fields ds s2 else fields ds (s ++ s') | [] => fields ds s end.
Proof.
  destruct s' as [|c s2]; [by rewrite app_nil_r|]. case_bool_decide as Hc; [|done].
  assert (forall x, (split ds (s ++ c :: x)).1 = (split ds s).1 /\ (split ds (s ++ c :: x)).2 = (split ds s).2 ++ (split ds x).1 :: (split ds x).2) as H.
  { intros x. induction s as [|a s IH]; cbn [app split].
    - destruct (split ds x). by rewrite bool_decide_eq_true_2 by done.
    - destruct (split ds s) as [t l], (split ds (s ++ c :: x)) as [t' l']. cbn [fst snd] in IH. destruct IH as [-> ->]. by case_bool_decide. }
  destruct (H s2) as [H1 H2]. unfold fields. rewrite H1, H2. change ((split ds s).1 :: (split ds s).2 ++ (split ds s2).1 :: (split ds s2).2) with
    (((split ds s).1 :: (split ds s).2) ++ ((split ds s2).1 :: (split ds s2).2)). apply filter_app.
Qed.
Lemma fields_word ds w : w <> [] -> Forall (fun c => c ∉ ds) w -> fields ds w = [w].
Proof.
  intros Hw HF. assert (split ds w = (w, [])) as E.
  { clear Hw. induction w as [|c w IH]; [done|]. apply Forall_cons in HF as [Hc HF]. cbn [split]. rewrite (IH HF). by rewrite bool_decide_eq_false_2. }
  unfold fields. rewrite E. cbn [fst snd]. by rewrite filter_cons_True.
Qed.

(** ** [strtok] gives the fields one after the other. *)
Lemma set_saved_set r r' s : set_saved r (set_saved r' s) = set_saved r s.
Proof. done. Qed.
Lemma strtok_run o ds s :
  exists r, strtok o ds s = Done (head (fields ds (default (w_saved s) o)), set_saved r s) /\ fields ds r = tail (fields ds (default (w_saved s) o)).
Proof.
  unfold strtok. unfold bind at 1, gets. set (x := default (w_saved s) o). rewrite <-(fields_skip ds x). clearbody x.
  assert (forall c y, skip_delims ds x = c :: y -> c ∉ ds) as Hs.
  { intros c y. induction x as [|a x IH]; [done|]. cbn [skip_delims]. case_bool_decide; [apply IH|]. by intros [= -> ->]. }
  destruct (skip_delims ds x) as [|c y]; [by exists []|]. rewrite fields_cut by (by eapply Hs). destruct (cut_token ds (c :: y)) as [t r]. by exists r.
Qed.
Lemma more_tokens_run fuel i ds s :
  0 <= i -> i + Z.of_nat (length (fields ds (w_saved s))) <= 9 -> (length (fields ds (w_saved s)) < fuel)%nat ->
  exists r, more_tokens fuel i ds s = Done (fields ds (w_saved s), set_saved r s).
Proof.
  revert i s. induction fuel as [|fuel IH]; intros i s Hi Hn Hf; [lia|]. cbn [more_tokens]. unfold bind at 1.
  destruct (strtok_run None ds s) as (r & E & Hr). cbn [default from_option] in E, Hr. change (from_option id (w_saved s) None) with (w_saved s) in *. rewrite E, (proj2 (Z.leb_gt _ _)) by lia.
  destruct (fields ds (w_saved s)) as [|t l]; cbn [head tail length] in *; [by exists r|].
  destruct (IH (i + 1) (set_saved r s)) as [r' E']; cbn [w_saved set_saved]; rewrite ?Hr; try lia. unfold bind. rewrite E'. cbn [w_saved set_saved]. rewrite Hr. by exists r'.
Qed.
Lemma tokens_run o ds s :
  (length (fields ds (default (w_saved s) o)) <= 9)%nat -> exists r, tokens o ds s = Done (fields ds (default (w_saved s) o), set_saved r s).
Proof.
  intros Hn. unfold tokens, bind at 1. destruct (strtok_run o ds s) as (r & E & Hr). rewrite E.
  destruct (fields ds (default (w_saved s) o)) as [|t l]; cbn [head tail length] in *; [by exists r|].
  destruct (more_tokens_run 10 1 ds (set_saved r s)) as [r' E']; cbn [w_saved set_saved]; rewrite ?Hr; try lia.
  unfold bind. rewrite E'. cbn [w_saved set_saved]. rewrite Hr. by exists r'.
Qed.

Ltac by_decide := refine (bool_decide_unpack _ _); vm_compute; exact I.

(** ** What the shell does, without its globals *)

(** A command is a text and, behind a [>], the text of a file name. [>]s that
    nothing comes before belong to the text. *)
Abbreviation cmd := (str * option str)%type (only parsing).
Fixpoint cut_gt (s : str) : cmd :=
  match s with
  | [] => ([], None)
  | c :: s => if c =? GT then ([], Some s) else let '(t, o) := cut_gt s in (c :: t, o)
  end.
Definition parse (s : str) : cmd :=
  let '(t, o) := cut_gt (drop (length (leading GT s)) s) in (leading GT s ++ t, o).
(** The commands of a line: what lies between [&]s and is not empty. *)
Definition line_cmds (txt : str) : list cmd := parse <$> fields [AMP] txt.

(** A line of a file: its text, and whether it ends with a newline, as all do
    but the last one, perhaps. *)
Definition line_of (l : str * bool) : str := l.1 ++ if l.2 then [NL] else [].
(** The line fits the arrays of the shell: nine commands of 47 bytes and nine
    words; with a newline behind a last [&] that newline counts as a command. *)
Definition legal_line (l : str * bool) : Prop :=
  (0 ∉ l.1) /\ (NL ∉ l.1) /\ (l.2 = false -> l.1 <> []) /\ (length (fields [AMP] (line_of l)) <= 9)%nat /\
  Forall (fun c => (length c <= 47)%nat /\ (length (fields [BLANK] (parse c).1) <= 9)%nat) (fields [AMP] l.1).

Section spec.
Variable fork : list event -> Z.
Variable access execvp chdir : list event -> str -> bool.
Variable behind : str -> str.

Definition target (t : str) : option str := if bool_decide (t = []) then None else Some (strtrim t).
Definition bad_target (o : option (option str)) : bool :=
  match o with None => false | Some None => true | Some (Some f) => bool_decide (BLANK ∈ f) end.

Definition abs_child (path : list str) (tr : list event) (program : list str) (out : option (option str)) : child :=
  match search access tr path (hd [] program) with
  | None => Overflow
  | Some None => NotFound
  | Some (Some p) => if execvp tr p then Runs p program out else ExecFailed
  end.
(** A command, from the path and the events so far: the process to wait for
    ([None] when the shell is to exit), and the path and the events then. *)
Definition abs_words (path : list str) (tr : list event) (words : list str) (out : option (option str)) : option Z * (list str * list event) :=
  match words with
  | [] => (Some (-1), (path, tr))
  | name :: args =>
      if bool_decide (name = chars "exit") then
        match args with [] => (None, (path, tr)) | _ => (Some (-1), (path, tr ++ [ErrorMessage])) end
      else if bool_decide (name = chars "cd") then
        match args with
        | [dir] => (Some (-1), (path, tr ++ [if chdir tr dir then Chdir dir else ErrorMessage]))
        | _ => (Some (-1), (path, tr ++ [ErrorMessage]))
        end
      else if bool_decide (name = chars "path") then (Some (-1), ((fun d => d ++ behind d) <$> args, tr))
      else if fork tr <? 0 then (Some (-1), (path, tr ++ [ErrorMessage]))
      else (Some (fork tr), (path, tr ++ [Child (fork tr) (abs_child path tr words out)]))
  end.
Definition abs_command (path : list str) (tr : list event) (c : cmd) : option Z * (list str * list event) :=
  let out := target <$> c.2 in
  if bad_target out then (Some (-1), (path, tr ++ [ErrorMessage])) else abs_words path tr (fields [BLANK] c.1) out.
(** The commands of a line: those to wait for. *)
Fixpoint abs_commands (path : list str) (tr : list event) (cs : list cmd) : option (list Z) * (list str * list event) :=
  match cs with
  | [] => (Some [], (path, tr))
  | c :: cs =>
      match abs_command path tr c with
      | (None, s) => (None, s)
      | (Some pid, (path, tr)) =>
          let '(r, s) := abs_commands path tr cs in (match r with None => None | Some pids => Some (pid :: pids) end, s)
      end
  end.
Definition waits (pids : list Z) : list event := Wait <$> filter (fun p => p <> -1) pids.
Definition abs_line (path : list str) (tr : list event) (cs : list cmd) : option unit * (list str * list event) :=
  match abs_commands path tr cs with
  | (None, s) => (None, s)
  | (Some pids, (path, tr)) => (Some tt, (path, tr ++ waits pids))
  end.
Fixpoint abs_lines (path : list str) (tr : list event) (ls : list (list cmd)) : list event :=
  match ls with
  | [] => tr
  | cs :: ls => match abs_line path tr cs with (None, (_, tr)) => tr | (Some _, (path, tr)) => abs_lines path tr ls end
  end.

(** *** Parsing *)
Lemma cut_token_none ds s : Forall (fun c => c ∉ ds) s -> cut_token ds s = (s, []).
Proof. induction s as [|c s IH]; intros HF; [done|]. apply Forall_cons in HF as [Hc HF]. cbn [cut_token]. by rewrite bool_decide_eq_false_2, (IH HF). Qed.
Lemma cut_token_app ds s d r : Forall (fun c => c ∉ ds) s -> d ∈ ds -> cut_token ds (s ++ d :: r) = (s, r).
Proof.
  intros HF Hd. induction s as [|c s IH]; cbn [app cut_token]; [by rewrite bool_decide_eq_true_2|].
  apply Forall_cons in HF as [Hc HF]. by rewrite bool_decide_eq_false_2, (IH HF).
Qed.
Lemma fields_none ds s : Forall (fun c => c ∉ ds) s -> fields ds s = match s with [] => [] | _ => [s] end.
Proof. intros HF. destruct s; [done|]. by apply fields_word. Qed.
Definition newlines (nls : str) : Prop := nls <> [] /\ Forall (fun c => c = NL) nls.
Lemma fields_newlines nls : newlines nls -> fields [NL] nls = [].
Proof. intros [_ HF]. induction nls as [|c nls IH]; [done|]. apply Forall_cons in HF as [-> HF]. rewrite fields_delim by set_solver. by apply IH. Qed.
Lemma fields_NL s nls : NL ∉ s -> newlines nls -> fields [NL] (s ++ nls) = match s with [] => [] | _ => [s] end.
Proof.
  intros Hs Hn. rewrite fields_app. pose proof (fields_newlines nls Hn) as Hf. destruct Hn as [Hne Hn]. destruct nls as [|c nls]; [done|].
  apply Forall_cons in Hn as [-> Hn]. rewrite bool_decide_eq_true_2 by set_solver. rewrite fields_delim in Hf by set_solver. rewrite Hf, app_nil_r.
  apply fields_none, Forall_forall. intros x Hx ->%list_elem_of_singleton. done.
Qed.

Definition with_target (out : option (option str)) (s : ws) : ws :=
  match out with None => set_redirect false s | Some f => set_redirect_file f s end.
Lemma with_target_saved out r s : with_target out (set_saved r s) = set_saved r (with_target out s).
Proof. by destruct out. Qed.

Lemma strtok_start s0 ds st : s0 <> [] -> Forall (fun c => c ∉ ds) (take 1 s0) -> strtok (Some s0) ds st = Done (Some (cut_token ds s0).1, set_saved (cut_token ds s0).2 st).
Proof.
  intros Hne HF. destruct s0 as [|c s0]; [done|]. apply Forall_cons in HF as [Hc _]. unfold strtok, bind at 1, gets. change (default (w_saved st) (Some (c :: s0))) with (c :: s0).
  cbn [skip_delims]. rewrite bool_decide_eq_false_2 by done. by destruct (cut_token ds (c :: s0)).
Qed.
Lemma leading_GT s : exists y, s = leading GT s ++ y /\ Forall (fun c => c = GT) (leading GT s) /\ Forall (fun c => c <> GT) (take 1 y).
Proof.
  induction s as [|c s (y & E & HF & Hy)]; [by exists []|]. cbn [leading]. destruct (Z.eqb_spec c GT) as [->|Hne].
  - exists y. split; [cbn; by rewrite <-E|]. split; [by constructor|done].
  - exists (c :: s). split; [done|]. split; [constructor|by repeat constructor].
Qed.
Lemma cut_gt_split s : let '(t, o) := cut_gt s in (GT ∉ t) /\ s = t ++ match o with None => [] | Some r => GT :: r end.
Proof.
  induction s as [|c s IH]; cbn [cut_gt]; [split; [apply not_elem_of_nil|done]|]. destruct (Z.eqb_spec c GT) as [->|Hne]; [split; [apply not_elem_of_nil|done]|].
  destruct (cut_gt s) as [t o]. destruct IH as [Ht ->]. split; [set_solver|done].
Qed.
(** How a command and its parts make up the string. *)
Lemma parse_split s : exists l t,
  (parse s).1 = l ++ t /\ Forall (fun c => c = GT) l /\ l = leading GT s /\ (GT ∉ t) /\ (t <> [] \/ (parse s).2 = None) /\
  s = l ++ t ++ match (parse s).2 with None => [] | Some r => GT :: r end.
Proof.
  destruct (leading_GT s) as (y & E & HF & Hy). unfold parse. set (l := leading GT s) in *. replace (drop (length l) s) with y by (rewrite E; by rewrite drop_app_length).
  pose proof (cut_gt_split y) as Hc. destruct (cut_gt y) as [t o]. destruct Hc as [Ht Ey]. exists l, t. cbn [fst snd]. split_and!; try done; [|by rewrite <-Ey].
  destruct t; [|by left]. destruct o; [|by right]. exfalso. rewrite Ey in Hy. cbn in Hy. by apply Forall_cons in Hy as [? _].
Qed.
Lemma strtok_skip l s0 ds st : Forall (fun c => c ∈ ds) l -> strtok (Some (l ++ s0)) ds st = strtok (Some s0) ds st.
Proof.
  intros HF. unfold strtok, bind, gets. change (default (w_saved st) (Some (l ++ s0))) with (l ++ s0). change (default (w_saved st) (Some s0)) with s0.
  assert (skip_delims ds (l ++ s0) = skip_delims ds s0) as ->; [|done]. induction HF as [|c l Hc _ IH]; [done|]. cbn [app skip_delims]. by rewrite bool_decide_eq_true_2.
Qed.
Lemma leading_app s nls : newlines nls -> leading GT (s ++ nls) = leading GT s.
Proof.
  intros [_ Hn]. induction s as [|c s IH]; cbn [app leading]; [|by rewrite IH]. destruct nls as [|c nls]; [done|]. by apply Forall_cons in Hn as [-> _].
Qed.

Lemma check_redirect_run s0 nls s :
  NL ∉ s0 -> newlines nls -> let c := parse s0 in
  exists r, check_redirect (s0 ++ nls) s = Done (c.1 ++ match c.2 with None => nls | Some _ => [] end, set_saved r (with_target (target <$> c.2) s)).
Proof.
  intros HNL Hn c. destruct (parse_split s0) as (l & t & E1 & HF & El & Ht & Hc & Es). fold c in E1, Hc, Es. rewrite E1.
  unfold check_redirect. unfold bind at 1. rewrite leading_app, <-El, Es, <-!app_assoc by done.
  rewrite strtok_skip by (eapply Forall_impl; [exact HF|]; intros ? ->; set_solver).
  assert (Forall (fun c => c ∉ [GT]) nls) as HGn by (eapply Forall_impl; [apply Hn|]; intros ? ->; set_solver).
  assert (Forall (fun c => c ∉ [GT]) t) as HG by (apply Forall_forall; intros x Hx ->%list_elem_of_singleton; done).
  set (o := c.2) in *. clearbody c. set (x := t ++ match o with None => [] | Some r => GT :: r end ++ nls).
  assert (x <> [] /\ Forall (fun c => c ∉ [GT]) (take 1 x)) as [Hx H1].
  { unfold x. destruct t as [|a t]; [destruct Hc as [?|Ho]; [done|]; rewrite Ho; destruct Hn; split; [done|by apply Forall_take]|].
    apply Forall_cons in HG as [Ha _]. split; [done|]. cbn. by apply Forall_cons. }
  rewrite strtok_start by done. cbn [default from_option id]. destruct o as [u|].
  - assert (cut_token [GT] x = (t, u ++ nls)) as -> by (unfold x; by apply cut_token_app; [|set_solver]). cbn [fst snd].
    assert (NL ∉ u) as Hu by (intros Hu; apply HNL; rewrite Es; set_solver).
    destruct (strtok_run None [] (set_saved (u ++ nls) s)) as (r1 & E1' & _). cbn [w_saved set_saved] in E1'. change (default (u ++ nls) None) with (u ++ nls) in E1'.
    rewrite fields_word in E1'; [|destruct Hn; by destruct u, nls|apply Forall_forall; set_solver]. unfold bind at 1 2. rewrite E1'. cbn [head].
    destruct (strtok_run (Some (u ++ nls)) [NL] (set_saved r1 s)) as (r2 & E2 & _). change (default (w_saved (set_saved r1 s)) (Some (u ++ nls))) with (u ++ nls) in E2.
    rewrite fields_NL in E2 by done. unfold bind at 1. rewrite set_saved_set, E2. exists r2. rewrite app_nil_r. unfold target. destruct u as [|a u]; done.
  - assert (cut_token [GT] x = (x, [])) as -> by (unfold x; apply cut_token_none, Forall_app; done). cbn [fst snd].
    destruct (strtok_run None [] (set_saved [] s)) as (r1 & E1' & _). cbn [w_saved set_saved] in E1'. change (head (fields [] (default [] None))) with (@None str) in E1'.
    unfold bind at 1 2. rewrite E1'. by exists r1.
Qed.

Lemma strtok_none o ds s : fields ds (default (w_saved s) o) = [] -> strtok o ds s = Done (None, set_saved [] s).
Proof.
  unfold strtok. unfold bind at 1, gets. set (x := default (w_saved s) o). rewrite <-(fields_skip ds x). clearbody x. intros Hf.
  assert (forall c y, skip_delims ds x = c :: y -> c ∉ ds) as Hs.
  { clear Hf. intros c y. induction x as [|a x IH]; [done|]. cbn [skip_delims]. case_bool_decide; [apply IH|]. by intros [= -> ->]. }
  destruct (skip_delims ds x) as [|c y]; [done|]. by rewrite fields_cut in Hf by (by eapply Hs).
Qed.
Lemma parse_command_run text b s :
  fields [NL] b = match text with [] => [] | _ => [text] end -> (length (fields [BLANK] text) <= 9)%nat ->
  exists r, parse_command b s = Done (fields [BLANK] text, set_saved r s).
Proof.
  intros Hb Hn. unfold parse_command. destruct text as [|a text].
  - exists []. unfold bind. rewrite strtok_none by done. unfold tokens, bind. by rewrite strtok_none.
  - destruct (strtok_run (Some b) [NL] s) as (r & E & _). change (default (w_saved s) (Some b)) with b in E. rewrite Hb in E. unfold bind at 1. rewrite E. cbn [head].
    destruct (tokens_run (Some (a :: text)) [BLANK] (set_saved r s) Hn) as [r' E']. rewrite E'. by exists r'.
Qed.

(** *** Running *)
Definition out_of (s : ws) : option (option str) := if redirect s then Some (redirect_file s) else None.
Definition view (s : ws) : list str * list event := (w_path s, w_trace s).
Lemma run_words_run words s :
  let a := if bad_target (out_of s) then (Some (-1), (w_path s, w_trace s ++ [ErrorMessage])) else abs_words (w_path s) (w_trace s) words (out_of s) in
  exists s', run_words fork access execvp chdir behind words s = Done (a.1, s') /\ view s' = a.2.
Proof.
  intros a. unfold run_words. unfold bind at 1, gets at 1. unfold a, out_of, bad_target, bad_redirect. clear a.
  destruct (redirect s) eqn:Er; cbn [andb]; [destruct (redirect_file s) as [f|] eqn:Ef; [destruct (bool_decide (BLANK ∈ f))|]|]; try by eexists.
  all: destruct words as [|name args]; [by eexists|]; unfold built_in, abs_words, run_built_in_command; cbn [hd].
  all: destruct (bool_decide (name = chars "exit")); cbn [orb]; [destruct args; by eexists|].
  all: destruct (bool_decide (name = chars "cd")); cbn [orb].
  1,3: destruct args as [|d [|? ?]]; first [by eexists|cbn [run_cd]; unfold bind, gets; destruct (chdir (w_trace s) d); by eexists].
  all: destruct (bool_decide (name = chars "path")); cbn [orb]; [by eexists|].
  all: unfold run_program, bind, gets; destruct (fork (w_trace s) <? 0); [by eexists|].
  all: eexists; (split; [done|]); unfold view, child_of, abs_child; cbn; by rewrite ?Er, ?Ef.
Qed.
Lemma out_of_target out s : out_of (with_target out s) = out.
Proof. by destruct out. Qed.

Lemma handle_command_run s0 nls s :
  NL ∉ s0 -> (length (fields [BLANK] (parse s0).1) <= 9)%nat -> newlines nls ->
  exists s', handle_command fork access execvp chdir behind (s0 ++ nls) s = Done ((abs_command (w_path s) (w_trace s) (parse s0)).1, s') /\
    view s' = (abs_command (w_path s) (w_trace s) (parse s0)).2.
Proof.
  intros HNL Hw Hn. destruct (check_redirect_run s0 nls s HNL Hn) as [r1 E1].
  assert (NL ∉ (parse s0).1) as Hp.
  { destruct (parse_split s0) as (l & t & E & _ & _ & _ & _ & Es). rewrite E. intros Hin. apply HNL. rewrite Es, app_assoc. set_solver. }
  set (c := parse s0) in *. clearbody c. unfold handle_command. unfold bind at 1. rewrite E1.
  destruct (parse_command_run c.1 (c.1 ++ match c.2 with None => nls | Some _ => [] end) (set_saved r1 (with_target (target <$> c.2) s))) as [r2 E2]; [|done|].
  { destruct (c.2); [|by apply fields_NL]. rewrite app_nil_r. apply fields_none, Forall_forall. intros x Hx ->%list_elem_of_singleton. done. }
  unfold bind at 1. rewrite E2, set_saved_set. set (s2 := set_saved r2 (with_target (target <$> c.2) s)).
  destruct (run_words_run (fields [BLANK] c.1) s2) as (s3 & E3 & V3). exists s3. rewrite E3, V3.
  assert (out_of s2 = target <$> c.2) as -> by apply (out_of_target (target <$> c.2) s).
  assert (w_path s2 = w_path s) as -> by (unfold s2; by destruct (target <$> c.2)). assert (w_trace s2 = w_trace s) as -> by (unfold s2; by destruct (target <$> c.2)).
  by split.
Qed.

(** *** Lines *)

(** The strings [cs] as commands, the last one with a newline, perhaps. *)
Definition ok_cmd (c : str) : Prop := (NL ∉ c) /\ (length c <= 47)%nat /\ (length (fields [BLANK] (parse c).1) <= 9)%nat.
Lemma run_all_cons c nls l s :
  ok_cmd c -> (nls = [] \/ nls = [NL]) -> let a := abs_command (w_path s) (w_trace s) (parse c) in
  exists s1, view s1 = a.2 /\ run_all fork access execvp chdir behind ((c ++ nls) :: l) s
    = match a.1 with
      | None => Done (None, s1)
      | Some pid => (let! pids := run_all fork access execvp chdir behind l in ret (match pids with None => None | Some pids => Some (pid :: pids) end)) s1
      end.
Proof.
  intros (HNL & Hlen & Hw) Hr a. destruct (handle_command_run c (nls ++ [NL]) s) as (s1 & E1 & V1); [done|done|destruct Hr as [->| ->]; (split; [done|by repeat constructor])|].
  rewrite app_assoc in E1. assert (length nls <= 1)%nat by (destruct Hr as [->| ->]; cbn; lia). exists s1. split; [done|]. cbn [run_all].
  rewrite (proj2 (Z.leb_gt _ _)) by (rewrite length_app; lia). unfold bind at 1. rewrite E1. fold a. by destruct (a.1).
Qed.
Lemma run_all_run cs x nls s :
  Forall ok_cmd (cs ++ [x]) -> (nls = [] \/ nls = [NL]) ->
  exists s', run_all fork access execvp chdir behind (cs ++ [x ++ nls]) s = Done ((abs_commands (w_path s) (w_trace s) (parse <$> cs ++ [x])).1, s') /\
    view s' = (abs_commands (w_path s) (w_trace s) (parse <$> cs ++ [x])).2.
Proof.
  intros HF Hnls. revert s. induction cs as [|c cs IH]; intros s; cbn [app] in *.
  { apply Forall_cons in HF as [Hx _]. destruct (run_all_cons x nls [] s Hx Hnls) as (s1 & V1 & E). exists s1. rewrite E. cbn [fmap list_fmap abs_commands].
    destruct (abs_command (w_path s) (w_trace s) (parse x)) as [[pid|] [p tr]]; by cbn. }
  apply Forall_cons in HF as [Hc HF]. destruct (run_all_cons c [] (cs ++ [x ++ nls]) s Hc (or_introl eq_refl)) as (s1 & V1 & E). rewrite app_nil_r in E. rewrite E.
  change (parse <$> c :: cs ++ [x]) with (parse c :: (parse <$> cs ++ [x])).
  cbn [abs_commands]. destruct (abs_command (w_path s) (w_trace s) (parse c)) as [[pid|] [p tr]]; cbn [fst snd] in *; [|by exists s1].
  injection V1 as <- <-. destruct (IH HF s1) as (s2 & E2 & V2). unfold bind. rewrite E2.
  destruct (abs_commands (w_path s1) (w_trace s1) (parse <$> cs ++ [x])) as [r v]. cbn [fst snd] in *. by exists s2.
Qed.

Lemma wait_all_run pids s : exists s', wait_all pids s = Done (tt, s') /\ view s' = (w_path s, w_trace s ++ waits pids).
Proof.
  revert s. induction pids as [|p pids IH]; intros s; cbn [wait_all].
  { exists s. unfold waits. cbn. by rewrite app_nil_r. }
  unfold bind, waits. destruct (Z.eqb_spec p (-1)) as [->|Hp]; cbn [negb].
  - destruct (IH s) as (s' & E & V). exists s'. rewrite filter_cons_False by (by intros []). by split.
  - unfold emit, modify. set (s1 := {| w_path := _; redirect := _; redirect_file := _; w_saved := _; w_trace := _ |}).
    destruct (IH s1) as (s' & E & V). exists s'. split; [done|]. rewrite V, filter_cons_True by done. unfold s1. cbn. by rewrite <-app_assoc.
Qed.
(** An empty command at the end changes nothing. *)
Lemma abs_line_empty path tr cs : abs_line path tr (cs ++ [([], None)]) = abs_line path tr cs.
Proof.
  unfold abs_line. assert (abs_commands path tr (cs ++ [([], None)]) = match abs_commands path tr cs with (None, s) => (None, s) | (Some pids, s) => (Some (pids ++ [-1]), s) end) as ->.
  { revert path tr. induction cs as [|c cs IH]; intros path tr; [done|]. cbn [app abs_commands]. destruct (abs_command path tr c) as [[pid|] [p t]]; [|done]. rewrite IH.
    by destruct (abs_commands p t cs) as [[pids|] v]. }
  destruct (abs_commands path tr cs) as [[pids|] [p t]]; [|done]. unfold waits. rewrite filter_app, fmap_app. cbn. by rewrite app_nil_r.
Qed.
(** The strings between the [&]s of a line. *)
Lemma fields_AMP txt x : x ∈ fields [AMP] txt -> x <> [] /\ forall a, a ∈ x -> a ∈ txt.
Proof.
  unfold fields. rewrite list_elem_of_filter. intros [Hx Hin]. split; [done|].
  assert (forall y, y ∈ (split [AMP] txt).1 :: (split [AMP] txt).2 -> forall a, a ∈ y -> a ∈ txt) as H; [|by apply H].
  clear. induction txt as [|c txt IH]; intros y Hy a Ha; cbn [split] in Hy; [by apply list_elem_of_singleton in Hy as ->|]. destruct (split [AMP] txt) as [t l]. cbn [fst snd] in *.
  case_bool_decide; cbn [fst snd] in Hy.
  - apply elem_of_cons in Hy as [->|Hy]; [by apply elem_of_nil in Ha|]. right. by apply (IH y).
  - apply elem_of_cons in Hy as [->|Hy]; [|right; apply (IH y); [by right|done]]. apply elem_of_cons in Ha as [->|Ha]; [by left|]. right. apply (IH t); [by left|done].
Qed.
Lemma fields_snoc txt : (exists l x, fields [AMP] txt = l ++ [x] /\ fields [AMP] (txt ++ [NL]) = l ++ [x ++ [NL]]) \/ fields [AMP] (txt ++ [NL]) = fields [AMP] txt ++ [[NL]].
Proof.
  unfold fields.
  assert (exists l x, (split [AMP] txt).1 :: (split [AMP] txt).2 = l ++ [x] /\ (split [AMP] (txt ++ [NL])).1 :: (split [AMP] (txt ++ [NL])).2 = l ++ [x ++ [NL]]) as (l & x & E & ->).
  { induction txt as [|c txt (l & x & E & E')]; [by exists [], []|]. cbn [app split]. destruct (split [AMP] txt) as [t r], (split [AMP] (txt ++ [NL])) as [t' r']. cbn [fst snd] in *.
    case_bool_decide; cbn [fst snd]; [exists ([] :: l), x; by rewrite E, E'|]. destruct l as [|y l]; cbn [app] in *.
    - injection E as -> ->. injection E' as -> ->. by exists [], (c :: x).
    - injection E as -> ->. injection E' as -> ->. by exists ((c :: y) :: l), x. }
  rewrite E, !filter_app. rewrite (filter_cons_True _ (x ++ [NL]) []) by (by destruct x). destruct (decide (x = [])) as [->|Hx].
  - right. rewrite (filter_cons_False _ [] []) by naive_solver. cbn. by rewrite app_nil_r.
  - left. exists (filter (fun t => t <> []) l), x. by rewrite (filter_cons_True _ x []) by done.
Qed.

Lemma ok_cmds l : legal_line l -> Forall ok_cmd (fields [AMP] l.1).
Proof.
  intros (_ & HNL & _ & _ & HF). rewrite Forall_forall in HF |- *. intros x Hx. destruct (HF x Hx) as [H1 H2]. split; [|done].
  intros Hin. by apply HNL, (proj2 (fields_AMP _ _ Hx)).
Qed.
Lemma run_line_cmds l s :
  legal_line l -> exists cs r s', fields [AMP] (line_of l) = cs /\ run_all fork access execvp chdir behind cs s = Done (r.1, s') /\ view s' = r.2 /\
    match r with (None, v) => (None, v) | (Some pids, (path, tr)) => (Some tt, (path, tr ++ waits pids)) end = abs_line (w_path s) (w_trace s) (line_cmds l.1).
Proof.
  intros HL. pose proof (ok_cmds _ HL) as HF. destruct l as [txt nl]. unfold line_of, line_cmds. cbn [fst snd] in *. destruct nl.
  - destruct (fields_snoc txt) as [(cs & x & E & E')|E']; rewrite E'.
    + rewrite E in HF |- *. destruct (run_all_run cs x [NL] s HF (or_intror eq_refl)) as (s1 & E1 & V1). by exists (cs ++ [x ++ [NL]]), (abs_commands (w_path s) (w_trace s) (parse <$> cs ++ [x])), s1.
    + destruct (run_all_run (fields [AMP] txt) [] [NL] s) as (s1 & E1 & V1); [|by right|].
      { apply Forall_app. split; [done|]. apply Forall_singleton. split; [apply not_elem_of_nil|split; vm_compute; lia]. }
      exists (fields [AMP] txt ++ [[NL]]), (abs_commands (w_path s) (w_trace s) (parse <$> fields [AMP] txt ++ [[]])), s1. split_and!; [done|exact E1|exact V1|]. rewrite fmap_app. apply (abs_line_empty (w_path s) (w_trace s) (parse <$> fields [AMP] txt)).
  - rewrite app_nil_r. destruct (fields [AMP] txt) as [|x cs _] using rev_ind; [exists [], (Some [], (w_path s, w_trace s)), s; split_and!; try done; cbn; by rewrite app_nil_r|].
    destruct (run_all_run cs x [] s HF (or_introl eq_refl)) as (s1 & E1 & V1). rewrite app_nil_r in E1. by exists (cs ++ [x]), (abs_commands (w_path s) (w_trace s) (parse <$> cs ++ [x])), s1.
Qed.
Lemma handle_line_run l s :
  legal_line l ->
  exists s', handle_parallel_command fork access execvp chdir behind (line_of l) s = Done ((abs_line (w_path s) (w_trace s) (line_cmds l.1)).1, s') /\
    view s' = (abs_line (w_path s) (w_trace s) (line_cmds l.1)).2.
Proof.
  intros HL. unfold handle_parallel_command. destruct (tokens_run (Some (line_of l)) [AMP] s) as [r E]; change (default (w_saved s) (Some (line_of l))) with (line_of l) in *; [apply HL|].
  unfold bind at 1. rewrite E. destruct (run_line_cmds l (set_saved r s) HL) as (cs & a & s1 & -> & E1 & V1 & Ha). unfold bind at 1. rewrite E1.
  cbn [w_path w_trace set_saved] in *. rewrite <-Ha. destruct a as [[pids|] [p tr]]; cbn [fst snd] in *; [|by exists s1].
  injection V1 as <- <-. destruct (wait_all_run pids s1) as (s2 & E2 & V2). unfold bind. rewrite E2. by exists s2.
Qed.
Lemma batch_run ls s :
  Forall legal_line ls -> exists s', batch_loop fork access execvp chdir behind (line_of <$> ls) s = Done (0, s') /\
    w_trace s' = abs_lines (w_path s) (w_trace s) ((fun l => line_cmds l.1) <$> ls).
Proof.
  revert s. induction ls as [|l ls IH]; intros s HL; [by exists s|]. apply Forall_cons in HL as [Hc HL]. cbn [fmap list_fmap batch_loop abs_lines].
  destruct (handle_line_run l s Hc) as (s1 & E1 & V1). unfold bind. rewrite E1. destruct (abs_line (w_path s) (w_trace s) (line_cmds l.1)) as [[u|] [p tr]]; cbn [fst snd] in *;
    injection V1 as <- <-; [|by exists s1]. apply (IH s1 HL).
Qed.
End spec.

(** Property C29: a batch file is run as the reference says, whatever the system
    answers: every line is taken apart at its [&]s, every command at its blanks
    and at its first [>], looked for in the path and run in a child of its own
    (or in the shell, when it is built in) with its output where it says, the
    shell waits for all the children of the line, in order, before the next
    one, and errors are reported by the message; the shell ends with status 0.
    The lines may have empty commands, commands that start with [>], which the
    reference takes for a part of the name as the shell does, more [>]s, which
    belong to the file name, and a last line without newline. They have no byte
    0, and fit the arrays of the shell: at most 9 commands of at most 47 bytes
    and 9 words each. *)
Theorem wish_runs_batch fork access execvp chdir behind behind_prompt ls stdin :
  Forall legal_line ls ->
  exists s, wish_main fork access execvp chdir behind behind_prompt [Some (line_of <$> ls)] stdin wish_start = Done (0, s) /\
    w_trace s = abs_lines fork access execvp chdir behind [chars "/bin"] [] ((fun l => line_cmds l.1) <$> ls).
Proof. intros HL. apply (batch_run fork access execvp chdir behind ls (set_path [chars "/bin"] wish_start) HL). Qed.

(** Three lines where everything works, with an empty command, and without a
    newline at the end. *)
Definition demo : list (list Z * bool) :=
  [(chars "ls -l > out && cd /tmp&", true); (chars "> a", true); (chars "exit", false)].
Definition yes (tr : list event) (p : list Z) : bool := true.
Lemma wish_runs_batch_witness :
  exists s, wish_main (fun tr => 7 + Z.of_nat (length tr)) yes yes yes (fun _ => []) [] [Some (line_of <$> demo)] [] wish_start = Done (0, s) /\
    w_trace s = [Child 7 (Runs (chars "/bin/ls") [chars "ls"; chars "-l"] (Some (Some (chars "out")))); Chdir (chars "/tmp"); Wait 7;
                 Child 10 (Runs (chars "/bin/>") [chars ">"; chars "a"] None); Wait 10].
Proof.
  destruct (wish_runs_batch (fun tr => 7 + Z.of_nat (length tr)) yes yes yes (fun _ => []) [] demo []) as (s & E & T).
  - unfold demo. repeat (apply Forall_cons; split); try apply Forall_nil_2; unfold legal_line; apply (bool_decide_unpack _); vm_compute; exact I.
  - exists s. split; [exact E|]. rewrite T. vm_compute. reflexivity.
Defined.

(** ** Where the shell departs from what is asked of it *)
Definition events (behind : list Z -> list Z) (line : string) : outcome (list event) :=
  match handle_parallel_command (fun tr => 7 + Z.of_nat (length tr)) yes yes yes behind (chars line ++ [NL])
    (set_path [chars "/bin"] wish_start) with
  | Done (_, s) => Done (w_trace s) | Panic m => Panic m | Fault => Fault | Asleep => Asleep end.
(** A command of 49 bytes, ten commands in a line, and ten words in a command
    are written behind the end of an array. *)
Lemma wish_overflows : events (fun _ => []) "a&b&c&d&e&f&g&h&i&j" = Fault /\ events (fun _ => []) "a b c d e f g h i j" = Fault /\
  events (fun _ => []) "echo 45678901234567890123456789012345678901234567" = Fault.
Proof. vm_compute. done. Qed.
(** The directories of [path] are copied without the 0 that ends them. *)
Lemma path_reads_behind : exists tr, events (fun _ => chars "!") "path /usr & ls" = Done tr /\
  tr = [Child 7 (Runs (chars "/usr!/ls") [chars "ls"] None); Wait 7].
Proof. eexists. split; [vm_compute; reflexivity|done]. Qed.
(** A blank behind [>] is taken for a file with an empty name, and a command
    that starts with [>] for a program of that name; neither is reported. *)
Lemma redirect_to_nothing :
  events (fun _ => []) "ls > & ls >" = Done [Child 7 (Runs (chars "/bin/ls") [chars "ls"] (Some (Some []))); ErrorMessage; Wait 7] /\
  events (fun _ => []) "> out" = Done [Child 7 (Runs (chars "/bin/>") [chars ">"; chars "out"] None); Wait 7].
Proof. vm_compute. done. Qed.
