(* ===== verification/Mp.v ===== *)
(** * Mp: finding the processors (mp.c)

    The BIOS leaves a description of the processors in memory. Memory is that
    of the string routines; the number of rounds of the loop over the
    table is given as fuel, and [None] says that it is still running. *)

From stdpp Require Import base list numbers gmap strings.
From S2P Require Import Prelude Bytes Params KString Mmu.

Local Open Scope Z_scope.

(** ** Searching *)
Fixpoint sum_from (m : mem) (addr : Z) (len : nat) (acc : Z) : Z :=
  match len with O => acc | S len => sum_from m (addr + 1) len (acc + ld m addr) end.
Definition sum (m : mem) (addr len : Z) : Z := u8 (sum_from m addr (Z.to_nat len) 0).

Definition MP_SIZE : Z := 16.
Definition is_mp (m : mem) (p : Z) : bool := bool_decide (lds m p 4 = [95; 77; 80; 95]) && (sum m p MP_SIZE =? 0).
Fixpoint mpsearch_from (fuel : nat) (m : mem) (p e : Z) : Z :=
  match fuel with
  | O => 0
  | S fuel => if p <? e then if is_mp m p then p else mpsearch_from fuel m (p + MP_SIZE) e else 0
  end.
(** [len] is positive and the steps are of 16 bytes, so [len] rounds are
    enough. *)
Definition mpsearch1 (m : mem) (a len : Z) : Z := let addr := P2V a in mpsearch_from (Z.to_nat len) m addr (addr + len).
Definition mpsearch (m : mem) : Z :=
  let bda := P2V 0x400 in
  let p := Z.shiftl (Z.lor (Z.shiftl (ld m (bda + 0x0F)) 8) (ld m (bda + 0x0E))) 4 in
  let mp :=
    if negb (p =? 0) then mpsearch1 m p 1024
    else mpsearch1 m (u32 (Z.lor (Z.shiftl (ld m (bda + 0x14)) 8) (ld m (bda + 0x13)) * 1024 - 1024)) 1024 in
  if negb (mp =? 0) then mp else mpsearch1 m 0xF0000 0x10000.

(** The fields of the structures of mp.h. *)
Definition ld16 (m : mem) (a : Z) : Z := le_combine (lds m a 2).
Definition mp_physaddr (m : mem) (mp : Z) : Z := ld32 m (mp + 4).
Definition mp_imcrp (m : mem) (mp : Z) : Z := ld m (mp + 12).
Definition conf_length (m : mem) (conf : Z) : Z := ld16 m (conf + 4).
Definition conf_version (m : mem) (conf : Z) : Z := ld m (conf + 6).
Definition conf_lapicaddr (m : mem) (conf : Z) : Z := ld32 m (conf + 36).
Definition CONF_SIZE : Z := 44.

Definition mpconfig (m : mem) : option (Z * Z) :=
  let mp := mpsearch m in
  if (mp =? 0) || (mp_physaddr m mp =? 0) then None
  else
    let conf := P2V (mp_physaddr m mp) in
    if negb (bool_decide (lds m conf 4 = [80; 67; 77; 80])) then None
    else if negb (conf_version m conf =? 1) && negb (conf_version m conf =? 4) then None
    else if negb (sum m conf (conf_length m conf) =? 0) then None
    else Some (mp, conf).

(** ** The table *)
Record machine := { cpus : list Z; ncpu : Z; ioapicid : Z; lapic : Z; ports : list (Z * Z) }.
Definition MPPROC : Z := 0.
Definition MPBUS : Z := 1.
Definition MPIOAPIC : Z := 2.
Definition MPIOINTR : Z := 3.
Definition MPLINTR : Z := 4.

Definition add_cpu (apicid : Z) (s : machine) : machine :=
  if ncpu s <? NCPU then
    {| cpus := <[Z.to_nat (ncpu s) := apicid]> (cpus s); ncpu := ncpu s + 1; ioapicid := ioapicid s; lapic := lapic s; ports := ports s |}
  else s.
Definition set_ioapic (id : Z) (s : machine) : machine :=
  {| cpus := cpus s; ncpu := ncpu s; ioapicid := id; lapic := lapic s; ports := ports s |}.
(** The loop with its state and [ismp]. The [break] of the default case
    leaves the switch and not the loop. *)
Fixpoint mp_loop (fuel : nat) (m : mem) (p e : Z) (s : machine) (ismp : bool) : option (machine * bool) :=
  match fuel with
  | O => None
  | S fuel =>
      if p <? e then
        let t := ld m p in
        if t =? MPPROC then mp_loop fuel m (p + 20) e (add_cpu (ld m (p + 1)) s) ismp
        else if t =? MPIOAPIC then mp_loop fuel m (p + 8) e (set_ioapic (ld m (p + 1)) s) ismp
        else if (t =? MPBUS) || (t =? MPIOINTR) || (t =? MPLINTR) then mp_loop fuel m (p + 8) e s ismp
        else mp_loop fuel m p e s false
      else Some (s, ismp)
  end.
(** [inb] is what port 0x23 returns. *)
Definition mpinit (fuel : nat) (inb : Z) (m : mem) (s : machine) : option (outcome machine) :=
  match mpconfig m with
  | None => Some (Panic "Expect to run on an SMP")
  | Some (mp, conf) =>
      let s := {| cpus := cpus s; ncpu := ncpu s; ioapicid := ioapicid s; lapic := conf_lapicaddr m conf; ports := ports s |} in
      '(s, ismp) ← mp_loop fuel m (conf + CONF_SIZE) (conf + conf_length m conf) s true;
      Some (if negb ismp then Panic "Didn't find a suitable machine"
            else Done (if negb (mp_imcrp m mp =? 0) then
                   {| cpus := cpus s; ncpu := ncpu s; ioapicid := ioapicid s; lapic := lapic s;
                      ports := ports s ++ [(0x22, 0x70); (0x23, Z.lor inb 1)] |}
                 else s))
  end.
Definition machine0 : machine := {| cpus := replicate 8 0; ncpu := 0; ioapicid := 0; lapic := 0; ports := [] |}.

(** ** What the table says *)

Inductive entry := Proc (apicid : Z) (rest : list Z) | IoApic (apicno : Z) (rest : list Z) | Other (type : Z) (rest : list Z).
Definition entry_wf (e : entry) : Prop :=
  match e with
  | Proc _ rest => length rest = 18%nat
  | IoApic _ rest => length rest = 6%nat
  | Other t rest => t ∈ [MPBUS; MPIOINTR; MPLINTR] /\ length rest = 7%nat
  end.
Definition entry_bytes (e : entry) : list Z :=
  match e with Proc a rest => MPPROC :: a :: rest | IoApic a rest => MPIOAPIC :: a :: rest | Other t rest => t :: rest end.
Definition apicids (es : list entry) : list Z := omap (fun e => match e with Proc a _ => Some a | _ => None end) es.
Definition last_ioapic (d : Z) (es : list entry) : Z := foldl (fun d e => match e with IoApic a _ => a | _ => d end) d es.

(** The processors found so far. *)
Definition has_cpus (s : machine) (ids : list Z) : Prop :=
  length (cpus s) = 8%nat /\ ncpu s = Z.min NCPU (Z.of_nat (length ids)) /\ take (Z.to_nat (ncpu s)) (cpus s) = take 8 ids.

Lemma add_cpu_has s ids a : has_cpus s ids -> has_cpus (add_cpu a s) (ids ++ [a]).
Proof.
  intros (Hl & Hn & Ht). unfold add_cpu, has_cpus in *. change NCPU with 8 in *. rewrite length_app. cbn [length].
  destruct (Z.ltb_spec (ncpu s) 8); cbn [cpus ncpu].
  - rewrite length_insert. split_and!; [done|lia|]. assert (ncpu s = Z.of_nat (length ids)) as En by lia.
    rewrite (take_ge (ids ++ [a])) by (rewrite length_app; cbn; lia). rewrite (take_ge ids) in Ht by lia.
    replace (Z.to_nat (ncpu s + 1)) with (S (Z.to_nat (ncpu s))) by lia. erewrite take_S_r by (apply list_lookup_insert_eq; lia).
    by rewrite take_insert_ge, Ht by lia.
  - split_and!; [done|lia|]. rewrite take_app_le by lia. done.
Qed.

Lemma ld_lds m a bs k b : lds m a (length bs) = bs -> bs !! k = Some b -> ld m (a + Z.of_nat k) = b.
Proof.
  intros H Hk. rewrite <-H in Hk. unfold lds in Hk. rewrite list_lookup_fmap in Hk.
  destruct (seq 0 (length bs) !! k) as [j|] eqn:E; [|done]. apply lookup_seq in E as [-> _]. cbn in Hk. by injection Hk.
Qed.
Lemma lds_split m a n n' : lds m a (n + n') = lds m a n ++ lds m (a + Z.of_nat n) n'.
Proof.
  revert a. induction n as [|n IH]; intros a; [by rewrite Z.add_0_r|]. cbn [Nat.add]. rewrite !lds_S, IH. cbn [app]. do 3 f_equal. lia.
Qed.

(** One entry is read. *)
Definition see (e : entry) (s : machine) : machine :=
  match e with Proc a _ => add_cpu a s | IoApic a _ => set_ioapic a s | Other _ _ => s end.
Lemma mp_loop_entry fuel m p e s x ismp :
  entry_wf x -> lds m p (length (entry_bytes x)) = entry_bytes x -> p < e ->
  mp_loop (S fuel) m p e s ismp = mp_loop fuel m (p + Z.of_nat (length (entry_bytes x))) e (see x s) ismp.
Proof.
  intros Hwf Hb Hp. cbn [mp_loop]. rewrite (proj2 (Z.ltb_lt _ _)) by done.
  destruct x as [a rest|a rest|t rest]; cbn [entry_wf entry_bytes] in *.
  - pose proof (ld_lds _ _ _ 0 _ Hb eq_refl) as H0. rewrite Z.add_0_r in H0. rewrite H0. cbn [Z.eqb MPPROC]. rewrite (ld_lds _ _ _ 1 _ Hb eq_refl : ld m (p + 1) = a).
    cbn [length]. by rewrite Hwf.
  - pose proof (ld_lds _ _ _ 0 _ Hb eq_refl) as H0. rewrite Z.add_0_r in H0. rewrite H0. cbn [Z.eqb MPPROC MPIOAPIC Pos.eqb]. rewrite (ld_lds _ _ _ 1 _ Hb eq_refl : ld m (p + 1) = a).
    cbn [length]. by rewrite Hwf.
  - pose proof (ld_lds _ _ _ 0 _ Hb eq_refl) as H0. rewrite Z.add_0_r in H0. rewrite H0. destruct Hwf as [Ht Hl]. cbn [length]. rewrite Hl.
    assert (t = MPBUS \/ t = MPIOINTR \/ t = MPLINTR) as [-> |[-> | ->]] by set_solver; done.
Qed.
Lemma see_ioapic e s : ioapicid (see e s) = match e with IoApic a _ => a | _ => ioapicid s end.
Proof. destruct e; [|done|done]. cbn. unfold add_cpu. by destruct (_ <? _). Qed.
Lemma see_lapic e s : lapic (see e s) = lapic s /\ ports (see e s) = ports s.
Proof. destruct e; [|done|done]. cbn. unfold add_cpu. by destruct (_ <? _). Qed.

Definition table (es : list entry) : list Z := mjoin (entry_bytes <$> es).
(** The whole table. *)
Lemma mp_loop_run es fuel m p s ismp ids :
  Forall entry_wf es -> lds m p (length (table es)) = table es -> (length es < fuel)%nat -> has_cpus s ids ->
  exists s', mp_loop fuel m p (p + Z.of_nat (length (table es))) s ismp = Some (s', ismp) /\
    has_cpus s' (ids ++ apicids es) /\ ioapicid s' = last_ioapic (ioapicid s) es /\ lapic s' = lapic s /\ ports s' = ports s.
Proof.
  revert fuel p s ids. induction es as [|e es IH]; intros fuel p s ids Hwf Hb Hf Hs.
  { destruct fuel as [|fuel]; [lia|]. exists s. cbn [mp_loop table fmap list_fmap mjoin list_join length]. rewrite Z.add_0_r, Z.ltb_irrefl.
    cbn [apicids omap list_omap]. rewrite app_nil_r. by split_and!. }
  apply Forall_cons in Hwf as [He Hwf]. destruct fuel as [|fuel]; [cbn in Hf; lia|]. change (table (e :: es)) with (entry_bytes e ++ table es) in *.
  rewrite length_app, lds_split in Hb. apply app_inj_1 in Hb as [Hb1 Hb2]; [|by unfold lds; rewrite length_fmap, length_seq].
  assert (0 < length (entry_bytes e))%nat as Hpos by (destruct e; cbn; lia).
  rewrite length_app. erewrite mp_loop_entry by (done || lia). replace (p + Z.of_nat (length (entry_bytes e) + length (table es))) with
    (p + Z.of_nat (length (entry_bytes e)) + Z.of_nat (length (table es))) by lia.
  destruct (IH fuel (p + Z.of_nat (length (entry_bytes e))) (see e s) (ids ++ apicids [e]) Hwf Hb2) as (s' & E & H1 & H2 & H3 & H4).
  { cbn in Hf. lia. }
  { destruct e; cbn [apicids omap list_omap see]; rewrite ?app_nil_r; [by apply add_cpu_has|exact Hs|exact Hs]. }
  destruct (see_lapic e s) as [L1 L2]. exists s'. rewrite E. split_and!; [done| | |congruence|congruence].
  - rewrite <-app_assoc in H1. by destruct e.
  - rewrite H2, see_ioapic. done.
Qed.

(** With a table the kernel accepts, whose entries are of the types it knows,
    [mpinit] ends, with the first eight processors of the table. *)
Lemma mpinit_finds m mp conf es fuel inb :
  mpconfig m = Some (mp, conf) -> Forall entry_wf es -> conf_length m conf = CONF_SIZE + Z.of_nat (length (table es)) ->
  lds m (conf + CONF_SIZE) (length (table es)) = table es -> (length es < fuel)%nat ->
  exists s, mpinit fuel inb m machine0 = Some (Done s) /\ ncpu s = Z.min NCPU (Z.of_nat (length (apicids es))) /\
    take (Z.to_nat (ncpu s)) (cpus s) = take 8 (apicids es) /\ ioapicid s = last_ioapic 0 es /\ lapic s = conf_lapicaddr m conf.
Proof.
  intros Hc Hwf Hl Hb Hf. unfold mpinit. rewrite Hc, Hl, Z.add_assoc. set (s0 := {| cpus := _; ncpu := _; ioapicid := _; lapic := _; ports := _ |}).
  destruct (mp_loop_run es fuel m (conf + CONF_SIZE) s0 true [] Hwf Hb Hf) as (s & E & (_ & H1 & H1') & H2 & H3 & H4); [by split_and!|].
  rewrite E. cbn [mbind option_bind negb]. destruct (negb (mp_imcrp m mp =? 0)); eexists; (split; [done|]); by split_and!.
Qed.

(** An entry of another type is never left: the loop does not end, whatever
    the fuel. *)
Lemma mp_unknown_entry_loops fuel m p e s ismp : p < e -> ld m p ∉ [MPPROC; MPBUS; MPIOAPIC; MPIOINTR; MPLINTR] -> mp_loop fuel m p e s ismp = None.
Proof.
  intros Hp Ht. revert ismp. induction fuel as [|fuel IH]; intros ismp; [done|]. cbn [mp_loop]. rewrite (proj2 (Z.ltb_lt _ _)) by done.
  assert (ld m p <> MPPROC /\ ld m p <> MPIOAPIC /\ ld m p <> MPBUS /\ ld m p <> MPIOINTR /\ ld m p <> MPLINTR) as (H1 & H2 & H3 & H4 & H5) by set_solver.
  rewrite !(proj2 (Z.eqb_neq _ _)) by done. apply IH.
Qed.

(** A machine with two processors and an I/O APIC. *)
Definition demo_entries : list entry := [Proc 0 (replicate 18 1); Other MPBUS (replicate 7 0); Proc 1 (replicate 18 0); IoApic 2 (replicate 6 0)].
Definition with_sum (l : list Z) (k : nat) : list Z := <[k := u8 (- foldr Z.add 0 l)]> l.
Definition demo_table : list Z :=
  with_sum ([80; 67; 77; 80] ++ le_split 2 (44 + Z.of_nat (length (table demo_entries))) ++ [4; 0] ++ replicate 28 0 ++ le_split 4 0xFEE00000 ++ replicate 4 0 ++ table demo_entries) 7.
Definition demo_mem : mem :=
  sts (sts ∅ (P2V 0xF0010) (with_sum ([95; 77; 80; 95] ++ le_split 4 0x9000 ++ [1; 4; 0; 0; 128; 0; 0; 0]) 10)) (P2V 0x9000) demo_table.
Lemma mpinit_demo :
  mpinit 5 0 demo_mem machine0 =
  Some (Done {| cpus := [0; 1; 0; 0; 0; 0; 0; 0]; ncpu := 2; ioapicid := 2; lapic := 0xFEE00000; ports := [(0x22, 0x70); (0x23, 1)] |}).
Proof. vm_compute. reflexivity. Qed.
