(* ===== verification/Lapic.v ===== *)
(** * Lapic: the local interrupt controller and the clock (lapic.c)

    The controller is its registers and the writes made to them and to the
    I/O ports, in order. What the clock returns is a function of the number of
    the read and of its register; the loop that waits for a steady
    time has a bound on its rounds. *)

From stdpp Require Import base list numbers gmap strings.
From S2P Require Import Prelude Params.

Local Open Scope Z_scope.

(** ** The registers, as indices *)
Definition LID : Z := 0x20 / 4.
Definition LVER : Z := 0x30 / 4.
Definition TPR : Z := 0x80 / 4.
Definition EOI : Z := 0xB0 / 4.
Definition SVR : Z := 0xF0 / 4.
Definition ESR : Z := 0x280 / 4.
Definition ICRLO : Z := 0x300 / 4.
Definition ICRHI : Z := 0x310 / 4.
Definition TIMER : Z := 0x320 / 4.
Definition PCINT : Z := 0x340 / 4.
Definition LINT0 : Z := 0x350 / 4.
Definition LINT1 : Z := 0x360 / 4.
Definition LERROR : Z := 0x370 / 4.
Definition TICR : Z := 0x380 / 4.
Definition TDCR : Z := 0x3E0 / 4.
Definition MASKED : Z := 0x10000.
Definition T_IRQ0 : Z := 32.

(** [lapic] is 0 before [mpinit]; [writes] are the writes to registers, the
    ports and the warm reset vector. *)
Inductive write := Reg (index value : Z) | Port (port value : Z) | Vector (index value : Z).
Record apic := { here : bool; regs : gmap Z Z; writes : list write }.
Definition reg (s : apic) (i : Z) : Z := default 0 (regs s !! i).
Definition lapicw (index value : Z) (s : apic) : apic :=
  {| here := here s; regs := <[index := u32 value]> (regs s); writes := writes s ++ [Reg index (u32 value)] |}.
Definition outb (port data : Z) (s : apic) : apic := {| here := here s; regs := regs s; writes := writes s ++ [Port port (u8 data)] |}.
Definition wrv (index value : Z) (s : apic) : apic := {| here := here s; regs := regs s; writes := writes s ++ [Vector index (u16 value)] |}.

(** The controller clears the delivery status by itself, so the wait for it is
    not a step of its own. *)
Definition lapicws (l : list (Z * Z)) (s : apic) : apic := foldl (fun s w => lapicw w.1 w.2 s) s l.
Definition lapicinit (s : apic) : apic :=
  if negb (here s) then s
  else
    let s := lapicws [(SVR, Z.lor 0x100 (T_IRQ0 + 31)); (TDCR, 0xB); (TIMER, Z.lor 0x20000 (T_IRQ0 + 0)); (TICR, 10000000);
                      (LINT0, MASKED); (LINT1, MASKED)] s in
    let s := if 4 <=? Z.land (Z.shiftr (reg s LVER) 16) 0xFF then lapicw PCINT MASKED s else s in
    lapicws [(LERROR, T_IRQ0 + 19); (ESR, 0); (ESR, 0); (EOI, 0); (ICRHI, 0); (ICRLO, Z.lor (Z.lor 0x80000 0x500) 0x8000); (TPR, 0)] s.
Definition lapicid (s : apic) : Z := if here s then Z.shiftr (reg s LID) 24 else 0.
Definition lapiceoi (s : apic) : apic := if here s then lapicw EOI 0 s else s.

Definition startup_ipi (apicid addr : Z) (s : apic) : apic :=
  lapicw ICRLO (Z.lor 0x600 (Z.shiftr addr 12)) (lapicw ICRHI (Z.shiftl apicid 24) s).
Definition lapicstartap (apicid addr : Z) (s : apic) : apic :=
  let s := outb 0x70 0xF s in
  let s := outb 0x71 0x0A s in
  let s := wrv 0 0 s in
  let s := wrv 1 (Z.shiftr addr 4) s in
  let s := lapicw ICRHI (Z.shiftl apicid 24) s in
  let s := lapicw ICRLO (Z.lor (Z.lor 0x500 0x8000) 0x4000) s in
  let s := lapicw ICRLO (Z.lor 0x500 0x8000) s in
  startup_ipi apicid addr (startup_ipi apicid addr s).

(** ** The clock *)
Record rtcdate := { second : Z; minute : Z; hour : Z; day : Z; month : Z; year : Z }.
#[global] Instance rtcdate_eq_dec : EqDecision rtcdate.
Proof. solve_decision. Defined.

Section clock.
(** The byte that read number [k] of the clock returns for a register. *)
Variable cmos : nat -> Z -> Z.

Definition fill_rtcdate (k : nat) : rtcdate :=
  {| second := cmos k 0; minute := cmos (k + 1) 2; hour := cmos (k + 2) 4;
     day := cmos (k + 3) 7; month := cmos (k + 4) 8; year := cmos (k + 5) 9 |}.
(** The loop, from read number [k]. *)
Fixpoint steady (fuel : nat) (k : nat) : option rtcdate :=
  match fuel with
  | O => None
  | S fuel =>
      let t1 := fill_rtcdate k in
      if negb (Z.land (cmos (k + 6) 0x0a) (Z.shiftl 1 7) =? 0) then steady fuel (k + 7)
      else let t2 := fill_rtcdate (k + 7) in
      if bool_decide (t1 = t2) then Some t1 else steady fuel (k + 13)
  end.
Definition conv (x : Z) : Z := u32 (Z.shiftr x 4 * 10 + Z.land x 0xf).
Definition cmostime (fuel : nat) : option rtcdate :=
  let sb := cmos 0 0x0b in
  let bcd := Z.land sb (Z.shiftl 1 2) =? 0 in
  t1 ← steady fuel 1;
  let t1 :=
    if bcd then {| second := conv (second t1); minute := conv (minute t1); hour := conv (hour t1);
                   day := conv (day t1); month := conv (month t1); year := conv (year t1) |}
    else t1 in
  Some {| second := second t1; minute := minute t1; hour := hour t1; day := day t1; month := month t1; year := u32 (year t1 + 2000) |}.
End clock.

(** ** Setting up *)

Lemma reg_lapicw i v s : reg (lapicw i v s) i = u32 v.
Proof. unfold reg, lapicw. cbn [regs]. by rewrite lookup_insert_eq. Qed.
Lemma reg_lapicw_ne i j v s : i <> j -> reg (lapicw j v s) i = reg s i.
Proof. intros H. unfold reg, lapicw. cbn [regs]. by rewrite lookup_insert_ne. Qed.
(** The last write to a register stays. *)
Lemma reg_writes l s i : reg (lapicws l s) i = foldl (fun d w => if w.1 =? i then u32 w.2 else d) (reg s i) l.
Proof.
  revert s. induction l as [|[j v] l IH]; intros s; [done|]. unfold lapicws in *. cbn [foldl fst snd]. rewrite IH. f_equal.
  destruct (Z.eqb_spec j i) as [->|]; [apply reg_lapicw|by apply reg_lapicw_ne].
Qed.
(** After [lapicinit] the timer and the error interrupt are on, the lines of
    the board are off, and the last writes let interrupts through. *)
Lemma lapicinit_registers s : here s = true ->
  let s' := lapicinit s in
  reg s' TIMER = 0x20020 /\ reg s' TICR = 10000000 /\ reg s' LINT0 = MASKED /\ reg s' LINT1 = MASKED /\
  reg s' SVR = 0x13F /\ reg s' LERROR = 51 /\ reg s' TPR = 0 /\ reg s' LID = reg s LID /\ here s' = true.
Proof.
  intros Hh s'. unfold s', lapicinit. rewrite Hh. cbn [negb]. set (s1 := lapicws _ s). set (s2 := if 4 <=? _ then lapicw PCINT MASKED _ else _).
  assert (forall i, i <> PCINT -> reg s2 i = reg s1 i) as H2 by (intros i Hi; unfold s2; destruct (4 <=? _); [apply reg_lapicw_ne; done|done]).
  assert (here s2 = true) as Hh2 by (unfold s2; by destruct (4 <=? _)).
  split_and!; rewrite ?reg_writes, ?H2 by done; unfold s1; rewrite ?reg_writes; done.
Qed.
(** A processor is started with an INIT and two STARTUP messages, all to it, with
    the page of the code. *)
Definition messages (ws : list write) : list (Z * Z) :=
  omap (fun w => match w with Reg i v => if (i =? ICRHI) || (i =? ICRLO) then Some (i, v) else None | _ => None end) ws.
Lemma lapicstartap_messages apicid addr s : 0 <= apicid < 2 ^ 8 -> 0 <= addr < 2 ^ 20 ->
  messages (writes (lapicstartap apicid addr s)) = messages (writes s) ++
  [(ICRHI, apicid * 2 ^ 24); (ICRLO, 0xC500); (ICRLO, 0x8500)] ++
  mjoin (replicate 2 [(ICRHI, apicid * 2 ^ 24); (ICRLO, Z.lor 0x600 (addr / 2 ^ 12))]).
Proof.
  intros Ha Hb. assert (u32 (Z.shiftl apicid 24) = apicid * 2 ^ 24) as E1 by (rewrite Z.shiftl_mul_pow2 by lia; apply u32_small; unfold is_u32; lia).
  assert (u32 (Z.lor 0x600 (Z.shiftr addr 12)) = Z.lor 0x600 (addr / 2 ^ 12)) as E2.
  { rewrite Z.shiftr_div_pow2 by lia. apply u32_small. split; [apply Z.lor_nonneg; split; [lia|apply Z.div_pos; lia]|].
    destruct (Z.eq_dec (Z.lor 0x600 (addr / 2 ^ 12)) 0) as [->|]; [lia|]. apply Z.log2_lt_pow2; [|].
    - assert (0 <= Z.lor 0x600 (addr / 2 ^ 12)) by (apply Z.lor_nonneg; split; [lia|apply Z.div_pos; lia]). lia.
    - rewrite Z.log2_lor by (try lia; apply Z.div_pos; lia). apply Z.max_lub_lt; [done|].
      assert (addr / 2 ^ 12 < 2 ^ 8) by (apply Z.div_lt_upper_bound; lia). destruct (Z.eq_dec (addr / 2 ^ 12) 0) as [->|]; [done|].
      assert (0 <= addr / 2 ^ 12) by (apply Z.div_pos; lia). pose proof (proj1 (Z.log2_lt_pow2 (addr / 2 ^ 12) 8 ltac:(lia)) ltac:(lia)). lia. }
  unfold lapicstartap, startup_ipi, outb, wrv, lapicw. cbn [writes]. rewrite E1, E2, <-!app_assoc. unfold messages. by rewrite omap_app.
Qed.

(** ** The time *)
Lemma conv_bcd n : 0 <= n < 100 -> conv (n / 10 * 16 + n mod 10) = n.
Proof.
  intros Hn. unfold conv. rewrite Z.shiftr_div_pow2 by lia. change 0xf with (Z.ones 4). rewrite Z.land_ones by lia.
  assert (0 <= n / 10 < 10 /\ 0 <= n mod 10 < 10) as [H1 H2] by (Z.div_mod_to_equations; lia).
  change (2 ^ 4) with 16. rewrite Z.div_add_l, (Z.div_small (n mod 10)), Z.add_0_r by lia.
  rewrite (Z.add_comm (n / 10 * 16)), Z.mod_add, (Z.mod_small (n mod 10)) by lia. rewrite u32_small; [|unfold is_u32]; Z.div_mod_to_equations; lia.
Qed.
Definition bcd_of (d : rtcdate) : rtcdate :=
  let f n := n / 10 * 16 + n mod 10 in
  {| second := f (second d); minute := f (minute d); hour := f (hour d); day := f (day d); month := f (month d); year := f (year d) |}.
Definition shows (cmos : nat -> Z -> Z) (k : nat) (d : rtcdate) : Prop :=
  cmos k 0 = second d /\ cmos k 2 = minute d /\ cmos k 4 = hour d /\ cmos k 7 = day d /\ cmos k 8 = month d /\ cmos k 9 = year d /\
  Z.land (cmos k 0x0a) (Z.shiftl 1 7) = 0.
Definition two_digits (d : rtcdate) : Prop :=
  0 <= second d < 100 /\ 0 <= minute d < 100 /\ 0 <= hour d < 100 /\ 0 <= day d < 100 /\ 0 <= month d < 100 /\ 0 <= year d < 100.

(** A time that is returned was read twice, without an update in between. *)
Lemma steady_read cmos fuel k d : steady cmos fuel k = Some d -> exists j, fill_rtcdate cmos j = d /\ fill_rtcdate cmos (j + 7) = d /\
  Z.land (cmos (j + 6)%nat 0x0a) (Z.shiftl 1 7) = 0.
Proof.
  revert k. induction fuel as [|fuel IH]; intros k; [done|]. cbn [steady]. destruct (Z.eqb_spec (Z.land (cmos (k + 6)%nat 10) (Z.shiftl 1 7)) 0) as [E|E]; cbn [negb]; [|apply IH].
  case_bool_decide as Ht; [|apply IH]. intros [= <-]. by exists k.
Qed.
(** When the clock stands at a date from some read on, in BCD, the loop ends
    with it. *)
Lemma steady_ends cmos k0 d : (forall k, (k0 <= k)%nat -> shows cmos k d) -> forall fuel k, (k0 <= k + fuel)%nat ->
  exists d', steady cmos (S fuel) k = Some d' /\ (exists j, fill_rtcdate cmos j = d').
Proof.
  intros Hs.
  assert (forall j, (k0 <= j)%nat -> fill_rtcdate cmos j = d /\ Z.land (cmos (j + 6)%nat 10) (Z.shiftl 1 7) = 0) as Hfill.
  { intros j Hj. split; [|apply (Hs (j + 6)%nat); lia]. unfold fill_rtcdate.
    destruct (Hs j ltac:(lia)) as (-> & _). destruct (Hs (j + 1)%nat ltac:(lia)) as (_ & -> & _). destruct (Hs (j + 2)%nat ltac:(lia)) as (_ & _ & -> & _).
    destruct (Hs (j + 3)%nat ltac:(lia)) as (_ & _ & _ & -> & _). destruct (Hs (j + 4)%nat ltac:(lia)) as (_ & _ & _ & _ & -> & _).
    destruct (Hs (j + 5)%nat ltac:(lia)) as (_ & _ & _ & _ & _ & -> & _). by destruct d. }
  assert (forall fuel k, (k0 <= k)%nat -> steady cmos (S fuel) k = Some d) as Hnow.
  { intros fuel k Hk. cbn [steady]. destruct (Hfill k Hk) as [E1 E2]. rewrite E2. cbn [Z.eqb negb].
    rewrite E1, (proj1 (Hfill (k + 7)%nat ltac:(lia))). by rewrite bool_decide_eq_true_2. }
  induction fuel as [|fuel IH]; intros k Hk; [exists d; split; [apply Hnow; lia|exists k; apply Hfill; lia]|].
  change (steady cmos (S (S fuel)) k) with
    (if negb (Z.land (cmos (k + 6)%nat 0x0a) (Z.shiftl 1 7) =? 0) then steady cmos (S fuel) (k + 7)
     else if bool_decide (fill_rtcdate cmos k = fill_rtcdate cmos (k + 7)) then Some (fill_rtcdate cmos k) else steady cmos (S fuel) (k + 13)).
  destruct (negb _); [apply IH; lia|]. case_bool_decide; [by eauto|apply IH; lia].
Qed.
(** The date the kernel gets from a clock that stands. *)
Lemma cmostime_reads cmos d : two_digits d -> (forall k, shows cmos k (bcd_of d)) -> Z.land (cmos 0%nat 0x0b) (Z.shiftl 1 2) = 0 ->
  forall fuel, (0 < fuel)%nat -> cmostime cmos fuel = Some {| second := second d; minute := minute d; hour := hour d; day := day d; month := month d; year := year d + 2000 |}.
Proof.
  intros (H1 & H2 & H3 & H4 & H5 & H6) Hs Hb fuel Hf. assert (forall j, fill_rtcdate cmos j = bcd_of d) as Hfill.
  { intros j. unfold fill_rtcdate. destruct (Hs j) as (-> & _), (Hs (j + 1)%nat) as (_ & -> & _), (Hs (j + 2)%nat) as (_ & _ & -> & _),
      (Hs (j + 3)%nat) as (_ & _ & _ & -> & _), (Hs (j + 4)%nat) as (_ & _ & _ & _ & -> & _), (Hs (j + 5)%nat) as (_ & _ & _ & _ & _ & -> & _). by destruct d. }
  unfold cmostime. rewrite Hb. destruct fuel as [|fuel]; [lia|]. cbn [steady]. rewrite (proj2 (proj2 (proj2 (proj2 (proj2 (proj2 (Hs (1 + 6)%nat))))))).
  cbn [Z.eqb negb]. rewrite !Hfill, bool_decide_eq_true_2 by done. cbn [mbind option_bind]. unfold bcd_of. cbn [second minute hour day month year].
  rewrite !conv_bcd by done. by rewrite u32_small by (unfold is_u32; lia).
Qed.
