(* ===== verification/FdInv.v ===== *)
(** * FdInv: descriptors, open files and pipes

    The reference count of an open file is the number of descriptors for it,
    and a pipe is freed when its last end is closed, not before: an invariant
    of the file system calls, [fork], [clone], [exit] and [wait]. *)

From stdpp Require Import base list numbers gmap strings relations.
From S2P Require Import Prelude Bytes Params Sleeplock Bio Log Blocks Fs Pipe File KString Mmu Kalloc Proc Syscall Sysfile.

Local Open Scope Z_scope.
Local Open Scope os_scope.

(** What the pipes rely on: [pg_owns X p], the pages [X] are allocated. *)
Class PageLaws (P : Type) `{PageOps P} := {
  pg_owns : gset Z -> P -> Prop;
  pg_alloc_law : forall X p, pg_owns X p ->
    wlp pg_alloc (fun a p' => (a = 0 -> pg_owns X p') /\ (a <> 0 -> (a ∉ X) /\ pg_owns ({[a]} ∪ X) p')) p;
  pg_free_law : forall X p a, pg_owns X p -> a ∈ X ->
    wlp (pg_free a) (fun _ p' => pg_owns (X ∖ {[a]}) p') p
}.

(** The next call, by a lemma on it. *)
Tactic Notation "wlp_step" uconstr(L) := rewrite wlp_bind; eapply wlp_mono; [by eapply L|cbv beta].

(** ** The table of open files *)

Section ftable.
Context {B P : Type} `{BlockOps B} `{TxnOps B} `{PageLaws P}.
Implicit Types (x : files B P) (y : file) (c : nat -> Z) (U : gset nat).

(** A file in use is an inode, or an end of a pipe that is open at that end. *)
Definition file_typed (ps : gmap Z pipe) y : Prop :=
  match fl_type y with
  | FD_NONE => False
  | FD_INODE => is_Some (fl_ip y)
  | FD_PIPE => exists k p, fl_pipe y = Some k /\ ps !! k = Some p /\
      (if fl_writable y then writeopen p else readopen p) = true
  end.

Definition same_end y z : Prop :=
  fl_type y = FD_PIPE /\ fl_type z = FD_PIPE /\ fl_pipe y = fl_pipe z /\ fl_writable y = fl_writable z.

(** File [f] has [c f] references; the files [U] are allocated and not set up
    yet. *)
Record finv U c x : Prop := {
  fn_ref : forall f y, ftable x !! f = Some y -> fl_ref y = c f;
  fn_in : forall f, c f <> 0 -> is_Some (ftable x !! f);
  fn_pos : forall f, 0 <= c f < 2 ^ 31;
  fn_new : forall f, f ∈ U -> 0 < c f;
  fn_none : forall f y, ftable x !! f = Some y -> c f = 0 \/ f ∈ U -> fl_type y = FD_NONE;
  fn_type : forall f y, ftable x !! f = Some y -> 0 < c f -> f ∉ U -> file_typed (pipes x) y;
  fn_ends : forall f g y z, ftable x !! f = Some y -> ftable x !! g = Some z -> same_end y z -> f = g;
  fn_open : forall k p, pipes x !! k = Some p -> pipe_freed p = false;
  fn_pages : pg_owns (dom (pipes x)) (fpages x)
}.

(** One reference more or less to file [f]. *)
Definition inc (f : nat) c : nat -> Z := fun g => if decide (g = f) then c g + 1 else c g.
Definition dec (f : nat) c : nat -> Z := fun g => if decide (g = f) then c g - 1 else c g.

Lemma finv_ext U U' c c' x :
  finv U c x -> (forall f, c f = c' f) -> U ≡ U' -> finv U' c' x.
Proof.
  intros [A1 A2 A3 A9 A4 A5 A6 A7 A8] Hc HU. split; try done.
  - intros f y Hf. rewrite <- Hc. by apply A1.
  - intros f. rewrite <- Hc. apply A2.
  - intros f. rewrite <- Hc. apply A3.
  - intros f. rewrite <- Hc, <- HU. apply A9.
  - intros f y Hf. rewrite <- Hc, <- HU. by apply A4.
  - intros f y Hf. rewrite <- Hc, <- HU. by apply A5.
Qed.

Lemma wlp_getf f (Q : file -> files B P -> Prop) x :
  (forall y, ftable x !! f = Some y -> Q y x) -> wlp (getf f) Q x.
Proof. intros HQ. unfold getf, wlp. destruct (ftable x !! f) eqn:E; [by apply HQ|done]. Qed.

(** Changing one file. *)
Lemma lookup_updf x f g y' (h : file -> file) :
  ftable (set_ftable (alter h f) x) !! g = Some y' ->
  (g = f /\ exists y, ftable x !! f = Some y /\ y' = h y) \/ (g <> f /\ ftable x !! g = Some y').
Proof.
  cbn. destruct (decide (g = f)) as [->|Hne].
  - rewrite list_lookup_alter_eq. destruct (ftable x !! f) as [y|]; [|done]. cbn. naive_solver.
  - rewrite list_lookup_alter_ne by done. naive_solver.
Qed.

Lemma finv_upd U U' c c' x f h y :
  finv U c x -> ftable x !! f = Some y ->
  (forall g, g <> f -> c' g = c g /\ (g ∈ U' <-> g ∈ U)) ->
  fl_ref (h y) = c' f -> 0 <= c' f < 2 ^ 31 ->
  (f ∈ U' -> 0 < c' f) ->
  (c' f = 0 \/ f ∈ U' -> fl_type (h y) = FD_NONE) ->
  (0 < c' f -> f ∉ U' -> file_typed (pipes x) (h y)) ->
  (forall g z, g <> f -> ftable x !! g = Some z -> ~ same_end (h y) z) ->
  finv U' c' (set_ftable (alter h f) x).
Proof.
  intros [A1 A2 A3 A9 A4 A5 A6 A7 A8] Hf Ho H1' H2' H0' H3' H4' H5'. split; try done.
  - intros g z [[-> (y0 & Hy0 & ->)]|[Hne Hz]]%lookup_updf; [by simplify_eq|].
    rewrite (proj1 (Ho g Hne)). by apply A1.
  - intros g Hg. cbn. destruct (decide (g = f)) as [->|Hne].
    + rewrite list_lookup_alter_eq, Hf. by eexists.
    + rewrite list_lookup_alter_ne by done. apply A2. by rewrite <- (proj1 (Ho g Hne)).
  - intros g. destruct (decide (g = f)) as [->|Hne]; [done|]. rewrite (proj1 (Ho g Hne)). apply A3.
  - intros g. destruct (decide (g = f)) as [->|Hne]; [done|]. destruct (Ho g Hne) as [-> ->]. apply A9.
  - intros g z [[-> (y0 & Hy0 & ->)]|[Hne Hz]]%lookup_updf; [by simplify_eq|].
    destruct (Ho g Hne) as [-> ->]. by apply A4.
  - intros g z [[-> (y0 & Hy0 & ->)]|[Hne Hz]]%lookup_updf; [by simplify_eq|].
    destruct (Ho g Hne) as [-> ->]. by apply A5.
  - intros g k z w [[-> (y0 & Hy0 & ->)]|[Hne Hz]]%lookup_updf
      [[-> (y1 & Hy1 & ->)]|[Hne' Hw]]%lookup_updf He; simplify_eq; [done| | |by eapply A6].
    + by destruct (H5' k w Hne' Hw).
    + destruct (H5' g z Hne Hz). destruct He as (? & ? & ? & ?). by split_and!.
Qed.

Lemma filealloc_inv U c x :
  finv U c x ->
  wlp filealloc (fun o x' => match o with
    | None => x' = x
    | Some f => c f = 0 /\ finv ({[f]} ∪ U) (inc f c) x'
    end) x.
Proof.
  intros I. unfold wlp, filealloc. destruct (list_find _ _) as [[f y]|] eqn:E; [|done].
  apply list_find_Some in E as (Hf & Hr & _). cbn. pose proof (fn_ref _ _ _ I f y Hf) as Hc.
  rewrite Hr in Hc. split; [done|]. eapply finv_upd; [done|done|..]; unfold inc; rewrite ?decide_True by done.
  - intros g Hg. rewrite decide_False by done. split; [done|]. set_solver.
  - cbn. lia.
  - lia.
  - lia.
  - intros _. cbn. apply (fn_none _ _ _ I f y Hf). by left.
  - set_solver.
  - intros g z Hg Hz (Ht & _). cbn in Ht. rewrite (fn_none _ _ _ I f y Hf) in Ht; [done|by left].
Qed.

Lemma filedup_inv U c x f :
  finv U c x -> c f + 1 < 2 ^ 31 -> wlp (filedup f) (fun r x' => r = f /\ finv U (inc f c) x') x.
Proof.
  intros I Hc. unfold filedup. rewrite wlp_bind. apply wlp_getf. intros y Hy.
  destruct (Z.ltb_spec (fl_ref y) 1) as [|Hr]; [done|]. pose proof (fn_ref _ _ _ I f y Hy) as Hcf.
  pose proof (fn_pos _ _ _ I f) as Hp. rewrite wlp_bind. apply wlp_modify, wlp_ret. split; [done|].
  rewrite i32_small by wrap_lia.
  eapply finv_upd; [done|done|..]; unfold inc; rewrite ?decide_True by done; cbn.
  - intros g Hg. by rewrite decide_False.
  - lia.
  - lia.
  - intros. lia.
  - intros [?|HU]; [lia|]. apply (fn_none _ _ _ I f y Hy). by right.
  - intros _ HU. apply (fn_type _ _ _ I f y Hy); [lia|done].
  - intros g z Hg Hz He. apply Hg. symmetry. by apply (fn_ends _ _ _ I f g y z).
Qed.

Lemma onfs_inv {A} U c x (m : M (fs B) A) : finv U c x -> wlp (onfs m) (fun _ x' => finv U c x') x.
Proof.
  intros [A1 A2 A3 A9 A4 A5 A6 A7 A8]. unfold onfs. apply wlp_zoom, wlp_all. intros a b _. by split.
Qed.

(** Dropping the last reference, without what [fileclose] does then. *)
Lemma drop_last U c x f y :
  finv U c x -> ftable x !! f = Some y -> c f = 1 ->
  finv (U ∖ {[f]}) (dec f c) (set_ftable (alter (fun z => set_fl_type FD_NONE (set_fl_ref 0 z)) f) x).
Proof.
  intros I Hy Hc. eapply finv_upd; [done|done|..]; unfold dec; rewrite ?decide_True by done; cbn.
  - intros g Hg. rewrite decide_False by done. split; [done|]. set_solver.
  - lia.
  - lia.
  - set_solver.
  - done.
  - lia.
  - intros g z Hg Hz (Ht & _). done.
Qed.
(** Other pipes, with the files still in order. *)
Lemma finv_pipes U c x m' p' :
  finv U c x ->
  (forall f y, ftable x !! f = Some y -> file_typed (pipes x) y -> file_typed m' y) ->
  (forall k p, m' !! k = Some p -> pipe_freed p = false) -> pg_owns (dom m') p' ->
  finv U c {| ftable := ftable x; pipes := m'; ffs := ffs x; fpages := p' |}.
Proof.
  intros [A1 A2 A3 A9 A4 A5 A6 A7 A8] Ht Ho Hp. split; try done.
  intros f y Hy Hc HU. cbn. eapply Ht; [exact Hy|]. by eapply A5.
Qed.

Lemma close_pipe_inv U c x k p w :
  finv U c x -> pipes x !! k = Some p ->
  (forall g z, ftable x !! g = Some z -> fl_type z = FD_PIPE -> fl_pipe z = Some k -> fl_writable z = negb w) ->
  wlp (close_pipe (Some k) w) (fun _ x' => finv U c x') x.
Proof.
  intros I Hk Hoth. unfold close_pipe. rewrite wlp_bind. unfold getpipe, wlp at 1. rewrite Hk. cbn [fst snd].
  pose proof (fn_pages _ _ _ I) as Hpg. destruct (pipe_freed (pipeclose w p)) eqn:Hfr.
  - rewrite wlp_bind. apply wlp_modify. apply wlp_zoom. cbn [fpages set_pipes].
    eapply wlp_mono; [apply pg_free_law; [exact Hpg|by apply elem_of_dom]|]. intros [] p' Hp'.
    apply (finv_pipes U c x (delete k (pipes x)) p'); [done| | |by rewrite dom_delete_L].
    + intros f y Hy. unfold file_typed. destruct (fl_type y) eqn:Ht; [done| |done].
      intros (j & q & Hj & Hq & He). exists j, q. split_and!; [done| |done].
      rewrite lookup_delete_ne; [done|]. intros <-. rewrite Hk in Hq. injection Hq as <-.
      rewrite (Hoth f y Hy Ht Hj) in He. unfold pipe_freed in Hfr. destruct w, p as [? ? ? [] []]; done.
    + intros j q [_ Hq]%lookup_delete_Some. by eapply (fn_open _ _ _ I).
  - apply wlp_modify. apply (finv_pipes U c x (<[k := pipeclose w p]> (pipes x)) (fpages x)); [done| | |by rewrite dom_insert_lookup_L].
    + intros f y Hy. unfold file_typed. destruct (fl_type y) eqn:Ht; [done| |done].
      intros (j & q & Hj & Hq & He). destruct (decide (j = k)) as [->|Hne].
      * rewrite Hk in Hq. injection Hq as <-. exists k, (pipeclose w p). rewrite lookup_insert_eq.
        split_and!; [done|done|]. rewrite (Hoth f y Hy Ht Hj) in *. by destruct w.
      * exists j, q. rewrite lookup_insert_ne by done. by split_and!.
    + intros j q [[<- <-]|[_ Hq]]%lookup_insert_Some; [done|]. by eapply (fn_open _ _ _ I).
Qed.

Lemma fileclose_inv U c x f :
  finv U c x -> wlp (fileclose f) (fun _ x' => 0 < c f /\
    finv (if decide (c f = 1) then U ∖ {[f]} else U) (dec f c) x') x.
Proof.
  intros I. unfold fileclose. rewrite wlp_bind. apply wlp_getf. intros y Hy.
  destruct (Z.ltb_spec (fl_ref y) 1) as [|Hr]; [done|]. pose proof (fn_ref _ _ _ I f y Hy) as Hc.
  pose proof (fn_pos _ _ _ I f) as Hp. destruct (Z.ltb_spec 0 (fl_ref y - 1)) as [Hgt|Hle].
  - rewrite decide_False by lia. apply wlp_modify. split; [lia|].
    eapply finv_upd; [done|done|..]; unfold dec; rewrite ?decide_True by done; cbn.
    + intros g Hg. by rewrite decide_False.
    + lia.
    + lia.
    + intros. lia.
    + intros [?|HU]; [lia|]. apply (fn_none _ _ _ I f y Hy). by right.
    + intros _ HU. apply (fn_type _ _ _ I f y Hy); [lia|done].
    + intros g z Hg Hz He. apply Hg. symmetry. by apply (fn_ends _ _ _ I f g y z).
  - rewrite decide_True by lia. rewrite wlp_bind. apply wlp_modify.
    pose proof (drop_last U c x f y I Hy ltac:(lia)) as I'. destruct (fl_type y) eqn:Ht.
    + apply wlp_ret. split; [lia|done].
    + assert (f ∉ U) as HfU by (intros HU; rewrite (fn_none _ _ _ I f y Hy) in Ht by (by right); done).
      pose proof (fn_type _ _ _ I f y Hy ltac:(lia) HfU) as Hty. unfold file_typed in Hty. rewrite Ht in Hty.
      destruct Hty as (k & p & Hk & Hpk & He). rewrite Hk.
      eapply wlp_mono; [eapply (close_pipe_inv _ _ _ k p); [exact I'|exact Hpk|]|intros [] x' Hx'; split; [lia|done]].
      intros g z [[-> (y0 & _ & ->)]|[Hne Hz]]%lookup_updf Htz Hkz; [done|].
      destruct (decide (fl_writable z = fl_writable y)) as [Hw|Hw].
      * destruct Hne. apply (fn_ends _ _ _ I g f z y Hz Hy). split_and!; congruence.
      * destruct (fl_writable z), (fl_writable y); done.
    + wlp_step onfs_inv. intros [] x1 I1. rewrite wlp_bind.
      unfold inode_of. destruct (fl_ip y) as [ip|]; [|done]. apply wlp_ret. wlp_step onfs_inv. intros [] x2 I2.
      eapply wlp_mono; [by apply onfs_inv|]. intros [] x3 I3. split; [lia|done].
Qed.

(** Setting up an allocated file as an inode. *)
Lemma set_inode_inv U c x f rd wr ip :
  finv ({[f]} ∪ U) c x -> (f ∉ U) -> wlp (updf f (set_fl_inode rd wr ip)) (fun _ x' => finv U c x') x.
Proof.
  intros I Hf. apply wlp_modify. pose proof (fn_new _ _ _ I f ltac:(set_solver)) as Hc.
  destruct (fn_in _ _ _ I f ltac:(lia)) as [y Hy]. pose proof (fn_pos _ _ _ I f).
  eapply finv_upd; [done|done|..]; cbn; try done.
  - intros g Hg. split; [done|]. set_solver.
  - by apply (fn_ref _ _ _ I).
  - intros [?|?]; [lia|done].
  - intros g z Hg Hz (Ht & _). done.
Qed.

Lemma finv_pipe_in U c x f y k :
  finv U c x -> ftable x !! f = Some y -> fl_type y = FD_PIPE -> fl_pipe y = Some k -> k ∈ dom (pipes x).
Proof.
  intros I Hy Ht Hk. destruct (decide (c f = 0 \/ f ∈ U)) as [Hn|Hn].
  { by rewrite (fn_none _ _ _ I f y Hy Hn) in Ht. }
  pose proof (fn_pos _ _ _ I f). pose proof (fn_type _ _ _ I f y Hy ltac:(lia) ltac:(tauto)) as Hty.
  unfold file_typed in Hty. rewrite Ht in Hty. destruct Hty as (j & p & Hj & Hp & _).
  apply elem_of_dom. exists p. congruence.
Qed.

Lemma inc_ne f g c : g <> f -> inc f c g = c g.
Proof. intros. unfold inc. by rewrite decide_False. Qed.
Lemma dec_inc f c g : dec f (inc f c) g = c g.
Proof. unfold dec, inc. destruct (decide (g = f)); lia. Qed.

(** Giving back a file that [filealloc] returned. *)
Lemma close_new U c x f :
  finv ({[f]} ∪ U) (inc f c) x -> c f = 0 -> (f ∉ U) -> wlp (fileclose f) (fun _ x' => finv U c x') x.
Proof.
  intros I Hc Hf. eapply wlp_mono; [by apply fileclose_inv|]. intros [] x' [_ I'].
  assert (inc f c f = 1) as E by (unfold inc; rewrite decide_True by done; lia).
  rewrite decide_True in I' by done. eapply finv_ext; [exact I'|apply dec_inc|set_solver].
Qed.

(** Setting up an allocated file as an end of a pipe that no file has. *)
Lemma set_pipe_inv U c x f (w : bool) k p :
  finv ({[f]} ∪ U) c x -> (f ∉ U) -> pipes x !! k = Some p ->
  (if w then writeopen p else readopen p) = true ->
  (forall g z, g <> f -> ftable x !! g = Some z -> fl_type z = FD_PIPE -> fl_pipe z = Some k ->
    fl_writable z = negb w) ->
  wlp (updf f (set_fl_pipe (negb w) w k)) (fun _ x' => finv U c x' /\ pipes x' = pipes x /\
    ftable x' = alter (set_fl_pipe (negb w) w k) f (ftable x)) x.
Proof.
  intros I Hf Hk Hw Hoth. apply wlp_modify. split; [|done].
  pose proof (fn_new _ _ _ I f ltac:(set_solver)) as Hc.
  destruct (fn_in _ _ _ I f ltac:(lia)) as [y Hy]. pose proof (fn_pos _ _ _ I f).
  eapply finv_upd; [done|done|..]; try done.
  - intros g Hg. split; [done|]. set_solver.
  - exact (fn_ref _ _ _ I f y Hy).
  - intros [?|?]; [lia|done].
  - intros _ _. exists k, p. by split_and!.
  - intros g z Hg Hz (_ & Ht & Hp & Hwr). cbn in *. symmetry in Hp.
    pose proof (Hoth g z Hg Hz Ht Hp). by destruct w, (fl_writable z).
Qed.

Lemma pipealloc_inv c x :
  finv ∅ c x ->
  wlp pipealloc (fun o x' => match o with
    | None => finv ∅ c x'
    | Some (f0, f1) => f0 <> f1 /\ c f0 = 0 /\ c f1 = 0 /\ finv ∅ (inc f1 (inc f0 c)) x'
    end) x.
Proof.
  intros I. unfold pipealloc. wlp_step filealloc_inv.
  intros [f0|] x0; [intros [H0' I0]|intros ->]; [|by unfold pipe_bad; wlp_run].
  wlp_step filealloc_inv. intros [f1|] x1.
  2: { intros ->. unfold pipe_bad. wlp_step (close_new ∅ c).
       intros [] x' I'. by wlp_run. }
  intros [H1' I1]. assert (f1 <> f0) as Hne.
  { intros ->. unfold inc in H1'. rewrite decide_True in H1' by done. lia. }
  rewrite inc_ne in H1' by done. rewrite wlp_bind. apply wlp_zoom.
  eapply wlp_mono; [apply pg_alloc_law; apply I1|]. intros p p' [Hz Hnz].
  assert (forall q, pg_owns (dom (pipes x1)) q -> finv ({[f1]} ∪ ({[f0]} ∪ ∅)) (inc f1 (inc f0 c)) (set_fpages q x1))
    as I1q by (intros q Hq; destruct I1 as [? ? ? ? ? ? ? ? ?]; by split).
  destruct (Z.eqb_spec p 0) as [Hp0|Hp0].
  - unfold pipe_bad. rewrite wlp_bind. eapply wlp_mono.
    + exact (fileclose_inv _ _ _ f0 (I1q _ (Hz Hp0))).
    + intros [] x2 [_ I2]. rewrite wlp_bind. eapply wlp_mono; [apply (close_new ∅ c)|].
      * eapply finv_ext; [exact I2| |].
        -- intros g. unfold dec, inc. destruct (decide (g = f0)), (decide (g = f1)); subst; try done; lia.
        -- assert (inc f1 (inc f0 c) f0 = 1) as ->.
           { unfold inc. rewrite decide_False, decide_True by done. lia. }
           rewrite decide_True by done. set_solver.
      * done.
      * set_solver.
      * intros [] x3 I3. by wlp_run.
  - destruct (Hnz Hp0) as [Hfresh Howns].
    assert (forall f y k, ftable x1 !! f = Some y -> fl_type y = FD_PIPE -> fl_pipe y = Some k ->
      k <> p) as Hother.
    { intros f y k Hy Ht Hk ->. by apply Hfresh, (finv_pipe_in _ _ _ f y p I1). }
    rewrite wlp_bind. apply wlp_gets. rewrite wlp_bind. apply wlp_modify.
    set (new := pipe_new _). set (x2 := set_pipes _ _).
    assert (finv ({[f0]} ∪ {[f1]}) (inc f1 (inc f0 c)) x2) as I2.
    { eapply (finv_ext ({[f1]} ∪ ({[f0]} ∪ ∅))); [|done|set_solver].
      apply (finv_pipes _ _ x1 (<[p := new]> (pipes x1)) p'); [done| | |by rewrite dom_insert_L].
      - intros f y Hy. unfold file_typed. destruct (fl_type y) eqn:Ht; [done| |done].
        intros (k & q & Hk & Hq & He). exists k, q. split_and!; [done| |done].
        rewrite lookup_insert_ne; [done|]. apply not_eq_sym. by eapply Hother.
      - intros k q [[<- <-]|[_ Hq]]%lookup_insert_Some; [done|]. by eapply (fn_open _ _ _ I1). }
    assert (pipes x2 !! p = Some new) as Hp by apply lookup_insert_eq.
    rewrite wlp_bind. eapply wlp_mono; [apply (set_pipe_inv {[f1]} _ x2 f0 false p new I2); [set_solver|done|done|]|].
    { intros g z _ Hgz Ht Hk. by destruct (Hother g z p Hgz Ht Hk). }
    intros [] x3 (I3 & Hp3 & Hf3). rewrite wlp_bind. eapply wlp_mono.
    { apply (set_pipe_inv ∅ (inc f1 (inc f0 c)) x3 f1 true p new); [|set_solver|by rewrite Hp3|done|].
      - eapply finv_ext; [exact I3|done|set_solver].
      - intros g z _. rewrite Hf3. destruct (decide (g = f0)) as [->|Hg0].
        + rewrite list_lookup_alter_eq. destruct (ftable x2 !! f0); [|done]. by intros [= <-].
        + rewrite list_lookup_alter_ne by done. intros Hgz Ht Hk. by destruct (Hother g z p Hgz Ht Hk). }
    intros [] x4 (I4 & _). apply wlp_ret. by split_and!.
Qed.

(** ** Reading and writing *)

Lemma set_off_inv U c x f z : finv U c x -> wlp (updf f (set_fl_off z)) (fun _ x' => finv U c x') x.
Proof.
  intros I. apply wlp_modify. destruct (ftable x !! f) as [y|] eqn:Hy.
  - eapply finv_upd; [done|done|..]; try done.
    + exact (fn_ref _ _ _ I f y Hy).
    + apply I.
    + apply I.
    + apply (fn_none _ _ _ I f y Hy).
    + apply (fn_type _ _ _ I f y Hy).
    + intros g w Hg Hw He. apply Hg. symmetry. by apply (fn_ends _ _ _ I f g y w).
  - eapply finv_ext; [|done|done]. replace (set_ftable _ x) with x; [done|].
    destruct x as [t ps fx pg]. unfold set_ftable. cbn in *. f_equal. symmetry. apply list_eq. intros g.
    destruct (decide (g = f)) as [->|]; [by rewrite list_lookup_alter_eq, Hy|by rewrite list_lookup_alter_ne].
Qed.

(** Bytes move through a pipe. *)
Lemma putpipe_inv U c x k p p' :
  finv U c x -> pipes x !! k = Some p -> readopen p' = readopen p -> writeopen p' = writeopen p ->
  wlp (putpipe k p') (fun _ x' => finv U c x') x.
Proof.
  intros I Hk Hr Hw. apply wlp_modify.
  apply (finv_pipes U c x (<[k := p']> (pipes x)) (fpages x)); [done| | |].
  - intros f y Hy. unfold file_typed. destruct (fl_type y); [done| |done].
    intros (j & q & Hj & Hq & He). destruct (decide (j = k)) as [->|Hne].
    + exists k, p'. rewrite lookup_insert_eq, Hr, Hw. rewrite Hk in Hq. injection Hq as <-. by split_and!.
    + exists j, q. rewrite lookup_insert_ne by done. by split_and!.
  - intros j q [[<- <-]|[_ Hq]]%lookup_insert_Some; [|by eapply (fn_open _ _ _ I)].
    pose proof (fn_open _ _ _ I k p Hk) as Hf. unfold pipe_freed in *. by rewrite Hr, Hw.
  - rewrite dom_insert_lookup_L by (by eexists). apply I.
Qed.

Lemma read_loop_ends n p :
  readopen (read_loop n p).1 = readopen p /\ writeopen (read_loop n p).1 = writeopen p.
Proof.
  revert p. induction n as [|n IH]; intros p; cbn [read_loop]; [done|].
  destruct (nread p =? nwrite p); [done|]. specialize (IH (drop_byte p)).
  destruct (read_loop n (drop_byte p)). done.
Qed.

Lemma piperead_ends k n p :
  readopen (piperead k n p).1 = readopen p /\ writeopen (piperead k n p).1 = writeopen p.
Proof.
  unfold piperead. destruct (_ && _); [by destruct k|]. pose proof (read_loop_ends (Z.to_nat n) p).
  by destruct (read_loop (Z.to_nat n) p).
Qed.

Lemma pipewrite_ends k n l p :
  readopen (pipewrite_from k n l p).1 = readopen p /\ writeopen (pipewrite_from k n l p).1 = writeopen p.
Proof.
  revert p. induction l as [|b l IH]; intros p; cbn [pipewrite_from]; [done|].
  destruct (is_full p); [by destruct (_ || _)|]. apply (IH (put_byte b p)).
Qed.

Lemma wlp_getpipe o (Q : Z * pipe -> files B P -> Prop) x :
  (forall k p, pipes x !! k = Some p -> Q (k, p) x) -> wlp (getpipe o) Q x.
Proof.
  intros HQ. unfold getpipe, wlp. destruct o as [k|]; [|done]. destruct (pipes x !! k) eqn:E; [by apply HQ|done].
Qed.

Lemma wlp_inode_of y (Q : nat -> files B P -> Prop) x : (forall ip, Q ip x) -> wlp (inode_of y) Q x.
Proof. intros HQ. unfold inode_of. by destruct (fl_ip y); [apply wlp_ret|]. Qed.

Context (devread : Z -> option (nat -> Z -> M (fs B) (Z * list Z))).
Context (devwrite : Z -> option (nat -> list Z -> M (fs B) Z)).

Lemma fileread_inv U c x killed f n :
  finv U c x -> wlp (fileread devread killed f n) (fun _ x' => finv U c x') x.
Proof.
  intros I. unfold fileread. rewrite wlp_bind. apply wlp_getf. intros y _.
  destruct (fl_readable y); [|by wlp_run]. cbn [negb]. destruct (fl_type y); [done|..].
  - rewrite wlp_bind. apply wlp_getpipe. intros k p Hk. cbn [fst snd].
    pose proof (piperead_ends killed n p) as [Hr Hw]. destruct (piperead killed n p) as [p' r]. cbn in Hr, Hw.
    wlp_step putpipe_inv. intros [] x' I'. by wlp_run.
  - rewrite wlp_bind. apply wlp_inode_of. intros ip.
    wlp_step onfs_inv. intros [] x1 I1.
    rewrite wlp_bind. apply wlp_getf. intros z _.
    wlp_step onfs_inv. intros r x2 I2.
    rewrite wlp_bind. eapply (wlp_mono _ (fun _ x' => finv U c x')).
    { destruct (0 <? r.1); [by apply set_off_inv|by apply wlp_ret]. }
    intros [] x3 I3. wlp_step onfs_inv. intros [] x4 I4. by wlp_run.
Qed.

Lemma write_chunk_inv U c x f ip src n1 :
  finv U c x -> wlp (write_chunk devwrite f ip src n1) (fun _ x' => finv U c x') x.
Proof.
  intros I. unfold write_chunk.
  wlp_step onfs_inv. intros [] x1 I1.
  wlp_step onfs_inv. intros [] x2 I2.
  rewrite wlp_bind. apply wlp_getf. intros y _.
  wlp_step onfs_inv. intros r x3 I3.
  rewrite wlp_bind. eapply (wlp_mono _ (fun _ x' => finv U c x')).
  { destruct (0 <? r); [by apply set_off_inv|by apply wlp_ret]. }
  intros [] x4 I4. wlp_step onfs_inv. intros [] x5 I5.
  wlp_step onfs_inv. intros [] x6 I6. by wlp_run.
Qed.

Lemma write_loop_inv fuel U c x f ip l i n :
  finv U c x -> wlp (write_loop devwrite fuel f ip l i n) (fun _ x' => finv U c x') x.
Proof.
  revert x i. induction fuel as [|fuel IH]; intros x i I; cbn [write_loop];
    (destruct (i <? n); [|by wlp_run]); [done|].
  wlp_step write_chunk_inv. intros r x' I'.
  destruct (r <? 0); [by wlp_run|]. destruct (negb _); [done|]. by apply IH.
Qed.

Lemma filewrite_inv U c x killed f l :
  finv U c x -> wlp (filewrite devwrite killed f l) (fun _ x' => finv U c x') x.
Proof.
  intros I. unfold filewrite. rewrite wlp_bind. apply wlp_getf. intros y _.
  destruct (fl_writable y); [|by wlp_run]. cbn [negb]. destruct (fl_type y); [done|..].
  - rewrite wlp_bind. apply wlp_getpipe. intros k p Hk. cbn [fst snd]. unfold pipewrite.
    pose proof (pipewrite_ends killed (Z.of_nat (length l)) l p) as [Hr Hw].
    destruct (pipewrite_from killed _ l p) as [p' r]. cbn in Hr, Hw.
    wlp_step putpipe_inv. intros [] x' I'. by wlp_run.
  - rewrite wlp_bind. apply wlp_inode_of. intros ip.
    wlp_step write_loop_inv. intros r x' I'. by wlp_run.
Qed.

Lemma filestat_inv U c x f : finv U c x -> wlp (filestat f) (fun _ x' => finv U c x') x.
Proof.
  intros I. unfold filestat. rewrite wlp_bind. apply wlp_getf. intros y _.
  destruct (fl_type y); [by wlp_run|by wlp_run|]. rewrite wlp_bind. apply wlp_inode_of. intros ip.
  wlp_step onfs_inv. intros [] x1 I1.
  wlp_step onfs_inv. intros st x2 I2.
  wlp_step onfs_inv. intros [] x3 I3. by wlp_run.
Qed.
End ftable.

(** ** Counting descriptors *)

Definition occ (f : nat) (l : list (option nat)) : nat := length (filter (fun o => o = Some f) l).

Lemma occ_app f l l' : occ f (l ++ l') = (occ f l + occ f l')%nat.
Proof. unfold occ. by rewrite filter_app, length_app. Qed.

Lemma occ_cons f o l : occ f (o :: l) = ((if decide (o = Some f) then 1 else 0) + occ f l)%nat.
Proof. unfold occ. rewrite filter_cons. by destruct (decide _). Qed.

Lemma occ_none f l : Forall (fun o => o = None) l -> occ f l = 0%nat.
Proof. induction 1 as [|o l -> _ IH]; [done|]. by rewrite occ_cons, decide_False. Qed.

Lemma occ_le f l : (occ f l <= length l)%nat.
Proof. unfold occ. apply length_filter. Qed.

Lemma occ_insert f l k o o' :
  l !! k = Some o ->
  (occ f (<[k := o']> l) + (if decide (o = Some f) then 1 else 0) =
   occ f l + (if decide (o' = Some f) then 1 else 0))%nat.
Proof.
  intros Hk. rewrite insert_take_drop by (by eapply lookup_lt_Some).
  rewrite <- (take_drop_middle l k o Hk) at 3. rewrite !occ_app, !occ_cons. lia.
Qed.

(** All descriptors of all processes. *)
Definition fds (ps : list proc) : list (option nat) := mjoin (p_ofile <$> ps).

Lemma fds_cons p ps : fds (p :: ps) = p_ofile p ++ fds ps.
Proof. done. Qed.
Lemma fds_app ps ps' : fds (ps ++ ps') = fds ps ++ fds ps'.
Proof. unfold fds. by rewrite fmap_app, join_app. Qed.

Lemma fds_insert f ps i p p' :
  ps !! i = Some p ->
  (occ f (fds (<[i := p']> ps)) + occ f (p_ofile p) = occ f (fds ps) + occ f (p_ofile p'))%nat.
Proof.
  intros Hi. rewrite insert_take_drop by (by eapply lookup_lt_Some).
  rewrite <- (take_drop_middle ps i p Hi) at 3.
  rewrite !fds_app, !fds_cons, !occ_app. lia.
Qed.

Lemma fmap_alter_same {A C} (g : A -> C) (h : A -> A) (i : nat) (l : list A) :
  (forall p, g (h p) = g p) -> g <$> alter h i l = g <$> l.
Proof.
  intros Hg. revert i. induction l as [|a l IH]; intros [|i]; cbn; [done|done|by rewrite Hg|]. f_equal. apply IH.
Qed.

(** A slot that is free or a zombie has no descriptors. *)
Definition slot_ok (p : proc) : Prop :=
  length (p_ofile p) = Z.to_nat NOFILE /\
  (p_state p = UNUSED \/ p_state p = ZOMBIE -> Forall (fun o => o = None) (p_ofile p)).
Record fds_ok (ps : list proc) : Prop := {
  fo_procs : length ps = Z.to_nat NPROC;
  fo_slots : Forall slot_ok ps
}.

Lemma length_fds ps : fds_ok ps -> length (fds ps) = 1024%nat.
Proof.
  intros [Hn Hs]. assert (length (fds ps) = length ps * 16)%nat as E; [|by rewrite E, Hn].
  clear Hn. induction Hs as [|p ps [Hl _] _ IH]; [done|].
  rewrite fds_cons, length_app, IH, Hl. done.
Qed.

Lemma fds_ok_insert ps i p' : fds_ok ps -> slot_ok p' -> fds_ok (<[i := p']> ps).
Proof. intros [Hn Hs] Hp. split; [by rewrite length_insert|]. by apply Forall_insert. Qed.

Create HintDb pres.
Create HintDb finv.
#[export] Hint Resolve fileread_inv filewrite_inv filestat_inv : finv.

(** ** The calls *)

Section calls.
Context {K B P : Type} `{KOps K} `{UserOps K} `{BlockOps B} `{TxnOps B} `{PageLaws P}.
Context (get_sysf : K -> sysf B P) (set_sysf : sysf B P -> K -> K).
Context (devread : Z -> option (nat -> Z -> M (fs B) (Z * list Z))).
Context (devwrite : Z -> option (nat -> list Z -> M (fs B) Z)).
Context (junk : list Z).
Implicit Types (s : ptable K) (U : gset nat) (E : list nat).

#[local] Abbreviation files_of s := (sfiles (get_sysf (kst s))).

(** The files of the state are those the calls change. *)
Hypothesis get_set : forall x k, get_sysf (set_sysf x k) = x.

(** An operation on the rest of the kernel that leaves open files, pipes and
    the pages of pipes alone. *)
Definition quiet {A} (c : M K A) : Prop := forall k,
  wlp c (fun _ k' =>
    ftable (sfiles (get_sysf k')) = ftable (sfiles (get_sysf k)) /\
    pipes (sfiles (get_sysf k')) = pipes (sfiles (get_sysf k)) /\
    forall X, pg_owns X (fpages (sfiles (get_sysf k))) -> pg_owns X (fpages (sfiles (get_sysf k')))) k.

Record quiet_ops : Prop := {
  q_load_user : forall a b, quiet (k_load_user a b);
  q_load_byte : forall a b, quiet (k_load_byte a b);
  q_store_byte : forall a b c, quiet (k_store_byte a b c);
  q_store_user : forall a b c, quiet (k_store_user a b c);
  q_kalloc : quiet k_kalloc;
  q_kfree : forall a, quiet (k_kfree a);
  q_setupkvm : quiet k_setupkvm;
  q_copyuvm : forall a b, quiet (k_copyuvm a b);
  q_allocuvm : forall a b c, quiet (k_allocuvm a b c);
  q_freevm : forall a, quiet (k_freevm a);
  q_clearpteu : forall a b, quiet (k_clearpteu a b);
  q_copyout : forall a b c, quiet (k_copyout a b c);
  q_loaduvm : forall a b c d e, quiet (k_loaduvm a b c d e);
  q_idup : forall i, quiet (k_idup i);
  q_iput_op : forall i, quiet (k_iput_op i)
}.
Hypothesis Hquiet : quiet_ops.
(** [fork] and [exit] use the operations of file.c. *)
Hypothesis Hdup : forall f k, k_filedup f k =
  (zoom get_sysf set_sysf (zoom sfiles set_sfiles (filedup f));;; ret tt) k.
Hypothesis Hclose : forall f k, k_fileclose f k =
  zoom get_sysf set_sysf (zoom sfiles set_sfiles (fileclose f)) k.

(** Descriptors, and the references [E] that the running call holds besides. *)
Definition refs (ps : list proc) E (f : nat) : Z :=
  Z.of_nat (occ f (fds ps)) + Z.of_nat (occ f (Some <$> E)).
Lemma refs_cons ps f E g : refs ps (f :: E) g = inc f (refs ps E) g.
Proof.
  unfold refs, inc. rewrite fmap_cons, occ_cons.
  destruct (decide (g = f)) as [->|Hne]; [rewrite decide_True by done|rewrite decide_False by congruence]; lia.
Qed.

(** The process that makes the call. *)
Context (me : nat).
Record cinv U E s : Prop := {
  ki_fds : fds_ok (procs s);
  ki_files : finv U (refs (procs s) E) (files_of s);
  ki_run : exists p, procs s !! me = Some p /\ p_state p = RUNNING
}.

Lemma onk_keep {A} (c : M K A) U E s :
  quiet c -> cinv U E s -> wlp (onk c) (fun _ s' => cinv U E s' /\ procs s' = procs s) s.
Proof.
  intros Hc [If Ix Ir]. unfold onk. apply wlp_zoom. eapply wlp_mono; [apply Hc|].
  intros a k' (H1' & H2' & H3'). split; [|done]. split; [done| |done]. cbn [procs kst set_kst].
  destruct (sfiles (get_sysf k')) as [t ps fx pg]. destruct (files_of s) as [t' ps' fx' pg'].
  cbn in *. subst. destruct Ix as [? ? ? ? ? ? ? ? ?]. split; try done. by apply H3'.
Qed.

(** Calls that keep the invariant, whatever the references in hand. *)
Definition pres {A} (c : M (ptable K) A) : Prop :=
  forall U E s, cinv U E s -> wlp c (fun _ s' => cinv U E s') s.

Lemma pres_ret {A} (a : A) : pres (ret a).
Proof. intros U E s I. by apply wlp_ret. Qed.
Lemma pres_panic {A} m : pres (panic (A := A) m).
Proof. done. Qed.
Lemma pres_fault {A} : pres (fault (A := A)).
Proof. done. Qed.

Lemma pres_bind {A C} (c : M (ptable K) A) (k : A -> M (ptable K) C) :
  pres c -> (forall a, pres (k a)) -> pres (bind c k).
Proof.
  intros Hc Hk U E s I. rewrite wlp_bind. eapply wlp_mono; [by apply Hc|]. intros a s1 I1. by apply Hk.
Qed.

Lemma pres_getp i : pres (getp i).
Proof. intros U E s I. unfold getp, wlp. by destruct (procs s !! i). Qed.

Lemma pres_onk {A} (c : M K A) : quiet c -> pres (onk c).
Proof. intros Hc U E s I. eapply wlp_mono; [by apply onk_keep|]. by intros a s' []. Qed.

(** An operation on the files. *)
Lemma onfiles_wlp {A} (c : M (files B P) A) (Q : A -> ptable K -> Prop) U n s :
  finv U n (files_of s) ->
  (forall x, finv U n x -> wlp c (fun a x' =>
    forall k', sfiles (get_sysf k') = x' -> Q a (set_kst k' s)) x) ->
  wlp (onfiles get_sysf set_sysf me c) Q s.
Proof.
  intros I Hc. unfold onfiles. rewrite wlp_bind. unfold getp, wlp at 1. destruct (procs s !! me) as [p|]; [|done].
  unfold onsys, onk. apply wlp_zoom, wlp_zoom, wlp_zoom. unfold run_as. rewrite !wlp_bind.
  eapply wlp_mono; [by apply onfs_inv|]. intros [] x1 I1.
  eapply wlp_mono; [by apply onfs_inv|]. intros [] x2 I2. eapply wlp_mono; [by apply Hc|].
  intros a x3 HQ. apply HQ. by rewrite get_set.
Qed.

Lemma pres_onfiles {A} (c : M (files B P) A) :
  (forall U n x, finv U n x -> wlp c (fun _ x' => finv U n x') x) ->
  pres (onfiles get_sysf set_sysf me c).
Proof.
  intros Hc U E s [If Ix Ir]. eapply onfiles_wlp; [done|]. intros x Hx. eapply wlp_mono; [by apply Hc|].
  intros a x' Hx' k' Ek. split; [done| |done]. cbn. by rewrite Ek.
Qed.

Lemma pres_oninodes {A} (c : M (fs B) A) : pres (oninodes get_sysf set_sysf me c).
Proof. apply pres_onfiles. intros U n x I. by apply onfs_inv. Qed.

(** Changes of a slot that are not of its descriptors. *)
Lemma pres_updp i (h : proc -> proc) :
  (forall p, p_ofile (h p) = p_ofile p /\ p_state (h p) = p_state p) -> pres (updp i h).
Proof.
  intros Hh U E s [[Hn Hs] Ix (p & Hp & Hr)]. apply wlp_modify. split.
  - split; cbn; [by rewrite length_alter|]. apply Forall_alter; [done|]. intros q Hq [Hl Hst].
    destruct (Hh q) as [Ho He]. unfold slot_ok. by rewrite Ho, He.
  - eapply finv_ext; [exact Ix| |done]. intros f. unfold refs, fds. cbn [procs set_procs].
    rewrite fmap_alter_same; [done|]. intros q. apply Hh.
  - cbn. destruct (decide (me = i)) as [<-|Hne].
    + rewrite list_lookup_alter_eq, Hp. eexists. split; [done|]. by rewrite (proj2 (Hh p)).
    + rewrite list_lookup_alter_ne by done. by exists p.
Qed.

Lemma quiet_bind {A C} (c : M K A) (k : A -> M K C) : quiet c -> (forall a, quiet (k a)) -> quiet (bind c k).
Proof.
  intros Hc Hk x. rewrite wlp_bind. eapply wlp_mono; [apply Hc|]. intros a x1 (E1 & E2 & E3).
  eapply wlp_mono; [apply Hk|]. intros b x2 (F1 & F2 & F3). split_and!; [congruence..|]. auto.
Qed.
Lemma quiet_ret {A} (a : A) : quiet (ret a).
Proof. intros x. by apply wlp_ret. Qed.

(** Case analysis and sequencing of calls that keep the invariant. *)
Ltac pres_auto :=
  repeat first
    [ solve [auto 1 with pres nocore]
    | apply pres_onfiles; intros; solve [auto 2 with finv nocore]
    | apply pres_ret | apply pres_panic | apply pres_fault | apply pres_getp | apply pres_oninodes
    | apply pres_bind; [|intros ?]
    | apply quiet_ret | apply (q_load_user Hquiet) | apply (q_load_byte Hquiet) | apply (q_store_byte Hquiet)
    | apply (q_setupkvm Hquiet) | apply (q_allocuvm Hquiet) | apply (q_freevm Hquiet)
    | apply (q_clearpteu Hquiet) | apply (q_copyout Hquiet) | apply (q_loaduvm Hquiet)
    | apply quiet_bind; [|intros ?]
    | apply pres_onk
    | case_match ].

Lemma pres_fetchint a : pres (fetchint me a).
Proof. unfold fetchint. pres_auto. Qed.
#[local] Hint Resolve pres_fetchint : pres.

Lemma quiet_fetchstr pg a n len : quiet (fetchstr_from pg a n len).
Proof. revert a len. induction n as [|n IH]; intros a len; cbn [fetchstr_from]; pres_auto. Qed.
#[local] Hint Resolve quiet_fetchstr : pres.

Lemma pres_fetchstr a : pres (fetchstr me a).
Proof. unfold fetchstr. pres_auto. Qed.
#[local] Hint Resolve pres_fetchstr : pres.

Lemma pres_argint n : pres (argint me n).
Proof. unfold argint. pres_auto. Qed.
#[local] Hint Resolve pres_argint : pres.

Lemma pres_argptr n z : pres (argptr me n z).
Proof. unfold argptr. pres_auto. Qed.
#[local] Hint Resolve pres_argptr : pres.

Lemma quiet_user_bytes pg a n : quiet (user_bytes pg a n).
Proof. revert a. induction n as [|n IH]; intros a; cbn [user_bytes]; pres_auto. Qed.
#[local] Hint Resolve quiet_user_bytes : pres.

Lemma quiet_store_bytes pg a l : quiet (store_bytes pg a l).
Proof. revert a. induction l as [|c l IH]; intros a; cbn [store_bytes]; pres_auto. Qed.
#[local] Hint Resolve quiet_store_bytes : pres.

Lemma pres_read_user a n : pres (read_user me a n).
Proof. unfold read_user. pres_auto. Qed.
#[local] Hint Resolve pres_read_user : pres.

Lemma pres_write_user a l : pres (write_user me a l).
Proof. unfold write_user. pres_auto. Qed.
#[local] Hint Resolve pres_write_user : pres.

Lemma pres_argpath n : pres (argpath me n).
Proof.
  unfold argpath, argstr. pres_auto.
Qed.
#[local] Hint Resolve pres_argpath : pres.

Lemma pres_with_arg n (k : Z -> M (ptable K) wait_res) : (forall z, pres (k z)) -> pres (with_arg me n k).
Proof. intros Hk. unfold with_arg. apply pres_bind; [apply pres_argint|]. intros [z|]; [apply Hk|apply pres_ret]. Qed.

Lemma pres_cwd_of : pres (cwd_of me).
Proof. unfold cwd_of. pres_auto. Qed.
#[local] Hint Resolve pres_cwd_of : pres.

Lemma pres_onsys {A} (c : M (sysf B P) A) :
  (forall x, wlp c (fun _ x' => sfiles x' = sfiles x) x) -> pres (onsys get_sysf set_sysf c).
Proof.
  intros Hc. apply pres_onk. intros k. apply wlp_zoom. eapply wlp_mono; [apply Hc|]. intros a x' Ex.
  rewrite get_set, Ex. done.
Qed.

Lemma pres_argfd n : pres (argfd me n).
Proof. unfold argfd. pres_auto. Qed.
#[local] Hint Resolve pres_argfd : pres.

Lemma pres_arg_buffer : pres (arg_buffer me).
Proof. unfold arg_buffer. pres_auto. Qed.
#[local] Hint Resolve pres_arg_buffer : pres.

(** ** Calls on open files and paths *)

Lemma pres_sys_read : pres (sys_read get_sysf set_sysf devread me).
Proof.
  unfold sys_read. apply pres_bind; [apply pres_onsys; intros x; by apply wlp_modify|intros ?].
  pres_auto.
Qed.

Lemma pres_sys_getreadcount : pres (sys_getreadcount get_sysf set_sysf me).
Proof.
  unfold sys_getreadcount. apply pres_bind; [apply pres_onsys; intros x; by apply wlp_gets|intros ?]. pres_auto.
Qed.

Lemma pres_sys_write : pres (sys_write get_sysf set_sysf devwrite me).
Proof. unfold sys_write. pres_auto. Qed.

Lemma pres_sys_fstat : pres (sys_fstat get_sysf set_sysf me).
Proof. unfold sys_fstat, store_stat. pres_auto. Qed.

Lemma pres_returning (c : M (ptable K) Z) : pres c -> pres (returning c).
Proof. intros. unfold returning. pres_auto. Qed.
#[local] Hint Resolve pres_returning pres_oninodes : pres.

Lemma pres_sys_link : pres (sys_link get_sysf set_sysf devread devwrite junk me).
Proof. unfold sys_link. pres_auto. Qed.

Lemma pres_sys_unlink : pres (sys_unlink get_sysf set_sysf devread devwrite junk me).
Proof. unfold sys_unlink. pres_auto. Qed.

Lemma pres_sys_mkdir : pres (sys_mkdir get_sysf set_sysf devread devwrite junk me).
Proof. unfold sys_mkdir. pres_auto. Qed.

Lemma pres_sys_mknod : pres (sys_mknod get_sysf set_sysf devread devwrite junk me).
Proof. unfold sys_mknod. pres_auto. Qed.

Lemma pres_sys_chdir : pres (sys_chdir get_sysf set_sysf devread me).
Proof. unfold sys_chdir. pres_auto. apply pres_updp. by intros []. Qed.

Lemma pres_exec_load ip pg n off sz : pres (exec_load get_sysf set_sysf devread me ip pg n off sz).
Proof. revert off sz. induction n as [|n IH]; intros off sz; cbn [exec_load]; pres_auto. Qed.

Lemma quiet_push_args pg argc args sp : quiet (push_args pg argc args sp).
Proof. revert argc sp. induction args as [|a args IH]; intros argc sp; cbn [push_args]; pres_auto. Qed.
#[local] Hint Resolve pres_exec_load quiet_push_args : pres.

Lemma pres_exec_stack path args entry pg sz : pres (exec_stack me path args entry pg sz).
Proof. unfold exec_stack. pres_auto. apply pres_updp. by intros []. Qed.
#[local] Hint Resolve pres_exec_stack : pres.

Lemma pres_exec path args : pres (exec get_sysf set_sysf devread me path args).
Proof. unfold exec, exec_bad. pres_auto. Qed.
#[local] Hint Resolve pres_exec : pres.

Lemma pres_fetch_argv n uargv i : pres (fetch_argv me n uargv i).
Proof. revert i. induction n as [|n IH]; intros i; cbn [fetch_argv]; pres_auto. Qed.
#[local] Hint Resolve pres_fetch_argv : pres.

Lemma pres_sys_exec : pres (sys_exec get_sysf set_sysf devread me).
Proof. unfold sys_exec. pres_auto. Qed.

(** ** Calls that make or drop descriptors *)

(** The table with one descriptor of [me] changed. *)
Definition with_fd (fd : Z) (o : option nat) s : ptable K := set_procs (alter (set_fd fd o) me) s.

Lemma refs_with_fd s p fd o o' E g :
  procs s !! me = Some p -> p_ofile p !! Z.to_nat fd = Some o ->
  refs (procs (with_fd fd o' s)) E g + (if decide (o = Some g) then 1 else 0) =
  refs (procs s) E g + (if decide (o' = Some g) then 1 else 0).
Proof.
  intros Hp Ho. unfold refs, with_fd. cbn [procs set_procs]. rewrite (list_alter_insert _ _ _ _ Hp).
  pose proof (fds_insert g _ _ _ (set_fd fd o' p) Hp). pose proof (occ_insert g _ _ _ o' Ho).
  unfold set_fd in *. cbn [p_ofile set_ofile] in *. destruct (decide (o = Some g)), (decide (o' = Some g)); lia.
Qed.

Lemma with_fd_fds s p fd o :
  fds_ok (procs s) -> procs s !! me = Some p -> p_state p = RUNNING -> fds_ok (procs (with_fd fd o s)).
Proof.
  intros Hf Hp Hr. unfold with_fd. cbn [procs set_procs]. rewrite (list_alter_insert _ _ _ _ Hp).
  apply fds_ok_insert; [done|]. destruct Hf as [_ Hs]. rewrite Forall_lookup in Hs. destruct (Hs me p Hp) as [Hl _].
  split; unfold set_fd; cbn; [by rewrite length_insert|]. rewrite Hr. naive_solver.
Qed.

Lemma with_fd_run s p fd o :
  procs s !! me = Some p -> p_state p = RUNNING ->
  exists q, procs (with_fd fd o s) !! me = Some q /\ p_state q = RUNNING.
Proof.
  intros Hp Hr. unfold with_fd. cbn [procs set_procs]. rewrite list_lookup_alter_eq, Hp. by eexists.
Qed.

Lemma fdalloc_effect f s :
  wlp (fdalloc me f) (fun o s' => match o with
    | None => s' = s
    | Some fd => exists p, procs s !! me = Some p /\ p_ofile p !! Z.to_nat fd = Some None /\
        s' = with_fd fd (Some f) s
    end) s.
Proof.
  unfold fdalloc. rewrite wlp_bind. unfold getp, wlp at 1. destruct (procs s !! me) as [p|] eqn:Hp; [|done].
  destruct (list_find _ _) as [[fd o]|] eqn:E; [|by apply wlp_ret].
  apply list_find_Some in E as (Hfd & -> & _). rewrite wlp_bind. apply wlp_modify, wlp_ret.
  exists p. rewrite Nat2Z.id. split_and!; [done| |done]. by apply lookup_take_Some in Hfd as [? _].
Qed.

(** A reference in hand becomes a descriptor. *)
Lemma fdalloc_inv f U E s :
  cinv U (f :: E) s ->
  wlp (fdalloc me f) (fun o s' => match o with
    | None => s' = s
    | Some fd => cinv U E s' /\ exists p, procs s' !! me = Some p /\ p_ofile p !! Z.to_nat fd = Some (Some f)
    end) s.
Proof.
  intros I. eapply wlp_mono; [apply fdalloc_effect|]. intros [fd|] s'; [|by intros ->].
  intros (p & Hp & Ho & ->). destruct I as [If Ix (p' & Hp' & Hr)]. assert (p' = p) as -> by congruence. split.
  - split; [by eapply with_fd_fds| |by eapply with_fd_run].
    eapply finv_ext; [exact Ix| |done]. intros g. pose proof (refs_with_fd s p fd None (Some f) E g Hp Ho) as Hg.
    rewrite decide_False in Hg by done. unfold refs in *. rewrite fmap_cons, occ_cons.
    destruct (decide (Some f = Some g)); lia.
  - unfold with_fd. cbn [procs set_procs]. rewrite list_lookup_alter_eq, Hp. eexists. split; [done|].
    unfold set_fd. cbn. apply list_lookup_insert_eq. by eapply lookup_lt_Some.
Qed.

(** A descriptor becomes a reference in hand. *)
Lemma drop_fd fd f U E s p :
  cinv U E s -> procs s !! me = Some p -> p_ofile p !! Z.to_nat fd = Some (Some f) ->
  cinv U (f :: E) (with_fd fd None s).
Proof.
  intros [If Ix (p' & Hp' & Hr)] Hp Ho. assert (p' = p) as -> by congruence.
  split; [by eapply with_fd_fds| |by eapply with_fd_run].
  eapply finv_ext; [exact Ix| |done]. intros g. pose proof (refs_with_fd s p fd (Some f) None E g Hp Ho) as Hg.
  rewrite (decide_False (P := None = Some g)) in Hg by done. unfold refs in *. rewrite fmap_cons, occ_cons.
  destruct (decide (Some f = Some g)); lia.
Qed.

Lemma argfd_inv n U E s :
  cinv U E s -> wlp (argfd me n) (fun o s' => cinv U E s' /\ match o with
    | None => True
    | Some (fd, f) => exists p, procs s' !! me = Some p /\ p_ofile p !! Z.to_nat fd = Some (Some f)
    end) s.
Proof.
  intros I. unfold argfd. rewrite wlp_bind. eapply wlp_mono; [by apply pres_argint|]. intros [fd|] s1 I1; [|by apply wlp_ret].
  destruct (_ || _); [by apply wlp_ret|]. rewrite wlp_bind. unfold getp, wlp at 1.
  destruct (procs s1 !! me) as [p|] eqn:Hp; [|done].
  destruct (p_ofile p !! Z.to_nat fd) as [[f|]|] eqn:Hf; apply wlp_ret; split; try done. eauto.
Qed.

Lemma refs_bound s E f : fds_ok (procs s) -> refs (procs s) E f <= 1024 + Z.of_nat (length E).
Proof.
  intros Hf. pose proof (length_fds _ Hf). pose proof (occ_le f (fds (procs s))).
  pose proof (occ_le f (Some <$> E)). rewrite length_fmap in *. unfold refs. lia.
Qed.

(** Closing a file through a reference in hand. *)
Lemma close_inv f E s :
  cinv ∅ (f :: E) s -> wlp (onfiles get_sysf set_sysf me (fileclose f)) (fun _ s' => cinv ∅ E s') s.
Proof.
  intros [If Ix Ir]. eapply onfiles_wlp; [done|]. intros x Hx. eapply wlp_mono; [by apply fileclose_inv|].
  intros [] x' [Hpos I'] k' Ek. split; [done| |done]. cbn [procs kst set_kst]. rewrite Ek.
  eapply finv_ext; [exact I'| |by case_decide; set_solver].
  intros g. rewrite <- (dec_inc f (refs (procs s) E) g). unfold dec. by rewrite refs_cons.
Qed.

Lemma dup_inv f E s :
  cinv ∅ E s -> (length E <= 100)%nat ->
  wlp (onfiles get_sysf set_sysf me (filedup f)) (fun _ s' => cinv ∅ (f :: E) s' /\ procs s' = procs s) s.
Proof.
  intros [If Ix Ir] HE. pose proof (refs_bound s E f If) as Hb. eapply onfiles_wlp; [done|]. intros x Hx.
  eapply wlp_mono; [apply filedup_inv; [done|lia]|]. intros r x' [_ I'] k' Ek. split; [|done].
  split; [done| |done]. cbn [procs kst set_kst]. rewrite Ek. eapply finv_ext; [exact I'| |done].
  intros g. by rewrite refs_cons.
Qed.

(** [sys_dup] makes the descriptor first. *)
Lemma sys_dup_inv s : cinv ∅ [] s -> wlp (sys_dup get_sysf set_sysf me) (fun _ s' => cinv ∅ [] s') s.
Proof.
  intros I. unfold sys_dup. rewrite wlp_bind. eapply wlp_mono; [by apply argfd_inv|].
  intros [[fd0 f]|] s1 [I1 _]; [|by apply wlp_ret]. rewrite wlp_bind. eapply wlp_mono; [apply fdalloc_effect|].
  intros [fd|] s2; [|intros ->; by apply wlp_ret]. intros (p & Hp & Ho & ->).
  destruct I1 as [If Ix (p' & Hp' & Hr)]. assert (p' = p) as -> by congruence.
  pose proof (refs_bound s1 [] f If) as Hb. cbn in Hb. rewrite wlp_bind.
  eapply (onfiles_wlp _ _ ∅ (refs (procs s1) [])); [exact Ix|]. intros x Hx.
  eapply wlp_mono; [apply filedup_inv; [done|lia]|]. intros r x' [_ I'] k' Ek. apply wlp_ret.
  split; [by apply (with_fd_fds s1 p)| |by apply (with_fd_run s1 p)]. cbn [kst set_kst]. rewrite Ek.
  eapply finv_ext; [exact I'| |done]. intros g. unfold inc.
  pose proof (refs_with_fd s1 p fd None (Some f) [] g Hp Ho) as Hg. rewrite decide_False in Hg by done.
  change (procs (set_kst k' (with_fd fd (Some f) s1))) with (procs (with_fd fd (Some f) s1)).
  destruct (decide (g = f)) as [->|Hne]; [rewrite decide_True in Hg by done|rewrite decide_False in Hg by congruence]; lia.
Qed.

Lemma sys_close_inv s : cinv ∅ [] s -> wlp (sys_close get_sysf set_sysf me) (fun _ s' => cinv ∅ [] s') s.
Proof.
  intros I. unfold sys_close. rewrite wlp_bind. eapply wlp_mono; [by apply argfd_inv|].
  intros [[fd f]|] s1; [|by intros [? _]; apply wlp_ret]. intros [I1 (p & Hp & Ho)].
  rewrite wlp_bind. apply wlp_modify. change (set_procs _ s1) with (with_fd fd None s1).
  rewrite wlp_bind. eapply wlp_mono; [by eapply close_inv, drop_fd|]. intros [] s2 I2. by apply wlp_ret.
Qed.

(** The inode of a call that gives up. *)
Lemma give_up_inv ip s :
  cinv ∅ [] s -> wlp (returning (oninodes get_sysf set_sysf me (give_up_inode ip))) (fun _ s' => cinv ∅ [] s') s.
Proof. apply pres_returning, pres_oninodes. Qed.

Lemma open_file_inv ip omode s :
  cinv ∅ [] s -> wlp (open_file get_sysf set_sysf me ip omode) (fun _ s' => cinv ∅ [] s') s.
Proof.
  intros [If Ix Ir]. unfold open_file. rewrite wlp_bind. eapply onfiles_wlp; [exact Ix|]. intros x Hx.
  eapply wlp_mono; [by apply filealloc_inv|]. intros [f|] x' Hx' k' Ek.
  2: { subst x'. apply give_up_inv. split; [done| |done]. cbn. by rewrite Ek. }
  destruct Hx' as [H0' I']. assert (cinv ({[f]} ∪ ∅) [f] (set_kst k' s)) as I1.
  { split; [done| |done]. cbn [procs kst set_kst]. rewrite Ek. eapply finv_ext; [exact I'| |done].
    intros g. by rewrite refs_cons. }
  rewrite wlp_bind. eapply wlp_mono; [by apply fdalloc_inv|]. intros [fd|] s2 I2.
  - destruct I2 as [I2 _]. wlp_step pres_oninodes. intros [] s3 I3. wlp_step pres_oninodes. intros [] s4 [Jf Jx Jr].
    rewrite wlp_bind. eapply onfiles_wlp; [exact Jx|]. intros y Hy. eapply wlp_mono; [apply set_inode_inv; [done|set_solver]|].
    intros [] y' J' k2 Ek2. apply wlp_ret. split; [done| |done]. cbn. by rewrite Ek2.
  - subst s2. rewrite wlp_bind. eapply onfiles_wlp; [apply I1|]. intros y Hy.
    eapply wlp_mono; [apply (close_new ∅ (refs (procs s) [])); [|done|set_solver]|].
    { eapply finv_ext; [exact Hy| |done]. intros g. by rewrite refs_cons. }
    intros [] y' J' k2 Ek2. apply give_up_inv. split; [done| |done]. cbn. by rewrite Ek2.
Qed.


Lemma sys_open_inv s :
  cinv ∅ [] s -> wlp (sys_open get_sysf set_sysf devread devwrite junk me) (fun _ s' => cinv ∅ [] s') s.
Proof.
  intros I. unfold sys_open, with_arg. wlp_step pres_argpath. intros [path|] s1 I1; [|by apply wlp_ret].
  wlp_step pres_argint. intros [omode|] s2 I2; [|by apply wlp_ret].
  wlp_step pres_cwd_of. intros cwd s3 I3. wlp_step pres_oninodes. intros [ip|] s4 I4; [|by apply wlp_ret].
  by apply open_file_inv.
Qed.

Lemma sys_pipe_inv s : cinv ∅ [] s -> wlp (sys_pipe get_sysf set_sysf me) (fun _ s' => cinv ∅ [] s') s.
Proof.
  intros I. unfold sys_pipe. wlp_step pres_argptr. intros [a|] s1 I1; [|by apply wlp_ret].
  rewrite wlp_bind. destruct I1 as [If Ix Ir]. eapply onfiles_wlp; [exact Ix|]. intros x Hx.
  eapply wlp_mono; [by apply pipealloc_inv|]. intros [[rf wf]|] x' Hx' k' Ek.
  2: { apply wlp_ret. split; [done| |done]. cbn. by rewrite Ek. }
  destruct Hx' as (Hne & H0' & H1' & I'). assert (cinv ∅ [rf; wf] (set_kst k' s1)) as I2.
  { split; [done| |done]. cbn [procs kst set_kst]. rewrite Ek. eapply finv_ext; [exact I'| |done].
    intros g. rewrite refs_cons. unfold inc at 1 3. rewrite refs_cons. unfold inc.
    destruct (decide (g = wf)), (decide (g = rf)); congruence || lia. }
  rewrite wlp_bind. eapply wlp_mono; [by apply fdalloc_inv|]. intros [fd0|] s3 I3.
  - destruct I3 as [I3 (p & Hp & Ho)]. rewrite wlp_bind. eapply wlp_mono; [by apply fdalloc_inv|].
    intros [fd1|] s4 I4.
    + destruct I4 as [I4 _]. wlp_step pres_write_user. intros [] s5 I5. by apply wlp_ret.
    + subst s4. rewrite wlp_bind. apply wlp_modify. change (set_procs _ s3) with (with_fd fd0 None s3).
      rewrite wlp_bind. eapply wlp_mono; [by eapply close_inv, drop_fd|]. intros [] s5 I5.
      wlp_step close_inv. intros [] s6 I6. by apply wlp_ret.
  - subst s3. rewrite wlp_bind. apply wlp_ret. rewrite wlp_bind. apply wlp_ret.
    wlp_step close_inv. intros [] s5 I5. wlp_step close_inv. intros [] s6 I6. by apply wlp_ret.
Qed.

(** Every file system call keeps the invariant. *)
Lemma sys_file_inv n c s :
  sys_file get_sysf set_sysf devread devwrite junk n = Some c -> cinv ∅ [] s ->
  wlp (c me) (fun _ s' => cinv ∅ [] s') s.
Proof.
  intros Hc I. unfold sys_file in Hc. repeat (destruct (_ =? _); [injection Hc as <-|]); [..|done].
  - by apply sys_pipe_inv.
  - by apply pres_sys_read.
  - by apply pres_sys_exec.
  - by apply pres_sys_fstat.
  - by apply pres_sys_chdir.
  - by apply sys_dup_inv.
  - by apply sys_open_inv.
  - by apply pres_sys_write.
  - by apply pres_sys_mknod.
  - by apply pres_sys_unlink.
  - by apply pres_sys_link.
  - by apply pres_sys_mkdir.
  - by apply sys_close_inv.
  - by apply pres_sys_getreadcount.
Qed.

(** ** fork, clone, exit and wait *)

Lemma wlp_eq {S A} (c c' : M S A) (Q : A -> S -> Prop) t : c t = c' t -> wlp c' Q t -> wlp c Q t.
Proof. unfold wlp. by intros ->. Qed.

Lemma dup_files_inv fs c k :
  finv ∅ c (sfiles (get_sysf k)) -> (forall f, c f + Z.of_nat (length fs) < 2 ^ 31) ->
  wlp (dup_files fs) (fun _ k' => finv ∅ (fun f => c f + Z.of_nat (occ f fs)) (sfiles (get_sysf k'))) k.
Proof.
  revert c k. induction fs as [|[f|] fs IH]; intros c k I Hb; cbn [dup_files].
  - apply wlp_ret. eapply finv_ext; [exact I| |done]. intros f. cbn. lia.
  - pose proof (Hb f) as Hf. cbn [length] in Hb, Hf.
    rewrite wlp_bind. eapply wlp_eq; [apply Hdup|]. rewrite wlp_bind. apply wlp_zoom, wlp_zoom.
    eapply wlp_mono; [apply filedup_inv; [done|lia]|]. intros r x' [_ I']. apply wlp_ret.
    eapply wlp_mono; [apply (IH (inc f c))|].
    + by rewrite get_set.
    + intros g. specialize (Hb g). unfold inc. destruct (decide _); lia.
    + intros [] k' I2. eapply finv_ext; [exact I2| |done]. intros g. cbv beta. rewrite occ_cons. unfold inc.
      destruct (decide (g = f)) as [->|]; [rewrite decide_True by done|rewrite decide_False by congruence]; lia.
  - eapply wlp_mono; [apply (IH c); [done|]|].
    + intros f. specialize (Hb f). cbn [length] in Hb. lia.
    + intros [] k' I'. eapply finv_ext; [exact I'| |done]. intros f. cbv beta. by rewrite occ_cons, decide_False.
Qed.

Lemma close_files_inv fs c k :
  finv ∅ (fun f => c f + Z.of_nat (occ f fs)) (sfiles (get_sysf k)) ->
  wlp (close_files fs) (fun _ k' => finv ∅ c (sfiles (get_sysf k'))) k.
Proof.
  revert c k. induction fs as [|[f|] fs IH]; intros c k I; cbn [close_files].
  - apply wlp_ret. eapply finv_ext; [exact I| |done]. intros f. cbn. lia.
  - rewrite wlp_bind. eapply wlp_eq; [apply Hclose|]. apply wlp_zoom, wlp_zoom.
    eapply wlp_mono; [by apply fileclose_inv|]. intros [] x' [_ I']. apply IH. rewrite get_set.
    eapply finv_ext; [exact I'| |by case_decide; set_solver]. intros g. unfold dec. rewrite occ_cons.
    destruct (decide (g = f)) as [->|]; [rewrite decide_True by done|rewrite decide_False by congruence]; lia.
  - apply IH. eapply finv_ext; [exact I| |done]. intros f. cbv beta. by rewrite occ_cons, decide_False.
Qed.

(** The invariant between calls. *)
Record fd_inv s : Prop := {
  fd_fds : fds_ok (procs s);
  fd_files : finv ∅ (refs (procs s) []) (files_of s)
}.

(** A slot that is not the caller's, with the same descriptors. *)
Lemma other_slot E s i p p' U :
  cinv U E s -> procs s !! i = Some p -> i <> me -> p_ofile p' = p_ofile p -> slot_ok p' ->
  cinv U E (set_procs (fun ps => <[i := p']> ps) s).
Proof.
  intros [If Ix (q & Hq & Hr)] Hp Hne Ho Hs. split; cbn [procs set_procs].
  - by apply fds_ok_insert.
  - eapply finv_ext; [exact Ix| |done]. intros f. unfold refs. pose proof (fds_insert f _ _ _ p' Hp) as Hf.
    rewrite Ho in Hf. cbn [procs set_procs]. lia.
  - rewrite list_lookup_insert_ne by done. by exists q.
Qed.

(** A child is being made in slot [np] by the caller, whose descriptors are [o]. *)
Record forking (np : nat) (o : list (option nat)) s : Prop := {
  fk_inv : cinv ∅ [] s;
  fk_ne : np <> me;
  fk_child : exists q, procs s !! np = Some q /\ p_state q = EMBRYO /\ Forall (fun o => o = None) (p_ofile q);
  fk_cur : exists p, procs s !! me = Some p /\ p_ofile p = o
}.

Lemma forking_updp np o h s :
  forking np o s -> (forall p, p_ofile (h p) = p_ofile p /\ p_state (h p) = p_state p) ->
  wlp (updp np h) (fun _ s' => forking np o s') s.
Proof.
  intros [I Hne (q & Hq & Hst & Hn) (p & Hp & Ho)] Hh. destruct (Hh q) as [Eo Es]. apply wlp_modify.
  assert (set_procs (alter h np) s = set_procs (fun ps => <[np := h q]> ps) s) as ->.
  { unfold set_procs. by rewrite (list_alter_insert _ _ _ _ Hq). }
  constructor; [|done|cbn..].
  - eapply other_slot; [done|done|done|done|]. destruct I as [[_ Hs] _ _].
    rewrite Forall_lookup in Hs. destruct (Hs np q Hq) as [Hl _]. split; by rewrite Eo.
  - exists (h q). rewrite list_lookup_insert_eq by (by eapply lookup_lt_Some). by rewrite Eo, Es.
  - exists p. by rewrite list_lookup_insert_ne.
Qed.

Lemma forking_onk {A} np o (c : M K A) s :
  quiet c -> forking np o s -> wlp (onk c) (fun _ s' => forking np o s') s.
Proof.
  intros Hc [I Hne Hq Hp]. eapply wlp_mono; [by apply onk_keep|]. intros a s' [I' E].
  constructor; [done|done|by rewrite E..].
Qed.

Lemma forking_getp np o i s : forking np o s -> wlp (getp i) (fun p s' => forking np o s' /\ procs s' !! i = Some p) s.
Proof. intros Hf. unfold getp, wlp. destruct (procs s !! i) eqn:E; [|done]. by rewrite E. Qed.

Lemma forking_done np o s : forking np o s -> fd_inv s.
Proof. intros [[] _ _ _]. by split. Qed.

Lemma fd_keep s s' :
  fd_inv s -> p_ofile <$> procs s' = p_ofile <$> procs s -> Forall slot_ok (procs s') ->
  files_of s' = files_of s -> fd_inv s'.
Proof.
  intros [[Hn _] Hf] Ho Hs Ex. split.
  - split; [|done]. by rewrite <- Hn, <- (length_fmap p_ofile), Ho, length_fmap.
  - rewrite Ex. eapply finv_ext; [exact Hf| |done]. intros f. unfold refs, fds. by rewrite Ho.
Qed.

Lemma fd_updp i h s :
  fd_inv s -> (forall p, p_ofile (h p) = p_ofile p) -> (forall p, procs s !! i = Some p -> slot_ok (h p)) ->
  wlp (updp i h) (fun _ s' => fd_inv s') s.
Proof.
  intros I Ho Hh. apply wlp_modify. eapply fd_keep; [done| | |done].
  - cbn. by apply fmap_alter_same.
  - cbn. apply Forall_alter; [apply I|]. intros p Hp _. by apply Hh.
Qed.

Lemma fd_onk {A} (c : M K A) s :
  quiet c -> fd_inv s -> wlp (onk c) (fun _ s' => fd_inv s' /\ procs s' = procs s) s.
Proof.
  intros Hc [If Ix]. unfold onk. apply wlp_zoom. eapply wlp_mono; [apply Hc|].
  intros a k' (H1' & H2' & H3'). split; [|done]. split; [done|]. cbn [procs kst set_kst].
  destruct (sfiles (get_sysf k')) as [t ps fx pg]. destruct (files_of s) as [t' ps' fx' pg'].
  cbn in *. subst. destruct Ix as [? ? ? ? ? ? ? ? ?]. split; try done. by apply H3'.
Qed.

(** The slot is given back. *)
Lemma forking_free np o h s :
  forking np o s -> (forall p, p_ofile (h p) = p_ofile p) -> wlp (updp np h) (fun _ s' => fd_inv s') s.
Proof.
  intros F Hh. pose proof F as [[[_ Hs] _ _] _ (q & Hq & _ & Hn) _]. apply fd_updp; [by eapply forking_done|done|].
  intros p Hp. assert (p = q) as -> by congruence. rewrite Forall_lookup in Hs. destruct (Hs np q Hq).
  split; by rewrite Hh.
Qed.

Lemma allocproc_inv s :
  cinv ∅ [] s -> wlp allocproc (fun r s' => match r with
    | None => fd_inv s'
    | Some np => exists o, forking np o s'
    end) s.
Proof.
  intros I. unfold allocproc, wlp. destruct (list_find _ _) as [[np q]|] eqn:Ef; [|destruct I; by split].
  apply list_find_Some in Ef as (Hq & Hu & _). pose proof I as [[_ Hs] _ (p & Hp & Hr)].
  assert (np <> me) as Hne by (intros ->; congruence). rewrite Forall_lookup in Hs.
  destruct (Hs np q Hq) as [Hl Hn].
  match goal with |- match ?m s with _ => _ end => change (wlp m (fun r s' => match r with
    | None => fd_inv s' | Some np => exists o, forking np o s' end) s) end.
  rewrite wlp_bind. apply wlp_modify.
  set (h := fun p : proc => set_tickets 1 (set_pid_inuse (nextpid s) 1 (set_state EMBRYO p))).
  set (s1 := {| procs := alter h np (procs s); nextpid := _ |}).
  assert (forking np (p_ofile p) s1) as F1.
  { assert (procs s1 = <[np := h q]> (procs s)) as E1 by exact (list_alter_insert _ _ _ _ Hq).
    pose proof (other_slot [] s np q (h q) ∅ I Hq Hne eq_refl) as [Jf Jx Jr].
    { split; [done|]. intros _. apply Hn. by left. }
    constructor; [|done|rewrite E1..].
    - constructor; rewrite ?E1; [exact Jf|exact Jx|exact Jr].
    - exists (h q). rewrite list_lookup_insert_eq by (by eapply lookup_lt_Some). split_and!; [done|done|]. apply Hn. by left.
    - exists p. by rewrite list_lookup_insert_ne. }
  rewrite wlp_bind. eapply wlp_mono; [apply (forking_onk np (p_ofile p)); [exact (q_kalloc Hquiet)|done]|].
  cbv beta. intros ks s2 F2. wlp_step forking_updp. intros [] s3 F3.
  destruct (ks =? 0); [|apply wlp_ret; by eexists].
  rewrite wlp_bind. eapply wlp_mono; [by eapply (forking_free np)|]. intros [] s4 F4. by apply wlp_ret.
Qed.

(** The files of the child. *)
Lemma copy_files_none cur np :
  Forall (fun o => o = None) np -> length np = length cur -> copy_files cur np = cur.
Proof.
  intros Hn. revert cur. induction Hn as [|o np -> _ IH]; intros [|c cur] Hl; try done.
  unfold copy_files in *. cbn. f_equal; [by destruct c|]. apply IH. cbn in Hl. lia.
Qed.

Lemma fork_tail_inv cur np s :
  forking np (p_ofile cur) s -> wlp (fork_tail cur np) (fun _ s' => fd_inv s') s.
Proof.
  intros [[If Ix (p & Hp & Hr)] Hne (q & Hq & Hst & Hn) (p' & Hp' & Ho)]. assert (p' = p) as -> by congruence.
  pose proof If as [_ Hs]. rewrite Forall_lookup in Hs. destruct (Hs np q Hq) as [Hlq _].
  destruct (Hs me p Hp) as [Hlp _]. unfold fork_tail. rewrite wlp_bind. apply wlp_zoom.
  eapply wlp_mono; [apply (dup_files_inv (p_ofile cur) (refs (procs s) [])); [done|]|].
  { intros f. pose proof (refs_bound s [] f If). rewrite <- Ho, Hlp. cbn in *. unfold NOFILE. lia. }
  intros [] k' I'. rewrite wlp_bind. apply wlp_modify.
  set (s1 := set_procs _ _). set (q' := set_ofile (p_ofile cur) q).
  assert (procs s1 = <[np := q']> (procs s)) as E1.
  { unfold s1. cbn [procs set_procs set_kst]. rewrite (list_alter_insert _ _ _ _ Hq). f_equal. unfold q'.
    rewrite copy_files_none; [done|done|congruence]. }
  assert (fd_inv s1) as F1.
  { constructor; rewrite ?E1.
    - apply fds_ok_insert; [done|]. split; cbn; [congruence|]. rewrite Hst. naive_solver.
    - eapply finv_ext; [exact I'| |done]. intros f. unfold refs. pose proof (fds_insert f _ _ _ q' Hq) as Hf.
      rewrite (occ_none f (p_ofile q)) in Hf by done. cbn [p_ofile q' set_ofile] in Hf. lia. }
  rewrite wlp_bind. eapply (wlp_mono _ (fun _ s' => fd_inv s' /\ procs s' = procs s1)).
  { destruct (p_cwd cur); [|done]. by apply fd_onk; [apply (q_idup Hquiet)|]. }
  intros [] s2 [F2 E2]. rewrite wlp_bind. eapply wlp_mono; [apply fd_updp; [done|done|]|].
  { intros r Hr'. rewrite E2, E1, list_lookup_insert_eq in Hr' by (by eapply lookup_lt_Some). injection Hr' as <-.
    split; cbn; [congruence|]. rewrite Hst. naive_solver. }
  intros [] s3 F3. rewrite wlp_bind. unfold getp, wlp at 1. destruct (procs s3 !! np) as [r|] eqn:Hr'; [|done].
  rewrite wlp_bind. eapply wlp_mono; [apply fd_updp; [done|done|]|].
  { intros r' Hr2. assert (r' = r) as -> by congruence. destruct F3 as [[_ Hs3] _]. rewrite Forall_lookup in Hs3.
    destruct (Hs3 np r Hr') as [Hl3 _]. split; cbn; [done|]. naive_solver. }
  intros [] s4 F4. by apply wlp_ret.
Qed.

Lemma fork_inv s : cinv ∅ [] s -> wlp (fork me) (fun _ s' => fd_inv s') s.
Proof.
  intros I. unfold fork, fork_child. wlp_step allocproc_inv. intros [np|] s1; [|by intros ?; apply wlp_ret].
  intros [o F1]. rewrite wlp_bind. eapply wlp_mono; [by apply (forking_getp np o)|]. intros cur s2 [F2 Hcur].
  assert (o = p_ofile cur) as -> by (destruct (fk_cur _ _ _ F2) as (p & Hp & <-); congruence).
  rewrite wlp_bind. eapply wlp_mono; [by eapply forking_onk; [apply (q_copyuvm Hquiet)|]|]. cbv beta. intros pg s3 F3.
  wlp_step forking_updp. intros [] s4 F4. destruct (pg =? 0).
  - wlp_step forking_getp. intros n s5 [F5 _].
    rewrite wlp_bind. eapply wlp_mono; [by eapply forking_onk; [apply (q_kfree Hquiet)|]|]. cbv beta. intros [] s6 F6.
    wlp_step forking_free. intros [] s7 F7. by apply wlp_ret.
  - wlp_step forking_updp. intros [] s5 F5. by apply fork_tail_inv.
Qed.

Lemma clone_inv fcn a1 a2 stack s : cinv ∅ [] s -> wlp (clone me fcn a1 a2 stack) (fun _ s' => fd_inv s') s.
Proof.
  intros I. unfold clone, clone_child. wlp_step allocproc_inv. intros [np|] s1; [|by intros ?; apply wlp_ret].
  intros [o F1]. rewrite wlp_bind. eapply wlp_mono; [by apply (forking_getp np o)|]. intros cur s2 [F2 Hcur].
  assert (o = p_ofile cur) as -> by (destruct (fk_cur _ _ _ F2) as (p & Hp & <-); congruence).
  wlp_step forking_updp. intros [] s3 F3.
  do 3 (rewrite wlp_bind; eapply wlp_mono; [by eapply forking_onk; [apply (q_store_user Hquiet)|]|];
        cbv beta; intros [] ? ?).
  wlp_step forking_updp. intros [] s5 F5. by apply fork_tail_inv.
Qed.

(** The process in slot [j] has no open files. *)
Definition closed (j : nat) s : Prop :=
  fd_inv s /\ exists p, procs s !! j = Some p /\ Forall (fun o => o = None) (p_ofile p).

Lemma slot_of s i p : fd_inv s -> procs s !! i = Some p -> slot_ok p.
Proof. intros [[_ Hs] _] Hp. rewrite Forall_lookup in Hs. by eapply Hs. Qed.

Lemma closed_keep j s s' :
  closed j s -> p_ofile <$> procs s' = p_ofile <$> procs s -> Forall slot_ok (procs s') ->
  files_of s' = files_of s -> closed j s'.
Proof.
  intros [I (p & Hp & Hn)] Ho Hs Ex. split; [by eapply fd_keep|].
  assert ((p_ofile <$> procs s') !! j = Some (p_ofile p)) as Hl by (by rewrite Ho, list_lookup_fmap, Hp).
  rewrite list_lookup_fmap in Hl. destruct (procs s' !! j) as [p'|]; [|done]. injection Hl as Hl.
  exists p'. by rewrite Hl.
Qed.

Lemma closed_updp j i h s :
  closed j s -> (forall p, p_ofile (h p) = p_ofile p) -> (forall p, procs s !! i = Some p -> slot_ok (h p)) ->
  wlp (updp i h) (fun _ s' => closed j s') s.
Proof.
  intros I Ho Hh. apply wlp_modify. eapply closed_keep; [done| | |done]; cbn.
  - by apply fmap_alter_same.
  - apply Forall_alter; [apply I|]. intros p Hp _. by apply Hh.
Qed.

Lemma closed_wakeup j ch s : closed j s -> wlp (wakeup1 ch) (fun _ s' => closed j s') s.
Proof.
  intros I. apply wlp_modify. pose proof I as [[[_ Hs] _] _]. eapply closed_keep; [done| | |done]; cbn.
  - rewrite <- list_fmap_compose. apply list_fmap_ext. intros i p _. cbn. unfold wake. by case_decide.
  - apply Forall_fmap. eapply Forall_impl; [exact Hs|]. intros p [Hl Hn]. unfold compose, wake.
    case_decide; [|done]. split; cbn; [done|naive_solver].
Qed.

Lemma closed_getp j i s : closed j s -> wlp (getp i) (fun p s' => closed j s' /\ procs s' !! i = Some p) s.
Proof. intros I. unfold getp, wlp. destruct (procs s !! i) eqn:E; [|done]. by rewrite E. Qed.

Lemma closed_onk {A} j (c : M K A) s : quiet c -> closed j s -> wlp (onk c) (fun _ s' => closed j s') s.
Proof.
  intros Hc [I Hj]. eapply wlp_mono; [by apply fd_onk|]. intros a s' [I' E]. split; [done|]. by rewrite E.
Qed.

(** A change of the slot itself. *)
Lemma closed_own j h s :
  closed j s -> (forall p, p_ofile (h p) = p_ofile p) -> wlp (updp j h) (fun _ s' => closed j s') s.
Proof.
  intros C Hh. pose proof C as [I (p & Hp & Hn)]. apply closed_updp; [done|done|].
  intros q Hq. assert (q = p) as -> by congruence. destruct (slot_of s j p I Hp). split; by rewrite Hh.
Qed.

Lemma abandon_inv i s : closed me s -> wlp (abandon me i) (fun _ s' => closed me s') s.
Proof.
  intros I. unfold abandon. rewrite wlp_bind. apply wlp_gets. wlp_step closed_getp. intros p s' [I' Hp].
  case_decide; [|by apply wlp_ret]. rewrite wlp_bind. eapply wlp_mono; [apply closed_updp; [done|done|]|].
  { intros q Hq. exact (slot_of s' _ q (proj1 I') Hq). }
  intros [] s2 I2. case_decide; [by apply closed_wakeup|by apply wlp_ret].
Qed.

Lemma exit_inv s : cinv ∅ [] s -> wlp (exit me) (fun _ s' => fd_inv s') s.
Proof.
  intros [If Ix (p & Hp & Hr)]. unfold exit, exit_locked. rewrite wlp_bind. apply wlp_gets. case_decide; [done|].
  rewrite wlp_bind. unfold getp at 1, wlp at 1. rewrite Hp. rewrite wlp_bind. apply wlp_zoom.
  set (c := fun f => refs (procs s) [] f - Z.of_nat (occ f (p_ofile p))).
  eapply wlp_mono; [apply (close_files_inv (p_ofile p) c)|].
  { eapply finv_ext; [exact Ix| |done]. intros f. unfold c. lia. }
  intros [] k1 I1. rewrite wlp_bind. apply wlp_modify. set (s1 := set_procs _ _).
  set (p' := set_ofile (replicate (length (p_ofile p)) None) p).
  assert (procs s1 = <[me := p']> (procs s)) as E1 by exact (list_alter_insert _ _ _ _ Hp).
  assert (slot_ok p') as Hp'.
  { destruct If as [_ Hs]. rewrite Forall_lookup in Hs. destruct (Hs me p Hp) as [Hl _].
    split; cbn; [by rewrite length_replicate|]. intros _. by apply Forall_replicate. }
  assert (fd_inv s1) as F1.
  { constructor; rewrite ?E1; [by apply fds_ok_insert|]. eapply finv_ext; [exact I1| |done]. intros f.
    unfold c, refs. pose proof (fds_insert f _ _ _ p' Hp) as Hf.
    rewrite (occ_none f (p_ofile p')) in Hf by (by apply Forall_replicate). lia. }
  rewrite wlp_bind. eapply (wlp_mono _ (fun _ s' => fd_inv s' /\ procs s' = procs s1)).
  { destruct (p_cwd p); [|done]. by apply fd_onk; [apply (q_iput_op Hquiet)|]. }
  intros [] s2 [F2 E2]. assert (closed me s2) as X2.
  { split; [done|]. exists p'. rewrite E2, E1, list_lookup_insert_eq by (by eapply lookup_lt_Some).
    split; [done|]. by apply Forall_replicate. }
  wlp_step closed_own. intros [] s3 X3. wlp_step closed_getp. intros cur s4 [X4 _]. wlp_step closed_wakeup. intros [] s5 X5.
  rewrite wlp_bind. eapply wlp_mono; [apply (wlp_for (fun _ => closed me)); [|exact X5]|].
  { intros j t _ Xt. by apply abandon_inv. }
  cbv beta. intros [] s6 X6. eapply wlp_mono; [by apply closed_own|]. by intros [] s7 [].
Qed.

Lemma wait_inv s : cinv ∅ [] s -> wlp (wait me) (fun _ s' => fd_inv s') s.
Proof.
  intros I. assert (fd_inv s) as F by (destruct I; by split). destruct I as [_ _ (p & Hp & Hr)].
  unfold wait. rewrite wlp_bind. apply wlp_gets. destruct (list_find _ _) as [[i z]|] eqn:E.
  - apply list_find_Some in E as (Hi & [_ Hz] & _). rewrite wlp_bind. unfold reap. rewrite wlp_bind.
    unfold getp, wlp at 1. rewrite Hi. destruct (slot_of s i z F Hi) as [Hl Hn]. specialize (Hn (or_intror Hz)).
    assert (closed i s) as C by (split; [done|eauto]).
    rewrite !wlp_bind. eapply wlp_mono; [apply (closed_onk i); [apply (q_kfree Hquiet)|done]|]. cbv beta. intros [] s1 C1.
    wlp_step closed_own. intros [] s2 C2.
    rewrite wlp_bind. eapply wlp_mono; [apply (closed_onk i); [apply (q_freevm Hquiet)|done]|]. cbv beta. intros [] s3 C3.
    wlp_step closed_own. intros [] s4 [C4 _]. by apply wlp_ret, wlp_ret.
  - rewrite wlp_bind. unfold getp, wlp at 1. rewrite Hp. destruct (_ || _); [by apply wlp_ret|].
    rewrite wlp_bind. eapply wlp_mono; [apply fd_updp; [done|done|]|].
    { intros q Hq. destruct (slot_of s me q F Hq). split; [done|]. cbn. naive_solver. }
    intros [] s1 F1. by apply wlp_ret.
Qed.
End calls.

(** ** Every sequence of calls *)

Section steps.
Context {K B P : Type} `{KOps K} `{UserOps K} `{BlockOps B} `{TxnOps B} `{PageLaws P}.
Context (get_sysf : K -> sysf B P) (set_sysf : sysf B P -> K -> K).
Context (devread : Z -> option (nat -> Z -> M (fs B) (Z * list Z))).
Context (devwrite : Z -> option (nat -> list Z -> M (fs B) Z)).
Context (junk : list Z).
Hypothesis get_set : forall x k, get_sysf (set_sysf x k) = x.
Hypothesis Hquiet : quiet_ops get_sysf.
Hypothesis Hdup : forall f k, k_filedup f k =
  (zoom get_sysf set_sysf (zoom sfiles set_sfiles (filedup f));;; ret tt) k.
Hypothesis Hclose : forall f k, k_fileclose f k =
  zoom get_sysf set_sysf (zoom sfiles set_sfiles (fileclose f)) k.

(** The calls that touch descriptors. *)
Inductive fd_call :=
| CFile (n : Z) | CFork | CClone (fcn a1 a2 stack : Z) | CExit | CWait.
Definition run_call (me : nat) (c : fd_call) : M (ptable K) unit :=
  match c with
  | CFile n => match sys_file get_sysf set_sysf devread devwrite junk n with
               | Some f => f me;;; ret tt
               | None => fault
               end
  | CFork => fork me;;; ret tt
  | CClone fcn a1 a2 stack => clone me fcn a1 a2 stack;;; ret tt
  | CExit => exit me
  | CWait => wait me;;; ret tt
  end.

Definition active (st : procstate) : Prop := st = SLEEPING \/ st = RUNNABLE \/ st = RUNNING.

(** A running process makes a call, or somebody else gets to run. *)
Inductive fd_step (s : ptable K) : ptable K -> Prop :=
| step_call me p c s' :
    procs s !! me = Some p -> p_state p = RUNNING -> run_call me c s = Done (tt, s') -> fd_step s s'
| step_sched i p st :
    procs s !! i = Some p -> active (p_state p) -> active st ->
    fd_step s (set_procs (alter (set_state st) i) s).

Lemma fd_inv_step s s' : fd_inv get_sysf s -> fd_step s s' -> fd_inv get_sysf s'.
Proof.
  intros [If Ix] [me p c t Hp Hr Hrun|i p st Hp Ha Hst].
  - assert (cinv get_sysf me ∅ [] s) as I by (split; eauto).
    apply (wlp_done (run_call me c) (fun _ s' => fd_inv get_sysf s') s tt t Hrun).
    destruct c as [n| |fcn a1 a2 stack| |]; cbn [run_call].
    + destruct (sys_file _ _ _ _ _ n) as [f|] eqn:Ef; [|done]. rewrite wlp_bind.
      eapply wlp_mono; [by eapply (sys_file_inv get_sysf set_sysf devread devwrite junk)|].
      intros r s1 [? ? _]. apply wlp_ret. by split.
    + rewrite wlp_bind. eapply wlp_mono; [by eapply (fork_inv get_sysf set_sysf)|]. intros r s1 F. by apply wlp_ret.
    + rewrite wlp_bind. eapply wlp_mono; [by eapply (clone_inv get_sysf set_sysf)|]. intros r s1 F. by apply wlp_ret.
    + by eapply (exit_inv get_sysf set_sysf).
    + rewrite wlp_bind. eapply wlp_mono; [by eapply (wait_inv get_sysf)|]. intros r s1 F. by apply wlp_ret.
  - assert (fd_inv get_sysf s) as F by (by split).
    apply (wlp_done (updp i (set_state st)) (fun _ s' => fd_inv get_sysf s') s tt); [done|].
    apply fd_updp; [done|done|]. intros q Hq. destruct If as [_ Hs]. rewrite Forall_lookup in Hs.
    destruct (Hs i q Hq) as [Hl _]. split; [done|]. cbn. unfold active in Hst. naive_solver.
Qed.

(** Property C12: in every sequence of file system calls, [fork], [clone],
    [exit] and [wait], the reference count of an open file is the number of
    descriptors of all processes for it; a descriptor is for a file in use,
    which is an inode or an end of an allocated pipe that is open at that end;
    no two files are the same end of a pipe, and a pipe with both ends closed
    has been freed. *)
Theorem descriptors_counted s0 s :
  fd_inv get_sysf s0 -> rtc fd_step s0 s ->
  let x := sfiles (get_sysf (kst s)) in
  (forall f y, ftable x !! f = Some y -> fl_ref y = Z.of_nat (occ f (fds (procs s)))) /\
  (forall i p fd f, procs s !! i = Some p -> p_ofile p !! fd = Some (Some f) ->
    exists y, ftable x !! f = Some y /\ 0 < fl_ref y /\ file_typed (pipes x) y) /\
  (forall f g y z, ftable x !! f = Some y -> ftable x !! g = Some z -> same_end y z -> f = g) /\
  (forall k q, pipes x !! k = Some q -> pipe_freed q = false).
Proof.
  intros I0 Hr x. assert (fd_inv get_sysf s) as [If Ix] by (induction Hr; eauto using fd_inv_step).
  assert (forall f, refs (procs s) [] f = Z.of_nat (occ f (fds (procs s)))) as Er
    by (intros f; unfold refs; change (Z.of_nat (occ f (Some <$> []))) with 0; lia).
  split_and!; [| |apply (fn_ends _ _ _ Ix)|apply (fn_open _ _ _ Ix)].
  - intros f y Hy. rewrite (fn_ref _ _ _ Ix f y Hy). apply Er.
  - intros i p fd f Hp Hf.
    assert (0 < refs (procs s) [] f) as Hpos.
    { rewrite Er. pose proof (fds_insert f _ _ _ zero_proc Hp) as E1. pose proof (occ_insert f _ _ _ None Hf) as E2.
      rewrite (occ_none f (p_ofile zero_proc)) in E1 by (by apply Forall_replicate).
      rewrite decide_True, decide_False in E2 by done. lia. }
    destruct (fn_in _ _ _ Ix f ltac:(lia)) as [y Hy]. exists y. split_and!; [done| |].
    + by rewrite (fn_ref _ _ _ Ix f y Hy).
    + by apply (fn_type _ _ _ Ix f y Hy); [|set_solver].
Qed.
End steps.

(** ** The page allocator of kalloc.c provides the pages of pipes *)

Section pages.
Context (end_ : Z).
#[local] Instance kmem_pages : PageOps kmem := {|
  pg_alloc := kalloc;
  pg_free a := kfree end_ a;
  pg_bytes a s := lds (k_mem s) a (Z.to_nat PIPESIZE)
|}.

Definition kmem_owns (X : gset Z) (s : kmem) : Prop :=
  exists l, free_list end_ l s /\ list_to_set l ## X /\ set_Forall (page_ok end_) X.

Lemma kmem_alloc X s : kmem_owns X s ->
  wlp kalloc (fun a s' => (a = 0 -> kmem_owns X s') /\
    (a <> 0 -> (a ∉ X) /\ kmem_owns ({[a]} ∪ X) s')) s.
Proof.
  intros (l & Hl & Hd & Hp). destruct (kalloc_run end_ l s Hl) as (s' & Hrun & Hl' & _).
  unfold wlp. rewrite Hrun. destruct l as [|p l]; cbn in *; [split; [by exists []|done]|].
  destruct Hl as [_ Hnd Hpg]. apply NoDup_cons in Hnd as [Hn _]. inversion Hpg; subst. split.
  - intros _. exists l. split_and!; [done|set_solver|done].
  - intros _. split; [set_solver|]. exists l. split_and!; [done|set_solver|].
    apply set_Forall_union; [by apply set_Forall_singleton|done].
Qed.

Lemma kmem_free X s a : kmem_owns X s -> a ∈ X ->
  wlp (kfree end_ a) (fun _ s' => kmem_owns (X ∖ {[a]}) s') s.
Proof.
  intros (l & Hl & Hd & Hp) Ha. destruct (kfree_run end_ l s a Hl) as (s' & Hrun & Hl' & _); [by apply Hp|set_solver|].
  unfold wlp. rewrite Hrun. exists (a :: l). split_and!; [done|set_solver|].
  intros b Hb. apply Hp. set_solver.
Qed.

Definition kmem_laws : PageLaws kmem := {|
  pg_owns := kmem_owns; pg_alloc_law := kmem_alloc; pg_free_law := kmem_free
|}.
End pages.

(** ** An instance: one process, one free page *)

Section demo.
#[local] Instance demo_pages : PageOps kmem := kmem_pages 0x80100000.
#[local] Instance demo_laws : PageLaws kmem := kmem_laws 0x80100000.
#[local] Instance demo_blocks : BlockOps unit :=
  {| b_read _ _ := fault; b_get _ := fault; b_set _ _ := fault; b_log _ := fault; b_release _ := fault |}.
#[local] Instance demo_txn : TxnOps unit := {| b_begin := ret tt; b_end := ret tt; b_run _ := ret tt |}.

Abbreviation demo_k := (sysf unit kmem).
Definition demo_onfiles {A} (c : M (files unit kmem) A) : M demo_k A :=
  zoom (fun k => k) (fun x _ => x) (zoom sfiles set_sfiles c).
#[local] Instance demo_ops : KOps demo_k :=
  {| k_kalloc := ret 4096; k_kfree _ := ret tt; k_setupkvm := ret 8192; k_inituvm _ := ret tt;
     k_copyuvm _ _ := ret 8192; k_allocuvm _ _ n := ret n; k_deallocuvm _ _ n := ret n;
     k_freevm _ := ret tt; k_store_user _ _ _ := ret tt; k_load_user _ _ := ret 256;
     k_load_byte _ _ := ret 0; k_mprotect _ _ _ _ := ret 0; k_munprotect _ _ _ _ := ret 0;
     k_ticks := ret 0; k_tick := ret tt;
     k_filedup f := demo_onfiles (filedup f);;; ret tt; k_fileclose f := demo_onfiles (fileclose f);
     k_idup _ := ret tt; k_iput_op _ := ret tt; k_namei_root := ret (Some O) |}.
#[local] Instance demo_user : UserOps demo_k :=
  {| k_store_byte _ _ _ := ret tt; k_clearpteu _ _ := ret tt; k_copyout _ _ _ := ret 0;
     k_loaduvm _ _ _ _ _ := ret 0 |}.

Definition demo_fs : fs unit :=
  {| f_blk := tt; f_sb := Build_superblock 0 0 0 0 0 0 0; f_icache := []; f_me := 0 |}.
Definition demo_files : files unit kmem :=
  fileinit demo_fs {| k_mem := ∅; freelist := 0x80200000; use_lock := true |}.
Definition demo_start : ptable demo_k :=
  {| procs := set_sz 8192 (set_pgdir 8192 (set_cwd (Some O) (set_state RUNNING zero_proc))) ::
              replicate 63 zero_proc;
     nextpid := 2; initproc := Some O; seed := 1234;
     kst := {| readcount := 0; sfiles := demo_files |} |}.
Definition demo_run (c : fd_call) (s : ptable demo_k) : ptable demo_k :=
  match run_call (fun k => k) (fun x _ => x) (fun _ => None) (fun _ => None) [] 0 c s with
  | Done (_, s') => s'
  | _ => s
  end.
(** [pipe()] (system call 4), then [fork()]. *)
Definition demo_end : ptable demo_k := demo_run CFork (demo_run (CFile 4) demo_start).

Lemma demo_inv : fd_inv (fun k => k) demo_start.
Proof.
  assert (forall f, refs (procs demo_start) [] f = 0) as Hc.
  { intros f. unfold refs. rewrite (occ_none f (fds _)); [done|]. unfold fds. rewrite Forall_lookup.
    intros i o Ho. apply list_elem_of_lookup_2, list_elem_of_join in Ho as (l & Hl & Hi).
    apply list_elem_of_fmap in Hi as (p & -> & Hp). apply elem_of_cons in Hp as [->|[-> _]%elem_of_replicate];
      by apply elem_of_replicate in Hl as [-> _]. }
  assert (forall f y, ftable demo_files !! f = Some y -> y = zero_file) as Hy.
  { intros f y Hf. by apply lookup_replicate in Hf as [-> _]. }
  split.
  - split; [done|]. apply Forall_cons. split; [split; [done|by intros [? | ?]]|].
    apply Forall_replicate. split; [done|]. intros _. by apply Forall_replicate.
  - split; cbn [sfiles kst demo_start pipes demo_files].
    + intros f y Hf. rewrite Hc. by rewrite (Hy f y Hf).
    + intros f. by rewrite Hc.
    + intros f. rewrite Hc. lia.
    + set_solver.
    + intros f y Hf _. by rewrite (Hy f y Hf).
    + intros f y _. rewrite Hc. lia.
    + intros f g y z Hf _ (Ht & _). by rewrite (Hy f y Hf) in Ht.
    + intros k p Hp. by apply (lookup_empty_Some k p) in Hp.
    + exists [0x80200000]. split_and!; [|set_solver|set_solver].
      split; [by split|apply NoDup_singleton|]. apply Forall_singleton. by vm_compute.
Qed.

Lemma descriptors_counted_witness :
  fl_ref <$> ftable (sfiles (kst demo_end)) !! 1%nat = Some 2.
Proof.
  assert (exists y, ftable (sfiles (kst demo_end)) !! 1%nat = Some y) as [y Hy]
    by (eexists; vm_compute; reflexivity).
  rewrite Hy. apply (f_equal Some).
  refine (proj1 (descriptors_counted (fun k => k) (fun x _ => x) (fun _ => None) (fun _ => None) []
    (fun _ _ => eq_refl) _ (fun _ _ => eq_refl) (fun _ _ => eq_refl) demo_start demo_end demo_inv _) 1%nat y Hy).
  - constructor; intros; intros k; cbn; by split_and!.
  - eapply rtc_l; [eapply (step_call _ _ _ _ _ _ 0 _ (CFile 4)); [done|done|vm_compute; reflexivity]|].
    eapply rtc_l; [|apply rtc_refl].
    eapply (step_call _ _ _ _ _ _ 0 _ CFork); [vm_compute; reflexivity|done|vm_compute; reflexivity].
Defined.
End demo.
