(* ===== verification/Ulib.v ===== *)
(** * Ulib: the user library (ulib.c, printf.c)

    The string functions work on memory, as in [KString]; those that search
    for a NUL run on fuel. Output is the list of bytes written to a
    descriptor. The allocator of ulib.c is in [Umalloc]. *)

From stdpp Require Import base list numbers gmap strings.
From S2P Require Import Prelude Bytes KString.

Local Open Scope Z_scope.

(** ** Strings (ulib.c) *)

Fixpoint ustrcpy (m : mem) (s t : Z) (fuel : nat) : option mem :=
  match fuel with
  | O => None
  | S fuel =>
      let m' := st m s (ld m t) in
      if ld m t =? 0 then Some m' else ustrcpy m' (s + 1) (t + 1) fuel
  end.

Fixpoint ustrcmp (m : mem) (p q : Z) (fuel : nat) : option Z :=
  match fuel with
  | O => None
  | S fuel =>
      if negb (ld m p =? 0) && (ld m p =? ld m q) then ustrcmp m (p + 1) (q + 1) fuel
      else Some (ld m p - ld m q)
  end.

Definition ustrlen (m : mem) (s : Z) (fuel : nat) : option Z := strlen_from m s 0 fuel.

(** The address of the character, or 0. *)
Fixpoint ustrchr (m : mem) (s c : Z) (fuel : nat) : option Z :=
  match fuel with
  | O => None
  | S fuel =>
      if ld m s =? 0 then Some 0
      else if ld m s =? c then Some s
      else ustrchr m (s + 1) c fuel
  end.

Definition umemset (m : mem) (dst c n : Z) : mem := stosb m dst c (Z.to_nat n).
Definition umemmove (m : mem) (dst src n : Z) : mem := copy_up m dst src (Z.to_nat n).

(** ** Input (ulib.c) *)

Definition NEWLINE : Z := 10.
Definition RETURN : Z := 13.

(** [gets]: the characters stored, before the NUL, and the rest of the input;
    [room] is how many more fit, as [i + 1 < max]. *)
Fixpoint ugets_from (room : nat) (input : list Z) : list Z * list Z :=
  match room, input with
  | S room, c :: input =>
      if (c =? NEWLINE) || (c =? RETURN) then ([c], input)
      else let '(s, rest) := ugets_from room input in (c :: s, rest)
  | _, _ => ([], input)
  end.
Definition ugets (max : Z) (input : list Z) : list Z * list Z := ugets_from (Z.to_nat (max - 1)) input.

(** ** Numbers (ulib.c, printf.c) *)

Definition is_digit (c : Z) : bool := (48 <=? c) && (c <=? 57).
Fixpoint atoi_from (n : Z) (s : list Z) : Z :=
  match s with
  | c :: s => if is_digit c then atoi_from (i32 (n * 10 + c - 48)) s else n
  | [] => n
  end.
Definition atoi (s : list Z) : Z := atoi_from 0 s.

Definition DIGITS : list Z := str "0123456789ABCDEF".
Definition MINUS : Z := 45.
Definition PERCENT : Z := 37.
(** The [do] loop of [printint], which fills [buf] from the least significant
    digit on. *)
Fixpoint digits_from (fuel : nat) (alphabet : list Z) (base x : Z) : list Z :=
  match fuel with
  | O => []
  | S fuel =>
      nth (Z.to_nat (x mod base)) alphabet 0 ::
      (if x / base =? 0 then [] else digits_from fuel alphabet base (x / base))
  end.
(** [buf], of 16 characters. *)
Definition int_buf (alphabet : list Z) (xx base : Z) (sgn : bool) : list Z :=
  let neg := sgn && (xx <? 0) in
  let x := if neg then u32 (- xx) else u32 xx in
  digits_from 32 alphabet base x ++ (if neg then [MINUS] else []).
Definition printint (xx base : Z) (sgn : bool) : list Z := rev (int_buf DIGITS xx base sgn).

(** [printf]: [args] are the words on the stack behind [fmt], [string_of] the
    string at an address; reading a word that was not passed is a fault. *)
Section printf.
Context (string_of : Z -> list Z).

Definition printf_arg (c a : Z) : list Z :=
  if c =? 100 then printint (i32 a) 10 true
  else if (c =? 120) || (c =? 112) then printint (i32 a) 16 false
  else if c =? 115 then if a =? 0 then str "(null)" else string_of a
  else [u8 a].

Fixpoint printf_from (percent : bool) (fmt : list Z) (args : list Z) : outcome (list Z) :=
  match fmt with
  | [] => Done []
  | c :: fmt =>
      let emit (out : list Z) (args : list Z) :=
        match printf_from false fmt args with
        | Done l => Done (out ++ l)
        | Panic m => Panic m
        | Fault => Fault
        | Asleep => Asleep
        end in
      if negb percent then
        if c =? PERCENT then printf_from true fmt args else emit [c] args
      else if bool_decide (c ∈ str "dxpsc") then
        match args with
        | a :: args => emit (printf_arg c a) args
        | [] => Fault
        end
      else if c =? PERCENT then emit [c] args
      else emit [PERCENT; c] args
  end.
Definition printf (fmt : list Z) (args : list Z) : outcome (list Z) := printf_from false fmt args.
End printf.

(** ** The string functions *)

Lemma ustrcpy_str m s t l fuel :
  str_at m t l -> apart s (S (length l)) t l -> (length l < fuel)%nat ->
  exists m', ustrcpy m s t fuel = Some m' /\ str_at m' s l /\
    forall a, ~ (s <= a <= s + Z.of_nat (length l)) -> ld m' a = ld m a.
Proof.
  revert m s t fuel. induction l as [|b l IH]; intros m s t [|fuel] Hs Hap Hf; cbn [length] in *; try lia; cbn [ustrcpy].
  - apply str_at_nil in Hs. rewrite Hs, Z.eqb_refl. eexists. split_and!; [done| |].
    + apply str_at_nil. apply ld_st_eq.
    + intros a Ha. apply ld_st_ne. lia.
  - apply str_at_cons in Hs as (Hb & Hb0 & Hs). rewrite Hb, (proj2 (Z.eqb_neq _ _)) by done. unfold apart in Hap. cbn [length] in Hap.
    destruct (IH (st m s b) (s + 1) (t + 1) fuel) as (m' & Hrun & Hm' & Hfr).
    + eapply str_at_ext; [|exact Hs]. intros a Ha. rewrite ld_st_ne; [done|lia].
    + unfold apart. lia.
    + lia.
    + exists m'. split_and!; [done| |].
      * apply str_at_cons. split_and!; [|done|done]. rewrite Hfr by lia. apply ld_st_eq.
      * intros a Ha. rewrite Hfr by lia. apply ld_st_ne. lia.
Qed.

Lemma ustrcmp_str m p q l1 l2 fuel :
  str_at m p l1 -> str_at m q l2 -> (length l1 < fuel)%nat ->
  exists r, ustrcmp m p q fuel = Some r /\ (r = 0 <-> l1 = l2).
Proof.
  revert p q l2 fuel. induction l1 as [|b l1 IH]; intros p q l2 [|fuel] H1 H2 Hf; cbn [length] in *; try lia; cbn [ustrcmp].
  - apply str_at_nil in H1. rewrite H1, Z.eqb_refl. cbn. eexists. split; [done|]. destruct l2 as [|c l2].
    + apply str_at_nil in H2. rewrite H2. done.
    + apply str_at_cons in H2 as (-> & Hc & _). split; [lia|done].
  - apply str_at_cons in H1 as (-> & Hb & H1). rewrite (proj2 (Z.eqb_neq b 0)) by done. cbn [negb andb]. destruct l2 as [|c l2].
    + apply str_at_nil in H2. rewrite H2, (proj2 (Z.eqb_neq b 0)) by done. eexists. split; [done|]. split; [lia|done].
    + apply str_at_cons in H2 as (-> & Hc & H2). destruct (Z.eqb_spec b c) as [->|Hne].
      * destruct (IH (p + 1) (q + 1) l2 fuel H1 H2 ltac:(lia)) as (r & Hr & Hiff). exists r. split; [done|].
        rewrite Hiff. split; [congruence|by intros [=]].
      * eexists. split; [done|]. split; [lia|by intros [=]].
Qed.

Lemma ustrchr_str m s l c fuel :
  str_at m s l -> (length l < fuel)%nat ->
  ustrchr m s c fuel = Some match list_find (eq c) l with Some (k, _) => s + Z.of_nat k | None => 0 end.
Proof.
  revert s fuel. induction l as [|b l IH]; intros s [|fuel] Hs Hf; cbn [length] in *; try lia; cbn [ustrchr].
  - apply str_at_nil in Hs. by rewrite Hs.
  - apply str_at_cons in Hs as (-> & Hb & Hs). rewrite (proj2 (Z.eqb_neq b 0)) by done. cbn [list_find].
    destruct (Z.eqb_spec b c) as [->|Hne]; [rewrite decide_True by done; f_equal; cbn; lia|].
    rewrite decide_False by done. rewrite (IH (s + 1) fuel Hs) by lia. f_equal.
    destruct (list_find (eq c) l) as [[k d]|]; cbn; [lia|done].
Qed.

(** [memmove] copies upwards only: when [dst] is inside the source, what it has
    already overwritten is copied again. *)
Lemma umemmove_forward m dst src n a :
  0 <= n -> dst <= src \/ src + n <= dst ->
  ld (umemmove m dst src n) a = if decide (dst <= a < dst + n) then ld m (src + (a - dst)) else ld m a.
Proof. intros Hn Ho. unfold umemmove. rewrite ld_copy_up by lia. by rewrite Z2Nat.id. Qed.
Lemma umemmove_overlap : lds (umemmove (sts ∅ 100 [1; 2; 3]) 101 100 3) 101 3 = [1; 1; 1].
Proof. by vm_compute. Qed.

(** ** Numbers *)

Lemma atoi_snoc n l c :
  Forall (fun d => is_digit d = true) l -> is_digit c = true ->
  atoi_from n (l ++ [c]) = i32 (atoi_from n l * 10 + c - 48).
Proof.
  intros Hl Hc. revert n. induction Hl as [|d l Hd _ IH]; intros n; cbn; [by rewrite Hc|]. by rewrite Hd.
Qed.

Lemma digit_char d : 0 <= d < 10 -> nth (Z.to_nat d) DIGITS 0 = 48 + d /\ is_digit (48 + d) = true.
Proof.
  intros Hd. assert (d ∈ seqZ 0 10) as Hin by (apply elem_of_seqZ; lia). clear Hd. revert d Hin.
  apply Forall_forall. by repeat constructor.
Qed.

Lemma digits_10 fuel x :
  0 <= x < 2 ^ 31 -> x < 10 ^ Z.of_nat fuel ->
  Forall (fun d => is_digit d = true) (digits_from fuel DIGITS 10 x) /\
  atoi_from 0 (rev (digits_from fuel DIGITS 10 x)) = x.
Proof.
  revert x. induction fuel as [|fuel IH]; intros x Hx Hf; cbn [digits_from].
  { cbn in Hf. split; [constructor|]. cbn. lia. }
  destruct (digit_char (x mod 10)) as [Ec Ed]; [by apply Z.mod_pos_bound|]. rewrite Ec.
  pose proof (Z.div_mod x 10 ltac:(done)) as Edm. pose proof (Z.mod_pos_bound x 10 ltac:(done)) as Hm.
  destruct (Z.eqb_spec (x / 10) 0) as [E0|N0].
  - split; [by repeat constructor|]. cbn. rewrite Ed. rewrite i32_small by wrap_lia. lia.
  - destruct (IH (x / 10)) as [Hall Hval].
    + split; [apply Z.div_pos; lia|]. apply Z.div_lt_upper_bound; lia.
    + rewrite Nat2Z.inj_succ, Z.pow_succ_r in Hf by lia. apply Z.div_lt_upper_bound; lia.
    + split; [by constructor|]. cbn [rev]. rewrite atoi_snoc; [|by apply Forall_rev|done].
      rewrite Hval, i32_small by wrap_lia. lia.
Qed.

(** [atoi] reads back what [printf] prints of a number that is not negative. *)
Lemma atoi_printint x : 0 <= x < 2 ^ 31 -> atoi (printint x 10 true) = x.
Proof.
  intros Hx. unfold printint, int_buf. rewrite (proj2 (Z.ltb_ge x 0)) by lia. cbn [andb]. rewrite app_nil_r.
  rewrite u32_small by wrap_lia. apply digits_10; [done|]. eapply Z.lt_trans; [apply Hx|]. done.
Qed.

Lemma length_digits fuel al base x k :
  1 < base -> 0 <= x < base ^ Z.of_nat k -> (0 < k)%nat -> (length (digits_from fuel al base x) <= k)%nat.
Proof.
  intros Hb. revert x k. induction fuel as [|fuel IH]; intros x k Hx Hk; cbn [digits_from length]; [lia|].
  destruct (Z.eqb_spec (x / base) 0) as [E0|N0]; cbn [length]; [lia|].
  destruct k as [|[|k]]; [lia| |].
  - destruct N0. apply Z.div_small. by rewrite Z.pow_1_r in Hx.
  - apply le_n_S, IH; [|lia]. rewrite Nat2Z.inj_succ, Z.pow_succ_r in Hx by lia.
    split; [apply Z.div_pos; lia|apply Z.div_lt_upper_bound; lia].
Qed.

(** The digits of an [int] fit the buffer of [printint]. *)
Lemma int_buf_fits al xx base sgn : base = 10 \/ base = 16 -> (length (int_buf al xx base sgn) <= 16)%nat.
Proof.
  intros Hb. unfold int_buf. rewrite length_app. set (x := if sgn && (xx <? 0) then u32 (- xx) else u32 xx).
  assert (is_u32 x) as Hx by (unfold x; destruct (sgn && _); apply u32_range).
  assert (length (digits_from 32 al base x) <= 10)%nat.
  { unfold is_u32 in Hx. apply length_digits; [lia| |lia]. split; [lia|]. eapply Z.lt_le_trans; [apply Hx|].
    by destruct Hb as [-> | ->]. }
  destruct (sgn && _); cbn [length]; lia.
Qed.

(** ** [gets] *)

(** A whole line that fits is returned with its newline. *)
Lemma gets_line max l rest :
  Forall (fun c => c <> NEWLINE /\ c <> RETURN) l -> Z.of_nat (length l) + 1 < max ->
  ugets max (l ++ NEWLINE :: rest) = (l ++ [NEWLINE], rest).
Proof.
  intros Hl Hm. unfold ugets. assert (length l < Z.to_nat (max - 1))%nat as Hr by lia. revert Hr.
  generalize (Z.to_nat (max - 1)). clear Hm. induction Hl as [|c l [Hc Hc'] _ IH]; intros [|r] Hr; cbn in *; try lia; [done|].
  rewrite (proj2 (Z.eqb_neq _ _)), (proj2 (Z.eqb_neq c RETURN)) by done. cbn. by rewrite IH by lia.
Qed.
