(* ===== verification/Umalloc.v ===== *)
(** * Umalloc: the memory allocator of ulib.c

    Kernighan and Ritchie's allocator: the free blocks form a ring in order of
    address, through headers of 8 bytes; a block is a header and units of 8
    bytes behind it. The headers are a map from addresses; [base], the static
    header that starts the ring, lies below the heap. *)

From stdpp Require Import base list numbers gmap strings.
From S2P Require Import Prelude.

Local Open Scope Z_scope.
Local Open Scope os_scope.

(** [s.ptr] and [s.size] of the headers, [freep], and the end of the heap. *)
Record uheap := { hdr : gmap Z (Z * Z); freep : Z; brk : Z }.
Definition HDRSZ : Z := 8.

Definition set_hdr (h : gmap Z (Z * Z)) (s : uheap) : uheap := {| hdr := h; freep := freep s; brk := brk s |}.
Definition set_freep (p : Z) (s : uheap) : uheap := {| hdr := hdr s; freep := p; brk := brk s |}.
Definition geth (a : Z) : M uheap (Z * Z) := fun s =>
  match hdr s !! a with Some x => Done (x, s) | None => Fault end.
Definition seth (a : Z) (x : Z * Z) : M uheap unit := modify (fun s => set_hdr (<[a := x]> (hdr s)) s).
(** A header that may be fresh memory. *)
Definition set_size (a n : Z) : M uheap unit := fun s =>
  seth a (match hdr s !! a with Some (ptr, _) => ptr | None => 0 end, n) s.

Section umalloc.
Context (base : Z).
(** Whether [sbrk] can grow the heap, which ends at the first argument. *)
Context (grow : Z -> Z -> bool).

Definition sbrk (n : Z) : M uheap Z := fun s =>
  if grow (brk s) n then Done (brk s, {| hdr := hdr s; freep := freep s; brk := brk s + n |}) else Done (-1, s).

(** The [for] loop of [free]. *)
Fixpoint find_pos (fuel : nat) (bp p : Z) : M uheap Z :=
  match fuel with
  | O => fault
  | S fuel =>
      let! ' (q, _) := geth p in
      if (p <? bp) && (bp <? q) then ret p
      else if (q <=? p) && ((p <? bp) || (bp <? q)) then ret p
      else find_pos fuel bp q
  end.

Definition free (ap : Z) : M uheap unit :=
  let bp := ap - HDRSZ in
  let! f := gets freep in
  let! n := gets (fun s => size (hdr s)) in
  let! p := find_pos (S n) bp f in
  let! ' (_, bsize) := geth bp in
  let! ' (q, _) := geth p in
  (if bp + HDRSZ * bsize =? q then
     let! ' (r, qsize) := geth q in
     seth bp (r, u32 (bsize + qsize))
   else seth bp (q, bsize));;;
  let! ' (bptr, bsize) := geth bp in
  let! ' (_, psize) := geth p in
  (if p + HDRSZ * psize =? bp then seth p (bptr, u32 (psize + bsize))
   else seth p (bp, psize));;;
  modify (set_freep p).

Definition morecore (nu : Z) : M uheap Z :=
  let nu := if nu <? 4096 then 4096 else nu in
  let! p := sbrk (i32 (u32 (nu * HDRSZ))) in
  if p =? -1 then ret 0
  else
    set_size p nu;;;
    free (p + HDRSZ);;;
    gets freep.

(** What [malloc] does with a block [p] that is large enough. *)
Definition take_block (nunits prevp p q psize : Z) : M uheap Z :=
  if psize =? nunits then
    let! ' (_, s) := geth prevp in
    seth prevp (q, s);;;
    modify (set_freep prevp);;;
    ret (p + HDRSZ)
  else
    seth p (q, u32 (psize - nunits));;;
    let r := p + HDRSZ * u32 (psize - nunits) in
    set_size r nunits;;;
    modify (set_freep prevp);;;
    ret (r + HDRSZ).

(** The loop of [malloc]. *)
Fixpoint malloc_loop (fuel : nat) (nunits prevp p : Z) : M uheap Z :=
  match fuel with
  | O => fault
  | S fuel =>
      let! ' (q, psize) := geth p in
      if nunits <=? psize then take_block nunits prevp p q psize
      else
        let! f := gets freep in
        let next p := (let! ' (q, _) := geth p in malloc_loop fuel nunits p q) in
        if p =? f then
          let! p := morecore nunits in
          if p =? 0 then ret 0 else next p
        else next p
  end.

Definition malloc (nbytes : Z) : M uheap Z :=
  let nunits := u32 (u32 (nbytes + HDRSZ - 1) / HDRSZ + 1) in
  let! f := gets freep in
  (if f =? 0 then seth base (base, 0);;; modify (set_freep base) else ret tt);;;
  let! prevp := gets freep in
  let! ' (p, _) := geth prevp in
  let! n := gets (fun s => size (hdr s)) in
  malloc_loop (2 * (n + 3)) nunits prevp p.

(** ** The ring of free blocks *)

(** A block: its address and its size in units, header included. *)
Implicit Types (F R : list (Z * Z)) (A : gmap Z Z) (h : gmap Z (Z * Z)) (s : uheap).

Definition hd_addr R (e : Z) : Z := match R with [] => e | x :: _ => x.1 end.
(** The headers of [R] point each to the next, and the last to [e]. *)
Fixpoint chain h R (e : Z) : Prop :=
  match R with
  | [] => True
  | x :: R => h !! x.1 = Some (hd_addr R e, x.2) /\ chain h R e
  end.
(** The blocks lie between [lo] and [hi], in order. *)
Fixpoint ordered (lo : Z) F (hi : Z) : Prop :=
  match F with
  | [] => lo <= hi
  | x :: F => lo <= x.1 /\ 1 <= x.2 /\ ordered (x.1 + HDRSZ * x.2) F hi
  end.
Definition away (x y : Z * Z) : Prop := x.1 + HDRSZ * x.2 <= y.1 \/ y.1 + HDRSZ * y.2 <= x.1.
Definition units F : Z := foldr (fun x n => x.2 + n) 0 F.

Lemma hd_addr_app R1 R2 e : hd_addr (R1 ++ R2) e = hd_addr R1 (hd_addr R2 e).
Proof. by destruct R1. Qed.
Lemma chain_app h R1 R2 e : chain h (R1 ++ R2) e <-> chain h R1 (hd_addr R2 e) /\ chain h R2 e.
Proof. induction R1 as [|x R1 IH]; cbn; [tauto|]. rewrite hd_addr_app, IH. tauto. Qed.
Lemma chain_insert h R e a v : a ∉ R.*1 -> chain (<[a := v]> h) R e <-> chain h R e.
Proof.
  induction R as [|x R IH]; cbn; intros Ha; [done|]. apply not_elem_of_cons in Ha as [Hne Ha].
  rewrite lookup_insert_ne by congruence. by rewrite IH.
Qed.
(** A ring may be entered anywhere. *)
Lemma chain_rotate h R1 R2 e :
  chain h (R1 ++ R2) (hd_addr (R1 ++ R2) e) -> chain h (R2 ++ R1) (hd_addr (R2 ++ R1) e).
Proof. rewrite !chain_app, !hd_addr_app. destruct R1, R2; cbn; tauto. Qed.

Lemma ordered_le lo F hi : ordered lo F hi -> lo <= hi.
Proof. revert lo. induction F as [|x F IH]; intros lo; cbn; [done|]. unfold HDRSZ in *. intros (? & ? & ?%IH). lia. Qed.
Lemma ordered_lo lo lo' F hi : ordered lo F hi -> lo' <= lo -> ordered lo' F hi.
Proof. destruct F as [|x F]; cbn; [lia|]. intros (? & ? & ?) ?. split_and!; [lia|done|done]. Qed.
Lemma ordered_app lo F1 F2 hi : ordered lo (F1 ++ F2) hi <-> exists mid, ordered lo F1 mid /\ ordered mid F2 hi.
Proof.
  revert lo. induction F1 as [|x F1 IH]; intros lo; cbn.
  - split; [intros Ho; by exists lo|]. intros (mid & ? & ?). by eapply ordered_lo.
  - rewrite IH. naive_solver.
Qed.
Lemma ordered_hi lo F hi hi' : ordered lo F hi -> hi <= hi' -> ordered lo F hi'.
Proof. revert lo. induction F as [|x F IH]; intros lo; cbn; [lia|]. naive_solver. Qed.
Lemma ordered_in lo F hi x : ordered lo F hi -> x ∈ F -> lo <= x.1 /\ 1 <= x.2 /\ x.1 + HDRSZ * x.2 <= hi.
Proof.
  revert lo. induction F as [|y F IH]; intros lo; cbn; [by intros _ ?%elem_of_nil|].
  intros (H1 & H2 & H3) [->|Hx]%elem_of_cons; [pose proof (ordered_le _ _ _ H3); lia|].
  destruct (IH _ H3 Hx) as (? & ? & ?). unfold HDRSZ in *. lia.
Qed.
Lemma ordered_nodup lo F hi : ordered lo F hi -> NoDup F.*1.
Proof.
  revert lo. induction F as [|y F IH]; intros lo; cbn; [constructor|]. intros (H1 & H2 & H3). constructor; [|by eapply IH].
  intros (x & E & Hx)%list_elem_of_fmap. destruct (ordered_in _ _ _ x H3 Hx) as (? & _). unfold HDRSZ in *. lia.
Qed.

(** A block apart from all of [F] splits it. *)
Lemma ordered_split lo F hi x :
  ordered lo F hi -> lo <= x.1 -> 1 <= x.2 -> x.1 + HDRSZ * x.2 <= hi -> Forall (fun y => away y x) F ->
  exists F1 F2, F = F1 ++ F2 /\ ordered lo F1 x.1 /\ ordered (x.1 + HDRSZ * x.2) F2 hi.
Proof.
  revert lo. induction F as [|y F IH]; intros lo Ho Hlo Hn Hhi Haw; [by exists [], []|].
  inversion Haw as [|? ? Hy Haw']; subst. destruct Ho as (H1 & H2 & H3). destruct Hy as [Hy|Hy].
  - destruct (IH _ H3 Hy Hn Hhi Haw') as (F1 & F2 & -> & Ho1 & Ho2). by exists (y :: F1), F2.
  - exists [], (y :: F). split_and!; [done|done|]. by split_and!.
Qed.

(** ** The invariant *)

(** The free blocks [F] and the blocks [A] handed out: the ring goes through
    [base] and [F] in order, and no two blocks of [F] and [A] overlap. *)
Record uinv F A s : Prop := {
  ui_ring : chain (hdr s) ((base, 0) :: F) base;
  ui_order : ordered (base + HDRSZ) F (brk s);
  ui_freep : freep s ∈ base :: F.*1;
  ui_brk : brk s <= 2 ^ 31;
  ui_hdr b m : A !! b = Some m -> exists ptr, hdr s !! b = Some (ptr, m);
  ui_alloc b m : A !! b = Some m -> base + HDRSZ <= b /\ 1 <= m /\ b + HDRSZ * m <= brk s;
  ui_free b m : A !! b = Some m -> Forall (fun x => away x (b, m)) F;
  ui_disj b m b' m' : A !! b = Some m -> A !! b' = Some m' -> b <> b' -> away (b, m) (b', m')
}.
Context (base_pos : 0 < base).

Lemma ordered_base_nodup F hi : ordered (base + HDRSZ) F hi -> NoDup (base :: F.*1).
Proof.
  intros Ho. constructor; [|by eapply ordered_nodup].
  intros (x & E & Hx)%list_elem_of_fmap. destruct (ordered_in _ _ _ x Ho Hx) as (? & _). unfold HDRSZ in *. lia.
Qed.
Lemma chain_dom h R e : chain h R e -> list_to_set R.*1 ⊆ dom h.
Proof. induction R as [|x R IH]; cbn; [set_solver|]. intros (Hx & ?%IH). apply elem_of_dom_2 in Hx. set_solver. Qed.
(** The ring has no more blocks than there are headers. *)
Lemma uinv_size F A s : uinv F A s -> (S (length F) <= size (hdr s))%nat.
Proof.
  intros HI. pose proof (ordered_base_nodup _ _ (ui_order _ _ _ HI)) as Hnd. pose proof (chain_dom _ _ _ (ui_ring _ _ _ HI)) as Hd.
  rewrite <-size_dom. apply subseteq_size in Hd. rewrite size_list_to_set in Hd by done.
  cbn in Hd. by rewrite length_fmap in Hd.
Qed.

Lemma wp_geth a (Q : Z * Z -> uheap -> Prop) s x : hdr s !! a = Some x -> Q x s -> wp (geth a) Q s.
Proof. intros E HQ. eapply wp_intro; [|exact HQ]. unfold geth. by rewrite E. Qed.

Lemma ordered_next lo F hi x pre y z post :
  ordered lo F hi -> x.1 < lo -> x :: F = pre ++ y :: z :: post -> y.1 < z.1.
Proof.
  revert lo x pre. induction F as [|w F IH]; intros lo x pre Ho Hx E.
  - destruct pre as [|? [|? pre]]; discriminate E.
  - destruct Ho as (H1 & H2 & H3). destruct pre as [|v pre]; cbn in E.
    + injection E as <- <- _. lia.
    + injection E as _ E. eapply IH; [exact H3| |exact E]. unfold HDRSZ. lia.
Qed.
Lemma chain_at h pre x post e : chain h (pre ++ x :: post) e -> h !! x.1 = Some (hd_addr post e, x.2).
Proof. rewrite chain_app. cbn. tauto. Qed.

(** *** The place of a block in the ring *)
Section place.
Context F1 F2 s (bp hi : Z).
Context (Hring : chain (hdr s) ((base, 0) :: F1 ++ F2) base).
Context (Ho1 : ordered (base + HDRSZ) F1 bp) (Ho2 : ordered (bp + 1) F2 hi).

Lemma below_lt x : x ∈ (base, 0) :: F1 -> base <= x.1 < bp.
Proof.
  intros [->|Hx]%elem_of_cons; [pose proof (ordered_le _ _ _ Ho1); unfold HDRSZ in *; cbn; lia|].
  destruct (ordered_in _ _ _ x Ho1 Hx) as (? & ? & ?). unfold HDRSZ in *. lia.
Qed.

(** From a block below, the search stops at the last one below. *)
Lemma find_pos_below pre G p fuel :
  (base, 0) :: F1 = pre ++ G ++ [p] -> (length G < fuel)%nat ->
  find_pos fuel bp (hd_addr (G ++ [p]) base) s = Done (p.1, s).
Proof.
  revert pre fuel. induction G as [|x G IH]; intros pre [|fuel] HR Hf; [cbn in Hf; lia| |cbn in Hf; lia|].
  - pose proof Hring as Hr. rewrite app_comm_cons, HR, <-app_assoc in Hr. apply chain_at in Hr.
    assert (base <= p.1 < bp) as Hp by (apply below_lt; rewrite HR; set_solver).
    cbn [find_pos app hd_addr]. unfold bind, geth. rewrite Hr. destruct F2 as [|q F2']; cbn.
    + rewrite (proj2 (Z.ltb_lt p.1 bp)), (proj2 (Z.ltb_ge bp base)), (proj2 (Z.leb_le base p.1)) by lia. done.
    + destruct Ho2 as (? & _). rewrite (proj2 (Z.ltb_lt p.1 bp)), (proj2 (Z.ltb_lt bp q.1)) by lia. done.
  - assert (exists y post, G ++ [p] = y :: post) as (y & post & Ey) by (destruct G; eauto).
    pose proof Hring as Hr. rewrite app_comm_cons, HR, <-app_assoc in Hr. rewrite <-app_comm_cons, Ey in *.
    cbn [app] in Hr. apply chain_at in Hr. cbn [app hd_addr] in *.
    assert (x.1 < y.1) by (eapply ordered_next; [exact Ho1| |exact HR]; cbn; unfold HDRSZ; lia).
    assert (y.1 < bp) by (apply below_lt; rewrite HR; set_solver).
    cbn [find_pos]. unfold bind, geth. rewrite Hr.
    rewrite (proj2 (Z.ltb_ge bp y.1)), andb_false_r, (proj2 (Z.leb_gt y.1 x.1)) by lia. cbn [andb].
    rewrite <-(IH (pre ++ [x]) fuel); [done|by rewrite <-app_assoc|cbn in Hf; lia].
Qed.

(** From a block above, the search goes on to [base] first. *)
Lemma find_pos_above pre G x p R1 fuel :
  F2 = pre ++ x :: G -> (base, 0) :: F1 = R1 ++ [p] -> (S (length G + length R1) < fuel)%nat ->
  find_pos fuel bp x.1 s = Done (p.1, s).
Proof.
  intros E2 HR. revert pre x fuel E2. induction G as [|y G IH]; intros pre x [|fuel] E2 Hf; [lia| |lia|].
  - pose proof Hring as Hr. rewrite E2, app_assoc, app_comm_cons in Hr. apply chain_at in Hr. cbn in Hr.
    destruct (ordered_in _ _ _ x Ho2) as (Hx & _); [rewrite E2; set_solver|].
    pose proof (ordered_le _ _ _ Ho1).
    cbn [find_pos]. unfold bind, geth. rewrite Hr.
    rewrite (proj2 (Z.ltb_ge x.1 bp)), (proj2 (Z.ltb_ge bp base)) by (unfold HDRSZ in *; lia). cbn [andb orb]. rewrite andb_false_r.
    replace base with (hd_addr (R1 ++ [p]) base) by (rewrite <-HR; done).
    apply (find_pos_below []); [done|cbn in Hf; lia].
  - pose proof Hring as Hr. rewrite E2, app_assoc, app_comm_cons in Hr. apply chain_at in Hr. cbn in Hr.
    destruct (ordered_in _ _ _ x Ho2) as (Hx & _); [rewrite E2; set_solver|].
    assert (x.1 < y.1) by (eapply (ordered_next _ _ _ (bp, 0)); [exact Ho2|cbn; lia|rewrite E2; apply app_comm_cons]).
    cbn [find_pos]. unfold bind, geth. rewrite Hr.
    rewrite (proj2 (Z.ltb_ge x.1 bp)), (proj2 (Z.leb_gt y.1 x.1)) by lia. cbn [andb].
    apply (IH (pre ++ [x])); [by rewrite <-app_assoc|cbn in Hf; lia].
Qed.

(** From anywhere in the ring, with fuel for one turn. *)
Lemma find_pos_last R1 p f fuel :
  (base, 0) :: F1 = R1 ++ [p] -> f ∈ base :: (F1 ++ F2).*1 -> (S (length (F1 ++ F2)) < fuel)%nat ->
  find_pos fuel bp f s = Done (p.1, s).
Proof.
  intros HR Hf Hfuel. pose proof (f_equal length HR) as Hlen. cbn in Hlen. rewrite length_app in Hlen, Hfuel. cbn in Hlen.
  rewrite fmap_app, app_comm_cons, elem_of_app in Hf. destruct Hf as [Hf|(x & -> & Hx)%list_elem_of_fmap].
  - change (base :: F1.*1) with (((base, 0) :: F1).*1) in Hf. apply list_elem_of_fmap in Hf as (x & -> & Hx).
    rewrite HR in Hx. apply list_elem_of_split in Hx as (pre & post & E).
    destruct (decide (post = [])) as [->|Hne].
    + apply app_inj_tail in E as [-> ->]. apply (find_pos_below pre []); [by rewrite HR|cbn; lia].
    + destruct (exists_last Hne) as (G & z & ->). rewrite app_comm_cons, app_assoc in E. apply app_inj_tail in E as [E ->].
      apply (find_pos_below pre (x :: G)); [by rewrite HR, E, <-app_assoc|].
      rewrite E, length_app in Hlen. cbn in *. lia.
  - apply list_elem_of_split in Hx as (pre & G & E). eapply (find_pos_above pre G); [done|done|].
    rewrite E, length_app in Hfuel. cbn in *. lia.
Qed.
End place.

(** *** [free] *)

(** [F'] is [F] with the block [x] put in. *)
Record takes_in F (x : Z * Z) F' : Prop := {
  ti_away y : 1 <= y.2 -> Forall (fun z => away z y) F -> away x y -> Forall (fun z => away z y) F';
  ti_in : exists z, z ∈ F' /\ z.1 <= x.1 /\ x.1 + HDRSZ * x.2 <= z.1 + HDRSZ * z.2;
  ti_units : units F' = units F + x.2;
  ti_length : (length F' <= S (length F))%nat
}.

Lemma units_app F1 F2 : units (F1 ++ F2) = units F1 + units F2.
Proof. induction F1 as [|x F1 IH]; cbn; [done|]. unfold units in *. cbn. lia. Qed.

(** The block joins the free block right above it. *)
Lemma free_up F2 bp n ptr s hi :
  hdr s !! bp = Some (ptr, n) -> chain (hdr s) F2 base -> 1 <= n -> ordered (bp + HDRSZ * n) F2 hi ->
  0 < bp -> hi <= 2 ^ 31 -> base < bp ->
  exists n' F2',
    (if bp + HDRSZ * n =? hd_addr F2 base then
       let! ' (r, qsize) := geth (hd_addr F2 base) in seth bp (r, u32 (n + qsize))
     else seth bp (hd_addr F2 base, n)) s = Done (tt, set_hdr (<[bp := (hd_addr F2' base, n')]> (hdr s)) s) /\
    chain (hdr s) F2' base /\ n <= n' /\ ordered (bp + HDRSZ * n') F2' hi /\ takes_in F2 (bp, n) ((bp, n') :: F2').
Proof.
  intros Hbp Hch Hn Ho Hpos Hhi Hbase. destruct (Z.eqb_spec (bp + HDRSZ * n) (hd_addr F2 base)) as [E|E].
  - destruct F2 as [|q F2]; cbn [hd_addr] in *; [unfold HDRSZ in *; lia|]. destruct Hch as [Hq Hch].
    destruct Ho as (H1 & H2 & H3). pose proof (ordered_le _ _ _ H3).
    exists (n + q.2), F2. split_and!; [|done|lia|eapply ordered_lo; [done|unfold HDRSZ in *; lia]|split].
    + unfold bind, geth. rewrite Hq. rewrite u32_small by (unfold is_u32, HDRSZ in *; lia). done.
    + intros y Hy [Hq' HF]%Forall_cons Hx. constructor; [|done]. unfold away, HDRSZ in *. cbn in *. lia.
    + exists (bp, n + q.2). cbn. unfold HDRSZ. split_and!; [set_solver|lia|lia].
    + cbn. unfold units. lia.
    + cbn. lia.
  - exists n, F2. split_and!; [done|done|lia|done|split].
    + intros y Hy HF Hx. by constructor.
    + exists (bp, n). cbn. split_and!; [set_solver|lia|lia].
    + cbn. unfold units. lia.
    + cbn. lia.
Qed.

(** The block below takes it in, or points to it. *)
Lemma free_low F1 F2 R1 p bp n s hi e :
  (base, 0) :: F1 = R1 ++ [p] -> chain (hdr s) ((base, 0) :: F1) e ->
  hdr s !! bp = Some (hd_addr F2 base, n) -> chain (hdr s) F2 base -> 1 <= n ->
  ordered (base + HDRSZ) F1 bp -> ordered (bp + HDRSZ * n) F2 hi -> hi <= 2 ^ 31 ->
  exists F' v,
    (if p.1 + HDRSZ * p.2 =? bp then seth p.1 (hd_addr F2 base, u32 (p.2 + n)) else seth p.1 (bp, p.2)) s
      = Done (tt, set_hdr (<[p.1 := v]> (hdr s)) s) /\
    chain (<[p.1 := v]> (hdr s)) ((base, 0) :: F') base /\ ordered (base + HDRSZ) F' hi /\
    p.1 ∈ base :: F'.*1 /\ takes_in (F1 ++ F2) (bp, n) F'.
Proof.
  intros HR HcR Hbp Hc2 Hn Ho1 Ho2 Hhi.
  pose proof (ordered_le _ _ _ Ho1) as Hbb. pose proof (ordered_le _ _ _ Ho2) as Hbh.
  assert (ordered (base + HDRSZ) (F1 ++ (bp, n) :: F2) hi) as Ho.
  { apply ordered_app. exists bp. split; [done|]. split_and!; [cbn; lia|done|done]. }
  pose proof (ordered_base_nodup _ _ Ho) as Hnd.
  rewrite fmap_app, app_comm_cons in Hnd. change (base :: F1.*1) with (((base, 0) :: F1).*1) in Hnd.
  rewrite HR, chain_app in HcR. destruct HcR as [Hc1 [Hp _]]. cbn [hd_addr] in Hc1.
  rewrite HR, !fmap_app in Hnd. cbn in Hnd.
  assert (p.1 ∉ R1.*1 /\ p.1 <> bp /\ p.1 ∉ F2.*1) as (Hp1 & Hpb & Hp2).
  { rewrite <-app_assoc in Hnd. apply NoDup_app in Hnd as (_ & Hd & Hnd). cbn in Hnd.
    apply NoDup_cons in Hnd as [Hnd _]. apply not_elem_of_cons in Hnd as [? ?].
    split_and!; [intros Hin; apply (Hd _ Hin); set_solver|done|done]. }
  destruct (Z.eqb_spec (p.1 + HDRSZ * p.2) bp) as [E|E].
  - destruct R1 as [|b F1']; cbn in HR; injection HR as <-; [subst; cbn in *; unfold HDRSZ in *; lia|]. subst F1.
    apply ordered_app in Ho1 as (mid & Ho1 & (H1 & H2 & H3)).
    exists (F1' ++ (p.1, p.2 + n) :: F2), (hd_addr F2 base, p.2 + n). split_and!.
    + rewrite u32_small; [done|]. destruct (ordered_in _ _ _ p Ho) as (? & _); [set_solver|].
      unfold is_u32, HDRSZ in *. lia.
    + rewrite app_comm_cons, chain_app, !chain_insert by done. split; [done|]. cbn. rewrite lookup_insert_eq.
      split; [done|]. by rewrite chain_insert.
    + apply ordered_app. exists mid. split; [done|]. split_and!; [done|cbn; lia|].
      eapply ordered_lo; [done|]. cbn in *. unfold HDRSZ in *. lia.
    + rewrite fmap_app. set_solver.
    + split.
      * intros y Hy HF Hx. rewrite !Forall_app in *. destruct HF as [[HF1 [Hp' _]%Forall_cons] HF2].
        split; [done|]. constructor; [|done]. unfold away, HDRSZ in *. cbn in *. lia.
      * exists (p.1, p.2 + n). cbn. unfold HDRSZ in *. split_and!; [set_solver|lia|lia].
      * rewrite !units_app. cbn. unfold units. lia.
      * rewrite !length_app. cbn. lia.
  - exists (F1 ++ (bp, n) :: F2), (bp, p.2). split_and!; [done| |done| |split].
    + rewrite app_comm_cons, HR, <-app_assoc. cbn [app]. rewrite chain_app, !chain_insert by done. split; [done|]. cbn.
      rewrite lookup_insert_eq, lookup_insert_ne, chain_insert by done. done.
    + rewrite fmap_app, app_comm_cons. change (base :: F1.*1) with (((base, 0) :: F1).*1). rewrite HR, fmap_app. set_solver.
    + intros y Hy [HF1 HF2]%Forall_app Hx. apply Forall_app. split; [done|]. by constructor.
    + exists (bp, n). cbn. split_and!; [set_solver|lia|lia].
    + rewrite !units_app. cbn. unfold units. lia.
    + rewrite !length_app. cbn. lia.
Qed.

Lemma takes_in_trans F1 F2 bp n n' F2' F' :
  n <= n' -> takes_in F2 (bp, n) ((bp, n') :: F2') -> takes_in (F1 ++ F2') (bp, n') F' -> takes_in (F1 ++ F2) (bp, n) F'.
Proof.
  intros Hn [Ha _ Hu Hl] [Ha' (z & Hz & Hz1 & Hz2) Hu' Hl']. split.
  - intros y Hy [HF1 HF2]%Forall_app Hx. destruct (Forall_cons_1 _ _ _ (Ha y Hy HF2 Hx)) as [??].
    apply Ha'; [done| |done]. by apply Forall_app.
  - exists z. cbn in *. unfold HDRSZ in *. split_and!; [done|lia|lia].
  - rewrite units_app in *. cbn in *. unfold units in *. lia.
  - rewrite length_app in *. cbn in *. lia.
Qed.

Lemma ring_not_alloc F A s p b m : uinv F A s -> p ∈ base :: F.*1 -> A !! b = Some m -> p <> b.
Proof.
  intros HI Hp HA ->. destruct (ui_alloc _ _ _ HI _ _ HA) as (H1 & H2 & _).
  apply elem_of_cons in Hp as [->|(x & -> & Hx)%list_elem_of_fmap]; [unfold HDRSZ in *; lia|].
  pose proof (ui_free _ _ _ HI _ _ HA) as Haw. rewrite Forall_forall in Haw. specialize (Haw x Hx).
  destruct (ordered_in _ _ _ x (ui_order _ _ _ HI) Hx) as (_ & ? & _). unfold away, HDRSZ in *. cbn in *. lia.
Qed.

(** What [free] does to the ring: two headers change, the block's and that of
    the free block [p] below it. *)
Lemma free_ring F A s b n :
  uinv F A s -> A !! b = Some n ->
  exists F' p v w,
    free (b + HDRSZ) s = Done (tt, {| hdr := <[p := v]> (<[b := w]> (hdr s)); freep := p; brk := brk s |}) /\
    p ∈ base :: F.*1 /\ p ∈ base :: F'.*1 /\ takes_in F (b, n) F' /\ ordered (base + HDRSZ) F' (brk s) /\
    chain (<[p := v]> (<[b := w]> (hdr s))) ((base, 0) :: F') base.
Proof.
  intros HI HA. pose proof (uinv_size _ _ _ HI) as Hsz.
  destruct (ui_alloc _ _ _ HI _ _ HA) as (Hb & Hn & Hhi). destruct (ui_hdr _ _ _ HI _ _ HA) as [ptr Hptr].
  pose proof (ui_brk _ _ _ HI) as Hbrk.
  destruct (ordered_split _ _ _ (b, n) (ui_order _ _ _ HI)) as (F1 & F2 & -> & Ho1 & Ho2); [done|done|done|by apply (ui_free _ _ _ HI)|].
  cbn [fst snd] in *.
  destruct (@exists_last _ ((base, 0) :: F1)) as (R1 & p & HR); [done|].
  assert (p ∈ (base, 0) :: F1) as Hp by (rewrite HR; set_solver).
  assert (base <= p.1 < b) as Hpb by (by eapply below_lt).
  assert (find_pos (S (size (hdr s))) b (freep s) s = Done (p.1, s)) as Efind.
  { eapply find_pos_last; [apply (ui_ring _ _ _ HI)|done| |done|apply (ui_freep _ _ _ HI)|lia].
    eapply ordered_lo; [done|]. unfold HDRSZ. lia. }
  pose proof (ui_ring _ _ _ HI) as Hring. rewrite app_comm_cons, chain_app in Hring. destruct Hring as [Hc1 Hc2].
  assert (hdr s !! p.1 = Some (hd_addr F2 base, p.2)) as Ep.
  { rewrite HR in Hc1. by apply chain_at in Hc1. }
  destruct (free_up F2 b n ptr s (brk s)) as (n' & F2' & Eup & Hc2' & Hnn & Ho2' & Hti); [done..|unfold HDRSZ in *; lia|done|unfold HDRSZ in *; lia|].
  set (s1 := set_hdr _ s) in Eup.
  destruct (free_low F1 F2' R1 p b n' s1 (brk s) (hd_addr F2 base)) as (F' & v & Elow & Hc' & Ho' & Hin & Hti'); [done| | | |lia|done|done|done|].
  { apply chain_insert; [|done]. intros (x & -> & Hx)%list_elem_of_fmap. pose proof (below_lt F1 _ Ho1 x Hx). lia. }
  { apply lookup_insert_eq. }
  { apply chain_insert; [|done]. intros (x & E & Hx)%list_elem_of_fmap.
    destruct (ordered_in _ _ _ x Ho2' Hx) as (? & _). unfold HDRSZ in *. lia. }
  assert (hdr s1 !! b = Some (hd_addr F2' base, n')) as Eb1 by apply lookup_insert_eq.
  assert (hdr s1 !! p.1 = Some (hd_addr F2 base, p.2)) as Ep1 by (unfold s1; cbn; rewrite lookup_insert_ne by lia; done).
  exists F', p.1, v, (hd_addr F2' base, n'). split_and!; [| |done|by eapply takes_in_trans|done|done].
  - unfold free. replace (b + HDRSZ - HDRSZ) with b by lia. unfold bind at 1 2 3. unfold gets at 1 2. rewrite Efind.
    unfold bind at 1. unfold geth at 1. rewrite Hptr. unfold bind at 1. unfold geth at 1. rewrite Ep.
    unfold bind at 1. rewrite Eup. unfold bind at 1, geth at 1. rewrite Eb1.
    unfold bind at 1, geth at 1. rewrite Ep1. unfold bind. rewrite Elow. done.
  - change (p.1 ∈ ((base, 0) :: F1 ++ F2).*1). apply list_elem_of_fmap_2. set_solver.
Qed.

(** [free] puts a block handed out back among the free ones, joined with its
    neighbours. *)
Lemma free_run F A s b n :
  uinv F A s -> A !! b = Some n ->
  exists F' s', free (b + HDRSZ) s = Done (tt, s') /\ uinv F' (delete b A) s' /\ takes_in F (b, n) F' /\ brk s' = brk s.
Proof.
  intros HI HA. destruct (free_ring _ _ _ _ _ HI HA) as (F' & p & v & w & E & Hp & Hp' & HT & Ho & Hc).
  eexists F', _. split_and!; [exact E| |done|done].
  assert (forall c m, delete b A !! c = Some m -> c <> b /\ A !! c = Some m) as HD.
  { intros c m. rewrite lookup_delete_Some. intros [??]. done. }
  split; cbn.
  - done.
  - done.
  - done.
  - apply (ui_brk _ _ _ HI).
  - intros c m [Hc' Hm]%HD. rewrite lookup_insert_ne, lookup_insert_ne by (done || eapply ring_not_alloc; eauto).
    by apply (ui_hdr _ _ _ HI).
  - intros c m [_ Hm]%HD. by apply (ui_alloc _ _ _ HI).
  - intros c m [Hc' Hm]%HD. eapply ti_away; [done| |by eapply ui_free|by eapply ui_disj].
    by destruct (ui_alloc _ _ _ HI _ _ Hm) as (_ & ? & _).
  - intros c m c' m' [_ Hm]%HD [_ Hm']%HD. by eapply ui_disj.
Qed.

(** *** [morecore] *)
(** The heap stays below the kernel. *)
Context (grow_fits : forall top n, grow top n = true -> 0 <= n -> top + n <= 2 ^ 31).

Lemma uinv_grow F A s nu x :
  uinv F A s -> 1 <= nu -> brk s + HDRSZ * nu <= 2 ^ 31 ->
  uinv F (<[brk s := nu]> A) {| hdr := <[brk s := (x, nu)]> (hdr s); freep := freep s; brk := brk s + HDRSZ * nu |}.
Proof.
  intros HI Hnu Hle. pose proof (ordered_le _ _ _ (ui_order _ _ _ HI)) as Hlo.
  split; cbn [hdr freep brk].
  - apply chain_insert; [|apply (ui_ring _ _ _ HI)].
    intros [E|(y & E & Hy)%list_elem_of_fmap]%elem_of_cons; [unfold HDRSZ in *; cbn in *; lia|].
    destruct (ordered_in _ _ _ y (ui_order _ _ _ HI) Hy) as (? & ? & ?). unfold HDRSZ in *. lia.
  - eapply ordered_hi; [apply (ui_order _ _ _ HI)|unfold HDRSZ; lia].
  - apply (ui_freep _ _ _ HI).
  - done.
  - intros b m [[<- <-]|[Hne Hm]]%lookup_insert_Some; [rewrite lookup_insert_eq; eauto|].
    rewrite lookup_insert_ne by done. by apply (ui_hdr _ _ _ HI).
  - intros b m [[<- <-]|[Hne Hm]]%lookup_insert_Some; [lia|].
    destruct (ui_alloc _ _ _ HI _ _ Hm) as (? & ? & ?). unfold HDRSZ in *. lia.
  - intros b m [[<- <-]|[Hne Hm]]%lookup_insert_Some; [|by apply (ui_free _ _ _ HI)].
    apply Forall_forall. intros y Hy. destruct (ordered_in _ _ _ y (ui_order _ _ _ HI) Hy) as (? & ? & ?). by left.
  - intros b m b' m' [[<- <-]|[Hne Hm]]%lookup_insert_Some [[<- <-]|[Hne' Hm']]%lookup_insert_Some Hb; [done| | |by apply (ui_disj _ _ _ HI)].
    + right. by destruct (ui_alloc _ _ _ HI _ _ Hm') as (? & ? & ?).
    + left. by destruct (ui_alloc _ _ _ HI _ _ Hm) as (? & ? & ?).
Qed.

(** Either there is no more memory, or the ring now has a block that is large
    enough. *)
Lemma morecore_run F A s nu :
  uinv F A s -> 1 <= nu -> HDRSZ * nu < 2 ^ 31 ->
  morecore nu s = Done (0, s) \/
  exists F' s', morecore nu s = Done (freep s', s') /\ uinv F' A s' /\ Exists (fun x => nu <= x.2) F' /\
    (length F' <= S (length F))%nat /\ brk s' = brk s + HDRSZ * Z.max nu 4096 /\ units F' = units F + Z.max nu 4096.
Proof.
  intros HI Hnu Hlt. unfold morecore. set (nu' := if nu <? 4096 then 4096 else nu).
  assert (nu' = Z.max nu 4096) as En by (unfold nu'; destruct (Z.ltb_spec nu 4096); lia).
  pose proof (ordered_le _ _ _ (ui_order _ _ _ HI)) as Hlo.
  rewrite u32_small, i32_small by (unfold is_u32, is_i32, HDRSZ in *; lia).
  unfold sbrk. destruct (grow (brk s) (nu' * HDRSZ)) eqn:Eg; [|left; unfold bind at 1; by rewrite Eg].
  pose proof (grow_fits _ _ Eg ltac:(unfold HDRSZ; lia)) as Hfit. right. unfold bind at 1. rewrite Eg.
  rewrite (proj2 (Z.eqb_neq (brk s) (-1))) by (unfold HDRSZ in *; lia).
  rewrite (Z.mul_comm nu' HDRSZ) in *.
  set (x := match hdr s !! brk s with Some (ptr, _) => ptr | None => 0 end).
  pose proof (uinv_grow F A s nu' x HI ltac:(lia) Hfit) as HI'.
  destruct (free_run _ _ _ (brk s) nu' HI' (lookup_insert_eq _ _ _)) as (F' & s' & E & HU & HT & Hb).
  rewrite delete_insert_id in HU.
  2:{ apply eq_None_not_Some. intros [m Hm]. destruct (ui_alloc _ _ _ HI _ _ Hm) as (? & ? & ?). unfold HDRSZ in *. lia. }
  exists F', s'. split_and!; [|done| |apply (ti_length _ _ _ HT)|cbn in Hb; lia|rewrite (ti_units _ _ _ HT); cbn; lia].
  - unfold bind at 1, set_size, seth, modify, set_hdr. cbn [hdr freep brk]. unfold bind. fold x. by rewrite E.
  - destruct (ti_in _ _ _ HT) as (z & Hz & ? & ?). apply Exists_exists. exists z. split; [done|]. cbn in *. unfold HDRSZ in *. lia.
Qed.

(** *** [malloc] *)

(** [F'] is [F] with the block [x] cut out. *)
Record gives_out F (x : Z * Z) F' : Prop := {
  go_away y : 1 <= y.2 -> Forall (fun z => away z y) F -> Forall (fun z => away z y) F' /\ away x y;
  go_apart : Forall (fun z => away z x) F';
  go_in : exists z, z ∈ F /\ z.1 <= x.1 /\ x.1 + HDRSZ * x.2 <= z.1 + HDRSZ * z.2;
  go_units : units F' = units F - x.2
}.

Lemma away_sym x y : away x y -> away y x.
Proof. unfold away. tauto. Qed.

Lemma uinv_give F A s b n F' h' fp :
  uinv F A s -> gives_out F (b, n) F' -> 1 <= n ->
  chain h' ((base, 0) :: F') base -> ordered (base + HDRSZ) F' (brk s) -> fp ∈ base :: F'.*1 ->
  (forall c m, A !! c = Some m -> h' !! c = hdr s !! c) -> (exists ptr, h' !! b = Some (ptr, n)) ->
  uinv F' (<[b := n]> A) {| hdr := h'; freep := fp; brk := brk s |}.
Proof.
  intros HI HG Hn Hc Ho Hfp Hsame Hb. destruct (go_in _ _ _ HG) as (z & Hz & Hz1 & Hz2). cbn [fst snd] in *.
  destruct (ordered_in _ _ _ z (ui_order _ _ _ HI) Hz) as (? & ? & ?).
  assert (forall c m, A !! c = Some m -> Forall (fun z => away z (c, m)) F' /\ away (b, n) (c, m)) as Haw.
  { intros c m Hm. apply (go_away _ _ _ HG); [by destruct (ui_alloc _ _ _ HI _ _ Hm) as (_ & ? & _)|by apply (ui_free _ _ _ HI)]. }
  split; cbn [hdr freep brk]; [done|done|done|apply (ui_brk _ _ _ HI)| | | |].
  - intros c m [[<- <-]|[Hne Hm]]%lookup_insert_Some; [done|]. rewrite (Hsame _ _ Hm). by apply (ui_hdr _ _ _ HI).
  - intros c m [[<- <-]|[Hne Hm]]%lookup_insert_Some; [lia|]. by apply (ui_alloc _ _ _ HI).
  - intros c m [[<- <-]|[Hne Hm]]%lookup_insert_Some; [apply (go_apart _ _ _ HG)|]. by apply Haw.
  - intros c m c' m' [[<- <-]|[Hne Hm]]%lookup_insert_Some [[<- <-]|[Hne' Hm']]%lookup_insert_Some Hcc; [done| | |by apply (ui_disj _ _ _ HI)].
    + by apply Haw.
    + by apply away_sym, Haw.
Qed.

Section take.
Context F A s (x y : Z * Z) (pre post : list (Z * Z)) (nunits : Z) (HI : uinv F A s).
Context (HR : (base, 0) :: F = pre ++ x :: y :: post) (Hn : 1 <= nunits <= y.2).

Lemma take_split : exists Fa, (base, 0) :: Fa = pre ++ [x] /\ F = Fa ++ y :: post.
Proof.
  destruct pre as [|w pre']; cbn in HR; injection HR as Hw HF.
  - exists []. by rewrite Hw.
  - exists (pre' ++ [x]). rewrite Hw, <-app_assoc. done.
Qed.
Lemma take_nodup : x.1 ∉ pre.*1 /\ x.1 ∉ post.*1 /\ x.1 <> y.1 /\ y.1 ∉ pre.*1 /\ y.1 ∉ post.*1.
Proof.
  pose proof (ordered_base_nodup _ _ (ui_order _ _ _ HI)) as Hnd. change (base :: F.*1) with (((base, 0) :: F).*1) in Hnd.
  rewrite HR, fmap_app in Hnd. cbn in Hnd. apply NoDup_app in Hnd as (_ & Hd & [Hx [Hy _]%NoDup_cons]%NoDup_cons).
  apply not_elem_of_cons in Hx as [? ?].
  split_and!; [intros Hin; apply (Hd _ Hin); set_solver|done|done|intros Hin; apply (Hd _ Hin); set_solver|done].
Qed.

Lemma take_exact : y.2 = nunits ->
  exists F' s', take_block nunits x.1 y.1 (hd_addr post base) y.2 s = Done (y.1 + HDRSZ, s') /\
    uinv F' (<[y.1 := nunits]> A) s' /\ gives_out F (y.1, nunits) F' /\ brk s' = brk s.
Proof.
  intros E. destruct take_split as (Fa & Ha & HF). destruct take_nodup as (N1 & N2 & N3 & _).
  pose proof (ui_ring _ _ _ HI) as Hc. rewrite HR in Hc. pose proof (chain_at _ _ _ _ _ Hc) as Hx.
  rewrite chain_app in Hc. destruct Hc as [Hc1 (_ & Hy & Hc2)].
  pose proof (ui_order _ _ _ HI) as Ho. pose proof Ho as Ho'. rewrite HF in Ho. apply ordered_app in Ho as (mid & Ho1 & (H1 & H2 & H3)).
  exists (Fa ++ post), {| hdr := <[x.1 := (hd_addr post base, x.2)]> (hdr s); freep := x.1; brk := brk s |}.
  assert (gives_out F (y.1, nunits) (Fa ++ post)) as HG.
  { subst nunits. rewrite HF. split.
    - intros w Hw [HFa [Hyw HFp]%Forall_cons]%Forall_app. split; [by apply Forall_app|done].
    - apply Forall_app. split; apply Forall_forall; intros w Hw; unfold away; cbn.
      + destruct (ordered_in _ _ _ w Ho1 Hw) as (? & ? & ?). left. lia.
      + destruct (ordered_in _ _ _ w H3 Hw) as (? & ? & ?). right. lia.
    - exists y. cbn. split_and!; [set_solver|lia|lia].
    - rewrite !units_app. cbn. unfold units. lia. }
  split_and!; [|apply (uinv_give F); [done|done|lia| | | | |]|done|done].
  - unfold take_block. rewrite (proj2 (Z.eqb_eq _ _) E). unfold bind at 1, geth. by rewrite Hx.
  - rewrite app_comm_cons, Ha, <-app_assoc, chain_app, !chain_insert by done. split; [done|]. cbn.
    rewrite lookup_insert_eq. split; [done|]. by apply chain_insert.
  - apply ordered_app. exists mid. split; [done|]. eapply ordered_lo; [done|]. unfold HDRSZ. lia.
  - change (base :: (Fa ++ post).*1) with (((base, 0) :: Fa ++ post).*1). rewrite app_comm_cons, Ha, !fmap_app. set_solver.
  - intros c m Hm. apply lookup_insert_ne. eapply ring_not_alloc; [done| |done].
    change (base :: F.*1) with (((base, 0) :: F).*1). rewrite HR, fmap_app. set_solver.
  - rewrite lookup_insert_ne by done. rewrite <-E. eauto.
Qed.

(** The tail of a larger block. *)
Lemma take_tail : nunits < y.2 -> let r := y.1 + HDRSZ * (y.2 - nunits) in
  exists F' s', take_block nunits x.1 y.1 (hd_addr post base) y.2 s = Done (r + HDRSZ, s') /\
    uinv F' (<[r := nunits]> A) s' /\ gives_out F (r, nunits) F' /\ brk s' = brk s.
Proof.
  intros Hlt r. destruct take_split as (Fa & Ha & HF). destruct take_nodup as (_ & _ & _ & N4 & N5).
  pose proof (ui_ring _ _ _ HI) as Hc. rewrite HF, app_comm_cons, chain_app in Hc. destruct Hc as [Hc1 [Hy Hc2]].
  pose proof (ui_order _ _ _ HI) as Ho. pose proof (ui_brk _ _ _ HI) as Hbrk.
  rewrite HF in Ho. apply ordered_app in Ho as (mid & Ho1 & (H1 & H2 & H3)).
  pose proof (ordered_le _ _ _ Ho1). pose proof (ordered_le _ _ _ H3).
  assert (y.1 < r < y.1 + HDRSZ * y.2) as Hr by (unfold r, HDRSZ in *; lia).
  assert (forall a, y.1 <= a -> a ∉ ((base, 0) :: Fa).*1) as Na.
  { intros a Hya [E|(w & E & Hw)%list_elem_of_fmap]%elem_of_cons; [cbn in E; unfold HDRSZ in *; lia|].
    destruct (ordered_in _ _ _ w Ho1 Hw) as (? & ? & ?). unfold HDRSZ in *. lia. }
  assert (y.1 ∉ ((base, 0) :: Fa).*1 /\ r ∉ ((base, 0) :: Fa).*1) as [Nya Nra] by (split; apply Na; lia).
  assert (r ∉ post.*1) as Nrp.
  { intros (w & E & Hw)%list_elem_of_fmap. destruct (ordered_in _ _ _ w H3 Hw) as (? & ? & ?). lia. }
  set (v := match <[y.1 := (hd_addr post base, y.2 - nunits)]> (hdr s) !! r with Some (ptr, _) => ptr | None => 0 end).
  exists (Fa ++ (y.1, y.2 - nunits) :: post).
  exists {| hdr := <[r := (v, nunits)]> (<[y.1 := (hd_addr post base, y.2 - nunits)]> (hdr s)); freep := x.1; brk := brk s |}.
  assert (gives_out F (r, nunits) (Fa ++ (y.1, y.2 - nunits) :: post)) as HG.
  { rewrite HF. split.
    - intros w Hw [HFa [Hyw HFp]%Forall_cons]%Forall_app. rewrite Forall_app, Forall_cons.
      unfold away, r, HDRSZ in *. cbn in *. split_and!; [done|lia|done|lia].
    - rewrite Forall_app, Forall_cons. split_and!; [|left; cbn; unfold r; lia|]; apply Forall_forall; intros w Hw; unfold away; cbn.
      + destruct (ordered_in _ _ _ w Ho1 Hw) as (? & ? & ?). left. lia.
      + destruct (ordered_in _ _ _ w H3 Hw) as (? & ? & ?). right. unfold r, HDRSZ in *. lia.
    - exists y. cbn. unfold r. split_and!; [set_solver|unfold HDRSZ in *; lia|lia].
    - rewrite !units_app. cbn. unfold units. lia. }
  split_and!; [|apply (uinv_give F); [done|done|lia| | | | |]|done|done].
  - unfold take_block. rewrite (proj2 (Z.eqb_neq _ _)) by lia. rewrite u32_small by (unfold is_u32, HDRSZ in *; lia). done.
  - rewrite app_comm_cons, chain_app, !chain_insert by done. split; [done|]. cbn.
    rewrite lookup_insert_ne, lookup_insert_eq by lia. split; [done|]. by rewrite !chain_insert.
  - apply ordered_app. exists mid. split; [done|]. split_and!; [done|cbn; lia|]. eapply ordered_lo; [done|]. cbn. unfold HDRSZ. lia.
  - rewrite fmap_app, app_comm_cons. change (base :: Fa.*1) with (((base, 0) :: Fa).*1). rewrite Ha, fmap_app. set_solver.
  - intros c m Hm. rewrite !lookup_insert_ne; [done| |].
    + eapply ring_not_alloc; [done| |done]. rewrite HF, fmap_app. set_solver.
    + intros ->. pose proof (ui_free _ _ _ HI _ _ Hm) as Haw. rewrite HF, Forall_app, Forall_cons in Haw.
      destruct Haw as (_ & Haw & _), (ui_alloc _ _ _ HI _ _ Hm) as (_ & ? & _). unfold away, HDRSZ in *. cbn in *. lia.
  - rewrite lookup_insert_eq. eauto.
Qed.
End take.

(** [b] was free space of [F] and is handed out. *)
Definition handed F A s (nunits b : Z) s' : Prop :=
  exists F', uinv F' (<[b := nunits]> A) s' /\ gives_out F (b, nunits) F' /\ brk s' = brk s.

Lemma take_run F A s x y q nunits :
  uinv F A s -> x ∈ (base, 0) :: F -> y ∈ (base, 0) :: F -> hdr s !! x.1 = Some (y.1, x.2) ->
  hdr s !! y.1 = Some (q, y.2) -> 1 <= nunits <= y.2 ->
  exists b s', take_block nunits x.1 y.1 q y.2 s = Done (b + HDRSZ, s') /\ handed F A s nunits b s'.
Proof.
  intros HI Hx Hy Ex Ey Hn. pose proof (ui_ring _ _ _ HI) as Hc.
  apply list_elem_of_split in Hx as (pre & post' & HR). pose proof Hc as Hc'. rewrite HR in Hc'.
  pose proof (chain_at _ _ _ _ _ Hc') as Ex'. rewrite Ex in Ex'. injection Ex' as Enext.
  assert (y.1 <> base) as Hyb.
  { intros Hyb. cbn [chain fst] in Hc. destruct Hc as [Hb _]. rewrite <-Hyb, Ey in Hb. injection Hb as _ ?. cbn in *. lia. }
  destruct post' as [|y' post]; [cbn in Enext; done|]. cbn in Enext.
  rewrite (cons_middle x pre), app_assoc in Hc'. apply chain_at in Hc'. rewrite <-Enext, Ey in Hc'. injection Hc' as -> E2.
  destruct y as [ya yn], y' as [ya' yn']. cbn in *. subst ya' yn'.
  destruct (decide (yn = nunits)) as [E|E].
  - destruct (take_exact F A s x (ya, yn) pre post nunits HI HR Hn E) as (F' & s' & ? & ? & ? & ?).
    exists ya, s'. split; [done|]. by exists F'.
  - destruct (take_tail F A s x (ya, yn) pre post nunits HI HR Hn) as (F' & s' & ? & ? & ? & ?); [cbn; lia|].
    eexists _, s'. split; [done|]. by exists F'.
Qed.

(** One turn of the loop, from [x] round to the block [freep] points to. *)
Lemma scan_run F A s nunits G f x fuel e :
  uinv F A s -> 1 <= nunits -> chain (hdr s) (x :: G ++ [f]) e -> Forall (fun y => y ∈ (base, 0) :: F) (x :: G ++ [f]) ->
  f.1 = freep s -> freep s ∉ G.*1 ->
  let run := malloc_loop (S (length G) + fuel) nunits x.1 (hd_addr (G ++ [f]) e) s in
  (exists b s', run = Done (b + HDRSZ, s') /\ handed F A s nunits b s') \/
  Forall (fun y => y.2 < nunits) (G ++ [f]) /\
  run = (let! p := morecore nunits in
         if p =? 0 then ret 0 else let! ' (q, _) := geth p in malloc_loop fuel nunits p q) s.
Proof.
  intros HI Hn. revert x. induction G as [|y G IH]; intros x Hc Hin Hf Hnd run; cbn [app length hd_addr] in *.
  - destruct Hc as (Ex & Ef & _). apply Forall_cons in Hin as [Hx [Hf' _]%Forall_cons].
    destruct (Z.leb_spec nunits f.2).
    + left. unfold run. cbn [malloc_loop Nat.add]. unfold bind at 1, geth at 1. rewrite Ef, (proj2 (Z.leb_le _ _)) by done.
      by apply (take_run F).
    + right. split; [by repeat constructor|]. unfold run. cbn [malloc_loop Nat.add].
      unfold bind at 1, geth at 1. rewrite Ef, (proj2 (Z.leb_gt _ _)) by done. unfold bind at 1, gets. by rewrite Hf, Z.eqb_refl.
  - destruct Hc as (Ex & Hc'). pose proof Hc' as (Ey & _). apply Forall_cons in Hin as [Hx Hin]. pose proof (Forall_inv Hin) as Hy. cbn in Hy.
    apply not_elem_of_cons in Hnd as [Hyf Hnd].
    assert (nunits <= y.2 \/ y.2 < nunits /\ run = malloc_loop (S (length G) + fuel) nunits y.1 (hd_addr (G ++ [f]) e) s) as [Hle|[Hlt Erun]].
    { destruct (Z.leb_spec nunits y.2); [by left|]. right. split; [done|]. unfold run. cbn [malloc_loop Nat.add].
      unfold bind at 1, geth at 1. rewrite Ey. rewrite (proj2 (Z.leb_gt _ _)) by done. unfold bind at 1, gets.
      rewrite (proj2 (Z.eqb_neq _ _)) by congruence. unfold bind, geth. by rewrite Ey. }
    + left. unfold run. cbn [malloc_loop Nat.add]. unfold bind at 1, geth at 1. rewrite Ey. rewrite (proj2 (Z.leb_le _ _)) by done.
      by apply (take_run F).
    + destruct (IH y Hc' Hin Hf Hnd) as [HL|[HF HE]]; rewrite Erun; [by left|right]. split; [|done]. by constructor.
Qed.

(** The ring, entered behind the block [freep] points to. *)
Lemma ring_turn F A s :
  uinv F A s -> exists f G e, f.1 = freep s /\ chain (hdr s) (f :: G ++ [f]) e /\
    Forall (fun y => y ∈ (base, 0) :: F) (f :: G ++ [f]) /\ freep s ∉ G.*1 /\ length G = length F /\
    (forall y, y ∈ F -> y ∈ G ++ [f]).
Proof.
  intros HI. pose proof (ui_freep _ _ _ HI) as Hf. change (base :: F.*1) with (((base, 0) :: F).*1) in Hf.
  apply list_elem_of_fmap in Hf as (f & Ef & Hf). apply list_elem_of_split in Hf as (R1 & R2 & HR).
  pose proof (ui_ring _ _ _ HI) as Hc. replace base with (hd_addr ((base, 0) :: F) base) in Hc at 2 by done.
  rewrite HR in Hc. apply chain_rotate in Hc. cbn [app hd_addr] in Hc.
  exists f, (R2 ++ R1), (hd_addr (R2 ++ R1) f.1). split_and!; [done| | | | |].
  - rewrite app_comm_cons, chain_app. split; [done|]. by destruct Hc as [? _].
  - apply Forall_forall. intros y Hy. rewrite HR. set_solver.
  - pose proof (ordered_base_nodup _ _ (ui_order _ _ _ HI)) as Hnd. change (base :: F.*1) with (((base, 0) :: F).*1) in Hnd.
    rewrite HR, fmap_app in Hnd. cbn in Hnd. apply NoDup_app in Hnd as (_ & Hd & [Hx _]%NoDup_cons).
    rewrite Ef, fmap_app, elem_of_app. intros [?|Hin]; [done|]. apply (Hd _ Hin). set_solver.
  - apply (f_equal length) in HR. rewrite length_app in *. cbn in HR. lia.
  - intros y Hy. assert (y ∈ (base, 0) :: F) as Hy' by set_solver. rewrite HR in Hy'. set_solver.
Qed.

Lemma loop_turn F A s nunits fuel p sz :
  uinv F A s -> 1 <= nunits -> hdr s !! freep s = Some (p, sz) -> (length F < fuel)%nat ->
  let run := malloc_loop fuel nunits (freep s) p s in
  (exists b s', run = Done (b + HDRSZ, s') /\ handed F A s nunits b s') \/
  Forall (fun y => y.2 < nunits) F /\
  run = (let! p := morecore nunits in
         if p =? 0 then ret 0 else let! ' (q, _) := geth p in malloc_loop (fuel - S (length F)) nunits p q) s.
Proof.
  intros HI Hn Hp Hfuel. destruct (ring_turn _ _ _ HI) as (f & G & e & Ef & Hc & Hin & Hnd & Hlen & HFG).
  assert (exists k, fuel = S (length G) + k)%nat as [k ->] by (exists (fuel - S (length F))%nat; lia).
  replace (S (length G) + k - S (length F))%nat with k by lia.
  assert (p = hd_addr (G ++ [f]) e) as ->. { destruct Hc as [E _]. rewrite <-Ef, E in Hp. congruence. }
  rewrite <-Ef. destruct (scan_run F A s nunits G f f k e HI Hn Hc Hin Ef Hnd) as [HL|[HF HE]]; [by left|right].
  split; [|by rewrite HE]. rewrite Forall_forall in *. intros y Hy. by apply HF, HFG.
Qed.

(** What a call that succeeds gives: a block that was not handed out, taken
    from the free space or from new memory. *)
Definition allocates F A s (nunits r : Z) s' : Prop :=
  exists b F', r = b + HDRSZ /\ uinv F' (<[b := nunits]> A) s' /\ A !! b = None /\
    HDRSZ * (units F' + nunits - units F) = brk s' - brk s.

Lemma handed_new F A s nunits b s' : uinv F A s -> 1 <= nunits -> handed F A s nunits b s' -> A !! b = None.
Proof.
  intros HI Hn (F' & _ & HG & _). apply eq_None_not_Some. intros [m Hm].
  destruct (ui_alloc _ _ _ HI _ _ Hm) as (_ & ? & _).
  destruct (go_away _ _ _ HG (b, m)) as [_ Haw]; [done|by apply (ui_free _ _ _ HI)|]. unfold away, HDRSZ in *. cbn in *. lia.
Qed.

Lemma freep_next F A s : uinv F A s -> 0 < freep s /\ exists q sz, hdr s !! freep s = Some (q, sz).
Proof.
  intros HI. pose proof (ui_freep _ _ _ HI) as Hf. change (base :: F.*1) with (((base, 0) :: F).*1) in Hf.
  pose proof (chain_dom _ _ _ (ui_ring _ _ _ HI)) as Hd. split.
  - apply elem_of_cons in Hf as [->|(x & -> & Hx)%list_elem_of_fmap]; [done|].
    destruct (ordered_in _ _ _ x (ui_order _ _ _ HI) Hx) as (? & _). unfold HDRSZ in *. lia.
  - assert (freep s ∈ dom (hdr s)) as [[q sz] E]%elem_of_dom by set_solver. eauto.
Qed.

(** The search, with fuel for two turns: the second one finds what [morecore]
    has added. *)
Lemma search_run F A s nunits q sz fuel :
  uinv F A s -> 1 <= nunits -> HDRSZ * nunits < 2 ^ 31 -> hdr s !! freep s = Some (q, sz) -> (2 * length F + 3 <= fuel)%nat ->
  exists r s', malloc_loop fuel nunits (freep s) q s = Done (r, s') /\ (r = 0 /\ s' = s \/ allocates F A s nunits r s').
Proof.
  intros HI Hn Hlt Hp Hfuel. destruct (loop_turn F A s nunits fuel q sz HI Hn Hp ltac:(lia)) as [(b & s' & E & Hh)|[Hsm E]].
  { exists (b + HDRSZ), s'. split; [done|]. right. pose proof (handed_new _ _ _ _ _ _ HI Hn Hh) as HN.
    destruct Hh as (F' & HU & HG & Hb). exists b, F'. split_and!; [done|done|done|]. rewrite (go_units _ _ _ HG), Hb. cbn. lia. }
  rewrite E. unfold bind at 1. destruct (morecore_run F A s nunits HI Hn Hlt) as [Em|(F1 & s1 & Em & HI1 & Hex & Hl & Hbrk & Hun)].
  { rewrite Em. exists 0, s. split; [done|by left]. }
  rewrite Em. destruct (freep_next _ _ _ HI1) as (Hpos & q1 & sz1 & Hq1).
  rewrite (proj2 (Z.eqb_neq _ _)) by lia. unfold bind, geth. rewrite Hq1.
  destruct (loop_turn F1 A s1 nunits (fuel - S (length F)) q1 sz1 HI1 Hn Hq1 ltac:(lia)) as [(b & s' & E' & Hh)|[Hsm' _]].
  - rewrite E'. exists (b + HDRSZ), s'. split; [done|]. right. pose proof (handed_new _ _ _ _ _ _ HI1 Hn Hh) as HN.
    destruct Hh as (F' & HU & HG & Hb). exists b, F'. split_and!; [done|done|done|]. rewrite (go_units _ _ _ HG), Hb, Hbrk, Hun. cbn. unfold HDRSZ. lia.
  - exfalso. apply Exists_exists in Hex as (y & Hy & ?). rewrite Forall_forall in Hsm'. specialize (Hsm' y Hy). cbn in *. lia.
Qed.

(** Before the first call there is no ring, and no memory. *)
Definition fresh s : Prop := freep s = 0 /\ base + HDRSZ <= brk s <= 2 ^ 31.
Definition heap_ok F A s : Prop := uinv F A s \/ fresh s /\ F = [] /\ A = ∅.
Definition nunits_of (nbytes : Z) : Z := (nbytes + HDRSZ - 1) / HDRSZ + 1.

Lemma fresh_uinv s : fresh s -> uinv [] ∅ (set_freep base (set_hdr (<[base := (base, 0)]> (hdr s)) s)).
Proof.
  intros [_ Hb]. split; cbn.
  - by rewrite lookup_insert_eq.
  - lia.
  - set_solver.
  - lia.
  - intros b m H. by rewrite lookup_empty in H.
  - intros b m H. by rewrite lookup_empty in H.
  - intros b m H. by rewrite lookup_empty in H.
  - intros b m b' m' H. by rewrite lookup_empty in H.
Qed.

Lemma malloc_run F A s nbytes :
  heap_ok F A s -> 0 <= nbytes <= 2 ^ 31 - 32 ->
  exists r s', malloc nbytes s = Done (r, s') /\
    (r = 0 /\ uinv F A s' /\ brk s' = brk s \/ allocates F A s (nunits_of nbytes) r s').
Proof.
  intros HI Hnb. unfold malloc. assert (1 <= nunits_of nbytes < 2 ^ 28) as Hn.
  { unfold nunits_of, HDRSZ. Z.to_euclidean_division_equations. lia. }
  rewrite (u32_small (nbytes + HDRSZ - 1)) by (unfold is_u32, HDRSZ; lia). fold (nunits_of nbytes).
  rewrite (u32_small (nunits_of nbytes)) by (unfold is_u32; lia).
  assert (exists s1, uinv F A s1 /\ brk s1 = brk s /\
    (if freep s =? 0 then seth base (base, 0);;; modify (set_freep base) else ret tt) s = Done (tt, s1)) as (s1 & HI1 & Hb1 & E1).
  { destruct HI as [HI|(Hfr & -> & ->)].
    - destruct (freep_next _ _ _ HI) as [? _]. rewrite (proj2 (Z.eqb_neq _ _)) by lia. by exists s.
    - pose proof Hfr as [-> _]. eexists. split_and!; [by apply fresh_uinv|done|done]. }
  unfold bind at 1, gets at 1. unfold bind at 1. rewrite E1. unfold bind at 1, gets at 1.
  destruct (freep_next _ _ _ HI1) as (_ & q & sz & Hq). unfold bind at 1, geth at 1. rewrite Hq. unfold bind, gets.
  pose proof (uinv_size _ _ _ HI1) as Hsz.
  destruct (search_run F A s1 (nunits_of nbytes) q sz (2 * (size (hdr s1) + 3)) HI1) as (r & s' & E & HR); [lia|unfold HDRSZ; lia|done|lia|].
  exists r, s'. split; [done|]. destruct HR as [[-> ->]|(b & F' & -> & HU & HN & Hun)]; [by left|right].
  exists b, F'. split_and!; [done|done|done|lia].
Qed.

(** ** A program that allocates and frees *)
Inductive uop := Malloc (nbytes : Z) | Free (k : nat).
(** [live]: the pointers the program holds, with the sizes it asked for. [Free
    k] frees the [k]th of them. *)
Fixpoint client (ops : list uop) (live : list (Z * Z)) : M uheap (list (Z * Z)) :=
  match ops with
  | [] => ret live
  | Malloc n :: ops =>
      let! p := malloc n in
      client ops (if p =? 0 then live else (p, n) :: live)
  | Free k :: ops =>
      match live !! k with
      | Some (p, _) => free p;;; client ops (delete k live)
      | None => client ops live
      end
  end.

Definition total (ms : list Z) : Z := foldr Z.add 0 ms.
Lemma sum_delete ms k m : ms !! k = Some m -> total (delete k ms) = total ms - m.
Proof.
  revert k. induction ms as [|x ms IH]; intros [|k] E; [done|done| |].
  - injection E as ->. cbn. fold (total ms). lia.
  - change (x + total (delete k ms) = x + total ms - m). rewrite (IH k E). lia.
Qed.

(** What is live is handed out, block by block, and all the memory obtained
    is free or handed out. *)
Definition holds A (x : Z * Z) (m : Z) : Prop := A !! (x.1 - HDRSZ) = Some m /\ x.2 + HDRSZ <= HDRSZ * m.
Definition client_ok (brk0 : Z) (live : list (Z * Z)) s : Prop :=
  exists F A ms, heap_ok F A s /\ Forall2 (holds A) live ms /\ NoDup live.*1 /\
    HDRSZ * (units F + total ms) = brk s - brk0.

Lemma client_ok_malloc b0 live s n :
  client_ok b0 live s -> 0 <= n <= 2 ^ 31 - 32 ->
  exists p s', malloc n s = Done (p, s') /\ client_ok b0 (if p =? 0 then live else (p, n) :: live) s'.
Proof.
  intros (F & A & ms & HI & HL & Hnd & Hsum) Hn.
  destruct (malloc_run F A s n HI Hn) as (p & s' & E & [(-> & HU & Hb)|(b & F' & -> & HU & HN & Hun)]); eexists _, s'; (split; [exact E|]).
  - exists F, A, ms. split_and!; [by left|done|done|lia].
  - destruct (ui_alloc _ _ _ HU b (nunits_of n)) as (Hb1 & _); [apply lookup_insert_eq|].
    rewrite (proj2 (Z.eqb_neq _ _)) by (unfold HDRSZ in *; lia).
    exists F', (<[b := nunits_of n]> A), (nunits_of n :: ms). split_and!; [by left| | |cbn; fold (total ms); lia].
    + constructor.
      * split; cbn; [replace (b + HDRSZ - HDRSZ) with b by lia; apply lookup_insert_eq|].
        unfold nunits_of, HDRSZ. Z.to_euclidean_division_equations. lia.
      * eapply Forall2_impl; [exact HL|]. intros x m [Hx ?]. split; [|done]. rewrite lookup_insert_ne; [done|congruence].
    + cbn. constructor; [|done]. intros (x & Ex & Hx)%list_elem_of_fmap.
      apply list_elem_of_lookup in Hx as [i Hi]. destruct (Forall2_lookup_l _ _ _ _ _ HL Hi) as (m & _ & Hm & _).
      rewrite <-Ex in Hm. replace (b + HDRSZ - HDRSZ) with b in Hm by lia. congruence.
Qed.

Lemma nodup_delete {X} (l : list X) k : NoDup l -> NoDup (delete k l).
Proof. intros H. eapply sublist_NoDup; [exact H|]. apply sublist_delete. Qed.

Lemma deleted_ne (l : list (Z * Z)) k i p n x :
  NoDup l.*1 -> l !! k = Some (p, n) -> delete k l !! i = Some x -> x.1 <> p.
Proof.
  intros Hnd Hk Hi E. assert (l.*1 !! k = Some p) as Hk' by (by rewrite list_lookup_fmap, Hk).
  rewrite (delete_Permutation _ _ _ Hk') in Hnd. apply NoDup_cons in Hnd as [Hnin _]. apply Hnin.
  rewrite <-list_fmap_delete, <-E. apply list_elem_of_fmap_2. by eapply list_elem_of_lookup_2.
Qed.

Lemma client_ok_free b0 live s k p n :
  client_ok b0 live s -> live !! k = Some (p, n) ->
  exists s', free p s = Done (tt, s') /\ client_ok b0 (delete k live) s'.
Proof.
  intros (F & A & ms & HI & HL & Hnd & Hsum) Hk. destruct (Forall2_lookup_l _ _ _ _ _ HL Hk) as (m & Hm & HA & Hsz). cbn in *.
  destruct HI as [HI|(_ & _ & ->)]; [|by rewrite lookup_empty in HA].
  destruct (free_run F A s (p - HDRSZ) m HI HA) as (F' & s' & E & HU & HT & Hb).
  replace (p - HDRSZ + HDRSZ) with p in E by lia. exists s'. split; [done|].
  exists F', (delete (p - HDRSZ) A), (delete k ms). split_and!; [by left| | |].
  - pose proof (Forall2_delete _ _ _ k HL) as HD. apply Forall2_same_length_lookup in HD as [Hlen HD].
    apply Forall2_same_length_lookup. split; [done|]. intros i x m' Hx Hm'. destruct (HD i x m' Hx Hm') as [? ?].
    split; [|done]. rewrite lookup_delete_ne; [done|]. pose proof (deleted_ne _ _ _ _ _ _ Hnd Hk Hx). lia.
  - rewrite list_fmap_delete. by apply nodup_delete.
  - rewrite (sum_delete _ _ _ Hm), (ti_units _ _ _ HT), Hb. cbn. lia.
Qed.

Lemma client_run b0 ops live s :
  client_ok b0 live s -> Forall (fun o => match o with Malloc n => 0 <= n <= 2 ^ 31 - 32 | Free _ => True end) ops ->
  exists live' s', client ops live s = Done (live', s') /\ client_ok b0 live' s'.
Proof.
  revert live s. induction ops as [|[n|k] ops IH]; intros live s HC Hops; [by exists live, s|..]; apply Forall_cons in Hops as [Hn Hops]; cbn.
  - destruct (client_ok_malloc _ _ _ _ HC Hn) as (p & s1 & E & HC1). unfold bind. rewrite E. by apply IH.
  - destruct (live !! k) as [[p n]|] eqn:Hk; [|by apply IH].
    destruct (client_ok_free _ _ _ _ _ _ HC Hk) as (s1 & E & HC1). unfold bind. rewrite E. by apply IH.
Qed.

(** What the program can rely on: the regions it holds lie in the heap and do
    not overlap. *)
Lemma client_ok_disjoint b0 live s :
  client_ok b0 live s ->
  (forall p n, (p, n) ∈ live -> base + 2 * HDRSZ <= p /\ p + n <= brk s) /\
  (forall i j p n p' n', i <> j -> live !! i = Some (p, n) -> live !! j = Some (p', n') -> p + n <= p' - HDRSZ \/ p' + n' <= p - HDRSZ) /\
  (live = [] -> exists F A, heap_ok F A s /\ HDRSZ * units F = brk s - b0).
Proof.
  intros (F & A & ms & HI & HL & Hnd & Hsum).
  assert (live = [] -> exists F A, heap_ok F A s /\ HDRSZ * units F = brk s - b0) as Hnil.
  { intros ->. inversion HL; subst. exists F, A. split; [done|]. cbn in Hsum. lia. }
  destruct HI as [HI|(_ & -> & ->)].
  2:{ destruct HL as [|x ? ? ? [Hx _]]; [|by rewrite lookup_empty in Hx]. split_and!; [set_solver|done|done]. }
  assert (forall i p n, live !! i = Some (p, n) -> exists m, A !! (p - HDRSZ) = Some m /\ n + HDRSZ <= HDRSZ * m) as HLk.
  { intros i p n Hi. destruct (Forall2_lookup_l _ _ _ _ _ HL Hi) as (m & _ & ? & ?). by exists m. }
  split_and!; [| |done].
  - intros p n [i Hi]%list_elem_of_lookup. destruct (HLk _ _ _ Hi) as (m & Hm & ?).
    destruct (ui_alloc _ _ _ HI _ _ Hm) as (? & ? & ?). lia.
  - intros i j p n p' n' Hij Hi Hj. destruct (HLk _ _ _ Hi) as (m & Hm & ?), (HLk _ _ _ Hj) as (m' & Hm' & ?).
    assert (p <> p') as Hpp.
    { intros ->. apply Hij. eapply NoDup_lookup; [exact Hnd| |]; rewrite list_lookup_fmap; [rewrite Hi|rewrite Hj]; done. }
    destruct (ui_disj _ _ _ HI _ _ _ _ Hm Hm') as [?|?]; [lia|cbn in *; lia|cbn in *; lia].
Qed.

(** Property C20: for every sequence of calls of [malloc] and [free] in which
    every request is of 0 to 2^31 - 32 bytes and only live pointers are freed, neither of them faults or runs forever, the
    regions the program holds lie within the heap, and no two of them overlap,
    nor do they reach into each other's headers. When everything has been
    freed, all the memory obtained with [sbrk] is back in the ring. *)
Theorem allocator_safe ops s :
  fresh s -> Forall (fun o => match o with Malloc n => 0 <= n <= 2 ^ 31 - 32 | Free _ => True end) ops ->
  exists live s', client ops [] s = Done (live, s') /\
    (forall p n, (p, n) ∈ live -> base + 2 * HDRSZ <= p /\ p + n <= brk s') /\
    (forall i j p n p' n', i <> j -> live !! i = Some (p, n) -> live !! j = Some (p', n') ->
       p + n <= p' - HDRSZ \/ p' + n' <= p - HDRSZ) /\
    (live = [] -> exists F A, heap_ok F A s' /\ HDRSZ * units F = brk s' - brk s).
Proof.
  intros Hf Hops. destruct (client_run (brk s) ops [] s) as (live & s' & E & HC); [|done|].
  - exists [], ∅, []. split_and!; [by right|constructor|constructor|cbn; lia].
  - exists live, s'. split; [done|]. by apply client_ok_disjoint.
Qed.
End umalloc.

(** A heap of 64 pages above a [base] at 0x1000. *)
Definition demo_grow (top n : Z) : bool := (0 <=? n) && (top + n <=? 0x42000).
Definition demo_heap : uheap := {| hdr := ∅; freep := 0; brk := 0x2000 |}.
Definition demo_ops : list uop := [Malloc 10; Malloc 100; Free 1; Malloc 40000; Malloc 300000; Free 0].

Lemma demo_grow_fits top n : demo_grow top n = true -> 0 <= n -> top + n <= 2 ^ 31.
Proof. unfold demo_grow. lia. Qed.

Lemma allocator_safe_witness :
  exists live s', client 0x1000 demo_grow demo_ops [] demo_heap = Done (live, s') /\ live = [(0x9f80, 100)] /\
    forall p n, (p, n) ∈ live -> 0x1000 + 2 * HDRSZ <= p /\ p + n <= brk s'.
Proof.
  destruct (allocator_safe 0x1000 demo_grow ltac:(lia) demo_grow_fits demo_ops demo_heap) as (live & s' & E & H & _).
  - unfold fresh, demo_heap, HDRSZ. cbn. lia.
  - repeat constructor; lia.
  - exists live, s'. split; [exact E|]. split; [|exact H]. vm_compute in E. by inversion E.
Defined.

(** The number of units wraps: a request of 2^32 - 6 bytes gets a block of one
    unit, its header. *)
Lemma malloc_wraps :
  exists s', malloc 0x1000 demo_grow 0xfffffffa demo_heap = Done (0x9ff8 + HDRSZ, s') /\ snd <$> hdr s' !! 0x9ff8 = Some 1.
Proof. eexists. split; [vm_compute; reflexivity|]. by vm_compute. Qed.
