(* ===== verification/Console.v ===== *)
(** * Console: the console driver of console.c and the serial port of uart.c

    Input is a ring of 128 characters with three free-running 32-bit
    indices: [r] for reading, [w] for the end of what may be read, [e] for the
    line that is being edited. Output goes to the serial port and to the
    character cells of the CGA screen, whose cursor is held by the controller.
    The lock of the console makes each operation below atomic; a read that goes
    to sleep ends one stretch of [consoleread], and the next one starts where
    it stopped. *)

From stdpp Require Import base list numbers strings.
From S2P Require Import Prelude Bytes Ulib.

Local Open Scope Z_scope.
Local Open Scope os_scope.

(** [struct input]. *)
Record input := { ibuf : list Z; ir : Z; iw : Z; ie : Z }.
(** The CRT controller, its index register and the two bytes of the cursor
    position, and the cells of the screen. *)
Record cga := { crtc_index : Z; crtc_hi : Z; crtc_lo : Z; crt : list Z }.
(** [uart] tells whether there is a serial port; [ser] is what was sent. *)
Record cons := {
  inp : input; scr : cga; uart : bool; ser : list Z; locking : bool; panicked : bool; woken : bool
}.

Definition INPUT_BUF : Z := 128.
Definition BACKSPACE : Z := 0x100.
Definition CRTPORT : Z := 0x3d4.
(** Control-x. *)
Definition Ctl (x : Z) : Z := x - 64.
Definition NEWLINE : Z := 10.

Definition set_inp (i : input) (s : cons) : cons :=
  {| inp := i; scr := scr s; uart := uart s; ser := ser s; locking := locking s; panicked := panicked s; woken := woken s |}.
Definition set_scr (g : cga) (s : cons) : cons :=
  {| inp := inp s; scr := g; uart := uart s; ser := ser s; locking := locking s; panicked := panicked s; woken := woken s |}.
Definition send (b : Z) (s : cons) : cons :=
  {| inp := inp s; scr := scr s; uart := uart s; ser := ser s ++ [b]; locking := locking s; panicked := panicked s; woken := woken s |}.
Definition set_locking (b : bool) (s : cons) : cons :=
  {| inp := inp s; scr := scr s; uart := uart s; ser := ser s; locking := b; panicked := panicked s; woken := woken s |}.
Definition set_panicked (s : cons) : cons :=
  {| inp := inp s; scr := scr s; uart := uart s; ser := ser s; locking := locking s; panicked := true; woken := woken s |}.
Definition wake_readers (s : cons) : cons :=
  {| inp := inp s; scr := scr s; uart := uart s; ser := ser s; locking := locking s; panicked := panicked s; woken := true |}.

(** ** The serial port *)

(** [uartputc]: it waits for the port to be ready, for a while. *)
Definition uartputc (c : Z) : M cons unit := fun s =>
  if uart s then Done (tt, send (u8 c) s) else Done (tt, s).

(** [uartgetc], with the bytes the port has received. *)
Definition uartgetc (has_uart : bool) (rx : list Z) : Z * list Z :=
  if negb has_uart then (-1, rx)
  else match rx with [] => (-1, rx) | b :: rx => (b, rx) end.

(** ** The screen *)

(** The ports of the controller: 14 and 15 are the bytes of the position. *)
Definition outb_crt (port v : Z) : M cons unit := modify (fun s =>
  let g := scr s in
  set_scr (if port =? CRTPORT then {| crtc_index := u8 v; crtc_hi := crtc_hi g; crtc_lo := crtc_lo g; crt := crt g |}
           else if crtc_index g =? 14 then {| crtc_index := crtc_index g; crtc_hi := u8 v; crtc_lo := crtc_lo g; crt := crt g |}
           else if crtc_index g =? 15 then {| crtc_index := crtc_index g; crtc_hi := crtc_hi g; crtc_lo := u8 v; crt := crt g |}
           else g) s).
Definition inb_crt (port : Z) : M cons Z := gets (fun s =>
  let g := scr s in
  if port =? CRTPORT then 0 else if crtc_index g =? 14 then crtc_hi g else if crtc_index g =? 15 then crtc_lo g else 0).

Definition set_crt (l : list Z) (g : cga) : cga :=
  {| crtc_index := crtc_index g; crtc_hi := crtc_hi g; crtc_lo := crtc_lo g; crt := l |}.
Definition put_cell (pos v : Z) : M cons unit := fun s =>
  let g := scr s in
  if (0 <=? pos) && (pos <? Z.of_nat (length (crt g)))
  then Done (tt, set_scr (set_crt (<[Z.to_nat pos := v]> (crt g)) g) s) else Fault.
(** The [memmove] of 23 lines up by one. *)
Definition scroll_up (l : list Z) : list Z := take (23 * 80) (drop 80 l) ++ drop (23 * 80) l.
(** The [memset] of what is behind [pos] on the first 24 lines. *)
Definition clear_from (pos : Z) (l : list Z) : list Z :=
  take (Z.to_nat pos) l ++ replicate (Z.to_nat (24 * 80 - pos)) 0 ++ drop (24 * 80) l.

(** The cursor position: column + 80 * row. *)
Definition get_cursor : M cons Z :=
  outb_crt CRTPORT 14;;;
  let! hi := inb_crt (CRTPORT + 1) in
  outb_crt CRTPORT 15;;;
  let! lo := inb_crt (CRTPORT + 1) in
  ret (Z.lor (Z.shiftl hi 8) lo).
Definition set_cursor (pos : Z) : M cons unit :=
  outb_crt CRTPORT 14;;;
  outb_crt (CRTPORT + 1) (Z.shiftr pos 8);;;
  outb_crt CRTPORT 15;;;
  outb_crt (CRTPORT + 1) pos.

Definition cgaputc (c : Z) : M cons unit :=
  let! pos := get_cursor in
  let! pos :=
    (if c =? NEWLINE then ret (pos + (80 - pos mod 80))
     else if c =? BACKSPACE then ret (if pos >? 0 then pos - 1 else pos)
     else put_cell pos (Z.lor (Z.land c 0xff) 0x0700);;; ret (pos + 1)) in
  if (pos <? 0) || (pos >? 25 * 80) then panic "pos under/overflow"
  else
    let! pos :=
      (if pos / 80 >=? 24 then
         modify (fun s => set_scr (set_crt (clear_from (pos - 80) (scroll_up (crt (scr s)))) (scr s)) s);;;
         ret (pos - 80)
       else ret pos) in
    set_cursor pos;;;
    put_cell pos (Z.lor 32 0x0700).

(** [consputc]: after a panic the processor stops here. *)
Definition consputc (c : Z) : M cons unit :=
  let! p := gets panicked in
  if p then panic "panicked"
  else
    (if c =? BACKSPACE then uartputc 8;;; uartputc 32;;; uartputc 8 else uartputc c);;;
    cgaputc c.

Fixpoint consputs (l : list Z) : M cons unit :=
  match l with [] => ret tt | c :: l => consputc c;;; consputs l end.

(** ** Formatted output *)

Definition CDIGITS : list Z := str "0123456789abcdef".
Definition cons_printint (xx base : Z) (sgn : bool) : M cons unit := consputs (rev (int_buf CDIGITS xx base sgn)).

(** [args] are the words on the stack behind [fmt], [string_of] the string at
    an address. *)
Section cprintf.
Context (string_of : Z -> list Z).

Fixpoint cprintf_from (percent : bool) (fmt args : list Z) : M cons unit :=
  match fmt with
  | [] => ret tt
  | c :: fmt =>
      let arg (k : Z -> M cons unit) : M cons unit :=
        match args with
        | a :: args => k a;;; cprintf_from false fmt args
        | [] => fault
        end in
      if negb percent then
        if c =? PERCENT then cprintf_from true fmt args
        else consputc c;;; cprintf_from false fmt args
      else if c =? 100 then arg (fun a => cons_printint (i32 a) 10 true)
      else if (c =? 120) || (c =? 112) then arg (fun a => cons_printint (i32 a) 16 false)
      else if c =? 115 then arg (fun a => consputs (if a =? 0 then str "(null)" else string_of a))
      else if c =? PERCENT then consputc PERCENT;;; cprintf_from false fmt args
      else consputc PERCENT;;; consputc c;;; cprintf_from false fmt args
  end.
Definition cprintf (fmt : option (list Z)) (args : list Z) : M cons unit :=
  match fmt with None => panic "null fmt" | Some fmt => cprintf_from false fmt args end.

Fixpoint panic_pcs (pcs : list Z) : M cons unit :=
  match pcs with [] => ret tt | a :: pcs => cprintf (Some (str " %p")) [a];;; panic_pcs pcs end.
(** What [panic] does before it stops. *)
Definition panic_report (lapicid : Z) (pcs s : list Z) : M cons unit :=
  modify (set_locking false);;;
  cprintf (Some (str "lapicid %d: panic: ")) [lapicid];;;
  cprintf (Some s) [];;;
  cprintf (Some [NEWLINE]) [];;;
  panic_pcs pcs;;;
  modify set_panicked.
End cprintf.

(** ** Input *)

Definition set_ie (e : Z) (i : input) : input := {| ibuf := ibuf i; ir := ir i; iw := iw i; ie := e |}.
Definition set_iw (w : Z) (i : input) : input := {| ibuf := ibuf i; ir := ir i; iw := w; ie := ie i |}.
Definition set_ir (r : Z) (i : input) : input := {| ibuf := ibuf i; ir := r; iw := iw i; ie := ie i |}.
Definition ibuf_at (k : Z) (i : input) : Z := nth (Z.to_nat (k mod INPUT_BUF)) (ibuf i) 0.
Definition modi (f : input -> input) : M cons unit := modify (fun s => set_inp (f (inp s)) s).

(** The loop of Control-U. *)
Fixpoint kill_line (fuel : nat) : M cons unit :=
  match fuel with
  | O => fault
  | S fuel =>
      let! i := gets inp in
      if negb (ie i =? iw i) && negb (ibuf_at (u32 (ie i - 1)) i =? NEWLINE) then
        modi (set_ie (u32 (ie i - 1)));;;
        consputc BACKSPACE;;;
        kill_line fuel
      else ret tt
  end.

Definition put_char (c : Z) (i : input) : input :=
  {| ibuf := <[Z.to_nat (ie i mod INPUT_BUF) := u8 c]> (ibuf i); ir := ir i; iw := iw i; ie := u32 (ie i + 1) |}.

(** The body of the [switch]; the result is [doprocdump]. *)
Definition console_key (c : Z) : M cons bool :=
  if c =? Ctl 80 then ret true
  else if c =? Ctl 85 then
    let! i := gets inp in
    kill_line (S (Z.to_nat (u32 (ie i - iw i))));;;
    ret false
  else if (c =? Ctl 72) || (c =? 127) then
    let! i := gets inp in
    (if negb (ie i =? iw i) then modi (set_ie (u32 (ie i - 1)));;; consputc BACKSPACE else ret tt);;;
    ret false
  else
    let! i := gets inp in
    (if negb (c =? 0) && (u32 (ie i - ir i) <? INPUT_BUF) then
       let c := if c =? 13 then NEWLINE else c in
       modi (put_char c);;;
       consputc c;;;
       let! i := gets inp in
       if (c =? NEWLINE) || (c =? Ctl 68) || (ie i =? u32 (ir i + INPUT_BUF)) then
         modi (set_iw (ie i));;;
         modify wake_readers
       else ret tt
     else ret tt);;;
    ret false.

(** [consoleintr] on the characters [getc] returns before -1; the result tells
    whether [procdump] is called. *)
Fixpoint consoleintr (cs : list Z) : M cons bool :=
  match cs with
  | [] => ret false
  | c :: cs =>
      let! d := console_key c in
      let! d' := consoleintr cs in
      ret (d || d')
  end.

(** What [uartgetc] returns before -1. *)
Fixpoint uart_chars (fuel : nat) (has_uart : bool) (rx : list Z) : list Z :=
  match fuel with
  | O => []
  | S fuel => let '(c, rx) := uartgetc has_uart rx in if c <? 0 then [] else c :: uart_chars fuel has_uart rx
  end.
Definition uartintr (rx : list Z) : M cons bool := fun s => consoleintr (uart_chars (S (length rx)) (uart s) rx) s.

(** How a stretch of [consoleread] ends: with a return value and the bytes
    stored, or asleep with [n] bytes still wanted. *)
Inductive cres := CRet (r : Z) (got : list Z) | CAsleep (n : nat) (got : list Z).

(** The loop of [consoleread]: [n] bytes are wanted, [got] are stored. *)
Fixpoint read_from (killed : bool) (target : Z) (n : nat) (got : list Z) : M cons cres :=
  match n with
  | O => ret (CRet target got)
  | S n' =>
      let! i := gets inp in
      if ir i =? iw i then
        if killed then ret (CRet (-1) got) else ret (CAsleep n got)
      else
        let c := ibuf_at (ir i) i in
        modi (set_ir (u32 (ir i + 1)));;;
        if c =? Ctl 68 then
          (if Z.of_nat n <? target then modi (set_ir (u32 (u32 (ir i + 1) - 1))) else ret tt);;;
          ret (CRet (target - Z.of_nat n) got)
        else if c =? NEWLINE then ret (CRet (target - Z.of_nat n') (got ++ [c]))
        else read_from killed target n' (got ++ [c])
  end.
Definition consoleread (killed : bool) (n : Z) : M cons cres :=
  if 0 <? n then read_from killed n (Z.to_nat n) [] else ret (CRet 0 []).

Definition consolewrite (buf : list Z) : M cons Z :=
  consputs (map (fun c => Z.land c 0xff) buf);;; ret (Z.of_nat (length buf)).

Definition consoleinit : M cons unit := modify (set_locking true).

(** ** The screen is a window on an endless sheet *)

Definition cga_pos (g : cga) : Z := Z.lor (Z.shiftl (crtc_hi g) 8) (crtc_lo g).
Record scr_ok (g : cga) : Prop := {
  so_hi : is_u8 (crtc_hi g); so_lo : is_u8 (crtc_lo g);
  so_pos : cga_pos g < 24 * 80;
  so_len : (24 * 80 <= length (crt g))%nat
}.

Lemma lor_bytes hi lo : is_u8 hi -> is_u8 lo -> Z.lor (Z.shiftl hi 8) lo = 256 * hi + lo.
Proof.
  intros Hh Hl. rewrite Z.shiftl_mul_pow2 by done. rewrite <-Z.add_nocarry_lor; [lia|].
  rewrite Z.land_comm. apply Z.bits_inj_0. intros n.
  destruct (decide (n < 0)); [by rewrite Z.testbit_neg_r|]. rewrite Z.land_spec.
  destruct (decide (n < 8)).
  - rewrite Z.mul_pow2_bits_low by done. apply andb_false_r.
  - rewrite (Z.bits_above_log2 lo n); [done|wrap_lia|]. destruct (decide (lo = 0)) as [->|]; [cbn; lia|].
    apply Z.log2_lt_pow2; [wrap_lia|]. apply Z.lt_le_trans with (2 ^ 8); [wrap_lia|]. apply Z.pow_le_mono_r; lia.
Qed.
Lemma cga_pos_eq g : scr_ok g -> cga_pos g = 256 * crtc_hi g + crtc_lo g.
Proof. intros [Hh Hl _ _]. by apply lor_bytes. Qed.

(** Where the cursor goes, and what the cells become. *)
Definition cga_move (c pos : Z) : Z :=
  if c =? NEWLINE then 80 * (pos / 80 + 1) else if c =? BACKSPACE then Z.max 0 (pos - 1) else pos + 1.
Definition cga_type (c pos : Z) (l : list Z) : list Z :=
  if (c =? NEWLINE) || (c =? BACKSPACE) then l else <[Z.to_nat pos := Z.lor (Z.land c 0xff) 0x0700]> l.
Definition BLANK : Z := Z.lor 32 0x0700.
Definition cga_step (c : Z) (x : Z * list Z) : Z * list Z :=
  let pos := cga_move c x.1 in
  let l := cga_type c x.1 x.2 in
  if pos =? 24 * 80 then (23 * 80, <[(23 * 80)%nat := BLANK]> (clear_from (23 * 80) (scroll_up l)))
  else (pos, <[Z.to_nat pos := BLANK]> l).
Definition screen (g : cga) : Z * list Z := (cga_pos g, crt g).


Lemma get_cursor_run s :
  get_cursor s = Done (cga_pos (scr s),
    set_scr {| crtc_index := 15; crtc_hi := crtc_hi (scr s); crtc_lo := crtc_lo (scr s); crt := crt (scr s) |} s).
Proof. reflexivity. Qed.
Lemma set_cursor_run pos s :
  0 <= pos < 2 ^ 16 ->
  set_cursor pos s = Done (tt,
    set_scr {| crtc_index := 15; crtc_hi := pos / 256; crtc_lo := pos mod 256; crt := crt (scr s) |} s).
Proof.
  intros Hp. assert (u8 (Z.shiftr pos 8) = pos / 256) as E1 by (rewrite Z.shiftr_div_pow2 by done; wrap_lia).
  assert (u8 pos = pos mod 256) as E2 by wrap_lia. rewrite <-E1, <-E2. reflexivity.
Qed.
Lemma put_cell_run pos v s :
  0 <= pos < Z.of_nat (length (crt (scr s))) ->
  put_cell pos v s = Done (tt, set_scr (set_crt (<[Z.to_nat pos := v]> (crt (scr s))) (scr s)) s).
Proof. intros Hp. unfold put_cell. rewrite (proj2 (Z.leb_le 0 pos)), (proj2 (Z.ltb_lt pos _)) by lia. done. Qed.

Lemma length_scroll l : (24 * 80 <= length l)%nat -> length (scroll_up l) = length l.
Proof. intros H. unfold scroll_up. rewrite length_app, length_take, !length_drop. lia. Qed.
Lemma length_clear pos l : 0 <= pos <= 24 * 80 -> (24 * 80 <= length l)%nat -> length (clear_from pos l) = length l.
Proof. intros Hp H. unfold clear_from. rewrite !length_app, length_take, length_replicate, length_drop. lia. Qed.
Lemma length_type c pos l : length (cga_type c pos l) = length l.
Proof. unfold cga_type. destruct (_ || _); [done|]. apply length_insert. Qed.
Lemma cga_move_range c pos : 0 <= pos < 24 * 80 -> 0 <= cga_move c pos <= 24 * 80.
Proof. intros H. unfold cga_move. destruct (c =? NEWLINE); [|destruct (c =? BACKSPACE)]; wrap_lia. Qed.

(** The first half of [cgaputc]. *)
Lemma cga_type_run c pos s :
  0 <= pos < 24 * 80 -> (24 * 80 <= length (crt (scr s)))%nat ->
  (if c =? NEWLINE then ret (pos + (80 - pos mod 80))
   else if c =? BACKSPACE then ret (if pos >? 0 then pos - 1 else pos)
   else put_cell pos (Z.lor (Z.land c 0xff) 0x0700);;; ret (pos + 1)) s =
  Done (cga_move c pos, set_scr (set_crt (cga_type c pos (crt (scr s))) (scr s)) s).
Proof.
  intros Hp Hl. unfold cga_move, cga_type. destruct (c =? NEWLINE); [|destruct (c =? BACKSPACE)]; cbn [orb].
  - unfold ret. do 2 f_equal; [wrap_lia|]. by destruct s as [? [] ? ? ? ? ?].
  - unfold ret. rewrite Z.gtb_ltb. do 2 f_equal; [zcases; lia|]. by destruct s as [? [] ? ? ? ? ?].
  - unfold bind. rewrite put_cell_run by lia. done.
Qed.

Lemma cgaputc_run c s :
  scr_ok (scr s) ->
  exists g, cgaputc c s = Done (tt, set_scr g s) /\ scr_ok g /\ screen g = cga_step c (screen (scr s)).
Proof.
  intros Hok. pose proof (cga_pos_eq _ Hok) as Epos. destruct Hok as [Hh Hl Hp Hlen].
  assert (0 <= cga_pos (scr s)) as Hp0 by wrap_lia.
  unfold cgaputc. unfold bind at 1. rewrite get_cursor_run. unfold bind at 1.
  rewrite cga_type_run by done. cbn [scr set_scr crt set_crt crtc_index crtc_hi crtc_lo].
  unfold cga_step, screen. cbn [fst snd].
  pose proof (cga_move_range c (cga_pos (scr s)) ltac:(lia)) as Hm. set (pos := cga_move c _) in *.
  pose proof (length_type c (cga_pos (scr s)) (crt (scr s))) as Hlt. set (l := cga_type c _ _) in *.
  rewrite (proj2 (Z.ltb_ge pos 0)), Z.gtb_ltb, (proj2 (Z.ltb_ge (25 * 80) pos)) by lia. cbn [orb].
  rewrite Z.geb_leb. destruct (Z.eqb_spec pos (24 * 80)) as [E|E].
  - rewrite E, (proj2 (Z.leb_le _ _)) by done. change (24 * 80 - 80) with (23 * 80).
    unfold bind at 1. unfold bind at 1. unfold modify at 1, ret at 1. cbn [scr set_scr crt set_crt crtc_index crtc_hi crtc_lo].
    pose proof (length_clear (23 * 80) (scroll_up l) ltac:(lia)) as Hc. rewrite length_scroll, Hlt in Hc by lia.
    unfold bind at 1. rewrite set_cursor_run by done. cbn [scr set_scr crt set_crt crtc_index crtc_hi crtc_lo].
    rewrite put_cell_run by (cbn [scr set_scr crt]; lia). cbn [scr set_scr crt set_crt crtc_index crtc_hi crtc_lo].
    eexists. split; [done|]. split; [split; cbn [crtc_hi crtc_lo crt set_crt]|].
    + done.
    + done.
    + done.
    + rewrite length_insert. lia.
    + done.
  - rewrite (proj2 (Z.leb_gt _ _)) by wrap_lia. unfold bind at 1. unfold ret at 1.
    unfold bind at 1. rewrite set_cursor_run by lia. cbn [scr set_scr crt set_crt crtc_index crtc_hi crtc_lo].
    rewrite put_cell_run by (cbn [scr set_scr crt]; lia). cbn [scr set_scr crt set_crt crtc_index crtc_hi crtc_lo].
    assert (Z.lor (Z.shiftl (pos / 256) 8) (pos mod 256) = pos) as Elor.
    { rewrite lor_bytes by wrap_lia. wrap_lia. }
    eexists. split; [done|]. unfold cga_pos. cbn. rewrite Elor. split; [split; unfold cga_pos; cbn [crtc_hi crtc_lo crt set_crt]|done].
    + wrap_lia.
    + wrap_lia.
    + rewrite Elor. lia.
    + rewrite length_insert. lia.
Qed.

(** *** Printing *)
Definition serial_of (c : Z) : list Z := if c =? BACKSPACE then [8; 32; 8] else [u8 c].
Record can_print (s : cons) : Prop := { cp_scr : scr_ok (scr s); cp_panicked : panicked s = false }.
(** [s'] is [s] after printing [l], up to the input. *)
Record printed (l : list Z) (s s' : cons) : Prop := {
  pr_can : can_print s';
  pr_screen : screen (scr s') = foldl (fun x c => cga_step c x) (screen (scr s)) l;
  pr_ser : ser s' = ser s ++ (if uart s then l ≫= serial_of else []);
  pr_uart : uart s' = uart s;
  pr_locking : locking s' = locking s
}.

Lemma printed_refl s : can_print s -> printed [] s s.
Proof. intros H. split; [done|done| |done|done]. destruct (uart s); by rewrite app_nil_r. Qed.
Lemma printed_app l1 l2 s s1 s2 : printed l1 s s1 -> printed l2 s1 s2 -> printed (l1 ++ l2) s s2.
Proof.
  intros [_ E1 S1 U1 L1] [C2 E2 S2 U2 L2]. split; [done| | |congruence|congruence].
  - by rewrite foldl_app, <-E1.
  - rewrite S2, S1, U1, <-app_assoc. destruct (uart s); [by rewrite bind_app|done].
Qed.
Lemma printed_ext l s s1 s2 :
  printed l s s1 -> scr s2 = scr s1 -> ser s2 = ser s1 -> uart s2 = uart s1 -> locking s2 = locking s1 -> panicked s2 = panicked s1 ->
  printed l s s2.
Proof. intros [[C1 P1] E S U L] H1 H2 H3 H4 H5. split; [split|..]; congruence. Qed.

(** A character can always be printed. *)
Lemma consputc_run c s :
  can_print s -> exists s', consputc c s = Done (tt, s') /\ printed [c] s s' /\ inp s' = inp s /\ woken s' = woken s.
Proof.
  intros [Hs Hp]. unfold consputc, bind, gets. rewrite Hp. unfold uartputc.
  set (s1 := if uart s then
    {| inp := inp s; scr := scr s; uart := uart s; ser := ser s ++ serial_of c; locking := locking s; panicked := panicked s; woken := woken s |} else s).
  replace ((if c =? BACKSPACE then _ else _) s) with (Done (tt, s1)).
  2:{ unfold s1, serial_of. destruct (c =? BACKSPACE), (uart s) eqn:Hu; unfold bind, send; cbn;
        rewrite ?Hu; cbn; rewrite ?Hu; cbn; rewrite ?Hu, <-?app_assoc; done. }
  assert (scr s1 = scr s) as E1 by (unfold s1; by destruct (uart s)).
  destruct (cgaputc_run c s1) as (g & -> & Hg & Eg); [by rewrite E1|]. eexists. split; [done|].
  split; [split; cbn|split; unfold s1; by destruct (uart s)].
  - split; [done|]. unfold s1. by destruct (uart s).
  - by rewrite Eg, E1.
  - unfold s1. destruct (uart s); cbn; by rewrite ?app_nil_r.
  - unfold s1. by destruct (uart s) eqn:?.
  - unfold s1. by destruct (uart s).
Qed.

Lemma consputs_run l s :
  can_print s -> exists s', consputs l s = Done (tt, s') /\ printed l s s' /\ inp s' = inp s /\ woken s' = woken s.
Proof.
  revert s. induction l as [|c l IH]; intros s Hs; cbn [consputs].
  - exists s. split_and!; [done|by apply printed_refl|done|done].
  - destruct (consputc_run c s Hs) as (s1 & E1 & P1 & I1 & W1). destruct (IH s1 (pr_can _ _ _ P1)) as (s2 & E2 & P2 & I2 & W2).
    exists s2. unfold bind. rewrite E1. split_and!; [done|by apply (printed_app [c] l s s1)|congruence|congruence].
Qed.

(** *** The sheet *)
(** An endless sheet of lines of 80 cells, the position on it, and its last 24
    lines. Printing never changes the lines above. *)
Definition sheet_put (c : Z) (x : Z * list Z) : Z * list Z :=
  let pos := cga_move c x.1 in
  let l := cga_type c x.1 x.2 in
  let l := if pos =? Z.of_nat (length l) then l ++ replicate 80 0 else l in
  (pos, <[Z.to_nat pos := BLANK]> l).
Definition above (x : Z * list Z) : nat := (length x.2 - 24 * 80)%nat.
(** The screen [y] shows the end of the sheet [x]. *)
Record shows (x y : Z * list Z) : Prop := {
  sh_len : (24 * 80 <= length x.2)%nat;
  sh_lines : Z.of_nat (length x.2) mod 80 = 0;
  sh_pos : x.1 = y.1 + Z.of_nat (above x);
  sh_cells : drop (above x) x.2 = take (24 * 80) y.2;
  sh_range : 0 <= y.1 < 24 * 80;
  sh_crt : (24 * 80 <= length y.2)%nat
}.

Lemma shows_type c x y :
  shows x y -> drop (above x) (cga_type c x.1 x.2) = take (24 * 80) (cga_type c y.1 y.2).
Proof.
  intros [Hl _ Hp Hc Hr Hy]. unfold cga_type. destruct (_ || _); [done|].
  rewrite drop_insert_ge, take_insert_lt by lia. rewrite Hc. f_equal. lia.
Qed.
Lemma shows_move c x y : c <> BACKSPACE -> shows x y -> cga_move c x.1 = cga_move c y.1 + Z.of_nat (above x).
Proof.
  intros Hc [Hl Hm Hp _ _ _]. unfold cga_move. rewrite (proj2 (Z.eqb_neq _ _) Hc).
  assert (Z.of_nat (above x) mod 80 = 0) by (unfold above; rewrite Nat2Z.inj_sub by lia; wrap_lia).
  destruct (c =? NEWLINE); wrap_lia.
Qed.

Lemma take_scrolled l : (24 * 80 <= length l)%nat ->
  take (24 * 80) (clear_from (23 * 80) (scroll_up l)) = drop 80 (take (24 * 80) l) ++ replicate 80 0.
Proof.
  intros H. unfold clear_from, scroll_up. change (Z.to_nat (23 * 80)) with (23 * 80)%nat. change (Z.to_nat (24 * 80 - 23 * 80)) with 80%nat.
  rewrite skipn_firstn_comm. change (24 * 80 - 80)%nat with (23 * 80)%nat.
  rewrite (take_app_length' (take (23 * 80) (drop 80 l))) by (rewrite length_take, length_drop; lia).
  rewrite app_assoc, take_app_length'; [done|]. rewrite length_app, length_take, length_drop, length_replicate. lia.
Qed.

Lemma shows_step c x y : c <> BACKSPACE -> shows x y -> shows (sheet_put c x) (cga_step c y).
Proof.
  intros Hc Hs. pose proof (shows_type c _ _ Hs) as Ht. pose proof (shows_move c _ _ Hc Hs) as Hm.
  pose proof (cga_move_range c _ (sh_range _ _ Hs)) as Hr'.
  pose proof (length_type c x.1 x.2) as Lx. pose proof (length_type c y.1 y.2) as Ly.
  destruct Hs as [Hl Hd Hp Hcells Hr Hy]. unfold above in *.
  unfold sheet_put, cga_step. rewrite Lx. set (lx := cga_type c x.1 x.2) in *. set (ly := cga_type c y.1 y.2) in *.
  rewrite Hm. set (pos := cga_move c y.1) in *.
  destruct (Z.eqb_spec pos (24 * 80)) as [E|E].
  - rewrite (proj2 (Z.eqb_eq _ _)) by lia. split; cbn [fst snd]; unfold above; rewrite ?length_insert, ?length_app, ?length_replicate; cbn [snd].
    + lia.
    + rewrite Lx. wrap_lia.
    + rewrite length_insert, length_app, length_replicate. lia.
    + rewrite length_insert, length_app, length_replicate, drop_insert_ge, take_insert_lt by lia. f_equal; [lia|].
      rewrite take_scrolled, <-Ht, drop_drop by lia. rewrite drop_app_le by lia. do 2 f_equal. lia.
    + lia.
    + rewrite length_clear; rewrite ?length_scroll; lia.
  - rewrite (proj2 (Z.eqb_neq _ _)) by lia. split; cbn [fst snd]; unfold above; rewrite ?length_insert; cbn [snd]; rewrite ?length_insert.
    + lia.
    + by rewrite Lx.
    + lia.
    + rewrite drop_insert_ge, take_insert_lt by lia. rewrite Lx, Ht. f_equal. lia.
    + lia.
    + lia.
Qed.

(** What is printed, newlines included, is what the sheet shows at its end. *)
Lemma screen_shows_sheet l s s' x :
  printed l s s' -> Forall (fun c => c <> BACKSPACE) l -> shows x (screen (scr s)) ->
  shows (foldl (fun x c => sheet_put c x) x l) (screen (scr s')).
Proof.
  intros [_ -> _ _ _]. generalize (screen (scr s)) as y. revert x.
  induction l as [|c l IH]; intros x y HF Hs; [done|].
  apply Forall_cons in HF as [Hc Hl]. cbn. apply IH; [done|]. by apply shows_step.
Qed.

(** ** The line editor *)

(** What a terminal promises: the characters that may be read, and the line
    being edited. *)
Record tty := { unread : list Z; line : list Z }.
(** One key; the second component is what is echoed. *)
Definition tty_key (c : Z) (t : tty) : tty * list Z :=
  if c =? Ctl 80 then (t, [])
  else if c =? Ctl 85 then ({| unread := unread t; line := [] |}, replicate (length (line t)) BACKSPACE)
  else if (c =? Ctl 72) || (c =? 127) then
    ({| unread := unread t; line := removelast (line t) |}, match line t with [] => [] | _ => [BACKSPACE] end)
  else if negb (c =? 0) && bool_decide (length (unread t ++ line t) < 128)%nat then
    let c := if c =? 13 then NEWLINE else c in
    let l := line t ++ [c] in
    if (c =? NEWLINE) || (c =? Ctl 68) || bool_decide (length (unread t ++ l) = 128)%nat
    then ({| unread := unread t ++ l; line := [] |}, [c])
    else ({| unread := unread t; line := l |}, [c])
  else (t, []).
Fixpoint tty_keys (cs : list Z) (t : tty) : tty * list Z :=
  match cs with
  | [] => (t, [])
  | c :: cs => let '(t1, e1) := tty_key c t in let '(t2, e2) := tty_keys cs t1 in (t2, e1 ++ e2)
  end.
(** A read takes characters up to the end of the line or a Control-D, which
    it leaves for the next read when it has something to return. *)
Fixpoint tty_read (killed : bool) (target : Z) (n : nat) (got u : list Z) : cres * list Z :=
  match n, u with
  | O, _ => (CRet target got, u)
  | S _, [] => (if killed then CRet (-1) got else CAsleep n got, [])
  | S n', c :: u' =>
      if c =? Ctl 68 then (CRet (target - Z.of_nat n) got, if Z.of_nat n <? target then u else u')
      else if c =? NEWLINE then (CRet (target - Z.of_nat n') (got ++ [c]), u')
      else tty_read killed target n' (got ++ [c]) u'
  end.

(** The ring as two queues. *)
Definition islice (i : input) (a : Z) (n : nat) : list Z := (fun k => ibuf_at (a + Z.of_nat k) i) <$> seq 0 n.
Definition n_unread (i : input) : nat := Z.to_nat (u32 (iw i - ir i)).
Definition n_line (i : input) : nat := Z.to_nat (u32 (ie i - iw i)).
Definition tty_of (i : input) : tty :=
  {| unread := islice i (ir i) (n_unread i); line := islice i (iw i) (n_line i) |}.
Record ring_ok (i : input) : Prop := {
  io_len : length (ibuf i) = 128%nat;
  io_r : is_u32 (ir i); io_w : is_u32 (iw i); io_e : is_u32 (ie i);
  io_room : (n_unread i + n_line i <= 128)%nat
}.
Definition input_ok (i : input) : Prop := ring_ok i /\ Forall (fun c => c <> NEWLINE) (line (tty_of i)).

Lemma islice_S i a n : islice i a (S n) = islice i a n ++ [ibuf_at (a + Z.of_nat n) i].
Proof. unfold islice. by rewrite seq_S, fmap_app. Qed.
Lemma islice_ext i i' a a' n :
  (forall k, (k < n)%nat -> ibuf_at (a + Z.of_nat k) i = ibuf_at (a' + Z.of_nat k) i') -> islice i a n = islice i' a' n.
Proof. intros H. apply list_fmap_ext. intros j k Hk%lookup_seq. apply H. lia. Qed.
Lemma islice_cons i a n : islice i a (S n) = ibuf_at a i :: islice i (a + 1) n.
Proof.
  unfold islice. cbn [seq fmap list_fmap]. rewrite Z.add_0_r. f_equal. rewrite <-fmap_S_seq, <-list_fmap_compose.
  apply list_fmap_ext. intros j k _. cbn. f_equal. lia.
Qed.
Lemma islice_app i a n m : islice i a (n + m) = islice i a n ++ islice i (a + Z.of_nat n) m.
Proof.
  revert a. induction n as [|n IH]; intros a; [cbn; by rewrite Z.add_0_r|].
  cbn [Nat.add]. rewrite !islice_cons, IH. cbn. do 3 f_equal. lia.
Qed.
Lemma ibuf_at_u32 k i : ibuf_at (u32 k) i = ibuf_at k i.
Proof. unfold ibuf_at. do 2 f_equal. unfold INPUT_BUF. wrap_lia. Qed.
Lemma islice_u32 i a n : islice i (u32 a) n = islice i a n.
Proof. apply islice_ext. intros k _. rewrite <-ibuf_at_u32, u32_add_l, ibuf_at_u32. done. Qed.
Lemma length_islice i a n : length (islice i a n) = n.
Proof. unfold islice. by rewrite length_fmap, length_seq. Qed.

(** *** The steps on the ring *)
Section ring.
Context (i : input) (Hok : ring_ok i).

Lemma ring_push c :
  (n_unread i + n_line i < 128)%nat -> is_u8 c ->
  ring_ok (put_char c i) /\ tty_of (put_char c i) = {| unread := unread (tty_of i); line := line (tty_of i) ++ [c] |}.
Proof.
  intros Hroom Hc. destruct Hok as [Hl Hr Hw He Hu]. unfold n_unread, n_line in *.
  assert (Z.to_nat (u32 (u32 (ie i + 1) - iw i)) = S (Z.to_nat (u32 (ie i - iw i)))) as ES by wrap_lia.
  split; [split; cbn; rewrite ?length_insert; auto with os; unfold n_unread, n_line; cbn; lia|].
  unfold tty_of, n_unread, n_line. cbn. rewrite ES, islice_S. f_equal; [|f_equal].
  - apply islice_ext. intros k Hk. unfold ibuf_at. cbn. rewrite !nth_lookup, list_lookup_insert_ne; [done|]. unfold INPUT_BUF. wrap_lia.
  - apply islice_ext. intros k Hk. unfold ibuf_at. cbn. rewrite !nth_lookup, list_lookup_insert_ne; [done|]. unfold INPUT_BUF. wrap_lia.
  - f_equal. unfold ibuf_at. cbn. rewrite nth_lookup.
    replace (Z.to_nat ((iw i + Z.of_nat (Z.to_nat (u32 (ie i - iw i)))) mod INPUT_BUF)) with (Z.to_nat (ie i mod INPUT_BUF)) by (unfold INPUT_BUF; wrap_lia).
    rewrite list_lookup_insert_eq by (unfold INPUT_BUF; wrap_lia). cbn. unfold u8. by rewrite Z.mod_small.
Qed.

Lemma ring_pop :
  (0 < n_line i)%nat ->
  ring_ok (set_ie (u32 (ie i - 1)) i) /\
  tty_of (set_ie (u32 (ie i - 1)) i) = {| unread := unread (tty_of i); line := removelast (line (tty_of i)) |} /\
  line (tty_of i) = removelast (line (tty_of i)) ++ [ibuf_at (u32 (ie i - 1)) i].
Proof.
  intros Hpos. destruct Hok as [Hl Hr Hw He Hu]. unfold n_unread, n_line in *.
  assert (exists m, Z.to_nat (u32 (ie i - iw i)) = S m /\ Z.to_nat (u32 (u32 (ie i - 1) - iw i)) = m) as (m & E1 & E2).
  { exists (Z.to_nat (u32 (ie i - iw i) - 1)). wrap_lia. }
  split; [split; cbn; auto with os; unfold n_unread, n_line; cbn; lia|].
  unfold tty_of, n_unread, n_line. cbn. rewrite E1, E2, islice_S, removelast_last. split.
  - f_equal; by apply islice_ext.
  - do 2 f_equal. rewrite <-ibuf_at_u32. f_equal. wrap_lia.
Qed.

Lemma ring_commit :
  ring_ok (set_iw (ie i) i) /\ tty_of (set_iw (ie i) i) = {| unread := unread (tty_of i) ++ line (tty_of i); line := [] |}.
Proof.
  destruct Hok as [Hl Hr Hw He Hu]. unfold n_unread, n_line in *.
  assert (Z.to_nat (u32 (ie i - ir i)) = Z.to_nat (u32 (iw i - ir i)) + Z.to_nat (u32 (ie i - iw i)))%nat as E by wrap_lia.
  assert (u32 (ie i - ie i) = 0) as E0 by wrap_lia.
  split; [split; cbn; auto; unfold n_unread, n_line; cbn; rewrite E0; lia|].
  unfold tty_of, n_unread, n_line. cbn. rewrite E, E0, islice_app. f_equal. f_equal.
  apply islice_ext. intros k _.
  change (ibuf_at (ir i + Z.of_nat (Z.to_nat (u32 (iw i - ir i))) + Z.of_nat k) i = ibuf_at (iw i + Z.of_nat k) i).
  rewrite <-ibuf_at_u32, <-(ibuf_at_u32 (iw i + _)). f_equal. wrap_lia.
Qed.

Lemma ring_take :
  (0 < n_unread i)%nat ->
  ring_ok (set_ir (u32 (ir i + 1)) i) /\
  unread (tty_of i) = ibuf_at (ir i) i :: unread (tty_of (set_ir (u32 (ir i + 1)) i)) /\
  line (tty_of (set_ir (u32 (ir i + 1)) i)) = line (tty_of i).
Proof.
  intros Hpos. destruct Hok as [Hl Hr Hw He Hu]. unfold n_unread, n_line in *.
  assert (exists m, Z.to_nat (u32 (iw i - ir i)) = S m /\ Z.to_nat (u32 (iw i - u32 (ir i + 1))) = m) as (m & E1 & E2).
  { exists (Z.to_nat (u32 (iw i - ir i) - 1)). wrap_lia. }
  split; [split; cbn; auto with os; unfold n_unread, n_line; cbn; lia|].
  unfold tty_of, n_unread, n_line. cbn. rewrite E1, E2, islice_cons, islice_u32. split; [|by apply islice_ext]. f_equal; by apply islice_ext.
Qed.

Lemma ring_empty_line : (ie i =? iw i) = bool_decide (n_line i = 0%nat).
Proof.
  destruct Hok as [Hl Hr Hw He Hu]. unfold n_line.
  destruct (Z.eqb_spec (ie i) (iw i)); symmetry; [apply bool_decide_eq_true|apply bool_decide_eq_false]; wrap_lia.
Qed.
Lemma ring_empty : (ir i =? iw i) = bool_decide (n_unread i = 0%nat).
Proof.
  destruct Hok as [Hl Hr Hw He Hu]. unfold n_unread.
  destruct (Z.eqb_spec (ir i) (iw i)); symmetry; [apply bool_decide_eq_true|apply bool_decide_eq_false]; wrap_lia.
Qed.
Lemma ring_used : (u32 (ie i - ir i) <? INPUT_BUF) = bool_decide (n_unread i + n_line i < 128)%nat.
Proof.
  destruct Hok as [Hl Hr Hw He Hu]. unfold n_unread, n_line, INPUT_BUF in *.
  destruct (Z.ltb_spec (u32 (ie i - ir i)) 128); symmetry; [apply bool_decide_eq_true|apply bool_decide_eq_false]; wrap_lia.
Qed.
Lemma ring_full : (ie i =? u32 (ir i + INPUT_BUF)) = bool_decide (n_unread i + n_line i = 128)%nat.
Proof.
  destruct Hok as [Hl Hr Hw He Hu]. unfold n_unread, n_line, INPUT_BUF in *.
  destruct (Z.eqb_spec (ie i) (u32 (ir i + 128))); symmetry; [apply bool_decide_eq_true|apply bool_decide_eq_false]; wrap_lia.
Qed.
Lemma length_unread : length (unread (tty_of i)) = n_unread i.
Proof. apply length_islice. Qed.
Lemma length_line : length (line (tty_of i)) = n_line i.
Proof. apply length_islice. Qed.
End ring.

(** *** The driver implements the line editor *)
Lemma modi_can f s : can_print s -> can_print (set_inp (f (inp s)) s).
Proof. by intros [? ?]. Qed.

Lemma kill_line_run fuel s :
  can_print s -> input_ok (inp s) -> (n_line (inp s) < fuel)%nat ->
  exists s', kill_line fuel s = Done (tt, s') /\ printed (replicate (n_line (inp s)) BACKSPACE) s s' /\ input_ok (inp s') /\
    tty_of (inp s') = {| unread := unread (tty_of (inp s)); line := [] |} /\ woken s' = woken s.
Proof.
  revert s. induction fuel as [|fuel IH]; intros s Hs [Hok Hnl] Hf; [lia|]. cbn [kill_line]. unfold bind at 1, gets.
  rewrite ring_empty_line by done. destruct (decide (n_line (inp s) = 0%nat)) as [E|E].
  - rewrite bool_decide_eq_true_2 by done. cbn [negb andb]. exists s. rewrite E. split_and!; [done|by apply printed_refl|done| |done].
    unfold tty_of. by rewrite E.
  - rewrite bool_decide_eq_false_2 by done. destruct (ring_pop (inp s) Hok) as (Hok1 & Et & El); [lia|].
    assert (ibuf_at (u32 (ie (inp s) - 1)) (inp s) <> NEWLINE /\ Forall (fun c => c <> NEWLINE) (removelast (line (tty_of (inp s))))) as [Hne Hnl1].
    { rewrite El in Hnl. apply Forall_app in Hnl as [? Hx]. split; [by apply Forall_inv in Hx|done]. }
    rewrite (proj2 (Z.eqb_neq _ _) Hne). cbn [negb andb]. unfold bind at 1, modi, modify.
    set (s1 := set_inp _ s). destruct (consputc_run BACKSPACE s1) as (s2 & E2 & P2 & I2 & W2); [by apply modi_can|].
    unfold bind. rewrite E2. cbn in I2. assert (n_line (inp s) = S (n_line (inp s2))) as En.
    { rewrite <-!length_line, I2. unfold s1. cbn [inp set_inp]. rewrite Et. cbn [line]. rewrite El at 1. rewrite length_app. cbn. lia. }
    destruct (IH s2) as (s3 & E3 & P3 & Hok3 & Et3 & W3).
    + by eapply pr_can.
    + rewrite I2. split; [done|]. by rewrite Et.
    + lia.
    + exists s3. split_and!; [done| |done| |by rewrite W3, W2].
      * rewrite En. apply (printed_app [BACKSPACE] _ s s2); [|done]. destruct P2. by split.
      * rewrite Et3, I2, Et. done.
Qed.

(** What a step of the driver establishes. *)
Record refines (t : tty) (echo : list Z) (s s' : cons) : Prop := {
  rf_ok : input_ok (inp s');
  rf_tty : tty_of (inp s') = t;
  rf_printed : printed echo s s';
  rf_woken : unread (tty_of (inp s')) = unread (tty_of (inp s)) /\ woken s' = woken s \/ woken s' = true
}.

Lemma push_run c s :
  can_print s -> input_ok (inp s) -> is_u8 c -> (n_unread (inp s) + n_line (inp s) < 128)%nat ->
  let l := line (tty_of (inp s)) ++ [c] in
  let u := unread (tty_of (inp s)) in
  exists s',
    (modi (put_char c);;;
     consputc c;;;
     let! i := gets inp in
     if (c =? NEWLINE) || (c =? Ctl 68) || (ie i =? u32 (ir i + INPUT_BUF)) then
       modi (set_iw (ie i));;; modify wake_readers
     else ret tt) s = Done (tt, s') /\
    refines (if (c =? NEWLINE) || (c =? Ctl 68) || bool_decide (length (u ++ l) = 128)%nat
             then {| unread := u ++ l; line := [] |} else {| unread := u; line := l |}) [c] s s'.
Proof.
  intros Hs [Hok Hnl] Hc Hroom l u. destruct (ring_push (inp s) Hok c Hroom Hc) as [Hok1 Et1].
  unfold bind at 1, modi, modify. set (s1 := set_inp _ s).
  destruct (consputc_run c s1) as (s2 & E2 & P2 & I2 & W2); [by apply modi_can|].
  unfold bind at 1. rewrite E2. unfold bind at 1, gets. cbn in I2. rewrite I2.
  replace (ie (put_char c (inp s)) =? u32 (ir (put_char c (inp s)) + INPUT_BUF)) with (bool_decide (length (u ++ l) = 128)%nat).
  2:{ rewrite (ring_full _ Hok1). apply bool_decide_ext. rewrite <-length_unread, <-length_line, Et1, length_app. done. }
  assert (printed [c] s s2) as P by (destruct P2; by split).
  destruct ((c =? NEWLINE) || (c =? Ctl 68) || _) eqn:Ec.
  - destruct (ring_commit _ Hok1) as [Hok2 Et2]. rewrite Et1 in Et2. cbn [unread line] in Et2.
    eexists. split; [done|]. split; cbn [inp set_inp wake_readers woken].
    + rewrite I2. split; [done|]. rewrite Et2. constructor.
    + rewrite I2, Et2. done.
    + eapply printed_ext; [exact P|done..].
    + by right.
  - exists s2. split; [done|]. split; rewrite ?I2, ?Et1; cbn [unread line].
    + split; [done|]. rewrite Et1. cbn [line]. apply Forall_app. split; [done|]. constructor; [|constructor].
      intros ->. done.
    + done.
    + done.
    + left. by rewrite W2.
Qed.

Lemma console_key_run c s :
  can_print s -> input_ok (inp s) -> is_u8 c ->
  exists s', console_key c s = Done (c =? Ctl 80, s') /\
    refines (tty_key c (tty_of (inp s))).1 (tty_key c (tty_of (inp s))).2 s s'.
Proof.
  intros Hs Hi Hc. assert (refines (tty_of (inp s)) [] s s) as Hrefl by (split; [done|done|by apply printed_refl|by left]).
  pose proof Hi as [Hok Hnl]. unfold console_key, tty_key. destruct (Z.eqb_spec c (Ctl 80)) as [E80|E80]; [by exists s|].
  destruct (Z.eqb_spec c (Ctl 85)) as [E85|E85].
  { unfold bind at 1, gets. destruct (kill_line_run (S (n_line (inp s))) s Hs Hi ltac:(lia)) as (s' & E & P & Hok' & Et & W).
    unfold bind. fold (n_line (inp s)). rewrite E. exists s'. split; [done|]. split; cbn [fst snd].
    - done.
    - done.
    - by rewrite length_line.
    - left. by rewrite Et. }
  destruct ((c =? Ctl 72) || (c =? 127)).
  { unfold bind at 1, gets. rewrite ring_empty_line by done. rewrite <-length_line. destruct (line (tty_of (inp s))) as [|x l] eqn:El.
    - assert (tty_of (inp s) = {| unread := unread (tty_of (inp s)); line := [] |}) as Et by (rewrite <-El; by destruct (tty_of (inp s))).
      exists s. split; [done|]. cbn [fst snd removelast]. by rewrite <-Et.
    - rewrite bool_decide_eq_false_2 by done. cbn [negb]. destruct (ring_pop (inp s) Hok) as (Hok1 & Et & El'); [by rewrite <-length_line, El; cbn; lia|].
      unfold bind at 1 2, modi, modify. set (s1 := set_inp _ s).
      destruct (consputc_run BACKSPACE s1) as (s2 & E2 & P2 & I2 & W2); [by apply modi_can|]. rewrite E2.
      exists s2. split; [done|]. cbn in I2. split; rewrite ?I2, ?Et; cbn [fst snd].
      + split; [done|]. rewrite Et. cbn [line]. rewrite <-El, El', Forall_app in Hnl. by destruct Hnl.
      + by rewrite El.
      + destruct P2. by split.
      + left. by rewrite W2. }
  unfold bind at 1, gets at 1. rewrite ring_used, length_app, length_unread, length_line by done.
  destruct (Z.eqb_spec c 0) as [E0|E0]; [by exists s|]. cbn [negb andb].
  destruct (decide (n_unread (inp s) + n_line (inp s) < 128)%nat) as [Hroom|Hroom].
  2:{ rewrite bool_decide_eq_false_2 by done. by exists s. }
  rewrite bool_decide_eq_true_2 by done. cbv zeta. set (c' := if c =? 13 then NEWLINE else c).
  assert (is_u8 c') as Hc' by (unfold c'; by destruct (c =? 13)).
  destruct (push_run c' s Hs Hi Hc' Hroom) as (s' & E & HR). unfold bind at 1. rewrite E. exists s'. split; [done|].
  by destruct ((c' =? NEWLINE) || (c' =? Ctl 68) || bool_decide _).
Qed.

Lemma consoleintr_run cs s :
  can_print s -> input_ok (inp s) -> Forall is_u8 cs ->
  exists s', consoleintr cs s = Done (existsb (fun c => c =? Ctl 80) cs, s') /\
    refines (tty_keys cs (tty_of (inp s))).1 (tty_keys cs (tty_of (inp s))).2 s s'.
Proof.
  revert s. induction cs as [|c cs IH]; intros s Hs Hi Hcs; cbn [consoleintr tty_keys existsb].
  - exists s. split; [done|]. split; [done|done|by apply printed_refl|by left].
  - apply Forall_cons in Hcs as [Hc Hcs]. destruct (console_key_run c s Hs Hi Hc) as (s1 & E1 & [Hi1 T1 P1 W1]).
    destruct (tty_key c (tty_of (inp s))) as [t1 e1]. cbn [fst snd] in *.
    destruct (IH s1 (pr_can _ _ _ P1) Hi1 Hcs) as (s2 & E2 & [Hi2 T2 P2 W2]). rewrite T1 in *.
    destruct (tty_keys cs t1) as [t2 e2]. cbn [fst snd] in *.
    exists s2. unfold bind. rewrite E1, E2. split; [done|]. split; [done|done|by eapply printed_app|].
    rewrite <-T1 in W2. destruct W2 as [[W2 W2']|W2]; [|by right].
    destruct W1 as [[W1 W1']|W1]; [left; split; congruence|right; congruence].
Qed.

Lemma read_from_run killed target n got s :
  input_ok (inp s) ->
  exists s', read_from killed target n got s = Done ((tty_read killed target n got (unread (tty_of (inp s)))).1, s') /\
    input_ok (inp s') /\ line (tty_of (inp s')) = line (tty_of (inp s)) /\
    unread (tty_of (inp s')) = (tty_read killed target n got (unread (tty_of (inp s)))).2 /\
    (can_print s -> printed [] s s').
Proof.
  revert got s. induction n as [|n IH]; intros got s [Hok Hnl]; cbn [read_from].
  { exists s. split_and!; [done|done|done|done|apply printed_refl]. }
  unfold bind at 1, gets at 1. rewrite ring_empty by done. rewrite <-length_unread.
  destruct (unread (tty_of (inp s))) as [|c u] eqn:Eu.
  { rewrite bool_decide_eq_true_2 by done. exists s. cbn [tty_read fst snd].
    split_and!; [by destruct killed|done|done|done|apply printed_refl]. }
  rewrite bool_decide_eq_false_2 by done.
  destruct (ring_take (inp s) Hok) as (Hok1 & Et & El); [rewrite <-length_unread, Eu; cbn; lia|].
  rewrite Eu in Et. injection Et as Ec Et. rewrite <-Ec. set (i1 := set_ir _ (inp s)) in *.
  assert (u = unread (tty_of i1)) as Eu1 by exact Et. clear Et.
  assert (forall i, can_print s -> printed [] s (set_inp i s)) as HP.
  { intros i Hs. by apply (printed_ext [] s s); [apply printed_refl|..]. }
  assert (input_ok i1) as Hi1 by (split; [done|by rewrite El]).
  unfold bind at 1, modi at 1, modify at 1. cbn [tty_read]. destruct (Z.eqb_spec c (Ctl 68)) as [E68|E68].
  - destruct (Z.ltb_spec (Z.of_nat (S n)) target).
    + exists (set_inp (inp s) s). split_and!; [|done|done|done|apply HP].
      replace (u32 (u32 (ir (inp s) + 1) - 1)) with (ir (inp s)) by (pose proof (io_r _ Hok); wrap_lia).
      clear. by destruct s as [[] ? ? ? ? ? ?].
    + exists (set_inp i1 s). split_and!; [done|done|done|by cbn [inp set_inp]|apply HP].
  - destruct (Z.eqb_spec c NEWLINE).
    + exists (set_inp i1 s). split_and!; [done|done|done|by cbn [inp set_inp]|apply HP].
    + destruct (IH (got ++ [c]) (set_inp i1 s) Hi1) as (s' & E & H1 & H2 & H3 & H4). cbn [inp set_inp] in *. rewrite <-Eu1 in *.
      exists s'. split_and!; [done|done|congruence|done|]. intros Hs. apply (printed_app [] [] s (set_inp i1 s)); [by apply HP|].
      by apply H4, (modi_can (fun _ => i1)).
Qed.

(** *** A session at the terminal *)
(** Keys arrive, a process calls [consoleread], and a process that sleeps in
    it runs on after it was woken. *)
Inductive event := Keys (cs : list Z) | Read (n : Z) | Resume.
(** The read that sleeps: what was asked for, what is still wanted, and what
    is stored. *)
Definition reader : Type := option (Z * nat * list Z).

Definition end_stretch (target : Z) (r : cres) : reader * list (Z * list Z) :=
  match r with CRet k got => (None, [(k, got)]) | CAsleep n got => (Some (target, n, got), []) end.

(** The results are what the reads returned. *)
Definition event_step (e : event) (rd : reader) : M cons (reader * list (Z * list Z)) :=
  match e, rd with
  | Keys cs, _ => consoleintr cs;;; ret (rd, [])
  | Read n, None => let! r := consoleread false n in ret (end_stretch n r)
  | Resume, Some (target, n, got) => let! r := read_from false target n got in ret (end_stretch target r)
  | _, _ => ret (rd, [])
  end.
Fixpoint session (es : list event) (rd : reader) : M cons (list (Z * list Z)) :=
  match es with
  | [] => ret []
  | e :: es =>
      let! ' (rd, out) := event_step e rd in
      let! out' := session es rd in
      ret (out ++ out')
  end.

(** The same session with the line editor. *)
Definition tty_step (e : event) (rd : reader) (t : tty) : reader * list (Z * list Z) * tty * list Z :=
  match e, rd with
  | Keys cs, _ => (rd, [], (tty_keys cs t).1, (tty_keys cs t).2)
  | Read n, None =>
      let '(r, u) := if 0 <? n then tty_read false n (Z.to_nat n) [] (unread t) else (CRet 0 [], unread t) in
      (end_stretch n r, {| unread := u; line := line t |}, [])
  | Resume, Some (target, n, got) =>
      let '(r, u) := tty_read false target n got (unread t) in
      (end_stretch target r, {| unread := u; line := line t |}, [])
  | _, _ => (rd, [], t, [])
  end.
Fixpoint tty_session (es : list event) (rd : reader) (t : tty) : list (Z * list Z) * tty * list Z :=
  match es with
  | [] => ([], t, [])
  | e :: es =>
      let '(rd, out, t, echo) := tty_step e rd t in
      let '(out', t, echo') := tty_session es rd t in
      (out ++ out', t, echo ++ echo')
  end.

Lemma tty_eta t : t = {| unread := unread t; line := line t |}.
Proof. by destruct t. Qed.

Lemma event_step_run e rd s :
  can_print s -> input_ok (inp s) -> (match e with Keys cs => Forall is_u8 cs | _ => True end) ->
  exists s', event_step e rd s = Done ((tty_step e rd (tty_of (inp s))).1.1, s') /\ input_ok (inp s') /\
    tty_of (inp s') = (tty_step e rd (tty_of (inp s))).1.2 /\ printed (tty_step e rd (tty_of (inp s))).2 s s'.
Proof.
  intros Hs Hi He.
  assert (exists s', ret (rd, []) s = Done ((rd, @nil (Z * list Z)), s') /\ input_ok (inp s') /\ tty_of (inp s') = tty_of (inp s) /\ printed [] s s') as Hnop.
  { exists s. split_and!; [done|done|done|by apply printed_refl]. }
  destruct e as [cs|n|]; cbn [event_step tty_step].
  - destruct (consoleintr_run cs s Hs Hi He) as (s' & E & [? ? ? _]). exists s'. unfold bind. by rewrite E.
  - destruct rd; [done|]. unfold consoleread. destruct (0 <? n); [|exists s; cbn; split_and!; [done|done|done|by apply printed_refl]].
    destruct (read_from_run false n (Z.to_nat n) [] s Hi) as (s' & E & H1 & H2 & H3 & H4).
    exists s'. unfold bind. rewrite E. destruct (tty_read _ _ _ _ _) as [r u]. cbn [fst snd] in *.
    split_and!; [done|done| |by apply H4]. rewrite (tty_eta (tty_of (inp s'))). by rewrite H2, H3.
  - destruct rd as [[[target n] got]|]; [|done].
    destruct (read_from_run false target n got s Hi) as (s' & E & H1 & H2 & H3 & H4).
    exists s'. unfold bind. rewrite E. destruct (tty_read _ _ _ _ _) as [r u]. cbn [fst snd] in *.
    split_and!; [done|done| |by apply H4]. rewrite (tty_eta (tty_of (inp s'))). by rewrite H2, H3.
Qed.

(** Property C23: the console driver implements the line editor. From any
    state of the ring, whatever the order of keys, reads and wakeups, the reads
    return what the editor returns, the ring holds what the editor holds, also
    when its 32-bit indices wrap, and what is echoed to the screen and the
    serial port is what the editor echoes; no operation faults or panics. *)
Theorem console_refines_tty es rd s :
  can_print s -> input_ok (inp s) -> Forall (fun e => match e with Keys cs => Forall is_u8 cs | _ => True end) es ->
  let '(out, t, echo) := tty_session es rd (tty_of (inp s)) in
  exists s', session es rd s = Done (out, s') /\ input_ok (inp s') /\ tty_of (inp s') = t /\ printed echo s s'.
Proof.
  revert rd s. induction es as [|e es IH]; intros rd s Hs Hi Hes; cbn [session tty_session].
  { exists s. split_and!; [done|done|done|by apply printed_refl]. }
  apply Forall_cons in Hes as [He Hes]. destruct (event_step_run e rd s Hs Hi He) as (s1 & E1 & Hi1 & T1 & P1).
  destruct (tty_step e rd (tty_of (inp s))) as [[[rd1 out1] t1] e1]. cbn [fst snd] in *.
  specialize (IH rd1 s1 (pr_can _ _ _ P1) Hi1 Hes). rewrite T1 in IH.
  destruct (tty_session es rd1 t1) as [[out2 t2] e2]. destruct IH as (s2 & E2 & Hi2 & T2 & P2).
  exists s2. unfold bind. rewrite E1, E2. split_and!; [done|done|done|by eapply printed_app].
Qed.

(** A console whose indices are about to wrap. *)
Definition demo_cons : cons :=
  {| inp := {| ibuf := replicate 128 0; ir := 2 ^ 32 - 2; iw := 2 ^ 32 - 2; ie := 2 ^ 32 - 2 |};
     scr := {| crtc_index := 0; crtc_hi := 7; crtc_lo := 100; crt := replicate 2000 0 |};
     uart := true; ser := []; locking := true; panicked := false; woken := false |}.
Definition demo_events : list event := [Read 10; Keys (str "lz" ++ [Ctl 72] ++ str "s" ++ [13; 120; 4]); Resume; Read 5; Read 5].

Lemma console_refines_tty_witness :
  exists s', session demo_events None demo_cons = Done ([(3, str "ls" ++ [10]); (1, str "x"); (0, [])], s') /\
    input_ok (inp s') /\ tty_of (inp s') = {| unread := []; line := [] |} /\
    ser s' = str "lz" ++ [8; 32; 8] ++ str "s" ++ [10; 120; 4].
Proof.
  pose proof (console_refines_tty demo_events None demo_cons) as H.
  assert (can_print demo_cons) as Hs by (split; [split; [done|done|done|cbn [scr demo_cons crt]; rewrite length_replicate; lia]|done]).
  assert (input_ok (inp demo_cons)) as Hi by (split; [split; [done|cbn; wrap_lia..|vm_compute; lia]|constructor]).
  specialize (H Hs Hi ltac:(constructor; [done|constructor; [by apply (bool_decide_eq_true_1 _)|by repeat constructor]])).
  replace (tty_session demo_events None (tty_of (inp demo_cons))) with
    ([(3, str "ls" ++ [10]); (1, str "x"); (0, [])], {| unread := []; line := [] |}, str "lz" ++ [BACKSPACE] ++ str "s" ++ [10; 120; 4])
    in H by (vm_compute; reflexivity).
  destruct H as (s' & E & Hi' & T & P). exists s'. split_and!; [exact E|exact Hi'|exact T|].
  rewrite (pr_ser _ _ _ P). reflexivity.
Defined.

(** *** Typing a line *)
Definition plain (c : Z) : Prop := is_u8 c /\ c ∉ [0; Ctl 80; Ctl 85; Ctl 72; 127; 13; NEWLINE; Ctl 68].

Lemma tty_key_plain c t :
  plain c -> (length (unread t ++ line t) < 127)%nat -> tty_key c t = ({| unread := unread t; line := line t ++ [c] |}, [c]).
Proof.
  intros [_ Hc] Hl. rewrite !not_elem_of_cons in Hc. destruct Hc as (H0 & H1 & H2 & H3 & H4 & H5 & H6 & H7 & _).
  unfold tty_key. rewrite (proj2 (Z.eqb_neq c (Ctl 80))), (proj2 (Z.eqb_neq c (Ctl 85))), (proj2 (Z.eqb_neq c (Ctl 72))), (proj2 (Z.eqb_neq c 127)), (proj2 (Z.eqb_neq c 0)), (proj2 (Z.eqb_neq c 13)) by done.
  cbv zeta. rewrite (proj2 (Z.eqb_neq c NEWLINE)), (proj2 (Z.eqb_neq c (Ctl 68))) by done. cbn [orb negb andb].
  rewrite bool_decide_eq_true_2, bool_decide_eq_false_2; [done| |lia]. rewrite app_assoc, length_app. cbn. lia.
Qed.
Lemma tty_keys_plain cs t :
  Forall plain cs -> (length (unread t ++ line t) + length cs <= 127)%nat ->
  tty_keys cs t = ({| unread := unread t; line := line t ++ cs |}, cs).
Proof.
  revert t. induction cs as [|c cs IH]; intros t Hp Hl; cbn [tty_keys].
  - rewrite app_nil_r. by destruct t.
  - apply Forall_cons in Hp as [Hc Hcs]. cbn in Hl. rewrite tty_key_plain by (done || lia).
    rewrite IH; cbn; [by rewrite <-app_assoc|done|]. rewrite app_assoc, length_app. cbn. lia.
Qed.
Lemma tty_keys_app cs1 cs2 t :
  tty_keys (cs1 ++ cs2) t =
  ((tty_keys cs2 (tty_keys cs1 t).1).1, (tty_keys cs1 t).2 ++ (tty_keys cs2 (tty_keys cs1 t).1).2).
Proof.
  revert t. induction cs1 as [|c cs1 IH]; intros t; cbn [app tty_keys fst snd]; [by destruct (tty_keys cs2 t)|].
  destruct (tty_key c t) as [t1 e1]. rewrite IH. destruct (tty_keys cs1 t1) as [t2 e2]. cbn [fst snd]. by rewrite <-app_assoc.
Qed.
Lemma tty_read_line killed target n got cs u :
  Forall plain cs -> (length cs < n)%nat ->
  tty_read killed target n got (cs ++ NEWLINE :: u) =
  (CRet (target - (Z.of_nat n - Z.of_nat (length cs) - 1)) (got ++ cs ++ [NEWLINE]), u).
Proof.
  revert n got. induction cs as [|c cs IH]; intros [|n] got Hp Hn; cbn in Hn; [lia| |lia|].
  - cbn. do 2 f_equal. lia.
  - apply Forall_cons in Hp as [[_ Hc] Hcs]. rewrite !not_elem_of_cons in Hc. destruct Hc as (_ & _ & _ & _ & _ & _ & H6 & H7 & _).
    cbn [app tty_read]. rewrite (proj2 (Z.eqb_neq c (Ctl 68))), (proj2 (Z.eqb_neq c NEWLINE)) by done. rewrite IH by (done || lia).
    rewrite <-app_assoc. cbn [app length]. do 2 f_equal. lia.
Qed.

(** A line that is typed with the return key is what the next read gives. *)
Lemma typed_line cs t n :
  Forall plain cs -> (length cs < 127)%nat -> unread t = [] -> line t = [] -> Z.of_nat (length cs) < n ->
  (tty_session [Keys (cs ++ [13]); Read n] None t).1.1 = [(Z.of_nat (length cs) + 1, cs ++ [NEWLINE])].
Proof.
  intros Hp Hl Hu Hln Hn. cbn [tty_session tty_step]. rewrite tty_keys_app, (tty_keys_plain cs t); [|done|rewrite Hu, Hln; cbn [app length]; lia].
  rewrite Hu, Hln. cbn [fst snd app tty_keys]. unfold tty_key. cbn [unread line app].
  change (13 =? Ctl 80) with false. change (13 =? Ctl 85) with false. change ((13 =? Ctl 72) || (13 =? 127)) with false.
  rewrite bool_decide_eq_true_2 by lia. cbn [negb andb orb Z.eqb Pos.eqb NEWLINE fst snd unread line].
  rewrite (proj2 (Z.ltb_lt 0 n)) by lia. change 10 with NEWLINE. rewrite tty_read_line by (done || lia). cbn [fst snd end_stretch app].
  do 3 f_equal. lia.
Qed.

(** ** Formatted output and panics *)

(** The words a format takes from the stack. *)
Fixpoint conversions (percent : bool) (fmt : list Z) : nat :=
  match fmt with
  | [] => 0
  | c :: fmt =>
      if negb percent then conversions (c =? PERCENT) fmt
      else (if (c =? 100) || (c =? 120) || (c =? 112) || (c =? 115) then 1 else 0) + conversions false fmt
  end.

(** What is printed reaches the screen and the serial port whole, and leaves
    the input alone. *)
Definition prints (c : M cons unit) (s : cons) : Prop :=
  exists l s', c s = Done (tt, s') /\ printed l s s' /\ inp s' = inp s.
Lemma prints_seq c k s : prints c s -> (forall s', can_print s' -> prints k s') -> prints (c;;; k) s.
Proof.
  intros (l & s1 & E1 & P1 & I1) Hk. destruct (Hk s1 (pr_can _ _ _ P1)) as (l2 & s2 & E2 & P2 & I2).
  exists (l ++ l2), s2. unfold bind. rewrite E1. split_and!; [done|by eapply printed_app|congruence].
Qed.
Lemma prints_putc c s : can_print s -> prints (consputc c) s.
Proof. intros Hs. destruct (consputc_run c s Hs) as (s' & ? & ? & ? & _). by exists [c], s'. Qed.
Lemma prints_puts l s : can_print s -> prints (consputs l) s.
Proof. intros Hs. destruct (consputs_run l s Hs) as (s' & ? & ? & ? & _). by exists l, s'. Qed.

(** With a word for every conversion, [cprintf] does not fault. *)
Lemma cprintf_prints string_of fmt percent args s :
  can_print s -> (conversions percent fmt <= length args)%nat -> prints (cprintf_from string_of percent fmt args) s.
Proof.
  revert percent args s. induction fmt as [|c fmt IH]; intros percent args s Hs Hn.
  { exists [], s. split_and!; [done|by apply printed_refl|done]. }
  cbn [cprintf_from conversions] in *. destruct percent; cbn [negb] in *.
  - destruct (c =? 100), ((c =? 120) || (c =? 112)) eqn:E2, (c =? 115); cbn [orb] in *;
      rewrite ?E2 in Hn; cbn [orb] in Hn;
      try (destruct args as [|a args]; cbn in Hn; [lia|]; apply prints_seq; [by apply prints_puts|]; intros; apply IH; [done|lia]).
    destruct (c =? PERCENT); [apply prints_seq; [by apply prints_putc|]; intros; by apply IH|].
    apply prints_seq; [by apply prints_putc|]. intros s' Hs'. apply prints_seq; [by apply prints_putc|]. intros. by apply IH.
  - destruct (c =? PERCENT); [by apply IH|]. apply prints_seq; [by apply prints_putc|]. intros. by apply IH.
Qed.

(** After a panic no processor prints again. *)
Lemma panic_stops string_of lapicid pcs msg s :
  can_print s -> conversions false msg = 0%nat ->
  exists s', panic_report string_of lapicid pcs msg s = Done (tt, s') /\ forall c, consputc c s' = Panic "panicked".
Proof.
  intros Hs Hm. assert (forall s, can_print s -> prints (panic_pcs string_of pcs) s) as Hpcs.
  { induction pcs as [|a pcs IH]; intros s0 H0; cbn [panic_pcs]; [exists [], s0; split_and!; [done|by apply printed_refl|done]|].
    apply prints_seq; [|done]. apply cprintf_prints; [done|]. by vm_compute; lia. }
  assert (prints (cprintf string_of (Some (str "lapicid %d: panic: ")) [lapicid];;; cprintf string_of (Some msg) [];;;
    cprintf string_of (Some [NEWLINE]) [];;; panic_pcs string_of pcs) (set_locking false s)) as (l & s' & E & P & _).
  { apply prints_seq; [apply cprintf_prints; [by destruct Hs|vm_compute; lia]|]. intros s1 H1.
    apply prints_seq; [apply cprintf_prints; [done|lia]|]. intros s2 H2.
    apply prints_seq; [apply cprintf_prints; [done|cbn; lia]|]. done. }
  exists (set_panicked s'). split; [|done].
  revert E. unfold panic_report, bind, modify. destruct (cprintf _ _ [lapicid] _) as [[[] ?]| | |]; [|done..].
  destruct (cprintf _ _ [] _) as [[[] ?]| | |]; [|done..]. destruct (cprintf _ _ [] _) as [[[] ?]| | |]; [|done..].
  by intros ->.
Qed.

(** ** Serial input *)
Lemma uart_chars_all fuel rx : Forall is_u8 rx -> (length rx < fuel)%nat -> uart_chars fuel true rx = rx.
Proof.
  revert rx. induction fuel as [|fuel IH]; intros [|b rx] Hr Hf; cbn in *; [lia|lia|done|].
  apply Forall_cons in Hr as [Hb Hr]. rewrite (proj2 (Z.ltb_ge b 0)) by wrap_lia. by rewrite IH by (done || lia).
Qed.
(** What comes over the serial line is typed at the console, when there is
    one. *)
Lemma uartintr_run rx s :
  can_print s -> input_ok (inp s) -> Forall is_u8 rx ->
  exists d s', uartintr rx s = Done (d, s') /\
    refines (tty_keys (if uart s then rx else []) (tty_of (inp s))).1 (tty_keys (if uart s then rx else []) (tty_of (inp s))).2 s s'.
Proof.
  intros Hs Hi Hr. unfold uartintr.
  replace (uart_chars (S (length rx)) (uart s) rx) with (if uart s then rx else []) by (destruct (uart s); [by rewrite uart_chars_all by (done || lia)|done]).
  destruct (consoleintr_run (if uart s then rx else []) s Hs Hi) as (s' & E & HR); [by destruct (uart s)|]. by eexists _, s'.
Qed.
