(* ===== verification/Kbd.v ===== *)
(** * Kbd: the keyboard driver of kbd.c

    Scan codes come from the data port one at a time; the driver keeps which
    modifier keys are down and which locks are on, and gives the characters to
    the console. *)

From stdpp Require Import base list numbers strings.
From S2P Require Import Prelude Bytes Console.

Local Open Scope Z_scope.
Local Open Scope os_scope.

Definition SHIFT : Z := Z.shiftl 1 0.
Definition CTL : Z := Z.shiftl 1 1.
Definition ALT : Z := Z.shiftl 1 2.
Definition CAPSLOCK : Z := Z.shiftl 1 3.
Definition NUMLOCK : Z := Z.shiftl 1 4.
Definition SCROLLLOCK : Z := Z.shiftl 1 5.
Definition E0ESC : Z := Z.shiftl 1 6.

(** An initialiser: the first entries, then entries by index; the rest is 0. *)
Definition table (first : list Z) (special : list (Z * Z)) (i : Z) : Z :=
  match list_find (fun x => x.1 = i) special with
  | Some (_, x) => x.2
  | None => nth (Z.to_nat i) first 0
  end.

Definition shiftcode : Z -> Z := table [] [(0x1D, CTL); (0x2A, SHIFT); (0x36, SHIFT); (0x38, ALT); (0x9D, CTL); (0xB8, ALT)].
Definition togglecode : Z -> Z := table [] [(0x3A, CAPSLOCK); (0x45, NUMLOCK); (0x46, SCROLLLOCK)].
Definition normalmap : Z -> Z := table
  [0; 27; 49; 50; 51; 52; 53; 54;
   55; 56; 57; 48; 45; 61; 8; 9;
   113; 119; 101; 114; 116; 121; 117; 105;
   111; 112; 91; 93; 10; 0; 97; 115;
   100; 102; 103; 104; 106; 107; 108; 59;
   39; 96; 0; 92; 122; 120; 99; 118;
   98; 110; 109; 44; 46; 47; 0; 42;
   0; 32; 0; 0; 0; 0; 0; 0;
   0; 0; 0; 0; 0; 0; 0; 55;
   56; 57; 45; 52; 53; 54; 43; 49;
   50; 51; 48; 46; 0; 0; 0; 0]
  [(0x9c, 10); (0xb5, 47); (0xc8, 226); (0xd0, 227); (0xc9, 230); (0xd1, 231); (0xcb, 228); (0xcd, 229); (0x97, 224); (0xcf, 225); (0xd2, 232); (0xd3, 233)].
Definition shiftmap : Z -> Z := table
  [0; 27; 33; 64; 35; 36; 37; 94;
   38; 42; 40; 41; 95; 43; 8; 9;
   81; 87; 69; 82; 84; 89; 85; 73;
   79; 80; 123; 125; 10; 0; 65; 83;
   68; 70; 71; 72; 74; 75; 76; 58;
   34; 126; 0; 124; 90; 88; 67; 86;
   66; 78; 77; 60; 62; 63; 0; 42;
   0; 32; 0; 0; 0; 0; 0; 0;
   0; 0; 0; 0; 0; 0; 0; 55;
   56; 57; 45; 52; 53; 54; 43; 49;
   50; 51; 48; 46; 0; 0; 0; 0]
  [(0x9c, 10); (0xb5, 47); (0xc8, 226); (0xd0, 227); (0xc9, 230); (0xd1, 231); (0xcb, 228); (0xcd, 229); (0x97, 224); (0xcf, 225); (0xd2, 232); (0xd3, 233)].
Definition ctlmap : Z -> Z := table
  [0; 0; 0; 0; 0; 0; 0; 0;
   0; 0; 0; 0; 0; 0; 0; 0;
   17; 23; 5; 18; 20; 25; 21; 9;
   15; 16; 0; 0; 13; 0; 1; 19;
   4; 6; 7; 8; 10; 11; 12; 0;
   0; 0; 0; 28; 26; 24; 3; 22;
   2; 14; 13; 0; 0; 239; 0; 0]
  [(0x9c, 13); (0xb5, 239); (0xc8, 226); (0xd0, 227); (0xc9, 230); (0xd1, 231); (0xcb, 228); (0xcd, 229); (0x97, 224); (0xcf, 225); (0xd2, 232); (0xd3, 233)].

(** [shift], and the scan codes the controller has ready. *)
Record kbd := { kshift : Z; kport : list Z }.

Definition charcode (k : Z) : Z -> Z :=
  if k =? 0 then normalmap else if k =? 1 then shiftmap else ctlmap.
Definition swap_case (c : Z) : Z :=
  if (97 <=? c) && (c <=? 122) then c + (65 - 97)
  else if (65 <=? c) && (c <=? 90) then c + (97 - 65)
  else c.

(** [kbdgetc] on one scan code. *)
Definition kbd_code (data shift : Z) : Z * Z :=
  if data =? 0xE0 then (0, Z.lor shift E0ESC)
  else if negb (Z.land data 0x80 =? 0) then
    let data := if negb (Z.land shift E0ESC =? 0) then data else Z.land data 0x7F in
    (0, Z.ldiff shift (Z.lor (shiftcode data) E0ESC))
  else
    let '(data, shift) :=
      if negb (Z.land shift E0ESC =? 0) then (Z.lor data 0x80, Z.ldiff shift E0ESC) else (data, shift) in
    let shift := Z.lor shift (shiftcode data) in
    let shift := Z.lxor shift (togglecode data) in
    let c := charcode (Z.land shift (Z.lor CTL SHIFT)) data in
    (if negb (Z.land shift CAPSLOCK =? 0) then swap_case c else c, shift).

Definition kbdgetc (k : kbd) : Z * kbd :=
  match kport k with
  | [] => (-1, k)
  | data :: rest =>
      let '(c, shift) := kbd_code data (kshift k) in (c, {| kshift := shift; kport := rest |})
  end.

(** What [kbdgetc] returns until there is nothing left. *)
Fixpoint kbd_chars (codes : list Z) (shift : Z) : list Z * Z :=
  match codes with
  | [] => ([], shift)
  | data :: codes =>
      let '(c, shift) := kbd_code data shift in
      let '(cs, shift) := kbd_chars codes shift in (c :: cs, shift)
  end.
Definition kbdintr (k : kbd) : M cons (bool * kbd) :=
  let '(cs, shift) := kbd_chars (kport k) (kshift k) in
  let! d := consoleintr cs in
  ret (d, {| kshift := shift; kport := [] |}).

(** ** What the driver gives the console *)

Lemma table_u8 first special i :
  Forall is_u8 first -> Forall (fun x => is_u8 x.2) special -> is_u8 (table first special i).
Proof.
  intros Hf Hs. unfold table. destruct (list_find _ _) as [[j x]|] eqn:E.
  - apply list_find_Some in E as (E & _ & _). by eapply (Forall_lookup_1 _ _ _ _ Hs).
  - rewrite nth_lookup. destruct (first !! Z.to_nat i) eqn:E'; [by eapply (Forall_lookup_1 _ _ _ _ Hf)|done].
Qed.
Lemma charcode_u8 k d : is_u8 (charcode k d).
Proof.
  unfold charcode. destruct (k =? 0); [|destruct (k =? 1)]; apply table_u8; by apply (bool_decide_eq_true_1 _).
Qed.
Lemma swap_case_u8 c : is_u8 c -> is_u8 (swap_case c).
Proof. intros Hc. unfold swap_case. zcases; cbn; wrap_lia. Qed.
(** The characters are bytes, whatever comes from the port. *)
Lemma kbd_code_u8 d shift : is_u8 (kbd_code d shift).1.
Proof.
  unfold kbd_code. destruct (d =? 0xE0); [done|]. destruct (negb (Z.land d 0x80 =? 0)); [done|].
  destruct (negb (Z.land shift E0ESC =? 0)); cbn; destruct (negb _); auto using charcode_u8, swap_case_u8.
Qed.
Lemma kbd_chars_u8 ds shift : Forall is_u8 (kbd_chars ds shift).1.
Proof.
  revert shift. induction ds as [|d ds IH]; intros shift; [constructor|]. cbn.
  pose proof (kbd_code_u8 d shift) as Hc. destruct (kbd_code d shift) as [c sh]. specialize (IH sh). destruct (kbd_chars ds sh).
  by constructor.
Qed.

(** An interrupt of the keyboard is an event for the line editor. *)
Lemma kbdintr_run k s :
  can_print s -> input_ok (inp s) ->
  let cs := (kbd_chars (kport k) (kshift k)).1 in
  exists d k' s', kbdintr k s = Done ((d, k'), s') /\ kport k' = [] /\
    refines (tty_keys cs (tty_of (inp s))).1 (tty_keys cs (tty_of (inp s))).2 s s'.
Proof.
  intros Hs Hi cs. unfold kbdintr. pose proof (kbd_chars_u8 (kport k) (kshift k)) as Hu. fold cs in Hu.
  destruct (kbd_chars (kport k) (kshift k)) as [cs' sh] eqn:E. cbn in cs. subst cs.
  destruct (consoleintr_run cs' s Hs Hi Hu) as (s' & E' & HR). unfold bind. rewrite E'. by eexists _, _, s'.
Qed.

(** ** The keys *)

Definition upto (n : nat) : list Z := Z.of_nat <$> seq 0 n.
Lemma in_upto d n : 0 <= d < Z.of_nat n -> d ∈ upto n.
Proof. intros H. apply list_elem_of_fmap. exists (Z.to_nat d). split; [lia|]. apply elem_of_seq. lia. Qed.
(** A claim about all small numbers, by computation. *)
Lemma forall_upto n (P : Z -> bool) : forallb P (upto n) = true -> forall d, 0 <= d < Z.of_nat n -> P d = true.
Proof. rewrite forallb_forall. intros H d Hd. apply H, list_elem_of_In, in_upto, Hd. Qed.

Definition is_letter (c : Z) : bool := (97 <=? c) && (c <=? 122).
Definition letter_char (c shift : Z) : Z :=
  if Z.testbit shift 1 then Ctl (c - 32)
  else if xorb (Z.testbit shift 0) (Z.testbit shift 3) then c - 32 else c.

(** A letter key gives the letter, its capital with exactly one of Shift and
    Caps Lock, its control character with Control. *)
Lemma letter_key d shift :
  0 <= d < 128 -> 0 <= shift < 64 -> is_letter (normalmap d) = true ->
  kbd_code d shift = (letter_char (normalmap d) shift, shift).
Proof.
  intros Hd Hs Hl.
  assert (forallb (fun d => forallb (fun s => negb (is_letter (normalmap d)) ||
    bool_decide (kbd_code d s = (letter_char (normalmap d) s, s))) (upto 64)) (upto 128) = true) as H by (vm_compute; reflexivity).
  pose proof (forall_upto _ _ (forall_upto _ _ H d Hd) shift Hs) as H'. cbv beta in H'. rewrite Hl in H'. cbn [negb orb] in H'.
  by apply bool_decide_eq_true in H'.
Qed.

(** Pressing and releasing a modifier leaves it up and the rest as it was. *)
Lemma modifier_key d shift :
  d ∈ [0x1D; 0x2A; 0x36; 0x38] -> 0 <= shift < 64 ->
  let down := kbd_code d shift in
  let up := kbd_code (Z.lor d 0x80) down.2 in
  down = (0, Z.lor shift (shiftcode d)) /\ up = (0, Z.ldiff shift (shiftcode d)).
Proof.
  intros Hd Hs.
  assert (forallb (fun d => forallb (fun s => bool_decide (kbd_code d s = (0, Z.lor s (shiftcode d)) /\
    kbd_code (Z.lor d 0x80) (kbd_code d s).2 = (0, Z.ldiff s (shiftcode d)))) (upto 64)) [0x1D; 0x2A; 0x36; 0x38] = true) as H by (vm_compute; reflexivity).
  rewrite forallb_forall in H. specialize (H d (proj1 (list_elem_of_In _ _) Hd)).
  pose proof (forall_upto _ _ H shift Hs) as H'. cbv beta in H'. by apply bool_decide_eq_true in H'.
Qed.

(** Typing [Ls], Enter: Shift down, L, Shift up, S, Enter. *)
Lemma type_ls : (kbd_chars [0x2A; 0x26; 0xA6; 0xAA; 0x1F; 0x9F; 0x1C; 0x9C] 0).1 = [0; 76; 0; 0; 115; 0; 10; 0].
Proof. reflexivity. Qed.
