(* ===== verification/Sh.v ===== *)
(** * Sh: the shell (sh.c)

    The parser works on positions in the line, as the C code works on pointers
    into the buffer: a parsed command holds positions, and [nulterminate] then
    writes a NUL behind each word. [runcmd] is modelled by the programs it
    starts, each with the descriptors it gets. *)

From stdpp Require Import base list numbers strings sets.
From S2P Require Import Prelude Bytes Params KString Ulib.

Local Open Scope Z_scope.
Local Open Scope os_scope.

(** ** Parsed commands *)

Inductive cmd :=
| EXEC (argv : list (nat * nat))             (* argv and eargv *)
| REDIR (c : cmd) (file efile : nat) (mode fd : Z)
| PIPE (left right : cmd)
| LIST (left right : cmd)
| BACK (c : cmd).

Definition MAXARGS : nat := 10.

(** ** Tokens *)

(** Space, tab, carriage return, newline, vertical tab. *)
Definition whitespace : list Z := [32; 9; 13; 10; 11].
Definition symbols : list Z := str "<|>&;()".
Definition LT : Z := 60.
Definition GT : Z := 62.
Definition PLUS : Z := 43.
Definition WORD : Z := 97.

(** [strchr(s, c) != 0]. *)
Definition strchr (s : list Z) (c : Z) : bool := bool_decide (c ∈ s).
Definition is_space (c : Z) : bool := strchr whitespace c.
Definition word_char (c : Z) : bool := negb (strchr whitespace c) && negb (strchr symbols c).

(** How many characters at the front satisfy [f]. *)
Fixpoint span (f : Z -> bool) (l : list Z) : nat :=
  match l with
  | c :: l => if f c then S (span f l) else 0
  | [] => 0
  end.

Definition O_WRCREATE : Z := Z.lor O_WRONLY O_CREATE.

(** ** The language *)

(** A command as the user means it. *)
Inductive ast :=
| Exec (args : list (list Z))
| Redir (c : ast) (file : list Z) (mode fd : Z)
| Pipe (l r : ast)
| List (l r : ast)
| Back (c : ast).

(** The string at [q] in the buffer, and the command that the buffer spells. *)
Fixpoint cstring (l : list Z) : list Z :=
  match l with
  | c :: l => if c =? 0 then [] else c :: cstring l
  | [] => []
  end.
Definition string_at (buf : list Z) (q : nat) : list Z := cstring (drop q buf).
Fixpoint denote (buf : list Z) (c : cmd) : ast :=
  match c with
  | EXEC argv => Exec ((fun a : nat * nat => string_at buf a.1) <$> argv)
  | REDIR c file _ mode fd => Redir (denote buf c) (string_at buf file) mode fd
  | PIPE l r => Pipe (denote buf l) (denote buf r)
  | LIST l r => List (denote buf l) (denote buf r)
  | BACK c => Back (denote buf c)
  end.

(** Tokens; a greater-than sign is written once or twice. *)
Inductive tok := TWord (w : list Z) | TSym (c : Z) | TGt.

Definition redir_tok (mode fd : Z) : tok := if fd =? 0 then TSym LT else TGt.
Definition sym (s : string) : tok := TSym (nth 0 (str s) 0).

(** The command in the grammar of the parser: a line is commands in the
    background separated by semicolons, these are pipelines, and these are
    words or blocks with redirections. *)
Inductive level := LLine | LBack | LPipe | LExec.
Definition block (ts : list tok) : list tok := sym "(" :: ts ++ [sym ")"].
Fixpoint toks (lv : level) (c : ast) : list tok :=
  match c with
  | Exec args => TWord <$> args
  | Redir c file mode fd => toks LExec c ++ [redir_tok mode fd; TWord file]
  | Pipe l r =>
      let ts := toks LExec l ++ sym "|" :: toks LPipe r in
      match lv with LLine | LBack | LPipe => ts | LExec => block ts end
  | Back c =>
      let ts := toks LBack c ++ [sym "&"] in
      match lv with LLine | LBack => ts | LPipe | LExec => block ts end
  | List l r =>
      let ts := toks LBack l ++ sym ";" :: toks LLine r in
      match lv with LLine => ts | _ => block ts end
  end.

Definition word_ok (w : list Z) : Prop := w <> [] /\ Forall (fun c => word_char c = true /\ c <> 0) w.
Fixpoint ast_ok (c : ast) : Prop :=
  match c with
  | Exec args => Forall word_ok args /\ (length args < MAXARGS)%nat
  | Redir c file mode fd => ast_ok c /\ word_ok file /\
      ((mode = O_RDONLY /\ fd = 0) \/ (mode = O_WRCREATE /\ fd = 1))
  | Pipe l r | List l r => ast_ok l /\ ast_ok r
  | Back c => ast_ok c
  end.

(** [spells ts l]: the characters [l] are the tokens [ts] with white space
    between them, which is needed between two words. *)
Inductive spells : list tok -> list Z -> Prop :=
| spells_nil w : Forall (fun c => is_space c = true) w -> spells [] w
| spells_sym w c ts l :
    Forall (fun c => is_space c = true) w -> c ∈ str "|();&<" -> spells ts l ->
    spells (TSym c :: ts) (w ++ c :: l)
| spells_gt w ts l :
    Forall (fun c => is_space c = true) w -> head l <> Some GT -> spells ts l ->
    spells (TGt :: ts) (w ++ GT :: l)
| spells_gtgt w ts l :
    Forall (fun c => is_space c = true) w -> spells ts l ->
    spells (TGt :: ts) (w ++ GT :: GT :: l)
| spells_word w x ts l :
    Forall (fun c => is_space c = true) w -> word_ok x ->
    (forall c, head l = Some c -> word_char c = false) -> spells ts l ->
    spells (TWord x :: ts) (w ++ x ++ l).


(** ** The parser *)

Section parser.
(** The line, up to its NUL; [es] is its end. *)
Context (line : list Z).
Definition es : nat := length line.
Definition char_at (p : nat) : Z := nth p line 0.
Definition skip (f : Z -> bool) (p : nat) : nat := (p + span f (drop p line))%nat.

(** The token, its first character and its end, and the new position. *)
Definition gettoken (p : nat) : Z * nat * nat * nat :=
  let q := skip is_space p in
  let c := char_at q in
  let '(ret, e) :=
    if c =? 0 then (c, q)
    else if strchr (str "|();&<") c then (c, S q)
    else if c =? GT then if char_at (S q) =? GT then (PLUS, S (S q)) else (c, S q)
    else (WORD, skip word_char q) in
  (ret, q, e, skip is_space e).

Definition peek (toks : list Z) : M nat bool := fun p =>
  let p := skip is_space p in
  Done (negb (char_at p =? 0) && strchr toks (char_at p), p).
Definition next : M nat (Z * nat * nat) := fun p =>
  let '(tok, q, e, p) := gettoken p in Done ((tok, q, e), p).

Fixpoint parseredirs (fuel : nat) (c : cmd) : M nat cmd :=
  let! more := peek (str "<>") in
  if more then
    match fuel with
    | O => fault
    | S fuel =>
        let! ' (tok, _, _) := next in
        let! ' (w, q, e) := next in
        if negb (w =? WORD) then panic "missing file for redirection"
        else parseredirs fuel
          (if tok =? LT then REDIR c q e O_RDONLY 0
           else if tok =? GT then REDIR c q e O_WRCREATE 1
           else if tok =? PLUS then REDIR c q e O_WRCREATE 1
           else c)
    end
  else ret c.

(** [cmd->argv[argc] = q; cmd->eargv[argc] = eq], on the command that [ret]
    wraps in redirections. *)
Fixpoint add_arg (a : nat * nat) (c : cmd) : cmd :=
  match c with
  | EXEC argv => EXEC (argv ++ [a])
  | REDIR c file efile mode fd => REDIR (add_arg a c) file efile mode fd
  | c => c
  end.

Fixpoint parseargs (fuel : nat) (argc : nat) (c : cmd) : M nat cmd :=
  let! stop := peek (str "|)&;") in
  if stop then ret c
  else
    match fuel with
    | O => fault
    | S fuel =>
        let! ' (tok, q, e) := next in
        if tok =? 0 then ret c
        else if negb (tok =? WORD) then panic "syntax"
        else if (MAXARGS <=? S argc)%nat then panic "too many args"
        else
          let! c := parseredirs (S es) (add_arg (q, e) c) in
          parseargs fuel (S argc) c
    end.

Fixpoint parsebacks (fuel : nat) (c : cmd) : M nat cmd :=
  let! more := peek (str "&") in
  if more then
    match fuel with
    | O => fault
    | S fuel => next;;; parsebacks fuel (BACK c)
    end
  else ret c.

Fixpoint parseline (fuel : nat) : M nat cmd :=
  match fuel with
  | O => fault
  | S fuel =>
      let! c := parsepipe fuel in
      let! c := parsebacks (S es) c in
      let! more := peek (str ";") in
      if more then
        next;;;
        let! r := parseline fuel in
        ret (LIST c r)
      else ret c
  end
with parsepipe (fuel : nat) : M nat cmd :=
  match fuel with
  | O => fault
  | S fuel =>
      let! c := parseexec fuel in
      let! more := peek (str "|") in
      if more then
        next;;;
        let! r := parsepipe fuel in
        ret (PIPE c r)
      else ret c
  end
with parseblock (fuel : nat) : M nat cmd :=
  match fuel with
  | O => fault
  | S fuel =>
      let! open := peek (str "(") in
      if negb open then panic "parseblock"
      else
        next;;;
        let! c := parseline fuel in
        let! close := peek (str ")") in
        if negb close then panic "syntax - missing )"
        else next;;; parseredirs (S es) c
  end
with parseexec (fuel : nat) : M nat cmd :=
  match fuel with
  | O => fault
  | S fuel =>
      let! block := peek (str "(") in
      if block then parseblock fuel
      else
        let! c := parseredirs (S es) (EXEC []) in
        parseargs (S es) 0 c
  end.

(** Writes a NUL behind every word of the command. *)
Fixpoint nulterminate (c : cmd) (buf : list Z) : list Z :=
  match c with
  | EXEC argv => fold_left (fun b (a : nat * nat) => <[a.2 := 0]> b) argv buf
  | REDIR c _ efile _ _ => <[efile := 0]> (nulterminate c buf)
  | PIPE l r => nulterminate r (nulterminate l buf)
  | LIST l r => nulterminate r (nulterminate l buf)
  | BACK c => nulterminate c buf
  end.

(** The line up to its end. *)
Definition parseall : M nat cmd :=
  let! c := parseline (4 * S es) in
  peek [];;;
  let! p := gets (fun p => p) in
  if bool_decide (p = es) then ret c else panic "syntax".

(** The command and the buffer. *)
Definition parsecmd : outcome (cmd * list Z) :=
  match parseall 0%nat with
  | Done (c, _) => Done (c, nulterminate c (line ++ [0]))
  | Panic m => Panic m
  | Fault => Fault
  | Asleep => Asleep
  end.

(** ** Lemmas on the lexer *)

Lemma span_app f w l : Forall (fun c => f c = true) w -> span f (w ++ l) = (length w + span f l)%nat.
Proof. induction 1 as [|c w Hc _ IH]; [done|]. cbn. by rewrite Hc, IH. Qed.
Lemma span_stop f l : (forall c, head l = Some c -> f c = false) -> span f l = 0%nat.
Proof. destruct l as [|c l]; [done|]. intros Hc. cbn. by rewrite Hc. Qed.
Lemma span_le f l : (span f l <= length l)%nat.
Proof. induction l as [|c l IH]; cbn; [done|]. destruct (f c); lia. Qed.
Lemma skip_ge f p : (p <= skip f p)%nat.
Proof. unfold skip. lia. Qed.
Lemma skip_le f p : (p <= es)%nat -> (skip f p <= es)%nat.
Proof. unfold skip, es. intros Hp. pose proof (span_le f (drop p line)). rewrite length_drop in *. lia. Qed.
Lemma char_at_drop p : char_at p = nth 0 (drop p line) 0.
Proof. unfold char_at. rewrite nth_skipn. f_equal. lia. Qed.

(** The line from [p] on spells [ts]. *)
Definition at_toks (p : nat) (ts : list tok) : Prop := (p <= es)%nat /\ spells ts (drop p line).

(** The first character of the tokens. *)
Definition first (ts : list tok) : Z :=
  match ts with
  | [] => 0
  | TWord x :: _ => nth 0 x 0
  | TSym c :: _ => c
  | TGt :: _ => GT
  end.

(** The characters [l] begin with the first of the tokens [ts]. *)
Definition starts (ts : list tok) (l : list Z) : Prop :=
  match ts with
  | [] => l = []
  | TSym c :: ts => c ∈ str "|();&<" /\ exists k, l = [c] ++ k /\ spells ts k
  | TGt :: ts => exists k, spells ts k /\ ((l = [GT] ++ k /\ head k <> Some GT) \/ l = [GT; GT] ++ k)
  | TWord x :: ts => word_ok x /\ exists k, l = x ++ k /\ spells ts k /\
      (forall c, head k = Some c -> word_char c = false)
  end.

Lemma starts_spells ts l : starts ts l -> spells ts l.
Proof.
  assert (Forall (fun c => is_space c = true) []) as H0 by constructor.
  destruct ts as [|[x|c|] ts]; cbn.
  - intros ->. by constructor.
  - intros (Hx & k & -> & Hs & Hend). by apply (spells_word []).
  - intros (Hc & k & -> & Hs). by apply (spells_sym []).
  - intros (k & Hs & [[-> Hg] | ->]); [by apply (spells_gt [])|by apply (spells_gtgt [])].
Qed.

Lemma starts_first ts l :
  starts ts l -> nth 0 l 0 = first ts /\ (forall c, head l = Some c -> is_space c = false).
Proof.
  destruct ts as [|[x|c|] ts]; cbn.
  - by intros ->.
  - intros ((Hne & Hx) & k & -> & _). destruct Hx as [|c x [Hc _] Hx]; [done|]. split; [done|]. intros ? [= <-].
    unfold word_char in Hc. unfold is_space. by destruct (strchr whitespace c).
  - intros (Hc & k & -> & _). split; [done|]. intros ? [= <-]. revert c Hc. by apply Forall_forall; repeat constructor.
  - intros (k & _ & [[-> _] | ->]); (split; [done|]; by intros ? [= <-]).
Qed.

Lemma spells_starts ts l :
  spells ts l -> exists w l', l = w ++ l' /\ Forall (fun c => is_space c = true) w /\ starts ts l'.
Proof.
  intros [w Hw|w c ts' k Hw Hc Hs|w ts' k Hw Hg Hs|w ts' k Hw Hs|w x ts' k Hw Hx Hend Hs]; exists w.
  - exists []. by rewrite app_nil_r.
  - exists (c :: k). cbn. eauto 8.
  - exists (GT :: k). cbn. eauto 10.
  - exists (GT :: GT :: k). cbn. eauto 10.
  - exists (x ++ k). cbn. eauto 10.
Qed.

Lemma skip_toks p ts :
  at_toks p ts -> at_toks (skip is_space p) ts /\ char_at (skip is_space p) = first ts /\
    (p <= skip is_space p)%nat /\ starts ts (drop (skip is_space p) line).
Proof.
  intros [Hp Hs]. destruct (spells_starts _ _ Hs) as (w & l & Hd & Hw & Hl).
  destruct (starts_first _ _ Hl) as [Hf Hh].
  assert (skip is_space p = (p + length w)%nat) as E.
  { unfold skip. rewrite Hd, span_app, (span_stop _ _ Hh) by done. lia. }
  assert (drop (skip is_space p) line = l) as El by (by rewrite E, <- drop_drop, Hd, drop_app_length).
  split_and!; [split; [by apply skip_le|]|by rewrite char_at_drop, El|apply skip_ge|by rewrite El].
  rewrite El. by apply starts_spells.
Qed.

Lemma peek_toks tk p ts :
  at_toks p ts -> wp (peek tk) (fun b p' => b = negb (first ts =? 0) && strchr tk (first ts) /\
    at_toks p' ts /\ (p <= p')%nat) p.
Proof. intros (Hs & Hf & Hp & _)%skip_toks. unfold wp, peek. by rewrite Hf. Qed.

Lemma drop_tail p x l : (p <= es)%nat -> drop p line = x ++ l -> (p + length x <= es)%nat /\ drop (p + length x) line = l.
Proof.
  intros Hp Hd. assert (length (drop p line) = (es - p)%nat) as Hl by apply length_drop.
  rewrite Hd, length_app in Hl. split; [lia|]. by rewrite <- drop_drop, Hd, drop_app_length.
Qed.

(** After the characters [x] of a token, and the white space behind them. *)
Lemma after_token q x l ts :
  (q <= es)%nat -> drop q line = x ++ l -> spells ts l ->
  at_toks (skip is_space (q + length x)) ts /\ (q + length x <= skip is_space (q + length x))%nat.
Proof.
  intros Hq Hd Hs. destruct (drop_tail _ _ _ Hq Hd) as [Hle Hd'].
  destruct (skip_toks (q + length x) ts) as (? & _ & ? & _); [|done]. split; [done|]. by rewrite Hd'.
Qed.

Lemma next_end p : at_toks p [] -> wp next (fun r p' => r.1.1 = 0 /\ at_toks p' [] /\ (p <= p')%nat) p.
Proof.
  intros Hs. destruct (skip_toks p [] Hs) as (Hq & Hc & Hp & _). unfold wp, next, gettoken. rewrite Hc. cbn [Z.eqb first].
  destruct (skip_toks _ [] Hq) as (? & _ & ? & _). split_and!; [done|done|lia].
Qed.

Lemma next_sym p c ts :
  at_toks p (TSym c :: ts) -> wp next (fun r p' => r.1.1 = c /\ at_toks p' ts /\ (p < p')%nat) p.
Proof.
  intros Hs. destruct (skip_toks p _ Hs) as ([Hq _] & Hc & Hp & Hin & k & Hd & Hk).
  unfold wp, next, gettoken. rewrite Hc. cbn [first].
  rewrite (proj2 (Z.eqb_neq c 0)) by (by intros ->; apply (bool_decide_eq_true_2 _) in Hin).
  unfold strchr. rewrite bool_decide_eq_true_2 by done. cbn [fst].
  destruct (after_token _ _ _ _ Hq Hd Hk) as [Ha Hle]. rewrite Nat.add_1_r in *. split_and!; [done|done|lia].
Qed.

Lemma next_gt p ts :
  at_toks p (TGt :: ts) -> wp next (fun r p' => (r.1.1 = GT \/ r.1.1 = PLUS) /\ at_toks p' ts /\ (p < p')%nat) p.
Proof.
  intros Hs. destruct (skip_toks p _ Hs) as ([Hq _] & Hc & Hp & k & Hk & Hd).
  unfold wp, next, gettoken. rewrite Hc. change (strchr (str "|();&<") (first (TGt :: ts))) with false. cbn [first Z.eqb].
  change (GT =? 0) with false. rewrite Z.eqb_refl. cbn iota.
  rewrite char_at_drop. destruct Hd as [[Hd Hh]|Hd].
  - destruct (drop_tail _ _ _ Hq Hd) as [Hle Hd']. rewrite Nat.add_1_r in Hd'. rewrite Hd'.
    rewrite (proj2 (Z.eqb_neq _ _)) by (destruct k as [|c k]; cbn in *; [done|congruence]). cbn [fst].
    destruct (after_token _ _ _ _ Hq Hd Hk) as [Ha Hle']. rewrite Nat.add_1_r in *. split_and!; [by left|done|lia].
  - replace (drop (S (skip is_space p)) line) with (GT :: k)
      by (rewrite <- Nat.add_1_r, <- drop_drop, Hd; done).
    cbn [nth]. rewrite Z.eqb_refl. cbn [fst].
    destruct (after_token _ _ _ _ Hq Hd Hk) as [Ha Hle']. rewrite Nat.add_comm in *. split_and!; [by right|done|cbn in *; lia].
Qed.

(** The characters from [q] to [e] are the word [x], and it ends there. *)
Definition word_at (x : list Z) (q e : nat) : Prop :=
  (e <= es)%nat /\ (q + length x)%nat = e /\ (exists k, drop q line = x ++ k) /\
  (forall c, head (drop e line) = Some c -> word_char c = false) /\ word_ok x.

Lemma next_word p x ts :
  at_toks p (TWord x :: ts) ->
  wp next (fun r p' => r.1.1 = WORD /\ word_at x r.1.2 r.2 /\ at_toks p' ts /\ (p < p')%nat) p.
Proof.
  intros Hs. destruct (skip_toks p _ Hs) as ([Hq _] & Hc & Hp & Hx & k & Hd & Hk & Hend).
  unfold wp, next, gettoken. rewrite Hc.
  assert (skip word_char (skip is_space p) = (skip is_space p + length x)%nat) as E.
  { unfold skip at 1. rewrite Hd, span_app, (span_stop _ _ Hend); [lia|]. destruct Hx as [_ Hx].
    eapply Forall_impl; [exact Hx|]. by intros c [? _]. }
  destruct (after_token _ _ _ _ Hq Hd Hk) as [Ha Hle]. destruct (drop_tail _ _ _ Hq Hd) as [Hle' Hd'].
  assert (x <> []) as Hne by apply Hx. assert (0 < length x)%nat by (destruct x; cbn; [done|lia]).
  assert (word_char (first (TWord x :: ts)) = true /\ first (TWord x :: ts) <> 0) as [Hw H0].
  { destruct Hx as [_ Hx]. by destruct Hx as [|c x [? ?] _]. }
  rewrite (proj2 (Z.eqb_neq _ _)) by done.
  assert (forall c, word_char c = true -> strchr (str "|();&<") c = false /\ (c =? GT) = false) as Hsym.
  { intros c. unfold word_char. intros [_ Hn%negb_true_iff]%andb_prop. unfold strchr in *.
    apply bool_decide_eq_false in Hn. split.
    - apply bool_decide_eq_false. intros Hin. apply Hn. clear Hn. revert c Hin. apply Forall_forall.
      by apply (bool_decide_eq_true_1 _).
    - apply Z.eqb_neq. intros ->. apply Hn. by apply (bool_decide_eq_true_1 _). }
  destruct (Hsym _ Hw) as [-> ->]. rewrite E. cbn [fst snd]. split_and!; [done| |done|lia].
  split_and!; [done|done|by exists k|by rewrite Hd'|done].
Qed.

(** ** The parser on the tokens of a command *)

(** The parsed command [k] stands for [a]. *)
Fixpoint rep (k : cmd) (a : ast) : Prop :=
  match k, a with
  | EXEC argv, Exec args => Forall2 (fun v x => word_at x v.1 v.2) argv args
  | REDIR k q e mode fd, Redir a x mode' fd' => rep k a /\ word_at x q e /\ mode = mode' /\ fd = fd'
  | PIPE l r, Pipe l' r' | LIST l r, List l' r' => rep l l' /\ rep r r'
  | BACK k, Back a => rep k a
  | _, _ => False
  end.

Definition parses (a : ast) (rest : list tok) (p : nat) (k : cmd) (p' : nat) : Prop :=
  rep k a /\ at_toks p' rest /\ (p <= p')%nat.

(** What may follow: the end, or one of some symbols. *)
Definition follow (tk : list Z) (rest : list tok) : Prop :=
  match rest with
  | [] => True
  | TSym c :: _ => c ∈ tk
  | _ => False
  end.

(** Redirections behind a command. *)
Definition redir : Type := list Z * Z * Z.
Definition redir_ok (r : redir) : Prop :=
  word_ok r.1.1 /\ ((r.1.2 = O_RDONLY /\ r.2 = 0) \/ (r.1.2 = O_WRCREATE /\ r.2 = 1)).
Definition wrap (a : ast) (rs : list redir) : ast := fold_left (fun a r => Redir a r.1.1 r.1.2 r.2) rs a.
Definition redir_toks (rs : list redir) : list tok := mjoin ((fun r => [redir_tok r.1.2 r.2; TWord r.1.1]) <$> rs).

Lemma first_word x ts c : word_ok x -> c ∈ symbols -> first (TWord x :: ts) <> c.
Proof.
  intros [Hne Hx] Hc. destruct Hx as [|d x [Hd _] _]; [done|]. cbn. intros ->. unfold word_char, strchr in Hd.
  rewrite (bool_decide_eq_true_2 (c ∈ symbols)) in Hd by done. by destruct (bool_decide _).
Qed.
Lemma peek_word x ts tk : word_ok x -> Forall (fun c => c ∈ symbols) tk -> strchr tk (first (TWord x :: ts)) = false.
Proof.
  intros Hx Htk. unfold strchr. apply bool_decide_eq_false. intros Hin. rewrite Forall_forall in Htk.
  by apply (first_word x ts _ Hx (Htk _ Hin)).
Qed.
Lemma peek_follow tk tk' rest :
  follow tk rest -> (forall c, c ∈ tk -> strchr tk' c = false) ->
  negb (first rest =? 0) && strchr tk' (first rest) = false.
Proof. intros Hf Hd. destruct rest as [|[x|c|] ts]; cbn in *; try done. rewrite (Hd c Hf). by rewrite andb_false_r. Qed.

(** Decides facts about the characters of concrete token sets. *)
Ltac by_chars := first [by apply (bool_decide_eq_true_1 _) | by apply Forall_forall, (bool_decide_eq_true_1 _)].

Lemma parseredirs_none fuel k a p rest :
  at_toks p rest -> negb (first rest =? 0) && strchr (str "<>") (first rest) = false -> rep k a ->
  wp (parseredirs fuel k) (fun k' p' => k' = k /\ parses a rest p k' p') p.
Proof.
  intros Hp Hf Hk. destruct fuel as [|fuel]; cbn [parseredirs]; rewrite wp_bind;
    (eapply wp_mono; [by apply peek_toks|]); cbv beta; intros b p1 (-> & Hp1 & Hle); rewrite Hf; by apply wp_ret.
Qed.

Lemma parseredirs_toks rs fuel k a p rest :
  at_toks p (redir_toks rs ++ rest) -> negb (first rest =? 0) && strchr (str "<>") (first rest) = false ->
  rep k a -> Forall redir_ok rs -> (es - p < fuel)%nat ->
  wp (parseredirs fuel k) (parses (wrap a rs) rest p) p.
Proof.
  intros Hp Hf Hk Hrs. revert fuel k a p Hp Hk. induction Hrs as [|[[x m] fd] rs [Hx Hm] _ IH]; intros fuel k a p Hp Hk Hfu.
  { eapply wp_mono; [by apply parseredirs_none|]. by intros k' p' [_ ?]. }
  destruct fuel as [|fuel]; [lia|]. cbn [parseredirs]. rewrite wp_bind. cbn in Hx, Hm.
  change (redir_toks ((x, m, fd) :: rs) ++ rest) with (redir_tok m fd :: TWord x :: redir_toks rs ++ rest) in Hp.
  eapply wp_mono; [by apply peek_toks|]. cbv beta. intros b p1 (-> & Hp1 & Hle).
  assert (negb (first (redir_tok m fd :: TWord x :: redir_toks rs ++ rest) =? 0) &&
    strchr (str "<>") (first (redir_tok m fd :: TWord x :: redir_toks rs ++ rest)) = true) as ->
    by (by destruct Hm as [[-> ->]|[-> ->]]).
  rewrite wp_bind.
  assert (wp next (fun r p' => (r.1.1 = LT /\ m = O_RDONLY /\ fd = 0 \/ (r.1.1 = GT \/ r.1.1 = PLUS) /\ m = O_WRCREATE /\ fd = 1) /\
    at_toks p' (TWord x :: redir_toks rs ++ rest) /\ (p1 < p')%nat) p1) as Hn.
  { destruct Hm as [[-> ->]|[-> ->]].
    - eapply wp_mono; [exact (next_sym p1 LT (TWord x :: redir_toks rs ++ rest) Hp1)|]. intros r p' (? & ? & ?). split_and!; [by left|done|done].
    - eapply wp_mono; [exact (next_gt p1 (TWord x :: redir_toks rs ++ rest) Hp1)|]. intros r p' (? & ? & ?). split_and!; [by right|done|done]. }
  eapply wp_mono; [exact Hn|]. clear Hn. cbv beta. intros [[tk q0] e0] p2 (Htk & Hp2 & Hlt). rewrite wp_bind. cbn [fst] in Htk.
  eapply wp_mono; [by apply next_word|]. cbv beta. intros [[w q] e] p3 (Ew & Hw & Hp3 & Hlt3). cbn [fst snd] in Ew, Hw. subst w.
  rewrite Z.eqb_refl. cbn [negb].
  eapply wp_mono; [apply (IH fuel _ (Redir a x m fd) p3 Hp3)|].
  - destruct Htk as [(-> & -> & ->)|([-> | ->] & -> & ->)]; by split_and!.
  - destruct Hp3 as [? _]. lia.
  - intros k' p' (? & ? & ?). split_and!; [done|done|lia].
Qed.

Lemma parseargs_stop fuel argc k a p rest :
  at_toks p rest -> follow (str "|)&;") rest -> rep k a -> (0 < fuel)%nat ->
  wp (parseargs fuel argc k) (parses a rest p) p.
Proof.
  intros Hp Hf Hk Hfu. destruct fuel as [|fuel]; [lia|]. cbn [parseargs]. rewrite wp_bind.
  eapply wp_mono; [by apply peek_toks|]. cbv beta. intros b p1 (-> & Hp1 & Hle).
  destruct rest as [|[x|c|] rest]; cbn in Hf; [|done| |done].
  - cbn [first Z.eqb negb andb]. rewrite wp_bind. eapply wp_mono; [by apply next_end|]. cbv beta.
    intros [[w q] e] p2 (Ew & Hp2 & Hle2). cbn in Ew. subst w. cbn [Z.eqb]. apply wp_ret. split_and!; [done|done|lia].
  - cbn [first]. rewrite (proj2 (Z.eqb_neq c 0)). 2:{ intros ->. by apply (bool_decide_eq_true_2 _) in Hf. }
    unfold strchr. rewrite bool_decide_eq_true_2 by done. by apply wp_ret.
Qed.

Lemma follow_redirs rest : follow (str "|)&;") rest -> negb (first rest =? 0) && strchr (str "<>") (first rest) = false.
Proof. intros Hf. eapply peek_follow; [done|]. by_chars. Qed.

Lemma peek_word_no x ts tk :
  word_ok x -> Forall (fun c => c ∈ symbols) tk ->
  negb (first (TWord x :: ts) =? 0) && strchr tk (first (TWord x :: ts)) = false.
Proof. intros Hx Htk. rewrite (peek_word x ts tk Hx Htk). by rewrite andb_false_r. Qed.

Lemma parseargs_words args rs fuel argv pre p rest :
  at_toks p ((TWord <$> args) ++ redir_toks rs ++ rest) -> args <> [] -> Forall word_ok args -> Forall redir_ok rs ->
  follow (str "|)&;") rest -> rep (EXEC argv) (Exec pre) -> (length pre + length args < MAXARGS)%nat ->
  (es - p < fuel)%nat ->
  wp (parseargs fuel (length pre) (EXEC argv)) (parses (wrap (Exec (pre ++ args)) rs) rest p) p.
Proof.
  intros Hp Hne Hargs Hrs Hf. revert fuel argv pre p Hp Hne. induction Hargs as [|x args Hx Hargs IH];
    intros fuel argv pre p Hp Hne Hk Hn Hfu; [done|].
  destruct fuel as [|fuel]; [lia|]. cbn [parseargs]. rewrite wp_bind. cbn [fmap list_fmap app] in Hp.
  eapply wp_mono; [by apply peek_toks|]. cbv beta. intros b p1 (-> & Hp1 & Hle).
  rewrite (peek_word_no _ _ _ Hx) by by_chars. rewrite wp_bind. eapply wp_mono; [by apply next_word|]. cbv beta.
  intros [[w q] e] p2 (Ew & Hw & Hp2 & Hlt). cbn [fst snd] in Ew, Hw. subst w. cbn [Z.eqb negb].
  change (WORD =? 0) with false. rewrite Z.eqb_refl. cbn [negb]. cbn [length] in Hn.
  rewrite (proj2 (Nat.leb_gt MAXARGS (S (length pre)))) by lia. cbn [add_arg]. rewrite wp_bind.
  assert (rep (EXEC (argv ++ [(q, e)])) (Exec (pre ++ [x]))) as Hk2 by (apply Forall2_app; [done|by apply Forall2_cons]).
  assert (S (length pre) = length (pre ++ [x])) as El by (rewrite length_app; cbn; lia). rewrite El.
  replace (pre ++ x :: args) with ((pre ++ [x]) ++ args) by (by rewrite <- app_assoc).
  pose proof (proj1 Hp2) as Hes. destruct args as [|y args].
  - rewrite app_nil_r. eapply wp_mono; [eapply (parseredirs_toks rs); [exact Hp2|by apply follow_redirs|done|done|lia]|].
    intros k3 p3 (Hk3 & Hp3 & Hle3). eapply wp_mono; [apply parseargs_stop; [done|done|exact Hk3|]|].
    + lia.
    + intros k4 p4 (? & ? & ?). split_and!; [done|done|lia].
  - inversion Hargs; subst. eapply wp_mono; [eapply parseredirs_none; [exact Hp2|by apply peek_word_no; [|by_chars]|exact Hk2]|].
    intros k3 p3 (-> & _ & Hp3 & Hle3). pose proof (proj1 Hp3). eapply wp_mono; [apply IH; [exact Hp3|done|done| |lia]|].
    + rewrite length_app. cbn in *. lia.
    + intros k4 p4 (? & ? & ?). split_and!; [done|done|lia].
Qed.

(** One symbol of a set: [peek] sees it and [next] takes it. *)
Lemma peek_sym tk p c rest :
  at_toks p (TSym c :: rest) ->
  wp (peek tk) (fun b p' => b = strchr tk c /\ at_toks p' (TSym c :: rest) /\ (p <= p')%nat) p.
Proof.
  intros Hp. eapply wp_mono; [by apply peek_toks|]. cbv beta. intros b p' (-> & Hp' & Hle). split_and!; [|done|done].
  cbn [first]. destruct (skip_toks _ _ Hp) as (_ & _ & _ & Hin & _).
  rewrite (proj2 (Z.eqb_neq c 0)); [done|]. intros ->. by apply (bool_decide_eq_true_2 _) in Hin.
Qed.

(** Parsing with [parser] at level [lv], given [slack] of fuel. *)
Definition level_ok (parser : nat -> M nat cmd) (lv : level) (tk : list Z) (slack : nat) (a : ast) : Prop :=
  forall fuel p rest, at_toks p (toks lv a ++ rest) -> follow tk rest -> (4 * (es - p) + slack <= fuel)%nat ->
    wp (parser fuel) (parses a rest p) p.
Definition exec_ok := level_ok parseexec LExec (str "|)&;") 2.
Definition pipe_ok := level_ok parsepipe LPipe (str ")&;") 3.
Definition line_ok := level_ok parseline LLine (str ")") 4.

Lemma follow_weaken tk tk' rest : follow tk rest -> (forall c, c ∈ tk -> c ∈ tk') -> follow tk' rest.
Proof. intros Hf Hs. destruct rest as [|[] ?]; cbn in *; auto. Qed.

Lemma follow_sym tk c rest : strchr tk c = true -> follow tk (TSym c :: rest).
Proof. apply bool_decide_eq_true_1. Qed.

(** Evaluates the test of a [peek] on a concrete symbol. *)
Ltac peek_value :=
  lazymatch goal with |- context [strchr ?a ?b] =>
    let v := eval vm_compute in (strchr a b) in change (strchr a b) with v
  end; cbn [negb]; cbn iota.
(** The next symbol is peeked at, or taken. *)
Tactic Notation "peek_step" simple_intropattern(p) simple_intropattern(H) :=
  rewrite wp_bind; (eapply wp_mono; [by apply peek_sym|]); cbv beta; intros ? p (-> & H & ?); peek_value.
Tactic Notation "next_step" simple_intropattern(p) simple_intropattern(H) :=
  rewrite wp_bind; (eapply wp_mono; [by apply next_sym|]); cbv beta; intros ? p (_ & H & ?).

(** A block with redirections. *)
Lemma block_ok a rs fuel p rest :
  line_ok a -> Forall redir_ok rs -> at_toks p (block (toks LLine a) ++ redir_toks rs ++ rest) ->
  follow (str "|)&;") rest -> (4 * (es - p) + 2 <= fuel)%nat ->
  wp (parseexec fuel) (parses (wrap a rs) rest p) p.
Proof.
  intros Ha Hrs Hp Hf Hfu. destruct fuel as [|fuel]; [lia|]. cbn [parseexec].
  unfold block in Hp. cbn [app] in Hp. rewrite <- app_assoc in Hp. cbn [app] in Hp.
  peek_step p1 Hp1. destruct fuel as [|fuel]; [lia|]. cbn [parseblock]. peek_step p2 Hp2. next_step p3 Hp3.
  pose proof (proj1 Hp3). rewrite wp_bind. eapply wp_mono; [apply (Ha fuel p3 _ Hp3); [by apply follow_sym|lia]|].
  intros k p4 (Hk & Hp4 & Hle4). peek_step p5 Hp5. next_step p6 Hp6.
  eapply wp_mono; [eapply parseredirs_toks; [exact Hp6|by apply follow_redirs|exact Hk|done|lia]|].
  intros k' p7 (? & ? & ?). split_and!; [done|done|lia].
Qed.

(** Words with redirections. *)
Lemma words_ok args rs fuel p rest :
  ast_ok (Exec args) -> Forall redir_ok rs -> at_toks p ((TWord <$> args) ++ redir_toks rs ++ rest) ->
  follow (str "|)&;") rest -> (4 * (es - p) + 2 <= fuel)%nat ->
  wp (parseexec fuel) (parses (wrap (Exec args) rs) rest p) p.
Proof.
  intros [Hargs Hn] Hrs Hp Hf Hfu. destruct fuel as [|fuel]; [lia|]. cbn [parseexec]. rewrite wp_bind.
  eapply wp_mono; [by apply peek_toks|]. cbv beta. intros b p1 (-> & Hp1 & Hle).
  assert (negb (first ((TWord <$> args) ++ redir_toks rs ++ rest) =? 0) &&
    strchr (str "(") (first ((TWord <$> args) ++ redir_toks rs ++ rest)) = false) as ->.
  { destruct args as [|x args]; [|apply peek_word_no; [by inversion Hargs|by_chars]].
    destruct rs as [|[[x m] fd] rs]; [eapply peek_follow; [done|by_chars]|].
    cbn. unfold redir_tok. by destruct (fd =? 0). }
  rewrite wp_bind. assert (rep (EXEC []) (Exec [])) as H0 by constructor. pose proof (proj1 Hp1).
  destruct args as [|x args].
  - eapply wp_mono; [eapply parseredirs_toks; [exact Hp1|by apply follow_redirs|exact H0|done|lia]|].
    intros k p2 (Hk & Hp2 & Hle2). eapply wp_mono; [apply parseargs_stop; [exact Hp2|done|exact Hk|lia]|].
    intros k' p3 (? & ? & ?). split_and!; [done|done|lia].
  - inversion Hargs; subst.
    eapply wp_mono; [eapply parseredirs_none; [exact Hp1|by apply peek_word_no; [|by_chars]|exact H0]|].
    intros k p2 (-> & _ & Hp2 & Hle2). pose proof (proj1 Hp2).
    eapply wp_mono; [apply (parseargs_words (x :: args) rs _ [] [] p2 rest); try done; lia|].
    intros k' p3 (? & ? & ?). split_and!; [done|done|lia].
Qed.

Lemma exec_pipe_ok a : exec_ok a -> toks LPipe a = toks LExec a -> pipe_ok a.
Proof.
  intros Ha Et fuel p rest Hp Hf Hfu. rewrite Et in Hp. destruct fuel as [|fuel]; [lia|]. cbn [parsepipe].
  rewrite wp_bind. eapply wp_mono; [apply (Ha fuel p rest Hp); [eapply follow_weaken; [exact Hf|by_chars]|lia]|].
  intros k p1 (Hk & Hp1 & Hle1). rewrite wp_bind. eapply wp_mono; [by apply peek_toks|]. cbv beta.
  intros b p2 (-> & Hp2 & Hle2). rewrite (peek_follow _ _ _ Hf) by by_chars. apply wp_ret. split_and!; [done|done|lia].
Qed.

Lemma pipeline_ok l r : exec_ok l -> pipe_ok r -> pipe_ok (Pipe l r).
Proof.
  intros Hl Hr fuel p rest Hp Hf Hfu. cbn [toks] in Hp. rewrite <- app_assoc in Hp. destruct fuel as [|fuel]; [lia|].
  cbn [parsepipe app] in *. rewrite wp_bind. eapply wp_mono; [apply (Hl fuel p _ Hp); [by apply follow_sym|lia]|].
  intros k p1 (Hk & Hp1 & Hle1). peek_step p2 Hp2. next_step p3 Hp3. pose proof (proj1 Hp3). rewrite wp_bind.
  eapply wp_mono; [apply (Hr fuel p3 _ Hp3); [done|lia]|]. intros k' p4 (Hk' & Hp4 & Hle4). apply wp_ret.
  split_and!; [by split|done|lia].
Qed.

Lemma parsebacks_toks n fuel k a p rest :
  at_toks p (replicate n (sym "&") ++ rest) -> negb (first rest =? 0) && strchr (str "&") (first rest) = false ->
  rep k a -> (es - p < fuel)%nat ->
  wp (parsebacks fuel k) (parses (Nat.iter n Back a) rest p) p.
Proof.
  intros Hp Hf. revert fuel k a p Hp. induction n as [|n IH]; intros fuel k a p Hp Hk Hfu;
    (destruct fuel as [|fuel]; [lia|]); cbn [parsebacks].
  - rewrite wp_bind. eapply wp_mono; [by apply peek_toks|]. cbv beta. intros b p1 (-> & Hp1 & Hle1). cbn [replicate app].
    rewrite Hf. by apply wp_ret.
  - cbn [replicate app] in Hp. peek_step p1 Hp1. next_step p2 Hp2. pose proof (proj1 Hp2).
    eapply wp_mono; [apply (IH fuel (BACK k) (Back a) p2 Hp2 Hk); lia|].
    intros k' p3 (? & ? & ?). split_and!; [|done|lia]. by rewrite Nat.iter_succ_r.
Qed.

(** Commands in the background. *)
Definition not_back (a : ast) : Prop := match a with Back _ => False | _ => True end.
Lemma unback a : exists n b, a = Nat.iter n Back b /\ not_back b /\
  toks LBack a = toks LPipe b ++ replicate n (sym "&").
Proof.
  induction a as [args|a _ x m fd|l _ r _|l _ r _|a (n & b & -> & Hb & Ht)];
    try (eexists 0%nat, _; split_and!; [done|done|by rewrite app_nil_r]).
  exists (S n), b. split_and!; [done|done|]. cbn [toks Nat.iter]. rewrite Ht, <- app_assoc. f_equal.
  symmetry. apply replicate_S_end.
Qed.

(** The first command of a line, up to a semicolon. *)
Lemma backs_ok n b fuel p rest :
  pipe_ok b -> at_toks p ((toks LPipe b ++ replicate n (sym "&")) ++ rest) -> follow (str ");") rest ->
  (4 * (es - p) + 3 <= fuel)%nat ->
  wp (let! c := parsepipe fuel in parsebacks (S es) c) (parses (Nat.iter n Back b) rest p) p.
Proof.
  intros Hb Hp Hf Hfu. rewrite wp_bind. rewrite <- app_assoc in Hp.
  eapply wp_mono; [apply (Hb fuel p _ Hp); [|lia]|].
  - destruct n; cbn [replicate app]; [eapply follow_weaken; [exact Hf|by_chars]|by apply follow_sym].
  - intros k p1 (Hk & Hp1 & Hle1). pose proof (proj1 Hp1).
    eapply wp_mono; [eapply parsebacks_toks; [exact Hp1|apply (peek_follow _ _ _ Hf); by_chars|exact Hk|lia]|].
    intros k' p2 (? & ? & ?). split_and!; [done|done|lia].
Qed.

Lemma last_ok n b : pipe_ok b -> toks LLine (Nat.iter n Back b) = toks LPipe b ++ replicate n (sym "&") ->
  line_ok (Nat.iter n Back b).
Proof.
  intros Hb Et fuel p rest Hp Hf Hfu. rewrite Et in Hp. destruct fuel as [|fuel]; [lia|]. cbn [parseline].
  pose proof (backs_ok n b fuel p rest Hb Hp) as Hw. rewrite wp_bind in Hw. rewrite wp_bind.
  eapply wp_mono; [apply Hw; [eapply follow_weaken; [exact Hf|by_chars]|lia]|]. intros k p1. rewrite wp_bind.
  intros Hk. eapply wp_mono; [exact Hk|]. clear Hk. intros k1 p2 (Hk & Hp2 & Hle2).
  rewrite wp_bind. eapply wp_mono; [by apply peek_toks|]. cbv beta.
  intros b' p3 (-> & Hp3 & Hle3). rewrite (peek_follow _ _ _ Hf) by by_chars. apply wp_ret. split_and!; [done|done|lia].
Qed.

Lemma list_ok n b r : pipe_ok b -> toks LBack (Nat.iter n Back b) = toks LPipe b ++ replicate n (sym "&") ->
  line_ok r -> line_ok (List (Nat.iter n Back b) r).
Proof.
  intros Hb Et Hr fuel p rest Hp Hf Hfu. cbn [toks] in Hp. rewrite Et, <- app_assoc in Hp. cbn [app] in Hp.
  destruct fuel as [|fuel]; [lia|]. cbn [parseline].
  pose proof (backs_ok n b fuel p _ Hb Hp) as Hw. rewrite wp_bind in Hw. rewrite wp_bind.
  eapply wp_mono; [apply Hw; [by apply follow_sym|lia]|]. intros k p1. rewrite wp_bind.
  intros Hk. eapply wp_mono; [exact Hk|]. clear Hk. intros k1 p2 (Hk & Hp2 & Hle2).
  peek_step p3 Hp3. next_step p4 Hp4. pose proof (proj1 Hp4). rewrite wp_bind.
  eapply wp_mono; [apply (Hr fuel p4 _ Hp4); [done|lia]|]. intros k' p5 (Hk' & Hp5 & Hle5). apply wp_ret.
  split_and!; [by split|done|lia].
Qed.

(** Redirections around a command. *)
Definition not_redir (a : ast) : Prop := match a with Redir _ _ _ _ => False | _ => True end.
Lemma unwrap a : ast_ok a -> exists b rs, a = wrap b rs /\ not_redir b /\ ast_ok b /\ Forall redir_ok rs /\
  toks LExec a = toks LExec b ++ redir_toks rs.
Proof.
  induction a as [args|a IH x m fd|l _ r _|l _ r _|a _];
    try (intros Ha; eexists _, []; split_and!; [done|done|done|done|by rewrite app_nil_r]).
  intros (Ha & Hx & Hm). destruct (IH Ha) as (b & rs & -> & Hb & Hb' & Hrs & Ht).
  exists b, (rs ++ [(x, m, fd)]). split_and!; [|done|done| |].
  - unfold wrap. by rewrite fold_left_app.
  - apply Forall_app. split; [done|]. by apply Forall_singleton.
  - cbn [toks]. rewrite Ht, <- app_assoc. f_equal. unfold redir_toks. by rewrite fmap_app, join_app.
Qed.

Fixpoint ast_size (a : ast) : nat :=
  match a with
  | Exec _ => 1
  | Redir a _ _ _ | Back a => S (ast_size a)
  | Pipe l r | List l r => S (ast_size l + ast_size r)
  end.
Lemma size_wrap b rs : ast_size (wrap b rs) = (length rs + ast_size b)%nat.
Proof.
  unfold wrap. revert b. induction rs as [|[[x m] fd] rs IH]; intros b; [done|]. cbn [fold_left length].
  rewrite IH. cbn. lia.
Qed.

Lemma size_iter n b : ast_size (Nat.iter n Back b) = (n + ast_size b)%nat.
Proof. induction n as [|n IH]; [done|]. rewrite Nat.iter_succ. cbn [ast_size]. by rewrite IH. Qed.
Lemma ok_iter n b : ast_ok (Nat.iter n Back b) -> ast_ok b.
Proof. induction n as [|n IH]; [done|]. rewrite Nat.iter_succ. cbn [ast_ok]. done. Qed.

Lemma all_levels a : ast_ok a -> exec_ok a /\ pipe_ok a /\ line_ok a.
Proof.
  remember (ast_size a) as n eqn:En. revert a En. induction (lt_wf n) as [n _ IH]. intros a -> Ha.
  assert (forall b, (ast_size b < ast_size a)%nat -> ast_ok b -> exec_ok b /\ pipe_ok b /\ line_ok b) as IH' by eauto.
  clear IH. assert (line_ok a -> toks LExec a = block (toks LLine a) -> exec_ok a) as Hblock.
  { intros Hl Et fuel p rest Hp Hf Hfu. rewrite Et in Hp. by apply (block_ok a []). }
  assert (forall b n, a = Nat.iter n Back b -> pipe_ok b -> toks LBack a = toks LPipe b ++ replicate n (sym "&") ->
    toks LLine a = toks LBack a -> line_ok a) as Hlast.
  { intros b m -> Hb Et El. apply last_ok; [done|]. by rewrite El. }
  destruct a as [args|a x m fd|l r|l r|a].
  - assert (exec_ok (Exec args)) as He.
    { intros fuel p rest Hp Hf Hfu. by apply (words_ok args []). }
    assert (pipe_ok (Exec args)) as Hpi by (by apply exec_pipe_ok). split_and!; [done|done|].
    apply (Hlast (Exec args) 0%nat); [done|done|by rewrite app_nil_r|done].
  - assert (exec_ok (Redir a x m fd)) as He.
    { destruct (unwrap _ Ha) as (b & rs & Ea & Hb & Hob & Hrs & Et). intros fuel p rest Hp Hf Hfu.
      rewrite Et, <- app_assoc in Hp. rewrite Ea in IH' |- *. rewrite size_wrap in IH'.
      assert (length rs <> 0)%nat by (destruct rs; [cbn in Ea; by rewrite <- Ea in Hb|done]).
      destruct b as [args|? ? ? ?|l r|l r|b]; [by apply words_ok|done|..];
        (apply block_ok; [apply IH'; [lia|done]|done|done|done|done]). }
    assert (pipe_ok (Redir a x m fd)) as Hpi by (by apply exec_pipe_ok). split_and!; [done|done|].
    apply (Hlast (Redir a x m fd) 0%nat); [done|done|by rewrite app_nil_r|done].
  - destruct Ha as [Hl Hr]. cbn [ast_size] in IH'. destruct (IH' l) as (El & _ & _); [lia|done|]. destruct (IH' r) as (_ & Pr & _); [lia|done|].
    assert (pipe_ok (Pipe l r)) as Hpi by (by apply pipeline_ok).
    assert (line_ok (Pipe l r)) as Hli by (apply (Hlast (Pipe l r) 0%nat); [done|done|by rewrite app_nil_r|done]).
    split_and!; [by apply Hblock|done|done].
  - destruct Ha as [Hl Hr]. cbn [ast_size] in IH'. destruct (IH' r) as (_ & _ & Lr); [lia|done|].
    destruct (unback l) as (m & b & -> & Hb & Et). rewrite size_iter in IH'.
    destruct (IH' b) as (_ & Pb & _); [lia|by eapply ok_iter|].
    assert (line_ok (List (Nat.iter m Back b) r)) as Hli by (by apply list_ok).
    assert (exec_ok (List (Nat.iter m Back b) r)) as He by (by apply Hblock).
    split_and!; [done|by apply exec_pipe_ok|done].
  - destruct (unback (Back a)) as (m & b & Ea & Hb & Et).
    assert (m <> 0)%nat by (intros ->; cbn in Ea; by rewrite <- Ea in Hb).
    rewrite Ea in IH'. rewrite size_iter in IH'. rewrite Ea in Ha.
    destruct (IH' b) as (_ & Pb & _); [lia|by eapply ok_iter|].
    assert (line_ok (Back a)) as Hli by (by apply (Hlast b m)).
    assert (exec_ok (Back a)) as He by (by apply Hblock). split_and!; [done|by apply exec_pipe_ok|done].
Qed.

(** ** The buffer after [nulterminate] *)

Fixpoint ends (k : cmd) : list nat :=
  match k with
  | EXEC argv => argv.*2
  | REDIR k _ e _ _ => ends k ++ [e]
  | PIPE l r | LIST l r => ends l ++ ends r
  | BACK k => ends k
  end.
Definition put_nuls (es : list nat) (buf : list Z) : list Z := fold_left (fun b e => <[e := 0]> b) es buf.

Lemma nulterminate_ends k buf : nulterminate k buf = put_nuls (ends k) buf.
Proof.
  unfold put_nuls. revert buf. induction k as [argv|k IH q e m fd|l IHl r IHr|l IHl r IHr|k IH]; intros buf; cbn.
  - revert buf. induction argv as [|[q e] argv IH]; intros buf; [done|]. cbn. apply IH.
  - by rewrite fold_left_app, IH.
  - by rewrite fold_left_app, IHl, IHr.
  - by rewrite fold_left_app, IHl, IHr.
  - apply IH.
Qed.

Lemma put_nuls_lookup E buf j :
  put_nuls E buf !! j = if decide (j ∈ E /\ (j < length buf)%nat) then Some 0 else buf !! j.
Proof.
  unfold put_nuls. revert buf. induction E as [|e E IH]; intros buf; cbn [fold_left].
  { by rewrite decide_False by (intros [Hj _]; by apply elem_of_nil in Hj). }
  rewrite IH, length_insert. destruct (decide (j ∈ E /\ _)) as [[Hj Hl]|Hn].
  { rewrite decide_True; [done|]. split; [by right|done]. }
  destruct (decide (j ∈ e :: E /\ _)) as [[[-> | Hj]%elem_of_cons Hl]|Hn'].
  - by apply list_lookup_insert_eq.
  - by destruct Hn.
  - destruct (decide (j = e)) as [->|Hne]; [|by apply list_lookup_insert_ne].
    rewrite list_insert_ge; [done|]. destruct (decide (e < length buf)%nat); [|lia]. destruct Hn'. split; [by left|done].
Qed.

Lemma cstring_word x l : Forall (fun c => c <> 0) x -> cstring (x ++ 0 :: l) = x.
Proof. induction 1 as [|c x Hc _ IH]; [done|]. cbn. by rewrite (proj2 (Z.eqb_neq _ _)), IH by done. Qed.

(** A position where no word is. *)
Definition stop_at (e : nat) : Prop := (e <= es)%nat /\ forall c, head (drop e line) = Some c -> word_char c = false.

Lemma length_put_nuls E buf : length (put_nuls E buf) = length buf.
Proof. unfold put_nuls. revert buf. induction E as [|e E IH]; intros buf; [done|]. cbn. by rewrite IH, length_insert. Qed.

Lemma word_char_at x q e j c : word_at x q e -> x !! j = Some c -> line !! (q + j)%nat = Some c /\ ~ stop_at (q + j).
Proof.
  intros (_ & _ & (k & Hd) & _ & _ & Hx) Hj.
  assert (line !! (q + j)%nat = Some c) as Hl by (rewrite <- lookup_drop, Hd; by apply lookup_app_l_Some).
  split; [done|]. intros [_ Hs]. rewrite (drop_S _ _ _ Hl) in Hs. specialize (Hs c eq_refl).
  rewrite Forall_lookup in Hx. destruct (Hx j c Hj). congruence.
Qed.

Lemma string_word E x q e :
  word_at x q e -> e ∈ E -> Forall stop_at E -> string_at (put_nuls E (line ++ [0])) q = x.
Proof.
  intros Hw HeE HE. pose proof Hw as (He & Hq & _ & _ & _ & Hx). unfold string_at. set (b := put_nuls E (line ++ [0])).
  assert (length b = S es) as Hb by (unfold b; rewrite length_put_nuls, length_app, Nat.add_1_r; done).
  assert (b !! e = Some 0) as H0.
  { unfold b. rewrite put_nuls_lookup, decide_True; [done|]. split; [done|]. rewrite length_app. cbn. unfold es in He. lia. }
  assert (take (length x) (drop q b) = x) as Ht.
  { apply list_eq. intros j. destruct (x !! j) as [c|] eqn:Ej.
    - pose proof (lookup_lt_Some _ _ _ Ej). rewrite lookup_take_lt, lookup_drop by done.
      destruct (word_char_at _ _ _ _ _ Hw Ej) as [Hl Hs]. unfold b. rewrite put_nuls_lookup, decide_False.
      + by apply lookup_app_l_Some.
      + intros [Hin _]. rewrite Forall_forall in HE. by apply Hs, HE.
    - apply lookup_ge_None in Ej. by rewrite lookup_take_ge. }
  rewrite <- (take_drop (length x) (drop q b)), Ht, drop_drop, Hq, (drop_S _ _ _ H0).
  apply cstring_word. eapply Forall_impl; [exact Hx|]. by intros c [_ ?].
Qed.

Lemma ends_stop k a : rep k a -> Forall stop_at (ends k).
Proof.
  assert (forall x q e, word_at x q e -> stop_at e) as Hw by (intros x q e (? & _ & _ & ? & _); done).
  revert a. induction k as [argv|k IH q e m fd|l IHl r IHr|l IHl r IHr|k IH]; intros [args|a x m' fd'|l' r'|l' r'|a];
    cbn; try done.
  - induction 1 as [|[q e] x argv args Hv _ IH]; constructor; [by eapply Hw|done].
  - intros (Hk & Hx & _). apply Forall_app. split; [by eapply IH|]. apply Forall_singleton. by eapply Hw.
  - intros [Hl Hr]. apply Forall_app. split; [by eapply IHl|by eapply IHr].
  - intros [Hl Hr]. apply Forall_app. split; [by eapply IHl|by eapply IHr].
  - apply IH.
Qed.

Lemma denote_rep E k a :
  rep k a -> Forall stop_at E -> ends k ⊆ E -> denote (put_nuls E (line ++ [0])) k = a.
Proof.
  intros Hk HE. revert a Hk. induction k as [argv|k IH q e m fd|l IHl r IHr|l IHl r IHr|k IH];
    intros [args|a x m' fd'|l' r'|l' r'|a]; cbn; try done.
  - intros Hv Hs. f_equal. revert Hs. induction Hv as [|[q e] x argv args Hx _ IH]; intros Hs; [done|]. cbn in *. f_equal.
    + eapply string_word; [exact Hx| |done]. set_solver.
    + apply IH. set_solver.
  - intros (Hk & Hx & -> & ->) Hs. rewrite IH with (a := a); [|done|set_solver]. f_equal.
    eapply string_word; [exact Hx| |done]. set_solver.
  - intros [Hl Hr] Hs. rewrite (IHl l'), (IHr r'); [done|done|set_solver|done|set_solver].
  - intros [Hl Hr] Hs. rewrite (IHl l'), (IHr r'); [done|done|set_solver|done|set_solver].
  - intros Hk Hs. by rewrite (IH a).
Qed.

(** The command of the whole line. *)
Lemma parsecmd_run a :
  ast_ok a -> spells (toks LLine a) line -> exists k buf, parsecmd = Done (k, buf) /\ denote buf k = a.
Proof.
  intros Ha Hs. destruct (all_levels a Ha) as (_ & _ & Hl).
  assert (wp parseall (fun k _ => rep k a) 0%nat) as Hw.
  { unfold parseall. rewrite wp_bind. eapply wp_mono; [apply (Hl _ 0%nat []); [|done|lia]|].
    - rewrite app_nil_r. split; [lia|done].
    - intros k p (Hk & Hp & _). rewrite wp_bind. destruct (skip_toks p [] Hp) as ([Hle _] & _ & _ & Hd).
      unfold wp at 1, peek. rewrite wp_bind. apply wp_gets. cbn in Hd.
      assert (skip is_space p = es) as ->; [|by rewrite bool_decide_eq_true_2].
      apply (f_equal length) in Hd. rewrite length_drop in Hd. cbn in Hd. unfold es in *. lia. }
  apply wp_returns in Hw as (k & p & Hrun & Hk). unfold parsecmd. rewrite Hrun.
  exists k, (nulterminate k (line ++ [0])). split; [done|]. rewrite nulterminate_ends.
  by apply denote_rep; [|eapply ends_stop|].
Qed.

(** ** Every line *)

(** The parser returns, or reports one of its messages. *)
Definition messages : list string :=
  ["missing file for redirection"; "syntax"; "too many args"; "syntax - missing )"]%string.
Definition settles {A} (c : M nat A) (Q : A -> nat -> Prop) (p : nat) : Prop :=
  match c p with
  | Done (a, p') => Q a p'
  | Panic m => m ∈ messages
  | _ => False
  end.

Lemma settles_bind {A C} (c : M nat A) (k : A -> M nat C) Q R p :
  settles c Q p -> (forall a p', Q a p' -> settles (k a) R p') -> settles (bind c k) R p.
Proof. unfold settles, bind. intros Hc Hk. destruct (c p) as [[a p']| | |]; [by apply Hk|done..]. Qed.
Lemma settles_mono {A} (c : M nat A) (Q R : A -> nat -> Prop) p :
  settles c Q p -> (forall a p', Q a p' -> R a p') -> settles c R p.
Proof. unfold settles. intros Hc Hk. destruct (c p) as [[a p']| | |]; [by apply Hk|done..]. Qed.

(** The words of a command lie in the line, and it has few arguments. *)
Definition in_line (v : nat * nat) : Prop := (v.1 <= v.2 <= es)%nat.
Fixpoint cmd_ok (k : cmd) : Prop :=
  match k with
  | EXEC argv => (length argv < MAXARGS)%nat /\ Forall in_line argv
  | REDIR k q e _ _ => cmd_ok k /\ in_line (q, e)
  | PIPE l r | LIST l r => cmd_ok l /\ cmd_ok r
  | BACK k => cmd_ok k
  end.
(** An [EXEC] with [argc] arguments, under redirections. *)
Fixpoint simple (argc : nat) (k : cmd) : Prop :=
  match k with
  | EXEC argv => length argv = argc
  | REDIR k _ _ _ _ => simple argc k
  | _ => False
  end.
Lemma add_arg_ok argc k v :
  cmd_ok k -> simple argc k -> in_line v -> (S argc < MAXARGS)%nat -> cmd_ok (add_arg v k) /\ simple (S argc) (add_arg v k).
Proof.
  intros Hk Hs Hv Hn. induction k as [argv|k IH q e m fd| | |]; cbn in *; try done.
  - rewrite length_app, Nat.add_1_r, Hs. split_and!; [done| |done]. apply Forall_app. split; [apply Hk|by apply Forall_singleton].
  - destruct Hk as [Hk Hq]. destruct (IH Hk Hs). by split_and!.
Qed.

Lemma skip_skip p : skip is_space (skip is_space p) = skip is_space p.
Proof.
  unfold skip at 1. assert (span is_space (drop (skip is_space p) line) = 0%nat) as ->; [|lia].
  unfold skip. rewrite <- drop_drop. induction (drop p line) as [|c l IH]; [done|]. cbn [span].
  destruct (is_space c) eqn:E; [done|]. cbn. by rewrite E.
Qed.
Lemma skip_not_space p : is_space (char_at (skip is_space p)) = false.
Proof.
  rewrite char_at_drop. unfold skip. rewrite <- drop_drop. induction (drop p line) as [|c l IH]; [done|]. cbn [span].
  destruct (is_space c) eqn:E; [done|]. done.
Qed.
Lemma symbols_split c : strchr symbols c = strchr (str "|();&<") c || (c =? GT).
Proof.
  unfold strchr. apply Bool.eq_iff_eq_true. rewrite orb_true_iff, !bool_decide_eq_true, Z.eqb_eq.
  unfold symbols. vm_compute (str _). rewrite !elem_of_cons, elem_of_nil. unfold GT. lia.
Qed.
Lemma skip_word q : (q <= es)%nat -> word_char (char_at q) = true -> char_at q <> 0 -> (q < skip word_char q)%nat.
Proof.
  intros Hq Hw H0. unfold skip. rewrite char_at_drop in *. destruct (drop q line) as [|c l]; [done|]. cbn in *. rewrite Hw. lia.
Qed.
Lemma char_at_es q : (q <= es)%nat -> char_at q <> 0 -> (q < es)%nat.
Proof.
  intros Hq H0. destruct (decide (q = es)) as [->|]; [|lia]. destruct H0. unfold char_at, es. by apply nth_overflow.
Qed.

Lemma gettoken_range p tok q e p' :
  gettoken p = (tok, q, e, p') -> (p <= es)%nat ->
  (p <= q <= e)%nat /\ (e <= p' <= es)%nat /\ q = skip is_space p /\ (char_at q <> 0 -> (q < e)%nat) /\ (tok = 0 <-> char_at q = 0).
Proof.
  unfold gettoken. intros Hg Hp. set (q0 := skip is_space p) in *.
  assert (p <= q0 <= es)%nat as Hq by (split; [apply skip_ge|by apply skip_le]).
  assert (exists e0, skip is_space e0 = p' /\ q = q0 /\ e = e0 /\ (q0 <= e0 <= es)%nat /\
    (char_at q0 <> 0 -> (q0 < e0)%nat) /\ (tok = 0 <-> char_at q0 = 0)) as (e0 & <- & -> & -> & He & Hlt & Htok).
  2: { pose proof (skip_ge is_space e0). pose proof (skip_le is_space e0). split_and!; try done; try lia. }
  destruct (Z.eqb_spec (char_at q0) 0) as [E0|N0].
  { injection Hg as <- <- <- <-. eexists. split_and!; try done; lia. }
  pose proof (char_at_es q0 ltac:(lia) N0).
  destruct (strchr (str "|();&<") (char_at q0)) eqn:Es.
  { injection Hg as <- <- <- <-. eexists. split_and!; try done; lia. }
  destruct (Z.eqb_spec (char_at q0) GT) as [Eg|Ng].
  { destruct (Z.eqb_spec (char_at (S q0)) GT) as [Eg2|Ng2]; injection Hg as <- <- <- <-; eexists; split_and!; try done; try lia.
    pose proof (char_at_es (S q0) ltac:(lia)) as Hl. rewrite Eg2 in Hl. specialize (Hl ltac:(done)). lia. }
  injection Hg as <- <- <- <-. eexists. split_and!; [done..|apply skip_ge|apply skip_le; lia| |done].
  intros _. apply skip_word; [lia| |done]. unfold word_char. rewrite symbols_split, Es, (proj2 (Z.eqb_neq _ _)) by done.
  pose proof (skip_not_space p) as Hs. fold q0 in Hs. unfold is_space in Hs. by rewrite Hs.
Qed.

(** [peek] and [next]; a symbol that [peek] saw is consumed by [next]. *)
Lemma peek_settles tk p :
  (p <= es)%nat -> settles (peek tk) (fun b p' => (p <= p' <= es)%nat /\ skip is_space p' = p' /\
    b = negb (char_at p' =? 0) && strchr tk (char_at p')) p.
Proof.
  intros Hp. unfold settles, peek. split_and!; [apply skip_ge|by apply skip_le|apply skip_skip|done].
Qed.
Lemma next_settles p :
  (p <= es)%nat -> settles next (fun r p' => (p <= r.1.2 <= r.2)%nat /\ (r.2 <= p' <= es)%nat /\
    (r.1.1 <> 0 -> (p < p')%nat) /\ (skip is_space p = p -> char_at p <> 0 -> (p < p')%nat)) p.
Proof.
  intros Hp. unfold settles, next. destruct (gettoken p) as [[[tok q] e] p'] eqn:E.
  destruct (gettoken_range _ _ _ _ _ E Hp) as (H1 & H2 & H3 & H4 & H5). cbn [fst snd]. split_and!; [lia|lia|lia|lia| |].
  - intros Ht. assert (char_at q <> 0) as Hc by (by rewrite <- H5). specialize (H4 Hc). lia.
  - intros Hs Hc. rewrite H3, Hs in H4. specialize (H4 Hc). rewrite Hs in H3. lia.
Qed.

Definition parsed (p : nat) (k : cmd) (p' : nat) : Prop := cmd_ok k /\ (p <= p' <= es)%nat.

Lemma peek_true c tk : negb (c =? 0) && strchr tk c = true -> c <> 0.
Proof. destruct (Z.eqb_spec c 0); [done|done]. Qed.

Lemma parseredirs_settles fuel k p (P : cmd -> Prop) :
  (es - p < fuel)%nat -> (p <= es)%nat -> cmd_ok k -> P k ->
  (forall k q e m fd, P k -> P (REDIR k q e m fd)) ->
  settles (parseredirs fuel k) (fun k' p' => parsed p k' p' /\ P k') p.
Proof.
  intros Hf Hp Hk HP Hst. revert k p Hf Hp Hk HP. induction fuel as [|fuel IH]; intros k p Hf Hp Hk HP; [lia|].
  cbn [parseredirs]. eapply settles_bind; [by apply peek_settles|]. cbv beta. intros b p1 (H1 & Hs & ->).
  destruct (negb _ && _) eqn:E; [|cbn; split_and!; [split; [done|lia]|done]]. apply peek_true in E.
  eapply settles_bind; [apply next_settles; lia|]. cbv beta. intros [[tk q0] e0] p2 (_ & H2 & _ & Hlt). specialize (Hlt Hs E).
  cbn [fst snd] in *. eapply settles_bind; [apply next_settles; lia|]. cbv beta. intros [[w q] e] p3 (Hq & H3 & _ & _).
  cbn [fst snd] in *. destruct (negb (w =? WORD)); [cbn; by left|].
  assert (in_line (q, e)) by (unfold in_line; cbn; lia).
  eapply settles_mono; [apply IH; [lia|lia| |]|].
  - destruct (tk =? LT), (tk =? GT), (tk =? PLUS); cbn; done.
  - destruct (tk =? LT), (tk =? GT), (tk =? PLUS); auto.
  - intros k' p' [[? ?] ?]. split; [split; [done|lia]|done].
Qed.

Lemma parseargs_settles fuel argc k p :
  (es - p < fuel)%nat -> (p <= es)%nat -> cmd_ok k -> simple argc k ->
  settles (parseargs fuel argc k) (parsed p) p.
Proof.
  revert argc k p. induction fuel as [|fuel IH]; intros argc k p Hf Hp Hk Hs; [lia|].
  cbn [parseargs]. eapply settles_bind; [by apply peek_settles|]. cbv beta. intros b p1 (H1 & _ & ->).
  destruct (negb _ && _) eqn:E; [cbn; split; [done|lia]|].
  eapply settles_bind; [apply next_settles; lia|]. cbv beta. intros [[tk q] e] p2 (Hq & H2 & Hlt & _). cbn [fst snd] in *.
  destruct (Z.eqb_spec tk 0) as [|Hne]; [cbn; split; [done|lia]|]. specialize (Hlt Hne).
  destruct (negb (tk =? WORD)); [cbn; right; by left|].
  destruct (Nat.leb_spec MAXARGS (S argc)) as [|Hn]; [cbn; by do 2 right; left|].
  destruct (add_arg_ok argc k (q, e) Hk Hs) as [Hk' Hs']; [unfold in_line; cbn; lia|done|].
  eapply settles_bind; [apply (parseredirs_settles _ _ _ (simple (S argc))); [lia|lia|done|done|done]|].
  cbv beta. intros k3 p3 [[Hk3 H3] Hs3]. eapply settles_mono; [apply IH; [lia|lia|done|done]|].
  intros k' p' [? ?]. split; [done|lia].
Qed.

Lemma parsebacks_settles fuel k p :
  (es - p < fuel)%nat -> (p <= es)%nat -> cmd_ok k -> settles (parsebacks fuel k) (parsed p) p.
Proof.
  revert k p. induction fuel as [|fuel IH]; intros k p Hf Hp Hk; [lia|].
  cbn [parsebacks]. eapply settles_bind; [by apply peek_settles|]. cbv beta. intros b p1 (H1 & Hs & ->).
  destruct (negb _ && _) eqn:E; [|cbn; split; [done|lia]]. apply peek_true in E.
  eapply settles_bind; [apply next_settles; lia|]. cbv beta. intros r p2 (_ & H2 & _ & Hlt). specialize (Hlt Hs E).
  eapply settles_mono; [apply IH; [lia|lia|done]|]. intros k' p' [? ?]. split; [done|lia].
Qed.

Definition fuelled (parser : nat -> M nat cmd) (slack : nat) (P : nat -> Prop) (fuel : nat) : Prop :=
  forall p, (p <= es)%nat -> P p -> (4 * (es - p) + slack <= fuel)%nat -> settles (parser fuel) (parsed p) p.
Definition at_open (p : nat) : Prop := skip is_space p = p /\ strchr (str "(") (char_at p) = true.

Lemma at_open_peek p : at_open p -> settles (peek (str "(")) (fun b p' => b = true /\ p' = p /\ char_at p <> 0) p.
Proof.
  intros [Hs Hc]. assert (char_at p <> 0) as H0 by (by intros E; rewrite E in Hc).
  unfold settles, peek. rewrite Hs, Hc, (proj2 (Z.eqb_neq _ _)) by done. done.
Qed.

Lemma parsed_weaken p p1 k p' : (p <= p1)%nat -> parsed p1 k p' -> parsed p k p'.
Proof. intros Hle [? ?]. split; [done|lia]. Qed.

(** A symbol, seen by [peek], then a parser that starts behind it. *)
Lemma sep_settles tk parser slack fuel (f : cmd -> cmd) k p :
  fuelled parser slack (fun _ => True) fuel -> (p <= es)%nat -> cmd_ok k ->
  (forall r, cmd_ok r -> cmd_ok (f r)) -> (4 * (es - p) + slack <= fuel + 4)%nat ->
  settles (let! more := peek tk in
    if more then next;;; let! r := parser fuel in ret (f r) else ret k) (parsed p) p.
Proof.
  intros Hpar Hp Hk Hr Hf. eapply settles_bind; [by apply peek_settles|]. cbv beta. intros b p1 (H1 & Hs & ->).
  destruct (negb _ && _) eqn:E; [|cbn; split; [done|lia]]. apply peek_true in E.
  eapply settles_bind; [apply next_settles; lia|]. cbv beta. intros r p2 (_ & H2 & _ & Hlt). specialize (Hlt Hs E).
  eapply settles_bind; [apply Hpar; [lia|done|lia]|]. intros k' p3 [Hk' H3]. cbn. split; [by apply Hr|lia].
Qed.

Lemma parsers_settle fuel :
  fuelled parseline 4 (fun _ => True) fuel /\ fuelled parsepipe 3 (fun _ => True) fuel /\
  fuelled parseexec 2 (fun _ => True) fuel /\ fuelled parseblock 1 at_open fuel.
Proof.
  induction fuel as [|fuel (IHl & IHp & IHe & IHb)]; [split_and!; intros p ? ? ?; lia|]. split_and!; intros p Hp HP Hf.
  - cbn [parseline]. eapply settles_bind; [apply IHp; [done|done|lia]|]. intros k p1 [Hk H1].
    eapply settles_bind; [apply parsebacks_settles; [lia|lia|done]|]. intros k2 p2 [Hk2 H2].
    eapply settles_mono; [apply (sep_settles (str ";") parseline 4 fuel (LIST k2) k2); [done|lia|done|done|lia]|].
    intros k3 p3. apply parsed_weaken. lia.
  - cbn [parsepipe]. eapply settles_bind; [apply IHe; [done|done|lia]|]. intros k p1 [Hk H1].
    eapply settles_mono; [apply (sep_settles (str "|") parsepipe 3 fuel (PIPE k) k); [done|lia|done|done|lia]|].
    intros k3 p3. apply parsed_weaken. lia.
  - cbn [parseexec]. eapply settles_bind; [by apply peek_settles|]. cbv beta. intros b p1 (H1 & Hs & ->).
    destruct (negb _ && _) eqn:E.
    + eapply settles_mono; [apply IHb; [lia| |lia]|intros k3 p3; apply parsed_weaken; lia].
      split; [done|]. by apply andb_prop in E as [_ ?].
    + eapply settles_bind; [apply (parseredirs_settles _ _ _ (simple 0)); [lia|lia| |done|done]|].
      { split; [cbn; unfold MAXARGS; lia|constructor]. }
      cbv beta. intros k2 p2 [[Hk2 H2] Hs2]. eapply settles_mono; [apply parseargs_settles; [lia|lia|done|done]|].
      intros k3 p3. apply parsed_weaken. lia.
  - cbn [parseblock]. eapply settles_bind; [by apply at_open_peek|]. cbv beta. intros b p1 (-> & -> & H0). cbn [negb].
    destruct HP as [Hs _]. eapply settles_bind; [apply next_settles; lia|]. cbv beta. intros r p2 (_ & H2 & _ & Hlt).
    specialize (Hlt Hs H0). eapply settles_bind; [apply IHl; [lia|done|lia]|]. intros k p3 [Hk H3].
    eapply settles_bind; [apply peek_settles; lia|]. cbv beta. intros b p4 (H4 & _ & ->).
    destruct (negb (negb _ && _)); [cbn; by do 3 right; left|].
    eapply settles_bind; [apply next_settles; lia|]. cbv beta. intros r5 p5 (H5a & H5 & _).
    eapply settles_mono; [apply (parseredirs_settles _ _ _ (fun _ => True)); [lia|lia|done|done|done]|].
    intros k6 p6 [? _]. eapply parsed_weaken; [|done]. lia.
Qed.

Lemma parsecmd_settles :
  match parsecmd with
  | Done (k, buf) => cmd_ok k /\ length buf = S es
  | Panic m => m ∈ messages
  | _ => False
  end.
Proof.
  assert (settles parseall (fun k _ => cmd_ok k) 0%nat) as Hw.
  { destruct (parsers_settle (4 * S es)) as (Hl & _). eapply settles_bind; [apply Hl; [lia|done|lia]|].
    intros k p [Hk Hp]. eapply settles_bind; [apply peek_settles; lia|]. cbv beta. intros b p1 _. unfold settles, bind. cbn.
    destruct (bool_decide _); [done|]. cbn. right. by left. }
  unfold parsecmd, settles in *. destruct (parseall 0%nat) as [[k p]| | |]; [|done..]. split; [done|].
  rewrite nulterminate_ends, length_put_nuls, length_app, Nat.add_1_r. done.
Qed.
End parser.

(** Property C25: the parser returns on every line, and never overruns its
    fuel: with a command whose words lie in the line, so that [nulterminate]
    writes inside the buffer, and which has fewer than [MAXARGS] arguments, or
    with one of four messages; the panic of [parseblock] cannot happen. *)
Theorem parsecmd_total line :
  match parsecmd line with
  | Done (k, buf) => cmd_ok line k /\ length buf = S (length line)
  | Panic m => m ∈ messages
  | _ => False
  end.
Proof. apply parsecmd_settles. Qed.

(** Property C24: every command can be written, with any white space around its
    tokens, and is read back: the parsed command, with the strings that
    [nulterminate] leaves in the buffer, is the command meant. *)
Theorem parsecmd_reads a line :
  ast_ok a -> spells (toks LLine a) line ->
  exists k buf, parsecmd line = Done (k, buf) /\ denote buf k = a.
Proof. apply parsecmd_run. Qed.

(** [(cat <a; wc) | grep x >b &], with no more white space than needed. *)
Definition demo_ast : ast :=
  Back (Pipe (List (Redir (Exec [str "cat"]) (str "a") O_RDONLY 0) (Exec [str "wc"]))
             (Redir (Exec [str "grep"; str "x"]) (str "b") O_WRCREATE 1)).
Definition demo_line : list Z := str "(cat<a;wc)|grep x>>b&".

Lemma word_dec w : bool_decide (w <> [] /\ Forall (fun c => word_char c = true /\ c <> 0) w) = true -> word_ok w.
Proof. apply bool_decide_eq_true_1. Qed.
Lemma demo_ok : ast_ok demo_ast.
Proof.
  cbn. split_and!; try done; try (by left); try (by right); try (by apply word_dec); try (unfold MAXARGS; lia).
  all: repeat (constructor; [by apply word_dec|]); constructor.
Qed.

Lemma parsecmd_reads_witness :
  exists k buf, parsecmd demo_line = Done (k, buf) /\ denote buf k = demo_ast.
Proof.
  apply (parsecmd_reads demo_ast demo_line); [apply demo_ok|].
  vm_compute. repeat lazymatch goal with
    | |- spells [] _ => apply (spells_nil []); by constructor
    | |- spells (TSym ?c :: ?ts) (_ :: ?l) =>
        apply (spells_sym [] c ts l); [by constructor|by apply (bool_decide_eq_true_1 _)|]
    | |- spells (TGt :: ?ts) (_ :: _ :: ?l) => apply (spells_gtgt [] ts l); [by constructor|]
    | |- spells (TWord ?x :: ?ts) (32 :: ?l) =>
        let l' := eval vm_compute in (drop (length x) l) in
        apply (spells_word [32] x ts l'); [by repeat constructor|by apply word_dec|by intros ? [= <-]|]
    | |- spells (TWord ?x :: ?ts) ?l =>
        let l' := eval vm_compute in (drop (length x) l) in
        apply (spells_word [] x ts l'); [by constructor|by apply word_dec|by intros ? [= <-]|]
    end.
Defined.

(** ** Running a command *)

(** What a descriptor is for: a file opened by the shell, an end of pipe [k],
    or something inherited. *)
Inductive res := RFile (path : list Z) (mode : Z) | RPipe (k : nat) (w : bool) | RStd (n : nat).
Definition fdt : Type := list (option res).

(** The lowest free descriptor. *)
Definition fd_alloc (r : res) (t : fdt) : option (nat * fdt) :=
  match list_find (fun o => o = None) t with
  | Some (fd, _) => Some (fd, <[fd := Some r]> t)
  | None => None
  end.
Definition fd_close (fd : nat) (t : fdt) : fdt := <[fd := None]> t.
(** A failed [dup] leaves the table as it is. *)
Definition fd_dup (fd : nat) (t : fdt) : fdt :=
  match t !! fd with
  | Some (Some r) => match fd_alloc r t with Some (_, t) => t | None => t end
  | _ => t
  end.
Definition fd_pipe (k : nat) (t : fdt) : option (nat * nat * fdt) :=
  match fd_alloc (RPipe k false) t with
  | Some (p0, t) => match fd_alloc (RPipe k true) t with
                    | Some (p1, t) => Some (p0, p1, t)
                    | None => None
                    end
  | None => None
  end.

(** A program that is started: its arguments and its descriptors. *)
Definition launch : Type := list (list Z) * fdt.

Section runcmd.
(** Whether [open] of a file in a mode succeeds. *)
Context (openable : list Z -> Z -> bool).

(** The programs started by a process with table [t] and by its children, with
    the number of the next pipe. *)
Fixpoint runcmd (c : ast) (t : fdt) (k : nat) : list launch * nat :=
  match c with
  | Exec [] => ([], k)
  | Exec argv => ([(argv, t)], k)
  | Redir c file mode fd =>
      let t := fd_close (Z.to_nat fd) t in
      if openable file mode then
        match fd_alloc (RFile file mode) t with
        | Some (_, t) => runcmd c t k
        | None => ([], k)
        end
      else ([], k)
  | List l r =>
      let '(a, k) := runcmd l t k in
      let '(b, k) := runcmd r t k in
      (a ++ b, k)
  | Pipe l r =>
      match fd_pipe k t with
      | None => ([], k)
      | Some (p0, p1, t) =>
          let '(a, k') := runcmd l (fd_close p1 (fd_close p0 (fd_dup p1 (fd_close 1 t)))) (S k) in
          let '(b, k') := runcmd r (fd_close p1 (fd_close p0 (fd_dup p0 (fd_close 0 t)))) k' in
          (a ++ b, k')
      end
  | Back c => runcmd c t k
  end.

(** Standard input, output and error, and no other descriptor. *)
Definition std (i o e : res) : fdt := [Some i; Some o; Some e] ++ replicate 13 None.
Definition std_launch (x : list (list Z) * (res * res * res)) : launch :=
  let '(argv, (i, o, e)) := x in (argv, std i o e).

(** What the syntax means: the input, output and error of each program. *)
Fixpoint wires (c : ast) (i o e : res) (k : nat) : list (list (list Z) * (res * res * res)) * nat :=
  match c with
  | Exec [] => ([], k)
  | Exec argv => ([(argv, (i, o, e))], k)
  | Redir c file mode fd =>
      if openable file mode then
        if fd =? 0 then wires c (RFile file mode) o e k else wires c i (RFile file mode) e k
      else ([], k)
  | List l r =>
      let '(a, k) := wires l i o e k in
      let '(b, k) := wires r i o e k in
      (a ++ b, k)
  | Pipe l r =>
      let '(a, k') := wires l i (RPipe k true) e (S k) in
      let '(b, k') := wires r (RPipe k false) o e k' in
      (a ++ b, k')
  | Back c => wires c i o e k
  end.

Definition launched (x : list (list (list Z) * (res * res * res)) * nat) : list launch * nat :=
  (std_launch <$> x.1, x.2).

(** Property C26: a program that the shell starts has standard input, output
    and error as the redirections and pipes around it say, and no other
    descriptor: no end of a pipe is left open in any process. *)
Theorem runcmd_wires c i o e k :
  ast_ok c -> runcmd c (std i o e) k = launched (wires c i o e k).
Proof.
  revert i o e k. induction c as [args|c IH x m fd|l IHl r IHr|l IHl r IHr|c IH]; intros i o e k Hc; cbn [runcmd wires].
  - by destruct args.
  - destruct Hc as (Hc & _ & Hm). destruct (openable x m); [|done].
    destruct Hm as [[-> ->]|[-> ->]]; cbn; by apply IH.
  - destruct Hc as [Hl Hr]. change (fd_pipe k (std i o e)) with (Some (3%nat, 4%nat, <[4%nat := Some (RPipe k true)]> (<[3%nat := Some (RPipe k false)]> (std i o e)))).
    cbn iota.
    match goal with |- context [runcmd l ?t] => change t with (std i (RPipe k true) e) end.
    match goal with |- context [runcmd r ?t] => change t with (std (RPipe k false) o e) end.
    rewrite IHl by done. destruct (wires l i (RPipe k true) e (S k)) as [a k1]. unfold launched at 1. cbn [fst snd].
    rewrite IHr by done. destruct (wires r (RPipe k false) o e k1) as [b k2]. unfold launched. cbn [fst snd]. by rewrite fmap_app.
  - destruct Hc as [Hl Hr]. rewrite IHl by done. destruct (wires l i o e k) as [a k1]. unfold launched at 1. cbn [fst snd].
    rewrite IHr by done. destruct (wires r i o e k1) as [b k2]. unfold launched. cbn [fst snd]. by rewrite fmap_app.
  - by apply IH.
Qed.
End runcmd.

Lemma runcmd_wires_witness :
  runcmd (fun _ _ => true) demo_ast (std (RStd 0) (RStd 1) (RStd 2)) 0 =
  ([([str "cat"], std (RFile (str "a") O_RDONLY) (RPipe 0 true) (RStd 2));
    ([str "wc"], std (RStd 0) (RPipe 0 true) (RStd 2));
    ([str "grep"; str "x"], std (RPipe 0 false) (RFile (str "b") O_WRCREATE) (RStd 2))], 1%nat).
Proof.
  rewrite (runcmd_wires (fun _ _ => true) demo_ast (RStd 0) (RStd 1) (RStd 2) 0); [by vm_compute|apply demo_ok].
Defined.

(** ** The main loop *)

(** What [main] does with a line: change directory itself, or have a child run
    it. *)
Inductive action := ACd (path : list Z) | ARun (line : list Z).

Definition BUFSZ : Z := 100.
(** [getcmd]: the string in [buf], unless it is empty. *)
Definition getcmd (input : list Z) : option (list Z) * list Z :=
  let '(buf, rest) := ugets BUFSZ input in
  (match cstring buf with [] => None | s => Some s end, rest).
Definition shell_line (s : list Z) : action :=
  if bool_decide (take 3 s = str "cd ") then ACd (drop 3 (removelast s)) else ARun s.
Fixpoint shell (fuel : nat) (input : list Z) : list action :=
  match fuel with
  | O => []
  | S fuel =>
      match getcmd input with
      | (Some s, rest) => shell_line s :: shell fuel rest
      | (None, _) => []
      end
  end.

(** A line of text: no NUL, and short enough for the buffer. *)
Definition text_line (l : list Z) : Prop :=
  Forall (fun c => c <> NEWLINE /\ c <> RETURN /\ c <> 0) l /\ Z.of_nat (length l) + 1 < BUFSZ.

Lemma cstring_id l : Forall (fun c => c <> 0) l -> cstring l = l.
Proof. induction 1 as [|c l Hc _ IH]; [done|]. cbn. by rewrite (proj2 (Z.eqb_neq _ _)), IH by done. Qed.

(** The shell takes its input line by line. *)
Lemma shell_lines ls fuel :
  Forall text_line ls -> (length ls < fuel)%nat ->
  shell fuel (mjoin ((fun l => l ++ [NEWLINE]) <$> ls)) = (fun l => shell_line (l ++ [NEWLINE])) <$> ls.
Proof.
  intros Hls. revert fuel. induction Hls as [|l ls [Hl Hn] _ IH]; intros [|fuel] Hf; cbn [length] in *; try lia; [done|].
  cbn [fmap list_fmap mjoin list_join shell]. unfold getcmd. rewrite <- app_assoc. cbn [app].
  rewrite gets_line; [|by eapply Forall_impl; [exact Hl|]; intros c (? & ? & _)|done].
  rewrite cstring_id.
  - destruct (l ++ [NEWLINE]) eqn:E; [by destruct l|]. rewrite <- E. f_equal. apply IH. lia.
  - apply Forall_app. split; [|by repeat constructor]. eapply Forall_impl; [exact Hl|]. by intros c (_ & _ & ?).
Qed.
