(* ===== verification/Text.v ===== *)
(** * Text: programs on text (grep.c, cat.c, wc.c, echo.c; P1a wgrep.c, wcat.c)

    A program is the bytes it writes to standard output, given what its reads
    return. Strings are lists of characters without the NUL. *)

From stdpp Require Import base list numbers strings sets.
From S2P Require Import Prelude Bytes Rle KString Ulib.

Local Open Scope Z_scope.

(** ** The matcher of grep.c *)

Definition CARET : Z := 94.
Definition DOLLAR : Z := 36.
Definition STAR : Z := 42.
Definition ANY : Z := 46.

(** [matchstar], given [matchhere] of the rest of the expression. *)
Fixpoint matchstar (here : list Z -> bool) (c : Z) (text : list Z) : bool :=
  here text ||
  match text with
  | x :: text => ((x =? c) || (c =? ANY)) && matchstar here c text
  | [] => false
  end.

Fixpoint matchhere (re text : list Z) : bool :=
  match re with
  | [] => true
  | c :: re' =>
      let one :=
        if (c =? DOLLAR) && bool_decide (re' = []) then bool_decide (text = [])
        else match text with
             | x :: text => ((c =? ANY) || (c =? x)) && matchhere re' text
             | [] => false
             end in
      match re' with
      | d :: re'' => if d =? STAR then matchstar (matchhere re'') c text else one
      | [] => one
      end
  end.

Fixpoint match_any (re text : list Z) : bool :=
  matchhere re text || match text with _ :: text => match_any re text | [] => false end.
Definition match_re (re text : list Z) : bool :=
  match re with
  | c :: re' => if c =? CARET then matchhere re' text else match_any re text
  | [] => match_any re text
  end.

(** ** The expressions *)

(** A character or a dot, starred or not, and whether the expression ends in a
    dollar sign. *)
Fixpoint parse_re (re : list Z) : list (Z * bool) * bool :=
  match re with
  | [] => ([], false)
  | c :: re' =>
      match re' with
      | d :: re'' =>
          if d =? STAR then let '(r, e) := parse_re re'' in ((c, true) :: r, e)
          else let '(r, e) := parse_re re' in ((c, false) :: r, e)
      | [] => if c =? DOLLAR then ([], true) else ([(c, false)], false)
      end
  end.

Definition char_ok (c x : Z) : Prop := c = ANY \/ x = c.
(** The strings that an expression describes. *)
Inductive denotes : list (Z * bool) -> list Z -> Prop :=
| denotes_nil : denotes [] []
| denotes_one c x r t : char_ok c x -> denotes r t -> denotes ((c, false) :: r) (x :: t)
| denotes_star c s r t : Forall (char_ok c) s -> denotes r t -> denotes ((c, true) :: r) (s ++ t).

(** [re] describes the text up to some point, which is its end when [re] ends
    in a dollar sign. *)
Definition here_at (re text : list Z) : Prop :=
  exists mid post, text = mid ++ post /\ denotes (parse_re re).1 mid /\ ((parse_re re).2 = true -> post = []).

Lemma matchstar_spec here (P : list Z -> Prop) c text :
  (forall t, here t = true <-> P t) ->
  matchstar here c text = true <-> exists s t, text = s ++ t /\ Forall (char_ok c) s /\ P t.
Proof.
  intros HP. induction text as [|x text IH]; cbn [matchstar].
  - rewrite orb_false_r, HP. split.
    + intros H. exists [], []. by repeat constructor.
    + intros (s & t & E & _ & Ht). symmetry in E. apply app_nil in E as [-> ->]. done.
  - rewrite orb_true_iff, andb_true_iff, orb_true_iff, !Z.eqb_eq, HP, IH. split.
    + intros [H|[Hc (s & t & -> & Hs & Ht)]]; [by exists [], (x :: text)|].
      exists (x :: s), t. split_and!; [done| |done]. constructor; [|done]. unfold char_ok. naive_solver.
    + intros ([|y s] & t & E & Hs & Ht); cbn in E; [left; by subst|]. injection E as -> ->.
      inversion Hs as [|? ? Hy Hs']; subst. right. split; [unfold char_ok in Hy; naive_solver|]. by exists s, t.
Qed.

Lemma here_star c re text :
  here_at (c :: STAR :: re) text <-> exists s t, text = s ++ t /\ Forall (char_ok c) s /\ here_at re t.
Proof.
  unfold here_at. cbn [parse_re]. rewrite Z.eqb_refl. destruct (parse_re re) as [r e]. cbn [fst snd]. split.
  - intros (mid & post & -> & Hd & He). inversion Hd as [| |? s ? t Hs Ht]; subst. exists s, (t ++ post).
    rewrite <- app_assoc. split_and!; [done|done|]. by exists t, post.
  - intros (s & ? & -> & Hs & t & post & -> & Hd & He). exists (s ++ t), post.
    rewrite <- app_assoc. split_and!; [done| |done]. by constructor.
Qed.

(** The expression [c re], without a star behind [c]. *)
Definition plain (c : Z) (re : list Z) : Prop := hd_error re <> Some STAR /\ (re = [] -> c <> DOLLAR).
Lemma here_plain c re text :
  plain c re -> here_at (c :: re) text <-> exists x t, text = x :: t /\ char_ok c x /\ here_at re t.
Proof.
  intros [Hs Hd]. assert (parse_re (c :: re) = ((c, false) :: (parse_re re).1, (parse_re re).2)) as E.
  { destruct re as [|d re]; [cbn; by rewrite (proj2 (Z.eqb_neq _ _)) by (by apply Hd)|].
    change (parse_re (c :: d :: re)) with
      (if d =? STAR then let '(r, e) := parse_re re in ((c, true) :: r, e)
       else let '(r, e) := parse_re (d :: re) in ((c, false) :: r, e)).
    rewrite (proj2 (Z.eqb_neq d STAR)) by (intros ->; by apply Hs). by destruct (parse_re (d :: re)). }
  unfold here_at. rewrite E. cbn [fst snd]. split.
  - intros (mid & post & -> & Hm & He). inversion Hm; subst. eexists _, _. split_and!; [done|done|]. by eexists _, post.
  - intros (x & ? & -> & Hx & t & post & -> & Hd' & He). exists (x :: t), post. split_and!; [done|by constructor|done].
Qed.

Lemma matchhere_spec re text : matchhere re text = true <-> here_at re text.
Proof.
  remember (length re) as n eqn:En. revert re text En. induction (lt_wf n) as [n _ IH]. intros re text ->.
  destruct re as [|c re].
  { split; [|done]. intros _. exists [], text. split_and!; [done|constructor|done]. }
  assert (hd_error re = Some STAR \/ hd_error re <> Some STAR) as [Hs|Hs] by (destruct (decide (hd_error re = Some STAR)); auto).
  - destruct re as [|d re]; [done|]. injection Hs as ->. cbn [matchhere]. rewrite Z.eqb_refl, here_star.
    apply matchstar_spec. intros t. apply (IH (length re)); [cbn; lia|done].
  - assert (matchhere (c :: re) text =
      if (c =? DOLLAR) && bool_decide (re = []) then bool_decide (text = [])
      else match text with
           | x :: text => ((c =? ANY) || (c =? x)) && matchhere re text
           | [] => false
           end) as ->.
    { destruct re as [|d re]; cbn [matchhere]; [done|]. by rewrite (proj2 (Z.eqb_neq d STAR)) by (intros E0; apply Hs; cbn; congruence). }
    destruct ((c =? DOLLAR) && bool_decide (re = [])) eqn:Ed.
    + apply andb_prop in Ed as [->%Z.eqb_eq ->%bool_decide_eq_true]. rewrite bool_decide_eq_true.
      unfold here_at. cbn [parse_re fst snd]. rewrite Z.eqb_refl. cbn [fst snd]. split.
      * intros ->. exists [], []. split_and!; [done|constructor|done].
      * intros (mid & post & -> & Hm & ->); [|done]. inversion Hm. done.
    + rewrite here_plain.
      2: { split; [done|]. intros -> ->. by rewrite Z.eqb_refl in Ed. }
      destruct text as [|x text]; [split; [done|by intros (x & t & ? & _)]|].
      rewrite andb_true_iff, orb_true_iff, !Z.eqb_eq, (IH (length re)) by (cbn; done || lia). unfold char_ok. naive_solver.
Qed.

(** Property C27: [match] finds what the expression means: a part of the text
    that the expression describes, starting at the front when it begins with a
    caret, and reaching to the end when it ends in a dollar sign; a starred
    character or dot stands for any number of them. *)
Theorem match_correct re text :
  match_re re text = true <->
  exists pre mid post, text = pre ++ mid ++ post /\
    let re' := match re with c :: re' => if c =? CARET then re' else re | [] => [] end in
    (head re = Some CARET -> pre = []) /\ denotes (parse_re re').1 mid /\ ((parse_re re').2 = true -> post = []).
Proof.
  assert (forall re text, match_any re text = true <-> exists pre t, text = pre ++ t /\ here_at re t) as Hany.
  { clear. intros re text. induction text as [|x text IH]; cbn [match_any].
    - rewrite orb_false_r, matchhere_spec. split; [by exists [], []|]. intros (pre & t & E & Ht).
      symmetry in E. by apply app_nil in E as [-> ->].
    - rewrite orb_true_iff, matchhere_spec, IH. split.
      + intros [Ht|(pre & t & -> & Ht)]; [by exists [], (x :: text)|by exists (x :: pre), t].
      + intros ([|y pre] & t & E & Ht); cbn in E; [left; by subst|]. injection E as -> ->. right. by exists pre, t. }
  assert (forall re', match_any re' text = true <-> exists pre mid post, text = pre ++ mid ++ post /\
    denotes (parse_re re').1 mid /\ ((parse_re re').2 = true -> post = [])) as Hany'.
  { intros re'. rewrite Hany. unfold here_at. naive_solver. }
  destruct re as [|c re]; cbn [match_re head].
  { rewrite (Hany' []). naive_solver. }
  destruct (Z.eqb_spec c CARET) as [->|Hne].
  - rewrite matchhere_spec. unfold here_at. split; [intros (mid & post & ?); exists [], mid, post; naive_solver|].
    intros (pre & mid & post & -> & Hpre & ?). rewrite (Hpre eq_refl). by exists mid, post.
  - rewrite Hany'. naive_solver.
Qed.

(** ** The scan of a file (grep.c) *)

Definition GREPBUF : nat := 1024.

(** [strchr(p, '\n')]: the characters before the newline and those behind it;
    a NUL ends the search. *)
Fixpoint find_nl (p : list Z) : option (list Z * list Z) :=
  match p with
  | [] => None
  | c :: p =>
      if c =? 0 then None
      else if c =? NEWLINE then Some ([], p)
      else match find_nl p with Some (l, rest) => Some (c :: l, rest) | None => None end
  end.

(** The inner loop: what is written, and the rest of the buffer. *)
Fixpoint grep_scan (fuel : nat) (re p : list Z) : list Z * list Z :=
  match fuel, find_nl p with
  | S fuel, Some (l, rest) =>
      let '(out, rest) := grep_scan fuel re rest in
      ((if match_re re l then l ++ [NEWLINE] else []) ++ out, rest)
  | _, _ => ([], p)
  end.

(** The outer loop: [buf] holds the start of a line, [lims] bounds what the
    next reads return; a read of a file returns all that is asked for. *)
Fixpoint grep_loop (fuel : nat) (re : list Z) (lims : list nat) (buf input : list Z) : list Z :=
  match fuel with
  | O => []
  | S fuel =>
      let n := (GREPBUF - length buf - 1)%nat in
      let n := match lims with lim :: _ => Nat.min lim n | [] => n end in
      match take n input with
      | [] => []
      | chunk =>
          let buf := buf ++ chunk in
          let '(out, rest) := grep_scan (length buf) re buf in
          let rest := if (length rest =? length buf)%nat then [] else rest in
          out ++ grep_loop fuel re (tail lims) rest (drop n input)
      end
  end.
Definition grep (re : list Z) (lims : list nat) (input : list Z) : list Z :=
  grep_loop (S (length input)) re lims [] input.

(** [main], without the program's name; [None] is a file that cannot be
    opened. *)
Fixpoint grep_files (open : list Z -> option (list Z)) (re : list Z) (names : list (list Z)) : list Z :=
  match names with
  | [] => []
  | name :: names =>
      match open name with
      | None => str "grep: cannot open " ++ name ++ [NEWLINE]
      | Some f => grep re [] f ++ grep_files open re names
      end
  end.
Definition grep_main (open : list Z -> option (list Z)) (stdin : list Z) (argv : list (list Z)) : list Z :=
  match argv with
  | [] => []
  | [re] => grep re [] stdin
  | re :: names => grep_files open re names
  end.

(** A line that fits the buffer. *)
Definition grep_line (l : list Z) : Prop :=
  Forall (fun c => c <> NEWLINE /\ c <> 0) l /\ (length l + 1 < GREPBUF)%nat.
Definition unlines (ls : list (list Z)) : list Z := mjoin ((fun l => l ++ [NEWLINE]) <$> ls).
Definition matching (re : list Z) (ls : list (list Z)) : list (list Z) := filter (fun l => match_re re l = true) ls.

Lemma find_nl_line l rest : Forall (fun c => c <> NEWLINE /\ c <> 0) l -> find_nl (l ++ NEWLINE :: rest) = Some (l, rest).
Proof.
  induction 1 as [|c l [H1 H2] _ IH]; [done|]. cbn. by rewrite (proj2 (Z.eqb_neq c 0)), (proj2 (Z.eqb_neq c _)), IH by done.
Qed.
Lemma find_nl_none l : Forall (fun c => c <> NEWLINE /\ c <> 0) l -> find_nl l = None.
Proof.
  induction 1 as [|c l [H1 H2] _ IH]; [done|]. cbn. by rewrite (proj2 (Z.eqb_neq c 0)), (proj2 (Z.eqb_neq c _)), IH by done.
Qed.

Lemma unlines_cons l ls : unlines (l :: ls) = l ++ NEWLINE :: unlines ls.
Proof. unfold unlines. cbn. by rewrite <- app_assoc. Qed.
Lemma length_unlines ls : (length ls <= length (unlines ls))%nat.
Proof. induction ls as [|l ls IH]; [done|]. rewrite unlines_cons, length_app. cbn [length]. lia. Qed.

Lemma grep_scan_lines fuel re ls last :
  Forall grep_line ls -> Forall (fun c => c <> NEWLINE /\ c <> 0) last -> (length ls <= fuel)%nat ->
  grep_scan fuel re (unlines ls ++ last) = (unlines (matching re ls), last).
Proof.
  intros Hls Hlast. revert fuel. induction Hls as [|l ls [Hl _] _ IH]; intros fuel Hf.
  - cbn [app unlines]. destruct fuel; cbn [grep_scan]; [done|]. by rewrite find_nl_none.
  - destruct fuel as [|fuel]; cbn [length] in Hf; [lia|]. rewrite unlines_cons, <- app_assoc. cbn [app grep_scan].
    rewrite find_nl_line by done. rewrite IH by lia. unfold matching. rewrite filter_cons.
    destruct (match_re re l) eqn:E.
    + rewrite decide_True by done. by rewrite unlines_cons, <- app_assoc.
    + by rewrite decide_False by congruence.
Qed.

(** The first [n] characters of the text: whole lines and the start of the next
    one. *)
Lemma take_lines n ls last :
  exists ls1 ls2 a b, ls = ls1 ++ ls2 /\ take n (unlines ls ++ last) = unlines ls1 ++ a /\
    drop n (unlines ls ++ last) = b /\ a ++ b = unlines ls2 ++ last /\
    (match ls2 with [] => a `prefix_of` last | l :: _ => a `prefix_of` l end).
Proof.
  revert n. induction ls as [|l ls IH]; intros n.
  - exists [], [], (take n last), (drop n last). cbn. split_and!; [done|done|done|apply take_drop|apply prefix_take].
  - rewrite unlines_cons. destruct (decide (n <= length l)%nat) as [Hn|Hn].
    + exists [], (l :: ls), (take n l), (drop n l ++ NEWLINE :: unlines ls ++ last). rewrite unlines_cons, <- !app_assoc. cbn [app].
      split_and!; [done| | | |apply prefix_take].
      * by rewrite take_app_le.
      * by rewrite drop_app_le.
      * by rewrite app_assoc, take_drop.
    + destruct (IH (n - S (length l))%nat) as (ls1 & ls2 & a & b & -> & Ht & Hd & Hab & Hp).
      exists (l :: ls1), ls2, a, b. rewrite unlines_cons, <- !app_assoc. cbn [app]. split_and!; [done| | |done|done].
      * replace n with (length l + S (n - S (length l)))%nat at 1 by lia. rewrite take_app_add. f_equal.
        cbn [take]. f_equal. done.
      * replace n with (length l + S (n - S (length l)))%nat at 1 by lia. rewrite drop_app_add. done.
Qed.

Lemma unlines_app ls1 ls2 : unlines (ls1 ++ ls2) = unlines ls1 ++ unlines ls2.
Proof. unfold unlines. by rewrite fmap_app, join_app. Qed.

Lemma grep_loop_none fuel re buf input :
  Forall (fun c => c <> NEWLINE /\ c <> 0) (buf ++ input) -> grep_loop fuel re [] buf input = [].
Proof.
  revert buf input. induction fuel as [|fuel IH]; intros buf input Hn; [done|]. cbn [grep_loop tail].
  set (n := (GREPBUF - length buf - 1)%nat). destruct (take n input) as [|x xs] eqn:E; [done|]. rewrite <- E.
  apply Forall_app in Hn as [Hb Hi].
  assert (Forall (fun c => c <> NEWLINE /\ c <> 0) (buf ++ take n input)) as Hbt by (apply Forall_app; split; [done|by apply Forall_take]).
  pose proof (grep_scan_lines (length (buf ++ take n input)) re [] (buf ++ take n input)) as Hs. cbn [unlines app] in Hs.
  change (unlines [] ++ buf ++ take n input) with (buf ++ take n input) in Hs.
  rewrite Hs; [|done|done|cbn; lia]. rewrite Nat.eqb_refl. apply IH. by apply Forall_drop.
Qed.

Lemma grep_loop_lines fuel re buf input ls last :
  buf ++ input = unlines ls ++ last -> Forall grep_line ls -> Forall (fun c => c <> NEWLINE /\ c <> 0) last ->
  (match ls with [] => True | l :: _ => buf `prefix_of` l end) -> (length input < fuel)%nat ->
  grep_loop fuel re [] buf input = unlines (matching re ls).
Proof.
  revert buf input ls. induction fuel as [|fuel IH]; intros buf input ls E Hls Hlast Hp Hf; [lia|].
  destruct ls as [|l ls]; [apply grep_loop_none; by rewrite E|].
  assert (length buf <= length l)%nat as Hbl by (by apply prefix_length).
  inversion Hls as [|? ? [Hl Hlen] Hls']; subst. cbn [grep_loop tail].
  set (n := (GREPBUF - length buf - 1)%nat).
  assert (buf ++ take n input = take (GREPBUF - 1) (buf ++ input)) as Et.
  { rewrite take_app_ge by (unfold GREPBUF in *; lia). do 2 f_equal. unfold n. lia. }
  assert (drop n input = drop (GREPBUF - 1) (buf ++ input)) as Ed.
  { rewrite drop_app_ge by (unfold GREPBUF in *; lia). f_equal. unfold n. lia. }
  assert (length buf < length (buf ++ input))%nat as Hin.
  { rewrite E, unlines_cons, !length_app. cbn [length]. lia. }
  destruct (take n input) as [|x xs] eqn:Ex.
  { apply (f_equal length) in Ex. rewrite length_take in Ex. rewrite length_app in Hin. cbn in Ex. unfold n, GREPBUF in *. lia. }
  rewrite <- Ex in Et |- *. rewrite Et, Ed, E.
  destruct (take_lines (GREPBUF - 1) (l :: ls) last) as (ls1 & ls2 & a & b & El & Ht & Hd & Hab & Hpre).
  assert (Forall (fun c => c <> NEWLINE /\ c <> 0) a) as Ha.
  { destruct ls2 as [|l2 ls2]; destruct Hpre as [k Hk]; [rewrite Hk in Hlast; by apply Forall_app in Hlast as [? _]|].
    assert (grep_line l2) as [Hl2 _] by (rewrite Forall_forall in Hls; apply Hls; rewrite El; apply elem_of_app; right; by left).
    rewrite Hk in Hl2. by apply Forall_app in Hl2 as [? _]. }
  rewrite El in Hls. apply Forall_app in Hls as [Hl1 Hl2]. rewrite Ht, Hd.
  rewrite grep_scan_lines by (done || (rewrite length_app; pose proof (length_unlines ls1); lia)).
  destruct ls1 as [|l1 ls1].
  { exfalso. apply (f_equal length) in Ht. cbn [app] in El. rewrite <- El in Hpre. apply prefix_length in Hpre.
    rewrite length_take, unlines_cons, !length_app in Ht. cbn [length] in Ht.
    change (length (unlines [])) with 0%nat in Ht. unfold GREPBUF in *. lia. }
  assert ((length a =? length (unlines (l1 :: ls1) ++ a))%nat = false) as ->.
  { apply Nat.eqb_neq. rewrite length_app. pose proof (length_unlines (l1 :: ls1)). cbn [length] in *. lia. }
  rewrite El. unfold matching. rewrite filter_app, unlines_app. f_equal.
  apply IH; [done|done|done|by destruct ls2|]. rewrite <- Hd, <- E, <- Ed, length_drop.
  apply (f_equal length) in Ex. rewrite length_take in Ex. cbn [length] in Ex. lia.
Qed.

(** On a file, [grep] prints the matching lines, provided that each line fits
    the buffer; characters behind the last newline are not looked at. *)
Lemma grep_file re ls last :
  Forall grep_line ls -> Forall (fun c => c <> NEWLINE /\ c <> 0) last ->
  grep re [] (unlines ls ++ last) = unlines (matching re ls).
Proof.
  intros Hls Hlast. apply (grep_loop_lines _ _ _ _ ls last); [done|done|done| |lia].
  destruct ls; [done|apply prefix_nil].
Qed.

(** Reads that return less, as those of a pipe do, lose the start of a line:
    the line [ab] is printed as [b]. *)
Lemma grep_drops_part : grep (str "b") [1%nat] (unlines [str "ab"]) = unlines [str "b"].
Proof. by vm_compute. Qed.

(** ** cat.c, wc.c and echo.c *)

(** What the reads of up to [n] characters return until the end of the file;
    [lims] bounds the first of them. *)
Fixpoint reads (fuel n : nat) (lims : list nat) (input : list Z) : list (list Z) :=
  match fuel with
  | O => []
  | S fuel =>
      let k := match lims with lim :: _ => Nat.min lim n | [] => n end in
      match take k input with
      | [] => []
      | chunk => chunk :: reads fuel n (tail lims) (drop k input)
      end
  end.
Definition read_all (n : nat) (lims : list nat) (input : list Z) : list (list Z) :=
  reads (S (length input)) n lims input.

Definition CATBUF : nat := 512.
Definition cat (lims : list nat) (input : list Z) : list Z := mjoin (read_all CATBUF lims input).
Fixpoint cat_files (open : list Z -> option (list Z)) (names : list (list Z)) : list Z :=
  match names with
  | [] => []
  | name :: names =>
      match open name with
      | None => str "cat: cannot open " ++ name ++ [NEWLINE]
      | Some f => cat [] f ++ cat_files open names
      end
  end.
Definition cat_main (open : list Z -> option (list Z)) (stdin : list Z) (argv : list (list Z)) : list Z :=
  match argv with [] => cat [] stdin | names => cat_files open names end.

(** The locals of [wc]. *)
Record wc_st := { wc_l : Z; wc_w : Z; wc_c : Z; inword : bool }.
Definition WC_SPACES : list Z := [32; 13; 9; 10; 11].
Definition wc_char (s : wc_st) (x : Z) : wc_st :=
  let c := i32 (wc_c s + 1) in
  let l := if x =? NEWLINE then i32 (wc_l s + 1) else wc_l s in
  if bool_decide (x ∈ WC_SPACES) then {| wc_l := l; wc_w := wc_w s; wc_c := c; inword := false |}
  else if inword s then {| wc_l := l; wc_w := wc_w s; wc_c := c; inword := true |}
  else {| wc_l := l; wc_w := i32 (wc_w s + 1); wc_c := c; inword := true |}.
Definition wc_start : wc_st := {| wc_l := 0; wc_w := 0; wc_c := 0; inword := false |}.
Definition wc_count (lims : list nat) (input : list Z) : wc_st :=
  fold_left (fun s chunk => fold_left wc_char chunk s) (read_all CATBUF lims input) wc_start.
Definition wc (name : list Z) (lims : list nat) (input : list Z) : list Z :=
  let s := wc_count lims input in
  printint (wc_l s) 10 true ++ [32] ++ printint (wc_w s) 10 true ++ [32] ++
  printint (wc_c s) 10 true ++ [32] ++ name ++ [NEWLINE].
Fixpoint wc_files (open : list Z -> option (list Z)) (names : list (list Z)) : list Z :=
  match names with
  | [] => []
  | name :: names =>
      match open name with
      | None => str "wc: cannot open " ++ name ++ [NEWLINE]
      | Some f => wc name [] f ++ wc_files open names
      end
  end.
Definition wc_main (open : list Z -> option (list Z)) (stdin : list Z) (argv : list (list Z)) : list Z :=
  match argv with [] => wc [] [] stdin | names => wc_files open names end.

Fixpoint echo (argv : list (list Z)) : list Z :=
  match argv with
  | [] => []
  | [a] => a ++ [NEWLINE]
  | a :: argv => a ++ [32] ++ echo argv
  end.

Lemma reads_join fuel n lims input :
  (0 < n)%nat -> Forall (fun k => (0 < k)%nat) lims -> (length input < fuel)%nat ->
  mjoin (reads fuel n lims input) = input.
Proof.
  intros Hn. revert lims input. induction fuel as [|fuel IH]; intros lims input Hl Hf; [lia|]. cbn [reads].
  set (k := match lims with lim :: _ => Nat.min lim n | [] => n end).
  assert (0 < k)%nat as Hk by (destruct Hl; unfold k; lia).
  destruct (take k input) as [|x xs] eqn:E.
  - destruct input as [|y input]; [done|]. destruct k; [lia|done].
  - rewrite <- E. cbn [mjoin list_join]. rewrite IH; [apply take_drop|by destruct Hl|].
    apply (f_equal length) in E. rewrite length_take in E. cbn in E. rewrite length_drop. lia.
Qed.

(** The output does not depend on how the input arrives. *)
Lemma cat_copies lims input : Forall (fun k => (0 < k)%nat) lims -> cat lims input = input.
Proof. intros Hl. apply reads_join; [by unfold CATBUF; lia|done|lia]. Qed.
Lemma wc_whole lims input :
  Forall (fun k => (0 < k)%nat) lims -> wc_count lims input = fold_left wc_char input wc_start.
Proof.
  intros Hl. rewrite <- (reads_join (S (length input)) CATBUF lims input) at 2 by (done || (unfold CATBUF; lia)).
  unfold wc_count, read_all. generalize wc_start. induction (reads _ _ _ _) as [|c cs IH]; intros s; [done|]. cbn.
  by rewrite fold_left_app, IH.
Qed.

(** Lines and characters are counted; a word begins at a character that is not
    white space and does not follow one that is not. *)
Fixpoint word_starts (inw : bool) (l : list Z) : nat :=
  match l with
  | [] => 0
  | x :: l =>
      if bool_decide (x ∈ WC_SPACES) then word_starts false l
      else ((if inw then 0 else 1) + word_starts true l)%nat
  end.
Lemma wc_spec input s :
  0 <= wc_l s -> 0 <= wc_w s -> 0 <= wc_c s ->
  wc_l s + Z.of_nat (length input) < 2 ^ 31 -> wc_w s + Z.of_nat (length input) < 2 ^ 31 ->
  wc_c s + Z.of_nat (length input) < 2 ^ 31 ->
  let r := fold_left wc_char input s in
  wc_l r = wc_l s + Z.of_nat (length (filter (eq NEWLINE) input)) /\
  wc_w r = wc_w s + Z.of_nat (word_starts (inword s) input) /\
  wc_c r = wc_c s + Z.of_nat (length input).
Proof.
  revert s. induction input as [|x input IH]; intros s Hl Hw Hc Hl' Hw' Hc'; cbv zeta; cbn [fold_left].
  { cbn. lia. }
  cbn [length] in *.
  assert (i32 (wc_c s + 1) = wc_c s + 1 /\ i32 (wc_l s + 1) = wc_l s + 1 /\ i32 (wc_w s + 1) = wc_w s + 1) as (Ec & El & Ew)
    by (split_and!; apply i32_small; wrap_lia).
  assert (exists w b, wc_char s x = {| wc_l := wc_l s + (if decide (NEWLINE = x) then 1 else 0);
    wc_w := w; wc_c := wc_c s + 1; inword := b |} /\
    w + Z.of_nat (word_starts b input) = wc_w s + Z.of_nat (word_starts (inword s) (x :: input)) /\ wc_w s <= w <= wc_w s + 1)
    as (w & b & E & Hws & Hwr).
  { unfold wc_char. rewrite Ec, El, Ew.
    assert ((if x =? NEWLINE then wc_l s + 1 else wc_l s) = wc_l s + (if decide (NEWLINE = x) then 1 else 0)) as ->
      by (destruct (Z.eqb_spec x NEWLINE), (decide (NEWLINE = x)); congruence || lia).
    cbn [word_starts]. destruct (bool_decide (x ∈ WC_SPACES)); [|destruct (inword s)];
      (eexists _, _; split_and!; [done|lia..]). }
  destruct (IH (wc_char s x)) as (I1 & I2 & I3); rewrite ?E; cbn [wc_l wc_w wc_c inword];
    [destruct (decide _); lia..|]. rewrite E in I1, I2, I3. cbn [wc_l wc_w wc_c inword] in *.
  rewrite filter_cons. split_and!.
  - rewrite I1. destruct (decide _); cbn [length]; lia.
  - rewrite I2. lia.
  - rewrite I3. lia.
Qed.

(** ** P1a: wgrep.c and wcat.c *)

(** The string in a buffer: the characters before its first NUL. *)
Definition c_str (l : list Z) : list Z := take (Rle.strlen l) l.
(** [strstr(s, t) != NULL]. *)
Fixpoint strstr (s t : list Z) : bool :=
  bool_decide (take (length t) s = t) || match s with _ :: s => strstr s t | [] => false end.

Definition wgrep_stream (term f : list Z) : list Z :=
  mjoin (c_str <$> filter (fun l => strstr (c_str l) term = true) (getlines f)).
Fixpoint wgrep_files (fopen : files) (term : list Z) (argv : list string) (out : list Z) : run :=
  match argv with
  | [] => {| stdout := out; code := 0 |}
  | name :: argv =>
      match fopen name with
      | None => {| stdout := out ++ str "wgrep: cannot open file" ++ [NL]; code := 1 |}
      | Some f => wgrep_files fopen term argv (out ++ wgrep_stream term f)
      end
  end.
Definition wgrep (fopen : files) (stdin : list Z) (argv : list string) : run :=
  match argv with
  | [] => {| stdout := str "wgrep: searchterm [file ...]" ++ [NL]; code := 1 |}
  | [term] => {| stdout := wgrep_stream (str term) stdin; code := 0 |}
  | term :: argv => wgrep_files fopen (str term) argv []
  end.

Definition WCATBUF : nat := 256.
(** [fgets(buffer, n + 1, f)]: up to [n] characters, and no further than a
    newline. *)
Fixpoint fgets (n : nat) (input : list Z) : list Z * list Z :=
  match n, input with
  | S n, c :: input => if c =? NL then ([c], input) else let '(s, rest) := fgets n input in (c :: s, rest)
  | _, _ => ([], input)
  end.
Fixpoint wcat_loop (fuel : nat) (input : list Z) : list Z :=
  match fuel with
  | O => []
  | S fuel => match fgets (WCATBUF - 1) input with
              | ([], _) => []
              | (s, rest) => c_str s ++ wcat_loop fuel rest
              end
  end.
Definition wcat_file (input : list Z) : list Z := wcat_loop (S (length input)) input.
Fixpoint wcat_files (fopen : files) (argv : list string) (out : list Z) : run :=
  match argv with
  | [] => {| stdout := out; code := 0 |}
  | name :: argv =>
      match fopen name with
      | None => {| stdout := out ++ str "wcat: cannot open file" ++ [NL]; code := 1 |}
      | Some f => wcat_files fopen argv (out ++ wcat_file f)
      end
  end.
Definition wcat (fopen : files) (argv : list string) : run := wcat_files fopen argv [].

Lemma strstr_spec s t : strstr s t = true <-> exists a b, s = a ++ t ++ b.
Proof.
  induction s as [|x s IH]; cbn [strstr].
  - rewrite orb_false_r, bool_decide_eq_true. split.
    + intros E. exists [], []. rewrite take_nil in E. by subst.
    + intros (a & b & E). symmetry in E. by apply app_nil in E as [-> [-> ->]%app_nil].
  - rewrite orb_true_iff, bool_decide_eq_true, IH. split.
    + intros [E|(a & b & ->)]; [|by exists (x :: a), b]. exists [], (drop (length t) (x :: s)).
      cbn [app]. rewrite <- (take_drop (length t) (x :: s)) at 1. by rewrite E.
    + intros ([|y a] & b & E); cbn [app] in E; [left; by rewrite E, take_app_length|].
      injection E as -> ->. right. by exists a, b.
Qed.

Lemma c_str_id l : Forall (fun c => c <> 0) l -> c_str l = l.
Proof.
  unfold c_str. induction 1 as [|c l Hc _ IH]; [done|]. cbn. rewrite (proj2 (Z.eqb_neq _ _)) by done. cbn. by rewrite IH.
Qed.

Lemma fgets_spec n input :
  (fgets n input).1 ++ (fgets n input).2 = input /\ ((0 < n)%nat -> input <> [] -> (fgets n input).1 <> []).
Proof.
  revert input. induction n as [|n IH]; intros [|c input]; cbn; try (split; [done|intros; done || lia]).
  destruct (c =? NL); [done|]. destruct (IH input) as [E _]. destruct (fgets n input) as [s rest]. cbn in *. by rewrite E.
Qed.

(** A file without NULs is copied whole, whatever the length of its lines. *)
Lemma wcat_copies input : Forall (fun c => c <> 0) input -> wcat_file input = input.
Proof.
  unfold wcat_file. assert (length input < S (length input))%nat as Hf by lia. revert Hf. generalize (S (length input)).
  intros fuel. revert input. induction fuel as [|fuel IH]; intros input Hf Hn; [lia|]. cbn [wcat_loop].
  destruct (fgets_spec (WCATBUF - 1) input) as [E Hne]. destruct (fgets (WCATBUF - 1) input) as [s rest]. cbn in E, Hne.
  destruct s as [|x s].
  - destruct input; [done|]. by destruct (Hne ltac:(lia)).
  - rewrite <- E in Hn |- *. apply Forall_app in Hn as [Hs Hr]. rewrite c_str_id by done. f_equal. apply IH; [|done].
    rewrite <- E, length_app in Hf. cbn in Hf. lia.
Qed.
