(* ===== verification/Utils.v ===== *)
(** * Utils: small user programs (ls.c, mkdir.c, rm.c, ln.c, kill.c, init.c)

    A program is what it writes, as pairs of a descriptor and bytes, and the
    system calls it makes, given what they return. Strings are lists of
    characters without the NUL. *)

From stdpp Require Import base list numbers gmap strings sets.
From S2P Require Import Prelude Bytes Params Log Fs KString Ulib.

Local Open Scope Z_scope.

Definition printed := list (Z * list Z).

(** ** ls.c *)

Record ls_stat := { st_type : Z; st_ino : Z; st_size : Z }.

(** The characters behind the last slash. *)
Definition last_part (path : list Z) : list Z :=
  foldl (fun acc c => if c =? 47 then [] else acc ++ [c]) [] path.
(** The name, filled up with blanks; a name of [DIRSIZ] characters or more is
    returned as it is. *)
Definition fmtname (path : list Z) : list Z :=
  let p := last_part path in
  if DIRSIZ <=? Z.of_nat (length p) then p else p ++ replicate (Z.to_nat DIRSIZ - length p) 32.
Definition ls_line (path : list Z) (st : ls_stat) : list Z :=
  fmtname path ++ [32] ++ printint (st_type st) 10 true ++ [32] ++ printint (i32 (st_ino st)) 10 true ++ [32] ++
  printint (i32 (st_size st)) 10 true ++ [NEWLINE].

Section ls.
(** What [open] (with [read] and [fstat]) and [stat] find under a name. *)
Variable open : list Z -> option (option ls_stat * list Z).
Variable stat : list Z -> option ls_stat.

(** The loop over the entries, from the bytes [read] has not returned yet. *)
Fixpoint ls_entries (fuel : nat) (path content : list Z) : printed :=
  match fuel with
  | O => []
  | S fuel =>
      let de := take 16 content in
      if negb (Z.of_nat (length de) =? 16) then []
      else
        (if de_inum de =? 0 then []
         else
           let buf := path ++ [47] ++ cstr (Z.to_nat DIRSIZ) (de_name de) in
           match stat buf with
           | None => [(1, str "ls: cannot stat " ++ buf ++ [NEWLINE])]
           | Some st => [(1, ls_line buf st)]
           end) ++ ls_entries fuel path (drop 16 content)
  end.
Definition ls (path : list Z) : printed :=
  match open path with
  | None => [(2, str "ls: cannot open " ++ path ++ [NEWLINE])]
  | Some (None, _) => [(2, str "ls: cannot stat " ++ path ++ [NEWLINE])]
  | Some (Some st, content) =>
      if st_type st =? T_FILE then [(1, ls_line path st)]
      else if st_type st =? T_DIR then
        if 512 <? Z.of_nat (length path) + 1 + DIRSIZ + 1 then [(1, str "ls: path too long" ++ [NEWLINE])]
        else ls_entries (S (length content)) path content
      else []
  end.
Definition ls_main (argv : list (list Z)) : printed :=
  match argv with [] => ls [46] | _ => mjoin (ls <$> argv) end.
End ls.

(** ** mkdir.c, rm.c, ln.c, kill.c: the calls that succeed or fail are given by
    [call], which may depend on those before. *)
Section calls.
Variable call : list (list Z) -> list Z -> bool.

Fixpoint until_failure (msg : list Z -> list Z) (done_ : list (list Z)) (args : list (list Z)) : list (list Z) * printed :=
  match args with
  | [] => (done_, [])
  | a :: args => if call done_ a then until_failure msg (done_ ++ [a]) args else (done_, [(2, msg a)])
  end.
Definition mkdir_main (argv : list (list Z)) : list (list Z) * printed :=
  match argv with
  | [] => ([], [(2, str "Usage: mkdir files..." ++ [NEWLINE])])
  | _ => until_failure (fun a => str "mkdir: " ++ a ++ str " failed to create" ++ [NEWLINE]) [] argv
  end.
Definition rm_main (argv : list (list Z)) : list (list Z) * printed :=
  match argv with
  | [] => ([], [(2, str "Usage: rm files..." ++ [NEWLINE])])
  | _ => until_failure (fun a => str "rm: " ++ a ++ str " failed to delete" ++ [NEWLINE]) [] argv
  end.
End calls.
Definition ln_main (link : list Z -> list Z -> bool) (argv : list (list Z)) : printed :=
  match argv with
  | [old; new] => if link old new then [] else [(2, str "link " ++ old ++ [32] ++ new ++ str ": failed" ++ [NEWLINE])]
  | _ => [(2, str "Usage: ln old new" ++ [NEWLINE])]
  end.
(** The processes that are killed. *)
Definition kill_main (argv : list (list Z)) : list Z * printed :=
  match argv with [] => ([], [(2, str "usage: kill pid..." ++ [NEWLINE])]) | _ => (atoi <$> argv, []) end.

(** ** init.c *)
Inductive init_event := Opened | Mknod | Dup | Say (s : list Z) | Started (pid : Z) | Exited.
(** The answers of [wait] until the shell [pid] is done or there are no
    children: the rest of the answers, or [None] when they are used up. *)
Fixpoint init_wait (pid : Z) (waits : list Z) : list init_event * option (list Z) :=
  match waits with
  | [] => ([], None)
  | w :: waits =>
      if (0 <=? w) && negb (w =? pid) then let '(es, r) := init_wait pid waits in (Say (str "zombie!" ++ [NEWLINE]) :: es, r)
      else ([], Some waits)
  end.
(** The loop of [main], for answers of [fork] and [wait] that are given; it
    ends only when they are used up or [fork] fails. *)
Fixpoint init_loop (forks waits : list Z) : list init_event :=
  Say (str "init: starting sh" ++ [NEWLINE]) ::
  match forks with
  | [] => []
  | pid :: forks =>
      if pid <? 0 then [Say (str "init: fork failed" ++ [NEWLINE]); Exited]
      else
        Started pid ::
        let '(es, r) := init_wait pid waits in
        es ++ match r with None => [] | Some waits => init_loop forks waits end
  end.
Definition init_main (has_console : bool) (forks waits : list Z) : list init_event :=
  (if has_console then [Opened] else [Mknod; Opened]) ++ [Dup; Dup] ++ init_loop forks waits.
(** The child of [init]: [exec] returns only when it fails. *)
Definition init_child (exec_fails : bool) : list init_event :=
  if exec_fails then [Say (str "init: exec sh failed" ++ [NEWLINE]); Exited] else [].

(** ** What they do *)

Lemma last_part_app p name : 47 ∉ name -> last_part (p ++ 47 :: name) = name.
Proof.
  intros Hn. unfold last_part. rewrite foldl_app. cbn [foldl]. rewrite Z.eqb_refl.
  assert (forall acc, foldl (fun acc c => if c =? 47 then [] else acc ++ [c]) acc name = acc ++ name) as H; [|by rewrite H].
  induction name as [|c name IH]; intros acc; cbn [foldl]; [by rewrite app_nil_r|].
  rewrite (proj2 (Z.eqb_neq c 47)) by set_solver. rewrite IH by set_solver. by rewrite <-app_assoc.
Qed.
(** A name in a directory is printed in a column of [DIRSIZ] characters. *)
Lemma fmtname_entry path name : 47 ∉ name -> (length name <= 14)%nat ->
  fmtname (path ++ 47 :: name) = name ++ replicate (14 - length name) 32 /\ length (fmtname (path ++ 47 :: name)) = 14%nat.
Proof.
  intros Hn Hl. unfold fmtname. rewrite last_part_app by done. change DIRSIZ with 14. change (Z.to_nat 14) with 14%nat.
  destruct (Z.leb_spec 14 (Z.of_nat (length name))).
  - assert (length name = 14)%nat as E by lia. rewrite E, app_nil_r. done.
  - split; [done|]. rewrite length_app, length_replicate. lia.
Qed.

Lemma cstr_name name l : 0 ∉ name -> (length name <= 14)%nat -> cstr 14 (name ++ replicate (14 - length name) 0 ++ l) = name.
Proof.
  assert (forall n nm, 0 ∉ nm -> (length nm <= n)%nat -> cstr n (nm ++ replicate (n - length nm) 0 ++ l) = nm) as H; [|apply H].
  induction n as [|n IH]; intros [|c nm] H0 Hl; cbn [length] in *; [done|lia|done|].
  cbn [app cstr]. rewrite (proj2 (Z.eqb_neq c 0)) by set_solver. replace (S n - S (length nm))%nat with (n - length nm)%nat by lia.
  rewrite IH by (set_solver || lia). done.
Qed.
Definition entry_name (name : list Z) : Prop := (0 ∉ name) /\ (length name <= 14)%nat.
Lemma mk_dirent_fields name inum rest :
  entry_name name -> 0 < inum < 2 ^ 16 ->
  de_inum (take 16 (mk_dirent name inum ++ rest)) = inum /\ cstr (Z.to_nat DIRSIZ) (de_name (take 16 (mk_dirent name inum ++ rest))) = name /\
  length (take 16 (mk_dirent name inum ++ rest)) = 16%nat /\ drop 16 (mk_dirent name inum ++ rest) = rest.
Proof.
  intros [H0 Hl] Hi. assert (cstr 14 name = name) as Ec.
  { pose proof (cstr_name name [] H0 Hl) as H. rewrite app_nil_r in H. rewrite <-H at 2. clear H. revert Hl H0. generalize 14%nat as n.
    intros n. revert n. induction name as [|c name IH]; intros [|n] Hl H0; cbn [length app cstr] in *; try done; try lia.
    rewrite (proj2 (Z.eqb_neq c 0)) by set_solver. f_equal. apply IH; [lia|set_solver]. }
  assert (mk_dirent name inum = le_split 2 inum ++ name ++ replicate (14 - length name) 0) as E.
  { unfold mk_dirent. change (Z.to_nat DIRSIZ) with 14%nat. by rewrite Ec. }
  assert (length (mk_dirent name inum) = 16%nat) as EL by (rewrite E, !length_app, length_replicate; cbn; lia).
  rewrite take_app_length', drop_app_length' by done. split_and!; [| |done|done].
  - unfold de_inum, get16, get_le. rewrite E, drop_0, take_app_length' by done. rewrite le_combine_split. apply Z.mod_small. cbn. lia.
  - unfold de_name. change (Z.to_nat DIRSIZ) with 14%nat. rewrite E. change (drop 2 (le_split 2 inum ++ name ++ replicate (14 - length name) 0)) with (name ++ replicate (14 - length name) 0).
    rewrite take_ge by (rewrite length_app, length_replicate; lia). pose proof (cstr_name name [] H0 Hl) as H. by rewrite app_nil_r in H.
Qed.

(** [ls] of a directory prints a line for each entry in use, in order. *)
Definition dir_bytes (es : list (list Z * Z)) : list Z := mjoin ((fun e => mk_dirent e.1 e.2) <$> es).
Lemma ls_prints open stat path st es free :
  open path = Some (Some st, dir_bytes es ++ replicate (16 * free) 0) -> st_type st = T_DIR -> (length path <= 496)%nat ->
  Forall (fun e => entry_name e.1 /\ 0 < e.2 < 2 ^ 16 /\ is_Some (stat (path ++ 47 :: e.1))) es ->
  ls open stat path = (fun e => (1, match stat (path ++ 47 :: e.1) with Some st => ls_line (path ++ 47 :: e.1) st | None => [] end)) <$> es.
Proof.
  intros Ho Ht Hl HF. unfold ls. rewrite Ho, Ht. change (T_DIR =? T_FILE) with false. change (T_DIR =? T_DIR) with true. cbv iota. change DIRSIZ with 14.
  rewrite (proj2 (Z.ltb_ge _ _)) by lia.
  assert (forall fuel n, (n < fuel)%nat -> ls_entries stat fuel path (replicate (16 * n) 0) = []) as Hfree.
  { induction fuel as [|fuel IH]; intros n Hn; [lia|]. cbn [ls_entries]. destruct n as [|n]; [done|].
    replace (16 * S n)%nat with (16 + 16 * n)%nat by lia. rewrite replicate_add, take_app_length', drop_app_length' by done.
    rewrite length_replicate. cbn [negb Z.eqb Z.of_nat]. change (Z.of_nat 16 =? 16) with true. cbn [negb]. change (de_inum (replicate 16 0)) with 0. cbn [Z.eqb app]. apply IH. lia. }
  assert (forall fuel, (length es + free < fuel)%nat -> ls_entries stat fuel path (dir_bytes es ++ replicate (16 * free) 0) =
    (fun e => (1, match stat (path ++ 47 :: e.1) with Some st => ls_line (path ++ 47 :: e.1) st | None => [] end)) <$> es) as H.
  { clear Ho. induction es as [|[name inum] es IH]; intros fuel Hf; [apply Hfree; cbn in Hf; lia|]. apply Forall_cons in HF as [(Hn & Hi & [st' Es]) HF].
    destruct fuel as [|fuel]; [lia|]. change (dir_bytes ((name, inum) :: es)) with (mk_dirent name inum ++ dir_bytes es). rewrite <-app_assoc. cbn [ls_entries fst snd] in *.
    destruct (mk_dirent_fields name inum (dir_bytes es ++ replicate (16 * free) 0) Hn Hi) as (E1 & E2 & E3 & E4).
    rewrite E1, E2, E3, E4. change (Z.of_nat 16 =? 16) with true. cbn [negb]. rewrite (proj2 (Z.eqb_neq _ _)) by lia. cbn [fmap list_fmap fst].
    change ([47] ++ name) with (47 :: name). rewrite Es. cbn [app]. f_equal. apply IH; [done|]. cbn in Hf. lia. }
  apply H. rewrite length_app, length_replicate.
  assert (length es <= length (dir_bytes es))%nat; [|lia]. clear. induction es as [|e es IH]; [done|].
  change (dir_bytes (e :: es)) with (mk_dirent e.1 e.2 ++ dir_bytes es). rewrite length_app. cbn [length].
  assert (0 < length (mk_dirent e.1 e.2))%nat; [|lia]. unfold mk_dirent. rewrite !length_app. cbn. lia.
Qed.

(** [init] reports each orphan it reaps and starts a new shell when the last one
    is done. *)
Lemma init_restarts pid orphans forks waits :
  0 <= pid -> Forall (fun w => 0 <= w /\ w <> pid) orphans ->
  init_loop (pid :: forks) (orphans ++ pid :: waits) =
  [Say (str "init: starting sh" ++ [NEWLINE]); Started pid] ++ replicate (length orphans) (Say (str "zombie!" ++ [NEWLINE])) ++ init_loop forks waits.
Proof.
  intros Hp HF. assert (init_wait pid (orphans ++ pid :: waits) = (replicate (length orphans) (Say (str "zombie!" ++ [NEWLINE])), Some waits)) as E.
  { induction orphans as [|w orphans IH]; cbn [app init_wait].
    - rewrite Z.eqb_refl, andb_false_r. done.
    - apply Forall_cons in HF as [[H1 H2] HF]. rewrite (proj2 (Z.leb_le _ _)), (proj2 (Z.eqb_neq _ _)) by done. cbn [negb andb]. by rewrite (IH HF). }
  cbn [init_loop]. rewrite (proj2 (Z.ltb_ge _ _)) by done. by rewrite E.
Qed.
