(* ===== verification/Mapreduce.v ===== *)
(** * Mapreduce: the MapReduce library of P4a and its word count

    The values emitted are kept in a hash table with open addressing, the keys
    of each partition in a sorted list. [MR_Emit] has two critical sections,
    one on the table and one on the list, so the mapper threads interleave at
    that grain; the reducer threads interleave at that of the calls of
    [get_next] and [printf]. Strings are lists of bytes without the terminating
    0; the allocator is a parameter. *)

From stdpp Require Import base list numbers gmap strings sorting.
From S2P Require Import Prelude Bytes Rle Ulib Text.

Local Open Scope Z_scope.
Local Open Scope os_scope.

Abbreviation key := (list Z) (only parsing).

Definition strcmp : key -> key -> Z :=
  fix go a b :=
    match a, b with
    | [], [] => 0
    | [], y :: _ => - y
    | x :: _, [] => x
    | x :: a, y :: b => if x =? y then go a b else x - y
    end.

(** A chain of [struct data_node]s; [DJunk] is a pointer that was never set. *)
Inductive dchain := DNull | DJunk | DNode (val : key) (next : dchain).
(** [data_values], a slot without a key being absent, and the lists of
    [sorted_data], [None] where the pointer was never set; a node is a key and
    the index of its slot. [out] is what was printed. *)
Record mr := {
  data_values : gmap Z (key * dchain);
  sorted_data : list (option (list (key * Z)));
  out : list Z
}.
Definition SIZE : Z := 100000.
Definition set_values (d : gmap Z (key * dchain)) (s : mr) : mr :=
  {| data_values := d; sorted_data := sorted_data s; out := out s |}.
Definition set_sorted (l : list (option (list (key * Z)))) (s : mr) : mr :=
  {| data_values := data_values s; sorted_data := l; out := out s |}.
Definition print (l : list Z) (s : mr) : mr :=
  {| data_values := data_values s; sorted_data := sorted_data s; out := out s ++ l |}.

Fixpoint hash_from (h : Z) (k : key) : Z :=
  match k with [] => h | c :: k => hash_from (u64 (h * 33 + i8 c)) k end.
Definition MR_DefaultHashPartition (k : key) (num_partitions : Z) : Z := hash_from 5381 k mod num_partitions.

(** The probing loop, from slot [j] on; the array ends after [fuel] more. *)
Fixpoint probe (fuel : nat) (k : key) (j : Z) (d : gmap Z (key * dchain)) : option Z :=
  match fuel with
  | O => None
  | S fuel =>
      match d !! j with
      | None => Some j
      | Some (k', _) => if strcmp k k' =? 0 then Some j else probe fuel k (j + 1) d
      end
  end.
Definition find_slot (k : key) : M mr Z := fun s =>
  let hash := MR_DefaultHashPartition k SIZE in
  match probe (Z.to_nat (SIZE - hash)) k hash (data_values s) with
  | Some j => Done (j, s)
  | None => Fault
  end.

(** The allocator: whether the memory [malloc] returns is zero, and how many
    bytes may be written to a block of [malloc n]. *)
Record allocator := { al_zeroed : bool; al_usable : nat -> nat }.

Section mapreduce.
Context (al : allocator).

(** [strcpy] of a string to [malloc(strlen)] bytes, one less than it takes. *)
Definition copy_string (k : key) : M mr key :=
  if decide (length k < al_usable al (length k))%nat then ret k else fault.

(** The first critical section of [MR_Emit]. *)
Definition emit_value (k v : key) : M mr Z :=
  let! j := find_slot k in
  let! d := gets data_values in
  let! k' := (match d !! j with None => copy_string k | Some (k', _) => ret k' end) in
  let next := match d !! j with
              | None | Some (_, DNull) => if al_zeroed al then DNull else DJunk
              | Some (_, c) => c
              end in
  let! v := copy_string v in
  modify (set_values (<[j := (k', DNode v next)]> d));;;
  ret j.

(** The loop of the second one: whether the key is in the list, and the list
    with it. *)
Fixpoint find_key (k : key) (l : list (key * Z)) : bool :=
  match l with
  | [] => false
  | (k', _) :: l => if strcmp k k' >? 0 then find_key k l else strcmp k k' =? 0
  end.
Fixpoint insert_key (k : key) (j : Z) (l : list (key * Z)) : list (key * Z) :=
  match l with
  | [] => [(k, j)]
  | (k', j') :: l' => if strcmp k k' >? 0 then (k', j') :: insert_key k j l' else (k, j) :: l
  end.
Definition emit_key (partition : Z) (k : key) (j : Z) : M mr unit :=
  if partition <? 0 then fault
  else
    let! o := gets (fun s => sorted_data s !! Z.to_nat partition) in
    match o with
    | Some (Some l) =>
        if find_key k l then ret tt
        else
          let! k := copy_string k in
          modify (fun s => set_sorted (<[Z.to_nat partition := Some (insert_key k j l)]> (sorted_data s)) s)
    | _ => fault
    end.

Definition get_next (k : key) : M mr (option key) :=
  let! j := find_slot k in
  let! d := gets data_values in
  match d !! j with
  | None => let! k := copy_string k in modify (set_values (<[j := (k, DNull)]> d));;; ret None
  | Some (_, DNull) => ret None
  | Some (k', DNode v next) => modify (set_values (<[j := (k', next)]> d));;; ret (Some v)
  | Some (_, DJunk) => fault
  end.

Context (partitioner : key -> Z -> Z) (partitions : Z).

(** [MR_Emit] and the steps it is made of. *)
Inductive mstep := Val (k v : key) | Srt (k : key) (j : Z).
Definition MR_Emit (k v : key) : M mr unit :=
  let! j := emit_value k v in
  emit_key (partitioner k partitions) k j.
Definition mstep_run (st : mstep) : M mr unit :=
  match st with
  | Val k v => emit_value k v;;; ret tt
  | Srt k j => emit_key (partitioner k partitions) k j
  end.
Fixpoint msteps_run (l : list mstep) : M mr unit :=
  match l with [] => ret tt | st :: l => mstep_run st;;; msteps_run l end.

(** [reduce_thread]: the nodes of its list from [curr] on, and how far the call
    of [reduce] for the first of them is. [reduce] is given by its steps, the
    last of which returns [None]. *)
Section reducers.
Context {A : Type} (start : A) (reduce : key -> A -> M mr (option A)).

Definition reduce_thread (t : list (key * Z) * A) : M mr (list (key * Z) * A) :=
  match t with
  | ((k, j) :: l, a) => let! r := reduce k a in ret (match r with Some a => ((k, j) :: l, a) | None => (l, start) end)
  | t => ret t
  end.
Definition reduce_step (ts : list (list (key * Z) * A)) (p : nat) : M mr (list (list (key * Z) * A)) :=
  match ts !! p with
  | Some t => let! t := reduce_thread t in ret (<[p := t]> ts)
  | None => ret ts
  end.
(** The list of the threads that take a step, in order. *)
Fixpoint reduce_run (ts : list (list (key * Z) * A)) (sched : list nat) : M mr (list (list (key * Z) * A)) :=
  match sched with [] => ret ts | p :: sched => let! ts := reduce_step ts p in reduce_run ts sched end.
Definition reduce_threads : M mr (list (list (key * Z) * A)) := fun s =>
  match mapM (fun l => l) (sorted_data s) with
  | Some ls => Done ((fun l => (l, start)) <$> ls, s)
  | None => Fault
  end.
Definition returned (t : list (key * Z) * A) : bool := match t.1 with [] => true | _ => false end.

(** [MR_Run]: [mappers] stands for the threads that run the mapper over the
    files; the reducers are scheduled as [sched] says, and joined. *)
Definition MR_Run (mappers : M mr unit) (sched : list nat) : M mr unit :=
  modify (fun s => set_sorted (replicate (Z.to_nat partitions) (if al_zeroed al then Some [] else None)) s);;;
  mappers;;;
  let! ts := reduce_threads in
  let! ts := reduce_run ts sched in
  if forallb returned ts then ret tt else asleep.
End reducers.
End mapreduce.

(** ** The word count *)

Definition DELIMS : list Z := [32; 9; 10; 13].
(** The tokens [strsep] gives, empty ones included. *)
Fixpoint strsep_all (cur : list Z) (l : list Z) : list key :=
  match l with
  | [] => [cur]
  | c :: l => if bool_decide (c ∈ DELIMS) then cur :: strsep_all [] l else strsep_all (cur ++ [c]) l
  end.
Definition file_words (content : list Z) : list key := getlines content ≫= (fun line => strsep_all [] (c_str line)).

Section wordcount.
Context (al : allocator).

Fixpoint Map (partitions : Z) (words : list key) : M mr unit :=
  match words with
  | [] => ret tt
  | w :: words => MR_Emit al MR_DefaultHashPartition partitions w [49];;; Map partitions words
  end.
(** A step of [Reduce]: a round of its loop, or the end of it and the line it
    prints. *)
Definition Reduce (k : key) (count : Z) : M mr (option Z) :=
  let! v := get_next al k in
  match v with
  | Some _ => ret (Some (i32 (count + 1)))
  | None => modify (print (k ++ [32] ++ printint count 10 true ++ [10]));;; ret None
  end.
(** [main] of wordcount.c, with the files read by one mapper after the other. *)
Definition wordcount (files : list (list Z)) (sched : list nat) : M mr unit :=
  MR_Run al 10 0 Reduce (Map 10 (files ≫= file_words)) sched.
End wordcount.
Definition mr_start : mr := {| data_values := ∅; sorted_data := []; out := [] |}.

(** ** Keys in order *)

(** A C string has no 0. *)
Definition okk (k : key) : Prop := Forall (fun c => 0 < c) k.
Definition klt (a b : key) : Prop := strcmp a b < 0.

Lemma strcmp_refl a : strcmp a a = 0.
Proof. induction a as [|x a IH]; cbn; [done|]. by rewrite Z.eqb_refl. Qed.
Lemma strcmp_opp a b : strcmp b a = - strcmp a b.
Proof.
  revert b. induction a as [|x a IH]; intros [|y b]; cbn; [done|lia|lia|].
  rewrite (Z.eqb_sym y x). destruct (x =? y); [apply IH|lia].
Qed.
Lemma strcmp_eq a b : okk a -> okk b -> strcmp a b = 0 -> a = b.
Proof.
  intros Ha. revert b. induction Ha as [|x a Hx Ha IH]; intros [|y b] Hb E; cbn in E; [done| | |].
  - apply Forall_cons in Hb as [? _]. lia.
  - lia.
  - apply Forall_cons in Hb as [_ Hb]. destruct (Z.eqb_spec x y) as [->|]; [f_equal; by apply IH|lia].
Qed.
Lemma klt_trans a b c : okk a -> okk b -> okk c -> klt a b -> klt b c -> klt a c.
Proof.
  unfold klt, okk. intros Ha. revert b c. induction Ha as [|x a Hx Ha IH]; intros [|y b] [|z c] Hb Hc Hab Hbc; cbn in *;
    repeat match goal with H : Forall _ (_ :: _) |- _ => apply Forall_cons in H as [? ?] end; try lia.
  destruct (Z.eqb_spec x y), (Z.eqb_spec y z), (Z.eqb_spec x z); try lia. by apply (IH b c).
Qed.

Lemma find_key_in k l : okk k -> Forall okk l.*1 -> StronglySorted klt l.*1 -> find_key k l = true <-> k ∈ l.*1.
Proof.
  intros Hk. induction l as [|[k' j'] l IH]; intros Hl Hs; cbn in *; [set_solver|].
  apply Forall_cons in Hl as [Hk' Hl]. apply StronglySorted_inv in Hs as [Hs Hlt]. rewrite elem_of_cons. destruct (Z.gtb_spec (strcmp k k') 0) as [E|E].
  - rewrite (IH Hl Hs). split; [by right|]. intros [->|?]; [rewrite strcmp_refl in E; lia|done].
  - rewrite Z.eqb_eq. split; [intros E0; left; by apply strcmp_eq|]. intros [->|Hin]; [apply strcmp_refl|]. rewrite Forall_forall in Hlt, Hl. specialize (Hlt k Hin). unfold klt in Hlt.
    rewrite strcmp_opp in Hlt. lia.
Qed.
Lemma insert_key_in k j l x : x ∈ (insert_key k j l).*1 <-> x = k \/ x ∈ l.*1.
Proof.
  induction l as [|[k' j'] l IH]; cbn in *; [set_solver|]. destruct (Z.gtb_spec (strcmp k k') 0); cbn; [|set_solver].
  rewrite !elem_of_cons, IH by done. tauto.
Qed.
Lemma insert_key_sorted k j l :
  okk k -> Forall okk l.*1 -> find_key k l = false -> StronglySorted klt l.*1 -> StronglySorted klt (insert_key k j l).*1.
Proof.
  intros Hk. induction l as [|[k' j'] l IH]; intros Hl Hf Hs; cbn in *; [by repeat constructor|].
  apply Forall_cons in Hl as [Hk' Hl]. apply StronglySorted_inv in Hs as [Hs Hlt].
  destruct (Z.gtb_spec (strcmp k k') 0) as [E|E]; cbn.
  - constructor; [by apply IH|]. apply Forall_forall. intros x Hx. rewrite insert_key_in in Hx. destruct Hx as [->|Hx].
    + unfold klt. rewrite strcmp_opp. lia.
    + rewrite Forall_forall in Hlt. by apply Hlt.
  - apply Z.eqb_neq in Hf. assert (klt k k') as Hkk by (unfold klt; lia). constructor; [by constructor|]. constructor; [done|].
    rewrite Forall_forall in *. intros x Hx. eapply klt_trans; [done|exact Hk'|by apply Hl|done|by apply Hlt].
Qed.

(** ** The hash table *)

Definition hash_of (k : key) : Z := MR_DefaultHashPartition k SIZE.
Lemma hash_range k n : 0 < n -> 0 <= MR_DefaultHashPartition k n < n.
Proof. intros. by apply Z.mod_pos_bound. Qed.

Definition chain_of (l : list key) : dchain := foldr DNode DNull l.

(** The table has the keys [V] with the values [vals]. A key is at or behind
    its hash, and the slots in between hold other keys. *)
Record tab_ok (V : list key) (vals : key -> list key) (d : gmap Z (key * dchain)) : Prop := {
  tk_slot j k c : d !! j = Some (k, c) -> hash_of k <= j < SIZE /\ k ∈ V /\ c = chain_of (vals k) /\
    forall i, hash_of k <= i < j -> exists k' c', d !! i = Some (k', c') /\ k' <> k;
  tk_key k : k ∈ V -> exists j c, d !! j = Some (k, c)
}.

Lemma tab_unique V vals d i j k c c' : tab_ok V vals d -> d !! i = Some (k, c) -> d !! j = Some (k, c') -> i = j.
Proof.
  intros HT Hi Hj. destruct (tk_slot _ _ _ HT _ _ _ Hi) as (Ri & _ & _ & Si), (tk_slot _ _ _ HT _ _ _ Hj) as (Rj & _ & _ & Sj).
  destruct (Ztrichotomy_inf i j) as [[Hlt|Heq]|Hgt]; [|done|].
  - destruct (Sj i ltac:(lia)) as (k' & c'' & E & ?). congruence.
  - destruct (Si j ltac:(lia)) as (k' & c'' & E & ?). congruence.
Qed.

(** A run of occupied slots is no longer than the number of keys. *)
Lemma run_bound V vals d (D : list key) a m :
  tab_ok V vals d -> (forall i, a <= i < a + Z.of_nat m -> exists k c, d !! i = Some (k, c) /\ k ∈ D) -> (m <= length D)%nat.
Proof.
  intros HT Hrun. revert D a Hrun. induction m as [|m IH]; intros D a Hrun; [lia|].
  destruct (Hrun a ltac:(lia)) as (k & c & Hk & HD). apply list_elem_of_split in HD as (D1 & D2 & ->).
  assert (m <= length (D1 ++ D2))%nat as Hm; [|rewrite !length_app in *; cbn; lia].
  apply (IH _ (a + 1)). intros i Hi. destruct (Hrun i ltac:(lia)) as (k' & c' & Hk' & HD').
  exists k', c'. split; [done|]. assert (k' <> k) by (intros ->; pose proof (tab_unique _ _ _ _ _ _ _ _ HT Hk Hk'); lia). set_solver.
Qed.

Section probing.
Context (V : list key) vals d (D : list key) k (HT : tab_ok V vals d) (Hk : okk k) (HV : Forall okk V).
Context (HD : V ⊆ D) (HkD : k ∈ D) (Hroom : hash_of k + Z.of_nat (length D) <= SIZE).

(** The slots from the hash of [k] up to [j] hold other keys. *)
Definition passed (j : Z) : Prop := forall i, hash_of k <= i < j -> exists k' c', d !! i = Some (k', c') /\ k' <> k.

Lemma passed_room j : hash_of k <= j -> passed j -> j < SIZE.
Proof.
  intros Hj Hp. apply list_elem_of_split in HkD as (D1 & D2 & ED).
  assert (Z.to_nat (j - hash_of k) <= length (D1 ++ D2))%nat as Hb.
  { apply (run_bound V vals d _ (hash_of k)); [done|]. intros i Hi. destruct (Hp i ltac:(lia)) as (k' & c' & E & Hne).
    exists k', c'. split; [done|]. destruct (tk_slot _ _ _ HT _ _ _ E) as (_ & Hin & _). apply HD in Hin. rewrite ED in Hin. set_solver. }
  rewrite ED in Hroom. rewrite length_app in *. cbn in Hroom. lia.
Qed.

Lemma probe_from fuel j :
  hash_of k <= j -> passed j -> j + Z.of_nat fuel = SIZE ->
  exists j', probe fuel k j d = Some j' /\ hash_of k <= j' < SIZE /\ passed j' /\
    match d !! j' with None => k ∉ V | Some (k', _) => k' = k end.
Proof.
  revert j. induction fuel as [|fuel IH]; intros j Hj Hp Hf.
  { pose proof (passed_room j Hj Hp). lia. }
  cbn [probe]. destruct (d !! j) as [[k' c]|] eqn:E.
  - destruct (tk_slot _ _ _ HT _ _ _ E) as (_ & Hin & _). destruct (Z.eqb_spec (strcmp k k') 0) as [E0|E0].
    + exists j. rewrite E. split_and!; [done|done|lia|done|]. symmetry. apply strcmp_eq; [done| |done].
      rewrite Forall_forall in HV. by apply HV.
    + apply IH; [lia| |lia]. intros i Hi. destruct (decide (i = j)) as [->|]; [|apply Hp; lia].
      exists k', c. split; [done|]. intros ->. by rewrite strcmp_refl in E0.
  - exists j. rewrite E. split_and!; [done|done|lia|done|]. intros Hin. destruct (tk_key _ _ _ HT _ Hin) as (j0 & c & E1).
    destruct (tk_slot _ _ _ HT _ _ _ E1) as (Hr & _ & _ & Hs). destruct (Ztrichotomy_inf j0 j) as [[Hlt|Heq]|Hgt].
    + destruct (Hp j0 ltac:(lia)) as (k' & c' & E2 & ?). congruence.
    + congruence.
    + destruct (Hs j ltac:(lia)) as (k' & c' & E2 & ?). congruence.
Qed.

Lemma probe_run :
  exists j, probe (Z.to_nat (SIZE - hash_of k)) k (hash_of k) d = Some j /\ hash_of k <= j < SIZE /\ passed j /\
    match d !! j with None => k ∉ V | Some (k', _) => k' = k end.
Proof.
  pose proof (hash_range k SIZE ltac:(done)) as Hh. fold (hash_of k) in Hh.
  apply probe_from; [lia|intros i Hi; lia|lia].
Qed.
End probing.

(** A slot is filled or changed. *)
Lemma tab_set V V' vals vals' d k j l :
  tab_ok V vals d -> hash_of k <= j < SIZE -> passed d k j ->
  (match d !! j with None => k ∉ V | Some (k', _) => k' = k end) ->
  (forall x, x ∈ V' <-> x = k \/ x ∈ V) -> vals' k = l -> (forall k', k' <> k -> vals' k' = vals k') ->
  tab_ok V' vals' (<[j := (k, chain_of l)]> d).
Proof.
  intros HT Hj Hp Hc HV' Hk Hvals.
  assert (forall i k' c', d !! i = Some (k', c') -> k' = k -> i = j) as Huniq.
  { intros i k' c' Hi ->. destruct (d !! j) as [[k2 c2]|] eqn:E; [subst k2; by eapply tab_unique|].
    destruct (tk_slot _ _ _ HT _ _ _ Hi) as (_ & ? & _). done. }
  split.
  - intros i k' c' [[<- [= <- <-]]|[Hne Hi]]%lookup_insert_Some.
    + split_and!; [lia|lia|apply HV'; by left|by rewrite Hk|].
      intros i Hi. destruct (Hp i Hi) as (k' & c' & E & ?). exists k', c'. by rewrite lookup_insert_ne by lia.
    + assert (k' <> k) as Hkk by (intros ->; by pose proof (Huniq _ _ _ Hi eq_refl)).
      destruct (tk_slot _ _ _ HT _ _ _ Hi) as (? & ? & -> & Hs). split_and!; [lia|lia|apply HV'; by right|by rewrite Hvals|].
      intros i' Hi'. destruct (Hs i' Hi') as (k2 & c2 & E2 & ?). destruct (decide (i' = j)) as [->|].
      * exists k, (chain_of l). by rewrite lookup_insert_eq.
      * exists k2, c2. by rewrite lookup_insert_ne.
  - intros k' Hin%HV'. destruct (decide (k' = k)) as [->|Hkk]; [exists j; rewrite lookup_insert_eq; eauto|].
    destruct Hin as [?|Hin]; [done|]. destruct (tk_key _ _ _ HT _ Hin) as (i & c' & Hi). exists i, c'.
    rewrite lookup_insert_ne; [done|]. intros ->. by rewrite Hi in Hc.
Qed.

(** The values emitted with a key, the last one first. *)
Definition values (V : list (key * key)) (k : key) : list key := (filter (fun x => x.1 = k) V).*2.
Lemma values_cons k k' v V : values ((k', v) :: V) k = if decide (k' = k) then v :: values V k else values V k.
Proof. unfold values. rewrite filter_cons. cbn. by destruct (decide (k' = k)). Qed.
Lemma values_none k V : k ∉ V.*1 -> values V k = [].
Proof.
  induction V as [|[k' v] V IH]; intros Hn; [done|]. cbn in Hn. apply not_elem_of_cons in Hn as [? ?].
  rewrite values_cons, decide_False by done. by apply IH.
Qed.

(** ** The operations *)
(** The allocator leaves a byte more than was asked for. *)
Definition roomy (al : allocator) (k : key) : Prop := (length k < al_usable al (length k))%nat.
Section operations.
Context (al : allocator) (Hzero : al_zeroed al = true).
(** All keys there will be, and room for them. *)
Context (D : list key) (HDok : Forall okk D).
Context (Hroom : forall k, k ∈ D -> hash_of k + Z.of_nat (length D) <= SIZE).

Lemma find_slot_run V vals k s :
  tab_ok V vals (data_values s) -> V ⊆ D -> k ∈ D ->
  exists j, find_slot k s = Done (j, s) /\ hash_of k <= j < SIZE /\ passed (data_values s) k j /\
    match data_values s !! j with None => k ∉ V | Some (k', c) => k' = k /\ c = chain_of (vals k) /\ k ∈ V end.
Proof.
  intros HT HV Hk. rewrite Forall_forall in HDok.
  destruct (probe_run V vals (data_values s) D k HT) as (j & E & Hj & Hp & Hc); [by apply HDok| |done|done|by apply Hroom|].
  { apply Forall_forall. intros x Hx. by apply HDok, HV. }
  exists j. unfold find_slot. fold (hash_of k). rewrite E. split_and!; [done|lia|lia|done|].
  destruct (data_values s !! j) as [[k' c]|] eqn:Ej; [|done]. subst k'.
  destruct (tk_slot _ _ _ HT _ _ _ Ej) as (_ & ? & ? & _). done.
Qed.

Lemma copy_string_run k s : roomy al k -> copy_string al k s = Done (k, s).
Proof. intros Hr. unfold copy_string. by rewrite decide_True. Qed.

Lemma emit_value_run V k v s :
  tab_ok V.*1 (values V) (data_values s) -> V.*1 ⊆ D -> k ∈ D -> roomy al k -> roomy al v ->
  exists j s', emit_value al k v s = Done (j, s') /\ tab_ok ((k, v) :: V).*1 (values ((k, v) :: V)) (data_values s') /\
    sorted_data s' = sorted_data s /\ out s' = out s.
Proof.
  intros HT HV Hk Hrk Hrv. destruct (find_slot_run _ _ k s HT HV Hk) as (j & E & Hj & Hp & Hc).
  set (s' := set_values (<[j := (k, DNode v (chain_of (values V k)))]> (data_values s)) s).
  exists j, s'. split.
  - unfold emit_value, bind, modify, gets. rewrite E, Hzero. destruct (data_values s !! j) as [[k' c]|]; [destruct Hc as (-> & -> & _)|rewrite (copy_string_run k) by done];
      unfold ret; rewrite (copy_string_run v) by done; unfold s'; [by destruct (values V k)|by rewrite values_none].
  - split; [|done]. apply (tab_set V.*1 _ (values V) _ _ _ _ (v :: values V k) HT); [done|done| | | |].
    + destruct (data_values s !! j) as [[k' c']|]; [by destruct Hc|done].
    + intros x. cbn. rewrite elem_of_cons. done.
    + by rewrite values_cons, decide_True.
    + intros k' Hne. by rewrite values_cons, decide_False.
Qed.

Lemma get_next_run V vals k s :
  tab_ok V vals (data_values s) -> V ⊆ D -> k ∈ V ->
  exists s', get_next al k s = Done (head (vals k), s') /\
    tab_ok V (fun k' => if decide (k' = k) then tail (vals k) else vals k') (data_values s') /\
    sorted_data s' = sorted_data s /\ out s' = out s.
Proof.
  intros HT HV Hk. destruct (find_slot_run V vals k s HT HV (HV _ Hk)) as (j & E & Hj & Hp & Hc).
  unfold get_next, bind, gets. rewrite E. destruct (data_values s !! j) as [[k' c]|] eqn:Ej; [|done]. destruct Hc as (-> & -> & _).
  assert (forall l, tab_ok V (fun k' => if decide (k' = k) then l else vals k') (<[j := (k, chain_of l)]> (data_values s))) as Hset.
  { intros l. apply (tab_set V _ vals _ _ _ _ l HT); [done|done|by rewrite Ej|set_solver|by rewrite decide_True|intros; by rewrite decide_False]. }
  destruct (vals k) as [|v l]; eexists; (split; [done|]); (split; [|done]); [|exact (Hset l)].
  specialize (Hset []). by rewrite insert_id in Hset.
Qed.
End operations.

(** ** The sorted lists *)

Definition sorted_ok (part : key -> Z) (n : nat) (K : list key) (L : list (option (list (key * Z)))) : Prop :=
  length L = n /\
  forall p l', L !! p = Some l' -> exists l, l' = Some l /\ StronglySorted klt l.*1 /\
    forall k, k ∈ l.*1 <-> k ∈ K /\ part k = Z.of_nat p.

Lemma emit_key_run al part n K k j s :
  sorted_ok part n K (sorted_data s) -> Forall okk K -> okk k -> 0 <= part k < Z.of_nat n -> roomy al k ->
  exists s', emit_key al (part k) k j s = Done (tt, s') /\ sorted_ok part n (k :: K) (sorted_data s') /\
    data_values s' = data_values s /\ out s' = out s.
Proof.
  intros [Hlen HS] HK Hk Hp Hr. unfold emit_key. rewrite (proj2 (Z.ltb_ge _ _)) by lia. unfold bind at 1, gets.
  destruct (lookup_lt_is_Some_2 (sorted_data s) (Z.to_nat (part k))) as [l' Hl']; [lia|]. rewrite Hl'.
  destruct (HS _ _ Hl') as (l & -> & Hsort & Hin).
  assert (Forall okk l.*1) as Hokl.
  { rewrite Forall_forall in HK |- *. intros x Hx. by apply HK, (Hin x). }
  destruct (find_key k l) eqn:Ef.
  { apply find_key_in in Ef; [|done..]. exists s. split; [done|]. split; [|done]. split; [done|]. intros p l' Hl. destruct (HS _ _ Hl) as (l0 & -> & Hs0 & Hin0). exists l0. split_and!; [done..|].
    intros x. rewrite Hin0, elem_of_cons. split; [naive_solver|]. intros [[->|?] Hpx]; [|done]. split; [|done]. by apply Hin in Ef as [? _]. }
  unfold bind, modify. rewrite copy_string_run by done.
  eexists. split; [done|]. cbn. split; [|done]. split; [by rewrite length_insert|].
  intros p l' Hl. destruct (decide (p = Z.to_nat (part k))) as [->|Hne].
  - rewrite list_lookup_insert_eq in Hl by lia. injection Hl as <-. eexists. split; [done|].
    split; [by apply insert_key_sorted|]. intros x. rewrite insert_key_in, Hin, elem_of_cons by done.
    split; [intros [->|[? ?]]; [split; [by left|lia]|by split; [right|]]|intros [[->|?] ?]; [by left|by right]].
  - rewrite list_lookup_insert_ne in Hl by done. destruct (HS _ _ Hl) as (l0 & -> & Hs0 & Hin0). exists l0.
    split_and!; [done|done|]. intros x. rewrite Hin0, elem_of_cons. split; [by intros [? ?]; split; [right|]|].
    intros [[->|?] ?]; [lia|done].
Qed.

(** ** The whole run *)

Definition val_of (st : mstep) : option (key * key) := match st with Val k v => Some (k, v) | Srt _ _ => None end.
Definition srt_of (st : mstep) : option key := match st with Val _ _ => None | Srt k _ => Some k end.

(** The line [Reduce] prints. *)
Definition count_line (k : key) (n : nat) : list Z := k ++ [32] ++ printint (i32 (Z.of_nat n)) 10 true ++ [10].

Section run.
Context (al : allocator) (Hzero : al_zeroed al = true).
Context (part : key -> Z -> Z) (n : nat).
Context (D : list key) (HDok : Forall okk D).
Context (Hroom : forall k, k ∈ D -> hash_of k + Z.of_nat (length D) <= SIZE).
Context (Hpart : forall k, k ∈ D -> 0 <= part k (Z.of_nat n) < Z.of_nat n).
Let P k := part k (Z.of_nat n).

(** *** The mappers *)

Definition mapped (V : list (key * key)) (K : list key) (s : mr) : Prop :=
  tab_ok V.*1 (values V) (data_values s) /\ V.*1 ⊆ D /\ sorted_ok P n K (sorted_data s) /\ K ⊆ D.

Definition roomy_step (st : mstep) : Prop := match st with Val k v => roomy al k /\ roomy al v | Srt k _ => roomy al k end.
Lemma msteps_run_ok tr V K s :
  mapped V K s -> (omap val_of tr).*1 ⊆ D -> omap srt_of tr ⊆ D -> Forall roomy_step tr ->
  exists s', msteps_run al part (Z.of_nat n) tr s = Done (tt, s') /\
    mapped (rev (omap val_of tr) ++ V) (rev (omap srt_of tr) ++ K) s' /\ out s' = out s.
Proof.
  revert V K s. induction tr as [|[k v|k j] tr IH]; intros V K s (HT & HV & HS & HK) H1 H2 Hr; cbn [msteps_run mstep_run].
  - exists s. by split.
  - cbn in H1. apply Forall_cons in Hr as [[Hrk Hrv] Hr].
    destruct (emit_value_run al Hzero D HDok Hroom V k v s HT HV) as (j & s1 & E & HT1 & S1 & O1); [set_solver|done|done|].
    unfold bind. rewrite E. cbn [omap list_omap val_of srt_of rev] in *.
    destruct (IH ((k, v) :: V) K s1) as (s2 & E2 & HM & O2); [split_and!; [done|cbn; set_solver|by rewrite S1|done]|set_solver|done|done|].
    exists s2. split; [exact E2|]. split; [|congruence]. by rewrite <-app_assoc.
  - cbn in H2. apply Forall_cons in Hr as [Hrk Hr]. rewrite Forall_forall in HDok.
    destruct (emit_key_run al P n K k j s HS) as (s1 & E & HS1 & T1 & O1); [apply Forall_forall; intros; by apply HDok, HK|apply HDok; set_solver|apply Hpart; set_solver|done|].
    unfold bind. unfold P in E. rewrite E. cbn [omap list_omap val_of srt_of rev] in *.
    destruct (IH V (k :: K) s1) as (s2 & E2 & HM & O2); [split_and!; [by rewrite T1|done|done|set_solver]|done|set_solver|done|].
    exists s2. split; [exact E2|]. split; [|congruence]. by rewrite <-app_assoc.
Qed.

Lemma roomy_steps words tr :
  Forall (roomy al) words -> Forall (fun x => roomy al x.2) (omap val_of tr) -> (omap val_of tr).*1 ≡ₚ words -> omap srt_of tr ≡ₚ words ->
  Forall roomy_step tr.
Proof.
  intros Hw Hv HV HK. apply Forall_forall. intros [k v|k j] Hst; cbn.
  - assert ((k, v) ∈ omap val_of tr) as Hin by (apply list_elem_of_omap; by eexists). rewrite Forall_forall in Hw. rewrite Forall_forall in Hv. split; [|exact (Hv _ Hin)].
    apply Hw. rewrite <- HV. apply list_elem_of_fmap. by exists (k, v).
  - rewrite Forall_forall in Hw. apply Hw. rewrite <- HK. apply list_elem_of_omap. by eexists.
Qed.

(** *** The reducers *)

(** The keys of the partitions, and the values emitted. *)
Context (V : list (key * key)) (Ks : list (list key)).
Context (HVD : V.*1 ⊆ D) (HKs : length Ks = n).
Context (Hin : forall p l k, Ks !! p = Some l -> k ∈ l -> k ∈ V.*1 /\ P k = Z.of_nat p).
Context (Hnd : forall p l, Ks !! p = Some l -> NoDup l).

Definition line_for (x : nat * key) : list Z := count_line x.2 (length (values V x.2)).

(** Thread [p] has printed the lines of the keys [dn] and is at those of [l];
    it has counted some of the values of the first of them. *)
Record at_keys (vals : key -> list key) (p : nat) (dn : list key) (t : list (key * Z) * Z) : Prop := {
  ak_keys : Ks !! p = Some (dn ++ t.1.*1);
  ak_rest k : k ∈ tail t.1.*1 -> vals k = values V k;
  ak_head k l : t.1.*1 = k :: l -> exists c, t.2 = i32 (Z.of_nat c) /\ (c + length (vals k) = length (values V k))%nat
}.
Record reducing (T : list (nat * key)) (vals : key -> list key) (ts : list (list (key * Z) * Z)) (s : mr) : Prop := {
  rg_tab : tab_ok V.*1 vals (data_values s);
  rg_out : out s = concat (map line_for T);
  rg_len : length ts = n;
  rg_tags : Forall (fun x => (x.1 < n)%nat) T;
  rg_keys p t : ts !! p = Some t -> at_keys vals p (filter (fun x => x.1 = p) T).*2 t
}.
(** The steps a thread has still to take. *)
Definition left_of (vals : key -> list key) (t : list (key * Z) * Z) : nat := sum_list ((fun k => S (length (vals k))) <$> t.1.*1).

Lemma at_keys_in vals p dn t k : at_keys vals p dn t -> k ∈ t.1.*1 -> k ∈ V.*1 /\ P k = Z.of_nat p.
Proof. intros Ha Hk. eapply Hin; [apply Ha|]. set_solver. Qed.
Lemma at_keys_tail vals p dn t k l : at_keys vals p dn t -> t.1.*1 = k :: l -> k ∉ l.
Proof.
  intros Ha E. pose proof (Hnd _ _ (ak_keys _ _ _ _ Ha)) as HN. rewrite E in HN. apply NoDup_app in HN as (_ & _ & HN). by apply NoDup_cons in HN as [? _].
Qed.
(** Values of a key that is not one of a thread do not matter to it. *)
Lemma at_keys_other vals vals' p dn t : at_keys vals p dn t -> (forall k, k ∈ t.1.*1 -> vals' k = vals k) -> at_keys vals' p dn t /\ left_of vals' t = left_of vals t.
Proof.
  intros [H1 H2 H3] He. split; [split; [done| |]|].
  - intros k Hk. rewrite He; [by apply H2|]. destruct (t.1.*1); [done|]. by right.
  - intros k l E. rewrite He; [by eapply H3|]. rewrite E. by left.
  - unfold left_of. f_equal. apply list_fmap_ext. intros i k Hk. by rewrite He by (by eapply list_elem_of_lookup_2).
Qed.

Lemma i32_succ c : i32 (i32 (Z.of_nat c) + 1) = i32 (Z.of_nat (S c)).
Proof. rewrite <- (i32_u32 (_ + 1)), <- u32_add_l, u32_i32, u32_add_l, i32_u32. f_equal. lia. Qed.

(** One step of thread [p], which has a key left. *)
Lemma Reduce_step T vals ts s p k j l a :
  reducing T vals ts s -> ts !! p = Some ((k, j) :: l, a) ->
  exists T' t s', reduce_thread 0 (Reduce al) ((k, j) :: l, a) s = Done (t, s') /\
    let vals' := fun k' => if decide (k' = k) then tail (vals k) else vals k' in
    reducing T' vals' (<[p := t]> ts) s' /\ left_of vals ((k, j) :: l, a) = S (left_of vals' t) /\
    forall q u, q <> p -> ts !! q = Some u -> left_of vals' u = left_of vals u.
Proof.
  intros [HT HO HL HG HA] Hp. pose proof (HA _ _ Hp) as Ha. destruct (at_keys_in _ _ _ _ k Ha) as [HkV HkP]; [by left|]. assert (k ∉ l.*1) as Hkl by exact (at_keys_tail _ _ _ _ _ _ Ha eq_refl).
  destruct (ak_head _ _ _ _ Ha k l.*1 eq_refl) as (c & Hca & Hc). cbn in Hca. subst a. set (vals' := fun k' => if decide (k' = k) then tail (vals k) else vals k').
  destruct (get_next_run al Hzero D HDok Hroom V.*1 vals k s HT HVD HkV) as (s1 & E & HT1 & S1 & O1). fold vals' in HT1.
  assert (forall k', k' <> k -> vals' k' = vals k') as Hne by (intros k' Hk'; unfold vals'; by rewrite decide_False).
  assert (vals' k = tail (vals k)) as Heq by (unfold vals'; by rewrite decide_True).
  assert (forall q u, q <> p -> ts !! q = Some u -> at_keys vals' q (filter (fun x => x.1 = q) T).*2 u /\ left_of vals' u = left_of vals u) as Hother.
  { intros q u Hq Hu. apply at_keys_other; [by apply HA|]. intros k' Hk'. apply Hne. intros ->. destruct (at_keys_in _ _ _ _ k (HA _ _ Hu) Hk') as [_ ?]. lia. }
  assert (forall k', k' ∈ l.*1 -> vals' k' = vals k') as Hl by (intros k' Hk'; apply Hne; by intros ->).
  assert (sum_list ((fun k => S (length (vals' k))) <$> l.*1) = sum_list ((fun k => S (length (vals k))) <$> l.*1)) as Hsum.
  { f_equal. apply list_fmap_ext. intros i k' Hk'. rewrite Hl; [done|]. by eapply list_elem_of_lookup_2. }
  pose proof (lookup_lt_Some _ _ _ Hp) as Hlt. unfold reduce_thread, Reduce. destruct (vals k) as [|v vs] eqn:Ev; cbn [head tail length] in *.
  - exists (T ++ [(p, k)]), (l, 0). eexists. split; [unfold bind; rewrite E; done|]. split_and!.
    + split; cbn [data_values out print]; [done| |by rewrite length_insert|apply Forall_app_2; [done|]; by repeat constructor; cbn; lia|].
      * rewrite O1, HO, map_app, concat_app. cbn. rewrite app_nil_r. do 2 f_equal. unfold line_for, count_line. cbn. by rewrite <- Hc, Nat.add_0_r.
      * intros q u Hu. rewrite filter_app, fmap_app. destruct (decide (q = p)) as [->|Hq].
        -- rewrite list_lookup_insert_eq in Hu by done. injection Hu as <-. rewrite filter_cons_True by done. cbn. split; cbn.
           ++ rewrite (ak_keys _ _ _ _ Ha). by rewrite <- app_assoc.
           ++ intros k' Hk'. rewrite Hl by (destruct (l.*1); [done|by right]). apply (ak_rest _ _ _ _ Ha). cbn. destruct (l.*1); [done|by right].
           ++ intros k' l' El. exists 0%nat. split; [done|]. rewrite Hl, (ak_rest _ _ _ _ Ha); [done|cbn; rewrite El; by left|rewrite El; by left].
        -- rewrite list_lookup_insert_ne in Hu by done. rewrite filter_cons_False by (cbn; congruence). cbn. rewrite app_nil_r. by apply Hother.
    + unfold left_of. cbn. rewrite Ev, Hsum. done.
    + intros q u Hq Hu. by destruct (Hother q u Hq Hu).
  - exists T, ((k, j) :: l, i32 (i32 (Z.of_nat c) + 1)). eexists. split; [unfold bind; rewrite E; done|]. split_and!.
    + split; [done|congruence|by rewrite length_insert|done|]. intros q u Hu. destruct (decide (q = p)) as [->|Hq].
      * rewrite list_lookup_insert_eq in Hu by done. injection Hu as <-. split; cbn.
        -- apply Ha.
        -- intros k' Hk'. rewrite Hl by done. by apply (ak_rest _ _ _ _ Ha).
        -- intros k' l' [= <- <-]. exists (S c). split; [apply i32_succ|]. rewrite Heq. lia.
      * rewrite list_lookup_insert_ne in Hu by done. by apply Hother.
    + unfold left_of. cbn. rewrite Ev, Heq, Hsum. done.
    + intros q u Hq Hu. by destruct (Hother q u Hq Hu).
Qed.
Lemma reduce_run_ok sched T vals ts s :
  reducing T vals ts s -> exists T' vals' ts' s', reduce_run 0 (Reduce al) ts sched s = Done (ts', s') /\ reducing T' vals' ts' s' /\
    forall p t, ts !! p = Some t -> exists t', ts' !! p = Some t' /\ (left_of vals' t' <= left_of vals t - count_occ Nat.eq_dec sched p)%nat.
Proof.
  revert T vals ts s. induction sched as [|p sched IH]; intros T vals ts s HR; cbn [reduce_run].
  { exists T, vals, ts, s. split_and!; try done. intros p t Ht. exists t. split; [done|]. cbn. lia. }
  unfold bind, reduce_step. destruct (ts !! p) as [[[|[k j] l] a]|] eqn:Ep.
  - assert (<[p := ([], a)]> ts = ts) as Es by (by apply list_insert_id). unfold bind, reduce_thread, ret. rewrite Es.
    destruct (IH T vals ts s HR) as (T' & vals' & ts' & s' & E & HR' & Hl). exists T', vals', ts', s'. split_and!; try done.
    intros q t Ht. destruct (Hl q t Ht) as (t' & Ht' & Hle). exists t'. split; [done|]. cbn [count_occ]. destruct (Nat.eq_dec p q) as [<-|]; [|done].
    rewrite Ep in Ht. injection Ht as <-. unfold left_of in *. cbn in *. lia.
  - destruct (Reduce_step T vals ts s p k j l a HR Ep) as (T1 & t1 & s1 & E1 & HR1 & Hl1 & Ho). unfold bind. rewrite E1. unfold ret.
    destruct (IH _ _ _ _ HR1) as (T' & vals' & ts' & s' & E & HR' & Hl). exists T', vals', ts', s'. split_and!; try done.
    intros q t Ht. cbn [count_occ]. destruct (Nat.eq_dec p q) as [<-|Hpq].
    + rewrite Ep in Ht. injection Ht as <-. destruct (Hl p t1) as (t' & Ht' & Hle); [by apply list_lookup_insert_eq, (lookup_lt_Some _ _ _ Ep)|]. exists t'. split; [done|]. lia.
    + destruct (Hl q t) as (t' & Ht' & Hle); [by rewrite list_lookup_insert_ne|]. exists t'. split; [done|]. rewrite (Ho q t) in Hle by done. done.
  - destruct (IH T vals ts s HR) as (T' & vals' & ts' & s' & E & HR' & Hl). exists T', vals', ts', s'. split_and!; try done.
    intros q t Ht. destruct (Hl q t Ht) as (t' & Ht' & Hle). exists t'. split; [done|]. cbn [count_occ]. destruct (Nat.eq_dec p q) as [<-|]; [congruence|done].
Qed.
End run.

Definition count (k : key) (words : list key) : nat := length (filter (fun w => w = k) words).
Lemma length_values V k : length (values V k) = count k V.*1.
Proof.
  unfold count. induction V as [|[k' v] V IH]; [done|]. rewrite values_cons. cbn [fmap list_fmap fst]. rewrite filter_cons.
  destruct (decide (k' = k)); cbn; by rewrite IH.
Qed.
Global Instance count_proper k : Proper ((≡ₚ) ==> eq) (count k).
Proof. intros l1 l2 H. unfold count. by rewrite H. Qed.

(** What the word count prints: a line for each of the words of the tagged
    list, with the number of times it occurs. The words tagged with a
    partition are the distinct words of the partition in order. *)
Definition count_report (words : list key) (n : nat) (report : list Z) : Prop :=
  exists T : list (nat * key),
    report = concat (map (fun x => count_line x.2 (count x.2 words)) T) /\
    Forall (fun x => (x.1 < n)%nat) T /\
    forall p, (p < n)%nat -> let l := (filter (fun x => x.1 = p) T).*2 in
      StronglySorted klt l /\ forall k, k ∈ l <-> k ∈ words /\ MR_DefaultHashPartition k (Z.of_nat n) = Z.of_nat p.

Definition fits (words : list key) : Prop :=
  forall w, w ∈ words -> hash_of w + Z.of_nat (length (remove_dups words)) <= SIZE.

Lemma klt_NoDup l : StronglySorted klt l -> NoDup l.
Proof.
  induction 1 as [|x l' _ IH Hx]; constructor; [|done]. intros Hin. rewrite Forall_forall in Hx.
  specialize (Hx _ Hin). unfold klt in Hx. rewrite strcmp_refl in Hx. lia.
Qed.
Lemma sorted_threads part n K sd :
  sorted_ok part n K sd -> exists ls, mapM (fun l => l) sd = Some ls /\ length ls = n /\
    forall p l, ls !! p = Some l -> StronglySorted klt l.*1 /\ forall k, k ∈ l.*1 <-> k ∈ K /\ part k = Z.of_nat p.
Proof.
  intros [Hlen HS]. assert (is_Some (mapM (fun l => l) sd)) as [ls Hls].
  { apply mapM_is_Some, Forall_lookup. intros p l' Hl. destruct (HS _ _ Hl) as (l & -> & _). by eexists. }
  exists ls. pose proof Hls as Hf. apply mapM_Some in Hf. split_and!; [done|by rewrite <- Hlen, (Forall2_length _ _ _ Hf)|].
  intros p l Hl. destruct (Forall2_lookup_r _ _ _ _ _ Hf Hl) as (l' & Hl' & ->). destruct (HS _ _ Hl') as (l0 & [= <-] & ?). done.
Qed.

Lemma count_others k k' words : k' <> k -> count k' (filter (fun w => w <> k) words) = count k' words.
Proof.
  intros Hne. unfold count. induction words as [|w words IH]; [done|]. rewrite (filter_cons _ w words), (filter_cons (fun w => w = k') w words).
  destruct (decide (w <> k)) as [Hw|Hw]; [rewrite filter_cons; destruct (decide (w = k')); cbn; by rewrite IH|].
  rewrite decide_False; [done|]. intros ->. by apply Hw.
Qed.
Lemma count_split k words : length words = (count k words + length (filter (fun w => w <> k) words))%nat.
Proof. unfold count. induction words as [|w words IH]; [done|]. rewrite !filter_cons. repeat case_decide; cbn; (lia || congruence). Qed.
Lemma count_pos k words : k ∈ words -> (0 < count k words)%nat.
Proof. intros Hk. unfold count. destruct (filter _ words) eqn:E; [|cbn; lia]. assert (k ∈ filter (fun w => w = k) words) as H by (by apply list_elem_of_filter). rewrite E in H. set_solver. Qed.
(** The calls of [get_next] for some of the words. *)
Lemma count_sum l words :
  NoDup l -> (forall k, k ∈ l -> k ∈ words) -> (sum_list ((fun k => S (count k words)) <$> l) <= 2 * length words)%nat.
Proof.
  intros Hnd. revert words. induction Hnd as [|k l Hk Hnd IH]; intros words Hl; cbn; [lia|].
  specialize (IH (filter (fun w => w <> k) words)). rewrite (count_split k words). pose proof (count_pos k words (Hl k ltac:(by left))).
  assert (forall k', k' ∈ l -> k' <> k) as Hne by (intros ? ? ->; done).
  enough ((sum_list ((fun k => S (count k words)) <$> l) <= 2 * length (filter (fun w => w <> k) words))%nat) by lia.
  erewrite list_fmap_ext; [apply IH|]; [|intros i k' Hk'; cbn; f_equal; symmetry; apply count_others, Hne; by eapply list_elem_of_lookup_2].
  intros k' Hk'. apply list_elem_of_filter. split; [by apply Hne|]. apply Hl. by right.
Qed.

(** Every thread gets enough turns. *)
Definition turns (n m : nat) (sched : list nat) : Prop := forall p, (p < n)%nat -> (m <= count_occ Nat.eq_dec sched p)%nat.

Section wordcount_run.
Context (al : allocator) (Hzero : al_zeroed al = true).
Context (words : list key) (Hok : Forall okk words) (Hfit : fits words).
Context (n : nat) (Hn : (0 < n)%nat).
Abbreviation part := (fun k => MR_DefaultHashPartition k (Z.of_nat n)).

Lemma words_okk : Forall okk (remove_dups words).
Proof. apply Forall_forall. intros w Hw. apply (proj1 (Forall_forall okk words) Hok w). by apply elem_of_remove_dups. Qed.
Lemma words_room k : k ∈ remove_dups words -> hash_of k + Z.of_nat (length (remove_dups words)) <= SIZE.
Proof. intros Hw. apply Hfit. by apply elem_of_remove_dups. Qed.
Lemma words_part k : k ∈ remove_dups words -> 0 <= MR_DefaultHashPartition k (Z.of_nat n) < Z.of_nat n.
Proof. intros _. apply hash_range. lia. Qed.

(** Once all threads have returned. *)
Lemma reducing_report V Ks T vals ts s :
  V.*1 ≡ₚ words -> reducing n V Ks T vals ts s -> (forall p t, ts !! p = Some t -> t.1 = []) ->
  (forall p l, Ks !! p = Some l -> StronglySorted klt l /\ forall k, k ∈ l <-> k ∈ words /\ part k = Z.of_nat p) ->
  count_report words n (out s).
Proof.
  intros HV HR Hret HKs. exists T. split_and!; [|apply HR|].
  - rewrite (rg_out _ _ _ _ _ _ _ HR). f_equal. apply map_ext. intros x. unfold line_for. by rewrite length_values, HV.
  - intros p Hp. destruct (lookup_lt_is_Some_2 ts p) as [t Ht]; [rewrite (rg_len _ _ _ _ _ _ _ HR); lia|].
    pose proof (ak_keys _ _ _ _ _ _ (rg_keys _ _ _ _ _ _ _ HR p t Ht)) as HK. rewrite (Hret p t Ht) in HK. cbn in HK. rewrite app_nil_r in HK. by apply HKs.
Qed.

(** The reducers, over the lists and the table the mappers leave. *)
Lemma reducers_report V ls sched s :
  V.*1 ≡ₚ words -> tab_ok V.*1 (values V) (data_values s) -> out s = [] -> length ls = n ->
  (forall p l, ls !! p = Some l -> StronglySorted klt l.*1 /\ forall k, k ∈ l.*1 <-> k ∈ words /\ part k = Z.of_nat p) ->
  turns n (2 * length words) sched ->
  exists ts s', reduce_run 0 (Reduce al) ((fun l => (l, 0)) <$> ls) sched s = Done (ts, s') /\ forallb returned ts = true /\
    count_report words n (out s').
Proof.
  intros HV HT Ho Hlen Hls Hturns. set (Ks := (fun l : list (key * Z) => l.*1) <$> ls).
  assert (forall p l, Ks !! p = Some l -> StronglySorted klt l /\ forall k, k ∈ l <-> k ∈ words /\ part k = Z.of_nat p) as HKs.
  { intros p l. unfold Ks. rewrite list_lookup_fmap_Some. intros (l' & -> & Hl). by apply Hls. }
  assert (reducing n V Ks [] (values V) ((fun l => (l, 0)) <$> ls) s) as HR.
  { split; [done|done|by rewrite length_fmap|constructor|]. intros p t. rewrite list_lookup_fmap_Some. intros (l & -> & Hl). split; cbn; [|done|by exists 0%nat].
    unfold Ks. by rewrite list_lookup_fmap, Hl. }
  destruct (reduce_run_ok al Hzero MR_DefaultHashPartition n _ words_okk words_room words_part V Ks) with (sched := sched) (5 := HR) as (T & vals & ts & s' & E & HR' & Hleft).
  { intros w Hw. apply elem_of_remove_dups. by rewrite <- HV. }
  { unfold Ks. by rewrite length_fmap. }
  { intros p l k Hl Hk. rewrite HV. by apply (HKs p l Hl). }
  { intros p l Hl. by apply klt_NoDup, (HKs p l Hl). }
  assert (forall p t, ts !! p = Some t -> t.1 = []) as Hret.
  { intros p t Ht. pose proof (lookup_lt_Some _ _ _ Ht) as Hp. rewrite (rg_len _ _ _ _ _ _ _ HR') in Hp. destruct (lookup_lt_is_Some_2 ls p) as [l Hl]; [lia|].
    destruct (Hleft p (l, 0)) as (t' & Ht' & Hle); [by rewrite list_lookup_fmap, Hl|]. assert (t' = t) as -> by congruence.
    destruct (Hls p l Hl) as [Hsort Hin]. specialize (Hturns p Hp). pose proof (count_sum l.*1 words (klt_NoDup _ Hsort)) as Hc.
    assert (left_of (values V) (l, 0) = sum_list ((fun k => S (count k words)) <$> l.*1)) as Hl0.
    { unfold left_of. f_equal. apply list_fmap_ext. intros i k _. by rewrite length_values, HV. }
    assert (left_of vals t = 0%nat) as H0 by (rewrite Hl0 in Hle; assert (forall k, k ∈ l.*1 -> k ∈ words) by (intros; by apply Hin); specialize (Hc ltac:(done)); lia).
    destruct t as [[|[k j] l'] a]; [done|]. unfold left_of in H0. cbn in H0. lia. }
  exists ts, s'. split_and!; [done| |by eapply reducing_report].
  apply forallb_forall. intros t Ht%list_elem_of_In. apply list_elem_of_lookup in Ht as [p Ht]. unfold returned. by rewrite (Hret p t Ht).
Qed.

Lemma wordcount_run tr sched :
  Forall (roomy al) words -> Forall (fun x => roomy al x.2) (omap val_of tr) ->
  (omap val_of tr).*1 ≡ₚ words -> omap srt_of tr ≡ₚ words -> turns n (2 * length words) sched ->
  exists s', MR_Run al (Z.of_nat n) 0 (Reduce al) (msteps_run al MR_DefaultHashPartition (Z.of_nat n) tr) sched mr_start = Done (tt, s') /\
    count_report words n (out s').
Proof.
  intros Hrw Hrv HV HK Hturns.
  set (s0 := set_sorted (replicate n (Some [])) mr_start).
  assert (mapped MR_DefaultHashPartition n (remove_dups words) [] [] s0) as H0.
  { split_and!.
    - split; [intros j k c H; cbn in H; by rewrite lookup_empty in H|intros k H; set_solver].
    - set_solver.
    - split; [apply length_replicate|]. intros p l' [-> _]%lookup_replicate. exists []. split_and!; [done|constructor|set_solver].
    - set_solver. }
  destruct (msteps_run_ok al Hzero MR_DefaultHashPartition n _ words_okk words_room words_part tr [] [] s0 H0) as (s1 & E1 & (HT & HVD & HS & HKD) & O1).
  { intros w Hw. apply elem_of_remove_dups. by rewrite <-HV. }
  { intros w Hw. apply elem_of_remove_dups. by rewrite <-HK. }
  { by apply roomy_steps with words. }
  rewrite !app_nil_r in *. set (V := rev (omap val_of tr)) in *.
  assert (V.*1 ≡ₚ words) as HVw. { unfold V. rewrite <-HV. apply Permutation_map. symmetry. apply Permutation_rev. }
  assert (rev (omap srt_of tr) ≡ₚ words) as HKw by (rewrite <-HK; symmetry; apply Permutation_rev).
  destruct (sorted_threads _ _ _ _ HS) as (ls & Els & Hlen & Hls).
  destruct (reducers_report V ls sched s1) as (ts & s2 & E2 & Hret & HR); [done|done|done|done| |done|].
  { intros p l Hl. destruct (Hls p l Hl) as [? Hin]. split; [done|]. intros k. by rewrite Hin, HKw. }
  exists s2. split; [|done]. unfold MR_Run, bind, modify. rewrite Nat2Z.id, Hzero. fold s0. rewrite E1. unfold reduce_threads. by rewrite Els, E2, Hret.
Qed.
End wordcount_run.

(** [Map] is one order of its steps. *)
Lemma MR_Emit_steps al part n k v s :
  exists j, MR_Emit al part n k v s = (mstep_run al part n (Val k v);;; mstep_run al part n (Srt k j)) s.
Proof.
  exists (match emit_value al k v s with Done (j, _) => j | _ => 0 end). unfold MR_Emit, mstep_run, bind.
  by destruct (emit_value al k v s) as [[]|m| |].
Qed.
Lemma Map_steps al n words s :
  exists tr, Map al n words s = msteps_run al MR_DefaultHashPartition n tr s /\
    omap val_of tr = (fun w => (w, [49])) <$> words /\ omap srt_of tr = words.
Proof.
  revert s. induction words as [|w words IH]; intros s; [by exists []|].
  destruct (MR_Emit_steps al MR_DefaultHashPartition n w [49] s) as [j Ej].
  destruct (IH (match MR_Emit al MR_DefaultHashPartition n w [49] s with Done (_, s1) => s1 | _ => s end)) as (tr & E & H1 & H2).
  exists (Val w [49] :: Srt w j :: tr). cbn [omap list_omap val_of srt_of fmap list_fmap fst]. rewrite H1, H2. split; [|done].
  cbn [Map msteps_run]. unfold bind at 1. rewrite Ej in *. unfold bind in *.
  destruct (mstep_run _ _ _ (Val w [49]) s) as [[[] s1]|m| |]; [|done..].
  by destruct (mstep_run _ _ _ (Srt w j) s1) as [[[] s2]|m| |].
Qed.

(** Property C28: the word count. Whatever order the critical sections of the
    mapper threads are run in, each word being emitted once in each of the two,
    and whatever order the ten reducer threads take their steps in, the program
    ends and prints a line for each distinct word with the number of times (an
    [int]) it occurs, and the lines of a partition are in the order of
    [strcmp]. A step of a reducer is a call of [get_next] and, after the last
    of a word, the [printf]; each reducer has the turns it needs, twice as many
    as there are words. The conditions: the words have no 0 byte; the hash table has room for the words behind the hash of each of
    them; and, since the library takes one byte too few for its copies and
    does not set the ends of its lists, the memory [malloc] returns is zero and
    has a byte more than was asked for, at the sizes of the words and values. *)
Theorem wordcount_any_order al words tr sched :
  Forall okk words -> fits words -> (omap val_of tr).*1 ≡ₚ words -> omap srt_of tr ≡ₚ words ->
  al_zeroed al = true -> Forall (roomy al) words -> Forall (fun x => roomy al x.2) (omap val_of tr) ->
  turns 10 (2 * length words) sched ->
  exists s', MR_Run al 10 0 (Reduce al) (msteps_run al MR_DefaultHashPartition 10 tr) sched mr_start = Done (tt, s') /\
    count_report words 10 (out s').
Proof. intros H1 H2 H3 H4 H5 H6 H7 H8. exact (wordcount_run al H5 words H1 H2 10 ltac:(lia) tr sched H6 H7 H3 H4 H8). Qed.

(** The run with the files read one after the other. *)
Lemma wordcount_files al files sched :
  let words := files ≫= file_words in
  Forall okk words -> fits words -> al_zeroed al = true -> Forall (roomy al) words -> roomy al [49] -> turns 10 (2 * length words) sched ->
  exists s', wordcount al files sched mr_start = Done (tt, s') /\ count_report words 10 (out s').
Proof.
  intros words Hok Hfit Hzero Hr H1r Hturns.
  destruct (Map_steps al 10 words (set_sorted (replicate 10 (Some [])) mr_start)) as (tr & E & H1 & H2).
  destruct (wordcount_run al Hzero words Hok Hfit 10 ltac:(lia) tr sched) as (s' & ES & HR); [done| | |by rewrite H2|done|].
  { rewrite H1. apply Forall_fmap, Forall_true. done. }
  { rewrite H1, <- list_fmap_compose. by rewrite list_fmap_id. }
  exists s'. split; [|done]. rewrite <-ES. unfold wordcount, MR_Run, bind, modify. fold words.
  change (Z.to_nat 10) with 10%nat. change (Z.to_nat (Z.of_nat 10)) with 10%nat. change (Z.of_nat 10) with 10. rewrite Hzero. by rewrite E.
Qed.

(** An allocator whose blocks are multiples of 16 bytes, of which 8 are its
    own, and two mappers with the words [a b] and [b], interleaved; the reducer
    of [b] overtakes that of [a]. *)
Definition chunks : allocator := {| al_zeroed := true; al_usable n := Nat.max 24 ((n + 23) / 16 * 16 - 8) |}.
Definition demo_trace : list mstep := [Val [97] [49]; Val [98] [49]; Srt [98] 5; Srt [97] 4; Val [98] [49]; Srt [98] 5].
Definition demo_sched : list nat := [0; 1; 1; 1]%nat ++ concat (replicate 6 (seq 0 10)).
Lemma wordcount_any_order_witness :
  exists s', MR_Run chunks 10 0 (Reduce chunks) (msteps_run chunks MR_DefaultHashPartition 10 demo_trace) demo_sched mr_start = Done (tt, s') /\
    out s' = str "b 2" ++ [10] ++ str "a 1" ++ [10] /\ count_report [[97]; [98]; [98]] 10 (out s').
Proof.
  destruct (wordcount_any_order chunks [[97]; [98]; [98]] demo_trace demo_sched) as (s' & E & HR).
  - repeat constructor; lia.
  - unfold fits. intros w Hw. assert (w ∈ [[97]; [98]]) as Hw' by set_solver.
    apply elem_of_cons in Hw' as [->|Hw']; [by vm_compute|].
    apply list_elem_of_singleton in Hw' as ->. by vm_compute.
  - reflexivity.
  - apply (bool_decide_eq_true_1 _). by vm_compute.
  - reflexivity.
  - repeat constructor; apply Nat.ltb_lt; by vm_compute.
  - repeat constructor; apply Nat.ltb_lt; by vm_compute.
  - intros p Hp. do 10 (destruct p as [|p]; [apply Nat.leb_le; by vm_compute|]). lia.
  - exists s'. split; [exact E|]. split; [|exact HR]. vm_compute in E. by inversion E.
Defined.

(** ** What the library relies on *)

(** With the bytes asked for and no more, [strcpy] leaves every block: no
    call of [MR_Emit] comes back. *)
Lemma emit_overruns al part n k v s x :
  (al_usable al (length v) <= length v)%nat -> MR_Emit al part n k v s <> Done x.
Proof.
  intros Hv. unfold MR_Emit, emit_value, bind, gets, ret. destruct (find_slot k s) as [[j s1]| | |]; try done.
  unfold copy_string. rewrite (decide_False (P := (length v < _)%nat)) by lia. by destruct (data_values s1 !! j) as [[k' c]|]; [|case_decide].
Qed.
(** The blocks of [chunks] are too small for a word of 24 letters. *)
Lemma emit_long_word : MR_Emit chunks MR_DefaultHashPartition 10 (replicate 24 97) [49] mr_start = Fault.
Proof. by vm_compute. Qed.
(** The pointer at the end of a chain is never set: with memory that is not
    zeroed, the second call of [get_next] follows it. *)
Definition chunks_used : allocator := {| al_zeroed := false; al_usable := al_usable chunks |}.
Lemma emit_leaves_junk :
  (emit_value chunks_used [97] [49];;; get_next chunks_used [97];;; get_next chunks_used [97]) mr_start = Fault.
Proof. by vm_compute. Qed.
(** A word whose hash is the last slot: the second such word is looked for
    behind the end of the array. *)
Lemma probe_leaves_array k c :
  hash_of k = SIZE - 1 -> okk k -> okk c -> k <> c -> probe (Z.to_nat (SIZE - hash_of k)) k (hash_of k) {[SIZE - 1 := (c, DNull)]} = None.
Proof.
  intros Hh Hk Hc Hne. rewrite Hh. change (Z.to_nat (SIZE - (SIZE - 1))) with 1%nat. cbn [probe]. rewrite lookup_singleton_eq.
  rewrite (proj2 (Z.eqb_neq _ _)); [done|]. intros E. by apply strcmp_eq in E.
Qed.
