(* ===== verification/Lottery.v ===== *)
(** * Lottery: the lottery scheduler (scheduler of proc.c)

    What one round of [scheduler] does, how its draws are distributed, and when
    every process gets its turn. *)

From stdpp Require Import base list numbers gmap strings.
From S2P Require Import Prelude Params Proc.

Local Open Scope Z_scope.
Local Open Scope os_scope.

Definition LCG_M : Z := 134456.

Lemma lcg_mod s : 0 <= s < LCG_M -> lcg s = (8121 * s + 28411) mod LCG_M.
Proof.
  intros Hs. unfold lcg, LCG_M in *. rewrite Z.rem_mod_nonneg; [|wrap_lia..].
  f_equal. wrap_lia.
Qed.

Lemma lcg_range s : 0 <= s < LCG_M -> 0 <= lcg s < LCG_M.
Proof. intros Hs. rewrite lcg_mod by done. apply Z.mod_pos_bound. done. Qed.

(** ** Who wins a draw *)

Fixpoint total (ps : list proc) : Z :=
  match ps with
  | [] => 0
  | p :: ps => (if decide (p_state p = RUNNABLE) then p_tickets p else 0) + total ps
  end.

(** Ticket counts that cannot be negative and do not overflow an [int]. *)
Definition fair_tickets (ps : list proc) : Prop :=
  Forall (fun p => 0 <= p_tickets p) ps /\ total ps < 2 ^ 31 - 1.

Lemma total_nonneg ps : Forall (fun p => 0 <= p_tickets p) ps -> 0 <= total ps.
Proof. induction 1; cbn [total]; [done|]. case_decide; lia. Qed.

Lemma count_tickets_total c ps :
  Forall (fun p => 0 <= p_tickets p) ps -> 0 <= c -> c + total ps < 2 ^ 31 ->
  count_tickets c ps = c + total ps.
Proof.
  intros Hp. revert c. induction Hp as [|p ps Hp Hps IH]; intros c Hc Hlt; cbn [count_tickets total] in *.
  { lia. }
  pose proof (total_nonneg ps Hps). case_decide.
  - rewrite i32_small by wrap_lia. rewrite IH by lia. lia.
  - rewrite IH by lia. lia.
Qed.

(** Slot [i] wins the draw [r], counting from [c]: it is runnable, the tickets
    up to it reach [r], and those before it do not; the first runnable slot
    also wins below its range. *)
Definition wins (c r : Z) (ps : list proc) (i : nat) : Prop :=
  exists p, ps !! i = Some p /\ p_state p = RUNNABLE /\
    r <= c + total (take i ps) + p_tickets p /\
    (c + total (take i ps) < r \/ Forall (fun q => p_state q <> RUNNABLE) (take i ps)).

Lemma total_take_nonneg i ps :
  Forall (fun p => 0 <= p_tickets p) ps -> 0 <= total (take i ps).
Proof. intros. by apply total_nonneg, Forall_take. Qed.

Lemma total_idle ps : Forall (fun q => p_state q <> RUNNABLE) ps -> total ps = 0.
Proof. induction 1; cbn [total]; [done|]. case_decide; [done|lia]. Qed.

Lemma wins_S_run c r p ps i :
  p_state p = RUNNABLE -> c + p_tickets p < r ->
  wins c r (p :: ps) (S i) <-> wins (c + p_tickets p) r ps i.
Proof.
  intros Hr Hlt. unfold wins. cbn [take total]. rewrite decide_True by done.
  change ((p :: ps) !! S i) with (ps !! i).
  split; intros (q & Hi & Hq & H1 & H2); exists q; (split_and!; [done|done|lia|]).
  - destruct H2 as [?|H2]; [left; lia|]. by inversion H2.
  - left. destruct H2 as [?|H2]; [lia|]. rewrite (total_idle _ H2). lia.
Qed.

Lemma wins_S_idle c r p ps i :
  p_state p <> RUNNABLE -> wins c r (p :: ps) (S i) <-> wins c r ps i.
Proof.
  intros Hr. unfold wins. cbn [take total]. rewrite decide_False by done.
  change ((p :: ps) !! S i) with (ps !! i).
  split; intros (q & Hi & Hq & H1 & H2); exists q; (split_and!; [done|done|lia|]).
  - destruct H2 as [?|H2]; [left; lia|right]. by inversion H2.
  - destruct H2 as [?|H2]; [left; lia|right]. by constructor.
Qed.

Lemma fmap_S_Some (o : option nat) i : S <$> o = Some (S i) <-> o = Some i.
Proof. destruct o; cbn; naive_solver. Qed.

Lemma pick_wins r c ps i :
  Forall (fun p => 0 <= p_tickets p) ps -> 0 <= c -> c + total ps < 2 ^ 31 ->
  pick r c ps = Some i <-> wins c r ps i.
Proof.
  intros Hp. revert c i. induction Hp as [|p ps Hp Hps IH]; intros c i Hc Hlt.
  { split; [done|]. intros (p & Hi & _). by rewrite lookup_nil in Hi. }
  cbn [pick total] in *. pose proof (total_nonneg ps Hps) as Hnn.
  destruct (decide (p_state p = RUNNABLE)) as [Hr|Hr].
  - rewrite i32_small by wrap_lia. destruct (Z.leb_spec r (c + p_tickets p)) as [Hle|Hgt].
    + split.
      * intros [= <-]. exists p. cbn [take total]. split_and!; [done..|lia|by right].
      * intros (q & Hi & Hq & Hq1 & Hq2). destruct i as [|i]; [done|]. exfalso.
        cbn [take total] in *. rewrite decide_True in Hq2 by done.
        destruct Hq2 as [Hq2|Hq2]; [pose proof (total_take_nonneg i ps Hps); lia|].
        by inversion Hq2.
    + destruct i as [|i].
      * split; [by destruct (pick r _ ps)|]. intros (q & Hi & _ & Hq1 & _). cbn in *.
        simplify_eq. lia.
      * rewrite fmap_S_Some, wins_S_run by (done || lia). apply IH; lia.
  - destruct i as [|i].
    + split; [by destruct (pick r _ ps)|]. intros (q & Hi & Hq & _). cbn in *. by simplify_eq.
    + rewrite fmap_S_Some, wins_S_idle by done. apply IH; lia.
Qed.

(** The draws at which slot [i] wins are an interval. *)
Definition first_runnable (ps : list proc) (i : nat) : Prop :=
  Forall (fun q => p_state q <> RUNNABLE) (take i ps).
#[global] Instance first_runnable_dec ps i : Decision (first_runnable ps i) :=
  ltac:(unfold first_runnable; apply _).

Lemma wins_interval r ps i p :
  ps !! i = Some p -> p_state p = RUNNABLE -> 0 <= r ->
  wins 0 r ps i <->
  (if decide (first_runnable ps i) then 0 else total (take i ps) + 1) <= r
    <= total (take i ps) + p_tickets p.
Proof.
  intros Hi Hp Hr. unfold wins. case_decide as Hf.
  - split; [intros (q & Hq & _ & H1 & _); simplify_eq; lia|].
    intros [_ H1]. exists p. split_and!; [done..|lia|by right].
  - split; intros H; [destruct H as (q & Hq & _ & H1 & [H2|H2]); [simplify_eq; lia|done]|].
    exists p. split_and!; [done..|lia|left; lia].
Qed.

Lemma total_slot ps i p :
  Forall (fun q => 0 <= p_tickets q) ps -> ps !! i = Some p -> p_state p = RUNNABLE ->
  total (take i ps) + p_tickets p <= total ps.
Proof.
  intros Hp. revert i. induction Hp as [|q ps Hq Hps IH]; intros [|i] Hi Hr;
    cbn [lookup list_lookup] in Hi; simplify_eq; cbn [take total].
  - rewrite decide_True by done. pose proof (total_nonneg ps Hps). lia.
  - specialize (IH i Hi Hr). lia.
Qed.

Lemma count_interval (P : Z -> Prop) `{forall r, Decision (P r)} lo hi n :
  (forall r, 0 <= r < n -> P r <-> lo <= r <= hi) -> 0 <= lo <= hi + 1 -> hi < n ->
  length (filter P (seqZ 0 n)) = Z.to_nat (hi - lo + 1).
Proof.
  intros HP Hlo Hhi.
  replace n with (lo + ((hi - lo + 1) + (n - hi - 1))) by lia.
  rewrite seqZ_app, seqZ_app, !filter_app, !length_app by lia.
  assert (forall m k, (forall r, m <= r < m + k -> ~ P r) -> filter P (seqZ m k) = []) as Hnone.
  { intros m k Hm. apply filter_none. intros r Hr%elem_of_seqZ. apply Hm. lia. }
  rewrite (Hnone 0 lo), (Hnone (0 + lo + (hi - lo + 1))).
  - rewrite filter_all; [rewrite length_seqZ; cbn; lia|].
    intros r Hr%elem_of_seqZ. apply HP; lia.
  - intros r Hr HPr. apply HP in HPr; lia.
  - intros r Hr HPr. apply HP in HPr; lia.
Qed.

(** ** The period of the seed

    [lcg] is the affine map [a x + c] modulo [LCG_M] = 2^3 7^5. Its powers are
    affine maps too, computed by repeated squaring; the one for [LCG_M] fixes
    the initial seed and those for [LCG_M / 2] and [LCG_M / 7] do not. *)

Lemma iter_lcg_range k s : 0 <= s < LCG_M -> 0 <= Nat.iter k lcg s < LCG_M.
Proof. intros Hs. induction k as [|k IH]; [done|]. cbn. by apply lcg_range. Qed.

Definition aff_comp (f g : Z * Z) : Z * Z :=
  ((f.1 * g.1) mod LCG_M, (f.1 * g.2 + f.2) mod LCG_M).
Fixpoint aff_pow (n : positive) : Z * Z :=
  match n with
  | xH => (8121, 28411)
  | xO p => let f := aff_pow p in aff_comp f f
  | xI p => let f := aff_pow p in aff_comp (8121, 28411) (aff_comp f f)
  end.
Definition aff_ap (f : Z * Z) (x : Z) : Z := (f.1 * x + f.2) mod LCG_M.

Lemma aff_comp_ap f g x : aff_ap (aff_comp f g) x = aff_ap f (aff_ap g x).
Proof.
  unfold aff_ap, aff_comp; cbn [fst snd]. rewrite Zplus_mod_idemp_r.
  rewrite <- (Zplus_mod_idemp_l (_ mod _ * _)), Zmult_mod_idemp_l, Zplus_mod_idemp_l.
  rewrite <- (Zplus_mod_idemp_l (f.1 * (_ mod _))), Zmult_mod_idemp_r, Zplus_mod_idemp_l.
  f_equal. ring.
Qed.

Lemma aff_pow_iter n x : 0 <= x < LCG_M -> aff_ap (aff_pow n) x = Nat.iter (Pos.to_nat n) lcg x.
Proof.
  revert x. induction n as [p IH|p IH|]; intros x Hx; cbn [aff_pow]; cbv zeta.
  - rewrite !aff_comp_ap, !IH by (try apply iter_lcg_range; rewrite ?IH by done;
      try apply iter_lcg_range; done).
    rewrite Pos2Nat.inj_xI. replace (S (2 * Pos.to_nat p))%nat
      with (S (Pos.to_nat p + Pos.to_nat p))%nat by lia.
    rewrite Nat.iter_succ, Nat.iter_add. symmetry. apply lcg_mod, iter_lcg_range, iter_lcg_range. done.
  - rewrite aff_comp_ap, !IH by (rewrite ?IH by done; try apply iter_lcg_range; done).
    rewrite Pos2Nat.inj_xO. replace (2 * Pos.to_nat p)%nat with (Pos.to_nat p + Pos.to_nat p)%nat by lia.
    by rewrite Nat.iter_add.
  - symmetry. by apply lcg_mod.
Qed.

Lemma iter_lcg_closed (n : Z) x :
  0 < n -> 0 <= x < LCG_M -> Nat.iter (Z.to_nat n) lcg x = aff_ap (aff_pow (Z.to_pos n)) x.
Proof. intros Hn Hx. rewrite aff_pow_iter by done. f_equal. lia. Qed.

Lemma aff_check :
  (aff_ap (aff_pow (Z.to_pos LCG_M)) 1234 =? 1234) = true /\
  (aff_ap (aff_pow (Z.to_pos (LCG_M / 2))) 1234 =? 1234) = false /\
  (aff_ap (aff_pow (Z.to_pos (LCG_M / 7))) 1234 =? 1234) = false.
Proof. split; [|split]; vm_compute; reflexivity. Qed.

Lemma lcg_period_facts :
  Nat.iter (Z.to_nat LCG_M) lcg 1234 = 1234 /\
  Nat.iter (Z.to_nat (LCG_M / 2)) lcg 1234 <> 1234 /\
  Nat.iter (Z.to_nat (LCG_M / 7)) lcg 1234 <> 1234.
Proof.
  destruct aff_check as (H1%Z.eqb_eq & H2%Z.eqb_neq & H3%Z.eqb_neq).
  assert (forall n, 0 < n -> Nat.iter (Z.to_nat n) lcg 1234 = aff_ap (aff_pow (Z.to_pos n)) 1234) as E
    by (intros; apply iter_lcg_closed; [done|unfold LCG_M; lia]).
  exact (conj (eq_trans (E LCG_M eq_refl) H1)
    (conj (fun F => H2 (eq_trans (eq_sym (E (LCG_M / 2) eq_refl)) F))
          (fun F => H3 (eq_trans (eq_sym (E (LCG_M / 7) eq_refl)) F)))).
Qed.

(** A period of a point is a multiple of any smaller one it has. *)
Lemma iter_mod {A} (f : A -> A) x n k :
  (n <> 0)%nat -> Nat.iter n f x = x -> Nat.iter k f x = Nat.iter (k mod n) f x.
Proof.
  intros Hn Hx. transitivity (Nat.iter (k mod n + n * (k / n)) f x).
  { f_equal. rewrite Nat.add_comm. apply Nat.div_mod_eq. }
  rewrite Nat.iter_add. f_equal. induction (k / n)%nat as [|q IH]; [by rewrite Nat.mul_0_r|].
  rewrite Nat.mul_succ_r, Nat.iter_add. by rewrite Hx.
Qed.

Lemma gcd_small_prime p q : p = 2 \/ p = 7 -> ~ (p | q) -> Z.gcd q p = 1.
Proof.
  intros Hp Hn. pose proof (Z.gcd_divide_l q p) as Hl. pose proof (Z.gcd_divide_r q p) as [k Hr].
  pose proof (Z.gcd_nonneg q p). set (g := Z.gcd q p) in *.
  assert (g <> p) by (by intros ->).
  assert (k * g = 2 \/ k * g = 7) as Hk by lia. 
  assert (0 < g) by (destruct (decide (g = 0)) as [->|]; lia).
  assert (0 < k) by nia. assert (k <= 7) by nia.
  assert (k <> 1) by (intros ->; lia).
  assert (k = 2 \/ k = 3 \/ k = 4 \/ k = 5 \/ k = 6 \/ k = 7) as Hc by lia.
  destruct Hc as [->|[->|[->|[->|[->| ->]]]]]; lia.
Qed.

(** A proper divisor of [LCG_M] divides [LCG_M / 2] or [LCG_M / 7]. *)
Lemma lcg_divisors n : 0 < n < LCG_M -> (n | LCG_M) -> (n | LCG_M / 2) \/ (n | LCG_M / 7).
Proof.
  intros Hn [q Hq]. assert (1 < q) by (unfold LCG_M in *; nia).
  destruct (decide (q mod 2 = 0)) as [[r ->]%Z.mod_divide|H2]; [|done|].
  { left. exists r. rewrite Hq. replace (r * 2 * n) with (r * n * 2) by ring. by apply Z.div_mul. }
  destruct (decide (q mod 7 = 0)) as [[r ->]%Z.mod_divide|H7]; [|done|].
  { right. exists r. rewrite Hq. replace (r * 7 * n) with (r * n * 7) by ring. by apply Z.div_mul. }
  exfalso. assert (q | 2 * (2 * (2 * (7 * (7 * (7 * (7 * (7 * 1)))))))) as H1.
  { exists n. rewrite <- (Z.mul_comm q). exact Hq. }
  do 3 (apply Z.gauss in H1; [|apply gcd_small_prime; [by left|by rewrite <- Z.mod_divide]]).
  do 5 (apply Z.gauss in H1; [|apply gcd_small_prime; [by right|by rewrite <- Z.mod_divide]]).
  apply Z.divide_1_r_nonneg in H1; lia.
Qed.

Section orbit.
Context {A : Type} (f : A -> A) (x : A) (N : Z) (ds : list Z).
Hypothesis HN : 0 < N.
Hypothesis back : Nat.iter (Z.to_nat N) f x = x.
Hypothesis Hds : Forall (fun d => 0 < d /\ Nat.iter (Z.to_nat d) f x <> x) ds.
Hypothesis divs : forall n, 0 < n < N -> (n | N) -> Exists (fun d => (n | d)) ds.

Lemma iter_multiple k d :
  (k <> 0)%nat -> 0 < d -> Nat.iter k f x = x -> (Z.of_nat k | d) -> Nat.iter (Z.to_nat d) f x = x.
Proof.
  intros Hk Hd Hx Hdiv. rewrite (iter_mod f x k) by done.
  assert (Z.to_nat d mod k = 0)%nat as ->; [|done].
  apply Nat2Z.inj. rewrite Nat2Z.inj_mod, Z2Nat.id by lia. by apply Z.mod_divide; [lia|].
Qed.

Lemma no_short_period k : (0 < k)%nat -> Z.of_nat k < N -> Nat.iter k f x <> x.
Proof.
  induction (lt_wf k) as [k _ IH]. intros Hk HkN Hx.
  destruct (decide (Z.to_nat N mod k = 0)%nat) as [H0|H0].
  - assert (Z.of_nat k | N) as Hd.
    { apply Z.mod_divide; [lia|]. apply (f_equal Z.of_nat) in H0.
      rewrite Nat2Z.inj_mod, Z2Nat.id in H0 by lia. done. }
    apply divs in Hd; [|lia]. apply Exists_exists in Hd as (d & Hin & Hd).
    rewrite Forall_forall in Hds. destruct (Hds d Hin) as [Hd0 Hne].
    apply Hne, (iter_multiple k); [lia|done..].
  - pose proof (Nat.mod_upper_bound (Z.to_nat N) k).
    apply (IH (Z.to_nat N mod k)%nat); [lia..|].
    rewrite <- iter_mod by (done || lia). done.
Qed.

Lemma orbit_inj i j :
  (i < j)%nat -> Z.of_nat j < N -> Nat.iter i f x <> Nat.iter j f x.
Proof.
  intros Hij Hj He. apply (no_short_period (Z.to_nat N - j + i)); [lia..|].
  rewrite Nat.iter_add, He, <- Nat.iter_add.
  replace (Z.to_nat N - j + j)%nat with (Z.to_nat N) by lia. done.
Qed.

Lemma orbit_nodup : NoDup ((fun i => Nat.iter i f x) <$> seq 0 (Z.to_nat N)).
Proof.
  apply NoDup_fmap_2_strong; [|apply NoDup_seq].
  intros i j Hi%elem_of_seq Hj%elem_of_seq He.
  destruct (Nat.lt_trichotomy i j) as [H|[H|H]]; [|done|].
  - by apply orbit_inj in He; [|lia..].
  - by symmetry in He; apply orbit_inj in He; [|lia..].
Qed.
End orbit.

Lemma full_orbit (f : Z -> Z) x N :
  0 < N -> NoDup ((fun i => Nat.iter i f x) <$> seq 0 (Z.to_nat N)) ->
  (forall k, 0 <= Nat.iter k f x < N) ->
  forall y, 0 <= y < N -> exists k, Z.of_nat k < N /\ Nat.iter k f x = y.
Proof.
  intros HN Hnd Hr y Hy.
  set (l := (fun i => Nat.iter i f x) <$> seq 0 (Z.to_nat N)) in *.
  assert (l ≡ₚ seqZ 0 N) as Hp.
  { apply submseteq_length_Permutation.
    - apply NoDup_submseteq; [done|]. intros z (k & -> & _)%list_elem_of_fmap.
      apply elem_of_seqZ. apply Hr.
    - unfold l. rewrite length_fmap, length_seq, length_seqZ. done. }
  assert (y ∈ l) as Hin by (rewrite Hp; apply elem_of_seqZ; lia).
  apply list_elem_of_fmap in Hin as (k & -> & Hk%elem_of_seq). exists k. split; [lia|done].
Qed.

Lemma lcg_orbit_nodup : NoDup ((fun i => Nat.iter i lcg 1234) <$> seq 0 (Z.to_nat LCG_M)).
Proof.
  assert (0 < LCG_M /\ 0 < LCG_M / 2 /\ 0 < LCG_M / 7) as (HM & HM2 & HM7) by done.
  assert (forall n, 0 < n < LCG_M -> (n | LCG_M) ->
    Exists (fun d => (n | d)) [LCG_M / 2; LCG_M / 7]) as Hdiv.
  { intros n Hn [Hd|Hd]%lcg_divisors; [by left|by right; left|done]. }
  destruct lcg_period_facts as (Hb & H2 & H7).
  refine (orbit_nodup lcg 1234 LCG_M [LCG_M / 2; LCG_M / 7] HM Hb _ Hdiv).
  exact (Forall_cons_2 _ _ _ (conj HM2 H2) (Forall_cons_2 _ _ _ (conj HM7 H7) (Forall_nil_2 _))).
Qed.

Lemma lcg_orbit y :
  0 <= y < LCG_M -> exists k, Z.of_nat k < LCG_M /\ Nat.iter k lcg 1234 = y.
Proof.
  apply full_orbit; [done|exact lcg_orbit_nodup|]. intros k. apply iter_lcg_range. done.
Qed.

(** Whatever the seed, every value comes up within [LCG_M] rounds. *)
Lemma lcg_all_seeds s y :
  0 <= s < LCG_M -> 0 <= y < LCG_M ->
  exists k, Z.of_nat k < LCG_M /\ Nat.iter k lcg s = y.
Proof.
  intros Hs Hy. destruct (lcg_orbit s Hs) as (i & Hi & <-). destruct (lcg_orbit y Hy) as (j & Hj & <-).
  destruct (decide (i <= j)%nat).
  - exists (j - i)%nat. split; [lia|]. rewrite <- Nat.iter_add. f_equal. lia.
  - exists (Z.to_nat LCG_M - i + j)%nat. split; [lia|]. rewrite <- Nat.iter_add.
    replace (Z.to_nat LCG_M - i + j + i)%nat with (j + Z.to_nat LCG_M)%nat by lia.
    rewrite Nat.iter_add. exact (f_equal _ (proj1 lcg_period_facts)).
Qed.

(** ** A round of the scheduler *)

Section rounds.
Context {K : Type}.
Implicit Types s : ptable K.

Definition run_slot (p : proc) : proc := set_ticks (i32 (p_ticks p + 1)) (set_state RUNNING p).
Definition after_round s (i : nat) : ptable K :=
  {| procs := alter run_slot i (procs s); nextpid := nextpid s; initproc := initproc s;
     seed := lcg (seed s); kst := kst s |}.

(** The draw of a round. *)
Definition drawn (sd : Z) (ps : list proc) : Z := sd mod (total ps + 1).

Lemma draw_fair sd ps :
  fair_tickets ps -> 0 <= sd -> draw sd (count_tickets 0 ps) = Done (drawn sd ps).
Proof.
  intros [Hp Hlt] Hsd. pose proof (total_nonneg ps Hp).
  rewrite count_tickets_total by (done || lia). rewrite Z.add_0_l. unfold draw, drawn.
  destruct (Z.eqb_spec (total ps) 0) as [->|Hne]; [by rewrite Z.mod_1_r|].
  rewrite i32_small by wrap_lia. destruct (Z.eqb_spec (total ps + 1) 0); [lia|].
  rewrite Z.rem_mod_nonneg by lia. done.
Qed.

Lemma exists_winner c r ps :
  Exists (fun p => p_state p = RUNNABLE) ps -> r <= c + total ps -> exists i, wins c r ps i.
Proof.
  revert c. induction ps as [|p ps IH]; intros c Hex Hr; [by inversion Hex|].
  cbn [total] in Hr. case_decide as Hp.
  - destruct (decide (r <= c + p_tickets p)) as [Hle|Hgt].
    { exists 0%nat, p. cbn [take total]. split_and!; [done..|lia|by right]. }
    destruct (decide (Exists (fun q => p_state q = RUNNABLE) ps)) as [He|He].
    + destruct (IH (c + p_tickets p) He) as [i Hi]; [lia|]. exists (S i). apply wins_S_run; [done|lia|done].
    + apply not_Exists_Forall in He; [|apply _]. rewrite total_idle in Hr by done. lia.
  - inversion Hex as [? ? ?|? ? He]; subst; [done|].
    destruct (IH c He) as [i Hi]; [lia|]. exists (S i). by apply wins_S_idle.
Qed.

Lemma scheduler_fair s i :
  fair_tickets (procs s) -> 0 <= seed s < LCG_M ->
  wins 0 (drawn (lcg (seed s)) (procs s)) (procs s) i ->
  scheduler s = Done (Some i, after_round s i).
Proof.
  intros Hf Hs Hw. pose proof (lcg_range _ Hs). unfold scheduler. rewrite draw_fair by (done || lia).
  destruct Hf as [Hp Hlt]. apply pick_wins in Hw; [|done|lia|lia]. by rewrite Hw.
Qed.

Lemma drawn_range sd ps :
  Forall (fun p => 0 <= p_tickets p) ps -> 0 <= drawn sd ps <= total ps.
Proof.
  intros Hp. pose proof (total_nonneg ps Hp). unfold drawn.
  pose proof (Z.mod_pos_bound sd (total ps + 1)). lia.
Qed.

Lemma drawn_small sd ps : 0 <= sd <= total ps -> drawn sd ps = sd.
Proof. intros. apply Z.mod_small. lia. Qed.

(** A round with something to run runs a runnable process. *)
Lemma scheduler_picks s :
  fair_tickets (procs s) -> 0 <= seed s < LCG_M ->
  Exists (fun p => p_state p = RUNNABLE) (procs s) ->
  exists i, wins 0 (drawn (lcg (seed s)) (procs s)) (procs s) i /\
    scheduler s = Done (Some i, after_round s i).
Proof.
  intros Hf Hs Hex. pose proof Hf as [Hp _].
  destruct (exists_winner 0 (drawn (lcg (seed s)) (procs s)) (procs s) Hex) as [i Hi].
  { pose proof (drawn_range (lcg (seed s)) _ Hp). lia. }
  exists i. split; [done|]. by apply scheduler_fair.
Qed.

(** [n] time slices: a round of the scheduler, then the chosen process yields
    at the next clock tick. *)
Fixpoint slices (n : nat) : M (ptable K) (list nat) :=
  match n with
  | O => ret []
  | S n =>
      let! w := scheduler in
      match w with
      | Some i => yield i;;; let! l := slices n in ret (i :: l)
      | None => slices n
      end
  end.
End rounds.

(** What the lottery depends on. *)
Definition lot (ps : list proc) : list (procstate * Z) := (fun p => (p_state p, p_tickets p)) <$> ps.

Lemma total_lot ps qs : lot ps = lot qs -> total ps = total qs.
Proof.
  revert qs. induction ps as [|p ps IH]; intros [|q qs]; try done.
  intros [= H1 H2 H3]. cbn [total]. rewrite H1, H2. by rewrite (IH qs).
Qed.

Lemma drawn_lot sd ps qs : lot ps = lot qs -> drawn sd ps = drawn sd qs.
Proof. intros Hl. unfold drawn. by rewrite (total_lot _ _ Hl). Qed.

Lemma lot_take i ps qs : lot ps = lot qs -> lot (take i ps) = lot (take i qs).
Proof. unfold lot. rewrite !fmap_take. by intros ->. Qed.

Lemma lot_Forall (P : procstate * Z -> Prop) ps qs :
  lot ps = lot qs -> Forall (fun p => P (p_state p, p_tickets p)) ps ->
  Forall (fun p => P (p_state p, p_tickets p)) qs.
Proof.
  intros Hl Hp. assert (Forall P (lot ps)) as H by (apply Forall_fmap; exact Hp).
  rewrite Hl in H. unfold lot in H. rewrite Forall_fmap in H. exact H.
Qed.

Lemma wins_lot c r ps qs i : lot ps = lot qs -> wins c r ps i -> wins c r qs i.
Proof.
  intros Hl (p & Hi & Hp & H1 & H2). pose proof (lot_take i _ _ Hl) as Ht.
  assert (lot qs !! i = Some (p_state p, p_tickets p)) as Hq.
  { rewrite <- Hl. unfold lot. by rewrite list_lookup_fmap, Hi. }
  unfold lot in Hq. rewrite list_lookup_fmap in Hq.
  destruct (qs !! i) as [q|] eqn:Eq; [|done]. injection Hq as Hs Hk.
  exists q. rewrite <- (total_lot _ _ Ht), Hk, Hs. split_and!; [done..|].
  destruct H2 as [?|H2]; [by left|right].
  by apply (lot_Forall (fun x => x.1 <> RUNNABLE) _ _ Ht).
Qed.

Lemma fair_lot ps qs : lot ps = lot qs -> fair_tickets ps -> fair_tickets qs.
Proof.
  intros Hl [Hp Ht]. split; [|by rewrite <- (total_lot _ _ Hl)].
  by apply (lot_Forall (fun x => 0 <= x.2) _ _ Hl).
Qed.

Lemma lot_slice ps i p :
  ps !! i = Some p -> p_state p = RUNNABLE -> lot (alter (set_state RUNNABLE) i (alter run_slot i ps)) = lot ps.
Proof.
  intros Hi Hp. unfold lot.
  apply list_eq. intros j. rewrite !list_lookup_fmap.
  destruct (decide (i = j)) as [<-|Hne].
  - rewrite !list_lookup_alter_eq, Hi. cbn. by rewrite Hp.
  - by rewrite !list_lookup_alter_ne.
Qed.

(** ** The theorems *)

Section runs.
Context {K : Type}.
Implicit Types s : ptable K.

Lemma slices_S n s s1 s' i l :
  scheduler s = Done (Some i, s1) ->
  slices n (set_procs (alter (set_state RUNNABLE) i) s1) = Done (l, s') ->
  slices (S n) s = Done (i :: l, s').
Proof.
  intros Hr Hrun. cbn [slices]. unfold bind at 1. rewrite Hr. unfold bind at 1.
  unfold yield, updp, modify. unfold bind. by rewrite Hrun.
Qed.

(** The slots [n] time slices go to, whatever their processes do short of
    changing state: each is the winner of its draw. *)
Lemma slices_run n s :
  fair_tickets (procs s) -> 0 <= seed s < LCG_M ->
  Exists (fun p => p_state p = RUNNABLE) (procs s) ->
  exists l s', slices n s = Done (l, s') /\ length l = n /\
    forall k i, l !! k = Some i ->
      wins 0 (drawn (lcg (Nat.iter k lcg (seed s))) (procs s)) (procs s) i.
Proof.
  revert s. induction n as [|n IH]; intros s Hf Hs Hex.
  { exists [], s. split_and!; [done..|]. intros k i Hk. by rewrite lookup_nil in Hk. }
  destruct (scheduler_picks s Hf Hs Hex) as (i & Hw & Hr).
  pose proof Hw as (p & Hi & Hp & _).
  remember (set_procs (alter (set_state RUNNABLE) i) (after_round s i)) as s1 eqn:E1.
  assert (seed s1 = lcg (seed s)) as Es by (by rewrite E1).
  assert (procs s1 = alter (set_state RUNNABLE) i (alter run_slot i (procs s))) as Ep by (by rewrite E1).
  assert (lot (procs s1) = lot (procs s)) as Hl by (rewrite Ep; by apply (lot_slice _ _ p)).
  destruct (IH s1) as (l & s' & Hrun & Hlen & Hall).
  { by apply (fair_lot (procs s)). }
  { rewrite Es. by apply lcg_range. }
  { apply Exists_exists. exists (set_state RUNNABLE (run_slot p)). split; [|done].
    apply list_elem_of_lookup. exists i. rewrite Ep. by rewrite !list_lookup_alter_eq, Hi. }
  exists (i :: l), s'. split_and!.
  - rewrite E1 in Hrun. exact (slices_S n s _ s' i l Hr Hrun).
  - cbn. by rewrite Hlen.
  - intros [|k] j Hj; [injection Hj as <-; exact Hw|]. apply (wins_lot _ _ (procs s1)); [done|].
    specialize (Hall k j Hj). rewrite Es, <- Nat.iter_succ_r in Hall.
    rewrite (drawn_lot _ _ _ Hl) in Hall. exact Hall.
Qed.
End runs.

Section fairness.
Context {K : Type}.
Implicit Types s : ptable K.

Lemma wins_fun r ps i j : fair_tickets ps -> wins 0 r ps i -> wins 0 r ps j -> i = j.
Proof.
  intros [Hp Hlt] Hi Hj. apply pick_wins in Hi; [|done|lia|lia].
  apply pick_wins in Hj; [|done|lia|lia]. congruence.
Qed.

(** Property C11: over the draws [0 .. total], a runnable slot wins as many as it
    has tickets, and the first runnable slot one more. No ticket count is
    negative, and those of the runnable slots add up to [total] < 2^31 - 1, so
    that the int [count] of the scheduler does not overflow. *)
Theorem lottery_share ps i p :
  fair_tickets ps -> ps !! i = Some p -> p_state p = RUNNABLE ->
  length (filter (fun r => pick r 0 ps = Some i) (seqZ 0 (total ps + 1))) =
  Z.to_nat (p_tickets p + if decide (first_runnable ps i) then 1 else 0).
Proof.
  intros [Hp Hlt] Hi Hr.
  assert (0 <= p_tickets p) as Ht by (rewrite Forall_lookup in Hp; by apply (Hp i)).
  pose proof (total_take_nonneg i ps Hp) as Hn.
  assert (total (take i ps) + p_tickets p <= total ps) as Hle by (by apply total_slot).
  rewrite (count_interval _ (if decide (first_runnable ps i) then 0 else total (take i ps) + 1)
    (total (take i ps) + p_tickets p)).
  - case_decide as Hf; [|f_equal; lia]. rewrite (total_idle _ Hf). f_equal. lia.
  - intros r Hrr. rewrite pick_wins by (done || lia). apply wins_interval; [done|done|lia].
  - case_decide; lia.
  - lia.
Qed.

(** At a draw from [s], slot [i] is runnable and has a ticket, and the runnable
    slots before it have [c] tickets. *)
Definition contends (i : nat) (c : Z) s : Prop :=
  fair_tickets (procs s) /\ total (take i (procs s)) = c /\
  exists p, procs s !! i = Some p /\ p_state p = RUNNABLE /\ 0 < p_tickets p.

Lemma contends_draw i c s :
  contends i c s -> 0 <= seed s < LCG_M -> exists j, wins 0 (drawn (lcg (seed s)) (procs s)) (procs s) j /\ scheduler s = Done (Some j, after_round s j).
Proof.
  intros (Hf & _ & p & Hi & Hr & _) Hs. apply scheduler_picks; [done..|]. apply Exists_exists. exists p. split; [by eapply list_elem_of_lookup_2|done].
Qed.
(** The draw of [c + 1] is for slot [i], however many tickets follow. *)
Lemma contends_wins i c s : contends i c s -> 0 <= seed s < LCG_M -> lcg (seed s) = c + 1 -> scheduler s = Done (Some i, after_round s i).
Proof.
  intros (Hf & Hc & p & Hi & Hr & Ht) Hs He. pose proof (total_take_nonneg i (procs s) (proj1 Hf)) as Hn.
  assert (c + p_tickets p <= total (procs s)) as Hle by (rewrite <- Hc; by apply total_slot; [apply Hf| |]).
  apply scheduler_fair; [done..|]. rewrite He, drawn_small by lia. apply (wins_interval _ _ _ p); [done|done|lia|]. case_decide; lia.
Qed.

(** Property C10: no runnable process is passed over for ever. [run] has the
    tables at successive draws of the scheduler, [run (S k)] being any table
    with the seed that draw [k] left. If at every draw slot [i] is runnable and
    has a ticket, the tickets of all runnable slots add up to less than
    2^31 - 1, and those of the slots before [i] to the same [c], with
    c + 1 < 134456, then every draw chooses a process, and one of any 134456
    consecutive draws chooses [i]. The slots behind [i] may change in any way
    between the draws, those before it in ways that keep the sum. *)
Theorem lottery_no_starvation (run : nat -> ptable K) i c m :
  (forall k, contends i c (run k)) -> 0 <= seed (run 0%nat) < LCG_M -> c + 1 < LCG_M ->
  (forall k w s', scheduler (run k) = Done (w, s') -> seed (run (S k)) = seed s') ->
  (forall k, exists j s', scheduler (run k) = Done (Some j, s')) /\
  exists k s', (m <= k)%nat /\ Z.of_nat k < Z.of_nat m + LCG_M /\ scheduler (run k) = Done (Some i, s').
Proof.
  intros Hc Hs Hlt Hnext.
  assert (forall k, 0 <= seed (run k) < LCG_M /\ seed (run k) = Nat.iter k lcg (seed (run 0%nat))) as Hseed.
  { induction k as [|k [Hr Hk]]; [done|]. destruct (contends_draw i c (run k) (Hc k) Hr) as (j & _ & E).
    rewrite (Hnext k _ _ E). cbn [seed after_round]. split; [by apply lcg_range|]. cbn. by rewrite Hk. }
  split; [intros k; destruct (contends_draw i c (run k) (Hc k) (proj1 (Hseed k))) as (j & _ & E); eauto|].
  assert (0 <= c) as H0 by (destruct (Hc 0%nat) as (Hf & <- & _); apply total_take_nonneg, Hf).
  destruct (lcg_all_seeds (lcg (seed (run m))) (c + 1)) as (k & Hk & He); [apply lcg_range, Hseed|lia|].
  exists (k + m)%nat. eexists. split; [lia|]. split; [lia|]. apply (contends_wins i c); [done|apply Hseed|].
  rewrite (proj2 (Hseed _)), Nat.iter_add, <- (proj2 (Hseed m)), <- Nat.iter_swap. exact He.
Qed.

(** Behind 134455 tickets or more there is no draw left to win. *)
Theorem lottery_starvation n s i p :
  fair_tickets (procs s) -> 0 <= seed s < LCG_M ->
  procs s !! i = Some p -> p_state p = RUNNABLE ->
  LCG_M <= total (take i (procs s)) + 1 ->
  exists l s', slices n s = Done (l, s') /\ length l = n /\ i ∉ l.
Proof.
  intros Hf Hs Hi Hr Hlt.
  destruct (slices_run n s Hf Hs) as (l & s' & Hrun & Hlen & Hall).
  { apply Exists_exists. exists p. split; [by eapply list_elem_of_lookup_2|done]. }
  exists l, s'. split_and!; [done..|]. intros [k Hk]%list_elem_of_lookup_1.
  apply Hall in Hk. set (x := lcg (Nat.iter k lcg (seed s))) in *.
  assert (0 <= x < LCG_M) as Hx by (apply lcg_range, iter_lcg_range, Hs).
  pose proof (drawn_range x (procs s) (proj1 Hf)) as Hd.
  apply (wins_interval _ _ _ p) in Hk; [|done|done|lia].
  case_decide as Hfr.
  { apply total_idle in Hfr. unfold LCG_M in Hlt. lia. }
  assert (drawn x (procs s) <= x) by (apply Z.mod_le; [lia|]; pose proof (total_nonneg _ (proj1 Hf)); lia).
  lia.
Qed.
End fairness.

(** ** Examples *)

Definition ticket_proc (n : Z) : proc := set_tickets n (set_state RUNNABLE zero_proc).
Definition ticket_table (ns : list Z) : ptable unit :=
  {| procs := ticket_proc <$> ns; nextpid := 1; initproc := None; seed := 1234; kst := tt |}.

Lemma lottery_share_witness :
  length (filter (fun r => pick r 0 (procs (ticket_table [3; 5; 2])) = Some 1%nat) (seqZ 0 11)) = 5%nat.
Proof.
  apply (lottery_share (procs (ticket_table [3; 5; 2])) 1 (ticket_proc 5)); [|reflexivity..].
  split; [repeat constructor; done|reflexivity].
Defined.

(** The process behind slot 1 sleeps at every other draw. *)
Definition changing_table (k : nat) : ptable unit :=
  {| procs := [ticket_proc 3; ticket_proc 5; if Nat.even k then ticket_proc 2 else set_state SLEEPING (ticket_proc 70)];
     nextpid := 1; initproc := None; seed := Nat.iter k lcg 1234; kst := tt |}.
Lemma changing_contends k : contends 1 3 (changing_table k).
Proof.
  unfold contends, fair_tickets, changing_table. cbn [procs]. destruct (Nat.even k);
    (split; [split; [repeat constructor; done|reflexivity]|split; [reflexivity|exists (ticket_proc 5); done]]).
Qed.
Lemma lottery_no_starvation_witness :
  (forall k, exists j s', scheduler (changing_table k) = Done (Some j, s')) /\
  exists k s', (7 <= k)%nat /\ Z.of_nat k < Z.of_nat 7 + LCG_M /\ scheduler (changing_table k) = Done (Some 1%nat, s').
Proof.
  apply (lottery_no_starvation changing_table 1 3 7); [apply changing_contends|split; [done|reflexivity]|reflexivity|].
  intros k w s' E. assert (0 <= seed (changing_table k) < LCG_M) as Hk by (apply iter_lcg_range; split; [done|reflexivity]).
  destruct (contends_draw 1 3 _ (changing_contends k) Hk) as (j & _ & E'). rewrite E in E'. injection E' as _ ->. reflexivity.
Defined.

(** [settickets] accepts any count that is not negative; three such counts make
    the sum wrap to [-1] and the scheduler divide by [count + 1 = 0]. *)
Example scheduler_divides_by_zero :
  scheduler (ticket_table [2 ^ 31 - 1; 2 ^ 31 - 1; 1]) = Fault.
Proof. reflexivity. Qed.
