(* ===== verification/ProcInv.v ===== *)
(** * ProcInv: invariants of the process table (proc.c)

    Every operation of proc.c keeps the table in order: the effect of each one
    as a change of one slot, an invariant on the table, and its preservation
    along every sequence of operations of the running processes. *)

From stdpp Require Import base list numbers gmap strings relations.
From S2P Require Import Prelude Params Proc Syscall.

Local Open Scope Z_scope.
Local Open Scope os_scope.

(** A process that can have children. *)
Definition alive (p : proc) : Prop :=
  p_state p = SLEEPING \/ p_state p = RUNNABLE \/ p_state p = RUNNING.

(** The process of slot [i] is blocked in [wait] or [join]. *)
Definition waiting (i : nat) (p : proc) : Prop :=
  p_state p = SLEEPING /\ p_chan p = Some (ChanProc i).

Record pinv {K} (s : ptable K) : Prop := {
  inv_len : length (procs s) = Z.to_nat NPROC;
  (** init exists for ever and has no parent *)
  inv_init : exists i p, initproc s = Some i /\ procs s !! i = Some p /\ alive p /\ p_parent p = None;
  (** nobody's parent has exited, and nobody is their own parent *)
  inv_parent : forall i p q, procs s !! i = Some p -> p_parent p = Some q ->
    q <> i /\ exists pq, procs s !! q = Some pq /\ alive pq;
  (** process ids are unique *)
  inv_pid : forall i p, procs s !! i = Some p -> p_state p <> UNUSED -> 0 < p_pid p < nextpid s;
  inv_pid_inj : forall i j p q, procs s !! i = Some p -> procs s !! j = Some q ->
    p_state p <> UNUSED -> p_state q <> UNUSED -> p_pid p = p_pid q -> i = j;
  (** nobody sleeps in [wait] while a child of theirs is a zombie *)
  inv_wait : forall i p j q, procs s !! i = Some p -> waiting i p ->
    procs s !! j = Some q -> p_parent q = Some i -> p_state q <> ZOMBIE;
  inv_tickets : forall i p, procs s !! i = Some p -> 0 <= p_tickets p
}.

(** ** Changing one slot *)

(** What a change of slot [i] of [s] from [p] to [p'] must respect. *)
Record fits {K} (s : ptable K) (n : Z) (i : nat) (p p' : proc) : Prop := {
  fit_alive : alive p -> alive p' \/
    (initproc s <> Some i /\ forall j q, procs s !! j = Some q -> p_parent q <> Some i);
  fit_parent : p_parent p' = p_parent p \/
    (initproc s <> Some i /\
      exists q pq, p_parent p' = Some q /\ q <> i /\ procs s !! q = Some pq /\ alive pq) \/
    p_parent p' = None;
  fit_pid : p_state p' <> UNUSED ->
    (p_state p <> UNUSED /\ p_pid p' = p_pid p) \/ (p_pid p' = nextpid s /\ 0 < nextpid s < n);
  fit_wait : waiting i p' -> waiting i p \/
    forall j q, procs s !! j = Some q -> p_parent q = Some i -> p_state q <> ZOMBIE;
  fit_zombie : p_state p' = ZOMBIE -> (p_state p = ZOMBIE /\ p_parent p' = p_parent p) \/
    forall q pq, p_parent p' = Some q -> procs s !! q = Some pq -> ~ waiting q pq;
  fit_tickets : 0 <= p_tickets p'
}.

Section upd.
Context {K : Type} (s s' : ptable K) (i : nat) (p p' : proc).
Hypothesis I : pinv s.
Hypothesis Hi : procs s !! i = Some p.
Hypothesis Hp : procs s' = <[i := p']> (procs s).
Hypothesis Hinit : initproc s' = initproc s.
Hypothesis Hn : nextpid s <= nextpid s'.
Hypothesis F : fits s (nextpid s') i p p'.

Lemma upd_eq : procs s' !! i = Some p'.
Proof. rewrite Hp. apply list_lookup_insert_eq. by eapply lookup_lt_Some. Qed.

Lemma upd_ne j : j <> i -> procs s' !! j = procs s !! j.
Proof. intros Hj. rewrite Hp. by apply list_lookup_insert_ne. Qed.

Lemma upd_inv j q :
  procs s' !! j = Some q -> (j = i /\ q = p') \/ (j <> i /\ procs s !! j = Some q).
Proof.
  destruct (decide (j = i)) as [->|Hne]; [rewrite upd_eq; naive_solver|].
  rewrite upd_ne by done. naive_solver.
Qed.

Lemma upd_init : exists k pk,
  initproc s' = Some k /\ procs s' !! k = Some pk /\ alive pk /\ p_parent pk = None.
Proof.
  destruct (inv_init s I) as (k & pk & Hk & Hpk & Ha & Hpar). rewrite Hinit.
  destruct (decide (k = i)) as [->|Hne].
  - simplify_eq. exists i, p'. rewrite upd_eq. split_and!; [done..| |].
    + destruct (fit_alive _ _ _ _ _ F Ha) as [?|[? _]]; done.
    + destruct (fit_parent _ _ _ _ _ F) as [->|[[? _]|?]]; done.
  - exists k, pk. by rewrite upd_ne.
Qed.

Lemma upd_alive q pq :
  procs s !! q = Some pq -> alive pq ->
  (exists j r, procs s !! j = Some r /\ p_parent r = Some q) \/ initproc s = Some q ->
  exists pq', procs s' !! q = Some pq' /\ alive pq'.
Proof.
  intros Hq Ha Hc. destruct (decide (q = i)) as [->|Hne].
  - simplify_eq. exists p'. rewrite upd_eq. split; [done|].
    destruct (fit_alive _ _ _ _ _ F Ha) as [?|[? Hno]]; [done|].
    destruct Hc as [(j & r & Hj & Hr)|?]; [|done]. by destruct (Hno j r Hj).
  - exists pq. by rewrite upd_ne.
Qed.

Lemma upd_parent j q r :
  procs s' !! j = Some q -> p_parent q = Some r ->
  r <> j /\ exists pr, procs s' !! r = Some pr /\ alive pr.
Proof.
  intros [[-> ->]|[Hne Hj]]%upd_inv Hr.
  - destruct (fit_parent _ _ _ _ _ F) as [He|[(_ & q & pq & He & Hqi & Hq & Ha)|?]];
      [| |congruence].
    + rewrite He in Hr. destruct (inv_parent s I i p r Hi Hr) as (Hri & pr & Hpr & Ha).
      split; [done|]. apply (upd_alive _ pr); eauto.
    + rewrite He in Hr. simplify_eq. split; [done|]. exists pq. by rewrite upd_ne.
  - destruct (inv_parent s I j q r Hj Hr) as (Hri & pr & Hpr & Ha).
    split; [done|]. apply (upd_alive _ pr); eauto.
Qed.

Lemma upd_pid j q :
  procs s' !! j = Some q -> p_state q <> UNUSED -> 0 < p_pid q < nextpid s'.
Proof.
  intros [[-> ->]|[Hne Hj]]%upd_inv Hu.
  - destruct (fit_pid _ _ _ _ _ F Hu) as [[Hu' ->]|[-> ?]]; [|lia].
    pose proof (inv_pid s I i p Hi Hu'). lia.
  - pose proof (inv_pid s I j q Hj Hu). lia.
Qed.

(** The new slot's id is not another slot's. *)
Lemma upd_pid_fresh j q :
  j <> i -> procs s !! j = Some q -> p_state q <> UNUSED -> p_state p' <> UNUSED ->
  p_pid q <> p_pid p'.
Proof.
  intros Hne Hj Hq Hu. destruct (fit_pid _ _ _ _ _ F Hu) as [[Hu' ->]|[-> ?]].
  - intros He. by apply Hne, (inv_pid_inj s I j i q p).
  - pose proof (inv_pid s I j q Hj Hq). lia.
Qed.

Lemma upd_pid_inj j k q r :
  procs s' !! j = Some q -> procs s' !! k = Some r ->
  p_state q <> UNUSED -> p_state r <> UNUSED -> p_pid q = p_pid r -> j = k.
Proof.
  intros [[-> ->]|[Hne Hj]]%upd_inv [[-> ->]|[Hne' Hk]]%upd_inv Hq Hr He; [done|..].
  - by destruct (upd_pid_fresh k r).
  - by destruct (upd_pid_fresh j q).
  - by apply (inv_pid_inj s I j k q r).
Qed.

Lemma upd_wait j q k r :
  procs s' !! j = Some q -> waiting j q -> procs s' !! k = Some r -> p_parent r = Some j ->
  p_state r <> ZOMBIE.
Proof.
  intros Hj Hw [[-> ->]|[Hne Hk]]%upd_inv Hr Hz.
  - pose proof (upd_parent i p' j upd_eq Hr) as [Hji _].
    apply upd_inv in Hj as [[-> _]|[_ Hj]]; [done|].
    destruct (fit_zombie _ _ _ _ _ F Hz) as [[Hz' He]|Hno]; [|by apply (Hno j q)].
    rewrite He in Hr. by apply (inv_wait s I j q i p).
  - apply upd_inv in Hj as [[-> ->]|[_ Hj]]; [|by apply (inv_wait s I j q k r)].
    destruct (fit_wait _ _ _ _ _ F Hw) as [Hw'|Hno]; [by apply (inv_wait s I i p k r)|].
    by apply (Hno k r).
Qed.

Lemma pinv_upd : pinv s'.
Proof.
  split.
  - rewrite Hp, length_insert. apply I.
  - exact upd_init.
  - exact upd_parent.
  - exact upd_pid.
  - exact upd_pid_inj.
  - exact upd_wait.
  - intros j q [[-> ->]|[Hne Hj]]%upd_inv; [apply F|by apply (inv_tickets s I j)].
Qed.
End upd.

(** ** Changing every slot: waking up *)

Lemma wake_fields c p :
  p_parent (wake c p) = p_parent p /\ p_pid (wake c p) = p_pid p /\
  p_chan (wake c p) = p_chan p /\ p_tickets (wake c p) = p_tickets p /\
  (p_state (wake c p) = p_state p \/ (p_state p = SLEEPING /\ p_state (wake c p) = RUNNABLE)).
Proof. unfold wake. case_decide as H; [|by split_and!; try left]. destruct H. split_and!; try done. by right. Qed.

Lemma wake_alive c p : alive (wake c p) <-> alive p.
Proof.
  destruct (wake_fields c p) as (_ & _ & _ & _ & [Hs|[H1 H2]]); unfold alive; [by rewrite Hs|].
  rewrite H1, H2. naive_solver.
Qed.

Lemma wake_waiting i c p : waiting i (wake c p) -> waiting i p /\ c <> Some (ChanProc i).
Proof.
  unfold waiting, wake. case_decide as H; [by intros [? _]|]. intros [H1 H2]. split; [done|].
  intros ->. by apply H.
Qed.

Section effects.
Context {K : Type} `{KOps K}.
Implicit Types s : ptable K.

Lemma pinv_wake c s : pinv s -> pinv (set_procs (fmap (wake c)) s).
Proof.
  intros [Il Ii Ip Ipid Iinj Iw It].
  assert (forall i q, (wake c <$> procs s) !! i = Some q -> exists p, procs s !! i = Some p /\ q = wake c p) as L.
  { intros i q. rewrite list_lookup_fmap. destruct (procs s !! i) as [p|]; [|done].
    intros [= <-]. eauto. }
  assert (forall i p, procs s !! i = Some p -> (wake c <$> procs s) !! i = Some (wake c p)) as L'.
  { intros i p Hi. by rewrite list_lookup_fmap, Hi. }
  assert (forall p st, p_state (wake c p) = st -> st <> RUNNABLE -> p_state p = st) as St.
  { intros p st. destruct (wake_fields c p) as (_ & _ & _ & _ & [->|[_ ->]]); [done|]. by intros <-. }
  assert (forall p, p_state (wake c p) <> UNUSED -> p_state p <> UNUSED) as Un.
  { intros p. destruct (wake_fields c p) as (_ & _ & _ & _ & [->|[-> _]]); done. }
  assert (forall p, p_parent (wake c p) = p_parent p /\ p_pid (wake c p) = p_pid p /\
    p_tickets (wake c p) = p_tickets p) as Fl by (intros p; by destruct (wake_fields c p) as (?&?&?&?&?)).
  split; cbn [procs set_procs initproc nextpid].
  - by rewrite length_fmap.
  - destruct Ii as (i & p & Hi & Hp & Ha & Hn). exists i, (wake c p).
    split_and!; [done|by apply L'|by apply wake_alive|]. destruct (Fl p) as [-> _]. done.
  - intros i ? q (p & Hi & ->)%L. destruct (Fl p) as [-> _]. intros Hq.
    destruct (Ip i p q Hi Hq) as (? & pq & Hpq & Ha). split; [done|].
    exists (wake c pq). split; [by apply L'|by apply wake_alive].
  - intros i ? (p & Hi & ->)%L Hu%Un. destruct (Fl p) as (_ & -> & _). by apply (Ipid i).
  - intros i j ? ? (p & Hi & ->)%L (q & Hj & ->)%L Hu%Un Hv%Un.
    destruct (Fl p) as (_ & -> & _), (Fl q) as (_ & -> & _). by apply Iinj.
  - intros i ? j ? (p & Hi & ->)%L [Hw _]%wake_waiting (q & Hj & ->)%L Hq Hz.
    destruct (Fl q) as [Hfq _]. rewrite Hfq in Hq. apply (St q ZOMBIE) in Hz; [|done].
    by apply (Iw i p j q).
  - intros i ? (p & Hi & ->)%L. destruct (Fl p) as (_ & _ & ->). by apply (It i).
Qed.

(** ** Running the operations *)

Lemma wlp_getp i (Q : proc -> ptable K -> Prop) s :
  wlp (getp i) Q s <-> (forall p, procs s !! i = Some p -> Q p s).
Proof. unfold wlp, getp. destruct (procs s !! i); naive_solver. Qed.

Lemma wlp_updp i f (Q : unit -> ptable K -> Prop) s :
  wlp (updp i f) Q s <-> Q tt (set_procs (alter f i) s).
Proof. done. Qed.

(** A call into another component leaves the table alone. *)
Lemma wlp_onk {A} (c : M K A) (Q : A -> ptable K -> Prop) s :
  (forall a k, Q a (set_kst k s)) -> wlp (onk c) Q s.
Proof. intros HQ. unfold onk. apply wlp_zoom, wlp_all. intros a k _. apply HQ. Qed.

(** Slot [i], which was [p], is now [p']; nothing else has changed. *)
Definition changed s s' (i : nat) (p p' : proc) : Prop :=
  procs s !! i = Some p /\ procs s' = <[i := p']> (procs s) /\ initproc s' = initproc s.

Definition unchanged s s' : Prop :=
  procs s' = procs s /\ initproc s' = initproc s /\ nextpid s' = nextpid s.

(** The updates of a slot that was [p], as one. *)
Ltac one_slot p :=
  cbn [procs set_procs set_kst]; rewrite ?list_alter_alter; rewrite (list_alter_insert _ _ _ p) by done.

Definition alloc_post s (r : option nat) s' : Prop :=
  (r = None /\ unchanged s s') \/
  exists i p ks, p_state p = UNUSED /\ nextpid s' = i32 (nextpid s + 1) /\
    ((r = None /\ ks = 0) \/ (r = Some i /\ ks <> 0)) /\
    changed s s' i p (set_kstack ks (set_tickets 1 (set_pid_inuse (nextpid s) 1
      (set_state (if decide (r = None) then UNUSED else EMBRYO) p)))).

Lemma allocproc_effect s : wlp allocproc (alloc_post s) s.
Proof.
  unfold allocproc, wlp. destruct (list_find _ (procs s)) as [[i p]|] eqn:Ef; [|by left].
  apply list_find_Some in Ef as (Hi & Hu & _).
  match goal with |- match ?c s with _ => _ end => change (wlp c (alloc_post s) s) end.
  rewrite wlp_bind, wlp_modify, wlp_bind. apply wlp_onk. intros ks k.
  rewrite wlp_bind, wlp_updp. destruct (Z.eqb_spec ks 0) as [->|Hne].
  - rewrite wlp_bind, wlp_updp, wlp_ret. right. exists i, p, 0. split_and!; [done..|by left|].
    split_and!; [done| |done]. by one_slot p.
  - rewrite wlp_ret. right. exists i, p, ks. split_and!; [done..|by right|].
    split_and!; [done| |done]. by one_slot p.
Qed.

(** The files, directory, name and tickets of a new process. *)
Definition child_tail (cur p : proc) : proc :=
  set_tickets (p_tickets cur) (set_state RUNNABLE (set_name (p_name cur) (set_cwd (p_cwd cur)
    (set_ofile (copy_files (p_ofile cur) (p_ofile p)) p)))).

Lemma fork_tail_effect cur np p s :
  procs s !! np = Some p ->
  wlp (fork_tail cur np) (fun r s' =>
    r = p_pid p /\ changed s s' np p (child_tail cur p) /\ nextpid s' = nextpid s) s.
Proof.
  intros Hp. unfold fork_tail. rewrite wlp_bind. apply wlp_onk. intros _ k1.
  rewrite wlp_bind, wlp_updp, wlp_bind.
  destruct (p_cwd cur) as [ip|] eqn:Ec; [|done]. apply wlp_onk. intros _ k2.
  rewrite wlp_bind, wlp_updp, wlp_bind, wlp_getp. intros n Hn.
  rewrite wlp_bind, wlp_updp, wlp_ret. cbn [procs set_procs set_kst] in Hn.
  rewrite list_alter_alter, (list_alter_insert _ _ _ p) in Hn by done.
  rewrite list_lookup_insert_eq in Hn by (by eapply lookup_lt_Some). injection Hn as <-.
  split_and!; [done| |done]. split_and!; [done| |done]. one_slot p.
  unfold child_tail. by rewrite Ec.
Qed.

(** The slot [p] as [fork] fills it in, and as [clone] does. *)
Definition forked (me : nat) (pg : Z) (cur p : proc) : proc :=
  child_tail cur (set_tf
    {| tf_other := tf_other (p_tf cur); tf_ebp := tf_ebp (p_tf cur); tf_eax := 0; tf_es := tf_es (p_tf cur);
       tf_ds := tf_ds (p_tf cur); tf_eip := tf_eip (p_tf cur); tf_cs := tf_cs (p_tf cur);
       tf_eflags := tf_eflags (p_tf cur); tf_esp := tf_esp (p_tf cur); tf_ss := tf_ss (p_tf cur) |}
    (set_parent (Some me) (set_sz (p_sz cur) (set_pgdir pg p)))).
Definition cloned (me : nat) (fcn stack : Z) (cur p : proc) : proc :=
  child_tail cur (set_tf
    {| tf_other := tf_other (p_tf cur); tf_ebp := u32 (stack + PGSIZE - 12); tf_eax := 0; tf_es := tf_es (p_tf cur);
       tf_ds := tf_ds (p_tf cur); tf_eip := fcn; tf_cs := tf_cs (p_tf cur);
       tf_eflags := tf_eflags (p_tf cur); tf_esp := u32 (stack + PGSIZE - 12);
       tf_ss := tf_ss (p_tf cur) |}
    (set_parent (Some me) (set_sz (p_sz cur) (set_pgdir (p_pgdir cur) p)))).

(** What becomes of the slot [np], which was [p]: it is free again, or it is
    [full] and the process id is returned. *)
Definition child_post s (np : nat) (p : proc) (full : proc -> Prop) (r : Z) s' : Prop :=
  nextpid s' = nextpid s /\ exists p', changed s s' np p p' /\
    ((r = -1 /\ p_state p' = UNUSED /\ p_parent p' = p_parent p /\ p_tickets p' = p_tickets p) \/
     (r = p_pid p /\ full p')).

(** [fork] and [clone] return -1, and have at most spoiled a free slot, or they
    return the new process id, for a slot that is [full]. *)
Definition spawn_post s (full : Z -> proc -> Prop) (r : Z) s' : Prop :=
  (r = -1 /\ unchanged s s') \/
  (exists i p p', p_state p = UNUSED /\ nextpid s' = i32 (nextpid s + 1) /\ changed s s' i p p' /\
    ((r = -1 /\ p_state p' = UNUSED /\ p_parent p' = p_parent p /\ p_tickets p' = 1) \/
     (r = nextpid s /\ full (nextpid s) p'))).

Lemma changed_trans s1 s2 s3 i p q r :
  changed s1 s2 i p q -> changed s2 s3 i q r -> changed s1 s3 i p r.
Proof.
  intros (H1 & H2 & H3) (H4 & H5 & H6). split_and!; [done| |congruence].
  by rewrite H5, H2, list_insert_insert_eq.
Qed.

Lemma changed_self s s' i p p' : changed s s' i p p' -> procs s' !! i = Some p'.
Proof. intros (H1 & -> & _). apply list_lookup_insert_eq. by eapply lookup_lt_Some. Qed.

Lemma changed_other s s' i p p' j : changed s s' i p p' -> j <> i -> procs s' !! j = procs s !! j.
Proof. intros (H1 & -> & _) Hj. by apply list_lookup_insert_ne. Qed.

(** Further changes of the slot. *)
Lemma changed_then s s1 i p q f :
  changed s s1 i p q -> changed s (set_procs (alter f i) s1) i p (f q).
Proof.
  intros Hc. eapply changed_trans; [done|]. pose proof (changed_self _ _ _ _ _ Hc).
  split_and!; [done| |done]. by one_slot q.
Qed.

Lemma changed_kst s s1 i p q k : changed s s1 i p q -> changed s (set_kst k s1) i p q.
Proof. done. Qed.

(** Keep [Hc], a change of the slot, in step with the current state. *)
Ltac track Hc :=
  lazymatch goal with
  | |- wlp _ _ (set_procs (alter ?f _) ?s1) =>
      lazymatch type of Hc with
      | changed ?s _ ?i ?p ?q =>
          let Hd := fresh in
          assert (changed s s1 i p q) as Hd by exact Hc;
          apply (changed_then _ _ _ _ _ f) in Hd; clear Hc; rename Hd into Hc
      end
  end.

Lemma updp_changed s i p f :
  procs s !! i = Some p -> changed s (set_procs (alter f i) s) i p (f p).
Proof. intros Hi. split_and!; [done| |done]. by one_slot p. Qed.

Lemma fork_child_effect me cur np p s :
  procs s !! me = Some cur -> procs s !! np = Some p ->
  wlp (fork_child me np) (child_post s np p (fun p' => exists pg, p' = forked me pg cur p)) s.
Proof.
  intros Hme Hnp. unfold fork_child. rewrite wlp_bind, wlp_getp, Hme. intros ? [= <-]. rewrite wlp_bind. apply wlp_onk. intros pg k1.
  rewrite wlp_bind, wlp_updp. pose proof (updp_changed (set_kst k1 s) np p (set_pgdir pg) Hnp) as Hc1.
  destruct (Z.eqb_spec pg 0) as [->|Hpg].
  - rewrite wlp_bind, wlp_getp. intros n _. rewrite wlp_bind. apply wlp_onk. intros _ k2.
    rewrite wlp_bind, wlp_updp, wlp_ret. split; [done|]. eexists. split; [exact (changed_then _ _ _ _ _ _ (changed_kst _ _ _ _ _ k2 Hc1))|by left].
  - rewrite wlp_bind, wlp_updp. track Hc1. eapply wlp_mono; [eapply fork_tail_effect, changed_self, Hc1|].
    intros r s' (-> & Hc2 & Hn'). split; [done|]. eexists. split; [exact (changed_trans _ _ _ _ _ _ _ Hc1 Hc2)|]. right. split; [done|]. by exists pg.
Qed.
Lemma clone_child_effect me cur fcn arg1 arg2 stack np p s :
  procs s !! me = Some cur -> procs s !! np = Some p ->
  wlp (clone_child me fcn arg1 arg2 stack np) (child_post s np p (fun p' => p' = cloned me fcn stack cur p)) s.
Proof.
  intros Hme Hnp. unfold clone_child. rewrite wlp_bind, wlp_getp, Hme. intros ? [= <-]. rewrite wlp_bind, wlp_updp.
  pose proof (updp_changed s np p (fun p => set_parent (Some me) (set_sz (p_sz cur) (set_pgdir (p_pgdir cur) p))) Hnp) as Hc.
  do 3 (rewrite wlp_bind; apply wlp_onk; intros _ ?k). rewrite wlp_bind, wlp_updp. track Hc.
  eapply wlp_mono; [eapply fork_tail_effect, changed_self, Hc|].
  intros r s' (-> & Hc2 & Hn'). split; [done|]. eexists. split; [exact (changed_trans _ _ _ _ _ _ _ Hc Hc2)|]. by right.
Qed.

(** A call that runs [allocproc] and then fills the slot in. *)
Lemma spawn_effect me cur (child : nat -> M (ptable K) Z) (full : proc -> proc -> Prop) s :
  procs s !! me = Some cur -> p_state cur <> UNUSED ->
  (forall np p s', procs s' !! me = Some cur -> procs s' !! np = Some p -> wlp (child np) (child_post s' np p (full p)) s') ->
  wlp (let! onp := allocproc in match onp with None => ret (-1) | Some np => child np end)
    (spawn_post s (fun n p' => exists p, p_pid p = n /\ full p p')) s.
Proof.
  intros Hme Hrun Hchild. rewrite wlp_bind. eapply wlp_mono; [apply allocproc_effect|].
  intros [np|] s1 [[Hr Hu]|(i & p & ks & Hun & Hn & Hr & Hc)]; [done| |by left|].
  - destruct Hr as [[? _]|[[= ->] Hks]]; [done|]. rewrite decide_False in Hc by done.
    eapply wlp_mono; [eapply Hchild; [|exact (changed_self _ _ _ _ _ Hc)]|].
    { rewrite (changed_other _ _ _ _ _ me Hc); [done|]. intros ->. destruct Hc as (Hi & _). naive_solver. }
    intros r s' (Hn' & p' & Hc' & Hp'). right. exists i, p, p'. split_and!; [done|congruence|by eapply changed_trans|].
    destruct Hp' as [(-> & H1 & H2 & H3)|(-> & Hf)]; [by left|right]. split; [done|]. eexists. by split; [|exact Hf].
  - right. exists i, p. eexists. split_and!; [done|done|exact Hc|by left].
Qed.

(** ** Preservation *)

Definition running s (me : nat) (cur : proc) : Prop :=
  procs s !! me = Some cur /\ p_state cur = RUNNING.

(** The fields the invariant is about. *)
Definition same_core (p q : proc) : Prop :=
  p_state q = p_state p /\ p_parent q = p_parent p /\ p_pid q = p_pid p /\ p_chan q = p_chan p.

Lemma pinv_unchanged s s' : unchanged s s' -> pinv s -> pinv s'.
Proof. intros (Hp & Hi & Hn) [? ? ? ? ? ? ?]. split; rewrite ?Hp, ?Hi, ?Hn; done. Qed.

Lemma pinv_changed s s' i p p' :
  changed s s' i p p' -> nextpid s <= nextpid s' -> fits s (nextpid s') i p p' -> pinv s -> pinv s'.
Proof. intros (Hi & Hp & Hinit) Hn Hf Hs. by apply (pinv_upd s s' i p p'). Qed.

Lemma fits_same s n i p p' :
  procs s !! i = Some p -> pinv s -> same_core p p' -> 0 <= p_tickets p' -> fits s n i p p'.
Proof.
  intros Hi Hs (H1 & H2 & H3 & H4) Ht. unfold alive, waiting.
  split; unfold alive, waiting; rewrite ?H1, ?H2, ?H3, ?H4; eauto.
Qed.

(** A change of state of a live process, its other fields being as before. *)
Lemma fits_state s n i p p' :
  alive p -> alive p' -> p_parent p' = p_parent p -> p_pid p' = p_pid p -> 0 <= p_tickets p' ->
  (waiting i p' -> waiting i p \/
    forall j q, procs s !! j = Some q -> p_parent q = Some i -> p_state q <> ZOMBIE) ->
  fits s n i p p'.
Proof.
  intros Ha Ha' Hp Hpid Ht Hw. split; [by left|by left| |done| |done].
  - intros _. left. split; [|done]. by destruct Ha as [->|[->| ->]].
  - intros Hz. exfalso. by destruct Ha' as [E|[E|E]]; rewrite E in Hz.
Qed.

(** What [fork] and [clone] do to the table. *)
Lemma spawn_pinv s s' me cur full r :
  pinv s -> running s me cur -> nextpid s < 2 ^ 31 - 1 ->
  (forall p', full (nextpid s) p' -> p_state p' = RUNNABLE /\ p_pid p' = nextpid s /\
     p_parent p' = Some me /\ p_tickets p' = p_tickets cur) ->
  spawn_post s full r s' -> pinv s'.
Proof.
  intros Hs [Hme Hrun] Hb Hfull [[_ Hu]|(i & p & p' & Hun & Hn & Hc & Hr)];
    [by eapply pinv_unchanged|].
  assert (0 < nextpid s) as Hpos.
  { pose proof (inv_pid s Hs me cur Hme). rewrite Hrun in *. naive_solver lia. }
  rewrite i32_small in Hn by wrap_lia.
  pose proof Hc as (Hi & _). assert (i <> me) by (intros ->; congruence).
  eapply pinv_changed; [done|lia| |done].
  assert (~ alive p) as Hna by (unfold alive; rewrite Hun; by intros [?|[?|?]]).
  destruct Hr as [(_ & H1 & H2 & H3)|(_ & Hf)].
  - split; [done|by left|done| | |lia].
    + intros [? _]. congruence.
    + congruence.
  - apply Hfull in Hf as (H1 & H2 & H3 & H4). split; [done| | | | |].
    + right. left. split.
      * destruct (inv_init s Hs) as (k & pk & Hk & Hpk & Hak & _). intros Heq. simplify_eq. 
      * exists me, cur. split_and!; [done|done|done|]. by right; right.
    + intros _. right. split; [done|lia].
    + intros [? _]. congruence.
    + congruence.
    + rewrite H4. by apply (inv_tickets s Hs me).
Qed.

Lemma fork_pinv s me cur :
  pinv s -> running s me cur -> nextpid s < 2 ^ 31 - 1 -> wlp (fork me) (fun _ => pinv) s.
Proof.
  intros Hs Hr Hb. eapply wlp_mono; [apply (spawn_effect me cur (fork_child me) (fun p p' => exists pg, p' = forked me pg cur p)); [apply Hr|by rewrite (proj2 Hr)|]|].
  - intros np p s'. apply fork_child_effect.
  - intros r s' Hp. cbn beta. eapply spawn_pinv; [done..| |exact Hp]. by intros p' (p & <- & pg & ->).
Qed.

Lemma clone_pinv s me cur fcn a1 a2 st :
  pinv s -> running s me cur -> nextpid s < 2 ^ 31 - 1 ->
  wlp (clone me fcn a1 a2 st) (fun _ => pinv) s.
Proof.
  intros Hs Hr Hb. eapply wlp_mono; [apply (spawn_effect me cur (clone_child me fcn a1 a2 st) (fun p p' => p' = cloned me fcn st cur p)); [apply Hr|by rewrite (proj2 Hr)|]|].
  - intros np p s'. apply clone_child_effect.
  - intros r s' Hp. cbn beta. eapply spawn_pinv; [done..| |exact Hp]. by intros p' (p & <- & ->).
Qed.

(** The two parts of [fork] and [clone] on their own. *)
Lemma allocproc_pinv s : pinv s -> nextpid s < 2 ^ 31 - 1 -> wlp allocproc (fun _ => pinv) s.
Proof.
  intros Hs Hb. eapply wlp_mono; [apply allocproc_effect|]. intros r s' [[_ Hu]|(i & p & ks & Hun & Hn & _ & Hc)]; [by eapply pinv_unchanged|]. cbn beta.
  destruct (inv_init s Hs) as (k & pk & _ & Hk & Hak & _). assert (p_state pk <> UNUSED) as Hku by (by destruct Hak as [->|[->| ->]]).
  pose proof (inv_pid s Hs k pk Hk Hku). rewrite i32_small in Hn by wrap_lia. eapply pinv_changed; [done|lia| |done].
  assert (~ alive p) as Hna by (unfold alive; rewrite Hun; by intros [?|[?|?]]).
  split; cbn; [done|by left| | | |lia].
  - intros _. right. split; [done|lia].
  - intros [? _]. by case_decide.
  - by case_decide.
Qed.
Lemma child_pinv s s' me cur np p full r :
  pinv s -> running s me cur -> procs s !! np = Some p -> p_state p = EMBRYO ->
  (forall p', full p' -> p_state p' = RUNNABLE /\ p_pid p' = p_pid p /\ p_parent p' = Some me /\ p_tickets p' = p_tickets cur) ->
  child_post s np p full r s' -> pinv s'.
Proof.
  intros Hs [Hme Hrun] Hnp He Hfull (Hn & p' & Hc & Hp'). assert (np <> me) by (intros ->; congruence).
  assert (~ alive p) as Hna by (unfold alive; rewrite He; by intros [?|[?|?]]). eapply pinv_changed; [done|lia| |done].
  destruct Hp' as [(_ & H1 & H2 & H3)|(_ & Hf)].
  - split; [done|by left|done| |congruence|]; [intros [? _]; congruence|rewrite H3; by apply (inv_tickets s Hs np)].
  - apply Hfull in Hf as (H1 & H2 & H3 & H4). split; [done| | | |congruence|].
    + right. left. split; [|by exists me, cur; split_and!; [..|right; right]].
      destruct (inv_init s Hs) as (k & pk & Hk & Hpk & Hak & _). intros Heq. simplify_eq.
    + intros _. left. by rewrite He.
    + intros [? _]. congruence.
    + rewrite H4. by apply (inv_tickets s Hs me).
Qed.

(** *** exit *)

(** While [me] passes on its children: those below [k] have been, and the
    parent of [me] has been woken. *)
Definition leaving (me : nat) (k : Z) s : Prop :=
  pinv s /\ initproc s <> Some me /\
  (exists cur, running s me cur /\
    forall q pq, p_parent cur = Some q -> procs s !! q = Some pq -> ~ waiting q pq) /\
  forall j p, Z.of_nat j < k -> procs s !! j = Some p -> p_parent p <> Some me.

Lemma lookup_wake c s i q :
  procs (set_procs (fmap (wake c)) s) !! i = Some q ->
  exists p, procs s !! i = Some p /\ q = wake c p.
Proof.
  cbn. rewrite list_lookup_fmap. destruct (procs s !! i) as [p|]; [|done]. intros [= <-]. eauto.
Qed.

Lemma leaving_wake me k c s : leaving me k s -> leaving me k (set_procs (fmap (wake c)) s).
Proof.
  intros (Hs & Hi & (cur & [Hme Hrun] & Hw) & Hk). split_and!; [by apply pinv_wake|done| |].
  - exists cur. split.
    + split; [|done]. cbn. rewrite list_lookup_fmap, Hme. cbn. unfold wake.
      rewrite decide_False; [done|]. intros [? _]. congruence.
    + intros q ? Hq (pq & Hpq & ->)%lookup_wake [Hwt _]%wake_waiting. by apply (Hw q pq).
  - intros j ? Hj (p & Hp & ->)%lookup_wake. destruct (wake_fields c p) as [-> _]. by apply (Hk j p).
Qed.

(** Giving a child to init, who is not waiting if it is a zombie. *)
Lemma leaving_adopt me k init p s :
  leaving me k s -> 0 <= k -> initproc s = Some init ->
  procs s !! Z.to_nat k = Some p -> p_parent p = Some me ->
  (p_state p = ZOMBIE -> forall q, procs s !! init = Some q -> ~ waiting init q) ->
  leaving me (k + 1) (set_procs (alter (set_parent (Some init)) (Z.to_nat k)) s).
Proof.
  intros (Hs & Hi & (cur & [Hme Hrun] & Hw) & Hk) H0 Hinit Hp Hpar Hz.
  set (i := Z.to_nat k) in *. pose proof (updp_changed s i p (set_parent (Some init)) Hp) as Hc.
  destruct (inv_init s Hs) as (j & pj & Hj & Hpj & Haj & Hnj).
  rewrite Hinit in Hj. injection Hj as <-.
  assert (init <> i) as Hne by (intros ->; congruence).
  assert (i <> me) as Him by (intros ->; by destruct (inv_parent s Hs me p me)).
  split_and!.
  - eapply pinv_changed; [done|done| |done]. split.
    + by left.
    + right. left. split; [congruence|]. by exists init, pj.
    + intros Hu. left. done.
    + by left.
    + intros Hzz. right. intros q pq [= <-] Hpq. by apply Hz.
    + apply (inv_tickets s Hs i p Hp).
  - done.
  - exists cur. split; [split; [|done]; by rewrite (changed_other _ _ _ _ _ me Hc)|].
    intros q pq Hq Hpq Hwt. destruct (decide (q = i)) as [->|Hqi].
    + rewrite (changed_self _ _ _ _ _ Hc) in Hpq. injection Hpq as <-. by apply (Hw i p).
    + rewrite (changed_other _ _ _ _ _ q Hc) in Hpq by done. by apply (Hw q pq).
  - intros j q Hjk. destruct (decide (j = i)) as [->|Hji].
    + rewrite (changed_self _ _ _ _ _ Hc). intros [= <-]. cbn. congruence.
    + rewrite (changed_other _ _ _ _ _ j Hc) by done. apply Hk. lia.
Qed.

Lemma wake_adopt c o i (l : list proc) :
  wake c <$> alter (set_parent o) i l = alter (set_parent o) i (wake c <$> l).
Proof.
  revert i. induction l as [|p l IH]; intros [|i]; [done..| |].
  - cbn. f_equal. unfold wake. cbn [p_state p_chan set_parent]. by case_decide.
  - cbn. f_equal. apply IH.
Qed.

Lemma abandon_leaving me k s :
  0 <= k -> leaving me k s -> wlp (abandon me k) (fun _ => leaving me (k + 1)) s.
Proof.
  intros H0 Hl. unfold abandon. rewrite wlp_bind, wlp_gets, wlp_bind, wlp_getp. intros p Hp.
  pose proof Hl as (Hs & _). destruct (inv_init s Hs) as (init & pi & Hinit & Hpi & _).
  rewrite Hinit. case_decide as Hpar.
  - rewrite wlp_bind, wlp_updp. case_decide as Hz.
    + unfold wakeup1. rewrite wlp_modify.
      match goal with |- leaving _ _ ?st =>
        replace st with (set_procs (alter (set_parent (Some init)) (Z.to_nat k))
          (set_procs (fmap (wake (Some (ChanProc init)))) s)) by
          (unfold set_procs; cbn; f_equal; symmetry; apply wake_adopt) end.
      apply (leaving_adopt _ _ _ (wake (Some (ChanProc init)) p)); [by apply leaving_wake|done..| | |].
      * cbn. by rewrite list_lookup_fmap, Hp.
      * by destruct (wake_fields (Some (ChanProc init)) p) as [-> _].
      * intros _ q (pq & Hpq & ->)%lookup_wake [_ Hn]%wake_waiting. done.
    + rewrite wlp_ret. by apply (leaving_adopt _ _ _ p).
  - rewrite wlp_ret. destruct Hl as (? & ? & ? & Hk). split_and!; [done..|].
    intros j q Hj Hq. destruct (decide (j = Z.to_nat k)) as [->|]; [congruence|].
    apply (Hk j); [lia|done].
Qed.

Lemma pinv_kst s k : pinv s -> pinv (set_kst k s).
Proof. by apply pinv_unchanged. Qed.

(** A change of [me]'s own slot that keeps its state, parent and id. *)
Lemma own_update s me cur f :
  pinv s -> running s me cur -> same_core cur (f cur) -> p_tickets (f cur) = p_tickets cur ->
  pinv (set_procs (alter f me) s) /\ running (set_procs (alter f me) s) me (f cur).
Proof.
  intros Hs [Hme Hrun] Hc Ht. pose proof (updp_changed s me cur f Hme) as Hch. split.
  - eapply pinv_changed; [done|done| |done]. apply fits_same; [done..|].
    rewrite Ht. by apply (inv_tickets s Hs me).
  - split; [by eapply changed_self|]. by rewrite (proj1 Hc).
Qed.

Lemma exit_locked_pinv s me cur : pinv s -> running s me cur -> initproc s <> Some me -> wlp (exit_locked me) (fun _ => pinv) s.
Proof.
  intros Hs Hr Hi. unfold exit_locked.
  rewrite wlp_bind, wlp_getp. intros c Hcur. assert (c = cur) as -> by (destruct Hr; congruence).
  rewrite wlp_bind. unfold wakeup1 at 1. rewrite wlp_modify, wlp_bind.
  eapply wlp_mono; [apply (wlp_for (leaving me))|].
  - intros j st Hj. apply abandon_leaving. lia.
  - split_and!; [by apply pinv_wake|done| |lia].
    exists cur. split.
    + destruct Hr as [Hme Hrun]. split; [|done]. cbn. rewrite list_lookup_fmap, Hme. cbn. unfold wake.
      rewrite decide_False; [done|]. intros [? _]. congruence.
    + intros q ? Hq (pq & Hpq & ->)%lookup_wake [_ Hn]%wake_waiting. by rewrite Hq in Hn.
  - intros _ s3 (Hs3 & Hi3 & (c3 & [Hme3 Hrun3] & Hw3) & Hk). rewrite wlp_updp.
    eapply pinv_changed; [by apply updp_changed|done| |done]. split.
    + intros _. right. split; [done|]. intros j q Hq. apply (Hk j); [|done].
      apply lookup_lt_Some in Hq. rewrite (inv_len s3 Hs3) in Hq. lia.
    + by left.
    + intros _. left. split; [by rewrite Hrun3|done].
    + intros [? _]. done.
    + intros _. right. intros q pq Hq Hpq. by apply Hw3.
    + apply (inv_tickets s3 Hs3 me c3 Hme3).
Qed.

Lemma exit_pinv s me cur : pinv s -> running s me cur -> wlp (exit me) (fun _ => pinv) s.
Proof.
  intros Hs Hr. unfold exit. rewrite wlp_bind, wlp_gets. case_decide as Hi; [done|].
  rewrite wlp_bind, wlp_getp. intros c Hc. assert (c = cur) as -> by (destruct Hr; congruence).
  rewrite wlp_bind. apply wlp_onk. intros _ k1. rewrite wlp_bind, wlp_updp.
  destruct (own_update (set_kst k1 s) me cur
    (fun p => set_ofile (replicate (length (p_ofile cur)) None) p)) as [Hs1 Hr1]; [by apply pinv_kst|done..|].
  rewrite wlp_bind. destruct (p_cwd cur) as [ip|]; [|done]. apply wlp_onk. intros _ k2.
  rewrite wlp_bind, wlp_updp.
  match type of Hr1 with running ?st _ ?c => destruct (own_update (set_kst k2 st) me c (set_cwd None))
    as [Hs2 Hr2]; [by apply pinv_kst|done..|] end.
  by eapply exit_locked_pinv.
Qed.

(** *** sleep, wakeup, yield, scheduler, kill *)

Lemma sleep_pinv s me cur chan :
  pinv s -> running s me cur ->
  (chan = ChanProc me -> forall j q, procs s !! j = Some q -> p_parent q = Some me -> p_state q <> ZOMBIE) ->
  wlp (sleep me chan) (fun _ => pinv) s.
Proof.
  intros Hs [Hme Hrun] Hw. unfold sleep. rewrite wlp_updp.
  eapply pinv_changed; [by apply updp_changed|done| |done].
  apply fits_state; [by right; right|by left|done|done|exact (inv_tickets s Hs me cur Hme)|].
  intros [_ [= ->]]. right. by apply Hw.
Qed.

Lemma wakeup_pinv s chan : pinv s -> wlp (wakeup chan) (fun _ => pinv) s.
Proof. intros Hs. unfold wakeup, wakeup1. rewrite wlp_modify. by apply pinv_wake. Qed.

Lemma yield_pinv s me cur : pinv s -> running s me cur -> wlp (yield me) (fun _ => pinv) s.
Proof.
  intros Hs [Hme Hrun]. unfold yield. rewrite wlp_updp.
  eapply pinv_changed; [by apply updp_changed|done| |done].
  apply fits_state; [by right; right|by right; left|done|done|exact (inv_tickets s Hs me cur Hme)|].
  by intros [? _].
Qed.

Lemma pick_runnable r c ps i : pick r c ps = Some i -> exists p, ps !! i = Some p /\ p_state p = RUNNABLE.
Proof.
  revert c i. induction ps as [|p ps IH]; intros c i; cbn [pick]; [done|].
  assert (forall o, S <$> o = Some i -> (forall j, o = Some j -> exists q, ps !! j = Some q /\ p_state q = RUNNABLE) ->
    exists q, (p :: ps) !! i = Some q /\ p_state q = RUNNABLE) as Hs.
  { intros [j|] [= <-] Hj. by apply Hj. }
  case_decide as Hp.
  - case_match; [intros [= <-]; by exists p|]. intros Hpk. eapply Hs; [exact Hpk|apply IH].
  - intros Hpk. eapply Hs; [exact Hpk|apply IH].
Qed.

Lemma scheduler_pinv s : pinv s -> wlp scheduler (fun _ => pinv) s.
Proof.
  intros Hs. apply wlp_all. intros w s'. unfold scheduler.
  destruct (draw _ _) as [r| | |]; [|done..]. intros [= <- <-].
  destruct (pick r 0 (procs s)) as [i|] eqn:Ep; [|by apply (pinv_unchanged s)].
  apply pick_runnable in Ep as (p & Hi & Hp).
  eapply (pinv_changed s _ i p); [split_and!; [done| |done]; cbn [procs]; by apply list_alter_insert|done| |done].
  apply fits_state; [by right; left|by right; right|done|done|exact (inv_tickets s Hs i p Hi)|].
  by intros [? _].
Qed.

Lemma kill_pinv s pid : pinv s -> wlp (kill pid) (fun _ => pinv) s.
Proof.
  intros Hs. unfold kill. rewrite wlp_bind, wlp_gets.
  destruct (list_find _ _) as [[i p]|] eqn:Ef; [|by rewrite wlp_ret].
  apply list_find_Some in Ef as (Hi & _ & _). rewrite wlp_bind, wlp_updp, wlp_ret.
  eapply pinv_changed; [by apply updp_changed|done| |done]. cbn beta zeta.
  pose proof (inv_tickets s Hs i p Hi). case_decide as Hsl.
  - apply fits_state; [by left|by right; left|done..|]. by intros [? _].
  - by apply fits_same.
Qed.

Lemma growproc_pinv s me cur n : pinv s -> running s me cur -> wlp (growproc me n) (fun _ => pinv) s.
Proof.
  intros Hs Hr. unfold growproc. rewrite wlp_bind, wlp_getp. intros c Hc.
  assert (forall k sz, pinv (set_procs (alter (set_sz sz) me) (set_kst k s))) as Hset.
  { intros k sz. apply (own_update (set_kst k s) me cur (set_sz sz)); [by apply pinv_kst|done..]. }
  repeat case_match; rewrite ?wlp_bind;
    try (apply wlp_onk; intros sz k; cbn beta; case_match; rewrite ?wlp_bind, ?wlp_ret; [by apply pinv_kst|apply Hset]).
  rewrite wlp_updp, wlp_ret. specialize (Hset (kst s) (p_sz c)). by destruct s.
Qed.

(** *** wait and join *)

Lemma reap_pinv s i p :
  pinv s -> procs s !! i = Some p -> p_state p = ZOMBIE -> wlp (reap i) (fun _ => pinv) s.
Proof.
  intros Hs Hi Hz. unfold reap. rewrite wlp_bind, wlp_getp. intros q Hq. simplify_eq.
  rewrite wlp_bind. apply wlp_onk. intros _ k1. rewrite wlp_bind, wlp_updp.
  rewrite wlp_bind. apply wlp_onk. intros _ k2. rewrite wlp_bind, wlp_updp, wlp_ret.
  pose proof (updp_changed (set_kst k1 s) i p (set_kstack 0) Hi) as Hc.
  match goal with |- pinv (set_procs (alter ?f _) ?st) =>
    apply (changed_then (set_kst k1 s) st i p _ f) in Hc end.
  eapply (pinv_changed s _ i p); [exact Hc|done| |done].
  split; [|by right; right|done| |done|done].
  - intros [?|[?|?]]; congruence.
  - by intros [? _].
Qed.

Lemma wait_pinv s me cur : pinv s -> running s me cur -> wlp (wait me) (fun _ => pinv) s.
Proof.
  intros Hs Hr. unfold wait. rewrite wlp_bind, wlp_gets.
  destruct (list_find _ _) as [[i p]|] eqn:Ef.
  - apply list_find_Some in Ef as (Hi & [_ Hz] & _). rewrite wlp_bind.
    eapply wlp_mono; [by eapply reap_pinv|]. done.
  - rewrite wlp_bind, wlp_getp. intros c Hc. case_match; [done|]. rewrite wlp_bind.
    eapply wlp_mono; [eapply sleep_pinv; [done|done|]|done].
    intros _ j q Hj Hq Hz. apply list_find_None in Ef. rewrite Forall_lookup in Ef. by apply (Ef j q).
Qed.

Lemma join_scan_effect me n i s :
  wlp (join_scan me n i) (fun r s' => unchanged s s' /\
    match r with
    | Some j => exists p, procs s !! j = Some p /\ p_state p = ZOMBIE
    | None => forall j q, (i <= j < i + n)%nat -> procs s !! j = Some q ->
                p_parent q = Some me -> p_state q <> ZOMBIE
    end) s.
Proof.
  revert i s. induction n as [|n IH]; intros i s; cbn [join_scan].
  { rewrite wlp_ret. split; [done|]. lia. }
  rewrite wlp_bind, wlp_getp. intros p Hp. rewrite wlp_bind.
  assert (forall s1, unchanged s s1 -> (p_parent p = Some me -> p_state p <> ZOMBIE) ->
    wlp (join_scan me n (S i)) (fun r s' => unchanged s s' /\
      match r with
      | Some j => exists p, procs s !! j = Some p /\ p_state p = ZOMBIE
      | None => forall j q, (i <= j < i + S n)%nat -> procs s !! j = Some q ->
                  p_parent q = Some me -> p_state q <> ZOMBIE
      end) s1) as Hrec.
  { intros s1 (U1 & U2 & U3) Hnz. eapply wlp_mono; [apply IH|]. intros r s' ((V1 & V2 & V3) & Hr).
    rewrite U1, U2, U3 in *. split; [done|]. destruct r as [j|]; [done|].
    intros j q Hj Hq Hpar. destruct (decide (j = i)) as [->|]; [simplify_eq; by apply Hnz|].
    apply (Hr j); [lia|done..]. }
  case_decide as Hpar.
  - rewrite wlp_ret. case_decide as Hz; [rewrite wlp_ret; split; [done|by exists p]|].
    by apply Hrec.
  - destruct (p_parent p) as [q|] eqn:Eq.
    + rewrite wlp_bind, wlp_getp. intros pp _. rewrite wlp_ret. case_match; [by apply Hrec; [|congruence]|].
      case_decide; [rewrite wlp_ret; split; [done|by exists p]|]. by apply Hrec.
    + rewrite wlp_bind, wlp_getp. intros cur _. rewrite wlp_bind. apply wlp_onk. intros w k.
      rewrite wlp_ret. case_match; [by apply Hrec; [|congruence]|].
      case_decide; [rewrite wlp_ret; split; [done|by exists p]|]. by apply Hrec.
Qed.

Lemma unchanged_running s s' me cur : unchanged s s' -> running s me cur -> running s' me cur.
Proof. intros (Hp & _). unfold running. by rewrite Hp. Qed.

Lemma join_pinv s me cur : pinv s -> running s me cur -> wlp (join me) (fun _ => pinv) s.
Proof.
  intros Hs Hr. unfold join. rewrite wlp_bind. eapply wlp_mono; [apply join_scan_effect|].
  intros [i|] s1 [Hu Hj].
  - destruct Hj as (p & Hi & Hz). apply (pinv_unchanged s s1 Hu) in Hs.
    rewrite <- (proj1 Hu) in Hi. rewrite wlp_bind, wlp_getp. intros q Hq. simplify_eq.
    rewrite wlp_bind, wlp_updp, wlp_bind. apply wlp_onk. intros _ k. rewrite wlp_ret.
    apply pinv_kst. eapply pinv_changed; [by apply updp_changed|done| |done].
    split; [|by left|done| |done|exact (inv_tickets s1 Hs i p Hi)].
    + intros [?|[?|?]]; congruence.
    + by intros [? _].
  - rewrite wlp_bind. eapply wlp_mono; [eapply sleep_pinv|done].
    + by eapply pinv_unchanged.
    + by eapply unchanged_running.
    + intros _ j q. rewrite (proj1 Hu). intros Hq. apply (Hj j q); [|done].
      apply lookup_lt_Some in Hq. rewrite (inv_len s Hs) in Hq. lia.
Qed.

(** *** The system calls of sysproc.c *)

Lemma wlp_argint me n s (Q : option Z -> ptable K -> Prop) :
  (forall r k, Q r (set_kst k s)) -> wlp (argint me n) Q s.
Proof.
  intros HQ. assert (forall r, Q r s) as HQ' by (intros r; specialize (HQ r (kst s)); by destruct s).
  unfold argint, fetchint. rewrite wlp_bind, wlp_getp. intros p _.
  rewrite wlp_bind, wlp_getp. intros q _. case_match; [by rewrite wlp_ret|].
  rewrite wlp_bind. apply wlp_onk. intros w k. by rewrite wlp_ret.
Qed.

Lemma with_arg_pinv me cur n body s :
  pinv s -> running s me cur ->
  (forall i k, pinv (set_kst k s) -> running (set_kst k s) me cur ->
    wlp (body i) (fun _ => pinv) (set_kst k s)) ->
  wlp (with_arg me n body) (fun _ => pinv) s.
Proof.
  intros Hs Hr Hb. unfold with_arg. rewrite wlp_bind. apply wlp_argint. intros [i|] k.
  - apply Hb; [by apply pinv_kst|done].
  - rewrite wlp_ret. by apply pinv_kst.
Qed.

Lemma returning_pinv c s : wlp c (fun _ => pinv) s -> wlp (returning c) (fun _ => pinv) s.
Proof. intros Hc. unfold returning. rewrite wlp_bind. eapply wlp_mono; [exact Hc|]. done. Qed.

Lemma onk_pinv {A} (c : M K A) s : pinv s -> wlp (onk c) (fun _ => pinv) s.
Proof. intros Hs. apply wlp_onk. intros a k. by apply pinv_kst. Qed.

Lemma sys_sleep_loop_pinv tc me cur t0 n s :
  pinv s -> running s me cur -> wlp (sys_sleep_loop tc me t0 n) (fun _ => pinv) s.
Proof.
  intros Hs Hr. unfold sys_sleep_loop. rewrite wlp_bind. apply wlp_onk. intros t k.
  case_match; [|rewrite wlp_ret; by apply pinv_kst]. rewrite wlp_bind, wlp_getp. intros c Hc.
  case_match; [rewrite wlp_ret; by apply pinv_kst|]. rewrite wlp_bind.
  eapply wlp_mono; [eapply sleep_pinv|done]; [by apply pinv_kst|exact Hr|done].
Qed.

Definition keeps_pinv (f : nat -> M (ptable K) wait_res) : Prop :=
  forall me cur s, pinv s -> running s me cur -> nextpid s < 2 ^ 31 - 1 ->
    wlp (f me) (fun _ => pinv) s.

Lemma sys_settickets_pinv : keeps_pinv sys_settickets.
Proof.
  intros me cur s Hs Hr _. eapply with_arg_pinv; [done..|]. intros n k Hs1 [Hme Hrun].
  destruct (Z.ltb_spec n 0); [by rewrite wlp_ret|]. rewrite wlp_bind, wlp_updp, wlp_ret.
  eapply pinv_changed; [by apply updp_changed|done| |done]. by apply fits_same.
Qed.

Lemma sys_getpinfo_pinv : keeps_pinv sys_getpinfo.
Proof.
  intros me cur s Hs Hr _. eapply with_arg_pinv; [done..|]. intros n k Hs1 Hr1.
  rewrite wlp_bind. unfold getpstat. rewrite wlp_bind, wlp_getp. intros c _. rewrite wlp_bind, wlp_gets.
  apply wlp_onk. intros _ k2. rewrite wlp_ret. by apply pinv_kst.
Qed.

Lemma sys_sbrk_pinv : keeps_pinv sys_sbrk.
Proof.
  intros me cur s Hs Hr _. eapply with_arg_pinv; [done..|]. intros n k Hs1 Hr1.
  rewrite wlp_bind, wlp_getp. intros c Hc. rewrite wlp_bind.
  eapply wlp_mono; [by eapply growproc_pinv|done].
Qed.

Lemma sys_sleep_pinv tc : keeps_pinv (sys_sleep tc).
Proof.
  intros me cur s Hs Hr _. eapply with_arg_pinv; [done..|]. intros n k Hs1 Hr1.
  rewrite wlp_bind. apply wlp_onk. intros t k2. eapply sys_sleep_loop_pinv; [by apply pinv_kst|exact Hr1].
Qed.

Lemma sys_clone_pinv : keeps_pinv sys_clone.
Proof.
  intros me cur s Hs Hr Hb. unfold sys_clone.
  do 4 (eapply with_arg_pinv; [eassumption..|]; intros ? ? ? ?).
  apply returning_pinv. eapply clone_pinv; eassumption.
Qed.

Lemma protect_pinv (op : Z -> Z -> Z -> Z -> M K Z) :
  keeps_pinv (fun me => with_arg me 0 (fun addr => with_arg me 1 (fun len =>
    let! cur := getp me in returning (onk (op (p_sz cur) (p_pgdir cur) (u32 addr) len))))).
Proof.
  intros me cur s Hs Hr Hb. do 2 (eapply with_arg_pinv; [eassumption..|]; intros ? ? ? ?).
  rewrite wlp_bind, wlp_getp. intros c _. by apply returning_pinv, onk_pinv.
Qed.

Lemma syscalls_pinv tc :
  Forall (fun o => forall f, o = Some f -> keeps_pinv f) (syscalls tc (fun _ => None)).
Proof.
  unfold syscalls.
  repeat (apply Forall_cons; split; [|]); [..|constructor]; try done; intros f [= <-].
  - intros me cur s Hs Hr Hb. apply returning_pinv. by eapply fork_pinv.
  - intros me cur s Hs Hr Hb. unfold sys_exit. rewrite wlp_bind. eapply wlp_mono; [by eapply exit_pinv|done].
  - intros me cur s Hs Hr Hb. by eapply wait_pinv.
  - intros me cur s Hs Hr Hb. eapply with_arg_pinv; [done..|]. intros n k Hs1 Hr1.
    by apply returning_pinv, kill_pinv.
  - intros me cur s Hs Hr Hb. unfold sys_getpid. rewrite wlp_bind, wlp_getp. done.
  - apply sys_sbrk_pinv.
  - apply sys_sleep_pinv.
  - intros me cur s Hs Hr Hb. unfold sys_uptime. rewrite wlp_bind. apply wlp_onk. intros t k.
    rewrite wlp_ret. by apply pinv_kst.
  - apply sys_settickets_pinv.
  - apply sys_getpinfo_pinv.
  - apply protect_pinv.
  - apply protect_pinv.
  - apply sys_clone_pinv.
  - intros me cur s Hs Hr Hb. eapply with_arg_pinv; [done..|]. intros n k Hs1 Hr1. by eapply join_pinv.
Qed.

(** ** From boot on *)

Definition boot_table (k : K) : ptable K :=
  {| procs := replicate (Z.to_nat NPROC) zero_proc; nextpid := 1; initproc := None;
     seed := 1234; kst := k |}.

Lemma first_process_pinv s i p k0 :
  procs s = <[i := p]> (replicate (Z.to_nat NPROC) zero_proc) -> (i < Z.to_nat NPROC)%nat ->
  initproc s = Some i -> nextpid s = 2 -> kst s = k0 ->
  alive p -> p_parent p = None -> p_pid p = 1 -> p_tickets p = 1 -> pinv s.
Proof.
  intros Hp Hlt Hi Hn _ Ha Hpar Hpid Ht.
  assert (procs s !! i = Some p) as Hpi.
  { rewrite Hp. apply list_lookup_insert_eq. by rewrite length_replicate. }
  assert (forall j q, procs s !! j = Some q -> (j = i /\ q = p) \/ q = zero_proc) as L.
  { intros j q. rewrite Hp. destruct (decide (i = j)) as [<-|Hne].
    - rewrite list_lookup_insert_eq by (by rewrite length_replicate). naive_solver.
    - rewrite list_lookup_insert_ne by done. intros [-> _]%lookup_replicate. by right. }
  split.
  - by rewrite Hp, length_insert, length_replicate.
  - by exists i, p.
  - intros j q r [[-> ->]| ->]%L; [congruence|done].
  - intros j q [[-> ->]| ->]%L; [lia|done].
  - intros j k q r [[-> ->]| ->]%L [[-> ->]| ->]%L; done.
  - intros j q k r _ _ [[-> ->]| ->]%L; [congruence|done].
  - intros j q [[-> ->]| ->]%L; [lia|done].
Qed.

Lemma userinit_pinv k : wlp userinit (fun _ => pinv) (boot_table k).
Proof.
  unfold userinit. rewrite wlp_bind. eapply wlp_mono; [apply allocproc_effect|].
  intros [np|] s1 [[? Hu]|(i & p & ks & Hun & Hn & Hr & Hc)]; [done| |done..].
  destruct Hr as [[? _]|[[= ->] Hks]]; [done|]. rewrite decide_False in Hc by done.
  destruct Hc as (Hi & Hp & _). cbn [procs boot_table] in Hi, Hp.
  apply lookup_replicate in Hi as [-> Hlt].
  rewrite wlp_bind, wlp_modify, wlp_bind. apply wlp_onk. intros pg k1. rewrite wlp_bind, wlp_updp.
  case_match; [done|]. rewrite wlp_bind. apply wlp_onk. intros _ k2. rewrite wlp_bind, wlp_updp.
  rewrite wlp_bind. apply wlp_onk. intros root k3. rewrite wlp_updp.
  eapply (first_process_pinv _ i); [|done|done|exact Hn|done|..].
  - cbn [procs set_procs set_kst]. rewrite !list_alter_alter, Hp.
    rewrite (list_alter_insert _ _ _ _ (list_lookup_insert_eq _ _ _ ltac:(by rewrite length_replicate))).
    by rewrite list_insert_insert_eq.
  - by right; left.
  - done.
  - done.
  - done.
Qed.

(** What the processes, the scheduler and the interrupt handlers do to the
    table: a system call of sysproc.c, the next pass of the loop of a process
    that slept in one, [sleep] and [wakeup] on the channels of other
    components, a process changing the rest of its own slot (exec, open, close,
    chdir, a fault, the first part of [exit]), [yield], [exit] on the way out of
    a trap, a round of the scheduler, and work of other components. [fork],
    [clone] and [exit] do not keep the lock throughout: the slot made by
    [allocproc] may be filled in by a later step, of any process, and the part of
    [exit] that is under the lock may come after other steps. [nextpid] is an
    int, and steps that would make it overflow are left out. *)
Inductive pstep (tc : Z) : ptable K -> ptable K -> Prop :=
| ps_syscall num f me cur r s s' :
    syscalls tc (fun _ => None) !! num = Some (Some f) -> running s me cur ->
    nextpid s < 2 ^ 31 - 1 -> f me s = Done (r, s') -> pstep tc s s'
| ps_wait me cur r s s' : running s me cur -> wait me s = Done (r, s') -> pstep tc s s'
| ps_join me cur r s s' : running s me cur -> join me s = Done (r, s') -> pstep tc s s'
| ps_sleeping me cur t0 n r s s' :
    running s me cur -> sys_sleep_loop tc me t0 n s = Done (r, s') -> pstep tc s s'
| ps_sleep me cur a s s' : running s me cur -> sleep me (ChanAddr a) s = Done (tt, s') -> pstep tc s s'
| ps_wakeup a s s' : wakeup (Some (ChanAddr a)) s = Done (tt, s') -> pstep tc s s'
| ps_own me cur f s :
    running s me cur -> same_core cur (f cur) -> p_tickets (f cur) = p_tickets cur ->
    pstep tc s (set_procs (alter f me) s)
| ps_yield me cur s s' : running s me cur -> yield me s = Done (tt, s') -> pstep tc s s'
| ps_exit me cur s s' : running s me cur -> exit me s = Done (tt, s') -> pstep tc s s'
| ps_alloc me cur r s s' : running s me cur -> nextpid s < 2 ^ 31 - 1 -> allocproc s = Done (r, s') -> pstep tc s s'
| ps_fork_child me cur np p r s s' :
    running s me cur -> procs s !! np = Some p -> p_state p = EMBRYO -> fork_child me np s = Done (r, s') -> pstep tc s s'
| ps_clone_child me cur fcn a1 a2 st np p r s s' :
    running s me cur -> procs s !! np = Some p -> p_state p = EMBRYO -> clone_child me fcn a1 a2 st np s = Done (r, s') -> pstep tc s s'
| ps_exit_locked me cur s s' :
    running s me cur -> initproc s <> Some me -> exit_locked me s = Done (tt, s') -> pstep tc s s'
| ps_sched w s s' : scheduler s = Done (w, s') -> pstep tc s s'
| ps_other k s : pstep tc s (set_kst k s).

Lemma pstep_pinv tc s s' : pstep tc s s' -> pinv s -> pinv s'.
Proof.
  assert (forall A (c : M (ptable K) A) s r s', c s = Done (r, s') ->
    wlp c (fun _ => pinv) s -> pinv s') as W by (intros A c s1 r s2; apply (wlp_done c (fun _ => pinv))).
  destruct 1; intros Hs.
  - pose proof (syscalls_pinv tc) as Hall. rewrite Forall_lookup in Hall.
    eapply W; [done|]. by eapply (Hall _ _ H0).
  - eapply W; [done|]. by eapply wait_pinv.
  - eapply W; [done|]. by eapply join_pinv.
  - eapply W; [done|]. by eapply sys_sleep_loop_pinv.
  - eapply W; [done|]. by eapply sleep_pinv.
  - eapply W; [done|]. by eapply wakeup_pinv.
  - by eapply own_update.
  - eapply W; [done|]. by eapply yield_pinv.
  - eapply W; [done|]. by eapply exit_pinv.
  - eapply W; [done|]. by apply allocproc_pinv.
  - eapply child_pinv; [done..| |eapply wlp_done; [done|by apply (fork_child_effect me cur np p); [apply H0|]]]. by intros p' [pg ->].
  - eapply child_pinv; [done..| |eapply wlp_done; [done|by apply (clone_child_effect me cur fcn a1 a2 st np p); [apply H0|]]]. by intros p' ->.
  - eapply W; [done|]. by eapply exit_locked_pinv.
  - eapply W; [done|]. by eapply scheduler_pinv.
  - by apply pinv_kst.
Qed.

(** Property C9: from [userinit] on, in every interleaving of the processes, as
    long as [nextpid] has not reached 2^31 - 1: init never goes away, the parent
    of a process is alive (children of a process that exits go to init), process
    ids are unique, ticket counts are not negative, and no process sleeps in
    [wait] or [join] while it has a zombie child to collect. The steps are the
    sections under the lock of the table; other steps may come between the two
    parts of [fork] and of [clone], and between those of [exit]. *)
Theorem process_table_invariant tc k s0 s :
  userinit (boot_table k) = Done (tt, s0) -> rtc (pstep tc) s0 s -> pinv s.
Proof.
  intros Hu Hr. assert (pinv s0) as H0 by
    exact (wlp_done _ (fun _ => pinv) _ _ _ Hu (userinit_pinv k)).
  clear Hu. induction Hr as [|s0 s1 s2 Hst Hr IH]; [done|]. by eapply IH, pstep_pinv.
Qed.
End effects.

(** ** Examples *)

Definition final {K A} (c : M (ptable K) A) (s : ptable K) : ptable K :=
  match c s with Done (_, s') => s' | _ => s end.

Definition booted : ptable unit := final (@userinit _ flat_ops) (boot_table tt).

(** init starts to fork, loses the processor, finishes and waits; the child
    runs and exits, and init collects it. *)
Definition life : list (ptable unit -> ptable unit) :=
  [final scheduler; final (@allocproc _ flat_ops); final (yield 0); final scheduler; final (@fork_child _ flat_ops 0 1);
   final (@wait _ flat_ops 0); final scheduler; final (@exit_locked _ 1); final scheduler; final (@wait _ flat_ops 0)].
Definition lived : ptable unit := foldl (fun s f => f s) booted life.

Ltac evaluated := vm_compute; reflexivity.
Lemma process_table_invariant_witness : pinv lived /\ p_state <$> procs lived !! 1%nat = Some UNUSED /\ nextpid lived = 3.
Proof.
  split; [|split; evaluated]. apply (@process_table_invariant _ flat_ops 0 tt booted); [evaluated|].
  unfold lived, life. cbn [foldl].
  eapply rtc_l; [eapply (ps_sched 0 (Some O)); evaluated|].
  eapply rtc_l; [eapply (ps_alloc 0 0); [split; evaluated|evaluated|evaluated]|].
  eapply rtc_l; [eapply (ps_yield 0 0); [split; evaluated|evaluated]|].
  eapply rtc_l; [eapply (ps_sched 0 (Some O)); evaluated|].
  eapply rtc_l; [eapply (ps_fork_child 0 0 _ 1); [split; evaluated|evaluated|evaluated|evaluated]|].
  eapply rtc_l; [eapply (ps_wait 0 0); [split; evaluated|evaluated]|].
  eapply rtc_l; [eapply (ps_sched 0 (Some 1%nat)); evaluated|].
  eapply rtc_l; [eapply (ps_exit_locked 0 1); [split; evaluated|by vm_compute|evaluated]|].
  eapply rtc_l; [eapply (ps_sched 0 (Some O)); evaluated|].
  eapply rtc_once. eapply (ps_wait 0 0); [split; evaluated|evaluated].
Defined.

(** Free slots have process id 0 and the slot found by [kill] is not checked to
    be in use: [kill(0)] marks a free slot, and the next process starts out
    killed, since [allocproc] does not clear the mark. *)
Example kill_zero_kills_next_child :
  let s := final scheduler booted in
  exists s1 s2, @kill _ 0 s = Done (0, s1) /\ @fork _ flat_ops 0 s1 = Done (2, s2) /\
    (p_killed <$> procs s2 !! 1%nat) = Some true.
Proof. eexists _, _. split; [vm_compute; reflexivity|]. split; vm_compute; reflexivity. Qed.

(** [join] leaves the process id of the thread it collects in the free slot, and
    [kill] of that id still succeeds. *)
Example kill_joined_thread :
  exists s1 s2 s3 s4, @clone _ flat_ops 0 100 1 2 8192 (final scheduler booted) = Done (2, s1) /\
    @exit _ flat_ops 1 s1 = Done (tt, s2) /\
    @join _ flat_ops 0 s2 = Done (WaitRet 2, s3) /\ kill 2 s3 = Done (0, s4) /\
    (p_state <$> procs s3 !! 1%nat) = Some UNUSED.
Proof.
  eexists _, _, _, _. split; [vm_compute; reflexivity|]. split; [vm_compute; reflexivity|].
  split; [vm_compute; reflexivity|]. split; vm_compute; reflexivity.
Qed.

(** The page directories freed. *)
Definition free_ops : KOps (list Z) :=
  {| k_kalloc := ret 4096; k_kfree _ := ret tt; k_setupkvm := ret 8192; k_inituvm _ := ret tt;
     k_copyuvm _ _ := ret 12288; k_allocuvm _ _ n := ret n; k_deallocuvm _ _ n := ret n;
     k_freevm pg := modify (cons pg); k_store_user _ _ _ := ret tt; k_load_user _ _ := ret 0;
     k_load_byte _ _ := ret 0; k_mprotect _ _ _ _ := ret 0; k_munprotect _ _ _ _ := ret 0;
     k_ticks := ret 0; k_tick := ret tt; k_filedup _ := ret tt; k_fileclose _ := ret tt;
     k_idup _ := ret tt; k_iput_op _ := ret tt; k_namei_root := ret (Some O) |}.

(** [wait] collects threads as if they were processes: it frees the page
    directory that the caller is still running on. *)
Example wait_frees_own_memory :
  let s := final scheduler (final (@userinit _ free_ops) (boot_table [])) in
  exists s1 s2 s3, @clone _ free_ops 0 100 1 2 8192 s = Done (2, s1) /\
    @exit _ free_ops 1 s1 = Done (tt, s2) /\ @wait _ free_ops 0 s2 = Done (WaitRet 2, s3) /\
    kst s3 = [8192] /\ (p_pgdir <$> procs s3 !! 0%nat) = Some 8192.
Proof.
  eexists _, _, _. split; [vm_compute; reflexivity|]. split; [vm_compute; reflexivity|].
  split; [vm_compute; reflexivity|]. split; vm_compute; reflexivity.
Qed.
